(* ===== verification/_CoqProject ===== *)
-Q . S2P
Prelude.v
NgxCore.v
Json.v
JsonSpec.v
JsonSound.v
JsonComplete.v
JsonThms.v
Ratecap.v
Loadcap.v
Ident.v
Expiry.v
Http.v
HttpChunk.v
HttpParse.v
HttpResume.v
HttpThms.v
HttpClient.v
HttpClientSteps.v
HttpClientThms.v
Rbtree.v
Shm.v
Store.v
Challenge.v
ChallengeThms.v
Alpn.v
AlpnThms.v
Requests.v
RequestsNames.v
RequestsThms.v
Registry.v
Marker.v
Sched.v
SchedInv.v
SchedLedger.v
SchedLoops.v
SchedRuntime.v
SchedBoot.v
SchedEvents.v
SchedThms.v
Tree.v
OrderStore.v
OrderStoreInv.v
OrderState.v
Account.v
Config.v
ConfigNames.v
ConfigRun.v
ConfigLimits.v
ConfigDirect.v
Order.v
OrderInv.v
OrderPost.v
OrderEnd.v
OrderSteps.v
OrderReplies.v
OrderEvents.v
OrderRun.v
OrderThms.v
OrderJson.v
OrderStoreWrite.v
OrderStoreThms.v
Serve.v
ServeInv.v
ServeConn.v
ServeRun.v
ServeEvents.v
ServeThms.v
ConfigThms.v
WellKnown.v
Base64.v
Jose.v
Cert.v
JoseThms.v
Orphans.v
SafeOpen.v
Win32.v
Verify.v
Seed.v
AccountKey.v
Lifecycle.v
