(* ===== verification/Prelude.v ===== *)
(** * Verification of nginx-autocert-module

    autocert is an nginx module, in C, that obtains and renews TLS certificates
    over ACME from inside the server.  A privileged helper process runs the
    driver (src/src/ngx_autocert_driver.c): it decides which names need a
    certificate, registers an account (ngx_autocert_account.c), runs one order
    at a time per name (ngx_autocert_order.c) through an HTTPS client written for
    it (ngx_autocert_acme.c), whose replies are read with a JSON parser written
    for it (ngx_autocert_json.c).  The workers answer the CA's validations out of
    two shared-memory stores, one for HTTP-01 tokens (ngx_autocert_challenge.c)
    and one for TLS-ALPN-01 certificates (ngx_autocert_alpn.c), serve the
    certificates (ngx_autocert_serve.c), and report names seen at run time in a
    third shared zone (ngx_autocert_requests.c), which the driver drains under
    the rate caps of ngx_autocert_ratecap.h.

    The development translates the parts of that program that parse input it does
    not control, share state between processes, or promise a bound, and proves
    what they promise one another.

    ** Conventions

    - A byte string is a list of integers ([bytes]); [is_byte] is assumed only
      where it matters.  Unsigned machine integers are integers with the
      reduction written out ([u32], [u64]) wherever the code may wrap.
    - Stateful code is a [prog S A]: a function from a state to an [outcome],
      which is a result with a new state, or a [Fault] (a read or write outside a
      buffer, a touched free block, a second lock of a mutex), or [NoFuel].  A
      theorem that a program is safe and ends says that its outcome is a [Ret];
      fuel is a hypothesis of a property only where one bound does for all
      inputs (the orders, below).
    - [wp] is the weakest precondition of a [prog]; component lemmas are named
      [wp_f] or [f_spec] and are applied, not unfolded, by their clients.  Where a
      program does have a fault, [Blame] says what it may be put down to: then
      [wp] is that the program returns well or that this is the case.  Everywhere
      else there is nothing to blame, and [wp] excludes a fault.
    - An allocation that may fail is an oracle, a predicate on the number of
      the allocation ([oom], [slab_oom]); the theorems hold for every oracle.
      What freshly allocated memory holds is a parameter too ([junk]).

    ** Files

    - Prelude: bytes, machine integers, [prog] and [wp], list lemmas, tactics.
    - NgxCore: the nginx string routines the module calls, as reproduced in the
      repository (src/ci/fuzz/ngx_http_shim.h).
    - Json, JsonSpec, JsonSound, JsonComplete, JsonThms: ngx_autocert_json.c.
      Json is the recursive-descent parser, statement by statement, and the
      accessors; JsonSpec the grammar of RFC 8259 with the value each document
      denotes; JsonSound one pass of [wp] lemmas (no fault, enough fuel, at
      most the documented number of bytes charged to the pool, text consumed is
      in the grammar); JsonComplete the converse; JsonThms the properties.  The
      fuel of the entry point is three times the length of the input plus three
      (three calls per byte, three to start), and [json_parse_safe] shows it never
      runs out.
    - Http, HttpChunk, HttpParse, HttpResume, HttpThms:
      ngx_autocert_acme.c without its event wiring: URL parsing, the origin pin,
      the request writer, the header and chunk parsers with the cursors they
      resume from, and the read handler's buffer growth and end-of-file logic.
      HttpChunk has the grammar of the chunked coding; HttpResume shows that
      parsing after every read agrees with one parse of everything, and follows
      the buffer over any number of read events.
    - HttpClient, HttpClientSteps, HttpClientThms: the life of a request in the
      same file, from [ngx_autocert_acme_request] to its handler.  A [world] has
      the request with its connection (the handlers of its two events and their
      timers), the handles held, whether the pool of the request is still there
      (touching the request after its handler ran is a [Fault]), whom
      ngx_autocert_acme_inflight points to, the clock, the bytes sent and the calls
      of the handler.  A call of nginx, OpenSSL or the kernel answers as an [env]
      says; one that completes at once runs the next step inside it.  [deliver] is
      what the event loop does with one event, and [can_happen] which events it has;
      one of these makes the code fault, a read event that comes while the request is
      still being sent ([early_read]).
      HttpClientSteps says what a request can wait for ([waits]) and how it ends
      ([over]), HttpClientThms follows any sequence of events.
    - Ident: ngx_autocert_ident.h: DNS names, IP literals, and the directory a
      name's certificate is stored under.  [ngx_inet_addr] and [ngx_inet6_addr]
      are nginx's own and are parameters.
    - Ratecap: ngx_autocert_ratecap.h and the caps the driver keeps with it.
    - Loadcap: ngx_autocert_loadcap.h and ngx_autocert_timeconv.h.
    - Rbtree, Shm, Store: what the three shared zones have in common.  Rbtree
      is the search tree: comparison, insertion and search are the module's;
      rebalancing, deletion and the in-order walk are nginx's, promised by the
      class [NgxRbtree], of which [plain_trees] is an instance.  Shm is the slab
      allocator (a finite map from addresses to blocks, so that leaks and frees
      are visible), the mutex, and the relation between a tree of nodes in a slab
      and the finite map it stands for.  Store is the interface of the two
      challenge stores: a class of operations with their effect on a finite map.
    - Challenge, ChallengeThms: ngx_autocert_challenge.c implements Store.
    - Alpn, AlpnThms: ngx_autocert_alpn.c implements Store; blocks that held a
      private key are overwritten before they are freed.
    - Requests, RequestsNames, RequestsThms: ngx_autocert_requests.c as a map
      from normalized names to their request records, bounded by the table's
      cap, through every call, eviction and reload.
    - Expiry: when a name is due (driver.c, with the certificate reader of
      ngx_http_autocert_crypto.c).  What lies on disk and what OpenSSL makes of
      it are a [view], whose functions are the results the code tests; dates are
      converted as the code does and compared with a count of calendar days.
    - Marker: the files that remember runtime names across a restart, over a
      small file system of hostile leaves in which any system call may fail.
    - Registry: what the driver needs of the runtime registry, as a class; its
      instance is RequestsThms.
    - Sched: the driver (ngx_autocert_driver.c) from the moment it holds its
      lock.  A [world] has the engines of the CAs with their tables of holds,
      the cursor of the sweep, the order in flight, the timers, the caps, the
      registry, the markers, the clock, and a trace of launches and outcomes kept
      only to state properties.  The start of an order or of a registration is
      refused, stays in flight, or fails at once, in which case its completion
      runs inside the call and pumps again ([start]).  [handle] is what one event
      does, [run] a history.
    - SchedInv, SchedLedger, SchedLoops, SchedRuntime,
      SchedBoot, SchedEvents: the invariant of the driver (the tables say what
      the trace says, every launch was lawful, only the runtime order in flight is
      pending); what a sweep has settled behind its cursor; the measure (slots
      still ahead of the cursor and hosts that can be claimed) that an inline
      failure lowers, so that pumps nest at most [PUMP_FUEL] deep; the chain of
      registrations; and that every event keeps all of it.  SchedThms has the
      properties.
    - Seed, Lifecycle: what surrounds it, on the same [world].  Seed is the walk
      over the store that puts the names of the markers back, in chunks, with its
      directory and its timer, where anything else may happen to the process and the
      store between two firings of the timer ([seed_ticks]); Lifecycle the lock, the process that waits for it,
      the reload in single-process mode and the exit, and a step relation on
      processes that share the locks.  Here a step of the driver is one that
      returns (SchedThms shows that it does), and a lock belongs to an inode.
    - OrderState, Account, Order: ngx_autocert_order.c and ngx_autocert_account.c.
      OrderState has the records of the two structures, by groups of fields, and
      a world: the order and the account, the pools and keys held (as handles, so
      that a use after release is a [Fault]), the requests in flight, the timers,
      the hook process and the signal mask, the key-generation task, the two
      stores, and a log of what was done outside.  What fails and what the
      network does are an environment [env], quantified over: a request is
      refused, stays in flight, or is completed before
      [ngx_autocert_acme_request] returns, in which case its handler runs inside
      the call ([complete]).  Account is registration and the account-signed POST
      with its one retry on a bad nonce; Order every handler of an order, from
      [ngx_autocert_order_start] to the driver's [ngx_autocert_order_complete],
      and [deliver], what the event loop does with one event.
    - OrderInv, OrderPost, OrderEnd, OrderSteps, OrderReplies,
      OrderEvents, OrderRun: the invariant of an order, which is the one thing it
      is waiting for (a [stage]) and a [rank] that every event lowers, shown to
      hold through the POST, the end of an order, its steps, its replies, the
      timers and whole runs.  Inline completions nest at most as deep as the
      rank, so 2,485 units of fuel ([ORDER_EVENTS]) are enough, which the
      theorems show: their only hypothesis on the fuel is that it is at least that.
    - OrderThms, OrderJson: the properties, with the run of an example order.
    - Tree, OrderStore: the store writer (ngx_autocert_order_store in
      ngx_autocert_order.c) over the container of certificates.  Tree has its
      name space, its directories with their entries, its files with what of them is
      durable, what a crash may leave of all that ([may_return]; fsync of a directory
      is about that directory alone), and the system calls, any of which may fail and
      before any of which the machine may stop; OrderStore is the code.
      OrderStoreInv says what a step beside the live directory leaves alone
      ([aside]), OrderStoreWrite what a reader would find in the staging directory
      as it is filled ([filled]), and OrderStoreThms follows the swap.  The fuel of
      the write loop is the bytes and the calls a signal may interrupt.
    - Serve: the OpenSSL callbacks of a worker (ngx_autocert_serve.c).  A
      [worker] has the cache (by CRC and text), the budget of loads, the index
      of names, the registered consumer, the references it holds to objects of
      OpenSSL (giving one back twice is a [Fault]), and its two zones, reached
      through the classes [Issued] and Store.  OpenSSL is a record of functions
      ([openssl]) and, for connections, a class with the effect of each call
      ([Tls]); files, clocks and failures are an [env].  [handle] is what an event
      does: a handshake on any connection, a reload, a consumer that registers,
      the clock, and the zones as other processes leave them.  ServeInv has the
      rules for references, files and the reload of a slot, ServeConn those for a
      connection, with the store key of a host and the selection of
      acme-tls/1, ServeRun the invariant of a worker through a handshake,
      ServeEvents the events and the workers a history reaches ([reaches]),
      ServeThms the properties.
    - Config, ConfigNames, ConfigRun, ConfigLimits, ConfigDirect, ConfigThms: the
      configuration (ngx_http_autocert_module.c): the directives, the merge of a
      server with http{}, the limits of the global settings, and the walk over the
      servers that collects the names to issue by CA ([ngx_http_autocert_postconfig]).
      Allocation failures, ngx_conf_full_name and the digest of a URL are
      parameters.  ConfigNames has what the string tests decide and the invariant of
      the groups, ConfigRun the walk, ConfigLimits and ConfigDirect the directives,
      ConfigThms the properties of what comes out.
    - WellKnown: the handler of /.well-known/acme-challenge/ in the same file, above
      the interface Store.
    - Base64, Jose, Cert, with JoseThms: ngx_http_autocert_crypto.c.
      Base64 has nginx's decoder (as reproduced in src/ci/fuzz/ngx_b64_shim.h) and the
      module's strict one; Jose the keys, JWK, thumbprints and signed objects; Cert
      the certificate request and the two self-signed certificates.  OpenSSL is a
      record of functions ([openssl]) and calls any of which may fail; each object it
      makes is owned by one variable ([heap]), freeing what is not owned is a [Fault],
      and what a function still owns when it returns is counted as lost.
    - Orphans: the hooks of dropped orders (ngx_autocert_order.c), as a step relation
      on a process with its children, its table, its timer and its signal mask.
    - AccountKey: the file of the account key (ngx_autocert_account.c), with every call
      that may fail or be interrupted; a crash between two starts is not in it, so
      nothing is said there of the durability of the file's entry in its directory.
    - SafeOpen: how paths are opened (ngx_autocert_shared.h and the directory of the
      account key), on a disk that is any
      function of the number of the call, so that anything may happen to it between
      two calls.
    - Verify: the check of the chain that a CA sent (ngx_autocert_order.c), above a
      record of OpenSSL's verdicts.
    - Win32: the decisions of the Windows port that call nothing of Windows (same
      file): roots of paths, the command line of a hook, the name of the mutex, and
      access lists.

    ** What is proved

    - The JSON reader never leaves its buffers and keeps its allocation budget
      on any input, and accepts exactly the documents of the grammar nested at
      most 32 deep, with the value they denote (the Json files).
    - The response parser never leaves its buffer, cannot be made to take a
      truncated or mis-framed body for a complete one, and does not depend on how
      the network cuts the bytes; requests cannot be split by what is put in them;
      URLs off the pinned origin are refused (the Http files).
    - A request, whatever the network does: nothing is sent before the peer is
      verified, its handler is called once, nothing is held after, it always waits
      for the resolver or a timer, and its response takes at most a minute and 256
      KiB (HttpClientThms).  Two defects bound this: a read event that comes while
      the request is being sent dereferences NULL (the theorems say so of that event
      and exclude it of every other), and a TLS object may be leaked
      ([server_name_leak]).
    - Each shared store is, for any sequence of calls and any pattern of
      allocation failures, a finite map: no fault, no deadlock, no leak
      (Challenge, Alpn, Requests); a name is handed to one order at a time.  What is
      proved is what the code does; the headers say otherwise of the lookup of a name
      that is empty or too long ([get_of_bad_domain]), of an idle pending name
      ([pending_evicted]) and of a drain that is cut short ([drain_cut_short]).
    - Rate, failure and load caps are exact, for ever and whatever the arrival
      pattern (Ratecap, Loadcap); store directories do not collide or escape
      (Ident).
    - An order, whatever the CA and the network do: it never uses what it has
      released but in one case, never waits for nothing, ends within 2,485 events
      (ticks that find a hook running not counted), reports exactly once, stores only
      a certificate found valid, and leaves behind neither memory nor a published
      challenge nor a blocked signal.  The case is the finding
      [order_inline_new_order_faults]: a newOrder POST that completes while it is being
      made, with a reply that ends the order, ends it under the feet of its caller.
      [order_never_stuck] says that every use of something released is this one; what
      an order reports and leaves behind is proved for runs where this POST does not
      complete inline (OrderThms).
    - The driver, whatever fails and in whatever order events come: it neither
      faults nor stops, orders only what is due and allowed, backs off after
      failures, leaves no slot out of a sweep, registers the accounts one at a
      time and retries the rest, and hands the runtime names over when it leaves
      (SchedThms).  Two of its comments promise more than it does: see
      [two_flows_at_once] and [order_in_flight_evicted].
    - At most one process drives a store, and when it ends another that waited takes
      over (Lifecycle).  The walk in chunks visits each name of the directory once and
      in order, whatever happens to the process and to the store between two chunks,
      and closes the directory; a visit restores a name exactly when there is a marker,
      no name of the configuration that the driver has by then covers it, its
      certificate is good, and the registry has room and does not deny it (Seed;
      [seed_before_config] and [relock_gives_up] are where it does less than its
      comments say).
    - A chain is found valid exactly when its leaf is for the order's key and name and
      valid now, and what follows it are certificates that lead to the anchor, if
      one is configured (Verify).
    - A name is due exactly when what is stored for it is missing, broken, for
      other names, or about to expire, and never because a file could not be read
      just now (Expiry; names of 256 bytes and more are not checked against what their
      certificate is for: [long_name_unchecked]); a marker is read back as it was
      written (Marker).
    - Whatever call fails and wherever the machine stops, a reader finds under the
      name of a certificate the old pair or the whole new one, with the files of
      the other key type; success is reported only when the new one is durable
      (OrderStoreThms, for POSIX).  The first is for a file system that keeps the
      changes of its directories in order, and [unordered_swap_loses] shows why; the
      second for any.  Every other name keeps what it had but one, the staging name,
      which can be the name of another certificate: [staging_clobbers_a_name].
    - A worker presents, for a name it serves, only whole pairs it loaded and
      checked from the store of that name's key, keeps presenting the last good
      one whatever becomes of the files, presents a renewed one as soon as the
      two bounds let it look, answers the CA's validation with the challenge and
      nothing else, neither leaks nor frees twice, and stays within its bounds on
      memory and disk reads (ServeThms, with three examples of what its comments
      promise beyond that).
    - The JSON that is signed says what was meant, for every string that passes
      the code's own checks (OrderJson).
    - The configuration: the names to issue are exactly those of the enabled servers
      that no wildcard covers, each in the group of the one CA its server chose with
      its credentials, and the workers resolve those and the names such a server
      leaves to its wildcards; a server's settings come
      out well formed, credentials stay with their CA, and the global settings are
      accepted exactly within their limits (the Config files).
    - An HTTP-01 request is answered with the key authorization of its own token and
      with nothing else (WellKnown).
    - What is signed and published can be read back as what was meant (JoseThms); a
      certificate request and a validation certificate name exactly the identifier
      asked for (Cert); on every path each object is freed once.  The strict
      decoder of base64url accepts exactly what is decodable and inverts the encoder
      (Base64).
    - While no hook is started with an orphan outstanding, every hook is waited for by
      the module and by nobody else (Orphans, with examples of what goes wrong
      otherwise).
    - A path is opened by its own names, each found in the directory before it when it
      was opened, through no symbolic link, and no descriptor is left over (SafeOpen).
    - The account key survives: what a start loads or makes is what every later start
      loads, it is read only from a file of this user's alone, and no plain text of it
      is left in memory (AccountKey).
    - The command line of a Windows hook is taken apart into the arguments it was built
      from, whatever is in them, though behind an empty program name; the classifier
      of roots knows exactly the forms it should (Win32).

    ** What is not modelled

    The event, TLS and DNS plumbing of nginx and OpenSSL (connections,
    certificate and key objects) appears only through the results its callers
    test.  The model of a request has one request, as the driver makes them (its
    timers are set to the millisecond, where nginx lets one run up to 300 ms off);
    the orders have a model of the network of their own.  Of an order, the checks of
    the issued chain and its store step are in models of their own.  Of the driver,
    the seeds of the test directives are left out; the driver and the orders are
    separate models, which meet at [start] and at the completion of an order.  Of
    the serving of certificates, the wiring of the callbacks into the configuration,
    the bootstrap certificate's installation and the copy of nginx's own ALPN
    selection are left out.  Of the configuration, the process hooks, the three test
    directives and ngx_autocert_conf.c, which copies the result for the other parts,
    are left out.  The cryptography is modelled above OpenSSL: that a signature
    verifies, or that a digest is one, is OpenSSL's to promise.  Of the Windows port
    only what Win32 holds is modelled: ngx_autocert_win32.h and the Windows arms of
    the other files are wrappers of system calls. *)

From stdpp Require Export base tactics option list list_numbers numbers strings gmap sets.
From Stdlib Require Export ZArith Lia.

#[export] Set Default Goal Selector "!".
#[global] Open Scope Z_scope.

(** ** Bytes and C integers *)

(** A [u_char] is an integer in [0, 256); a byte buffer is a list of them.  The
    type is plain [Z] so that the code's arithmetic on characters can be written
    as it is; [is_byte] is the range condition, assumed only where it matters. *)
Abbreviation bytes := (list Z).

Definition is_byte (b : Z) : Prop := 0 <= b < 256.

(** The bytes of a C string literal (without its terminating NUL). *)
Fixpoint str (s : string) : bytes :=
  match s with
  | EmptyString => []
  | String a s' => Z.of_N (Ascii.N_of_ascii a) :: str s'
  end.

(** Casts to the fixed-width unsigned types of the LP64 targets. *)
Definition u8 (z : Z) : Z := Z.land z 255.
Definition u16 (z : Z) : Z := z mod 2 ^ 16.
Definition u32 (z : Z) : Z := z mod 2 ^ 32.
Definition u64 (z : Z) : Z := z mod 2 ^ 64.

(** [NGX_MAX_INT_T_VALUE] = [NGX_MAX_SIZE_T_VALUE] = [NGX_MAX_OFF_T_VALUE]. *)
Definition NGX_MAX_INT_T_VALUE : Z := 9223372036854775807.

(** nginx's return codes. *)
Definition NGX_OK : Z := 0.
Definition NGX_ERROR : Z := -1.
Definition NGX_AGAIN : Z := -2.
Definition NGX_DONE : Z := -4.
Definition NGX_DECLINED : Z := -5.

(** ** Computations over a C state

    A C function that reads and writes a context and can fail is a function
    from the state to an [outcome].  [Err] is the code's own error return
    (NULL, NGX_ERROR): the state it leaves behind is kept, because its counters
    are still observable.  [Fault] is undefined behaviour (a read or a write
    outside a buffer) and [NoFuel] a loop bound that was too small; both are
    shown unreachable. *)
Inductive outcome (S A : Type) : Type :=
  | Ret (a : A) (s : S)
  | Err (s : S)
  | Fault
  | NoFuel.
Arguments Ret {S A} a s.
Arguments Err {S A} s.
Arguments Fault {S A}.
Arguments NoFuel {S A}.

Definition prog (S A : Type) : Type := S -> outcome S A.

Definition ret {S A} (a : A) : prog S A := fun s => Ret a s.
Definition fail {S A} : prog S A := fun s => Err s.
Definition fault {S A} : prog S A := fun _ => Fault.
Definition nofuel {S A} : prog S A := fun _ => NoFuel.
Definition bind {S A B} (m : prog S A) (k : A -> prog S B) : prog S B :=
  fun s => match m s with
           | Ret a s' => k a s'
           | Err s' => Err s'
           | Fault => Fault
           | NoFuel => NoFuel
           end.

Declare Scope prog_scope.
Delimit Scope prog_scope with prog.
Notation "'let!' x := m 'in' k" := (bind m (fun x => k))
  (at level 10, x pattern, m at level 100, k at level 200,
   format "'[v' 'let!'  x  :=  m  'in' '/' k ']'") : prog_scope.
Notation "m ;; k" := (bind m (fun _ => k))
  (at level 100, right associativity) : prog_scope.

(** What a fault is put down to: nothing, so that there is none, unless a section
    says otherwise. *)
Class Blame := blame : Prop.
#[export] Hint Extern 100 Blame => exact False : typeclass_instances.

(** Weakest precondition: [m] run from [s] has fuel and does not fault, but for the
    blame, and its result satisfies [Q] on a normal return and [E] on an error
    return. *)
Definition wp {B : Blame} {S A} (m : prog S A) (s : S) (Q : A -> S -> Prop) (E : S -> Prop) : Prop :=
  match m s with
  | Ret a s' => Q a s'
  | Err s' => E s'
  | Fault => B
  | NoFuel => False
  end.

(** No fault at all. *)
Lemma wp_faultless {B : Blame} {S A} (m : prog S A) (s : S) Q E : wp (B := False) m s Q E -> wp m s Q E.
Proof. unfold wp. by destruct (m s). Qed.

Section WpRules.
Context {B : Blame} {S : Type}.

Lemma wp_ret {A} (a : A) (s : S) Q E : Q a s -> wp (ret a) s Q E.
Proof. exact id. Qed.

Lemma wp_fail {A} (s : S) (Q : A -> S -> Prop) E : E s -> wp fail s Q E.
Proof. exact id. Qed.

Lemma wp_bind {A C} (m : prog S A) (k : A -> prog S C) s Q E :
  wp m s (fun a s' => wp (k a) s' Q E) E -> wp (bind m k) s Q E.
Proof. unfold wp, bind. by destruct (m s). Qed.

Lemma wp_mono {A} (m : prog S A) s Q E Q' E' :
  wp m s Q E -> (forall a s', Q a s' -> Q' a s') -> (forall s', E s' -> E' s') ->
  wp m s Q' E'.
Proof. intros H HQ HE. unfold wp in *. destruct (m s); auto. Qed.

Lemma wp_weaken {A} (m : prog S A) s (Q Q' : A -> S -> Prop) :
  wp m s Q (fun _ => False) -> (forall a s', Q a s' -> Q' a s') -> wp m s Q' (fun _ => False).
Proof. intros H HQ. by eapply wp_mono. Qed.

Lemma bind_assoc {A C D} (m : prog S A) (f : A -> prog S C) (g : C -> prog S D) s :
  bind (bind m f) g s = bind m (fun x => bind (f x) g) s.
Proof. unfold bind. by destruct (m s). Qed.

(** Grouping the first two steps of a sequence. *)
Lemma wp_bind2 {A} (m1 m2 : prog S unit) (k : prog S A) s Q E :
  wp (bind (bind m1 (fun _ => m2)) (fun _ => k)) s Q E -> wp (bind m1 (fun _ => bind m2 (fun _ => k))) s Q E.
Proof. unfold wp. by rewrite bind_assoc. Qed.

(** From a [wp] with no error case the run itself is known. *)
Lemma wp_run {A} (m : prog S A) s a s' :
  wp (B := False) m s (fun a1 s1 => a1 = a /\ s1 = s') (fun _ => False) -> m s = Ret a s'.
Proof. unfold wp. destruct (m s); [intros [-> ->]|..]; done. Qed.

Lemma run_wp {A} (m : prog S A) s a s' Q E :
  m s = Ret a s' -> Q a s' -> wp m s Q E.
Proof. unfold wp. by intros ->. Qed.
End WpRules.

(** [step]: decompose the program at the head of a [wp] goal. *)
Ltac wp_step :=
  lazymatch goal with
  | |- wp (bind _ _) _ _ _ => apply wp_bind
  | |- wp (ret _) _ _ _ => apply wp_ret
  | |- wp fail _ _ _ => apply wp_fail
  | |- wp (if ?b then _ else _) _ _ _ => destruct b eqn:?
  end.

(** Turn the boolean tests of the code into propositions. *)
Ltac reflect_bools :=
  repeat match goal with
  | H : (_ && _)%bool = true |- _ => apply andb_true_iff in H as [? ?]
  | H : (_ || _)%bool = false |- _ => apply orb_false_iff in H as [? ?]
  | H : (_ && _)%bool = false |- _ => apply andb_false_iff in H
  | H : (_ || _)%bool = true |- _ => apply orb_true_iff in H
  | H : negb _ = true |- _ => apply negb_true_iff in H
  | H : negb _ = false |- _ => apply negb_false_iff in H
  | H : (_ =? _)%nat = true |- _ => apply Nat.eqb_eq in H
  | H : (_ =? _)%nat = false |- _ => apply Nat.eqb_neq in H
  | H : (_ <? _)%nat = true |- _ => apply Nat.ltb_lt in H
  | H : (_ <? _)%nat = false |- _ => apply Nat.ltb_ge in H
  | H : (_ <=? _)%nat = true |- _ => apply Nat.leb_le in H
  | H : (_ <=? _)%nat = false |- _ => apply Nat.leb_gt in H
  | H : (_ =? _) = true |- _ => apply Z.eqb_eq in H
  | H : (_ =? _) = false |- _ => apply Z.eqb_neq in H
  | H : (_ <? _) = true |- _ => apply Z.ltb_lt in H
  | H : (_ <? _) = false |- _ => apply Z.ltb_ge in H
  | H : (_ <=? _) = true |- _ => apply Z.leb_le in H
  | H : (_ <=? _) = false |- _ => apply Z.leb_gt in H
  end.

(** Linear arithmetic with divisions and remainders by constants. *)
Ltac zdiv := Z.to_euclidean_division_equations; lia.

(** ** Digits *)

Definition is_digit (c : Z) : bool := (48 <=? c) && (c <=? 57).

(** The value of a decimal digit string, most significant digit first. *)
Definition dec_acc (v : Z) (l : bytes) : Z := fold_left (fun v c => v * 10 + (c - 48)) l v.
Definition dec_val (l : bytes) : Z := dec_acc 0 l.

Lemma is_digit_iff c : is_digit c = true <-> 48 <= c <= 57.
Proof. unfold is_digit. rewrite andb_true_iff, !Z.leb_le. done. Qed.

Lemma dec_acc_mono v l : 0 <= v -> forallb is_digit l = true -> v <= dec_acc v l.
Proof.
  revert v. induction l as [|c l IH]; intros v Hv Hl; simpl in *; [done|].
  apply andb_true_iff in Hl as [Hc Hl]. apply is_digit_iff in Hc.
  transitivity (v * 10 + (c - 48)); [lia|]. apply IH; [lia|done].
Qed.

(** ** Lists and buffer slices *)

(** The bytes [off, off + n) of a buffer; [None] when the range leaves it. *)
Definition slice (b : bytes) (off n : nat) : option bytes :=
  if (off + n <=? length b)%nat then Some (take n (drop off b)) else None.

Lemma slice_Some b off n s :
  slice b off n = Some s <-> (off + n <= length b)%nat /\ s = take n (drop off b).
Proof.
  unfold slice. destruct (Nat.leb_spec (off + n) (length b)); split.
  - intros [= <-]. done.
  - by intros [_ ->].
  - done.
  - lia.
Qed.

Lemma drop_cons_lookup {A} (l : list A) n x r :
  drop n l = x :: r <-> l !! n = Some x /\ drop (S n) l = r.
Proof.
  split.
  - intros H. split.
    + replace n with (n + 0)%nat by lia. by rewrite <- lookup_drop, H.
    + replace (S n) with (n + 1)%nat by lia. by rewrite <- drop_drop, H.
  - intros [Hx Hr]. by rewrite (drop_S l x n Hx), Hr.
Qed.

(** ** Bit operations as arithmetic *)

Lemma lor_add_low a k b : 0 <= k -> 0 <= b < 2 ^ k -> Z.lor (a * 2 ^ k) b = a * 2 ^ k + b.
Proof.
  intros Hk Hb. rewrite <- (Z.mod_small b (2 ^ k)) at 1 by lia.
  rewrite <- (Z.mod_small b (2 ^ k)) at 2 by lia.
  symmetry. apply Z.add_nocarry_lor. rewrite <- (Z.land_ones b k) by lia.
  rewrite (Z.land_comm b), Z.land_assoc, Z.land_ones by lia.
  rewrite Z.mod_mul by lia. apply Z.land_0_l.
Qed.

Lemma land_low a k : 0 <= k -> Z.land a (2 ^ k - 1) = a mod 2 ^ k.
Proof. intros Hk. rewrite <- Z.land_ones by done. by rewrite Z.ones_equiv. Qed.

Lemma u8_id z : 0 <= z < 256 -> u8 z = z.
Proof.
  intros Hz. unfold u8. change 255 with (2 ^ 8 - 1). rewrite land_low by lia.
  by apply Z.mod_small.
Qed.

(** ** Automation *)

(** Lengths of buffers: push [length] to the leaves, then decide. *)
Create HintDb lens.
#[export] Hint Rewrite @length_app @length_cons @length_nil @length_replicate @length_fmap @length_take
  @length_drop : lens.
Ltac lens := autorewrite with lens in *; simpl in *; lia.

(** Everyday facts about bytes and buffers, for [auto with bytes]. *)
Create HintDb bytes.
#[export] Hint Resolve Forall_nil_2 Forall_cons_2 Forall_app_2 Forall_take Forall_drop prefix_nil : bytes.
#[export] Hint Extern 1 (_ <= _) => lia : bytes.
#[export] Hint Extern 1 (_ < _) => lia : bytes.
#[export] Hint Extern 1 (_ <> _) => lia : bytes.
