(* ===== verification/NgxCore.v ===== *)
(** * nginx core string helpers

    The helpers the module calls from nginx core, as the repository itself
    reproduces them for its parser harness (ci/fuzz/ngx_http_shim.h: "verbatim
    nginx semantics"), together with the two libc comparisons [strncmp] and
    [memcmp].  A read outside a buffer is [None]. *)

From S2P Require Import Prelude.

Local Open Scope Z_scope.

(** ** Comparisons *)

(** [memcmp(s1, s2, n)], both ranges inside their buffers. *)
Fixpoint ngx_memcmp (s1 s2 : bytes) (n : nat) {struct n} : option Z :=
  match n with
  | O => Some 0
  | S n' =>
      match s1, s2 with
      | c1 :: s1', c2 :: s2' =>
          if c1 =? c2 then ngx_memcmp s1' s2' n' else Some (if c1 <? c2 then -1 else 1)
      | _, _ => None
      end
  end.

(** [strncmp(s1, s2, n)]: like [memcmp] but a NUL common to both ends it. *)
Fixpoint ngx_strncmp (s1 s2 : bytes) (n : nat) {struct n} : option Z :=
  match n with
  | O => Some 0
  | S n' =>
      match s1, s2 with
      | c1 :: s1', c2 :: s2' =>
          if c1 =? c2 then if c1 =? 0 then Some 0 else ngx_strncmp s1' s2' n'
          else Some (if c1 <? c2 then -1 else 1)
      | _, _ => None
      end
  end.

(** ASCII case folding, [c |= 0x20] on an upper-case letter. *)
Definition lower (c : Z) : Z := if (65 <=? c) && (c <=? 90) then Z.lor c 32 else c.

Definition ngx_strlow (s : bytes) : bytes := map lower s.

Fixpoint ngx_strncasecmp (s1 s2 : bytes) (n : nat) {struct n} : option Z :=
  match n with
  | O => Some 0
  | S n' =>
      match s1, s2 with
      | x1 :: s1', x2 :: s2' =>
          let c1 := lower x1 in
          let c2 := lower x2 in
          if negb (c1 =? c2) then Some (if c1 <? c2 then -1 else 1)
          else if c1 =? 0 then Some 0
          else ngx_strncasecmp s1' s2' n'
      | _, _ => None
      end
  end.

(** ** Search: the offset of the first [c] in the range, or NULL *)

Fixpoint ngx_strlchr (p : bytes) (c : Z) : option nat :=
  match p with
  | [] => None
  | x :: p' => if x =? c then Some O else S <$> ngx_strlchr p' c
  end.

(** ** Decimal numbers *)

(** The loop of [ngx_atoi]; the cut-offs are MAX / 10 and MAX mod 10. *)
Fixpoint ngx_atoi_loop (line : bytes) (value : Z) : Z :=
  match line with
  | [] => value
  | c :: line' =>
      if (c <? 48) || (57 <? c) then NGX_ERROR
      else
        let cutoff := NGX_MAX_INT_T_VALUE / 10 in
        let cutlim := NGX_MAX_INT_T_VALUE mod 10 in
        if (cutoff <=? value) && ((cutoff <? value) || (cutlim <? c - 48)) then NGX_ERROR
        else ngx_atoi_loop line' (value * 10 + (c - 48))
  end.

Definition ngx_atoi (line : bytes) : Z :=
  if (length line =? 0)%nat then NGX_ERROR else ngx_atoi_loop line 0.

(** [ngx_atoof] is the same loop over the 64-bit [off_t], whose maximum is that
    of [ngx_int_t]. *)
Definition ngx_atoof (line : bytes) : Z :=
  if (length line =? 0)%nat then NGX_ERROR else ngx_atoi_loop line 0.

(** ** Lemmas *)

Lemma strncmp_exact s1 s2 :
  length s1 = length s2 -> Forall (fun c => c <> 0) s2 ->
  exists r, ngx_strncmp s1 s2 (length s2) = Some r /\ (r = 0 <-> s1 = s2).
Proof.
  revert s1. induction s2 as [|c2 s2 IH]; intros [|c1 s1] Hl Hn; simpl in *; try lia.
  - exists 0. done.
  - apply Forall_cons in Hn as [Hc Hn].
    destruct (Z.eqb_spec c1 c2) as [->|Hne].
    + destruct (Z.eqb_spec c2 0) as [->|_]; [done|].
      destruct (IH s1) as (r & -> & Hr); [lia|done|].
      exists r. rewrite Hr. split; [done|]. naive_solver.
    + exists (if c1 <? c2 then -1 else 1). split; [done|].
      split; [destruct (c1 <? c2); lia | congruence].
Qed.

(** A prefix comparison against a literal, as in [ngx_strncmp(p, "true", 4)]. *)
Lemma strncmp_prefix s lit :
  (length lit <= length s)%nat -> Forall (fun c => c <> 0) lit ->
  exists r, ngx_strncmp s lit (length lit) = Some r /\ (r = 0 <-> exists t, s = lit ++ t).
Proof.
  revert s. induction lit as [|c2 lit IH]; intros s Hl Hn; simpl in *.
  - exists 0. split; [done|]. split; [|done]. intros _. by exists s.
  - apply Forall_cons in Hn as [Hc Hn]. destruct s as [|c1 s]; simpl in *; [lia|].
    destruct (Z.eqb_spec c1 c2) as [->|Hne].
    + destruct (Z.eqb_spec c2 0) as [->|_]; [done|].
      destruct (IH s) as (r & -> & Hr); [lia|done|].
      exists r. rewrite Hr. split; [done|]. naive_solver.
    + exists (if c1 <? c2 then -1 else 1). split; [done|].
      split; [destruct (c1 <? c2); lia | naive_solver].
Qed.

Lemma memcmp_exact s1 s2 :
  length s1 = length s2 ->
  exists r, ngx_memcmp s1 s2 (length s2) = Some r /\ (r = 0 <-> s1 = s2).
Proof.
  revert s1. induction s2 as [|c2 s2 IH]; intros [|c1 s1] Hl; simpl in *; try lia.
  - exists 0. done.
  - destruct (Z.eqb_spec c1 c2) as [->|Hne].
    + destruct (IH s1) as (r & -> & Hr); [lia|]. exists r. rewrite Hr. naive_solver.
    + exists (if c1 <? c2 then -1 else 1). split; [done|].
      split; [destruct (c1 <? c2); lia | congruence].
Qed.

Lemma lower_nonzero c : 0 < c -> lower c <> 0.
Proof.
  intros Hc. unfold lower. destruct (_ && _) eqn:E; [|lia].
  intros H%Z.lor_eq_0_iff. lia.
Qed.

Lemma lower_upper c : 65 <= c <= 90 -> lower c = c - 65 + 97 /\ u8 (c - 65 + 97) = c - 65 + 97.
Proof.
  intros Hc. split; [|apply u8_id; lia]. unfold lower.
  destruct ((65 <=? c) && (c <=? 90)) eqn:E; [|reflect_bools; lia].
  assert (Hall : forallb (fun k => Z.lor (65 + Z.of_nat k) 32 =? 65 + Z.of_nat k - 65 + 97) (seq 0 26) = true) by done.
  rewrite forallb_forall in Hall. specialize (Hall (Z.to_nat (c - 65))).
  rewrite Z2Nat.id in Hall by lia. replace (65 + (c - 65)) with c in Hall by lia.
  apply Z.eqb_eq, Hall. apply in_seq. lia.
Qed.

Lemma lower_other c : ~ 65 <= c <= 90 -> lower c = c.
Proof. intros Hc. unfold lower. destruct ((65 <=? c) && (c <=? 90)) eqn:E; [|done]. reflect_bools. lia. Qed.

Lemma lower_fixed c x : x < 65 -> lower c = x <-> c = x.
Proof.
  intros Hx. destruct (decide (65 <= c <= 90)) as [Hc|Hc]; [|by rewrite lower_other]. destruct (lower_upper c Hc) as [-> _]. lia.
Qed.

(** A C string. *)
Definition c_string (s : bytes) : Prop := Forall (fun c => 0 < c) s.

Lemma c_string_nonzero s : c_string s -> Forall (fun c => c <> 0) s.
Proof. intros Hs. eapply Forall_impl; [exact Hs|]. cbn. lia. Qed.

Lemma lower_pos c : 0 < c -> 0 < lower c.
Proof. intros Hc. unfold lower. destruct (_ && _) eqn:E; [|done]. assert (0 <= Z.lor c 32) by (apply Z.lor_nonneg; lia).
  pose proof (lower_nonzero c Hc) as Hn. unfold lower in Hn. rewrite E in Hn. lia. Qed.

Lemma strlow_c_string s : c_string s -> c_string (ngx_strlow s).
Proof. intros Hs. unfold ngx_strlow. apply Forall_map. eapply Forall_impl; [exact Hs|]. intros c. apply lower_pos. Qed.

(** On NUL-free operands [ngx_strncasecmp] is equality up to ASCII case. *)
Lemma strncasecmp_exact s1 s2 n :
  (n <= length s1)%nat -> (n <= length s2)%nat -> Forall (fun c => 0 < c) (take n s1) ->
  exists r, ngx_strncasecmp s1 s2 n = Some r
            /\ (r = 0 <-> lower <$> take n s1 = lower <$> take n s2).
Proof.
  revert s1 s2. induction n as [|n IH]; intros s1 s2 H1 H2 Hn; simpl.
  - exists 0. done.
  - destruct s1 as [|x1 s1]; simpl in *; [lia|]. destruct s2 as [|x2 s2]; simpl in *; [lia|].
    apply Forall_cons in Hn as [Hx Hn].
    destruct (Z.eqb_spec (lower x1) (lower x2)) as [He|Hne]; simpl.
    + destruct (Z.eqb_spec (lower x1) 0) as [H0|_]; [by apply lower_nonzero in Hx|].
      destruct (IH s1 s2) as (r & -> & Hr); [lia|lia|done|].
      exists r. rewrite Hr. split; [done|]. rewrite He.
      split; [intros H; f_equal; exact H | intros [= H]; exact H].
    + exists (if lower x1 <? lower x2 then -1 else 1). split; [done|].
      split; [destruct (_ <? _); lia | intros [= ? ?]; done].
Qed.

(** A byte splits a string at its first occurrence in one way only. *)
Lemma app_cons_uniq (c : Z) a b a' b' : a ++ c :: b = a' ++ c :: b' -> c ∉ a -> c ∉ a' -> a' = a /\ b' = b.
Proof.
  revert a'. induction a as [|x a IH]; intros [|y a'] E Ha Ha'; cbn in E.
  - by injection E as ->.
  - injection E as <- _. set_solver.
  - injection E as -> _. set_solver.
  - injection E as -> E. destruct (IH a' E) as [-> ->]; [set_solver..|done].
Qed.

Lemma strlchr_Some p c n :
  ngx_strlchr p c = Some n <->
  exists a b, p = a ++ c :: b /\ length a = n /\ c ∉ a.
Proof.
  revert n. induction p as [|x p IH]; intros n; simpl.
  - split; [done|]. intros (a & b & H & _). by destruct a.
  - destruct (Z.eqb_spec x c) as [->|Hne].
    + split.
      * intros [= <-]. exists [], p. split; [done|]. split; [done|]. apply not_elem_of_nil.
      * intros (a & b & H & <- & Ha). destruct a as [|y a]; [done|].
        injection H as <- ->. exfalso. apply Ha. left.
    + rewrite fmap_Some. split.
      * intros (m & (a & b & -> & <- & Ha)%IH & ->). exists (x :: a), b.
        split; [done|]. split; [done|]. apply not_elem_of_cons. split; congruence.
      * intros (a & b & H & <- & Ha). destruct a as [|y a]; [naive_solver|].
        injection H as <- ->. exists (length a). split; [|done]. apply IH.
        exists a, b. apply not_elem_of_cons in Ha as [_ Ha]. done.
Qed.

Lemma strlchr_None p c : ngx_strlchr p c = None <-> c ∉ p.
Proof.
  induction p as [|x p IH]; simpl.
  - split; [|done]. intros _. apply not_elem_of_nil.
  - destruct (Z.eqb_spec x c) as [->|Hne].
    + split; [done|]. intros H. exfalso. apply H. left.
    + rewrite fmap_None, IH, not_elem_of_cons. split; [split|]; naive_solver.
Qed.

Lemma atoi_loop_spec l v :
  0 <= v <= NGX_MAX_INT_T_VALUE ->
  ngx_atoi_loop l v =
    if forallb is_digit l && (dec_acc v l <=? NGX_MAX_INT_T_VALUE)
    then dec_acc v l else NGX_ERROR.
Proof.
  revert v. induction l as [|c l IH]; intros v Hv.
  - cbn -[Z.leb]. destruct (Z.leb_spec v NGX_MAX_INT_T_VALUE); [done|lia].
  - cbn [ngx_atoi_loop forallb]. unfold is_digit at 1.
    destruct (Z.ltb_spec c 48); [destruct (Z.leb_spec 48 c); [lia|done]|].
    destruct (Z.ltb_spec 57 c); cbn [orb].
    { destruct (Z.leb_spec 48 c), (Z.leb_spec c 57); simpl; try lia; done. }
    destruct (Z.leb_spec 48 c); [|lia]. destruct (Z.leb_spec c 57); [|lia]. cbn [andb].
    set (M := NGX_MAX_INT_T_VALUE) in *.
    change (dec_acc v (c :: l)) with (dec_acc (v * 10 + (c - 48)) l).
    assert (HM : M = 9223372036854775807) by done.
    change (M / 10) with 922337203685477580. change (M mod 10) with 7.
    destruct (Z.leb_spec 922337203685477580 v) as [Hc|Hc]; cbn [andb].
    + destruct (Z.ltb_spec 922337203685477580 v) as [Hc2|Hc2]; cbn [orb].
      2: destruct (Z.ltb_spec 7 (c - 48)) as [Hc3|Hc3].
      3: { rewrite IH by lia. done. }
      all: destruct (forallb is_digit l) eqn:El; cbn [andb]; [|done];
        pose proof (dec_acc_mono (v * 10 + (c - 48)) l ltac:(lia) El);
        destruct (Z.leb_spec (dec_acc (v * 10 + (c - 48)) l) M); [lia|done].
    + rewrite IH by lia. done.
Qed.

(** [ngx_atoi] is the decimal value of a non-empty digit string that fits. *)
Lemma atoi_spec l :
  ngx_atoi l =
    if (0 <? length l)%nat && forallb is_digit l && (dec_val l <=? NGX_MAX_INT_T_VALUE)
    then dec_val l else NGX_ERROR.
Proof.
  unfold ngx_atoi. destruct l as [|c l]; [done|]. simpl (length _ =? 0)%nat.
  rewrite atoi_loop_spec by (unfold NGX_MAX_INT_T_VALUE; lia). done.
Qed.

Lemma atoof_spec l : ngx_atoof l = ngx_atoi l.
Proof. done. Qed.

(** ** Decimal output: the digits ngx_sprintf prints for %d and %uz on a
    non-negative argument *)

Fixpoint dec_digits (fuel : nat) (n : Z) (acc : bytes) : bytes :=
  match fuel with
  | O => acc
  | S f =>
      let acc := (48 + n mod 10) :: acc in
      if n / 10 =? 0 then acc else dec_digits f (n / 10) acc
  end.

(** Twenty digits hold any 64-bit value. *)
Definition ngx_sprintf_d (n : Z) : bytes := dec_digits 20 n [].

(** [memcmp] of a literal against the front of a longer range. *)
Lemma memcmp_prefix s lit :
  (length lit <= length s)%nat ->
  exists r, ngx_memcmp s lit (length lit) = Some r /\ (r = 0 <-> lit `prefix_of` s).
Proof.
  revert s. induction lit as [|c2 lit IH]; intros s Hl; simpl in *.
  - exists 0. split; [done|]. split; [intros _; apply prefix_nil|done].
  - destruct s as [|c1 s]; simpl in *; [lia|]. destruct (Z.eqb_spec c1 c2) as [->|Hne].
    + destruct (IH s) as (r & -> & Hr); [lia|]. exists r. split; [done|]. rewrite Hr.
      split; [apply prefix_cons|apply prefix_cons_inv_2].
    + exists (if c1 <? c2 then -1 else 1). split; [done|].
      split; [destruct (c1 <? c2); lia|]. intros H. apply prefix_cons_inv_1 in H. congruence.
Qed.

(** ** Decimal output *)

Lemma dec_acc_app v l l' : dec_acc v (l ++ l') = dec_acc (dec_acc v l) l'.
Proof. apply fold_left_app. Qed.

Lemma dec_acc_shift v l : dec_acc v l = v * 10 ^ Z.of_nat (length l) + dec_val l.
Proof.
  revert v. induction l as [|c l IH]; intros v; cbn [length]; [unfold dec_val; simpl; lia|].
  unfold dec_val. cbn [dec_acc fold_left]. fold (dec_acc (v * 10 + (c - 48)) l) (dec_acc (0 * 10 + (c - 48)) l).
  rewrite IH, (IH (0 * 10 + (c - 48))), Nat2Z.inj_succ, Z.pow_succ_r by lia. lia.
Qed.

Lemma dec_digits_spec fuel n acc :
  0 <= n < 10 ^ Z.of_nat fuel -> forallb is_digit acc = true ->
  let l := dec_digits fuel n acc in
  forallb is_digit l = true
  /\ dec_val l = n * 10 ^ Z.of_nat (length acc) + dec_val acc
  /\ (length acc <= length l <= length acc + fuel)%nat.
Proof.
  revert n acc. induction fuel as [|f IH]; intros n acc Hn Ha.
  - simpl in *. assert (n = 0) by lia. subst. split; [done|]. lia.
  - cbn [dec_digits]. rewrite Nat2Z.inj_succ, Z.pow_succ_r in Hn by lia.
    pose proof (Z.mod_pos_bound n 10 ltac:(lia)) as Hm.
    assert (Ha' : forallb is_digit (48 + n mod 10 :: acc) = true).
    { simpl. rewrite Ha, andb_true_r. apply is_digit_iff. lia. }
    assert (Hv : dec_val (48 + n mod 10 :: acc)
                 = n mod 10 * 10 ^ Z.of_nat (length acc) + dec_val acc).
    { unfold dec_val at 1. cbn [dec_acc fold_left]. fold (dec_acc (0 * 10 + (48 + n mod 10 - 48)) acc).
      rewrite dec_acc_shift. f_equal. f_equal. lia. }
    pose proof (Z.div_mod n 10 ltac:(lia)).
    destruct (Z.eqb_spec (n / 10) 0) as [H0|H0].
    + split; [done|]. split; [|simpl; lia]. rewrite Hv. replace (n mod 10) with n by lia. done.
    + destruct (IH (n / 10) (48 + n mod 10 :: acc)) as (H1 & H2 & H3); [|done|].
      { split; [apply Z.div_pos; lia|]. apply Z.div_lt_upper_bound; lia. }
      split; [done|]. split; [|simpl in H3; lia]. rewrite H2, Hv. cbn [length].
      rewrite Nat2Z.inj_succ, Z.pow_succ_r by lia. nia.
Qed.

(** What is printed reads back as the number, and fits twenty bytes. *)
Lemma sprintf_d_spec n :
  0 <= n < 10 ^ 20 ->
  forallb is_digit (ngx_sprintf_d n) = true /\ dec_val (ngx_sprintf_d n) = n
  /\ (length (ngx_sprintf_d n) <= 20)%nat.
Proof.
  intros Hn. pose proof (dec_digits_spec 20 n []) as H. cbv zeta in H.
  replace (Z.of_nat 20) with 20 in H by done. destruct H as (H1 & H2 & H3); [done|done|].
  fold (ngx_sprintf_d n) in *. split; [exact H1|]. split; [|cbn [length] in H3; lia].
  rewrite H2. cbn [length]. replace (Z.of_nat 0) with 0 by done. rewrite Z.pow_0_r.
  replace (dec_val []) with 0 by done. lia.
Qed.

(** A small number has few digits. *)
Lemma dec_digits_length k fuel n acc :
  0 <= n < 10 ^ Z.of_nat k -> (0 < k)%nat ->
  (length (dec_digits fuel n acc) <= length acc + k)%nat.
Proof.
  revert fuel n acc. induction k as [|k IH]; intros fuel n acc Hn Hk; [lia|].
  destruct fuel as [|f]; simpl; [lia|]. destruct (Z.eqb_spec (n / 10) 0); [simpl; lia|].
  rewrite Nat2Z.inj_succ, Z.pow_succ_r in Hn by lia.
  destruct k as [|k].
  { simpl in Hn. exfalso. apply n0. apply Z.div_small. lia. }
  specialize (IH f (n / 10) (48 + n mod 10 :: acc)). simpl length in IH.
  transitivity (S (length acc) + S k)%nat; [|lia].
  apply IH; [|lia]. split; [apply Z.div_pos; lia|]. apply Z.div_lt_upper_bound; lia.
Qed.

(** The comparisons stay inside two ranges of at least [n] bytes. *)
Lemma strncasecmp_total s1 s2 n :
  (n <= length s1)%nat -> (n <= length s2)%nat -> exists r, ngx_strncasecmp s1 s2 n = Some r.
Proof.
  revert s1 s2. induction n as [|n IH]; intros s1 s2 H1 H2; simpl; [by eexists|].
  destruct s1, s2; simpl in *; try lia. destruct (negb _); [by eexists|].
  destruct (_ =? 0); [by eexists|]. apply IH; lia.
Qed.

Lemma strncmp_total s1 s2 n :
  (n <= length s1)%nat -> (n <= length s2)%nat -> exists r, ngx_strncmp s1 s2 n = Some r.
Proof.
  revert s1 s2. induction n as [|n IH]; intros s1 s2 H1 H2; simpl; [by eexists|].
  destruct s1, s2; simpl in *; try lia. destruct (_ =? _); [|by eexists].
  destruct (_ =? 0); [by eexists|]. apply IH; lia.
Qed.
