(* ===== verification/Json.v ===== *)
(** * The JSON reader (src/src/ngx_autocert_json.c): definitions

    The recursive-descent parser over a length-delimited buffer, statement by
    statement: every read of [*c->p] is checked against the buffer, every write
    through [dst] against the allocated span, and every pool allocation is
    charged and may fail.  The value tree is the code's tagged union; the linked
    lists of members and elements are lists in document order. *)

From S2P Require Import Prelude NgxCore.

Local Open Scope Z_scope.
Local Open Scope prog_scope.

(** ** Data *)

(** [ngx_autocert_json_value_s]: BOOL holds 0/1, NUMBER its raw token text,
    STRING its decoded bytes. *)
#[warnings="-register-all"]
Inductive json : Type :=
  | JNull
  | JBool (boolean : Z)
  | JNumber (number : bytes)
  | JString (string : bytes)
  | JArray (elements : list json)
  | JObject (members : list (bytes * json)).

Definition NGX_AUTOCERT_JSON_MAX_DEPTH : Z := 32.

(** The pool: allocations asked for so far and the bytes they sum to. *)
Record pool := Pool { nallocs : nat; nbytes : nat }.

(** [ngx_autocert_json_ctx_t]; [p] is the offset of [c->p] in the input, and
    [c->last] is its length. *)
Record ctx := Ctx { p : nat; depth : Z; pl : pool }.

Definition set_p (c : ctx) (n : nat) : ctx := Ctx n (depth c) (pl c).
Definition set_depth (c : ctx) (d : Z) : ctx := Ctx (p c) d (pl c).

(** Object sizes on LP64, as counted in ci/fuzz/ngx_shim.h. *)
Definition sizeof_value : nat := 24.
Definition sizeof_member : nat := 32.
Definition sizeof_element : nat := 16.

Section Parser.
(** The input, and the pool's verdict on the n-th allocation (true: NULL). *)
Context (data : bytes) (oom : nat -> bool).

Abbreviation P := (prog ctx).

(** ** Primitive reads and allocations *)

(** [c->p < c->last] *)
Definition more : P bool := fun c => Ret (p c <? length data)%nat c.
(** [*c->p] *)
Definition cur : P Z := fun c => match data !! p c with Some ch => Ret ch c | None => Fault end.
(** [c->p++] *)
Definition adv : P unit := fun c => Ret tt (set_p c (S (p c))).
Definition getp : P nat := fun c => Ret (p c) c.
Definition getd : P Z := fun c => Ret (depth c) c.
Definition putd (d : Z) : P unit := fun c => Ret tt (set_depth c d).
(** [c->p[i]] *)
Definition at_ (i : nat) : P Z :=
  fun c => match data !! (p c + i)%nat with Some ch => Ret ch c | None => Fault end.

(** [ngx_pcalloc] / [ngx_pnalloc]: true when the result is not NULL. *)
Definition alloc (size : nat) : P bool :=
  fun c => Ret (negb (oom (nallocs (pl c))))
               (Ctx (p c) (depth c) (Pool (S (nallocs (pl c))) (nbytes (pl c) + size))).

(** [while (c->p < c->last && test( *c->p)) c->p++], counting the steps. *)
Fixpoint skip_while (fuel : nat) (test : Z -> bool) (count : nat) : P nat :=
  match fuel with
  | O => nofuel
  | S f =>
      let! b := more in
      if b then
        let! ch := cur in
        if test ch then adv;; skip_while f test (S count) else ret count
      else ret count
  end.

(** Every loop of the file runs at most once per remaining byte, plus one. *)
Definition fuel_of : P nat := fun c => Ret (S (length data - p c)) c.

Definition is_ws (ch : Z) : bool := (ch =? 32) || (ch =? 9) || (ch =? 10) || (ch =? 13).

Definition ngx_autocert_json_skip_ws : P unit :=
  let! f := fuel_of in skip_while f is_ws 0;; ret tt.

Definition ngx_autocert_json_alloc : P bool := alloc sizeof_value.

(** ** Strings *)

(** The UTF-8 bytes [ngx_autocert_json_utf8] stores for a code point. *)
Definition ngx_autocert_json_utf8 (cp : Z) : bytes :=
  if cp <? 0x80 then [u8 cp]
  else if cp <? 0x800 then
    [u8 (Z.lor 0xc0 (Z.shiftr cp 6)); u8 (Z.lor 0x80 (Z.land cp 0x3f))]
  else if cp <? 0x10000 then
    [u8 (Z.lor 0xe0 (Z.shiftr cp 12));
     u8 (Z.lor 0x80 (Z.land (Z.shiftr cp 6) 0x3f));
     u8 (Z.lor 0x80 (Z.land cp 0x3f))]
  else
    [u8 (Z.lor 0xf0 (Z.shiftr cp 18));
     u8 (Z.lor 0x80 (Z.land (Z.shiftr cp 12) 0x3f));
     u8 (Z.lor 0x80 (Z.land (Z.shiftr cp 6) 0x3f));
     u8 (Z.lor 0x80 (Z.land cp 0x3f))].

Fixpoint hex4_loop (i : nat) (v : Z) : P Z :=
  match i with
  | O => ret v
  | S i' =>
      let! ch := cur in
      adv;;
      let v := u32 (Z.shiftl v 4) in
      if (48 <=? ch) && (ch <=? 57) then hex4_loop i' (Z.lor v (ch - 48))
      else if (97 <=? ch) && (ch <=? 102) then hex4_loop i' (Z.lor v (ch - 97 + 10))
      else if (65 <=? ch) && (ch <=? 70) then hex4_loop i' (Z.lor v (ch - 65 + 10))
      else fail
  end.

Definition ngx_autocert_json_hex4 : P Z :=
  let! q := getp in
  if (length data - q <? 4)%nat then fail else hex4_loop 4 0.

(** The pre-scan for the closing quote; [scan] is an offset. *)
Fixpoint scan_loop (fuel : nat) (scan : nat) : P nat :=
  match fuel with
  | O => nofuel
  | S f =>
      if (length data <=? scan)%nat then fail
      else match data !! scan with
           | None => fault
           | Some ch =>
               if ch =? 34 then ret scan
               else if ch =? 92 then
                 if (length data <=? S scan)%nat then fail else scan_loop f (S (S scan))
               else scan_loop f (S scan)
           end
  end.

(** [*dst++ = ch] into a block of [span] bytes, [dst] already written. *)
Definition put (span : nat) (dst : bytes) (ch : bytes) : P bytes :=
  if (length dst + length ch <=? span)%nat then ret (dst ++ ch) else fault.

(** The \u escape: one code point from one or two \uXXXX. *)
Definition unicode_escape : P Z :=
  let! cp := ngx_autocert_json_hex4 in
  if (0xd800 <=? cp) && (cp <=? 0xdbff) then
    let! q := getp in
    if (length data - q <? 2)%nat then fail
    else
      let! c0 := at_ 0 in
      if negb (c0 =? 92) then fail
      else
        let! c1 := at_ 1 in
        if negb (c1 =? 117) then fail
        else
          adv;; adv;;
          let! lo := ngx_autocert_json_hex4 in
          if (lo <? 0xdc00) || (0xdfff <? lo) then fail
          else ret (u32 (0x10000 + Z.lor (Z.shiftl (cp - 0xd800) 10) (lo - 0xdc00)))
  else if (0xdc00 <=? cp) && (cp <=? 0xdfff) then fail
  else ret cp.

(** The byte a single-character escape stands for. *)
Definition simple_escape (ch : Z) : option Z :=
  if ch =? 34 then Some 34
  else if ch =? 92 then Some 92
  else if ch =? 47 then Some 47
  else if ch =? 98 then Some 8
  else if ch =? 102 then Some 12
  else if ch =? 110 then Some 10
  else if ch =? 114 then Some 13
  else if ch =? 116 then Some 9
  else None.

Fixpoint decode_loop (fuel : nat) (span : nat) (dst : bytes) : P bytes :=
  match fuel with
  | O => nofuel
  | S f =>
      let! b := more in
      if b then
        let! ch := cur in
        adv;;
        if ch =? 34 then ret dst
        else if ch <? 32 then fail
        else if negb (ch =? 92) then
          let! dst := put span dst [ch] in decode_loop f span dst
        else
          let! b := more in
          if negb b then fail
          else
            let! e := cur in
            adv;;
            if e =? 117 then
              let! cp := unicode_escape in
              let! dst := put span dst (ngx_autocert_json_utf8 cp) in
              decode_loop f span dst
            else
              match simple_escape e with
              | Some x => let! dst := put span dst [x] in decode_loop f span dst
              | None => fail
              end
      else fail
  end.

Definition ngx_autocert_json_string_raw : P bytes :=
  adv;;
  let! start := getp in
  let! f := fuel_of in
  let! scan := scan_loop f start in
  let span := (scan - start)%nat in
  let! ok := alloc span in
  if negb ok && negb (span =? 0)%nat then fail
  else decode_loop f span [].

(** ** Numbers and literals *)

(** The optional sign, the int part, the fraction and the exponent; [f] bounds
    the digit loops. *)
Definition number_sign : P unit :=
  let! b := more in
  if b then let! ch := cur in if ch =? 45 then adv else ret tt
  else ret tt.

Definition number_int (f : nat) : P unit :=
  let! b := more in
  if negb b then fail
  else
    let! ch := cur in
    if ch =? 48 then adv
    else if (49 <=? ch) && (ch <=? 57) then skip_while f is_digit 0;; ret tt
    else fail.

Definition number_digits (f : nat) : P unit :=
  let! digits := skip_while f is_digit 0 in
  if (digits =? 0)%nat then fail else ret tt.

Definition number_frac (f : nat) : P unit :=
  let! b := more in
  if b then let! ch := cur in if ch =? 46 then adv;; number_digits f else ret tt
  else ret tt.

Definition number_exp_sign : P unit :=
  let! b := more in
  if b then let! ch := cur in if (ch =? 43) || (ch =? 45) then adv else ret tt
  else ret tt.

Definition number_exp (f : nat) : P unit :=
  let! b := more in
  if b then
    let! ch := cur in
    if (ch =? 101) || (ch =? 69) then adv;; number_exp_sign;; number_digits f else ret tt
  else ret tt.

Definition ngx_autocert_json_number : P json :=
  let! start := getp in
  let! f := fuel_of in
  number_sign;; number_int f;; number_frac f;; number_exp f;;
  let! ok := ngx_autocert_json_alloc in
  if negb ok then fail
  else
    let! stop := getp in
    ret (JNumber (take (stop - start) (drop start data))).

Definition literals : list (bytes * json) :=
  [(str "true", JBool 1); (str "false", JBool 0); (str "null", JNull)].

Fixpoint literal_loop (lits : list (bytes * json)) : P json :=
  match lits with
  | [] => fail
  | (text, v) :: lits' =>
      let! q := getp in
      if (length text <=? length data - q)%nat then
        match ngx_strncmp (drop q data) text (length text) with
        | None => fault
        | Some r =>
            if r =? 0 then
              (fun c => Ret tt (set_p c (p c + length text)%nat));;
              let! ok := ngx_autocert_json_alloc in
              if negb ok then fail else ret v
            else literal_loop lits'
        end
      else literal_loop lits'
  end.

Definition ngx_autocert_json_literal : P json := literal_loop literals.

(** ** Values *)

(** The recursion value / object / array with the two [for ( ;; )] loops; the
    fuel is spent one unit per call, and [json_fuel] below is enough. *)
Fixpoint ngx_autocert_json_value (fuel : nat) : P json :=
  match fuel with
  | O => nofuel
  | S f =>
      let! b := more in
      if negb b then fail
      else
        let! ch := cur in
        if ch =? 123 then ngx_autocert_json_object f
        else if ch =? 91 then ngx_autocert_json_array f
        else if ch =? 34 then
          let! ok := ngx_autocert_json_alloc in
          if negb ok then fail
          else let! s := ngx_autocert_json_string_raw in ret (JString s)
        else if (ch =? 45) || is_digit ch then ngx_autocert_json_number
        else if (ch =? 116) || (ch =? 102) || (ch =? 110) then ngx_autocert_json_literal
        else fail
  end

with ngx_autocert_json_object (fuel : nat) : P json :=
  match fuel with
  | O => nofuel
  | S f =>
      let! d := getd in
      putd (d + 1);;
      if NGX_AUTOCERT_JSON_MAX_DEPTH <? d + 1 then fail
      else
        let! ok := ngx_autocert_json_alloc in
        if negb ok then fail
        else
          adv;;
          ngx_autocert_json_skip_ws;;
          let! b := more in
          let! empty := (if b then let! ch := cur in ret (ch =? 125) else ret false) in
          if empty then
            adv;; let! d := getd in putd (d - 1);; ret (JObject [])
          else
            let! ms := object_loop f [] in ret (JObject ms)
  end

with object_loop (fuel : nat) (members : list (bytes * json)) : P (list (bytes * json)) :=
  match fuel with
  | O => nofuel
  | S f =>
      ngx_autocert_json_skip_ws;;
      let! b := more in
      if negb b then fail
      else
        let! ch := cur in
        if negb (ch =? 34) then fail
        else
          let! ok := alloc sizeof_member in
          if negb ok then fail
          else
            let! name := ngx_autocert_json_string_raw in
            ngx_autocert_json_skip_ws;;
            let! b := more in
            if negb b then fail
            else
              let! ch := cur in
              if negb (ch =? 58) then fail
              else
                adv;;
                ngx_autocert_json_skip_ws;;
                let! v := ngx_autocert_json_value f in
                let members := members ++ [(name, v)] in
                ngx_autocert_json_skip_ws;;
                let! b := more in
                if negb b then fail
                else
                  let! ch := cur in
                  if ch =? 44 then adv;; object_loop f members
                  else if ch =? 125 then
                    adv;; let! d := getd in putd (d - 1);; ret members
                  else fail
  end

with ngx_autocert_json_array (fuel : nat) : P json :=
  match fuel with
  | O => nofuel
  | S f =>
      let! d := getd in
      putd (d + 1);;
      if NGX_AUTOCERT_JSON_MAX_DEPTH <? d + 1 then fail
      else
        let! ok := ngx_autocert_json_alloc in
        if negb ok then fail
        else
          adv;;
          ngx_autocert_json_skip_ws;;
          let! b := more in
          let! empty := (if b then let! ch := cur in ret (ch =? 93) else ret false) in
          if empty then
            adv;; let! d := getd in putd (d - 1);; ret (JArray [])
          else
            let! es := array_loop f [] in ret (JArray es)
  end

with array_loop (fuel : nat) (elements : list json) : P (list json) :=
  match fuel with
  | O => nofuel
  | S f =>
      ngx_autocert_json_skip_ws;;
      let! ok := alloc sizeof_element in
      if negb ok then fail
      else
        let! v := ngx_autocert_json_value f in
        let elements := elements ++ [v] in
        ngx_autocert_json_skip_ws;;
        let! b := more in
        if negb b then fail
        else
          let! ch := cur in
          if ch =? 44 then adv;; array_loop f elements
          else if ch =? 93 then
            adv;; let! d := getd in putd (d - 1);; ret elements
          else fail
  end.

(** Three calls per input byte (value, object, loop), and three to start. *)
Definition json_fuel : nat := (3 * length data + 3)%nat.

(** [ngx_autocert_json_parse] on a context at the start of the buffer. *)
Definition ngx_autocert_json_parse_at : P json :=
  let! b := more in
  if negb b then fail
  else
    ngx_autocert_json_skip_ws;;
    let! v := ngx_autocert_json_value json_fuel in
    ngx_autocert_json_skip_ws;;
    let! q := getp in
    if negb (q =? length data)%nat then fail else ret v.

Definition ctx0 : ctx := Ctx 0 0 (Pool 0 0).

(** NULL is [None]; an undefined behaviour is [None] too, and is excluded by
    the safety theorem of JsonSpec. *)
Definition ngx_autocert_json_parse : option json :=
  match ngx_autocert_json_parse_at ctx0 with Ret v _ => Some v | _ => None end.
End Parser.

(** ** Accessors *)

(** [ngx_strncmp(name, key, klen) == 0] for a name of length [klen]. *)
Definition key_match (name key : bytes) : bool :=
  (length name =? length key)%nat
  && match ngx_strncmp name key (length key) with Some r => r =? 0 | None => false end.

Fixpoint member_scan (ms : list (bytes * json)) (key : bytes) : option json :=
  match ms with
  | [] => None
  | (name, v) :: ms' => if key_match name key then Some v else member_scan ms' key
  end.

(** [key] is the C string the caller passes, without its NUL; a NULL value
    argument is [None]. *)
Definition ngx_autocert_json_object_get (v : option json) (key : bytes) : option json :=
  match v with Some (JObject ms) => member_scan ms key | _ => None end.

(** The return code, and [*out] when it is NGX_OK. *)
Definition ngx_autocert_json_object_str (v : option json) (key : bytes) : Z * option bytes :=
  match v with
  | Some (JObject _) =>
      match ngx_autocert_json_object_get v key with
      | None => (NGX_DECLINED, None)
      | Some (JString s) => (NGX_OK, Some s)
      | Some _ => (NGX_ERROR, None)
      end
  | _ => (NGX_ERROR, None)
  end.

Fixpoint element_scan (es : list json) (idx : nat) : option json :=
  match es with
  | [] => None
  | e :: es' => match idx with O => Some e | S i => element_scan es' i end
  end.

Definition ngx_autocert_json_array_item (v : option json) (idx : nat) : option json :=
  match v with Some (JArray es) => element_scan es idx | _ => None end.

Definition ngx_autocert_json_array_count (v : option json) : nat :=
  match v with Some (JArray es) => length es | _ => O end.

Fixpoint number_int_loop (l : bytes) (n : Z) : option Z :=
  match l with
  | [] => Some n
  | c :: l' =>
      if (c <? 48) || (57 <? c) then None
      else if (NGX_MAX_INT_T_VALUE - (c - 48)) / 10 <? n then None
      else number_int_loop l' (n * 10 + (c - 48))
  end.

(** [None] is NGX_ERROR, [Some n] is NGX_OK with [*out = n]. *)
Definition ngx_autocert_json_number_int (v : option json) : option Z :=
  match v with
  | Some (JNumber t) => if (length t =? 0)%nat then None else number_int_loop t 0
  | _ => None
  end.
