(* ===== verification/JsonSound.v ===== *)
(** * The JSON reader: safety, termination, allocation budget, soundness

    One pass over the parser with the [wp] calculus of the prelude: each function
    does not fault, has enough fuel, consumes a text of its grammar symbol,
    restores the nesting depth and stays within its share of the budget. *)

From S2P Require Import Prelude NgxCore Json JsonSpec.

Local Open Scope Z_scope.
Local Open Scope prog_scope.

Section Scanner.
Context (data : bytes).

Abbreviation len := (length data).
Abbreviation na c := (nallocs (pl c)).
Abbreviation nb c := (nbytes (pl c)).

(** [eats c c' b]: between the contexts the parser moved over the bytes [b]. *)
Definition eats (c c' : ctx) (b : bytes) : Prop :=
  drop (p c) data = b ++ drop (p c') data
  /\ p c' = (p c + length b)%nat /\ (p c' <= len)%nat.

(** The same context but for the position. *)
Definition same (c c' : ctx) : Prop := depth c' = depth c /\ pl c' = pl c.

Ltac same_tac := unfold same in *; simpl in *; intuition congruence.

Lemma eats_nil c c' : (p c <= len)%nat -> p c' = p c -> eats c c' [].
Proof. intros H Hp. unfold eats. rewrite Hp. simpl. auto with lia. Qed.

Lemma eats_app c1 c2 c3 b1 b2 : eats c1 c2 b1 -> eats c2 c3 b2 -> eats c1 c3 (b1 ++ b2).
Proof.
  intros (E1 & P1 & L1) (E2 & P2 & L2). unfold eats.
  rewrite E1, E2, P2, P1, length_app, app_assoc. auto with lia.
Qed.

Lemma eats_cons c1 c2 c3 x b : eats c1 c2 [x] -> eats c2 c3 b -> eats c1 c3 (x :: b).
Proof. intros H1 H2. apply (eats_app _ _ _ [x] b H1 H2). Qed.

Lemma eats_one c c' ch : data !! p c = Some ch -> p c' = S (p c) -> eats c c' [ch].
Proof.
  intros Hl Hp. pose proof (lookup_lt_Some _ _ _ Hl). unfold eats.
  rewrite Hp, (drop_S _ _ _ Hl). simpl. repeat split; lia.
Qed.

Lemma eats_pos c c' b : eats c c' b -> p c' = (p c + length b)%nat /\ (p c' <= len)%nat.
Proof. intros (_ & H). exact H. Qed.

Lemma eats_from c1 c1' c2 b : eats c1 c2 b -> p c1' = p c1 -> eats c1' c2 b.
Proof. unfold eats. by intros H ->. Qed.

(** Reading the current byte after the bounds test. *)
Lemma wp_more c Q E : Q (p c <? len)%nat c -> wp (more data) c Q E.
Proof. exact id. Qed.

Lemma wp_cur c Q E :
  (p c < len)%nat -> (forall ch, data !! p c = Some ch -> Q ch c) -> wp (cur data) c Q E.
Proof.
  intros Hp HQ. unfold wp, cur.
  destruct (lookup_lt_is_Some_2 data (p c) Hp) as [ch Hch]. rewrite Hch. by apply HQ.
Qed.

Lemma wp_adv c Q E : Q tt (set_p c (S (p c))) -> wp adv c Q E.
Proof. exact id. Qed.
Lemma wp_getp c Q E : Q (p c) c -> wp getp c Q E.
Proof. exact id. Qed.
Lemma wp_getd c Q E : Q (depth c) c -> wp getd c Q E.
Proof. exact id. Qed.
Lemma wp_putd c d Q E : Q tt (set_depth c d) -> wp (putd d) c Q E.
Proof. exact id. Qed.
Lemma wp_fuel_of c Q E : Q (S (len - p c)) c -> wp (fuel_of data) c Q E.
Proof. exact id. Qed.

(** *** Loops *)

Lemma wp_skip_while fuel test n c Q E :
  (p c <= len)%nat -> (len - p c < fuel)%nat ->
  (forall w c', eats c c' w -> same c c' -> forallb test w = true ->
                (forall ch, data !! p c' = Some ch -> test ch = false) ->
                Q (n + length w)%nat c') ->
  wp (skip_while data fuel test n) c Q E.
Proof.
  revert n c. induction fuel as [|f IH]; intros n c Hp Hf HQ; [lia|]. simpl.
  apply wp_bind, wp_more. destruct (Nat.ltb_spec (p c) len) as [Hlt|Hge].
  - apply wp_bind, wp_cur; [done|]. intros ch Hch. destruct (test ch) eqn:Ht.
    + apply wp_bind, wp_adv. apply IH; simpl; [lia|lia|]. intros w c' He Hs Hw Hm.
      specialize (HQ (ch :: w) c'). simpl in HQ. rewrite Nat.add_succ_r in HQ. apply HQ.
      * eapply eats_cons; [|exact He]. by apply eats_one.
      * exact Hs.
      * by rewrite Ht.
      * exact Hm.
    + apply wp_ret. specialize (HQ [] c). rewrite Nat.add_0_r in HQ.
      apply HQ; [by apply eats_nil|done|done|naive_solver].
  - apply wp_ret. specialize (HQ [] c). rewrite Nat.add_0_r in HQ.
    apply HQ; [by apply eats_nil|done|done|]. intros ch Hch%lookup_lt_Some. lia.
Qed.

Lemma wp_skip_ws c Q E :
  (p c <= len)%nat ->
  (forall w c', eats c c' w -> same c c' -> jws w ->
                (forall ch, data !! p c' = Some ch -> is_ws ch = false) -> Q tt c') ->
  wp (ngx_autocert_json_skip_ws data) c Q E.
Proof.
  intros Hp HQ. unfold ngx_autocert_json_skip_ws. apply wp_bind, wp_fuel_of.
  apply wp_bind, wp_skip_while; [done|lia|]. intros w c' He Hs Hw Hm. apply wp_ret.
  apply (HQ w); [done|done| |done]. apply Forall_forall. intros x Hx.
  rewrite forallb_forall in Hw. apply Hw. by apply list_elem_of_In.
Qed.

(** *** Strings *)

Lemma wp_hex4_loop i v c (Q : Z -> ctx -> Prop) (E : ctx -> Prop) :
  (p c + i <= len)%nat -> (i <= 4)%nat -> 0 <= v < 16 ^ (7 - Z.of_nat i) ->
  (forall c', (p c' <= len)%nat -> same c c' -> E c') ->
  (forall h ds c', eats c c' h -> same c c' -> length h = i -> mapM hexval h = Some ds ->
                   Q (fold_left (fun a d => a * 16 + d) ds v) c') ->
  wp (hex4_loop data i v) c Q E.
Proof.
  revert v c. induction i as [|i IH]; intros v c Hp Hi Hv HE HQ; cbn [hex4_loop].
  - apply wp_ret. apply (HQ [] [] c); [|done..]. apply eats_nil; [lia|done].
  - apply wp_bind, wp_cur; [lia|]. intros ch Hch. apply wp_bind, wp_adv.
    assert (Hpow : 16 ^ (7 - Z.of_nat i) = 16 * 16 ^ (7 - Z.of_nat (S i))).
    { rewrite <- Z.pow_succ_r by lia. f_equal. lia. }
    assert (H28 : 16 ^ (7 - Z.of_nat (S i)) <= 16 ^ 6) by (apply Z.pow_le_mono_r; lia).
    assert (Hgo : forall d, hexval ch = Some d ->
              wp (hex4_loop data i (Z.lor (u32 (Z.shiftl v 4)) d)) (set_p c (S (p c))) Q E).
    { intros d Hd. pose proof (hexval_range _ _ Hd). rewrite hex_shift by lia.
      apply IH; simpl; [lia|lia|lia| |].
      - intros c' Hc' Hs. apply HE; done.
      - intros h ds c' He Hs Hl Hds. apply (HQ (ch :: h) (d :: ds) c').
        + eapply eats_cons; [|exact He]. by apply eats_one.
        + done.
        + simpl. lia.
        + simpl. rewrite Hd. simpl. by rewrite Hds. }
    unfold hexval in Hgo. repeat case_match.
    + by apply Hgo.
    + replace (ch - 97 + 10) with (ch - 87) by lia. by apply Hgo.
    + replace (ch - 65 + 10) with (ch - 55) by lia. by apply Hgo.
    + apply wp_fail, HE; simpl; [lia|done].
Qed.

Lemma wp_hex4 c (Q : Z -> ctx -> Prop) (E : ctx -> Prop) :
  (p c <= len)%nat ->
  (forall c', (p c' <= len)%nat -> same c c' -> E c') ->
  (forall h v c', eats c c' h -> same c c' -> hex4 h v -> Q v c') ->
  wp (ngx_autocert_json_hex4 data) c Q E.
Proof.
  intros Hp HE HQ. unfold ngx_autocert_json_hex4. apply wp_bind, wp_getp.
  destruct (Nat.ltb_spec (len - p c) 4); [by apply wp_fail, HE|].
  apply wp_hex4_loop; [lia|lia|done|done|].
  intros h ds c' He Hs Hl Hds. apply (HQ h _ c' He Hs).
  destruct h as [|a [|b [|x [|y [|? ?]]]]]; try done. simpl in Hds.
  destruct (hexval a) as [va|] eqn:Ha; [|done]. destruct (hexval b) as [vb|] eqn:Hb; [|done].
  destruct (hexval x) as [vx|] eqn:Hx; [|done]. destruct (hexval y) as [vy|] eqn:Hy; [|done].
  simpl in Hds. injection Hds as <-. exists a, b, x, y, va, vb, vx, vy. simpl. auto 10.
Qed.

(** [closes i q]: [q] is the closing quote the pre-scan finds from [i]. *)
Inductive closes : nat -> nat -> Prop :=
  | closes_here i : data !! i = Some 34 -> closes i i
  | closes_plain i q ch :
      data !! i = Some ch -> ch <> 34 -> ch <> 92 -> closes (S i) q -> closes i q
  | closes_escape i q : data !! i = Some 92 -> closes (S (S i)) q -> closes i q.

Lemma closes_bounds i q : closes i q -> (i <= q < len)%nat.
Proof. induction 1; [|lia|lia]. split; [lia|]. by eapply lookup_lt_Some. Qed.

Lemma scan_closes f i c :
  (len - i < f)%nat ->
  wp (scan_loop data f i) c (fun q c' => closes i q /\ c' = c) (fun c' => c' = c).
Proof.
  revert i. induction f as [|f IH]; intros i Hf; [lia|]. simpl.
  destruct (Nat.leb_spec len i); [by apply wp_fail|].
  destruct (lookup_lt_is_Some_2 data i) as [ch Hch]; [lia|]. rewrite Hch.
  destruct (Z.eqb_spec ch 34) as [->|].
  { apply wp_ret. split; [by constructor|done]. }
  destruct (Z.eqb_spec ch 92) as [->|].
  - destruct (Nat.leb_spec len (S i)); [by apply wp_fail|].
    eapply wp_mono; [apply IH; lia| |done]. intros q c' [Hq ->]. split; [|done].
    by apply closes_escape.
  - eapply wp_mono; [apply IH; lia| |done]. intros q c' [Hq ->]. split; [|done].
    by eapply closes_plain.
Qed.

(** Bytes the pre-scan steps over together with the decoder. *)
Definition skips (s : bytes) : Prop :=
  forall c c' q, eats c c' s -> closes (p c) q -> closes (p c') q.

Lemma eats_split c c' a b :
  eats c c' (a ++ b) -> eats c (set_p c (p c + length a)) a
                        /\ eats (set_p c (p c + length a)) c' b.
Proof.
  intros (Hd & Hp & Hl). rewrite length_app in Hp. unfold eats; simpl.
  rewrite <- drop_drop, Hd, <- app_assoc, drop_app_length. repeat split; auto with lia.
Qed.

Lemma eats_lookup c c' x b : eats c c' (x :: b) -> data !! p c = Some x.
Proof. intros (Hd & _). apply (drop_cons_lookup data (p c) x (b ++ drop (p c') data)) in Hd. tauto. Qed.

Lemma skips_app a b : skips a -> skips b -> skips (a ++ b).
Proof.
  intros Ha Hb c c' q He Hq. apply eats_split in He as [He1 He2].
  eapply Hb; [exact He2|]. eapply Ha; [exact He1|done].
Qed.

Lemma skips_plain x : x <> 34 -> x <> 92 -> skips [x].
Proof.
  intros H1 H2 c c' q He Hq. pose proof (eats_pos _ _ _ He) as [Hp _].
  apply eats_lookup in He. simpl in Hp. rewrite Hp, Nat.add_1_r.
  inversion Hq; simplify_eq; done.
Qed.

Lemma skips_escape e : skips [92; e].
Proof.
  intros c c' q He Hq. pose proof (eats_pos _ _ _ He) as [Hp _].
  apply eats_lookup in He. simpl in Hp. rewrite Hp, Nat.add_comm. simpl.
  inversion Hq; simplify_eq; done.
Qed.

Lemma hexval_plain c v : hexval c = Some v -> c <> 34 /\ c <> 92.
Proof. unfold hexval. intros H. repeat case_match; simplify_eq; reflect_bools; lia. Qed.

Lemma skips_hex4 h v : hex4 h v -> skips h.
Proof.
  intros (a & b & c & d & va & vb & vc & vd & -> & Ha & Hb & Hc & Hd & _).
  apply hexval_plain in Ha as [], Hb as [], Hc as [], Hd as [].
  apply (skips_app [a] [b; c; d]), (skips_app [b] [c; d]), (skips_app [c] [d]);
    by apply skips_plain.
Qed.

(** What a \u escape consumes, after the [\u] itself, and the bytes it stands for. *)
Definition junicode (s d : bytes) : Prop :=
  forall r o, jchars r o -> jchars (92 :: 117 :: s ++ r) (d ++ o).

Lemma wp_unicode_escape c (Q : Z -> ctx -> Prop) (E : ctx -> Prop) :
  (p c <= len)%nat ->
  (forall c', (p c' <= len)%nat -> same c c' -> E c') ->
  (forall s v c', eats c c' s -> same c c' -> 0 <= v < 0x110000 ->
                  (length (utf8 v) <= 2 + length s)%nat -> skips s -> junicode s (utf8 v) -> Q v c') ->
  wp (unicode_escape data) c Q E.
Proof.
  intros Hp HE HQ. unfold unicode_escape. apply wp_bind, wp_hex4; [done|done|].
  intros h hi c1 He1 Hs1 Hh. pose proof (hex4_range _ _ Hh). pose proof (eats_pos _ _ _ He1).
  destruct ((0xd800 <=? hi) && (hi <=? 0xdbff)) eqn:Eh; reflect_bools.
  - apply wp_bind, wp_getp. destruct (Nat.ltb_spec (len - p c1) 2); [apply wp_fail, HE; [lia|done]|].
    apply wp_bind. unfold wp at 1, at_. rewrite Nat.add_0_r.
    destruct (lookup_lt_is_Some_2 data (p c1)) as [c0 Hc0]; [lia|]. rewrite Hc0.
    destruct (Z.eqb_spec c0 92) as [->|]; simpl negb; cbv iota; [|apply wp_fail, HE; [lia|done]].
    apply wp_bind. unfold wp at 1, at_. rewrite Nat.add_1_r.
    destruct (lookup_lt_is_Some_2 data (S (p c1))) as [c2 Hc2]; [lia|]. rewrite Hc2.
    destruct (Z.eqb_spec c2 117) as [->|]; simpl negb; cbv iota; [|apply wp_fail, HE; [lia|done]].
    apply wp_bind, wp_adv, wp_bind, wp_adv. apply wp_bind, wp_hex4; simpl;
      [lia|intros c' Hc' Hs'; apply HE; [done|same_tac]|].
    intros h' lo c3 He3 Hs3 Hh'. pose proof (hex4_range _ _ Hh').
    pose proof (eats_pos _ _ _ He3). simpl in *.
    destruct ((lo <? 0xdc00) || (0xdfff <? lo)) eqn:El; reflect_bools.
    { apply wp_fail, HE; [lia|]. same_tac. }
    assert (Hcp : u32 (0x10000 + Z.lor (Z.shiftl (hi - 0xd800) 10) (lo - 0xdc00))
                  = 0x10000 + (hi - 0xd800) * 1024 + (lo - 0xdc00)).
    { rewrite Z.shiftl_mul_pow2, lor_add_low by lia. unfold u32. rewrite Z.mod_small by lia. lia. }
    apply wp_ret. rewrite Hcp. apply (HQ (h ++ 92 :: 117 :: h')).
    + eapply eats_app; [exact He1|]. eapply eats_cons; [by apply (eats_one c1 (set_p c1 (S (p c1))))|].
      eapply eats_cons; [|exact He3]. by apply eats_one.
    + same_tac.
    + lia.
    + pose proof (utf8_length (0x10000 + (hi - 0xd800) * 1024 + (lo - 0xdc00))).
      rewrite length_app. simpl. lia.
    + apply skips_app; [by eapply skips_hex4|].
      apply (skips_app [92; 117]); [apply skips_escape|by eapply skips_hex4].
    + intros r o Hr. rewrite <- app_assoc. simpl. apply jc_pair; done.
  - destruct ((0xdc00 <=? hi) && (hi <=? 0xdfff)) eqn:El; reflect_bools.
    + apply wp_fail, HE; [lia|done].
    + apply wp_ret. apply (HQ h hi c1 He1 Hs1); [lia| | |].
      * pose proof (utf8_length_bmp hi ltac:(lia)). pose proof (hex4_length _ _ Hh). lia.
      * by eapply skips_hex4.
      * intros r o Hr. apply jc_unicode; [done| |done]. unfold is_surrogate. lia.
Qed.

(** [dst] never leaves its block: what is written is at most what was read. *)
Lemma wp_decode f start q span dst c (Q : bytes -> ctx -> Prop) (E : ctx -> Prop) :
  closes (p c) q -> span = (q - start)%nat -> (length dst <= p c - start)%nat ->
  (start <= p c)%nat -> (len - p c < f)%nat ->
  (forall c', (p c' <= len)%nat -> same c c' -> E c') ->
  (forall raw d c', eats c c' (raw ++ [34]) -> same c c' -> p c' = S q -> jchars raw d ->
                    Q (dst ++ d) c') ->
  wp (decode_loop data f span dst) c Q E.
Proof.
  intros Hq -> . revert dst c Hq. induction f as [|f IH]; intros dst c Hq Hd Hs Hf HE HQ; [lia|].
  pose proof (closes_bounds _ _ Hq) as Hb. cbn [decode_loop]. apply wp_bind, wp_more.
  destruct (Nat.ltb_spec (p c) len) as [Hlt|]; [|lia].
  apply wp_bind, wp_cur; [done|]. intros ch Hch. apply wp_bind, wp_adv.
  assert (He1 : eats c (set_p c (S (p c))) [ch]) by by apply eats_one.
  destruct (Z.eqb_spec ch 34) as [->|H34].
  { apply wp_ret. rewrite <- (app_nil_r dst). apply (HQ []); [done|done| |constructor].
    inversion Hq; simplify_eq; done. }
  destruct (Z.ltb_spec ch 32); [apply wp_fail, HE; [simpl; lia|done]|].
  destruct (Z.eqb_spec ch 92) as [->|H92]; cbn [negb].
  - assert (Hq2 : closes (S (S (p c))) q) by (inversion Hq; simplify_eq; done).
    pose proof (closes_bounds _ _ Hq2). apply wp_bind, wp_more.
    destruct (Nat.ltb_spec (p (set_p c (S (p c)))) len) as [Hlt2|]; cbn [negb p set_p] in *; [|lia].
    apply wp_bind, wp_cur; [done|]. intros e Hce. apply wp_bind, wp_adv.
    set (c2 := set_p _ _). assert (Hc2 : p c2 = S (S (p c))) by done.
    assert (He2 : eats c c2 [92; e]) by (eapply eats_cons; [exact He1|by apply eats_one]).
    destruct (Z.eqb_spec e 117) as [->|].
    + apply wp_bind, wp_unicode_escape; [simpl; lia|intros; apply HE; [done|same_tac]|].
      intros s v c3 He3 Hs3 Hv Hl Hsk Hj. apply (Hsk _ _ q) in He3 as Hq3; [|by rewrite Hc2].
      pose proof (eats_pos _ _ _ He3). pose proof (closes_bounds _ _ Hq3).
      rewrite utf8_correct by done. apply wp_bind. unfold put.
      destruct (Nat.leb_spec (length dst + length (utf8 v)) (q - start)); [|simpl in *; lia].
      apply wp_ret, IH; [done|rewrite length_app; simpl in *; lia|simpl in *; lia|simpl in *; lia| |].
      * intros c' Hc' Hs'. apply HE; [done|same_tac].
      * intros raw d c' He' Hs' Hp' Hr. rewrite <- app_assoc.
        apply (HQ (92 :: 117 :: s ++ raw)); [|same_tac|done|by apply Hj].
        pose proof (eats_app _ _ _ _ _ He2 (eats_app _ _ _ _ _ He3 He')) as Hall.
        simpl in Hall. simpl. by rewrite <- app_assoc.
    + destruct (simple_escape e) as [x|] eqn:Ex; [|apply wp_fail, HE; [simpl; lia|done]].
      apply wp_bind. unfold put. simpl length.
      destruct (Nat.leb_spec (length dst + 1) (q - start)); [|simpl in *; lia].
      apply wp_ret, IH; [done|rewrite length_app; simpl in *; lia|simpl in *; lia|simpl in *; lia| |].
      * intros c' Hc' Hs'. apply HE; [done|same_tac].
      * intros raw d c' He' Hs' Hp' Hr. rewrite <- app_assoc.
        apply (HQ (92 :: e :: raw)); [|same_tac|done|by apply jc_escape].
        exact (eats_app _ _ _ _ _ He2 He').
  - assert (Hq2 : closes (S (p c)) q) by (inversion Hq; simplify_eq; done).
    pose proof (closes_bounds _ _ Hq2). apply wp_bind. unfold put. simpl length.
    destruct (Nat.leb_spec (length dst + 1) (q - start)); [|simpl in *; lia].
    apply wp_ret, IH; [done|rewrite length_app; simpl in *; lia|simpl in *; lia|simpl in *; lia| |].
    + intros c' Hc' Hs'. apply HE; [done|same_tac].
    + intros raw d c' He' Hs' Hp' Hr. rewrite <- app_assoc.
      apply (HQ (ch :: raw)); [|same_tac|done|by apply jc_plain].
      exact (eats_app _ _ _ _ _ He1 He').
Qed.

(** *** Numbers and literals *)

Lemma eats_slice c c' raw : eats c c' raw -> take (p c' - p c) (drop (p c) data) = raw.
Proof.
  intros (-> & -> & _). replace (p c + length raw - p c)%nat with (length raw) by lia.
  apply take_app_length.
Qed.

(** A piece of a number: consumed text in [G], nothing else changed. *)
Abbreviation piece m c G :=
  (wp m c (fun _ c' => exists s, eats c c' s /\ same c c' /\ G s)
      (fun c' => same c c')).

Ltac none := apply wp_ret; exists []; split; [apply eats_nil; [lia|done]|split; [done|by left]].

Lemma wp_sign c : (p c <= len)%nat -> piece (number_sign data) c jsign.
Proof.
  intros Hp. apply wp_bind, wp_more. destruct (Nat.ltb_spec (p c) len); [|none].
  apply wp_bind, wp_cur; [done|]. intros ch Hch. destruct (Z.eqb_spec ch 45) as [->|]; [|none].
  apply wp_adv. exists [45]. split; [by apply eats_one|]. split; [done|by right].
Qed.

Lemma wp_int f c : (p c <= len)%nat -> (len - p c < f)%nat -> piece (number_int data f) c jint.
Proof.
  intros Hp Hf. apply wp_bind, wp_more. destruct (Nat.ltb_spec (p c) len); [|by apply wp_fail].
  apply wp_bind, wp_cur; [done|]. intros ch Hch. cbn [negb].
  destruct (Z.eqb_spec ch 48) as [->|].
  { apply wp_adv. exists [48]. split; [by apply eats_one|]. split; [done|by left]. }
  destruct (_ && _) eqn:Ed; [|by apply wp_fail]. reflect_bools.
  apply wp_bind, wp_skip_while; [done|done|]. intros w c' He Hs Hw Hm. apply wp_ret.
  exists w. split; [done|]. split; [done|]. right. destruct w as [|d w].
  - apply eats_pos in He as [He _]. simpl in He. rewrite Nat.add_0_r in He.
    rewrite He in Hm. apply Hm in Hch. unfold is_digit in Hch. reflect_bools. lia.
  - apply eats_lookup in He. simplify_eq. simpl in Hw. apply andb_true_iff in Hw as [_ Hw].
    eexists _, w. auto with lia.
Qed.

Lemma wp_digits f c (G : bytes -> Prop) :
  (p c <= len)%nat -> (len - p c < f)%nat ->
  (forall ds, ds <> [] -> digits ds -> G ds) -> piece (number_digits data f) c G.
Proof.
  intros Hp Hf HG. apply wp_bind, wp_skip_while; [done|done|]. intros w c' He Hs Hw _.
  destruct (Nat.eqb_spec (0 + length w) 0) as [Hl|Hl]; [by apply wp_fail|].
  apply wp_ret. exists w. split; [done|]. split; [done|]. apply HG; [|done].
  by intros ->.
Qed.

(** Prefix a piece with an already consumed text. *)
Lemma piece_after (m : prog ctx unit) c c1 s (G G' : bytes -> Prop) :
  eats c c1 s -> same c c1 -> (forall s', G' s' -> G (s ++ s')) ->
  piece m c1 G' ->
  wp m c1 (fun _ c' => exists s', eats c c' s' /\ same c c' /\ G s') (fun c' => same c c').
Proof.
  intros He Hs HG H. eapply wp_mono; [exact H| |].
  - intros _ c' (s' & He' & Hs' & Hg). exists (s ++ s').
    split; [by eapply eats_app|]. split; [same_tac|by apply HG].
  - simpl. intros c' Hs'. same_tac.
Qed.

Lemma wp_frac f c : (p c <= len)%nat -> (len - p c < f)%nat -> piece (number_frac data f) c jfrac.
Proof.
  intros Hp Hf. apply wp_bind, wp_more. destruct (Nat.ltb_spec (p c) len); [|none].
  apply wp_bind, wp_cur; [done|]. intros ch Hch. destruct (Z.eqb_spec ch 46) as [->|]; [|none].
  apply wp_bind, wp_adv. eapply (piece_after _ c _ [46] _ (fun s => s <> [] /\ digits s)).
  - by apply eats_one.
  - done.
  - intros ds [? ?]. right. by exists ds.
  - apply wp_digits; simpl; [lia|lia|done].
Qed.

Lemma wp_exp_sign c :
  (p c <= len)%nat -> piece (number_exp_sign data) c (fun s => s = [] \/ s = [43] \/ s = [45]).
Proof.
  intros Hp. apply wp_bind, wp_more. destruct (Nat.ltb_spec (p c) len); [|none].
  apply wp_bind, wp_cur; [done|]. intros ch Hch. destruct (_ || _) eqn:E; [|none].
  apply wp_adv. exists [ch]. split; [by apply eats_one|]. split; [done|]. reflect_bools.
  destruct E as [E|E]; apply Z.eqb_eq in E; subst; auto.
Qed.

Lemma wp_exp f c : (p c <= len)%nat -> (len - p c < f)%nat -> piece (number_exp data f) c jexp.
Proof.
  intros Hp Hf. apply wp_bind, wp_more. destruct (Nat.ltb_spec (p c) len); [|none].
  apply wp_bind, wp_cur; [done|]. intros ch Hch. destruct (_ || _) eqn:E; [|none].
  assert (Hc : ch = 101 \/ ch = 69) by (reflect_bools; lia). clear E.
  apply wp_bind, wp_adv. set (c1 := set_p c _).
  assert (He1 : eats c c1 [ch]) by by apply eats_one.
  apply wp_bind. eapply wp_mono; [apply wp_exp_sign; simpl; lia| |by intros].
  simpl. intros _ c2 (s & He & Hs & Hg). pose proof (eats_pos _ _ _ He). simpl in *.
  eapply (piece_after _ c c2 (ch :: s) _ (fun d => d <> [] /\ digits d)).
  - by eapply eats_cons.
  - same_tac.
  - intros ds [? ?]. right. exists ch, s, ds. auto.
  - apply wp_digits; [lia|lia|done].
Qed.

End Scanner.

Arguments eats_nil {data}.
Arguments eats_app {data}.
Arguments eats_cons {data}.
Arguments eats_one {data}.
Arguments eats_pos {data}.
Arguments eats_from {data}.
Arguments eats_lookup {data}.
Arguments eats_slice {data}.
Arguments closes_bounds {data}.
Arguments wp_decode {data}.

Section Sound.
Context (data : bytes) (oom : nat -> bool).

Abbreviation len := (length data).
Abbreviation na c := (nallocs (pl c)).
Abbreviation nb c := (nbytes (pl c)).
Abbreviation eats := (eats data).
Ltac same_tac := unfold same in *; simpl in *; intuition congruence.

Lemma wp_alloc c n (Q : bool -> ctx -> Prop) E :
  (forall ok, Q ok (Ctx (p c) (depth c) (Pool (S (na c)) (nb c + n)%nat))) ->
  wp (alloc oom n) c Q E.
Proof. intros H. unfold wp, alloc. apply H. Qed.

Lemma wp_string_raw c (Q : bytes -> ctx -> Prop) (E : ctx -> Prop) :
  data !! p c = Some 34 ->
  (forall c', (p c' <= len)%nat -> na c' = S (na c) \/ na c' = na c ->
              (nb c' <= nb c + (len - p c))%nat -> E c') ->
  (forall raw d c', eats c c' (34 :: raw ++ [34]) -> depth c' = depth c ->
                    na c' = S (na c) -> nb c' = (nb c + length raw)%nat -> jchars raw d ->
                    Q d c') ->
  wp (ngx_autocert_json_string_raw data oom) c Q E.
Proof.
  intros H34 HE HQ. pose proof (lookup_lt_Some _ _ _ H34).
  unfold ngx_autocert_json_string_raw. apply wp_bind, wp_adv, wp_bind, wp_getp.
  apply wp_bind, wp_fuel_of, wp_bind. simpl p.
  eapply wp_mono; [apply scan_closes; lia| |].
  2: { intros s' ->. apply HE; simpl; auto with lia. }
  intros q c' [Hq ->]. pose proof (closes_bounds _ _ Hq).
  apply wp_bind, wp_alloc. intros ok. destruct (negb ok && _) eqn:?.
  { apply wp_fail, HE; simpl; auto with lia. }
  apply (wp_decode _ (S (p c)) q); simpl; [done|done|lia|lia|lia| |].
  - intros c' Hc' [_ Hp]. apply HE; [done|rewrite Hp; simpl; auto with lia..].
  - intros raw d c' He [Hd Hp] Hpc Hr. apply (HQ raw); [|done| | |done].
    + apply (eats_cons c (set_p c (S (p c)))); [by apply eats_one|exact He].
    + by rewrite Hp.
    + rewrite Hp. simpl. apply eats_pos in He as [He _]. rewrite length_app in He.
      simpl in He. lia.
Qed.

Lemma wp_number c (Q : json -> ctx -> Prop) (E : ctx -> Prop) :
  (p c <= len)%nat ->
  (forall c', (na c' <= S (na c))%nat -> (nb c' <= nb c + 24)%nat -> E c') ->
  (forall raw c', eats c c' raw -> raw <> [] -> jnum raw -> depth c' = depth c ->
                  na c' = S (na c) -> nb c' = (nb c + 24)%nat -> Q (JNumber raw) c') ->
  wp (ngx_autocert_json_number data oom) c Q E.
Proof.
  intros Hp HE HQ. apply wp_bind, wp_getp, wp_bind, wp_fuel_of.
  assert (HE' : forall c', same c c' -> E c').
  { intros c' [_ Hs]. apply HE; rewrite Hs; lia. }
  apply wp_bind. eapply wp_mono; [by apply wp_sign| |exact HE'].
  simpl. intros _ c1 (s & He1 & Hs1 & Hg1). pose proof (eats_pos _ _ _ He1).
  apply wp_bind. eapply wp_mono; [apply wp_int; lia| |intros c' ?; apply HE'; same_tac].
  simpl. intros _ c2 (i & He2 & Hs2 & Hg2). pose proof (eats_pos _ _ _ He2).
  apply wp_bind. eapply wp_mono; [apply wp_frac; lia| |intros c' ?; apply HE'; same_tac].
  simpl. intros _ c3 (fr & He3 & Hs3 & Hg3). pose proof (eats_pos _ _ _ He3).
  apply wp_bind. eapply wp_mono; [apply wp_exp; lia| |intros c' ?; apply HE'; same_tac].
  simpl. intros _ c4 (e & He4 & Hs4 & Hg4).
  pose proof (eats_app _ _ _ _ _ He1 (eats_app _ _ _ _ _ He2 (eats_app _ _ _ _ _ He3 He4))) as He.
  assert (Hs : same c c4) by same_tac. destruct Hs as [Hsd Hsp].
  apply wp_bind, wp_alloc. intros ok. destruct (negb ok).
  { apply wp_fail, HE; simpl; rewrite Hsp; unfold sizeof_value; lia. }
  apply wp_bind, wp_getp, wp_ret. simpl p. rewrite (eats_slice c c4 _ He).
  apply HQ; simpl; [exact He| | |done|by rewrite Hsp|by rewrite Hsp].
  - destruct s; [|done]. destruct i; [|done]. destruct Hg2 as [?|(? & ? & ? & _)]; done.
  - by exists s, i, fr, e.
Qed.

Lemma wp_literal c (Q : json -> ctx -> Prop) (E : ctx -> Prop) :
  (p c <= len)%nat ->
  (forall c', (na c' <= S (na c))%nat -> (nb c' <= nb c + 24)%nat -> E c') ->
  (forall text v c', eats c c' text -> (text, v) ∈ literals -> depth c' = depth c ->
                     na c' = S (na c) -> nb c' = (nb c + 24)%nat -> Q v c') ->
  wp (ngx_autocert_json_literal data oom) c Q E.
Proof.
  intros Hp HE HQ. unfold ngx_autocert_json_literal.
  assert (Hnz : Forall (fun l => Forall (fun x => x <> 0) (fst l)) literals).
  { repeat constructor; simpl; lia. }
  assert (Hin : forall l, l ∈ literals -> l ∈ literals) by done. revert Hin Hnz.
  generalize literals at 1 3 4 as lits. induction lits as [|[text v] lits IH]; intros Hin Hnz.
  { apply wp_fail, HE; lia. }
  apply Forall_cons in Hnz as [Hnz1 Hnz]. simpl in Hnz1. simpl.
  assert (IH' : wp (literal_loop data oom lits) c Q E).
  { apply IH; [|done]. intros l Hl. apply Hin. by right. }
  apply wp_bind, wp_getp. destruct (Nat.leb_spec (length text) (len - p c)); [|exact IH'].
  destruct (strncmp_prefix (drop (p c) data) text) as (r & Hr & Hr0); [by rewrite length_drop|done|].
  rewrite Hr. destruct (Z.eqb_spec r 0) as [E0|]; [|exact IH'].
  apply Hr0 in E0 as [t Ht]. apply wp_bind. unfold wp at 1.
  apply wp_bind, wp_alloc. intros ok. destruct (negb ok); [apply wp_fail, HE; simpl; unfold sizeof_value; lia|].
  apply wp_ret, (HQ text); simpl; [|apply Hin; left|done..].
  unfold eats. simpl. rewrite <- drop_drop, Ht, drop_app_length. repeat split; lia.
Qed.

(** *** Values *)

(** At most two allocations and 64 bytes per byte consumed. *)
Definition within (c c' : ctx) : Prop :=
  (na c' <= na c + 2 * (p c' - p c))%nat /\ (nb c' <= nb c + 64 * (p c' - p c))%nat.

(** On an error, as much for everything that was left, and a constant. *)
Definition err_post (c c' : ctx) : Prop :=
  (na c' <= na c + 2 * (len - p c) + 2)%nat /\ (nb c' <= nb c + 64 * (len - p c) + 64)%nat.

Definition value_post (n : nat) (c : ctx) (v : json) (c' : ctx) : Prop :=
  exists b, eats c c' b /\ b <> [] /\ jval n v b /\ depth c' = depth c /\ within c c'.

Definition at_depth (c : ctx) (n : nat) : Prop :=
  (p c <= len)%nat /\ depth c = NGX_AUTOCERT_JSON_MAX_DEPTH - Z.of_nat n.

Definition value_ok (f : nat) : Prop :=
  forall c n, at_depth c n -> (3 * (len - p c) + 3 <= f)%nat ->
    wp (ngx_autocert_json_value data oom f) c (value_post n c) (err_post c).

Definition array_ok (f : nat) : Prop :=
  forall c n, at_depth c n -> data !! p c = Some 91 -> (3 * (len - p c) + 2 <= f)%nat ->
    wp (ngx_autocert_json_array data oom f) c (value_post n c) (err_post c).

Definition object_ok (f : nat) : Prop :=
  forall c n, at_depth c n -> data !! p c = Some 123 -> (3 * (len - p c) + 2 <= f)%nat ->
    wp (ngx_autocert_json_object data oom f) c (value_post n c) (err_post c).

(** The loops: one byte of their text pays nothing, so they return with an
    allocation and 48 bytes to spare. *)
Definition loop_post {A} (close : Z) (G : nat -> list A -> bytes -> Prop)
    (n : nat) (c : ctx) (acc l : list A) (c' : ctx) : Prop :=
  exists l' body, l = acc ++ l' /\ eats c c' (body ++ [close]) /\ G n l' body
    /\ depth c' = depth c - 1
    /\ (na c' + 1 <= na c + 2 * (p c' - p c))%nat
    /\ (nb c' + 48 <= nb c + 64 * (p c' - p c))%nat.

Definition loop_err (c c' : ctx) : Prop :=
  (na c' <= na c + 2 * (len - p c) + 3)%nat /\ (nb c' <= nb c + 64 * (len - p c) + 96)%nat.

Definition array_loop_ok (f : nat) : Prop :=
  forall c n es, at_depth c n -> (3 * (len - p c) + 4 <= f)%nat ->
    wp (array_loop data oom f es) c (loop_post 93 jelems n c es) (loop_err c).

Definition object_loop_ok (f : nat) : Prop :=
  forall c n ms, at_depth c n -> (3 * (len - p c) + 4 <= f)%nat ->
    wp (object_loop data oom f ms) c (loop_post 125 jmembers n c ms) (loop_err c).

Ltac err := apply wp_fail; unfold err_post, loop_err, within, same in *; simpl in *;
            unfold sizeof_value, sizeof_member, sizeof_element in *; intuition (try congruence; lia).

Lemma array_loop_step f : value_ok f -> array_loop_ok f -> array_loop_ok (S f).
Proof.
  intros IHv IHl c n es [Hp Hd] Hf. cbn [array_loop].
  apply wp_bind, wp_skip_ws; [done|]. intros w1 c1 He1 [Hd1 Ha1] Hw1 _.
  pose proof (eats_pos _ _ _ He1). apply wp_bind, wp_alloc. intros ok.
  destruct (negb ok); [rewrite Ha1; err|]. set (c2 := Ctx _ _ _).
  apply wp_bind. eapply wp_mono.
  { apply (IHv c2 n); [split; simpl; [lia|congruence]|simpl; lia]. }
  2: { intros c' [H1 H2]. unfold loop_err. simpl in H1, H2. rewrite Ha1 in H1, H2.
       unfold sizeof_element in *. lia. }
  intros v c3 (b & He3 & Hb & Hv & Hd3 & [Hn3 Hb3]). simpl in Hn3, Hb3, Hd3.
  unfold sizeof_element in *. rewrite Ha1 in Hn3, Hb3.
  apply eats_from with (c1' := c1) in He3; [|done].
  pose proof (eats_pos _ _ _ He3). assert (0 < length b)%nat by (destruct b; [done|simpl; lia]).
  apply wp_bind, wp_skip_ws; [lia|]. intros w2 c4 He4 [Hd4 Ha4] Hw2 _.
  pose proof (eats_pos _ _ _ He4). apply wp_bind, wp_more.
  destruct (Nat.ltb_spec (p c4) len); cbn [negb]; [|rewrite <- Ha4 in *; err].
  apply wp_bind, wp_cur; [done|]. intros ch Hch. set (c5 := set_p c4 (S (p c4))).
  assert (He5 : eats c4 c5 [ch]) by by apply eats_one.
  pose proof (eats_app _ _ _ _ _ He1 (eats_app _ _ _ _ _ He3 (eats_app _ _ _ _ _ He4 He5))) as He.
  destruct (Z.eqb_spec ch 44) as [->|].
  { apply wp_bind, wp_adv. eapply wp_mono.
    { apply (IHl c5 n); [split; simpl; [lia|congruence]|simpl; lia]. }
    2: { intros c' [H1' H2']. unfold loop_err. simpl in H1', H2'. rewrite Ha4 in H1', H2'. lia. }
    intros l c6 (es' & body & -> & He6 & Hg & Hd6 & Hn6 & Hb6). simpl in Hn6, Hb6, Hd6.
    rewrite Ha4 in Hn6, Hb6. pose proof (eats_pos _ _ _ He6). simpl in *.
    exists (v :: es'), (w1 ++ b ++ w2 ++ 44 :: body). rewrite <- app_assoc.
    split; [done|]. split; [|repeat split; [by constructor|congruence|lia|lia]].
    pose proof (eats_app _ _ _ _ _ He He6) as Hall. repeat rewrite <- app_assoc in Hall.
    repeat rewrite <- app_assoc. exact Hall. }
  destruct (Z.eqb_spec ch 93) as [->|]; [|rewrite <- Ha4 in *; err].
  apply wp_bind, wp_adv, wp_bind, wp_getd, wp_bind, wp_putd, wp_ret.
  exists [v], (w1 ++ b ++ w2). split; [done|]. repeat rewrite <- app_assoc.
  split; [exact (He)|]. simpl. rewrite Ha4.
  repeat split; [by constructor|congruence|lia|lia].
Qed.

Lemma object_loop_step f : value_ok f -> object_loop_ok f -> object_loop_ok (S f).
Proof.
  intros IHv IHl c n ms [Hp Hd] Hf. cbn [object_loop].
  apply wp_bind, wp_skip_ws; [done|]. intros w1 c1 He1 [Hd1 Ha1] Hw1 _.
  pose proof (eats_pos _ _ _ He1). apply wp_bind, wp_more.
  destruct (Nat.ltb_spec (p c1) len); cbn [negb]; [|apply wp_fail; unfold loop_err; rewrite Ha1; lia].
  apply wp_bind, wp_cur; [done|]. intros c0 Hc0. destruct (Z.eqb_spec c0 34) as [->|];
    cbn [negb]; [|apply wp_fail; unfold loop_err; rewrite Ha1; lia].
  apply wp_bind, wp_alloc. intros ok. destruct (negb ok); [rewrite Ha1; err|].
  set (c2 := Ctx _ _ _). apply wp_bind, wp_string_raw; [done| |].
  { intros c' Hc' Hn Hb. unfold loop_err. simpl in Hn, Hb. rewrite Ha1 in Hn, Hb.
    unfold sizeof_member in *. lia. }
  intros raw k c3 He3 Hd3 Hn3 Hb3 Hk. simpl in Hd3, Hn3, Hb3. rewrite Ha1 in Hn3, Hb3.
  unfold sizeof_member in *. apply eats_from with (c1' := c1) in He3; [|done].
  pose proof (eats_pos _ _ _ He3) as [Hp3 Hl3]. simpl in Hp3. rewrite length_app in Hp3.
  simpl in Hp3. apply wp_bind, wp_skip_ws; [lia|]. intros w2 c4 He4 [Hd4 Ha4] Hw2 _.
  pose proof (eats_pos _ _ _ He4). apply wp_bind, wp_more.
  destruct (Nat.ltb_spec (p c4) len); cbn [negb]; [|rewrite <- Ha4 in *; err].
  apply wp_bind, wp_cur; [done|]. intros ch Hch. destruct (Z.eqb_spec ch 58) as [->|];
    cbn [negb]; [|rewrite <- Ha4 in *; err].
  apply wp_bind, wp_adv. set (c5 := set_p c4 (S (p c4))).
  assert (He5 : eats c4 c5 [58]) by by apply eats_one.
  apply wp_bind, wp_skip_ws; [simpl; lia|]. intros w3 c6 He6 [Hd6 Ha6] Hw3 _.
  pose proof (eats_pos _ _ _ He6). simpl in Hd6, Ha6. simpl p in *.
  apply wp_bind. eapply wp_mono.
  { apply (IHv c6 n); [split; [lia|congruence]|lia]. }
  2: { intros c' [Hn' Hb']. unfold loop_err. rewrite Ha6, Ha4 in Hn', Hb'. lia. }
  intros v c7 (b & He7 & Hb & Hv & Hd7 & [Hn7 Hb7]). rewrite Ha6, Ha4 in Hn7, Hb7.
  pose proof (eats_pos _ _ _ He7). assert (0 < length b)%nat by (destruct b; [done|simpl; lia]).
  apply wp_bind, wp_skip_ws; [lia|]. intros w4 c8 He8 [Hd8 Ha8] Hw4 _.
  pose proof (eats_pos _ _ _ He8). apply wp_bind, wp_more.
  destruct (Nat.ltb_spec (p c8) len); cbn [negb]; [|rewrite <- Ha8 in *; err].
  apply wp_bind, wp_cur; [done|]. intros cx Hcx. set (c9 := set_p c8 (S (p c8))).
  assert (He9 : eats c8 c9 [cx]) by by apply eats_one.
  pose proof (eats_app _ _ _ _ _ He1 (eats_app _ _ _ _ _ He3 (eats_app _ _ _ _ _ He4
    (eats_app _ _ _ _ _ He5 (eats_app _ _ _ _ _ He6 (eats_app _ _ _ _ _ He7
    (eats_app _ _ _ _ _ He8 He9))))))) as He. clear He1 He3 He4 He5 He6 He7 He8 He9.
  destruct (Z.eqb_spec cx 44) as [->|].
  { apply wp_bind, wp_adv. eapply wp_mono.
    { apply (IHl c9 n); [split; simpl; [lia|congruence]|simpl; lia]. }
    2: { intros c' [Hn' Hb']. unfold loop_err. simpl in Hn', Hb'. rewrite Ha8 in Hn', Hb'. lia. }
    intros l c' (ms' & body & -> & He' & Hg & Hd' & Hn' & Hb'). simpl in Hn', Hb', Hd'.
    rewrite Ha8 in Hn', Hb'. pose proof (eats_pos _ _ _ He'). simpl in *.
    exists ((k, v) :: ms'), (w1 ++ 34 :: raw ++ 34 :: w2 ++ 58 :: w3 ++ b ++ w4 ++ 44 :: body).
    rewrite <- app_assoc. split; [done|]. split; [|repeat split; [by constructor|congruence|lia|lia]].
    pose proof (eats_app _ _ _ _ _ He He') as Hall. simpl in Hall.
    repeat (rewrite <- app_assoc in Hall; simpl in Hall).
    repeat (rewrite <- app_assoc; simpl). exact Hall. }
  destruct (Z.eqb_spec cx 125) as [->|]; [|rewrite <- Ha8 in *; err].
  apply wp_bind, wp_adv, wp_bind, wp_getd, wp_bind, wp_putd, wp_ret.
  exists [(k, v)], (w1 ++ 34 :: raw ++ 34 :: w2 ++ 58 :: w3 ++ b ++ w4). split; [done|].
  split; [|split; [by constructor|simpl; rewrite Ha8; split; [congruence|lia]]].
  simpl in He. repeat (rewrite <- app_assoc in He; simpl in He).
  repeat (rewrite <- app_assoc; simpl). exact He.
Qed.

(** The shared start of an object and of an array: depth test, value node,
    opening bracket, white space, and the test for an empty container. *)
Lemma bracket_step {A} (loop : prog ctx (list A)) (mk : list A -> json) open close
    (G : nat -> list A -> bytes -> Prop) c n :
  at_depth c n -> data !! p c = Some open ->
  (forall m w, jws w -> jval (S m) (mk []) (open :: w ++ [close])) ->
  (forall m l body, G m l body -> jval (S m) (mk l) (open :: body ++ [close])) ->
  (forall m l body w, jws w -> G m l body -> G m l (w ++ body)) ->
  (forall c1 m, at_depth c1 m -> (p c < p c1)%nat ->
      wp loop c1 (loop_post close G m c1 []) (loop_err c1)) ->
  wp (let! d := getd in
      putd (d + 1);;
      if NGX_AUTOCERT_JSON_MAX_DEPTH <? d + 1 then fail
      else
        let! ok := ngx_autocert_json_alloc oom in
        if negb ok then fail
        else
          adv;;
          ngx_autocert_json_skip_ws data;;
          let! b := more data in
          let! empty := (if b then let! ch := cur data in ret (ch =? close) else ret false) in
          if empty then adv;; let! d := getd in putd (d - 1);; ret (mk [])
          else let! l := loop in ret (mk l)) c (value_post n c) (err_post c).
Proof.
  intros [Hp Hd] Ho Hempty Hfull Hws Hloop. pose proof (lookup_lt_Some _ _ _ Ho).
  apply wp_bind, wp_getd, wp_bind, wp_putd.
  destruct (Z.ltb_spec NGX_AUTOCERT_JSON_MAX_DEPTH (depth c + 1)); [err|].
  destruct n as [|m]; [lia|].
  apply wp_bind, wp_alloc. intros ok. destruct (negb ok); [err|].
  apply wp_bind, wp_adv. set (c1 := set_p _ _).
  assert (He1 : eats c c1 [open]) by by apply eats_one.
  apply wp_bind, wp_skip_ws; [simpl; lia|]. intros w c2 He2 [Hd2 Ha2] Hw _.
  pose proof (eats_pos _ _ _ He2). simpl in Hd2, Ha2. unfold sizeof_value in *.
  assert (Hgo : wp (let! l := loop in ret (mk l)) c2 (value_post (S m) c) (err_post c)).
  { apply wp_bind. eapply wp_mono.
    - apply (Hloop c2 m); [split; [lia|]|simpl in *; lia]. rewrite Hd2, Hd. lia.
    - intros l c3 (l' & body & -> & He3 & HG & Hd3 & Hn3 & Hb3). apply wp_ret.
      pose proof (eats_pos _ _ _ He3). rewrite Ha2 in Hn3, Hb3. simpl in *.
      exists (open :: (w ++ body) ++ [close]). split; [|split; [done|]].
      + rewrite <- app_assoc. eapply eats_cons; [exact He1|]. by eapply eats_app.
      + split; [by apply Hfull, Hws|]. split; [lia|]. unfold within. lia.
    - intros c3 [Hn' Hb']. rewrite Ha2 in Hn', Hb'. simpl in *. unfold err_post. lia. }
  apply wp_bind, wp_more. destruct (Nat.ltb_spec (p c2) len); [|by apply wp_bind, wp_ret].
  apply wp_bind, wp_bind, wp_cur; [done|]. intros ch Hch. apply wp_ret.
  destruct (Z.eqb_spec ch close) as [->|]; [|exact Hgo].
  apply wp_bind, wp_adv, wp_bind, wp_getd, wp_bind, wp_putd, wp_ret.
  exists (open :: w ++ [close]). split; [|split; [done|]].
  - eapply eats_cons; [exact He1|]. eapply eats_app; [exact He2|by apply eats_one].
  - split; [by apply Hempty|]. simpl in *. split; [lia|]. unfold within. simpl. rewrite Ha2.
    simpl. lia.
Qed.

Lemma jws_app w w' : jws w -> jws w' -> jws (w ++ w').
Proof. apply Forall_app_2. Qed.

Lemma jelems_ws n es body w : jws w -> jelems n es body -> jelems n es (w ++ body).
Proof.
  intros Hw H. inversion H; subst; rewrite app_assoc; constructor; auto using jws_app.
Qed.

Lemma jmembers_ws n ms body w : jws w -> jmembers n ms body -> jmembers n ms (w ++ body).
Proof.
  intros Hw H. inversion H; subst; rewrite app_assoc; constructor; auto using jws_app.
Qed.

Lemma array_step f : array_loop_ok f -> array_ok (S f).
Proof.
  intros IH c n Hd H91 Hf. cbn [ngx_autocert_json_array].
  apply (bracket_step (array_loop data oom f []) JArray 91 93 jelems);
    auto using jelems_ws; [by constructor..|].
  intros c1 m [Hp1 Hd1] Hlt. apply IH; [by split|]. pose proof (lookup_lt_Some _ _ _ H91). lia.
Qed.

Lemma object_step f : object_loop_ok f -> object_ok (S f).
Proof.
  intros IH c n Hd H123 Hf. cbn [ngx_autocert_json_object].
  apply (bracket_step (object_loop data oom f []) JObject 123 125 jmembers);
    auto using jmembers_ws; [by constructor..|].
  intros c1 m [Hp1 Hd1] Hlt. apply IH; [by split|]. pose proof (lookup_lt_Some _ _ _ H123). lia.
Qed.

Lemma literal_jval text v n : (text, v) ∈ literals -> text <> [] /\ jval n v text.
Proof.
  intros H. unfold literals in H. repeat (apply elem_of_cons in H as [H|H]; [simplify_eq|]).
  - split; [done|constructor].
  - split; [done|constructor].
  - split; [done|constructor].
  - by apply not_elem_of_nil in H.
Qed.

Lemma value_step f : object_ok f -> array_ok f -> value_ok (S f).
Proof.
  intros IHo IHa c n Hd Hf. pose proof Hd as [Hp Hdep]. cbn [ngx_autocert_json_value].
  apply wp_bind, wp_more. destruct (Nat.ltb_spec (p c) len); cbn [negb]; [|err].
  apply wp_bind, wp_cur; [done|]. intros ch Hch.
  destruct (Z.eqb_spec ch 123) as [->|]; [apply IHo; auto with lia|].
  destruct (Z.eqb_spec ch 91) as [->|]; [apply IHa; auto with lia|].
  destruct (Z.eqb_spec ch 34) as [->|].
  { apply wp_bind, wp_alloc. intros ok. destruct (negb ok); [err|].
    apply wp_bind, wp_string_raw; [done| |].
    - intros c' Hc' Hn Hb. simpl in *. unfold err_post, sizeof_value in *. lia.
    - intros raw d c' He Hd' Hn Hb Hr. apply wp_ret. simpl in Hd', Hn, Hb.
      apply eats_from with (c1' := c) in He; [|done].
      exists (34 :: raw ++ [34]). split; [done|]. split; [done|].
      split; [by constructor|]. split; [done|]. pose proof (eats_pos _ _ _ He) as [Hpc _].
      simpl in Hpc. rewrite length_app in Hpc. simpl in Hpc.
      unfold within, sizeof_value in *. lia. }
  destruct ((ch =? 45) || is_digit ch)%bool.
  { apply wp_number; [done|intros c' ? ?; unfold err_post; lia|].
    intros raw c' He Hne Hj Hd' Hn Hb. exists raw. split; [done|]. split; [done|].
    split; [by constructor|]. split; [done|]. pose proof (eats_pos _ _ _ He).
    assert (0 < length raw)%nat by (destruct raw; [done|simpl; lia]). unfold within. lia. }
  destruct ((ch =? 116) || (ch =? 102) || (ch =? 110))%bool; [|err].
  apply wp_literal; [done|intros c' ? ?; unfold err_post; lia|].
  intros text v c' He Hin Hd' Hn Hb. apply (literal_jval _ _ n) in Hin as [Hne Hv].
  exists text. split; [done|]. split; [done|]. split; [done|]. split; [done|].
  pose proof (eats_pos _ _ _ He).
  assert (0 < length text)%nat by (destruct text; [done|simpl; lia]). unfold within. lia.
Qed.

Lemma parser_ok f : value_ok f /\ array_ok f /\ object_ok f /\ array_loop_ok f /\ object_loop_ok f.
Proof.
  induction f as [|f (IHv & IHa & IHo & IHal & IHol)].
  - unfold value_ok, array_ok, object_ok, array_loop_ok, object_loop_ok.
    repeat split; intros; lia.
  - split; [by apply value_step|]. split; [by apply array_step|]. split; [by apply object_step|].
    split; [by apply array_loop_step|by apply object_loop_step].
Qed.

(** The whole run: a document of the grammar, or an error, within the budget. *)
Definition budget (c : ctx) : Prop :=
  (na c <= 2 * len + 8)%nat /\ (nb c <= 64 * len + 4096)%nat.

Lemma wp_parse :
  wp (ngx_autocert_json_parse_at data oom) ctx0
     (fun v c => jdoc v data /\ budget c) budget.
Proof.
  unfold ngx_autocert_json_parse_at, budget. apply wp_bind, wp_more.
  destruct (_ <? _)%nat; cbn [negb]; [|apply wp_fail; simpl; lia].
  apply wp_bind, wp_skip_ws; [simpl; lia|]. intros w1 c1 He1 [Hd1 Ha1] Hw1 _.
  pose proof (eats_pos _ _ _ He1). apply wp_bind. eapply wp_mono.
  { apply (proj1 (parser_ok _) c1 (Z.to_nat NGX_AUTOCERT_JSON_MAX_DEPTH)).
    - split; [lia|]. rewrite Hd1. done.
    - unfold json_fuel. lia. }
  2: { intros c' [Hn Hb]. rewrite Ha1 in Hn, Hb. simpl in *. lia. }
  intros v c2 (b & He2 & _ & Hv & _ & [Hn Hb]). rewrite Ha1 in Hn, Hb. simpl in Hn, Hb.
  pose proof (eats_pos _ _ _ He2). apply wp_bind, wp_skip_ws; [lia|].
  intros w2 c3 He3 [_ Ha3] Hw2 _. apply wp_bind, wp_getp.
  destruct (Nat.eqb_spec (p c3) len) as [Hend|]; cbn [negb]; rewrite <- Ha3 in Hn, Hb.
  - apply wp_ret. split; [|lia]. exists w1, b, w2.
    pose proof (eats_app _ _ _ _ _ He1 (eats_app _ _ _ _ _ He2 He3)) as (He & _).
    rewrite Hend, drop_all, app_nil_r in He. auto.
  - apply wp_fail. lia.
Qed.
End Sound.
