(* ===== verification/JsonComplete.v ===== *)
(** * The JSON reader: completeness

    Every document of the grammar nested at most 32 deep is accepted, with the
    value the grammar gives it, when the pool does not run out. *)

From S2P Require Import Prelude NgxCore Json JsonSpec JsonSound.

Local Open Scope Z_scope.
Local Open Scope prog_scope.

Section Complete.
Context (data : bytes).

(** A pool that never runs out. *)
Definition plenty (_ : nat) : bool := false.

(** What is left of the input. *)
Definition rem (c : ctx) : bytes := drop (p c) data.

Abbreviation move c k := (set_p c (p c + k)%nat).

Lemma rem_move c b r : rem c = b ++ r -> rem (move c (length b)) = r.
Proof. unfold rem. simpl. intros H. by rewrite <- drop_drop, H, drop_app_length. Qed.

Lemma rem_S c x r : rem c = x :: r -> rem (set_p c (S (p c))) = r.
Proof. unfold rem. intros H. apply drop_cons_lookup in H. by destruct H. Qed.

Lemma rem_len c : length (rem c) = (length data - p c)%nat.
Proof. apply length_drop. Qed.

(** *** Runs of the primitives *)

Section Runs.
Context {B : Type}.

Lemma run_more (k : bool -> prog ctx B) c x r :
  rem c = x :: r -> bind (more data) k c = k true c.
Proof.
  intros H. unfold bind, more. apply (f_equal length) in H. rewrite rem_len in H. simpl in H.
  destruct (Nat.ltb_spec (p c) (length data)); [done|lia].
Qed.

Lemma run_more_nil (k : bool -> prog ctx B) c : rem c = [] -> bind (more data) k c = k false c.
Proof.
  intros H. unfold bind, more. apply (f_equal length) in H. rewrite rem_len in H. simpl in H.
  destruct (Nat.ltb_spec (p c) (length data)); [lia|done].
Qed.

Lemma run_cur (k : Z -> prog ctx B) c x r : rem c = x :: r -> bind (cur data) k c = k x c.
Proof.
  intros H. unfold bind, cur. apply drop_cons_lookup in H as [H _]. by rewrite H.
Qed.

Lemma run_adv (k : unit -> prog ctx B) c : bind adv k c = k tt (set_p c (S (p c))).
Proof. done. Qed.

Lemma run_bind {A} (m : prog ctx A) (k : A -> prog ctx B) c a c' :
  m c = Ret a c' -> bind m k c = k a c'.
Proof. unfold bind. by intros ->. Qed.
End Runs.

(** Maximal runs of a character class are unique. *)
Lemma span_unique (test : Z -> bool) w w' r r' :
  w ++ r = w' ++ r' -> forallb test w = true -> forallb test w' = true ->
  (forall x t, r = x :: t -> test x = false) -> (forall x t, r' = x :: t -> test x = false) ->
  w = w'.
Proof.
  revert w'. induction w as [|x w IH]; intros [|x' w'] He Hw Hw' Hr Hr'; simpl in *; [done| | |].
  - exfalso. apply andb_true_iff in Hw' as [Hx _]. rewrite (Hr _ _ He) in Hx. done.
  - exfalso. apply andb_true_iff in Hw as [Hx _]. rewrite (Hr' x (w ++ r) (eq_sym He)) in Hx. done.
  - injection He as <- He. apply andb_true_iff in Hw as [_ Hw], Hw' as [_ Hw'].
    f_equal. by apply IH.
Qed.

Lemma run_skip_while test fuel n c w r :
  rem c = w ++ r -> forallb test w = true -> (forall x t, r = x :: t -> test x = false) ->
  (p c <= length data)%nat -> (length (rem c) < fuel)%nat ->
  skip_while data fuel test n c = Ret (n + length w)%nat (move c (length w)).
Proof.
  intros Hrem Hw Hr Hp Hf. apply wp_run. apply wp_skip_while; [done|by rewrite <- rem_len|].
  intros w' c' He [Hd Ha] Hw' Hm. pose proof He as (Hdrop & Hpc & _).
  fold (rem c) in Hdrop. rewrite Hrem in Hdrop.
  assert (w = w') as <-.
  { eapply (span_unique test); [exact Hdrop|done|done|done|]. intros x t Hx. apply Hm.
    apply drop_cons_lookup in Hx. tauto. }
  split; [done|]. destruct c' as [p' d' l']. simpl in *. by subst.
Qed.

Definition nonws (r : bytes) : Prop := forall x t, r = x :: t -> is_ws x = false.

Lemma run_skip_ws c w r :
  rem c = w ++ r -> jws w -> nonws r -> (p c <= length data)%nat ->
  ngx_autocert_json_skip_ws data c = Ret tt (move c (length w)).
Proof.
  intros Hrem Hw Hr Hp. unfold ngx_autocert_json_skip_ws.
  erewrite run_bind by done. erewrite run_bind; [done|]. apply (run_skip_while _ _ _ _ w r).
  - done.
  - apply forallb_forall. intros x Hx. unfold jws in Hw. rewrite Forall_forall in Hw. apply Hw.
    by apply list_elem_of_In.
  - done.
  - done.
  - rewrite rem_len. lia.
Qed.

(** *** Strings *)

Lemma run_hex4_step i v c x r d :
  rem c = x :: r -> hexval x = Some d -> 0 <= v < 2 ^ 28 ->
  hex4_loop data (S i) v c = hex4_loop data i (v * 16 + d) (set_p c (S (p c))).
Proof.
  intros Hr Hd Hv. pose proof (hexval_range _ _ Hd). rewrite <- (hex_shift v d) by done.
  cbn [hex4_loop]. rewrite (run_cur _ c x r Hr), run_adv. unfold hexval in Hd.
  repeat case_match; simplify_eq; try done.
  - by replace (x - 97 + 10) with (x - 87) by lia.
  - by replace (x - 65 + 10) with (x - 55) by lia.
Qed.

Lemma run_hex4 c h v r :
  hex4 h v -> rem c = h ++ r -> ngx_autocert_json_hex4 data c = Ret v (move c 4).
Proof.
  intros (a & b & x & y & va & vb & vx & vy & -> & Ha & Hb & Hx & Hy & ->) Hr.
  unfold ngx_autocert_json_hex4. erewrite run_bind by done.
  rewrite <- rem_len, Hr. cbn [length app Nat.ltb Nat.leb].
  pose proof (hexval_range _ _ Ha). pose proof (hexval_range _ _ Hb).
  pose proof (hexval_range _ _ Hx). pose proof (hexval_range _ _ Hy).
  simpl in Hr. pose proof (rem_S _ _ _ Hr) as R1. pose proof (rem_S _ _ _ R1) as R2.
  pose proof (rem_S _ _ _ R2) as R3.
  erewrite run_hex4_step by (try done; lia). erewrite run_hex4_step by (try done; lia).
  erewrite run_hex4_step by (try done; lia). erewrite run_hex4_step by (try done; lia).
  cbn [hex4_loop]. unfold ret, set_p. simpl. f_equal. f_equal. lia.
Qed.

Lemma drop_app_inv i (a b : bytes) : drop i data = a ++ b -> drop (i + length a) data = b.
Proof. intros H. by rewrite <- drop_drop, H, drop_app_length. Qed.

Lemma closes_hex i q h v r :
  hex4 h v -> drop i data = h ++ r -> closes data (i + 4) q -> closes data i q.
Proof.
  intros (a & b & x & y & va & vb & vx & vy & -> & Ha & Hb & Hx & Hy & _) Hd Hq. simpl in Hd.
  apply hexval_plain in Ha as [], Hb as [], Hx as [], Hy as [].
  apply drop_cons_lookup in Hd as [L1 Hd]. apply drop_cons_lookup in Hd as [L2 Hd].
  apply drop_cons_lookup in Hd as [L3 Hd]. apply drop_cons_lookup in Hd as [L4 Hd].
  eapply closes_plain; [exact L1|done|done|]. eapply closes_plain; [exact L2|done|done|].
  eapply closes_plain; [exact L3|done|done|]. eapply closes_plain; [exact L4|done|done|].
  by replace (S (S (S (S i)))) with (i + 4)%nat by lia.
Qed.

Lemma jchars_closes raw d i r :
  jchars raw d -> drop i data = raw ++ 34 :: r -> closes data i (i + length raw).
Proof.
  intros Hj. revert i. induction Hj as [|ch raw d H1 H2 H3 Hj IH|e x raw d He Hj IH
    |h cp raw d Hh Hs Hj IH|h hi h' lo raw d Hh Hh' Hhi Hlo Hj IH]; intros i Hd.
  - simpl in *. rewrite Nat.add_0_r. apply drop_cons_lookup in Hd as [Hd _]. by constructor.
  - simpl in *. apply drop_cons_lookup in Hd as [L Hd]. eapply closes_plain; [exact L|done|done|].
    rewrite Nat.add_succ_r. by apply (IH (S i)).
  - simpl in *. apply drop_cons_lookup in Hd as [L Hd]. apply drop_cons_lookup in Hd as [L' Hd].
    apply closes_escape; [done|]. rewrite !Nat.add_succ_r. by apply (IH (S (S i))).
  - simpl in *. rewrite <- app_assoc in Hd.
    apply drop_cons_lookup in Hd as [L Hd]. apply drop_cons_lookup in Hd as [L' Hd].
    apply closes_escape; [done|]. eapply closes_hex; [exact Hh|exact Hd|].
    pose proof (drop_app_inv _ _ _ Hd) as Hd'. rewrite (hex4_length _ _ Hh) in Hd'.
    apply IH in Hd'. rewrite length_app, (hex4_length _ _ Hh).
    by replace (i + S (S (4 + length raw)))%nat with (S (S i) + 4 + length raw)%nat by lia.
  - simpl in *. rewrite <- app_assoc in Hd. simpl in Hd. rewrite <- app_assoc in Hd.
    apply drop_cons_lookup in Hd as [L Hd]. apply drop_cons_lookup in Hd as [L' Hd].
    apply closes_escape; [done|]. eapply closes_hex; [exact Hh|exact Hd|].
    apply drop_app_inv in Hd. rewrite (hex4_length _ _ Hh) in Hd.
    apply drop_cons_lookup in Hd as [L2 Hd]. apply drop_cons_lookup in Hd as [L3 Hd].
    apply closes_escape; [done|]. eapply closes_hex; [exact Hh'|exact Hd|].
    apply drop_app_inv in Hd. rewrite (hex4_length _ _ Hh') in Hd. apply IH in Hd.
    rewrite length_app. simpl. rewrite length_app, (hex4_length _ _ Hh), (hex4_length _ _ Hh').
    replace (i + S (S (4 + S (S (4 + length raw)))))%nat
      with (S (S (S (S i) + 4)) + 4 + length raw)%nat by lia. done.
Qed.

Lemma run_scan f i q c :
  closes data i q -> (length data - i < f)%nat -> scan_loop data f i c = Ret q c.
Proof.
  intros Hq. revert f. induction Hq as [i L|i q ch L H1 H2 Hq IH|i q L Hq IH];
    intros [|f] Hf; try lia; simpl; pose proof (lookup_lt_Some _ _ _ L).
  - destruct (Nat.leb_spec (length data) i); [lia|]. by rewrite L.
  - destruct (Nat.leb_spec (length data) i); [lia|]. rewrite L.
    destruct (Z.eqb_spec ch 34); [done|]. destruct (Z.eqb_spec ch 92); [done|].
    apply IH. lia.
  - destruct (Nat.leb_spec (length data) i); [lia|]. rewrite L. simpl.
    pose proof (closes_bounds _ _ Hq).
    destruct (Nat.leb_spec (length data) (S i)); [lia|]. apply IH. lia.
Qed.

Lemma run_unicode_bmp c h cp r :
  hex4 h cp -> ~ is_surrogate cp -> rem c = h ++ r ->
  unicode_escape data c = Ret cp (move c 4).
Proof.
  intros Hh Hs Hr. unfold unicode_escape. unfold is_surrogate in Hs.
  erewrite run_bind; [|eapply (run_hex4 _ h); eassumption].
  destruct (_ && _) eqn:E1; reflect_bools; [lia|].
  destruct (_ && _) eqn:E2; reflect_bools; [lia|]. done.
Qed.

Lemma run_unicode_pair c h hi h' lo r :
  hex4 h hi -> hex4 h' lo -> 0xd800 <= hi <= 0xdbff -> 0xdc00 <= lo <= 0xdfff ->
  rem c = h ++ 92 :: 117 :: h' ++ r ->
  unicode_escape data c = Ret (0x10000 + (hi - 0xd800) * 1024 + (lo - 0xdc00)) (move c 10).
Proof.
  intros Hh Hh' Hhi Hlo Hr. unfold unicode_escape.
  erewrite run_bind; [|eapply (run_hex4 _ h); eassumption].
  pose proof (rem_move _ _ _ Hr) as R1. rewrite (hex4_length _ _ Hh) in R1.
  destruct (_ && _) eqn:E1; reflect_bools; [|lia].
  erewrite run_bind by done. rewrite <- rem_len, R1. cbn [length Nat.ltb Nat.leb].
  pose proof R1 as Hd. apply drop_cons_lookup in Hd as [L1 Hd].
  apply drop_cons_lookup in Hd as [L2 Hd].
  erewrite run_bind; [|unfold at_; rewrite Nat.add_0_r, L1; done]. rewrite Z.eqb_refl; cbn [negb].
  erewrite run_bind; [|unfold at_; rewrite Nat.add_1_r, L2; done]. rewrite Z.eqb_refl; cbn [negb].
  rewrite !run_adv. erewrite run_bind; [|eapply run_hex4; [exact Hh'|exact Hd]].
  destruct (_ || _) eqn:E2; reflect_bools; [lia|].
  rewrite Z.shiftl_mul_pow2, lor_add_low by lia. unfold u32. rewrite Z.mod_small by lia.
  unfold ret, set_p. simpl. f_equal; [lia|]. f_equal. lia.
Qed.

Lemma run_put {B} span dst ch (k : bytes -> prog ctx B) c :
  (length dst + length ch <= span)%nat -> bind (put span dst ch) k c = k (dst ++ ch) c.
Proof. intros H. unfold put. destruct (Nat.leb_spec (length dst + length ch) span); [done|lia]. Qed.

(** One step of the decode loop on each kind of character. *)
Lemma run_decode_plain f span dst c ch r :
  rem c = ch :: r -> 32 <= ch -> ch <> 34 -> ch <> 92 -> (length dst < span)%nat ->
  decode_loop data (S f) span dst c = decode_loop data f span (dst ++ [ch]) (set_p c (S (p c))).
Proof.
  intros Hr H1 H2 H3 Hs. cbn [decode_loop].
  rewrite (run_more _ c ch r Hr), (run_cur _ c ch r Hr), run_adv.
  destruct (Z.eqb_spec ch 34); [done|]. destruct (Z.ltb_spec ch 32); [lia|].
  destruct (Z.eqb_spec ch 92); [done|]. cbn [negb]. by rewrite run_put by (simpl; lia).
Qed.

Lemma run_decode_escape f span dst c e r :
  rem c = 92 :: e :: r ->
  decode_loop data (S f) span dst c =
    (if e =? 117 then
       let! cp := unicode_escape data in
       let! dst := put span dst (ngx_autocert_json_utf8 cp) in
       decode_loop data f span dst
     else
       match simple_escape e with
       | Some x => let! dst := put span dst [x] in decode_loop data f span dst
       | None => fail
       end) (set_p c (S (S (p c)))).
Proof.
  intros Hr. cbn [decode_loop]. pose proof (rem_S _ _ _ Hr) as Hr'.
  rewrite (run_more _ c 92 _ Hr), (run_cur _ c 92 _ Hr), run_adv.
  change (92 =? 34) with false. change (92 <? 32) with false.
  change (negb (92 =? 92)) with false. cbv iota.
  rewrite (run_more _ _ e _ Hr'). cbn [negb]. by rewrite (run_cur _ _ e _ Hr'), run_adv.
Qed.

Lemma run_decode raw d :
  jchars raw d -> forall f span dst c r,
    rem c = raw ++ 34 :: r -> (length raw < f)%nat -> (length dst + length raw <= span)%nat ->
    decode_loop data f span dst c = Ret (dst ++ d) (move c (length raw + 1)).
Proof.
  intros Hj. induction Hj as [|ch raw d H1 H2 H3 Hj IH|e x raw d He Hj IH
    |h cp raw d Hh Hs Hj IH|h hi h' lo raw d Hh Hh' Hhi Hlo Hj IH];
    intros [|f] span dst c r Hr Hf Hsp; try (simpl in Hf; lia).
  - simpl in Hr. cbn [decode_loop]. rewrite (run_more _ c 34 r Hr), (run_cur _ c 34 r Hr), run_adv.
    cbv iota. rewrite app_nil_r. simpl. unfold ret, set_p. do 2 f_equal. lia.
  - cbn [length app] in *. rewrite (run_decode_plain _ _ _ _ _ _ Hr) by (try done; lia).
    erewrite IH; [|by eapply rem_S|lia|rewrite length_app; simpl; lia].
    rewrite <- app_assoc. unfold set_p. simpl. do 2 f_equal. lia.
  - cbn [length app] in *. rewrite (run_decode_escape _ _ _ _ _ _ Hr).
    destruct (Z.eqb_spec e 117) as [->|]; [by vm_compute in He|]. rewrite He.
    rewrite run_put by (simpl; lia).
    pose proof (rem_S _ _ _ (rem_S _ _ _ Hr)) as Hr2.
    erewrite IH; [|exact Hr2|lia|rewrite length_app; simpl; lia].
    rewrite <- app_assoc. unfold set_p. simpl. do 2 f_equal. lia.
  - cbn [length app] in *. rewrite <- app_assoc in Hr. rewrite (run_decode_escape _ _ _ _ _ _ Hr).
    apply rem_S, rem_S in Hr. rewrite Z.eqb_refl.
    rewrite length_app, (hex4_length _ _ Hh) in *. pose proof (hex4_range _ _ Hh).
    erewrite run_bind; [|by eapply (run_unicode_bmp _ h)].
    rewrite utf8_correct by lia. pose proof (utf8_length cp). rewrite run_put by lia.
    apply rem_move in Hr. rewrite (hex4_length _ _ Hh) in Hr.
    erewrite IH; [|exact Hr|lia|rewrite length_app; lia].
    rewrite <- app_assoc. unfold set_p. simpl. do 2 f_equal. lia.
  - cbn [length app] in *. rewrite <- app_assoc in Hr. simpl in Hr. rewrite <- app_assoc in Hr.
    rewrite (run_decode_escape _ _ _ _ _ _ Hr).
    apply rem_S, rem_S in Hr. rewrite Z.eqb_refl.
    rewrite length_app in *. cbn [length app] in *. rewrite length_app in *.
    rewrite (hex4_length _ _ Hh), (hex4_length _ _ Hh') in *.
    erewrite run_bind; [|by eapply (run_unicode_pair _ h hi h' lo)].
    rewrite utf8_correct by lia.
    pose proof (utf8_length (0x10000 + (hi - 0xd800) * 1024 + (lo - 0xdc00))).
    rewrite run_put by lia.
    apply rem_move in Hr. rewrite (hex4_length _ _ Hh) in Hr. apply rem_S, rem_S, rem_move in Hr.
    rewrite (hex4_length _ _ Hh') in Hr.
    erewrite IH; [| |lia|rewrite length_app; lia].
    + rewrite <- app_assoc. unfold set_p. simpl. do 2 f_equal. lia.
    + rewrite <- Hr. f_equal. unfold set_p. simpl. f_equal. lia.
Qed.

(** *** A run that ends in [v] after [b], with some pool. *)
Definition yields {A} (m : prog ctx A) (c : ctx) (v : A) (k : nat) : Prop :=
  exists l, m c = Ret v (Ctx (p c + k) (depth c) l).

Lemma run_string_raw c raw d r :
  jchars raw d -> rem c = 34 :: raw ++ 34 :: r ->
  yields (ngx_autocert_json_string_raw data plenty) c d (length raw + 2).
Proof.
  intros Hj Hr. pose proof (rem_S _ _ _ Hr) as Hr'. unfold ngx_autocert_json_string_raw.
  pose proof (rem_len c) as Hl. rewrite Hr in Hl. simpl in Hl. rewrite length_app in Hl. simpl in Hl.
  unfold yields. rewrite run_adv. erewrite run_bind by done. erewrite run_bind by done.
  erewrite run_bind.
  2: { apply (run_scan _ _ (S (p c) + length raw)); [|simpl; lia].
       eapply jchars_closes; [exact Hj|exact Hr']. }
  erewrite run_bind by done. cbn [plenty negb andb].
  erewrite (run_decode _ _ Hj); [|exact Hr'|simpl; lia|simpl; lia].
  eexists. unfold set_p. simpl. do 2 f_equal. lia.
Qed.

(** *** Numbers and literals *)

(** A byte that cannot continue a number. *)
Definition numend (r : bytes) : Prop :=
  forall x t, r = x :: t -> is_digit x = false /\ x <> 46 /\ x <> 101 /\ x <> 69.

Definition nodigit (r : bytes) : Prop := forall x t, r = x :: t -> is_digit x = false.

Lemma move_0 c : move c 0 = c.
Proof. destruct c. unfold set_p. simpl. f_equal. lia. Qed.

Lemma run_digits f ds r c :
  rem c = ds ++ r -> ds <> [] -> digits ds -> nodigit r -> (p c <= length data)%nat ->
  (length data - p c < f)%nat -> number_digits data f c = Ret tt (move c (length ds)).
Proof.
  intros Hr Hne Hd Hn Hp Hf. unfold number_digits.
  erewrite run_bind; [|apply (run_skip_while _ _ _ _ ds r); [done|done|exact Hn|done|by rewrite rem_len]].
  destruct ds as [|x ds]; [done|]. done.
Qed.

Lemma run_sign s c x r :
  jsign s -> rem c = s ++ x :: r -> x <> 45 -> number_sign data c = Ret tt (move c (length s)).
Proof.
  intros [-> | ->] Hr Hx; unfold number_sign; simpl in Hr.
  - rewrite (run_more _ c x r Hr), (run_cur _ c x r Hr).
    destruct (Z.eqb_spec x 45); [done|]. by rewrite move_0.
  - rewrite (run_more _ c 45 _ Hr), (run_cur _ c 45 _ Hr). simpl length.
    by rewrite Nat.add_1_r.
Qed.

Lemma run_int f i c r :
  jint i -> rem c = i ++ r -> nodigit r -> (p c <= length data)%nat ->
  (length data - p c < f)%nat -> number_int data f c = Ret tt (move c (length i)).
Proof.
  intros Hi Hr Hn Hp Hf. unfold number_int. destruct Hi as [->|(d & ds & -> & Hd & Hds)].
  - rewrite (run_more _ c 48 r Hr). cbn [negb]. rewrite (run_cur _ c 48 r Hr). simpl length.
    by rewrite Nat.add_1_r.
  - cbn [app] in Hr. rewrite (run_more _ c d _ Hr). cbn [negb]. rewrite (run_cur _ c d _ Hr).
    destruct (Z.eqb_spec d 48); [lia|].
    destruct (_ && _) eqn:E; [|reflect_bools; lia].
    erewrite run_bind; [done|]. apply (run_skip_while _ _ _ _ (d :: ds) r);
      [done| |exact Hn|done|by rewrite rem_len].
    simpl. apply andb_true_iff. split; [apply is_digit_iff; lia|done].
Qed.

Lemma run_frac f fr c r :
  jfrac fr -> rem c = fr ++ r -> nodigit r -> (forall t, r <> 46 :: t) ->
  (p c <= length data)%nat -> (length data - p c < f)%nat ->
  number_frac data f c = Ret tt (move c (length fr)).
Proof.
  intros Hfr Hr Hn H46 Hp Hf. unfold number_frac. destruct Hfr as [->|(ds & -> & Hne & Hds)].
  - simpl in *. rewrite move_0. destruct r as [|x r].
    + by rewrite (run_more_nil _ c Hr).
    + rewrite (run_more _ c x r Hr), (run_cur _ c x r Hr).
      destruct (Z.eqb_spec x 46) as [->|]; [by destruct (H46 r)|done].
  - cbn [app] in Hr. rewrite (run_more _ c 46 _ Hr), (run_cur _ c 46 _ Hr).
    change (46 =? 46) with true. cbv iota. rewrite run_adv.
    pose proof (rem_len c) as Hl. rewrite Hr in Hl. simpl in Hl.
    erewrite (run_digits f ds r); [|by eapply rem_S|done|done|done|simpl; lia|simpl; lia].
    unfold set_p. simpl. do 2 f_equal. lia.
Qed.

Lemma run_exp f e c r :
  jexp e -> rem c = e ++ r -> numend r -> (p c <= length data)%nat ->
  (length data - p c < f)%nat -> number_exp data f c = Ret tt (move c (length e)).
Proof.
  intros He Hr Hn Hp Hf. unfold number_exp. destruct He as [->|(x & s & ds & -> & Hx & Hs & Hne & Hds)].
  - simpl in *. rewrite move_0. destruct r as [|x r].
    + by rewrite (run_more_nil _ c Hr).
    + rewrite (run_more _ c x r Hr), (run_cur _ c x r Hr). destruct (Hn x r) as (_ & _ & ? & ?); [done|].
      destruct (_ || _) eqn:E; [|done]. reflect_bools. lia.
  - cbn [app] in Hr. rewrite (run_more _ c x _ Hr), (run_cur _ c x _ Hr).
    replace ((x =? 101) || (x =? 69))%bool with true by (symmetry; apply orb_true_iff; lia).
    rewrite run_adv. pose proof (rem_S _ _ _ Hr) as Hr'. rewrite <- app_assoc in Hr'.
    pose proof (rem_len c) as Hl. rewrite Hr in Hl. simpl in Hl. rewrite !length_app in Hl.
    assert (Hsgn : number_exp_sign data (set_p c (S (p c)))
                   = Ret tt (move (set_p c (S (p c))) (length s))).
    { unfold number_exp_sign. destruct ds as [|y ds]; [done|].
      assert (Hy : 48 <= y <= 57).
      { apply is_digit_iff. unfold digits in Hds. simpl in Hds. by apply andb_true_iff in Hds as []. }
      destruct Hs as [-> | [-> | ->]]; simpl in Hr'.
      - rewrite (run_more _ _ y _ Hr'), (run_cur _ _ y _ Hr').
        destruct (_ || _) eqn:E; [reflect_bools; lia|]. by rewrite move_0.
      - rewrite (run_more _ _ 43 _ Hr'), (run_cur _ _ 43 _ Hr'). simpl length.
        by rewrite Nat.add_1_r.
      - rewrite (run_more _ _ 45 _ Hr'), (run_cur _ _ 45 _ Hr'). simpl length.
        by rewrite Nat.add_1_r. }
    rewrite (run_bind _ _ _ _ _ Hsgn). apply rem_move in Hr'.
    erewrite (run_digits f ds r); [|exact Hr'|done|done| |simpl; lia|simpl; lia].
    + unfold set_p. simpl. rewrite length_app. do 2 f_equal. lia.
    + intros y t Hy. by apply (Hn y t).
Qed.

Lemma jfrac_head f r : jfrac f -> nodigit r -> nodigit (f ++ r).
Proof. intros [->|(ds & -> & _)] Hn; [done|]. by intros x t [= <- <-]. Qed.

Lemma jexp_head e r : jexp e -> numend r -> nodigit (e ++ r) /\ forall t, e ++ r <> 46 :: t.
Proof.
  intros [->|(x & s & ds & -> & Hx & _)] Hn; simpl.
  - split; [intros y t Hy; by apply (Hn y t)|]. intros t Ht. by apply Hn in Ht as (_ & ? & _).
  - split.
    + intros y t [= <- <-]. destruct Hx as [->| ->]; done.
    + intros t [= -> _]. lia.
Qed.

Lemma run_number c raw r :
  jnum raw -> rem c = raw ++ r -> numend r -> (p c <= length data)%nat ->
  yields (ngx_autocert_json_number data plenty) c (JNumber raw) (length raw).
Proof.
  intros (s & i & f & e & -> & Hs & Hi & Hf & He) Hr Hn Hp.
  unfold yields, ngx_autocert_json_number. erewrite run_bind by done. erewrite run_bind by done.
  pose proof Hr as Hr0. repeat rewrite <- app_assoc in Hr.
  pose proof (jexp_head _ _ He Hn) as [He1 He2]. pose proof (jfrac_head _ _ Hf He1) as Hf1.
  assert (Hi1 : exists x t, i ++ f ++ e ++ r = x :: t /\ x <> 45).
  { destruct Hi as [->|(d & ds & -> & ? & _)]; simpl; eexists _, _; (split; [done|lia]). }
  destruct Hi1 as (x & t & Hx & Hx45).
  pose proof (rem_len c) as Hl. rewrite Hr, !length_app in Hl.
  assert (Hsgn : number_sign data c = Ret tt (move c (length s))).
  { eapply run_sign; [done| |exact Hx45]. rewrite Hr. f_equal. exact Hx. }
  rewrite (run_bind _ _ _ _ _ Hsgn). pose proof (rem_move _ _ _ Hr) as R1.
  rewrite (run_bind _ _ _ _ _ (run_int (S (length data - p c)) i _ _ Hi R1 Hf1 ltac:(simpl; lia) ltac:(simpl; lia))).
  pose proof (rem_move _ _ _ R1) as R2.
  rewrite (run_bind _ _ _ _ _ (run_frac (S (length data - p c)) f _ _ Hf R2 He1 He2 ltac:(simpl; lia) ltac:(simpl; lia))).
  pose proof (rem_move _ _ _ R2) as R3.
  rewrite (run_bind _ _ _ _ _ (run_exp (S (length data - p c)) e _ _ He R3 Hn ltac:(simpl; lia) ltac:(simpl; lia))).
  erewrite run_bind by done. cbn [plenty negb]. erewrite run_bind by done.
  eexists. unfold ret. f_equal; simpl.
  - f_equal. fold (rem c). rewrite Hr0.
    replace (_ - _)%nat with (length (s ++ i ++ f ++ e)) by (rewrite !length_app; lia).
    apply take_app_length.
  - f_equal. rewrite !length_app. lia.
Qed.

(** A literal that starts with another byte is passed over; the right one is
    taken. *)
Lemma run_literal_other c x t y s w ls :
  rem c = x :: t -> x <> y ->
  literal_loop data plenty ((y :: s, w) :: ls) c = literal_loop data plenty ls c.
Proof.
  intros Hr Hne. cbn [literal_loop]. erewrite run_bind by done.
  destruct (_ <=? _)%nat; [|done]. fold (rem c). rewrite Hr. cbn [length ngx_strncmp].
  destruct (Z.eqb_spec x y); [done|]. by destruct (x <? y).
Qed.

Lemma run_literal_this c text v ls r :
  rem c = text ++ r -> Forall (fun x => x <> 0) text ->
  yields (literal_loop data plenty ((text, v) :: ls)) c v (length text).
Proof.
  intros Hr Hz. unfold yields. cbn [literal_loop]. erewrite run_bind by done.
  pose proof (rem_len c) as Hl. rewrite Hr, length_app in Hl.
  destruct (Nat.leb_spec (length text) (length data - p c)); [|lia].
  destruct (strncmp_prefix (rem c) text) as (x & Hx & Hx0).
  { rewrite Hr, length_app. lia. } { done. }
  fold (rem c). rewrite Hx. destruct Hx0 as [_ Hx0]. rewrite Hx0 by eauto.
  rewrite Z.eqb_refl. erewrite run_bind by done. erewrite run_bind by done. cbn [plenty negb].
  eexists. done.
Qed.

Lemma run_literal c text v r :
  (text, v) ∈ literals -> rem c = text ++ r ->
  yields (ngx_autocert_json_literal data plenty) c v (length text).
Proof.
  intros Hin Hr. unfold yields, ngx_autocert_json_literal.
  assert (HF : Forall (fun x => x <> 0) text).
  { unfold literals in Hin. repeat (apply elem_of_cons in Hin as [[= -> ->]|Hin]);
      [..|by apply not_elem_of_nil in Hin]; by repeat constructor. }
  let l := eval vm_compute in literals in change literals with l in *.
  repeat (apply elem_of_cons in Hin as [[= -> ->]|Hin]); [..|by apply not_elem_of_nil in Hin];
    cbn [app] in Hr.
  - by apply run_literal_this with r.
  - erewrite run_literal_other by (exact Hr || done). by apply run_literal_this with r.
  - do 2 erewrite run_literal_other by (exact Hr || done). by apply run_literal_this with r.
Qed.

(** *** Values *)

(** What may follow a value: white space, a separator, a closing bracket, or
    the end of the input. *)
Definition delim (r : bytes) : Prop :=
  forall x t, r = x :: t -> is_ws x = true \/ x = 44 \/ x = 93 \/ x = 125.

Lemma is_ws_iff x : is_ws x = true <-> x = 32 \/ x = 9 \/ x = 10 \/ x = 13.
Proof. unfold is_ws. rewrite !orb_true_iff, !Z.eqb_eq. lia. Qed.

Lemma is_ws_false x : is_ws x = false <-> x <> 32 /\ x <> 9 /\ x <> 10 /\ x <> 13.
Proof. rewrite <- not_true_iff_false, is_ws_iff. lia. Qed.

Lemma delim_numend r : delim r -> numend r.
Proof.
  intros Hd x t Hx. pose proof (Hd x t Hx) as H. rewrite is_ws_iff in H.
  split; [|lia]. apply not_true_iff_false. rewrite is_digit_iff. lia.
Qed.

Lemma delim_ws_app w r : jws w -> delim r -> delim (w ++ r).
Proof.
  intros Hw Hr. destruct w as [|y w]; [done|]. intros x t [= <- <-].
  apply Forall_cons in Hw as [? _]. by left.
Qed.

Lemma delim_cons x r : x = 44 \/ x = 93 \/ x = 125 -> delim (x :: r).
Proof. intros Hx y t [= <- <-]. tauto. Qed.

Lemma jnum_head raw : jnum raw -> exists x t, raw = x :: t /\ (x = 45 \/ 48 <= x <= 57).
Proof.
  intros (s & i & f & e & -> & [->| ->] & [->|(d & ds & -> & ? & _)] & _); simpl;
    eexists _, _; (split; [done|lia]).
Qed.

Lemma jval_head n v b :
  jval n v b -> exists x t, b = x :: t /\ is_ws x = false /\ x <> 93 /\ x <> 125.
Proof.
  destruct 1 as [| | |n raw H| | | | |]; try (eexists _, _; split; [done|]; done).
  apply jnum_head in H as (x & t & -> & Hx). eexists _, _. split; [done|].
  rewrite is_ws_false. lia.
Qed.

Lemma jelems_head n es body :
  jelems n es body -> exists w x t, body = w ++ x :: t /\ jws w /\ is_ws x = false /\ x <> 93.
Proof.
  destruct 1 as [n w1 v b w2 Hw Hv|n w1 v b w2 es body Hw Hv];
    destruct (jval_head _ _ _ Hv) as (x & t & -> & ? & ? & _); by eexists w1, x, _.
Qed.

Lemma jmembers_head n ms body :
  jmembers n ms body -> exists w t, body = w ++ 34 :: t /\ jws w.
Proof. destruct 1; by eexists w1, _. Qed.

(** Skipping white space twice is skipping it once, so a loop that starts by
    skipping does not see whether its caller already did. *)
Lemma run_skip_ws_twice {A} (k : unit -> prog ctx A) c w x t :
  rem c = w ++ x :: t -> jws w -> is_ws x = false -> (p c <= length data)%nat ->
  ngx_autocert_json_skip_ws data c = Ret tt (move c (length w))
  /\ bind (ngx_autocert_json_skip_ws data) k (move c (length w))
     = bind (ngx_autocert_json_skip_ws data) k c.
Proof.
  intros Hr Hw Hx Hp.
  assert (Hn : nonws (x :: t)) by (by intros y u [= <- <-]).
  pose proof (run_skip_ws _ _ _ Hr Hw Hn Hp) as E. split; [done|].
  pose proof (rem_move _ _ _ Hr) as R. rewrite (run_bind _ _ _ _ _ E).
  assert (Hp' : (p (move c (length w)) <= length data)%nat).
  { pose proof (rem_len c) as Hl. rewrite Hr, length_app in Hl. simpl in *. lia. }
  assert (Hnil : jws []) by constructor.
  pose proof (run_skip_ws _ [] _ R Hnil Hn Hp') as E'.
  rewrite move_0 in E'. by rewrite (run_bind _ _ _ _ _ E').
Qed.

Lemma rem_bound c x t : rem c = x :: t -> (p c < length data)%nat.
Proof. intros H. pose proof (rem_len c) as Hl. rewrite H in Hl. simpl in Hl. lia. Qed.

Lemma run_alloc {B} (k : bool -> prog ctx B) n c :
  exists l, bind (alloc plenty n) k c = k true (Ctx (p c) (depth c) l).
Proof. by eexists. Qed.

Definition value_ok (n : nat) (v : json) (b : bytes) : Prop :=
  forall f c r, rem c = b ++ r -> delim r -> depth c + Z.of_nat n <= 32 ->
    (3 * length b <= f)%nat -> yields (ngx_autocert_json_value data plenty f) c v (length b).

Definition elems_ok (n : nat) (es : list json) (body : bytes) : Prop :=
  forall f c r acc, rem c = body ++ 93 :: r -> depth c + Z.of_nat n <= 32 ->
    (3 * length body + 1 <= f)%nat ->
    exists l, array_loop data plenty f acc c
              = Ret (acc ++ es) (Ctx (p c + (length body + 1)) (depth c - 1) l).

Definition members_ok (n : nat) (ms : list (bytes * json)) (body : bytes) : Prop :=
  forall f c r acc, rem c = body ++ 125 :: r -> depth c + Z.of_nat n <= 32 ->
    (3 * length body + 1 <= f)%nat ->
    exists l, object_loop data plenty f acc c
              = Ret (acc ++ ms) (Ctx (p c + (length body + 1)) (depth c - 1) l).

(** A value, then white space, in front of a separator. *)
Lemma run_value_ws {B} n v b w x t f (k : json -> unit -> prog ctx B) c :
  value_ok n v b -> rem c = b ++ w ++ x :: t -> jws w -> x = 44 \/ x = 93 \/ x = 125 ->
  depth c + Z.of_nat n <= 32 -> (3 * length b <= f)%nat ->
  exists l, bind (ngx_autocert_json_value data plenty f)
              (fun v => bind (ngx_autocert_json_skip_ws data) (k v)) c
            = k v tt (Ctx (p c + (length b + length w)) (depth c) l)
            /\ rem (Ctx (p c + (length b + length w)) (depth c) l) = x :: t.
Proof.
  intros Hv Hr Hw Hx Hd Hf.
  destruct (Hv f c (w ++ x :: t)) as [l E]; [done|by apply delim_ws_app, delim_cons|done|done|].
  rewrite (run_bind _ _ _ _ _ E). exists l.
  pose proof (rem_move _ _ _ Hr) as R.
  assert (Hn : nonws (x :: t)).
  { intros y u [= <- <-]. apply is_ws_false. lia. }
  pose proof (rem_len c) as Hl. rewrite Hr, !length_app in Hl. simpl in Hl.
  change (rem (Ctx (p c + length b) (depth c) l) = w ++ x :: t) in R.
  rewrite (run_bind _ _ _ _ _ (run_skip_ws _ w _ R Hw Hn ltac:(simpl; lia))).
  apply rem_move in R. unfold set_p, rem in *. simpl in *.
  by rewrite Nat.add_assoc.
Qed.

Lemma run_elem n v b w1 w2 x t f acc c :
  value_ok n v b -> rem c = w1 ++ b ++ w2 ++ x :: t -> jws w1 -> jws w2 -> nonws (b ++ w2 ++ x :: t) ->
  x = 44 \/ x = 93 -> depth c + Z.of_nat n <= 32 -> (3 * length b <= f)%nat ->
  exists l, let c' := Ctx (p c + (length w1 + length b + length w2)) (depth c) l in
    rem c' = x :: t
    /\ array_loop data plenty (S f) acc c
      = if x =? 44 then array_loop data plenty f (acc ++ [v]) (set_p c' (S (p c')))
        else Ret (acc ++ [v]) (set_depth (set_p c' (S (p c'))) (depth c - 1)).
Proof.
  intros Hv Hr Hw1 Hw2 Hb Hx Hd Hf. cbn [array_loop].
  assert (Hp : (p c <= length data)%nat).
  { pose proof (rem_len c) as Hl. rewrite Hr, !length_app in Hl. simpl in Hl. lia. }
  rewrite (run_bind _ _ _ _ _ (run_skip_ws _ _ _ Hr Hw1 Hb Hp)).
  apply rem_move in Hr.
  edestruct (@run_alloc (list json)) as [l ->]. cbn [negb].
  set (c1 := Ctx _ _ l). change (rem c1 = b ++ w2 ++ x :: t) in Hr.
  edestruct (@run_value_ws (list json) n v b w2 x t f) as (l2 & E & R);
    [exact Hv|exact Hr|exact Hw2|tauto|exact Hd|exact Hf|]. rewrite E. clear E. unfold c1 in *. simpl in *. rewrite !Nat.add_assoc in *. exists l2.
  split; [done|]. rewrite (run_more _ _ x t R). cbn [negb].
  rewrite (run_cur _ _ x t R). destruct (Z.eqb_spec x 44); [done|].
  destruct (Z.eqb_spec x 93); [done|lia].
Qed.

(** A name, white space and the colon, and the white space after it. *)
Lemma run_name {B} raw d w2 w3 b t (k : bytes -> prog ctx B) c :
  jchars raw d -> jws w2 -> jws w3 -> nonws (b ++ t) ->
  rem c = 34 :: raw ++ 34 :: w2 ++ 58 :: w3 ++ b ++ t ->
  exists l, let c' := Ctx (p c + (length raw + 2 + length w2 + 1 + length w3)) (depth c) l in
    rem c' = b ++ t
    /\ (let! name := ngx_autocert_json_string_raw data plenty in
        ngx_autocert_json_skip_ws data;;
        let! b := more data in
        if negb b then fail
        else
          let! ch := cur data in
          if negb (ch =? 58) then fail
          else adv;; ngx_autocert_json_skip_ws data;; k name)%prog c = k d c'.
Proof.
  intros Hj Hw2 Hw3 Hb Hr. pose proof (rem_len c) as Hl. rewrite Hr in Hl. simpl in Hl.
  rewrite length_app in Hl. simpl in Hl. rewrite !length_app in Hl. simpl in Hl. rewrite length_app in Hl.
  destruct (run_string_raw _ _ _ _ Hj Hr) as [l E]. rewrite (run_bind _ _ _ _ _ E). clear E.
  exists l. set (c1 := Ctx (p c + (length raw + 2)) (depth c) l).
  assert (R : rem c1 = w2 ++ 58 :: w3 ++ b ++ t).
  { apply rem_S, rem_move, rem_S in Hr. rewrite <- Hr. unfold rem. simpl. f_equal. lia. }
  assert (Hn : nonws (58 :: w3 ++ b ++ t)) by (by intros y u [= <- <-]).
  rewrite (run_bind _ _ _ _ _ (run_skip_ws _ _ _ R Hw2 Hn ltac:(simpl; lia))).
  apply rem_move in R. rewrite (run_more _ _ _ _ R). cbn [negb].
  rewrite (run_cur _ _ _ _ R), Z.eqb_refl. cbn [negb]. rewrite run_adv. apply rem_S in R.
  rewrite (run_bind _ _ _ _ _ (run_skip_ws _ _ _ R Hw3 Hb ltac:(simpl; lia))).
  apply rem_move in R. unfold set_p in *. simpl in *.
  replace (p c + (length raw + 2 + length w2 + 1 + length w3))%nat
    with (S (p c + (length raw + 2) + length w2) + length w3)%nat by lia. done.
Qed.

Lemma run_member n raw d v b w1 w2 w3 w4 x t f acc c :
  jchars raw d -> value_ok n v b ->
  rem c = w1 ++ 34 :: raw ++ 34 :: w2 ++ 58 :: w3 ++ b ++ w4 ++ x :: t ->
  jws w1 -> jws w2 -> jws w3 -> jws w4 -> nonws (b ++ w4 ++ x :: t) ->
  x = 44 \/ x = 125 -> depth c + Z.of_nat n <= 32 -> (3 * length b <= f)%nat ->
  exists l, let c' := Ctx (p c + (length w1 + (length raw + 2 + length w2 + 1 + length w3)
                                  + length b + length w4)) (depth c) l in
    rem c' = x :: t
    /\ object_loop data plenty (S f) acc c
      = if x =? 44 then object_loop data plenty f (acc ++ [(d, v)]) (set_p c' (S (p c')))
        else Ret (acc ++ [(d, v)]) (set_depth (set_p c' (S (p c'))) (depth c - 1)).
Proof.
  intros Hj Hv Hr Hw1 Hw2 Hw3 Hw4 Hb Hx Hd Hf. cbn [object_loop].
  assert (Hp : (p c <= length data)%nat).
  { pose proof (rem_len c) as Hl. rewrite Hr, !length_app in Hl. simpl in Hl. lia. }
  assert (Hn : nonws (34 :: raw ++ 34 :: w2 ++ 58 :: w3 ++ b ++ w4 ++ x :: t))
    by (by intros y u [= <- <-]).
  rewrite (run_bind _ _ _ _ _ (run_skip_ws _ _ _ Hr Hw1 Hn Hp)).
  apply rem_move in Hr. rewrite (run_more _ _ _ _ Hr). cbn [negb].
  rewrite (run_cur _ _ _ _ Hr), Z.eqb_refl. cbn [negb].
  edestruct (@run_alloc (list (bytes * json))) as [l ->]. cbn [negb].
  set (c1 := Ctx _ _ l). change (rem c1 = 34 :: raw ++ 34 :: w2 ++ 58 :: w3 ++ b ++ w4 ++ x :: t) in Hr.
  edestruct (@run_name (list (bytes * json)) raw d w2 w3 b) as (l1 & R & E);
    [exact Hj|exact Hw2|exact Hw3|exact Hb|exact Hr|]. rewrite E. clear E.
  edestruct (@run_value_ws (list (bytes * json)) n v b w4 x t f) as (l2 & E & R2);
    [exact Hv|exact R|exact Hw4|tauto|exact Hd|exact Hf|]. rewrite E. clear E.
  unfold c1 in *. simpl in *. rewrite !Nat.add_assoc in *. exists l2.
  split; [done|]. rewrite (run_more _ _ x t R2). cbn [negb].
  rewrite (run_cur _ _ x t R2). destruct (Z.eqb_spec x 44); [done|].
  destruct (Z.eqb_spec x 125); [done|lia].
Qed.

Lemma value_head f c x t (m : prog ctx json) :
  rem c = x :: t ->
  (if x =? 123 then ngx_autocert_json_object data plenty f
   else if x =? 91 then ngx_autocert_json_array data plenty f
   else if x =? 34 then
     let! ok := ngx_autocert_json_alloc plenty in
     if negb ok then fail
     else let! s := ngx_autocert_json_string_raw data plenty in ret (JString s)
   else if (x =? 45) || is_digit x then ngx_autocert_json_number data plenty
   else if (x =? 116) || (x =? 102) || (x =? 110) then ngx_autocert_json_literal data plenty
   else fail) = m ->
  ngx_autocert_json_value data plenty (S f) c = m c.
Proof.
  intros Hr <-. cbn [ngx_autocert_json_value]. rewrite (run_more _ c x t Hr). cbn [negb].
  by rewrite (run_cur _ c x t Hr).
Qed.

Lemma fuel_S (b : bytes) f : b <> [] -> (3 * length b <= f)%nat -> exists f', f = S f'.
Proof. destruct b, f; simpl; intros; try lia; try done. by eexists. Qed.

Lemma value_ok_literal n x s v : (x :: s, v) ∈ literals -> value_ok n v (x :: s).
Proof.
  intros Hin f c r Hr Hd Hn Hf. destruct (fuel_S (x :: s) f ltac:(done) Hf) as [f' ->].
  unfold yields. erewrite value_head; [by apply (run_literal _ _ _ r)|exact Hr|].
  let l := eval vm_compute in literals in change literals with l in Hin.
  repeat (apply elem_of_cons in Hin as [[= -> -> ->]|Hin]); [done..|by apply not_elem_of_nil in Hin].
Qed.

Lemma value_ok_number n raw : jnum raw -> value_ok n (JNumber raw) raw.
Proof.
  intros Hj f c r Hr Hd Hn Hf. destruct (jnum_head _ Hj) as (x & t & E & Hx).
  destruct (fuel_S raw f ltac:(by rewrite E) Hf) as [f' ->]. pose proof Hr as Hr'.
  rewrite E in Hr'. simpl in Hr'. pose proof (rem_bound _ _ _ Hr').
  unfold yields. erewrite value_head; [|exact Hr'|].
  - apply (run_number _ _ r); [done|done|by apply delim_numend|lia].
  - destruct (Z.eqb_spec x 123), (Z.eqb_spec x 91), (Z.eqb_spec x 34); try lia.
    replace ((x =? 45) || is_digit x)%bool with true; [done|].
    symmetry. apply orb_true_iff. rewrite is_digit_iff, Z.eqb_eq. lia.
Qed.

Lemma value_ok_string n raw d : jchars raw d -> value_ok n (JString d) (34 :: raw ++ [34]).
Proof.
  intros Hj f c r Hr Hd Hn Hf. destruct (fuel_S (34 :: raw ++ [34]) f ltac:(done) Hf) as [f' ->].
  simpl in Hr. rewrite <- app_assoc in Hr. simpl in Hr.
  unfold yields. erewrite value_head; [|exact Hr|done]. cbv iota beta.
  change (34 =? 123) with false. change (34 =? 91) with false. change (34 =? 34) with true. cbv iota.
  unfold ngx_autocert_json_alloc. edestruct (@run_alloc json) as [l ->]. cbn [negb].
  destruct (run_string_raw (Ctx (p c) (depth c) l) _ _ _ Hj Hr) as [l' E].
  rewrite (run_bind _ _ _ _ _ E). exists l'. unfold ret. simpl. rewrite length_app. simpl.
  do 2 f_equal. lia.
Qed.

(** After the opening bracket: the closing one, or a first item for the loop,
    which skips the same white space again. *)
Lemma run_array_open f c w x t :
  rem c = 91 :: w ++ x :: t -> jws w -> is_ws x = false -> depth c + 1 <= 32 ->
  exists l, let c' := Ctx (S (p c)) (depth c + 1) l in
    rem c' = w ++ x :: t
    /\ ngx_autocert_json_array data plenty (S f) c
       = if x =? 93 then Ret (JArray []) (Ctx (p c + (length w + 2)) (depth c) l)
         else (let! es := array_loop data plenty f [] in ret (JArray es))%prog c'.
Proof.
  intros Hr Hw Hx Hd. cbn [ngx_autocert_json_array]. erewrite run_bind by done.
  erewrite run_bind by done. unfold NGX_AUTOCERT_JSON_MAX_DEPTH.
  destruct (Z.ltb_spec 32 (depth c + 1)); [lia|].
  unfold ngx_autocert_json_alloc. edestruct (@run_alloc json) as [l ->]. cbn [negb]. rewrite run_adv. apply rem_S in Hr.
  exists l. unfold set_p, set_depth, rem in *. simpl in *.
  set (c' := Ctx (S (p c)) (depth c + 1) l). change (rem c' = w ++ x :: t) in Hr.
  split; [done|]. pose proof (rem_len c') as Hl. rewrite Hr, length_app in Hl. simpl in Hl.
  assert (Hn : nonws (x :: t)) by (by intros y u [= <- <-]).
  rewrite (run_bind _ _ _ _ _ (run_skip_ws _ _ _ Hr Hw Hn ltac:(simpl; lia))).
  pose proof (rem_move _ _ _ Hr) as R. rewrite (run_more _ _ x t R).
  destruct (Z.eqb_spec x 93) as [->|Hne].
  - erewrite run_bind; [|rewrite (run_cur _ _ _ _ R); reflexivity]. cbv iota.
    change (93 =? 93) with true. cbv iota. rewrite run_adv. unfold set_p. simpl.
    unfold bind, getd, putd, ret, set_depth. simpl. do 2 f_equal; lia.
  - erewrite run_bind; [|rewrite (run_cur _ _ _ _ R); reflexivity].
    destruct (Z.eqb_spec x 93); [done|]. destruct f as [|f]; [done|].
    unfold bind at 1. unfold bind at 2. cbn [array_loop].
    eapply (run_skip_ws_twice _ c' w x t) in Hr as [_ ->]; try done. simpl. lia.
Qed.

Lemma value_ok_array_empty n w : jws w -> value_ok (S n) (JArray []) (91 :: w ++ [93]).
Proof.
  intros Hw f c r Hr Hd Hn Hf. destruct f as [|[|f]]; [simpl in Hf; lia..|].
  simpl in Hr. rewrite <- app_assoc in Hr. unfold yields. erewrite value_head; [|exact Hr|done].
  change (91 =? 123) with false. change (91 =? 91) with true. cbv iota.
  destruct (run_array_open f c w 93 r) as (l & _ & E); [done|done|done|lia|].
  rewrite E. exists l. simpl. by rewrite length_app, <- Nat.add_succ_r.
Qed.

Lemma value_ok_array n es body :
  jelems n es body -> elems_ok n es body -> value_ok (S n) (JArray es) (91 :: body ++ [93]).
Proof.
  intros He IH f c r Hr Hd Hn Hf. rewrite length_cons, length_app in Hf.
  destruct f as [|[|f]]; [simpl in Hf; lia..|].
  simpl in Hr. rewrite <- app_assoc in Hr. unfold yields. erewrite value_head; [|exact Hr|done].
  change (91 =? 123) with false. change (91 =? 91) with true. cbv iota.
  destruct (jelems_head _ _ _ He) as (w & x & t & Hb & Hw & Hx & Hx93).
  destruct (run_array_open f c w x (t ++ 93 :: r)) as (l & R & ->);
    [|done|done|lia|].
  { rewrite Hr, Hb, <- app_assoc. done. }
  destruct (Z.eqb_spec x 93); [done|].
  destruct (IH f (Ctx (S (p c)) (depth c + 1) l) r []) as [l' E].
  { rewrite R, Hb, <- app_assoc. done. }
  { simpl. lia. } { simpl in Hf. lia. }
  rewrite (run_bind _ _ _ _ _ E). exists l'. unfold ret. simpl. rewrite length_app. simpl.
  do 2 f_equal; lia.
Qed.

Lemma run_object_open f c w x t :
  rem c = 123 :: w ++ x :: t -> jws w -> is_ws x = false -> depth c + 1 <= 32 ->
  exists l, let c' := Ctx (S (p c)) (depth c + 1) l in
    rem c' = w ++ x :: t
    /\ ngx_autocert_json_object data plenty (S f) c
       = if x =? 125 then Ret (JObject []) (Ctx (p c + (length w + 2)) (depth c) l)
         else (let! ms := object_loop data plenty f [] in ret (JObject ms))%prog c'.
Proof.
  intros Hr Hw Hx Hd. cbn [ngx_autocert_json_object]. erewrite run_bind by done.
  erewrite run_bind by done. unfold NGX_AUTOCERT_JSON_MAX_DEPTH.
  destruct (Z.ltb_spec 32 (depth c + 1)); [lia|].
  unfold ngx_autocert_json_alloc. edestruct (@run_alloc json) as [l ->]. cbn [negb].
  rewrite run_adv. apply rem_S in Hr.
  exists l. unfold set_p, set_depth, rem in *. simpl in *.
  set (c' := Ctx (S (p c)) (depth c + 1) l). change (rem c' = w ++ x :: t) in Hr.
  split; [done|]. pose proof (rem_len c') as Hl. rewrite Hr, length_app in Hl. simpl in Hl.
  assert (Hn : nonws (x :: t)) by (by intros y u [= <- <-]).
  rewrite (run_bind _ _ _ _ _ (run_skip_ws _ _ _ Hr Hw Hn ltac:(simpl; lia))).
  pose proof (rem_move _ _ _ Hr) as R. rewrite (run_more _ _ x t R).
  erewrite run_bind; [|rewrite (run_cur _ _ _ _ R); reflexivity].
  destruct (Z.eqb_spec x 125) as [->|Hne].
  - rewrite run_adv. unfold set_p. simpl.
    unfold bind, getd, putd, ret, set_depth. simpl. do 2 f_equal; lia.
  - destruct f as [|f]; [done|].
    unfold bind at 1. unfold bind at 2. cbn [object_loop].
    eapply (run_skip_ws_twice _ c' w x t) in Hr as [_ ->]; try done. simpl. lia.
Qed.

Lemma value_ok_object_empty n w : jws w -> value_ok (S n) (JObject []) (123 :: w ++ [125]).
Proof.
  intros Hw f c r Hr Hd Hn Hf. destruct f as [|[|f]]; [simpl in Hf; lia..|].
  simpl in Hr. rewrite <- app_assoc in Hr. unfold yields. erewrite value_head; [|exact Hr|done].
  change (123 =? 123) with true. cbv iota.
  destruct (run_object_open f c w 125 r) as (l & _ & E); [done|done|done|lia|].
  rewrite E. exists l. simpl. by rewrite length_app, <- Nat.add_succ_r.
Qed.

Lemma value_ok_object n ms body :
  jmembers n ms body -> members_ok n ms body -> value_ok (S n) (JObject ms) (123 :: body ++ [125]).
Proof.
  intros He IH f c r Hr Hd Hn Hf. rewrite length_cons, length_app in Hf.
  destruct f as [|[|f]]; [simpl in Hf; lia..|].
  simpl in Hr. rewrite <- app_assoc in Hr. unfold yields. erewrite value_head; [|exact Hr|done].
  change (123 =? 123) with true. cbv iota.
  destruct (jmembers_head _ _ _ He) as (w & t & Hb & Hw).
  destruct (run_object_open f c w 34 (t ++ 125 :: r)) as (l & R & ->);
    [|done|done|lia|].
  { rewrite Hr, Hb, <- app_assoc. done. }
  change (34 =? 125) with false. cbv iota.
  destruct (IH f (Ctx (S (p c)) (depth c + 1) l) r []) as [l' E].
  { rewrite R, Hb, <- app_assoc. done. }
  { simpl. lia. } { simpl in Hf. lia. }
  rewrite (run_bind _ _ _ _ _ E). exists l'. unfold ret. simpl. rewrite length_app. simpl.
  do 2 f_equal; lia.
Qed.

Lemma jval_nonws n v b r : jval n v b -> nonws (b ++ r).
Proof. intros Hv. apply jval_head in Hv as (x & t & -> & ? & _). by intros y u [= <- <-]. Qed.

Lemma elems_ok_last n w1 v b w2 :
  jws w1 -> jval n v b -> value_ok n v b -> jws w2 -> elems_ok n [v] (w1 ++ b ++ w2).
Proof.
  intros Hw1 Hj Hv Hw2 [|f] c r acc Hr Hd Hf; [lia|]. rewrite <- !app_assoc in Hr.
  rewrite !length_app in *.
  edestruct (run_elem n v b w1 w2 93 r f acc c) as (l & _ & E);
    [done|done|done|done|by eapply jval_nonws|by right|done|lia|].
  rewrite E. exists l. change (93 =? 44) with false. cbv iota. unfold set_depth, set_p. simpl.
  do 2 f_equal. lia.
Qed.

Lemma elems_ok_cons n w1 v b w2 es body :
  jws w1 -> jval n v b -> value_ok n v b -> jws w2 -> elems_ok n es body ->
  elems_ok n (v :: es) (w1 ++ b ++ w2 ++ 44 :: body).
Proof.
  intros Hw1 Hj Hv Hw2 IH [|f] c r acc Hr Hd Hf; [lia|]. rewrite <- !app_assoc in Hr. simpl in Hr.
  rewrite !length_app, length_cons in *.
  edestruct (run_elem n v b w1 w2 44 (body ++ 93 :: r) f acc c) as (l & R & E);
    [done|done|done|done|by eapply jval_nonws|by left|done|lia|].
  rewrite E. change (44 =? 44) with true. cbv iota. apply rem_S in R.
  specialize (fun Hf => IH f _ r (acc ++ [v]) R Hd Hf) as [l' ->]; [lia|].
  exists l'. rewrite <- app_assoc. unfold set_p. simpl. do 2 f_equal. lia.
Qed.

Lemma members_ok_last n w1 raw k w2 w3 v b w4 :
  jws w1 -> jchars raw k -> jws w2 -> jws w3 -> jval n v b -> value_ok n v b -> jws w4 ->
  members_ok n [(k, v)] (w1 ++ 34 :: raw ++ 34 :: w2 ++ 58 :: w3 ++ b ++ w4).
Proof.
  intros Hw1 Hk Hw2 Hw3 Hj Hv Hw4 [|f] c r acc Hr Hd Hf; [lia|].
  repeat (rewrite <- app_assoc in Hr || rewrite <- app_comm_cons in Hr).
  repeat (rewrite length_app in * || rewrite length_cons in *).
  edestruct (run_member n raw k v b w1 w2 w3 w4 125 r f acc c) as (l & _ & E);
    [done|done|done|done|done|done|done|by eapply jval_nonws|by right|done|lia|].
  rewrite E. exists l. change (125 =? 44) with false. cbv iota. unfold set_depth, set_p. simpl.
  do 2 f_equal. lia.
Qed.

Lemma members_ok_cons n w1 raw k w2 w3 v b w4 ms body :
  jws w1 -> jchars raw k -> jws w2 -> jws w3 -> jval n v b -> value_ok n v b -> jws w4 ->
  members_ok n ms body ->
  members_ok n ((k, v) :: ms) (w1 ++ 34 :: raw ++ 34 :: w2 ++ 58 :: w3 ++ b ++ w4 ++ 44 :: body).
Proof.
  intros Hw1 Hk Hw2 Hw3 Hj Hv Hw4 IH [|f] c r acc Hr Hd Hf; [lia|].
  repeat (rewrite <- app_assoc in Hr || rewrite <- app_comm_cons in Hr).
  repeat (rewrite length_app in * || rewrite length_cons in *).
  edestruct (run_member n raw k v b w1 w2 w3 w4 44 (body ++ 125 :: r) f acc c) as (l & R & E);
    [done|done|done|done|done|done|done|by eapply jval_nonws|by left|done|lia|].
  rewrite E. change (44 =? 44) with true. cbv iota. apply rem_S in R.
  specialize (fun Hf => IH f _ r (acc ++ [(k, v)]) R Hd Hf) as [l' ->]; [lia|].
  exists l'. rewrite <- app_assoc. unfold set_p. simpl. do 2 f_equal. lia.
Qed.

Lemma grammar_ok :
  (forall n v b, jval n v b -> value_ok n v b)
  /\ (forall n es body, jelems n es body -> elems_ok n es body)
  /\ (forall n ms body, jmembers n ms body -> members_ok n ms body).
Proof.
  apply jgrammar_ind; intros.
  - apply value_ok_literal. by left.
  - apply value_ok_literal. by right; left.
  - apply value_ok_literal. by right; right; left.
  - by apply value_ok_number.
  - by apply value_ok_string.
  - by apply value_ok_array_empty.
  - by apply value_ok_array.
  - by apply value_ok_object_empty.
  - by apply value_ok_object.
  - by apply elems_ok_last.
  - by apply elems_ok_cons.
  - by apply members_ok_last.
  - by apply members_ok_cons.
Qed.

Lemma parse_at_complete v :
  jdoc v data -> exists c, ngx_autocert_json_parse_at data plenty ctx0 = Ret v c.
Proof.
  intros (w1 & b & w2 & Hdata & Hw1 & Hw2 & Hj). 
  destruct (jval_head _ _ _ Hj) as (x & t & Hb & Hx & _).
  assert (R0 : rem ctx0 = w1 ++ b ++ w2) by (unfold rem; simpl; by rewrite drop_0).
  unfold ngx_autocert_json_parse_at.
  assert (Hl : length data = (length w1 + (length b + length w2))%nat).
  { by rewrite Hdata, !length_app. }
  erewrite (run_bind _ _ _ true ctx0); [|unfold more; simpl p;
    destruct (Nat.ltb_spec 0 (length data)); [done|rewrite Hb in Hl; simpl in Hl; lia]]. cbn [negb].
  assert (Hn : nonws (b ++ w2)) by (by eapply jval_nonws).
  rewrite (run_bind _ _ _ _ _ (run_skip_ws _ _ _ R0 Hw1 Hn ltac:(simpl; lia))).
  apply rem_move in R0. destruct grammar_ok as (Hv & _ & _).
  destruct (Hv _ _ _ Hj (json_fuel data) _ w2 R0) as [l E];
    [by rewrite <- (app_nil_r w2); apply delim_ws_app|done|unfold json_fuel; lia|].
  rewrite (run_bind _ _ _ _ _ E).
  set (c1 := Ctx _ _ l). assert (R1 : rem c1 = w2 ++ []) by (rewrite app_nil_r; by apply rem_move in R0).
  rewrite (run_bind _ _ _ _ _ (run_skip_ws c1 w2 [] R1 Hw2 ltac:(done) ltac:(simpl; lia))).
  eexists. erewrite run_bind by done. simpl.
  destruct (Nat.eqb_spec (length w1 + length b + length w2) (length data)); [done|lia].
Qed.
End Complete.
