(* ===== verification/JsonThms.v ===== *)
(** * The JSON reader: what it promises

    The properties of ngx_autocert_json.c that the rest of the module relies on:
    safety and the allocation budget on hostile input, exact agreement with the
    grammar, and the accessors the ACME client reads replies with. *)

From S2P Require Import Prelude NgxCore Json JsonSpec JsonSound JsonComplete.

Local Open Scope Z_scope.

(** ** Parsing *)

Lemma parse_sound data oom v : ngx_autocert_json_parse data oom = Some v -> jdoc v data.
Proof.
  pose proof (wp_parse data oom) as H. unfold ngx_autocert_json_parse, wp in *.
  destruct (ngx_autocert_json_parse_at data oom ctx0); [|done..].
  intros [= <-]. apply H.
Qed.

Lemma parse_complete data v : jdoc v data -> ngx_autocert_json_parse data plenty = Some v.
Proof.
  intros H. apply parse_at_complete in H as [c H]. unfold ngx_autocert_json_parse. by rewrite H.
Qed.

(** The grammar is unambiguous, because the parser is a function. *)
Lemma jdoc_functional data v v' : jdoc v data -> jdoc v' data -> v = v'.
Proof. intros H%parse_complete H'%parse_complete. congruence. Qed.

Lemma parse_any_pool data oom v :
  ngx_autocert_json_parse data oom = Some v -> ngx_autocert_json_parse data plenty = Some v.
Proof. intros H. by eapply parse_complete, parse_sound. Qed.

(** The parser never leaves its buffers and always returns: on every byte
    string, whatever allocations fail, it ends in a value or an error, having
    made at most 2N+8 allocations for at most 64N+4096 bytes. *)
Theorem json_parse_safe data oom :
  match ngx_autocert_json_parse_at data oom ctx0 with
  | Ret _ c | Err c =>
      (nallocs (pl c) <= 2 * length data + 8)%nat
      /\ (nbytes (pl c) <= 64 * length data + 4096)%nat
  | Fault | NoFuel => False
  end.
Proof.
  pose proof (wp_parse data oom) as H. unfold wp in H.
  destruct (ngx_autocert_json_parse_at data oom ctx0); [apply H|apply H|done..].
Qed.

(** C1. With memory available the parser accepts exactly the JSON documents
    nested at most 32 deep, and returns the value the grammar gives them. *)
Theorem json_parse_iff data v :
  ngx_autocert_json_parse data plenty = Some v <-> jdoc v data.
Proof. split; [apply parse_sound|apply parse_complete]. Qed.

(** An allocation failure can only turn a result into NULL: a value that is
    returned under any pattern of failures is the one returned under none. *)
Theorem json_parse_oom data oom v :
  ngx_autocert_json_parse data oom = Some v <->
  ngx_autocert_json_parse data plenty = Some v
  /\ ngx_autocert_json_parse data oom <> None.
Proof.
  split; [intros H; split; [by eapply parse_any_pool|by rewrite H]|].
  intros [H Hn]. destruct (ngx_autocert_json_parse data oom) as [v'|] eqn:E; [|done].
  apply parse_any_pool in E. congruence.
Qed.

(** ** Accessors *)

Lemma key_match_iff name key :
  Forall (fun c => c <> 0) key -> key_match name key = true <-> name = key.
Proof.
  intros Hk. unfold key_match. destruct (Nat.eqb_spec (length name) (length key)) as [Hl|Hl]; simpl.
  - destruct (strncmp_exact name key Hl Hk) as (r & -> & <-). apply Z.eqb_eq.
  - split; [done|]. by intros ->.
Qed.

(** The first member of that name, by position. *)
Definition first_member (ms : list (bytes * json)) (key : bytes) : option json :=
  snd <$> head (filter (fun kv => kv.1 = key) ms).

Lemma member_scan_first ms key :
  Forall (fun c => c <> 0) key -> member_scan ms key = first_member ms key.
Proof.
  intros Hk. unfold first_member. induction ms as [|[k v] ms IH]; [done|]. cbn [member_scan].
  destruct (decide (k = key)) as [->|Hne].
  - rewrite filter_cons_True by done. by rewrite (proj2 (key_match_iff key key Hk) eq_refl).
  - rewrite filter_cons_False by done. destruct (key_match k key) eqn:E; [|done].
    by apply key_match_iff in E.
Qed.

(** Looking a key up in an object finds the first member of exactly that
    name (a name with an embedded NUL never passes for a prefix of itself), and
    the string accessor tells an absent member (NGX_DECLINED) from one of the
    wrong type (NGX_ERROR). *)
Theorem json_object_str_spec (ms : list (bytes * json)) (key : bytes) :
  Forall (fun c => c <> 0) key ->
  ngx_autocert_json_object_get (Some (JObject ms)) key = first_member ms key
  /\ ngx_autocert_json_object_str (Some (JObject ms)) key =
       match first_member ms key with
       | None => (NGX_DECLINED, None)
       | Some (JString s) => (NGX_OK, Some s)
       | Some _ => (NGX_ERROR, None)
       end.
Proof.
  intros Hk. unfold ngx_autocert_json_object_str, ngx_autocert_json_object_get.
  by rewrite member_scan_first.
Qed.

Lemma json_object_str_spec_witness :
  let ms := [([97; 0; 98], JNull); ([97], JString [120]); ([97], JNull)] in
  ngx_autocert_json_object_str (Some (JObject ms)) [97] = (NGX_OK, Some [120]).
Proof. exact (proj2 (json_object_str_spec _ [97] ltac:(by repeat constructor))). Defined.

Lemma number_int_loop_spec l n :
  0 <= n <= NGX_MAX_INT_T_VALUE ->
  number_int_loop l n =
    if forallb is_digit l && (dec_acc n l <=? NGX_MAX_INT_T_VALUE) then Some (dec_acc n l) else None.
Proof.
  revert n. induction l as [|c l IH]; intros n Hn; simpl.
  - destruct (Z.leb_spec n NGX_MAX_INT_T_VALUE); [done|lia].
  - unfold is_digit at 1. rewrite Z.leb_antisym, (Z.leb_antisym 57).
    destruct (Z.ltb_spec c 48); [done|]. destruct (Z.ltb_spec 57 c); [done|]. simpl.
    unfold NGX_MAX_INT_T_VALUE in *.
    destruct (Z.ltb_spec ((9223372036854775807 - (c - 48)) / 10) n) as [Hlt|Hge].
    + destruct (forallb is_digit l) eqn:El; [|done]. simpl.
      pose proof (dec_acc_mono (n * 10 + (c - 48)) l ltac:(lia) El).
      fold (dec_acc (n * 10 + (c - 48)) l).
      destruct (Z.leb_spec (dec_acc (n * 10 + (c - 48)) l) 9223372036854775807); [zdiv|done].
    + apply IH. zdiv.
Qed.

(** Reading a NUMBER as an integer succeeds exactly on a non-empty run of
    decimal digits that fits [ngx_int_t], with its value: no sign, fraction or
    exponent is accepted and nothing wraps. *)
Theorem json_number_int_spec (t : bytes) :
  ngx_autocert_json_number_int (Some (JNumber t)) =
    if (negb (length t =? 0)%nat && forallb is_digit t
        && (dec_val t <=? NGX_MAX_INT_T_VALUE))%bool
    then Some (dec_val t) else None.
Proof.
  unfold ngx_autocert_json_number_int. destruct (length t =? 0)%nat; [done|].
  rewrite number_int_loop_spec by done. done.
Qed.
