(* ===== verification/Ratecap.v ===== *)
(** * Rate caps and wildcard cover (src/src/ngx_autocert_ratecap.h)

    The fixed rings of timestamps behind the runtime issuance caps, the driver's
    global new-order window and per-host failure table built on them
    (src/src/ngx_autocert_driver.c), and the wildcard test.  The central theorem
    is that the ring is an exact sliding window: orders that pass the guard are
    at most [n] in any interval of [window] seconds, for ever. *)

From S2P Require Import Prelude NgxCore.

Local Open Scope Z_scope.

(** ** The ring primitives *)

(** [ring[i] != 0 && ring[i] > now - window] *)
Definition in_window (now window t : Z) : bool := negb (t =? 0) && (now - window <? t).

(** The loop over [ring[0..n)]; the ring is the list of its [n] slots. *)
Fixpoint ngx_autocert_rt_window_count (ring : list Z) (now window : Z) : nat :=
  match ring with
  | [] => 0
  | t :: ring' =>
      let c := ngx_autocert_rt_window_count ring' now window in
      if in_window now window t then S c else c
  end.

Fixpoint window_oldest_loop (ring : list Z) (now window oldest : Z) : Z :=
  match ring with
  | [] => oldest
  | t :: ring' =>
      window_oldest_loop ring' now window
        (if in_window now window t then
           if (oldest =? 0) || (t <? oldest) then t else oldest
         else oldest)
  end.

Definition ngx_autocert_rt_window_oldest (ring : list Z) (now window : Z) : Z :=
  window_oldest_loop ring now window 0.

(** The ring and [*head]; the write is [ring[*head] = now], in range when the
    head is. *)
Definition ngx_autocert_rt_ring_push (ring : list Z) (n head : nat) (now : Z) : list Z * nat :=
  (<[head:=now]> ring, ((head + 1) mod n)%nat).

(** ** Wildcard cover *)

Definition ngx_autocert_name_covers (name host : bytes) : option bool :=
  let nlen := length name in
  let hlen := length host in
  match (if (nlen =? hlen)%nat then ngx_strncasecmp name host hlen else Some 1) with
  | None => None
  | Some r =>
      if r =? 0 then Some true
      else if (nlen <=? 2)%nat then Some false
      else
        match name !! 0%nat, name !! 1%nat with
        | Some c0, Some c1 =>
            if negb (c0 =? 42) || negb (c1 =? 46) then Some false
            else
              let suffix := drop 2 name in
              let slen := (nlen - 2)%nat in
              match ngx_strlchr host 46 with
              | None => Some false
              | Some O => Some false
              | Some dot =>
                  let rest := drop (dot + 1) host in
                  let rlen := (hlen - (dot + 1))%nat in
                  if negb (rlen =? slen)%nat then Some false
                  else match ngx_strncasecmp rest suffix rlen with
                       | None => None
                       | Some r => Some (r =? 0)
                       end
              end
        | _, _ => None
        end
  end.

(** ** The driver's windows (ngx_autocert_driver.c) *)

Definition NGX_AUTOCERT_RT_ORDER_MAX : nat := 300.
Definition NGX_AUTOCERT_RT_ORDER_WINDOW : Z := 3 * 60 * 60.
Definition NGX_AUTOCERT_RT_FAIL_MAX : nat := 5.
Definition NGX_AUTOCERT_RT_FAIL_WINDOW : Z := 60 * 60.
Definition NGX_AUTOCERT_RT_FAIL_HOSTS : nat := 64.

(** [ngx_autocert_rt_fail_t]: the first [len] bytes of [host], and the window. *)
Record rt_fail := RtFail { f_host : bytes; f_ring : list Z; f_head : nat }.

(** [sizeof(e->host)] *)
Definition sizeof_host : nat := 256.

(** The file-static state: [ngx_autocert_rt_order_ring], its head, and the
    [NGX_AUTOCERT_RT_FAIL_HOSTS] entries of [ngx_autocert_rt_fail]; a free entry
    has length 0. *)
Record rt_state := RtState {
  order_ring : list Z;
  order_head : nat;
  fail_table : list rt_fail
}.

Definition rt_fail0 : rt_fail := RtFail [] (replicate NGX_AUTOCERT_RT_FAIL_MAX 0) 0.
Definition rt_state0 : rt_state :=
  RtState (replicate NGX_AUTOCERT_RT_ORDER_MAX 0) 0 (replicate NGX_AUTOCERT_RT_FAIL_HOSTS rt_fail0).

Definition ngx_autocert_rt_order_at_cap (s : rt_state) (now : Z) : bool :=
  (NGX_AUTOCERT_RT_ORDER_MAX
   <=? ngx_autocert_rt_window_count (order_ring s) now NGX_AUTOCERT_RT_ORDER_WINDOW)%nat.

(** Also the order's [on_new_order] hook, [ngx_autocert_rt_order_accounted]. *)
Definition ngx_autocert_rt_order_record (s : rt_state) (now : Z) : rt_state :=
  let '(r, h) := ngx_autocert_rt_ring_push (order_ring s) NGX_AUTOCERT_RT_ORDER_MAX (order_head s) now in
  RtState r h (fail_table s).

(** [e->len == host->len && memcmp == 0] *)
Definition fail_match (host : bytes) (e : rt_fail) : bool :=
  (length (f_host e) =? length host)%nat
  && match ngx_memcmp (f_host e) host (length host) with Some r => r =? 0 | None => false end.

Fixpoint fail_find_loop (t : list rt_fail) (host : bytes) (i : nat) : option nat :=
  match t with
  | [] => None
  | e :: t' => if fail_match host e then Some i else fail_find_loop t' host (S i)
  end.

(** The slot found, as an index of the table. *)
Definition ngx_autocert_rt_fail_find (s : rt_state) (host : bytes) : option nat :=
  if (length host =? 0)%nat || (sizeof_host <=? length host)%nat then None
  else fail_find_loop (fail_table s) host 0.

Definition fail_count (e : rt_fail) (now : Z) : nat :=
  ngx_autocert_rt_window_count (f_ring e) now NGX_AUTOCERT_RT_FAIL_WINDOW.

Definition ngx_autocert_rt_fail_at_cap (s : rt_state) (host : bytes) (now : Z) : bool :=
  match ngx_autocert_rt_fail_find s host with
  | None => false
  | Some i =>
      match fail_table s !! i with
      | Some e => (NGX_AUTOCERT_RT_FAIL_MAX <=? fail_count e now)%nat
      | None => false
      end
  end.

(** The search for a slot: the first free one, else the first fully aged out
    one seen before it. *)
Fixpoint fail_slot_loop (t : list rt_fail) (now : Z) (i : nat) (slot : option nat) : option nat :=
  match t with
  | [] => slot
  | e :: t' =>
      if (length (f_host e) =? 0)%nat then Some i
      else
        fail_slot_loop t' now (S i)
          (match slot with
           | None => if (fail_count e now =? 0)%nat then Some i else None
           | Some _ => slot
           end)
  end.

Definition fail_push (e : rt_fail) (now : Z) : rt_fail :=
  let '(r, h) := ngx_autocert_rt_ring_push (f_ring e) NGX_AUTOCERT_RT_FAIL_MAX (f_head e) now in
  RtFail (f_host e) r h.

Definition set_fail (s : rt_state) (i : nat) (e : rt_fail) : rt_state :=
  RtState (order_ring s) (order_head s) (<[i:=e]> (fail_table s)).

Definition ngx_autocert_rt_fail_record (s : rt_state) (host : bytes) (now : Z) : rt_state :=
  if (length host =? 0)%nat || (sizeof_host <=? length host)%nat then s
  else
    match ngx_autocert_rt_fail_find s host with
    | Some i =>
        match fail_table s !! i with
        | Some e => set_fail s i (fail_push e now)
        | None => s
        end
    | None =>
        match fail_slot_loop (fail_table s) now 0 None with
        | None => s
        | Some i =>
            set_fail s i
              (fail_push (RtFail host (replicate NGX_AUTOCERT_RT_FAIL_MAX 0) 0) now)
        end
    end.

(** ** Counting *)

Lemma in_window_iff now window t :
  in_window now window t = true <-> t <> 0 /\ now - window < t.
Proof. unfold in_window. rewrite andb_true_iff, negb_true_iff, Z.eqb_neq, Z.ltb_lt. done. Qed.

Abbreviation count := ngx_autocert_rt_window_count.

Lemma count_app l l' now w : count (l ++ l') now w = (count l now w + count l' now w)%nat.
Proof. induction l as [|t l IH]; simpl; [done|]. rewrite IH. by destruct (in_window _ _ _). Qed.

Lemma count_Permutation l l' now w : Permutation l l' -> count l now w = count l' now w.
Proof.
  induction 1 as [|t l l' _ IH|t t' l|]; simpl; [done|by rewrite IH| |congruence].
  by destruct (in_window _ _ t), (in_window _ _ t').
Qed.

Lemma count_length l now w : (count l now w <= length l)%nat.
Proof. induction l as [|t l IH]; simpl; [done|]. destruct (in_window _ _ _); lia. Qed.

Lemma count_none l now w : (forall t, t ∈ l -> in_window now w t = false) -> count l now w = 0%nat.
Proof.
  induction l as [|t l IH]; intros H; simpl; [done|]. rewrite H by left.
  apply IH. intros t' Ht. apply H. by right.
Qed.

Lemma count_all l now w :
  (forall t, t ∈ l -> in_window now w t = true) -> count l now w = length l.
Proof.
  induction l as [|t l IH]; intros H; simpl; [done|]. rewrite H by left.
  f_equal. apply IH. intros t' Ht. apply H. by right.
Qed.

(** Below the cap, some slot is out of the window. *)
Lemma count_lt_length l now w :
  (count l now w < length l)%nat -> exists t, t ∈ l /\ in_window now w t = false.
Proof.
  induction l as [|t l IH]; simpl; [lia|]. destruct (in_window now w t) eqn:E.
  - intros H. destruct IH as (t' & ? & ?); [lia|]. exists t'. split; [by right|done].
  - intros _. exists t. split; [by left|done].
Qed.

Lemma count_mono l now now' w : now <= now' -> (count l now' w <= count l now w)%nat.
Proof.
  intros Hn. induction l as [|t l IH]; simpl; [done|].
  destruct (in_window now' w t) eqn:E; [|destruct (in_window now w t); lia].
  apply in_window_iff in E. replace (in_window now w t) with true; [lia|].
  symmetry. apply in_window_iff. lia.
Qed.

(** ** The ring holds the last [n] timestamps *)

(** The slots from the next to be overwritten to the last written. *)
Definition unroll (ring : list Z) (head : nat) : list Z := drop head ring ++ take head ring.

(** [ring] holds the newest [n] entries of [hist] (newest first), and zeros in
    the slots never written. *)
Definition ring_holds (n : nat) (ring : list Z) (head : nat) (hist : list Z) : Prop :=
  length ring = n /\ (head < n)%nat
  /\ reverse (unroll ring head) = take n (hist ++ replicate n 0).

Lemma ring_holds_init n : (0 < n)%nat -> ring_holds n (replicate n 0) 0 [].
Proof.
  intros Hn. split; [apply length_replicate|]. split; [done|]. unfold unroll. simpl.
  rewrite take_0, drop_0, app_nil_r, reverse_replicate. by rewrite take_ge by (rewrite length_replicate; lia).
Qed.

Lemma unroll_push ring head t :
  (head < length ring)%nat ->
  let '(r, h) := ngx_autocert_rt_ring_push ring (length ring) head t in
  unroll r h = tail (unroll ring head) ++ [t].
Proof.
  intros Hh. unfold ngx_autocert_rt_ring_push, unroll.
  assert (E : drop (S head) (<[head:=t]> ring) = drop (S head) ring) by (apply drop_insert_lt; lia).
  assert (E' : take (S head) (<[head:=t]> ring) = take head ring ++ [t]).
  { rewrite (take_S_r _ head t) by (apply list_lookup_insert_eq; done). by rewrite take_insert_ge by lia. }
  assert (Hd : tail (drop head ring ++ take head ring) = drop (S head) ring ++ take head ring).
  { destruct (lookup_lt_is_Some_2 ring head Hh) as [x Hx]. by rewrite (drop_S _ x head Hx). }
  rewrite Hd, <- app_assoc, <- E', <- E. destruct (decide (S head = length ring)) as [He|].
  - rewrite Nat.add_1_r, He, Nat.Div0.mod_same. rewrite drop_0, take_0, app_nil_r.
    symmetry. rewrite <- He. by rewrite (drop_ge _ (S head)), take_ge by (rewrite length_insert; lia).
  - by rewrite Nat.add_1_r, Nat.mod_small by lia.
Qed.

Lemma ring_holds_push n ring head hist t :
  ring_holds n ring head hist ->
  let '(r, h) := ngx_autocert_rt_ring_push ring n head t in ring_holds n r h (t :: hist).
Proof.
  intros (Hl & Hh & Hr). subst n. pose proof (unroll_push ring head t Hh) as Hu.
  destruct (ngx_autocert_rt_ring_push ring (length ring) head t) as [r h] eqn:E.
  unfold ngx_autocert_rt_ring_push in E. injection E as <- <-.
  split; [apply length_insert|]. split; [apply Nat.mod_upper_bound; lia|].
  rewrite Hu, reverse_app. simpl.
  destruct (length ring) as [|m] eqn:El; [lia|]. cbn [app]. rewrite (firstn_cons m). f_equal.
  assert (Hlu : length (unroll ring head) = S m).
  { unfold unroll. rewrite length_app, length_drop, length_take. lia. }
  destruct (unroll ring head) as [|x u] eqn:Eu; [done|]. simpl.
  rewrite reverse_cons in Hr. injection Hlu as Hlu.
  apply (f_equal (take m)) in Hr. rewrite take_app_le, take_ge in Hr by (rewrite length_reverse; lia).
  rewrite Hr, take_take. by rewrite Nat.min_l by lia.
Qed.

(** Only the newest [n] entries are ever counted, and the empty slots never. *)
Lemma ring_holds_count n ring head hist now w :
  ring_holds n ring head hist -> count ring now w = count (take n hist) now w.
Proof.
  intros (Hl & Hh & Hr). transitivity (count (reverse (unroll ring head)) now w).
  { apply count_Permutation. rewrite reverse_Permutation. unfold unroll.
    rewrite Permutation_app_comm. by rewrite take_drop. }
  rewrite Hr, take_app, count_app. rewrite (count_none (take _ (replicate _ _))); [lia|].
  intros t Ht. rewrite take_replicate in Ht. by apply elem_of_replicate in Ht as [-> _].
Qed.

(** ** Sliding windows *)

(** A history of timestamps, newest first, in which an entry and the one [n]
    places later are at least [w] apart. *)
Fixpoint spaced (n : nat) (w : Z) (hist : list Z) : Prop :=
  match hist with
  | [] => True
  | t :: h =>
      0 < t /\ Forall (fun x => x <= t) h /\ Forall (fun x => x <= t - w) (drop (n - 1) h)
      /\ spaced n w h
  end.

(** The entries in the half-open interval of [w] seconds ending at [x]. *)
Definition launched (x w : Z) (hist : list Z) : list Z := filter (fun t => x - w < t <= x) hist.

Lemma launched_none x w l : Forall (fun t => t <= x - w) l -> launched x w l = [].
Proof.
  intros H. unfold launched. induction H as [|t l Ht _ IH]; [done|].
  rewrite filter_cons_False by lia. exact IH.
Qed.

Lemma spaced_bound n w hist x :
  (0 < n)%nat -> spaced n w hist -> (length (launched x w hist) <= n)%nat.
Proof.
  intros Hn. induction hist as [|t h IH]; intros Hs; [simpl; lia|].
  destruct Hs as (Ht & Hle & Hsp & Hs). unfold launched. rewrite filter_cons.
  destruct (decide _) as [Hx|Hx]; [|by apply IH].
  rewrite length_cons. rewrite <- (take_drop (n - 1) h), filter_app, length_app.
  fold (launched x w (drop (n - 1) h)). rewrite launched_none; [simpl|].
  - pose proof (length_filter (fun t => x - w < t <= x) (take (n - 1) h)) as Hf.
    rewrite length_take in Hf. lia.
  - eapply Forall_impl; [exact Hsp|]. simpl. lia.
Qed.

Lemma spaced_pos n w hist x : spaced n w hist -> x ∈ hist -> 0 < x.
Proof.
  intros Hs Hx. induction hist as [|t h IH]; [by apply not_elem_of_nil in Hx|].
  destruct Hs as (? & _ & _ & ?). apply elem_of_cons in Hx as [->|Hx]; [done|by apply IH].
Qed.

Lemma spaced_desc n w hist i j x z :
  spaced n w hist -> hist !! i = Some x -> hist !! j = Some z -> (i <= j)%nat -> z <= x.
Proof.
  revert i j. induction hist as [|t h IH]; intros i j Hs Hi Hj Hij; [done|].
  destruct Hs as (_ & Hle & _ & Hs). destruct i as [|i], j as [|j]; simpl in *; [..|lia|].
  - injection Hi as <-. injection Hj as <-. lia.
  - injection Hi as <-. rewrite Forall_lookup in Hle. by apply (Hle j).
  - apply (IH i j); [done..|lia].
Qed.

Lemma spaced_push n w hist t t0 :
  (0 < n)%nat -> 0 < t0 -> t0 <= t -> spaced n w hist -> Forall (fun x => x <= t0) hist ->
  (count (take n hist) t0 w < n)%nat -> spaced n w (t :: hist).
Proof.
  intros Hn H0 Ht Hs Hle Hc. split; [lia|]. split.
  { eapply Forall_impl; [exact Hle|]. simpl. lia. }
  split; [|done]. destruct (decide (length hist < n)%nat) as [Hl|Hl].
  { rewrite drop_ge by lia. constructor. }
  destruct (count_lt_length (take n hist) t0 w) as (y & Hy & Hw); [rewrite length_take; lia|].
  apply list_elem_of_lookup_1 in Hy as [i Hi]. apply lookup_take_Some in Hi as [Hi Hin].
  assert (Hy0 : y <= t0 - w).
  { pose proof (spaced_pos n w hist y Hs) as Hp. rewrite list_elem_of_lookup in Hp.
    specialize (Hp (ex_intro _ i Hi)). unfold in_window in Hw. reflect_bools. lia. }
  apply Forall_lookup. intros j z Hj. rewrite lookup_drop in Hj.
  pose proof (spaced_desc n w hist i (n - 1 + j) y z Hs Hi Hj ltac:(lia)). lia.
Qed.

(** ** The global cap *)

(** A launch that is checked against the cap at [check] and, when let through,
    reaches newOrder (is counted) at [post].  One order is in flight at a time,
    so the next launch is checked after it. *)
Definition rt_attempt (sh : rt_state * list Z) (a : Z * Z) : rt_state * list Z :=
  let '(s, hist) := sh in
  let '(check, post) := a in
  if ngx_autocert_rt_order_at_cap s check then (s, hist)
  else (ngx_autocert_rt_order_record s post, post :: hist).

Definition rt_run (attempts : list (Z * Z)) : rt_state * list Z :=
  fold_left rt_attempt attempts (rt_state0, []).

(** The attempts in order of time. *)
Fixpoint in_order (t : Z) (attempts : list (Z * Z)) : Prop :=
  match attempts with
  | [] => True
  | (check, post) :: rest => t <= check <= post /\ in_order post rest
  end.

Definition cap_inv (t : Z) (sh : rt_state * list Z) : Prop :=
  ring_holds NGX_AUTOCERT_RT_ORDER_MAX (order_ring sh.1) (order_head sh.1) sh.2
  /\ spaced NGX_AUTOCERT_RT_ORDER_MAX NGX_AUTOCERT_RT_ORDER_WINDOW sh.2
  /\ Forall (fun x => x <= t) sh.2.

Lemma cap_inv_attempt t sh check post :
  0 < t -> t <= check <= post -> cap_inv t sh -> cap_inv post (rt_attempt sh (check, post)).
Proof.
  intros Ht Htt (Hr & Hs & Hle). destruct sh as [s hist]. simpl in *.
  assert (Hle' : forall t', t <= t' -> Forall (fun x => x <= t') hist).
  { intros t' H'. eapply Forall_impl; [exact Hle|]. simpl. lia. }
  destruct (ngx_autocert_rt_order_at_cap s check) eqn:Ec.
  { split; [done|]. split; [done|]. apply Hle'. lia. }
  unfold ngx_autocert_rt_order_at_cap in Ec. apply Nat.leb_gt in Ec.
  rewrite (ring_holds_count _ _ _ _ _ _ Hr) in Ec.
  pose proof (ring_holds_push _ _ _ _ post Hr) as Hp. unfold ngx_autocert_rt_order_record.
  destruct (ngx_autocert_rt_ring_push _ _ _ post) as [r h].
  split; [exact Hp|]. split; cbn [fst snd].
  - apply (spaced_push _ _ _ _ check); [unfold NGX_AUTOCERT_RT_ORDER_MAX; lia|lia|lia|done| |done].
    apply Hle'. lia.
  - constructor; [lia|]. apply Hle'. lia.
Qed.

Lemma cap_inv_run attempts t sh :
  0 < t -> in_order t attempts -> cap_inv t sh ->
  exists t', cap_inv t' (fold_left rt_attempt attempts sh).
Proof.
  revert t sh. induction attempts as [|[check post] rest IH]; intros t sh Ht Ho Hi; simpl.
  - by exists t.
  - destruct Ho as [Htt Ho]. eapply (IH post); [lia|done|]. by eapply cap_inv_attempt.
Qed.

Lemma cap_inv0 t : cap_inv t (rt_state0, []).
Proof. split; [apply ring_holds_init; unfold NGX_AUTOCERT_RT_ORDER_MAX; lia|]. by split. Qed.

(** However runtime requests arrive, the orders let through by the global
    cap number at most 300 in every interval of three hours, whatever its
    position, and they are exactly those the ring was told of. *)
Theorem rt_order_cap_holds (attempts : list (Z * Z)) (t x : Z) :
  0 < t -> in_order t attempts ->
  let '(s, hist) := rt_run attempts in
  (length (launched x NGX_AUTOCERT_RT_ORDER_WINDOW hist) <= NGX_AUTOCERT_RT_ORDER_MAX)%nat
  /\ forall now, count (order_ring s) now NGX_AUTOCERT_RT_ORDER_WINDOW
               = count (take NGX_AUTOCERT_RT_ORDER_MAX hist) now NGX_AUTOCERT_RT_ORDER_WINDOW.
Proof.
  intros Ht Ho. destruct (cap_inv_run attempts t (rt_state0, []) Ht Ho (cap_inv0 t)) as (t' & Hr & Hs & _).
  unfold rt_run. destruct (fold_left rt_attempt attempts (rt_state0, [])) as [s hist].
  split; [apply spaced_bound; [unfold NGX_AUTOCERT_RT_ORDER_MAX; lia|exact Hs]|].
  intros now. by eapply ring_holds_count.
Qed.

Lemma rt_order_cap_holds_witness :
  length (launched 500 NGX_AUTOCERT_RT_ORDER_WINDOW (rt_run (replicate 400 (500, 500))).2) = 300%nat
  /\ let '(s, hist) := rt_run [(10, 20); (30, 30)] in
     (length (launched 30 NGX_AUTOCERT_RT_ORDER_WINDOW hist) <= NGX_AUTOCERT_RT_ORDER_MAX)%nat
     /\ forall now, count (order_ring s) now NGX_AUTOCERT_RT_ORDER_WINDOW
                  = count (take NGX_AUTOCERT_RT_ORDER_MAX hist) now NGX_AUTOCERT_RT_ORDER_WINDOW.
Proof.
  split; [vm_compute; reflexivity|].
  exact (rt_order_cap_holds [(10, 20); (30, 30)] 1 30 ltac:(lia) ltac:(simpl; lia)).
Defined.

(** ** How long a capped host is held *)

(** Provided no stamp is negative, the loop ends with the least one in the window
    and in [o] (0: nothing seen yet). *)
Lemma window_oldest_loop_spec ring now w o :
  Forall (fun t => 0 <= t) ring -> 0 <= o ->
  let r := window_oldest_loop ring now w o in
  (r = o \/ (r ∈ ring /\ in_window now w r = true))
  /\ (o <> 0 -> r <> 0 /\ r <= o)
  /\ (forall t, t ∈ ring -> in_window now w t = true -> r <> 0 /\ r <= t).
Proof.
  intros Hring. revert o. induction Hring as [|t ring Ht0 Hring IH]; intros o Ho; simpl.
  { split; [by left|]. split; [done|]. intros t Ht. by apply not_elem_of_nil in Ht. }
  destruct (in_window now w t) eqn:Et.
  - pose proof Et as Et'. apply in_window_iff in Et' as [Hnz _].
    destruct (IH (if (o =? 0) || (t <? o) then t else o)) as (H1 & H2 & H3);
      [by destruct (_ || _)|].
    set (r := window_oldest_loop ring now w _) in *.
    destruct ((o =? 0) || (t <? o)) eqn:Eo; reflect_bools.
    + split; [right|split].
      * destruct H1 as [->|[? ?]]; [split; [left|done]|split; [by right|done]].
      * lia.
      * intros t' [->|Hin]%elem_of_cons Hw; [lia|by apply H3].
    + split; [|split].
      * destruct H1 as [->|[? ?]]; [by left|right; split; [by right|done]].
      * lia.
      * intros t' [->|Hin]%elem_of_cons Hw; [lia|by apply H3].
  - destruct (IH o Ho) as (H1 & H2 & H3). set (r := window_oldest_loop ring now w o) in *.
    split; [|split].
    + destruct H1 as [->|[? ?]]; [by left|right; split; [by right|done]].
    + done.
    + intros t' [->|Hin]%elem_of_cons Hw; [congruence|by apply H3].
Qed.

Lemma window_oldest_spec ring now w :
  Forall (fun t => 0 <= t) ring -> (0 < count ring now w)%nat ->
  let r := ngx_autocert_rt_window_oldest ring now w in
  r ∈ ring /\ in_window now w r = true
  /\ forall t, t ∈ ring -> in_window now w t = true -> r <= t.
Proof.
  intros Hp Hc. destruct (window_oldest_loop_spec ring now w 0 Hp ltac:(lia)) as (H1 & _ & H3).
  fold (ngx_autocert_rt_window_oldest ring now w) in *.
  assert (Hex : exists t, t ∈ ring /\ in_window now w t = true).
  { clear -Hc. induction ring as [|t ring IH]; simpl in Hc; [lia|].
    destruct (in_window now w t) eqn:E; [exists t; split; [left|done]|].
    destruct (IH Hc) as (t' & ? & ?). exists t'. split; [by right|done]. }
  destruct Hex as (t & Ht & Hw). destruct (H3 t Ht Hw) as [Hnz _].
  destruct H1 as [?|[? ?]]; [done|]. split; [done|]. split; [done|]. intros t' Ht' Hw'. by apply H3.
Qed.

(** A capped host is deferred for as long as needed and no longer: the cap
    stays reached until the oldest counted stamp leaves the window, at which
    moment (one second before the hold the driver sets expires) it is below the
    cap again. *)
Theorem rt_hold_exact (ring : list Z) (n : nat) (now now' w : Z) :
  length ring = n -> Forall (fun t => 0 <= t) ring -> (0 < n)%nat ->
  count ring now w = n -> now <= now' ->
  (count ring now' w < n)%nat <-> ngx_autocert_rt_window_oldest ring now w + w <= now'.
Proof.
  intros Hl Hp Hn Hc Hnow.
  destruct (window_oldest_spec ring now w Hp ltac:(lia)) as (Hin & Hw & Hmin).
  set (r := ngx_autocert_rt_window_oldest ring now w) in *. clearbody r. split.
  - intros Hlt. destruct (count_lt_length ring now' w) as (t & Ht & Hout); [lia|].
    assert (Htw : in_window now w t = true).
    { destruct (in_window now w t) eqn:E; [done|]. exfalso.
      apply list_elem_of_split in Ht as (l1 & l2 & ->).
      rewrite count_app in Hc. simpl in Hc. rewrite E in Hc.
      pose proof (count_length l1 now w). pose proof (count_length l2 now w).
      rewrite length_app in Hl. simpl in Hl. lia. }
    specialize (Hmin t Ht Htw). apply in_window_iff in Htw.
    unfold in_window in Hout. reflect_bools. lia.
  - intros Hlate. apply list_elem_of_split in Hin as (l1 & l2 & ->).
    rewrite count_app. simpl. destruct (in_window now' w r) eqn:E; [apply in_window_iff in E; lia|].
    pose proof (count_length l1 now' w). pose proof (count_length l2 now' w).
    rewrite length_app in Hl. simpl in Hl. lia.
Qed.

Lemma rt_hold_exact_witness :
  (count [100; 130]%Z 3701 3600 < 2)%nat <-> ngx_autocert_rt_window_oldest [100; 130] 200 3600 + 3600 <= 3701.
Proof.
  apply (rt_hold_exact [100; 130] 2 200 3701 3600); [done|by repeat constructor|lia|done|lia].
Defined.

(** ** The failure table *)

Lemma fail_match_iff host e : fail_match host e = true <-> f_host e = host.
Proof.
  unfold fail_match. destruct (Nat.eqb_spec (length (f_host e)) (length host)) as [Hl|Hl]; simpl.
  - destruct (memcmp_exact (f_host e) host Hl) as (r & -> & <-). apply Z.eqb_eq.
  - split; [done|]. by intros <-.
Qed.

Lemma fail_match_false host e : fail_match host e = false <-> f_host e <> host.
Proof. rewrite <- fail_match_iff. by destruct (fail_match host e). Qed.

Lemma fail_find_loop_Some t host k i :
  fail_find_loop t host k = Some i ->
  (k <= i)%nat /\ exists e, t !! (i - k)%nat = Some e /\ f_host e = host.
Proof.
  revert k. induction t as [|e t IH]; intros k; simpl; [done|].
  destruct (fail_match host e) eqn:E.
  - intros [= <-]. apply fail_match_iff in E. rewrite Nat.sub_diag. split; [done|]. by exists e.
  - intros (Hk & e' & He & Hh)%IH. split; [lia|]. exists e'. split; [|done].
    by replace (i - k)%nat with (S (i - S k)) by lia.
Qed.

(** Overwriting a slot other than this host's, with another host, does not move
    this one. *)
Lemma fail_find_loop_insert t host k j i e' :
  fail_find_loop t host k = Some (k + j)%nat -> i <> j -> f_host e' <> host ->
  fail_find_loop (<[i:=e']> t) host k = Some (k + j)%nat.
Proof.
  intros Hf Hij He'. revert k i j Hf Hij. induction t as [|x t IH]; intros k [|i] [|j] Hf Hij; [done..| | |]; simpl in *.
  - apply fail_match_false in He'. rewrite He'. destruct (fail_match host x); [|done].
    injection Hf as Hf. lia.
  - destruct (fail_match host x); [done|]. apply fail_find_loop_Some in Hf as [? _]. lia.
  - destruct (fail_match host x); [done|]. rewrite <- Nat.add_succ_comm in *. apply IH; [done|lia].
Qed.

(** The slot chosen is free or holds no failure in the window. *)
Lemma fail_slot_loop_Some t now k o i :
  fail_slot_loop t now k o = Some i ->
  o = Some i \/ exists e, (k <= i)%nat /\ t !! (i - k)%nat = Some e
                         /\ (f_host e = [] \/ fail_count e now = 0%nat).
Proof.
  revert k o. induction t as [|e t IH]; intros k o; simpl; [by left|].
  assert (Hstep : forall o', (o' = Some i \/ exists e0, (S k <= i)%nat /\ t !! (i - S k)%nat = Some e0
                         /\ (f_host e0 = [] \/ fail_count e0 now = 0%nat)) ->
     o' = Some i \/ exists e0, (k <= i)%nat /\ (e :: t) !! (i - k)%nat = Some e0
                         /\ (f_host e0 = [] \/ fail_count e0 now = 0%nat)).
  { intros o' [->|(e0 & Hk & He & Hc)]; [by left|]. right. exists e0. split; [lia|].
    by replace (i - k)%nat with (S (i - S k)) by lia. }
  destruct (length (f_host e) =? 0)%nat eqn:El.
  - intros [= <-]. right. exists e. rewrite Nat.sub_diag. split; [done|]. split; [done|]. left.
    apply Nat.eqb_eq in El. by apply length_zero_iff_nil.
  - intros H%IH%Hstep. destruct o as [j|]; [done|].
    destruct H as [H|H]; [|by right]. destruct (fail_count e now =? 0)%nat eqn:Ec; [|done].
    injection H as <-. right. exists e. rewrite Nat.sub_diag. split; [done|]. split; [done|].
    right. by apply Nat.eqb_eq.
Qed.

(** A host at its failure cap cannot be pushed out of the table: recording
    any other host's failure, at a time when this one is still capped, leaves
    its entry and hence its verdict at every later time as they were. *)
Theorem rt_fail_no_evict (s : rt_state) (host host' : bytes) (t now : Z) :
  ngx_autocert_rt_fail_at_cap s host t = true -> host' <> host ->
  ngx_autocert_rt_fail_at_cap (ngx_autocert_rt_fail_record s host' t) host now
  = ngx_autocert_rt_fail_at_cap s host now.
Proof.
  intros Hcap Hne. unfold ngx_autocert_rt_fail_record.
  destruct (_ || _) eqn:Elen; [done|].
  unfold ngx_autocert_rt_fail_at_cap, ngx_autocert_rt_fail_find in *. rewrite Elen.
  destruct ((length host =? 0)%nat || _) eqn:Eh; [done|].
  destruct (fail_find_loop (fail_table s) host 0) as [j|] eqn:Ej; [|done].
  destruct (fail_table s !! j) as [ej|] eqn:Hj; [|done]. apply Nat.leb_le in Hcap.
  pose proof (fail_find_loop_Some _ _ _ _ Ej) as (_ & ej' & Hj' & Hhost). rewrite Nat.sub_0_r in Hj'.
  assert (Hset : forall i e', i <> j -> f_host e' <> host ->
    match fail_find_loop (fail_table (set_fail s i e')) host 0 with
    | Some i0 => match fail_table (set_fail s i e') !! i0 with
                 | Some e => (NGX_AUTOCERT_RT_FAIL_MAX <=? fail_count e now)%nat
                 | None => false end
    | None => false end = (NGX_AUTOCERT_RT_FAIL_MAX <=? fail_count ej now)%nat).
  { intros i e' Hij He'. cbn [fail_table set_fail].
    rewrite (fail_find_loop_insert _ _ _ j _ _ Ej Hij He'). cbn [Nat.add].
    by rewrite list_lookup_insert_ne, Hj. }
  destruct (fail_find_loop (fail_table s) host' 0) as [i|] eqn:Ef.
  - apply fail_find_loop_Some in Ef as (_ & e & Hi & He). rewrite Nat.sub_0_r in Hi. rewrite Hi.
    apply Hset; [congruence|]. unfold fail_push, ngx_autocert_rt_ring_push. cbn [f_host]. congruence.
  - destruct (fail_slot_loop (fail_table s) t 0 None) as [i|] eqn:Es; [|by rewrite Ej, Hj].
    apply fail_slot_loop_Some in Es as [?|(e & _ & Hi & Hc)]; [done|]. rewrite Nat.sub_0_r in Hi.
    apply Hset; [|done]. intros ->. replace ej' with e in * by congruence.
    replace ej with e in * by congruence. destruct Hc as [Hc|Hc].
    + rewrite Hc in Hhost. by subst host.
    + rewrite Hc in Hcap. unfold NGX_AUTOCERT_RT_FAIL_MAX in Hcap. lia.
Qed.

Lemma rt_fail_no_evict_witness :
  let s := fold_left (fun s t => ngx_autocert_rt_fail_record s [97] t) [10; 11; 12; 13; 14] rt_state0 in
  ngx_autocert_rt_fail_at_cap (ngx_autocert_rt_fail_record s [98] 15) [97] 3600
  = ngx_autocert_rt_fail_at_cap s [97] 3600.
Proof. intros s. exact (rt_fail_no_evict s [97] [98] 15 3600 ltac:(vm_compute; reflexivity) ltac:(done)). Defined.

(** ** Wildcards *)

(** What a configured name covers: itself up to ASCII case, or, for a wildcard,
    one non-empty label in front of its suffix. *)
Definition covers (name host : bytes) : Prop :=
  lower <$> name = lower <$> host
  \/ exists suffix label rest,
       name = 42 :: 46 :: suffix /\ suffix <> [] /\ host = label ++ 46 :: rest
       /\ label <> [] /\ 46 ∉ label /\ lower <$> rest = lower <$> suffix.

(** [len == len && strncasecmp == 0]: equality up to ASCII case. *)
Lemma casecmp_guarded a b :
  Forall (fun c => 0 < c) a ->
  exists r, (if (length a =? length b)%nat then ngx_strncasecmp a b (length b) else Some 1) = Some r
            /\ (r = 0 <-> lower <$> a = lower <$> b).
Proof.
  intros Ha. destruct (Nat.eqb_spec (length a) (length b)) as [Hl|Hl].
  - destruct (strncasecmp_exact a b (length b)) as (r & Hr & H0); [lia|done| |].
    { by apply Forall_take. }
    exists r. rewrite (take_ge a), (take_ge b) in H0 by lia. done.
  - exists 1. split; [done|]. split; [done|]. intros H. apply (f_equal length) in H.
    by rewrite !length_fmap in H.
Qed.

(** A host covered by a wildcard splits at its first dot. *)
Lemma covers_wildcard suffix host label rest :
  suffix <> [] -> host = label ++ 46 :: rest -> label <> [] -> 46 ∉ label ->
  lower <$> (42 :: 46 :: suffix) <> lower <$> host ->
  covers (42 :: 46 :: suffix) host <-> lower <$> rest = lower <$> suffix.
Proof.
  intros Hs -> Hl Hd Hne. unfold covers. split.
  - intros [?|(s' & l' & r' & [= <-] & _ & He & _ & Hd' & Hr)]; [done|].
    assert (l' = label /\ r' = rest) as [-> ->]; [|done].
    assert (H1 : ngx_strlchr (label ++ 46 :: rest) 46 = Some (length label))
      by (apply strlchr_Some; by exists label, rest).
    assert (H2 : ngx_strlchr (label ++ 46 :: rest) 46 = Some (length l'))
      by (rewrite He; apply strlchr_Some; by exists l', r').
    rewrite H1 in H2. injection H2 as H2. apply app_inj_1 in He as [? [= ?]]; done.
  - intros Hr. right. by exists suffix, label, rest.
Qed.

Lemma name_covers_total (name host : bytes) : exists b, ngx_autocert_name_covers name host = Some b.
Proof.
  unfold ngx_autocert_name_covers.
  assert (Hr : exists r, (if (length name =? length host)%nat then ngx_strncasecmp name host (length host) else Some 1) = Some r).
  { destruct (Nat.eqb_spec (length name) (length host)); [apply strncasecmp_total; lia|by eexists]. }
  destruct Hr as [r ->]. destruct (r =? 0); [by eexists|].
  destruct (Nat.leb_spec (length name) 2); [by eexists|].
  destruct name as [|c0 [|c1 suffix]]; simpl in *; [lia..|]. destruct (_ || _); [by eexists|].
  destruct (ngx_strlchr host 46) as [[|d]|]; [by eexists| |by eexists].
  rewrite ?drop_0, ?Nat.sub_0_r. set (n := (length host - (S d + 1))%nat).
  destruct (Nat.eqb_spec n (length suffix)) as [El|El]; cbn [negb]; [|by eexists].
  destruct (strncasecmp_total (drop (S d + 1) host) suffix n) as [r' ->]; [rewrite length_drop; lia|lia|]. by eexists.
Qed.

(** The wildcard test is exact: it never reads past either name, and it
    answers yes for precisely the hosts covered: the same name in any case, or
    exactly one more label than the wildcard's suffix. *)
Theorem name_covers_iff (name host : bytes) :
  Forall (fun c => 0 < c) name -> Forall (fun c => 0 < c) host ->
  exists b, ngx_autocert_name_covers name host = Some b /\ (b = true <-> covers name host).
Proof.
  intros Hn Hh. unfold ngx_autocert_name_covers.
  destruct (casecmp_guarded name host Hn) as (r & -> & Hr).
  destruct (Z.eqb_spec r 0) as [->|Hr0].
  { exists true. split; [done|]. split; [|done]. intros _. left. by apply Hr. }
  assert (Hne : lower <$> name <> lower <$> host) by (intros ?; by apply Hr0, Hr).
  destruct (Nat.leb_spec (length name) 2) as [Hlen|Hlen].
  { exists false. split; [done|]. split; [done|]. intros [?|(s & ? & ? & -> & Hs & _)]; [done|].
    destruct s; simpl in Hlen; [done|lia]. }
  destruct name as [|c0 [|c1 suffix]]; simpl in Hlen; [lia..|]. cbn [lookup list_lookup].
  destruct (negb (c0 =? 42) || negb (c1 =? 46)) eqn:E.
  { exists false. split; [done|]. split; [done|]. intros [?|(s & ? & ? & [= -> ->] & _)]; done. }
  reflect_bools. subst c0 c1. assert (Hs : suffix <> []) by (destruct suffix; [simpl in Hlen; lia|done]).
  cbn [drop]. destruct (ngx_strlchr host 46) as [d|] eqn:Ed.
  2: { exists false. split; [done|]. split; [done|].
       intros [?|(s & l & rest & _ & _ & -> & _ & Hd & _)]; [done|].
       rewrite (proj2 (strlchr_Some _ _ (length l))) in Ed by (by exists l, rest). done. }
  apply strlchr_Some in Ed as (label & rest & -> & <- & Hd).
  destruct label as [|x label]; [|cbn [length]].
  { exists false. split; [done|]. split; [done|].
    intros [?|(s & l & rest' & _ & _ & He & Hl & Hd' & _)]; [done|]. destruct l; [done|].
    injection He as <- _. exfalso. apply Hd'. left. }
  pose proof (covers_wildcard suffix _ (x :: label) rest Hs eq_refl ltac:(done) Hd Hne) as Hc.
  assert (Hrest : drop (S (length label) + 1) ((x :: label) ++ 46 :: rest) = rest).
  { replace (S (length label) + 1)%nat with (length ((x :: label) ++ [46])) by (rewrite length_app; simpl; lia).
    change ((x :: label) ++ 46 :: rest) with ((x :: label) ++ [46] ++ rest).
    rewrite app_assoc. apply drop_app_length. }
  rewrite Hrest. rewrite length_app. cbn [length].
  replace (S (length label) + S (length rest) - (S (length label) + 1))%nat with (length rest) by lia.
  replace (S (S (length suffix)) - 2)%nat with (length suffix) by lia.
  apply Forall_app in Hh as [_ Hh]. apply Forall_cons in Hh as [_ Hh].
  destruct (casecmp_guarded rest suffix Hh) as (r2 & Hr2 & H2). revert Hr2.
  destruct (Nat.eqb_spec (length rest) (length suffix)) as [Hl2|Hl2]; intros Hr2; simpl negb; cbv iota.
  - rewrite drop_0, Hl2, Hr2. exists (r2 =? 0). split; [done|]. by rewrite Hc, Z.eqb_eq.
  - exists false. split; [done|]. split; [done|]. injection Hr2 as <-. rewrite Hc, <- H2. done.
Qed.

Lemma name_covers_iff_witness :
  (exists b, ngx_autocert_name_covers (str "*.Example.com") (str "foo.example.com") = Some b
            /\ (b = true <-> covers (str "*.Example.com") (str "foo.example.com")))
  /\ ngx_autocert_name_covers (str "*.example.com") (str "a.b.example.com") = Some false.
Proof.
  split; [|reflexivity].
  apply (name_covers_iff (str "*.Example.com") (str "foo.example.com")); by repeat constructor.
Defined.
