(* ===== verification/Loadcap.v ===== *)
(** * The handshake load budget (src/src/ngx_autocert_loadcap.h), and the timeout
    clamp (src/src/ngx_autocert_timeconv.h)

    A fixed window of [limit] units per second, a quarter of it kept for names
    the cap turned away before.  Units are [ngx_uint_t]: sums and differences
    are taken modulo 2^64. *)

From S2P Require Import Prelude.

Local Open Scope Z_scope.

(** ** Definitions *)

Record loadcap := Loadcap { second : Z; spent : Z; spent_res : Z }.

Definition ngx_autocert_loadcap_reserve (limit : Z) : Z :=
  if limit <? 2 then 0 else if negb (limit / 4 =? 0) then limit / 4 else 1.

Definition ngx_autocert_loadcap_admit_retry_n (cap : loadcap) (now limit n : Z) (retry : bool)
    : loadcap * bool :=
  if limit =? 0 then (cap, true)
  else if n =? 0 then (cap, true)
  else
    let cap := if negb (second cap =? now) then Loadcap now 0 0 else cap in
    let reserve := ngx_autocert_loadcap_reserve limit in
    let general := u64 (limit - reserve) in
    if general <? n then
      if negb (spent cap =? 0) || negb (spent_res cap =? 0) then (cap, false)
      else (Loadcap (second cap) general reserve, true)
    else if (n <=? general) && (spent cap <=? u64 (general - n)) then
      (Loadcap (second cap) (u64 (spent cap + n)) (spent_res cap), true)
    else if negb retry then (cap, false)
    else
      let left := u64 (reserve - spent_res cap) in
      if left <? n then (cap, false)
      else (Loadcap (second cap) (spent cap) (u64 (spent_res cap + n)), true).

Definition ngx_autocert_loadcap_admit_n (cap : loadcap) (now limit n : Z) : loadcap * bool :=
  ngx_autocert_loadcap_admit_retry_n cap now limit n false.

Definition ngx_autocert_loadcap_admit (cap : loadcap) (now limit : Z) : loadcap * bool :=
  ngx_autocert_loadcap_admit_retry_n cap now limit 1 false.

(** The worker's counter at startup. *)
Definition loadcap0 : loadcap := Loadcap 0 0 0.

Definition NGX_AUTOCERT_TIMECONV_CAP_SEC : Z := 3600.

Definition ngx_autocert_sec_to_msec_clamped (sec : Z) : Z :=
  if sec <? 0 then 0
  else if NGX_AUTOCERT_TIMECONV_CAP_SEC <? sec then u64 (NGX_AUTOCERT_TIMECONV_CAP_SEC * 1000)
  else u64 (sec * 1000).

(** ** The split *)

Lemma u64_id z : 0 <= z < 2 ^ 64 -> u64 z = z.
Proof. apply Z.mod_small. Qed.

Lemma reserve_range limit :
  0 < limit -> 0 <= ngx_autocert_loadcap_reserve limit < limit.
Proof.
  intros Hl. unfold ngx_autocert_loadcap_reserve. destruct (Z.ltb_spec limit 2); [lia|].
  destruct (Z.eqb_spec (limit / 4) 0); simpl; [lia|]. zdiv.
Qed.

Section Limit.
(** The configured limit (autocert_handshake_load_limit), one for the worker. *)
Context (limit : Z) (Hlimit : 0 < limit < 2 ^ 64).

Abbreviation reserve := (ngx_autocert_loadcap_reserve limit).
Abbreviation general := (limit - reserve).
Abbreviation admits cap now n retry := (ngx_autocert_loadcap_admit_retry_n cap now limit n retry).

Definition cap_ok (c : loadcap) : Prop :=
  0 <= spent c <= general /\ 0 <= spent_res c <= reserve.

(** The counters once the window has been rolled to [now]. *)
Definition rolled (c : loadcap) (now : Z) : loadcap :=
  if second c =? now then c else Loadcap now 0 0.

Lemma rolled_ok c now : cap_ok c -> cap_ok (rolled c now) /\ second (rolled c now) = now.
Proof.
  intros Hc. unfold rolled. destruct (Z.eqb_spec (second c) now); [done|].
  pose proof (reserve_range limit ltac:(lia)). unfold cap_ok. simpl. lia.
Qed.

(** One call without the wrap-arounds: what is charged, and when. *)
Definition admitted (c : loadcap) (n : Z) (retry : bool) : option loadcap :=
  if general <? n then
    if (spent c =? 0) && (spent_res c =? 0) then Some (Loadcap (second c) general reserve) else None
  else if spent c + n <=? general then Some (Loadcap (second c) (spent c + n) (spent_res c))
  else if retry && (spent_res c + n <=? reserve) then
    Some (Loadcap (second c) (spent c) (spent_res c + n))
  else None.

Lemma admit_spec c now n retry :
  cap_ok c -> 0 < n < 2 ^ 64 ->
  admits c now n retry =
    match admitted (rolled c now) n retry with
    | Some c' => (c', true)
    | None => (rolled c now, false)
    end.
Proof.
  intros Hc Hn. pose proof (reserve_range limit ltac:(lia)) as Hr.
  destruct (rolled_ok c now Hc) as [Hok Hs]. unfold ngx_autocert_loadcap_admit_retry_n.
  destruct (Z.eqb_spec limit 0); [lia|]. destruct (Z.eqb_spec n 0); [lia|].
  assert (E : (if negb (second c =? now) then Loadcap now 0 0 else c) = rolled c now).
  { unfold rolled. by destruct (second c =? now). }
  rewrite E. destruct (rolled c now) as [t sp sr]. unfold cap_ok, admitted in *. simpl in *. subst t.
  rewrite (u64_id (limit - reserve)) by lia.
  destruct (Z.ltb_spec general n).
  { by destruct (Z.eqb_spec sp 0), (Z.eqb_spec sr 0). }
  rewrite (u64_id (limit - reserve - n)) by lia. rewrite (u64_id (reserve - sr)) by lia.
  destruct (Z.leb_spec n general); [|lia]. simpl.
  destruct (Z.leb_spec sp (general - n)), (Z.leb_spec (sp + n) general); try lia.
  { by rewrite u64_id by lia. }
  destruct retry; simpl; [|done].
  destruct (Z.ltb_spec (reserve - sr) n), (Z.leb_spec (sr + n) reserve); try lia; [done|].
  by rewrite u64_id by lia.
Qed.

Lemma admitted_ok c n retry c' :
  cap_ok c -> 0 < n -> admitted c n retry = Some c' ->
  cap_ok c' /\ second c' = second c
  /\ (n <= general -> spent c' + spent_res c' = spent c + spent_res c + n)
  /\ (general < n -> spent c + spent_res c = 0 /\ spent c' + spent_res c' = limit).
Proof.
  intros Hc Hn. pose proof (reserve_range limit ltac:(lia)). unfold admitted, cap_ok in *.
  intros H0. repeat case_match; simplify_eq; reflect_bools; simpl; lia.
Qed.

Lemma admit_ok c now n retry :
  cap_ok c -> 0 < n < 2 ^ 64 -> cap_ok (admits c now n retry).1.
Proof.
  intros Hc Hn. rewrite admit_spec by done. destruct (rolled_ok c now Hc) as [Hr _].
  destruct (admitted (rolled c now) n retry) eqn:E; [|done]. apply admitted_ok in E; [tauto|done|lia].
Qed.

(** ** A run of requests *)

(** A request: when, how many loads, and whether it was turned away before. *)
Definition request : Type := Z * Z * bool.

Definition serve1 (st : loadcap * list (Z * Z)) (r : request) : loadcap * list (Z * Z) :=
  let '(cap, log) := st in
  let '(now, n, retry) := r in
  let '(cap', ok) := admits cap now n retry in
  (cap', if ok : bool then (now, n) :: log else log).

(** The loads performed during second [t]. *)
Definition loads_at (t : Z) (log : list (Z * Z)) : Z :=
  foldr (fun e acc => (if e.1 =? t then e.2 else 0) + acc) 0 log.

Fixpoint requests_in_order (t nmax : Z) (rs : list request) : Prop :=
  match rs with
  | [] => True
  | (now, n, _) :: rest => t <= now /\ 0 < n <= nmax /\ requests_in_order now nmax rest
  end.

(** What the counters know about the loads already performed in second [t]. *)
Definition run_inv (nmax t : Z) (now : Z) (st : loadcap * list (Z * Z)) : Prop :=
  cap_ok st.1 /\ second st.1 <= now
  /\ 0 <= loads_at t st.2
  /\ (second st.1 < t -> loads_at t st.2 = 0)
  /\ (second st.1 = t ->
        loads_at t st.2 <= spent st.1 + spent_res st.1
        \/ (spent st.1 + spent_res st.1 = limit /\ loads_at t st.2 <= Z.max limit nmax))
  /\ loads_at t st.2 <= Z.max limit nmax.

Lemma run_inv_step nmax t now0 st now n retry :
  now0 <= now -> 0 < n <= nmax -> nmax < 2 ^ 64 ->
  run_inv nmax t now0 st -> run_inv nmax t now (serve1 st (now, n, retry)).
Proof.
  intros Hnow Hn Hmax (Hok & Hsec & H0 & Hlt & Heq & Hb). destruct st as [cap log].
  cbn [fst snd] in *. unfold serve1. rewrite admit_spec by (done || lia).
  destruct (rolled_ok cap now Hok) as [Hrok Hrs].
  assert (Hroll : second cap < now /\ spent (rolled cap now) = 0 /\ spent_res (rolled cap now) = 0
                  \/ rolled cap now = cap).
  { unfold rolled. destruct (Z.eqb_spec (second cap) now); [by right|]. left. simpl. lia. }
  pose proof (reserve_range limit ltac:(lia)) as Hres. unfold cap_ok in Hrok.
  destruct (admitted (rolled cap now) n retry) as [c'|] eqn:E; unfold run_inv; cbn [fst snd].
  - destruct (admitted_ok (rolled cap now) n retry c' Hrok ltac:(lia) E) as (Hok' & Hsec' & Hsmall & Hbig).
    unfold cap_ok in Hok'. split; [done|]. rewrite Hsec', Hrs. split; [lia|]. cbn [loads_at foldr fst snd].
    fold (loads_at t log). destruct (Z.eqb_spec now t) as [->|Hne].
    + assert (Hw : n <= general \/ general < n) by lia.
      destruct Hroll as [(? & ? & ?)|Hroll].
      * rewrite (Hlt ltac:(lia)). destruct Hw as [Hw|Hw]; [specialize (Hsmall Hw)|specialize (Hbig Hw)]; lia.
      * rewrite Hroll in *. specialize (Heq Hrs).
        destruct Hw as [Hw|Hw]; [specialize (Hsmall Hw)|specialize (Hbig Hw)]; lia.
    + split; [lia|]. split; [intros; rewrite Hlt by lia; lia|]. lia.
  - split; [done|]. rewrite Hrs. split; [lia|]. split; [done|]. split; [intros; apply Hlt; lia|].
    split; [|done]. intros ->. destruct Hroll as [(? & -> & ->)|Hroll].
    + left. rewrite Hlt by lia. lia.
    + rewrite Hroll in *. apply Heq. done.
Qed.

Lemma run_inv_run nmax t rs now st :
  nmax < 2 ^ 64 -> requests_in_order now nmax rs -> run_inv nmax t now st ->
  exists now', run_inv nmax t now' (fold_left serve1 rs st).
Proof.
  intros Hmax. revert now st. induction rs as [|[[now n] retry] rs IH]; intros now0 st Ho Hi; simpl.
  - by exists now0.
  - destruct Ho as (? & ? & Ho). eapply (IH now); [done|]. by eapply run_inv_step.
Qed.
End Limit.

(** ** Properties *)

(** The budget bounds disk work: over any sequence of handshakes, the loads
    performed in any one second number at most the limit (or one batch, when a
    single batch is larger than the limit). *)
Theorem loadcap_bounds_loads (limit nmax t : Z) (rs : list request) :
  0 < limit < 2 ^ 64 -> nmax < 2 ^ 64 -> requests_in_order 0 nmax rs ->
  loads_at t (fold_left (serve1 limit) rs (loadcap0, [])).2 <= Z.max limit nmax.
Proof.
  intros Hl Hm Ho. destruct (run_inv_run limit Hl nmax t rs 0 (loadcap0, [])) as (now' & Hi);
    [done|done| |apply Hi].
  pose proof (reserve_range limit ltac:(lia)). unfold run_inv, cap_ok. simpl. lia.
Qed.

Lemma loadcap_bounds_loads_witness :
  let rs := [(5, 1, false); (5, 2, false); (5, 2, true); (5, 2, false); (6, 2, true)] in
  loads_at 5 (fold_left (serve1 4) rs (loadcap0, [])).2 <= Z.max 4 2.
Proof. intros rs. apply (loadcap_bounds_loads 4 2 5 rs); simpl; lia. Defined.

(** First attempts leave the reserve alone. *)
Lemma first_attempts_spare_reserve limit rs c now log :
  0 < limit < 2 ^ 64 -> cap_ok limit c -> spent_res (rolled c now) = 0 ->
  Forall (fun r => r.1.1 = now /\ r.2 = false
                   /\ 0 < r.1.2 <= limit - ngx_autocert_loadcap_reserve limit) rs ->
  let c' := (fold_left (serve1 limit) rs (c, log)).1 in
  cap_ok limit c' /\ spent_res (rolled c' now) = 0.
Proof.
  intros Hl. revert c log. induction rs as [|[[now' n] retry] rs IH]; intros c log Hc H0 Hrs; simpl; [done|].
  apply Forall_cons in Hrs as [(Hnow & Hretry & Hn) Hrs]. simpl in *. subst now' retry.
  pose proof (reserve_range limit ltac:(lia)).
  pose proof (admit_ok limit Hl c now n false Hc ltac:(lia)) as Hok.
  rewrite (admit_spec limit Hl c now n false) in * by (done || lia).
  destruct (rolled_ok limit Hl c now Hc) as [_ Hs].
  destruct (admitted limit (rolled c now) n false) as [c'|] eqn:E; apply IH; try done.
  - unfold admitted in E. destruct (Z.ltb_spec (limit - ngx_autocert_loadcap_reserve limit) n); [lia|].
    destruct (_ <=? _); [|done]. injection E as <-. unfold rolled at 1. simpl. rewrite Hs.
    by rewrite Z.eqb_refl.
  - unfold rolled at 1. by rewrite Hs, Z.eqb_refl.
Qed.

(** A flood of first attempts cannot starve a name that was turned away:
    however many of them a second brings, a retry whose batch fits the reserve
    is still admitted in that second. *)
Theorem loadcap_retry_not_starved (limit now n : Z) (c : loadcap) (rs : list request) (log : list (Z * Z)) :
  0 < limit < 2 ^ 64 -> cap_ok limit c -> second c <> now ->
  Forall (fun r => r.1.1 = now /\ r.2 = false
                   /\ 0 < r.1.2 <= limit - ngx_autocert_loadcap_reserve limit) rs ->
  0 < n <= ngx_autocert_loadcap_reserve limit ->
  (ngx_autocert_loadcap_admit_retry_n (fold_left (serve1 limit) rs (c, log)).1 now limit n true).2 = true.
Proof.
  intros Hl Hc Hsec Hrs Hn. pose proof (reserve_range limit ltac:(lia)) as Hres.
  assert (H0 : spent_res (rolled c now) = 0) by (unfold rolled; by rewrite (proj2 (Z.eqb_neq _ _) Hsec)).
  destruct (first_attempts_spare_reserve limit rs c now log Hl Hc H0 Hrs) as [Hok Hr].
  set (c' := (fold_left _ _ _).1) in *. rewrite admit_spec by (done || lia).
  destruct (rolled_ok limit Hl c' now Hok) as [Hrok _]. unfold cap_ok in Hrok.
  unfold admitted. assert (ngx_autocert_loadcap_reserve limit <= limit - ngx_autocert_loadcap_reserve limit).
  { unfold ngx_autocert_loadcap_reserve in *. destruct (Z.ltb_spec limit 2); [lia|].
    destruct (Z.eqb_spec (limit / 4) 0); simpl in *; [lia|zdiv]. }
  repeat case_match; reflect_bools; try done; lia.
Qed.

Lemma loadcap_retry_not_starved_witness :
  (ngx_autocert_loadcap_admit_retry_n
     (fold_left (serve1 64) (replicate 100 (7, 2, false)) (loadcap0, [])).1 7 64 2 true).2 = true.
Proof.
  apply (loadcap_retry_not_starved 64 7 2 loadcap0 (replicate 100 (7, 2, false)) []).
  - lia.
  - vm_compute. repeat split; discriminate.
  - vm_compute. discriminate.
  - apply Forall_replicate. repeat split; vm_compute; congruence.
  - vm_compute. split; congruence.
Defined.

(** The cap never makes an idle worker refuse work: when nothing has been
    charged to the current second, any batch of any size is admitted, retry or
    not, and a limit of zero admits everything without touching the counters. *)
Theorem loadcap_idle_admits (limit now n : Z) (retry : bool) (c : loadcap) :
  0 <= limit < 2 ^ 64 -> 0 <= n < 2 ^ 64 ->
  second c <> now \/ (spent c = 0 /\ spent_res c = 0) ->
  let '(c', ok) := ngx_autocert_loadcap_admit_retry_n c now limit n retry in
  ok = true /\ (limit = 0 -> c' = c).
Proof.
  intros Hl Hn Hidle. unfold ngx_autocert_loadcap_admit_retry_n.
  destruct (Z.eqb_spec limit 0); [done|]. destruct (Z.eqb_spec n 0); [done|].
  pose proof (reserve_range limit ltac:(lia)). rewrite !u64_id by lia.
  assert (Hz : let c1 := if negb (second c =? now) then Loadcap now 0 0 else c in
               spent c1 = 0 /\ spent_res c1 = 0).
  { destruct (Z.eqb_spec (second c) now); simpl; [lia|done]. }
  destruct Hz as [-> ->]. destruct (Z.ltb_spec (limit - ngx_autocert_loadcap_reserve limit) n); simpl; [done|].
  rewrite u64_id by lia. destruct (_ && _) eqn:E; [done|]. reflect_bools. lia.
Qed.

Lemma loadcap_idle_admits_witness :
  let '(c', ok) := ngx_autocert_loadcap_admit_retry_n loadcap0 9 2 2 false in
  ok = true /\ (2 = 0 -> c' = loadcap0).
Proof. apply (loadcap_idle_admits 2 9 2 false loadcap0); [lia|lia|by left]. Defined.

(** A configured timeout converts to milliseconds without overflow: it is
    the product inside 0..3600 seconds, and the nearest end outside. *)
Theorem sec_to_msec_clamped_spec (sec : Z) :
  ngx_autocert_sec_to_msec_clamped sec = 1000 * Z.max 0 (Z.min 3600 sec).
Proof.
  unfold ngx_autocert_sec_to_msec_clamped, NGX_AUTOCERT_TIMECONV_CAP_SEC.
  destruct (Z.ltb_spec sec 0); [lia|]. destruct (Z.ltb_spec 3600 sec); rewrite u64_id; lia.
Qed.
