(* ===== verification/Ident.v ===== *)
(** * Identifiers and store segments (src/src/ngx_autocert_ident.h)

    Which names are accepted as DNS identifiers, and the directory a name's
    certificate is stored under.  The DNS check is shown to be the label-wise
    one, and the mapping to store segments to be injective and confined to one
    path component. *)

From S2P Require Import Prelude NgxCore.

Local Open Scope Z_scope.

(** ** DNS names *)

Definition is_ldh (c : Z) : bool :=
  ((97 <=? c) && (c <=? 122)) || ((65 <=? c) && (c <=? 90)) || ((48 <=? c) && (c <=? 57)) || (c =? 45).

(** The scan; [prev] is [p[-1]], read only once a character has been consumed,
    and the final test reads [end[-1]]. *)
Fixpoint dns_loop (l : bytes) (label_len : nat) (prev : Z) : bool :=
  match l with
  | [] => negb ((label_len =? 0)%nat || (prev =? 45))
  | c :: l' =>
      if c =? 46 then
        if (label_len =? 0)%nat then false
        else if prev =? 45 then false
        else dns_loop l' 0 c
      else if negb (is_ldh c) then false
      else if (c =? 45) && (label_len =? 0)%nat then false
      else if (63 <? S label_len)%nat then false
      else dns_loop l' (S label_len) c
  end.

(** The part of the name after a leading star label. *)
Definition strip_wildcard (name : bytes) : bytes :=
  match name with 42 :: 46 :: rest => rest | _ => name end.

Definition ngx_autocert_dns_name_valid (name : bytes) : bool :=
  let p := strip_wildcard name in
  if (length p =? 0)%nat || (253 <? length name)%nat then false
  else dns_loop p 0 0.

(** ** IP literals and segments *)

Definition INADDR_NONE : Z := 0xffffffff.
Definition AF_INET : Z := 2.
Definition AF_INET6 : Z := 10.

(** [NGX_AUTOCERT_WILDCARD_SEG] and [NGX_AUTOCERT_IP6_SEG]. *)
Definition NGX_AUTOCERT_WILDCARD_SEG : bytes := str "_wildcard_.".
Definition NGX_AUTOCERT_IP6_SEG : bytes := str "_ip6_".
Definition NGX_AUTOCERT_IP6_SEG_LEN : nat := (length NGX_AUTOCERT_IP6_SEG + 8 * 4 + 7)%nat.

(** One lower-case hexadecimal digit, and the four of "%04xd". *)
Definition hexdig (d : Z) : Z := if d <? 10 then 48 + d else 87 + d.
Definition sprintf_04xd (v : Z) : bytes :=
  [hexdig (Z.shiftr v 12 mod 16); hexdig (Z.shiftr v 8 mod 16);
   hexdig (Z.shiftr v 4 mod 16); hexdig (v mod 16)].

(** The groups of an address given as 16 bytes, joined by dashes; [i] counts the
    groups written. *)
Fixpoint ip6_groups (addr : bytes) (i : nat) : bytes :=
  match addr with
  | hi :: lo :: addr' =>
      (if (i =? 0)%nat then [] else [45])
      ++ sprintf_04xd (Z.lor (Z.shiftl hi 8) lo) ++ ip6_groups addr' (S i)
  | _ => []
  end.

Section Addresses.
(** nginx core's address parsers: [ngx_inet_addr] returns INADDR_NONE on a
    failure, [ngx_inet6_addr] the 16 bytes of the address. *)
Context (ngx_inet_addr : bytes -> Z) (ngx_inet6_addr : bytes -> option bytes).

Definition ngx_autocert_str_is_ip (name : bytes) : Z * option bytes :=
  let v4 := ngx_inet_addr name in
  if negb (v4 =? INADDR_NONE)
     || ((length name =? length (str "255.255.255.255"))%nat
         && match ngx_strncmp name (str "255.255.255.255") (length name) with
            | Some r => r =? 0
            | None => false
            end)
  then (AF_INET, None)
  else match ngx_inet6_addr name with
       | Some a => (AF_INET6, Some a)
       | None => (0, None)
       end.

(** The bytes written to [buf]; empty is the return value 0. *)
Definition ngx_autocert_fs_segment (cap : nat) (name : bytes) : bytes :=
  match name with
  | 42 :: 46 :: rest =>
      if (cap <? length NGX_AUTOCERT_WILDCARD_SEG + length rest)%nat then []
      else NGX_AUTOCERT_WILDCARD_SEG ++ rest
  | _ =>
      match ngx_autocert_str_is_ip name with
      | (fam, Some a) =>
          if (cap <? NGX_AUTOCERT_IP6_SEG_LEN)%nat then []
          else NGX_AUTOCERT_IP6_SEG ++ ip6_groups a 0
      | (_, None) => if (cap <? length name)%nat then [] else name
      end
  end.

(** [NGX_INET6_ADDRSTRLEN + 1], the size of [ipbuf]. *)
Definition sizeof_ipbuf : nat := 46.

(** OpenSSL's name checks on the leaf, as verdicts on the identifier. *)
Context (X509_check_ip_asc X509_check_host : bytes -> bool).

Definition ngx_autocert_cert_covers (id : bytes) : bool :=
  if negb ((ngx_autocert_str_is_ip id).1 =? 0) then
    if (sizeof_ipbuf <=? length id)%nat then false else X509_check_ip_asc id
  else X509_check_host id.
End Addresses.

(** ** The DNS check, label by label *)

(** The labels of a name: the runs between dots. *)
Fixpoint split_dots (l : bytes) : list bytes :=
  match l with
  | [] => [[]]
  | c :: l' =>
      if c =? 46 then [] :: split_dots l'
      else match split_dots l' with
           | h :: t => (c :: h) :: t
           | [] => [[c]]
           end
  end.

Fixpoint join_dots (ls : list bytes) : bytes :=
  match ls with
  | [] => []
  | [l] => l
  | l :: ls' => l ++ 46 :: join_dots ls'
  end.

(** RFC 1035 and 1123: 1 to 63 letters, digits and hyphens, no hyphen at either end. *)
Definition label_ok (l : bytes) : Prop :=
  (0 < length l <= 63)%nat /\ Forall (fun c => is_ldh c = true) l
  /\ head l <> Some 45 /\ last l <> Some 45.

Lemma split_dots_nonempty l : split_dots l <> [].
Proof. destruct l as [|c l]; simpl; [done|]. destruct (c =? 46); [done|]. by destruct (split_dots l). Qed.

Lemma join_split l : join_dots (split_dots l) = l.
Proof.
  induction l as [|c l IH]; simpl; [done|]. pose proof (split_dots_nonempty l) as Hne.
  destruct (Z.eqb_spec c 46) as [->|_].
  - destruct (split_dots l) as [|h t] eqn:E; [done|]. simpl in *. by rewrite IH.
  - destruct (split_dots l) as [|h t] eqn:E; [done|]. destruct t; simpl in *; by rewrite IH.
Qed.

(** [cur] is the label being scanned. *)
Definition scanned (cur : bytes) (n : nat) (prev : Z) : Prop :=
  n = length cur /\ (length cur <= 63)%nat /\ Forall (fun c => is_ldh c = true) cur
  /\ head cur <> Some 45 /\ (cur <> [] -> last cur = Some prev).

Lemma scanned_label cur n prev :
  scanned cur n prev ->
  label_ok cur <-> (n =? 0)%nat = false /\ (prev =? 45) = false.
Proof.
  intros (-> & Hl & Hf & Hh & Hp). unfold label_ok. rewrite Nat.eqb_neq, Z.eqb_neq. split.
  - intros (? & _ & _ & Hlast). destruct cur; simpl in *; [lia|]. split; [lia|].
    intros ->. by rewrite Hp in Hlast.
  - intros [Hn Hpr]. destruct cur as [|x cur]; [done|]. split; [simpl in *; lia|].
    split; [done|]. split; [done|]. rewrite Hp by done. congruence.
Qed.

Lemma dns_loop_split l cur n prev :
  scanned cur n prev ->
  dns_loop l n prev = true <->
  exists h t, split_dots l = h :: t /\ label_ok (cur ++ h) /\ Forall label_ok t.
Proof.
  revert cur n prev. induction l as [|c l IH]; intros cur n prev Hs; simpl.
  - pose proof (scanned_label _ _ _ Hs) as Hlab. rewrite negb_true_iff, orb_false_iff, <- Hlab.
    split; [intros H; exists [], []; by rewrite app_nil_r|].
    intros (h & t & [= <- <-] & H & _). by rewrite app_nil_r in H.
  - destruct (Z.eqb_spec c 46) as [->|Hc].
    + pose proof (scanned_label _ _ _ Hs) as Hlab.
      assert (Hs0 : scanned [] 0 46) by (repeat split; simpl; try lia; try done; constructor).
      specialize (IH [] 0%nat 46 Hs0). 
      destruct (n =? 0)%nat eqn:E1, (prev =? 45) eqn:E2; cycle 3.
      { rewrite IH. split.
        - intros (h & t & -> & Hh & Ht). exists [], (h :: t). rewrite app_nil_r. split; [done|].
          split; [by apply Hlab|]. by constructor.
        - intros (h & t & [= <- Ht] & _ & Hf). destruct (split_dots l) as [|h' t'] eqn:E;
            [by apply split_dots_nonempty in E|]. subst t. apply Forall_cons in Hf as []. by exists h', t'. }
      all: split; [done|]; intros (h & t & [= <- _] & Hf & _); rewrite app_nil_r in Hf;
        apply Hlab in Hf as [? ?]; done.
    + destruct (split_dots l) as [|h t] eqn:Esp; [by apply split_dots_nonempty in Esp|].
      assert (Hbad : forall b, (label_ok (cur ++ c :: h) -> b = true) -> b = false ->
        false = true <-> exists h0 t0, (c :: h) :: t = h0 :: t0 /\ label_ok (cur ++ h0) /\ Forall label_ok t0).
      { intros b Hb ->. split; [done|]. intros (h0 & t0 & [= <- <-] & Hf & _). by apply Hb in Hf. }
      destruct Hs as (-> & Hlen & Hf & Hh & Hp).
      destruct (is_ldh c) eqn:El; simpl negb; cbv iota.
      2: { apply (Hbad false); [|done]. intros (_ & H & _). apply Forall_app in H as [_ H].
           apply Forall_cons in H as [H _]. congruence. }
      destruct ((c =? 45) && (length cur =? 0)%nat) eqn:Eh.
      { apply (Hbad false); [|done]. intros (_ & _ & H & _). reflect_bools. subst c.
        destruct cur; [by simpl in H|simpl in *; lia]. }
      destruct (Nat.ltb_spec 63 (S (length cur))) as [H63|H63].
      { apply (Hbad false); [|done]. intros (H & _). rewrite length_app in H. simpl in H. lia. }
      rewrite (IH (cur ++ [c])).
      * split; intros (h0 & t0 & [= <- <-] & H1 & H2).
        -- exists (c :: h), t. rewrite <- app_assoc in H1. done.
        -- exists h, t. rewrite <- app_assoc. done.
      * split; [rewrite length_app; simpl; lia|]. split; [rewrite length_app; simpl; lia|].
        split; [apply Forall_app; by repeat constructor|]. split.
        -- destruct cur as [|x cur]; simpl in *; [|done]. intros [= ->]. done.
        -- intros _. by rewrite last_snoc.
Qed.

(** A configured name is accepted exactly when, leaving aside one leading
    star label, its dot-separated labels are all well formed, and the whole name
    is at most 253 bytes long. *)
Theorem dns_name_valid_iff (name : bytes) :
  ngx_autocert_dns_name_valid name = true <->
  (length name <= 253)%nat /\ Forall label_ok (split_dots (strip_wildcard name)).
Proof.
  unfold ngx_autocert_dns_name_valid. set (p := strip_wildcard name).
  assert (Hs0 : scanned [] 0 0) by (repeat split; simpl; try lia; try done; constructor).
  pose proof (dns_loop_split p [] 0 0 Hs0) as Hl.
  destruct (Nat.eqb_spec (length p) 0) as [H0|H0]; simpl.
  { split; [done|]. intros [_ H]. destruct p; [|done]. apply Forall_cons in H as [[H _] _].
    simpl in H. lia. }
  destruct (Nat.ltb_spec 253 (length name)); [split; [done|lia]|]. rewrite Hl. split.
  - intros (h & t & -> & ? & ?). split; [lia|]. by constructor.
  - intros [_ H']. destruct (split_dots p) as [|h t] eqn:E; [by apply split_dots_nonempty in E|].
    apply Forall_cons in H' as []. by exists h, t.
Qed.

Lemma dns_name_valid_iff_witness :
  ngx_autocert_dns_name_valid (str "*.xn--bcher-kva.example") = true
  /\ ngx_autocert_dns_name_valid (str "a..b") = false.
Proof. split; reflexivity. Defined.

(** ** Store segments *)

Lemma hexdig_inj a b : 0 <= a < 16 -> 0 <= b < 16 -> hexdig a = hexdig b -> a = b.
Proof.
  intros Ha Hb. unfold hexdig. destruct (Z.ltb_spec a 10), (Z.ltb_spec b 10); lia.
Qed.

Lemma sprintf_04xd_inj v v' :
  0 <= v < 65536 -> 0 <= v' < 65536 -> sprintf_04xd v = sprintf_04xd v' -> v = v'.
Proof.
  intros Hv Hv' H. unfold sprintf_04xd in H. rewrite !Z.shiftr_div_pow2 in H by lia.
  change (2 ^ 12) with 4096 in H. change (2 ^ 8) with 256 in H. change (2 ^ 4) with 16 in H.
  injection H as H1 H2 H3 H4.
  apply hexdig_inj in H1, H2, H3, H4; try (apply Z.mod_pos_bound; lia). zdiv.
Qed.

Lemma group_value hi lo : is_byte hi -> is_byte lo ->
  Z.lor (Z.shiftl hi 8) lo = hi * 256 + lo /\ 0 <= hi * 256 + lo < 65536.
Proof.
  unfold is_byte. intros Hh Hl. rewrite Z.shiftl_mul_pow2 by lia. split; [|lia].
  apply lor_add_low; lia.
Qed.

Lemma ip6_groups_inj a a' i n :
  Forall is_byte a -> Forall is_byte a' -> length a = (2 * n)%nat -> length a' = (2 * n)%nat ->
  ip6_groups a i = ip6_groups a' i -> a = a'.
Proof.
  revert a a' i. induction n as [|n IH]; intros a a' i Ha Ha' Hl Hl' H.
  { destruct a, a'; simpl in *; (done || lia). }
  destruct a as [|hi [|lo a]]; simpl in Hl; [lia..|].
  destruct a' as [|hi' [|lo' a']]; simpl in Hl'; [lia..|].
  apply Forall_cons in Ha as [Hhi Ha]. apply Forall_cons in Ha as [Hlo Ha].
  apply Forall_cons in Ha' as [Hhi' Ha']. apply Forall_cons in Ha' as [Hlo' Ha'].
  cbn [ip6_groups] in H. apply app_inv_head in H.
  apply app_inj_1 in H as [H1 H2]; [|done].
  destruct (group_value hi lo Hhi Hlo) as [E ?], (group_value hi' lo' Hhi' Hlo') as [E' ?].
  rewrite E, E' in H1. apply sprintf_04xd_inj in H1; [|done|done].
  apply IH in H2; [|done|done|lia|lia]. unfold is_byte in *. subst a'. 
  assert (hi = hi' /\ lo = lo') as [-> ->] by lia. done.
Qed.

Definition segment_char (c : Z) : Prop := is_ldh c = true \/ c = 46 \/ c = 95.

Lemma hexdig_char d : 0 <= d < 16 -> segment_char (hexdig d).
Proof.
  intros Hd. left. unfold hexdig, is_ldh. rewrite !orb_true_iff, !andb_true_iff, !Z.leb_le, Z.eqb_eq.
  destruct (Z.ltb_spec d 10); lia.
Qed.

Lemma sprintf_04xd_chars v : Forall segment_char (sprintf_04xd v).
Proof. repeat (apply Forall_cons; split; [apply hexdig_char, Z.mod_pos_bound; lia|]). constructor. Qed.

Lemma ip6_groups_chars a i : Forall segment_char (ip6_groups a i).
Proof.
  revert i. induction a as [a IH] using (induction_ltof1 _ (@length Z)); intros i.
  destruct a as [|hi [|lo a]]; [constructor..|]. cbn [ip6_groups].
  apply Forall_app. split; [destruct (i =? 0)%nat; repeat constructor|].
  apply Forall_app. split; [apply sprintf_04xd_chars|]. apply IH. unfold ltof. simpl. lia.
Qed.

Section Segments.
Context (ngx_inet_addr : bytes -> Z) (ngx_inet6_addr : bytes -> option bytes).

(** The text forms the parsers accept: an IPv4 address is digits and three
    dots; an IPv6 address has a colon, and hexadecimal digits, colons and dots. *)
Definition inet_addr_text : Prop := forall s, ngx_inet_addr s <> INADDR_NONE ->
  Forall (fun c => is_digit c = true \/ c = 46) s /\ (3 <= length s)%nat.
Definition inet6_addr_text : Prop := forall s a, ngx_inet6_addr s = Some a ->
  58 ∈ s /\ 42 ∉ s /\ length a = 16%nat /\ Forall is_byte a.

Abbreviation fs_segment := (ngx_autocert_fs_segment ngx_inet_addr ngx_inet6_addr).
Abbreviation str_is_ip := (ngx_autocert_str_is_ip ngx_inet_addr ngx_inet6_addr).

(** What configuration accepts: a DNS name or an address literal. *)
Definition issuable (name : bytes) : Prop :=
  ngx_autocert_dns_name_valid name = true \/ (str_is_ip name).1 <> 0.

(** The three kinds of store segment. *)
Inductive segment (name : bytes) : bytes -> Prop :=
  | seg_wildcard rest :
      name = 42 :: 46 :: rest -> Forall (fun c => is_ldh c = true \/ c = 46) rest ->
      segment name (NGX_AUTOCERT_WILDCARD_SEG ++ rest)
  | seg_ip6 a :
      str_is_ip name = (AF_INET6, Some a) -> length a = 16%nat -> Forall is_byte a ->
      segment name (NGX_AUTOCERT_IP6_SEG ++ ip6_groups a 0)
  | seg_plain :
      Forall (fun c => is_ldh c = true \/ c = 46) name ->
      name <> [] -> name <> [46] -> name <> [46; 46] -> segment name name.

Lemma split_dots_chars (P : Z -> Prop) l :
  Forall (Forall P) (split_dots l) -> Forall (fun c => P c \/ c = 46) l.
Proof.
  induction l as [|c l IH]; intros H; [constructor|]. simpl in H.
  destruct (Z.eqb_spec c 46) as [->|Hc].
  - apply Forall_cons in H as [_ H]. constructor; [by right|by apply IH].
  - destruct (split_dots l) as [|h t] eqn:E; [by apply split_dots_nonempty in E|].
    apply Forall_cons in H as [H1 H2]. apply Forall_cons in H1 as [Hc1 H1].
    constructor; [by left|]. apply IH. by constructor.
Qed.

Lemma dns_valid_chars name :
  ngx_autocert_dns_name_valid name = true ->
  Forall (fun c => is_ldh c = true \/ c = 46) (strip_wildcard name)
  /\ strip_wildcard name <> [] /\ head (strip_wildcard name) <> Some 46.
Proof.
  intros H. unfold ngx_autocert_dns_name_valid in H. set (p := strip_wildcard name) in *.
  destruct (_ || _) eqn:E0; [done|]. apply orb_false_iff in E0 as [E0 _].
  assert (Hs0 : scanned [] 0 0) by (repeat split; simpl; try lia; try done; constructor).
  apply (dns_loop_split p [] 0 0 Hs0) in H as (h & t & E & Hh & Ht). cbn [app] in Hh.
  split; [|split].
  - apply split_dots_chars. rewrite E. constructor; [apply Hh|].
    eapply Forall_impl; [exact Ht|]. intros l Hl. apply Hl.
  - by destruct p.
  - destruct p as [|c p]; [done|]. intros [= ->]. simpl in E. injection E as <- _.
    destruct Hh as [[Hh _] _]. simpl in Hh. lia.
Qed.

Lemma ipv4_text name :
  inet_addr_text -> inet6_addr_text -> (str_is_ip name).2 = None -> (str_is_ip name).1 <> 0 ->
  Forall (fun c => is_digit c = true \/ c = 46) name /\ (3 <= length name)%nat.
Proof.
  intros H4 H6. unfold ngx_autocert_str_is_ip.
  destruct (_ || _) eqn:E; [|by destruct (ngx_inet6_addr name)]. intros _ _.
  apply orb_true_iff in E as [E|E]; [apply negb_true_iff, Z.eqb_neq in E; by apply H4|].
  apply andb_true_iff in E as [El Em]. apply Nat.eqb_eq in El.
  destruct (strncmp_exact name (str "255.255.255.255") El) as (r & Hr & H0);
    [by repeat constructor|].
  rewrite El, Hr in Em. apply Z.eqb_eq in Em. apply H0 in Em. subst name.
  split; [|simpl; lia]. repeat (constructor; [by (left + right)|]). constructor.
Qed.

Lemma digit_ldh c : is_digit c = true -> is_ldh c = true.
Proof. unfold is_digit, is_ldh. intros ->. by rewrite !orb_true_r. Qed.

Lemma star_cases {A} (name : bytes) :
  (exists rest, name = 42 :: 46 :: rest)
  \/ forall (f : bytes -> A) (g : A), match name with 42 :: 46 :: rest => f rest | _ => g end = g.
Proof.
  destruct name as [|x [|y rest]]; [by right|right|].
  { intros f g. repeat (case_match; try done). }
  destruct (decide (x = 42 /\ y = 46)) as [[-> ->]|Hn]; [left; by exists rest|right].
  intros f g. repeat (case_match; try done). by destruct Hn.
Qed.

Lemma fs_segment_kind cap name :
  inet_addr_text -> inet6_addr_text -> issuable name -> fs_segment cap name <> [] ->
  segment name (fs_segment cap name).
Proof.
  intros H4 H6 Hi Hne.
  assert (Hrest : (exists rest, name = 42 :: 46 :: rest) \/ strip_wildcard name = name
            /\ fs_segment cap name = match str_is_ip name with
                 | (fam, Some a) => if (cap <? NGX_AUTOCERT_IP6_SEG_LEN)%nat then []
                                    else NGX_AUTOCERT_IP6_SEG ++ ip6_groups a 0
                 | (_, None) => if (cap <? length name)%nat then [] else name end).
  { destruct (star_cases (A:=bytes) name) as [Hs|Hs]; [by left|right].
    split; [apply Hs|]. unfold ngx_autocert_fs_segment. rewrite Hs. done. }
  destruct Hrest as [[rest ->]|[Hstrip E]].
  - unfold ngx_autocert_fs_segment in *. destruct (_ <? _)%nat; [done|]. constructor; [done|].
    destruct Hi as [Hd|Hip]; [by apply dns_valid_chars in Hd as [? _]|]. exfalso.
    destruct (str_is_ip (42 :: 46 :: rest)) as [fam [a|]] eqn:Ef.
    + unfold ngx_autocert_str_is_ip in Ef. destruct (_ || _); [done|].
      destruct (ngx_inet6_addr _) eqn:E6; [|done]. apply H6 in E6 as (_ & H42 & _). apply H42. left.
    + destruct (ipv4_text _ H4 H6 ltac:(by rewrite Ef) ltac:(rewrite Ef; exact Hip)) as [Hip4 _].
      apply Forall_cons in Hip4 as [[H|H] _]; [vm_compute in H|]; done.
  - rewrite E in Hne |- *. destruct (str_is_ip name) as [fam [a|]] eqn:Ef.
    + destruct (_ <? _)%nat; [done|]. pose proof Ef as Ef'. unfold ngx_autocert_str_is_ip in Ef'.
      destruct (_ || _); [done|]. destruct (ngx_inet6_addr name) eqn:E6; [|done].
      injection Ef' as <- <-. apply H6 in E6 as (_ & _ & ? & ?). by constructor.
    + destruct (_ <? _)%nat; [done|]. destruct Hi as [Hd|Hip].
      * apply dns_valid_chars in Hd as (Hc & Hn & Hh). rewrite Hstrip in *.
        apply seg_plain; [done|done|intros ->; by apply Hh|intros ->; by apply Hh].
      * destruct (ipv4_text _ H4 H6 ltac:(by rewrite Ef) Hip) as [Hip4 Hlen].
        apply seg_plain; [|intros ->; simpl in Hlen; lia|intros ->; simpl in Hlen; lia|intros ->; simpl in Hlen; lia].
        eapply Forall_impl; [exact Hip4|]. intros c [Hc|Hc]; [left; by apply digit_ldh|by right].
Qed.
End Segments.

Lemma ldh_dot_not c : is_ldh c = true \/ c = 46 -> c <> 95 /\ c <> 47 /\ c <> 0 /\ c <> 42 /\ c <> 58.
Proof.
  intros [H| ->]; [|lia]. unfold is_ldh in H. reflect_bools.
  repeat match goal with H : _ \/ _ |- _ => destruct H end; reflect_bools; lia.
Qed.

(** A store segment stays inside the store directory: it is a single
    non-empty path component (no slash, no NUL) other than dot and dot-dot. *)
Theorem fs_segment_confined (ngx_inet_addr : bytes -> Z) (ngx_inet6_addr : bytes -> option bytes)
    (cap : nat) (name : bytes) :
  inet_addr_text ngx_inet_addr -> inet6_addr_text ngx_inet6_addr ->
  issuable ngx_inet_addr ngx_inet6_addr name ->
  let seg := ngx_autocert_fs_segment ngx_inet_addr ngx_inet6_addr cap name in
  seg <> [] -> 47 ∉ seg /\ 0 ∉ seg /\ seg <> [46] /\ seg <> [46; 46].
Proof.
  intros H4 H6 Hi seg Hne. pose proof (fs_segment_kind _ _ cap name H4 H6 Hi Hne) as Hs.
  fold seg in Hs. clearbody seg.
  assert (Hch : forall s, Forall (fun c => c <> 47 /\ c <> 0) s -> 47 ∉ s /\ 0 ∉ s).
  { intros s Hf. rewrite List.Forall_forall in Hf.
    split; intros Hin; apply list_elem_of_In in Hin; by apply Hf in Hin as [? ?]. }
  destruct Hs as [rest -> Hc|a _ _ _|Hc ? ? ?].
  - split; [|split]; [..|done]; apply Hch; apply Forall_app; (split; [by repeat constructor|]);
      (eapply Forall_impl; [exact Hc|]); intros c Hx; apply ldh_dot_not in Hx; tauto.
  - split; [|split]; [..|done]; apply Hch; apply Forall_app; (split; [by repeat constructor|]);
      (eapply Forall_impl; [apply ip6_groups_chars|]); intros c [Hx|[Hx|Hx]];
      try (apply (or_introl (B := c = 46)), ldh_dot_not in Hx; tauto); subst c; done.
  - split; [|split]; [..|done]; apply Hch;
      (eapply Forall_impl; [exact Hc|]); intros c Hx; apply ldh_dot_not in Hx; tauto.
Qed.

(** Two configured names share a store directory only when they are the same
    name, or two spellings of one IPv6 address: no certificate can overwrite
    another name's. *)
Theorem fs_segment_injective (ngx_inet_addr : bytes -> Z) (ngx_inet6_addr : bytes -> option bytes)
    (cap : nat) (n1 n2 : bytes) :
  inet_addr_text ngx_inet_addr -> inet6_addr_text ngx_inet6_addr ->
  issuable ngx_inet_addr ngx_inet6_addr n1 -> issuable ngx_inet_addr ngx_inet6_addr n2 ->
  ngx_autocert_fs_segment ngx_inet_addr ngx_inet6_addr cap n1 <> [] ->
  ngx_autocert_fs_segment ngx_inet_addr ngx_inet6_addr cap n1
  = ngx_autocert_fs_segment ngx_inet_addr ngx_inet6_addr cap n2 ->
  n1 = n2
  \/ (exists a, ngx_autocert_str_is_ip ngx_inet_addr ngx_inet6_addr n1 = (AF_INET6, Some a)
               /\ ngx_autocert_str_is_ip ngx_inet_addr ngx_inet6_addr n2 = (AF_INET6, Some a)).
Proof.
  intros H4 H6 Hi1 Hi2 Hne He. pose proof (fs_segment_kind _ _ cap n1 H4 H6 Hi1 Hne) as S1.
  rewrite He in Hne. pose proof (fs_segment_kind _ _ cap n2 H4 H6 Hi2 Hne) as S2.
  rewrite <- He in S2. clear He Hne. set (seg := ngx_autocert_fs_segment _ _ cap n1) in *. clearbody seg.
  assert (Hplain : forall c r, Forall (fun c => is_ldh c = true \/ c = 46) (c :: r) -> c <> 95).
  { intros c r Hf. apply Forall_cons in Hf as [Hf _]. apply ldh_dot_not in Hf. tauto. }
  destruct S1 as [r1 -> _|a1 E1 L1 B1|C1 _ _ _]; inversion S2 as [r2 E2 _ Hs|a2 E2 L2 B2 Hs|C2 _ _ _ Hs].
  - left. by subst.
  - subst. by apply Hplain in C2.
  - right. exists a1. split; [done|].
    apply (ip6_groups_inj _ _ _ 8) in Hs; [by subst|done..].
  - subst. by apply Hplain in C2.
  - subst. by apply Hplain in C1.
  - subst. by apply Hplain in C1.
  - by left.
Qed.

(** Address parsers that know one address each, for the concrete instances. *)
Definition ex_inet_addr (s : bytes) : Z :=
  if decide (s = str "192.0.2.1") then 0xc0000201 else INADDR_NONE.
Definition ex_inet6_addr (s : bytes) : option bytes :=
  if decide (s = str "2001:db8::1") then Some [0x20; 1; 0xd; 0xb8; 0; 0; 0; 0; 0; 0; 0; 0; 0; 0; 0; 1]
  else None.

Lemma ex_inet_addr_text : inet_addr_text ex_inet_addr.
Proof.
  intros s. unfold ex_inet_addr. destruct (decide _) as [->|]; [intros _|done].
  split; [|simpl; lia]. repeat (constructor; [by (left + right)|]). constructor.
Qed.

Lemma ex_inet6_addr_text : inet6_addr_text ex_inet6_addr.
Proof.
  intros s a. unfold ex_inet6_addr. destruct (decide _) as [->|]; [|done]. intros [= <-].
  split; [apply (bool_decide_unpack _); reflexivity|]. split; [apply (bool_decide_unpack _); reflexivity|].
  split; [done|]. repeat (constructor; [unfold is_byte; lia|]). constructor.
Qed.

Lemma fs_segment_confined_witness :
  let seg := ngx_autocert_fs_segment ex_inet_addr ex_inet6_addr 288 (str "2001:db8::1") in
  seg = str "_ip6_2001-0db8-0000-0000-0000-0000-0000-0001"
  /\ 47 ∉ seg /\ 0 ∉ seg /\ seg <> [46] /\ seg <> [46; 46].
Proof.
  split; [reflexivity|].
  apply (fs_segment_confined ex_inet_addr ex_inet6_addr 288 (str "2001:db8::1")
           ex_inet_addr_text ex_inet6_addr_text); [right|]; vm_compute; discriminate.
Defined.

Lemma fs_segment_injective_witness :
  str "*.example.com" = str "*.example.com"
  \/ (exists a, ngx_autocert_str_is_ip ex_inet_addr ex_inet6_addr (str "*.example.com") = (AF_INET6, Some a)
               /\ ngx_autocert_str_is_ip ex_inet_addr ex_inet6_addr (str "*.example.com") = (AF_INET6, Some a)).
Proof.
  apply (fs_segment_injective ex_inet_addr ex_inet6_addr 288 (str "*.example.com") (str "*.example.com")
           ex_inet_addr_text ex_inet6_addr_text); [left; reflexivity|left; reflexivity| |reflexivity].
  vm_compute. discriminate.
Defined.
