(* ===== verification/Expiry.v ===== *)
(** * Does a name need a certificate? (the freshness check of the driver)

    The scheduler asks, for a name and a key type, whether what is stored for it
    can still be served: [ngx_autocert_name_due] of ngx_autocert_driver.c, with
    the reader of ngx_http_autocert_crypto.c below it and its calendar
    arithmetic.  The system and OpenSSL are a view of the disk: what opening,
    parsing and checking answer at the moment of the look. *)

From S2P Require Import Prelude NgxCore Ident.

Local Open Scope Z_scope.

Definition NGX_ABORT : Z := -6.
Definition ENOENT : Z := 2.
Definition ENOTDIR : Z := 20.
Definition ELOOP : Z := 40.
Definition NGX_MAX_PATH : nat := Z.to_nat 4096.

(** ngx_http_autocert_conf.h *)
Definition NGX_HTTP_AUTOCERT_KEY_P256 : Z := 0.
Definition NGX_HTTP_AUTOCERT_KEY_P384 : Z := 1.
Definition NGX_HTTP_AUTOCERT_KEY_RSA2048 : Z := 2.
Definition NGX_HTTP_AUTOCERT_KEY_RSA3072 : Z := 3.
Definition NGX_HTTP_AUTOCERT_KEY_RSA4096 : Z := 4.

(** ngx_autocert_ident.h *)
Definition NGX_AUTOCERT_DOMAIN_SEG_MAX : nat := 288.

(** OpenSSL's key families. *)
Definition EVP_PKEY_NONE : Z := 0.
Definition EVP_PKEY_RSA : Z := 6.
Definition EVP_PKEY_EC : Z := 408.

(** ** The calendar *)

(** [struct tm]: the month counts from 0, the year from 1900. *)
Record tm := Tm { tm_sec : Z; tm_min : Z; tm_hour : Z; tm_mday : Z; tm_mon : Z; tm_year : Z }.

(** A cast to a 64-bit signed integer. *)
Definition s64 (z : Z) : Z := (z + 2 ^ 63) mod 2 ^ 64 - 2 ^ 63.

(** [era], [yoe], [doy], [doe], [days]; C's division truncates. *)
Definition days_from_civil (y m d : Z) : Z :=
  let y := y - (if m <=? 2 then 1 else 0) in
  let era := (if 0 <=? y then y else y - 399) ÷ 400 in
  let yoe := y - era * 400 in
  let doy := (153 * (m + (if 2 <? m then -3 else 9)) + 2) ÷ 5 + d - 1 in
  let doe := yoe * 365 + yoe ÷ 4 - yoe ÷ 100 + doy in
  era * 146097 + doe - 719468.

Definition ngx_autocert_timegm (t : tm) : Z :=
  let y := tm_year t + 1900 in
  let m := tm_mon t + 1 in
  let d := tm_mday t in
  if (y <? 1970) || (9999 <? y) then -1
  else
    let days := days_from_civil y m d in
    let secs := days * 86400 + tm_hour t * 3600 + tm_min t * 60 + tm_sec t in
    let t := s64 secs in
    if negb (t =? secs) then -1 else t.

(** ** Reading what is stored *)

(** An entry of OpenSSL's error queue, as far as it is looked at. *)
Record ossl_error := OsslError { lib_sys : bool; lib_bio : bool; reason_malloc : bool }.

Definition ngx_http_autocert_pem_read_transient (read_errno : Z) (queue : list ossl_error) : bool :=
  negb (read_errno =? 0)
  || existsb (fun e => lib_sys e || lib_bio e || reason_malloc e) queue.

(** The disk and OpenSSL at one moment. [open_file_path] gives the errno, 0 when
    the file is opened; the parsers give the object, and the errno and error
    queue they leave; [check_private_key] is the value OpenSSL returns. *)
Record view (X509 EVP_PKEY : Type) := View {
  open_file_path : bytes -> Z;
  bio_new_fd : bytes -> bool;
  pem_read_x509 : bytes -> option X509 * Z * list ossl_error;
  pem_read_key : bytes -> option EVP_PKEY * Z * list ossl_error;
  check_private_key : X509 -> EVP_PKEY -> Z;
  check_host : X509 -> bytes -> bool;
  check_ip_asc : X509 -> bytes -> bool;
  not_after_tm : X509 -> option tm;
  pubkey_id : X509 -> option Z }.
Arguments open_file_path {X509 EVP_PKEY}.
Arguments bio_new_fd {X509 EVP_PKEY}.
Arguments pem_read_x509 {X509 EVP_PKEY}.
Arguments pem_read_key {X509 EVP_PKEY}.
Arguments check_private_key {X509 EVP_PKEY}.
Arguments check_host {X509 EVP_PKEY}.
Arguments check_ip_asc {X509 EVP_PKEY}.
Arguments not_after_tm {X509 EVP_PKEY}.
Arguments pubkey_id {X509 EVP_PKEY}.

(** The part of the configuration used here. *)
Record store_conf := StoreConf {
  store_path : bytes;
  store_certbot : bool;
  renew_before : Z }.

Definition is_rsa (key_type : Z) : bool :=
  (key_type =? NGX_HTTP_AUTOCERT_KEY_RSA2048) || (key_type =? NGX_HTTP_AUTOCERT_KEY_RSA3072)
  || (key_type =? NGX_HTTP_AUTOCERT_KEY_RSA4096).

Definition live_dir (sc : store_conf) : bytes := if store_certbot sc then str "/live" else [].

(** The code's guard on a name used as a path segment. *)
Definition unsafe_segment (name : bytes) : bool :=
  match name with
  | [] => true
  | c :: _ => (c =? 46) || existsb (fun c => (c =? 47) || (c =? 0)) name
  end.

(** The name the leaf is checked against; [None]: too long to be checked. *)
Definition verify_name (name : bytes) : option bytes :=
  if (length name <? 256)%nat then
    match name with
    | 42 :: 46 :: _ :: _ => Some (120 :: drop 1 name)
    | _ => Some name
    end
  else None.

Section View.
Context {X509 EVP_PKEY : Type} (inet_addr : bytes -> Z) (inet6_addr : bytes -> option bytes).
Implicit Types (v : view X509 EVP_PKEY) (leaf : X509).

Definition ngx_http_autocert_key_pairs_with v (key_path : bytes) leaf : Z :=
  let errno := open_file_path v key_path in
  if negb (errno =? 0) then
    if (errno =? ENOENT) || (errno =? ENOTDIR) then NGX_ABORT
    else if errno =? ELOOP then NGX_ABORT
    else NGX_ERROR
  else if negb (bio_new_fd v key_path) then NGX_ERROR
  else
    let '(key, errno, queue) := pem_read_key v key_path in
    match key with
    | None => if ngx_http_autocert_pem_read_transient errno queue then NGX_ERROR else NGX_ABORT
    | Some key =>
        if ngx_http_autocert_pem_read_transient errno queue then NGX_ERROR
        else if negb (check_private_key v leaf key =? 1) then NGX_ABORT
        else NGX_OK
    end.

(** The return code, [*out] and [*key_id]; [key_path] is never NULL here. *)
Definition ngx_http_autocert_cert_not_after v (path : bytes) (verify : option bytes) (key_path : bytes)
    : Z * Z * Z :=
  let fails rc := (rc, 0, EVP_PKEY_NONE) in
  let errno := open_file_path v path in
  if negb (errno =? 0) then
    if (errno =? ENOENT) || (errno =? ENOTDIR) then fails NGX_DECLINED
    else if errno =? ELOOP then fails NGX_ABORT
    else fails NGX_ERROR
  else if negb (bio_new_fd v path) then fails NGX_ERROR
  else
    let '(leaf, errno, queue) := pem_read_x509 v path in
    match leaf with
    | None => fails (if ngx_http_autocert_pem_read_transient errno queue then NGX_ERROR else NGX_ABORT)
    | Some leaf =>
        if match verify with
           | Some id => negb (length id =? 0)%nat
                        && negb (ngx_autocert_cert_covers inet_addr inet6_addr (check_ip_asc v leaf)
                                   (check_host v leaf) id)
           | None => false
           end
        then fails NGX_ABORT
        else
          let pair_rc := ngx_http_autocert_key_pairs_with v key_path leaf in
          if negb (pair_rc =? NGX_OK) then fails pair_rc
          else
            match not_after_tm v leaf with
            | Some tm =>
                let t := ngx_autocert_timegm tm in
                if negb (t =? -1) then
                  (NGX_OK, t, match pubkey_id v leaf with Some id => id | None => EVP_PKEY_NONE end)
                else fails NGX_ABORT
            | None => fails NGX_ABORT
            end
    end.

(** ** The decision (ngx_autocert_driver.c) *)

Definition ngx_autocert_cert_read_due (rc : Z) : bool := (rc =? NGX_DECLINED) || (rc =? NGX_ABORT).

Definition chain_leaf (key_type : Z) : bytes :=
  if is_rsa key_type then str "/fullchain.rsa.pem" else str "/fullchain.pem".
Definition key_leaf (key_type : Z) : bytes :=
  if is_rsa key_type then str "/privkey.rsa.pem" else str "/privkey.pem".

(** The directory of a name. *)
Definition name_dir (sc : store_conf) (seg : bytes) : bytes := store_path sc ++ live_dir sc ++ 47 :: seg.

Definition ngx_autocert_name_due (sc : store_conf) v (now : Z) (name : bytes) (key_type : Z) : bool :=
  if (length (store_path sc) =? 0)%nat then true
  else if unsafe_segment name then false
  else
    let seg := ngx_autocert_fs_segment inet_addr inet6_addr NGX_AUTOCERT_DOMAIN_SEG_MAX name in
    if (length seg =? 0)%nat then false
    else
      let base := (length (store_path sc) + length (live_dir sc) + 1 + length seg
                   + length (chain_leaf key_type) + 1)%nat in
      if (NGX_MAX_PATH <? base)%nat then false
      else
        let path := name_dir sc seg ++ chain_leaf key_type in
        let key_base := (length (store_path sc) + length (live_dir sc) + 1 + length seg
                         + length (key_leaf key_type) + 1)%nat in
        if (NGX_MAX_PATH <? key_base)%nat then false
        else
          let key_path := name_dir sc seg ++ key_leaf key_type in
          let want_id := if is_rsa key_type then EVP_PKEY_RSA else EVP_PKEY_EC in
          let '(rc, not_after, stored_id) :=
            ngx_http_autocert_cert_not_after v path (verify_name name) key_path in
          if negb (rc =? NGX_OK) then ngx_autocert_cert_read_due rc
          else if negb (stored_id =? want_id) then true
          else not_after - renew_before sc <=? now.

(** The directory of a host's marker; empty is the return value 0. *)
Definition ngx_autocert_runtime_dir (sc : store_conf) (host : bytes) (cap : nat) : bytes :=
  let seg := ngx_autocert_fs_segment inet_addr inet6_addr NGX_AUTOCERT_DOMAIN_SEG_MAX host in
  if (length seg =? 0)%nat || (length (store_path sc) =? 0)%nat then []
  else
    let need := (length (store_path sc) + length (live_dir sc) + 1 + length seg)%nat in
    if (cap <=? need)%nat then [] else name_dir sc seg.
End View.

(** ** The calendar, checked against the Gregorian rules *)

Definition leap (y : Z) : bool := (y mod 4 =? 0) && (negb (y mod 100 =? 0) || (y mod 400 =? 0)).

Definition month_days (y m : Z) : Z :=
  if m =? 2 then if leap y then 29 else 28
  else if (m =? 4) || (m =? 6) || (m =? 9) || (m =? 11) then 30 else 31.

Definition year_days (y : Z) : Z := if leap y then 366 else 365.

Definition sum (f : Z -> Z) (from : Z) (n : nat) : Z := foldr Z.add 0 (f <$> seqZ from (Z.of_nat n)).

(** The days from 1970-01-01 to a date, counted year by year and month by month. *)
Definition calendar_days (y m d : Z) : Z :=
  sum year_days 1970 (Z.to_nat (y - 1970)) + sum (month_days y) 1 (Z.to_nat (m - 1)) + (d - 1).

Lemma sum_succ f from n : sum f from (S n) = sum f from n + f (from + Z.of_nat n).
Proof.
  unfold sum. rewrite seqZ_S, fmap_app, foldr_app. simpl. generalize (f (from + Z.of_nat n)). intros x.
  induction (f <$> seqZ from (Z.of_nat n)) as [|y l IH]; simpl; lia.
Qed.

(** The first of each month and the first of the next year are right, for every
    year the code accepts. *)
Definition year_ok (y : Z) : bool :=
  (days_from_civil (y + 1) 1 1 =? days_from_civil y 1 1 + year_days y)
  && forallb (fun m => days_from_civil y m 1 =? days_from_civil y 1 1 + sum (month_days y) 1 (Z.to_nat (m - 1)))
       (seqZ 1 12).

Lemma years_ok : forallb year_ok (seqZ 1970 400) = true.
Proof. vm_compute. reflexivity. Qed.

(** The calendar repeats every 400 years. *)
Lemma civil_period y m d : 1 <= y -> days_from_civil (y + 400) m d = days_from_civil y m d + 146097.
Proof.
  intros Hy. unfold days_from_civil. set (b := if m <=? 2 then 1 else 0). assert (0 <= b <= 1) by (unfold b; case_match; lia).
  destruct (Z.leb_spec 0 (y + 400 - b)), (Z.leb_spec 0 (y - b)); try lia.
  replace (y + 400 - b) with (y - b + 1 * 400) by lia.
  rewrite (Z.quot_div_nonneg (_ + 1 * 400)), (Z.quot_div_nonneg (y - b)), Z.div_add by lia. cbv zeta.
  replace (y - b + 1 * 400 - ((y - b) / 400 + 1) * 400) with (y - b - (y - b) / 400 * 400) by lia. ring.
Qed.

Lemma leap_period y : leap (y + 400) = leap y.
Proof.
  unfold leap. replace ((y + 400) mod 4) with (y mod 4) by zdiv.
  replace ((y + 400) mod 100) with (y mod 100) by zdiv. by replace ((y + 400) mod 400) with (y mod 400) by zdiv.
Qed.

Lemma sum_ext f g from n : (forall x, f x = g x) -> sum f from n = sum g from n.
Proof. intros H. unfold sum. f_equal. by apply list_fmap_ext. Qed.

Lemma year_ok_period y : 1 <= y -> year_ok y = true -> year_ok (y + 400) = true.
Proof.
  intros Hy [H1 H2]%andb_true_iff. apply andb_true_iff. split.
  - replace (y + 400 + 1) with (y + 1 + 400) by lia. rewrite !civil_period by lia.
    unfold year_days in *. rewrite leap_period. lia.
  - rewrite forallb_forall in *. intros m Hm. specialize (H2 m Hm). rewrite !civil_period by lia.
    rewrite (sum_ext _ (month_days y)); [lia|]. intros x. unfold month_days. by rewrite leap_period.
Qed.

Lemma year_is_ok y : 1970 <= y -> year_ok y = true.
Proof.
  intros Hy. replace y with (1970 + (y - 1970) mod 400 + 400 * Z.of_nat (Z.to_nat ((y - 1970) / 400))) by zdiv.
  assert (Hr : 0 <= (y - 1970) mod 400 < 400) by (apply Z.mod_pos_bound; lia).
  set (r := (y - 1970) mod 400) in *. clearbody r. generalize (Z.to_nat ((y - 1970) / 400)). intros n.
  induction n as [|n IH].
  - pose proof years_ok as H. rewrite forallb_forall in H. apply H, list_elem_of_In, elem_of_seqZ. lia.
  - replace (1970 + r + 400 * Z.of_nat (S n)) with (1970 + r + 400 * Z.of_nat n + 400) by lia.
    apply year_ok_period; [lia|exact IH].
Qed.

Lemma civil_day y m d : days_from_civil y m d = days_from_civil y m 1 + (d - 1).
Proof. unfold days_from_civil. ring. Qed.

Lemma civil_new_year n : days_from_civil (1970 + Z.of_nat n) 1 1 = sum year_days 1970 n.
Proof.
  induction n as [|n IH]; [done|]. rewrite sum_succ, <- IH.
  destruct (proj1 (andb_true_iff _ _) (year_is_ok (1970 + Z.of_nat n) ltac:(lia))) as [H _].
  apply Z.eqb_eq in H. rewrite <- H. f_equal. lia.
Qed.

Lemma civil_calendar y m d : 1970 <= y -> 1 <= m <= 12 -> days_from_civil y m d = calendar_days y m d.
Proof.
  intros Hy Hm. rewrite civil_day. unfold calendar_days.
  destruct (proj1 (andb_true_iff _ _) (year_is_ok y Hy)) as [_ H]. rewrite forallb_forall in H.
  specialize (H m ltac:(apply list_elem_of_In, elem_of_seqZ; lia)). apply Z.eqb_eq in H. rewrite H.
  pose proof (civil_new_year (Z.to_nat (y - 1970))) as H1.
  replace (1970 + Z.of_nat (Z.to_nat (y - 1970))) with y in H1 by lia.
  lia.
Qed.

Lemma calendar_range y m d : 1970 <= y <= 9999 -> 1 <= m <= 12 -> 1 <= d <= 31 -> 0 <= calendar_days y m d <= 366 * 8030 + 31 * 11 + 30.
Proof.
  intros Hy Hm Hd. unfold calendar_days.
  assert (Hs : forall f from n k, (forall x, 0 <= f x <= k) -> 0 <= sum f from n <= k * Z.of_nat n).
  { intros f from n k Hf. induction n as [|n IH]; [unfold sum; simpl; lia|].
    rewrite sum_succ. specialize (Hf (from + Z.of_nat n)). lia. }
  assert (0 <= sum year_days 1970 (Z.to_nat (y - 1970)) <= 366 * Z.of_nat (Z.to_nat (y - 1970))).
  { apply Hs. intros x. unfold year_days. destruct (leap x); lia. }
  assert (0 <= sum (month_days y) 1 (Z.to_nat (m - 1)) <= 31 * Z.of_nat (Z.to_nat (m - 1))).
  { apply Hs. intros x. unfold month_days. repeat case_match; lia. }
  lia.
Qed.

(** The expiry read from a certificate is its UTC date in seconds since 1970:
    for every date of the years 1970 to 9999 the code's closed formula counts the
    days of the Gregorian calendar, leap years included, and no cast loses bits.
    Years outside that range give -1. *)
Theorem timegm_spec (t : tm) :
  1 <= tm_mon t + 1 <= 12 -> 1 <= tm_mday t <= 31 ->
  0 <= tm_hour t <= 23 -> 0 <= tm_min t <= 59 -> 0 <= tm_sec t <= 60 ->
  ngx_autocert_timegm t =
    if (1970 <=? tm_year t + 1900) && (tm_year t + 1900 <=? 9999)
    then calendar_days (tm_year t + 1900) (tm_mon t + 1) (tm_mday t) * 86400
         + tm_hour t * 3600 + tm_min t * 60 + tm_sec t
    else -1.
Proof.
  intros Hm Hd Hh Hmi Hs. unfold ngx_autocert_timegm. cbv zeta.
  destruct (Z.ltb_spec (tm_year t + 1900) 1970), (Z.ltb_spec 9999 (tm_year t + 1900));
    destruct (Z.leb_spec 1970 (tm_year t + 1900)), (Z.leb_spec (tm_year t + 1900) 9999); try lia; cbn [orb andb]; try done.
  rewrite civil_calendar by lia.
  pose proof (calendar_range (tm_year t + 1900) (tm_mon t + 1) (tm_mday t) ltac:(lia) ltac:(lia) ltac:(lia)) as Hr.
  set (c := calendar_days _ _ _) in *. clearbody c.
  set (s := c * 86400 + tm_hour t * 3600 + tm_min t * 60 + tm_sec t).
  assert (E : s64 s = s). { unfold s64. rewrite Z.mod_small; subst s; lia. }
  rewrite E, Z.eqb_refl. done.
Qed.

Lemma timegm_spec_witness :
  ngx_autocert_timegm (Tm 59 59 23 29 1 124) = calendar_days 2024 2 29 * 86400 + 86399
  /\ ngx_autocert_timegm (Tm 59 59 23 29 1 124) = 1709251199.
Proof.
  split; [|vm_compute; reflexivity].
  rewrite (timegm_spec (Tm 59 59 23 29 1 124)) by (cbn; lia). cbn [tm_year tm_mon tm_mday tm_hour tm_min tm_sec].
  cbn [Z.add Z.leb Z.compare Pos.compare Pos.compare_cont Pos.add andb]. vm_compute. reflexivity.
Defined.

(** ** The decision *)

Section Decision.
Context {X509 EVP_PKEY : Type} (inet_addr : bytes -> Z) (inet6_addr : bytes -> option bytes).
Implicit Types (v : view X509 EVP_PKEY).

(** A file that is there and cannot be read for now: not absent, not a symbolic
    link, and not a file whose content is just wrong. *)
Definition unreadable {A} v (parse : bytes -> option A * Z * list ossl_error) (path : bytes) : Prop :=
  ~ open_file_path v path ∈ [0; ENOENT; ENOTDIR; ELOOP]
  \/ open_file_path v path = 0
     /\ (bio_new_fd v path = false
         \/ (parse path).1.1 = None /\ ngx_http_autocert_pem_read_transient (parse path).1.2 (parse path).2 = true).

(** A file that is opened and parses. *)
Definition holds {A} v (parse : bytes -> option A * Z * list ossl_error) (path : bytes) (x : A) : Prop :=
  open_file_path v path = 0 /\ bio_new_fd v path = true /\ (parse path).1.1 = Some x.

Definition covers v (leaf : X509) (name : bytes) : bool :=
  match verify_name name with
  | Some id => ngx_autocert_cert_covers inet_addr inet6_addr (check_ip_asc v leaf) (check_host v leaf) id
  | None => true
  end.

(** Reading the key was disturbed although it gave one. *)
Definition key_disturbed v (key_path : bytes) : Prop :=
  open_file_path v key_path = 0 /\ bio_new_fd v key_path = true
  /\ ngx_http_autocert_pem_read_transient (pem_read_key v key_path).1.2 (pem_read_key v key_path).2 = true.

(** What is stored cannot be judged now. *)
Definition undecided v (path key_path name : bytes) : Prop :=
  unreadable v (pem_read_x509 v) path
  \/ exists leaf, holds v (pem_read_x509 v) path leaf /\ covers v leaf name = true
       /\ (unreadable v (pem_read_key v) key_path \/ key_disturbed v key_path).

(** What is stored can be served, and not only for a short while. *)
Definition usable sc v (now : Z) (path key_path name : bytes) (key_type : Z) : Prop :=
  exists leaf key t,
    holds v (pem_read_x509 v) path leaf /\ covers v leaf name = true
    /\ holds v (pem_read_key v) key_path key /\ check_private_key v leaf key = 1
    /\ not_after_tm v leaf = Some t /\ ngx_autocert_timegm t <> -1
    /\ pubkey_id v leaf = Some (if is_rsa key_type then EVP_PKEY_RSA else EVP_PKEY_EC)
    /\ now < ngx_autocert_timegm t - renew_before sc.

(** What opening and wrapping a file tells: nothing is there (a link counts as
    nothing), it cannot be read now, or it is read. *)
Lemma open_cases {A T} v (parse : bytes -> option A * Z * list ossl_error) path (Q : T -> Prop) absent link unread k :
  (unreadable v parse path -> Q unread) ->
  (open_file_path v path ∈ [ENOENT; ENOTDIR] -> Q absent) ->
  (open_file_path v path = ELOOP -> Q link) ->
  (open_file_path v path = 0 -> bio_new_fd v path = true -> Q k) ->
  Q (if negb (open_file_path v path =? 0) then
       if (open_file_path v path =? ENOENT) || (open_file_path v path =? ENOTDIR) then absent
       else if open_file_path v path =? ELOOP then link else unread
     else if negb (bio_new_fd v path) then unread else k).
Proof.
  intros Hu Ha Hl Hk. unfold unreadable in Hu.
  destruct (Z.eqb_spec (open_file_path v path) 0) as [E0|E0]; cbn [negb].
  { destruct (bio_new_fd v path) eqn:Eb; cbn [negb]; auto. }
  destruct (Z.eqb_spec (open_file_path v path) ENOENT) as [E1|E1]; cbn [orb]; [apply Ha; set_solver|].
  destruct (Z.eqb_spec (open_file_path v path) ENOTDIR) as [E2|E2]; [apply Ha; set_solver|].
  destruct (Z.eqb_spec (open_file_path v path) ELOOP) as [E3|E3]; [auto|]. apply Hu. left. set_solver.
Qed.

Definition paired v (key_path : bytes) leaf : Prop :=
  exists key, holds v (pem_read_key v) key_path key /\ check_private_key v leaf key = 1.

Lemma absent_holds {A} v (parse : bytes -> option A * Z * list ossl_error) path x :
  open_file_path v path <> 0 -> ~ holds v parse path x.
Proof. by intros H (H0 & _). Qed.

Lemma absent_readable {A} v (parse : bytes -> option A * Z * list ossl_error) path :
  open_file_path v path ∈ [ENOENT; ENOTDIR; ELOOP] -> ~ unreadable v parse path.
Proof.
  intros H [Hu|[H0 _]].
  - apply Hu. set_solver.
  - rewrite H0 in H. unfold ENOENT, ENOTDIR, ELOOP in H. set_solver.
Qed.

Lemma read_readable {A} v (parse : bytes -> option A * Z * list ossl_error) path :
  open_file_path v path = 0 -> bio_new_fd v path = true ->
  ((parse path).1.1 = None -> ngx_http_autocert_pem_read_transient (parse path).1.2 (parse path).2 = false) ->
  ~ unreadable v parse path.
Proof.
  intros H0 Hb Hp [Hu|(_ & [Hb'|[Hn Ht]])].
  - apply Hu. rewrite H0. set_solver.
  - congruence.
  - rewrite Hp in Ht; done.
Qed.

(** The pair check: whether the key pairs with the leaf, or that this cannot be
    told now. *)
Lemma key_pairs_cases v key_path leaf (Q : Z -> Prop) :
  (paired v key_path leaf -> ~ unreadable v (pem_read_key v) key_path -> ~ key_disturbed v key_path -> Q NGX_OK) ->
  (~ paired v key_path leaf -> ~ unreadable v (pem_read_key v) key_path -> ~ key_disturbed v key_path -> Q NGX_ABORT) ->
  (unreadable v (pem_read_key v) key_path \/ key_disturbed v key_path -> Q NGX_ERROR) ->
  Q (ngx_http_autocert_key_pairs_with v key_path leaf).
Proof.
  intros Hok Hbad Hnow. unfold ngx_http_autocert_key_pairs_with. cbv zeta.
  assert (Habsent : open_file_path v key_path ∈ [ENOENT; ENOTDIR; ELOOP] -> Q NGX_ABORT).
  { intros H. assert (H0 : open_file_path v key_path <> 0) by (intros E; rewrite E in H; unfold ENOENT, ENOTDIR, ELOOP in H; set_solver).
    apply Hbad; [|by apply absent_readable|by intros [? _]]. intros (key & Hk & _). by eapply absent_holds. }
  apply (open_cases v (pem_read_key v)); [auto|intros; apply Habsent; set_solver|intros; apply Habsent; set_solver|].
  intros H0 Hb. destruct (pem_read_key v key_path) as [[[key|] errno] queue] eqn:Ep.
  - assert (Hr : ~ unreadable v (pem_read_key v) key_path) by (apply read_readable; rewrite ?Ep; done).
    destruct (ngx_http_autocert_pem_read_transient errno queue) eqn:Et.
    { apply Hnow. right. unfold key_disturbed. by rewrite Ep. }
    assert (Hd : ~ key_disturbed v key_path) by (unfold key_disturbed; rewrite Ep; cbn [fst snd]; rewrite Et; by intros (_ & _ & ?)).
    destruct (Z.eqb_spec (check_private_key v leaf key) 1) as [E1|E1]; cbn [negb].
    + apply Hok; [|done|done]. exists key. split; [|done]. split; [done|]. by rewrite Ep.
    + apply Hbad; [|done|done]. intros (key' & (_ & _ & Hk) & Hc). rewrite Ep in Hk. injection Hk as <-. done.
  - destruct (ngx_http_autocert_pem_read_transient errno queue) eqn:Et.
    { apply Hnow. left. right. split; [done|]. right. by rewrite Ep. }
    apply Hbad.
    + intros (key' & (_ & _ & Hk) & _). by rewrite Ep in Hk.
    + apply read_readable; [done..|]. by rewrite Ep.
    + unfold key_disturbed. rewrite Ep. cbn [fst snd]. rewrite Et. by intros (_ & _ & ?).
Qed.

(** The reader, for a leaf that was parsed and covers the name. *)
Lemma leaf_cases sc v now path key_path name key_type leaf :
  holds v (pem_read_x509 v) path leaf -> covers v leaf name = true -> ~ unreadable v (pem_read_x509 v) path ->
  (let '(rc, not_after, stored_id) :=
     if negb (ngx_http_autocert_key_pairs_with v key_path leaf =? NGX_OK)
     then (ngx_http_autocert_key_pairs_with v key_path leaf, 0, EVP_PKEY_NONE)
     else
       match not_after_tm v leaf with
       | Some tm =>
           if negb (ngx_autocert_timegm tm =? -1) then
             (NGX_OK, ngx_autocert_timegm tm,
              match pubkey_id v leaf with Some id => id | None => EVP_PKEY_NONE end)
           else (NGX_ABORT, 0, EVP_PKEY_NONE)
       | None => (NGX_ABORT, 0, EVP_PKEY_NONE)
       end in
   if negb (rc =? NGX_OK) then ngx_autocert_cert_read_due rc
   else if negb (stored_id =? (if is_rsa key_type then EVP_PKEY_RSA else EVP_PKEY_EC)) then true
   else not_after - renew_before sc <=? now) = true
  <-> ~ undecided v path key_path name /\ ~ usable sc v now path key_path name key_type.
Proof.
  intros Hl Hc Hr.
  assert (Huniq : forall leaf', holds v (pem_read_x509 v) path leaf' -> leaf' = leaf).
  { intros leaf' (_ & _ & E'). destruct Hl as (_ & _ & E). congruence. }
  assert (Hu : undecided v path key_path name <-> unreadable v (pem_read_key v) key_path \/ key_disturbed v key_path).
  { split; [|by intros H; right; exists leaf]. intros [?|(leaf' & Hl' & _ & H)]; done. }
  rewrite Hu. unfold usable.
  apply (key_pairs_cases v key_path leaf).
  - intros (key & Hk & Hck) Hr2 Hd. rewrite Z.eqb_refl. cbn [negb].
    destruct (not_after_tm v leaf) as [tm|] eqn:Et.
    2: { cbn. split; [|done]. intros _. split; [tauto|]. intros (leaf' & ? & ? & ->%Huniq & _ & _ & _ & ? & _). congruence. }
    destruct (Z.eqb_spec (ngx_autocert_timegm tm) (-1)) as [E1|E1]; cbn [negb].
    { split; [|done]. intros _. split; [tauto|].
      intros (leaf' & ? & ? & ->%Huniq & _ & _ & _ & E & ? & _). congruence. }
    rewrite Z.eqb_refl. cbn [negb]. destruct (Z.eqb_spec (match pubkey_id v leaf with Some id => id | None => EVP_PKEY_NONE end)
      (if is_rsa key_type then EVP_PKEY_RSA else EVP_PKEY_EC)) as [E2|E2]; cbn [negb].
    + assert (Hid : pubkey_id v leaf = Some (if is_rsa key_type then EVP_PKEY_RSA else EVP_PKEY_EC)).
      { destruct (pubkey_id v leaf); [congruence|]. by destruct (is_rsa key_type). }
      rewrite Z.leb_le. split.
      * intros Ht. split; [tauto|]. intros (leaf' & ? & t & ->%Huniq & _ & _ & _ & E & _ & _ & ?).
        rewrite Et in E. injection E as <-. lia.
      * intros [_ Hn]. apply Z.nlt_ge. intros Hlt. apply Hn. by exists leaf, key, tm.
    + split; [|done]. intros _. split; [tauto|].
      intros (leaf' & ? & ? & ->%Huniq & _ & _ & _ & _ & _ & E & _). by rewrite E in E2.
  - intros Hp Hr2 Hd. split; [|done]. intros _. split; [tauto|].
    intros (leaf' & key & ? & ->%Huniq & _ & ? & ? & _). apply Hp. by exists key.
  - intros H. split; [done|]. tauto.
Qed.

Lemma checked_covers v leaf name :
  unsafe_segment name = false ->
  match verify_name name with
  | Some id => negb (length id =? 0)%nat
               && negb (ngx_autocert_cert_covers inet_addr inet6_addr (check_ip_asc v leaf) (check_host v leaf) id)
  | None => false
  end = negb (covers v leaf name).
Proof.
  intros Hs. unfold covers. destruct (verify_name name) as [id|] eqn:Ev.
  - assert (Hid : (length id =? 0)%nat = false).
    { apply Nat.eqb_neq. unfold verify_name in Ev. destruct (_ <? _)%nat; [|done].
      repeat case_match; simplify_eq; simpl; try lia; done. }
    by rewrite Hid.
  - done.
Qed.

(** C32. The scheduler orders a certificate for a name and a key type exactly when
    what is stored for it can be judged and is not usable: usable means that the
    chain and the key are there and parse, that the leaf covers the name and is
    the public half of the key, has the key family of its slot, and expires later
    than the renewal window.  A file that cannot be read for the moment never
    costs an order. *)
Theorem name_due_iff sc v (now : Z) (name : bytes) (key_type : Z) :
  let seg := ngx_autocert_fs_segment inet_addr inet6_addr NGX_AUTOCERT_DOMAIN_SEG_MAX name in
  let path := name_dir sc seg ++ chain_leaf key_type in
  let key_path := name_dir sc seg ++ key_leaf key_type in
  store_path sc <> [] -> unsafe_segment name = false -> seg <> [] ->
  (length path < NGX_MAX_PATH)%nat -> (length key_path < NGX_MAX_PATH)%nat ->
  ngx_autocert_name_due inet_addr inet6_addr sc v now name key_type = true
  <-> ~ undecided v path key_path name /\ ~ usable sc v now path key_path name key_type.
Proof.
  intros seg path key_path Hp Hs Hseg Hl Hkl. unfold ngx_autocert_name_due.
  destruct (Nat.eqb_spec (length (store_path sc)) 0) as [E|_]; [by apply nil_length_inv in E|].
  rewrite Hs. cbv zeta. fold seg.
  destruct (Nat.eqb_spec (length seg) 0) as [E|_]; [by apply nil_length_inv in E|].
  unfold path, key_path, name_dir in Hl, Hkl. rewrite !length_app in Hl, Hkl. cbn [length] in Hl, Hkl.
  destruct (Nat.ltb_spec NGX_MAX_PATH (length (store_path sc) + length (live_dir sc) + 1 + length seg + length (chain_leaf key_type) + 1)); [lia|].
  destruct (Nat.ltb_spec NGX_MAX_PATH (length (store_path sc) + length (live_dir sc) + 1 + length seg + length (key_leaf key_type) + 1)); [lia|].
  fold path key_path. clearbody path key_path seg. unfold ngx_http_autocert_cert_not_after. cbv zeta.
  assert (Hgone : open_file_path v path ∈ [ENOENT; ENOTDIR; ELOOP] ->
    true = true <-> ~ undecided v path key_path name /\ ~ usable sc v now path key_path name key_type).
  { intros H1. assert (Hne : open_file_path v path <> 0) by (intros E; rewrite E in H1; unfold ENOENT, ENOTDIR, ELOOP in H1; set_solver).
    split; [|done]. intros _. split.
    - intros [Hu|(leaf & Hlf & _)]; [by eapply absent_readable|by eapply absent_holds].
    - intros (leaf & ? & ? & Hlf & _). by eapply absent_holds. }
  apply (open_cases v (pem_read_x509 v) path); cbv beta iota.
  - intros Hu. split; [done|]. intros [Hn _]. destruct Hn. by left.
  - intros H1. apply Hgone. set_solver.
  - intros H1. apply Hgone. set_solver.
  - intros Hop Hb. destruct (pem_read_x509 v path) as [[[leaf|] errno] queue] eqn:Ep.
    2: { destruct (ngx_http_autocert_pem_read_transient errno queue) eqn:Et.
         - split; [done|]. intros [Hn _]. destruct Hn. left. right. split; [done|]. right. by rewrite Ep.
         - split; [|done]. intros _. split.
           + intros [Hu|(leaf & (_ & _ & E) & _)]; [|by rewrite Ep in E]. revert Hu. apply read_readable; [done..|]. by rewrite Ep.
           + intros (leaf & ? & ? & (_ & _ & E) & _). by rewrite Ep in E. }
    assert (Hlf : holds v (pem_read_x509 v) path leaf) by (split; [done|split; [done|by rewrite Ep]]).
    assert (Hr : ~ unreadable v (pem_read_x509 v) path) by (apply read_readable; rewrite ?Ep; done).
    cbv beta iota. rewrite (checked_covers v leaf name Hs).
    destruct (covers v leaf name) eqn:Hc; cbn [negb].
    + exact (leaf_cases sc v now path key_path name key_type leaf Hlf Hc Hr).
    + split; [|done]. intros _. split.
      * intros [?|(leaf' & (_ & _ & E) & ? & _)]; [done|]. rewrite Ep in E. injection E as <-. congruence.
      * intros (leaf' & ? & ? & (_ & _ & E) & ? & _). rewrite Ep in E. injection E as <-. congruence.
Qed.
End Decision.

(** ** Examples *)

(** A disk where the files of the list are there; each parses, pairs, and covers
    every name; the leaf is an EC certificate expiring on 2026-01-01. *)
Definition disk_ex (files : list bytes) : view unit unit :=
  View unit unit (fun p => if bool_decide (p ∈ files) then 0 else ENOENT) (fun _ => true)
    (fun _ => (Some tt, 0, [])) (fun _ => (Some tt, 0, [])) (fun _ _ => 1) (fun _ _ => true) (fun _ _ => true)
    (fun _ => Some (Tm 0 0 0 1 0 126)) (fun _ => Some EVP_PKEY_EC).

Definition store_ex : store_conf := StoreConf (str "/store") false 604800.

(** A week before its expiry a certificate becomes due; a second earlier it is not. *)
Example due_on_time :
  let files := [str "/store/a.example/fullchain.pem"; str "/store/a.example/privkey.pem"] in
  let due now := ngx_autocert_name_due ex_inet_addr ex_inet6_addr store_ex (disk_ex files) now (str "a.example") 0 in
  due 1766620799 = false /\ due 1766620800 = true.
Proof. vm_compute. done. Qed.

(** A name of 256 bytes is not refused as a segment, and its certificate may be for any name; with one byte less it is
    due (driver.c:1453 has such names "already rejected as unsafe segments above"). *)
Definition disk_off (name : bytes) : view unit unit :=
  View unit unit (fun p => if bool_decide (p = str "/store/" ++ name ++ str "/fullchain.pem"
                                           \/ p = str "/store/" ++ name ++ str "/privkey.pem") then 0 else ENOENT)
    (fun _ => true) (fun _ => (Some tt, 0, [])) (fun _ => (Some tt, 0, [])) (fun _ _ => 1) (fun _ _ => false)
    (fun _ _ => false) (fun _ => Some (Tm 0 0 0 1 0 126)) (fun _ => Some EVP_PKEY_EC).

Example long_name_unchecked :
  let due n := let name := replicate n 97 in
    ngx_autocert_name_due ex_inet_addr ex_inet6_addr store_ex (disk_off name) 1700000000 name 0 in
  due 255%nat = true /\ due 256%nat = false.
Proof. vm_compute. done. Qed.

(** A chain without its key is due at once. *)
Lemma name_due_iff_witness :
  ngx_autocert_name_due ex_inet_addr ex_inet6_addr store_ex
    (disk_ex [str "/store/a.example/fullchain.pem"]) 1700000000 (str "a.example") 0 = true.
Proof.
  apply (name_due_iff ex_inet_addr ex_inet6_addr store_ex (disk_ex [str "/store/a.example/fullchain.pem"]) 1700000000
           (str "a.example") 0).
  - done.
  - vm_compute. reflexivity.
  - vm_compute. discriminate.
  - apply Nat.ltb_lt. vm_compute. reflexivity.
  - apply Nat.ltb_lt. vm_compute. reflexivity.
  - assert (Hgone : open_file_path (disk_ex [str "/store/a.example/fullchain.pem"])
      (name_dir store_ex (ngx_autocert_fs_segment ex_inet_addr ex_inet6_addr NGX_AUTOCERT_DOMAIN_SEG_MAX (str "a.example"))
       ++ key_leaf 0) = ENOENT) by (vm_compute; reflexivity).
    split.
    + intros [[H|[_ [H|[H _]]]]|(leaf & _ & _ & [[H|[H _]]|[H _]])].
      * apply H. vm_compute. left.
      * discriminate H.
      * discriminate H.
      * apply H. rewrite Hgone. set_solver.
      * by rewrite Hgone in H.
      * by rewrite Hgone in H.
    + intros (leaf & key & t & _ & _ & [H _] & _). by rewrite Hgone in H.
Defined.
