(* ===== verification/Http.v ===== *)
(** * The ACME HTTP client (src/src/ngx_autocert_acme.c): definitions

    URL parsing and the origin pin, the request writer, and the incremental
    response parser with its chunked decoder.  The receive buffer is the list of
    bytes from [b->start] to [b->last]; pointers into it are offsets, and a read
    outside it is a [Fault].  Pool allocations are numbered and may fail. *)

From S2P Require Import Prelude NgxCore.

Local Open Scope Z_scope.
Local Open Scope prog_scope.

Definition CRLF : bytes := [13; 10].

(** ** Requests: URL and origin *)

(** The fields of the request the URL parser fills in. *)
Record url_parts := Url { host : bytes; host_is_ipv6 : bool; port : Z; uri : bytes }.

Definition ngx_autocert_acme_url_part_safe (s : bytes) : bool :=
  forallb (fun ch => negb ((ch <? 0x21) || (ch =? 0x7f))) s.

(** [while (host_end < last && *host_end != ':' && *host_end != '/')] *)
Fixpoint host_span (p : bytes) : nat :=
  match p with
  | [] => 0
  | c :: p' => if (c =? 58) || (c =? 47) then 0 else S (host_span p')
  end.

(** [while (pe < last && *pe != '/')] *)
Fixpoint port_span (p : bytes) : nat :=
  match p with
  | [] => 0
  | c :: p' => if c =? 47 then 0 else S (port_span p')
  end.

(** The authority: the host, whether it was bracketed, and what follows it.
    The search for the closing bracket starts at the opening one. *)
Definition parse_authority (p : bytes) : option (bytes * bool * bytes) :=
  match p with
  | [] => None
  | 91 :: rest =>
      match ngx_strlchr p 93 with
      | None => None
      | Some e =>
          if (e <=? 1)%nat then None
          else Some (take (e - 1) rest, true, drop (e + 1) p)
      end
  | _ =>
      let e := host_span p in
      if (e <=? 0)%nat then None else Some (take e p, false, drop e p)
  end.

(** The optional port and what follows it. *)
Definition parse_port (p : bytes) : option (Z * bytes) :=
  match p with
  | 58 :: rest =>
      let pe := port_span rest in
      if (pe =? 0)%nat then None
      else
        let n := ngx_atoi (take pe rest) in
        if (n =? NGX_ERROR) || (n <? 1) || (65535 <? n) then None
        else Some (n, drop pe rest)
  | _ => Some (443, p)
  end.

(** [oom]: the pool returned NULL for the host copy. *)
Definition ngx_autocert_acme_parse_url (url : bytes) (oom : bool) : option url_parts :=
  let scheme := str "https://" in
  if (length url <=? length scheme)%nat then None
  else
    match ngx_strncasecmp url scheme (length scheme) with
    | Some 0 =>
        match parse_authority (drop (length scheme) url) with
        | None => None
        | Some (h, v6, rest) =>
            match parse_port rest with
            | None => None
            | Some (prt, p) =>
                match (match p with 47 :: _ => Some p | [] => Some [47] | _ => None end) with
                | None => None
                | Some u =>
                    if negb (ngx_autocert_acme_url_part_safe h)
                       || negb (ngx_autocert_acme_url_part_safe u) then None
                    else if oom then None
                    else Some (Url h v6 prt u)
                end
            end
        end
    | _ => None
    end.

(** The client's origin pin. *)
Record client := Client {
  origin_host : bytes; origin_port : Z; origin_is_ipv6 : bool; origin_pinned : bool
}.

Definition ngx_autocert_acme_client_set_origin (c : client) (dir_url : bytes) (oom : bool)
    : option client :=
  match ngx_autocert_acme_parse_url dir_url oom with
  | None => None
  | Some u => Some (Client (host u) (port u) (host_is_ipv6 u) true)
  end.

(** A request may have no client. *)
Definition ngx_autocert_acme_check_origin (c : option client) (u : url_parts) : option bool :=
  match c with
  | None => Some true
  | Some c =>
      if negb (origin_pinned c) then Some true
      else if negb (port u =? origin_port c)
              || negb (Bool.eqb (host_is_ipv6 u) (origin_is_ipv6 c))
              || negb (length (host u) =? length (origin_host c))%nat
      then Some false
      else match ngx_strncasecmp (host u) (origin_host c) (length (host u)) with
           | None => None
           | Some r => Some (r =? 0)
           end
  end.

(** ** Requests: the bytes sent *)

Definition NGX_OFF_T_LEN : nat := 20.

(** The size of the buffer allocated for the request. *)
Definition request_len (method content_type body : bytes) (u : url_parts) : nat :=
  (length method + 1 + length (uri u) + length (str " HTTP/1.1" ++ CRLF)
   + length (str "Host: ") + length (host u)
   + (if host_is_ipv6 u then 2 else 0)
   + (if negb (port u =? 443)%Z then length (str ":65535") else 0)
   + length CRLF
   + length (str "User-Agent: ngx-autocert" ++ CRLF)
   + length (str "Accept: application/json" ++ CRLF)
   + length (str "Connection: close" ++ CRLF)
   + length CRLF
   + (if (length body =? 0)%nat then 0
      else length (str "Content-Type: ") + length content_type + length CRLF
           + length (str "Content-Length: ") + NGX_OFF_T_LEN + length CRLF + length body))%nat.

Definition request_bytes (method content_type body : bytes) (u : url_parts) : bytes :=
  method ++ [32] ++ uri u ++ str " HTTP/1.1" ++ CRLF
  ++ str "Host: " ++ (if host_is_ipv6 u then [91] else []) ++ host u
  ++ (if host_is_ipv6 u then [93] else [])
  ++ (if negb (port u =? 443)%Z then 58 :: ngx_sprintf_d (port u) else [])
  ++ CRLF
  ++ str "User-Agent: ngx-autocert" ++ CRLF
  ++ str "Accept: application/json" ++ CRLF
  ++ str "Connection: close" ++ CRLF
  ++ (if (length body =? 0)%nat then []
      else str "Content-Type: " ++ content_type ++ CRLF
           ++ str "Content-Length: " ++ ngx_sprintf_d (Z.of_nat (length body)) ++ CRLF)
  ++ CRLF
  ++ (if (length body =? 0)%nat then [] else body).

(** NULL (out of memory) is [None]; writing past the allocated [len] is [Fault]. *)
Definition ngx_autocert_acme_build_request (method content_type body : bytes) (u : url_parts)
    (oom : bool) : outcome unit bytes :=
  let ct := if (length content_type =? 0)%nat then str "application/jose+json" else content_type in
  if oom then Err tt
  else
    let out := request_bytes method ct body u in
    if (length out <=? request_len method ct body u)%nat then Ret out tt else Fault.

(** ** Searching the receive buffer *)

(** [ngx_autocert_memmem] over the range [hay]; the offset of the first match. *)
Fixpoint memmem_loop (hay needle : bytes) (i : nat) : option nat :=
  if (length hay <? length needle)%nat then None
  else match ngx_memcmp hay needle (length needle) with
       | Some 0 => Some i
       | _ => match hay with
              | [] => None
              | _ :: hay' => memmem_loop hay' needle (S i)
              end
       end.

Definition ngx_autocert_memmem (hay needle : bytes) : option nat :=
  if (length needle =? 0)%nat || (length hay <? length needle)%nat then None
  else memmem_loop hay needle 0.

(** ** Responses *)

(** Header names are matched whole, in any case; the first match wins. *)
Fixpoint ngx_autocert_acme_header (headers : list (bytes * bytes)) (name : bytes) : option bytes :=
  match headers with
  | [] => None
  | (n, v) :: hs =>
      if (length n =? length name)%nat
         && match ngx_strncasecmp n name (length name) with Some r => r =? 0 | None => false end
      then Some v
      else ngx_autocert_acme_header hs name
  end.

Definition NGX_AUTOCERT_DECHUNK_CHUNKS : Z := 0.
Definition NGX_AUTOCERT_DECHUNK_TRAILER_START : Z := 1.
Definition NGX_AUTOCERT_DECHUNK_TRAILER_NONEMPTY : Z := 2.

(** The parse state and the outputs of [ngx_autocert_acme_request_t]; [allocs]
    counts the pool requests made by the parser. *)
Record resp := Resp {
  headers_done : bool; chunked : bool; content_length : Z; body_offset : nat;
  hdr_scan_pos : nat; dechunk_pos : nat; dechunk_total : nat; dechunk_state : Z;
  status : Z; headers : list (bytes * bytes); body_out : bytes; allocs : nat
}.

(** A request before its response: [ngx_autocert_acme_request]'s initial values. *)
Definition resp0 : resp := Resp false false (-1) 0 0 0 0 NGX_AUTOCERT_DECHUNK_CHUNKS 0 [] [] 0.

Definition set_headers_done (r : resp) : resp :=
  let 'Resp _ ck cl bo hs dp dt ds st hd ou al := r in Resp true ck cl bo hs dp dt ds st hd ou al.
Definition set_chunked (r : resp) : resp :=
  let 'Resp h _ cl bo hs dp dt ds st hd ou al := r in Resp h true cl bo hs dp dt ds st hd ou al.
Definition set_content_length (x : Z) (r : resp) : resp :=
  let 'Resp h ck _ bo hs dp dt ds st hd ou al := r in Resp h ck x bo hs dp dt ds st hd ou al.
Definition set_body_offset (x : nat) (r : resp) : resp :=
  let 'Resp h ck cl _ hs dp dt ds st hd ou al := r in Resp h ck cl x hs dp dt ds st hd ou al.
Definition set_hdr_scan_pos (x : nat) (r : resp) : resp :=
  let 'Resp h ck cl bo _ dp dt ds st hd ou al := r in Resp h ck cl bo x dp dt ds st hd ou al.
Definition set_cursor (pos total : nat) (state : Z) (r : resp) : resp :=
  let 'Resp h ck cl bo hs _ _ _ st hd ou al := r in Resp h ck cl bo hs pos total state st hd ou al.
Definition set_status (x : Z) (r : resp) : resp :=
  let 'Resp h ck cl bo hs dp dt ds _ hd ou al := r in Resp h ck cl bo hs dp dt ds x hd ou al.
Definition set_headers (x : list (bytes * bytes)) (r : resp) : resp :=
  let 'Resp h ck cl bo hs dp dt ds st _ ou al := r in Resp h ck cl bo hs dp dt ds st x ou al.
Definition set_body_out (x : bytes) (r : resp) : resp :=
  let 'Resp h ck cl bo hs dp dt ds st hd _ al := r in Resp h ck cl bo hs dp dt ds st hd x al.
Definition set_allocs (x : nat) (r : resp) : resp :=
  let 'Resp h ck cl bo hs dp dt ds st hd ou _ := r in Resp h ck cl bo hs dp dt ds st hd ou x.

Section Response.
(** The buffer contents, and the pool's verdict on the n-th request (true: NULL). *)
Context (b : bytes) (oom : nat -> bool).

Abbreviation P := (prog resp).

Definition modify (f : resp -> resp) : P unit := fun r => Ret tt (f r).
Definition gets {A} (f : resp -> A) : P A := fun r => Ret (f r) r.

(** [b->start[i]], and the [n] bytes from [i]. *)
Definition byte_at (i : nat) : P Z :=
  match b !! i with Some c => ret c | None => fault end.
Definition bytes_at (i n : nat) : P bytes :=
  match slice b i n with Some s => ret s | None => fault end.

(** [memmem] over [from, until): the offset, absolute, of the match. *)
Definition find (from until : nat) (needle : bytes) : P (option nat) :=
  if (until <? from)%nat then fault
  else let! hay := bytes_at from (until - from) in
       ret ((fun i => (from + i)%nat) <$> ngx_autocert_memmem hay needle).

(** true when the allocation succeeded *)
Definition palloc : P bool :=
  fun r => Ret (negb (oom (allocs r))) (set_allocs (S (allocs r)) r).

Definition is_blank (c : Z) : bool := (c =? 32) || (c =? 9).

(** [while (v < eol && blank( *v)) v++], with [eol = v + n]. *)
Fixpoint skip_blank (n v : nat) : P nat :=
  match n with
  | O => ret v
  | S n' => let! c := byte_at v in if is_blank c then skip_blank n' (S v) else ret v
  end.

(** [while (vend > v && blank(vend[-1])) vend--], with [vend = v + n]. *)
Fixpoint trim_blank (n v : nat) : P nat :=
  match n with
  | O => ret v
  | S n' => let! c := byte_at (v + n')%nat in if is_blank c then trim_blank n' v else ret (v + n)%nat
  end.

(** [(eol - line) > len && ngx_strncasecmp(line, name, len) == 0] *)
Definition line_is (line eol : nat) (name : bytes) : P bool :=
  if (length name <? eol - line)%nat then
    let! s := bytes_at line (length name) in
    match ngx_strncasecmp s name (length name) with
    | Some r => ret (r =? 0)
    | None => fault
    end
  else ret false.

(** Capture one header as a (name, value) pair. *)
Definition capture_header (line eol : nat) : P unit :=
  let! colon := find line eol [58] in
  match colon with
  | Some c =>
      if (line <? c)%nat then
        let! v := skip_blank (eol - S c) (S c) in
        let! vend := trim_blank (eol - v) v in
        let! ok := palloc in
        if negb ok then fail
        else
          let! okn := palloc in
          let! okv := palloc in
          if negb okn || (negb (vend - v =? 0)%nat && negb okv) then fail
          else
            let! name := bytes_at line (c - line) in
            let! value := bytes_at v (vend - v) in
            modify (fun r => set_headers (headers r ++ [(name, value)]) r)
      else ret tt
  | None => ret tt
  end.

(** The framing headers. *)
Definition framing_header (line eol : nat) : P unit :=
  let cl := str "Content-Length:" in
  let te := str "Transfer-Encoding:" in
  let! is_cl := line_is line eol cl in
  if is_cl then
    let! v := skip_blank (eol - (line + length cl)) (line + length cl) in
    let! s := bytes_at v (eol - v) in
    let n := ngx_atoof s in
    let! old := gets content_length in
    if (n =? NGX_ERROR) || (n <? 0) || ((0 <=? old) && negb (old =? n)) then fail
    else modify (set_content_length n)
  else
    let! is_te := line_is line eol te in
    if is_te then
      let! v := skip_blank (eol - (line + length te)) (line + length te) in
      if (eol - v =? length (str "chunked"))%nat then
        let! s := bytes_at v (eol - v) in
        match ngx_strncasecmp s (str "chunked") (length (str "chunked")) with
        | Some 0 => modify set_chunked
        | Some _ => fail
        | None => fault
        end
      else fail
    else ret tt.

(** [while (line < limit)]; at least two bytes are consumed each time round. *)
Fixpoint header_loop (fuel line limit : nat) : P unit :=
  match fuel with
  | O => nofuel
  | S f =>
      if (line <? limit)%nat then
        let! e := find line limit CRLF in
        let eol := match e with Some e => e | None => limit end in
        capture_header line eol;;
        framing_header line eol;;
        header_loop f (eol + 2) limit
      else ret tt
  end.

(** The status line, up to [hdr_end]. Its end is returned. *)
Definition status_line (hdr_end : nat) : P nat :=
  let! e := find 0 hdr_end CRLF in
  match e with
  | None => fail
  | Some eol =>
      if (eol <? length (str "HTTP/1.0 000"))%nat then fail
      else
        let! s := bytes_at 0 7 in
        match ngx_strncmp s (str "HTTP/1.") 7 with
        | None => fault
        | Some r =>
            if negb (r =? 0) then fail
            else
              let! c7 := byte_at 7 in
              let! c8 := byte_at 8 in
              if (negb (c7 =? 48) && negb (c7 =? 49)) || negb (c8 =? 32) then fail
              else
                let! s := bytes_at 9 3 in
                let code := ngx_atoi s in
                if (code =? NGX_ERROR) || (code <? 100) || (599 <? code) then fail
                else modify (set_status code);; ret eol
        end
  end.

(** The header block, once its end is known. *)
Definition parse_head (hdr_end : nat) : P unit :=
  modify (set_body_offset hdr_end);;
  let limit := (hdr_end - 2)%nat in
  let! eol := status_line hdr_end in
  let! ok := palloc in
  if negb ok then fail
  else
    modify (set_headers []);;
    header_loop (S limit) (eol + 2) limit;;
    let! r := gets id in
    if chunked r && (0 <=? content_length r) then fail
    else modify set_headers_done.

(** ** Chunked bodies *)

Definition hex_digit (c : Z) : option Z :=
  if (48 <=? c) && (c <=? 57) then Some (c - 48)
  else if (97 <=? c) && (c <=? 102) then Some (c - 97 + 10)
  else if (65 <=? c) && (c <=? 70) then Some (c - 65 + 10)
  else None.

Fixpoint chunk_size_loop (q : bytes) (size : Z) (ndigits : nat) : option (Z * nat) :=
  match q with
  | [] => Some (size, ndigits)
  | c :: q' =>
      match hex_digit c with
      | Some d =>
          if NGX_MAX_INT_T_VALUE / 16 <? size then None
          else chunk_size_loop q' (Z.lor (u64 (Z.shiftl size 4)) d) (S ndigits)
      | None => if (c =? 59) || (c =? 32) || (c =? 9) then Some (size, ndigits) else None
      end
  end.

(** The line from [p] to [eol]; [None] is NGX_ERROR. *)
Definition ngx_autocert_acme_chunk_size (line : bytes) : option Z :=
  match line with
  | [] => None
  | _ =>
      match chunk_size_loop line 0 0 with
      | Some (size, ndigits) => if (ndigits =? 0)%nat then None else Some size
      | None => None
      end
  end.

(** The trailer loop: [None] is NGX_AGAIN, [Some p] the end of the message. *)
Fixpoint trailer_loop (fuel : nat) : P (option nat) :=
  match fuel with
  | O => nofuel
  | S f =>
      let! r := gets id in
      let p := dechunk_pos r in
      let! e := find p (length b) CRLF in
      match e with
      | None =>
          let pending := (length b - p)%nat in
          if (pending =? 0)%nat then ret None
          else
            let! c := (if (dechunk_state r =? NGX_AUTOCERT_DECHUNK_TRAILER_START) && (pending =? 1)%nat
                       then byte_at p else ret 0) in
            if c =? 13 then ret None
            else
              let! z := byte_at (length b - 1) in
              modify (set_cursor (length b - (if z =? 13 then 1 else 0)) (dechunk_total r)
                        NGX_AUTOCERT_DECHUNK_TRAILER_NONEMPTY);;
              ret None
      | Some eol =>
          if (dechunk_state r =? NGX_AUTOCERT_DECHUNK_TRAILER_START) && (eol =? p)%nat then
            ret (Some (eol + 2)%nat)
          else
            modify (set_cursor (eol + 2) (dechunk_total r) NGX_AUTOCERT_DECHUNK_TRAILER_START);;
            trailer_loop f
      end
  end.

(** The first pass over the chunks, from the cursor. *)
Fixpoint chunk_loop (fuel : nat) : P (option nat) :=
  match fuel with
  | O => nofuel
  | S f =>
      let! r := gets id in
      let p := dechunk_pos r in
      let! e := find p (length b) CRLF in
      match e with
      | None => ret None
      | Some eol =>
          let! line := bytes_at p (eol - p) in
          match ngx_autocert_acme_chunk_size line with
          | None => fail
          | Some size =>
              let p := (eol + 2)%nat in
              if size =? 0 then
                modify (set_cursor p (dechunk_total r) NGX_AUTOCERT_DECHUNK_TRAILER_START);;
                trailer_loop (S (length b))
              else
                let left := (length b - p)%nat in
                if (left <? 2)%nat || (Z.of_nat (left - 2) <? size) then ret None
                else
                  let q := (p + Z.to_nat size)%nat in
                  let! t := bytes_at q 2 in
                  match ngx_memcmp t CRLF 2 with
                  | None => fault
                  | Some c =>
                      if negb (c =? 0) then fail
                      else
                        modify (set_cursor (q + 2) (dechunk_total r + Z.to_nat size) (dechunk_state r));;
                        chunk_loop f
                  end
          end
      end
  end.

(** The second pass: the chunks' data, copied into a block of [total] bytes. *)
Fixpoint copy_loop (fuel : nat) (p total : nat) (o : bytes) : P bytes :=
  match fuel with
  | O => nofuel
  | S f =>
      let! e := find p (length b) CRLF in
      match e with
      | None => fault
      | Some eol =>
          let! line := bytes_at p (eol - p) in
          match ngx_autocert_acme_chunk_size line with
          | None => fail
          | Some size =>
              if size =? 0 then ret o
              else
                let! s := bytes_at (eol + 2) (Z.to_nat size) in
                if (length o + length s <=? total)%nat then
                  copy_loop f (eol + 2 + Z.to_nat size + 2) total (o ++ s)
                else fault
          end
      end
  end.

(** The code, NGX_DONE or NGX_AGAIN; NGX_ERROR is the error outcome. *)
Definition ngx_autocert_acme_dechunk : P Z :=
  let! r := gets id in
  (if (dechunk_pos r =? 0)%nat
   then modify (set_cursor (body_offset r) 0 (dechunk_state r)) else ret tt);;
  let! stop := (if negb (dechunk_state r =? NGX_AUTOCERT_DECHUNK_CHUNKS)
                then trailer_loop (S (length b)) else chunk_loop (S (length b))) in
  match stop with
  | None => ret NGX_AGAIN
  | Some _ =>
      let! ok := palloc in
      if negb ok then fail
      else
        let! r := gets id in
        let! o := copy_loop (S (length b)) (body_offset r) (dechunk_total r) [] in
        modify (set_body_out o);;
        ret NGX_DONE
  end.

(** ** One parse of what has been received so far *)

Definition ngx_autocert_acme_parse_response : P Z :=
  let! r := gets id in
  let! found :=
    (if headers_done r then ret true
     else
       let total := length b in
       let scan_from := if (3 <? hdr_scan_pos r)%nat then (hdr_scan_pos r - 3)%nat else 0%nat in
       let! e := find scan_from total (CRLF ++ CRLF) in
       match e with
       | None => modify (set_hdr_scan_pos total);; ret false
       | Some e => parse_head (e + 4);; ret true
       end) in
  if negb found then ret NGX_AGAIN
  else
    let! r := gets id in
    if chunked r then ngx_autocert_acme_dechunk
    else if 0 <=? content_length r then
      let have := Z.of_nat (length b - body_offset r) in
      if content_length r <=? have then
        let! s := bytes_at (body_offset r) (Z.to_nat (content_length r)) in
        modify (set_body_out s);;
        ret NGX_DONE
      else ret NGX_AGAIN
    else ret NGX_AGAIN.
End Response.

(** ** The read event *)

Definition NGX_AUTOCERT_RECV_MAX : nat := Z.to_nat (256 * 1024).
Definition NGX_AUTOCERT_RECV_INIT : nat := Z.to_nat (16 * 1024).

(** What [c->recv] returned. *)
Inductive recv_result : Type :=
  | RecvAgain
  | RecvError
  | RecvEof
  | RecvData (x : bytes).

(** The receive buffer and its capacity, and the request. *)
Record reader := Reader { recv_buf : bytes; recv_cap : nat; response : resp }.

(** [c->recv] returned 0: the peer closed. The code [finalize] is called with. *)
Definition read_eof (b : bytes) (r : resp) : outcome resp Z :=
  if negb (headers_done r) then Ret NGX_ERROR r
  else if chunked r then Ret NGX_ERROR r
  else
    let have := Z.of_nat (length b) - Z.of_nat (body_offset r) in
    if (0 <=? content_length r) && (have <? content_length r) then Ret NGX_ERROR r
    else
      match slice b (body_offset r) (length b - body_offset r) with
      | None => Fault
      | Some s => Ret NGX_OK (set_body_out s r)
      end.

Section Reading.
(** The verdict of the pool, and of [ngx_palloc] for the larger buffer; whether
    the deadline is still ahead and the event could be re-armed. *)
Context (oom : nat -> bool) (grow_oom : bool) (remaining : bool) (event_ok : bool).

(** The loop of the handler, over the results of successive calls of [recv];
    [None]: it returned to wait for more. *)
Fixpoint read_loop (results : list recv_result) (rd : reader) : outcome reader (option Z) :=
  match results with
  | [] => Ret None rd
  | res :: results' =>
      let avail := (recv_cap rd - length (recv_buf rd))%nat in
      if (avail =? 0)%nat && (NGX_AUTOCERT_RECV_MAX <=? recv_cap rd)%nat then Ret (Some NGX_ERROR) rd
      else if (avail =? 0)%nat && grow_oom then Ret (Some NGX_ERROR) rd
      else
        let cap := if (avail =? 0)%nat then NGX_AUTOCERT_RECV_MAX else recv_cap rd in
        let rd := Reader (recv_buf rd) cap (response rd) in
        match res with
        | RecvAgain =>
            if negb remaining || negb event_ok then Ret (Some NGX_ERROR) rd else Ret None rd
        | RecvError => Ret (Some NGX_ERROR) rd
        | RecvEof =>
            match read_eof (recv_buf rd) (response rd) with
            | Ret rc r => Ret (Some rc) (Reader (recv_buf rd) cap r)
            | Err r => Err (Reader (recv_buf rd) cap r)
            | Fault => Fault
            | NoFuel => NoFuel
            end
        | RecvData x =>
            let b := recv_buf rd ++ x in
            match ngx_autocert_acme_parse_response b oom (response rd) with
            | Ret code r =>
                if code =? NGX_DONE then Ret (Some NGX_OK) (Reader b cap r)
                else read_loop results' (Reader b cap r)
            | Err r => Ret (Some NGX_ERROR) (Reader b cap r)
            | Fault => Fault
            | NoFuel => NoFuel
            end
        end
  end.

Definition ngx_autocert_acme_read_handler (timedout : bool) (results : list recv_result) (rd : reader)
    : outcome reader (option Z) :=
  if timedout then Ret (Some NGX_ERROR) rd else read_loop results rd.

End Reading.

Definition reader0 : reader := Reader [] NGX_AUTOCERT_RECV_INIT resp0.
