(* ===== verification/HttpChunk.v ===== *)
(** * The ACME HTTP client: the chunked decoder

    The chunked coding as a grammar, and the two passes of the decoder against
    it: on any buffer the scan is safe and stops only at the end of a well-formed
    body, and a well-formed body is always recognised and decoded. *)

From S2P Require Import Prelude NgxCore Http.

Local Open Scope Z_scope.
Local Open Scope prog_scope.

(** ** The ACME HTTP client: searching and chunk-size lines

    What a search of the receive buffer finds, that it is unchanged by bytes
    arriving after the range searched, and the values of chunk-size lines. *)

(** ** [ngx_autocert_memmem] *)

Lemma memmem_loop_spec hay needle k :
  needle <> [] ->
  match memmem_loop hay needle k with
  | Some i => (k <= i)%nat /\ needle `prefix_of` drop (i - k) hay
              /\ forall j, (j < i - k)%nat -> ~ needle `prefix_of` drop j hay
  | None => forall j, ~ needle `prefix_of` drop j hay
  end.
Proof.
  intros Hn. revert k. induction hay as [|c hay IH]; intros k; cbn [memmem_loop].
  - assert (H0 : forall j, ~ needle `prefix_of` drop j []).
    { intros j H. rewrite drop_nil in H. by apply prefix_nil_inv in H. }
    destruct (_ <? _)%nat eqn:E; [done|]. reflect_bools. simpl in E. destruct needle; [done|simpl in E; lia].
  - destruct (_ <? _)%nat eqn:E; reflect_bools.
    { intros j H. apply prefix_length in H. rewrite length_drop in H. lia. }
    destruct (memcmp_prefix (c :: hay) needle E) as (r & -> & Hr).
    destruct (decide (r = 0)) as [->|Hr0].
    { split; [lia|]. rewrite Nat.sub_diag, drop_0. split; [by apply Hr|]. intros j. lia. }
    assert (Hno : ~ needle `prefix_of` drop 0 (c :: hay)) by (rewrite drop_0; intros ?; by apply Hr0, Hr).
    assert (Hcase : memmem_loop hay needle (S k) = match r with 0 => Some k | _ => memmem_loop hay needle (S k) end)
      by (destruct r; [done|done|done]).
    rewrite <- Hcase. clear Hcase. specialize (IH (S k)).
    destruct (memmem_loop hay needle (S k)) as [i|].
    + destruct IH as (Hk & Hp & Hf). split; [lia|]. replace (i - k)%nat with (S (i - S k)) by lia.
      split; [done|]. intros [|j] Hj; [done|]. simpl. apply Hf. lia.
    + intros [|j]; [done|]. apply IH.
Qed.

(** ** Finding in a range *)

(** [e] is the first match of [needle] inside [from, until) of [b]. *)
Definition first_at (b : bytes) (from until : nat) (needle : bytes) (e : option nat) : Prop :=
  match e with
  | Some i => (from <= i)%nat /\ (i + length needle <= until)%nat /\ needle `prefix_of` drop i b
              /\ forall j, (from <= j < i)%nat -> ~ needle `prefix_of` drop j b
  | None => forall j, (from <= j)%nat -> (j + length needle <= until)%nat -> ~ needle `prefix_of` drop j b
  end.

Lemma first_at_unique b from until needle e e' :
  first_at b from until needle e -> first_at b from until needle e' -> e = e'.
Proof.
  intros H H'. destruct e as [i|], e' as [i'|]; simpl in *; [|exfalso|exfalso|done].
  - destruct H as (? & ? & Hp & Hf), H' as (? & ? & Hp' & Hf').
    destruct (decide (i < i')%nat); [by destruct (Hf' i ltac:(lia))|].
    destruct (decide (i' < i)%nat); [by destruct (Hf i' ltac:(lia))|]. f_equal. lia.
  - destruct H as (? & ? & Hp & _). by apply (H' i).
  - destruct H' as (? & ? & Hp & _). by apply (H i').
Qed.

Lemma prefix_take_iff (needle l : bytes) n :
  (length needle <= n)%nat -> needle `prefix_of` take n l <-> needle `prefix_of` l.
Proof.
  intros Hn. split.
  - intros [t Ht]. exists (t ++ drop n l). rewrite app_assoc, <- Ht. by rewrite take_drop.
  - intros [t ->]. exists (take (n - length needle) t). by rewrite take_app, take_ge by done.
Qed.

Lemma find_spec b from until needle :
  needle <> [] -> (from <= until <= length b)%nat ->
  exists e, (forall s, find b from until needle s = Ret e s) /\ first_at b from until needle e.
Proof.
  intros Hn Hr. unfold find. destruct (Nat.ltb_spec until from); [lia|].
  unfold bytes_at, slice. destruct (Nat.leb_spec (from + (until - from)) (length b)); [|lia].
  set (hay := take (until - from) (drop from b)).
  eexists. split; [intros s; reflexivity|].
  assert (Hd : forall j, (from <= j)%nat -> (j + length needle <= until)%nat ->
            needle `prefix_of` drop (j - from) hay <-> needle `prefix_of` drop j b).
  { intros j Hj Hju. unfold hay. rewrite skipn_firstn_comm, drop_drop.
    replace (from + (j - from))%nat with j by lia. apply prefix_take_iff. lia. }
  unfold ngx_autocert_memmem.
  assert (Hlen : length hay = (until - from)%nat) by (unfold hay; rewrite length_take, length_drop; lia).
  assert (Hpos : (0 < length needle)%nat) by (destruct needle; [done|simpl; lia]).
  destruct (length needle =? 0)%nat eqn:E0; reflect_bools; [lia|]. simpl.
  destruct (Nat.ltb_spec (length hay) (length needle)).
  { simpl. intros j ? ?. lia. }
  pose proof (memmem_loop_spec hay needle 0 Hn) as Hm.
  destruct (memmem_loop hay needle 0) as [i|]; simpl.
  - destruct Hm as (_ & Hp & Hf). rewrite Nat.sub_0_r in Hp, Hf.
    assert (i + length needle <= until - from)%nat.
    { apply prefix_length in Hp. rewrite length_drop in Hp. lia. }
    split; [lia|]. split; [lia|]. split.
    + apply (Hd (from + i)%nat); [lia|lia|]. by replace (from + i - from)%nat with i by lia.
    + intros j Hj Hpj. apply (Hf (j - from)%nat); [lia|]. apply Hd; [lia|lia|done].
  - intros j Hj Hju Hpj. apply (Hm (j - from)%nat). by apply Hd.
Qed.

(** Bytes that arrive later do not change what was found. *)
Lemma prefix_drop_app b x (needle : bytes) j :
  (j + length needle <= length b)%nat ->
  needle `prefix_of` drop j (b ++ x) <-> needle `prefix_of` drop j b.
Proof.
  intros Hj. rewrite drop_app_le by lia.
  rewrite <- (prefix_take_iff needle (drop j b ++ x) (length (drop j b))) by (rewrite length_drop; lia).
  by rewrite take_app_length.
Qed.

Lemma first_at_app b x from until needle e :
  (until <= length b)%nat -> first_at (b ++ x) from until needle e <-> first_at b from until needle e.
Proof.
  intros Hu.
  assert (Hp : forall j, (j + length needle <= until)%nat ->
            needle `prefix_of` drop j (b ++ x) <-> needle `prefix_of` drop j b)
    by (intros j Hj; apply prefix_drop_app; lia).
  destruct e as [i|]; simpl.
  - split; intros (Hi & Hiu & Hpi & Hf); (split; [done|]); (split; [done|]);
      (split; [by apply (Hp i Hiu)|]); intros j Hj Hpj; apply (Hf j Hj), Hp; (done || lia).
  - split; intros Hf j Hj Hju Hpj; apply (Hf j Hj Hju); by apply Hp.
Qed.

(** ** Chunk-size lines *)

Definition is_hex (c : Z) : bool := match hex_digit c with Some _ => true | None => false end.
Definition hexd (c : Z) : Z := match hex_digit c with Some d => d | None => 0 end.
Definition hex_acc (v : Z) (l : bytes) : Z := fold_left (fun v c => v * 16 + hexd c) l v.

(** What may follow the digits: nothing, or an extension. *)
Definition chunk_ext (l : bytes) : Prop :=
  l = [] \/ exists c t, l = c :: t /\ (c = 59 \/ c = 32 \/ c = 9).

Definition chunk_size_of (line : bytes) (n : Z) : Prop :=
  exists ds ext, line = ds ++ ext /\ ds <> [] /\ forallb is_hex ds = true /\ chunk_ext ext
                 /\ n = hex_acc 0 ds /\ n <= NGX_MAX_INT_T_VALUE.

Lemma hex_digit_range c d : hex_digit c = Some d -> 0 <= d < 16.
Proof. unfold hex_digit. intros H. repeat case_match; simplify_eq; reflect_bools; lia. Qed.

Lemma hexd_range c : 0 <= hexd c < 16.
Proof. unfold hexd. destruct (hex_digit c) eqn:E; [by apply hex_digit_range in E|lia]. Qed.

Lemma hex_acc_mono v l : 0 <= v -> v <= hex_acc v l.
Proof.
  revert v. induction l as [|c l IH]; intros v Hv; simpl; [done|].
  pose proof (hexd_range c). transitivity (v * 16 + hexd c); [lia|]. apply IH. lia.
Qed.

Lemma chunk_ext_head c t : chunk_ext (c :: t) -> (c = 59 \/ c = 32 \/ c = 9) /\ hex_digit c = None.
Proof. intros [?|(c' & t' & [= <- <-] & Hc)]; [done|]. split; [done|]. by destruct Hc as [->|[->| ->]]. Qed.

Lemma chunk_size_loop_spec q size k n k' :
  0 <= size <= NGX_MAX_INT_T_VALUE ->
  chunk_size_loop q size k = Some (n, k') <->
  exists ds ext, q = ds ++ ext /\ forallb is_hex ds = true /\ chunk_ext ext
                 /\ n = hex_acc size ds /\ n <= NGX_MAX_INT_T_VALUE /\ k' = (k + length ds)%nat.
Proof.
  revert size k. induction q as [|c q IH]; intros size k Hs; simpl.
  { split.
    - intros [= <- <-]. exists [], []. split; [done|]. split; [done|]. split; [by left|]. simpl. lia.
    - intros (ds & ext & He & _ & _ & -> & _ & ->). symmetry in He. apply app_nil in He as [-> ->].
      simpl. by rewrite Nat.add_0_r. }
  destruct (hex_digit c) as [d|] eqn:Ed.
  - pose proof (hex_digit_range _ _ Ed) as Hd.
    assert (Hcons : forall P : bytes -> bytes -> Prop, (exists ds ext, c :: q = ds ++ ext /\ P ds ext /\ chunk_ext ext)
              <-> exists ds ext, q = ds ++ ext /\ P (c :: ds) ext /\ chunk_ext ext).
    { intros P. split.
      - intros (ds & ext & He & HP & Hx). destruct ds as [|c' ds].
        + simpl in He. subst ext. apply chunk_ext_head in Hx as [_ Hx]. congruence.
        + injection He as <- He. by exists ds, ext.
      - intros (ds & ext & -> & HP & Hx). by exists (c :: ds), ext. }
    unfold NGX_MAX_INT_T_VALUE in *.
    destruct (Z.ltb_spec (9223372036854775807 / 16) size) as [Hbig|Hsmall].
    + split; [done|]. intros (ds & ext & He & Hh & Hx & -> & Hmax & _).
      destruct (proj1 (Hcons (fun ds _ => hex_acc size ds <= 9223372036854775807))) as (ds' & ext' & _ & Hm & _);
        [by exists ds, ext|].
      cbn [hex_acc fold_left] in Hm. fold (hex_acc (size * 16 + hexd c) ds') in Hm.
      pose proof (hexd_range c). pose proof (hex_acc_mono (size * 16 + hexd c) ds' ltac:(lia)).
      zdiv.
    + assert (Hacc : Z.lor (u64 (Z.shiftl size 4)) d = size * 16 + hexd c).
      { unfold u64. rewrite Z.shiftl_mul_pow2 by lia. change (2 ^ 4) with 16.
        rewrite Z.mod_small by zdiv. change 16 with (2 ^ 4) at 1 2. rewrite lor_add_low by lia.
        unfold hexd. by rewrite Ed. }
      rewrite Hacc, IH by (pose proof (hexd_range c); unfold hexd in *; rewrite Ed in *; zdiv).
      split.
      * intros (ds & ext & -> & Hh & Hx & -> & Hm & ->). exists (c :: ds), ext. split; [done|].
        split; [simpl; unfold is_hex at 1; by rewrite Ed|]. split; [done|]. simpl. split; [done|].
        split; [done|lia].
      * intros (ds & ext & He & Hh & Hx & -> & Hm & ->).
        destruct (proj1 (Hcons (fun ds0 _ => ds0 = ds))) as (ds' & ext' & Hq & E & Hx'); [by exists ds, ext|].
        subst ds. simpl in Hh. apply andb_true_iff in Hh as [_ Hh].
        exists ds', ext'. simpl in *. split; [done|]. split; [done|]. split; [done|]. split; [done|].
        split; [done|lia].
  - destruct ((c =? 59) || (c =? 32) || (c =? 9)) eqn:Ec.
    + split.
      * intros [= <- <-]. exists [], (c :: q). split; [done|]. split; [done|]. split; [right|simpl; lia].
        exists c, q. split; [done|]. rewrite !orb_true_iff, !Z.eqb_eq in Ec. lia.
      * intros (ds & ext & He & Hh & _ & -> & _ & ->). destruct ds as [|c' ds].
        { simpl. by rewrite Nat.add_0_r. }
        injection He as <- _. simpl in Hh. unfold is_hex in Hh. by rewrite Ed in Hh.
    + split; [done|]. intros (ds & ext & He & Hh & Hx & _). destruct ds as [|c' ds].
      * simpl in He. subst ext. apply chunk_ext_head in Hx as [Hx _].
        rewrite !orb_false_iff, !Z.eqb_neq in Ec. lia.
      * injection He as <- _. simpl in Hh. unfold is_hex in Hh. by rewrite Ed in Hh.
Qed.

Lemma chunk_size_spec line n :
  ngx_autocert_acme_chunk_size line = Some n <-> chunk_size_of line n.
Proof.
  unfold chunk_size_of.
  assert (Hl : ngx_autocert_acme_chunk_size line =
    match chunk_size_loop line 0 0 with
    | Some (size, ndigits) => if (ndigits =? 0)%nat then None else Some size
    | None => None end) by (destruct line; reflexivity).
  rewrite Hl. split.
  - intros H. destruct (chunk_size_loop line 0 0) as [[s k]|] eqn:E; [|done].
    destruct (Nat.eqb_spec k 0) as [|Hk]; [done|]. injection H as ->.
    apply chunk_size_loop_spec in E as (ds & ext & -> & Hh & Hx & -> & Hm & ->); [|done].
    exists ds, ext. split; [done|]. split; [by intros ->|]. done.
  - intros (ds & ext & -> & Hne & Hh & Hx & -> & Hm).
    assert (E : chunk_size_loop (ds ++ ext) 0 0 = Some (hex_acc 0 ds, length ds)).
    { apply chunk_size_loop_spec; [done|]. exists ds, ext. done. }
    rewrite E. by destruct ds.
Qed.

Lemma chunk_size_nonneg line n : ngx_autocert_acme_chunk_size line = Some n -> 0 <= n.
Proof.
  intros H. apply chunk_size_spec in H as (ds & ext & _ & _ & _ & _ & -> & _). by apply hex_acc_mono.
Qed.

(** ** Grammar *)

Definition crlf_free (l : bytes) : Prop := forall u v, l <> u ++ CRLF ++ v.

(** Trailer fields, one per non-empty line, up to an empty line. *)
Inductive trailers : bytes -> Prop :=
  | tr_end : trailers CRLF
  | tr_field l t : l <> [] -> crlf_free l -> trailers t -> trailers (l ++ CRLF ++ t).

(** [chunked raw d]: the bytes [raw] are the chunked coding of the body [d]. *)
Inductive chunked_body : bytes -> bytes -> Prop :=
  | cb_last line t :
      crlf_free line -> chunk_size_of line 0 -> trailers t -> chunked_body (line ++ CRLF ++ t) []
  | cb_chunk line data raw d :
      crlf_free line -> chunk_size_of line (Z.of_nat (length data)) -> data <> [] ->
      chunked_body raw d ->
      chunked_body (line ++ CRLF ++ data ++ CRLF ++ raw) (data ++ d).

Lemma crlf_free_nil : crlf_free [].
Proof. intros [|x u] v H; done. Qed.

(** ** Lines *)

Lemma wp_gets {A} (f : resp -> A) s (Q : A -> resp -> Prop) E : Q (f s) s -> wp (gets f) s Q E.
Proof. exact id. Qed.

Lemma wp_modify f s (Q : unit -> resp -> Prop) E : Q tt (f s) -> wp (modify f) s Q E.
Proof. exact id. Qed.

Section Buffer.
Context (b : bytes).

Lemma first_line p eol :
  first_at b p (length b) CRLF (Some eol) ->
  exists line t, drop p b = line ++ CRLF ++ t /\ eol = (p + length line)%nat /\ crlf_free line.
Proof.
  intros (Hp & Hu & [t Ht] & Hf). exists (take (eol - p) (drop p b)), t.
  assert (Hlen : length (take (eol - p) (drop p b)) = (eol - p)%nat).
  { rewrite length_take, length_drop. simpl in Hu. lia. }
  split; [|split; [lia|]].
  - rewrite <- Ht. rewrite <- (take_drop (eol - p) (drop p b)) at 1. rewrite drop_drop.
    by replace (p + (eol - p))%nat with eol by lia.
  - intros u v E. pose proof (f_equal length E) as El. rewrite Hlen, !length_app in El. simpl in El.
    apply (Hf (p + length u)%nat); [lia|]. exists (v ++ drop eol b).
    rewrite <- drop_drop. rewrite <- (take_drop (eol - p) (drop p b)), E, drop_drop.
    rewrite <- app_assoc, drop_app_length. rewrite <- app_assoc.
    by replace (p + (eol - p))%nat with eol by lia.
Qed.

Lemma line_first p line t :
  drop p b = line ++ CRLF ++ t -> crlf_free line ->
  first_at b p (length b) CRLF (Some (p + length line)%nat).
Proof.
  intros Hd Hf. pose proof (f_equal length Hd) as Hl. rewrite length_drop, !length_app in Hl.
  simpl in Hl. split; [lia|]. split; [simpl; lia|]. split.
  - exists t. by rewrite <- drop_drop, Hd, drop_app_length.
  - intros j Hj [w Hw]. replace j with (p + (j - p))%nat in Hw by lia.
    rewrite <- drop_drop, Hd, drop_app_le in Hw by lia.
    destruct (drop (j - p) line) as [|c [|c' u]] eqn:Eu.
    + apply (f_equal length) in Eu. rewrite length_drop in Eu. simpl in Eu. lia.
    + exfalso. simpl in Hw. congruence.
    + injection Hw as -> -> _. apply (Hf (take (j - p) line) u). simpl. rewrite <- Eu. by rewrite take_drop.
Qed.

(** ** Steps of the code on the buffer *)

Lemma wp_find from until needle (Q : option nat -> resp -> Prop) E s :
  needle <> [] -> (from <= until <= length b)%nat ->
  (forall e, first_at b from until needle e -> Q e s) -> wp (find b from until needle) s Q E.
Proof.
  intros Hn Hr HQ. destruct (find_spec b from until needle Hn Hr) as (e & He & Hf).
  unfold wp. rewrite He. by apply HQ.
Qed.

Lemma wp_bytes_at i n (Q : bytes -> resp -> Prop) E s :
  (i + n <= length b)%nat -> Q (take n (drop i b)) s -> wp (bytes_at b i n) s Q E.
Proof.
  intros Hi HQ. unfold bytes_at, slice. destruct (Nat.leb_spec (i + n) (length b)); [exact HQ|lia].
Qed.

Lemma wp_byte_at i (Q : Z -> resp -> Prop) E s :
  (i < length b)%nat -> (forall c, b !! i = Some c -> Q c s) -> wp (byte_at b i) s Q E.
Proof.
  intros Hi HQ. unfold byte_at. destruct (lookup_lt_is_Some_2 b i Hi) as [c Hc]. rewrite Hc.
  by apply HQ.
Qed.

Lemma run_find_line p line t s :
  drop p b = line ++ CRLF ++ t -> crlf_free line ->
  find b p (length b) CRLF s = Ret (Some (p + length line)%nat) s.
Proof.
  intros Hd Hf. pose proof (line_first _ _ _ Hd Hf) as H1. pose proof H1 as (_ & Hu & _).
  destruct (find_spec b p (length b) CRLF ltac:(done) ltac:(lia)) as (e & He & H2).
  rewrite He. by rewrite (first_at_unique _ _ _ _ _ _ H1 H2).
Qed.

Lemma run_bytes_at p s t r :
  drop p b = s ++ t -> (p <= length b)%nat -> bytes_at b p (length s) r = Ret s r.
Proof.
  intros Hd Hp. apply wp_run. pose proof (f_equal length Hd) as Hl.
  rewrite length_drop, length_app in Hl. apply wp_bytes_at; [lia|]. by rewrite Hd, take_app_length.
Qed.

Lemma drop_after p s t : drop p b = s ++ t -> drop (p + length s) b = t.
Proof. intros H. by rewrite <- drop_drop, H, drop_app_length. Qed.

(** *** The trailer loop *)

(** What a loop of the decoder leaves alone. *)
Definition keeps (r r' : resp) : Prop :=
  headers_done r' = headers_done r /\ chunked r' = chunked r /\ content_length r' = content_length r
  /\ body_offset r' = body_offset r /\ hdr_scan_pos r' = hdr_scan_pos r /\ status r' = status r
  /\ headers r' = headers r /\ body_out r' = body_out r /\ allocs r' = allocs r.

Lemma keeps_refl r : keeps r r.
Proof. repeat split. Qed.

Lemma keeps_cursor pos total st r : keeps r (set_cursor pos total st r).
Proof. by destruct r. Qed.

Lemma keeps_trans r r' r'' : keeps r r' -> keeps r' r'' -> keeps r r''.
Proof. unfold keeps. intuition congruence. Qed.

Lemma wp_trailer_loop f r :
  (length b - dechunk_pos r < f)%nat -> (dechunk_pos r <= length b)%nat ->
  wp (trailer_loop b f) r
     (fun stop r' =>
        keeps r r' /\ dechunk_total r' = dechunk_total r
        /\ forall q, stop = Some q -> dechunk_state r = NGX_AUTOCERT_DECHUNK_TRAILER_START ->
             exists t, trailers t /\ drop (dechunk_pos r) b = t ++ drop q b)
     (fun _ => True).
Proof.
  revert r. induction f as [|f IH]; intros r Hf Hp; [lia|]. cbn [trailer_loop].
  apply wp_bind, wp_gets, wp_bind, wp_find; [done|unfold id; lia|]. unfold id.
  intros [eol|] He.
  - apply first_line in He as (line & t & Hd & -> & Hc).
    pose proof (f_equal length Hd) as Hl. rewrite length_drop, !length_app in Hl. simpl in Hl.
    pose proof (drop_after _ line _ Hd) as Hd1. pose proof (drop_after _ CRLF _ Hd1) as Hd2.
    change (length CRLF) with 2%nat in Hd2.
    wp_step; [apply wp_ret|apply wp_bind, wp_modify].
    + reflect_bools. split; [apply keeps_refl|]. split; [done|]. intros q [= <-] _.
      exists CRLF. split; [constructor|]. replace (dechunk_pos r + length line)%nat with (dechunk_pos r) in * by lia.
      by rewrite Hd2, Hd1.
    + eapply wp_mono; [apply IH|..].
      * destruct r; simpl in *; lia.
      * destruct r; simpl in *; lia.
      * intros stop r' (Hk & Ht & Hq). split; [eapply keeps_trans; [apply keeps_cursor|exact Hk]|].
        split; [by destruct r|]. intros q Hs Hst. destruct (Hq q Hs) as (t' & Htr & Hd'); [by destruct r|].
        assert (Hpos : dechunk_pos (set_cursor (dechunk_pos r + length line + 2) (dechunk_total r)
                          NGX_AUTOCERT_DECHUNK_TRAILER_START r) = (dechunk_pos r + length line + 2)%nat)
          by (by destruct r).
        rewrite Hpos, Hd2 in Hd'. exists (line ++ CRLF ++ t'). split.
        -- constructor; [|done|done]. intros ->. simpl in *. rewrite Hst in *.
           rewrite Z.eqb_refl in *. rewrite Nat.add_0_r, Nat.eqb_refl in *. done.
        -- rewrite Hd, Hd'. by rewrite <- !app_assoc.
      * done.
  - wp_step.
    { apply wp_ret. split; [apply keeps_refl|]. split; [done|]. intros q [=]. }
    reflect_bools. apply wp_bind.
    assert (Hrest : forall c, wp (if c =? 13 then ret None
        else let! z := byte_at b (length b - 1) in
             modify (set_cursor (length b - (if z =? 13 then 1 else 0)) (dechunk_total r)
                       NGX_AUTOCERT_DECHUNK_TRAILER_NONEMPTY);; ret None) r
       (fun stop r' => keeps r r' /\ dechunk_total r' = dechunk_total r
        /\ forall q, stop = Some q -> dechunk_state r = NGX_AUTOCERT_DECHUNK_TRAILER_START ->
             exists t, trailers t /\ drop (dechunk_pos r) b = t ++ drop q b) (fun _ => True)).
    { intros c. wp_step; [apply wp_ret; split; [apply keeps_refl|]; split; [done|]; intros q [=]|].
      apply wp_bind, wp_byte_at; [lia|]. intros z _. apply wp_bind, wp_modify, wp_ret.
      split; [apply keeps_cursor|]. split; [by destruct r|]. intros q [=]. }
    destruct (_ && _); [apply wp_byte_at; [lia|]; intros c _; apply Hrest|apply wp_ret, Hrest].
Qed.

Lemma run_trailer_loop f r t rest :
  trailers t -> drop (dechunk_pos r) b = t ++ rest ->
  dechunk_state r = NGX_AUTOCERT_DECHUNK_TRAILER_START -> (length t <= f)%nat ->
  exists r', trailer_loop b f r = Ret (Some (dechunk_pos r + length t)%nat) r'
             /\ keeps r r' /\ dechunk_total r' = dechunk_total r.
Proof.
  intros Ht. revert f r. induction Ht as [|l t Hl Hc Ht IH]; intros f r Hd Hst Hf;
    (destruct f as [|f]; [simpl in Hf; rewrite ?length_app in Hf; simpl in Hf; lia|]); cbn [trailer_loop].
  - exists r. unfold bind, gets, id.
    rewrite (run_find_line _ [] rest _ Hd crlf_free_nil), Hst, Z.eqb_refl. cbn [length].
    rewrite Nat.add_0_r, Nat.eqb_refl. split; [done|]. split; [apply keeps_refl|done].
  - rewrite <- app_assoc in Hd. simpl in Hd. unfold bind, gets.
    change (13 :: 10 :: t ++ rest) with (CRLF ++ t ++ rest) in Hd. unfold id.
    rewrite (run_find_line _ l _ _ Hd Hc), Hst, Z.eqb_refl.
    destruct (Nat.eqb_spec (dechunk_pos r + length l) (dechunk_pos r)); [destruct l; [done|simpl in *; lia]|].
    cbn [andb]. unfold modify.
    pose proof (drop_after _ l _ Hd) as Hd1. pose proof (drop_after _ CRLF _ Hd1) as Hd2.
    change (length CRLF) with 2%nat in Hd2. rewrite !length_app in Hf. simpl in Hf.
    destruct (IH f (set_cursor (dechunk_pos r + length l + 2) (dechunk_total r)
                     NGX_AUTOCERT_DECHUNK_TRAILER_START r)) as (r' & E & Hk & Htot).
    { by destruct r. } { by destruct r. } { lia. }
    exists r'. split; [|split; [eapply keeps_trans; [apply keeps_cursor|exact Hk]|by destruct r]].
    rewrite E. rewrite !length_app. do 2 f_equal. destruct r; simpl. lia.
Qed.

(** *** The chunk loop *)

Lemma take_line p (line t : bytes) :
  drop p b = line ++ t -> take (p + length line - p) (drop p b) = line.
Proof. intros ->. replace (p + length line - p)%nat with (length line) by lia. apply take_app_length. Qed.

Definition scanned_body (r : resp) (stop : option nat) (r' : resp) : Prop :=
  keeps r r'
  /\ forall q, stop = Some q ->
       exists raw d, chunked_body raw d /\ drop (dechunk_pos r) b = raw ++ drop q b
                     /\ dechunk_total r' = (dechunk_total r + length d)%nat.

Lemma wp_chunk_loop f r :
  (length b - dechunk_pos r < f)%nat -> (dechunk_pos r <= length b)%nat ->
  wp (chunk_loop b f) r (scanned_body r) (fun _ => True).
Proof.
  revert r. induction f as [|f IH]; intros r Hf Hp; [lia|]. cbn [chunk_loop].
  apply wp_bind, wp_gets, wp_bind, wp_find; [done|unfold id; lia|]. unfold id.
  assert (Hno : scanned_body r None r) by (split; [apply keeps_refl|done]).
  intros [eol|] He; [|by apply wp_ret].
  apply first_line in He as (line & t & Hd & -> & Hc).
  pose proof (f_equal length Hd) as Hl. rewrite length_drop, !length_app in Hl. simpl in Hl.
  pose proof (drop_after _ line _ Hd) as Hd1. pose proof (drop_after _ CRLF _ Hd1) as Hd2.
  change (length CRLF) with 2%nat in Hd2.
  apply wp_bind, wp_bytes_at; [lia|]. rewrite (take_line _ _ _ Hd).
  destruct (ngx_autocert_acme_chunk_size line) as [size|] eqn:Es; [|by apply wp_fail].
  pose proof (chunk_size_nonneg _ _ Es) as Hs0. apply chunk_size_spec in Es.
  destruct (Z.eqb_spec size 0) as [->|Hs].
  - apply wp_bind, wp_modify. set (r1 := set_cursor _ _ _ r).
    assert (Hp1 : dechunk_pos r1 = (dechunk_pos r + length line + 2)%nat) by (by destruct r).
    eapply wp_mono; [apply wp_trailer_loop; rewrite Hp1; lia| |done].
    intros stop r' (Hk & Ht & Hq). split; [eapply keeps_trans; [apply keeps_cursor|exact Hk]|].
    intros q Hstop. destruct (Hq q Hstop) as (tr & Htr & Hdt); [by destruct r|].
    exists (line ++ CRLF ++ tr), []. split; [by constructor|]. rewrite Hp1, Hd2 in Hdt.
    split; [rewrite Hd, Hdt; by rewrite <- !app_assoc|]. rewrite Ht. destruct r; simpl; lia.
  - wp_step; [by apply wp_ret|]. apply orb_false_iff in Heqb0 as [H1 H2]. reflect_bools.
    apply wp_bind, wp_bytes_at; [lia|].
    set (q := (dechunk_pos r + length line + 2 + Z.to_nat size)%nat) in *.
    destruct (memcmp_exact (take 2 (drop q b)) CRLF) as (m & Hm & Hm0).
    { rewrite length_take, length_drop. change (length CRLF) with 2%nat. unfold q. lia. }
    change (length CRLF) with 2%nat in Hm. rewrite Hm. wp_step; [by apply wp_fail|].
    reflect_bools. apply Hm0 in Heqb0. apply wp_bind, wp_modify. set (r1 := set_cursor _ _ _ r).
    assert (Hp1 : dechunk_pos r1 = (q + 2)%nat) by (by destruct r).
    eapply wp_mono; [apply IH; rewrite Hp1; lia| |done].
    intros stop r' (Hk & Hq). split; [eapply keeps_trans; [apply keeps_cursor|exact Hk]|].
    intros q' Hstop. destruct (Hq q' Hstop) as (raw & d & Hch & Hdr & Ht).
    set (data := take (Z.to_nat size) t).
    assert (Hlen : length data = Z.to_nat size) by (unfold data; rewrite length_take; lia).
    exists (line ++ CRLF ++ data ++ CRLF ++ raw), (data ++ d). split.
    { constructor; [done| |by intros E; rewrite E in Hlen; simpl in Hlen; lia|done].
      rewrite Hlen, Z2Nat.id by lia. done. }
    split.
    + rewrite Hd. rewrite <- !app_assoc. do 2 f_equal. rewrite <- (take_drop (Z.to_nat size) t) at 1.
      fold data. f_equal. rewrite <- Hd2, drop_drop. fold q. rewrite <- Heqb0.
      rewrite <- (take_drop 2 (drop q b)) at 1. f_equal. rewrite drop_drop. by rewrite <- Hdr, Hp1.
    + rewrite Ht, length_app, Hlen. destruct r; simpl; lia.
Qed.

Lemma run_chunk_loop raw d : chunked_body raw d -> forall f r rest,
  drop (dechunk_pos r) b = raw ++ rest -> (dechunk_pos r <= length b)%nat -> (length raw <= f)%nat ->
  exists r', chunk_loop b f r = Ret (Some (dechunk_pos r + length raw)%nat) r'
             /\ keeps r r' /\ dechunk_total r' = (dechunk_total r + length d)%nat.
Proof.
  induction 1 as [line t Hc Hs Ht|line data raw d Hc Hs Hne Hch IH]; intros f r rest Hd Hp Hf;
    rewrite !length_app in Hf; simpl in Hf; (destruct f as [|f]; [lia|]); cbn [chunk_loop];
    rewrite <- !app_assoc in Hd; unfold bind at 1, gets, id;
    pose proof (drop_after _ line _ Hd) as Hd1; pose proof (drop_after _ CRLF _ Hd1) as Hd2;
    change (length CRLF) with 2%nat in Hd2;
    pose proof (f_equal length Hd) as Hl; rewrite length_drop, !length_app in Hl; simpl in Hl;
    unfold bind at 1; rewrite (run_find_line _ line _ _ Hd Hc);
    unfold bind at 1; replace (dechunk_pos r + length line - dechunk_pos r)%nat with (length line) by lia;
    rewrite (run_bytes_at _ _ _ _ Hd Hp); apply chunk_size_spec in Hs; rewrite Hs.
  - rewrite Z.eqb_refl. unfold bind, modify. set (r1 := set_cursor _ _ _ r).
    assert (Hp1 : dechunk_pos r1 = (dechunk_pos r + length line + 2)%nat) by (by destruct r).
    destruct (run_trailer_loop (S (length b)) r1 t rest) as (r' & E & Hk & Htot);
      [done|by rewrite Hp1|by destruct r|lia|].
    exists r'. rewrite E, Hp1. split; [do 2 f_equal; rewrite !length_app; simpl; lia|].
    split; [eapply keeps_trans; [apply keeps_cursor|exact Hk]|]. rewrite Htot. destruct r; simpl; lia.
  - assert (0 < length data)%nat by (destruct data; [done|simpl; lia]).
    destruct (Z.eqb_spec (Z.of_nat (length data)) 0); [lia|].
    destruct (_ || _) eqn:E0; [apply orb_true_iff in E0 as [E0|E0]; reflect_bools; lia|]. clear E0.
    rewrite Nat2Z.id. pose proof (drop_after _ data _ Hd2) as Hd3.
    unfold bind at 1. rewrite (run_bytes_at _ CRLF _ _ Hd3) by lia. cbn [ngx_memcmp CRLF].
    change (13 =? 13) with true. change (10 =? 10) with true. cbv iota. rewrite Z.eqb_refl. cbn [negb].
    unfold bind, modify. set (r1 := set_cursor _ _ _ r).
    pose proof (drop_after _ CRLF _ Hd3) as Hd4. change (length CRLF) with 2%nat in Hd4.
    assert (Hp1 : dechunk_pos r1 = (dechunk_pos r + length line + 2 + length data + 2)%nat) by (by destruct r).
    destruct (IH f r1 rest) as (r' & E & Hk & Htot); [by rewrite Hp1|rewrite Hp1; lia|lia|].
    exists r'. rewrite E, Hp1. split; [do 2 f_equal; rewrite !length_app; simpl; lia|].
    split; [eapply keeps_trans; [apply keeps_cursor|exact Hk]|].
    rewrite Htot, length_app. destruct r; simpl; lia.
Qed.

(** *** The copy *)

Lemma run_copy_loop raw d : chunked_body raw d -> forall f p total o rest s,
  drop p b = raw ++ rest -> (p <= length b)%nat -> (length raw <= f)%nat ->
  (total = length o + length d)%nat ->
  copy_loop b f p total o s = Ret (o ++ d) s.
Proof.
  induction 1 as [line t Hc Hs Ht|line data raw d Hc Hs Hne Hch IH]; intros f p total o rest s Hd Hp Hf Htot;
    rewrite !length_app in Hf; simpl in Hf; (destruct f as [|f]; [lia|]); cbn [copy_loop];
    rewrite <- !app_assoc in Hd;
    pose proof (drop_after _ line _ Hd) as Hd1; pose proof (drop_after _ CRLF _ Hd1) as Hd2;
    change (length CRLF) with 2%nat in Hd2;
    pose proof (f_equal length Hd) as Hl; rewrite length_drop, !length_app in Hl; simpl in Hl;
    unfold bind at 1; rewrite (run_find_line _ line _ _ Hd Hc);
    unfold bind at 1; replace (p + length line - p)%nat with (length line) by lia;
    rewrite (run_bytes_at _ _ _ _ Hd Hp); apply chunk_size_spec in Hs; rewrite Hs.
  - rewrite Z.eqb_refl. by rewrite app_nil_r.
  - assert (0 < length data)%nat by (destruct data; [done|simpl; lia]).
    destruct (Z.eqb_spec (Z.of_nat (length data)) 0); [lia|]. rewrite Nat2Z.id.
    rewrite length_app in Htot.
    unfold bind. rewrite (run_bytes_at _ _ _ _ Hd2) by lia.
    destruct (Nat.leb_spec (length o + length data) total); [|lia].
    pose proof (drop_after _ data _ Hd2) as Hd3. pose proof (drop_after _ CRLF _ Hd3) as Hd4.
    change (length CRLF) with 2%nat in Hd4.
    rewrite (IH f _ _ _ rest); [by rewrite <- app_assoc|done|lia|lia|rewrite length_app; lia].
Qed.

End Buffer.
