(* ===== verification/HttpParse.v ===== *)
(** * The ACME HTTP client: one parse of the receive buffer

    Safety of the whole response parser, and what its three results mean. *)

From S2P Require Import Prelude NgxCore Http HttpChunk.

Local Open Scope Z_scope.
Local Open Scope prog_scope.

(** What the header block may change: the outputs and the framing headers. *)
Definition head_frame (r r' : resp) : Prop :=
  headers_done r' = headers_done r /\ body_offset r' = body_offset r
  /\ hdr_scan_pos r' = hdr_scan_pos r /\ dechunk_pos r' = dechunk_pos r
  /\ dechunk_total r' = dechunk_total r /\ dechunk_state r' = dechunk_state r
  /\ body_out r' = body_out r.

Lemma head_frame_refl r : head_frame r r.
Proof. repeat split. Qed.

Lemma head_frame_trans r r' r'' : head_frame r r' -> head_frame r' r'' -> head_frame r r''.
Proof. unfold head_frame. intuition congruence. Qed.

Section Head.
Context (b : bytes) (oom : nat -> bool).

Abbreviation any := (fun _ : resp => True).

Lemma wp_skip_blank n v r (Q : nat -> resp -> Prop) E :
  (v + n <= length b)%nat -> (forall v', (v <= v' <= v + n)%nat -> Q v' r) ->
  wp (skip_blank b n v) r Q E.
Proof.
  revert v. induction n as [|n IH]; intros v Hv HQ; simpl.
  - apply wp_ret, HQ. lia.
  - apply wp_bind, wp_byte_at; [lia|]. intros c _. wp_step; [|apply wp_ret, HQ; lia].
    apply IH; [lia|]. intros v' Hv'. apply HQ. lia.
Qed.

Lemma wp_trim_blank n v r (Q : nat -> resp -> Prop) E :
  (v + n <= length b)%nat -> (forall v', (v <= v' <= v + n)%nat -> Q v' r) ->
  wp (trim_blank b n v) r Q E.
Proof.
  revert v. induction n as [|n IH]; intros v Hv HQ; simpl.
  - apply wp_ret, HQ. lia.
  - apply wp_bind, wp_byte_at; [lia|]. intros c _. wp_step; [|apply wp_ret, HQ; lia].
    apply IH; [lia|]. intros v' Hv'. apply HQ. lia.
Qed.

Lemma wp_palloc r (Q : bool -> resp -> Prop) E :
  (forall ok, Q ok (set_allocs (S (allocs r)) r)) -> wp (palloc oom) r Q E.
Proof. intros HQ. apply HQ. Qed.

Lemma wp_capture_header line eol r :
  (line <= eol <= length b)%nat ->
  wp (capture_header b oom line eol) r
     (fun _ r' => head_frame r r' /\ content_length r' = content_length r /\ chunked r' = chunked r) any.
Proof.
  intros Hl. unfold capture_header. apply wp_bind, wp_find; [done|lia|].
  assert (Hr : head_frame r r /\ content_length r = content_length r /\ chunked r = chunked r) by (by repeat split).
  intros [c|] Hc; [|by apply wp_ret]. destruct Hc as (Hc & Hce & _). simpl in Hce.
  wp_step; [|by apply wp_ret]. reflect_bools.
  apply wp_bind, wp_skip_blank; [lia|]. intros v Hv. apply wp_bind, wp_trim_blank; [lia|].
  intros vend Hve. apply wp_bind, wp_palloc. intros ok. wp_step; [by apply wp_fail|].
  apply wp_bind, wp_palloc. intros okn. apply wp_bind, wp_palloc. intros okv.
  wp_step; [by apply wp_fail|]. apply wp_bind, wp_bytes_at; [lia|].
  apply wp_bind, wp_bytes_at; [lia|]. apply wp_modify. by destruct r.
Qed.

Lemma wp_line_is line eol name r (Q : bool -> resp -> Prop) E :
  (line <= eol <= length b)%nat ->
  (forall ok, (ok = true -> (length name < eol - line)%nat) -> Q ok r) ->
  wp (line_is b line eol name) r Q E.
Proof.
  intros Hl HQ. unfold line_is. wp_step; [|by apply wp_ret, HQ]. reflect_bools.
  apply wp_bind, wp_bytes_at; [lia|].
  destruct (strncasecmp_total (take (length name) (drop line b)) name (length name)) as [c ->];
    [rewrite length_take, length_drop; lia|done|].
  apply wp_ret, HQ. lia.
Qed.

(** A Content-Length that is kept is a length. *)
Definition cl_ok (r : resp) : Prop := -1 <= content_length r <= NGX_MAX_INT_T_VALUE.

Lemma atoof_range s : -1 <= ngx_atoof s <= NGX_MAX_INT_T_VALUE.
Proof.
  rewrite atoof_spec, atoi_spec. unfold NGX_ERROR, NGX_MAX_INT_T_VALUE. destruct (_ && _) eqn:E; [|lia]. reflect_bools.
  pose proof (dec_acc_mono 0 s ltac:(lia)). unfold dec_val, NGX_MAX_INT_T_VALUE in *. intuition lia.
Qed.

Lemma wp_framing_header line eol r :
  (line <= eol <= length b)%nat -> cl_ok r ->
  wp (framing_header b line eol) r (fun _ r' => head_frame r r' /\ cl_ok r') any.
Proof.
  intros Hl Hok. unfold framing_header.
  set (cl := str "Content-Length:"). set (te := str "Transfer-Encoding:").
  apply wp_bind, wp_line_is; [done|]. intros is_cl Hcl. destruct is_cl.
  - specialize (Hcl eq_refl). apply wp_bind, wp_skip_blank; [lia|]. intros v Hv.
    apply wp_bind, wp_bytes_at; [lia|]. apply wp_bind, wp_gets. set (n := ngx_atoof _).
    wp_step; [by apply wp_fail|]. apply wp_modify. split; [by destruct r|].
    assert (Hc : content_length (set_content_length n r) = n) by (by destruct r).
    unfold cl_ok. rewrite Hc. apply atoof_range.
  - apply wp_bind, wp_line_is; [done|]. intros is_te Hte. destruct is_te.
    2: { apply wp_ret. split; [apply head_frame_refl|done]. }
    specialize (Hte eq_refl). apply wp_bind, wp_skip_blank; [lia|]. intros v Hv.
    wp_step; [|by apply wp_fail]. reflect_bools. apply wp_bind, wp_bytes_at; [lia|].
    destruct (strncasecmp_total (take (eol - v) (drop v b)) (str "chunked") (length (str "chunked"))) as [c ->].
    { rewrite length_take, length_drop. lia. } { done. }
    destruct c; [|by apply wp_fail..]. apply wp_modify. split; by destruct r.
Qed.

Lemma wp_header_loop f line limit r :
  (limit - line < f)%nat -> (limit <= length b)%nat -> cl_ok r ->
  wp (header_loop b oom f line limit) r (fun _ r' => head_frame r r' /\ cl_ok r') any.
Proof.
  revert line r. induction f as [|f IH]; intros line r Hf Hl Hok; [lia|]. cbn [header_loop].
  wp_step; [|apply wp_ret; split; [apply head_frame_refl|done]]. reflect_bools.
  apply wp_bind, wp_find; [done|lia|]. intros e He. set (eol := match e with Some e => e | None => limit end).
  assert (Heol : (line <= eol <= limit)%nat).
  { unfold eol. destruct e as [e|]; [|lia]. destruct He as (? & He & _). simpl in He. lia. }
  apply wp_bind. eapply wp_mono; [apply wp_capture_header; lia| |done].
  intros _ r1 (H1 & Hcl & _). apply wp_bind.
  eapply wp_mono; [apply wp_framing_header; [lia|by unfold cl_ok; rewrite Hcl]| |done].
  intros _ r2 (H2 & Hok2). eapply wp_mono; [apply IH; [lia|done|done]| |done].
  intros _ r3 (H3 & Hok3). split; [|done]. by eapply head_frame_trans, head_frame_trans.
Qed.

Lemma wp_status_line hdr_end r :
  (hdr_end <= length b)%nat ->
  wp (status_line b hdr_end) r
     (fun eol r' => first_at b 0 hdr_end CRLF (Some eol) /\ head_frame r r'
                    /\ content_length r' = content_length r /\ chunked r' = chunked r) any.
Proof.
  intros Hh. unfold status_line. apply wp_bind, wp_find; [done|lia|].
  intros [eol|] He; [|by apply wp_fail]. pose proof He as (_ & He2 & _). simpl in He2.
  wp_step; [by apply wp_fail|]. apply Nat.ltb_ge in Heqb0. simpl in Heqb0.
  apply wp_bind, wp_bytes_at; [lia|].
  destruct (strncmp_total (take 7 (drop 0 b)) (str "HTTP/1.") 7) as [c ->].
  { rewrite length_take, length_drop. lia. } { done. }
  wp_step; [by apply wp_fail|]. apply wp_bind, wp_byte_at; [lia|]. intros c7 _.
  apply wp_bind, wp_byte_at; [lia|]. intros c8 _. wp_step; [by apply wp_fail|].
  apply wp_bind, wp_bytes_at; [lia|]. wp_step; [by apply wp_fail|].
  apply wp_bind, wp_modify, wp_ret. split; [done|]. by destruct r.
Qed.

Lemma wp_parse_head h r :
  (h + 4 <= length b)%nat -> first_at b 0 (length b) (CRLF ++ CRLF) (Some h) -> cl_ok r ->
  wp (parse_head b oom (h + 4)) r
     (fun _ r' => headers_done r' = true /\ body_offset r' = (h + 4)%nat
                  /\ hdr_scan_pos r' = hdr_scan_pos r
                  /\ dechunk_pos r' = dechunk_pos r /\ dechunk_total r' = dechunk_total r
                  /\ dechunk_state r' = dechunk_state r /\ cl_ok r'
                  /\ (chunked r' = true -> content_length r' = -1)) any.
Proof.
  intros Hh Hf Hok. unfold parse_head. apply wp_bind, wp_modify. set (r0 := set_body_offset (h + 4) r).
  assert (Hfr : head_frame r0 r0 /\ body_offset r0 = (h + 4)%nat /\ cl_ok r0
                /\ hdr_scan_pos r0 = hdr_scan_pos r
                /\ dechunk_pos r0 = dechunk_pos r /\ dechunk_total r0 = dechunk_total r
                /\ dechunk_state r0 = dechunk_state r) by (split; [apply head_frame_refl|]; by destruct r).
  destruct Hfr as (_ & Hbo & Hok0 & Hsc & Hdp & Hdt & Hds).
  apply wp_bind. eapply wp_mono; [apply wp_status_line; lia| |done].
  intros eol r1 (He & Hr1 & Hcl1 & _).
  assert (Heol : (eol <= h)%nat).
  { destruct He as (_ & _ & _ & Hmin). destruct Hf as (_ & _ & [t Ht] & _).
    destruct (decide (eol <= h)%nat); [done|]. exfalso. apply (Hmin h); [lia|].
    exists (CRLF ++ t). by rewrite Ht, <- app_assoc. }
  apply wp_bind, wp_palloc. intros ok. wp_step; [by apply wp_fail|].
  apply wp_bind, wp_modify. apply wp_bind. eapply wp_mono; [apply wp_header_loop| |done].
  - lia.
  - lia.
  - unfold cl_ok in *. destruct r1; simpl in *. lia.
  - intros _ r2 (Hr2 & Hok2). apply wp_bind, wp_gets. unfold id.
    destruct (chunked r2 && _) eqn:Hck; [by apply wp_fail|].
    apply wp_modify. apply andb_false_iff in Hck.
    assert (Hfr : head_frame r0 r2).
    { eapply head_frame_trans; [exact Hr1|]. eapply head_frame_trans; [|exact Hr2]. by destruct r1. }
    unfold head_frame, cl_ok in *. destruct r2; simpl in *. split; [done|].
    repeat (split; [intuition congruence|]). intros ->. destruct Hck as [?|Hz]; [done|].
    apply Z.leb_gt in Hz. lia.
Qed.
End Head.

(** ** The body *)

Section Body.
Context (b : bytes) (oom : nat -> bool).

Abbreviation any := (fun _ : resp => True).

(** The decoder about to start. *)
Definition dechunk_fresh (r : resp) : Prop :=
  dechunk_pos r = 0%nat /\ dechunk_state r = NGX_AUTOCERT_DECHUNK_CHUNKS.

Lemma wp_dechunk r :
  dechunk_fresh r -> (body_offset r <= length b)%nat ->
  wp (ngx_autocert_acme_dechunk b oom) r
     (fun code r' =>
        content_length r' = content_length r /\ chunked r' = chunked r /\ body_offset r' = body_offset r
        /\ (code = NGX_AGAIN
            \/ code = NGX_DONE
               /\ exists raw rest, chunked_body raw (body_out r') /\ drop (body_offset r) b = raw ++ rest)) any.
Proof.
  intros [Hp Hs] Hb. unfold ngx_autocert_acme_dechunk. apply wp_bind, wp_gets. unfold id.
  rewrite Hp, Hs. cbn [Nat.eqb]. apply wp_bind, wp_modify.
  change (negb (NGX_AUTOCERT_DECHUNK_CHUNKS =? NGX_AUTOCERT_DECHUNK_CHUNKS)) with false. cbv iota.
  set (r1 := set_cursor _ _ _ r).
  assert (Hr1 : dechunk_pos r1 = body_offset r /\ dechunk_total r1 = 0%nat /\ keeps r r1)
    by (by destruct r). destruct Hr1 as (Hp1 & Ht1 & Hk1).
  apply wp_bind. eapply wp_mono; [apply wp_chunk_loop; rewrite Hp1; lia| |done].
  intros stop r2 [Hk2 Hq]. pose proof (keeps_trans _ _ _ Hk1 Hk2) as Hk.
  unfold keeps in Hk. destruct Hk as (_ & Hck & Hcl & Hbo & _).
  destruct stop as [q|]; [|apply wp_ret; by repeat (split; [done|]); left].
  destruct (Hq q eq_refl) as (raw & d & Hch & Hd & Ht). rewrite Hp1 in Hd. rewrite Ht1 in Ht.
  apply wp_bind, wp_palloc. intros ok. wp_step; [by apply wp_fail|].
  apply wp_bind, wp_gets. unfold id. set (r3 := set_allocs _ r2).
  assert (Hr3 : body_offset r3 = body_offset r /\ dechunk_total r3 = length d
                /\ content_length r3 = content_length r /\ chunked r3 = chunked r).
  { unfold r3. destruct r2; simpl in *. rewrite Ht. done. }
  destruct Hr3 as (Hbo3 & Ht3 & Hcl3 & Hck3). rewrite Hbo3, Ht3.
  apply wp_bind. pose proof (f_equal length Hd) as Hlen. rewrite length_drop, length_app in Hlen.
  eapply run_wp; [apply (run_copy_loop b raw d Hch _ _ _ _ (drop q b)); [done|done|lia|done]|].
  apply wp_bind, wp_modify, wp_ret. split; [by destruct r3|]. split; [by destruct r3|].
  split; [by destruct r3|]. right. split; [done|]. exists raw, (drop q b). split; [by destruct r3|done].
Qed.

Lemma run_dechunk r raw d rest :
  dechunk_fresh r -> oom (allocs r) = false -> (body_offset r <= length b)%nat ->
  drop (body_offset r) b = raw ++ rest -> chunked_body raw d ->
  exists r', ngx_autocert_acme_dechunk b oom r = Ret NGX_DONE r' /\ body_out r' = d
             /\ status r' = status r /\ headers r' = headers r.
Proof.
  intros [Hp Hs] Ho Hb Hd Hch. unfold ngx_autocert_acme_dechunk, bind, gets, id.
  rewrite Hp, Hs. cbn [Nat.eqb]. unfold modify at 1.
  change (negb (NGX_AUTOCERT_DECHUNK_CHUNKS =? NGX_AUTOCERT_DECHUNK_CHUNKS)) with false. cbv iota.
  set (r1 := set_cursor _ _ _ r).
  assert (Hr1 : dechunk_pos r1 = body_offset r /\ dechunk_total r1 = 0%nat /\ keeps r r1)
    by (by destruct r). destruct Hr1 as (Hp1 & Ht1 & Hk1).
  pose proof (f_equal length Hd) as Hlen. rewrite length_drop, length_app in Hlen.
  destruct (run_chunk_loop b raw d Hch (S (length b)) r1 rest) as (r2 & E & Hk2 & Ht2);
    [by rewrite Hp1|by rewrite Hp1|lia|]. rewrite E.
  pose proof (keeps_trans _ _ _ Hk1 Hk2) as Hk. unfold keeps in Hk.
  destruct Hk as (_ & _ & _ & Hbo & _ & Hst & Hhd & _ & Hal). unfold palloc.
  rewrite Hal, Ho. cbn [negb]. set (r3 := set_allocs _ r2).
  assert (Hr3 : body_offset r3 = body_offset r /\ dechunk_total r3 = length d
                /\ status r3 = status r /\ headers r3 = headers r).
  { unfold r3. rewrite Ht1 in Ht2. destruct r2; simpl in *. done. }
  destruct Hr3 as (Hbo3 & Ht3 & Hst3 & Hhd3). rewrite Hbo3, Ht3.
  rewrite (run_copy_loop b raw d Hch _ _ _ _ rest) by (done || lia).
  eexists. unfold modify, ret. split; [done|]. destruct r3; simpl in *. done.
Qed.

(** What a response says when it is complete. *)
Definition framed (r : resp) : Prop :=
  exists h, first_at b 0 (length b) (CRLF ++ CRLF) (Some h) /\ body_offset r = (h + 4)%nat
  /\ ((chunked r = true /\ content_length r = -1
       /\ exists raw rest, chunked_body raw (body_out r) /\ drop (h + 4) b = raw ++ rest)
      \/ (chunked r = false /\ content_length r = Z.of_nat (length (body_out r))
          /\ exists rest, drop (h + 4) b = body_out r ++ rest)).

Lemma wp_body r h :
  headers_done r = true -> dechunk_fresh r -> cl_ok r -> (chunked r = true -> content_length r = -1) ->
  first_at b 0 (length b) (CRLF ++ CRLF) (Some h) -> body_offset r = (h + 4)%nat ->
  wp (let! r := gets id in
      if chunked r then ngx_autocert_acme_dechunk b oom
      else if 0 <=? content_length r then
        let have := Z.of_nat (length b - body_offset r) in
        if content_length r <=? have then
          let! s := bytes_at b (body_offset r) (Z.to_nat (content_length r)) in
          modify (set_body_out s);; ret NGX_DONE
        else ret NGX_AGAIN
      else ret NGX_AGAIN) r
     (fun code r' => code = NGX_AGAIN \/ code = NGX_DONE /\ framed r') any.
Proof.
  intros Hh Hfr Hok Hcc Hf Hbo. pose proof Hf as (_ & Hle & _). simpl in Hle.
  apply wp_bind, wp_gets. unfold id. destruct (chunked r) eqn:Hck.
  - eapply wp_mono; [apply wp_dechunk; [done|rewrite Hbo; lia]| |done].
    intros code r' (Hcl & Hck' & Hbo' & [->|(-> & raw & rest & Hch & Hd)]); [by left|right].
    split; [done|]. exists h. split; [done|]. split; [by rewrite Hbo'|]. left.
    split; [by rewrite Hck'|]. split; [rewrite Hcl; by apply Hcc|]. exists raw, rest.
    by rewrite Hbo in Hd.
  - destruct (Z.leb_spec 0 (content_length r)); [|apply wp_ret; by left].
    destruct (Z.leb_spec (content_length r) (Z.of_nat (length b - body_offset r))); [|apply wp_ret; by left].
    apply wp_bind, wp_bytes_at; [lia|]. apply wp_bind, wp_modify, wp_ret. right. split; [done|].
    exists h. split; [done|]. set (s := take _ _).
    assert (Hs : length s = Z.to_nat (content_length r)) by (unfold s; rewrite length_take, length_drop; lia).
    split; [by destruct r|]. right. split; [by destruct r|].
    assert (Ho : body_out (set_body_out s r) = s) by (by destruct r). rewrite Ho.
    split; [rewrite Hs, Z2Nat.id by lia; by destruct r|]. exists (drop (length s) (drop (body_offset r) b)).
    rewrite <- Hbo. unfold s at 1. rewrite Hs. by rewrite take_drop.
Qed.

(** A whole parse of a fresh response. *)
Lemma wp_parse_response :
  wp (ngx_autocert_acme_parse_response b oom) resp0
     (fun code r' => code = NGX_AGAIN \/ code = NGX_DONE /\ framed r') any.
Proof.
  unfold ngx_autocert_acme_parse_response. apply wp_bind, wp_gets. unfold id. cbn [headers_done resp0].
  cbn [hdr_scan_pos resp0]. change (3 <? 0)%nat with false. cbv iota zeta.
  apply wp_bind, wp_bind, wp_find; [done|lia|]. intros [h|] Hf.
  - pose proof Hf as (_ & Hle & _). simpl in Hle.
    apply wp_bind. eapply wp_mono; [apply wp_parse_head; [lia|exact Hf|]| |done].
    { unfold cl_ok, resp0. simpl. unfold NGX_MAX_INT_T_VALUE. lia. }
    intros _ r (Hh & Hbo & _ & Hdp & _ & Hds & Hok & Hcc). apply wp_ret. cbn [negb].
    by apply (wp_body r h).
  - apply wp_bind, wp_modify, wp_ret. cbn [negb]. apply wp_ret. by left.
Qed.
End Body.
