(* ===== verification/HttpResume.v ===== *)
(** * The ACME HTTP client: reading in pieces

    The response parser runs after every read, resuming from cursors kept in
    the request.  Here: however the bytes are cut into reads, the outcome is that
    of parsing, once, the bytes received so far. *)

From S2P Require Import Prelude NgxCore Http HttpChunk HttpParse.

Local Open Scope Z_scope.
Local Open Scope prog_scope.

(** ** Computations that do not look past their buffer *)

(** [m'] does what [m] does wherever [m] does not fault. *)
Definition ext {A} (m m' : prog resp A) : Prop := forall s, m s = m' s \/ m s = Fault.

Lemma ext_refl {A} (m : prog resp A) : ext m m.
Proof. by left. Qed.

Lemma ext_bind {A B} (m m' : prog resp A) (k k' : A -> prog resp B) :
  ext m m' -> (forall a, ext (k a) (k' a)) -> ext (bind m k) (bind m' k').
Proof.
  intros Hm Hk s. unfold bind. destruct (Hm s) as [-> | ->]; [|by right].
  destruct (m' s); [apply Hk|by left..].
Qed.

Section Ext.
Context (b x : bytes) (oom : nat -> bool).

Lemma ext_bytes_at i n : ext (bytes_at b i n) (bytes_at (b ++ x) i n).
Proof.
  intros s. unfold bytes_at, slice. destruct (Nat.leb_spec (i + n) (length b)); [left|by right].
  rewrite length_app. destruct (Nat.leb_spec (i + n) (length b + length x)); [|lia].
  rewrite drop_app_le, take_app_le by (rewrite ?length_drop; lia). done.
Qed.

Lemma ext_byte_at i : ext (byte_at b i) (byte_at (b ++ x) i).
Proof.
  intros s. unfold byte_at. destruct (b !! i) as [c|] eqn:E; [left|by right].
  by rewrite (lookup_app_l_Some _ _ _ _ E).
Qed.

Lemma ext_find i j n : ext (find b i j n) (find (b ++ x) i j n).
Proof.
  unfold find. destruct (j <? i)%nat; [apply ext_refl|].
  apply ext_bind; [apply ext_bytes_at|]. intros a. apply ext_refl.
Qed.

(** The pieces agree, hence so do the programs built from them. *)
Ltac ext_tac :=
  repeat first
    [ apply ext_bind; [|intros ?]
    | apply ext_bytes_at | apply ext_byte_at | apply ext_find
    | apply ext_refl
    | match goal with
      | |- ext (match ?c with _ => _ end) _ => destruct c
      | |- ext (if ?c then _ else _) _ => destruct c
      end ].

Lemma ext_skip_blank n v : ext (skip_blank b n v) (skip_blank (b ++ x) n v).
Proof.
  revert v. induction n as [|n IH]; intros v; simpl; [apply ext_refl|].
  apply ext_bind; [apply ext_byte_at|]. intros c. destruct (is_blank c); [apply IH|apply ext_refl].
Qed.

Lemma ext_trim_blank n v : ext (trim_blank b n v) (trim_blank (b ++ x) n v).
Proof.
  revert v. induction n as [|n IH]; intros v; simpl; [apply ext_refl|].
  apply ext_bind; [apply ext_byte_at|]. intros c. destruct (is_blank c); [apply IH|apply ext_refl].
Qed.

Lemma ext_capture line eol : ext (capture_header b oom line eol) (capture_header (b ++ x) oom line eol).
Proof. unfold capture_header. ext_tac; first [apply ext_skip_blank|apply ext_trim_blank]. Qed.

Lemma ext_line_is line eol n : ext (line_is b line eol n) (line_is (b ++ x) line eol n).
Proof. unfold line_is. ext_tac. Qed.

Lemma ext_framing line eol : ext (framing_header b line eol) (framing_header (b ++ x) line eol).
Proof.
  unfold framing_header. apply ext_bind; [apply ext_line_is|]. intros [].
  - apply ext_bind; [apply ext_skip_blank|]. intros v. ext_tac.
  - apply ext_bind; [apply ext_line_is|]. intros []; [|apply ext_refl].
    apply ext_bind; [apply ext_skip_blank|]. intros v. ext_tac.
Qed.

Lemma ext_header_loop f line limit :
  ext (header_loop b oom f line limit) (header_loop (b ++ x) oom f line limit).
Proof.
  revert line. induction f as [|f IH]; intros line; cbn [header_loop]; [apply ext_refl|].
  destruct (line <? limit)%nat; [|apply ext_refl]. apply ext_bind; [apply ext_find|]. intros e.
  apply ext_bind; [apply ext_capture|]. intros _. apply ext_bind; [apply ext_framing|]. intros _. apply IH.
Qed.

Lemma ext_parse_head h : ext (parse_head b oom h) (parse_head (b ++ x) oom h).
Proof.
  unfold parse_head, status_line. ext_tac. apply ext_header_loop.
Qed.

(** ** Resuming the trailer and chunk loops *)

(** More fuel than there are bytes left changes nothing. *)
Lemma bind_gets {A B} (f : resp -> A) (k : A -> prog resp B) s : bind (gets f) k s = k (f s) s.
Proof. done. Qed.

Lemma bind_cases {A B} (m : prog resp A) (k : A -> prog resp B) s :
  bind m k s = match m s with
               | Ret a s' => k a s'
               | Err s' => Err s'
               | Fault => Fault
               | NoFuel => NoFuel
               end.
Proof. done. Qed.

Lemma bind_modify {B} f (k : unit -> prog resp B) s : bind (modify f) k s = k tt (f s).
Proof. done. Qed.

Lemma bind_Ret {A B} (m : prog resp A) (k : A -> prog resp B) s a s' :
  m s = Ret a s' -> bind m k s = k a s'.
Proof. unfold bind. by intros ->. Qed.

(** A final CR is kept in view: it may be half of the line's end. *)
Definition retained (d : bytes) : nat := if List.nth (length d - 1) d 0 =? 13 then 1 else 0.

(** One turn of the trailer loop, by what the search finds. *)
Definition trailer_pending (d : bytes) (r : resp) : resp :=
  let p := dechunk_pos r in
  if (length d - p =? 0)%nat then r
  else if (dechunk_state r =? NGX_AUTOCERT_DECHUNK_TRAILER_START) && (length d - p =? 1)%nat
          && (List.nth p d 0 =? 13) then r
  else set_cursor (length d - retained d) (dechunk_total r)
         NGX_AUTOCERT_DECHUNK_TRAILER_NONEMPTY r.

Lemma run_byte_at (d : bytes) i s : (i < length d)%nat -> byte_at d i s = Ret (List.nth i d 0) s.
Proof.
  intros Hi. unfold byte_at. destruct (lookup_lt_is_Some_2 d i Hi) as [c Hc]. rewrite Hc.
  apply nth_lookup_Some with (d := 0) in Hc. by rewrite Hc.
Qed.

Lemma trailer_turn (d : bytes) f r e :
  (dechunk_pos r <= length d)%nat -> first_at d (dechunk_pos r) (length d) CRLF e ->
  trailer_loop d (S f) r =
    match e with
    | None => Ret None (trailer_pending d r)
    | Some eol =>
        if (dechunk_state r =? NGX_AUTOCERT_DECHUNK_TRAILER_START) && (eol =? dechunk_pos r)%nat
        then Ret (Some (eol + 2)%nat) r
        else trailer_loop d f (set_cursor (eol + 2) (dechunk_total r) NGX_AUTOCERT_DECHUNK_TRAILER_START r)
    end.
Proof.
  intros Hp He. cbn [trailer_loop]. rewrite bind_gets. unfold id.
  destruct (find_spec d (dechunk_pos r) (length d) CRLF ltac:(done) ltac:(lia)) as (e' & Hf & He').
  rewrite (first_at_unique _ _ _ _ _ _ He He') in *. rewrite (bind_Ret _ _ _ _ _ (Hf r)).
  destruct e' as [eol|]; [by destruct (_ && _)|]. unfold trailer_pending.
  destruct (Nat.eqb_spec (length d - dechunk_pos r) 0) as [H0|H0]; [done|].
  set (c := (dechunk_state r =? _) && _). 
  assert (Hc : (if c then byte_at d (dechunk_pos r) else ret 0) r
               = Ret (if c then List.nth (dechunk_pos r) d 0 else 0) r).
  { destruct c; [apply run_byte_at; lia|done]. }
  rewrite (bind_Ret _ _ _ _ _ Hc). destruct c; cbn [andb].
  - destruct (_ =? 13); [done|]. rewrite (bind_Ret _ _ _ _ _ (run_byte_at d (length d - 1) r ltac:(lia))).
    by rewrite bind_modify.
  - change (0 =? 13) with false. cbv iota.
    rewrite (bind_Ret _ _ _ _ _ (run_byte_at d (length d - 1) r ltac:(lia))). by rewrite bind_modify.
Qed.

Lemma trailer_loop_fuel (d : bytes) f f' r :
  (length d - dechunk_pos r < f)%nat -> (length d - dechunk_pos r < f')%nat ->
  (dechunk_pos r <= length d)%nat ->
  trailer_loop d f r = trailer_loop d f' r.
Proof.
  revert f' r. induction f as [|f IH]; intros f' r Hf Hf' Hp; [lia|]. destruct f' as [|f']; [lia|].
  destruct (find_spec d (dechunk_pos r) (length d) CRLF ltac:(done) ltac:(lia)) as (e & _ & He).
  rewrite !(trailer_turn d _ r e Hp He). destruct e as [eol|]; [|done].
  destruct (_ && _); [done|]. destruct He as (? & Hu & _). simpl in Hu.
  apply IH; destruct r; simpl in *; lia.
Qed.

(** A match stays the first one when more arrives. *)
Lemma first_at_extend p n e :
  first_at b p (length b) n (Some e) -> first_at (b ++ x) p (length (b ++ x)) n (Some e).
Proof.
  intros H. apply (first_at_app b x) in H; [|done]. destruct H as (? & ? & ? & ?).
  split; [done|]. split; [rewrite length_app; lia|]. done.
Qed.

Lemma crlf_at (d : bytes) j : CRLF `prefix_of` drop j d -> List.nth j d 0 = 13 /\ (j + 2 <= length d)%nat.
Proof.
  intros [t Ht]. apply drop_cons_lookup in Ht as [H1 H2]. apply drop_cons_lookup in H2 as [H2 _].
  split; [by apply nth_lookup_Some with (d := 0) in H1|]. apply lookup_lt_Some in H2. lia.
Qed.

Lemma nth_app_l (d e : bytes) j : (j < length d)%nat -> List.nth j (d ++ e) 0 = List.nth j d 0.
Proof. apply List.app_nth1. Qed.

(** The cursor of an unfinished trailer line: nothing before it can start the
    line's end. *)
Lemma pending_same_line r e :
  (dechunk_pos r <= length b)%nat -> first_at b (dechunk_pos r) (length b) CRLF None ->
  first_at (b ++ x) (dechunk_pos r) (length (b ++ x)) CRLF e ->
  first_at (b ++ x) (dechunk_pos (trailer_pending b r)) (length (b ++ x)) CRLF e.
Proof.
  intros Hp Hnone He. unfold trailer_pending.
  destruct (Nat.eqb_spec (length b - dechunk_pos r) 0); [done|]. destruct (_ && _); [done|].
  set (p' := (length b - retained b)%nat).
  assert (Hpos : dechunk_pos (set_cursor p' (dechunk_total r) NGX_AUTOCERT_DECHUNK_TRAILER_NONEMPTY r) = p')
    by (by destruct r). rewrite Hpos.
  assert (Hno : forall j, (dechunk_pos r <= j < p')%nat -> ~ CRLF `prefix_of` drop j (b ++ x)).
  { intros j Hj Hc. destruct (decide (j + 2 <= length b)%nat) as [Hin|Hout].
    - apply (prefix_drop_app b x) in Hc; [|exact Hin]. apply (Hnone j); [lia|exact Hin|exact Hc].
    - apply crlf_at in Hc as [Hc _]. unfold p', retained in Hj.
      destruct (Z.eqb_spec (List.nth (length b - 1) b 0) 13) as [H13|H13]; [lia|].
      replace j with (length b - 1)%nat in Hc by lia. rewrite nth_app_l in Hc by lia. done. }
  destruct e as [eol|].
  - destruct He as (H1 & H2 & H3 & H4). split; [|split; [done|split; [done|]]].
    + destruct (decide (p' <= eol)%nat); [done|]. exfalso. apply (Hno eol); [lia|done].
    + intros j Hj. apply H4. unfold p', retained in *. destruct (_ =? 13); lia.
  - intros j Hj Hju. apply He; [|done]. unfold p', retained in *. destruct (_ =? 13); lia.
Qed.

(** Without a line end in sight, resuming records the same cursor. *)
Lemma pending_again r r' p' :
  p' = (length b - retained b)%nat ->
  r' = set_cursor p' (dechunk_total r) NGX_AUTOCERT_DECHUNK_TRAILER_NONEMPTY r ->
  (dechunk_pos r < length b)%nat ->
  ((dechunk_state r =? NGX_AUTOCERT_DECHUNK_TRAILER_START) && (length b - dechunk_pos r =? 1)%nat
    && (List.nth (dechunk_pos r) b 0 =? 13))%bool = false ->
  trailer_pending (b ++ x) r' = trailer_pending (b ++ x) r.
Proof.
  intros Hp' Hr' Hp Hq.
  assert (HD : trailer_pending (b ++ x) r
    = set_cursor (length (b ++ x) - retained (b ++ x))
        (dechunk_total r) NGX_AUTOCERT_DECHUNK_TRAILER_NONEMPTY r).
  { unfold trailer_pending. rewrite length_app.
    destruct (Nat.eqb_spec (length b + length x - dechunk_pos r) 0); [lia|].
    match goal with |- (if ?c then _ else _) = _ => destruct c eqn:E end; [|reflexivity]. exfalso. rewrite nth_app_l in E by lia.
    apply andb_true_iff in E as [E H13]. apply andb_true_iff in E as [Hst H1]. apply Nat.eqb_eq in H1.
    rewrite Hst, H13, (proj2 (Nat.eqb_eq (length b - dechunk_pos r) 1)) in Hq by lia. done. }
  rewrite HD. subst r'. unfold trailer_pending.
  assert (E : dechunk_pos (set_cursor p' (dechunk_total r) NGX_AUTOCERT_DECHUNK_TRAILER_NONEMPTY r) = p'
              /\ dechunk_total (set_cursor p' (dechunk_total r) NGX_AUTOCERT_DECHUNK_TRAILER_NONEMPTY r) = dechunk_total r
              /\ dechunk_state (set_cursor p' (dechunk_total r) NGX_AUTOCERT_DECHUNK_TRAILER_NONEMPTY r)
                 = NGX_AUTOCERT_DECHUNK_TRAILER_NONEMPTY) by (by destruct r).
  destruct E as (-> & -> & ->).
  destruct (Nat.eqb_spec (length (b ++ x) - p') 0) as [H0|H0]; [|by destruct r].
  rewrite length_app in H0. destruct x as [|y ys].
  - rewrite app_nil_r in *. by rewrite <- Hp'.
  - simpl in H0. unfold retained in Hp'. destruct (_ =? 13) in Hp'; lia.
Qed.

Lemma trailer_resume f r r' F F' :
  trailer_loop b f r = Ret None r' -> (dechunk_pos r <= length b)%nat ->
  (length b - dechunk_pos r < f)%nat ->
  (length (b ++ x) < F)%nat -> (length (b ++ x) < F')%nat ->
  trailer_loop (b ++ x) F r' = trailer_loop (b ++ x) F' r.
Proof.
  intros Hr Hp Hf HF HF'. revert r Hr Hp Hf F' HF'.
  induction f as [|f IH]; intros r Hr Hp Hf F' HF'; [lia|].
  assert (HpD : (dechunk_pos r <= length (b ++ x))%nat) by (rewrite length_app; lia).
  destruct (find_spec b (dechunk_pos r) (length b) CRLF ltac:(done) ltac:(lia)) as (e & _ & He).
  rewrite (trailer_turn b f r e Hp He) in Hr. destruct e as [eol|].
  - destruct (_ && _) eqn:Es; [done|]. destruct F' as [|F']; [lia|].
    rewrite (trailer_turn _ F' r _ HpD (first_at_extend _ _ _ He)), Es.
    pose proof He as (? & Hu & _). simpl in Hu.
    set (r1 := set_cursor _ _ _ r) in *.
    assert (Hp1 : dechunk_pos r1 = (eol + 2)%nat) by (by destruct r).
    rewrite (IH r1 Hr ltac:(lia) ltac:(lia) (S F')) by lia.
    apply trailer_loop_fuel; rewrite ?Hp1, ?length_app in *; lia.
  - injection Hr as <-.
    destruct (find_spec (b ++ x) (dechunk_pos r) (length (b ++ x)) CRLF ltac:(done) ltac:(lia)) as (e & _ & HeD).
    pose proof (pending_same_line r e Hp He HeD) as HeD'.
    destruct F as [|F]; [lia|]. destruct F' as [|F']; [lia|].
    unfold trailer_pending in HeD' |- *.
    destruct (Nat.eqb_spec (length b - dechunk_pos r) 0) as [H0|H0]; [apply trailer_loop_fuel; lia|].
    case_match eqn:Eq; [apply trailer_loop_fuel; lia|].
    rewrite (trailer_turn _ F' r e HpD HeD).
    set (p' := (length b - retained b)%nat) in *. set (r' := set_cursor p' _ _ r) in *.
    assert (Hr' : dechunk_pos r' = p' /\ dechunk_state r' = NGX_AUTOCERT_DECHUNK_TRAILER_NONEMPTY
                  /\ dechunk_total r' = dechunk_total r
                  /\ forall q t s, set_cursor q t s r' = set_cursor q t s r) by (by destruct r).
    destruct Hr' as (Hp' & Hs' & Ht' & Hset).
    assert (Hp'le : (p' <= length (b ++ x))%nat) by (unfold p'; rewrite length_app; lia).
    rewrite (trailer_turn _ F r' e) by (rewrite ?Hp' in *; done).
    rewrite Hs'. change (NGX_AUTOCERT_DECHUNK_TRAILER_NONEMPTY =? NGX_AUTOCERT_DECHUNK_TRAILER_START) with false.
    cbn [andb]. destruct e as [eol|].
    + replace ((dechunk_state r =? NGX_AUTOCERT_DECHUNK_TRAILER_START) && (eol =? dechunk_pos r)%nat) with false.
      2: { symmetry. apply andb_false_iff.
           destruct (Z.eqb_spec (dechunk_state r) NGX_AUTOCERT_DECHUNK_TRAILER_START); [right|by left].
           apply Nat.eqb_neq. intros ->. destruct HeD' as (Hge & _). rewrite Hp' in Hge. unfold p', retained in Hge.
           simpl in Eq. destruct (Nat.eqb_spec (length b - dechunk_pos r) 1) as [H1|H1].
           - simpl in Eq. replace (length b - 1)%nat with (dechunk_pos r) in Hge by lia.
             rewrite Eq in Hge. lia.
           - destruct (_ =? 13) in Hge; lia. }
      rewrite Ht', Hset. destruct HeD as (? & Hu & _). simpl in Hu.
      apply trailer_loop_fuel; destruct r; simpl in *; lia.
    + f_equal. apply (pending_again r r' p'); try done. lia.
Qed.

(** The cursor of a trailer never goes back to the chunks, nor to the start. *)
Lemma trailer_state (d : bytes) f r stop r' :
  trailer_loop d f r = Ret stop r' -> dechunk_state r <> NGX_AUTOCERT_DECHUNK_CHUNKS ->
  (0 < dechunk_pos r <= length d)%nat ->
  keeps r r' /\ dechunk_state r' <> NGX_AUTOCERT_DECHUNK_CHUNKS
  /\ (0 < dechunk_pos r' <= length d)%nat.
Proof.
  revert r. induction f as [|f IH]; intros r Hr Hs Hp; [done|].
  destruct (find_spec d (dechunk_pos r) (length d) CRLF ltac:(done) ltac:(lia)) as (e & _ & He).
  rewrite (trailer_turn d f r e) in Hr by (done || lia). destruct e as [eol|].
  - destruct (_ && _) eqn:Es.
    + injection Hr as _ <-. split; [apply keeps_refl|done].
    + destruct He as (? & Hu & _). simpl in Hu. apply IH in Hr as (Hk & ? & ?).
      * split; [eapply keeps_trans; [apply keeps_cursor|exact Hk]|done].
      * by destruct r.
      * destruct r; simpl in *; lia.
  - injection Hr as _ <-. unfold trailer_pending.
    destruct (Nat.eqb_spec (length d - dechunk_pos r) 0); [split; [apply keeps_refl|done]|].
    match goal with |- context [if ?c then r else _] => destruct c end; [split; [apply keeps_refl|done]|].
    split; [apply keeps_cursor|]. split; [by destruct r|]. unfold retained.
    destruct (_ =? 13); destruct r; simpl in *; lia.
Qed.

(** One turn of the chunk loop. *)
Lemma chunk_turn (d : bytes) f r e :
  (dechunk_pos r <= length d)%nat -> first_at d (dechunk_pos r) (length d) CRLF e ->
  chunk_loop d (S f) r =
    match e with
    | None => Ret None r
    | Some eol =>
        match ngx_autocert_acme_chunk_size (take (eol - dechunk_pos r) (drop (dechunk_pos r) d)) with
        | None => Err r
        | Some size =>
            if size =? 0 then
              trailer_loop d (S (length d))
                (set_cursor (eol + 2) (dechunk_total r) NGX_AUTOCERT_DECHUNK_TRAILER_START r)
            else if (length d - (eol + 2) <? 2)%nat || (Z.of_nat (length d - (eol + 2) - 2) <? size)
            then Ret None r
            else if decide (take 2 (drop (eol + 2 + Z.to_nat size) d) = CRLF) then
              chunk_loop d f (set_cursor (eol + 2 + Z.to_nat size + 2)
                                (dechunk_total r + Z.to_nat size) (dechunk_state r) r)
            else Err r
        end
    end.
Proof.
  intros Hp He. cbn [chunk_loop]. rewrite bind_gets. unfold id.
  destruct (find_spec d (dechunk_pos r) (length d) CRLF ltac:(done) ltac:(lia)) as (e' & Hf & He').
  rewrite (first_at_unique _ _ _ _ _ _ He He') in *. rewrite (bind_Ret _ _ _ _ _ (Hf r)).
  destruct e' as [eol|]; [|done]. destruct He' as (Hge & Hu & _). simpl in Hu.
  assert (Hb : forall i n s, (i + n <= length d)%nat -> bytes_at d i n s = Ret (take n (drop i d)) s).
  { intros i n s Hi. unfold bytes_at, slice. destruct (Nat.leb_spec (i + n) (length d)); [done|lia]. }
  rewrite (bind_Ret _ _ _ _ _ (Hb (dechunk_pos r) (eol - dechunk_pos r)%nat r ltac:(lia))).
  destruct (ngx_autocert_acme_chunk_size _) as [size|] eqn:Es; [|done].
  apply chunk_size_nonneg in Es. destruct (size =? 0); [by rewrite bind_modify|].
  destruct (_ || _) eqn:Eo; [done|]. apply orb_false_iff in Eo as [E1 E2]. reflect_bools.
  rewrite (bind_Ret _ _ _ _ _ (Hb (eol + 2 + Z.to_nat size)%nat 2%nat r ltac:(lia))).
  destruct (memcmp_exact (take 2 (drop (eol + 2 + Z.to_nat size) d)) CRLF) as (m & Hm & Hm0).
  { rewrite length_take, length_drop. change (length CRLF) with 2%nat. lia. }
  change (length CRLF) with 2%nat in Hm. rewrite Hm.
  destruct (decide _) as [Hc|Hc].
  - apply Hm0 in Hc. subst m. change (negb (0 =? 0)) with false. cbv iota. by rewrite bind_modify.
  - destruct (Z.eqb_spec m 0) as [->|]; [by destruct Hc; apply Hm0|done].
Qed.

Lemma chunk_loop_fuel (d : bytes) f f' r :
  (length d - dechunk_pos r < f)%nat -> (length d - dechunk_pos r < f')%nat ->
  (dechunk_pos r <= length d)%nat -> chunk_loop d f r = chunk_loop d f' r.
Proof.
  revert f' r. induction f as [|f IH]; intros f' r Hf Hf' Hp; [lia|]. destruct f' as [|f']; [lia|].
  destruct (find_spec d (dechunk_pos r) (length d) CRLF ltac:(done) ltac:(lia)) as (e & _ & He).
  rewrite !(chunk_turn d _ r e Hp He). destruct e as [eol|]; [|done].
  destruct (ngx_autocert_acme_chunk_size _) as [size|]; [|done]. destruct (size =? 0); [done|].
  destruct (_ || _) eqn:Eo; [done|]. apply orb_false_iff in Eo as [E1 E2]. reflect_bools.
  destruct (decide _); [|done]. destruct He as (? & Hu & _). simpl in Hu.
  apply IH; destruct r; simpl in *; lia.
Qed.

(** Resuming the scan where it stopped. *)
Definition resume_scan (d : bytes) (r : resp) : outcome resp (option nat) :=
  if negb (dechunk_state r =? NGX_AUTOCERT_DECHUNK_CHUNKS) then trailer_loop d (S (length d)) r
  else chunk_loop d (S (length d)) r.

Lemma chunk_resume f r r' F :
  chunk_loop b f r = Ret None r' -> dechunk_state r = NGX_AUTOCERT_DECHUNK_CHUNKS ->
  (0 < dechunk_pos r <= length b)%nat -> (length b - dechunk_pos r < f)%nat ->
  (length (b ++ x) < F)%nat ->
  resume_scan (b ++ x) r' = chunk_loop (b ++ x) F r
  /\ keeps r r' /\ (0 < dechunk_pos r')%nat.
Proof.
  intros Hr Hs Hp Hf HF. revert r Hr Hs Hp Hf F HF.
  induction f as [|f IH]; intros r Hr Hs Hp Hf F HF; [lia|].
  assert (HpD : (dechunk_pos r <= length (b ++ x))%nat) by (rewrite length_app; lia).
  assert (Hsame : resume_scan (b ++ x) r = chunk_loop (b ++ x) F r /\ keeps r r /\ (0 < dechunk_pos r)%nat).
  { split; [|split; [apply keeps_refl|lia]]. unfold resume_scan. rewrite Hs. apply chunk_loop_fuel; lia. }
  destruct (find_spec b (dechunk_pos r) (length b) CRLF ltac:(done) ltac:(lia)) as (e & _ & He).
  rewrite (chunk_turn b f r e) in Hr by (done || lia).
  destruct e as [eol|]; [|by injection Hr as <-]. pose proof He as (Hge & Hu & _). simpl in Hu.
  destruct F as [|F]; [lia|].
  rewrite (chunk_turn _ F r _ HpD (first_at_extend _ _ _ He)) in Hsame |- *.
  assert (Hline : take (eol - dechunk_pos r) (drop (dechunk_pos r) (b ++ x))
                  = take (eol - dechunk_pos r) (drop (dechunk_pos r) b)).
  { rewrite drop_app_le, take_app_le by (rewrite ?length_drop; lia). done. }
  rewrite Hline in Hsame |- *.
  destruct (ngx_autocert_acme_chunk_size _) as [size|] eqn:Es; [|done]. apply chunk_size_nonneg in Es.
  destruct (size =? 0).
  - clear Hsame. set (r1 := set_cursor _ _ _ r) in *.
    assert (Hr1 : dechunk_pos r1 = (eol + 2)%nat
                  /\ dechunk_state r1 = NGX_AUTOCERT_DECHUNK_TRAILER_START) by (by destruct r).
    destruct Hr1 as [Hp1 Hs1].
    pose proof (trailer_state b _ r1 _ _ Hr) as (Hk & Hst & Hpos); [by rewrite Hs1|lia|].
    split; [|split; [eapply keeps_trans; [apply keeps_cursor|exact Hk]|lia]].
    unfold resume_scan. destruct (Z.eqb_spec (dechunk_state r') NGX_AUTOCERT_DECHUNK_CHUNKS); [done|].
    simpl negb. cbv iota. by apply (trailer_resume (S (length b)) r1 r'); [|lia..].
  - destruct (_ || _) eqn:Eo in Hr; [by injection Hr as <-|]. clear Hsame.
    apply orb_false_iff in Eo as [E1 E2]. reflect_bools. rewrite length_app.
    destruct (_ || _) eqn:Eo; [apply orb_true_iff in Eo as [Eo|Eo]; reflect_bools; lia|]. clear Eo.
    assert (Hcr : take 2 (drop (eol + 2 + Z.to_nat size) (b ++ x)) = take 2 (drop (eol + 2 + Z.to_nat size) b)).
    { rewrite drop_app_le, take_app_le by (rewrite ?length_drop; lia). done. }
    rewrite Hcr. destruct (decide _); [|done].
    set (r1 := set_cursor _ _ _ r) in *.
    assert (Hr1 : dechunk_pos r1 = (eol + 2 + Z.to_nat size + 2)%nat
                  /\ dechunk_state r1 = dechunk_state r) by (by destruct r).
    destruct Hr1 as [Hp1 Hs1].
    destruct (IH r1 Hr ltac:(congruence) ltac:(lia) ltac:(lia) (S (S F)) ltac:(lia)) as (E & Hk & Hpos).
    rewrite E. split; [|split; [eapply keeps_trans; [apply keeps_cursor|exact Hk]|done]].
    apply chunk_loop_fuel; rewrite ?Hp1, length_app in *; lia.
Qed.

End Ext.

(** ** The header scan cursor is not an output *)

Definition omap {A} (f : resp -> resp) (o : outcome resp A) : outcome resp A :=
  match o with
  | Ret a r => Ret a (f r)
  | Err r => Err (f r)
  | Fault => Fault
  | NoFuel => NoFuel
  end.

(** [m] neither reads nor writes [hdr_scan_pos]. *)
Definition blind {A} (m : prog resp A) : Prop :=
  forall k r, m (set_hdr_scan_pos k r) = omap (set_hdr_scan_pos k) (m r).

Lemma blind_bind {A B} (m : prog resp A) (k : A -> prog resp B) :
  blind m -> (forall a, blind (k a)) -> blind (bind m k).
Proof.
  intros Hm Hk n r. unfold bind. rewrite Hm. destruct (m r); simpl; [apply Hk|done..].
Qed.

Lemma blind_ret {A} (a : A) : blind (ret a).
Proof. done. Qed.

Lemma blind_fail {A} : blind (@fail resp A).
Proof. done. Qed.

Lemma blind_modify f :
  (forall k r, f (set_hdr_scan_pos k r) = set_hdr_scan_pos k (f r)) -> blind (modify f).
Proof. intros Hf k r. unfold modify. simpl. by rewrite Hf. Qed.

Lemma blind_gets {B} (K : resp -> prog resp B) :
  (forall k r, K (set_hdr_scan_pos k r) = K r) -> (forall r, blind (K r)) ->
  blind (bind (gets id) K).
Proof. intros HK Hb k r. unfold bind, gets, id. rewrite HK. apply Hb. Qed.

Lemma blind_palloc oom : blind (palloc oom).
Proof. by intros k []. Qed.

Section Blind.
Context (b : bytes) (oom : nat -> bool).

Lemma blind_bytes_at i n : blind (bytes_at b i n).
Proof. intros k r. unfold bytes_at. by destruct (slice b i n). Qed.

Lemma blind_byte_at i : blind (byte_at b i).
Proof. intros k r. unfold byte_at. by destruct (b !! i). Qed.

Lemma blind_find i j n : blind (find b i j n).
Proof.
  unfold find. destruct (j <? i)%nat; [done|]. apply blind_bind; [apply blind_bytes_at|].
  intros a. apply blind_ret.
Qed.

Ltac blind_with tac :=
  repeat first
    [ tac
    | apply blind_gets; [by intros ? []|intros ?]
    | apply blind_bind; [|intros ?]
    | apply blind_bytes_at | apply blind_byte_at | apply blind_find | apply blind_palloc
    | apply blind_modify; by intros ? []
    | apply blind_ret | apply blind_fail | done
    | match goal with
      | |- blind (match ?c with _ => _ end) => destruct c
      | |- blind (if ?c then _ else _) => destruct c
      end ].
Ltac blind_tac := blind_with fail.

Lemma blind_skip n v : blind (skip_blank b n v).
Proof. revert v. induction n as [|n IH]; intros v; simpl; blind_tac. Qed.

Lemma blind_trim n v : blind (trim_blank b n v).
Proof. revert v. induction n as [|n IH]; intros v; simpl; blind_tac. Qed.

Lemma blind_capture line eol : blind (capture_header b oom line eol).
Proof.
  unfold capture_header. blind_with ltac:(first [apply blind_skip|apply blind_trim]).
Qed.

Lemma blind_cl : blind (gets content_length).
Proof. by intros k []. Qed.

Lemma blind_framing line eol : blind (framing_header b line eol).
Proof. unfold framing_header, line_is. blind_with ltac:(first [apply blind_skip|apply blind_cl]). Qed.

Lemma blind_header_loop f line limit : blind (header_loop b oom f line limit).
Proof.
  revert line. induction f as [|f IH]; intros line; cbn [header_loop];
    blind_with ltac:(first [apply blind_capture|apply blind_framing|apply IH]).
Qed.

Lemma blind_parse_head h : blind (parse_head b oom h).
Proof. unfold parse_head, status_line. blind_with ltac:(apply blind_header_loop). Qed.

Lemma blind_trailer f : blind (trailer_loop b f).
Proof. induction f as [|f IH]; cbn [trailer_loop]; blind_tac. Qed.

Lemma blind_chunk f : blind (chunk_loop b f).
Proof. induction f as [|f IH]; cbn [chunk_loop]; blind_with ltac:(first [apply blind_trailer|apply IH]). Qed.

Lemma blind_copy f p total o : blind (copy_loop b f p total o).
Proof. revert p o. induction f as [|f IH]; intros p o; cbn [copy_loop]; blind_tac. Qed.

Lemma blind_dechunk : blind (ngx_autocert_acme_dechunk b oom).
Proof.
  unfold ngx_autocert_acme_dechunk.
  blind_with ltac:(first [apply blind_trailer|apply blind_chunk|apply blind_copy]).
Qed.

(** The part of the parse that follows the headers. *)
Definition parse_body : prog resp Z :=
  let! r := gets id in
  if chunked r then ngx_autocert_acme_dechunk b oom
  else if 0 <=? content_length r then
    let have := Z.of_nat (length b - body_offset r) in
    if content_length r <=? have then
      let! s := bytes_at b (body_offset r) (Z.to_nat (content_length r)) in
      modify (set_body_out s);; ret NGX_DONE
    else ret NGX_AGAIN
  else ret NGX_AGAIN.

Lemma blind_parse_body : blind parse_body.
Proof. unfold parse_body. blind_with ltac:(apply blind_dechunk). Qed.

Definition scan_from (s : nat) : nat := if (3 <? s)%nat then (s - 3)%nat else 0%nat.

(** The two ways through one parse. *)
Lemma parse_done r : headers_done r = true -> ngx_autocert_acme_parse_response b oom r = parse_body r.
Proof.
  intros H. unfold ngx_autocert_acme_parse_response. rewrite bind_gets. unfold id at 1. by rewrite H.
Qed.

Lemma parse_start r e :
  headers_done r = false -> (scan_from (hdr_scan_pos r) <= length b)%nat ->
  first_at b (scan_from (hdr_scan_pos r)) (length b) (CRLF ++ CRLF) e ->
  ngx_autocert_acme_parse_response b oom r =
    match e with
    | None => Ret NGX_AGAIN (set_hdr_scan_pos (length b) r)
    | Some h => (parse_head b oom (h + 4);; parse_body) r
    end.
Proof.
  intros Hh Hs He. unfold ngx_autocert_acme_parse_response. rewrite bind_gets. unfold id at 1.
  rewrite Hh. cbv iota zeta. fold (scan_from (hdr_scan_pos r)).
  destruct (find_spec b (scan_from (hdr_scan_pos r)) (length b) (CRLF ++ CRLF) ltac:(done) ltac:(lia)) as (e' & Hf & He').
  rewrite (first_at_unique _ _ _ _ _ _ He He') in *. unfold id, scan_from in *.
  match goal with |- bind ?m _ r = _ =>
    assert (Hm : m r = match e' with
                       | None => Ret false (set_hdr_scan_pos (length b) r)
                       | Some h => bind (parse_head b oom (h + 4)) (fun _ => ret true) r
                       end)
  end.
  { rewrite (bind_Ret _ _ _ _ _ (Hf r)). by destruct e'. }
  rewrite bind_cases, Hm. destruct e' as [h|]; [|done].
  rewrite !bind_cases. by destruct (parse_head b oom (h + 4) r).
Qed.
End Blind.

(** ** The whole parse, resumed *)

Section Resume.
Context (oom : nat -> bool).

Abbreviation parse b := (ngx_autocert_acme_parse_response b oom).

(** What follows the scan of the chunks. *)
Definition dechunk_finish (b : bytes) (stop : option nat) : prog resp Z :=
  match stop with
  | None => ret NGX_AGAIN
  | Some _ =>
      let! ok := palloc oom in
      if negb ok then fail
      else
        let! r := gets id in
        let! o := copy_loop b (S (length b)) (body_offset r) (dechunk_total r) [] in
        modify (set_body_out o);;
        ret NGX_DONE
  end.

Definition dechunk_enter (r : resp) : resp :=
  if (dechunk_pos r =? 0)%nat then set_cursor (body_offset r) 0 (dechunk_state r) r else r.

Lemma dechunk_eq b r :
  ngx_autocert_acme_dechunk b oom r = bind (resume_scan b) (dechunk_finish b) (dechunk_enter r).
Proof.
  unfold ngx_autocert_acme_dechunk, dechunk_enter. rewrite bind_gets. unfold id at 1 2 3.
  assert (Hst : dechunk_state (if (dechunk_pos r =? 0)%nat
                               then set_cursor (body_offset r) 0 (dechunk_state r) r else r) = dechunk_state r).
  { destruct (_ =? 0)%nat; by destruct r. }
  assert (E : forall r1, dechunk_state r1 = dechunk_state r ->
    bind (if negb (dechunk_state (id r) =? NGX_AUTOCERT_DECHUNK_CHUNKS)
          then trailer_loop b (S (length b)) else chunk_loop b (S (length b))) (dechunk_finish b) r1
    = bind (resume_scan b) (dechunk_finish b) r1).
  { intros r1 H1. rewrite !bind_cases. unfold resume_scan, id. rewrite H1. by destruct (negb _). }
  rewrite <- E by done. destruct (dechunk_pos r =? 0)%nat; done.
Qed.

Lemma body_resume b x r r' :
  parse_body b oom r = Ret NGX_AGAIN r' -> headers_done r = true -> dechunk_fresh r ->
  (0 < body_offset r <= length b)%nat ->
  headers_done r' = true /\ parse_body (b ++ x) oom r' = parse_body (b ++ x) oom r.
Proof.
  intros Hr Hh [Hp Hs] Hb. unfold parse_body in Hr |- *. rewrite bind_gets in Hr. unfold id in Hr.
  rewrite !bind_gets. unfold id. destruct (chunked r) eqn:Hck.
  - rewrite dechunk_eq in Hr. assert (He : dechunk_enter r = set_cursor (body_offset r) 0 (dechunk_state r) r)
      by (unfold dechunk_enter; by rewrite Hp).
    rewrite (dechunk_eq (b ++ x) r). rewrite He in *. set (r1 := set_cursor _ _ _ r) in *.
    assert (Hr1 : dechunk_pos r1 = body_offset r /\ dechunk_state r1 = NGX_AUTOCERT_DECHUNK_CHUNKS
                  /\ keeps r r1) by (unfold r1; rewrite Hs; by destruct r).
    destruct Hr1 as (Hp1 & Hs1 & Hk1). rewrite bind_cases in Hr.
    unfold resume_scan in Hr at 1. rewrite Hs1 in Hr.
    change (negb (NGX_AUTOCERT_DECHUNK_CHUNKS =? NGX_AUTOCERT_DECHUNK_CHUNKS)) with false in Hr. cbv iota in Hr.
    destruct (chunk_loop b (S (length b)) r1) as [stop r2| | |] eqn:Ec; [|done..].
    destruct stop as [q|].
    { exfalso. unfold dechunk_finish, bind, palloc, gets, id in Hr. destruct (negb (negb _)); [done|].
      by destruct (copy_loop _ _ _ _ _ _). }
    injection Hr as <-.
    destruct (chunk_resume b x (S (length b)) r1 r2 (S (length (b ++ x))) Ec Hs1) as (E & Hk2 & Hpos);
      [lia|lia|lia|].
    pose proof (keeps_trans _ _ _ Hk1 Hk2) as (Hhd & Hck2 & _).
    split; [congruence|]. rewrite Hck2, Hck. rewrite dechunk_eq.
    assert (He2 : dechunk_enter r2 = r2).
    { unfold dechunk_enter. destruct (Nat.eqb_spec (dechunk_pos r2) 0); [lia|done]. }
    rewrite He2, !bind_cases, E. unfold resume_scan. by rewrite Hs1.
  - assert (r' = r) as ->; [|by rewrite Hck].
    destruct (0 <=? content_length r); [|by injection Hr].
    destruct (content_length r <=? _); [|by injection Hr].
    exfalso. unfold bind, bytes_at in Hr. by destruct (slice _ _ _).
Qed.

(** A response of which [s] bytes were searched in vain for the header's end. *)
Definition start (s : nat) : resp := set_hdr_scan_pos s resp0.

Definition searched (s : nat) (b : bytes) : Prop :=
  (s <= length b)%nat /\ forall j, (j + 4 <= s)%nat -> ~ (CRLF ++ CRLF) `prefix_of` drop j b.

Lemma searched_app s b x : searched s b -> searched s (b ++ x).
Proof.
  intros [Hl Hs]. split; [rewrite length_app; lia|]. intros j Hj Hp.
  apply (Hs j Hj). apply (prefix_drop_app b x); [simpl; lia|done].
Qed.

Lemma searched_first s b e :
  searched s b -> first_at b 0 (length b) (CRLF ++ CRLF) e ->
  first_at b (scan_from s) (length b) (CRLF ++ CRLF) e.
Proof.
  intros [_ Hs] He. unfold scan_from. destruct e as [h|].
  - destruct He as (_ & Hu & Hp & Hf). split; [|split; [done|split; [done|intros j Hj; apply Hf; lia]]].
    destruct (Nat.ltb_spec 3 s); [|lia]. destruct (decide (s - 3 <= h)%nat); [done|].
    exfalso. apply (Hs h); [lia|done].
  - intros j Hj. apply He. lia.
Qed.

Lemma parse_searched s b e :
  searched s b -> first_at b 0 (length b) (CRLF ++ CRLF) e ->
  parse b (start s) =
    match e with
    | None => Ret NGX_AGAIN (start (length b))
    | Some h => (parse_head b oom (h + 4);; parse_body b oom) (start s)
    end.
Proof.
  intros Hs He. rewrite (parse_start b oom (start s) e); [by destruct e|done| |].
  - destruct Hs as [Hl _]. simpl. unfold scan_from. destruct (_ <? _)%nat; lia.
  - by apply searched_first.
Qed.

Lemma parse_step s b r' :
  searched s b -> parse b (start s) = Ret NGX_AGAIN r' ->
  exists s', searched s' b /\
    (r' = start s' \/ headers_done r' = true /\ forall x, parse (b ++ x) r' = parse (b ++ x) (start s')).
Proof.
  intros Hs Hr. destruct (find_spec b 0 (length b) (CRLF ++ CRLF) ltac:(done) ltac:(lia)) as (e & _ & He).
  rewrite (parse_searched s b e Hs He) in Hr. destruct e as [h|].
  - exists s. split; [done|]. right. pose proof He as (_ & Hu & _). simpl in Hu.
    assert (Hcl : cl_ok (start s)) by (unfold cl_ok, NGX_MAX_INT_T_VALUE; simpl; lia).
    pose proof (wp_parse_head b oom h (start s) ltac:(lia) He Hcl) as Hw. unfold wp in Hw.
    rewrite bind_cases in Hr. destruct (parse_head b oom (h + 4) (start s)) as [u rh| | |] eqn:Eh; [|done..].
    destruct Hw as (Hhd & Hbo & _ & Hdp & _ & Hds & _).
    assert (Hall : forall x, headers_done r' = true /\ parse_body (b ++ x) oom r' = parse_body (b ++ x) oom rh).
    { intros x. apply body_resume; [done|done|by split|lia]. }
    split; [apply (Hall [])|]. intros x. destruct (Hall x) as [Hhd' E].
    rewrite (parse_done _ _ _ Hhd'), E.
    rewrite (parse_searched s (b ++ x) (Some h)); [|by apply searched_app|by apply first_at_extend].
    rewrite bind_cases. destruct (ext_parse_head b x oom (h + 4) (start s)) as [<-|Ef]; [by rewrite Eh|congruence].
  - injection Hr as <-. exists (length b). split; [|by left]. split; [done|].
    intros j Hj. apply He; [lia|done].
Qed.

(** The outcome but for the scan cursor. *)
Definition forget (o : outcome resp Z) : outcome resp Z := omap (set_hdr_scan_pos 0) o.

Lemma parse_forget s b : searched s b -> forget (parse b (start s)) = forget (parse b resp0).
Proof.
  intros Hs. assert (H0 : searched 0 b) by (split; [lia|intros j; lia]).
  destruct (find_spec b 0 (length b) (CRLF ++ CRLF) ltac:(done) ltac:(lia)) as (e & _ & He).
  change resp0 with (start 0). rewrite (parse_searched s b e Hs He), (parse_searched 0 b e H0 He).
  destruct e as [h|]; [|done].
  assert (Hb : blind (parse_head b oom (h + 4);; parse_body b oom)).
  { apply blind_bind; [apply blind_parse_head|intros _; apply blind_parse_body]. }
  unfold forget. unfold start at 1. rewrite (Hb s resp0). change (start 0) with resp0.
  destruct ((parse_head b oom (h + 4);; parse_body b oom) resp0) as [a r|r| |]; simpl; by try destruct r.
Qed.

(** The reads of one response: each is appended to the buffer and parsed, until
    the response is complete or wrong. *)
Fixpoint feed (b : bytes) (r : resp) (reads : list bytes) : bytes * outcome resp Z :=
  match reads with
  | [] => (b, Ret NGX_AGAIN r)
  | x :: reads' =>
      match parse (b ++ x) r with
      | Ret code r' =>
          if code =? NGX_AGAIN then feed (b ++ x) r' reads' else (b ++ x, Ret code r')
      | o => (b ++ x, o)
      end
  end.

Lemma feed_once b s r reads :
  searched s b ->
  (r = start s \/ headers_done r = true /\ forall x, parse (b ++ x) r = parse (b ++ x) (start s)) ->
  reads <> [] ->
  exists s', searched s' (feed b r reads).1 /\ (feed b r reads).2 = parse (feed b r reads).1 (start s').
Proof.
  revert b s r. induction reads as [|x reads IH]; intros b s r Hs Hr Hne; [done|]. cbn [feed].
  assert (E : parse (b ++ x) r = parse (b ++ x) (start s)) by (destruct Hr as [-> | [_ Hr]]; [done|apply Hr]).
  pose proof (searched_app s b x Hs) as Hsx. rewrite E.
  assert (Hthis : forall o, parse (b ++ x) (start s) = o ->
    exists s', searched s' (b ++ x, o).1 /\ (b ++ x, o).2 = parse (b ++ x, o).1 (start s'))
    by (intros o <-; by exists s).
  specialize (Hthis _ eq_refl). destruct (parse (b ++ x) (start s)) as [code r'|r'| |] eqn:Ep; [|done..].
  destruct (Z.eqb_spec code NGX_AGAIN) as [->|]; [|done].
  destruct (parse_step s (b ++ x) r' Hsx Ep) as (s' & Hs' & Hr').
  destruct reads as [|y reads]; [done|]. by apply (IH (b ++ x) s' r').
Qed.
End Resume.

(** ** The read event of the ACME client

    The receive buffer, its one growth, and the conditions under which a
    response is handed to the caller as complete. *)

(** What a resumed parse promises: it stays in the buffer, and either waits or
    completes a framed response. *)
Lemma framed_scan b r r' : set_hdr_scan_pos 0 r = set_hdr_scan_pos 0 r' -> framed b r' -> framed b r.
Proof.
  intros Hr. assert (Hset : forall q, body_offset (set_hdr_scan_pos 0 q) = body_offset q
    /\ chunked (set_hdr_scan_pos 0 q) = chunked q /\ content_length (set_hdr_scan_pos 0 q) = content_length q
    /\ body_out (set_hdr_scan_pos 0 q) = body_out q) by (by intros []).
  unfold framed. destruct (Hset r) as (E1 & E2 & E3 & E4), (Hset r') as (F1 & F2 & F3 & F4).
  by rewrite <- E1, <- E2, <- E3, <- E4, Hr, F1, F2, F3, F4.
Qed.

Lemma parse_started oom s b :
  searched s b ->
  wp (ngx_autocert_acme_parse_response b oom) (start s)
     (fun code r => code = NGX_AGAIN \/ code = NGX_DONE /\ framed b r) (fun _ => True).
Proof.
  intros Hs. pose proof (parse_forget oom s b Hs) as Hf. pose proof (wp_parse_response b oom) as Hw.
  unfold wp, forget in *.
  destruct (ngx_autocert_acme_parse_response b oom (start s)) as [code r|r| |],
    (ngx_autocert_acme_parse_response b oom resp0) as [code0 r0|r0| |]; try done.
  simpl in Hf. injection Hf as <- Hr. destruct Hw as [?|[? Hfr]]; [by left|right].
  split; [done|]. by eapply framed_scan.
Qed.

Section Read.
Context (oom : nat -> bool).

Abbreviation parse b := (ngx_autocert_acme_parse_response b oom).

(** A response that is still being received, all of [b] having been parsed. *)
Definition waiting (b : bytes) (r : resp) : Prop :=
  (exists s, searched s b
    /\ (r = start s \/ headers_done r = true /\ forall x, parse (b ++ x) r = parse (b ++ x) (start s)))
  /\ (headers_done r = true ->
      exists h, first_at b 0 (length b) (CRLF ++ CRLF) (Some h) /\ body_offset r = (h + 4)%nat).

Lemma waiting0 : waiting [] resp0.
Proof. split; [|done]. exists 0%nat. split; [|by left]. split; [simpl; lia|intros j; lia]. Qed.

Lemma again_offset s b r :
  searched s b -> parse b (start s) = Ret NGX_AGAIN r -> headers_done r = true ->
  exists h, first_at b 0 (length b) (CRLF ++ CRLF) (Some h) /\ body_offset r = (h + 4)%nat.
Proof.
  intros Hs Hr Hd. destruct (find_spec b 0 (length b) (CRLF ++ CRLF) ltac:(done) ltac:(lia)) as (e & _ & He).
  rewrite (parse_searched oom s b e Hs He) in Hr. destruct e as [h|]; [|by injection Hr as <-].
  exists h. split; [done|]. pose proof He as (_ & Hu & _). simpl in Hu.
  assert (Hcl : cl_ok (start s)) by (unfold cl_ok, NGX_MAX_INT_T_VALUE; simpl; lia).
  pose proof (wp_parse_head b oom h (start s) ltac:(lia) He Hcl) as Hw. unfold wp in Hw.
  rewrite bind_cases in Hr. destruct (parse_head b oom (h + 4) (start s)) as [u rh| | |]; [|done..].
  destruct Hw as (_ & Hbo & _ & Hdp & _ & Hds & _). rewrite <- Hbo. unfold parse_body in Hr.
  rewrite bind_gets in Hr. unfold id in Hr. destruct (chunked rh).
  - pose proof (wp_dechunk b oom rh ltac:(by split) ltac:(lia)) as Hw. unfold wp in Hw. rewrite Hr in Hw. tauto.
  - destruct (0 <=? _); [|by injection Hr as <-]. destruct (_ <=? _); [|by injection Hr as <-].
    exfalso. unfold bind, bytes_at in Hr. by destruct (slice _ _ _).
Qed.

Lemma waiting_parse b r x :
  waiting b r -> wp (parse (b ++ x)) r
    (fun code r' => code = NGX_AGAIN /\ waiting (b ++ x) r' \/ code = NGX_DONE /\ framed (b ++ x) r') (fun _ => True).
Proof.
  intros ((s & Hs & Hr) & _). pose proof (searched_app s b x Hs) as Hsx.
  assert (E : parse (b ++ x) r = parse (b ++ x) (start s)) by (destruct Hr as [-> | [_ Hr]]; [done|apply Hr]).
  pose proof (parse_started oom s (b ++ x) Hsx) as Hw. unfold wp in *. rewrite E.
  destruct (parse (b ++ x) (start s)) as [code r'|r'| |] eqn:Ep; try done.
  destruct Hw as [-> | Hw]; [left|by right]. split; [done|]. split; [by eapply parse_step|].
  by apply (again_offset s).
Qed.

(** A response ended by the close of the connection: everything after its header
    is the body, and no announced length was cut short. *)
Definition closed (b : bytes) (r : resp) : Prop :=
  exists h, first_at b 0 (length b) (CRLF ++ CRLF) (Some h)
  /\ chunked r = false /\ body_out r = drop (h + 4) b /\ content_length r <= Z.of_nat (length (body_out r)).

Lemma read_eof_spec b r :
  waiting b r -> wp (read_eof b) r
    (fun rc r' => rc = NGX_ERROR \/ rc = NGX_OK /\ closed b r') (fun _ => False).
Proof.
  intros (_ & Hb). unfold read_eof, wp. destruct (headers_done r); [|by left]. simpl.
  destruct (Hb eq_refl) as (h & Hf & Hbo). pose proof Hf as (_ & Hu & _). simpl in Hu.
  destruct (chunked r) eqn:Hc; [by left|]. destruct (_ && _) eqn:Hcl; [by left|].
  rewrite (proj2 (slice_Some b (body_offset r) (length b - body_offset r) _)) by (split; [lia|done]). right. split; [done|]. exists h. split; [done|].
  split; [by destruct r|]. rewrite take_ge by (rewrite length_drop; lia). rewrite Hbo in *.
  assert (Ho : forall s, body_out (set_body_out s r) = s /\ content_length (set_body_out s r) = content_length r)
    by (by destruct r). destruct (Ho (drop (h + 4) b)) as [-> ->]. split; [done|].
  rewrite length_drop. apply andb_false_iff in Hcl as [Hcl|Hcl]; [apply Z.leb_gt in Hcl|apply Z.ltb_ge in Hcl]; lia.
Qed.

(** The network's side of a reading loop: [recv] returns at most as many bytes
    as there is room for, and at least one unless the peer closed. *)
Fixpoint recv_fits (len cap : nat) (results : list recv_result) : Prop :=
  match results with
  | [] => True
  | RecvData x :: results' =>
      let cap := if (cap - len =? 0)%nat then NGX_AUTOCERT_RECV_MAX else cap in
      (0 < length x <= cap - len)%nat /\ recv_fits (len + length x) cap results'
  | _ :: results' => recv_fits len cap results'
  end.

(** What the handler leaves behind. *)
Definition room (rd : reader) : Prop :=
  (length (recv_buf rd) <= recv_cap rd <= NGX_AUTOCERT_RECV_MAX)%nat.

Definition finished (v : option Z) (rd : reader) : Prop :=
  match v with
  | None => waiting (recv_buf rd) (response rd)
  | Some rc => rc = NGX_ERROR
               \/ rc = NGX_OK /\ (framed (recv_buf rd) (response rd) \/ closed (recv_buf rd) (response rd))
  end.

Lemma wp_read_loop grow_oom remaining event_ok results rd :
  recv_fits (length (recv_buf rd)) (recv_cap rd) results ->
  room rd -> waiting (recv_buf rd) (response rd) ->
  wp (read_loop oom grow_oom remaining event_ok results) rd
     (fun v rd' => room rd' /\ finished v rd') (fun _ => False).
Proof.
  revert rd. induction results as [|res results IH]; intros [b cap r]; cbn [recv_buf recv_cap response];
    intros Hfit Hroom Hwait; unfold wp; cbn [read_loop recv_buf recv_cap response]; [by split|].
  set (full := (cap - length b =? 0)%nat) in *.
  destruct (full && (NGX_AUTOCERT_RECV_MAX <=? cap)%nat) eqn:Efull; [split; [done|by left]|].
  destruct (full && grow_oom); [split; [done|by left]|].
  set (cap' := if full then NGX_AUTOCERT_RECV_MAX else cap) in *.
  assert (Hroom' : (length b <= cap' <= NGX_AUTOCERT_RECV_MAX)%nat).
  { unfold room in Hroom. simpl in Hroom. unfold cap'. destruct full; lia. }
  destruct res as [| | |x].
  - destruct (_ || _); (split; [done|]); [by left|done].
  - split; [done|by left].
  - pose proof (read_eof_spec b r Hwait) as Hw. unfold wp in Hw.
    destruct (read_eof b r) as [rc r'|r'| |]; try done. split; [done|].
    destruct Hw as [?|[? ?]]; [by left|right]. split; [done|by right].
  - cbn [recv_fits] in Hfit. fold full in Hfit. fold cap' in Hfit. destruct Hfit as [Hx Hfit].
    pose proof (waiting_parse b r x Hwait) as Hw. unfold wp in Hw.
    assert (Hroomx : room (Reader (b ++ x) cap' r)) by (unfold room; simpl; rewrite length_app; lia).
    destruct (parse (b ++ x) r) as [code r'|r'| |]; try done; [|split; [exact Hroomx|by left]].
    destruct Hw as [[-> Hw]|[-> Hw]]; [|split; [exact Hroomx|right; split; [done|by left]]].
    change (NGX_AGAIN =? NGX_DONE) with false. cbv iota. apply IH; cbn [recv_buf recv_cap response]; [|done..].
    by rewrite length_app.
Qed.
End Read.
