(* ===== verification/HttpThms.v ===== *)
(** * The ACME HTTP client: what it promises

    Reading in pieces, framing and decoding of responses, and the safety of the
    requests it sends. *)

From S2P Require Import Prelude NgxCore Http HttpChunk HttpParse HttpResume.

Local Open Scope Z_scope.

(** ** Responses *)

Lemma feed_prefix oom b r reads : exists rest, b ++ concat reads = (feed oom b r reads).1 ++ rest.
Proof.
  revert b r. induction reads as [|x reads IH]; intros b r; cbn [feed concat].
  - by exists [].
  - rewrite app_assoc.
    destruct (ngx_autocert_acme_parse_response (b ++ x) oom r); try (by exists (concat reads)).
    destruct (_ =? _); [apply IH|by exists (concat reads)].
Qed.

(** C37. The way the network cuts a response into reads has no influence: parsing
    after every read, resuming from the saved cursors, gives the code, status,
    headers, body and state that parsing all the bytes received so far, once and
    from the beginning, gives. *)
Theorem http_incremental (oom : nat -> bool) (reads : list bytes) :
  reads <> [] ->
  let '(buffer, result) := feed oom [] resp0 reads in
  forget result = forget (ngx_autocert_acme_parse_response buffer oom resp0)
  /\ exists rest, concat reads = buffer ++ rest.
Proof.
  intros Hne. pose proof (feed_prefix oom [] resp0 reads) as Hpre.
  assert (H0 : searched 0 []) by (split; [simpl; lia|intros j; lia]).
  destruct (feed_once oom [] 0 resp0 reads H0 (or_introl eq_refl) Hne) as (s & Hs & E).
  destruct (feed oom [] resp0 reads) as [buffer result]. simpl in *.
  split; [|exact Hpre]. rewrite E. by apply parse_forget.
Qed.

Definition response1 : bytes :=
  str "HTTP/1.1 200 OK" ++ CRLF ++ str "transfer-encoding: chunked" ++ CRLF ++ CRLF
  ++ str "5;x=1" ++ CRLF ++ str "hello" ++ CRLF ++ str "0" ++ CRLF ++ str "T: y" ++ CRLF ++ CRLF.

Lemma http_incremental_witness :
  let reads := (fun c => [c]) <$> response1 in
  (exists r, (feed (fun _ => false) [] resp0 reads).2 = Ret NGX_DONE r
             /\ status r = 200 /\ body_out r = str "hello")
  /\ let '(buffer, result) := feed (fun _ => false) [] resp0 reads in
     forget result = forget (ngx_autocert_acme_parse_response buffer (fun _ => false) resp0)
     /\ exists rest, concat reads = buffer ++ rest.
Proof.
  split.
  - vm_compute. eexists. split; [reflexivity|]. split; reflexivity.
  - apply (http_incremental (fun _ => false) ((fun c => [c]) <$> response1)). vm_compute. intros [=].
Defined.

(** C38. Whatever the peer sends and however it is cut, the parser stays inside
    its buffer and always answers; and when it declares a response complete, the
    body is the exact decoding of the chunked coding that follows the header, or
    the exact Content-Length bytes that follow it, never both. *)
Theorem http_response_sound (oom : nat -> bool) (reads : list bytes) :
  let '(buffer, result) := feed oom [] resp0 reads in
  match result with
  | Ret code r => code = NGX_AGAIN \/ code = NGX_DONE /\ framed buffer r
  | Err _ => True
  | Fault | NoFuel => False
  end.
Proof.
  destruct reads as [|x reads]; [by left|].
  assert (H0 : searched 0 []) by (split; [simpl; lia|intros j; lia]).
  destruct (feed_once oom [] 0 resp0 (x :: reads) H0 (or_introl eq_refl)) as (s & Hs & E); [done|].
  destruct (feed oom [] resp0 (x :: reads)) as [buffer result]. simpl in *.
  pose proof (parse_started oom s buffer Hs) as Hw. unfold wp in Hw. by rewrite <- E in Hw.
Qed.

(** The chunked decoder is exact: given memory, it completes with the body
    [d] precisely when the bytes after the header begin with a chunked coding of
    [d] (chunk extensions and trailer fields included). *)
Theorem http_dechunk_iff (b : bytes) (r : resp) (d : bytes) :
  dechunk_fresh r -> (body_offset r <= length b)%nat ->
  (exists r', ngx_autocert_acme_dechunk b (fun _ => false) r = Ret NGX_DONE r' /\ body_out r' = d)
  <-> exists raw rest, drop (body_offset r) b = raw ++ rest /\ chunked_body raw d.
Proof.
  intros Hf Hb. split.
  - intros (r' & E & <-). pose proof (wp_dechunk b (fun _ => false) r Hf Hb) as Hw. unfold wp in Hw.
    rewrite E in Hw. destruct Hw as (_ & _ & _ & [?|(_ & raw & rest & Hc & Hd)]); [done|].
    by exists raw, rest.
  - intros (raw & rest & Hd & Hc).
    destruct (run_dechunk b (fun _ => false) r raw d rest) as (r' & E & Ho & _); [done..|]. by exists r'.
Qed.

Lemma http_dechunk_iff_witness :
  let b := 0 :: str "3" ++ CRLF ++ str "abc" ++ CRLF ++ str "0" ++ CRLF ++ CRLF in
  let r := set_body_offset 1 resp0 in
  (exists r', ngx_autocert_acme_dechunk b (fun _ => false) r = Ret NGX_DONE r' /\ body_out r' = str "abc")
  <-> exists raw rest, drop (body_offset r) b = raw ++ rest /\ chunked_body raw (str "abc").
Proof. apply http_dechunk_iff; [by split|]. simpl. lia. Defined.

(** A chunk-size line means the hexadecimal number it starts with, whatever
    extension follows, and is refused when there is no digit, another byte, or a
    number that does not fit: the accumulation never wraps. *)
Theorem http_chunk_size_spec (line : bytes) (n : Z) :
  ngx_autocert_acme_chunk_size line = Some n <-> chunk_size_of line n.
Proof. apply chunk_size_spec. Qed.

(** ** URLs *)

Lemma host_span_spec p :
  (host_span p <= length p)%nat /\ Forall (fun c => c <> 58 /\ c <> 47) (take (host_span p) p).
Proof.
  induction p as [|c p [IH1 IH2]]; simpl; [by split; [|constructor]|].
  destruct (Z.eqb_spec c 58); [simpl; split; [lia|constructor]|].
  destruct (Z.eqb_spec c 47); [simpl; split; [lia|constructor]|]. simpl. split; [lia|]. by constructor.
Qed.

Lemma port_span_le p : (port_span p <= length p)%nat.
Proof. induction p as [|c p IH]; simpl; [lia|]. destruct (c =? 47); lia. Qed.

(** The authority of the URL, as it stood in it. *)
Definition authority_text (h : bytes) (v6 : bool) : bytes := if v6 then 91 :: h ++ [93] else h.

Lemma parse_authority_spec p h v6 rest :
  parse_authority p = Some (h, v6, rest) ->
  p = authority_text h v6 ++ rest /\ h <> []
  /\ if v6 then 93 ∉ h else Forall (fun c => c <> 58 /\ c <> 47) h.
Proof.
  unfold parse_authority. intros H.
  assert (Hplain : (let e := host_span p in
            if (e <=? 0)%nat then None else Some (take e p, false, drop e p)) = Some (h, v6, rest) ->
          p = authority_text h v6 ++ rest /\ h <> []
          /\ if v6 then 93 ∉ h else Forall (fun c => c <> 58 /\ c <> 47) h).
  { destruct (host_span_spec p) as [Hl Hf]. cbv zeta. destruct (Nat.leb_spec (host_span p) 0); [done|].
    intros [= <- <- <-]. split; [by unfold authority_text; rewrite take_drop|]. split; [|done].
    intros E. apply (f_equal length) in E. rewrite length_take in E. simpl in E. lia. }
  destruct p as [|c rest0]; [done|]. destruct (decide (c = 91)) as [->|Hc].
  - destruct (ngx_strlchr (91 :: rest0) 93) as [e|] eqn:Ee; [|done].
    apply strlchr_Some in Ee as (a & t & Ea & <- & Hn). destruct (Nat.leb_spec (length a) 1); [done|].
    destruct a as [|x a]; [simpl in *; lia|]. injection Ea as <- ->. cbn [length] in *.
    replace (S (length a) - 1)%nat with (length a) in H by lia. rewrite take_app_length in H.
    replace (S (length a) + 1)%nat with (length ((91 :: a) ++ [93])) in H by (rewrite length_app; simpl; lia).
    change (91 :: a ++ 93 :: t) with ((91 :: a) ++ [93] ++ t) in H. rewrite app_assoc, drop_app_length in H.
    injection H as <- <- <-. split; [by unfold authority_text; rewrite <- app_comm_cons, <- app_assoc|]. split; [by intros ->; simpl in *; lia|].
    intros Hin. apply Hn. by right.
  - apply Hplain. destruct c as [|[]|]; repeat (case_match; try done); exact H.
Qed.

(** The port as it stood in the URL: nothing, or a colon and decimal digits. *)
Definition port_text (p : Z) (t : bytes) : Prop :=
  (t = [] /\ p = 443)
  \/ exists ds, t = 58 :: ds /\ ds <> [] /\ forallb is_digit ds = true /\ p = dec_val ds.

Lemma parse_port_spec p prt rest :
  parse_port p = Some (prt, rest) ->
  exists t, p = t ++ rest /\ port_text prt t /\ 1 <= prt <= 65535.
Proof.
  unfold parse_port. intros H.
  assert (Hnone : Some (443, p) = Some (prt, rest) ->
            exists t, p = t ++ rest /\ port_text prt t /\ 1 <= prt <= 65535).
  { intros [= <- <-]. exists []. split; [done|]. split; [by left|lia]. }
  destruct p as [|c rest0]; [by apply Hnone|]. destruct (decide (c = 58)) as [->|Hc].
  - destruct (Nat.eqb_spec (port_span rest0) 0); [done|].
    set (ds := take (port_span rest0) rest0) in *.
    destruct (_ || _ || _) eqn:E; [done|]. injection H as <- <-. rewrite !orb_false_iff in E. destruct E as [[E1 E2] E3]. reflect_bools. clear Hnone.
    rewrite atoi_spec in *. destruct ((0 <? length ds)%nat && _ && _) eqn:Ed; [|done].
    apply andb_true_iff in Ed as [Ed _]. apply andb_true_iff in Ed as [Hl Hd]. reflect_bools.
    exists (58 :: ds). split; [by simpl; unfold ds; rewrite take_drop|]. split; [|lia].
    right. exists ds. split; [done|]. split; [by intros E; rewrite E in Hl; simpl in Hl; lia|done].
  - apply Hnone. destruct c as [|[]|]; repeat (case_match; try done); exact H.
Qed.

(** A byte that may stand in a request line or header. *)
Definition url_char (c : Z) : Prop := 33 <= c /\ c <> 127.

Lemma url_part_safe_spec s : ngx_autocert_acme_url_part_safe s = true <-> Forall url_char s.
Proof.
  unfold ngx_autocert_acme_url_part_safe. rewrite forallb_forall, List.Forall_forall.
  apply forall_proper. intros c. apply forall_proper. intros _. unfold url_char.
  rewrite negb_true_iff, orb_false_iff, Z.ltb_ge, Z.eqb_neq. done.
Qed.

(** A URL is accepted only if it is the scheme https, an authority and a
    path, and what the parser extracts is what stood there: host, brackets, port
    in 1..65535, and a path starting with a slash; neither part holds a space or
    a control byte. *)
Theorem http_parse_url_sound (url : bytes) (oom : bool) (u : url_parts) :
  Forall (fun c => 0 < c) url ->
  ngx_autocert_acme_parse_url url oom = Some u ->
  exists scheme prt path,
    url = scheme ++ authority_text (host u) (host_is_ipv6 u) ++ prt ++ path
    /\ lower <$> scheme = str "https://" /\ host u <> [] /\ port_text (port u) prt
    /\ 1 <= port u <= 65535 /\ (uri u = path \/ (path = [] /\ uri u = [47])) /\ head (uri u) = Some 47
    /\ Forall url_char (host u) /\ Forall url_char (uri u).
Proof.
  intros Hpos. unfold ngx_autocert_acme_parse_url. set (scheme := str "https://").
  destruct (Nat.leb_spec (length url) (length scheme)) as [|Hlen]; [done|].
  destruct (strncasecmp_exact url scheme (length scheme)) as (r & -> & Hr); [lia|done|by apply Forall_take|].
  destruct r; [|done..].
  destruct (parse_authority (drop (length scheme) url)) as [[[h v6] rest]|] eqn:Ea; [|done].
  apply parse_authority_spec in Ea as (Ea & Hh & _).
  destruct (parse_port rest) as [[prt path]|] eqn:Ep; [|done].
  apply parse_port_spec in Ep as (pt & -> & Hpt & Hrange). intros H.
  assert (Hpath : exists uri0, (match path with 47 :: _ => Some path | [] => Some [47] | _ => None end) = Some uri0
            /\ (uri0 = path \/ path = [] /\ uri0 = [47]) /\ head uri0 = Some 47).
  { destruct path as [|c path]; [exists [47]; split; [done|split; [by right|done]]|].
    destruct (decide (c = 47)) as [->|Hc]; [exists (47 :: path); split; [done|split; [by left|done]]|].
    exfalso. destruct c as [|c'|]; [done| |done]. repeat (destruct c' as [c'|c'|]; try done). }
  destruct Hpath as (uri0 & E & Hu & Hhead). rewrite E in H.
  destruct (_ || _) eqn:Es; [done|]. apply orb_false_iff in Es as [Es1 Es2].
  apply negb_false_iff in Es1, Es2. apply url_part_safe_spec in Es1, Es2.
  destruct oom; [done|]. injection H as <-. exists (take (length scheme) url), pt, path. simpl.
  split; [by rewrite <- Ea, take_drop|]. split; [exact (proj1 Hr eq_refl)|done].
Qed.

Lemma http_parse_url_sound_witness :
  exists scheme prt path,
    str "HTTPS://[2001:db8::1]:8443/dir?x" = scheme ++ authority_text (str "2001:db8::1") true ++ prt ++ path
    /\ lower <$> scheme = str "https://" /\ str "2001:db8::1" <> [] /\ port_text 8443 prt
    /\ 1 <= 8443 <= 65535 /\ (str "/dir?x" = path \/ (path = [] /\ str "/dir?x" = [47]))
    /\ head (str "/dir?x") = Some 47 /\ Forall url_char (str "2001:db8::1") /\ Forall url_char (str "/dir?x").
Proof.
  exact (http_parse_url_sound (str "HTTPS://[2001:db8::1]:8443/dir?x") false
           (Url (str "2001:db8::1") true 8443 (str "/dir?x")) ltac:(by repeat constructor) eq_refl).
Defined.

Lemma url_charsb_sound l : forallb (fun c => (32 <? c) && negb (c =? 127)) l = true -> Forall url_char l.
Proof.
  intros H. apply List.Forall_forall. rewrite forallb_forall in H. intros c Hc. apply H in Hc.
  unfold url_char. lia.
Qed.

(** The origin pin: once the client is pinned to its directory URL, a URL is
    let through exactly when its port, its bracketing and, up to case, its host
    are those of the directory. *)
Theorem http_origin_pinned (c : client) (dir : bytes) (d u : url_parts) :
  ngx_autocert_acme_parse_url dir false = Some d -> Forall url_char (host u) ->
  exists c' ok,
    ngx_autocert_acme_client_set_origin c dir false = Some c'
    /\ ngx_autocert_acme_check_origin (Some c') u = Some ok
    /\ (ok = true <-> port u = port d /\ host_is_ipv6 u = host_is_ipv6 d
                      /\ lower <$> host u = lower <$> host d).
Proof.
  intros Hd Hu. unfold ngx_autocert_acme_client_set_origin. rewrite Hd. eexists.
  assert (Hex : exists ok, ngx_autocert_acme_check_origin
            (Some (Client (host d) (port d) (host_is_ipv6 d) true)) u = Some ok
            /\ (ok = true <-> port u = port d /\ host_is_ipv6 u = host_is_ipv6 d
                             /\ lower <$> host u = lower <$> host d)); [|naive_solver].
  unfold ngx_autocert_acme_check_origin. simpl.
  destruct (Z.eqb_spec (port u) (port d)) as [Hp|Hp]; simpl; [|exists false; split; [done|]; split; [done|tauto]].
  destruct (Bool.eqb (host_is_ipv6 u) (host_is_ipv6 d)) eqn:Ev; simpl.
  2: { exists false. split; [done|]. split; [done|]. intros (_ & Hv & _). rewrite Hv in Ev.
       by rewrite Bool.eqb_reflx in Ev. }
  apply Bool.eqb_prop in Ev.
  destruct (Nat.eqb_spec (length (host u)) (length (host d))) as [Hl|Hl]; simpl.
  2: { exists false. split; [done|]. split; [done|]. intros (_ & _ & Hh). apply (f_equal length) in Hh.
       by rewrite !length_fmap in Hh. }
  destruct (strncasecmp_exact (host u) (host d) (length (host u))) as (r & -> & Hr); [done|lia| |].
  { apply Forall_take. eapply Forall_impl; [exact Hu|]. unfold url_char. intros x Hx; simpl. lia. }
  rewrite !take_ge in Hr by lia. exists (r =? 0). split; [done|]. rewrite Z.eqb_eq, Hr. tauto.
Qed.

Lemma http_origin_pinned_witness :
  exists c' ok,
    ngx_autocert_acme_client_set_origin (Client [] 0 false false) (str "https://ca.example/dir") false = Some c'
    /\ ngx_autocert_acme_check_origin (Some c') (Url (str "CA.example") false 443 (str "/x")) = Some ok
    /\ (ok = true <-> 443 = 443 /\ false = false
                      /\ lower <$> str "CA.example" = lower <$> str "ca.example").
Proof.
  apply (http_origin_pinned (Client [] 0 false false) (str "https://ca.example/dir")
           (Url (str "ca.example") false 443 (str "/dir")) (Url (str "CA.example") false 443 (str "/x")) eq_refl).
  by apply url_charsb_sound.
Defined.

(** ** Requests *)

(** A line that cannot be broken. *)
Definition one_line (l : bytes) : Prop := Forall (fun c => 32 <= c) l.

Definition header_block (lines : list bytes) : bytes := concat ((fun l => l ++ CRLF) <$> lines) ++ CRLF.

(** The lines of a request. *)
Definition request_lines (method ct body : bytes) (u : url_parts) : list bytes :=
  [method ++ [32] ++ uri u ++ str " HTTP/1.1";
   str "Host: " ++ (if host_is_ipv6 u then [91] else []) ++ host u
     ++ (if host_is_ipv6 u then [93] else [])
     ++ (if negb (port u =? 443)%Z then 58 :: ngx_sprintf_d (port u) else []);
   str "User-Agent: ngx-autocert"; str "Accept: application/json"; str "Connection: close"]
  ++ (if (length body =? 0)%nat then []
      else [str "Content-Type: " ++ ct; str "Content-Length: " ++ ngx_sprintf_d (Z.of_nat (length body))]).

Lemma request_bytes_lines method ct body u :
  request_bytes method ct body u = header_block (request_lines method ct body u) ++ body.
Proof.
  unfold request_bytes, header_block, request_lines.
  destruct (Nat.eqb_spec (length body) 0) as [E|E]; [apply nil_length_inv in E as ->|];
    cbn [app]; cbn [fmap list_fmap concat]; rewrite ?app_nil_r;
    repeat first [rewrite <- app_assoc | rewrite <- app_comm_cons]; done.
Qed.

Lemma one_line_app a b : one_line (a ++ b) <-> one_line a /\ one_line b.
Proof. apply Forall_app. Qed.

Lemma digits_one_line l : forallb is_digit l = true -> one_line l.
Proof.
  intros H. unfold one_line. apply List.Forall_forall. rewrite forallb_forall in H.
  intros c Hc. apply H, is_digit_iff in Hc. lia.
Qed.

Lemma url_one_line l : Forall url_char l -> one_line l.
Proof. intros H. eapply Forall_impl; [exact H|]. unfold url_char. simpl. lia. Qed.

(** The buffer is large enough for the request. *)
Lemma build_request_text (method content_type body : bytes) (u : url_parts) :
  1 <= port u <= 65535 -> Z.of_nat (length body) <= NGX_MAX_INT_T_VALUE ->
  let ct := if (length content_type =? 0)%nat then str "application/jose+json" else content_type in
  ngx_autocert_acme_build_request method content_type body u false = Ret (request_bytes method ct body u) tt.
Proof.
  intros Hport Hbody ct. unfold ngx_autocert_acme_build_request. cbv iota zeta. fold ct. unfold NGX_MAX_INT_T_VALUE in Hbody.
  destruct (sprintf_d_spec (Z.of_nat (length body)) ltac:(lia)) as (Hd1 & Hd2 & Hd3).
  assert (Hp5 : (length (ngx_sprintf_d (port u)) <= 5)%nat).
  { pose proof (dec_digits_length 5 20 (port u) []) as H. apply H; [|lia].
    replace (10 ^ Z.of_nat 5) with 100000 by reflexivity. lia. }
  assert (Hlen : (length (request_bytes method ct body u) <= request_len method ct body u)%nat).
  { unfold request_bytes, request_len, NGX_OFF_T_LEN. rewrite !length_app.
    destruct (host_is_ipv6 u), (negb _), (Nat.eqb_spec (length body) 0); rewrite ?length_app;
      cbn [length str app]; lia. }
  by destruct (Nat.leb_spec (length (request_bytes method ct body u)) (request_len method ct body u)); [|lia].
Qed.

(** The request writer never overruns the buffer it sized, and what it
    writes is the intended request: the header lines are the fixed ones, none
    can be split by what the URL contains, and Content-Length is the length of
    the body that follows. *)
Theorem http_build_request_spec (method content_type body : bytes) (u : url_parts) :
  one_line method -> one_line content_type ->
  Forall url_char (host u) -> Forall url_char (uri u) -> 1 <= port u <= 65535 ->
  Z.of_nat (length body) <= NGX_MAX_INT_T_VALUE ->
  exists ct, ngx_autocert_acme_build_request method content_type body u false
             = Ret (header_block (request_lines method ct body u) ++ body) tt
  /\ Forall one_line (request_lines method ct body u)
  /\ dec_val (ngx_sprintf_d (Z.of_nat (length body))) = Z.of_nat (length body).
Proof.
  intros Hm Hct Hh Hu Hport Hbody. rewrite build_request_text by done. cbv zeta.
  set (ct := if (length content_type =? 0)%nat then _ else content_type). exists ct.
  unfold NGX_MAX_INT_T_VALUE in Hbody.
  destruct (sprintf_d_spec (Z.of_nat (length body)) ltac:(lia)) as (Hd1 & Hd2 & Hd3).
  destruct (sprintf_d_spec (port u) ltac:(lia)) as (Hp1 & _ & _).
  split; [|split; [|done]].
  - by rewrite <- request_bytes_lines.
  - assert (Hct' : one_line ct).
    { unfold ct. destruct (length content_type =? 0)%nat; [|done]. by repeat constructor. }
    assert (Hlit : forall s, forallb (fun c => 32 <=? c) (str s) = true -> one_line (str s)).
    { intros s Hs. unfold one_line. apply List.Forall_forall. rewrite forallb_forall in Hs.
      intros c Hc. apply Hs in Hc. lia. }
    apply url_one_line in Hh, Hu. apply digits_one_line in Hd1, Hp1.
    assert (H1 : forall c, 32 <= c -> one_line [c]) by (intros c Hc; by constructor).
    unfold request_lines. apply Forall_app. split.
    + repeat constructor; rewrite ?one_line_app; repeat split; try done;
        try (by apply Hlit); try (apply H1; lia); try (destruct (host_is_ipv6 u); [apply H1; lia|constructor]).
      destruct (negb _); [constructor; [lia|done]|constructor].
    + destruct (length body =? 0)%nat; [constructor|].
      repeat constructor; rewrite ?one_line_app; repeat split; try done; by apply Hlit.
Qed.

Lemma http_build_request_spec_witness :
  exists ct, ngx_autocert_acme_build_request (str "POST") [] (str "{}")
               (Url (str "::1") true 8443 (str "/a")) false
             = Ret (header_block (request_lines (str "POST") ct (str "{}") (Url (str "::1") true 8443 (str "/a")))
                    ++ str "{}") tt
  /\ Forall one_line (request_lines (str "POST") ct (str "{}") (Url (str "::1") true 8443 (str "/a")))
  /\ dec_val (ngx_sprintf_d (Z.of_nat (length (str "{}")))) = Z.of_nat (length (str "{}")).
Proof.
  apply (http_build_request_spec (str "POST") [] (str "{}") (Url (str "::1") true 8443 (str "/a"))).
  - apply List.Forall_forall. intros c Hc. assert (H : forallb (fun c => 32 <=? c) (str "POST") = true) by done.
    rewrite forallb_forall in H. apply H in Hc. lia.
  - constructor.
  - by apply url_charsb_sound.
  - by apply url_charsb_sound.
  - simpl. lia.
  - vm_compute. discriminate.
Defined.

(** ** Reading *)

Lemma room0 : room reader0.
Proof. unfold room, reader0, NGX_AUTOCERT_RECV_INIT, NGX_AUTOCERT_RECV_MAX. cbn [recv_buf recv_cap length]. lia. Qed.

Lemma room_bound rd :
  room rd -> (length (recv_buf rd) <= recv_cap rd)%nat /\ Z.of_nat (recv_cap rd) <= 256 * 1024.
Proof. unfold room, NGX_AUTOCERT_RECV_MAX. intros [H1 H2]. split; [done|lia]. Qed.

(** The successive invocations of the read handler on one request. *)
Record read_event := ReadEvent {
  grow_oom : bool; remaining : bool; event_ok : bool; timedout : bool; results : list recv_result }.

Fixpoint read_events (oom : nat -> bool) (evs : list read_event) (rd : reader) : outcome reader (option Z) :=
  match evs with
  | [] => Ret None rd
  | ev :: evs' =>
      match ngx_autocert_acme_read_handler oom (grow_oom ev) (remaining ev) (event_ok ev) (timedout ev)
              (results ev) rd with
      | Ret None rd' => read_events oom evs' rd'
      | o => o
      end
  end.

(** [recv] keeps to the room it is given, in each event. *)
Fixpoint events_fit (oom : nat -> bool) (evs : list read_event) (rd : reader) : Prop :=
  match evs with
  | [] => True
  | ev :: evs' =>
      recv_fits (length (recv_buf rd)) (recv_cap rd) (results ev)
      /\ match ngx_autocert_acme_read_handler oom (grow_oom ev) (remaining ev) (event_ok ev) (timedout ev)
                 (results ev) rd with
         | Ret None rd' => events_fit oom evs' rd'
         | _ => True
         end
  end.

(** Receiving a response, over any number of read events: no byte is stored
    outside the buffer and the buffer never exceeds 256 KiB; the request is
    finalized as a success only with a response whose framing is complete, or
    with one that has no framing, is not chunked, and was ended by the close of
    the connection with no announced length missing. *)
Theorem http_read_bounded (oom : nat -> bool) (evs : list read_event) :
  events_fit oom evs reader0 ->
  exists v rd, read_events oom evs reader0 = Ret v rd
  /\ (length (recv_buf rd) <= recv_cap rd)%nat /\ Z.of_nat (recv_cap rd) <= 256 * 1024
  /\ forall rc, v = Some rc ->
       rc = NGX_ERROR
       \/ rc = NGX_OK /\ (framed (recv_buf rd) (response rd) \/ closed (recv_buf rd) (response rd)).
Proof.
  assert (Hgen : forall rd, events_fit oom evs rd -> room rd -> waiting oom (recv_buf rd) (response rd) ->
    wp (read_events oom evs) rd (fun v rd' => room rd' /\ finished oom v rd') (fun _ => False)).
  { induction evs as [|ev evs IH]; intros rd Hfit Hroom Hwait; [by split|]. cbn [events_fit read_events] in *.
    unfold wp. cbn [read_events]. destruct Hfit as [Hfit Hnext]. unfold ngx_autocert_acme_read_handler in *.
    destruct (timedout ev); [split; [done|by left]|].
    pose proof (wp_read_loop oom (grow_oom ev) (remaining ev) (event_ok ev) _ rd Hfit Hroom Hwait) as Hw.
    unfold wp in Hw. destruct (read_loop _ _ _ _ _ _) as [[rc|] rd'| | |]; [exact Hw| |done..].
    destruct Hw as [Hr Hf]. by apply IH. }
  intros Hfit. specialize (Hgen reader0 Hfit).
  specialize (Hgen room0 (waiting0 oom)). unfold wp in Hgen.
  destruct (read_events oom evs reader0) as [v rd| | |]; [|done..]. exists v, rd. split; [done|].
  destruct Hgen as [Hr Hf]. apply room_bound in Hr as [Hr1 Hr2].
  split; [done|]. split; [done|]. intros rc ->. exact Hf.
Qed.

Definition close_delimited : list read_event :=
  [ReadEvent false true true false [RecvData (str "HTTP/1.1 200 OK" ++ CRLF ++ CRLF); RecvAgain];
   ReadEvent false true true false [RecvData (str "abc"); RecvEof]].

Lemma http_read_bounded_witness :
  exists v rd, read_events (fun _ => false) close_delimited reader0 = Ret v rd
  /\ (length (recv_buf rd) <= recv_cap rd)%nat /\ Z.of_nat (recv_cap rd) <= 256 * 1024
  /\ forall rc, v = Some rc ->
       rc = NGX_ERROR
       \/ rc = NGX_OK /\ (framed (recv_buf rd) (response rd) \/ closed (recv_buf rd) (response rd)).
Proof.
  apply (http_read_bounded (fun _ => false) close_delimited).
  repeat first [exact I | split | (vm_compute; lia)].
Defined.
