(* ===== verification/HttpClient.v ===== *)
(** * The life of an ACME request (ngx_autocert_acme.c)

    From [ngx_autocert_acme_request] to the completion handler: resolving,
    connecting, the TLS handshake, sending, receiving, the timers, and cancelling.
    A step that completes at once runs the next one inside it, as in the code. *)

From S2P Require Import Prelude NgxCore Http.

Local Open Scope Z_scope.
Local Open Scope prog_scope.

Definition NGX_AUTOCERT_READ_TOTAL : Z := 60 * 1000.

(** ** The request *)

(** The handlers a connection's events may have: the module's, and nginx's own that
    carries the TLS handshake on. *)
Inductive handler := ConnectHandler | HandshakeHandler | WriteHandler | ReadHandler.

Record tls := Tls { t_ref : nat; t_handshaked : bool }.

(** A connection: its handle, its TLS object, the handlers of its two events, and
    when their timers run out. *)
Record conn := Conn {
  c_ref : nat;
  c_tls : option tls;
  c_read : handler;
  c_write : handler;
  c_read_timer : option Z;
  c_write_timer : option Z }.

(** The fields of [ngx_autocert_acme_request_t] the handlers use: [r_send] is what is
    left to send, [r_recv] the receive buffer with the state of the parser. *)
Record req := Req {
  r_url : option url_parts;
  r_host_is_ip : bool;
  r_done : bool;
  r_resolve : option nat;
  r_conn : option conn;
  r_send : bytes;
  r_recv : option reader;
  r_deadline : Z }.

Definition req0 : req := Req None false false None None [] None 0.

(** What the caller fills in, with the client. *)
Record input := Input {
  i_method : bytes;
  i_url : bytes;
  i_body : bytes;
  i_content_type : bytes;
  i_client : client;
  i_resolver : bool;
  i_connect_timeout : Z;
  i_timeout : Z }.

(** Whom [ngx_autocert_acme_inflight] points to. *)
Inductive owner := Nobody | This | Another.

#[export] Instance owner_eq_dec : EqDecision owner.
Proof. solve_decision. Defined.
#[export] Instance handler_eq_dec : EqDecision handler.
Proof. solve_decision. Defined.

(** The request, whose pool is there or not; the handles held (resolver contexts,
    connections, TLS objects); the calls made so far; the clock.  [w_sent] is what was
    sent, [w_completed] the codes the handler of the request was called with. *)
Record world := World {
  w_pool : bool;
  w_req : req;
  w_inflight : owner;
  w_held : list nat;
  w_next : nat;
  w_calls : nat;
  w_now : Z;
  w_sent : bytes;
  w_completed : list Z }.

(** ** The environment *)

Inductive started := Started | StartFailed | NoResolver.
(** What [ngx_resolve_name] does: it fails, waits, or has an answer at once (the state
    of the context, the number of addresses). *)
Inductive lookup_result := LookupFailed | LookupPending | LookupDone (state : Z) (naddrs : nat).
Inductive peer_result := PeerFailed | PeerAgain | PeerOk.
Inductive handshake_result := HandshakeAgain | HandshakeDone | HandshakeFailed.
Inductive send_result := SendAgain | SendError | Sent (n : nat).

(** What each call answers, by its number. *)
Record env := Env {
  alloc : nat -> bool;
  (** [ngx_parse_addr]: the host is a literal address *)
  parse_addr : nat -> bytes -> bool;
  resolve_start : nat -> started;
  resolve_name : nat -> lookup_result;
  connect_peer : nat -> peer_result;
  so_error : nat -> bool;
  ssl_create : nat -> bool;
  set_sni : nat -> bytes -> bool;
  handshake : nat -> handshake_result;
  verify_result : nat -> Z;
  peer_cert : nat -> bool;
  check_ip : nat -> bytes -> Z;
  check_host : nat -> bytes -> bool;
  handle_event : nat -> bool;
  send : nat -> bytes -> send_result;
  (** what [recv] returns, call after call, before it has nothing more, given the buffer *)
  recvs : nat -> reader -> list recv_result;
  parse_oom : nat -> bool }.

Definition X509_V_OK : Z := 0.

(** Taking one handle out. *)
Fixpoint take_out (h : nat) (l : list nat) : list nat :=
  match l with [] => [] | x :: l' => if decide (x = h) then l' else x :: take_out h l' end.

Definition set_rq r w := World (w_pool w) r (w_inflight w) (w_held w) (w_next w) (w_calls w) (w_now w) (w_sent w) (w_completed w).
Definition set_inflight o w := World (w_pool w) (w_req w) o (w_held w) (w_next w) (w_calls w) (w_now w) (w_sent w) (w_completed w).
Definition set_handles l n w := World (w_pool w) (w_req w) (w_inflight w) l n (w_calls w) (w_now w) (w_sent w) (w_completed w).
Definition set_called n w := World (w_pool w) (w_req w) (w_inflight w) (w_held w) (w_next w) n (w_now w) (w_sent w) (w_completed w).
Definition set_clock t w := World (w_pool w) (w_req w) (w_inflight w) (w_held w) (w_next w) (w_calls w) t (w_sent w) (w_completed w).
Definition set_sent s w := World (w_pool w) (w_req w) (w_inflight w) (w_held w) (w_next w) (w_calls w) (w_now w) s (w_completed w).
Definition set_over rc w := World false (w_req w) (w_inflight w) (w_held w) (w_next w) (w_calls w) (w_now w) (w_sent w) (rc ++ w_completed w).

Definition set_url u v6 r := Req u v6 (r_done r) (r_resolve r) (r_conn r) (r_send r) (r_recv r) (r_deadline r).
Definition set_done r := Req (r_url r) (r_host_is_ip r) true (r_resolve r) (r_conn r) (r_send r) (r_recv r) (r_deadline r).
Definition set_resolve h r := Req (r_url r) (r_host_is_ip r) (r_done r) h (r_conn r) (r_send r) (r_recv r) (r_deadline r).
Definition set_conn c r := Req (r_url r) (r_host_is_ip r) (r_done r) (r_resolve r) c (r_send r) (r_recv r) (r_deadline r).
Definition set_send s r := Req (r_url r) (r_host_is_ip r) (r_done r) (r_resolve r) (r_conn r) s (r_recv r) (r_deadline r).
Definition set_recv b d r := Req (r_url r) (r_host_is_ip r) (r_done r) (r_resolve r) (r_conn r) (r_send r) b d.

Definition set_tls t c := Conn (c_ref c) t (c_read c) (c_write c) (c_read_timer c) (c_write_timer c).
Definition set_handlers rd wr c := Conn (c_ref c) (c_tls c) rd wr (c_read_timer c) (c_write_timer c).
Definition set_read_timer t c := Conn (c_ref c) (c_tls c) (c_read c) (c_write c) t (c_write_timer c).
Definition set_write_timer t c := Conn (c_ref c) (c_tls c) (c_read c) (c_write c) (c_read_timer c) t.

Section Client.
Context (I : input) (E : env).
Abbreviation P A := (prog world A).

(** ** Primitives *)

(** Reading or writing the request, or what is in its pool, once the pool is gone is a
    [Fault]. *)
Definition get_req : P req := fun w => if w_pool w then Ret (w_req w) w else Fault.
Definition upd (f : req -> req) : P unit := fun w => if w_pool w then Ret tt (set_rq (f (w_req w)) w) else Fault.
Definition modw (f : world -> world) : P unit := fun w => Ret tt (f w).
Definition getw {A} (f : world -> A) : P A := fun w => Ret (f w) w.

Definition call : P nat := fun w => Ret (w_calls w) (set_called (S (w_calls w)) w).

Definition acquire : P nat := fun w => Ret (w_next w) (set_handles (w_next w :: w_held w) (S (w_next w)) w).

Definition release (h : nat) : P unit := fun w =>
  if decide (h ∈ w_held w) then Ret tt (set_handles (take_out h (w_held w)) (w_next w) w) else Fault.

(** The connection of the request; none is a NULL dereference. *)
Definition get_conn : P conn :=
  let! r := get_req in match r_conn r with Some c => ret c | None => fault end.

Definition upd_conn (f : conn -> conn) : P unit :=
  let! c := get_conn in upd (set_conn (Some (f c))).

(** The caller's completion handler, which destroys the pool of the request. *)
Definition completion (rc : Z) : P unit := modw (set_over [rc]).

(** ** The end of a request *)

(** What [ngx_autocert_acme_finalize] and [ngx_autocert_acme_cancel_inflight] have in
    common. *)
Definition teardown : P unit :=
  let! r := get_req in
  (match r_resolve r with Some h => release h;; upd (set_resolve None) | None => ret tt end);;
  match r_conn r with
  | Some c =>
      (match c_tls c with Some t => release (t_ref t) | None => ret tt end);;
      release (c_ref c);;
      upd (set_conn None)
  | None => ret tt
  end.

Definition ngx_autocert_acme_finalize (rc : Z) : P unit :=
  let! r := get_req in
  if r_done r then ret tt
  else
    upd set_done;;
    let! o := getw w_inflight in
    (if decide (o = This) then modw (set_inflight Nobody) else ret tt);;
    teardown;;
    completion rc.

(** ** Receiving *)

Definition ngx_autocert_acme_read_handler (timedout : bool) : P unit :=
  let! r := get_req in
  if timedout then ngx_autocert_acme_finalize NGX_ERROR
  else
    match r_recv r with
    | None => fault
    | Some rd =>
        let! n := call in
        let! now := getw w_now in
        let left := r_deadline r - now in
        match read_loop (parse_oom E) (negb (alloc E n)) (0 <? left) (handle_event E n) (recvs E n rd ++ [RecvAgain]) rd with
        | Ret (Some rc) rd => upd (set_recv (Some rd) (r_deadline r));; ngx_autocert_acme_finalize rc
        | Ret None rd =>
            upd (set_recv (Some rd) (r_deadline r));;
            upd_conn (set_read_timer (Some (now + Z.min left (i_timeout I))))
        | Err _ | Fault | NoFuel => fault
        end
    end.

(** ** Sending *)

(** The loop: [true] once everything is sent, [false] when the handler returned. *)
Fixpoint send_loop (fuel : nat) : P bool :=
  match fuel with
  | O => fun _ => NoFuel
  | S fuel =>
      let! r := get_req in
      if (length (r_send r) =? 0)%nat then ret true
      else
        let! n := call in
        match send E n (r_send r) with
        | SendAgain =>
            let! now := getw w_now in
            upd_conn (set_write_timer (Some (now + i_timeout I)));;
            let! n := call in
            (if handle_event E n then ret tt else ngx_autocert_acme_finalize NGX_ERROR);; ret false
        | SendError => ngx_autocert_acme_finalize NGX_ERROR;; ret false
        | Sent k =>
            modw (fun w => set_sent (w_sent w ++ take k (r_send r)) w);;
            upd (set_send (drop k (r_send r)));;
            send_loop fuel
        end
  end.

Definition ngx_autocert_acme_write_handler (timedout : bool) : P unit :=
  let! r := get_req in
  match r_recv r with
  | Some _ => ret tt
  | None =>
      if timedout then ngx_autocert_acme_finalize NGX_ERROR
      else
        let! sent := send_loop (S (length (r_send r))) in
        if negb sent then ret tt
        else
          upd_conn (set_write_timer None);;
          let! n := call in
          if negb (alloc E n) then ngx_autocert_acme_finalize NGX_ERROR
          else
            let! now := getw w_now in
            upd (set_recv (Some reader0) (now + NGX_AUTOCERT_READ_TOTAL));;
            upd_conn (set_read_timer (Some (now + Z.min NGX_AUTOCERT_READ_TOTAL (i_timeout I))));;
            let! n := call in
            if negb (handle_event E n) then ngx_autocert_acme_finalize NGX_ERROR
            else ngx_autocert_acme_read_handler false
  end.

(** ** The TLS handshake *)

(** The peer is the one that was asked for. *)
Definition verify_peer (r : req) : P bool :=
  let! n := call in
  if negb (verify_result E n =? X509_V_OK) then ret false
  else
    match r_url r with
    | None => fault
    | Some u =>
        if r_host_is_ip r then
          let! n := call in
          if negb (peer_cert E n) then ret false
          else let! n := call in ret (check_ip E n (host u) =? 1)
        else let! n := call in ret (check_host E n (host u))
    end.

Definition ngx_autocert_acme_ssl_handshake_handler (timedout : bool) : P unit :=
  let! r := get_req in
  let! c := get_conn in
  if timedout then ngx_autocert_acme_finalize NGX_ERROR
  else
    match c_tls c with
    | None => fault
    | Some t =>
        if negb (t_handshaked t) then ngx_autocert_acme_finalize NGX_ERROR
        else
          let! good := verify_peer r in
          if negb good then ngx_autocert_acme_finalize NGX_ERROR
          else
            upd_conn (set_read_timer None);;
            let! n := call in
            match r_url r with
            | None => fault
            | Some u =>
                let method := if (length (i_method I) =? 0)%nat then str "GET" else i_method I in
                match ngx_autocert_acme_build_request method (i_content_type I) (i_body I) u (negb (alloc E n)) with
                | Ret out _ =>
                    upd (set_send out);;
                    upd_conn (set_handlers ReadHandler WriteHandler);;
                    ngx_autocert_acme_write_handler false
                | Err _ => ngx_autocert_acme_finalize NGX_ERROR
                | Fault | NoFuel => fault
                end
            end
    end.

Definition ngx_autocert_acme_ssl_init : P Z :=
  let! r := get_req in
  let! c := get_conn in
  let! n := call in
  if negb (ssl_create E n) then ret NGX_ERROR
  else
    let! t := acquire in
    upd_conn (set_tls (Some (Tls t false)));;
    let! n := call in
    match r_url r with
    | None => fault
    | Some u =>
        if negb (r_host_is_ip r) && negb (set_sni E n (host u)) then ret NGX_ERROR
        else
          let! n := call in
          match handshake E n with
          | HandshakeAgain =>
              let! now := getw w_now in
              upd_conn (set_read_timer (Some (now + i_timeout I)));;
              upd_conn (set_handlers HandshakeHandler HandshakeHandler);;
              ret NGX_OK
          | HandshakeDone => upd_conn (set_tls (Some (Tls t true)));; ngx_autocert_acme_ssl_handshake_handler false;; ret NGX_OK
          | HandshakeFailed => ngx_autocert_acme_ssl_handshake_handler false;; ret NGX_OK
          end
    end.

(** ** Connecting *)

Definition ngx_autocert_acme_connect : P Z :=
  let! r := get_req in
  let! n := call in
  match connect_peer E n with
  | PeerFailed => ret NGX_ERROR
  | PeerAgain =>
      let! h := acquire in
      upd (set_conn (Some (Conn h None ConnectHandler ConnectHandler None None)));;
      modw (set_inflight This);;
      let! now := getw w_now in
      upd_conn (set_write_timer (Some (now + i_connect_timeout I)));;
      ret NGX_OK
  | PeerOk =>
      let! h := acquire in
      upd (set_conn (Some (Conn h None ConnectHandler ConnectHandler None None)));;
      modw (set_inflight This);;
      let! rc := ngx_autocert_acme_ssl_init in
      if rc =? NGX_OK then ret NGX_OK
      else
        let! o := getw w_inflight in
        (if decide (o = This) then modw (set_inflight Nobody) else ret tt);;
        let! r := get_req in
        (match r_conn r with Some c => release (c_ref c);; upd (set_conn None) | None => ret tt end);;
        ret NGX_ERROR
  end.

Definition ngx_autocert_acme_connect_handler (timedout : bool) : P unit :=
  let! c := get_conn in
  if timedout then ngx_autocert_acme_finalize NGX_ERROR
  else
    let! n := call in
    if so_error E n then ngx_autocert_acme_finalize NGX_ERROR
    else
      let! n := call in
      if negb (handle_event E n) then ngx_autocert_acme_finalize NGX_ERROR
      else
        upd_conn (set_write_timer None);;
        let! rc := ngx_autocert_acme_ssl_init in
        if rc =? NGX_OK then ret tt else ngx_autocert_acme_finalize NGX_ERROR.

(** ** Resolving *)

(** [ngx_resolve_name_done], and forgetting the context. *)
Definition resolve_done : P unit :=
  let! r := get_req in
  match r_resolve r with Some h => release h;; upd (set_resolve None) | None => fault end.

Definition ngx_autocert_acme_resolve_handler (state : Z) (naddrs : nat) : P unit :=
  if negb (state =? 0) then resolve_done;; ngx_autocert_acme_finalize NGX_ERROR
  else if (naddrs =? 0)%nat then resolve_done;; ngx_autocert_acme_finalize NGX_ERROR
  else
    let! n := call in
    if negb (alloc E n) then resolve_done;; ngx_autocert_acme_finalize NGX_ERROR
    else
      resolve_done;;
      let! rc := ngx_autocert_acme_connect in
      if rc =? NGX_OK then ret tt else ngx_autocert_acme_finalize NGX_ERROR.

(** ** Starting *)

Definition ngx_autocert_acme_request : P Z :=
  let! n := call in
  match ngx_autocert_acme_parse_url (i_url I) (negb (alloc E n)) with
  | None => ret NGX_ERROR
  | Some u =>
      match ngx_autocert_acme_check_origin (Some (i_client I)) u with
      | None => fault
      | Some false => ret NGX_ERROR
      | Some true =>
          let! n := call in
          let literal := parse_addr E n (host u) in
          upd (set_url (Some u) literal);;
          if literal then ngx_autocert_acme_connect
          else if negb (i_resolver I) then ret NGX_ERROR
          else
            let! n := call in
            match resolve_start E n with
            | StartFailed | NoResolver => ret NGX_ERROR
            | Started =>
                let! h := acquire in
                upd (set_resolve (Some h));;
                modw (set_inflight This);;
                let! n := call in
                match resolve_name E n with
                | LookupFailed =>
                    (* nginx frees the context of a name it cannot look up *)
                    release h;;
                    let! o := getw w_inflight in
                    (if decide (o = This) then modw (set_inflight Nobody) else ret tt);;
                    upd (set_resolve None);;
                    ret NGX_ERROR
                | LookupPending => ret NGX_OK
                | LookupDone state naddrs => ngx_autocert_acme_resolve_handler state naddrs;; ret NGX_OK
                end
            end
      end
  end.

Definition ngx_autocert_acme_cancel_inflight : P unit :=
  let! o := getw w_inflight in
  if decide (o = This) then
    modw (set_inflight Nobody);;
    upd set_done;;
    teardown;;
    modw (set_over [])
  else ret tt.

(** ** The event loop *)

(** What nginx may do next: the resolver answers, an event of the connection is ready or
    has timed out, the driver cancels, the clock goes on. *)
Inductive event :=
  | EResolved (state : Z) (naddrs : nat)
  | ERead (timedout : bool)
  | EWrite (timedout : bool)
  | ECancel
  | EClock (now : Z).

#[export] Instance event_eq_dec : EqDecision event.
Proof. solve_decision. Defined.

(** An event of a connection whose TLS handshake nginx carries on: it calls the module's
    handler when it is done, has failed or has timed out. *)
Definition ngx_ssl_handshake_handler (timedout : bool) : P unit :=
  if timedout then ngx_autocert_acme_ssl_handshake_handler true
  else
    let! c := get_conn in
    let! n := call in
    match handshake E n with
    | HandshakeAgain => ret tt
    | HandshakeDone =>
        match c_tls c with
        | Some t => upd_conn (set_tls (Some (Tls (t_ref t) true)));; ngx_autocert_acme_ssl_handshake_handler false
        | None => fault
        end
    | HandshakeFailed => ngx_autocert_acme_ssl_handshake_handler false
    end.

Definition run_handler (h : handler) (timedout : bool) : P unit :=
  match h with
  | ConnectHandler => ngx_autocert_acme_connect_handler timedout
  | HandshakeHandler => ngx_ssl_handshake_handler timedout
  | WriteHandler => ngx_autocert_acme_write_handler timedout
  | ReadHandler => ngx_autocert_acme_read_handler timedout
  end.

Definition deliver (ev : event) : P unit :=
  match ev with
  | EResolved state naddrs => ngx_autocert_acme_resolve_handler state naddrs
  | ERead timedout => let! c := get_conn in run_handler (c_read c) timedout
  | EWrite timedout => let! c := get_conn in run_handler (c_write c) timedout
  | ECancel => ngx_autocert_acme_cancel_inflight
  | EClock now => modw (set_clock now)
  end.
End Client.
