(* ===== verification/HttpClientSteps.v ===== *)
(** * The life of an ACME request: its steps

    What a request waits for, how it ends, and that every step of it leads to one or
    the other. *)

From S2P Require Import Prelude NgxCore Http HttpChunk HttpParse HttpResume HttpThms HttpClient.

Local Open Scope Z_scope.
Local Open Scope prog_scope.

Section Steps.
Context (I : input) (E : env).

(** ** What the callers and nginx promise *)

Record promises : Prop := {
  pr_url : Forall (fun c => 0 < c) (i_url I);
  pr_body : Z.of_nat (length (i_body I)) <= NGX_MAX_INT_T_VALUE;
  pr_send : forall n s k, send E n s = Sent k -> (0 < k <= length s)%nat;
  pr_recv : forall n rd, recv_fits (length (recv_buf rd)) (recv_cap rd) (recvs E n rd) }.
Context (Hpr : promises).

Definition the_method : bytes := if (length (i_method I) =? 0)%nat then str "GET" else i_method I.
Definition the_content_type : bytes :=
  if (length (i_content_type I) =? 0)%nat then str "application/jose+json" else i_content_type I.

(** The text to send. *)
Definition request_for (u : url_parts) : bytes := request_bytes the_method the_content_type (i_body I) u.

(** The URL of the request, on the pinned origin. *)
Definition good (u : url_parts) : Prop :=
  (exists oom, ngx_autocert_acme_parse_url (i_url I) oom = Some u) /\
  ngx_autocert_acme_check_origin (Some (i_client I)) u = Some true.

(** The certificate of the peer was verified, for the host of the URL. *)
Definition verified (u : url_parts) (literal : bool) : Prop :=
  (exists n, verify_result E n = X509_V_OK) /\
  if literal then (exists n, peer_cert E n = true) /\ exists n, check_ip E n (host u) = 1
  else exists n, check_host E n (host u) = true.

(** The response is all there. *)
Definition received (rd : reader) : Prop :=
  framed (recv_buf rd) (response rd) \/ closed (recv_buf rd) (response rd).

(** ** Waiting and over *)

Inductive waits : world -> Prop :=
  | waits_answer u ip h nx k now :
      good u -> waits (World true (Req (Some u) ip false (Some h) None [] None 0) This [h] nx k now [] [])
  | waits_connect u ip h t nx k now :
      good u -> (h < nx)%nat -> t <= now + i_connect_timeout I ->
      waits (World true (Req (Some u) ip false None (Some (Conn h None ConnectHandler ConnectHandler None (Some t))) [] None 0)
               This [h] nx k now [] [])
  | waits_handshake u ip h s t nx k now :
      good u -> t <= now + i_timeout I ->
      waits (World true
               (Req (Some u) ip false None (Some (Conn h (Some (Tls s false)) HandshakeHandler HandshakeHandler (Some t) None)) [] None 0)
               This [s; h] nx k now [] [])
  | waits_send u ip h s t left nx k now sent :
      good u -> verified u ip -> sent ++ left = request_for u -> left <> [] -> t <= now + i_timeout I ->
      waits (World true
               (Req (Some u) ip false None (Some (Conn h (Some (Tls s true)) ReadHandler WriteHandler None (Some t))) left None 0)
               This [s; h] nx k now sent [])
  | waits_receive u ip h s t rd d nx k now :
      good u -> verified u ip -> room rd -> waiting (parse_oom E) (recv_buf rd) (response rd) -> t <= d -> t <= now + i_timeout I ->
      d <= now + NGX_AUTOCERT_READ_TOTAL ->
      waits (World true
               (Req (Some u) ip false None (Some (Conn h (Some (Tls s true)) ReadHandler WriteHandler (Some t) None)) [] (Some rd) d)
               This [s; h] nx k now (request_for u) []).

(** What may be left behind: a TLS object, when the server name could not be set. *)
Definition leaks (l : list nat) : Prop :=
  l = [] \/ (exists t, l = [t]) /\ exists n name, set_sni E n name = false.

(** What may have been sent: nothing, or the start of the request, to a verified peer. *)
Definition spoken (s : bytes) : Prop :=
  s = [] \/ exists u ip, good u /\ verified u ip /\ s `prefix_of` request_for u.

(** The handler was called, once, and nothing else is held. *)
Inductive over : world -> Prop :=
  | over_failed r l nx k now sent :
      r_done r = true -> r_resolve r = None -> r_conn r = None -> leaks l -> spoken sent ->
      over (World false r Nobody l nx k now sent [NGX_ERROR])
  | over_received u ip rd d nx k now :
      good u -> verified u ip -> received rd ->
      over (World false (Req (Some u) ip true None None [] (Some rd) d) Nobody [] nx k now (request_for u) [NGX_OK]).

Definition settled (w : world) : Prop := waits w \/ over w.

(** The response is being received, and must be there by [d]. *)
Definition receiving (d : Z) (w : world) : Prop :=
  waits w /\ r_recv (w_req w) <> None /\ r_deadline (w_req w) = d.

(** ** Rules *)

Lemma wp_get_req r o l nx k now s cs (Q : req -> world -> Prop) X :
  Q r (World true r o l nx k now s cs) -> wp get_req (World true r o l nx k now s cs) Q X.
Proof. exact id. Qed.

Lemma wp_upd f r o l nx k now s cs (Q : unit -> world -> Prop) X :
  Q tt (World true (f r) o l nx k now s cs) -> wp (upd f) (World true r o l nx k now s cs) Q X.
Proof. exact id. Qed.

Lemma wp_modw f w (Q : unit -> world -> Prop) X : Q tt (f w) -> wp (modw f) w Q X.
Proof. exact id. Qed.

Lemma wp_getw {A} (f : world -> A) w (Q : A -> world -> Prop) X : Q (f w) w -> wp (getw f) w Q X.
Proof. exact id. Qed.

Lemma wp_call p r o l nx k now s cs (Q : nat -> world -> Prop) X :
  (forall k', Q k (World p r o l nx k' now s cs)) -> wp call (World p r o l nx k now s cs) Q X.
Proof. intros HQ. apply HQ. Qed.

Lemma wp_acquire p r o l nx k now s cs (Q : nat -> world -> Prop) X :
  Q nx (World p r o (nx :: l) (S nx) k now s cs) -> wp acquire (World p r o l nx k now s cs) Q X.
Proof. exact id. Qed.

Lemma wp_release h p r o l nx k now s cs (Q : unit -> world -> Prop) X :
  Q tt (World p r o l nx k now s cs) -> wp (release h) (World p r o (h :: l) nx k now s cs) Q X.
Proof.
  intros HQ. unfold wp, release. cbn [w_held]. rewrite decide_True by left. cbn [take_out]. by rewrite decide_True.
Qed.

Lemma wp_get_conn c r o l nx k now s cs (Q : conn -> world -> Prop) X :
  r_conn r = Some c -> Q c (World true r o l nx k now s cs) -> wp get_conn (World true r o l nx k now s cs) Q X.
Proof. intros Hc HQ. unfold wp, get_conn, bind, get_req. cbn. by rewrite Hc. Qed.

Lemma wp_upd_conn c f r o l nx k now s cs (Q : unit -> world -> Prop) X :
  r_conn r = Some c -> Q tt (World true (set_conn (Some (f c)) r) o l nx k now s cs) ->
  wp (upd_conn f) (World true r o l nx k now s cs) Q X.
Proof. intros Hc HQ. apply wp_bind. eapply wp_get_conn; [exact Hc|]. by apply wp_upd. Qed.

(** *** The end *)

(** What a request holds. *)
Definition refs (r : req) : list nat :=
  match r_resolve r with Some h => [h] | None => [] end
  ++ match r_conn r with
     | Some c => match c_tls c with Some t => [t_ref t] | None => [] end ++ [c_ref c]
     | None => []
     end.

Lemma wp_teardown r o l nx k now s cs (Q : unit -> world -> Prop) X :
  Q tt (World true (set_conn None (set_resolve None r)) o l nx k now s cs) ->
  wp teardown (World true r o (refs r ++ l) nx k now s cs) Q X.
Proof.
  intros HQ. apply wp_bind, wp_get_req. unfold refs. destruct r as [u ip d rs c sd rv dl]. cbn [r_resolve r_conn] in *. apply wp_bind.
  assert (Hconn : forall rs', rs' = None -> wp
    match c with
    | Some c => (match c_tls c with Some t => release (t_ref t) | None => ret tt end);; release (c_ref c);; upd (set_conn None)
    | None => ret tt
    end (World true (Req u ip d rs' c sd rv dl) o
          (match c with Some c => match c_tls c with Some t => [t_ref t] | None => [] end ++ [c_ref c] | None => [] end ++ l) nx k now s cs) Q X).
  { intros rs' ->. destruct c as [c|]; [|by apply wp_ret]. destruct (c_tls c) as [t|]; apply wp_bind.
    - apply wp_release. apply wp_bind, wp_release, wp_upd. exact HQ.
    - apply wp_ret, wp_bind, wp_release, wp_upd. exact HQ. }
  destruct rs as [h|].
  - apply wp_bind, wp_release, wp_upd. by apply Hconn.
  - apply wp_ret. by apply Hconn.
Qed.

Lemma wp_finalize_request rc r o l nx k now s :
  r_done r = false -> o <> Another ->
  wp (ngx_autocert_acme_finalize rc) (World true r o (refs r ++ l) nx k now s [])
    (fun _ w' => w' = World false (set_conn None (set_resolve None (set_done r))) Nobody l nx k now s [rc]) (fun _ => False).
Proof.
  intros Hd Ho. apply wp_bind, wp_get_req. rewrite Hd. apply wp_bind, wp_upd, wp_bind, wp_getw, wp_bind. cbn [w_inflight].
  assert (Hend : wp (teardown;; completion rc) (World true (set_done r) Nobody (refs r ++ l) nx k now s [])
    (fun _ w' => w' = World false (set_conn None (set_resolve None (set_done r))) Nobody l nx k now s [rc]) (fun _ => False)).
  { change (refs r) with (refs (set_done r)). apply wp_bind, wp_teardown. by apply wp_modw. }
  destruct (decide (o = This)) as [->|Hn]; [by apply wp_modw|]. apply wp_ret. by destruct o.
Qed.

Lemma wp_fail_request r o held l nx k now s :
  r_done r = false -> held = refs r ++ l -> leaks l -> spoken s -> o <> Another ->
  wp (ngx_autocert_acme_finalize NGX_ERROR) (World true r o held nx k now s []) (fun _ w' => settled w') (fun _ => False).
Proof. intros Hd -> Hl Hs Ho. eapply wp_mono; [by apply wp_finalize_request| |done]. intros [] w' ->. right. by constructor. Qed.

Lemma no_leak : leaks [].
Proof. by left. Qed.

Lemma spoken_nothing : spoken [].
Proof. by left. Qed.

Lemma spoken_part u ip s left : good u -> verified u ip -> s ++ left = request_for u -> spoken s.
Proof. intros Hg Hv Htxt. right. exists u, ip. split; [done|]. split; [done|]. rewrite <- Htxt. by apply prefix_app_r. Qed.

(** Giving up, with all that is held by the request. *)
Lemma wp_give_over r held nx k now s :
  r_done r = false -> held = refs r -> spoken s ->
  wp (ngx_autocert_acme_finalize NGX_ERROR) (World true r This held nx k now s []) (fun _ w' => settled w') (fun _ => False).
Proof. intros Hd -> Hs. apply wp_fail_request with (l := []); [done|by rewrite app_nil_r|apply no_leak|done|done]. Qed.

(** *** Receiving *)

Lemma recv_fits_again len cap results : recv_fits len cap results -> recv_fits len cap (results ++ [RecvAgain]).
Proof.
  revert len cap. induction results as [|[| | |x] results IH]; intros len cap; [done|apply IH..|]. intros [Hx Hr]. split; [exact Hx|by apply IH].
Qed.

Lemma wp_read_handler u ip h s rt rd d nx k now :
  good u -> verified u ip -> room rd -> waiting (parse_oom E) (recv_buf rd) (response rd) -> d <= now + NGX_AUTOCERT_READ_TOTAL ->
  wp (ngx_autocert_acme_read_handler I E false)
    (World true (Req (Some u) ip false None (Some (Conn h (Some (Tls s true)) ReadHandler WriteHandler rt None)) [] (Some rd) d)
       This [s; h] nx k now (request_for u) []) (fun _ w' => receiving d w' \/ over w') (fun _ => False).
Proof.
  intros Hg Hv Hroom Hw Hd. apply wp_bind, wp_get_req. cbn [r_recv r_deadline]. apply wp_bind, wp_call. intros k'.
  apply wp_bind, wp_getw. cbn [w_now]. cbv zeta. set (left := d - now).
  pose proof (wp_read_loop (parse_oom E) (negb (alloc E k)) (0 <? left) (handle_event E k) (recvs E k rd ++ [RecvAgain]) rd (recv_fits_again _ _ _ (pr_recv Hpr k rd)) Hroom Hw) as Hl.
  unfold wp in Hl. destruct (read_loop _ _ _ _ _ _) as [[rc|] rd'|rd'| |]; [| |done..].
  - destruct Hl as [_ Hf]. apply wp_bind, wp_upd. cbn [set_recv r_url r_host_is_ip r_done r_resolve r_conn r_send].
    match goal with |- wp _ (World true ?r _ _ _ _ _ _ _) _ _ => change [s; h] with (refs r ++ []) end.
    eapply wp_mono; [by apply wp_finalize_request| |done]. intros [] w' ->. right. cbn.
    destruct Hf as [->|[-> Hrec]]; [|by constructor].
    apply over_failed; try done; [apply no_leak|by apply (spoken_part u ip _ []); rewrite ?app_nil_r].
  - destruct Hl as [Hroom' Hw']. apply wp_bind, wp_upd. eapply wp_upd_conn; [done|]. left. split; [|done].
    apply (waits_receive u ip h s (now + Z.min left (i_timeout I))); try done; cbn; unfold left; lia.
Qed.

(** *** Sending *)

Lemma wp_send_loop fuel u ip h s wt left nx k now sent :
  good u -> verified u ip -> sent ++ left = request_for u -> (length left < fuel)%nat ->
  wp (send_loop I E fuel)
    (World true (Req (Some u) ip false None (Some (Conn h (Some (Tls s true)) ReadHandler WriteHandler None wt)) left None 0)
       This [s; h] nx k now sent [])
    (fun b w' => if b : bool then exists k', w' = World true (Req (Some u) ip false None (Some (Conn h (Some (Tls s true)) ReadHandler WriteHandler None wt)) [] None 0)
                                            This [s; h] nx k' now (request_for u) []
               else settled w') (fun _ => False).
Proof.
  revert left k sent. induction fuel as [|fuel IH]; intros left k sent Hg Hv Htxt Hf; [lia|]. cbn [send_loop].
  apply wp_bind, wp_get_req. cbn [r_send]. destruct (Nat.eqb_spec (length left) 0) as [Hn|Hn].
  { assert (left = []) as -> by by apply nil_length_inv. rewrite app_nil_r in Htxt. apply wp_ret. exists k. by rewrite Htxt. }
  apply wp_bind, wp_call. intros k'. destruct (send E k left) as [| |n] eqn:Es.
  - apply wp_bind, wp_getw. cbn [w_now]. apply wp_bind. eapply wp_upd_conn; [done|]. apply wp_bind, wp_call. intros k''.
    apply wp_bind. destruct (handle_event E k').
    + apply wp_ret, wp_ret. left. apply (waits_send u ip h s (now + i_timeout I) left); [done..|by intros ->|cbn; lia].
    + eapply wp_mono; [apply wp_give_over; [done|done|by apply (spoken_part u ip _ left)]| |done]. intros [] w' Hs. by apply wp_ret.
  - apply wp_bind. eapply wp_mono; [apply wp_give_over; [done|done|by apply (spoken_part u ip _ left)]| |done]. intros [] w' Hs. by apply wp_ret.
  - apply (pr_send Hpr) in Es as [Hn0 Hle]. apply wp_bind, wp_modw. cbn [set_sent w_pool w_req w_inflight w_held w_next w_calls w_now w_sent w_completed].
    apply wp_bind, wp_upd. apply IH; [done|done| |rewrite length_drop; lia]. by rewrite <- app_assoc, take_drop.
Qed.

Lemma wp_write_handler u ip h s wt left nx k now sent :
  good u -> verified u ip -> sent ++ left = request_for u ->
  wp (ngx_autocert_acme_write_handler I E false)
    (World true (Req (Some u) ip false None (Some (Conn h (Some (Tls s true)) ReadHandler WriteHandler None wt)) left None 0)
       This [s; h] nx k now sent []) (fun _ w' => settled w') (fun _ => False).
Proof.
  intros Hg Hv Htxt. apply wp_bind, wp_get_req. cbn [r_recv r_send]. apply wp_bind. eapply wp_mono; [eapply wp_send_loop; [done..|lia]| |done].
  intros b w' Hb. destruct b; cbn [negb]; [|by apply wp_ret]. destruct Hb as (k1 & ->). apply wp_bind. eapply wp_upd_conn; [done|].
  apply wp_bind, wp_call. intros k2. cbn [set_conn set_write_timer r_url r_host_is_ip r_done r_resolve r_send r_recv r_deadline c_ref c_tls c_read c_write c_read_timer].
  assert (Hall : spoken (request_for u)) by (apply (spoken_part u ip _ []); [done|done|by rewrite app_nil_r]).
  destruct (alloc E k1); cbn [negb]; [|by apply wp_give_over].
  apply wp_bind, wp_getw. cbn [w_now]. apply wp_bind, wp_upd. apply wp_bind. eapply wp_upd_conn; [done|]. apply wp_bind, wp_call. intros k3.
  destruct (handle_event E k2); cbn [negb]; [|by apply wp_give_over].
  eapply wp_mono; [apply wp_read_handler; [done|done|apply room0|apply waiting0|cbn; lia]| |done]. intros [] w' [[Hw _]|Ho]; [by left|by right].
Qed.

(** *** The handshake *)

Lemma wp_verify_peer r u p o l nx k now s cs (Q : bool -> world -> Prop) X :
  r_url r = Some u ->
  (forall k' b, (b = true -> verified u (r_host_is_ip r)) -> Q b (World p (w_req (World p r o l nx k now s cs)) o l nx k' now s cs)) ->
  wp (verify_peer E r) (World p r o l nx k now s cs) Q X.
Proof.
  intros Hu HQ. cbn [w_req] in HQ. apply wp_bind, wp_call. intros k1. destruct (verify_result E k =? X509_V_OK) eqn:Ev; cbn [negb]; [|by apply wp_ret, HQ].
  reflect_bools. rewrite Hu. unfold verified in HQ. destruct (r_host_is_ip r).
  - apply wp_bind, wp_call. intros k2. destruct (peer_cert E k1) eqn:Ec; cbn [negb]; [|by apply wp_ret, HQ].
    apply wp_bind, wp_call. intros k3. apply wp_ret, HQ. intros Hb. split; [by exists k|]. split; [by exists k1|]. exists k2. by reflect_bools.
  - apply wp_bind, wp_call. intros k2. apply wp_ret, HQ. intros Hb. split; [by exists k|]. by exists k1.
Qed.

Lemma good_port u : good u -> 1 <= port u <= 65535.
Proof. intros ((oom & Hp) & _). apply http_parse_url_sound in Hp as (? & ? & ? & _ & _ & _ & _ & Hr & _); [done|apply Hpr]. Qed.

Lemma wp_handshake_handler u ip h s b rdh wrh rt nx k now :
  good u ->
  wp (ngx_autocert_acme_ssl_handshake_handler I E false)
    (World true (Req (Some u) ip false None (Some (Conn h (Some (Tls s b)) rdh wrh rt None)) [] None 0) This [s; h] nx k now [] [])
    (fun _ w' => settled w') (fun _ => False).
Proof.
  intros Hg.
  apply wp_bind, wp_get_req, wp_bind. eapply wp_get_conn; [done|]. cbn [c_tls t_handshaked]. destruct b; cbn [negb]; [|apply wp_give_over; [done|done|apply spoken_nothing]].
  apply wp_bind, wp_verify_peer with (u := u); [done|]. cbn [w_req r_host_is_ip]. intros k1 good Hv. destruct good; cbn [negb]; [|apply wp_give_over; [done|done|apply spoken_nothing]].
  apply wp_bind. eapply wp_upd_conn; [done|]. apply wp_bind, wp_call. intros k2. cbn [r_url]. cbv zeta.
  destruct (alloc E k1) eqn:Ea; cbn [negb].
  - rewrite build_request_text; [|by apply good_port|apply Hpr]. fold the_method the_content_type (request_for u).
    apply wp_bind, wp_upd, wp_bind. eapply wp_upd_conn; [done|]. apply wp_write_handler; [done|by apply Hv|done].
  - unfold ngx_autocert_acme_build_request. cbn. apply wp_give_over; [done|done|apply spoken_nothing].
Qed.

Lemma wp_ssl_init u ip h nx k now :
  good u -> (h < nx)%nat ->
  wp (ngx_autocert_acme_ssl_init I E)
    (World true (Req (Some u) ip false None (Some (Conn h None ConnectHandler ConnectHandler None None)) [] None 0) This [h] nx k now [] [])
    (fun rc w' => rc = NGX_OK /\ settled w' \/
       rc = NGX_ERROR /\ exists t nx' k',
         w' = World true (Req (Some u) ip false None (Some (Conn h t ConnectHandler ConnectHandler None None)) [] None 0) This
                (match t with Some t => [t_ref t] | None => [] end ++ [h]) nx' k' now [] [] /\
         (t = None \/ (exists t0, t = Some t0 /\ t_ref t0 <> h) /\ exists n name, set_sni E n name = false)) (fun _ => False).
Proof.
  intros Hg Hlt. apply wp_bind, wp_get_req, wp_bind. eapply wp_get_conn; [done|]. apply wp_bind, wp_call. intros k1.
  destruct (ssl_create E k); cbn [negb].
  2: { apply wp_ret. right. split; [done|]. exists None, nx, k1. split; [done|by left]. }
  apply wp_bind, wp_acquire, wp_bind. eapply wp_upd_conn; [done|]. apply wp_bind, wp_call. intros k2. cbn [r_url r_host_is_ip].
  destruct (negb ip && negb (set_sni E k1 (host u))) eqn:Esni.
  { apply wp_ret. right. split; [done|]. exists (Some (Tls nx false)), (S nx), k2. split; [done|]. right.
    split; [exists (Tls nx false); split; [done|cbn; lia]|]. exists k1, (host u). by reflect_bools. }
  apply wp_bind, wp_call. intros k3.
  cbn [set_conn set_tls r_url r_host_is_ip r_done r_resolve r_send r_recv r_deadline c_ref c_read c_write c_read_timer c_write_timer].
  destruct (handshake E k2).
  - apply wp_bind, wp_getw. cbn [w_now]. apply wp_bind. eapply wp_upd_conn; [done|]. apply wp_bind. eapply wp_upd_conn; [done|].
    apply wp_ret. left. split; [done|]. left. apply (waits_handshake u ip h nx (now + i_timeout I)); [done|cbn; lia].
  - apply wp_bind. eapply wp_upd_conn; [done|]. apply wp_bind. eapply wp_mono; [by apply wp_handshake_handler| |done].
    intros [] w' Hs. apply wp_ret. by left.
  - apply wp_bind. eapply wp_mono; [by apply wp_handshake_handler| |done]. intros [] w' Hs. apply wp_ret. by left.
Qed.

(** *** Connecting *)

(** A request about to connect. *)
Definition ready u ip o l nx k now : world := World true (Req (Some u) ip false None None [] None 0) o l nx k now [] [].

Lemma wp_connect u ip o nx k now :
  good u ->
  wp (ngx_autocert_acme_connect I E) (ready u ip o [] nx k now)
    (fun rc w' => rc = NGX_OK /\ settled w' \/
       rc = NGX_ERROR /\ exists o' l nx' k', w' = ready u ip o' l nx' k' now /\ leaks l /\ (o' = o \/ o' = Nobody)) (fun _ => False).
Proof.
  intros Hg. apply wp_bind, wp_get_req, wp_bind, wp_call. intros k1. destruct (connect_peer E k).
  - apply wp_ret. right. split; [done|]. exists o, [], nx, k1. split; [done|]. split; [apply no_leak|by left].
  - apply wp_bind, wp_acquire, wp_bind, wp_upd, wp_bind, wp_modw, wp_bind, wp_getw. cbn [w_now]. apply wp_bind. eapply wp_upd_conn; [done|].
    apply wp_ret. left. split; [done|]. left. apply (waits_connect u ip nx (now + i_connect_timeout I)); [done|cbn; lia..].
  - apply wp_bind, wp_acquire, wp_bind, wp_upd, wp_bind, wp_modw, wp_bind.
    eapply wp_mono; [apply (wp_ssl_init u ip nx (S nx) k1 now); [done|lia]| |done].
    intros rc w' [[-> Hs]|(-> & t & nx' & k' & -> & Ht)]; cbn [Z.eqb]; [apply wp_ret; by left|].
    apply wp_bind, wp_getw. cbn [w_inflight]. rewrite decide_True by done. apply wp_bind, wp_modw, wp_bind, wp_get_req. cbn [r_conn c_ref].
    apply wp_bind, wp_bind. destruct Ht as [->|[(t0 & -> & Hne) Hsni]]; cbn [app].
    + apply wp_release, wp_upd, wp_ret. right. split; [done|]. exists Nobody, [], nx', k'. split; [done|]. split; [apply no_leak|by right].
    + unfold wp, release. cbn [w_held]. rewrite decide_True by (right; left). cbn [take_out]. rewrite decide_False, decide_True by done.
      cbn. right. split; [done|]. exists Nobody, [t_ref t0], nx', k'. split; [done|]. split; [|by right]. right. split; [by eexists|done].
Qed.

Lemma wp_connect_handler u ip h t nx k now :
  good u -> (h < nx)%nat ->
  wp (ngx_autocert_acme_connect_handler I E false)
    (World true (Req (Some u) ip false None (Some (Conn h None ConnectHandler ConnectHandler None t)) [] None 0) This [h] nx k now [] [])
    (fun _ w' => settled w') (fun _ => False).
Proof.
  intros Hg Hlt.
  apply wp_bind. eapply wp_get_conn; [done|]. apply wp_bind, wp_call. intros k1. destruct (so_error E k); [apply wp_give_over; [done|done|apply spoken_nothing]|].
  apply wp_bind, wp_call. intros k2. destruct (handle_event E k1); cbn [negb]; [|apply wp_give_over; [done|done|apply spoken_nothing]].
  apply wp_bind. eapply wp_upd_conn; [done|]. apply wp_bind. eapply wp_mono; [by apply (wp_ssl_init u ip h nx)| |done].
  intros rc w' [[-> Hs]|(-> & t' & nx' & k' & -> & Ht)]; cbn [Z.eqb]; [by apply wp_ret|].
  apply wp_give_over; [done|done|apply spoken_nothing].
Qed.

(** *** Resolving *)

Lemma wp_resolve_handler u ip h o state naddrs nx k now :
  good u -> o <> Another ->
  wp (ngx_autocert_acme_resolve_handler I E state naddrs)
    (World true (Req (Some u) ip false (Some h) None [] None 0) o [h] nx k now [] []) (fun _ w' => settled w') (fun _ => False).
Proof.
  intros Hg Ho. assert (Hdone : forall k (m : prog world unit), wp m (ready u ip o [] nx k now) (fun _ w' => settled w') (fun _ => False) ->
    wp (resolve_done;; m) (World true (Req (Some u) ip false (Some h) None [] None 0) o [h] nx k now [] []) (fun _ w' => settled w') (fun _ => False)).
  { intros k' m Hm. apply wp_bind, wp_bind, wp_get_req. cbn [r_resolve]. apply wp_bind, wp_release, wp_upd. exact Hm. }
  assert (Hfail : forall l o k nx, leaks l -> o <> Another -> wp (ngx_autocert_acme_finalize NGX_ERROR) (ready u ip o l nx k now) (fun _ w' => settled w') (fun _ => False)).
  { intros l o' k' nx' Hl Ho'. apply wp_fail_request with (l := l); [done|done|done|apply spoken_nothing|done]. }
  unfold ngx_autocert_acme_resolve_handler. destruct (negb (state =? 0)); [apply Hdone, Hfail; [apply no_leak|done]|].
  destruct (naddrs =? 0)%nat; [apply Hdone, Hfail; [apply no_leak|done]|]. apply wp_bind, wp_call. intros k1.
  destruct (alloc E k); cbn [negb]; [|apply Hdone, Hfail; [apply no_leak|done]]. apply Hdone. apply wp_bind.
  eapply wp_mono; [by apply wp_connect| |done]. intros rc w' [[-> Hs]|(-> & o' & l & nx' & k' & -> & Hl & Ho')]; cbn [Z.eqb]; [by apply wp_ret|].
  apply Hfail; [done|]. by destruct Ho' as [->| ->].
Qed.

(** *** Starting *)

Lemma check_origin_total c u :
  Forall url_char (host u) -> exists ok, ngx_autocert_acme_check_origin (Some c) u = Some ok.
Proof.
  intros Hu. unfold ngx_autocert_acme_check_origin. destruct (negb (origin_pinned c)); [by eexists|].
  destruct (_ || _ || _) eqn:E1; [by eexists|]. apply orb_false_iff in E1 as [_ Hl]. apply negb_false_iff, Nat.eqb_eq in Hl.
  destruct (strncasecmp_exact (host u) (origin_host c) (length (host u))) as (r & -> & _); [lia|lia| |by eexists].
  apply Forall_take. eapply Forall_impl; [exact Hu|]. unfold url_char. intros x [Hx _]. cbn in Hx |- *. lia.
Qed.

(** A request with nothing filled in but by its caller. *)
Definition fresh (w : world) : Prop := exists o nx k now, w = World true req0 o [] nx k now [] [] /\ o <> This.

(** It could not be started: its handler is not called, and it is the caller's. *)
Inductive refused : world -> Prop :=
  | refused_world r o l nx k now :
      r_done r = false -> r_resolve r = None -> r_conn r = None -> leaks l -> o <> This ->
      refused (World true r o l nx k now [] []).

Definition started_well (rc : Z) (w : world) : Prop := rc = NGX_OK /\ settled w \/ rc = NGX_ERROR /\ refused w.

Lemma wp_request w : fresh w -> wp (ngx_autocert_acme_request I E) w started_well (fun _ => False).
Proof.
  intros (o & nx & k & now & -> & Ho).
  assert (Hno : forall r o k nx, r_done r = false -> r_resolve r = None -> r_conn r = None -> o <> This ->
    wp (ret NGX_ERROR) (World true r o [] nx k now [] []) started_well (fun _ => False)).
  { intros r o' k' nx' Hd Hr Hc Ho'. right. split; [done|]. constructor; try done. apply no_leak. }
  assert (Hconn : forall u k, good u -> forall ip, wp (ngx_autocert_acme_connect I E) (ready u ip o [] nx k now) started_well (fun _ => False)).
  { intros u k' Hg ip. eapply wp_mono; [by apply wp_connect| |done]. intros rc w' [H|(-> & o' & l & nx' & k'' & -> & Hl & Ho')]; [by left|].
    right. split; [done|]. constructor; try done. by destruct Ho' as [->| ->]. }
  apply wp_bind, wp_call. intros k1. destruct (ngx_autocert_acme_parse_url _ _) as [u|] eqn:Eu; [|by apply Hno].
  destruct (check_origin_total (i_client I) u) as [ok Eo].
  { apply http_parse_url_sound in Eu as (? & ? & ? & _ & _ & _ & _ & _ & _ & _ & Hc & _); [done|apply Hpr]. }
  rewrite Eo. destruct ok; [|by apply Hno]. assert (Hg : good u) by (split; [by eexists|done]).
  apply wp_bind, wp_call. intros k2. cbv zeta. apply wp_bind, wp_upd. destruct (parse_addr E k1 (host u)); [by apply Hconn|].
  destruct (i_resolver I); cbn [negb]; [|by apply Hno]. apply wp_bind, wp_call. intros k3. destruct (resolve_start E k2); [|by apply Hno..].
  apply wp_bind, wp_acquire, wp_bind, wp_upd, wp_bind, wp_modw.
  cbv [set_inflight w_pool w_req w_inflight w_held w_next w_calls w_now w_sent w_completed].
  apply wp_bind, wp_call. intros k4. cbn [set_resolve set_url r_url r_host_is_ip r_done r_conn r_send r_recv r_deadline].
  destruct (resolve_name E k3).
  - apply wp_bind, wp_release, wp_bind, wp_getw. cbn [w_inflight]. rewrite decide_True by done.
    apply wp_bind, wp_modw, wp_bind, wp_upd. by apply Hno.
  - apply wp_ret. left. split; [done|]. left. by apply (waits_answer u false nx).
  - apply wp_bind. eapply wp_mono; [by apply wp_resolve_handler| |done]. intros [] w' Hs. apply wp_ret. by left.
Qed.

(** *** Cancelling *)

(** The handler was not called, and nothing is held. *)
Inductive cancelled : world -> Prop :=
  | cancelled_world r nx k now sent :
      r_done r = true -> r_resolve r = None -> r_conn r = None -> spoken sent -> cancelled (World false r Nobody [] nx k now sent []).

Lemma waits_shape w : waits w -> exists r nx k now sent, w = World true r This (refs r) nx k now sent [] /\ r_done r = false /\ spoken sent.
Proof. intros Hw. exists (w_req w), (w_next w), (w_calls w), (w_now w), (w_sent w).
  destruct Hw as [| | |u ip h s t left nx k now sent|u ip h s t rd d nx k now]; (split; [done|]; split; [done|]); cbn [w_sent]; try apply spoken_nothing.
  - by apply (spoken_part u ip _ left).
  - by apply (spoken_part u ip _ []); rewrite ?app_nil_r.
Qed.

Lemma wp_cancel w : waits w -> wp ngx_autocert_acme_cancel_inflight w (fun _ w' => cancelled w') (fun _ => False).
Proof.
  intros (r & nx & k & now & sent & -> & Hd & Hs)%waits_shape. apply wp_bind, wp_getw. cbn [w_inflight]. rewrite decide_True by done.
  apply wp_bind, wp_modw, wp_bind, wp_upd, wp_bind. change (refs r) with (refs (set_done r)). rewrite <- (app_nil_r (refs _)).
  by apply wp_teardown, wp_modw.
Qed.

(** ** Events *)

Definition due (t : option Z) (now : Z) : Prop := match t with Some t => t <= now | None => False end.

(** What nginx can call: a handler of a resolver context or connection that is there, a
    timeout once its timer ran out. *)
Definition can_happen (w : world) (ev : event) : Prop :=
  match ev with
  | EResolved _ _ => w_pool w = true /\ r_resolve (w_req w) <> None
  | ERead timedout =>
      w_pool w = true /\ exists c, r_conn (w_req w) = Some c
        /\ (timedout = true -> due (c_read_timer c) (w_now w))
  | EWrite timedout =>
      w_pool w = true /\ exists c, r_conn (w_req w) = Some c /\ (timedout = true -> due (c_write_timer c) (w_now w))
  | ECancel => True
  | EClock now => w_now w <= now
  end.

(** A read event while the request is still being sent: its handler is set before the buffer it reads into is made. *)
Definition early_read (w : world) (ev : event) : Prop :=
  match ev with
  | ERead _ => exists c, r_conn (w_req w) = Some c /\ c_read c = ReadHandler /\ r_recv (w_req w) = None
  | _ => False
  end.

(** Once it is over nothing more happens to it. *)
Definition ended (w : world) : Prop := over w \/ cancelled w.

Lemma wp_deliver_over w ev : over w -> can_happen w ev -> wp (deliver I E ev) w (fun _ w' => over w') (fun _ => False).
Proof.
  intros Hw. destruct ev as [st n|to|to| |t]; [by intros [? _]; destruct Hw..| |]; intros _.
  - by destruct Hw; constructor.
  - apply wp_modw. by destruct Hw; constructor.
Qed.

Lemma wp_deliver_cancelled w ev :
  cancelled w -> can_happen w ev -> wp (deliver I E ev) w (fun _ w' => cancelled w') (fun _ => False).
Proof.
  intros Hw. destruct ev as [st n|to|to| |t]; [by intros [? _]; destruct Hw..| |]; intros _.
  - by destruct Hw; constructor.
  - apply wp_modw. by destruct Hw; constructor.
Qed.

(** The handler was called with NGX_ERROR, and nothing is held. *)
Definition gave_up (w : world) : Prop := over w /\ w_completed w = [NGX_ERROR] /\ w_held w = [].

Lemma wp_timeout w : waits w -> wp (ngx_autocert_acme_finalize NGX_ERROR) w (fun _ w' => gave_up w') (fun _ => False).
Proof.
  intros (r & nx & k & now & sent & -> & Hd & Hs)%waits_shape. rewrite <- (app_nil_r (refs r)).
  eapply wp_mono; [by apply wp_finalize_request| |done]. intros [] w' ->. split; [|done]. constructor; try done. apply no_leak.
Qed.

Lemma wp_timeout_settled w : waits w -> wp (ngx_autocert_acme_finalize NGX_ERROR) w (fun _ w' => settled w') (fun _ => False).
Proof. intros Hw. eapply wp_mono; [by apply wp_timeout| |done]. intros [] w' [Ho _]. by right. Qed.
End Steps.
