(* ===== verification/HttpClientThms.v ===== *)
(** * The life of an ACME request: what it promises

    Whatever the network answers, in whatever order nginx delivers the events and
    wherever a call fails. *)

From S2P Require Import Prelude NgxCore Http HttpChunk HttpParse HttpResume HttpThms HttpClient HttpClientSteps.

Local Open Scope Z_scope.
Local Open Scope prog_scope.

(** ** Runs *)

Section Runs.
Context (I : input) (E : env).

(** The events delivered, one after the other. *)
Inductive path : world -> list event -> world -> Prop :=
  | path_nil w : path w [] w
  | path_cons w ev w1 evs w2 :
      can_happen w ev -> deliver I E ev w = Ret tt w1 -> path w1 evs w2 -> path w (ev :: evs) w2.

(** A request under way: started, and the events since. *)
Definition under_way (w0 : world) (evs : list event) (w : world) : Prop :=
  fresh w0 /\ exists w1, ngx_autocert_acme_request I E w0 = Ret NGX_OK w1 /\ path w1 evs w.

Context (Hpr : promises I E).

(** *** One event *)

Lemma wp_handshake_event u ip h s t nx k now timedout :
  good I u -> t <= now + i_timeout I ->
  wp (ngx_ssl_handshake_handler I E timedout)
    (World true (Req (Some u) ip false None (Some (Conn h (Some (Tls s false)) HandshakeHandler HandshakeHandler (Some t) None)) [] None 0)
       This [s; h] nx k now [] []) (fun _ w' => settled I E w') (fun _ => False).
Proof.
  intros Hg Ht. destruct timedout; cbn [ngx_ssl_handshake_handler].
  - apply wp_bind, wp_get_req, wp_bind. eapply wp_get_conn; [done|]. by apply wp_timeout_settled, waits_handshake.
  - apply wp_bind. eapply wp_get_conn; [done|]. apply wp_bind, wp_call. intros k1. destruct (handshake E k).
    + apply wp_ret. left. by apply waits_handshake.
    + cbn [c_tls]. apply wp_bind. eapply wp_upd_conn; [done|]. by apply wp_handshake_handler.
    + by apply wp_handshake_handler.
Qed.

Lemma wp_deliver_read w timedout :
  waits I E w -> can_happen w (ERead timedout) -> ~ early_read w (ERead timedout) ->
  wp (deliver I E (ERead timedout)) w (fun _ w' => settled I E w') (fun _ => False).
Proof.
  intros Hw (_ & c & Hc & Hdue) Hearly. pose proof (wp_timeout_settled I E w Hw) as Hout. apply wp_bind.
  destruct Hw; cbn in Hc; try done; injection Hc as <-; (eapply wp_get_conn; [done|]); cbn [c_read run_handler].
  - destruct timedout; [by specialize (Hdue eq_refl)|]. by apply wp_connect_handler.
  - by apply wp_handshake_event.
  - destruct Hearly. by eexists.
  - destruct timedout; [exact Hout|]. eapply wp_mono; [by apply wp_read_handler| |done]. intros [] w' [[? _]|?]; [by left|by right].
Qed.

Lemma wp_deliver_write w timedout :
  waits I E w -> can_happen w (EWrite timedout) ->
  wp (deliver I E (EWrite timedout)) w (fun _ w' => settled I E w') (fun _ => False).
Proof.
  intros Hw (_ & c & Hc & Hdue). pose proof (wp_timeout_settled I E w Hw) as Hout. apply wp_bind.
  destruct Hw as [| | | |u ip h s t rd d nx k now Hg Hv Hroom Hw Ht Ht' Hd]; cbn in Hc; try done; injection Hc as <-; (eapply wp_get_conn; [done|]); cbn [c_write run_handler].
  - destruct timedout; [exact Hout|]. by apply wp_connect_handler.
  - by apply wp_handshake_event.
  - destruct timedout; [exact Hout|]. by apply wp_write_handler.
  - apply wp_bind, wp_get_req. cbn [r_recv]. apply wp_ret. left. by apply (waits_receive I E u ip h s t).
Qed.

Lemma wp_deliver_waits w ev :
  waits I E w -> can_happen w ev -> ~ early_read w ev -> ev <> ECancel -> wp (deliver I E ev) w (fun _ w' => settled I E w') (fun _ => False).
Proof.
  intros Hw Hev Hno Hne. destruct ev as [st n|to|to| |t]; [|by apply wp_deliver_read|by apply wp_deliver_write|done|].
  - destruct Hw; try by destruct Hev. by apply wp_resolve_handler.
  - apply wp_modw. left. cbn in Hev.
    destruct Hw; cbn in Hev |- *; constructor; try done; lia.
Qed.

(** *** Any number of them *)

(** What is true of a request after the events: only cancelling ends it without a call of
    its handler. *)
Definition state_of (evs : list event) (w : world) : Prop :=
  waits I E w \/ over I E w \/ cancelled I E w /\ ECancel ∈ evs.

(** An early read event is the one that cannot be handled. *)
Lemma early_read_faults evs w ev : state_of evs w -> can_happen w ev -> early_read w ev -> deliver I E ev w = Fault.
Proof.
  intros Hw Hev Hearly. destruct ev as [|to| | |]; try done. destruct Hev as (Hp & c & Hc & Hdue), Hearly as (c' & Hc' & Hrd & Hrv).
  destruct Hw as [Hw|[Hw|[Hw _]]]; [|by destruct Hw..].
  destruct Hw; cbn in Hc, Hc', Hrv; try done; rewrite Hc in Hc'; injection Hc' as <-; injection Hc as <-; try done.
  destruct to; [by specialize (Hdue eq_refl)|done].
Qed.

Lemma deliver_total evs w ev :
  state_of evs w -> can_happen w ev -> ~ early_read w ev -> exists w', deliver I E ev w = Ret tt w' /\ state_of (evs ++ [ev]) w'.
Proof.
  intros Hw Hev Hno. assert (H : wp (deliver I E ev) w (fun _ w' => state_of (evs ++ [ev]) w') (fun _ => False)).
  { destruct Hw as [Hw|[Hw|[Hw Hin]]].
    - destruct (decide (ev = ECancel)) as [->|Hne].
      + eapply wp_mono; [by apply (wp_cancel I E)| |done]. intros [] w' Hs. right. right. split; [done|]. set_solver.
      + eapply wp_mono; [by apply wp_deliver_waits| |done]. intros [] w' [Hs|Hs]; [by left|by right; left].
    - eapply wp_mono; [by apply wp_deliver_over| |done]. intros [] w' Hs. by right; left.
    - eapply wp_mono; [by apply wp_deliver_cancelled| |done]. intros [] w' Hs. right. right. split; [done|]. set_solver. }
  unfold wp in H. destruct (deliver I E ev w) as [[] w'|w'| |] eqn:Ed; try done. by exists w'.
Qed.

Lemma path_state w evs w' evs0 : path w evs w' -> state_of evs0 w -> state_of (evs0 ++ evs) w'.
Proof.
  intros Hp. revert evs0. induction Hp as [|w ev w1 evs w2 Hev Hd _ IH]; intros evs0 Hw; [by rewrite app_nil_r|].
  assert (Hno : ~ early_read w ev) by (intros He; by rewrite (early_read_faults evs0 w ev Hw Hev He) in Hd).
  destruct (deliver_total evs0 w ev Hw Hev Hno) as (w1' & Hd' & Hs). rewrite Hd in Hd'. injection Hd' as <-.
  apply IH in Hs. by rewrite <- app_assoc in Hs.
Qed.

Lemma started_total w0 :
  fresh w0 -> exists rc w1, ngx_autocert_acme_request I E w0 = Ret rc w1 /\ started_well I E rc w1.
Proof.
  intros Hf. pose proof (wp_request I E Hpr w0 Hf) as H. unfold wp in H.
  destruct (ngx_autocert_acme_request I E w0) as [rc w1| | |]; try done. by exists rc, w1.
Qed.

Lemma under_way_state w0 evs w : under_way w0 evs w -> state_of evs w.
Proof.
  intros (Hf & w1 & Hr & Hp). apply (path_state w1 evs w [] Hp). destruct (started_total w0 Hf) as (rc & w1' & Hr' & Hs).
  rewrite Hr in Hr'. injection Hr' as <- <-. destruct Hs as [[_ [Hs|Hs]]|[Hs _]]; [by left|by right; left|done].
Qed.

(** *** Receiving *)

Lemma receiving_goes_on d w ev w' :
  receiving I E d w -> can_happen w ev -> deliver I E ev w = Ret tt w' -> receiving I E d w' \/ ended I E w'.
Proof.
  intros (Hw & Hr & Hd) Hev Hdel. assert (H : wp (deliver I E ev) w (fun _ w' => receiving I E d w' \/ ended I E w') (fun _ => False)).
  2: { unfold wp in H. by rewrite Hdel in H. }
  destruct Hw as [| | | |u ip h s t rd d' nx k now Hg Hv Hroom Hw Ht Ht' Hdl]; try done. cbn in Hd. subst d'.
  pose proof (wp_timeout I E _ (waits_receive I E u ip h s t rd d nx k now Hg Hv Hroom Hw Ht Ht' Hdl)) as Hout.
  assert (Hstay : forall now', now <= now' -> receiving I E d (World true (Req (Some u) ip false None (Some (Conn h (Some (Tls s true)) ReadHandler WriteHandler (Some t) None)) [] (Some rd) d)
               This [s; h] nx k now' (request_for I u) [])).
  { intros now' Hn. split; [apply (waits_receive I E u ip h s t); try done; lia|done]. }
  destruct ev as [st n|[]|[]| |tm]; cbn in Hev.
  - by destruct Hev.
  - apply wp_bind. eapply wp_get_conn; [done|]. cbn [c_read run_handler].
    eapply wp_mono; [exact Hout| |done]. intros [] w1 [Ho _]. right. by left.
  - apply wp_bind. eapply wp_get_conn; [done|]. eapply wp_mono; [by apply wp_read_handler| |done].
    intros [] w1 [Hs|Hs]; [by left|right; by left].
  - destruct Hev as (_ & c & [= <-] & Hdue). by specialize (Hdue eq_refl).
  - apply wp_bind. eapply wp_get_conn; [done|]. apply wp_bind, wp_get_req, wp_ret. left. by apply Hstay.
  - eapply wp_mono; [apply (wp_cancel I E); by apply (waits_receive I E u ip h s t)| |done]. intros [] w1 Hs. right. by right.
  - apply wp_modw. left. by apply Hstay.
Qed.

Lemma wp_deliver_ended w ev : ended I E w -> can_happen w ev -> wp (deliver I E ev) w (fun _ w' => ended I E w') (fun _ => False).
Proof.
  intros [Hw|Hw] Hev.
  - eapply wp_mono; [by apply wp_deliver_over| |done]. intros [] w' Hs. by left.
  - eapply wp_mono; [by apply wp_deliver_cancelled| |done]. intros [] w' Hs. by right.
Qed.

Lemma receiving_lasts d w evs w' : path w evs w' -> receiving I E d w \/ ended I E w -> receiving I E d w' \/ ended I E w'.
Proof.
  induction 1 as [|w ev w1 evs w2 Hev Hd _ IH]; [done|]. intros [Hw|Hw]; apply IH; [by eapply receiving_goes_on|].
  right. pose proof (wp_deliver_ended w ev Hw Hev) as H. unfold wp in H. by rewrite Hd in H.
Qed.
End Runs.

(** ** An example *)

Definition input_ex : input :=
  Input (str "POST") (str "https://ca.example/dir") (str "{}") [] (Client (str "ca.example") 443 false true) true 5000 10000.

Definition reply_text : bytes := str "HTTP/1.1 200 OK" ++ CRLF ++ str "Content-Length: 2" ++ CRLF ++ CRLF ++ str "ok".

(** As much of a text as the buffer takes. *)
Definition feed (text : bytes) (rd : reader) : list recv_result :=
  let cap := if (recv_cap rd - length (recv_buf rd) =? 0)%nat then NGX_AUTOCERT_RECV_MAX else recv_cap rd in
  match take (cap - length (recv_buf rd)) text with [] => [] | x => [RecvData x] end.

(** Every call succeeds; the handshake and the response need a second event each. *)
Definition env_ex (answers : nat -> bool) : env :=
  Env (fun _ => true) (fun _ _ => false) (fun _ => Started) (fun _ => LookupPending) (fun _ => PeerAgain)
    (fun _ => false) (fun _ => true) (fun _ _ => true) (fun n => if answers n then HandshakeDone else HandshakeAgain)
    (fun _ => X509_V_OK) (fun _ => true) (fun _ _ => 1) (fun _ _ => true) (fun _ => true)
    (fun _ s => match s with [] => SendAgain | _ => Sent (length s) end)
    (fun n rd => if answers n then feed reply_text rd else []) (fun _ => false).

Definition world_ex : world := World true req0 Nobody [] 0 0 1000 [] [].

Definition events_ex : list event :=
  [EResolved 0 1; EWrite false; EClock 1500; ERead false; ERead false].

Fixpoint play (I : input) (E : env) (evs : list event) : prog world unit :=
  match evs with [] => ret tt | ev :: evs => deliver I E ev;; play I E evs end.
Lemma recv_fits_feed text rd : recv_fits (length (recv_buf rd)) (recv_cap rd) (feed text rd).
Proof.
  unfold feed. destruct (take _ text) as [|c x] eqn:Et; [done|]. split; [|done]. rewrite <- Et. rewrite length_take.
  apply (f_equal length) in Et. rewrite length_take in Et. cbn in Et. lia.
Qed.

Lemma promises_ex f : promises input_ex (env_ex f).
Proof.
  constructor.
  - by repeat constructor.
  - by vm_compute.
  - intros n [|c s] k; [done|]. cbn. intros [= <-]. cbn; lia.
  - intros n rd. cbn [env_ex recvs]. destruct (f n); [apply recv_fits_feed|done].
Qed.

Lemma fresh_ex : fresh world_ex.
Proof. by exists Nobody, 0%nat, 0%nat, 1000. Qed.

(** When the handshake and the response are there. *)
Definition answers_ex (n : nat) : bool := (n =? 11)%nat || (19 <=? n)%nat.

(** The example after its start and after each event. *)
Definition worlds_ex : list world :=
  Eval vm_compute in
    match ngx_autocert_acme_request input_ex (env_ex answers_ex) world_ex with
    | Ret _ w =>
        map (fun n => match play input_ex (env_ex answers_ex) (take n events_ex) w with Ret _ w' => w' | _ => w end)
            (seq 0 (S (length events_ex)))
    | _ => []
    end.

Lemma under_way_step I E w0 evs w ev w' :
  under_way I E w0 evs w -> can_happen w ev -> deliver I E ev w = Ret tt w' -> under_way I E w0 (evs ++ [ev]) w'.
Proof.
  intros (Hf & w1 & Hr & Hp) Hev Hd. split; [done|]. exists w1. split; [done|].
  clear Hf Hr. induction Hp as [w|w ev0 w2 evs w3 Hev0 Hd0 _ IH]; cbn [app]; [by apply (path_cons _ _ w ev w'); [..|constructor]|].
  eapply path_cons; [done|done|]. by apply IH.
Qed.

Lemma under_way_ex n w :
  worlds_ex !! n = Some w -> under_way input_ex (env_ex answers_ex) world_ex (take n events_ex) w.
Proof.
  pose (goes n := under_way input_ex (env_ex answers_ex) world_ex (take n events_ex) (nth n worlds_ex world_ex)).
  assert (H0 : goes 0%nat) by (split; [apply fresh_ex|]; exists (nth 0 worlds_ex world_ex); split; [by vm_compute|constructor]).
  assert (Hnext : forall n ev, goes n -> take n events_ex ++ [ev] = take (S n) events_ex ->
            can_happen (nth n worlds_ex world_ex) ev ->
            deliver input_ex (env_ex answers_ex) ev (nth n worlds_ex world_ex) = Ret tt (nth (S n) worlds_ex world_ex) -> goes (S n)).
  { intros m ev Hm Htake Hev Hd. unfold goes. rewrite <- Htake. by eapply under_way_step. }
  assert (H1 : goes 1%nat) by (by apply (Hnext 0%nat (EResolved 0 1) H0); vm_compute).
  assert (H2 : goes 2%nat) by (apply (Hnext 1%nat (EWrite false) H1); [by vm_compute|split; [done|by eexists]|by vm_compute]).
  assert (H3 : goes 3%nat) by (by apply (Hnext 2%nat (EClock 1500) H2); vm_compute).
  assert (H4 : goes 4%nat) by (apply (Hnext 3%nat (ERead false) H3); [by vm_compute|split; [done|by eexists]|by vm_compute]).
  assert (H5 : goes 5%nat) by (apply (Hnext 4%nat (ERead false) H4); [by vm_compute|split; [done|by eexists]|by vm_compute]).
  intros Hn. do 6 (destruct n as [|n]; [by injection Hn as <-|]). done.
Qed.

(** ** What a request promises *)

Lemma early_read_dec w ev : early_read w ev \/ ~ early_read w ev.
Proof.
  destruct ev as [|to| | |]; try (right; exact id). destruct (r_conn (w_req w)) as [c|] eqn:Ec; [|right; intros (c & E & _); congruence].
  destruct (c_read c) eqn:Er, (r_recv (w_req w)) eqn:Ev; try (right; intros (c' & E1 & E2 & E3); congruence).
  left. by exists c.
Qed.

(** C35. A request that cannot be started is the caller's again: its handler is not called,
    no event of it is pending and cancelling does not know it.  One that was started is,
    after any events, either in flight, its handler not called, or over: its handler was
    called exactly once, or it was cancelled and its handler was not called; then its
    connection is closed and its resolver context released, nothing is held but, where the
    server name could not be set, a TLS object ([server_name_leak]).  Whatever event comes
    next is handled without a read of what was released or a dereference of NULL, but for
    one, which does dereference NULL: a read event while the request is still being sent. *)
Theorem http_request_completes_once (I : input) (E : env) (w0 : world) :
  promises I E -> fresh w0 ->
  exists rc w1, ngx_autocert_acme_request I E w0 = Ret rc w1
  /\ (rc = NGX_ERROR /\ refused E w1
      \/ rc = NGX_OK /\ forall evs w, path I E w1 evs w ->
           (if w_pool w then w_completed w = [] /\ w_inflight w = This
            else w_inflight w = Nobody /\ r_conn (w_req w) = None /\ r_resolve (w_req w) = None /\ leaks E (w_held w)
                 /\ (w_completed w = [NGX_OK] \/ w_completed w = [NGX_ERROR] \/ w_completed w = [] /\ ECancel ∈ evs))
           /\ forall ev, can_happen w ev ->
                early_read w ev /\ deliver I E ev w = Fault \/ ~ early_read w ev /\ exists w', deliver I E ev w = Ret tt w').
Proof.
  intros Hpr Hf. destruct (started_total I E Hpr w0 Hf) as (rc & w1 & Hr & Hs). exists rc, w1. split; [done|].
  destruct Hs as [[-> Hs]|Hs]; [right; split; [done|]|by left]. intros evs w Hp.
  assert (Hst : state_of I E evs w) by (apply (under_way_state I E Hpr w0); split; [done|by exists w1]).
  split.
  2: { intros ev Hev. destruct (early_read_dec w ev) as [He|He]; [left; split; [done|by eapply early_read_faults]|right; split; [done|]].
       destruct (deliver_total I E Hpr evs w ev Hst Hev He) as (w' & Hd & _). by exists w'. }
  destruct Hst as [Hw|[Ho|[Hc Hin]]].
  - by destruct Hw.
  - destruct Ho; cbn; repeat (split; [first [done|apply no_leak]|]); naive_solver.
  - destruct Hc; cbn. repeat (split; [first [done|apply no_leak]|]). by right; right.
Qed.

Lemma http_request_completes_once_witness :
  exists rc w1, ngx_autocert_acme_request input_ex (env_ex answers_ex) world_ex = Ret rc w1
  /\ (rc = NGX_ERROR /\ refused (env_ex answers_ex) w1
      \/ rc = NGX_OK /\ forall evs w, path input_ex (env_ex answers_ex) w1 evs w ->
           (if w_pool w then w_completed w = [] /\ w_inflight w = This
            else w_inflight w = Nobody /\ r_conn (w_req w) = None /\ r_resolve (w_req w) = None
                 /\ leaks (env_ex answers_ex) (w_held w)
                 /\ (w_completed w = [NGX_OK] \/ w_completed w = [NGX_ERROR] \/ w_completed w = [] /\ ECancel ∈ evs))
           /\ forall ev, can_happen w ev ->
                early_read w ev /\ deliver input_ex (env_ex answers_ex) ev w = Fault
                \/ ~ early_read w ev /\ exists w', deliver input_ex (env_ex answers_ex) ev w = Ret tt w').
Proof. exact (http_request_completes_once input_ex (env_ex answers_ex) world_ex (promises_ex answers_ex) fresh_ex). Defined.

(** C34. Nothing is sent before the peer's certificate has been verified, chain and host
    name, for the host of a URL on the pinned origin; what is sent is then the start of
    the request for that URL and nothing else.  Success is reported only once the whole
    request has been sent to such a peer and its response has been received to the end of
    its framing. *)
Theorem http_request_speaks_to_the_ca (I : input) (E : env) (w0 : world) (evs : list event) (w : world) :
  promises I E -> under_way I E w0 evs w ->
  (w_sent w = [] \/ exists u ip, good I u /\ verified E u ip /\ w_sent w `prefix_of` request_for I u)
  /\ (w_completed w = [NGX_OK] ->
      exists u rd, r_url (w_req w) = Some u /\ good I u /\ verified E u (r_host_is_ip (w_req w))
        /\ w_sent w = request_for I u /\ r_recv (w_req w) = Some rd /\ received rd).
Proof.
  intros Hpr Hu. destruct (under_way_state I E Hpr w0 evs w Hu) as [Hw|[Ho|[Hc _]]].
  - apply waits_shape in Hw as (r & nx & k & now & sent & -> & _ & Hs). by split.
  - destruct Ho as [r l nx k now sent Hd Hr Hc Hl Hs|u ip rd d nx k now Hg Hv Hrec]; [by split|].
    split; [|intros _; by exists u, rd]. by apply (spoken_part I E u ip _ []); rewrite ?app_nil_r.
  - by destruct Hc.
Qed.

Lemma http_request_speaks_to_the_ca_witness :
  let w := nth 5 worlds_ex world_ex in
  w_completed w = [NGX_OK]
  /\ exists u rd, r_url (w_req w) = Some u /\ good input_ex u /\ verified (env_ex answers_ex) u (r_host_is_ip (w_req w))
       /\ w_sent w = request_for input_ex u /\ r_recv (w_req w) = Some rd /\ received rd.
Proof.
  split; [done|].
  exact (proj2 (http_request_speaks_to_the_ca input_ex (env_ex answers_ex) world_ex _ _ (promises_ex answers_ex)
                  (under_way_ex 5 _ eq_refl)) eq_refl).
Defined.

(** The timer that runs, with its event. *)
Definition alarm (w : world) : option (Z * event) :=
  match r_conn (w_req w) with
  | None => None
  | Some c =>
      match c_read_timer c, c_write_timer c with
      | Some t, _ => Some (t, ERead true)
      | None, Some t => Some (t, EWrite true)
      | None, None => None
      end
  end.

(** C36. A request in flight waits for the resolver, or a timer of its connection runs that
    is set no further ahead than the longer of the two timeouts; and once that timer has
    run out its event can be delivered and ends the request with an error, nothing held. *)
Theorem http_request_cannot_hang (I : input) (E : env) (w0 : world) (evs : list event) (w : world) :
  promises I E -> under_way I E w0 evs w -> w_pool w = true ->
  r_resolve (w_req w) <> None
  \/ exists t ev, alarm w = Some (t, ev) /\ t <= w_now w + Z.max (i_connect_timeout I) (i_timeout I)
       /\ forall now, w_now w <= now -> t <= now ->
            can_happen (set_clock now w) ev
            /\ exists w', deliver I E ev (set_clock now w) = Ret tt w' /\ w_completed w' = [NGX_ERROR] /\ w_held w' = [].
Proof.
  intros Hpr Hu Hp. assert (Hw : waits I E w).
  { destruct (under_way_state I E Hpr w0 evs w Hu) as [Hw|[Ho|[Hc _]]]; [done|by destruct Ho|by destruct Hc]. }
  assert (Hend : forall now ev, w_now w <= now -> can_happen (set_clock now w) ev ->
    deliver I E ev (set_clock now w) = ngx_autocert_acme_finalize NGX_ERROR (set_clock now w) ->
    exists w', deliver I E ev (set_clock now w) = Ret tt w' /\ w_completed w' = [NGX_ERROR] /\ w_held w' = []).
  { intros now ev Hn Hev ->. assert (Hlater : waits I E (set_clock now w)).
    { pose proof (wp_deliver_waits I E Hpr w (EClock now) Hw Hn (fun e => e)) as H. destruct (H ltac:(done)) as [?|Ho]; [done|]. exfalso. destruct Hw; inversion Ho. }
    pose proof (wp_timeout I E _ Hlater) as H. unfold wp in H. destruct (ngx_autocert_acme_finalize _ _) as [[] w'| | |]; try done.
    exists w'. by destruct H as [_ ?]. }
  destruct Hw; cbn in Hend |- *; [by left|right; do 2 eexists; (split; [done|]); (split; [lia|]); intros now' Hn Ht..].
  all: (split; [|apply Hend; [done| |done]]); (split; [done|]); by eexists.
Qed.

Lemma http_request_cannot_hang_witness :
  let w := nth 2 worlds_ex world_ex in
  r_resolve (w_req w) <> None
  \/ exists t ev, alarm w = Some (t, ev) /\ t <= w_now w + Z.max 5000 10000
       /\ forall now, w_now w <= now -> t <= now ->
            can_happen (set_clock now w) ev
            /\ exists w', deliver input_ex (env_ex answers_ex) ev (set_clock now w) = Ret tt w'
                 /\ w_completed w' = [NGX_ERROR] /\ w_held w' = [].
Proof.
  exact (http_request_cannot_hang input_ex (env_ex answers_ex) world_ex _ _ (promises_ex answers_ex)
           (under_way_ex 2 _ eq_refl) eq_refl).
Defined.

(** Receiving is bounded as a whole, in time and space: the deadline is at most a minute
    away at any time and never moves; as long as the response is being received the timer
    that runs is the read timer, which runs out by then, and what has been received is no
    more than 256 KiB. *)
Theorem http_request_receive_deadline (I : input) (E : env) (w0 : world) (evs : list event) (w : world) :
  promises I E -> under_way I E w0 evs w -> w_pool w = true -> r_recv (w_req w) <> None ->
  r_deadline (w_req w) <= w_now w + 60000
  /\ forall evs' w', path I E w evs' w' -> w_pool w' = true ->
       (exists t, alarm w' = Some (t, ERead true) /\ t <= r_deadline (w_req w))
       /\ exists rd, r_recv (w_req w') = Some rd /\ (length (recv_buf rd) <= NGX_AUTOCERT_RECV_MAX)%nat.
Proof.
  intros Hpr Hu Hp Hrv. assert (Hw : waits I E w).
  { destruct (under_way_state I E Hpr w0 evs w Hu) as [Hw|[Ho|[Hc _]]]; [done|by destruct Ho|by destruct Hc]. }
  split; [by destruct Hw|]. intros evs' w' Hpath Hp'.
  apply (receiving_lasts I E Hpr (r_deadline (w_req w))) in Hpath as [(Hw' & Hr' & Hd')|He]; [| |by left].
  - destruct Hw' as [| | | |u ip h s t rd d nx k now Hg Hv [Hlen Hcap]]; try done. cbn in Hd' |- *.
    split; eexists; (split; [done|]); lia.
  - destruct He as [Ho|Hc]; [by destruct Ho|by destruct Hc].
Qed.

Lemma http_request_receive_deadline_witness :
  let w := nth 4 worlds_ex world_ex in
  r_deadline (w_req w) <= w_now w + 60000
  /\ forall evs' w', path input_ex (env_ex answers_ex) w evs' w' -> w_pool w' = true ->
       (exists t, alarm w' = Some (t, ERead true) /\ t <= r_deadline (w_req w))
       /\ exists rd, r_recv (w_req w') = Some rd /\ (length (recv_buf rd) <= NGX_AUTOCERT_RECV_MAX)%nat.
Proof.
  exact (http_request_receive_deadline input_ex (env_ex answers_ex) world_ex _ _ (promises_ex answers_ex)
           (under_way_ex 4 _ eq_refl) eq_refl ltac:(done)).
Defined.

(** ** Two defects *)

(** A read event while the request is still being sent reads through the receive buffer
    that is not there yet. *)
Lemma http_read_while_sending_faults I E w c :
  w_pool w = true -> r_conn (w_req w) = Some c -> c_read c = ReadHandler -> r_recv (w_req w) = None ->
  deliver I E (ERead false) w = Fault.
Proof.
  destruct w as [p [u ip d rs rc sd rv dl] o l nx k now s cs], c as [h tl rd wr rt wt]. cbn.
  intros -> [= ->] -> ->. reflexivity.
Qed.

(** The example with a connection that takes no byte at first. *)
Definition env_slow : env :=
  Env (fun _ => true) (fun _ _ => false) (fun _ => Started) (fun _ => LookupPending) (fun _ => PeerAgain)
    (fun _ => false) (fun _ => true) (fun _ _ => true) (fun _ => HandshakeDone)
    (fun _ => X509_V_OK) (fun _ => true) (fun _ _ => 1) (fun _ _ => true) (fun _ => true)
    (fun _ _ => SendAgain) (fun _ _ => []) (fun _ => false).

Example read_while_sending :
  bind (ngx_autocert_acme_request input_ex env_slow) (fun _ => play input_ex env_slow [EResolved 0 1; EWrite false; ERead false]) world_ex
  = Fault.
Proof. by vm_compute. Qed.

(** The example with a server name that cannot be set, on a connection made at once. *)
Definition env_no_sni : env :=
  Env (fun _ => true) (fun _ _ => false) (fun _ => Started) (fun _ => LookupDone 0 1) (fun _ => PeerOk)
    (fun _ => false) (fun _ => true) (fun _ _ => false) (fun _ => HandshakeDone)
    (fun _ => X509_V_OK) (fun _ => true) (fun _ _ => 1) (fun _ _ => true) (fun _ => true)
    (fun _ _ => SendAgain) (fun _ _ => []) (fun _ => false).

Example server_name_leak :
  match ngx_autocert_acme_request input_ex env_no_sni world_ex with
  | Ret rc w => rc = NGX_OK /\ w_completed w = [NGX_ERROR] /\ w_held w = [2%nat]
  | _ => False
  end.
Proof. by vm_compute. Qed.
