(* ===== verification/Rbtree.v ===== *)
(** * The red-black trees of the shared zones

    The three zones (HTTP-01 tokens, TLS-ALPN certificates, runtime requests)
    keep their nodes in an nginx red-black tree ordered by (crc32 of the name,
    length of the name, bytes of the name).  The insertion order and the search
    are the module's own code; rebalancing, deletion and the in-order walk are
    nginx's, described by the class [NgxRbtree]. *)

From stdpp Require Import sorting.
From S2P Require Import Prelude NgxCore.

Local Open Scope Z_scope.

(** A node: where it lives, the hash under which it is filed, its length field
    and name (inline in the node) and the rest of its fields. *)
Record node (P : Type) := Node {
  n_addr : nat; n_key : Z; n_len : Z; n_name : bytes; n_val : P }.
Arguments Node {P}.
Arguments n_addr {P}.
Arguments n_key {P}.
Arguments n_len {P}.
Arguments n_name {P}.
Arguments n_val {P}.

(** [Leaf] is the sentinel. *)
Inductive tree (P : Type) :=
  | Leaf
  | Branch (l : tree P) (x : node P) (r : tree P).
Arguments Leaf {P}.
Arguments Branch {P}.

Fixpoint inorder {P} (t : tree P) : list (node P) :=
  match t with
  | Leaf => []
  | Branch l x r => inorder l ++ x :: inorder r
  end.

(** Writing to the fields of the node at an address. *)
Fixpoint update {P} (a : nat) (f : P -> P) (t : tree P) : tree P :=
  match t with
  | Leaf => Leaf
  | Branch l x r =>
      Branch (update a f l)
        (if (n_addr x =? a)%nat then Node (n_addr x) (n_key x) (n_len x) (n_name x) (f (n_val x)) else x)
        (update a f r)
  end.

(** What nginx's red-black tree does beyond the plain descent: recolouring and
    rotations after an insertion, the removal of a node, and the walk
    [ngx_rbtree_min] / [ngx_rbtree_next].  The documented effect of the first two
    on the order of the nodes is all the module relies on. *)
Class NgxRbtree := {
  rb_fixup : forall {P}, tree P -> tree P;
  rb_delete : forall {P}, nat -> tree P -> tree P;
  rb_fixup_inorder : forall {P} (t : tree P), inorder (rb_fixup t) = inorder t;
  rb_delete_inorder : forall {P} a (t : tree P),
    inorder (rb_delete a t) = filter (fun x => n_addr x <> a) (inorder t) }.

(** The successive nodes of [for (node = ngx_rbtree_min(...); node != NULL;
    node = ngx_rbtree_next(...))]. *)
Definition rb_walk {P} (t : tree P) : list (node P) := inorder t.

(** ** The module's code *)

(** Does [node] go to the left of [temp]?  [None]: a read outside a name. *)
Definition goes_left {P} (x temp : node P) : option bool :=
  if negb (n_key x =? n_key temp) then Some (n_key x <? n_key temp)
  else if negb (n_len x =? n_len temp) then Some (n_len x <? n_len temp)
  else (fun r => r <? 0) <$> ngx_memcmp (n_name x) (n_name temp) (Z.to_nat (n_len x)).

Fixpoint insert_value {P} (temp : tree P) (x : node P) : option (tree P) :=
  match temp with
  | Leaf => Some (Branch Leaf x Leaf)
  | Branch l y r =>
      match goes_left x y with
      | None => None
      | Some true => (fun l' => Branch l' y r) <$> insert_value l x
      | Some false => (fun r' => Branch l y r') <$> insert_value r x
      end
  end.

(** [ngx_rbtree_insert], with the insert function the tree was initialized with. *)
Definition ngx_rbtree_insert `{NgxRbtree} {P} (insert : tree P -> node P -> option (tree P))
    (t : tree P) (x : node P) : option (tree P) :=
  match t with
  | Leaf => Some (Branch Leaf x Leaf)
  | _ => rb_fixup <$> insert t x
  end.

(** The search: [Some None] when absent, [None] a read outside a name. *)
Fixpoint lookup {P} (t : tree P) (name : bytes) (hash : Z) : option (option (node P)) :=
  match t with
  | Leaf => Some None
  | Branch l x r =>
      if hash <? n_key x then lookup l name hash
      else if n_key x <? hash then lookup r name hash
      else if negb (Z.of_nat (length name) =? n_len x) then
        if Z.of_nat (length name) <? n_len x then lookup l name hash else lookup r name hash
      else
        match ngx_memcmp name (n_name x) (length name) with
        | None => None
        | Some rc =>
            if rc =? 0 then Some (Some x)
            else if rc <? 0 then lookup l name hash else lookup r name hash
        end
  end.

(** ** The order *)

Fixpoint blt (a b : bytes) : Prop :=
  match a, b with
  | x :: a', y :: b' => x < y \/ x = y /\ blt a' b'
  | _, _ => False
  end.

Definition klt (k1 k2 : Z * bytes) : Prop :=
  k1.1 < k2.1
  \/ k1.1 = k2.1 /\ ((length k1.2 < length k2.2)%nat \/ length k1.2 = length k2.2 /\ blt k1.2 k2.2).

Definition nk {P} (x : node P) : Z * bytes := (n_key x, n_name x).
Definition nlt {P} (x y : node P) : Prop := klt (nk x) (nk y).

Definition bst {P} (t : tree P) : Prop :=
  StronglySorted nlt (inorder t) /\ Forall (fun x => n_len x = Z.of_nat (length (n_name x))) (inorder t).

Lemma blt_irrefl a : ~ blt a a.
Proof. induction a as [|x a IH]; simpl; [tauto|]. intros [?|[_ ?]]; [lia|tauto]. Qed.

Lemma blt_trans a b c : blt a b -> blt b c -> blt a c.
Proof.
  revert b c. induction a as [|x a IH]; intros [|y b] [|z c]; simpl; try tauto.
  intros [?|[-> H1]] [?|[-> H2]]; [left; lia..|]. right. split; [done|by eapply IH].
Qed.

Lemma klt_irrefl k : ~ klt k k.
Proof. intros [?|[_ [?|[_ H]]]]; [lia|lia|by apply blt_irrefl in H]. Qed.

Lemma klt_trans k1 k2 k3 : klt k1 k2 -> klt k2 k3 -> klt k1 k3.
Proof.
  unfold klt. intros [?|[E1 H1]] [?|[E2 H2]]; [left; lia..|]. right. split; [lia|].
  destruct H1 as [?|[L1 H1]], H2 as [?|[L2 H2]]; [left; lia..|]. right. split; [lia|by eapply blt_trans].
Qed.

#[export] Instance nlt_transitive P : Transitive (@nlt P).
Proof. intros x y z. apply klt_trans. Qed.

Lemma memcmp_order a b :
  length a = length b ->
  exists r, ngx_memcmp a b (length a) = Some r
  /\ (r < 0 <-> blt a b) /\ (r = 0 <-> a = b) /\ (0 < r <-> blt b a).
Proof.
  revert b. induction a as [|x a IH]; intros [|y b] Hl; try done.
  - exists 0. simpl. split; [done|]. repeat split; lia.
  - injection Hl as Hl. destruct (IH b Hl) as (r & Er & H1 & H2 & H3). simpl.
    destruct (Z.eqb_spec x y) as [->|Hne].
    + exists r. split; [done|]. assert (E : y :: a = y :: b <-> a = b) by (split; congruence).
      rewrite E, H1, H2, H3. repeat split; [right; tauto|intros [?|[_ ?]]; [lia|tauto]|tauto|tauto|right; tauto|].
      intros [?|[_ ?]]; [lia|tauto].
    + assert (E : x :: a <> y :: b) by congruence.
      destruct (Z.ltb_spec x y); eexists; (split; [done|]); repeat split; intros; try lia; tauto.
Qed.

Lemma klt_cases h a k b :
  (h < k -> klt (h, a) (k, b)) /\ (k < h -> klt (k, b) (h, a))
  /\ (h = k -> (length a < length b)%nat -> klt (h, a) (k, b))
  /\ (h = k -> (length b < length a)%nat -> klt (k, b) (h, a)).
Proof. unfold klt. simpl. repeat split; intros; auto. Qed.

(** The comparison of the insertion is the order. *)
Lemma goes_left_spec {P} (x y : node P) :
  n_len x = Z.of_nat (length (n_name x)) -> n_len y = Z.of_nat (length (n_name y)) -> nk x <> nk y ->
  exists b, goes_left x y = Some b /\ if b then nlt x y else nlt y x.
Proof.
  intros Hx Hy Hne. unfold goes_left, nlt, nk in *. rewrite Hx, Hy.
  destruct (klt_cases (n_key x) (n_name x) (n_key y) (n_name y)) as (C1 & C2 & C3 & C4).
  destruct (Z.eqb_spec (n_key x) (n_key y)) as [Ek|]; simpl.
  - destruct (Z.eqb_spec (Z.of_nat (length (n_name x))) (Z.of_nat (length (n_name y)))) as [El|]; simpl.
    + rewrite Nat2Z.id. destruct (memcmp_order (n_name x) (n_name y)) as (r & -> & H1 & H2 & H3); [lia|].
      simpl. eexists. split; [done|]. unfold klt. simpl. rewrite Ek in *.
      destruct (Z.ltb_spec r 0); [right; split; [done|]; right; split; [lia|tauto]|].
      right. split; [done|]. right. split; [lia|]. apply H3. destruct (decide (r = 0)) as [E|]; [|lia].
      exfalso. apply Hne. f_equal. by apply H2.
    + eexists. split; [done|]. destruct (Z.ltb_spec (Z.of_nat (length (n_name x))) (Z.of_nat (length (n_name y))));
        [apply C3|apply C4]; lia.
  - eexists. split; [done|]. destruct (Z.ltb_spec (n_key x) (n_key y)); [apply C1|apply C2]; lia.
Qed.

Lemma sorted_insert {A} (R : relation A) `{!Transitive R} (l1 l2 : list A) x :
  StronglySorted R (l1 ++ l2) -> Forall (fun y => R y x) l1 -> Forall (R x) l2 ->
  StronglySorted R (l1 ++ x :: l2).
Proof.
  intros Hs H1 H2. apply StronglySorted_app in Hs as (Hc & Hs1 & Hs2).
  rewrite Forall_forall in H1, H2. apply StronglySorted_app. repeat split.
  - intros y z Hy [-> | Hz]%elem_of_cons; [by apply H1|by apply Hc].
  - done.
  - constructor; [done|]. by apply Forall_forall.
Qed.

Ltac in_list := rewrite ?elem_of_app, ?elem_of_cons; tauto.

Lemma insert_value_spec {P} (t : tree P) (x : node P) :
  bst t -> n_len x = Z.of_nat (length (n_name x)) -> (forall y, y ∈ inorder t -> nk y <> nk x) ->
  exists t' l1 l2, insert_value t x = Some t' /\ inorder t = l1 ++ l2 /\ inorder t' = l1 ++ x :: l2
  /\ Forall (fun y => nlt y x) l1 /\ Forall (nlt x) l2.
Proof.
  induction t as [|l IHl y r IHr]; intros [Hs Hl] Hx Hne; simpl in *; [by exists (Branch Leaf x Leaf), [], []|].
  apply StronglySorted_app in Hs as (Hc & Hsl & Hsr). apply Forall_app in Hl as [Hll Hlr].
  inversion Hsr as [|? ? Hsr' Hyr]; subst. inversion Hlr as [|? ? Hy Hlr']; subst.
  destruct (goes_left_spec x y Hx Hy) as (b & -> & Hb); [intros E; apply (Hne y); [in_list|done]|].
  destruct b.
  - destruct IHl as (t' & l1 & l2 & E & Eo & Eo' & H1 & H2); [done|done|intros z Hz; apply Hne; in_list|].
    rewrite E. exists (Branch t' y r), l1, (l2 ++ y :: inorder r). simpl. rewrite Eo, Eo', <- !app_assoc.
    do 4 (split; [done|]). apply Forall_app. split; [done|]. constructor; [done|].
    eapply Forall_impl; [exact Hyr|]. intros z Hz. by transitivity y.
  - destruct IHr as (t' & l1 & l2 & E & Eo & Eo' & H1 & H2); [done|done|intros z Hz; apply Hne; in_list|].
    rewrite E. exists (Branch l y t'), (inorder l ++ y :: l1), l2. simpl. rewrite Eo, Eo', <- !app_assoc.
    do 3 (split; [done|]). split; [|done]. apply Forall_app. split; [|by constructor].
    apply Forall_forall. intros z Hz. transitivity y; [apply Hc; [done|in_list]|done].
Qed.

(** ** What the operations do to the sorted sequence of nodes *)

Section Ops.
Context `{RB : NgxRbtree} {P : Type}.
Implicit Types (t : tree P) (x y : node P).

Lemma insert_spec t x :
  bst t -> n_len x = Z.of_nat (length (n_name x)) -> (forall y, y ∈ inorder t -> nk y <> nk x) ->
  exists t', ngx_rbtree_insert insert_value t x = Some t' /\ bst t' /\ inorder t' ≡ₚ x :: inorder t.
Proof.
  intros Hb Hx Hne. destruct (insert_value_spec t x Hb Hx Hne) as (t' & l1 & l2 & E & Eo & Eo' & H1 & H2).
  assert (Hs : StronglySorted nlt (inorder t') /\ Forall (fun x => n_len x = Z.of_nat (length (n_name x))) (inorder t')
               /\ inorder t' ≡ₚ x :: inorder t).
  { destruct Hb as [Hs Hl]. rewrite Eo in Hs, Hl. apply Forall_app in Hl as [Hl1 Hl2]. rewrite Eo'.
    repeat split; [by apply (sorted_insert _)|apply Forall_app; split; [done|by constructor]|].
    by rewrite Eo, Permutation_middle. }
  destruct Hs as (Hs & Hl & Hp). unfold ngx_rbtree_insert. destruct t as [|l y r].
  - exists t'. by injection E as <-.
  - exists (rb_fixup t'). rewrite E. split; [done|]. unfold bst. by rewrite rb_fixup_inorder.
Qed.

Lemma nk_inj t x y : bst t -> x ∈ inorder t -> y ∈ inorder t -> nk x = nk y -> x = y.
Proof.
  intros [Hs _] Hx Hy E. apply list_elem_of_split in Hx as (l1 & l2 & El). rewrite El in Hs, Hy.
  apply StronglySorted_app in Hs as (Hc & Hs1 & Hs2). inversion Hs2 as [|? ? _ Hf]; subst.
  rewrite Forall_forall in Hf. apply elem_of_app in Hy as [Hy|[-> | Hy]%elem_of_cons]; [|done|].
  - exfalso. specialize (Hc y x Hy ltac:(left)). unfold nlt in Hc. rewrite E in Hc. by apply klt_irrefl in Hc.
  - exfalso. specialize (Hf y Hy). unfold nlt in Hf. rewrite E in Hf. by apply klt_irrefl in Hf.
Qed.

Lemma lookup_spec t name hash :
  bst t ->
  exists o, lookup t name hash = Some o
  /\ match o with
     | Some x => x ∈ inorder t /\ nk x = (hash, name)
     | None => forall x, x ∈ inorder t -> nk x <> (hash, name)
     end.
Proof.
  set (k := (hash, name)). induction t as [|l IHl y r IHr]; intros [Hs Hl]; simpl in *.
  { exists None. split; [done|]. intros x Hx. by apply elem_of_nil in Hx. }
  apply StronglySorted_app in Hs as (Hc & Hsl & Hsr). apply Forall_app in Hl as [Hll Hlr].
  inversion Hsr as [|? ? Hsr' Hyr]; subst. inversion Hlr as [|? ? Hy Hlr']; subst. rewrite Forall_forall in Hyr.
  assert (Hleft : klt k (nk y) -> exists o, lookup l name hash = Some o
    /\ match o with Some x => x ∈ inorder l ++ y :: inorder r /\ nk x = k
       | None => forall x, x ∈ inorder l ++ y :: inorder r -> nk x <> k end).
  { intros Hk. destruct (IHl (conj Hsl Hll)) as (o & E & Ho). exists o. split; [done|].
    destruct o as [x|]; [split; [in_list|tauto]|].
    intros x [Hx|[-> | Hx]%elem_of_cons]%elem_of_app Ek; [by apply (Ho x)|rewrite <- Ek in Hk|];
      [by apply klt_irrefl in Hk|]. specialize (Hyr x Hx). unfold nlt in Hyr. rewrite Ek in Hyr.
    apply (klt_irrefl k). by eapply klt_trans. }
  assert (Hright : klt (nk y) k -> exists o, lookup r name hash = Some o
    /\ match o with Some x => x ∈ inorder l ++ y :: inorder r /\ nk x = k
       | None => forall x, x ∈ inorder l ++ y :: inorder r -> nk x <> k end).
  { intros Hk. destruct (IHr (conj Hsr' Hlr')) as (o & E & Ho). exists o. split; [done|].
    destruct o as [x|]; [split; [in_list|tauto]|].
    intros x [Hx|[-> | Hx]%elem_of_cons]%elem_of_app Ek; [|rewrite <- Ek in Hk; by apply klt_irrefl in Hk|by apply (Ho x)].
    specialize (Hc x y Hx ltac:(left)). unfold nlt in Hc. rewrite Ek in Hc.
    apply (klt_irrefl k). by eapply klt_trans. }
  destruct (klt_cases hash name (n_key y) (n_name y)) as (C1 & C2 & C3 & C4). fold k (nk y) in C1, C2, C3, C4.
  destruct (Z.ltb_spec hash (n_key y)); [by apply Hleft, C1|].
  destruct (Z.ltb_spec (n_key y) hash); [by apply Hright, C2|].
  assert (Eh : hash = n_key y) by lia. rewrite Hy.
  destruct (Z.eqb_spec (Z.of_nat (length name)) (Z.of_nat (length (n_name y)))) as [El|]; simpl.
  - destruct (memcmp_order name (n_name y)) as (rc & -> & M1 & M2 & M3); [lia|].
    destruct (Z.eqb_spec rc 0) as [E0|].
    + exists (Some y). split; [done|]. split; [in_list|]. unfold nk, k. f_equal; [done|]. symmetry. tauto.
    + destruct (Z.ltb_spec rc 0); [apply Hleft|apply Hright]; (right; split; [done|]; right; split; [simpl; lia|tauto || (apply M3; lia)]).
  - destruct (Z.ltb_spec (Z.of_nat (length name)) (Z.of_nat (length (n_name y)))); [apply Hleft, C3|apply Hright, C4]; lia.
Qed.

Lemma delete_bst t a : bst t -> bst (rb_delete a t).
Proof.
  intros [Hs Hl]. unfold bst. rewrite rb_delete_inorder. split.
  - clear Hl. induction Hs as [|x l Hs IH Hf]; [constructor|].
    destruct (decide (n_addr x <> a)) as [Ha|Ha];
      [rewrite filter_cons_True by done|by rewrite filter_cons_False].
    constructor; [done|]. apply Forall_forall. intros y [_ Hy]%list_elem_of_filter. rewrite Forall_forall in Hf. by apply Hf.
  - apply Forall_forall. intros y [_ Hy]%list_elem_of_filter. rewrite Forall_forall in Hl. by apply Hl.
Qed.

Definition upd (a : nat) (f : P -> P) (x : node P) : node P :=
  if (n_addr x =? a)%nat then Node (n_addr x) (n_key x) (n_len x) (n_name x) (f (n_val x)) else x.

Lemma update_inorder t a f : inorder (update a f t) = upd a f <$> inorder t.
Proof. induction t as [|l IHl x r IHr]; [done|]. simpl. by rewrite fmap_app, IHl, IHr. Qed.

Lemma upd_fields a f x :
  n_addr (upd a f x) = n_addr x /\ nk (upd a f x) = nk x /\ n_len (upd a f x) = n_len x
  /\ n_name (upd a f x) = n_name x /\ n_key (upd a f x) = n_key x.
Proof. unfold upd, nk. by destruct (_ =? _)%nat. Qed.

Lemma update_bst t a f : bst t -> bst (update a f t).
Proof.
  intros [Hs Hl]. unfold bst. rewrite update_inorder. split.
  - clear Hl. induction Hs as [|x l Hs IH Hf]; simpl; constructor; [done|]. apply Forall_fmap.
    eapply Forall_impl; [exact Hf|]. intros y Hy. unfold nlt in *. simpl.
    destruct (upd_fields a f x) as (_ & -> & _), (upd_fields a f y) as (_ & -> & _). exact Hy.
  - apply Forall_fmap. eapply Forall_impl; [exact Hl|]. intros y Hy. simpl.
    by destruct (upd_fields a f y) as (_ & _ & -> & -> & _).
Qed.
End Ops.

(** A tree that is never rebalanced has the documented effects: the class can be
    instantiated. *)
Fixpoint chain {P} (l : list (node P)) : tree P :=
  match l with [] => Leaf | x :: l' => Branch Leaf x (chain l') end.

Lemma chain_inorder {P} (l : list (node P)) : inorder (chain l) = l.
Proof. induction l as [|x l IH]; [done|]. simpl. by rewrite IH. Qed.

Definition plain_trees : NgxRbtree := {|
  rb_fixup P t := t;
  rb_delete P a t := chain (filter (fun x => n_addr x <> a) (inorder t));
  rb_fixup_inorder P t := eq_refl;
  rb_delete_inorder P a t := chain_inorder _ |}.
