(* ===== verification/Shm.v ===== *)
(** * Shared zones: the slab allocator, the mutex, and trees of nodes in them

    A zone is a slab of memory blocks with a mutex and a header.  Allocation may
    fail at any call; a block that is freed or was never allocated cannot be
    touched; locking twice or unlocking an unlocked mutex is a fault.  The second
    half relates a tree of nodes, with the blocks it owns, to the finite map it
    stands for. *)

From S2P Require Import Prelude NgxCore Rbtree.

Local Open Scope Z_scope.
Local Open Scope prog_scope.

(** [fresh]: the next address; [live]: the contents of the allocated blocks;
    [freed]: the contents of the blocks given back, as they were when given back;
    [asked]: the number of allocations requested. *)
Record slab := Slab { fresh : nat; live : gmap nat bytes; freed : list bytes; asked : nat }.

(** [z_data] is [shpool->data]: the address and the contents of the header. *)
Record zone (H : Type) := Zone { z_slab : slab; z_locked : bool; z_data : option (nat * H) }.
Arguments Zone {H}.
Arguments z_slab {H}.
Arguments z_locked {H}.
Arguments z_data {H}.

Section Slab.
Context {H : Type} (slab_oom : nat -> bool) (junk : Z).
Implicit Types (z : zone H).

(** [ngx_slab_alloc_locked]; [None] is NULL.  The block is not cleared. *)
Definition slab_alloc (n : nat) : prog (zone H) (option nat) := fun z =>
  let s := z_slab z in
  if slab_oom (asked s)
  then Ret None (Zone (Slab (fresh s) (live s) (freed s) (S (asked s))) (z_locked z) (z_data z))
  else Ret (Some (fresh s))
         (Zone (Slab (S (fresh s)) (<[fresh s := replicate n junk]> (live s)) (freed s) (S (asked s)))
            (z_locked z) (z_data z)).

(** [ngx_slab_free_locked]. *)
Definition slab_free (a : nat) : prog (zone H) unit := fun z =>
  let s := z_slab z in
  match live s !! a with
  | None => Fault
  | Some b => Ret tt (Zone (Slab (fresh s) (delete a (live s)) (b :: freed s) (asked s)) (z_locked z) (z_data z))
  end.

(** [ngx_memcpy] to [off] in a block. *)
Definition slab_write (a off : nat) (x : bytes) : prog (zone H) unit := fun z =>
  let s := z_slab z in
  match live s !! a with
  | Some b =>
      if (off + length x <=? length b)%nat
      then Ret tt (Zone (Slab (fresh s) (<[a := take off b ++ x ++ drop (off + length x) b]> (live s))
                           (freed s) (asked s)) (z_locked z) (z_data z))
      else Fault
  | None => Fault
  end.

(** Reading [n] bytes of a block. *)
Definition slab_read (a n : nat) : prog (zone H) bytes := fun z =>
  match live (z_slab z) !! a with
  | Some b => if (n <=? length b)%nat then Ret (take n b) z else Fault
  | None => Fault
  end.

(** [ngx_shmtx_lock] and [ngx_shmtx_unlock]. *)
Definition shmtx_lock : prog (zone H) unit := fun z =>
  if z_locked z then Fault else Ret tt (Zone (z_slab z) true (z_data z)).

Definition shmtx_unlock : prog (zone H) unit := fun z =>
  if z_locked z then Ret tt (Zone (z_slab z) false (z_data z)) else Fault.

(** [sh = shpool->data], dereferenced; writing to the header. *)
Definition get_sh : prog (zone H) H := fun z =>
  match z_data z with Some (_, h) => Ret h z | None => Fault end.

Definition set_sh (h : H) : prog (zone H) unit := fun z =>
  match z_data z with
  | Some (a, _) => Ret tt (Zone (z_slab z) (z_locked z) (Some (a, h)))
  | None => Fault
  end.

(** [shpool->data = sh]. *)
Definition set_data (a : nat) (h : H) : prog (zone H) unit := fun z =>
  Ret tt (Zone (z_slab z) (z_locked z) (Some (a, h))).

(** [shpool->data != NULL]. *)
Definition has_data : prog (zone H) bool := fun z =>
  Ret (match z_data z with Some _ => true | None => false end) z.

(** A value read from the header that a fault prevents. *)
Definition of_option {A} (o : option A) : prog (zone H) A := fun z =>
  match o with Some a => Ret a z | None => Fault end.
End Slab.

(** ** The heap as a list of blocks *)

Definition heap (s : slab) (l : list (nat * bytes)) : Prop :=
  live s = list_to_map l /\ NoDup l.*1 /\ Forall (fun a => a < fresh s)%nat l.*1.

Lemma heap_perm s l l' : l ≡ₚ l' -> heap s l -> heap s l'.
Proof.
  intros Hp (Hl & Hn & Hf). assert (Hp1 : l.*1 ≡ₚ l'.*1) by (by apply fmap_Permutation).
  split; [rewrite Hl; by apply list_to_map_proper|]. split; by rewrite <- Hp1.
Qed.

#[export] Instance heap_proper s : Proper ((≡ₚ) ==> iff) (heap s).
Proof. intros l l' Hp. split; [by apply heap_perm|apply heap_perm; by symmetry]. Qed.

Section HeapRules.
Context {H : Type} (slab_oom : nat -> bool) (junk : Z).
Implicit Types (z : zone H) (l : list (nat * bytes)).

Lemma wp_slab_alloc n z l Q E :
  heap (z_slab z) l ->
  (forall s, heap s l -> freed s = freed (z_slab z) -> slab_oom (asked (z_slab z)) = true ->
     Q None (Zone s (z_locked z) (z_data z))) ->
  (forall s a, heap s ((a, replicate n junk) :: l) -> freed s = freed (z_slab z) ->
     Q (Some a) (Zone s (z_locked z) (z_data z))) ->
  wp (slab_alloc slab_oom junk n) z Q E.
Proof.
  intros (Hl & Hn & Hf) HN HS. unfold wp, slab_alloc. destruct (slab_oom _) eqn:Eo; [by apply HN|].
  apply HS; [|done]. unfold heap. simpl. rewrite Hl. split; [done|]. split.
  - constructor; [|done]. intros Hin. rewrite Forall_forall in Hf. apply Hf in Hin. lia.
  - constructor; [lia|]. eapply Forall_impl; [exact Hf|]. simpl. lia.
Qed.

Lemma heap_lookup s a b l : heap s ((a, b) :: l) -> live s !! a = Some b.
Proof. intros (-> & _). simpl. apply lookup_insert_eq. Qed.

Lemma wp_slab_free a b l z (Q : unit -> zone H -> Prop) E :
  heap (z_slab z) ((a, b) :: l) ->
  (forall s, heap s l -> freed s = b :: freed (z_slab z) -> Q tt (Zone s (z_locked z) (z_data z))) ->
  wp (slab_free a) z Q E.
Proof.
  intros Hh HQ. unfold wp, slab_free. rewrite (heap_lookup _ _ _ _ Hh). destruct Hh as (Hl & Hn & Hf).
  apply HQ; [|done]. unfold heap. simpl. rewrite Hl. simpl in *. inversion Hn as [|? ? Ha Hn']. inversion Hf.
  split; [|done]. rewrite delete_insert_eq, delete_id; [done|]. by apply not_elem_of_list_to_map_1.
Qed.

Lemma wp_slab_write a b off x l z (Q : unit -> zone H -> Prop) E :
  heap (z_slab z) ((a, b) :: l) -> (off + length x <= length b)%nat ->
  (forall s, heap s ((a, take off b ++ x ++ drop (off + length x) b) :: l) -> freed s = freed (z_slab z) ->
     Q tt (Zone s (z_locked z) (z_data z))) ->
  wp (slab_write a off x) z Q E.
Proof.
  intros Hh Hx HQ. unfold wp, slab_write. rewrite (heap_lookup _ _ _ _ Hh).
  destruct (Nat.leb_spec (off + length x) (length b)); [|lia].
  apply HQ; [|done]. destruct Hh as (Hl & Hn & Hf). unfold heap. simpl in *. rewrite Hl.
  split; [|done]. apply insert_insert_eq.
Qed.

(** Filling a whole block. *)
Lemma wp_slab_fill a b x l z (Q : unit -> zone H -> Prop) E :
  heap (z_slab z) ((a, b) :: l) -> length x = length b ->
  (forall s, heap s ((a, x) :: l) -> freed s = freed (z_slab z) -> Q tt (Zone s (z_locked z) (z_data z))) ->
  wp (slab_write a 0 x) z Q E.
Proof.
  intros Hh Hx HQ. eapply wp_slab_write; [done|simpl; lia|]. intros s Hs Hf. apply HQ; [|done].
  rewrite drop_ge, app_nil_r in Hs by lia. exact Hs.
Qed.

Lemma wp_slab_read a b n l z Q E :
  heap (z_slab z) ((a, b) :: l) -> (n <= length b)%nat -> Q (take n b) z -> wp (slab_read a n) z Q E.
Proof.
  intros Hh Hn HQ. unfold wp, slab_read. rewrite (heap_lookup _ _ _ _ Hh). by destruct (Nat.leb_spec n (length b)); [|lia].
Qed.

Lemma wp_lock z (Q : unit -> zone H -> Prop) E :
  z_locked z = false -> Q tt (Zone (z_slab z) true (z_data z)) -> wp shmtx_lock z Q E.
Proof. intros Hl HQ. unfold wp, shmtx_lock. by rewrite Hl. Qed.

Lemma wp_unlock z (Q : unit -> zone H -> Prop) E :
  z_locked z = true -> Q tt (Zone (z_slab z) false (z_data z)) -> wp shmtx_unlock z Q E.
Proof. intros Hl HQ. unfold wp, shmtx_unlock. by rewrite Hl. Qed.

Lemma wp_get_sh z a h Q E : z_data z = Some (a, h) -> Q h z -> wp get_sh z Q E.
Proof. intros Hd HQ. unfold wp, get_sh. by rewrite Hd. Qed.

Lemma wp_set_sh z a h h' (Q : unit -> zone H -> Prop) E :
  z_data z = Some (a, h) -> Q tt (Zone (z_slab z) (z_locked z) (Some (a, h'))) -> wp (set_sh h') z Q E.
Proof. intros Hd HQ. unfold wp, set_sh. by rewrite Hd. Qed.

Lemma wp_of_option {A} (o : option A) x z Q E : o = Some x -> Q x z -> wp (of_option (H := H) o) z Q E.
Proof. by intros ->. Qed.
End HeapRules.

(** Bringing a block of the heap [H] to the front, and reordering it. *)
Ltac perm_front :=
  first [reflexivity | eapply Permutation_trans; [|apply perm_swap]; apply perm_skip; perm_front].
Ltac pull H := eapply heap_perm; [|exact H]; perm_front.
Ltac reorder H := eapply heap_perm; [|exact H]; solve_Permutation.

(** ** A tree as a finite map *)

Section Rep.
Context `{RB : NgxRbtree} {P V : Type} (crc32 : bytes -> Z).
(** [shape x cells v]: the node [x], with the blocks [cells] it owns, stands for
    the value [v]. *)
Context (shape : node P -> list (nat * bytes) -> V -> Prop).
Implicit Types (t : tree P) (x : node P) (es : list (node P * list (nat * bytes))) (m : gmap bytes V).

Record tree_rep t es m : Prop := {
  rep_bst : bst t;
  rep_perm : inorder t ≡ₚ es.*1;
  rep_key : forall x, x ∈ es.*1 -> n_key x = crc32 (n_name x);
  rep_addr : NoDup (n_addr <$> es.*1);
  rep_shape : forall x cells, (x, cells) ∈ es -> exists v, shape x cells v /\ m !! n_name x = Some v;
  rep_dom : forall name, is_Some (m !! name) -> exists x, x ∈ es.*1 /\ n_name x = name }.

Lemma rep_proper t es es' m : es ≡ₚ es' -> tree_rep t es m -> tree_rep t es' m.
Proof.
  intros Hp [R1 R2 R3 R4 R5 R6]. assert (Hp1 : es.*1 ≡ₚ es'.*1) by (by apply fmap_Permutation).
  split; [done|by rewrite <- Hp1| | | |].
  - intros x Hx. apply R3. by rewrite Hp1.
  - assert (Hp2 : n_addr <$> es.*1 ≡ₚ n_addr <$> es'.*1) by (by apply fmap_Permutation). by rewrite <- Hp2.
  - intros x cells Hx. apply R5. by rewrite Hp.
  - intros name Hn. destruct (R6 name Hn) as (x & Hx & E). exists x. by rewrite <- Hp1.
Qed.

Lemma rep_empty : tree_rep Leaf [] ∅.
Proof.
  split; try done; [split; constructor|intros ? Hx; by apply elem_of_nil in Hx|constructor| |].
  - intros ? ? Hx; by apply elem_of_nil in Hx.
  - intros name [v Hv]. by rewrite lookup_empty in Hv.
Qed.

Lemma fst_split es x : x ∈ es.*1 -> exists cells es', es ≡ₚ (x, cells) :: es'.
Proof.
  intros ([y cells] & -> & Hin)%list_elem_of_fmap. apply elem_of_Permutation in Hin as [es' Hp].
  by exists cells, es'.
Qed.

Lemma rep_find t es m name :
  tree_rep t es m ->
  exists o, lookup t name (crc32 name) = Some o
  /\ match o with
     | Some x => n_name x = name
                 /\ exists cells v es', es ≡ₚ (x, cells) :: es' /\ shape x cells v /\ m !! name = Some v
     | None => m !! name = None
     end.
Proof.
  intros R. destruct (lookup_spec t name (crc32 name) (rep_bst _ _ _ R)) as (o & E & Ho).
  exists o. split; [done|]. destruct o as [x|].
  - destruct Ho as [Hin Hk]. injection Hk as Hk Hn. split; [done|].
    rewrite (rep_perm _ _ _ R) in Hin. apply fst_split in Hin as (cells & es' & Hp).
    destruct (rep_shape _ _ _ R x cells) as (v & Hv & Hm); [rewrite Hp; left|]. exists cells, v, es'.
    by rewrite <- Hn.
  - apply eq_None_not_Some. intros Hs. destruct (rep_dom _ _ _ R name Hs) as (x & Hx & Hn).
    apply (Ho x); [by rewrite (rep_perm _ _ _ R)|]. unfold nk. by rewrite (rep_key _ _ _ R x Hx), Hn.
Qed.

(** Distinct entries have distinct names. *)
Lemma rep_other t es m x cells y :
  tree_rep t ((x, cells) :: es) m -> y ∈ es.*1 -> n_addr y <> n_addr x /\ n_name y <> n_name x.
Proof.
  intros R Hy. pose proof (rep_addr _ _ _ R) as Hn. simpl in Hn. inversion Hn as [|? ? Hx _]; subst.
  assert (Ha : n_addr y <> n_addr x).
  { intros E. apply Hx. rewrite <- E. by apply list_elem_of_fmap_2. }
  split; [done|]. intros E. apply Ha. f_equal. apply (nk_inj t y x); [by apply (rep_bst _ _ _ R)|..].
  - rewrite (rep_perm _ _ _ R). simpl. by right.
  - rewrite (rep_perm _ _ _ R). simpl. by left.
  - unfold nk. rewrite (rep_key _ _ _ R y), (rep_key _ _ _ R x), E; [done|by left|by right].
Qed.

Lemma rep_insert t es m x cells v :
  tree_rep t es m -> m !! n_name x = None -> n_len x = Z.of_nat (length (n_name x)) ->
  n_key x = crc32 (n_name x) -> n_addr x ∉ n_addr <$> es.*1 -> shape x cells v ->
  exists t', ngx_rbtree_insert insert_value t x = Some t' /\ tree_rep t' ((x, cells) :: es) (<[n_name x := v]> m).
Proof.
  intros R Hm Hl Hk Ha Hv.
  assert (Hne : forall y, y ∈ es.*1 -> n_name y <> n_name x).
  { intros y Hy E. apply fst_split in Hy as (c & es' & Hp).
    destruct (rep_shape _ _ _ R y c) as (w & _ & Hw); [rewrite Hp; left|]. rewrite E in Hw. congruence. }
  destruct (insert_spec t x (rep_bst _ _ _ R) Hl) as (t' & E & Hb & Hp).
  { intros y Hy Ek. rewrite (rep_perm _ _ _ R) in Hy. apply (Hne y Hy). by injection Ek. }
  exists t'. split; [done|]. split; simpl.
  - done.
  - by rewrite Hp, (rep_perm _ _ _ R).
  - intros y [-> | Hy]%elem_of_cons; [done|by apply (rep_key _ _ _ R)].
  - constructor; [done|by apply (rep_addr _ _ _ R)].
  - intros y c [[= -> ->] | Hy]%elem_of_cons; [exists v; by rewrite lookup_insert_eq|].
    destruct (rep_shape _ _ _ R y c Hy) as (w & Hw & Hmw). exists w. split; [done|].
    rewrite lookup_insert_ne; [done|]. apply not_eq_sym, Hne. by apply (list_elem_of_fmap_2 fst) in Hy.
  - intros name [w Hw]. destruct (decide (name = n_name x)) as [->|Hd]; [exists x; split; [by left|done]|].
    rewrite lookup_insert_ne in Hw by done. destruct (rep_dom _ _ _ R name) as (y & Hy & En); [by exists w|].
    exists y. split; [by right|done].
Qed.

Lemma rep_delete t es m x cells :
  tree_rep t ((x, cells) :: es) m -> tree_rep (rb_delete (n_addr x) t) es (delete (n_name x) m).
Proof.
  intros R. split.
  - apply delete_bst, (rep_bst _ _ _ R).
  - rewrite rb_delete_inorder. rewrite (rep_perm _ _ _ R), fmap_cons, filter_cons_False by (simpl; tauto).
    assert (Hall : Forall (fun y => n_addr y <> n_addr x) es.*1).
    { apply Forall_forall. intros y Hy. by apply (rep_other t es m x cells y R). }
    clear R. revert Hall. generalize es.*1. intros l Hall. induction Hall as [|y l Hy _ IH]; [done|]. rewrite filter_cons_True by done. by rewrite IH.
  - intros y Hy. apply (rep_key _ _ _ R). simpl. by right.
  - pose proof (rep_addr _ _ _ R) as Hn. simpl in Hn. by inversion Hn.
  - intros y c Hy. destruct (rep_shape _ _ _ R y c) as (w & Hw & Hmw); [by right|]. exists w. split; [done|].
    rewrite lookup_delete_ne; [done|]. apply not_eq_sym. apply (rep_other t es m x cells y R).
    by apply (list_elem_of_fmap_2 fst) in Hy.
  - intros name [w Hw]. apply lookup_delete_Some in Hw as [Hd Hw].
    destruct (rep_dom _ _ _ R name) as (y & Hy & En); [by exists w|]. simpl in Hy.
    apply elem_of_cons in Hy as [-> | Hy]; [by symmetry in En|]. by exists y.
Qed.

Lemma rep_update t es m x cells f cells' v' :
  tree_rep t ((x, cells) :: es) m -> shape (upd (n_addr x) f x) cells' v' ->
  tree_rep (update (n_addr x) f t) ((upd (n_addr x) f x, cells') :: es) (<[n_name x := v']> m).
Proof.
  intros R Hv. destruct (upd_fields (n_addr x) f x) as (Ea & Ek & El & En & Eh). split; simpl.
  - apply update_bst, (rep_bst _ _ _ R).
  - rewrite update_inorder, (rep_perm _ _ _ R), !fmap_cons.
    assert (Hall : Forall (fun y => n_addr y <> n_addr x) es.*1).
    { apply Forall_forall. intros y Hy. by apply (rep_other t es m x cells y R). }
    assert (E : upd (n_addr x) f <$> es.*1 = es.*1); [|by rewrite E].
    clear R. revert Hall. generalize es.*1. intros l Hall. induction Hall as [|y l Hy _ IH]; [done|]. rewrite fmap_cons, IH. f_equal. unfold upd.
    by destruct (Nat.eqb_spec (n_addr y) (n_addr x)).
  - intros y [-> | Hy]%elem_of_cons; [rewrite Eh, En; apply (rep_key _ _ _ R); by left|].
    apply (rep_key _ _ _ R). by right.
  - rewrite Ea. exact (rep_addr _ _ _ R).
  - intros y c [[= -> ->] | Hy]%elem_of_cons; [exists v'; by rewrite En, lookup_insert_eq|].
    destruct (rep_shape _ _ _ R y c) as (w & Hw & Hmw); [by right|]. exists w. split; [done|].
    rewrite lookup_insert_ne; [done|]. apply not_eq_sym, (rep_other t es m x cells y R).
    by apply (list_elem_of_fmap_2 fst) in Hy.
  - intros name [w Hw]. destruct (decide (name = n_name x)) as [->|Hd].
    { exists (upd (n_addr x) f x). split; [by left|done]. }
    rewrite lookup_insert_ne in Hw by done. destruct (rep_dom _ _ _ R name) as (y & Hy & Eny); [by exists w|].
    simpl in Hy. apply elem_of_cons in Hy as [-> | Hy]; [by symmetry in Eny|]. exists y. split; [by right|done].
Qed.

Lemma rep_names t es m : tree_rep t es m -> NoDup (n_name <$> es.*1).
Proof.
  intros R. assert (Hn : NoDup es.*1) by (eapply NoDup_fmap_1, (rep_addr _ _ _ R)).
  apply NoDup_fmap_2_strong; [|done]. intros x y Hx Hy E. apply (nk_inj t); [apply (rep_bst _ _ _ R)|..].
  - by rewrite (rep_perm _ _ _ R).
  - by rewrite (rep_perm _ _ _ R).
  - unfold nk. by rewrite (rep_key _ _ _ R x Hx), (rep_key _ _ _ R y Hy), E.
Qed.

Lemma rep_dom_names t es m : tree_rep t es m -> dom m = list_to_set (n_name <$> es.*1).
Proof.
  intros R. apply set_eq. intros name. rewrite elem_of_dom, elem_of_list_to_set, list_elem_of_fmap. split.
  - intros Hs. destruct (rep_dom _ _ _ R name Hs) as (x & Hx & <-). by exists x.
  - intros (x & -> & Hx). apply fst_split in Hx as (cells & es' & Hp).
    destruct (rep_shape _ _ _ R x cells) as (v & _ & Hv); [rewrite Hp; left|by eexists].
Qed.

Lemma rep_size t es m : tree_rep t es m -> size m = length es.
Proof.
  intros R. rewrite <- size_dom, (rep_dom_names t es m R), size_list_to_set by (by eapply rep_names).
  by rewrite !length_fmap.
Qed.
End Rep.

(** A block that is not one of the entries' has an address that no node has. *)
Lemma fresh_node {P} s a b (es : list (node P * list (nat * bytes))) (l : list (nat * bytes)) :
  heap s ((a, b) :: l) -> concat (snd <$> es) ⊆ l ->
  (forall x cells, (x, cells) ∈ es -> n_addr x ∈ cells.*1) -> a ∉ n_addr <$> es.*1.
Proof.
  intros (_ & Hn & _) Hsub Hc Hin. simpl in Hn. inversion Hn as [|? ? Ha _]; subst. apply Ha.
  apply list_elem_of_fmap in Hin as (x & -> & Hx). apply list_elem_of_fmap in Hx as ([y cells] & -> & Hx).
  specialize (Hc y cells Hx). apply list_elem_of_fmap in Hc as (c & Ec & Hc). simpl. rewrite Ec.
  apply list_elem_of_fmap_2, Hsub. apply list_elem_of_In, in_concat. exists cells.
  split; apply list_elem_of_In; [|done]. by apply (list_elem_of_fmap_2 snd) in Hx.
Qed.
