(* ===== verification/Store.v ===== *)
(** * What a challenge store promises

    The interface of the two challenge stores towards the code that publishes
    and serves challenges, as a finite map from names to values, and what any
    history of calls through that interface can observe. *)

From S2P Require Import Prelude NgxCore Rbtree Shm.

Local Open Scope Z_scope.
Local Open Scope prog_scope.

Class Store (H V : Type) := {
  store_init : prog (zone H) Z;
  store_set : bytes -> V -> prog (zone H) Z;
  store_remove : bytes -> prog (zone H) Z;
  store_get : bool -> bytes -> prog (zone H) (Z * option V);
  store_key_ok : bytes -> Prop;
  store_value_ok : V -> Prop;
  (** whether the slab ever refuses an allocation *)
  store_short : Prop;
  store_inv : zone H -> gmap bytes V -> Prop;
  store_init_fresh : forall n f k,
    wp store_init (Zone (Slab n ∅ f k) false None)
      (fun rc z' => rc = NGX_OK /\ store_inv z' ∅ \/ rc = NGX_ERROR /\ store_short) (fun _ => False);
  store_init_reload : forall z m, store_inv z m ->
    wp store_init z (fun rc z' => rc = NGX_OK /\ z' = z) (fun _ => False);
  store_set_spec : forall z m k v, store_inv z m ->
    wp (store_set k v) z
      (fun rc z' => rc = NGX_OK /\ store_key_ok k /\ store_value_ok v /\ store_inv z' (<[k := v]> m)
                    \/ rc = NGX_ERROR /\ store_inv z' m
                       /\ (z' = z /\ ~ (store_key_ok k /\ store_value_ok v) \/ store_short))
      (fun _ => False);
  store_remove_spec : forall z m k, store_inv z m ->
    wp (store_remove k) z (fun rc z' => rc = NGX_OK /\ store_inv z' (delete k m)) (fun _ => False);
  store_get_spec : forall z m k pool_oom, store_inv z m ->
    wp (store_get pool_oom k) z
      (fun r z' => z' = z /\ r = match m !! k with
                                 | None => (NGX_DECLINED, None)
                                 | Some v => if pool_oom then (NGX_ERROR, None) else (NGX_OK, Some v)
                                 end)
      (fun _ => False) }.

(** ** Histories *)

Inductive op (V : Type) :=
  | OReload
  | OSet (k : bytes) (v : V)
  | ORemove (k : bytes)
  | OGet (pool_oom : bool) (k : bytes).
Arguments OReload {V}.
Arguments OSet {V}.
Arguments ORemove {V}.
Arguments OGet {V}.

Section Histories.
Context {H V : Type} {S : Store H V}.
Implicit Types (m : gmap bytes V).

(** The answer of one call: its code, and the value a read copies out. *)
Definition run_op (o : op V) : prog (zone H) (Z * option V) :=
  match o with
  | OReload => let! rc := store_init in ret (rc, None)
  | OSet k v => let! rc := store_set k v in ret (rc, None)
  | ORemove k => let! rc := store_remove k in ret (rc, None)
  | OGet pool_oom k => store_get pool_oom k
  end.

Fixpoint run_ops (os : list (op V)) : prog (zone H) (list (Z * option V)) :=
  match os with
  | [] => ret []
  | o :: os' => let! r := run_op o in let! rs := run_ops os' in ret (r :: rs)
  end.

(** The same call on a map. *)
Inductive map_op m : op V -> Z * option V -> gmap bytes V -> Prop :=
  | map_reload : map_op m OReload (NGX_OK, None) m
  | map_set k v : store_key_ok k -> store_value_ok v -> map_op m (OSet k v) (NGX_OK, None) (<[k := v]> m)
  | map_set_bad k v : ~ (store_key_ok k /\ store_value_ok v) -> map_op m (OSet k v) (NGX_ERROR, None) m
  | map_set_oom k v : store_short -> map_op m (OSet k v) (NGX_ERROR, None) m
  | map_remove k : map_op m (ORemove k) (NGX_OK, None) (delete k m)
  | map_miss b k : m !! k = None -> map_op m (OGet b k) (NGX_DECLINED, None) m
  | map_hit k v : m !! k = Some v -> map_op m (OGet false k) (NGX_OK, Some v) m
  | map_hit_oom k v : m !! k = Some v -> map_op m (OGet true k) (NGX_ERROR, None) m.

Inductive map_ops : gmap bytes V -> list (op V) -> list (Z * option V) -> gmap bytes V -> Prop :=
  | map_nil m : map_ops m [] [] m
  | map_cons m o r m1 os rs m' : map_op m o r m1 -> map_ops m1 os rs m' -> map_ops m (o :: os) (r :: rs) m'.

Lemma wp_run_op z m o :
  store_inv z m ->
  wp (run_op o) z (fun r z' => exists m', map_op m o r m' /\ store_inv z' m') (fun _ => False).
Proof.
  intros Hi. destruct o as [|k v|k|b k]; simpl.
  - wp_step. eapply wp_mono; [by apply (store_init_reload z m)| |done]. intros rc z' [-> ->].
    apply wp_ret. exists m. split; [constructor|done].
  - wp_step. eapply wp_mono; [by apply (store_set_spec z m k v)| |done].
    intros rc z' [(-> & Hk & Hv & Hi')|(-> & Hi' & [[-> Hbad]|Hs])]; apply wp_ret;
      eexists; (split; [by constructor|done]).
  - wp_step. eapply wp_mono; [by apply (store_remove_spec z m k)| |done]. intros rc z' [-> Hi'].
    apply wp_ret. eexists. split; [constructor|done].
  - eapply wp_mono; [by apply (store_get_spec z m k b)| |done]. intros r z' [-> ->].
    exists m. split; [|done]. destruct (m !! k) eqn:E; [destruct b|]; by econstructor.
Qed.

Lemma wp_run_ops z m os :
  store_inv z m ->
  wp (run_ops os) z (fun rs z' => exists m', map_ops m os rs m' /\ store_inv z' m') (fun _ => False).
Proof.
  revert z m. induction os as [|o os IH]; intros z m Hi; simpl.
  - apply wp_ret. exists m. split; [constructor|done].
  - wp_step. eapply wp_mono; [by apply wp_run_op| |done]. intros r z1 (m1 & H1 & Hi1).
    wp_step. eapply wp_mono; [by apply (IH z1 m1)| |done]. intros rs z2 (m2 & H2 & Hi2).
    apply wp_ret. exists m2. split; [by econstructor|done].
Qed.

(** A zone's life: its creation, then any calls. *)
Definition life (os : list (op V)) : prog (zone H) (option (list (Z * option V))) :=
  let! rc := store_init in
  if rc =? NGX_OK then let! rs := run_ops os in ret (Some rs) else ret None.

Definition fresh_zone : zone H := Zone (Slab 1 ∅ [] 0) false None.

Lemma wp_life os :
  wp (life os) fresh_zone
     (fun r z' => match r with
                  | Some rs => exists m, map_ops ∅ os rs m /\ store_inv z' m
                  | None => store_short
                  end) (fun _ => False).
Proof.
  unfold life, fresh_zone. wp_step. eapply wp_mono; [apply store_init_fresh| |done].
  intros rc z [[-> Hi]|[-> Hs]]; simpl; [|by apply wp_ret].
  wp_step. eapply wp_mono; [by apply (wp_run_ops z ∅)| |done]. intros rs z' H1. by apply wp_ret.
Qed.
End Histories.
