(* ===== verification/Challenge.v ===== *)
(** * The HTTP-01 token store (ngx_autocert_challenge.c)

    Tokens and key authorizations in a shared zone, and its refinement of a
    finite map. *)

From S2P Require Import Prelude NgxCore Rbtree Shm.

Local Open Scope Z_scope.
Local Open Scope prog_scope.

Definition NGX_AUTOCERT_TOKEN_MAX : nat := 128%nat.
Definition NGX_AUTOCERT_KEYAUTH_MAX : nat := 512%nat.

(** The [keyauth] field of a node: a block of the slab, and a length. *)
Record keyauth_ref := KeyauthRef { ka_data : nat; ka_len : nat }.

(** The header: its red-black tree. *)
Abbreviation challenge_sh := (tree keyauth_ref).

(** [offsetof(ngx_autocert_challenge_node_t, token)] and the size of the header,
    on an LP64 target. *)
Definition challenge_node_size : nat := 58%nat.
Definition challenge_sh_size : nat := 64%nat.

(** The module's copies of the insertion order and of the search. *)
Definition ngx_autocert_challenge_insert_value : tree keyauth_ref -> node keyauth_ref -> option (tree keyauth_ref) := insert_value.
Definition ngx_autocert_challenge_lookup : tree keyauth_ref -> bytes -> Z -> option (option (node keyauth_ref)) := lookup.

Section Challenge.
Context `{RB : NgxRbtree} (crc32 : bytes -> Z) (slab_oom : nat -> bool) (junk : Z).

Abbreviation alloc := (slab_alloc slab_oom junk).

Definition ngx_autocert_challenge_init_zone : prog (zone challenge_sh) Z :=
  let! inherited := has_data in
  if inherited then ret NGX_OK
  else
    shmtx_lock;;
    let! sh := alloc challenge_sh_size in
    shmtx_unlock;;
    match sh with
    | None => ret NGX_ERROR
    | Some sh => set_data sh Leaf;; ret NGX_OK
    end.

Definition challenge_replace (t : challenge_sh) (cn : node keyauth_ref) (keyauth : bytes)
    : prog (zone challenge_sh) Z :=
  let! ka := alloc (length keyauth) in
  match ka with
  | None => shmtx_unlock;; ret NGX_ERROR
  | Some ka =>
      slab_write ka 0 keyauth;;
      slab_free (ka_data (n_val cn));;
      set_sh (update (n_addr cn) (fun _ => KeyauthRef ka (length keyauth)) t);;
      shmtx_unlock;;
      ret NGX_OK
  end.

Definition challenge_insert (t : challenge_sh) (token keyauth : bytes) : prog (zone challenge_sh) Z :=
  let! cn := alloc (challenge_node_size + length token)%nat in
  match cn with
  | None => shmtx_unlock;; ret NGX_ERROR
  | Some cn =>
      let! ka := alloc (length keyauth) in
      match ka with
      | None => slab_free cn;; shmtx_unlock;; ret NGX_ERROR
      | Some ka =>
          slab_write cn challenge_node_size token;;
          slab_write ka 0 keyauth;;
          let! t' := of_option (ngx_rbtree_insert ngx_autocert_challenge_insert_value t
                       (Node cn (crc32 token) (u16 (Z.of_nat (length token))) token
                          (KeyauthRef ka (length keyauth)))) in
          set_sh t';;
          shmtx_unlock;;
          ret NGX_OK
      end
  end.

Definition token_ok (token : bytes) : bool :=
  negb ((length token =? 0)%nat || (NGX_AUTOCERT_TOKEN_MAX <? length token)%nat).
Definition keyauth_ok (keyauth : bytes) : bool :=
  negb ((length keyauth =? 0)%nat || (NGX_AUTOCERT_KEYAUTH_MAX <? length keyauth)%nat).

Definition ngx_autocert_challenge_set (token keyauth : bytes) : prog (zone challenge_sh) Z :=
  if negb (token_ok token && keyauth_ok keyauth) then ret NGX_ERROR
  else
    shmtx_lock;;
    let! t := get_sh in
    let! cn := of_option (ngx_autocert_challenge_lookup t token (crc32 token)) in
    match cn with
    | Some cn => challenge_replace t cn keyauth
    | None => challenge_insert t token keyauth
    end.

Definition ngx_autocert_challenge_remove (token : bytes) : prog (zone challenge_sh) Z :=
  if negb (token_ok token) then ret NGX_OK
  else
    shmtx_lock;;
    let! t := get_sh in
    let! cn := of_option (ngx_autocert_challenge_lookup t token (crc32 token)) in
    match cn with
    | Some cn =>
        set_sh (rb_delete (n_addr cn) t);;
        slab_free (ka_data (n_val cn));;
        slab_free (n_addr cn);;
        shmtx_unlock;;
        ret NGX_OK
    | None => shmtx_unlock;; ret NGX_OK
    end.

(** The stack buffer holds [NGX_AUTOCERT_KEYAUTH_MAX] bytes; [pool_oom]: the
    final copy into the request pool failed. *)
Definition ngx_autocert_challenge_get (pool_oom : bool) (token : bytes)
    : prog (zone challenge_sh) (Z * option bytes) :=
  if negb (token_ok token) then ret (NGX_DECLINED, None)
  else
    shmtx_lock;;
    let! t := get_sh in
    let! cn := of_option (ngx_autocert_challenge_lookup t token (crc32 token)) in
    match cn with
    | None => shmtx_unlock;; ret (NGX_DECLINED, None)
    | Some cn =>
        let! buf := slab_read (ka_data (n_val cn)) (ka_len (n_val cn)) in
        if (NGX_AUTOCERT_KEYAUTH_MAX <? ka_len (n_val cn))%nat then fault
        else
          shmtx_unlock;;
          if pool_oom then ret (NGX_ERROR, None) else ret (NGX_OK, Some buf)
    end.

(** ** The map it implements *)

Definition challenge_shape (x : node keyauth_ref) (cells : list (nat * bytes)) (v : bytes) : Prop :=
  (exists nb, cells = [(n_addr x, nb); (ka_data (n_val x), v)])
  /\ ka_len (n_val x) = length v /\ keyauth_ok v = true /\ token_ok (n_name x) = true.

(** The mutex is free, the tree stands for [m], and the blocks of the slab are
    exactly the header, the nodes of the tree and their values. *)
Definition challenge_inv (z : zone challenge_sh) (m : gmap bytes bytes) : Prop :=
  z_locked z = false
  /\ exists hdr hb t es,
       z_data z = Some (hdr, t)
       /\ heap (z_slab z) ((hdr, hb) :: concat (snd <$> es))
       /\ tree_rep crc32 challenge_shape t es m.

Lemma challenge_open z m :
  challenge_inv z m ->
  exists hdr hb t es, z = Zone (z_slab z) false (Some (hdr, t))
    /\ heap (z_slab z) ((hdr, hb) :: concat (snd <$> es)) /\ tree_rep crc32 challenge_shape t es m.
Proof.
  destruct z as [s lk d]. intros (Hl & hdr & hb & t & es & Hd & Hh & Hr). simpl in *. subst.
  by exists hdr, hb, t, es.
Qed.

Lemma challenge_close s hdr hb t es m :
  heap s ((hdr, hb) :: concat (snd <$> es)) -> tree_rep crc32 challenge_shape t es m ->
  challenge_inv (Zone s false (Some (hdr, t))) m.
Proof. intros Hh Hr. split; [done|]. by exists hdr, hb, t, es. Qed.

Lemma cells_perm (es es' : list (node keyauth_ref * list (nat * bytes))) :
  es ≡ₚ es' -> concat (snd <$> es) ≡ₚ concat (snd <$> es').
Proof. by intros ->. Qed.
End Challenge.
