(* ===== verification/ChallengeThms.v ===== *)
(** * The HTTP-01 token store: it is a map from tokens to key authorizations *)

From S2P Require Import Prelude NgxCore Rbtree Shm Store Challenge.

Local Open Scope Z_scope.
Local Open Scope prog_scope.

Section Thms.
Context `{RB : NgxRbtree} (crc32 : bytes -> Z) (slab_oom : nat -> bool) (junk : Z).
Implicit Types (z : zone challenge_sh) (m : gmap bytes bytes).

Abbreviation rep := (tree_rep crc32 challenge_shape).
Abbreviation inv := (challenge_inv crc32).

(** Some allocation of the slab was refused. *)
Definition short : Prop := exists n, slab_oom n = true.

Lemma token_len_ok name : token_ok name = true -> u16 (Z.of_nat (length name)) = Z.of_nat (length name).
Proof.
  unfold token_ok, NGX_AUTOCERT_TOKEN_MAX. intros H. reflect_bools. apply Z.mod_small. lia.
Qed.

Lemma keyauth_len_ok v : keyauth_ok v = true -> (length v <= NGX_AUTOCERT_KEYAUTH_MAX)%nat.
Proof. unfold keyauth_ok. intros H. reflect_bools. lia. Qed.

Lemma wp_replace s hdr hb t es x nb v m keyauth :
  keyauth_ok keyauth = true -> keyauth_ok v = true ->
  heap s ((hdr, hb) :: concat (snd <$> (x, [(n_addr x, nb); (ka_data (n_val x), v)]) :: es)) ->
  rep t ((x, [(n_addr x, nb); (ka_data (n_val x), v)]) :: es) m -> token_ok (n_name x) = true ->
  wp (challenge_replace slab_oom junk t x keyauth) (Zone s true (Some (hdr, t)))
     (fun rc z' => rc = NGX_OK /\ inv z' (<[n_name x := keyauth]> m) \/ rc = NGX_ERROR /\ inv z' m /\ short)
     (fun _ => False).
Proof.
  intros Hk Hv Hh Hr Ht. unfold challenge_replace. wp_step. eapply wp_slab_alloc; [exact Hh| |].
  - intros s1 Hs1 _ Ho. wp_step. apply wp_unlock; [done|]. apply wp_ret. right. split; [done|].
    split; [by eapply challenge_close|by eexists].
  - intros s1 ka Hs1 _. wp_step. eapply wp_slab_fill; [exact Hs1|by rewrite length_replicate|].
    intros s2 Hs2 _. wp_step.
    set (rest := concat (snd <$> es)) in *. cbn [fmap list_fmap concat snd app] in Hs2. fold rest in Hs2.
    eapply (wp_slab_free (ka_data (n_val x)) v ((ka, keyauth) :: (hdr, hb) :: (n_addr x, nb) :: rest)).
    { reorder Hs2. }
    intros s3 Hs3 _. wp_step. eapply wp_set_sh; [done|]. wp_step. apply wp_unlock; [done|].
    apply wp_ret. left. split; [done|].
    eapply (challenge_close crc32 _ hdr hb _ ((_, [(n_addr x, nb); (ka, keyauth)]) :: es)).
    + eapply heap_perm; [|exact Hs3]. cbn [fmap list_fmap concat snd app]. fold rest. solve_Permutation.
    + eapply rep_update; [exact Hr|]. unfold challenge_shape, upd. rewrite Nat.eqb_refl. simpl.
      split; [by eexists|]. by repeat split.
Qed.

Lemma challenge_shape_addr (x : node keyauth_ref) cells v : challenge_shape x cells v -> n_addr x ∈ cells.*1.
Proof. intros [[nb ->] _]. simpl. by left. Qed.

Lemma wp_insert s hdr hb t es m token keyauth :
  token_ok token = true -> keyauth_ok keyauth = true -> m !! token = None ->
  heap s ((hdr, hb) :: concat (snd <$> es)) -> rep t es m ->
  wp (challenge_insert crc32 slab_oom junk t token keyauth) (Zone s true (Some (hdr, t)))
     (fun rc z' => rc = NGX_OK /\ inv z' (<[token := keyauth]> m) \/ rc = NGX_ERROR /\ inv z' m /\ short)
     (fun _ => False).
Proof.
  intros Ht Hk Hm Hh Hr. unfold challenge_insert. set (rest := concat (snd <$> es)) in *.
  wp_step. eapply wp_slab_alloc; [exact Hh| |].
  - intros s1 Hs1 _ Ho. wp_step. apply wp_unlock; [done|]. apply wp_ret. right. split; [done|].
    split; [by eapply challenge_close|by eexists].
  - intros s1 cn Hs1 _. wp_step. eapply wp_slab_alloc; [exact Hs1| |].
    + intros s2 Hs2 _ Ho. wp_step. eapply wp_slab_free; [exact Hs2|]. intros s3 Hs3 _.
      wp_step. apply wp_unlock; [done|]. apply wp_ret. right. split; [done|].
      split; [by eapply challenge_close|by eexists].
    + intros s2 ka Hs2 _. wp_step.
      eapply (wp_slab_write cn _ _ token ((ka, replicate (length keyauth) junk) :: (hdr, hb) :: rest)).
      { reorder Hs2. }
      { by rewrite length_replicate. }
      intros s3 Hs3 _. set (nb := _ ++ _ ++ _) in Hs3. clearbody nb. wp_step.
      eapply (wp_slab_fill ka (replicate (length keyauth) junk) keyauth ((cn, nb) :: (hdr, hb) :: rest)).
      { reorder Hs3. }
      { by rewrite length_replicate. }
      intros s4 Hs4 _. set (x := Node cn _ _ _ _).
      assert (Hfresh : n_addr x ∉ n_addr <$> es.*1).
      { eapply (fresh_node s4 cn nb es ((ka, keyauth) :: (hdr, hb) :: rest)).
        - eapply heap_perm; [|exact Hs4]. solve_Permutation.
        - intros c Hc. rewrite !elem_of_cons. by do 2 right.
        - intros y cells Hin. destruct (rep_shape _ _ _ _ _ Hr y cells Hin) as (v & Hv & _).
          by eapply challenge_shape_addr. }
      destruct (rep_insert crc32 challenge_shape t es m x [(cn, nb); (ka, keyauth)] keyauth Hr)
        as (t' & Et' & Hr'); [exact Hm|by apply token_len_ok|done|exact Hfresh| |].
      { split; [by eexists|]. by repeat split. }
      wp_step. eapply wp_of_option; [exact Et'|]. wp_step. eapply wp_set_sh; [done|].
      wp_step. apply wp_unlock; [done|]. apply wp_ret. left. split; [done|].
      eapply challenge_close; [|exact Hr']. eapply heap_perm; [|exact Hs4].
      cbn [fmap list_fmap concat snd app]. fold rest. solve_Permutation.
Qed.

Lemma wp_challenge_set z m token keyauth :
  inv z m ->
  wp (ngx_autocert_challenge_set crc32 slab_oom junk token keyauth) z
     (fun rc z' => rc = NGX_OK /\ token_ok token = true /\ keyauth_ok keyauth = true /\ inv z' (<[token := keyauth]> m)
                   \/ rc = NGX_ERROR /\ inv z' m
                      /\ (z' = z /\ ~ (token_ok token = true /\ keyauth_ok keyauth = true) \/ short))
     (fun _ => False).
Proof.
  intros Hi. unfold ngx_autocert_challenge_set. wp_step; [wp_step|].
  - right. do 2 (split; [done|]). left. split; [done|]. intros [E1 E2]. by rewrite E1, E2 in Heqb.
  - reflect_bools. destruct (challenge_open _ _ _ Hi) as (hdr & hb & t & es & -> & Hh & Hr).
    wp_step. apply wp_lock; [done|]. wp_step. eapply wp_get_sh; [done|]. wp_step.
    destruct (rep_find _ _ _ _ _ token Hr) as (o & Eo & Ho). eapply wp_of_option; [exact Eo|].
    destruct o as [x|].
    + destruct Ho as (<- & cells & v & es' & Hp & Hv & Hm). pose proof Hv as ([nb ->] & _ & Hvk & _).
      eapply wp_mono; [eapply (wp_replace _ hdr hb t es' x nb v m); [done|done| | |done]| |done].
      * eapply heap_perm; [|exact Hh]. by rewrite Hp.
      * by eapply rep_proper.
      * simpl. intros rc z' [[? ?]|(? & ? & ?)]; [by left|right]. tauto.
    + eapply wp_mono; [eapply (wp_insert _ hdr hb t es m); done| |done].
      simpl. intros rc z' [[? ?]|(? & ? & ?)]; [by left|right]. tauto.
Qed.

Lemma inv_keys z m token v : inv z m -> m !! token = Some v -> token_ok token = true.
Proof.
  intros Hi Hm. destruct (challenge_open _ _ _ Hi) as (hdr & hb & t & es & -> & Hh & Hr).
  destruct (rep_dom _ _ _ _ _ Hr token) as (x & Hx & <-); [by eexists|].
  apply fst_split in Hx as (cells & es' & Hp). destruct (rep_shape _ _ _ _ _ Hr x cells) as (w & Hw & _);
    [rewrite Hp; left|]. by destruct Hw as (_ & _ & _ & ?).
Qed.

Lemma wp_challenge_remove z m token :
  inv z m ->
  wp (ngx_autocert_challenge_remove crc32 token) z
     (fun rc z' => rc = NGX_OK /\ inv z' (delete token m)) (fun _ => False).
Proof.
  intros Hi. unfold ngx_autocert_challenge_remove. wp_step; [wp_step|]; reflect_bools.
  - split; [done|]. rewrite delete_id; [done|]. destruct (m !! token) eqn:E; [|done].
    apply (inv_keys _ _ _ _ Hi) in E. congruence.
  - destruct (challenge_open _ _ _ Hi) as (hdr & hb & t & es & -> & Hh & Hr).
    wp_step. apply wp_lock; [done|]. wp_step. eapply wp_get_sh; [done|]. wp_step.
    destruct (rep_find _ _ _ _ _ token Hr) as (o & Eo & Ho). eapply wp_of_option; [exact Eo|].
    destruct o as [x|].
    + destruct Ho as (<- & cells & v & es' & Hp & ([nb ->] & _) & Hm). rewrite Hp in Hh.
      wp_step. eapply wp_set_sh; [done|]. wp_step.
      cbn [fmap list_fmap concat snd app] in Hh. set (rest := concat (snd <$> es')) in *.
      eapply (wp_slab_free (ka_data (n_val x)) v ((n_addr x, nb) :: (hdr, hb) :: rest)).
      { reorder Hh. }
      intros s1 Hs1 _. wp_step. eapply wp_slab_free; [exact Hs1|]. intros s2 Hs2 _.
      wp_step. apply wp_unlock; [done|]. apply wp_ret. split; [done|].
      eapply challenge_close; [exact Hs2|]. eapply rep_delete, rep_proper; [exact Hp|exact Hr].
    + wp_step. apply wp_unlock; [done|]. apply wp_ret. split; [done|]. rewrite delete_id by done.
      by eapply challenge_close.
Qed.

Lemma wp_challenge_get z m pool_oom token :
  inv z m ->
  wp (ngx_autocert_challenge_get crc32 pool_oom token) z
     (fun r z' => z' = z /\ r = match m !! token with
                               | None => (NGX_DECLINED, None)
                               | Some v => if pool_oom then (NGX_ERROR, None) else (NGX_OK, Some v)
                               end) (fun _ => False).
Proof.
  intros Hi. unfold ngx_autocert_challenge_get. wp_step; [wp_step|]; reflect_bools.
  - split; [done|]. destruct (m !! token) eqn:E; [|done]. apply (inv_keys _ _ _ _ Hi) in E. congruence.
  - destruct (challenge_open _ _ _ Hi) as (hdr & hb & t & es & -> & Hh & Hr).
    wp_step. apply wp_lock; [done|]. wp_step. eapply wp_get_sh; [done|]. wp_step.
    destruct (rep_find _ _ _ _ _ token Hr) as (o & Eo & Ho). eapply wp_of_option; [exact Eo|].
    destruct o as [x|].
    + destruct Ho as (<- & cells & v & es' & Hp & ([nb ->] & Hl & Hk & _) & Hm). rewrite Hm.
      rewrite Hp in Hh. cbn [fmap list_fmap concat snd app] in Hh. set (rest := concat (snd <$> es')) in *.
      wp_step. eapply (wp_slab_read (ka_data (n_val x)) v _ ((n_addr x, nb) :: (hdr, hb) :: rest)).
      { reorder Hh. }
      { lia. }
      apply keyauth_len_ok in Hk. rewrite take_ge by lia.
      destruct (Nat.ltb_spec NGX_AUTOCERT_KEYAUTH_MAX (ka_len (n_val x))); [lia|].
      wp_step. apply wp_unlock; [done|]. by destruct pool_oom; apply wp_ret.
    + wp_step. apply wp_unlock; [done|]. apply wp_ret. by rewrite Ho.
Qed.

Lemma wp_challenge_init_fresh n f k :
  wp (ngx_autocert_challenge_init_zone slab_oom junk) (Zone (Slab n ∅ f k) false None)
     (fun rc z' => rc = NGX_OK /\ inv z' ∅ \/ rc = NGX_ERROR /\ short) (fun _ => False).
Proof.
  unfold ngx_autocert_challenge_init_zone. wp_step. unfold has_data, wp at 1. simpl.
  wp_step. apply wp_lock; [done|]. wp_step. eapply (wp_slab_alloc _ _ _ _ []); [by repeat constructor| |].
  - intros s Hs _ Ho. wp_step. apply wp_unlock; [done|]. apply wp_ret. right. split; [done|by eexists].
  - intros s a Hs _. wp_step. apply wp_unlock; [done|]. wp_step. unfold set_data, wp at 1. apply wp_ret.
    left. split; [done|]. eapply (challenge_close crc32 _ _ _ _ []); [exact Hs|apply rep_empty].
Qed.

Lemma wp_challenge_reload z m :
  inv z m -> wp (ngx_autocert_challenge_init_zone slab_oom junk) z (fun rc z' => rc = NGX_OK /\ z' = z) (fun _ => False).
Proof.
  intros Hi. destruct (challenge_open _ _ _ Hi) as (hdr & hb & t & es & -> & _).
  unfold ngx_autocert_challenge_init_zone. wp_step. unfold has_data, wp at 1. simpl. by apply wp_ret.
Qed.

Definition challenge_store : Store challenge_sh bytes := {|
  store_init := ngx_autocert_challenge_init_zone slab_oom junk;
  store_set := ngx_autocert_challenge_set crc32 slab_oom junk;
  store_remove := ngx_autocert_challenge_remove crc32;
  store_get := ngx_autocert_challenge_get crc32;
  store_key_ok k := token_ok k = true;
  store_value_ok v := keyauth_ok v = true;
  store_short := short;
  store_inv := inv;
  store_init_fresh := wp_challenge_init_fresh;
  store_init_reload := wp_challenge_reload;
  store_set_spec := wp_challenge_set;
  store_remove_spec := wp_challenge_remove;
  store_get_spec z m k b := wp_challenge_get z m b k |}.

(** Any history of the HTTP-01 token store, from the creation of its zone and
    through any reloads, in whatever order its calls take the mutex and whichever
    allocations fail, answers as a map from tokens to key authorizations would
    (a write that fails leaves the map as it was); no call touches memory it does
    not own, leaves the mutex locked or leaks a block: at the end the blocks of
    the slab are the header, the nodes and their values. *)
Theorem challenge_store_refines (os : list (op bytes)) :
  exists r z', life (S := challenge_store) os fresh_zone = Ret r z'
  /\ match r with
     | None => exists n, slab_oom n = true
     | Some rs =>
         exists m hdr hb t es,
           map_ops (S := challenge_store) ∅ os rs m
           /\ z_locked z' = false /\ z_data z' = Some (hdr, t)
           /\ live (z_slab z') = list_to_map ((hdr, hb) :: concat (snd <$> es))
           /\ tree_rep crc32 challenge_shape t es m
     end.
Proof.
  pose proof (wp_life (S := challenge_store) os) as Hw. unfold wp in Hw.
  destruct (life os fresh_zone) as [r z'| | |]; [|done..]. exists r, z'. split; [done|].
  destruct r as [rs|]; [|done]. destruct Hw as (m & Hm & Hl & hdr & hb & t & es & Hd & (Hh & _) & Hr).
  by exists m, hdr, hb, t, es.
Qed.
End Thms.
