(* ===== verification/Alpn.v ===== *)
(** * The TLS-ALPN-01 certificate store (ngx_autocert_alpn.c)

    The validation certificate and private key of each domain under challenge. *)

From S2P Require Import Prelude NgxCore Rbtree Shm.

Local Open Scope Z_scope.
Local Open Scope prog_scope.

Definition NGX_AUTOCERT_CHALLENGE_HTTP_01 : Z := 0.
Definition NGX_AUTOCERT_CHALLENGE_TLS_ALPN_01 : Z := 1.
Definition NGX_AUTOCERT_CHALLENGE_DNS_01 : Z := 2.
Definition NGX_AUTOCERT_ALPN_DOMAIN_MAX : nat := 255%nat.
Definition NGX_AUTOCERT_ALPN_CERT_MAX : nat := Z.to_nat 8192.
Definition NGX_AUTOCERT_ALPN_KEY_MAX : nat := Z.to_nat 8192.

(** The two values of a node: blocks of the slab and lengths. *)
Record pair_ref := PairRef { cert_data : nat; cert_len : nat; key_data : nat; key_len : nat }.

Abbreviation alpn_sh := (tree pair_ref).

(** [offsetof(ngx_autocert_alpn_node_t, domain)] and the size of the header, on
    an LP64 target. *)
Definition alpn_node_size : nat := 74%nat.
Definition alpn_sh_size : nat := 64%nat.

Definition domain_len_ok (d : bytes) : bool :=
  negb ((length d =? 0)%nat || (NGX_AUTOCERT_ALPN_DOMAIN_MAX <? length d)%nat).
Definition cert_len_ok (c : bytes) : bool :=
  negb ((length c =? 0)%nat || (NGX_AUTOCERT_ALPN_CERT_MAX <? length c)%nat).
Definition key_len_ok (k : bytes) : bool :=
  negb ((length k =? 0)%nat || (NGX_AUTOCERT_ALPN_KEY_MAX <? length k)%nat).

(** The module's copies of the insertion order and of the search. *)
Definition ngx_autocert_alpn_insert_value : tree pair_ref -> node pair_ref -> option (tree pair_ref) := insert_value.
Definition ngx_autocert_alpn_lookup : tree pair_ref -> bytes -> Z -> option (option (node pair_ref)) := lookup.

Section Alpn.
Context `{RB : NgxRbtree} (crc32 : bytes -> Z) (slab_oom : nat -> bool) (junk : Z).

Abbreviation alloc := (slab_alloc slab_oom junk).

Definition ngx_autocert_alpn_init_zone : prog (zone alpn_sh) Z :=
  let! inherited := has_data in
  if inherited then ret NGX_OK
  else
    shmtx_lock;;
    let! sh := alloc alpn_sh_size in
    shmtx_unlock;;
    match sh with
    | None => ret NGX_ERROR
    | Some sh => set_data sh Leaf;; ret NGX_OK
    end.

(** [ngx_http_autocert_cleanse] on a value of the slab: its bytes are zeroed
    unless it is empty. *)
Definition cleanse (a n : nat) : prog (zone alpn_sh) unit :=
  if (n =? 0)%nat then ret tt else slab_write a 0 (replicate n 0).

Definition alpn_replace (t : alpn_sh) (an : node pair_ref) (cert key : bytes) : prog (zone alpn_sh) Z :=
  let! cp := alloc (length cert) in
  match cp with
  | None => shmtx_unlock;; ret NGX_ERROR
  | Some cp =>
      let! kp := alloc (length key) in
      match kp with
      | None => slab_free cp;; shmtx_unlock;; ret NGX_ERROR
      | Some kp =>
          slab_write cp 0 cert;;
          slab_write kp 0 key;;
          slab_free (cert_data (n_val an));;
          cleanse (key_data (n_val an)) (key_len (n_val an));;
          slab_free (key_data (n_val an));;
          set_sh (update (n_addr an) (fun _ => PairRef cp (length cert) kp (length key)) t);;
          shmtx_unlock;;
          ret NGX_OK
      end
  end.

Definition alpn_insert (t : alpn_sh) (domain cert key : bytes) : prog (zone alpn_sh) Z :=
  let! an := alloc (alpn_node_size + length domain)%nat in
  match an with
  | None => shmtx_unlock;; ret NGX_ERROR
  | Some an =>
      let! cp := alloc (length cert) in
      match cp with
      | None => slab_free an;; shmtx_unlock;; ret NGX_ERROR
      | Some cp =>
          let! kp := alloc (length key) in
          match kp with
          | None => slab_free cp;; slab_free an;; shmtx_unlock;; ret NGX_ERROR
          | Some kp =>
              slab_write an alpn_node_size domain;;
              slab_write cp 0 cert;;
              slab_write kp 0 key;;
              let! t' := of_option (ngx_rbtree_insert ngx_autocert_alpn_insert_value t
                           (Node an (crc32 domain) (u16 (Z.of_nat (length domain))) domain
                              (PairRef cp (length cert) kp (length key)))) in
              set_sh t';;
              shmtx_unlock;;
              ret NGX_OK
          end
      end
  end.

Definition ngx_autocert_alpn_set (domain : bytes) (v : bytes * bytes) : prog (zone alpn_sh) Z :=
  let '(cert, key) := v in
  if negb (domain_len_ok domain && cert_len_ok cert && key_len_ok key) then ret NGX_ERROR
  else
    shmtx_lock;;
    let! t := get_sh in
    let! an := of_option (ngx_autocert_alpn_lookup t domain (crc32 domain)) in
    match an with
    | Some an => alpn_replace t an cert key
    | None => alpn_insert t domain cert key
    end.

Definition ngx_autocert_alpn_remove (domain : bytes) : prog (zone alpn_sh) Z :=
  if negb (domain_len_ok domain) then ret NGX_OK
  else
    shmtx_lock;;
    let! t := get_sh in
    let! an := of_option (ngx_autocert_alpn_lookup t domain (crc32 domain)) in
    match an with
    | Some an =>
        set_sh (rb_delete (n_addr an) t);;
        slab_free (cert_data (n_val an));;
        cleanse (key_data (n_val an)) (key_len (n_val an));;
        slab_free (key_data (n_val an));;
        slab_free (n_addr an);;
        shmtx_unlock;;
        ret NGX_OK
    | None => shmtx_unlock;; ret NGX_OK
    end.

(** Both values are copied under the lock, into one pool block. *)
Definition ngx_autocert_alpn_get (pool_oom : bool) (domain : bytes)
    : prog (zone alpn_sh) (Z * option (bytes * bytes)) :=
  if negb (domain_len_ok domain) then ret (NGX_DECLINED, None)
  else
    shmtx_lock;;
    let! t := get_sh in
    let! an := of_option (ngx_autocert_alpn_lookup t domain (crc32 domain)) in
    match an with
    | None => shmtx_unlock;; ret (NGX_DECLINED, None)
    | Some an =>
        if pool_oom then shmtx_unlock;; ret (NGX_ERROR, None)
        else
          let! c := slab_read (cert_data (n_val an)) (cert_len (n_val an)) in
          let! k := slab_read (key_data (n_val an)) (key_len (n_val an)) in
          shmtx_unlock;;
          ret (NGX_OK, Some (c, k))
    end.

(** ** The map it implements *)

Definition pair_ok (v : bytes * bytes) : bool := cert_len_ok v.1 && key_len_ok v.2.

Definition alpn_shape (x : node pair_ref) (cells : list (nat * bytes)) (v : bytes * bytes) : Prop :=
  cells = [(n_addr x, replicate alpn_node_size junk ++ n_name x);
           (cert_data (n_val x), v.1); (key_data (n_val x), v.2)]
  /\ cert_len (n_val x) = length v.1 /\ key_len (n_val x) = length v.2
  /\ pair_ok v = true /\ domain_len_ok (n_name x) = true.

Definition alpn_inv (z : zone alpn_sh) (m : gmap bytes (bytes * bytes)) : Prop :=
  z_locked z = false
  /\ exists hdr hb t es,
       z_data z = Some (hdr, t)
       /\ heap (z_slab z) ((hdr, hb) :: concat (snd <$> es))
       /\ tree_rep crc32 alpn_shape t es m.

Lemma alpn_open z m :
  alpn_inv z m ->
  exists hdr hb t es, z = Zone (z_slab z) false (Some (hdr, t))
    /\ heap (z_slab z) ((hdr, hb) :: concat (snd <$> es)) /\ tree_rep crc32 alpn_shape t es m.
Proof.
  destruct z as [s lk d]. intros (Hl & hdr & hb & t & es & Hd & Hh & Hr). simpl in *. subst.
  by exists hdr, hb, t, es.
Qed.

Lemma alpn_close s hdr hb t es m :
  heap s ((hdr, hb) :: concat (snd <$> es)) -> tree_rep crc32 alpn_shape t es m ->
  alpn_inv (Zone s false (Some (hdr, t))) m.
Proof. intros Hh Hr. split; [done|]. by exists hdr, hb, t, es. Qed.
End Alpn.
