(* ===== verification/AlpnThms.v ===== *)
(** * The TLS-ALPN-01 certificate store: it is a map from domains to pairs, and
    gives no private key back to the allocator *)

From S2P Require Import Prelude NgxCore Rbtree Shm Store Alpn.

Local Open Scope Z_scope.
Local Open Scope prog_scope.

Section Thms.
Context `{RB : NgxRbtree} (crc32 : bytes -> Z) (slab_oom : nat -> bool) (junk : Z).
Implicit Types (z : zone alpn_sh) (m : gmap bytes (bytes * bytes)).

Abbreviation rep := (tree_rep crc32 (alpn_shape junk)).
Abbreviation inv := (alpn_inv crc32 junk).

Definition short : Prop := exists n, slab_oom n = true.

(** What a block that was freed may hold: nothing of a private key. *)
Definition wiped (cert : bytes -> Prop) (b : bytes) : Prop :=
  (exists n, b = replicate n 0) \/ (exists n, b = replicate n junk)
  \/ (exists domain, b = replicate alpn_node_size junk ++ domain) \/ cert b.

Definition cert_of m (domain : bytes) (b : bytes) : Prop := exists v, m !! domain = Some v /\ b = v.1.

(** From [f] to [f'], only wiped blocks were freed. *)
Definition frees (cert : bytes -> Prop) (f f' : list bytes) : Prop :=
  exists news, f' = news ++ f /\ Forall (wiped cert) news.

Lemma frees_refl c f : frees c f f.
Proof. by exists []. Qed.

Lemma frees_cons c b f f' : frees c f f' -> wiped c b -> frees c f (b :: f').
Proof. intros (news & -> & Hf) Hb. exists (b :: news). split; [done|by constructor]. Qed.

Lemma domain_u16 name : domain_len_ok name = true -> u16 (Z.of_nat (length name)) = Z.of_nat (length name).
Proof.
  unfold domain_len_ok, NGX_AUTOCERT_ALPN_DOMAIN_MAX. intros H. reflect_bools. apply Z.mod_small. lia.
Qed.

Lemma pair_key_pos v : pair_ok v = true -> length v.2 <> 0%nat.
Proof. unfold pair_ok, key_len_ok. intros H. reflect_bools. done. Qed.

(** Wiping and freeing the key of a node. *)
Lemma wp_wipe a (k : bytes) n l z (Q : unit -> zone alpn_sh -> Prop) :
  heap (z_slab z) ((a, k) :: l) -> n = length k -> n <> 0%nat ->
  (forall s, heap s l -> freed s = replicate n 0 :: freed (z_slab z) -> Q tt (Zone s (z_locked z) (z_data z))) ->
  wp (cleanse a n;; slab_free a) z Q (fun _ => False).
Proof.
  intros Hh -> Hn HQ. wp_step. unfold cleanse. destruct (Nat.eqb_spec (length k) 0); [done|].
  eapply wp_slab_fill; [exact Hh|by rewrite length_replicate|]. intros s1 Hs1 Hf1.
  eapply wp_slab_free; [exact Hs1|]. intros s2 Hs2 Hf2. apply HQ; [done|]. simpl in *. by rewrite Hf2, Hf1.
Qed.

Lemma wp_alpn_replace s hdr hb t es x v m cert key :
  pair_ok (cert, key) = true ->
  heap s ((hdr, hb) :: concat (snd <$> es)) ->
  forall cells es', es ≡ₚ (x, cells) :: es' -> alpn_shape junk x cells v -> m !! n_name x = Some v ->
  rep t es m ->
  wp (alpn_replace slab_oom junk t x cert key) (Zone s true (Some (hdr, t)))
     (fun rc z' => frees (cert_of m (n_name x)) (freed s) (freed (z_slab z'))
                   /\ (rc = NGX_OK /\ inv z' (<[n_name x := (cert, key)]> m) \/ rc = NGX_ERROR /\ inv z' m /\ short))
     (fun _ => False).
Proof.
  intros Hk Hh cells es' Hp Hv Hm Hr. unfold alpn_replace. pose proof Hv as (-> & Hlc & Hlk & Hpo & Hd).
  assert (Hjunk : forall n, wiped (cert_of m (n_name x)) (replicate n junk)) by (right; left; by eexists).
  wp_step. eapply wp_slab_alloc; [exact Hh| |].
  - intros s1 Hs1 Hf1 Ho. wp_step. apply wp_unlock; [done|]. apply wp_ret. cbn [z_slab] in *. rewrite Hf1.
    split; [apply frees_refl|]. right. split; [done|]. split; [by eapply alpn_close|by eexists].
  - intros s1 cp Hs1 Hf1. wp_step. eapply wp_slab_alloc; [exact Hs1| |].
    + intros s2 Hs2 Hf2 Ho. wp_step. eapply wp_slab_free; [exact Hs2|]. intros s3 Hs3 Hf3.
      wp_step. apply wp_unlock; [done|]. apply wp_ret. cbn [z_slab] in *. rewrite Hf3, Hf2, Hf1.
      split; [apply frees_cons; [apply frees_refl|apply Hjunk]|]. right. split; [done|].
      split; [by eapply alpn_close|by eexists].
    + intros s2 kp Hs2 Hf2. rewrite Hp in Hs2. cbn [fmap list_fmap concat snd app] in Hs2.
      set (rest := concat (snd <$> es')) in *.
      set (nb := replicate _ _ ++ _) in *.
      wp_step. eapply (wp_slab_fill cp (replicate (length cert) junk) cert).
      { pull Hs2. }
      { by rewrite length_replicate. }
      intros s3 Hs3 Hf3. wp_step. eapply (wp_slab_fill kp (replicate (length key) junk) key).
      { pull Hs3. }
      { by rewrite length_replicate. }
      intros s4 Hs4 Hf4. wp_step. eapply (wp_slab_free (cert_data (n_val x)) v.1).
      { pull Hs4. }
      intros s5 Hs5 Hf5. apply wp_bind2, wp_bind. eapply (wp_wipe (key_data (n_val x)) v.2).
      { pull Hs5. }
      { done. } { rewrite Hlk. by apply pair_key_pos. }
      intros s6 Hs6 Hf6. wp_step. eapply wp_set_sh; [done|]. wp_step. apply wp_unlock; [done|].
      apply wp_ret. cbn [z_slab] in *. split.
      { rewrite Hf6, Hf5, Hf4, Hf3, Hf2, Hf1. apply frees_cons; [apply frees_cons; [apply frees_refl|]|].
        - right. right. right. by exists v.
        - left. by eexists. }
      left. split; [done|].
      eapply (alpn_close crc32 junk _ hdr hb _ ((_, [(n_addr x, nb); (cp, cert); (kp, key)]) :: es')).
      * eapply heap_perm; [|exact Hs6]. cbn [fmap list_fmap concat snd app]. fold rest. solve_Permutation.
      * eapply rep_update; [eapply rep_proper; [exact Hp|exact Hr]|]. unfold alpn_shape, upd.
        rewrite Nat.eqb_refl. by repeat split.
Qed.

Lemma alpn_shape_addr (x : node pair_ref) cells v : alpn_shape junk x cells v -> n_addr x ∈ cells.*1.
Proof. intros [-> _]. simpl. by left. Qed.

Lemma wp_alpn_insert s hdr hb t es m domain cert key :
  domain_len_ok domain = true -> pair_ok (cert, key) = true -> m !! domain = None ->
  heap s ((hdr, hb) :: concat (snd <$> es)) -> rep t es m ->
  wp (alpn_insert crc32 slab_oom junk t domain cert key) (Zone s true (Some (hdr, t)))
     (fun rc z' => frees (cert_of m domain) (freed s) (freed (z_slab z'))
                   /\ (rc = NGX_OK /\ inv z' (<[domain := (cert, key)]> m) \/ rc = NGX_ERROR /\ inv z' m /\ short))
     (fun _ => False).
Proof.
  intros Hd Hk Hm Hh Hr. unfold alpn_insert. set (rest := concat (snd <$> es)) in *.
  assert (Hjunk : forall n, wiped (cert_of m domain) (replicate n junk)) by (right; left; by eexists).
  assert (Hshort : forall n s', slab_oom n = true -> heap s' ((hdr, hb) :: rest) ->
            inv (Zone s' false (Some (hdr, t))) m /\ short).
  { intros n s' Ho Hs'. split; [by eapply alpn_close|by eexists]. }
  wp_step. eapply wp_slab_alloc; [exact Hh| |].
  { intros s1 Hs1 Hf1 Ho. wp_step. apply wp_unlock; [done|]. apply wp_ret. cbn [z_slab] in *. rewrite Hf1.
    split; [apply frees_refl|]. right. split; [done|by eapply Hshort]. }
  intros s1 an Hs1 Hf1. wp_step. eapply wp_slab_alloc; [exact Hs1| |].
  { intros s2 Hs2 Hf2 Ho. wp_step. eapply wp_slab_free; [exact Hs2|]. intros s3 Hs3 Hf3.
    wp_step. apply wp_unlock; [done|]. apply wp_ret. cbn [z_slab] in *. rewrite Hf3, Hf2, Hf1.
    split; [apply frees_cons; [apply frees_refl|apply Hjunk]|]. right. split; [done|by eapply Hshort]. }
  intros s2 cp Hs2 Hf2. wp_step. eapply wp_slab_alloc; [exact Hs2| |].
  { intros s3 Hs3 Hf3 Ho. wp_step. eapply wp_slab_free; [exact Hs3|]. intros s4 Hs4 Hf4.
    wp_step. eapply wp_slab_free; [exact Hs4|]. intros s5 Hs5 Hf5.
    wp_step. apply wp_unlock; [done|]. apply wp_ret. cbn [z_slab] in *. rewrite Hf5, Hf4, Hf3, Hf2, Hf1.
    split; [apply frees_cons; [apply frees_cons; [apply frees_refl|apply Hjunk]|apply Hjunk]|].
    right. split; [done|by eapply Hshort]. }
  intros s3 kp Hs3 Hf3. wp_step. eapply (wp_slab_write an (replicate (alpn_node_size + length domain) junk)).
  { pull Hs3. } { by rewrite length_replicate. }
  intros s4 Hs4 Hf4. wp_step. eapply (wp_slab_fill cp (replicate (length cert) junk) cert).
  { pull Hs4. } { by rewrite length_replicate. }
  intros s5 Hs5 Hf5. wp_step. eapply (wp_slab_fill kp (replicate (length key) junk) key).
  { pull Hs5. } { by rewrite length_replicate. }
  intros s6 Hs6 Hf6. set (x := Node an _ _ _ _).
  set (nb := _ ++ _ ++ _) in Hs6.
  assert (Hnb : nb = replicate alpn_node_size junk ++ domain).
  { unfold nb. rewrite take_replicate, drop_replicate, Nat.min_l, Nat.sub_diag by lia. by rewrite app_nil_r. }
  clearbody nb.
  assert (Hfresh : n_addr x ∉ n_addr <$> es.*1).
  { eapply (fresh_node s6 an nb es ((kp, key) :: (cp, cert) :: (hdr, hb) :: rest)).
    - reorder Hs6.
    - intros c Hc. rewrite !elem_of_cons. by do 3 right.
    - intros y cells Hin. destruct (rep_shape _ _ _ _ _ Hr y cells Hin) as (v & Hv & _).
      by eapply alpn_shape_addr. }
  destruct (rep_insert crc32 (alpn_shape junk) t es m x [(an, nb); (cp, cert); (kp, key)] (cert, key) Hr)
    as (t' & Et' & Hr'); [exact Hm|by apply domain_u16|done|exact Hfresh| |].
  { unfold alpn_shape. rewrite Hnb. by repeat split. }
  wp_step. eapply wp_of_option; [exact Et'|]. wp_step. eapply wp_set_sh; [done|].
  wp_step. apply wp_unlock; [done|]. apply wp_ret. cbn [z_slab] in *. split.
  { rewrite Hf6, Hf5, Hf4, Hf3, Hf2, Hf1. apply frees_refl. }
  left. split; [done|]. eapply alpn_close; [|exact Hr'].
  eapply heap_perm; [|exact Hs6]. cbn [fmap list_fmap concat snd app]. fold rest. solve_Permutation.
Qed.

Lemma wp_alpn_set z m domain v :
  inv z m ->
  wp (ngx_autocert_alpn_set crc32 slab_oom junk domain v) z
     (fun rc z' => frees (cert_of m domain) (freed (z_slab z)) (freed (z_slab z'))
        /\ (rc = NGX_OK /\ domain_len_ok domain = true /\ pair_ok v = true /\ inv z' (<[domain := v]> m)
            \/ rc = NGX_ERROR /\ inv z' m
               /\ (z' = z /\ ~ (domain_len_ok domain = true /\ pair_ok v = true) \/ short)))
     (fun _ => False).
Proof.
  intros Hi. destruct v as [cert key]. unfold ngx_autocert_alpn_set. wp_step; [wp_step|].
  - split; [apply frees_refl|]. right. do 2 (split; [done|]). left. split; [done|]. unfold pair_ok. simpl.
    intros [E1 [E2 E3]%andb_true_iff]. by rewrite E1, E2, E3 in Heqb.
  - apply negb_false_iff, andb_true_iff in Heqb as [[Hd Hc]%andb_true_iff Hk].
    assert (Hp : pair_ok (cert, key) = true) by (unfold pair_ok; simpl; by rewrite Hc, Hk).
    destruct (alpn_open _ _ _ _ Hi) as (hdr & hb & t & es & -> & Hh & Hr).
    wp_step. apply wp_lock; [done|]. wp_step. eapply wp_get_sh; [done|]. wp_step.
    destruct (rep_find _ _ _ _ _ domain Hr) as (o & Eo & Ho). eapply wp_of_option; [exact Eo|].
    destruct o as [x|].
    + destruct Ho as (<- & cells & v & es' & Hpe & Hv & Hm).
      eapply wp_mono; [by eapply (wp_alpn_replace _ hdr hb t es x v m)| |done].
      simpl. intros rc z' [Hf [[? ?]|(? & ? & ?)]]; (split; [done|]); [by left|right]. tauto.
    + eapply wp_mono; [eapply (wp_alpn_insert _ hdr hb t es m); done| |done].
      simpl. intros rc z' [Hf [[? ?]|(? & ? & ?)]]; (split; [done|]); [by left|right]. tauto.
Qed.

Lemma alpn_keys z m domain v : inv z m -> m !! domain = Some v -> domain_len_ok domain = true.
Proof.
  intros Hi Hm. destruct (alpn_open _ _ _ _ Hi) as (hdr & hb & t & es & -> & Hh & Hr).
  destruct (rep_dom _ _ _ _ _ Hr domain) as (x & Hx & <-); [by eexists|].
  apply fst_split in Hx as (cells & es' & Hp). destruct (rep_shape _ _ _ _ _ Hr x cells) as (w & Hw & _);
    [rewrite Hp; left|]. by destruct Hw as (_ & _ & _ & _ & ?).
Qed.

Lemma wp_alpn_remove z m domain :
  inv z m ->
  wp (ngx_autocert_alpn_remove crc32 domain) z
     (fun rc z' => frees (cert_of m domain) (freed (z_slab z)) (freed (z_slab z'))
                   /\ rc = NGX_OK /\ inv z' (delete domain m)) (fun _ => False).
Proof.
  intros Hi. unfold ngx_autocert_alpn_remove. wp_step; [wp_step|]; reflect_bools.
  - split; [apply frees_refl|]. split; [done|]. rewrite delete_id; [done|]. destruct (m !! domain) eqn:E; [|done].
    apply (alpn_keys _ _ _ _ Hi) in E. congruence.
  - destruct (alpn_open _ _ _ _ Hi) as (hdr & hb & t & es & -> & Hh & Hr).
    wp_step. apply wp_lock; [done|]. wp_step. eapply wp_get_sh; [done|]. wp_step.
    destruct (rep_find _ _ _ _ _ domain Hr) as (o & Eo & Ho). eapply wp_of_option; [exact Eo|].
    destruct o as [x|].
    + destruct Ho as (<- & cells & v & es' & Hp & (-> & Hlc & Hlk & Hpo & _) & Hm). rewrite Hp in Hh.
      wp_step. eapply wp_set_sh; [done|]. wp_step.
      cbn [fmap list_fmap concat snd app] in Hh. set (rest := concat (snd <$> es')) in *.
      eapply (wp_slab_free (cert_data (n_val x)) v.1). { pull Hh. }
      intros s1 Hs1 Hf1. apply wp_bind2, wp_bind. eapply (wp_wipe (key_data (n_val x)) v.2).
      { pull Hs1. } { done. } { rewrite Hlk. by apply pair_key_pos. }
      intros s2 Hs2 Hf2. wp_step. eapply (wp_slab_free (n_addr x)). { pull Hs2. }
      intros s3 Hs3 Hf3. wp_step. apply wp_unlock; [done|]. apply wp_ret. cbn [z_slab] in *. split.
      { rewrite Hf3, Hf2, Hf1. apply frees_cons; [apply frees_cons; [apply frees_cons; [apply frees_refl|]|]|].
        - right. right. right. by exists v.
        - left. by eexists.
        - right. right. left. by eexists. }
      split; [done|]. eapply alpn_close; [exact Hs3|]. eapply rep_delete, rep_proper; [exact Hp|exact Hr].
    + wp_step. apply wp_unlock; [done|]. apply wp_ret. split; [apply frees_refl|]. split; [done|].
      rewrite delete_id by done. by eapply alpn_close.
Qed.

Lemma wp_alpn_get z m pool_oom domain :
  inv z m ->
  wp (ngx_autocert_alpn_get crc32 pool_oom domain) z
     (fun r z' => z' = z /\ r = match m !! domain with
                               | None => (NGX_DECLINED, None)
                               | Some v => if pool_oom then (NGX_ERROR, None) else (NGX_OK, Some v)
                               end) (fun _ => False).
Proof.
  intros Hi. unfold ngx_autocert_alpn_get. wp_step; [wp_step|]; reflect_bools.
  - split; [done|]. destruct (m !! domain) eqn:E; [|done]. apply (alpn_keys _ _ _ _ Hi) in E. congruence.
  - destruct (alpn_open _ _ _ _ Hi) as (hdr & hb & t & es & -> & Hh & Hr).
    wp_step. apply wp_lock; [done|]. wp_step. eapply wp_get_sh; [done|]. wp_step.
    destruct (rep_find _ _ _ _ _ domain Hr) as (o & Eo & Ho). eapply wp_of_option; [exact Eo|].
    destruct o as [x|].
    + destruct Ho as (<- & cells & v & es' & Hp & (-> & Hlc & Hlk & _) & Hm). rewrite Hm.
      destruct pool_oom; [wp_step; apply wp_unlock; [done|]; by apply wp_ret|].
      rewrite Hp in Hh. cbn [fmap list_fmap concat snd app] in Hh.
      wp_step. eapply (wp_slab_read (cert_data (n_val x)) v.1). { pull Hh. } { lia. }
      wp_step. eapply (wp_slab_read (key_data (n_val x)) v.2). { pull Hh. } { lia. }
      wp_step. apply wp_unlock; [done|]. apply wp_ret. rewrite !take_ge by lia. by destruct v.
    + wp_step. apply wp_unlock; [done|]. apply wp_ret. by rewrite Ho.
Qed.

Lemma wp_alpn_init_fresh n f k :
  wp (ngx_autocert_alpn_init_zone slab_oom junk) (Zone (Slab n ∅ f k) false None)
     (fun rc z' => freed (z_slab z') = f /\ (rc = NGX_OK /\ inv z' ∅ \/ rc = NGX_ERROR /\ short)) (fun _ => False).
Proof.
  unfold ngx_autocert_alpn_init_zone. wp_step. unfold has_data, wp at 1. simpl.
  wp_step. apply wp_lock; [done|]. wp_step. eapply (wp_slab_alloc _ _ _ _ []); [by repeat constructor| |].
  - intros s Hs Hf Ho. wp_step. apply wp_unlock; [done|]. apply wp_ret.
    split; [done|]. right. split; [done|by eexists].
  - intros s a Hs Hf. wp_step. apply wp_unlock; [done|]. wp_step. unfold set_data, wp at 1. apply wp_ret.
    split; [done|]. left. split; [done|].
    eapply (alpn_close crc32 junk _ _ _ _ []); [exact Hs|apply rep_empty].
Qed.

Lemma wp_alpn_reload z m :
  inv z m -> wp (ngx_autocert_alpn_init_zone slab_oom junk) z (fun rc z' => rc = NGX_OK /\ z' = z) (fun _ => False).
Proof.
  intros Hi. destruct (alpn_open _ _ _ _ Hi) as (hdr & hb & t & es & -> & _).
  unfold ngx_autocert_alpn_init_zone. wp_step. unfold has_data, wp at 1. simpl. by apply wp_ret.
Qed.

#[refine] Definition alpn_store : Store alpn_sh (bytes * bytes) := {|
  store_init := ngx_autocert_alpn_init_zone slab_oom junk;
  store_set := ngx_autocert_alpn_set crc32 slab_oom junk;
  store_remove := ngx_autocert_alpn_remove crc32;
  store_get := ngx_autocert_alpn_get crc32;
  store_key_ok k := domain_len_ok k = true;
  store_value_ok v := pair_ok v = true;
  store_short := short;
  store_inv := inv;
  store_init_reload := wp_alpn_reload;
  store_get_spec z m k b := wp_alpn_get z m b k |}.
Proof.
  - intros n f k. eapply wp_weaken; [apply wp_alpn_init_fresh|]. by intros rc z' [_ ?].
  - intros z m k v Hi. eapply wp_weaken; [by apply (wp_alpn_set z m k v)|]. by intros rc z' [_ ?].
  - intros z m k Hi. eapply wp_weaken; [by apply (wp_alpn_remove z m k)|]. by intros rc z' [_ ?].
Defined.

(** The certificates that a history stores. *)
Definition stored (os : list (op (bytes * bytes))) (b : bytes) : Prop :=
  exists domain key, OSet domain (b, key) ∈ os.

Lemma wiped_mono (c c' : bytes -> Prop) b : (forall x, c x -> c' x) -> wiped c b -> wiped c' b.
Proof. intros H [?|[?|[?|?]]]; [by left|by right; left|by right; right; left|right; right; right; auto]. Qed.

Lemma frees_wiped (c c' : bytes -> Prop) f f' :
  (forall x, c x -> c' x) -> frees c f f' -> Forall (wiped c') f -> Forall (wiped c') f'.
Proof.
  intros H (news & -> & Hn) Hf. apply Forall_app. split; [|done].
  eapply Forall_impl; [exact Hn|]. intros b. by apply wiped_mono.
Qed.

Lemma wp_alpn_op (c : bytes -> Prop) z m o :
  inv z m -> (forall d v, m !! d = Some v -> c v.1) -> (forall d v, o = OSet d v -> c v.1) ->
  Forall (wiped c) (freed (z_slab z)) ->
  wp (run_op (S := alpn_store) o) z
     (fun r z' => exists m', map_op (S := alpn_store) m o r m' /\ inv z' m'
                  /\ (forall d v, m' !! d = Some v -> c v.1) /\ Forall (wiped c) (freed (z_slab z')))
     (fun _ => False).
Proof.
  intros Hi Hm Ho Hf. assert (Hc : forall d b, cert_of m d b -> c b) by (intros d b (v & Hv & ->); eauto).
  destruct o as [|k v|k|b k]; cbn [run_op store_set store_remove store_get store_init alpn_store].
  - wp_step. eapply wp_weaken; [by apply (wp_alpn_reload z m)|]. intros rc z' [-> ->].
    apply wp_ret. exists m. split; [constructor|done].
  - wp_step. eapply wp_weaken; [by apply (wp_alpn_set z m k v)|].
    intros rc z' [Hfr Hcase]. pose proof (frees_wiped _ _ _ _ (Hc k) Hfr Hf) as Hf'.
    destruct Hcase as [(-> & Hk & Hv & Hi')|(-> & Hi' & [[-> Hbad]|Hs])]; apply wp_ret.
    + exists (<[k := v]> m). split; [by constructor|]. split; [done|]. split; [|done].
      intros d w [[<- <-]|[_ Hw]]%lookup_insert_Some; eauto.
    + exists m. split; [by apply map_set_bad|done].
    + exists m. split; [by apply map_set_oom|done].
  - wp_step. eapply wp_weaken; [by apply (wp_alpn_remove z m k)|]. intros rc z' (Hfr & -> & Hi').
    apply wp_ret. exists (delete k m). split; [constructor|]. split; [done|].
    split; [|exact (frees_wiped _ _ _ _ (Hc k) Hfr Hf)]. intros d w [_ Hw]%lookup_delete_Some. eauto.
  - eapply wp_weaken; [by apply (wp_alpn_get z m b k)|]. intros r z' [-> ->].
    exists m. split; [|done]. destruct (m !! k) eqn:E; [destruct b|]; by econstructor.
Qed.

Lemma wp_alpn_ops (c : bytes -> Prop) z m os :
  inv z m -> (forall d v, m !! d = Some v -> c v.1) -> (forall b, stored os b -> c b) ->
  Forall (wiped c) (freed (z_slab z)) ->
  wp (run_ops (S := alpn_store) os) z
     (fun rs z' => exists m', map_ops (S := alpn_store) m os rs m' /\ inv z' m'
                   /\ Forall (wiped c) (freed (z_slab z')))
     (fun _ => False).
Proof.
  revert z m. induction os as [|o os IH]; intros z m Hi Hm Ho Hf; cbn [run_ops].
  - apply wp_ret. exists m. split; [constructor|done].
  - wp_step. eapply wp_weaken; [apply (wp_alpn_op c z m o); [done..| |done]|].
    + intros d [ct k] ->. apply Ho. exists d, k. by left.
    + intros r z1 (m1 & H1 & Hi1 & Hm1 & Hf1). wp_step. eapply wp_weaken; [apply (IH z1 m1); [done..| |done]|].
      * intros b (d & k & Hin). apply Ho. exists d, k. by right.
      * intros rs z2 (m2 & H2 & Hi2 & Hf2). apply wp_ret. exists m2. split; [by econstructor|done].
Qed.

(** C40. Any history of the TLS-ALPN-01 store answers as a map from domains to
    (certificate, key) pairs would, a failed replacement leaving the old pair
    intact; no call faults, deadlocks or leaks a block; and no private key goes
    back to the allocator readable: every block freed holds zeros, the contents
    it was allocated with, a node, or a certificate.  This is what the code does; alpn.h
    says otherwise of the lookup of an empty or over-long domain, which is answered as
    absent and not as an error ([get_of_bad_domain]). *)
Theorem alpn_store_refines (os : list (op (bytes * bytes))) :
  exists r z', life (S := alpn_store) os fresh_zone = Ret r z'
  /\ match r with
     | None => exists n, slab_oom n = true
     | Some rs =>
         exists m hdr hb t es,
           map_ops (S := alpn_store) ∅ os rs m
           /\ z_locked z' = false /\ z_data z' = Some (hdr, t)
           /\ live (z_slab z') = list_to_map ((hdr, hb) :: concat (snd <$> es))
           /\ tree_rep crc32 (alpn_shape junk) t es m
           /\ Forall (wiped (stored os)) (freed (z_slab z'))
     end.
Proof.
  assert (Hw : wp (life (S := alpn_store) os) fresh_zone
    (fun r z' => match r with
       | Some rs => exists m, map_ops (S := alpn_store) ∅ os rs m /\ inv z' m /\ Forall (wiped (stored os)) (freed (z_slab z'))
       | None => short end) (fun _ => False)).
  { unfold life, fresh_zone. wp_step. eapply wp_weaken; [apply wp_alpn_init_fresh|].
    intros rc z [Hf [[-> Hi]|[-> Hs]]]; simpl; [|by apply wp_ret].
    wp_step. eapply wp_weaken; [apply (wp_alpn_ops (stored os) z ∅); [done| |done|by rewrite Hf]|].
    { intros d v Hv. by rewrite lookup_empty in Hv. }
    intros rs z' H1. by apply wp_ret. }
  unfold wp in Hw. destruct (life os fresh_zone) as [r z'| | |]; [|done..]. exists r, z'. split; [done|].
  destruct r as [rs|]; [|done]. destruct Hw as (m & Hm & (Hl & hdr & hb & t & es & Hd & (Hh & _) & Hr) & Hf).
  by exists m, hdr, hb, t, es.
Qed.
End Thms.

(** Where alpn.h says otherwise: an empty domain, and one that is too long, is answered as absent. *)
Example get_of_bad_domain :
  match life (S := alpn_store (RB := plain_trees) (fun _ => 0) (fun _ => false) 0) [OGet false []; OGet false (replicate 300 97)] fresh_zone with
  | Ret (Some rs) _ => rs
  | _ => []
  end = [(NGX_DECLINED, None); (NGX_DECLINED, None)].
Proof. vm_compute. reflexivity. Qed.
