(* ===== verification/Requests.v ===== *)
(** * The runtime request registry (ngx_autocert_requests.c)

    Names discovered at run time, with the state of their certificates, in a
    zone shared with the module that asks for them. *)

From S2P Require Import Prelude NgxCore Ident Rbtree Shm.

Local Open Scope Z_scope.
Local Open Scope prog_scope.

Definition NGX_AUTOCERT_REQ_BACKOFF_BASE : Z := 300.
Definition NGX_AUTOCERT_REQ_BACKOFF_MAX : Z := 86400.
Definition NGX_AUTOCERT_API_VERSION : Z := 2.
Definition NGX_AUTOCERT_API_INACTIVE_FLAG : Z := Z.shiftl 1 63.
Definition NGX_AUTOCERT_API_INACTIVE_VERSION : Z :=
  Z.lor NGX_AUTOCERT_API_INACTIVE_FLAG NGX_AUTOCERT_API_VERSION.
Definition NGX_AUTOCERT_REQUEST_NAME_MAX : nat := 253%nat.
Definition NGX_AUTOCERT_REQUESTS_MAX : Z := 64.

Definition NGX_AUTOCERT_REQ_UNKNOWN : Z := 0.
Definition NGX_AUTOCERT_REQ_REQUESTED : Z := 1.
Definition NGX_AUTOCERT_REQ_PENDING : Z := 2.
Definition NGX_AUTOCERT_REQ_ISSUED : Z := 3.
Definition NGX_AUTOCERT_REQ_FAILED : Z := 4.
Definition NGX_AUTOCERT_REQ_DENIED : Z := 5.

(** The fields of [ngx_autocert_request_t] other than the node and the name. *)
Record req := Req {
  r_state : Z; first_seen : Z; last_attempt : Z; last_seen : Z; next_eligible : Z; fail_count : Z }.

(** [ngx_autocert_requests_sh_t]. *)
Record requests_sh := RequestsSh { api_version : Z; count : Z; rq_tree : tree req }.

(** [offsetof(ngx_autocert_request_t, host)] and the size of the header (LP64). *)
Definition request_node_size : nat := 90%nat.
Definition requests_sh_size : nat := 80%nat.

(** ** Names *)

Fixpoint is_ipv4_loop (buf : bytes) (octet digits dots : Z) : bool :=
  match buf with
  | [] => (dots =? 3) && (0 <? digits)
  | c :: buf' =>
      if c =? 46 then
        if digits =? 0 then false else is_ipv4_loop buf' 0 0 (dots + 1)
      else if (c <? 48) || (57 <? c) then false
      else
        let octet := octet * 10 + (c - 48) in
        let digits := digits + 1 in
        if (3 <? digits) || (255 <? octet) then false
        else is_ipv4_loop buf' octet digits dots
  end.

Definition ngx_autocert_requests_is_ipv4 (buf : bytes) : bool := is_ipv4_loop buf 0 0 0.

(** The loop over the name; [buf] is what has been written so far, [None] the
    return of 0.  [buf[i - 1]] is read only when it was written. *)
Fixpoint normalize_loop (host buf : bytes) (label_len : nat) : option (bytes * nat) :=
  match host with
  | [] => Some (buf, label_len)
  | c :: host' =>
      if c =? 46 then
        if (label_len =? 0)%nat then None
        else if bool_decide (last buf = Some 45) then None
        else normalize_loop host' (buf ++ [46]) 0
      else
        let c' := if (65 <=? c) && (c <=? 90) then u8 (c - 65 + 97) else c in
        if negb ((65 <=? c) && (c <=? 90))
           && negb (((97 <=? c) && (c <=? 122)) || ((48 <=? c) && (c <=? 57)) || (c =? 45))
        then None
        else if (c' =? 45) && (label_len =? 0)%nat then None
        else if (63 <? S label_len)%nat then None
        else normalize_loop host' (buf ++ [c']) (S label_len)
  end.

(** The name as normalized; [None] is a rejection. *)
Definition ngx_autocert_requests_normalize (host : bytes) : option bytes :=
  if (length host =? 0)%nat || (NGX_AUTOCERT_REQUEST_NAME_MAX <? length host)%nat then None
  else
    match normalize_loop host [] 0 with
    | None => None
    | Some (buf, label_len) =>
        if (label_len =? 0)%nat then None
        else if bool_decide (last buf = Some 45) then None
        else if ngx_autocert_requests_is_ipv4 buf then None
        else Some buf
    end.

(** The delay after the [n]-th failure: the loop of [set_state]. *)
Fixpoint backoff_loop (fuel : nat) (n backoff : Z) : option Z :=
  match fuel with
  | O => None
  | S fuel' =>
      if 1 <? n then
        let backoff := Z.shiftl backoff 1 in
        if NGX_AUTOCERT_REQ_BACKOFF_MAX <=? backoff then Some NGX_AUTOCERT_REQ_BACKOFF_MAX
        else backoff_loop fuel' (n - 1) backoff
      else Some backoff
  end.

Definition request_backoff (fail_count : Z) : option Z :=
  backoff_loop 16 fail_count NGX_AUTOCERT_REQ_BACKOFF_BASE.

(** The module's copies of the insertion order and of the search. *)
Definition ngx_autocert_requests_insert_value : tree req -> node req -> option (tree req) := insert_value.
Definition ngx_autocert_requests_lookup : tree req -> bytes -> Z -> option (option (node req)) := lookup.

Section Requests.
Context `{RB : NgxRbtree} (crc32 : bytes -> Z) (slab_oom : nat -> bool) (junk : Z).

Abbreviation alloc := (slab_alloc slab_oom junk).
Abbreviation shzone := (zone requests_sh).

(** Is the version stamp one under which the header may be written? *)
Definition requests_legacy_empty (sh : requests_sh) : bool :=
  (api_version sh =? 0) && (count sh =? 0) && match rq_tree sh with Leaf => true | _ => false end.

Definition ngx_autocert_requests_init_body (owner : bool) : prog shzone Z :=
  let stamp := if owner then NGX_AUTOCERT_API_VERSION else NGX_AUTOCERT_API_INACTIVE_VERSION in
  let! inherited := has_data in
  if inherited then
    let! sh := get_sh in
    if (api_version sh =? NGX_AUTOCERT_API_VERSION)
       || (api_version sh =? NGX_AUTOCERT_API_INACTIVE_VERSION)
       || requests_legacy_empty sh
    then set_sh (RequestsSh stamp (count sh) (rq_tree sh));; ret NGX_OK
    else ret (if owner then NGX_ERROR else NGX_OK)
  else
    shmtx_lock;;
    let! sh := alloc requests_sh_size in
    shmtx_unlock;;
    match sh with
    | None => ret NGX_ERROR
    | Some sh => set_data sh (RequestsSh stamp 0 Leaf);; ret NGX_OK
    end.

Definition ngx_autocert_requests_init_zone : prog shzone Z := ngx_autocert_requests_init_body true.
Definition ngx_autocert_requests_init_zone_consumer : prog shzone Z := ngx_autocert_requests_init_body false.

(** [sh == NULL || sh->api_version != NGX_AUTOCERT_API_VERSION]. *)
Definition requests_foreign : prog shzone bool := fun z =>
  match z_data z with
  | None => Ret true z
  | Some (_, sh) => Ret (negb (api_version sh =? NGX_AUTOCERT_API_VERSION)) z
  end.

(** [no_zone]: the zone argument is NULL or not mapped; [now]: [ngx_time()]. *)
Definition ngx_autocert_requests_ensure (no_zone : bool) (now : Z) (host : bytes) : prog shzone Z :=
  if no_zone then ret NGX_AUTOCERT_REQ_UNKNOWN
  else
    match ngx_autocert_requests_normalize host with
    | None => ret NGX_AUTOCERT_REQ_DENIED
    | Some norm =>
        let! foreign := requests_foreign in
        if foreign then ret NGX_AUTOCERT_REQ_UNKNOWN
        else
          shmtx_lock;;
          let! sh := get_sh in
          let! rn := of_option (ngx_autocert_requests_lookup (rq_tree sh) norm (crc32 norm)) in
          match rn with
          | Some rn =>
              set_sh (RequestsSh (api_version sh) (count sh)
                (update (n_addr rn) (fun r => Req (r_state r) (first_seen r) (last_attempt r) now
                                                (next_eligible r) (fail_count r)) (rq_tree sh)));;
              shmtx_unlock;;
              ret (r_state (n_val rn))
          | None =>
              if NGX_AUTOCERT_REQUESTS_MAX <=? count sh then
                shmtx_unlock;; ret NGX_AUTOCERT_REQ_DENIED
              else
                let! rn := alloc (request_node_size + length norm)%nat in
                match rn with
                | None => shmtx_unlock;; ret NGX_AUTOCERT_REQ_UNKNOWN
                | Some rn =>
                    slab_write rn request_node_size norm;;
                    let! t := of_option (ngx_rbtree_insert ngx_autocert_requests_insert_value (rq_tree sh)
                      (Node rn (crc32 norm) (u16 (Z.of_nat (length norm))) norm
                         (Req NGX_AUTOCERT_REQ_REQUESTED now 0 now 0 0))) in
                    set_sh (RequestsSh (api_version sh) (u64 (count sh + 1)) t);;
                    shmtx_unlock;;
                    ret NGX_AUTOCERT_REQ_REQUESTED
                end
          end
    end.

Definition ngx_autocert_requests_state (no_zone : bool) (host : bytes) : prog shzone Z :=
  if no_zone then ret NGX_AUTOCERT_REQ_UNKNOWN
  else
    match ngx_autocert_requests_normalize host with
    | None => ret NGX_AUTOCERT_REQ_UNKNOWN
    | Some norm =>
        let! foreign := requests_foreign in
        if foreign then ret NGX_AUTOCERT_REQ_UNKNOWN
        else
          shmtx_lock;;
          let! sh := get_sh in
          let! rn := of_option (ngx_autocert_requests_lookup (rq_tree sh) norm (crc32 norm)) in
          shmtx_unlock;;
          ret (match rn with Some rn => r_state (n_val rn) | None => NGX_AUTOCERT_REQ_UNKNOWN end)
    end.

(** Writing the state and the attempt time of a node. *)
Definition claim (now : Z) (r : req) : req :=
  Req NGX_AUTOCERT_REQ_PENDING (first_seen r) now (last_seen r) (next_eligible r) (fail_count r).

Definition claimable (now : Z) (r : req) : bool :=
  negb ((negb (r_state r =? NGX_AUTOCERT_REQ_REQUESTED) && negb (r_state r =? NGX_AUTOCERT_REQ_FAILED))
        || (negb (next_eligible r =? 0) && (now <? next_eligible r))).

Section Walks.
(** Which of the successive array pushes and pool allocations fail; the zone or
    an argument is NULL. *)
Context (push_oom copy_oom : nat -> bool) (bad_args : bool).

(** The walk of [drain] over the remaining nodes; the result is the return value
    and the hosts appended to [out]. *)
Fixpoint drain_loop (now max : Z) (nodes : list (node req)) (out : list bytes) : prog shzone (Z * list bytes) :=
  let claimed := Z.of_nat (length out) in
  match nodes with
  | [] => shmtx_unlock;; ret (claimed, out)
  | rn :: nodes' =>
      if negb (max =? 0) && (max <=? claimed) then shmtx_unlock;; ret (claimed, out)
      else if negb (claimable now (n_val rn)) then drain_loop now max nodes' out
      else if push_oom (length out) || copy_oom (length out) then
        shmtx_unlock;; ret (if 0 <? claimed then claimed else -1, out)
      else
        let! sh := get_sh in
        set_sh (RequestsSh (api_version sh) (count sh) (update (n_addr rn) (claim now) (rq_tree sh)));;
        drain_loop now max nodes' (out ++ [n_name rn])
  end.

Definition ngx_autocert_requests_drain (now max : Z) : prog shzone (Z * list bytes) :=
  if bad_args then ret (-1, [])
  else
    let! foreign := requests_foreign in
    if foreign then ret (-1, [])
    else
      shmtx_lock;;
      let! sh := get_sh in
      match rq_tree sh with
      | Leaf => shmtx_unlock;; ret (0, [])
      | _ => drain_loop now max (rb_walk (rq_tree sh)) []
      end.

Fixpoint list_issued_loop (max : Z) (nodes : list (node req)) (out : list bytes) : prog shzone (Z * list bytes) :=
  let listed := Z.of_nat (length out) in
  match nodes with
  | [] => shmtx_unlock;; ret (listed, out)
  | rn :: nodes' =>
      if negb (max =? 0) && (max <=? listed) then shmtx_unlock;; ret (listed, out)
      else if negb (r_state (n_val rn) =? NGX_AUTOCERT_REQ_ISSUED) then list_issued_loop max nodes' out
      else if push_oom (length out) || copy_oom (length out) then
        shmtx_unlock;; ret (if 0 <? listed then listed else -1, out)
      else list_issued_loop max nodes' (out ++ [n_name rn])
  end.

Definition ngx_autocert_requests_list_issued (max : Z) : prog shzone (Z * list bytes) :=
  if bad_args then ret (-1, [])
  else
    let! foreign := requests_foreign in
    if foreign then ret (-1, [])
    else
      shmtx_lock;;
      let! sh := get_sh in
      match rq_tree sh with
      | Leaf => shmtx_unlock;; ret (0, [])
      | _ => list_issued_loop max (rb_walk (rq_tree sh)) []
      end.

(** The nodes idle for longer than [ttl], up to the size of the stack array. *)
Fixpoint gc_victims (now ttl : Z) (nodes : list (node req)) (nvictims : Z) : list (node req) :=
  match nodes with
  | [] => []
  | rn :: nodes' =>
      if nvictims <? NGX_AUTOCERT_REQUESTS_MAX then
        if now - last_seen (n_val rn) <=? ttl then gc_victims now ttl nodes' nvictims
        else rn :: gc_victims now ttl nodes' (nvictims + 1)
      else []
  end.

Fixpoint gc_loop (victims : list (node req)) (out : list bytes) : prog shzone (Z * list bytes) :=
  match victims with
  | [] => shmtx_unlock;; ret (Z.of_nat (length out), out)
  | rn :: victims' =>
      if push_oom (length out) || copy_oom (length out) then
        shmtx_unlock;; ret (Z.of_nat (length out), out)
      else
        let! sh := get_sh in
        set_sh (RequestsSh (api_version sh) (if 0 <? count sh then count sh - 1 else count sh)
                  (rb_delete (n_addr rn) (rq_tree sh)));;
        slab_free (n_addr rn);;
        gc_loop victims' (out ++ [n_name rn])
  end.

Definition ngx_autocert_requests_gc (now ttl : Z) : prog shzone (Z * list bytes) :=
  if bad_args then ret (-1, [])
  else if ttl <=? 0 then ret (0, [])
  else
    let! foreign := requests_foreign in
    if foreign then ret (-1, [])
    else
      shmtx_lock;;
      let! sh := get_sh in
      match rq_tree sh with
      | Leaf => shmtx_unlock;; ret (0, [])
      | _ => gc_loop (gc_victims now ttl (rb_walk (rq_tree sh)) 0) []
      end.
End Walks.

(** What [set_state] writes to the node; [None]: the delay loop ran out of fuel. *)
Definition set_state_fields (state eligible now : Z) (r : req) : option req :=
  if state =? NGX_AUTOCERT_REQ_FAILED then
    let n := u64 (fail_count r + 1) in
    if eligible =? 0 then
      match request_backoff n with
      | Some backoff => Some (Req state (first_seen r) now now (now + backoff) n)
      | None => None
      end
    else Some (Req state (first_seen r) now now eligible n)
  else Some (Req state (first_seen r) now now eligible (fail_count r)).

Definition ngx_autocert_requests_set_state (no_zone : bool) (now : Z) (host : bytes) (state eligible : Z)
    : prog shzone Z :=
  if no_zone || (state <=? NGX_AUTOCERT_REQ_UNKNOWN) || (NGX_AUTOCERT_REQ_DENIED <? state) then ret NGX_ERROR
  else
    match ngx_autocert_requests_normalize host with
    | None => ret NGX_ERROR
    | Some norm =>
        let! foreign := requests_foreign in
        if foreign then ret NGX_ERROR
        else
          shmtx_lock;;
          let! sh := get_sh in
          let! rn := of_option (ngx_autocert_requests_lookup (rq_tree sh) norm (crc32 norm)) in
          match rn with
          | None => shmtx_unlock;; ret NGX_OK
          | Some rn =>
              match set_state_fields state eligible now (n_val rn) with
              | None => nofuel
              | Some r =>
                  set_sh (RequestsSh (api_version sh) (count sh) (update (n_addr rn) (fun _ => r) (rq_tree sh)));;
                  shmtx_unlock;;
                  ret NGX_OK
              end
          end
    end.
End Requests.
