(* ===== verification/RequestsNames.v ===== *)
(** * Runtime names and retry delays

    What the registry accepts as a name, and how long it makes a failed name wait. *)

From S2P Require Import Prelude NgxCore Ident Rbtree Shm Requests.

Local Open Scope Z_scope.

(** ** Dotted quads *)

Definition octet_ok (l : bytes) : Prop :=
  (0 < length l <= 3)%nat /\ forallb is_digit l = true /\ dec_val l <= 255.

(** [a.b.c.d], each of one to three digits and at most 255. *)
Definition dotted_quad (l : bytes) : Prop := length (split_dots l) = 4%nat /\ Forall octet_ok (split_dots l).

Definition octet_scanned (cur : bytes) (octet digits : Z) : Prop :=
  digits = Z.of_nat (length cur) /\ digits <= 3 /\ forallb is_digit cur = true /\ octet = dec_val cur /\ octet <= 255.

Lemma dec_val_snoc l c : dec_val (l ++ [c]) = dec_val l * 10 + (c - 48).
Proof. unfold dec_val, dec_acc. by rewrite fold_left_app. Qed.

Lemma dec_val_prefix_le l l' :
  forallb is_digit (l ++ l') = true -> dec_val l <= dec_val (l ++ l').
Proof.
  rewrite forallb_app, andb_true_iff. intros [H1 H2]. unfold dec_val. rewrite dec_acc_app.
  apply dec_acc_mono; [|done]. by apply (dec_acc_mono 0 l).
Qed.

Lemma is_ipv4_loop_split l cur octet digits dots :
  octet_scanned cur octet digits -> 0 <= dots ->
  is_ipv4_loop l octet digits dots = true <->
  exists h t, split_dots l = h :: t /\ octet_ok (cur ++ h) /\ Forall octet_ok t /\ dots + Z.of_nat (length t) = 3.
Proof.
  revert cur octet digits dots. induction l as [|c l IH]; intros cur octet digits dots (-> & Hl & Hf & -> & Hv) Hd; simpl.
  - rewrite andb_true_iff, Z.eqb_eq, Z.ltb_lt. split.
    + intros [H1 H2]. exists [], []. rewrite app_nil_r. split; [done|]. split; [|split; [constructor|simpl; lia]].
      split; [lia|done].
    + intros (h & t & [= <- <-] & Ho & _ & Ht). rewrite app_nil_r in Ho. destruct Ho as [Ho _]. simpl in Ht. lia.
  - pose proof (split_dots_nonempty l) as Hne. destruct (Z.eqb_spec c 46) as [->|Hc].
    + assert (Hs0 : octet_scanned [] 0 0) by (repeat split; simpl; lia).
      specialize (IH [] 0 0 (dots + 1) Hs0 ltac:(lia)).
      destruct (Z.eqb_spec (Z.of_nat (length cur)) 0) as [E|E].
      { split; [done|]. intros (h & t & [= <- _] & Ho & _). rewrite app_nil_r in Ho. destruct Ho as [Ho _]. lia. }
      rewrite IH. split.
      * intros (h & t & Es & Hh & Ht & Hn). exists [], (h :: t). rewrite app_nil_r, Es. split; [done|].
        split; [split; [lia|done]|]. split; [by constructor|]. simpl. lia.
      * intros (h & t & [= <- Ht] & _ & Hft & Hn). destruct (split_dots l) as [|h' t'] eqn:E'; [done|]. subst t.
        apply Forall_cons in Hft as []. exists h', t'. split; [done|]. split; [done|]. split; [done|]. simpl in Hn. lia.
    + destruct (split_dots l) as [|h t] eqn:Esp; [done|].
      assert (Hbad : ~ octet_ok (cur ++ c :: h) -> false = true <-> exists h0 t0, (c :: h) :: t = h0 :: t0
                /\ octet_ok (cur ++ h0) /\ Forall octet_ok t0 /\ dots + Z.of_nat (length t0) = 3).
      { intros Hn. split; [done|]. intros (h0 & t0 & [= <- <-] & Ho & _). done. }
      replace (cur ++ c :: h) with ((cur ++ [c]) ++ h) in Hbad by (by rewrite <- app_assoc).
      destruct ((c <? 48) || (57 <? c)) eqn:Edig.
      { apply Hbad. intros (_ & Hdig & _). rewrite !forallb_app in Hdig. simpl in Hdig. unfold is_digit in Hdig.
        reflect_bools. lia. }
      assert (Hdc : is_digit c = true) by (unfold is_digit; lia).
      assert (Hf' : forallb is_digit (cur ++ [c]) = true) by (rewrite forallb_app, Hf; simpl; by rewrite Hdc).
      rewrite <- dec_val_snoc.
      destruct ((3 <? _) || (255 <? _)) eqn:Ebig.
      { apply Hbad. intros (Hlen & Hdig & Hval). pose proof (dec_val_prefix_le _ _ Hdig).
        rewrite !length_app in Hlen. simpl in Hlen. apply orb_true_iff in Ebig as [Ebig|Ebig]; reflect_bools; lia. }
      apply orb_false_iff in Ebig as [Eb1 Eb2]. apply Z.ltb_ge in Eb1, Eb2.
      rewrite (IH (cur ++ [c])); [|split; [rewrite length_app; simpl; lia|]; by repeat split|done].
      split; intros (h0 & t0 & [= <- <-] & H1 & H2).
      * exists (c :: h), t. rewrite <- app_assoc in H1. done.
      * exists h, t. rewrite <- app_assoc. done.
Qed.

Lemma is_ipv4_spec l : ngx_autocert_requests_is_ipv4 l = true <-> dotted_quad l.
Proof.
  unfold ngx_autocert_requests_is_ipv4. rewrite (is_ipv4_loop_split l []); [|by repeat split|done].
  unfold dotted_quad. split.
  - intros (h & t & -> & H1 & H2 & H3). split; [simpl; lia|by constructor].
  - intros [Hl Hf]. destruct (split_dots l) as [|h t]; [done|]. apply Forall_cons in Hf as [H1 H2].
    exists h, t. split; [done|]. split; [done|]. split; [done|]. simpl in Hl. lia.
Qed.

(** ** Normalization *)

(** The loop is the check of configured names, run on the lower-cased name. *)
Lemma normalize_loop_dns host buf n :
  (n = 0%nat \/ exists c, last buf = Some c) ->
  match normalize_loop host buf n with
  | Some (b, k) =>
      b = buf ++ (lower <$> host)
      /\ dns_loop (lower <$> host) n (default 0 (last buf)) = negb ((k =? 0)%nat || bool_decide (last b = Some 45))
  | None => dns_loop (lower <$> host) n (default 0 (last buf)) = false
  end.
Proof.
  revert buf n. induction host as [|c host IH]; intros buf n Hb; cbn [normalize_loop fmap list_fmap dns_loop].
  - rewrite app_nil_r. split; [done|]. f_equal. destruct (n =? 0)%nat eqn:En; [done|]. simpl.
    destruct Hb as [->|[c Hc]]; [done|]. rewrite Hc. simpl.
    destruct (Z.eqb_spec c 45) as [->|]; [by rewrite bool_decide_eq_true_2|rewrite bool_decide_eq_false_2; congruence].
  - destruct (Z.eqb_spec c 46) as [->|Hc].
    + change (lower 46) with 46. simpl.
      assert (Eh : (n =? 0)%nat = false -> bool_decide (last buf = Some 45) = (default 0 (last buf) =? 45)).
      { intros En. destruct Hb as [->|[c Hc]]; [done|]. rewrite Hc. simpl.
        destruct (Z.eqb_spec c 45) as [->|]; [by rewrite bool_decide_eq_true_2|rewrite bool_decide_eq_false_2; congruence]. }
      destruct (n =? 0)%nat; [done|]. rewrite Eh by done. destruct (_ =? 45); [done|].
      specialize (IH (buf ++ [46]) 0%nat (or_introl eq_refl)). rewrite last_snoc in IH. simpl in IH.
      destruct (normalize_loop host (buf ++ [46]) 0) as [[b k]|]; [|done]. destruct IH as [-> ?].
      split; [by rewrite <- app_assoc|done].
    + set (c' := if (65 <=? c) && (c <=? 90) then u8 (c - 65 + 97) else c).
      assert (Hc' : c' = lower c).
      { unfold c'. destruct ((65 <=? c) && (c <=? 90)) eqn:E; reflect_bools.
        - destruct (lower_upper c) as [-> ->]; [lia|done].
        - rewrite lower_other; [done|]. lia. }
      assert (Hldh : is_ldh (lower c) = negb (negb ((65 <=? c) && (c <=? 90))
          && negb (((97 <=? c) && (c <=? 122)) || ((48 <=? c) && (c <=? 57)) || (c =? 45)))).
      { unfold is_ldh. destruct ((65 <=? c) && (c <=? 90)) eqn:E; reflect_bools.
        - destruct (lower_upper c) as [-> _]; [lia|]. simpl. lia.
        - rewrite lower_other by lia. simpl. lia. }
      assert (H46 : (lower c =? 46) = false).
      { apply Z.eqb_neq. destruct (decide (65 <= c <= 90)); [destruct (lower_upper c) as [-> _]; lia|by rewrite lower_other]. }
      rewrite H46, Hldh, <- Hc'. clearbody c'. rewrite negb_involutive.
      destruct (_ && negb _); [done|]. destruct ((c' =? 45) && _); [done|].
      destruct (63 <? S n)%nat; [done|].
      specialize (IH (buf ++ [c']) (S n)). rewrite last_snoc in IH. simpl in IH.
      specialize (IH (or_intror (ex_intro _ c' eq_refl))).
      destruct (normalize_loop host (buf ++ [c']) (S n)) as [[b k]|]; [|done]. destruct IH as [-> ?].
      split; [by rewrite <- app_assoc|done].
Qed.

Lemma requests_normalize_spec (host norm : bytes) :
  ngx_autocert_requests_normalize host = Some norm <->
  norm = lower <$> host /\ (length host <= 253)%nat
  /\ Forall label_ok (split_dots norm) /\ ~ dotted_quad norm.
Proof.
  unfold ngx_autocert_requests_normalize, NGX_AUTOCERT_REQUEST_NAME_MAX.
  assert (Hdns : dns_loop (lower <$> host) 0 0 = true <-> Forall label_ok (split_dots (lower <$> host))).
  { assert (Hs0 : scanned [] 0 0) by (repeat split; simpl; try lia; try done; constructor).
    rewrite (dns_loop_split _ [] 0 0 Hs0). split.
    - intros (h & t & -> & H1 & H2). by constructor.
    - intros Hf. destruct (split_dots _) as [|h t] eqn:E; [by apply split_dots_nonempty in E|].
      apply Forall_cons in Hf as []. by exists h, t. }
  destruct (Nat.eqb_spec (length host) 0) as [E0|E0]; simpl.
  { split; [done|]. intros (-> & _ & Hf & _). apply nil_length_inv in E0 as ->. simpl in Hf.
    apply Forall_cons in Hf as [[H _] _]. simpl in H. lia. }
  destruct (Nat.ltb_spec 253 (length host)); [split; [done|lia]|].
  pose proof (normalize_loop_dns host [] 0 (or_introl eq_refl)) as Hn. simpl in Hn.
  destruct (normalize_loop host [] 0) as [[b k]|].
  - destruct Hn as [-> Hd]. rewrite Hd in Hdns. rewrite negb_true_iff, orb_false_iff in Hdns.
    destruct (k =? 0)%nat.
    { split; [done|]. intros (-> & _ & Hf & _). apply Hdns in Hf as []. done. }
    destruct (bool_decide _).
    { split; [done|]. intros (-> & _ & Hf & _). apply Hdns in Hf as []. done. }
    assert (Hf : Forall label_ok (split_dots (lower <$> host))) by (by apply Hdns).
    destruct (ngx_autocert_requests_is_ipv4 (lower <$> host)) eqn:Ei.
    + split; [done|]. intros (-> & _ & _ & Hq). apply is_ipv4_spec in Ei. done.
    + split; [|by intros (-> & _)]. intros [= <-]. split; [done|]. split; [lia|]. split; [done|].
      rewrite <- is_ipv4_spec. by rewrite Ei.
  - split; [done|]. intros (-> & _ & Hf & _). apply Hdns in Hf. by rewrite Hn in Hf.
Qed.

(** The registry accepts exactly the names whose lower-cased form is made of
    well-formed DNS labels, is at most 253 bytes long and is not an IPv4
    literal, and files them under that form. *)
Theorem requests_normalize_iff (host norm : bytes) :
  ngx_autocert_requests_normalize host = Some norm <->
  norm = lower <$> host /\ (length host <= 253)%nat
  /\ Forall label_ok (split_dots norm) /\ ~ dotted_quad norm.
Proof. apply requests_normalize_spec. Qed.

Lemma lower_idem c : lower (lower c) = lower c.
Proof.
  destruct (decide (65 <= c <= 90)) as [H|H]; [|by rewrite !(lower_other c)].
  destruct (lower_upper c H) as [-> _]. apply lower_other. lia.
Qed.

(** A normalized name is its own normal form. *)
Lemma normalize_idem host norm :
  ngx_autocert_requests_normalize host = Some norm -> ngx_autocert_requests_normalize norm = Some norm.
Proof.
  rewrite !requests_normalize_spec. intros (-> & Hl & Hf & Hq). rewrite length_fmap. split; [|done].
  rewrite <- list_fmap_compose. apply list_fmap_ext. intros i c _. symmetry. apply lower_idem.
Qed.

Lemma normalize_length host norm :
  ngx_autocert_requests_normalize host = Some norm -> (length norm <= 253)%nat.
Proof. rewrite requests_normalize_spec. intros (-> & Hl & _). by rewrite length_fmap. Qed.

(** ** Retry delays *)

Lemma backoff_loop_spec fuel n b :
  0 < b -> 0 < n -> n <= Z.of_nat fuel \/ NGX_AUTOCERT_REQ_BACKOFF_MAX <= b * 2 ^ (Z.of_nat fuel - 1) ->
  b <= NGX_AUTOCERT_REQ_BACKOFF_MAX -> (0 < fuel)%nat ->
  backoff_loop fuel n b = Some (Z.min (b * 2 ^ (n - 1)) NGX_AUTOCERT_REQ_BACKOFF_MAX).
Proof.
  unfold NGX_AUTOCERT_REQ_BACKOFF_MAX.
  revert n b. induction fuel as [|f IH]; intros n b Hb Hn Hf Hm Hpos; [lia|]. cbn [backoff_loop].
  unfold NGX_AUTOCERT_REQ_BACKOFF_MAX. rewrite Z.shiftl_mul_pow2 by lia. change (2 ^ 1) with 2.
  destruct (Z.ltb_spec 1 n) as [H1|H1].
  - assert (E : 2 ^ (n - 1) = 2 * 2 ^ (n - 1 - 1)) by (rewrite <- Z.pow_succ_r by lia; f_equal; lia).
    assert (Hp : 0 < 2 ^ (n - 1 - 1)) by (apply Z.pow_pos_nonneg; lia).
    destruct (Z.leb_spec 86400 (b * 2)) as [H2|H2]; [f_equal; nia|].
    rewrite IH; [f_equal; rewrite E; f_equal; lia|lia|lia| |lia|].
    + destruct Hf as [Hf|Hf]; [left; lia|right]. rewrite Nat2Z.inj_succ in Hf.
      replace (Z.succ (Z.of_nat f) - 1) with (Z.of_nat f) in Hf by lia.
      destruct f as [|f]; [simpl in Hf; lia|]. rewrite Nat2Z.inj_succ in *.
      replace (Z.succ (Z.of_nat f) - 1) with (Z.of_nat f) by lia. rewrite Z.pow_succ_r in Hf by lia. lia.
    + destruct f as [|f]; [|lia]. destruct Hf as [Hf|Hf]; [lia|simpl in Hf; lia].
  - replace n with 1 by lia. change (2 ^ (1 - 1)) with 1. f_equal. lia.
Qed.

Lemma request_backoff_closed (n : Z) :
  1 <= n -> request_backoff n = Some (Z.min (300 * 2 ^ (n - 1)) 86400).
Proof.
  intros Hn. unfold request_backoff. apply backoff_loop_spec; unfold NGX_AUTOCERT_REQ_BACKOFF_BASE,
    NGX_AUTOCERT_REQ_BACKOFF_MAX; [lia|lia| |lia|lia]. right. vm_compute. discriminate.
Qed.

(** After its [n]-th consecutive failure a name waits 300 seconds doubled
    [n - 1] times, capped at a day: however large [n] is, the loop ends and
    nothing overflows. *)
Theorem request_backoff_spec (n : Z) :
  1 <= n -> request_backoff n = Some (Z.min (300 * 2 ^ (n - 1)) 86400).
Proof. apply request_backoff_closed. Qed.

Lemma request_backoff_spec_witness :
  (request_backoff 3 = Some 1200 /\ request_backoff (2 ^ 64 - 1) = Some 86400)
  /\ request_backoff 3 = Some (Z.min (300 * 2 ^ (3 - 1)) 86400).
Proof. split; [split; reflexivity|]. apply (request_backoff_spec 3). lia. Defined.
