(* ===== verification/RequestsThms.v ===== *)
(** * The runtime request registry: a bounded map, claimed one owner at a time *)

From S2P Require Import Prelude NgxCore Ident Rbtree Shm Requests RequestsNames.

Local Open Scope Z_scope.
Local Open Scope prog_scope.

(** ** The registry as a map *)

(** A name in the form under which it is filed. *)
Definition filed (name : bytes) : Prop := ngx_autocert_requests_normalize name = Some name.

Definition touch (now : Z) (r : req) : req :=
  Req (r_state r) (first_seen r) (last_attempt r) now (next_eligible r) (fail_count r).

Definition new_req (now : Z) : req := Req NGX_AUTOCERT_REQ_REQUESTED now 0 now 0 0.

Definition claim_all (now : Z) (m : gmap bytes req) (hosts : list bytes) : gmap bytes req :=
  fold_left (fun m h => alter (claim now) h m) hosts m.

Definition drop_all (m : gmap bytes req) (hosts : list bytes) : gmap bytes req :=
  fold_left (fun m h => delete h m) hosts m.

Definition issued (r : req) : bool := r_state r =? NGX_AUTOCERT_REQ_ISSUED.
Definition idle (now ttl : Z) (r : req) : bool := ttl <? now - last_seen r.

(** A walk that copied out [hosts]: distinct names of entries satisfying [p], at
    most [max] of them unless [max] is 0, and all of them unless it reached [max]
    or an allocation failed. *)
Definition selected (p : req -> bool) (max : Z) (oom : Prop) (m : gmap bytes req) (hosts : list bytes) : Prop :=
  NoDup hosts
  /\ (forall h, h ∈ hosts -> exists r, m !! h = Some r /\ p r = true)
  /\ (max <> 0 -> Z.of_nat (length hosts) <= max)
  /\ (oom \/ max <> 0 /\ Z.of_nat (length hosts) = max
      \/ forall h r, m !! h = Some r -> p r = true -> h ∈ hosts).

(** The number of names copied out, or -1 when the very first copy failed. *)
Definition walk_rc (oom : Prop) (hosts : list bytes) (rc : Z) : Prop :=
  rc = Z.of_nat (length hosts) \/ rc = -1 /\ hosts = [] /\ oom.

Section Thms.
Context `{RB : NgxRbtree} (crc32 : bytes -> Z) (slab_oom : nat -> bool) (junk : Z).
Implicit Types (z : zone requests_sh) (m : gmap bytes req).

Definition req_shape (x : node req) (cells : list (nat * bytes)) (v : req) : Prop :=
  (exists nb, cells = [(n_addr x, nb)]) /\ v = n_val x /\ filed (n_name x).

Abbreviation rep := (tree_rep crc32 req_shape).

(** The mutex, the header, the tree and the blocks, standing for [m]. *)
Definition req_zone (locked : bool) (z : zone requests_sh) (es : list (node req * list (nat * bytes))) m : Prop :=
  exists s hdr hb t,
    z = Zone s locked (Some (hdr, RequestsSh NGX_AUTOCERT_API_VERSION (Z.of_nat (size m)) t))
    /\ heap s ((hdr, hb) :: concat (snd <$> es)) /\ rep t es m
    /\ Z.of_nat (size m) <= NGX_AUTOCERT_REQUESTS_MAX.

Definition req_inv z m : Prop := exists es, req_zone false z es m.

Definition short : Prop := exists n, slab_oom n = true.

Lemma filed_u16 name : filed name -> u16 (Z.of_nat (length name)) = Z.of_nat (length name).
Proof. intros H. apply normalize_length in H. apply Z.mod_small. lia. Qed.

Lemma wp_native {A} z m Q (k : bool -> prog (zone requests_sh) A) E :
  req_inv z m -> wp (k false) z Q E -> wp (bind requests_foreign k) z Q E.
Proof. intros (es & s & hdr & hb & t & -> & _) Hw. unfold wp, bind, requests_foreign in *. exact Hw. Qed.

(** Writing the fields of a filed name. *)
Lemma wp_write_node locked z es m x cells f (Q : unit -> zone requests_sh -> Prop) E :
  req_zone locked z ((x, cells) :: es) m ->
  (forall z', req_zone locked z' ((upd (n_addr x) f x, cells) :: es) (<[n_name x := f (n_val x)]> m) -> Q tt z') ->
  forall sh, (exists a, z_data z = Some (a, sh)) ->
  wp (set_sh (RequestsSh (api_version sh) (count sh) (update (n_addr x) f (rq_tree sh)))) z Q E.
Proof.
  intros (s & hdr & hb & t & -> & Hh & Hr & Hc) HQ sh [a Ha]. injection Ha as <- <-. cbn [api_version count rq_tree].
  eapply wp_set_sh; [done|]. apply HQ. destruct (rep_shape _ _ _ _ _ Hr x cells) as (v & Hv & Hm); [left|].
  destruct Hv as ([nb ->] & -> & Hf).
  assert (Es : size (<[n_name x := f (n_val x)]> m) = size m) by (by rewrite map_size_insert_Some).
  exists s, hdr, hb, (update (n_addr x) f t). rewrite Es. split; [done|]. split; [exact Hh|]. split; [|done].
  eapply rep_update; [exact Hr|]. destruct (upd_fields (n_addr x) f x) as (Ea & _ & _ & En & _).
  unfold req_shape. rewrite Ea, En. split; [by eexists|]. split; [|done]. unfold upd. by rewrite Nat.eqb_refl.
Qed.

Lemma wp_req_find locked z es m name (Q : option (node req) -> zone requests_sh -> Prop) E :
  req_zone locked z es m ->
  (forall sh a, z_data z = Some (a, sh) -> count sh = Z.of_nat (size m) ->
    match m !! name with
    | None => Q None z
    | Some r => forall x cells es', es ≡ₚ (x, cells) :: es' -> n_name x = name -> n_val x = r -> Q (Some x) z
    end) ->
  forall sh, (exists a, z_data z = Some (a, sh)) -> wp (of_option (ngx_autocert_requests_lookup (rq_tree sh) name (crc32 name))) z Q E.
Proof.
  intros (s & hdr & hb & t & -> & Hh & Hr & Hc) HQ sh [a Ha]. injection Ha as <- <-. cbn [rq_tree].
  specialize (HQ _ _ eq_refl eq_refl). destruct (rep_find _ _ _ _ _ name Hr) as (o & Eo & Ho).
  eapply wp_of_option; [exact Eo|]. destruct o as [x|].
  - destruct Ho as (Hn & cells & v & es' & Hp & (_ & -> & _) & Hm). rewrite Hm in HQ. by eapply HQ.
  - by rewrite Ho in HQ.
Qed.

Lemma req_zone_perm locked z es es' m : es ≡ₚ es' -> req_zone locked z es m -> req_zone locked z es' m.
Proof.
  intros Hp (s & hdr & hb & t & -> & Hh & Hr & Hc). exists s, hdr, hb, t. split; [done|]. split; [by rewrite <- Hp|].
  split; [by eapply rep_proper|done].
Qed.

Lemma wp_req_lock z es m (Q : unit -> zone requests_sh -> Prop) E :
  req_zone false z es m -> (forall z', req_zone true z' es m -> Q tt z') -> wp shmtx_lock z Q E.
Proof.
  intros (s & hdr & hb & t & -> & H) HQ. apply wp_lock; [done|]. apply HQ. by exists s, hdr, hb, t.
Qed.

Lemma wp_req_unlock z es m (Q : unit -> zone requests_sh -> Prop) E :
  req_zone true z es m -> (forall z', req_inv z' m -> Q tt z') -> wp shmtx_unlock z Q E.
Proof.
  intros (s & hdr & hb & t & -> & H) HQ. apply wp_unlock; [done|]. apply HQ. exists es. by exists s, hdr, hb, t.
Qed.

Lemma wp_req_sh locked z es m (Q : requests_sh -> zone requests_sh -> Prop) E :
  req_zone locked z es m ->
  (forall sh, (exists a, z_data z = Some (a, sh)) -> api_version sh = NGX_AUTOCERT_API_VERSION ->
     count sh = Z.of_nat (size m) -> rep (rq_tree sh) es m -> Q sh z) -> wp get_sh z Q E.
Proof.
  intros (s & hdr & hb & t & -> & Hh & Hr & Hc) HQ. eapply wp_get_sh; [done|]. apply HQ; [by eexists|done..].
Qed.

Definition ensured (now : Z) (host : bytes) m (rc : Z) m' : Prop :=
  match ngx_autocert_requests_normalize host with
  | None => rc = NGX_AUTOCERT_REQ_DENIED /\ m' = m
  | Some n =>
      match m !! n with
      | Some r => rc = r_state r /\ m' = <[n := touch now r]> m
      | None =>
          if NGX_AUTOCERT_REQUESTS_MAX <=? Z.of_nat (size m) then rc = NGX_AUTOCERT_REQ_DENIED /\ m' = m
          else rc = NGX_AUTOCERT_REQ_REQUESTED /\ m' = <[n := new_req now]> m
               \/ rc = NGX_AUTOCERT_REQ_UNKNOWN /\ m' = m /\ short
      end
  end.

Lemma req_addr (x : node req) cells v : req_shape x cells v -> n_addr x ∈ cells.*1.
Proof. intros ([nb ->] & _). simpl. by left. Qed.

Lemma wp_new_node z es m norm now (Q : Z -> zone requests_sh -> Prop) E :
  req_zone true z es m -> filed norm -> m !! norm = None -> Z.of_nat (size m) < NGX_AUTOCERT_REQUESTS_MAX ->
  (forall z', req_inv z' (<[norm := new_req now]> m) -> Q NGX_AUTOCERT_REQ_REQUESTED z') ->
  (forall z', req_inv z' m -> short -> Q NGX_AUTOCERT_REQ_UNKNOWN z') ->
  forall sh, (exists a, z_data z = Some (a, sh)) ->
  wp (let! rn := slab_alloc slab_oom junk (request_node_size + length norm)%nat in
      match rn with
      | None => shmtx_unlock;; ret NGX_AUTOCERT_REQ_UNKNOWN
      | Some rn =>
          slab_write rn request_node_size norm;;
          let! t := of_option (ngx_rbtree_insert ngx_autocert_requests_insert_value (rq_tree sh)
            (Node rn (crc32 norm) (u16 (Z.of_nat (length norm))) norm
               (Req NGX_AUTOCERT_REQ_REQUESTED now 0 now 0 0))) in
          set_sh (RequestsSh (api_version sh) (u64 (count sh + 1)) t);;
          shmtx_unlock;;
          ret NGX_AUTOCERT_REQ_REQUESTED
      end) z Q E.
Proof.
  intros (s & hdr & hb & t & -> & Hh & Hr & Hc) Hn Hm Hsz HQ HO sh [a Ha]. injection Ha as <- <-.
  cbn [api_version count rq_tree]. wp_step. eapply wp_slab_alloc; [exact Hh| |].
  - intros s1 Hs1 _ Ho. wp_step. apply wp_unlock; [done|]. apply wp_ret. apply HO; [|by eexists].
    exists es, s1, hdr, hb, t. done.
  - intros s1 rn Hs1 _. wp_step. eapply wp_slab_write; [exact Hs1|by rewrite length_replicate|].
    intros s2 Hs2 _. set (nb := _ ++ _ ++ _) in Hs2. clearbody nb. set (x := Node rn _ _ _ _).
    assert (Hfresh : n_addr x ∉ n_addr <$> es.*1).
    { eapply (fresh_node s2 rn nb es); [exact Hs2|by intros c Hci; right|].
      intros y cells Hin. destruct (rep_shape _ _ _ _ _ Hr y cells Hin) as (v & Hv & _). by eapply req_addr. }
    destruct (rep_insert crc32 req_shape t es m x [(rn, nb)] (new_req now) Hr)
      as (t' & Et' & Hr'); [exact Hm|by apply filed_u16|done|exact Hfresh| |].
    { split; [by eexists|]. by split. }
    wp_step. eapply wp_of_option; [exact Et'|]. wp_step. eapply wp_set_sh; [done|]. wp_step.
    apply wp_unlock; [done|]. apply wp_ret. apply HQ. exists ((x, [(rn, nb)]) :: es), s2, hdr, hb, t'.
    change (n_name x) with norm in Hr'.
    assert (Es : size (<[norm := new_req now]> m) = S (size m)) by (by rewrite map_size_insert_None).
    unfold NGX_AUTOCERT_REQUESTS_MAX in *. rewrite Es. split; [|split; [|split; [done|lia]]].
    + assert (Ec : u64 (Z.of_nat (size m) + 1) = Z.of_nat (S (size m))) by (unfold u64; rewrite Z.mod_small; lia).
      cbn [z_data z_locked z_slab]. by rewrite Ec.
    + eapply heap_perm; [|exact Hs2]. cbn [fmap list_fmap concat snd app]. solve_Permutation.
Qed.

Lemma wp_ensure z m now host :
  req_inv z m ->
  wp (ngx_autocert_requests_ensure crc32 slab_oom junk false now host) z
     (fun rc z' => exists m', req_inv z' m' /\ ensured now host m rc m') (fun _ => False).
Proof.
  intros Hi. unfold ngx_autocert_requests_ensure, ensured. cbv iota.
  destruct (ngx_autocert_requests_normalize host) as [norm|] eqn:En; [|apply wp_ret; by exists m].
  pose proof (normalize_idem _ _ En) as Hf. eapply wp_native; [exact Hi|]. cbv iota. destruct Hi as [es Hz].
  wp_step. eapply wp_req_lock; [exact Hz|]. clear z Hz. intros z Hz. wp_step. eapply wp_req_sh; [exact Hz|].
  intros sh Hsh Hv Hct Hr. wp_step. eapply wp_req_find; [exact Hz| |exact Hsh]. intros sh' a _ _.
  destruct (m !! norm) as [r|] eqn:Em.
  - intros x cells es' Hp <- <-. wp_step. eapply wp_write_node; [eapply req_zone_perm; [exact Hp|exact Hz]| |exact Hsh].
    intros z1 Hz1. wp_step. eapply wp_req_unlock; [exact Hz1|]. intros z2 Hz2. apply wp_ret.
    eexists. split; [exact Hz2|done].
  - rewrite Hct. destruct (Z.leb_spec NGX_AUTOCERT_REQUESTS_MAX (Z.of_nat (size m))).
    + wp_step. eapply wp_req_unlock; [exact Hz|]. intros z1 Hz1. apply wp_ret. by exists m.
    + rewrite <- Hct. eapply wp_new_node; [exact Hz|exact Hf|exact Em|done| | |exact Hsh].
      * intros z1 Hz1. eexists. split; [exact Hz1|by left].
      * intros z1 Hz1 Hs. exists m. split; [done|by right].
Qed.

Definition state_of m (host : bytes) : Z :=
  match ngx_autocert_requests_normalize host with
  | None => NGX_AUTOCERT_REQ_UNKNOWN
  | Some n => match m !! n with Some r => r_state r | None => NGX_AUTOCERT_REQ_UNKNOWN end
  end.

Lemma wp_state z m host :
  req_inv z m ->
  wp (ngx_autocert_requests_state crc32 false host) z
     (fun rc z' => req_inv z' m /\ rc = state_of m host) (fun _ => False).
Proof.
  intros Hi. unfold ngx_autocert_requests_state, state_of. cbv iota.
  destruct (ngx_autocert_requests_normalize host) as [norm|] eqn:En; [|by apply wp_ret].
  eapply wp_native; [exact Hi|]. cbv iota. destruct Hi as [es Hz].
  wp_step. eapply wp_req_lock; [exact Hz|]. clear z Hz. intros z Hz. wp_step. eapply wp_req_sh; [exact Hz|].
  intros sh Hsh Hv Hct Hr. wp_step. eapply wp_req_find; [exact Hz| |exact Hsh]. intros sh' a _ _.
  destruct (m !! norm) as [r|] eqn:Em.
  - intros x cells es' Hp <- <-. wp_step. eapply wp_req_unlock; [exact Hz|]. intros z1 Hz1. by apply wp_ret.
  - wp_step. eapply wp_req_unlock; [exact Hz|]. intros z1 Hz1. by apply wp_ret.
Qed.

Definition transitioned (now : Z) (host : bytes) (state eligible : Z) m (rc : Z) m' : Prop :=
  match ngx_autocert_requests_normalize host with
  | Some n =>
      if (NGX_AUTOCERT_REQ_UNKNOWN <? state) && (state <=? NGX_AUTOCERT_REQ_DENIED) then
        rc = NGX_OK
        /\ match m !! n with
           | None => m' = m
           | Some r => exists r', set_state_fields state eligible now r = Some r' /\ m' = <[n := r']> m
           end
      else rc = NGX_ERROR /\ m' = m
  | None => rc = NGX_ERROR /\ m' = m
  end.

Lemma set_state_total state eligible now r : exists r', set_state_fields state eligible now r = Some r'.
Proof.
  unfold set_state_fields. destruct (state =? _); [|by eexists]. destruct (eligible =? 0); [|by eexists].
  assert (Hn : 0 <= u64 (fail_count r + 1)) by (apply Z.mod_pos_bound; lia).
  destruct (decide (u64 (fail_count r + 1) = 0)) as [->|]; [by eexists|].
  rewrite request_backoff_closed by lia. by eexists.
Qed.

Lemma wp_set_state z m now host state eligible :
  req_inv z m ->
  wp (ngx_autocert_requests_set_state crc32 false now host state eligible) z
     (fun rc z' => exists m', req_inv z' m' /\ transitioned now host state eligible m rc m') (fun _ => False).
Proof.
  intros Hi. unfold ngx_autocert_requests_set_state, transitioned. simpl orb.
  destruct ((state <=? NGX_AUTOCERT_REQ_UNKNOWN) || (NGX_AUTOCERT_REQ_DENIED <? state)) eqn:Eb.
  - apply wp_ret. exists m. split; [done|].
    destruct (ngx_autocert_requests_normalize host); [|done].
    destruct ((NGX_AUTOCERT_REQ_UNKNOWN <? state) && _) eqn:E2; [|done].
    apply orb_true_iff in Eb as [Eb|Eb]; reflect_bools; lia.
  - destruct (ngx_autocert_requests_normalize host) as [norm|] eqn:En; [|apply wp_ret; by exists m].
    destruct ((NGX_AUTOCERT_REQ_UNKNOWN <? state) && _) eqn:E2; [|exfalso; reflect_bools; lia].
    eapply wp_native; [exact Hi|]. cbv iota. destruct Hi as [es Hz].
    wp_step. eapply wp_req_lock; [exact Hz|]. clear z Hz. intros z Hz. wp_step. eapply wp_req_sh; [exact Hz|].
    intros sh Hsh Hv Hct Hr. wp_step. eapply wp_req_find; [exact Hz| |exact Hsh]. intros sh' a _ _.
    destruct (m !! norm) as [r|] eqn:Em.
    + intros x cells es' Hp <- <-. destruct (set_state_total state eligible now (n_val x)) as [r' Er].
      rewrite Er. wp_step. eapply wp_write_node; [eapply req_zone_perm; [exact Hp|exact Hz]| |exact Hsh].
      intros z1 Hz1. wp_step. eapply wp_req_unlock; [exact Hz1|]. intros z2 Hz2. apply wp_ret.
      eexists. split; [exact Hz2|]. split; [done|]. by exists r'.
    + wp_step. eapply wp_req_unlock; [exact Hz|]. intros z1 Hz1. apply wp_ret. by exists m.
Qed.

(** ** The walks *)

(** The nodes still to be visited: filed, and under distinct names. *)
Definition pending_nodes (nodes : list (node req)) (es : list (node req * list (nat * bytes))) : Prop :=
  NoDup (n_name <$> nodes) /\ forall x, x ∈ nodes -> x ∈ es.*1.

Lemma walk_nodes t es m : rep t es m -> pending_nodes (rb_walk t) es.
Proof.
  intros R. pose proof (rep_names _ _ _ _ _ R) as Hn. split.
  - assert (Hp : n_name <$> inorder t ≡ₚ n_name <$> es.*1) by (by apply fmap_Permutation, (rep_perm _ _ _ _ _ R)).
    unfold rb_walk. by rewrite Hp.
  - intros x Hx. by rewrite <- (rep_perm _ _ _ _ _ R).
Qed.

Lemma node_value t es m x : rep t es m -> x ∈ es.*1 -> m !! n_name x = Some (n_val x).
Proof.
  intros R Hx. apply fst_split in Hx as (cells & es' & Hp).
  destruct (rep_shape _ _ _ _ _ R x cells) as (v & (_ & -> & _) & Hm); [rewrite Hp; left|done].
Qed.

Definition names_of (p : req -> bool) (nodes : list (node req)) : list bytes :=
  n_name <$> filter (fun x => p (n_val x) = true) nodes.

(** [news] was appended to [out] by a walk whose candidates are [cands]. *)
Definition walked (oom : Prop) (max : Z) (cands out news : list bytes) : Prop :=
  (news = cands \/ news `prefix_of` cands /\ (oom \/ max <> 0 /\ max <= Z.of_nat (length (out ++ news))))
  /\ (max <> 0 -> Z.of_nat (length out) <= max -> Z.of_nat (length (out ++ news)) <= max).

Lemma walked_end oom max out : walked oom max [] out [].
Proof. unfold walked. rewrite app_nil_r. split; [by left|done]. Qed.

Lemma walked_oom (oom : Prop) max cands out : oom -> walked oom max cands out [].
Proof. intros Ho. unfold walked. rewrite app_nil_r. split; [|done]. right. split; [apply prefix_nil|by left]. Qed.

Lemma walked_max oom max cands out :
  max <> 0 -> max <= Z.of_nat (length out) -> walked oom max cands out [].
Proof. intros H0 Hm. unfold walked. rewrite app_nil_r. split; [|done]. right. split; [apply prefix_nil|by right]. Qed.

Lemma walked_cons oom max name cands out news :
  negb (max =? 0) && (max <=? Z.of_nat (length out)) = false ->
  walked oom max cands (out ++ [name]) news -> walked oom max (name :: cands) out (name :: news).
Proof.
  intros Em [Hc Hb]. rewrite <- app_assoc in Hc, Hb. split.
  - destruct Hc as [->|[Hp Hc]]; [by left|right]. split; [by apply prefix_cons|done].
  - intros H0 Hl. apply Hb; [done|]. rewrite length_app. simpl.
    apply andb_false_iff in Em as [Em|Em]; reflect_bools; lia.
Qed.

Lemma walked_selected p oom max t es m hosts :
  rep t es m -> 0 <= max -> walked oom max (names_of p (rb_walk t)) [] hosts -> selected p max oom m hosts.
Proof.
  intros R H0 [Hc Hb]. destruct (walk_nodes _ _ _ R) as [Hn Hin].
  assert (Hnd : NoDup (names_of p (rb_walk t))).
  { eapply sublist_NoDup; [exact Hn|]. apply fmap_sublist, sublist_filter. }
  assert (Hpre : hosts `prefix_of` names_of p (rb_walk t)) by (destruct Hc as [->|[? _]]; done).
  destruct Hpre as [rest Erest]. split; [rewrite Erest in Hnd; by apply NoDup_app in Hnd as [? _]|]. split; [|split].
  - intros h Hh. assert (Hh' : h ∈ names_of p (rb_walk t)) by (rewrite Erest; apply elem_of_app; by left).
    apply list_elem_of_fmap in Hh' as (x & -> & [Hp Hx]%list_elem_of_filter).
    exists (n_val x). split; [|done]. eapply node_value; [exact R|by apply Hin].
  - intros Hm. apply Hb; [done|simpl; lia].
  - destruct Hc as [->|[_ [Ho|[Hm Hle]]]]; [|by left|].
    + right. right. intros h r Hr Hp. destruct (rep_dom _ _ _ _ _ R h) as (x & Hx & <-); [by eexists|].
      apply list_elem_of_fmap_2. apply list_elem_of_filter. rewrite (node_value _ _ _ _ R Hx) in Hr.
      injection Hr as <-. split; [done|]. unfold rb_walk. by rewrite (rep_perm _ _ _ _ _ R).
    + right. left. split; [done|]. simpl in *. specialize (Hb Hm). simpl in Hb. lia.
Qed.

Section Walks.
Context (push_oom copy_oom : nat -> bool).
Definition copy_short : Prop := exists n, push_oom n || copy_oom n = true.

Lemma wp_list_loop max nodes z es m out (Q : Z * list bytes -> zone requests_sh -> Prop) E :
  req_zone true z es m ->
  (forall z' rc news, req_inv z' m -> walk_rc copy_short (out ++ news) rc ->
     walked copy_short max (names_of issued nodes) out news -> Q (rc, out ++ news) z') ->
  wp (list_issued_loop push_oom copy_oom max nodes out) z Q E.
Proof.
  revert out. induction nodes as [|x nodes IH]; intros out Hz HQ; cbn [list_issued_loop].
  - wp_step. eapply wp_req_unlock; [exact Hz|]. intros z1 Hz1. apply wp_ret.
    specialize (HQ z1 (Z.of_nat (length out)) [] Hz1). rewrite app_nil_r in HQ.
    apply HQ; [by left|apply walked_end].
  - destruct (negb (max =? 0) && (max <=? Z.of_nat (length out))) eqn:Emax.
    { wp_step. eapply wp_req_unlock; [exact Hz|]. intros z1 Hz1. apply wp_ret.
      specialize (HQ z1 (Z.of_nat (length out)) [] Hz1). rewrite app_nil_r in HQ.
      apply HQ; [by left|]. reflect_bools. by apply walked_max. }
    unfold names_of in *. destruct (r_state (n_val x) =? NGX_AUTOCERT_REQ_ISSUED) eqn:Ei; cbn [negb].
    2: { apply IH; [done|]. intros z1 rc news Hz1 Hrc Hnews. apply HQ; try done.
         rewrite filter_cons_False; [done|]. unfold issued. by rewrite Ei. }
    rewrite filter_cons_True in HQ by exact Ei. cbn [fmap list_fmap] in HQ.
    destruct (push_oom (length out) || copy_oom (length out)) eqn:Eo.
    + assert (Hs : copy_short) by (by eexists). wp_step. eapply wp_req_unlock; [exact Hz|]. intros z1 Hz1. apply wp_ret.
      specialize (HQ z1 (if 0 <? Z.of_nat (length out) then Z.of_nat (length out) else -1) [] Hz1).
      rewrite app_nil_r in HQ. apply HQ; [|by apply walked_oom].
      destruct out; [by right|by left].
    + apply IH; [done|]. intros z1 rc news Hz1 Hrc Hnews. apply (walked_cons _ _ _ _ _ _ Emax) in Hnews.
      rewrite <- app_assoc in *. by apply HQ.
Qed.

Lemma wp_drain_loop now max nodes z es m out (Q : Z * list bytes -> zone requests_sh -> Prop) E :
  req_zone true z es m -> pending_nodes nodes es ->
  (forall z' rc news, req_inv z' (claim_all now m news) -> walk_rc copy_short (out ++ news) rc ->
     walked copy_short max (names_of (claimable now) nodes) out news -> Q (rc, out ++ news) z') ->
  wp (drain_loop push_oom copy_oom now max nodes out) z Q E.
Proof.
  revert z es m out. induction nodes as [|x nodes IH]; intros z es m out Hz Hpend HQ; cbn [drain_loop].
  - wp_step. eapply wp_req_unlock; [exact Hz|]. intros z1 Hz1. apply wp_ret.
    specialize (HQ z1 (Z.of_nat (length out)) [] Hz1). rewrite app_nil_r in HQ.
    apply HQ; [by left|apply walked_end].
  - destruct Hpend as [Hnd Hin]. rewrite fmap_cons, NoDup_cons in Hnd. destruct Hnd as [Hx Hnd].
    destruct (negb (max =? 0) && (max <=? Z.of_nat (length out))) eqn:Emax.
    { wp_step. eapply wp_req_unlock; [exact Hz|]. intros z1 Hz1. apply wp_ret.
      specialize (HQ z1 (Z.of_nat (length out)) [] Hz1). rewrite app_nil_r in HQ.
      apply HQ; [by left|]. reflect_bools. by apply walked_max. }
    unfold names_of in *. destruct (claimable now (n_val x)) eqn:Ec; cbn [negb].
    2: { eapply IH; [exact Hz|split; [done|]; intros y Hy; apply Hin; by right|].
         intros z1 rc news Hz1 Hrc Hnews. apply HQ; try done.
         rewrite filter_cons_False; [done|]. by rewrite Ec. }
    rewrite filter_cons_True in HQ by exact Ec. cbn [fmap list_fmap] in HQ.
    destruct (push_oom (length out) || copy_oom (length out)) eqn:Eo.
    + assert (Hs : copy_short) by (by eexists). wp_step. eapply wp_req_unlock; [exact Hz|]. intros z1 Hz1. apply wp_ret.
      specialize (HQ z1 (if 0 <? Z.of_nat (length out) then Z.of_nat (length out) else -1) [] Hz1).
      rewrite app_nil_r in HQ. apply HQ; [|by apply walked_oom].
      destruct out; [by right|by left].
    + destruct (fst_split es x) as (cells & es' & Hp); [apply Hin; by left|].
      assert (Hz' : req_zone true z ((x, cells) :: es') m) by (by eapply req_zone_perm).
      wp_step. eapply wp_req_sh; [exact Hz'|]. intros sh Hsh _ _ Hr. wp_step.
      eapply wp_write_node; [exact Hz'| |exact Hsh]. intros z1 Hz1. eapply IH; [exact Hz1| |].
      * split; [done|]. intros y Hy. assert (Hy' : y ∈ es.*1) by (apply Hin; by right).
        assert (Hp1 : es.*1 ≡ₚ ((x, cells) :: es').*1) by (by apply fmap_Permutation).
        rewrite Hp1 in Hy'. apply elem_of_cons in Hy' as [-> | Hy']; [|by right].
        exfalso. apply Hx. by apply list_elem_of_fmap_2.
      * intros z2 rc news Hz2 Hrc Hnews. apply (walked_cons _ _ _ _ _ _ Emax) in Hnews.
        rewrite <- app_assoc in *. apply HQ; [|done|done].
        change (claim_all now m ([n_name x] ++ news)) with (claim_all now (alter (claim now) (n_name x) m) news).
        assert (Ea : alter (claim now) (n_name x) m = <[n_name x := claim now (n_val x)]> m); [|by rewrite Ea].
        assert (Em : m !! n_name x = Some (n_val x)) by (eapply node_value; [exact Hr|by left]).
        by rewrite <- (insert_id m _ _ Em) at 1; rewrite alter_insert_eq.
Qed.

Lemma wp_gc_loop victims z es m out (Q : Z * list bytes -> zone requests_sh -> Prop) E :
  req_zone true z es m -> pending_nodes victims es ->
  (forall z' news, req_inv z' (drop_all m news) ->
     walked copy_short 0 (n_name <$> victims) out news -> Q (Z.of_nat (length (out ++ news)), out ++ news) z') ->
  wp (gc_loop push_oom copy_oom victims out) z Q E.
Proof.
  revert z es m out. induction victims as [|x victims IH]; intros z es m out Hz Hpend HQ; cbn [gc_loop].
  - wp_step. eapply wp_req_unlock; [exact Hz|]. intros z1 Hz1. apply wp_ret.
    specialize (HQ z1 [] Hz1). rewrite app_nil_r in HQ. apply HQ, walked_end.
  - destruct Hpend as [Hnd Hin]. rewrite fmap_cons, NoDup_cons in Hnd. destruct Hnd as [Hx Hnd].
    destruct (push_oom (length out) || copy_oom (length out)) eqn:Eo.
    + assert (Hs : copy_short) by (by eexists). wp_step. eapply wp_req_unlock; [exact Hz|]. intros z1 Hz1. apply wp_ret.
      specialize (HQ z1 [] Hz1). rewrite app_nil_r in HQ. by apply HQ, walked_oom.
    + destruct (fst_split es x) as (cells & es' & Hp); [apply Hin; by left|].
      assert (Hz' : req_zone true z ((x, cells) :: es') m) by (by eapply req_zone_perm).
      destruct Hz' as (s & hdr & hb & t & -> & Hh & Hr & Hc).
      destruct (rep_shape _ _ _ _ _ Hr x cells) as (v & ([nb ->] & -> & Hf) & Em); [by left|].
      assert (Hsz : (0 < size m)%nat).
      { destruct (size m) eqn:E0; [|lia]. apply map_size_empty_inv in E0. rewrite E0, lookup_empty in Em. done. }
      wp_step. eapply wp_get_sh; [done|]. wp_step. eapply wp_set_sh; [done|]. wp_step.
      cbn [fmap list_fmap concat snd app] in Hh. eapply (wp_slab_free (n_addr x)). { pull Hh. }
      intros s1 Hs1 _. cbn [api_version count rq_tree z_data z_locked].
      destruct (Z.ltb_spec 0 (Z.of_nat (size m))); [|lia].
      assert (Ed : size (delete (n_name x) m) = pred (size m)) by (apply map_size_delete_Some; eexists; exact Em).
      eapply (IH _ es' (delete (n_name x) m)).
      * exists s1, hdr, hb, (rb_delete (n_addr x) t). rewrite Ed. split; [|split; [exact Hs1|split]].
        -- replace (Z.of_nat (pred (size m))) with (Z.of_nat (size m) - 1) by lia. done.
        -- by eapply rep_delete.
        -- lia.
      * split; [done|]. intros y Hy. assert (Hy' : y ∈ es.*1) by (apply Hin; by right).
        assert (Hp1 : es.*1 ≡ₚ ((x, [(n_addr x, nb)]) :: es').*1) by (by apply fmap_Permutation).
        rewrite Hp1 in Hy'. apply elem_of_cons in Hy' as [-> | Hy']; [|done].
        exfalso. apply Hx. by apply list_elem_of_fmap_2.
      * intros z2 news Hz2 Hw. specialize (HQ z2 (n_name x :: news)).
        rewrite <- app_assoc. apply HQ; [exact Hz2|]. rewrite fmap_cons. by apply walked_cons.
Qed.

Lemma gc_victims_filter now ttl nodes n :
  0 <= n -> Z.of_nat (length nodes) + n <= NGX_AUTOCERT_REQUESTS_MAX ->
  n_name <$> gc_victims now ttl nodes n = names_of (idle now ttl) nodes
  /\ forall x, x ∈ gc_victims now ttl nodes n -> x ∈ nodes.
Proof.
  revert n. induction nodes as [|x nodes IH]; intros n Hn Hl; cbn [gc_victims]; [done|]. simpl in Hl.
  unfold names_of in *. destruct (Z.ltb_spec n NGX_AUTOCERT_REQUESTS_MAX); [|lia].
  destruct (Z.leb_spec (now - last_seen (n_val x)) ttl) as [Hi|Hi].
  - rewrite filter_cons_False by (unfold idle; lia). destruct (IH n) as [-> Hin]; [lia..|].
    split; [done|]. intros y Hy. right. by apply Hin.
  - rewrite filter_cons_True by (unfold idle; lia). destruct (IH (n + 1)) as [E Hin]; [lia..|].
    split; [by rewrite !fmap_cons, E|]. intros y [-> | Hy]%elem_of_cons; [by left|right; by apply Hin].
Qed.

Definition drained (now max : Z) m (r : Z * list bytes) m' : Prop :=
  selected (claimable now) max copy_short m r.2 /\ walk_rc copy_short r.2 r.1 /\ m' = claim_all now m r.2.

Definition listed (max : Z) m (r : Z * list bytes) : Prop :=
  selected issued max copy_short m r.2 /\ walk_rc copy_short r.2 r.1.

Definition collected (now ttl : Z) m (r : Z * list bytes) m' : Prop :=
  if ttl <=? 0 then r = (0, []) /\ m' = m
  else selected (idle now ttl) 0 copy_short m r.2 /\ r.1 = Z.of_nat (length r.2) /\ m' = drop_all m r.2.

(** A walk starts under the mutex, on the tree as it is; the empty tree is the
    walk that visits nothing. *)
Lemma wp_walk_start z m (k : list (node req) -> prog (zone requests_sh) (Z * list bytes)) Q E :
  (forall z', wp (k []) z' Q E -> wp (shmtx_unlock;; ret (0, [])) z' Q E) ->
  req_inv z m ->
  (forall z' es t, req_zone true z' es m -> rep t es m -> wp (k (rb_walk t)) z' Q E) ->
  wp (let! foreign := requests_foreign in
      if foreign then ret (-1, [])
      else
        shmtx_lock;;
        let! sh := get_sh in
        match rq_tree sh with
        | Leaf => shmtx_unlock;; ret (0, [])
        | _ => k (rb_walk (rq_tree sh))
        end) z Q E.
Proof.
  intros Hnil Hi Hk. eapply wp_native; [exact Hi|]. cbv iota. destruct Hi as [es Hz].
  wp_step. eapply wp_req_lock; [exact Hz|]. clear z Hz. intros z Hz. wp_step. eapply wp_req_sh; [exact Hz|].
  intros sh Hsh _ _ Hr. specialize (Hk z es _ Hz Hr). destruct (rq_tree sh); [by apply Hnil|exact Hk].
Qed.

Lemma wp_drain z m now max :
  req_inv z m -> 0 <= max ->
  wp (ngx_autocert_requests_drain push_oom copy_oom false now max) z
     (fun r z' => exists m', req_inv z' m' /\ drained now max m r m') (fun _ => False).
Proof.
  intros Hi H0. apply (wp_walk_start z m (fun nodes => drain_loop push_oom copy_oom now max nodes [])); [done|done|].
  intros z' es t Hz Hr. eapply wp_drain_loop; [exact Hz|by eapply walk_nodes|].
  intros z1 rc news Hz1 Hrc Hw. eexists. split; [exact Hz1|]. split; [|done]. by eapply walked_selected.
Qed.

Lemma wp_list_issued z m max :
  req_inv z m -> 0 <= max ->
  wp (ngx_autocert_requests_list_issued push_oom copy_oom false max) z
     (fun r z' => req_inv z' m /\ listed max m r) (fun _ => False).
Proof.
  intros Hi H0. apply (wp_walk_start z m (fun nodes => list_issued_loop push_oom copy_oom max nodes [])); [done|done|].
  intros z' es t Hz Hr. eapply wp_list_loop; [exact Hz|].
  intros z1 rc news Hz1 Hrc Hw. split; [exact Hz1|]. split; [|done]. by eapply walked_selected.
Qed.

Lemma wp_gc z m now ttl :
  req_inv z m ->
  wp (ngx_autocert_requests_gc push_oom copy_oom false now ttl) z
     (fun r z' => exists m', req_inv z' m' /\ collected now ttl m r m') (fun _ => False).
Proof.
  intros Hi. unfold ngx_autocert_requests_gc, collected. cbv iota. destruct (ttl <=? 0); [apply wp_ret; by exists m|].
  apply (wp_walk_start z m (fun nodes => gc_loop push_oom copy_oom (gc_victims now ttl nodes 0) [])); [done|done|].
  intros z' es t Hz Hr. assert (Hl : Z.of_nat (length (rb_walk t)) <= NGX_AUTOCERT_REQUESTS_MAX).
  { destruct Hz as (s & hdr & hb & t' & _ & _ & R & Hc). unfold rb_walk.
    rewrite (rep_perm _ _ _ _ _ Hr), length_fmap. by rewrite <- (rep_size _ _ _ _ _ Hr). }
  destruct (gc_victims_filter now ttl (rb_walk t) 0) as [Ev Hin]; [done|lia|].
  destruct (walk_nodes _ _ _ Hr) as [Hn Hsub]. eapply wp_gc_loop; [exact Hz| |].
  - split; [|intros x Hx; by apply Hsub, Hin]. rewrite Ev. eapply sublist_NoDup; [exact Hn|].
    apply fmap_sublist, sublist_filter.
  - intros z1 news Hz1 Hw. rewrite Ev in Hw. eexists. split; [exact Hz1|]. split; [|done]. by eapply walked_selected.
Qed.
End Walks.

(** ** Histories *)

Inductive req_op :=
  | RReload
  | REnsure (now : Z) (host : bytes)
  | RState (host : bytes)
  | RSetState (now : Z) (host : bytes) (state eligible : Z)
  | RDrain (push_oom copy_oom : nat -> bool) (now : Z) (max : nat)
  | RListIssued (push_oom copy_oom : nat -> bool) (max : nat)
  | RGc (push_oom copy_oom : nat -> bool) (now ttl : Z).

Definition run_req (o : req_op) : prog (zone requests_sh) (Z * list bytes) :=
  let code (p : prog (zone requests_sh) Z) := (let! rc := p in ret (rc, [])) in
  match o with
  | RReload => code (ngx_autocert_requests_init_zone slab_oom junk)
  | REnsure now host => code (ngx_autocert_requests_ensure crc32 slab_oom junk false now host)
  | RState host => code (ngx_autocert_requests_state crc32 false host)
  | RSetState now host state eligible => code (ngx_autocert_requests_set_state crc32 false now host state eligible)
  | RDrain push copy now max => ngx_autocert_requests_drain push copy false now (Z.of_nat max)
  | RListIssued push copy max => ngx_autocert_requests_list_issued push copy false (Z.of_nat max)
  | RGc push copy now ttl => ngx_autocert_requests_gc push copy false now ttl
  end.

(** The same call on the registry seen as a map. *)
Inductive reg_op m : req_op -> Z * list bytes -> gmap bytes req -> Prop :=
  | reg_reload : reg_op m RReload (NGX_OK, []) m
  | reg_ensure now host rc m' : ensured now host m rc m' -> reg_op m (REnsure now host) (rc, []) m'
  | reg_state host : reg_op m (RState host) (state_of m host, []) m
  | reg_set_state now host state eligible rc m' :
      transitioned now host state eligible m rc m' -> reg_op m (RSetState now host state eligible) (rc, []) m'
  | reg_drain push copy now max r m' :
      drained push copy now (Z.of_nat max) m r m' -> reg_op m (RDrain push copy now max) r m'
  | reg_list push copy max r : listed push copy (Z.of_nat max) m r -> reg_op m (RListIssued push copy max) r m
  | reg_gc push copy now ttl r m' : collected push copy now ttl m r m' -> reg_op m (RGc push copy now ttl) r m'.

Lemma wp_req_reload z m :
  req_inv z m ->
  wp (ngx_autocert_requests_init_zone slab_oom junk) z (fun rc z' => rc = NGX_OK /\ z' = z) (fun _ => False).
Proof.
  intros (es & s & hdr & hb & t & -> & _). unfold ngx_autocert_requests_init_zone, ngx_autocert_requests_init_body.
  wp_step. unfold has_data, wp at 1. cbn [z_data]. wp_step. eapply wp_get_sh; [done|]. cbn [api_version].
  rewrite Z.eqb_refl. cbn [orb]. wp_step. eapply wp_set_sh; [done|]. by apply wp_ret.
Qed.

Lemma wp_run_req z m o :
  req_inv z m -> wp (run_req o) z (fun r z' => exists m', reg_op m o r m' /\ req_inv z' m') (fun _ => False).
Proof.
  intros Hi. destruct o as [|now host|host|now host st el|push copy now max|push copy max|push copy now ttl];
    cbn [run_req]; try wp_step.
  - eapply wp_weaken; [by eapply wp_req_reload|]. intros rc z' [-> ->]. apply wp_ret. exists m. split; [constructor|done].
  - eapply wp_weaken; [by apply wp_ensure|]. intros rc z' (m' & Hi' & He). apply wp_ret. exists m'. split; [by constructor|done].
  - eapply wp_weaken; [by apply wp_state|]. intros rc z' [Hi' ->]. apply wp_ret. exists m. split; [constructor|done].
  - eapply wp_weaken; [by apply wp_set_state|]. intros rc z' (m' & Hi' & He). apply wp_ret. exists m'. split; [by constructor|done].
  - eapply wp_weaken; [apply wp_drain; [done|lia]|]. intros r z' (m' & Hi' & He). exists m'. split; [by constructor|done].
  - eapply wp_weaken; [apply wp_list_issued; [done|lia]|]. intros r z' [Hi' He]. exists m. split; [by constructor|done].
  - eapply wp_weaken; [by apply wp_gc|]. intros r z' (m' & Hi' & He). exists m'. split; [by constructor|done].
Qed.

Fixpoint run_reqs (os : list req_op) : prog (zone requests_sh) (list (Z * list bytes)) :=
  match os with
  | [] => ret []
  | o :: os' => let! r := run_req o in let! rs := run_reqs os' in ret (r :: rs)
  end.

Inductive reg_ops : gmap bytes req -> list req_op -> list (Z * list bytes) -> gmap bytes req -> Prop :=
  | reg_nil m : reg_ops m [] [] m
  | reg_cons m o r m1 os rs m' : reg_op m o r m1 -> reg_ops m1 os rs m' -> reg_ops m (o :: os) (r :: rs) m'.

Lemma wp_run_reqs z m os :
  req_inv z m -> wp (run_reqs os) z (fun rs z' => exists m', reg_ops m os rs m' /\ req_inv z' m') (fun _ => False).
Proof.
  revert z m. induction os as [|o os IH]; intros z m Hi; cbn [run_reqs].
  - apply wp_ret. exists m. split; [constructor|done].
  - wp_step. eapply wp_weaken; [by apply wp_run_req|]. intros r z1 (m1 & H1 & Hi1).
    wp_step. eapply wp_weaken; [by apply IH|]. intros rs z2 (m2 & H2 & Hi2).
    apply wp_ret. exists m2. split; [by econstructor|done].
Qed.

(** The registry from the creation of its zone by its owner. *)
Definition req_life (os : list req_op) : prog (zone requests_sh) (option (list (Z * list bytes))) :=
  let! rc := ngx_autocert_requests_init_zone slab_oom junk in
  if rc =? NGX_OK then let! rs := run_reqs os in ret (Some rs) else ret None.

Definition fresh_requests : zone requests_sh := Zone (Slab 1 ∅ [] 0) false None.

Lemma wp_req_init :
  wp (ngx_autocert_requests_init_zone slab_oom junk) fresh_requests
     (fun rc z' => rc = NGX_OK /\ req_inv z' ∅ \/ rc = NGX_ERROR /\ short) (fun _ => False).
Proof.
  unfold ngx_autocert_requests_init_zone, ngx_autocert_requests_init_body, fresh_requests. wp_step.
  unfold has_data, wp at 1. cbn [z_data].
  wp_step. apply wp_lock; [done|]. wp_step. eapply (wp_slab_alloc _ _ _ _ []); [by repeat constructor| |].
  - intros s Hs _ Ho. wp_step. apply wp_unlock; [done|]. apply wp_ret. right. split; [done|by eexists].
  - intros s a Hs _. wp_step. apply wp_unlock; [done|]. wp_step. unfold set_data, wp at 1. apply wp_ret.
    left. split; [done|]. exists [], s, a, (replicate requests_sh_size junk), Leaf.
    split; [done|]. split; [exact Hs|]. split; [apply rep_empty|done].
Qed.

Lemma wp_req_life os :
  wp (req_life os) fresh_requests
     (fun r z' => match r with
                  | Some rs => exists m, reg_ops ∅ os rs m /\ req_inv z' m
                  | None => short
                  end) (fun _ => False).
Proof.
  unfold req_life. wp_step. eapply wp_weaken; [apply wp_req_init|].
  intros rc z [[-> Hi]|[-> Hs]]; cbn [Z.eqb NGX_OK NGX_ERROR]; [|by apply wp_ret].
  wp_step. eapply wp_weaken; [by apply (wp_run_reqs z ∅)|]. intros rs z' H1. by apply wp_ret.
Qed.

(** C39. Any history of the runtime registry, in whatever order its calls from the
    workers and the consumer module take the mutex and whichever allocations
    fail, answers as the map of names to requests does: [ensure] adds at most 64
    names and refreshes the others, [drain] hands out distinct claimable names
    and marks exactly those pending, [gc] removes exactly the idle names it
    reports, [set_state] records outcomes and retry delays.  No call faults,
    leaves the mutex locked or leaks a block, and only normalized names are
    filed.  This is what the code does; requests.h says otherwise of two cases: that
    [gc] spares a pending name, which it removes like another when it is idle
    ([pending_evicted]), and that [drain] answers -1 when an allocation fails after some
    names were claimed, where it answers their number ([drain_cut_short]). *)
Theorem requests_registry_refines (os : list req_op) :
  exists r z', req_life os fresh_requests = Ret r z'
  /\ match r with
     | None => exists n, slab_oom n = true
     | Some rs =>
         exists m hdr hb t es,
           reg_ops ∅ os rs m
           /\ Z.of_nat (size m) <= 64
           /\ (forall name, is_Some (m !! name) -> ngx_autocert_requests_normalize name = Some name)
           /\ z_locked z' = false
           /\ z_data z' = Some (hdr, RequestsSh NGX_AUTOCERT_API_VERSION (Z.of_nat (size m)) t)
           /\ live (z_slab z') = list_to_map ((hdr, hb) :: concat (snd <$> es))
           /\ tree_rep crc32 req_shape t es m
     end.
Proof.
  pose proof (wp_req_life os) as Hw. unfold wp in Hw.
  destruct (req_life os fresh_requests) as [r z'| | |]; [|done..]. exists r, z'. split; [done|].
  destruct r as [rs|]; [|done]. destruct Hw as (m & Hm & es & s & hdr & hb & t & -> & (Hh & _) & Hr & Hc).
  exists m, hdr, hb, t, es. split; [done|]. split; [done|]. split; [|done].
  intros name Hs. destruct (rep_dom _ _ _ _ _ Hr name Hs) as (x & Hx & <-).
  apply fst_split in Hx as (cells & es' & Hp). destruct (rep_shape _ _ _ _ _ Hr x cells) as (v & Hv & _);
    [rewrite Hp; left|]. by destruct Hv as (_ & _ & ?).
Qed.

(** ** A claim has one owner *)

(** What gives a claimed name back: an outcome recorded for it, or its eviction. *)
Definition settles (h : bytes) (o : req_op) (r : Z * list bytes) : Prop :=
  match o with
  | RSetState _ host _ _ => ngx_autocert_requests_normalize host = Some h
  | RGc _ _ _ _ => h ∈ r.2
  | _ => False
  end.

Definition is_drain (o : req_op) : bool := match o with RDrain _ _ _ _ => true | _ => false end.

Definition in_flight (h : bytes) m : Prop := exists r, m !! h = Some r /\ r_state r = NGX_AUTOCERT_REQ_PENDING.

Lemma in_flight_claim now m hosts h : in_flight h m -> in_flight h (claim_all now m hosts).
Proof.
  revert m. induction hosts as [|x hosts IH]; intros m Hf; [done|]. apply IH. destruct Hf as (r & Hm & Hs).
  destruct (decide (x = h)) as [->|Hne].
  - exists (claim now r). by rewrite lookup_alter_eq, Hm.
  - exists r. by rewrite lookup_alter_ne.
Qed.

Lemma claimed_in_flight now m hosts h :
  is_Some (m !! h) -> h ∈ hosts -> in_flight h (claim_all now m hosts).
Proof.
  revert m. induction hosts as [|x hosts IH]; intros m Hs Hin; [by apply elem_of_nil in Hin|].
  change (claim_all now m (x :: hosts)) with (claim_all now (alter (claim now) x m) hosts).
  destruct (decide (x = h)) as [->|Hne].
  - apply in_flight_claim. destruct Hs as [r Hr]. exists (claim now r). by rewrite lookup_alter_eq, Hr.
  - apply IH; [by rewrite lookup_alter_ne|]. apply elem_of_cons in Hin as [->|]; done.
Qed.

Lemma dropped m hosts h : h ∉ hosts -> drop_all m hosts !! h = m !! h.
Proof.
  revert m. induction hosts as [|x hosts IH]; intros m Hn; [done|]. rewrite not_elem_of_cons in Hn.
  change (drop_all m (x :: hosts)) with (drop_all (delete x m) hosts). rewrite IH by tauto.
  rewrite lookup_delete_ne; [done|]. apply not_eq_sym. tauto.
Qed.

Lemma in_flight_step m o r m' h :
  in_flight h m -> reg_op m o r m' -> ~ settles h o r ->
  in_flight h m' /\ (is_drain o = true -> h ∉ r.2).
Proof.
  intros Hf Ho Hn. pose proof Hf as (q & Hm & Hq).
  destruct Ho as [|now host rc m' He|host|now host st el rc m' Ht|push copy now max r m' Hd|push copy max r Hl|push copy now ttl r m' Hc];
    cbn [is_drain]; try (split; [|done]); try done.
  - unfold ensured in He. destruct (ngx_autocert_requests_normalize host) as [n|]; [|by destruct He as [_ ->]].
    destruct (m !! n) as [w|] eqn:En.
    + destruct He as [_ ->]. destruct (decide (n = h)) as [->|Hne].
      * exists (touch now w). rewrite lookup_insert_eq. split; [done|]. rewrite Hm in En. by injection En as <-.
      * exists q. by rewrite lookup_insert_ne.
    + destruct (_ <=? _); [by destruct He as [_ ->]|]. destruct He as [[_ ->]|(_ & -> & _)]; [|done].
      exists q. rewrite lookup_insert_ne; [done|]. congruence.
  - unfold transitioned in Ht. destruct (ngx_autocert_requests_normalize host) as [n|] eqn:En; [|by destruct Ht as [_ ->]].
    destruct (_ && _); [|by destruct Ht as [_ ->]]. destruct Ht as [_ Ht].
    destruct (m !! n) as [w|]; [|by subst m']. destruct Ht as (r' & _ & ->).
    exists q. rewrite lookup_insert_ne; [done|]. intros ->. by apply Hn.
  - destruct Hd as (Hs & _ & ->). split; [by apply in_flight_claim|]. intros _ Hin.
    destruct Hs as (_ & Hcl & _). destruct (Hcl h Hin) as (w & Hw & Hcw). rewrite Hm in Hw. injection Hw as <-.
    unfold claimable in Hcw. by rewrite Hq in Hcw.
  - unfold collected in Hc. destruct (ttl <=? 0); [by destruct Hc as [_ ->]|]. destruct Hc as (_ & _ & ->).
    exists q. by rewrite dropped.
Qed.

Lemma in_flight_run m os rs m' h :
  in_flight h m -> reg_ops m os rs m' ->
  (forall o r, (o, r) ∈ zip os rs -> ~ settles h o r) ->
  forall o r, (o, r) ∈ zip os rs -> is_drain o = true -> h ∉ r.2.
Proof.
  intros Hf Hr. induction Hr as [m|m o r m1 os rs m' Ho Hr IH]; intros Hn o' r' Hin Hd; [by apply elem_of_nil in Hin|].
  destruct (in_flight_step m o r m1 h Hf Ho) as [Hf1 Hd1]; [apply Hn; by left|].
  apply elem_of_cons in Hin as [[= -> ->]|Hin]; [by apply Hd1|].
  apply (IH Hf1) with (o := o'); [|done|done]. intros o2 r2 Hin2. apply Hn. by right.
Qed.

Lemma reg_ops_app m os1 os2 rs m' :
  reg_ops m (os1 ++ os2) rs m' ->
  exists rs1 rs2 m1, rs = rs1 ++ rs2 /\ length rs1 = length os1 /\ reg_ops m os1 rs1 m1 /\ reg_ops m1 os2 rs2 m'.
Proof.
  revert m rs. induction os1 as [|o os1 IH]; intros m rs H; simpl in *.
  - exists [], rs, m. split; [done|]. split; [done|]. split; [constructor|done].
  - inversion H as [|? ? r m1 ? rs' ? Ho Hr]; subst. destruct (IH _ _ Hr) as (rs1 & rs2 & m2 & -> & Hl & H1 & H2).
    exists (r :: rs1), rs2, m2. split; [done|]. split; [simpl; lia|]. split; [by econstructor|done].
Qed.

(** A name is handed out to one order at a time: once a drain has claimed it,
    no later drain returns it before an outcome has been recorded for it or it
    has been evicted, whatever else happens to the registry in between. *)
Theorem requests_claimed_once (os1 os2 : list req_op) push copy (now : Z) (max : nat)
    (h : bytes) (rs1 rs2 : list (Z * list bytes)) (r : Z * list bytes) z' :
  req_life (os1 ++ RDrain push copy now max :: os2) fresh_requests = Ret (Some (rs1 ++ r :: rs2)) z' ->
  length rs1 = length os1 ->
  h ∈ r.2 ->
  (forall o r', (o, r') ∈ zip os2 rs2 -> ~ settles h o r') ->
  forall o r', (o, r') ∈ zip os2 rs2 -> is_drain o = true -> h ∉ r'.2.
Proof.
  intros Hrun Hl Hh Hn. pose proof (wp_req_life (os1 ++ RDrain push copy now max :: os2)) as Hw. unfold wp in Hw.
  rewrite Hrun in Hw. destruct Hw as (m & Hm & _). apply reg_ops_app in Hm as (rs1' & rs2' & m1 & E & Hl' & _ & Hm).
  apply app_inj_1 in E as [-> <-]; [|lia]. inversion Hm as [|? ? r0 m2 ? rs0 ? Ho Hr]; simplify_eq.
  inversion Ho as [| | | |? ? ? ? ? ? (Hs & _ & ->)| |]; subst.
  eapply in_flight_run; [|exact Hr|exact Hn]. apply claimed_in_flight; [|done].
  destruct Hs as (_ & Hcl & _). destruct (Hcl h Hh) as (w & Hw & _). by eexists.
Qed.

(** ** Layout and activity stamps *)

Definition known_layout (sh : requests_sh) : bool :=
  (api_version sh =? NGX_AUTOCERT_API_VERSION) || (api_version sh =? NGX_AUTOCERT_API_INACTIVE_VERSION)
  || requests_legacy_empty sh.

(** A reload in which autocert owns the zone, or in which only a consumer
    attaches to it, changes nothing but the stamp of a layout known to be the
    current one: it activates or deactivates the registry with all its names.
    Any other layout is left untouched, and refused by the owner. *)
Theorem requests_reload_stamp (s : slab) (a : nat) (sh : requests_sh) (owner : bool) :
  ngx_autocert_requests_init_body slab_oom junk owner (Zone s false (Some (a, sh)))
  = let stamp := if owner then NGX_AUTOCERT_API_VERSION else NGX_AUTOCERT_API_INACTIVE_VERSION in
    if known_layout sh
    then Ret NGX_OK (Zone s false (Some (a, RequestsSh stamp (count sh) (rq_tree sh))))
    else Ret (if owner then NGX_ERROR else NGX_OK) (Zone s false (Some (a, sh))).
Proof.
  unfold ngx_autocert_requests_init_body, known_layout, bind, has_data, get_sh, set_sh, ret. cbn [z_data].
  by destruct (_ || _).
Qed.

(** What each call answers on a zone that no owner of this layout has activated. *)
Definition inert_answer (o : req_op) : Z * list bytes :=
  match o with
  | RReload => (NGX_ERROR, [])
  | REnsure _ host =>
      (match ngx_autocert_requests_normalize host with
       | None => NGX_AUTOCERT_REQ_DENIED | Some _ => NGX_AUTOCERT_REQ_UNKNOWN end, [])
  | RState _ => (NGX_AUTOCERT_REQ_UNKNOWN, [])
  | RSetState _ _ _ _ => (NGX_ERROR, [])
  | RDrain _ _ _ _ | RListIssued _ _ _ => (-1, [])
  | RGc _ _ _ ttl => (if ttl <=? 0 then 0 else -1, [])
  end.

(** Under any stamp but the active one - no header, a foreign or older
    layout, a cycle without autocert - every call leaves the zone exactly as it
    is, without even taking the mutex, and answers that nothing is tracked. *)
Theorem requests_inert_when_inactive (z : zone requests_sh) (o : req_op) :
  (forall a sh, z_data z = Some (a, sh) -> api_version sh <> NGX_AUTOCERT_API_VERSION) ->
  o <> RReload ->
  run_req o z = Ret (inert_answer o) z.
Proof.
  intros Hv Hr. assert (Hf : requests_foreign z = Ret true z).
  { unfold requests_foreign. destruct (z_data z) as [[a sh]|]; [|done].
    destruct (Z.eqb_spec (api_version sh) NGX_AUTOCERT_API_VERSION); [|done]. by destruct (Hv a sh). }
  destruct o as [|now host|host|now host st el|push copy now max|push copy max|push copy now ttl]; [done|..];
    cbn [run_req inert_answer].
  - unfold ngx_autocert_requests_ensure, bind, ret. cbv iota.
    destruct (ngx_autocert_requests_normalize host); [by rewrite Hf|done].
  - unfold ngx_autocert_requests_state, bind, ret. cbv iota.
    destruct (ngx_autocert_requests_normalize host); [by rewrite Hf|done].
  - unfold ngx_autocert_requests_set_state, bind, ret. destruct (_ || _); [done|].
    destruct (ngx_autocert_requests_normalize host); [by rewrite Hf|done].
  - unfold ngx_autocert_requests_drain, bind, ret. by rewrite Hf.
  - unfold ngx_autocert_requests_list_issued, bind, ret. by rewrite Hf.
  - unfold ngx_autocert_requests_gc, bind, ret. destruct (ttl <=? 0); [done|]. by rewrite Hf.
Qed.
End Thms.

(** ** Witnesses *)

Definition no_oom : nat -> bool := fun _ => false.

Lemma requests_claimed_once_witness :
  let h := str "a.example" in
  let drain := RDrain no_oom no_oom 1000 0 in
  exists rs1 r rs2 z',
    req_life (RB := plain_trees) (fun _ => 0) no_oom 0
      ([REnsure 10 (str "A.example"); REnsure 20 (str "b.example")]
       ++ drain :: [REnsure 30 h; RSetState 40 (str "b.example") NGX_AUTOCERT_REQ_FAILED 0; drain]) fresh_requests
    = Ret (Some (rs1 ++ r :: rs2)) z'
    /\ h ∈ r.2
    /\ forall o r', (o, r') ∈ zip [REnsure 30 h; RSetState 40 (str "b.example") NGX_AUTOCERT_REQ_FAILED 0; drain] rs2 ->
         is_drain o = true -> h ∉ r'.2.
Proof.
  cbv zeta.
  eexists [(1, []); (1, [])], (2, [str "a.example"; str "b.example"]), [(2, []); (0, []); (1, [str "b.example"])], _.
  assert (Hin : str "a.example" ∈ [str "a.example"; str "b.example"]) by left.
  split; [vm_compute; reflexivity|]. split; [exact Hin|].
  eapply (requests_claimed_once (RB := plain_trees) (fun _ => 0) no_oom 0
    [REnsure 10 (str "A.example"); REnsure 20 (str "b.example")] _ no_oom no_oom 1000 0 (str "a.example")
    [(1, []); (1, [])] _ (2, [str "a.example"; str "b.example"])).
  - vm_compute. reflexivity.
  - reflexivity.
  - exact Hin.
  - intros o r' Ho. repeat (apply elem_of_cons in Ho as [[= -> ->]|Ho]; [vm_compute; congruence|]).
    by apply elem_of_nil in Ho.
Defined.

Lemma requests_inert_when_inactive_witness :
  let z := Zone (Slab 1 ∅ [] 0) false (Some (0%nat, RequestsSh NGX_AUTOCERT_API_INACTIVE_VERSION 0 Leaf)) in
  run_req (RB := plain_trees) (fun _ => 0) no_oom 0 (REnsure 5 (str "a.example")) z
  = Ret (NGX_AUTOCERT_REQ_UNKNOWN, []) z.
Proof.
  cbv zeta. eapply (requests_inert_when_inactive (RB := plain_trees) (fun _ => 0) no_oom 0 _ (REnsure 5 (str "a.example"))).
  - intros a sh [= <- <-]. vm_compute. discriminate.
  - discriminate.
Defined.

(** ** Where requests.h says otherwise *)

Definition answers_to (os : list req_op) : list (Z * list bytes) :=
  match req_life (RB := plain_trees) (fun _ => 0) no_oom 0 os fresh_requests with Ret (Some rs) _ => rs | _ => [] end.

(** An allocation fails in the middle of a drain: the answer is the number of names
    claimed so far. *)
Example drain_cut_short :
  answers_to [REnsure 10 (str "a.example"); REnsure 10 (str "b.example"); RDrain no_oom (fun n => (1 <=? n)%nat) 20 0]
  = [(1, []); (1, []); (1, [str "a.example"])].
Proof. vm_compute. reflexivity. Qed.

(** A name that is pending, and has been for longer than the idle time, is evicted. *)
Example pending_evicted :
  answers_to [REnsure 10 (str "a.example"); RDrain no_oom no_oom 20 0; RGc no_oom no_oom 1000 60]
  = [(1, []); (1, [str "a.example"]); (1, [str "a.example"])].
Proof. vm_compute. reflexivity. Qed.
