(* ===== verification/Registry.v ===== *)
(** * What the driver relies on of the runtime registry

    The interface between the driver, which claims names and records outcomes,
    and the shared registry of ngx_autocert_requests.c: each call answers as the
    map of names to requests does.  RequestsThms discharges it. *)

From S2P Require Import Prelude NgxCore Ident Rbtree Shm Requests RequestsNames RequestsThms.

Local Open Scope Z_scope.

Class Registry (H : Type) := {
  reg_ensure : Z -> bytes -> prog (zone H) Z;
  reg_set_state : Z -> bytes -> Z -> Z -> prog (zone H) Z;
  reg_drain : (nat -> bool) -> (nat -> bool) -> Z -> Z -> prog (zone H) (Z * list bytes);
  reg_list_issued : (nat -> bool) -> (nat -> bool) -> Z -> prog (zone H) (Z * list bytes);
  reg_gc : (nat -> bool) -> (nat -> bool) -> Z -> Z -> prog (zone H) (Z * list bytes);
  (** which allocations of the slab fail *)
  reg_oom : nat -> bool;
  reg_inv : zone H -> gmap bytes req -> Prop;
  reg_bounded : forall z m, reg_inv z m -> Z.of_nat (size m) <= NGX_AUTOCERT_REQUESTS_MAX;
  reg_filed : forall z m h, reg_inv z m -> is_Some (m !! h) -> filed h;
  reg_ensure_spec : forall z m now h, reg_inv z m ->
    wp (reg_ensure now h) z
      (fun rc z' => exists m', reg_inv z' m' /\ ensured reg_oom now h m rc m') (fun _ => False);
  reg_set_state_spec : forall z m now h state eligible, reg_inv z m ->
    wp (reg_set_state now h state eligible) z
      (fun rc z' => exists m', reg_inv z' m' /\ transitioned now h state eligible m rc m') (fun _ => False);
  reg_drain_spec : forall z m push copy now max, reg_inv z m -> 0 <= max ->
    wp (reg_drain push copy now max) z
      (fun r z' => exists m', reg_inv z' m' /\ drained push copy now max m r m') (fun _ => False);
  reg_list_issued_spec : forall z m push copy max, reg_inv z m -> 0 <= max ->
    wp (reg_list_issued push copy max) z
      (fun r z' => reg_inv z' m /\ listed push copy max m r) (fun _ => False);
  reg_gc_spec : forall z m push copy now ttl, reg_inv z m ->
    wp (reg_gc push copy now ttl) z
      (fun r z' => exists m', reg_inv z' m' /\ collected push copy now ttl m r m') (fun _ => False) }.

Section Discharge.
Context `{RB : NgxRbtree} (crc32 : bytes -> Z) (slab_oom : nat -> bool) (junk : Z).

Lemma req_inv_bounded z m : req_inv crc32 z m -> Z.of_nat (size m) <= NGX_AUTOCERT_REQUESTS_MAX.
Proof. by intros (es & s & hdr & hb & t & _ & _ & _ & H). Qed.

Lemma req_inv_filed z m h : req_inv crc32 z m -> is_Some (m !! h) -> filed h.
Proof.
  intros (es & s & hdr & hb & t & _ & _ & Hr & _) Hs. destruct (rep_dom _ _ _ _ _ Hr h Hs) as (x & Hx & <-).
  apply fst_split in Hx as (cells & es' & Hp).
  destruct (rep_shape _ _ _ _ _ Hr x cells) as (v & Hv & _); [rewrite Hp; left|]. by destruct Hv as (_ & _ & ?).
Qed.

Definition requests_registry : Registry requests_sh := {|
  reg_ensure := ngx_autocert_requests_ensure crc32 slab_oom junk false;
  reg_set_state := ngx_autocert_requests_set_state crc32 false;
  reg_drain push copy := ngx_autocert_requests_drain push copy false;
  reg_list_issued push copy := ngx_autocert_requests_list_issued push copy false;
  reg_gc push copy := ngx_autocert_requests_gc push copy false;
  reg_oom := slab_oom;
  reg_inv := req_inv crc32;
  reg_bounded := req_inv_bounded;
  reg_filed := req_inv_filed;
  reg_ensure_spec := wp_ensure crc32 slab_oom junk;
  reg_set_state_spec := wp_set_state crc32;
  reg_drain_spec z m push copy := wp_drain crc32 push copy z m;
  reg_list_issued_spec z m push copy := wp_list_issued crc32 push copy z m;
  reg_gc_spec z m push copy := wp_gc crc32 push copy z m |}.
End Discharge.
