(* ===== verification/Marker.v ===== *)
(** * Runtime markers: the names that survive a restart

    After issuing for a runtime host the driver leaves a small file beside the
    certificate with the host's name in it, and reads these files back when it
    starts with an empty registry ([ngx_autocert_runtime_marker_write],
    [ngx_autocert_runtime_marker_remove] and [ngx_autocert_seed_read_marker] of
    ngx_autocert_driver.c).  The store is hostile ground here: what lies at the
    marker's path may be anything, and any system call may fail. *)

From S2P Require Import Prelude NgxCore Requests.

Local Open Scope Z_scope.

(** What is found at the marker's name inside a directory. *)
Inductive leaf :=
  | Absent
  | Regular (nlink : Z) (content : bytes)
  | Symlink
  | Fifo
  | Device.

(** The directories that can be pinned (no symbolic link on the way), by path. *)
Abbreviation disk := (gmap bytes leaf).

(** The system calls of one operation on a marker: which fail on their own, and
    the value [write] or [read] returns. *)
Record syscalls := Syscalls {
  open_dir_fails : bool;
  openat_fails : bool;
  fstat_fails : bool;
  ftruncate_fails : bool;
  transferred : Z;
  unlinkat_fails : bool }.

(** [openat] with the flags NGX_AUTOCERT_MARKER_OPEN_WRITE (create, no blocking,
    no following): the leaf as the descriptor sees it.  A symbolic link fails
    with ELOOP and a FIFO without a reader with ENXIO. *)
Definition open_write (l : leaf) : option leaf :=
  match l with
  | Absent => Some (Regular 1 [])
  | Regular n c => Some (Regular n c)
  | Device => Some Device
  | Symlink | Fifo => None
  end.

(** And with NGX_AUTOCERT_MARKER_OPEN_READ: a FIFO opens, without blocking. *)
Definition open_read (l : leaf) : option leaf :=
  match l with
  | Absent | Symlink => None
  | _ => Some l
  end.

(** The bytes a [write] that returned [n] put into an empty file. *)
Definition write_out (n : Z) (data : bytes) : bytes := take (Z.to_nat n) data.

(** [dir]: the path [ngx_autocert_runtime_dir] built, empty if it built none. *)
Definition ngx_autocert_runtime_marker_write (sys : syscalls) (dir host : bytes) (d : disk) : disk :=
  if (length dir =? 0)%nat then d
  else if open_dir_fails sys then d
  else
    match d !! dir with
    | None => d
    | Some l =>
        if openat_fails sys then d
        else
          match open_write l with
          | None => d
          | Some f =>
              let d := <[dir := f]> d in
              if fstat_fails sys then d
              else
                match f with
                | Regular nlink _ =>
                    if negb (nlink =? 1) then d
                    else if ftruncate_fails sys then d
                    else <[dir := Regular nlink (write_out (transferred sys) host)]> d
                | _ => d
                end
          end
    end.

Definition ngx_autocert_runtime_marker_remove (sys : syscalls) (dir : bytes) (d : disk) : disk :=
  if (length dir =? 0)%nat then d
  else if open_dir_fails sys then d
  else
    match d !! dir with
    | None => d
    | Some _ => if unlinkat_fails sys then d else <[dir := Absent]> d
    end.

(** [dir]: what [openat(cfd, name, O_DIRECTORY | O_NOFOLLOW)] opens; the result is
    the host, [None] for NGX_DECLINED. *)
Definition ngx_autocert_seed_read_marker (sys : syscalls) (d : disk) (name dir : bytes) : option bytes :=
  if bool_decide (head name = Some 46) then None
  else if open_dir_fails sys then None
  else
    match d !! dir with
    | None => None
    | Some l =>
        if openat_fails sys then None
        else
          match open_read l with
          | None => None
          | Some f =>
              if fstat_fails sys then None
              else
                match f with
                | Regular _ content =>
                    let size := Z.of_nat (length content) in
                    if (size <=? 0) || (Z.of_nat NGX_AUTOCERT_REQUEST_NAME_MAX <? size) then None
                    else
                      let n := transferred sys in
                      if (n <=? 0) || negb (n =? size) then None
                      else Some (take (Z.to_nat n) content)
                | _ => None
                end
          end
    end.

(** ** What is read back *)

(** No call fails, and all is transferred. *)
Definition no_failure (sys : syscalls) (n : nat) : Prop :=
  open_dir_fails sys = false /\ openat_fails sys = false /\ fstat_fails sys = false
  /\ ftruncate_fails sys = false /\ unlinkat_fails sys = false /\ transferred sys = Z.of_nat n.

Lemma read_marker_Some (sys : syscalls) (d : disk) (name dir host : bytes) :
  ngx_autocert_seed_read_marker sys d name dir = Some host ->
  exists n, d !! dir = Some (Regular n host) /\ (0 < length host <= 253)%nat.
Proof.
  unfold ngx_autocert_seed_read_marker. intros H. repeat case_match; simplify_eq; reflect_bools.
  destruct l; simplify_eq/=. reflect_bools. unfold NGX_AUTOCERT_REQUEST_NAME_MAX in *.
  exists nlink. rewrite take_ge by lia. split; [done|]. lia.
Qed.

Lemma read_marker_ok (sys : syscalls) (d : disk) (name dir : bytes) n (host : bytes) :
  d !! dir = Some (Regular n host) -> (0 < length host <= 253)%nat -> head name <> Some 46 ->
  no_failure sys (length host) -> ngx_autocert_seed_read_marker sys d name dir = Some host.
Proof.
  intros Hd Hl Hn (E1 & E2 & E3 & _ & _ & E6). unfold ngx_autocert_seed_read_marker.
  rewrite bool_decide_false, E1, E2, E3, Hd by done. cbn [open_read]. cbv zeta. rewrite E6, Z.eqb_refl.
  unfold NGX_AUTOCERT_REQUEST_NAME_MAX.
  destruct (Z.leb_spec (Z.of_nat (length host)) 0); [lia|]. destruct (Z.ltb_spec (Z.of_nat 253) (Z.of_nat (length host))); [lia|].
  cbn [orb negb]. by rewrite take_ge by lia.
Qed.

(** A write touches no directory but its own, and leaves there what was there or
    the beginning of the name. *)
Lemma marker_write_cases (sys : syscalls) (dir host : bytes) (d : disk) :
  ngx_autocert_runtime_marker_write sys dir host d = d
  \/ exists l f, d !! dir = Some l /\ open_write l = Some f
       /\ (ngx_autocert_runtime_marker_write sys dir host d = <[dir := f]> d
           \/ exists n, f = Regular 1 n
               /\ ngx_autocert_runtime_marker_write sys dir host d = <[dir := Regular 1 (write_out (transferred sys) host)]> d).
Proof.
  unfold ngx_autocert_runtime_marker_write.
  destruct (length dir =? 0)%nat; [by left|]. destruct (open_dir_fails sys); [by left|].
  destruct (d !! dir) as [l|] eqn:El; [|by left]. destruct (openat_fails sys); [by left|].
  destruct (open_write l) as [f|] eqn:Ef; [|by left]. right. exists l, f. split; [done|]. split; [done|].
  destruct (fstat_fails sys); [by left|]. destruct f as [|nlink c| | |]; try by left.
  destruct (Z.eqb_spec nlink 1) as [->|]; cbn [negb]; [|by left].
  destruct (ftruncate_fails sys); [by left|]. right. exists c. split; [done|]. by rewrite insert_insert_eq.
Qed.

(** A marker is read back as the host it was written for: exactly, when no
    system call failed; and whatever fails, and whatever was planted at its path
    before, what is read back is what could be read there before or a non-empty
    beginning of the host.  Directories of other hosts read as they did. *)
Theorem marker_roundtrip (wsys rsys : syscalls) (d : disk) (dir host name other name' : bytes) :
  dir <> [] -> (0 < length host <= 253)%nat -> head name <> Some 46 ->
  let d' := ngx_autocert_runtime_marker_write wsys dir host d in
  (no_failure wsys (length host) -> no_failure rsys (length host) ->
   (d !! dir = Some Absent \/ exists c, d !! dir = Some (Regular 1 c)) ->
   ngx_autocert_seed_read_marker rsys d' name dir = Some host)
  /\ (forall h, ngx_autocert_seed_read_marker rsys d' name dir = Some h ->
        ngx_autocert_seed_read_marker rsys d name dir = Some h \/ h <> [] /\ h `prefix_of` host)
  /\ (other <> dir -> ngx_autocert_seed_read_marker rsys d' name' other = ngx_autocert_seed_read_marker rsys d name' other).
Proof.
  intros Hdir Hl Hname d'. split; [|split].
  - intros (E1 & E2 & E3 & E4 & _ & E6) Hr Hd.
    assert (Hd' : d' !! dir = Some (Regular 1 host)).
    { unfold d', ngx_autocert_runtime_marker_write, write_out.
      destruct (Nat.eqb_spec (length dir) 0) as [E0|_]; [by apply nil_length_inv in E0|].
      rewrite E1, E2, E3, E4, E6, Nat2Z.id, take_ge by lia.
      destruct Hd as [->|[c ->]]; cbn [open_write]; rewrite Z.eqb_refl; cbn [negb]; by rewrite lookup_insert_eq. }
    by eapply read_marker_ok.
  - intros h Hh. apply read_marker_Some in Hh as Hd'. destruct Hd' as (n & Hd' & Hlen).
    destruct (marker_write_cases wsys dir host d) as [E|(l & f & El & Ef & [E|(c & -> & E)])]; fold d' in E.
    + left. by rewrite E in Hh.
    + left. rewrite E, lookup_insert_eq in Hd'. injection Hd' as ->.
      destruct l; cbn [open_write] in Ef; simplify_eq; [simpl in Hlen; lia|].
      by rewrite E, insert_id in Hh.
    + right. rewrite E, lookup_insert_eq in Hd'. injection Hd' as _ <-. unfold write_out in *.
      split; [intros E0; rewrite E0 in Hlen; simpl in Hlen; lia|].
      exists (drop (Z.to_nat (transferred wsys)) host). by rewrite take_drop.
  - intros Hne. assert (Ho : d' !! other = d !! other).
    { destruct (marker_write_cases wsys dir host d) as [E|(l & f & _ & _ & [E|(c & _ & E)])]; fold d' in E;
        rewrite E; [done|by rewrite lookup_insert_ne..]. }
    unfold ngx_autocert_seed_read_marker. by rewrite Ho.
Qed.

(** A removed marker is not read back. *)
Lemma marker_removed (sys rsys : syscalls) (d : disk) (dir name : bytes) (n : nat) :
  dir <> [] -> no_failure sys n ->
  ngx_autocert_seed_read_marker rsys (ngx_autocert_runtime_marker_remove sys dir d) name dir = None.
Proof.
  intros Hd (E1 & _ & _ & _ & E5 & _). unfold ngx_autocert_runtime_marker_remove.
  destruct (Nat.eqb_spec (length dir) 0) as [E0|_]; [by apply nil_length_inv in E0|]. rewrite E1, E5.
  destruct (ngx_autocert_seed_read_marker rsys _ name dir) as [h|] eqn:E; [|done].
  apply read_marker_Some in E as (k & E & _). destruct (d !! dir) eqn:Ed; [by rewrite lookup_insert_eq in E|congruence].
Qed.

Lemma marker_roundtrip_witness :
  let d := <[str "/s/a.example" := Absent]> (∅ : disk) in
  let sys := Syscalls false false false false 9 false in
  ngx_autocert_seed_read_marker sys (ngx_autocert_runtime_marker_write sys (str "/s/a.example") (str "a.example") d)
    (str "a.example") (str "/s/a.example") = Some (str "a.example").
Proof.
  apply (marker_roundtrip (Syscalls false false false false 9 false) (Syscalls false false false false 9 false)
           (<[str "/s/a.example" := Absent]> ∅) (str "/s/a.example") (str "a.example") (str "a.example")
           (str "/s/b") (str "b")).
  - done.
  - simpl. lia.
  - done.
  - done.
  - done.
  - left. vm_compute. reflexivity.
Defined.
