(* ===== verification/Sched.v ===== *)
(** * The driver: bootstrap, scheduling and outcomes (ngx_autocert_driver.c)

    One process decides what is ordered and when.  It registers an account with
    each CA, one after the other, then sweeps the configured names and the
    runtime requests, with at most one order in flight; an order's end continues
    the sweep.  Everything runs on one event loop: a handler runs to its end,
    except that an order or a registration that fails while it is being started
    completes inside the call that starts it. *)

From S2P Require Import Prelude NgxCore Ident Expiry Ratecap Rbtree Shm Alpn Requests RequestsNames RequestsThms Registry Marker.

Local Open Scope Z_scope.
Local Open Scope prog_scope.

(** In milliseconds: *)
Definition NGX_AUTOCERT_KICK : Z := 500.
Definition NGX_AUTOCERT_KICK_RETRY : Z := 30000.
Definition NGX_AUTOCERT_SCHED_INTERVAL : Z := 12 * 60 * 60 * 1000.
Definition NGX_AUTOCERT_SCHED_FLOOR : Z := 60 * 1000.
Definition NGX_AUTOCERT_SCHED_INITIAL : Z := 1000.

(** In seconds: *)
Definition NGX_AUTOCERT_BACKOFF_BASE : Z := 60.
Definition NGX_AUTOCERT_BACKOFF_MAXSHIFT : Z := 6.
Definition NGX_AUTOCERT_BACKOFF_CAP : Z := 60 * 60.
Definition RUNTIME_RECHECK : Z := 300.

Definition NGX_MAX_SIZE_T_VALUE : Z := NGX_MAX_INT_T_VALUE.
Definition sizeof_backoff : Z := 16.

(** ** State *)

(** [ngx_autocert_backoff_t]: the hold of one name and key type. *)
Record backoff := Backoff { b_next_eligible : Z; b_fails : Z }.

(** [ngx_autocert_ca_state_t]; [account] is the test [account != NULL]: set while
    a registration is in flight, and for ever once it succeeded. *)
Record ca_state := CaState {
  ca_names : option (list bytes);
  client_ready : bool;
  account : bool;
  account_live : bool;
  ca_backoff : option (list backoff);
  backoff_n : nat;
  backoff_nkt : nat }.

(** The order in flight, as the driver launched it: for which CA and name, with
    which key and challenge, and whether it counts against the global cap
    ([on_new_order] is set). *)
Record order := Order {
  o_ca : nat;
  o_domain : bytes;
  o_key_type : Z;
  o_challenge : Z;
  o_counts : bool }.

(** [ngx_autocert_sched_ca], [_index] and [_kt]. *)
Record cursor := Cursor { sched_ca : nat; sched_index : nat; sched_kt : nat }.

(** [ngx_autocert_order], and which slot or ledger its outcome goes to. *)
Record flight := Flight {
  cur_order : option order;
  sched_cur_ca : nat;
  sched_cur : nat;
  sched_runtime : bool }.

(** The timers: whether they have a handler, and what they are set to. *)
Record timers := Timers {
  sched_armed : bool;
  sched_timer : option Z;
  kick_armed : bool;
  kick_timer : option Z }.

(** What was done: orders launched (with the slot of a configured name, and the
    caps as they stood), and the calls of [backoff_record] and [backoff_hold]. *)
Inductive entry :=
  | Launched (now : Z) (slot : option (nat * nat)) (o : order) (s : rt_state)
  | Recorded (now : Z) (slot : nat * nat) (success : bool)
  | HeldUntil (slot : nat * nat) (at_ : Z).

Record world (H : Type) := World {
  cas : list ca_state;
  cur : cursor;
  fl : flight;
  tmr : timers;
  caps : rt_state;
  registry : zone H;
  files : disk;
  calls : nat;
  clock : Z;
  quitting : bool;
  trace : list entry }.
Arguments World {H}.
Arguments cas {H}.
Arguments cur {H}.
Arguments fl {H}.
Arguments tmr {H}.
Arguments caps {H}.
Arguments registry {H}.
Arguments files {H}.
Arguments calls {H}.
Arguments clock {H}.
Arguments quitting {H}.
Arguments trace {H}.

(** [ngx_autocert_conf_t], as far as the driver decides by it; the names of each
    CA of [ca_list]. *)
Record conf := Conf {
  configured : bool;
  ca_list : list (option (list bytes));
  challenge_zone : bool;
  requests_zone : bool;
  challenge : Z;
  cert_key_types : option (list Z);
  stores : store_conf;
  runtime_ttl : Z }.

(** What starting an asynchronous operation comes to: it is refused, it is in
    flight, or it fails at once, which calls its handler before the start
    returns. *)
Inductive start := Refused | InFlight | FailedInline.

(** What the driver does not decide; the number of the call tells one from the
    next. *)
Record env (X509 EVP_PKEY : Type) := Env {
  ok : nat -> bool;
  starts : nat -> start;
  disk_view : nat -> view X509 EVP_PKEY;
  file_calls : nat -> syscalls;
  push_fails : nat -> nat -> bool;
  copy_fails : nat -> nat -> bool;
  inet_addr : bytes -> Z;
  inet6_addr : bytes -> option bytes }.
Arguments Env {X509 EVP_PKEY}.
Arguments ok {X509 EVP_PKEY}.
Arguments starts {X509 EVP_PKEY}.
Arguments disk_view {X509 EVP_PKEY}.
Arguments file_calls {X509 EVP_PKEY}.
Arguments push_fails {X509 EVP_PKEY}.
Arguments copy_fails {X509 EVP_PKEY}.
Arguments inet_addr {X509 EVP_PKEY}.
Arguments inet6_addr {X509 EVP_PKEY}.

(** A process that has just taken the driver lock. *)
Definition world0 {H : Type} (z : zone H) (d : disk) (now : Z) : world H :=
  World [] (Cursor 0 0 0) (Flight None 0 0 false) (Timers false None false None) rt_state0 z d 0 now false [].

(** ** Updates *)

Definition set_client_ready (b : bool) (s : ca_state) : ca_state :=
  CaState (ca_names s) b (account s) (account_live s) (ca_backoff s) (backoff_n s) (backoff_nkt s).
Definition set_account (b : bool) (s : ca_state) : ca_state :=
  CaState (ca_names s) (client_ready s) b (account_live s) (ca_backoff s) (backoff_n s) (backoff_nkt s).
Definition set_account_live (b : bool) (s : ca_state) : ca_state :=
  CaState (ca_names s) (client_ready s) (account s) b (ca_backoff s) (backoff_n s) (backoff_nkt s).
Definition set_ca_backoff (b : option (list backoff)) (n nkt : nat) (s : ca_state) : ca_state :=
  CaState (ca_names s) (client_ready s) (account s) (account_live s) b n nkt.

Section Updates.
Context {H : Type}.
Implicit Types (w : world H).

Definition set_cas x w : world H :=
  World x (cur w) (fl w) (tmr w) (caps w) (registry w) (files w) (calls w) (clock w) (quitting w) (trace w).
Definition set_cur x w : world H :=
  World (cas w) x (fl w) (tmr w) (caps w) (registry w) (files w) (calls w) (clock w) (quitting w) (trace w).
Definition set_fl x w : world H :=
  World (cas w) (cur w) x (tmr w) (caps w) (registry w) (files w) (calls w) (clock w) (quitting w) (trace w).
Definition set_tmr x w : world H :=
  World (cas w) (cur w) (fl w) x (caps w) (registry w) (files w) (calls w) (clock w) (quitting w) (trace w).
Definition set_caps x w : world H :=
  World (cas w) (cur w) (fl w) (tmr w) x (registry w) (files w) (calls w) (clock w) (quitting w) (trace w).
Definition set_registry x w : world H :=
  World (cas w) (cur w) (fl w) (tmr w) (caps w) x (files w) (calls w) (clock w) (quitting w) (trace w).
Definition set_files x w : world H :=
  World (cas w) (cur w) (fl w) (tmr w) (caps w) (registry w) x (calls w) (clock w) (quitting w) (trace w).
Definition set_calls x w : world H :=
  World (cas w) (cur w) (fl w) (tmr w) (caps w) (registry w) (files w) x (clock w) (quitting w) (trace w).
Definition set_clock x w : world H :=
  World (cas w) (cur w) (fl w) (tmr w) (caps w) (registry w) (files w) (calls w) x (quitting w) (trace w).
Definition set_quitting x w : world H :=
  World (cas w) (cur w) (fl w) (tmr w) (caps w) (registry w) (files w) (calls w) (clock w) x (trace w).
Definition set_trace x w : world H :=
  World (cas w) (cur w) (fl w) (tmr w) (caps w) (registry w) (files w) (calls w) (clock w) (quitting w) x.
End Updates.

(** ** Pure parts *)

(** The delay before the next attempt after the [fails]-th failure in a row. *)
Definition backoff_delay (fails : Z) : Z :=
  let shift := u64 (fails - 1) in
  let shift := if NGX_AUTOCERT_BACKOFF_MAXSHIFT <? shift then NGX_AUTOCERT_BACKOFF_MAXSHIFT else shift in
  let delay := Z.shiftl NGX_AUTOCERT_BACKOFF_BASE shift in
  if NGX_AUTOCERT_BACKOFF_CAP <? delay then NGX_AUTOCERT_BACKOFF_CAP else delay.

Definition record_slot (now : Z) (success : bool) (b : backoff) : backoff :=
  if success then Backoff 0 0
  else
    let fails := u64 (b_fails b + 1) in
    Backoff (now + backoff_delay fails) fails.

Definition hold_slot (at_ : Z) (b : backoff) : backoff :=
  if b_next_eligible b <? at_ then Backoff at_ (b_fails b) else b.

(** The scan of a backoff array: the soonest hold still running, 0 if none. *)
Definition soonest_hold (now soonest : Z) (b : backoff) : Z :=
  let e := b_next_eligible b in
  if (now <? e) && ((soonest =? 0) || (e <? soonest)) then e else soonest.

(** The delay until the next sweep, in milliseconds, before the holds. *)
Definition sweep_interval (cf : conf) : Z :=
  let interval := NGX_AUTOCERT_SCHED_INTERVAL in
  let interval :=
    if configured cf && (0 <? renew_before (stores cf)) then
      let half := u64 (u64 (renew_before (stores cf)) * 1000) / 2 in
      if half <? interval then half else interval
    else interval in
  if configured cf && (0 <? runtime_ttl cf) && requests_zone cf then
    let ttl_ms := u64 (u64 (runtime_ttl cf) * 1000) in
    if ttl_ms <? interval then ttl_ms else interval
  else interval.

Definition rearm_interval (cf : conf) (now soonest : Z) : Z :=
  let interval := sweep_interval cf in
  let interval :=
    if negb (soonest =? 0) then
      let until := u64 (u64 (soonest - now) * 1000) in
      if until <? interval then until else interval
    else interval in
  if interval <? NGX_AUTOCERT_SCHED_FLOOR then NGX_AUTOCERT_SCHED_FLOOR else interval.

(** The configured name that covers a host: the first in the order of the CAs.
    [None]: a name is read past its end. *)
Fixpoint names_cover (names : list bytes) (host : bytes) : option (option bytes) :=
  match names with
  | [] => Some None
  | name :: names' =>
      match ngx_autocert_name_covers name host with
      | None => None
      | Some true => Some (Some name)
      | Some false => names_cover names' host
      end
  end.

Fixpoint ngx_autocert_name_is_config (cas : list ca_state) (host : bytes) : option (option bytes) :=
  match cas with
  | [] => Some None
  | s :: cas' =>
      match ca_names s with
      | None => ngx_autocert_name_is_config cas' host
      | Some names =>
          match names_cover names host with
          | Some None => ngx_autocert_name_is_config cas' host
          | r => r
          end
      end
  end.

(** The hold of a host over a cap: until the window frees. *)
Definition cap_hold (ring : list Z) (now window : Z) : Z :=
  let oldest := ngx_autocert_rt_window_oldest ring now window in
  if negb (oldest =? 0) then oldest + window + 1 else now + window.

Section Driver.
Context {H : Type} {R : Registry H} {X509 EVP_PKEY : Type} (cf : conf) (E : env X509 EVP_PKEY).
Abbreviation W := (world H).

Definition read {A} (f : W -> A) : prog W A := fun w => Ret (f w) w.
Definition update (f : W -> W) : prog W unit := fun w => Ret tt (f w).

(** The number of the next call to the environment. *)
Definition next_call : prog W nat := fun w => Ret (calls w) (set_calls (S (calls w)) w).

(** An allocation that may fail. *)
Definition attempt : prog W bool := let! n := next_call in ret (ok E n).

Definition on_registry {A} (m : prog (zone H) A) : prog W A := fun w =>
  match m (registry w) with
  | Ret a z => Ret a (set_registry z w)
  | Err z => Err (set_registry z w)
  | Fault => Fault
  | NoFuel => NoFuel
  end.

Definition get_option {A} (o : option A) : prog W A := fun w =>
  match o with Some a => Ret a w | None => Fault end.

(** [&ngx_autocert_ca_states[i]] *)
Definition get_ca (i : nat) : prog W ca_state := let! l := read cas in get_option (l !! i).
Definition put_ca (i : nat) (f : ca_state -> ca_state) : prog W unit :=
  update (fun w => set_cas (alter f i (cas w)) w).

Definition log_entry (e : entry) : prog W unit := update (fun w => set_trace (trace w ++ [e]) w).

Definition set_sched_timer (msec : Z) : prog W unit :=
  update (fun w => set_tmr (Timers (sched_armed (tmr w)) (Some msec) (kick_armed (tmr w)) (kick_timer (tmr w))) w).
Definition set_kick_timer (msec : Z) : prog W unit :=
  update (fun w => set_tmr (Timers (sched_armed (tmr w)) (sched_timer (tmr w)) (kick_armed (tmr w)) (Some msec)) w).

(** ** Backoff *)

Definition ngx_autocert_ca_backoff_ensure (i : nat) : prog W Z :=
  let! s := get_ca i in
  let names := match ca_names s with Some l => length l | None => 0%nat end in
  let nkt := match cert_key_types cf with Some l => length l | None => 1%nat end in
  if (names =? 0)%nat || (nkt =? 0)%nat then ret NGX_ERROR
  else if NGX_MAX_SIZE_T_VALUE / Z.of_nat names <? Z.of_nat nkt then
    put_ca i (fun s => set_ca_backoff (ca_backoff s) 0 (backoff_nkt s) s);; ret NGX_ERROR
  else
    let n := (names * nkt)%nat in
    if match ca_backoff s with Some _ => true | None => false end
       && (backoff_n s =? n)%nat && (backoff_nkt s =? nkt)%nat
    then ret NGX_OK
    else if NGX_MAX_SIZE_T_VALUE / sizeof_backoff <? Z.of_nat n then
      put_ca i (fun s => set_ca_backoff (ca_backoff s) 0 (backoff_nkt s) s);; ret NGX_ERROR
    else
      let! got := attempt in
      if got then put_ca i (set_ca_backoff (Some (replicate n (Backoff 0 0))) n nkt);; ret NGX_OK
      else put_ca i (fun s => set_ca_backoff None 0 (backoff_nkt s) s);; ret NGX_ERROR.

(** Changing slot [index] of CA [i]; nothing happens out of range. *)
Definition change_slot (i index : nat) (f : backoff -> backoff) (e : entry) : prog W unit :=
  let! s := get_ca i in
  match ca_backoff s with
  | None => ret tt
  | Some l =>
      if (backoff_n s <=? index)%nat then ret tt
      else
        let! _ := get_option (l !! index) in
        put_ca i (set_ca_backoff (Some (alter f index l)) (backoff_n s) (backoff_nkt s));;
        log_entry e
  end.

Definition ngx_autocert_backoff_record (i index : nat) (success : bool) : prog W unit :=
  let! now := read clock in
  change_slot i index (record_slot now success) (Recorded now (i, index) success).

Definition ngx_autocert_backoff_hold (i index : nat) (at_ : Z) : prog W unit :=
  change_slot i index (hold_slot at_) (HeldUntil (i, index) at_).

(** ** The disk *)

Definition name_due (name : bytes) (key_type : Z) : prog W bool :=
  let! n := next_call in
  let! now := read clock in
  ret (ngx_autocert_name_due (inet_addr E) (inet6_addr E) (stores cf) (disk_view E n) now name key_type).

Definition marker_dir (host : bytes) : bytes :=
  ngx_autocert_runtime_dir (inet_addr E) (inet6_addr E) (stores cf) host NGX_MAX_PATH.

Definition marker_write (host : bytes) : prog W unit :=
  let! n := next_call in
  update (fun w => set_files (ngx_autocert_runtime_marker_write (file_calls E n) (marker_dir host) host (files w)) w).

Definition marker_remove (host : bytes) : prog W unit :=
  let! n := next_call in
  update (fun w => set_files (ngx_autocert_runtime_marker_remove (file_calls E n) (marker_dir host) (files w)) w).

(** ** Calls on the registry, at the current time *)

Definition set_state (host : bytes) (state eligible : Z) : prog W Z :=
  let! now := read clock in on_registry (reg_set_state now host state eligible).
Definition drain (max : Z) : prog W (Z * list bytes) :=
  let! n := next_call in
  let! now := read clock in
  on_registry (reg_drain (push_fails E n) (copy_fails E n) now max).
Definition list_issued (max : Z) : prog W (Z * list bytes) :=
  let! n := next_call in on_registry (reg_list_issued (push_fails E n) (copy_fails E n) max).
Definition gc (ttl : Z) : prog W (Z * list bytes) :=
  let! n := next_call in
  let! now := read clock in
  on_registry (reg_gc (push_fails E n) (copy_fails E n) now ttl).

(** ** Rearming *)

(** The scan of every backoff array; an array shorter than its count is a fault. *)
Fixpoint soonest_of (cas : list ca_state) (now soonest : Z) : option Z :=
  match cas with
  | [] => Some soonest
  | s :: cas' =>
      if (backoff_n s =? 0)%nat then soonest_of cas' now soonest
      else
        match ca_backoff s with
        | None => None
        | Some l =>
            if (length l <? backoff_n s)%nat then None
            else soonest_of cas' now (fold_left (soonest_hold now) (take (backoff_n s) l) soonest)
        end
  end.

Definition rearm : prog W unit :=
  let! now := read clock in
  let! l := read cas in
  let! soonest := get_option (soonest_of l now 0) in
  set_sched_timer (rearm_interval cf now soonest).

(** ** Orders *)

Section Pump.
(** The pump an order's end calls. *)
Context (pump : prog W unit).

(** The ledger of a runtime order is its entry in the registry. *)
Definition record_runtime (o : order) (rc retry_after : Z) : prog W unit :=
  if requests_zone cf then
    let hold := if negb (rc =? NGX_OK) && (0 <? retry_after) then retry_after else 0 in
    let! now := read clock in
    (if negb (rc =? NGX_OK)
     then update (fun w => set_caps (ngx_autocert_rt_fail_record (caps w) (o_domain o) now) w)
     else ret tt);;
    (if rc =? NGX_OK then marker_write (o_domain o) else ret tt);;
    let! rc' := set_state (o_domain o)
                  (if rc =? NGX_OK then NGX_AUTOCERT_REQ_ISSUED else NGX_AUTOCERT_REQ_FAILED) hold in
    if negb (rc' =? NGX_OK) then
      let! _ := set_state (o_domain o) NGX_AUTOCERT_REQ_REQUESTED hold in ret tt
    else ret tt
  else ret tt.

Definition record_config (rc retry_after : Z) : prog W unit :=
  let! f := read fl in
  ngx_autocert_backoff_record (sched_cur_ca f) (sched_cur f) (rc =? NGX_OK);;
  if negb (rc =? NGX_OK) && (0 <? retry_after)
  then ngx_autocert_backoff_hold (sched_cur_ca f) (sched_cur f) retry_after
  else ret tt.

Definition clear_order : prog W unit :=
  update (fun w => set_fl (Flight None (sched_cur_ca (fl w)) (sched_cur (fl w)) (sched_runtime (fl w))) w).

(** [retry_after] is [order->retry_after]. *)
Definition ngx_autocert_order_complete (rc retry_after : Z) : prog W unit :=
  let! f := read fl in
  let! o := get_option (cur_order f) in
  (if sched_runtime f then record_runtime o rc retry_after else record_config rc retry_after);;
  clear_order;;
  pump.

(** [slot]: the slot of a configured name. *)
Definition ngx_autocert_start_order_for (ca : nat) (name : bytes) (key_type : Z) (slot : option (nat * nat))
    : prog W Z :=
  let runtime := match slot with None => true | Some _ => false end in
  let! f := read fl in
  match cur_order f with
  | Some _ => ret NGX_ERROR
  | None =>
      let! pool := attempt in
      if negb pool then ret NGX_ERROR
      else
        let! got := attempt in
        if negb got then ret NGX_ERROR
        else
          let! data := attempt in
          if negb data then ret NGX_ERROR
          else
            let o := Order ca name key_type
              (if runtime && (challenge cf =? NGX_AUTOCERT_CHALLENGE_DNS_01)
               then NGX_AUTOCERT_CHALLENGE_HTTP_01 else challenge cf) runtime in
            update (fun w => set_fl (Flight (Some o) (sched_cur_ca (fl w)) (sched_cur (fl w)) runtime) w);;
            let! n := next_call in
            let! now := read clock in
            let! s := read caps in
            match starts E n with
            | Refused => clear_order;; ret NGX_ERROR
            | InFlight => log_entry (Launched now slot o s);; ret NGX_OK
            | FailedInline =>
                log_entry (Launched now slot o s);; ngx_autocert_order_complete NGX_ERROR 0;; ret NGX_OK
            end
  end.

(** ** The sweep *)

Definition move (c : cursor) : prog W unit := update (set_cur c).

(** [while (sched_kt < nkt)]: the key types of a name, [i] its index; true when an
    order was launched. *)
Fixpoint kt_loop (fuel : nat) (ca i : nat) (name : bytes) (kts : list Z) (nkt : nat) : prog W bool :=
  match fuel with
  | O => nofuel
  | S fuel' =>
      let! c := read cur in
      if (nkt <=? sched_kt c)%nat then ret false
      else
        let k := sched_kt c in
        move (Cursor (sched_ca c) (sched_index c) (S k));;
        let! key_type := get_option (kts !! k) in
        let slot := (i * nkt + k)%nat in
        let! s := get_ca ca in
        let! l := get_option (ca_backoff s) in
        let! b := get_option (l !! slot) in
        let! now := read clock in
        if now <? b_next_eligible b then kt_loop fuel' ca i name kts nkt
        else
          let! due := name_due name key_type in
          if negb due then kt_loop fuel' ca i name kts nkt
          else
            update (fun w => set_fl (Flight (cur_order (fl w)) ca slot (sched_runtime (fl w))) w);;
            let! rc := ngx_autocert_start_order_for ca name key_type (Some (ca, slot)) in
            if rc =? NGX_OK then ret true
            else ngx_autocert_backoff_record ca slot false;; kt_loop fuel' ca i name kts nkt
  end.

(** [while (sched_index < names->nelts)] *)
Fixpoint name_loop (fuel : nat) (ca : nat) (names : list bytes) (kts : list Z) (nkt : nat) : prog W bool :=
  match fuel with
  | O => nofuel
  | S fuel' =>
      let! c := read cur in
      if (length names <=? sched_index c)%nat then ret false
      else
        let! name := get_option (names !! sched_index c) in
        let! launched := kt_loop (S nkt) ca (sched_index c) name kts nkt in
        if launched then ret true
        else
          let! c := read cur in
          move (Cursor (sched_ca c) (S (sched_index c)) 0);;
          name_loop fuel' ca names kts nkt
  end.

(** [for ( ; sched_ca < ca_states_n; sched_ca++, ...)] *)
Fixpoint ca_loop (fuel : nat) : prog W bool :=
  match fuel with
  | O => nofuel
  | S fuel' =>
      let! c := read cur in
      let! n := read (fun w => length (cas w)) in
      let ca := sched_ca c in
      if (n <=? ca)%nat then ret false
      else
        let next := (let! c := read cur in move (Cursor (S (sched_ca c)) 0 0);; ca_loop fuel') in
        let! s := get_ca ca in
        if negb (account_live s) || negb (account s) then next
        else
          match ca_names s with
          | None | Some [] => next
          | Some names =>
              let! rc := ngx_autocert_ca_backoff_ensure ca in
              if negb (rc =? NGX_OK) then next
              else
                let! kts := get_option (cert_key_types cf) in
                let! s := get_ca ca in
                let! launched := name_loop (S (length names)) ca names kts (backoff_nkt s) in
                if launched then ret true else next
          end
  end.

(** What becomes of a claimed host; true when an order was launched for it. *)
Definition serve_host (h : bytes) (key_type : Z) : prog W bool :=
  let! l := read cas in
  let! cover := get_option (ngx_autocert_name_is_config l h) in
  match cover with
  | Some cover =>
      let! due := name_due cover key_type in
      let! now := read clock in
      let! _ := if negb due then set_state h NGX_AUTOCERT_REQ_ISSUED 0
                else set_state h NGX_AUTOCERT_REQ_REQUESTED (now + RUNTIME_RECHECK) in
      ret false
  | None =>
      let! now := read clock in
      let! s := read caps in
      if ngx_autocert_rt_order_at_cap s now then
        let! _ := set_state h NGX_AUTOCERT_REQ_REQUESTED (cap_hold (order_ring s) now NGX_AUTOCERT_RT_ORDER_WINDOW) in
        ret false
      else if ngx_autocert_rt_fail_at_cap s h now then
        let! _ := set_state h NGX_AUTOCERT_REQ_REQUESTED
          (match ngx_autocert_rt_fail_find s h with
           | Some i =>
               match fail_table s !! i with
               | Some e => cap_hold (f_ring e) now NGX_AUTOCERT_RT_FAIL_WINDOW
               | None => now + NGX_AUTOCERT_RT_FAIL_WINDOW
               end
           | None => now + NGX_AUTOCERT_RT_FAIL_WINDOW
           end) in
        ret false
      else
        let! rc := ngx_autocert_start_order_for 0 h key_type None in
        if rc =? NGX_OK then ret true
        else let! _ := set_state h NGX_AUTOCERT_REQ_FAILED 0 in ret false
  end.

(** [for ( ;; )]: one host claimed and disposed of at a time. *)
Fixpoint drain_hosts (fuel : nat) (key_type : Z) : prog W unit :=
  match fuel with
  | O => nofuel
  | S fuel' =>
      let! q := read quitting in
      if q then ret tt
      else
        let! got := attempt in
        if negb got then ret tt
        else
          let! r := drain 1 in
          if r.1 <=? 0 then ret tt
          else
            let! h := get_option (head r.2) in
            let! launched := serve_host h key_type in
            if launched then ret tt else drain_hosts fuel' key_type
  end.

(** The issued hosts whose certificate is due are requested again. *)
Fixpoint renew_hosts (hosts : list bytes) (key_type : Z) : prog W unit :=
  match hosts with
  | [] => ret tt
  | h :: hosts' =>
      let! l := read cas in
      let! cover := get_option (ngx_autocert_name_is_config l h) in
      match cover with
      | Some _ => renew_hosts hosts' key_type
      | None =>
          let! due := name_due h key_type in
          (if due then let! _ := set_state h NGX_AUTOCERT_REQ_REQUESTED 0 in ret tt else ret tt);;
          renew_hosts hosts' key_type
      end
  end.

Fixpoint remove_markers (hosts : list bytes) : prog W unit :=
  match hosts with
  | [] => ret tt
  | h :: hosts' => marker_remove h;; remove_markers hosts'
  end.

(** The hosts a registry call reports: [m > 0 && j < m]. *)
Definition reported (r : Z * list bytes) : list bytes := take (Z.to_nat r.1) r.2.

Definition runtime_key_type : Z :=
  match cert_key_types cf with Some (kt :: _) => kt | _ => NGX_HTTP_AUTOCERT_KEY_P256 end.

Definition ngx_autocert_sched_pump_runtime : prog W unit :=
  let! n := read (fun w => length (cas w)) in
  if negb (requests_zone cf) || (n =? 0)%nat then ret tt
  else
    let! s := get_ca 0 in
    if negb (account_live s) || negb (account s) then ret tt
    else
      let! pool := attempt in
      if negb pool then ret tt
      else
        drain_hosts (S (Z.to_nat NGX_AUTOCERT_REQUESTS_MAX)) runtime_key_type;;
        (let! got := attempt in
         if got then let! r := list_issued 0 in renew_hosts (reported r) runtime_key_type else ret tt);;
        if 0 <? runtime_ttl cf then
          let! got := attempt in
          if got then let! r := gc (runtime_ttl cf) in remove_markers (reported r) else ret tt
        else ret tt.

Definition sched_pump_body : prog W unit :=
  let! q := read quitting in
  let! f := read fl in
  if q then ret tt
  else
    match cur_order f with
    | Some _ => ret tt
    | None =>
        if negb (configured cf) then rearm
        else if negb (challenge_zone cf) then rearm
        else
          let! n := read (fun w => length (cas w)) in
          let! launched := ca_loop (S n) in
          if launched then ret tt
          else
            ngx_autocert_sched_pump_runtime;;
            let! f := read fl in
            match cur_order f with
            | Some _ => ret tt
            | None => rearm
            end
    end.
End Pump.

(** An order that fails inline pumps from inside the pump that started it. *)
Fixpoint ngx_autocert_sched_pump (fuel : nat) : prog W unit :=
  match fuel with
  | O => nofuel
  | S fuel' => sched_pump_body (ngx_autocert_sched_pump fuel')
  end.

(** The fuel of a pump: an inline failure uses up a slot of the sweep or a claimable
    host. *)
Definition slots : nat :=
  (list_sum ((fun names => match names with Some l => length l | None => 0%nat end) <$> ca_list cf)
   * match cert_key_types cf with Some l => length l | None => 1%nat end)%nat.
Definition PUMP_FUEL : nat := (slots + Z.to_nat NGX_AUTOCERT_REQUESTS_MAX + 2)%nat.

Definition pump : prog W unit := ngx_autocert_sched_pump PUMP_FUEL.

Definition ngx_autocert_start_order : prog W unit :=
  let! t := read tmr in
  if sched_armed t then ret tt
  else update (fun w => set_tmr (Timers true (Some NGX_AUTOCERT_SCHED_INITIAL) (kick_armed t) (kick_timer t)) w).

Definition ngx_autocert_sched_handler : prog W unit :=
  let! q := read quitting in
  if q then ret tt
  else
    let! f := read fl in
    match cur_order f with
    | Some _ => set_sched_timer NGX_AUTOCERT_SCHED_INTERVAL
    | None => move (Cursor 0 0 0);; pump
    end.

(** ** Bootstrap *)

(** The end of the chain: the scheduler is armed for the accounts that are live,
    and the kick timer for those that are not. *)
Definition chain_end : prog W unit :=
  let! l := read cas in
  (if existsb account_live l then ngx_autocert_start_order else ret tt);;
  let! q := read quitting in
  let! t := read tmr in
  if existsb (fun s => negb (account_live s)) l && negb q && kick_armed t
     && match kick_timer t with None => true | Some _ => false end
  then set_kick_timer NGX_AUTOCERT_KICK_RETRY else ret tt.

(** The outbound client of CA [i], built once: created, then pinned. *)
Definition build_client (i : nat) : prog W bool :=
  let! s := get_ca i in
  if client_ready s then ret true
  else
    let! created := attempt in
    if negb created then ret false
    else
      let! pinned := attempt in
      if negb pinned then ret false
      else put_ca i (set_client_ready true);; ret true.

(** What [ngx_autocert_account_done] does before it resumes the chain. *)
Definition account_settle (i : nat) (rc : Z) : prog W unit :=
  if negb (rc =? NGX_OK) then put_ca i (set_account false) else put_ca i (set_account_live true).

(** The loop of [bootstrap_ca]. *)
Fixpoint bootstrap_loop (fuel : nat) (i : nat) : prog W unit :=
  match fuel with
  | O => nofuel
  | S fuel' =>
      let! n := read (fun w => length (cas w)) in
      if (n <=? i)%nat then chain_end
      else
        let! s := get_ca i in
        if account s then bootstrap_loop fuel' (S i)
        else
          let! client := build_client i in
          if negb client then bootstrap_loop fuel' (S i)
          else
            let! pool := attempt in
            if negb pool then bootstrap_loop fuel' (S i)
            else
              let! got := attempt in
              if negb got then bootstrap_loop fuel' (S i)
              else
                let! key := attempt in
                if negb key then bootstrap_loop fuel' (S i)
                else
                  put_ca i (set_account true);;
                  let! k := next_call in
                  match starts E k with
                  | Refused => put_ca i (set_account false);; bootstrap_loop fuel' (S i)
                  | InFlight => ret tt
                  | FailedInline => account_settle i NGX_ERROR;; bootstrap_loop fuel' (S i)
                  end
  end.

Definition ngx_autocert_bootstrap_ca (i : nat) : prog W unit :=
  let! q := read quitting in
  if q then ret tt
  else if negb (configured cf) then ret tt
  else
    let! n := read (fun w => length (cas w)) in
    bootstrap_loop (S n) i.

Definition ngx_autocert_account_done (i : nat) (rc : Z) : prog W unit :=
  account_settle i rc;; ngx_autocert_bootstrap_ca (S i).

Definition ca_state0 (names : option (list bytes)) : ca_state := CaState names false false false None 0 0.

(** Without the test directives' seeds.  A list that fits in memory passes the
    guard on its length. *)
Definition ngx_autocert_kick_handler : prog W unit :=
  let! q := read quitting in
  if q then ret tt
  else if negb (configured cf) then ret tt
  else
    match ca_list cf with
    | [] => ret tt
    | _ =>
        let! l := read cas in
        match l with
        | _ :: _ => ngx_autocert_bootstrap_ca 0
        | [] =>
            let! got := attempt in
            if negb got then set_kick_timer NGX_AUTOCERT_KICK_RETRY
            else update (set_cas (ca_state0 <$> ca_list cf));; ngx_autocert_bootstrap_ca 0
        end
    end.

Definition ngx_autocert_driver_arm : prog W unit :=
  update (fun w => set_tmr (Timers (sched_armed (tmr w)) (sched_timer (tmr w)) true (Some NGX_AUTOCERT_KICK)) w).

(** ** Teardown *)

Definition ngx_autocert_driver_drop_order : prog W unit :=
  let! f := read fl in
  match cur_order f with
  | None => ret tt
  | Some o =>
      (if sched_runtime f && requests_zone cf
       then let! _ := set_state (o_domain o) NGX_AUTOCERT_REQ_REQUESTED 0 in ret tt else ret tt);;
      update (fun w => set_fl (Flight None (sched_cur_ca (fl w)) (sched_cur (fl w)) false) w)
  end.

Definition ngx_autocert_driver_drop_ca_states : prog W unit := update (set_cas []).

(** The timers of the scheduler and of the bootstrap. *)
Definition ngx_autocert_driver_cancel_timers : prog W unit :=
  update (fun w => set_tmr (Timers (sched_armed (tmr w)) None (kick_armed (tmr w)) None) w).

Definition ngx_autocert_driver_exit_process : prog W unit :=
  ngx_autocert_driver_drop_order;; ngx_autocert_driver_drop_ca_states;; ngx_autocert_driver_cancel_timers.

(** ** The restart: names found on disk *)

(** The return code of [ngx_autocert_seed_restore_entry]. *)
Definition ngx_autocert_seed_restore_entry (key_type : Z) (host : bytes) : prog W Z :=
  let! l := read cas in
  let! cover := get_option (ngx_autocert_name_is_config l host) in
  match cover with
  | Some _ => ret NGX_DECLINED
  | None =>
      let! due := name_due host key_type in
      if due then ret NGX_DECLINED
      else
        let! now := read clock in
        let! rc := on_registry (reg_ensure now host) in
        if (rc =? NGX_AUTOCERT_REQ_UNKNOWN) || (rc =? NGX_AUTOCERT_REQ_DENIED) then ret NGX_DECLINED
        else
          let! rc := set_state host NGX_AUTOCERT_REQ_ISSUED 0 in
          if negb (rc =? NGX_OK) then ret NGX_DECLINED else ret NGX_OK
  end.

(** ** Events *)

(** What the event loop delivers: a timer, the end of the order or of a
    registration, the acceptance of a newOrder; and what happens outside: a call
    of the consumer module, a change of the disk, a request to quit, and the exit
    that follows it. *)
Inductive event :=
  | ESchedTimer
  | EKickTimer
  | EOrderDone (rc retry_after : Z)
  | EOrderCounted
  | EAccountDone (i : nat) (rc : Z)
  | EEnsure (host : bytes)
  | EFiles (d : disk)
  | EQuit
  | EExit.

(** An event that cannot happen in a state does nothing. *)
Definition handle (e : event) : prog W unit :=
  let! w := read id in
  match e with
  | ESchedTimer =>
      match sched_timer (tmr w) with
      | None => ret tt
      | Some _ =>
          update (fun w => set_tmr (Timers (sched_armed (tmr w)) None (kick_armed (tmr w)) (kick_timer (tmr w))) w);;
          ngx_autocert_sched_handler
      end
  | EKickTimer =>
      match kick_timer (tmr w) with
      | None => ret tt
      | Some _ =>
          update (fun w => set_tmr (Timers (sched_armed (tmr w)) (sched_timer (tmr w)) (kick_armed (tmr w)) None) w);;
          ngx_autocert_kick_handler
      end
  | EOrderDone rc retry_after =>
      match cur_order (fl w) with
      | None => ret tt
      | Some _ => ngx_autocert_order_complete pump rc retry_after
      end
  | EOrderCounted =>
      match cur_order (fl w) with
      | Some o => if o_counts o then update (fun w => set_caps (ngx_autocert_rt_order_record (caps w) (clock w)) w) else ret tt
      | None => ret tt
      end
  | EAccountDone i rc =>
      match cas w !! i with
      | Some s => if account s && negb (account_live s) then ngx_autocert_account_done i rc else ret tt
      | None => ret tt
      end
  | EEnsure host => let! _ := on_registry (reg_ensure (clock w) host) in ret tt
  | EFiles d => update (set_files d)
  | EQuit => update (set_quitting true)
  | EExit => if quitting w then ngx_autocert_driver_exit_process else ret tt
  end.

(** An event at time [t]; time does not go back. *)
Definition step (t : Z) (e : event) : prog W unit :=
  update (fun w => set_clock (Z.max (clock w) t) w);; handle e.

Fixpoint run (es : list (Z * event)) : prog W unit :=
  match es with
  | [] => ret tt
  | (t, e) :: es' => step t e;; run es'
  end.
End Driver.
