(* ===== verification/SchedInv.v ===== *)
(** * The driver: its state as its history, and the invariant *)

From S2P Require Import Prelude NgxCore Ident Expiry Ratecap Rbtree Shm Alpn Requests RequestsNames RequestsThms Registry Marker Sched.

Local Open Scope Z_scope.
Local Open Scope prog_scope.

(** ** The history of a slot *)

Definition slot_step (s : nat * nat) (b : backoff) (e : entry) : backoff :=
  match e with
  | Recorded now s' success => if decide (s' = s) then record_slot now success b else b
  | HeldUntil s' u => if decide (s' = s) then hold_slot u b else b
  | Launched _ _ _ _ => b
  end.

(** The slot after a history: nothing but outcomes and holds change it. *)
Definition slot_of (tr : list entry) (s : nat * nat) : backoff := fold_left (slot_step s) tr (Backoff 0 0).

Lemma slot_of_snoc tr e s : slot_of (tr ++ [e]) s = slot_step s (slot_of tr s) e.
Proof. apply fold_left_app. Qed.

Section Inv.
Context {H : Type} {R : Registry H} {X509 EVP_PKEY : Type} (cf : conf) (E : env X509 EVP_PKEY).
Abbreviation W := (world H).
Implicit Types (w : W) (m : gmap bytes req) (s : ca_state).

Definition kts_of : list Z := match cert_key_types cf with Some l => l | None => [] end.
Definition nkt : nat := length kts_of.
Definition names_of (o : option (list bytes)) : list bytes := match o with Some l => l | None => [] end.
Definition nlen (ca : nat) : nat := length (names_of (default None (ca_list cf !! ca))).

Definition due_at (now : Z) (name : bytes) (key_type : Z) (n : nat) : bool :=
  ngx_autocert_name_due (inet_addr E) (inet6_addr E) (stores cf) (disk_view E n) now name key_type.

(** The name and key type of a slot. *)
Definition slot_name (s : nat * nat) (name : bytes) (key_type : Z) : Prop :=
  exists names i k, ca_list cf !! s.1 = Some (Some names) /\ names !! i = Some name /\ kts_of !! k = Some key_type
    /\ s.2 = (i * nkt + k)%nat.

(** What a launch must satisfy: a configured name is out of its hold and its
    certificate was just seen to be due; a runtime host is not covered by the
    configuration, is under both caps, and is not ordered by dns-01. *)
Definition launch_ok (pre : list entry) (now : Z) (slot : option (nat * nat)) (o : order) (c : rt_state) : Prop :=
  match slot with
  | Some s =>
      b_next_eligible (slot_of pre s) <= now
      /\ s.1 = o_ca o /\ slot_name s (o_domain o) (o_key_type o)
      /\ (exists n, due_at now (o_domain o) (o_key_type o) n = true)
      /\ o_challenge o = challenge cf /\ o_counts o = false
  | None =>
      ngx_autocert_requests_normalize (o_domain o) = Some (o_domain o)
      /\ (forall names name, Some names ∈ ca_list cf -> name ∈ names ->
            ngx_autocert_name_covers name (o_domain o) = Some false)
      /\ ngx_autocert_rt_order_at_cap c now = false
      /\ ngx_autocert_rt_fail_at_cap c (o_domain o) now = false
      /\ o_ca o = 0%nat /\ o_key_type o = runtime_key_type cf
      /\ o_challenge o <> NGX_AUTOCERT_CHALLENGE_DNS_01 /\ o_counts o = true
  end.

(** An outcome is recorded only for a slot that was out of its hold. *)
Definition entry_ok (pre : list entry) (e : entry) : Prop :=
  match e with
  | Launched now slot o c => launch_ok pre now slot o c
  | Recorded now s _ => b_next_eligible (slot_of pre s) <= now
  | HeldUntil _ _ => True
  end.

Definition lawful (tr : list entry) : Prop := forall pre e post, tr = pre ++ e :: post -> entry_ok pre e.

Lemma lawful_nil : lawful [].
Proof. intros [|x pre] e post He; discriminate. Qed.

Lemma lawful_snoc tr e : lawful tr -> entry_ok tr e -> lawful (tr ++ [e]).
Proof.
  intros Hl He pre e1 post Hs. destruct post as [|y post _] using rev_ind.
  - apply app_inj_tail in Hs as [<- <-]. done.
  - change (pre ++ e1 :: post ++ [y]) with (pre ++ (e1 :: post) ++ [y]) in Hs.
    rewrite app_assoc in Hs. apply app_inj_tail in Hs as [-> _]. by eapply Hl.
Qed.

(** ** Slots *)

Definition slot_at w (ca slot : nat) : option backoff :=
  match cas w !! ca with
  | Some s => match ca_backoff s with Some l => l !! slot | None => None end
  | None => None
  end.

(** The table of a CA: absent, or of one slot for each of its names and key types. *)
Definition table_ok (ca : nat) s : Prop :=
  match ca_backoff s with
  | None => backoff_n s = 0%nat
  | Some l => length l = backoff_n s /\ backoff_n s = (nlen ca * nkt)%nat /\ backoff_nkt s = nkt
  end.

(** The tables say what the history says. *)
Definition tables_ok w : Prop :=
  forall ca s, cas w !! ca = Some s ->
    table_ok ca s
    /\ match ca_backoff s with
       | None => forall slot, slot_of (trace w) (ca, slot) = Backoff 0 0
       | Some l => forall slot b, l !! slot = Some b -> b = slot_of (trace w) (ca, slot)
       end.

(** The cursor: inside a name's key types, or at the end of a CA's names. *)
Definition cursor_ok (c : cursor) : Prop :=
  (sched_index c < nlen (sched_ca c))%nat /\ (sched_kt c <= nkt)%nat
  \/ sched_index c = nlen (sched_ca c) /\ sched_kt c = 0%nat
  \/ sched_index c = 0%nat /\ sched_kt c = 0%nat.

(** ** The registry and the order in flight *)

Definition pending (r : req) : Prop := r_state r = NGX_AUTOCERT_REQ_PENDING.

(** No entry is pending, but perhaps [h]. *)
Definition pending_only (o : option bytes) m : Prop :=
  forall h r, m !! h = Some r -> pending r -> o = Some h.

Record inv w m : Prop := {
  inv_reg : reg_inv (registry w) m;
  inv_clock : 0 < clock w;
  inv_built : cas w = [] \/ ca_names <$> cas w = ca_list cf;
  inv_unbuilt : cas w = [] -> quitting w = true \/ trace w = [];
  inv_tables : tables_ok w;
  inv_cursor : cursor_ok (cur w);
  inv_lawful : lawful (trace w) }.

(** The order in flight and its ledger. *)
Definition flight_ok w m : Prop :=
  match cur_order (fl w) with
  | None => pending_only None m
  | Some o =>
      if sched_runtime (fl w)
      then requests_zone cf = true /\ filed (o_domain o) /\ pending_only (Some (o_domain o)) m
      else pending_only None m /\ (sched_cur_ca (fl w) < length (cas w))%nat
           /\ b_next_eligible (slot_of (trace w) (sched_cur_ca (fl w), sched_cur (fl w))) <= clock w
  end.

(** ** Rules *)

Lemma wp_read_world {A} (f : W -> A) w Q Er : Q (f w) w -> wp (read f) w Q Er.
Proof. done. Qed.

Lemma wp_update_world (f : W -> W) w (Q : unit -> W -> Prop) Er : Q tt (f w) -> wp (update f) w Q Er.
Proof. done. Qed.

Lemma wp_next_call w Q Er : Q (calls w) (set_calls (S (calls w)) w) -> wp (next_call (H := H)) w Q Er.
Proof. done. Qed.

Lemma wp_attempt_call w Q Er :
  Q (ok E (calls w)) (set_calls (S (calls w)) w) -> wp (attempt (H := H) E) w Q Er.
Proof. done. Qed.

Lemma wp_get_option {A} (o : option A) a w Q Er : o = Some a -> Q a w -> wp (get_option (H := H) o) w Q Er.
Proof. by intros ->. Qed.

Lemma wp_get_ca i s w Q Er : cas w !! i = Some s -> Q s w -> wp (get_ca (H := H) i) w Q Er.
Proof. intros Hs HQ. apply wp_bind, wp_read_world. by eapply wp_get_option. Qed.

Lemma wp_on_registry {A} (p : prog (zone H) A) w (Q : A -> W -> Prop) Er :
  wp p (registry w) (fun a z => Q a (set_registry z w)) (fun _ => False) -> wp (on_registry p) w Q Er.
Proof. unfold wp, on_registry. by destruct (p (registry w)). Qed.

(** ** Runtime entries *)

Lemma transitioned_filed now h state eligible m rc m' :
  filed h -> NGX_AUTOCERT_REQ_UNKNOWN < state <= NGX_AUTOCERT_REQ_DENIED -> transitioned now h state eligible m rc m' ->
  rc = NGX_OK
  /\ match m !! h with
     | None => m' = m
     | Some r => exists r', set_state_fields state eligible now r = Some r' /\ m' = <[h := r']> m
     end.
Proof.
  unfold transitioned, filed. intros -> Hs.
  destruct ((NGX_AUTOCERT_REQ_UNKNOWN <? state) && (state <=? NGX_AUTOCERT_REQ_DENIED)) eqn:Eb; [done|].
  apply andb_false_iff in Eb as [Eb|Eb]; reflect_bools; lia.
Qed.

Lemma set_state_fields_state state eligible now r r' :
  set_state_fields state eligible now r = Some r' -> r_state r' = state.
Proof. unfold set_state_fields. intros H0. repeat case_match; simplify_eq; done. Qed.

(** Writing a state that is not pending settles the host. *)
Lemma settle_pending h state eligible now m m' rc :
  filed h -> NGX_AUTOCERT_REQ_UNKNOWN < state <= NGX_AUTOCERT_REQ_DENIED -> state <> NGX_AUTOCERT_REQ_PENDING ->
  transitioned now h state eligible m rc m' -> pending_only (Some h) m -> pending_only None m'.
Proof.
  intros Hf Hs Hn Ht Hp. destruct (transitioned_filed _ _ _ _ _ _ _ Hf Hs Ht) as [_ Hm].
  destruct (m !! h) as [r|] eqn:Em.
  - destruct Hm as (r' & Hr & ->). intros h' r1 Hl Hpe. destruct (decide (h = h')) as [->|Hne].
    + rewrite lookup_insert_eq in Hl. injection Hl as <-. apply set_state_fields_state in Hr. unfold pending in Hpe. congruence.
    + rewrite lookup_insert_ne in Hl by done. specialize (Hp _ _ Hl Hpe). congruence.
  - subst m'. intros h' r1 Hl Hpe. specialize (Hp _ _ Hl Hpe). congruence.
Qed.

(** And settles nothing else. *)
Lemma settle_other o h state eligible now m m' rc :
  filed h -> NGX_AUTOCERT_REQ_UNKNOWN < state <= NGX_AUTOCERT_REQ_DENIED -> state <> NGX_AUTOCERT_REQ_PENDING ->
  transitioned now h state eligible m rc m' -> pending_only o m -> pending_only o m'.
Proof.
  intros Hf Hs Hn Ht Hp. destruct (transitioned_filed _ _ _ _ _ _ _ Hf Hs Ht) as [_ Hm].
  destruct (m !! h) as [r|] eqn:Em; [|by subst].
  destruct Hm as (r' & Hr & ->). intros h' r1 Hl Hpe. destruct (decide (h = h')) as [->|Hne].
  - rewrite lookup_insert_eq in Hl. injection Hl as <-. apply set_state_fields_state in Hr. unfold pending in Hpe. congruence.
  - rewrite lookup_insert_ne in Hl by done. by eapply Hp.
Qed.

Lemma ensured_pending o now h m rc m' : ensured reg_oom now h m rc m' -> pending_only o m -> pending_only o m'.
Proof.
  unfold ensured. intros He Hp. destruct (ngx_autocert_requests_normalize h) as [n|]; [|by destruct He as [_ ->]].
  assert (Hins : forall r, (pending r -> o = Some n) -> pending_only o (<[n := r]> m)).
  { intros r Hr h' r1 Hl Hpe. destruct (decide (n = h')) as [->|Hne].
    - rewrite lookup_insert_eq in Hl. injection Hl as <-. by apply Hr.
    - rewrite lookup_insert_ne in Hl by done. by eapply Hp. }
  destruct (m !! n) as [r|] eqn:Em.
  - destruct He as [_ ->]. apply Hins. intros Hpe. by eapply Hp.
  - destruct (_ <=? _); [by destruct He as [_ ->]|]. destruct He as [[_ ->]|(_ & -> & _)]; [|done].
    apply Hins. intros Hpe. discriminate Hpe.
Qed.
End Inv.

(** * The driver: how a sweep moves through the slots

    What a pump leaves as it was, what it has settled behind its cursor, and the measure
    that bounds how often an order can fail inline and pump again. *)


Section Sweep.
Context {H : Type} {R : Registry H} {X509 EVP_PKEY : Type} (cf : conf) (E : env X509 EVP_PKEY).
Abbreviation W := (world H).
Implicit Types (w : W) (m : gmap bytes req) (s : ca_state).

(** ** What a pump keeps *)

Definition skeleton s : option (list bytes) * bool * bool * bool :=
  (ca_names s, client_ready s, account s, account_live s).

Record frame w0 w : Prop := {
  fr_skeleton : skeleton <$> cas w = skeleton <$> cas w0;
  fr_tables : forall ca s0 s, cas w0 !! ca = Some s0 -> cas w !! ca = Some s -> is_Some (ca_backoff s0) -> is_Some (ca_backoff s);
  fr_clock : clock w = clock w0;
  fr_quitting : quitting w = quitting w0;
  fr_armed : sched_armed (tmr w) = sched_armed (tmr w0);
  fr_kick : kick_armed (tmr w) = kick_armed (tmr w0) /\ kick_timer (tmr w) = kick_timer (tmr w0);
  fr_calls : (calls w0 <= calls w)%nat }.

Definition held w (ca slot : nat) : Prop := exists b, slot_at w ca slot = Some b /\ clock w < b_next_eligible b.

(** Later in the same pump: no hold is lifted. *)
Definition later w0 w : Prop := frame w0 w /\ forall ca slot, held w0 ca slot -> held w ca slot.

Lemma frame_length w0 w : frame w0 w -> length (cas w) = length (cas w0).
Proof. intros []. rewrite <- (length_fmap skeleton), fr_skeleton0. apply length_fmap. Qed.

#[export] Instance frame_preorder : PreOrder frame.
Proof.
  split.
  - intros w. split; try done. intros ca s0 s Hs Hs' Hb. congruence.
  - intros w1 w2 w3 F1 F2. pose proof (frame_length _ _ F1) as Hlen. destruct F1, F2. split; try congruence; try lia.
    + intros ca s1 s3 H1 H3 Hb.
      assert (Hs2 : is_Some (cas w2 !! ca)) by (apply lookup_lt_is_Some; rewrite Hlen; apply lookup_lt_is_Some; by eexists).
      destruct Hs2 as [s2 H2]. eauto.
    + destruct fr_kick0, fr_kick1. split; congruence.
Qed.

#[export] Instance later_preorder : PreOrder later.
Proof.
  split.
  - intros w. split; [reflexivity|done].
  - intros w1 w2 w3 [F1 H1] [F2 H2]. split; [by transitivity w2|auto].
Qed.

Lemma frame_ca w0 w ca s0 :
  frame w0 w -> cas w0 !! ca = Some s0 -> exists s, cas w !! ca = Some s /\ skeleton s = skeleton s0.
Proof.
  intros F Hs. assert (Hk : (skeleton <$> cas w) !! ca = Some (skeleton s0)).
  { rewrite (fr_skeleton _ _ F), list_lookup_fmap, Hs. done. }
  rewrite list_lookup_fmap in Hk. apply fmap_Some in Hk as (s & Hs' & Hk). by exists s.
Qed.

(** ** Settled slots *)

Definition ca_live s : bool := account_live s && account s.

(** A slot that needs no order now: its CA has no account, an allocation failed
    since call [n0], it is in its hold, or since [n0] its certificate was seen not
    to be due. *)
Definition settled (n0 : nat) w (ca i k : nat) : Prop :=
  (exists s, cas w !! ca = Some s /\ ca_live s = false)
  \/ (exists n, (n0 <= n < calls w)%nat /\ ok E n = false)
  \/ held w ca (i * nkt cf + k)
  \/ (exists n name key_type, (n0 <= n < calls w)%nat /\ slot_name cf (ca, i * nkt cf + k)%nat name key_type
        /\ due_at cf E (clock w) name key_type n = false).

Definition visited (c : cursor) (ca i k : nat) : Prop :=
  (ca < sched_ca c)%nat
  \/ ca = sched_ca c /\ ((i < sched_index c)%nat \/ i = sched_index c /\ (k < sched_kt c)%nat).

(** All slots between the cursor [c0] and the present one are settled. *)
Definition swept (n0 : nat) (c0 : cursor) w : Prop :=
  forall ca i k, (ca < length (cas w))%nat -> (i < nlen cf ca)%nat -> (k < nkt cf)%nat ->
    visited (cur w) ca i k -> visited c0 ca i k \/ settled n0 w ca i k.

Lemma settled_later n0 w w' ca i k : later w w' -> settled n0 w ca i k -> settled n0 w' ca i k.
Proof.
  intros [F Hh] Hs. pose proof (fr_calls _ _ F).
  destruct Hs as [(s & Hs & Hl)|[(n & Hn & Ho)|[Hs|(n & name & kt & Hn & Hname & Hd)]]].
  - left. destruct (frame_ca _ _ _ _ F Hs) as (s' & Hs' & Hk). exists s'. split; [done|].
    unfold skeleton, ca_live in *. injection Hk as _ _ -> ->. done.
  - right. left. exists n. split; [lia|done].
  - right. right. left. auto.
  - right. right. right. exists n, name, kt. rewrite (fr_clock _ _ F). split; [lia|done].
Qed.

Lemma swept_refl w n0 : swept n0 (cur w) w.
Proof. intros ca i k _ _ _ Hv. by left. Qed.

(** Moving the cursor on, over slots that are settled. *)
Lemma swept_move n0 c0 w w' :
  swept n0 c0 w -> later w w' ->
  (forall ca i k, (ca < length (cas w'))%nat -> (i < nlen cf ca)%nat -> (k < nkt cf)%nat ->
     visited (cur w') ca i k -> visited (cur w) ca i k \/ settled n0 w' ca i k) ->
  swept n0 c0 w'.
Proof.
  intros Hs Hl Hc ca i k H1 H2 H3 Hv. destruct (Hc ca i k H1 H2 H3 Hv) as [Hv'|]; [|by right].
  rewrite (frame_length _ _ (proj1 Hl)) in H1. destruct (Hs ca i k H1 H2 H3 Hv') as [|Hset]; [by left|].
  right. by eapply settled_later.
Qed.

Lemma swept_same n0 c0 w w' : swept n0 c0 w -> later w w' -> cur w' = cur w -> swept n0 c0 w'.
Proof. intros Hs Hl Hc. eapply swept_move; [exact Hs|exact Hl|]. rewrite Hc. by left. Qed.

(** Past a key type, *)
Lemma swept_kt n0 c0 w w' ca i k :
  swept n0 c0 w -> later w w' -> cur w = Cursor ca i k -> cur w' = Cursor ca i (S k) ->
  settled n0 w' ca i k -> swept n0 c0 w'.
Proof.
  intros Hs Hl E1 E2 Hset. eapply swept_move; [exact Hs|exact Hl|]. rewrite E1, E2. intros ca' i' k' _ _ _ Hv.
  unfold visited in *. cbn [sched_ca sched_index sched_kt] in *. destruct (decide (ca' = ca /\ i' = i /\ k' = k)) as [(-> & -> & ->)|Hne]; [by right|].
  left. lia.
Qed.

(** past a name, *)
Lemma swept_name n0 c0 w w' ca i :
  swept n0 c0 w -> later w w' -> cur w = Cursor ca i (nkt cf) -> cur w' = Cursor ca (S i) 0 -> swept n0 c0 w'.
Proof.
  intros Hs Hl E1 E2. eapply swept_move; [exact Hs|exact Hl|]. rewrite E1, E2. intros ca' i' k' _ _ Hk Hv.
  unfold visited in *. cbn [sched_ca sched_index sched_kt] in *. left. lia.
Qed.

(** and past a CA: at the end of its names, or when all its slots are settled. *)
Lemma swept_ca n0 c0 w w' ca i k :
  swept n0 c0 w -> later w w' -> cur w = Cursor ca i k -> cur w' = Cursor (S ca) 0 0 ->
  (i = nlen cf ca /\ k = 0%nat \/ (forall i k, (i < nlen cf ca)%nat -> (k < nkt cf)%nat -> settled n0 w' ca i k)) ->
  swept n0 c0 w'.
Proof.
  intros Hs Hl E1 E2 Hall. eapply swept_move; [exact Hs|exact Hl|]. rewrite E1, E2. intros ca' i' k' _ Hi Hk Hv.
  unfold visited in *. cbn [sched_ca sched_index sched_kt] in *. destruct (decide (ca' = ca)) as [->|]; [|left; lia].
  destruct Hall as [[-> ->]|Hall]; [left; lia|right; by apply Hall].
Qed.

(** ** The measure *)

Definition slots_from (ca : nat) : nat :=
  (list_sum ((fun names => length (names_of names)) <$> drop ca (ca_list cf)) * nkt cf)%nat.

Definition slots_left (c : cursor) : nat := (slots_from (sched_ca c) - (sched_index c * nkt cf + sched_kt c))%nat.

Lemma slots_from_succ ca : slots_from ca = (nlen cf ca * nkt cf + slots_from (S ca))%nat.
Proof.
  unfold slots_from, nlen. destruct (ca_list cf !! ca) as [o|] eqn:Eo.
  - rewrite (drop_S _ _ _ Eo). apply Nat.mul_add_distr_r.
  - apply lookup_ge_None in Eo. by rewrite !drop_ge by lia.
Qed.

Lemma slots_left_kt ca i k :
  (i < nlen cf ca)%nat -> (k < nkt cf)%nat -> slots_left (Cursor ca i k) = S (slots_left (Cursor ca i (S k))).
Proof.
  intros Hi Hk. unfold slots_left. cbn [sched_ca sched_index sched_kt]. rewrite slots_from_succ.
  assert ((S i) * nkt cf <= nlen cf ca * nkt cf)%nat by (apply Nat.mul_le_mono_r; lia). lia.
Qed.

Lemma slots_left_name ca i : slots_left (Cursor ca (S i) 0) = slots_left (Cursor ca i (nkt cf)).
Proof. unfold slots_left. cbn [sched_ca sched_index sched_kt]. lia. Qed.

Lemma slots_left_ca ca i k : cursor_ok cf (Cursor ca i k) -> (slots_left (Cursor (S ca) 0 0) <= slots_left (Cursor ca i k))%nat.
Proof.
  unfold cursor_ok, slots_left. cbn [sched_ca sched_index sched_kt]. rewrite (slots_from_succ ca). intros [[Hi Hk]|[[-> ->]|[-> ->]]]; [|lia..].
  assert ((S i) * nkt cf <= nlen cf ca * nkt cf)%nat by (apply Nat.mul_le_mono_r; lia). lia.
Qed.

Lemma slots_left_start c : (slots_left c <= slots_from 0)%nat.
Proof.
  unfold slots_left. enough (Hm : forall ca, (slots_from ca <= slots_from 0)%nat) by (specialize (Hm (sched_ca c)); lia).
  intros ca. induction ca as [|ca IH]; [done|]. rewrite (slots_from_succ ca) in IH. lia.
Qed.

Definition claimables (now : Z) m : nat := size (filter (fun '(_, r) => claimable now r = true) m).

Lemma claimables_le now m : (claimables now m <= size m)%nat.
Proof. unfold claimables. apply map_subseteq_size, map_filter_subseteq. Qed.

Lemma claimables_insert now m h r :
  claimable now r = false -> (claimables now (<[h := r]> m) <= claimables now m)%nat.
Proof.
  intros Hr. unfold claimables. rewrite map_filter_insert_False by congruence.
  apply map_subseteq_size. rewrite map_filter_delete. apply delete_subseteq.
Qed.

Lemma claimables_claimed now m h r r' :
  m !! h = Some r -> claimable now r = true -> claimable now r' = false ->
  (claimables now (<[h := r']> m) < claimables now m)%nat.
Proof.
  intros Hm Hr Hr'. unfold claimables. rewrite map_filter_insert_False by congruence.
  rewrite map_filter_delete. apply map_subset_size, delete_subset.   exists r. by apply map_lookup_filter_Some.
Qed.

Definition measure w m : nat := (slots_left (cur w) + claimables (clock w) m)%nat.
End Sweep.
