(* ===== verification/SchedLedger.v ===== *)
(** * The driver: recording the outcome of an order *)

From S2P Require Import Prelude NgxCore Ident Expiry Ratecap Rbtree Shm Alpn Requests RequestsNames RequestsThms Registry Marker Sched SchedInv.

Local Open Scope Z_scope.
Local Open Scope prog_scope.

Section Ledger.
Context {H : Type} {R : Registry H} {X509 EVP_PKEY : Type} (cf : conf) (E : env X509 EVP_PKEY).
Abbreviation W := (world H).
Implicit Types (w : W) (m : gmap bytes req) (s : ca_state).

(** The invariant looks at some fields only. *)
Lemma inv_same w w' m :
  registry w' = registry w -> clock w' = clock w -> cas w' = cas w -> quitting w' = quitting w ->
  trace w' = trace w -> cur w' = cur w -> inv cf E w m -> inv cf E w' m.
Proof.
  intros E1 E2 E3 E4 E5 E6 []. split; rewrite ?E1, ?E2, ?E3, ?E4, ?E5, ?E6; try done.
  unfold tables_ok in *. by rewrite E3, E5.
Qed.

Lemma later_same w w' :
  cas w' = cas w -> clock w' = clock w -> quitting w' = quitting w -> sched_armed (tmr w') = sched_armed (tmr w) ->
  kick_armed (tmr w') = kick_armed (tmr w) -> kick_timer (tmr w') = kick_timer (tmr w) ->
  (calls w <= calls w')%nat -> later w w'.
Proof.
  intros E1 E2 E3 E4 E5 E6 E7. split.
  - split; try done; [by rewrite E1|]. intros ca s0 s. rewrite E1. intros -> [= ->]. done.
  - intros ca slot (b & Hb & Hlt). exists b. unfold slot_at. by rewrite E1, E2.
Qed.

(** ** Slots *)

Lemma slot_bound w ca s l :
  tables_ok cf w -> cas w !! ca = Some s -> ca_backoff s = Some l ->
  length l = (nlen cf ca * nkt cf)%nat /\ backoff_n s = length l /\ backoff_nkt s = nkt cf.
Proof.
  intros Ht Hs Hl. destruct (Ht _ _ Hs) as [Hk _]. unfold table_ok in Hk. rewrite Hl in Hk. lia.
Qed.

Lemma slot_trace w ca slot b :
  tables_ok cf w -> slot_at w ca slot = Some b -> b = slot_of (trace w) (ca, slot).
Proof.
  unfold slot_at. intros Ht Hb. destruct (cas w !! ca) as [s|] eqn:Es; [|done].
  destruct (Ht _ _ Es) as [_ Hs]. destruct (ca_backoff s); [by apply Hs|done].
Qed.

(** The effect of an entry on the slots: its own and no other. *)
Definition effect (ca index : nat) (f : backoff -> backoff) (e : entry) : Prop :=
  forall sl b, slot_step sl b e = if decide (sl = (ca, index)) then f b else b.

Lemma effect_recorded ca index now success : effect ca index (record_slot now success) (Recorded now (ca, index) success).
Proof. intros sl b. simpl. destruct (decide (sl = (ca, index))) as [->|]; case_decide; congruence. Qed.

Lemma effect_held ca index u : effect ca index (hold_slot u) (HeldUntil (ca, index) u).
Proof. intros sl b. simpl. destruct (decide (sl = (ca, index))) as [->|]; case_decide; congruence. Qed.

Lemma wp_change_slot ca index f e w m (Q : unit -> W -> Prop) Er :
  inv cf E w m -> (ca < length (cas w))%nat -> effect ca index f e -> entry_ok cf E (trace w) e ->
  (forall l' tr', let w' := set_trace tr' (set_cas l' w) in
     inv cf E w' m -> frame w w' ->
     (forall ca' k b, slot_at w ca' k = Some b ->
        slot_at w' ca' k = Some (if decide ((ca', k) = (ca, index)) then f b else b)) ->
     (slot_at w ca index = None -> tr' = trace w) ->
     (is_Some (slot_at w ca index) -> tr' = trace w ++ [e]) -> Q tt w') ->
  wp (change_slot ca index f e) w Q Er.
Proof.
  intros Hi Hca Hef Hok HQ. unfold change_slot. apply wp_bind.
  assert (Hs : is_Some (cas w !! ca)) by (by apply lookup_lt_is_Some). destruct Hs as [s Hs].
  eapply wp_get_ca; [exact Hs|].
  assert (Hsame : (slot_at w ca index = None) -> Q tt w).
  { intros Hn. specialize (HQ (cas w) (trace w)). cbv zeta in HQ.
    assert (Ew : set_trace (trace w) (set_cas (cas w) w) = w) by (by destruct w).
    rewrite Ew in HQ. apply HQ; [done|reflexivity| |done|].
    - intros ca' k b Hb. case_decide as Heq; [|done]. injection Heq as -> ->. congruence.
    - rewrite Hn. by intros [? ?]. }
  destruct (ca_backoff s) as [l|] eqn:El.
  2: { apply wp_ret, Hsame. unfold slot_at. by rewrite Hs, El. }
  destruct (slot_bound _ _ _ _ (inv_tables _ _ _ _ Hi) Hs El) as (Hlen & Hn & Hk). rewrite Hn.
  destruct (Nat.leb_spec (length l) index) as [Hge|Hlt].
  { apply wp_ret, Hsame. unfold slot_at. rewrite Hs, El. by apply lookup_ge_None. }
  assert (Hb : is_Some (l !! index)) by (by apply lookup_lt_is_Some). destruct Hb as [b Hb].
  wp_step. eapply wp_get_option; [exact Hb|]. wp_step. apply wp_update_world. apply wp_update_world. cbn [trace set_cas cas].
  set (s' := set_ca_backoff (Some (alter f index l)) (length l) (backoff_nkt s)).
  assert (Hslot : forall ca' k b', slot_at w ca' k = Some b' ->
    slot_at (set_trace (trace w ++ [e]) (set_cas (alter s' ca (cas w)) w)) ca' k
    = Some (if decide ((ca', k) = (ca, index)) then f b' else b')).
  { intros ca' k b' Hb'. unfold slot_at in *. cbn [cas set_cas set_trace]. destruct (decide (ca' = ca)) as [->|Hne].
    - rewrite list_lookup_alter_eq, Hs in *. cbn. rewrite El in Hb'. destruct (decide (k = index)) as [->|Hk'].
      + rewrite list_lookup_alter_eq, Hb'. by rewrite decide_True by done.
      + rewrite list_lookup_alter_ne by congruence. rewrite decide_False by congruence. done.
    - rewrite list_lookup_alter_ne by congruence. rewrite decide_False by congruence. done. }
  apply (HQ _ (trace w ++ [e])); cbv zeta.
  - destruct Hi. split; try done; cbn [cas set_cas set_trace trace].
    + destruct inv_built as [E0|E0]; [rewrite E0 in Hs; done|right]. rewrite <- E0. apply list_eq. intros j.
      rewrite !list_lookup_fmap. destruct (decide (j = ca)) as [->|]; [by rewrite list_lookup_alter_eq, Hs|by rewrite list_lookup_alter_ne].
    + intros E0. assert (Hl0 : length (alter s' ca (cas w)) = 0%nat) by (by rewrite E0). rewrite length_alter in Hl0. lia.
    + intros ca' s1 Hs1. cbn [cas set_cas set_trace trace] in *. destruct (decide (ca' = ca)) as [->|Hne].
      * rewrite list_lookup_alter_eq, Hs in Hs1. injection Hs1 as <-. split.
        -- destruct (inv_tables _ _ Hs) as [Hto _]. unfold table_ok in *. rewrite El in Hto. cbn.
           rewrite length_alter. destruct Hto as (_ & Hto & ?). split; [done|]. split; [lia|done].
        -- cbn. intros k b' Hb'. rewrite slot_of_snoc, Hef. destruct (inv_tables _ _ Hs) as [_ Htr]. rewrite El in Htr.
           destruct (decide (k = index)) as [->|Hk'].
           ++ rewrite list_lookup_alter_eq, Hb in Hb'. injection Hb' as <-. rewrite decide_True by done. f_equal. by apply Htr.
           ++ rewrite list_lookup_alter_ne in Hb' by congruence. rewrite decide_False by congruence. by apply Htr.
      * rewrite list_lookup_alter_ne in Hs1 by congruence. destruct (inv_tables _ _ Hs1) as [Hto Htr]. split; [done|].
        destruct (ca_backoff s1); intros; rewrite slot_of_snoc, Hef, decide_False by congruence; by apply Htr.
    + by apply lawful_snoc.
  - split; try done; cbn [cas set_cas set_trace].
    + apply list_eq. intros j. rewrite !list_lookup_fmap.
      destruct (decide (j = ca)) as [->|]; [by rewrite list_lookup_alter_eq, Hs|by rewrite list_lookup_alter_ne].
    + intros ca' s0 s1 H0 H1 Hb0. destruct (decide (ca' = ca)) as [->|Hne].
      * rewrite list_lookup_alter_eq, Hs in H1. injection H1 as <-. by eexists.
      * rewrite list_lookup_alter_ne in H1 by congruence. congruence.
  - exact Hslot.
  - intros Hn0. unfold slot_at in Hn0. rewrite Hs, El, Hb in Hn0. done.
  - done.
Qed.
(** ** The delay *)

Lemma backoff_delay_closed (fails : Z) :
  1 <= fails < 2 ^ 64 -> backoff_delay fails = Z.min 3600 (60 * 2 ^ (fails - 1)).
Proof.
  intros Hf. unfold backoff_delay, NGX_AUTOCERT_BACKOFF_MAXSHIFT, NGX_AUTOCERT_BACKOFF_BASE, NGX_AUTOCERT_BACKOFF_CAP. cbv zeta.
  unfold u64. rewrite Z.mod_small by lia. destruct (Z.ltb_spec 6 (fails - 1)) as [Hl|Hl].
  - change (60 * 60 <? Z.shiftl 60 6) with true. cbv iota.
    assert (2 ^ 6 <= 2 ^ (fails - 1)) by (apply Z.pow_le_mono_r; lia). lia.
  - rewrite Z.shiftl_mul_pow2 by lia. destruct (Z.ltb_spec (60 * 60) (60 * 2 ^ (fails - 1))); lia.
Qed.

Lemma backoff_delay_range fails : 60 <= backoff_delay fails <= 3600.
Proof.
  unfold backoff_delay, NGX_AUTOCERT_BACKOFF_MAXSHIFT, NGX_AUTOCERT_BACKOFF_BASE, NGX_AUTOCERT_BACKOFF_CAP. cbv zeta.
  pose proof (Z.mod_pos_bound (fails - 1) (2 ^ 64) ltac:(lia)) as Hr. fold (u64 (fails - 1)) in Hr.
  set (x := if 6 <? u64 (fails - 1) then 6 else u64 (fails - 1)).
  assert (Hx : 0 <= x) by (unfold x; case_match; lia). rewrite Z.shiftl_mul_pow2 by done.
  assert (1 <= 2 ^ x) by (apply (Z.pow_le_mono_r 2 0); lia). case_match; reflect_bools; lia.
Qed.

Lemma record_holds now b : now < b_next_eligible (record_slot now false b).
Proof. cbn. pose proof (backoff_delay_range (u64 (b_fails b + 1))). lia. Qed.

Lemma hold_holds u now b : now < b_next_eligible b -> now < b_next_eligible (hold_slot u b).
Proof. unfold hold_slot. destruct (Z.ltb_spec (b_next_eligible b) u); cbn; lia. Qed.

(** ** A configured name's ledger *)

Lemma wp_backoff_record ca index success w m (Q : unit -> W -> Prop) Er :
  inv cf E w m -> (ca < length (cas w))%nat -> b_next_eligible (slot_of (trace w) (ca, index)) <= clock w ->
  (forall l' tr', let w' := set_trace tr' (set_cas l' w) in
     inv cf E w' m -> frame w w' ->
     (success = false -> later w w' /\ (is_Some (slot_at w ca index) -> held w' ca index)) -> Q tt w') ->
  wp (ngx_autocert_backoff_record ca index success) w Q Er.
Proof.
  intros Hi Hca He HQ. apply wp_bind, wp_read_world. eapply wp_change_slot; [exact Hi|exact Hca|apply effect_recorded|exact He|].
  intros l' tr' w' Hi' Hf Hs _ _. apply HQ; [done|done|]. intros ->. split.
  - split; [done|]. intros ca' k (b & Hb & Hlt). apply Hs in Hb. eexists. split; [exact Hb|]. cbn [clock set_trace set_cas].
    case_decide; [apply record_holds|done].
  - intros [b Hb]. apply Hs in Hb. eexists. split; [exact Hb|]. rewrite decide_True by done. apply record_holds.
Qed.

Lemma wp_backoff_hold ca index u w m (Q : unit -> W -> Prop) Er :
  inv cf E w m -> (ca < length (cas w))%nat ->
  (forall l' tr', let w' := set_trace tr' (set_cas l' w) in
     inv cf E w' m -> later w w' -> Q tt w') ->
  wp (ngx_autocert_backoff_hold ca index u) w Q Er.
Proof.
  intros Hi Hca HQ. eapply wp_change_slot; [exact Hi|exact Hca|apply effect_held|done|].
  intros l' tr' w' Hi' Hf Hs _ _. apply HQ; [done|]. split; [done|].
  intros ca' k (b & Hb & Hlt). apply Hs in Hb. eexists. split; [exact Hb|]. cbn [clock set_trace set_cas].
  case_decide; [by apply hold_holds|done].
Qed.

(** What recording an outcome leaves: the ledgers say it, and nothing else
    changed.  A failure lifts no hold, and holds the slot of the order. *)
Definition recorded (rc retry_after : Z) w m w' m' : Prop :=
  inv cf E w' m' /\ pending_only None m' /\ frame w w' /\ cur w' = cur w /\ fl w' = fl w /\ tmr w' = tmr w
  /\ (rc <> NGX_OK -> later w w'
        /\ (sched_runtime (fl w) = false -> is_Some (slot_at w (sched_cur_ca (fl w)) (sched_cur (fl w))) ->
            held w' (sched_cur_ca (fl w)) (sched_cur (fl w))))
  /\ (rc = NGX_ERROR -> retry_after = 0 -> (claimables (clock w) m' <= claimables (clock w) m)%nat).

Lemma wp_record_config o rc retry_after w m (Q : unit -> W -> Prop) Er :
  inv cf E w m -> flight_ok cf w m -> cur_order (fl w) = Some o -> sched_runtime (fl w) = false ->
  (forall w' m', recorded rc retry_after w m w' m' -> Q tt w') ->
  wp (record_config rc retry_after) w Q Er.
Proof.
  intros Hi Hf Ho Hr HQ. unfold flight_ok in Hf. rewrite Ho, Hr in Hf. destruct Hf as (Hp & Hca & He).
  unfold record_config. wp_step. apply wp_read_world. wp_step. eapply wp_backoff_record; [exact Hi|exact Hca|exact He|].
  intros l' tr' w1 Hi1 Hf1 Hl1. set (ca := sched_cur_ca (fl w)) in *. set (ix := sched_cur (fl w)) in *.
  assert (Hrec : forall w', inv cf E w' m -> frame w w' -> cur w' = cur w -> fl w' = fl w -> tmr w' = tmr w ->
    (rc <> NGX_OK -> later w1 w') -> Q tt w').
  { intros w' Hi' Hfr Hc Hfl Ht Hla. apply (HQ w' m). split; [done|]. split; [done|]. split; [done|]. split; [done|].
    split; [done|]. split; [done|]. split; [|done].
    intros Hrc. assert (Hs : (rc =? NGX_OK) = false) by lia. destruct (Hl1 Hs) as [Hw1 Hh]. specialize (Hla Hrc).
    split; [by transitivity w1|]. intros _ Hslot. by apply (proj2 Hla), Hh. }
  destruct (negb (rc =? NGX_OK) && (0 <? retry_after)).
  - eapply wp_backoff_hold; [exact Hi1| |].
    + rewrite (frame_length _ _ Hf1). exact Hca.
    + intros l2 tr2 w2 Hi2 Hl2. apply Hrec; try done. transitivity w1; [done|apply Hl2].
  - apply wp_ret. apply Hrec; try done.
Qed.

(** ** A runtime host's ledger *)

Lemma failed_not_claimable now r r' :
  0 < now -> set_state_fields NGX_AUTOCERT_REQ_FAILED 0 now r = Some r' -> claimable now r' = false.
Proof.
  intros Hn. unfold set_state_fields. cbn [Z.eqb]. change (NGX_AUTOCERT_REQ_FAILED =? NGX_AUTOCERT_REQ_FAILED) with true.
  cbv zeta iota. destruct (request_backoff _) as [b|] eqn:Eb; [|done]. intros [= <-].
  assert (Hb : 0 < b).
  { pose proof (Z.mod_pos_bound (Requests.fail_count r + 1) (2 ^ 64) ltac:(lia)) as Hr. fold (u64 (Requests.fail_count r + 1)) in Hr.
    destruct (decide (u64 (Requests.fail_count r + 1) = 0)) as [E0|E0].
    - rewrite E0 in Eb. vm_compute in Eb. injection Eb as <-. done.
    - rewrite request_backoff_closed in Eb by lia. injection Eb as <-.
      assert (1 <= 2 ^ (u64 (Requests.fail_count r + 1) - 1)) by (apply (Z.pow_le_mono_r 2 0); lia). lia. }
  unfold claimable. cbn. destruct (Z.eqb_spec (now + b) 0); [lia|]. destruct (Z.ltb_spec now (now + b)); [done|lia].
Qed.

(** Recording a state that is not claimable adds no claimable entry. *)
Lemma claimables_state h state eligible now m rc m' :
  filed h -> NGX_AUTOCERT_REQ_UNKNOWN < state <= NGX_AUTOCERT_REQ_DENIED ->
  (forall r r', set_state_fields state eligible now r = Some r' -> claimable now r' = false) ->
  transitioned now h state eligible m rc m' -> (claimables now m' <= claimables now m)%nat.
Proof.
  intros Hf Hs Hn Ht. destruct (transitioned_filed _ _ _ _ _ _ _ Hf Hs Ht) as [_ Hm].
  destruct (m !! h) as [r|]; [|by subst]. destruct Hm as (r' & Hr & ->). apply claimables_insert. by eapply Hn.
Qed.

Lemma wp_set_entry h state eligible w m (Q : Z -> W -> Prop) :
  inv cf E w m ->
  (forall rc z' m', let w' := set_registry z' w in
     inv cf E w' m' -> later w w' -> transitioned (clock w) h state eligible m rc m' -> Q rc w') ->
  wp (set_state h state eligible) w Q (fun _ => False).
Proof.
  intros Hi HQ. apply wp_bind, wp_read_world, wp_on_registry. eapply wp_weaken; [apply reg_set_state_spec, Hi|].
  intros rc z' (m' & Hr & Ht). apply (HQ rc z' m'); [|by apply later_same|exact Ht].
  destruct Hi. by split.
Qed.

(** The state written for a host that is not claimed again at once. *)
Definition closing (now state eligible : Z) : Prop :=
  (NGX_AUTOCERT_REQ_UNKNOWN < state <= NGX_AUTOCERT_REQ_DENIED /\ state <> NGX_AUTOCERT_REQ_PENDING)
  /\ (state = NGX_AUTOCERT_REQ_ISSUED \/ now < eligible \/ state = NGX_AUTOCERT_REQ_FAILED /\ eligible = 0).

Lemma closing_claimables now state eligible h m rc m' :
  0 < now -> filed h -> closing now state eligible -> transitioned now h state eligible m rc m' ->
  (claimables now m' <= claimables now m)%nat.
Proof.
  intros Hnow Hf [[Hs Hn] Hc]. eapply claimables_state; [done|done|]. intros r r' Hr.
  destruct Hc as [->|[Hlt|[-> ->]]].
  - injection Hr as <-. done.
  - unfold set_state_fields in Hr. unfold claimable.
    assert (Hne : next_eligible r' = eligible).
    { destruct (Z.eqb_spec eligible 0); [lia|]. repeat case_match; simplify_eq; done. }
    rewrite Hne. destruct (Z.eqb_spec eligible 0); [lia|]. destruct (Z.ltb_spec now eligible); [|lia].
    cbn. by rewrite orb_true_r.
  - by eapply failed_not_claimable.
Qed.

Lemma wp_record_runtime o rc retry_after w m (Q : unit -> W -> Prop) :
  inv cf E w m -> flight_ok cf w m -> cur_order (fl w) = Some o -> sched_runtime (fl w) = true ->
  (forall w' m', recorded rc retry_after w m w' m' -> Q tt w') ->
  wp (record_runtime cf E o rc retry_after) w Q (fun _ => False).
Proof.
  intros Hi Hf Ho Hr HQ. unfold flight_ok in Hf. rewrite Ho, Hr in Hf. destruct Hf as (Hz & Hfi & Hp).
  unfold record_runtime. rewrite Hz. cbv zeta. wp_step. apply wp_read_world.
  (* the steps that touch neither the registry nor the slots *)
  assert (Hwrite : forall w1, registry w1 = registry w -> cas w1 = cas w -> clock w1 = clock w -> quitting w1 = quitting w ->
    trace w1 = trace w -> cur w1 = cur w -> fl w1 = fl w -> tmr w1 = tmr w -> (calls w <= calls w1)%nat ->
    wp (let! rc' := set_state (o_domain o)
            (if rc =? NGX_OK then NGX_AUTOCERT_REQ_ISSUED else NGX_AUTOCERT_REQ_FAILED)
            (if negb (rc =? NGX_OK) && (0 <? retry_after) then retry_after else 0) in
        if negb (rc' =? NGX_OK) then
          let! _ := set_state (o_domain o) NGX_AUTOCERT_REQ_REQUESTED
            (if negb (rc =? NGX_OK) && (0 <? retry_after) then retry_after else 0) in ret tt
        else ret tt) w1 Q (fun _ => False)).
  { intros w1 E1 E2 E3 E4 E5 E6 E7 E8 E9.
    assert (Hi1 : inv cf E w1 m) by (by eapply inv_same).
    assert (Hl1 : later w w1) by (apply later_same; try done; by rewrite E8).
    wp_step. eapply wp_set_entry; [exact Hi1|]. intros rc' z' m' w2 Hi2 Hl2 Ht.
    set (st := if rc =? NGX_OK then _ else _) in *. set (hold := if _ && _ then retry_after else 0) in *.
    assert (Hst : NGX_AUTOCERT_REQ_UNKNOWN < st <= NGX_AUTOCERT_REQ_DENIED /\ st <> NGX_AUTOCERT_REQ_PENDING)
      by (unfold st; destruct (rc =? NGX_OK); done).
    destruct (transitioned_filed _ _ _ _ _ _ _ Hfi (proj1 Hst) Ht) as [-> _]. cbn [negb Z.eqb]. rewrite Z.eqb_refl. cbn [negb].
    apply wp_ret, (HQ w2 m'). split; [done|]. split; [by eapply settle_pending; [exact Hfi|apply Hst|apply Hst|exact Ht|]|].
    assert (Hlw : later w w2) by (by transitivity w1).
    split; [apply Hlw|]. split; [done|]. split; [done|]. split; [done|]. split.
    - intros _. split; [done|]. intros Hr0. congruence.
    - intros -> ->. rewrite <- E3. eapply closing_claimables; [rewrite E3; apply Hi|exact Hfi| |exact Ht].
      split; [exact Hst|]. right. right. done. }
  destruct (rc =? NGX_OK) eqn:Erc; cbn [negb].
  - wp_step. apply wp_ret. wp_step. unfold marker_write. wp_step. apply wp_next_call. apply wp_update_world. apply Hwrite; try done.
    cbn. lia.
  - wp_step. apply wp_update_world. wp_step. apply wp_ret. by apply Hwrite.
Qed.

Lemma wp_record o rc retry_after w m (Q : unit -> W -> Prop) :
  inv cf E w m -> flight_ok cf w m -> cur_order (fl w) = Some o ->
  (forall w' m', recorded rc retry_after w m w' m' -> Q tt w') ->
  wp (if sched_runtime (fl w) then record_runtime cf E o rc retry_after else record_config rc retry_after) w Q (fun _ => False).
Proof.
  intros Hi Hf Ho HQ. destruct (sched_runtime (fl w)) eqn:Er; [by eapply wp_record_runtime|by eapply wp_record_config].
Qed.
End Ledger.
