(* ===== verification/SchedLoops.v ===== *)
(** * The driver: the sweep over the configured names *)

From S2P Require Import Prelude NgxCore Ratecap Ident Expiry Rbtree Shm Alpn Requests RequestsNames RequestsThms Registry Marker Sched SchedInv SchedLedger.

Local Open Scope Z_scope.
Local Open Scope prog_scope.

(** ** The driver: a pump ends, with an order in flight or the timer set *)

(** The delay to the next sweep is within its bounds. *)
Definition timer_in_range (t : Z) : Prop := NGX_AUTOCERT_SCHED_FLOOR <= t <= NGX_AUTOCERT_SCHED_INTERVAL.

Lemma rearm_in_range cf now soonest : timer_in_range (rearm_interval cf now soonest).
Proof.
  unfold timer_in_range, rearm_interval, sweep_interval, NGX_AUTOCERT_SCHED_FLOOR, NGX_AUTOCERT_SCHED_INTERVAL. cbv zeta.
  repeat case_match; reflect_bools; lia.
Qed.

Section Pump.
Context {H : Type} {R : Registry H} {X509 EVP_PKEY : Type} (cf : conf) (E : env X509 EVP_PKEY).
Abbreviation W := (world H).
Implicit Types (w : W) (m : gmap bytes req) (s : ca_state).

Definition timer_ok w : Prop := exists t, sched_timer (tmr w) = Some t /\ timer_in_range t.

(** Where a pump stops: with an order in flight, or with the timer set after it
    has swept all there is. *)
Definition stopped n0 c0 w : Prop :=
  match cur_order (fl w) with
  | Some _ => True
  | None =>
      timer_ok w
      /\ (configured cf = true -> challenge_zone cf = true -> swept cf E n0 c0 w /\ (length (cas w) <= sched_ca (cur w))%nat)
  end.

Definition pumped n0 c0 w0 w : Prop :=
  exists m, inv cf E w m /\ flight_ok cf w m /\ later w0 w /\ stopped n0 c0 w.

(** In the middle of a sweep that has launched nothing. *)
Record sweeping n0 c0 w m : Prop := {
  sw_inv : inv cf E w m;
  sw_order : cur_order (fl w) = None;
  sw_pending : pending_only None m;
  sw_quitting : quitting w = false;
  sw_swept : swept cf E n0 c0 w;
  sw_calls : (n0 <= calls w)%nat }.

Lemma pumped_later n0 c0 w0 w1 w : later w0 w1 -> pumped n0 c0 w1 w -> pumped n0 c0 w0 w.
Proof. intros Hl (m & Hi & Hf & Hl' & Hs). exists m. split; [done|]. split; [done|]. split; [by transitivity w1|done]. Qed.

(** A change of the fields a sweep does not look at. *)
Lemma sweeping_same n0 c0 w w' m :
  registry w' = registry w -> clock w' = clock w -> cas w' = cas w -> quitting w' = quitting w ->
  trace w' = trace w -> cur w' = cur w -> cur_order (fl w') = cur_order (fl w) -> tmr w' = tmr w ->
  (calls w <= calls w')%nat -> sweeping n0 c0 w m -> sweeping n0 c0 w' m.
Proof.
  intros E1 E2 E3 E4 E5 E6 E7 E8 E9 [].
  assert (Hl : later w w') by (apply later_same; try done; by rewrite E8).
  split; [by eapply inv_same|congruence|done|congruence|by eapply swept_same|lia].
Qed.

Lemma sweeping_next n0 c0 w m : sweeping n0 c0 w m -> sweeping n0 c0 (set_calls (S (calls w)) w) m.
Proof. intros Hs. eapply sweeping_same; [..|exact Hs]; try done. cbn. lia. Qed.

Lemma later_next w : later w (set_calls (S (calls w)) w).
Proof. apply later_same; try done. cbn. lia. Qed.

(** ** Setting the timer *)

Lemma soonest_of_total w now soonest : tables_ok cf w -> exists t, soonest_of (cas w) now soonest = Some t.
Proof.
  intros Ht.
  assert (Hall : Forall (fun s => backoff_n s <> 0%nat -> exists l, ca_backoff s = Some l /\ (backoff_n s <= length l)%nat) (cas w)).
  { apply Forall_lookup. intros ca s Hs Hn. destruct (Ht _ _ Hs) as [Hto _]. unfold table_ok in Hto.
    destruct (ca_backoff s) as [l|]; [exists l; split; [done|lia]|done]. }
  clear Ht. revert soonest. induction Hall as [|s l Hs Hall IH]; intros soonest; cbn [soonest_of]; [by eexists|].
  destruct (Nat.eqb_spec (backoff_n s) 0) as [_|Hn]; [apply IH|]. destruct (Hs Hn) as (t & -> & Hl).
  destruct (Nat.ltb_spec (length t) (backoff_n s)); [lia|apply IH].
Qed.

Lemma wp_rearm n0 c0 w m :
  sweeping n0 c0 w m ->
  (configured cf = true -> challenge_zone cf = true -> (length (cas w) <= sched_ca (cur w))%nat) ->
  wp (rearm cf) w (fun _ w' => pumped n0 c0 w w') (fun _ => False).
Proof.
  intros Hs Hend. unfold rearm. wp_step. apply wp_read_world. wp_step. apply wp_read_world. wp_step.
  destruct (soonest_of_total w (clock w) 0 (inv_tables _ _ _ _ (sw_inv _ _ _ _ Hs))) as [t Et].
  eapply wp_get_option; [exact Et|]. apply wp_update_world. exists m. destruct Hs.
  assert (Hl : later w (set_tmr (Timers (sched_armed (tmr w)) (Some (rearm_interval cf (clock w) t)) (kick_armed (tmr w)) (kick_timer (tmr w))) w))
    by (apply later_same; done).
  split; [by apply (inv_same cf E w)|]. split; [unfold flight_ok; cbn; by rewrite sw_order0|]. split; [exact Hl|].
  unfold stopped. cbn [fl set_tmr]. rewrite sw_order0. split.
  - eexists. split; [done|apply rearm_in_range].
  - intros Hc Hz. split; [by apply (swept_same cf E n0 c0 w)|]. by apply Hend.
Qed.

(** ** An order *)

Section Nested.
(** The pump an order's end calls, for all states of a smaller measure. *)
Context (pump : prog W unit) (f : nat).
Context (IH : forall n0 c0 w m, sweeping n0 c0 w m -> (measure cf w m < f)%nat ->
  wp pump w (fun _ w' => pumped n0 c0 w w') (fun _ => False)).

(** An order that has ended: its outcome is recorded and the sweep goes on. *)
Lemma wp_order_complete o rc retry_after n0 c0 w0 w m :
  inv cf E w m -> flight_ok cf w m -> cur_order (fl w) = Some o -> frame w0 w -> (rc <> NGX_OK -> later w0 w) ->
  quitting w = false ->
  (forall w' m', recorded cf E rc retry_after w m w' m' ->
     swept cf E n0 c0 w' /\ (n0 <= calls w')%nat /\ (measure cf w' m' < f)%nat) ->
  wp (ngx_autocert_order_complete cf E pump rc retry_after) w
    (fun _ w' => exists m, inv cf E w' m /\ flight_ok cf w' m /\ frame w0 w' /\ (rc <> NGX_OK -> later w0 w') /\ stopped n0 c0 w')
    (fun _ => False).
Proof.
  intros Hi Hf Ho Hfr Hla Hq Hrec. unfold ngx_autocert_order_complete. wp_step. apply wp_read_world. wp_step.
  eapply wp_get_option; [exact Ho|]. wp_step. eapply wp_record; [exact Hi|exact Hf|exact Ho|].
  intros w1 m1 Hr. destruct (Hrec _ _ Hr) as (Hsw & Hn & Hm).
  destruct Hr as (Hi1 & Hp1 & Hf1 & Hc1 & Hfl1 & Ht1 & Hl1 & _). wp_step. apply wp_update_world.
  set (w2 := set_fl _ w1). assert (Hl2 : later w1 w2) by (apply later_same; done).
  eapply wp_mono; [apply (IH n0 c0 w2 m1)| |done].
  - split; [by apply (inv_same cf E w1)|done|done| |by apply (swept_same cf E n0 c0 w1)|done].
    cbn. rewrite (fr_quitting _ _ Hf1). exact Hq.
  - exact Hm.
  - intros [] w3 (m3 & Hi3 & Hf3 & Hl3 & Hs3). exists m3. split; [done|]. split; [done|].
    assert (Hw1 : frame w w3) by (transitivity w1; [done|]; transitivity w2; [apply Hl2|apply Hl3]).
    split; [by transitivity w|]. split; [|done]. intros Hrc.
    transitivity w; [by apply Hla|]. transitivity w1; [by apply Hl1|]. by transitivity w2.
Qed.

(** The order a start is about to put in flight. *)
Definition new_order (ca : nat) (name : bytes) (key_type : Z) (slot : option (nat * nat)) : order :=
  let runtime := match slot with None => true | Some _ => false end in
  Order ca name key_type
    (if runtime && (challenge cf =? NGX_AUTOCERT_CHALLENGE_DNS_01) then NGX_AUTOCERT_CHALLENGE_HTTP_01 else challenge cf) runtime.

(** What a start needs of the state: that the order's ledger is its slot, or its
    entry in the registry. *)
Definition startable (name : bytes) (slot : option (nat * nat)) w m : Prop :=
  match slot with
  | Some sl =>
      pending_only None m /\ (sl.1 < length (cas w))%nat /\ is_Some (slot_at w sl.1 sl.2)
      /\ sched_cur_ca (fl w) = sl.1 /\ sched_cur (fl w) = sl.2 /\ b_next_eligible (slot_of (trace w) sl) <= clock w
  | None => cas w <> [] /\ requests_zone cf = true /\ filed name /\ pending_only (Some name) m
  end.

Lemma startable_built name slot w m : startable name slot w m -> cas w <> [].
Proof. destruct slot as [sl|]; cbn; [|by intros [? _]]. intros (_ & Hl & _) E0. rewrite E0 in Hl. cbn in Hl. lia. Qed.

(** Logging a launch changes no slot. *)
Lemma inv_launch w w1 m slot o c :
  inv cf E w1 m -> trace w1 = trace w -> cas w1 <> [] -> entry_ok cf E (trace w) (Launched (clock w) slot o c) ->
  inv cf E (set_trace (trace w1 ++ [Launched (clock w) slot o c]) w1) m.
Proof.
  intros Hi Et Hb Hok. destruct Hi. split; try done.
  - intros ca s Hs. destruct (inv_tables _ _ Hs) as [Hto Htr]. split; [done|]. cbn [trace set_trace].
    destruct (ca_backoff s); intros; rewrite slot_of_snoc; by apply Htr.
  - cbn [trace set_trace]. apply lawful_snoc; [done|]. by rewrite Et.
Qed.

Lemma flight_launch name slot w w1 m ca key_type :
  startable name slot w m -> cas w1 = cas w -> clock w1 = clock w ->
  (forall sl, slot_of (trace w1) sl = slot_of (trace w) sl) ->
  fl w1 = Flight (Some (new_order ca name key_type slot)) (sched_cur_ca (fl w)) (sched_cur (fl w))
            (match slot with Some _ => false | None => true end) ->
  flight_ok cf w1 m.
Proof.
  intros Hst E1 E2 E3 E4. unfold flight_ok. rewrite E4. cbn [cur_order sched_runtime sched_cur_ca sched_cur].
  destruct slot as [[ca' ix]|]; cbn in *; [|tauto]. destruct Hst as (? & ? & _ & -> & -> & ?).
  split; [done|]. rewrite E1, E2, E3. done.
Qed.

Lemma wp_start_order_for ca name key_type slot n0 c0 w m (Q : Z -> W -> Prop) :
  inv cf E w m -> cur_order (fl w) = None -> quitting w = false -> (n0 <= calls w)%nat -> (measure cf w m < f)%nat ->
  startable name slot w m ->
  launch_ok cf E (trace w) (clock w) slot (new_order ca name key_type slot) (caps w) ->
  (forall w', later w w' -> cur w' = cur w -> (forall sl, slot = Some sl -> held w' sl.1 sl.2) -> swept cf E n0 c0 w') ->
  (forall w', pumped n0 c0 w w' -> Q NGX_OK w') ->
  (forall w', inv cf E w' m -> cur_order (fl w') = None -> later w w' -> cur w' = cur w -> cas w' = cas w ->
     trace w' = trace w -> Q NGX_ERROR w') ->
  wp (ngx_autocert_start_order_for cf E pump ca name key_type slot) w Q (fun _ => False).
Proof.
  intros Hi Ho Hq Hn Hm Hst Hlaunch Hsw HOk HErr. unfold ngx_autocert_start_order_for. cbv zeta. wp_step. apply wp_read_world. rewrite Ho.
  assert (Hfail : forall w', registry w' = registry w -> clock w' = clock w -> cas w' = cas w -> quitting w' = quitting w ->
    trace w' = trace w -> cur w' = cur w -> tmr w' = tmr w -> (calls w <= calls w')%nat -> cur_order (fl w') = None ->
    Q NGX_ERROR w').
  { intros w' E1 E2 E3 E4 E5 E6 E7 E8 E9. apply HErr; try done; [by eapply inv_same|].
    apply later_same; try done; by rewrite E7. }
  wp_step. apply wp_attempt_call. destruct (ok E (calls w)); cbn [negb]; [|apply wp_ret, Hfail; try done; cbn; lia].
  wp_step. apply wp_attempt_call. destruct (ok E _); cbn [negb]; [|apply wp_ret, Hfail; try done; cbn; lia].
  wp_step. apply wp_attempt_call. destruct (ok E _); cbn [negb]; [|apply wp_ret, Hfail; try done; cbn; lia].
  fold (new_order ca name key_type slot). set (o := new_order ca name key_type slot) in *.
  wp_step. apply wp_update_world. wp_step. apply wp_next_call. wp_step. apply wp_read_world. wp_step. apply wp_read_world.
  set (rt := match slot with Some _ => false | None => true end).
  lazymatch goal with |- wp _ ?x _ _ => set (w1 := x) end.
  assert (Hl1 : later w w1) by (apply later_same; try done; cbn; lia).
  pose proof (startable_built _ _ _ _ Hst) as Hb. assert (Hi1 : inv cf E w1 m) by (by apply (inv_same cf E w)).
  destruct (starts E _).
  - wp_step. apply wp_update_world. apply wp_ret, Hfail; try done. cbn. lia.
  - (* in flight *)
    wp_step. apply wp_update_world. apply wp_ret, HOk. exists m.
    set (w2 := set_trace _ w1). assert (Hl2 : later w1 w2) by (apply later_same; done).
    split; [by apply inv_launch|]. split; [|split; [by transitivity w1|done]].
    eapply flight_launch; [exact Hst|done|done| |done]. intros sl. unfold w2. cbn [trace set_trace]. by rewrite slot_of_snoc.
  - (* failed at once *)
    wp_step. apply wp_update_world. set (w2 := set_trace _ w1). assert (Hl2 : later w w2) by (transitivity w1; [done|]; apply later_same; done).
    wp_step. assert (Hi2 : inv cf E w2 m) by (by apply inv_launch).
    assert (Hf2 : flight_ok cf w2 m).
    { eapply flight_launch; [exact Hst|done|done| |done]. intros sl. unfold w2. cbn [trace set_trace]. by rewrite slot_of_snoc. }
    eapply wp_mono; [apply (wp_order_complete o NGX_ERROR 0 n0 c0 w w2 m); try done| |done].
    + apply Hl2.
    + intros w3 m3 (Hi3 & Hp3 & Hfr3 & Hc3 & Hfl3 & Ht3 & Hl3 & Hcl3).
      destruct (Hl3 ltac:(done)) as [Hla3 Hh3]. split; [|split].
      * apply Hsw; [by transitivity w2|by rewrite Hc3|]. intros [ca' ix] ->. destruct Hst as (_ & _ & Hat & E1 & E2 & _).
        cbn [fst snd] in *. rewrite <- E1, <- E2. apply Hh3; [done|]. cbn. rewrite E1, E2. exact Hat.
      * pose proof (fr_calls _ _ (proj1 Hl2)). pose proof (fr_calls _ _ Hfr3). lia.
      * unfold measure in *. rewrite Hc3, (fr_clock _ _ Hfr3). specialize (Hcl3 ltac:(done) ltac:(done)). cbn in *. lia.
    + intros [] w3 (m3 & Hi3 & Hf3 & _ & Hl3 & Hs3). apply wp_ret, HOk. exists m3. split; [done|]. split; [done|].
      split; [by apply Hl3|done].
Qed.
End Nested.
End Pump.

Section Loops.
Context {H : Type} {R : Registry H} {X509 EVP_PKEY : Type} (cf : conf) (E : env X509 EVP_PKEY).
Abbreviation W := (world H).
Implicit Types (w : W) (m : gmap bytes req) (s : ca_state).
Context (Hkts : cert_key_types cf = Some (kts_of cf)).
Context (Hsize : Z.of_nat (slots_from cf 0) * sizeof_backoff <= NGX_MAX_SIZE_T_VALUE).

(** ** The table of a CA *)

Lemma table_fits ca : Z.of_nat (nlen cf ca * nkt cf) * sizeof_backoff <= NGX_MAX_SIZE_T_VALUE.
Proof.
  enough (Hm : (nlen cf ca * nkt cf <= slots_from cf 0)%nat) by (unfold sizeof_backoff in *; lia).
  pose proof (slots_from_succ cf ca). enough ((slots_from cf ca <= slots_from cf 0)%nat) by lia.
  clear. induction ca as [|ca IH]; [done|]. rewrite (slots_from_succ cf ca) in IH. lia.
Qed.

(** Giving CA [ca] a fresh table, or none. *)
Lemma inv_table w m ca s b :
  inv cf E w m -> cas w !! ca = Some s -> ca_backoff s = None ->
  b = Some (replicate (nlen cf ca * nkt cf) (Backoff 0 0)) \/ b = None ->
  let n := match b with Some l => length l | None => 0%nat end in
  let k := match b with Some _ => nkt cf | None => backoff_nkt s end in
  let w' := set_cas (alter (set_ca_backoff b n k) ca (cas w)) w in
  inv cf E w' m /\ later w w'.
Proof.
  intros Hi Hs Hn Hb n k w'.
  assert (Hca : forall ca' s', cas w' !! ca' = Some s' ->
    ca' = ca /\ s' = set_ca_backoff b n k s \/ ca' <> ca /\ cas w !! ca' = Some s').
  { intros ca' s' Hs'. unfold w' in Hs'. cbn [cas set_cas] in Hs'. destruct (decide (ca' = ca)) as [->|Hne].
    - rewrite list_lookup_alter_eq, Hs in Hs'. injection Hs' as <-. by left.
    - rewrite list_lookup_alter_ne in Hs' by congruence. by right. }
  assert (Hsk : skeleton <$> cas w' = skeleton <$> cas w).
  { apply list_eq. intros j. rewrite !list_lookup_fmap. unfold w'. cbn [cas set_cas].
    destruct (decide (j = ca)) as [->|]; [by rewrite list_lookup_alter_eq, Hs|by rewrite list_lookup_alter_ne]. }
  split.
  - destruct Hi. split; try done.
    + destruct inv_built as [E0|E0]; [by rewrite E0 in Hs|right]. rewrite <- E0.
      assert (Hp : (fun x : option (list bytes) * bool * bool * bool => x.1.1.1) <$> (skeleton <$> cas w') =
                   (fun x => x.1.1.1) <$> (skeleton <$> cas w)) by (by rewrite Hsk).
      by rewrite <- !list_fmap_compose in Hp.
    + intros E0. assert (Hl : length (cas w') = 0%nat) by (by rewrite E0). unfold w' in Hl. cbn in Hl.
      rewrite length_alter in Hl. apply nil_length_inv in Hl. by rewrite Hl in Hs.
    + intros ca' s' Hs'. destruct (Hca _ _ Hs') as [[-> ->]|[Hne Hs0]]; [|by apply inv_tables].
      destruct (inv_tables _ _ Hs) as [_ Hz]. rewrite Hn in Hz. unfold table_ok. cbn [ca_backoff set_ca_backoff backoff_n backoff_nkt trace set_cas w'].
      destruct Hb as [->| ->]; [|done]. unfold n, k. rewrite length_replicate. split; [done|].
      intros slot b' Hb'. apply lookup_replicate in Hb' as [-> _]. by rewrite Hz.
  - split.
    + split; try done. intros ca' s0 s' H0 H1 Hb0. destruct (Hca _ _ H1) as [[-> ->]|[Hne Hs0]]; [|congruence].
      rewrite Hs in H0. injection H0 as <-. rewrite Hn in Hb0. by destruct Hb0.
    + intros ca' slot (b' & Hb' & Hlt). exists b'. split; [|done]. unfold slot_at in *.
      destruct (decide (ca' = ca)) as [->|Hne]; [by rewrite Hs, Hn in Hb'|].
      unfold w'. cbn [cas set_cas]. by rewrite list_lookup_alter_ne by congruence.
Qed.

Lemma wp_backoff_ensure ca s names w m (Q : Z -> W -> Prop) :
  inv cf E w m -> cas w !! ca = Some s -> ca_names s = Some names -> ca_list cf !! ca = Some (Some names) ->
  (forall w' s' l, inv cf E w' m -> later w w' -> cur w' = cur w -> fl w' = fl w -> registry w' = registry w ->
     cas w' !! ca = Some s' -> ca_backoff s' = Some l -> Q NGX_OK w') ->
  (forall w', inv cf E w' m -> later w w' -> cur w' = cur w -> fl w' = fl w -> registry w' = registry w ->
     names = [] \/ nkt cf = 0%nat \/ (exists n, (calls w <= n < calls w')%nat /\ ok E n = false) -> Q NGX_ERROR w') ->
  wp (ngx_autocert_ca_backoff_ensure cf E ca) w Q (fun _ => False).
Proof.
  intros Hi Hs Hns Hcl HOk HErr. unfold ngx_autocert_ca_backoff_ensure. wp_step. eapply wp_get_ca; [exact Hs|].
  assert (Hlen : nlen cf ca = length names) by (unfold nlen; by rewrite Hcl).
  rewrite Hns, Hkts. cbv zeta. fold (nkt cf).
  destruct (Nat.eqb_spec (length names) 0) as [E0|E0]; cbn [orb].
  { apply wp_ret, HErr; [done|reflexivity|done..|]. left. by apply nil_length_inv. }
  destruct (Nat.eqb_spec (nkt cf) 0) as [E1|E1]; cbn [orb].
  { apply wp_ret, HErr; [done|reflexivity|done..|]. auto. }
  pose proof (table_fits ca) as Hf. rewrite Hlen in Hf. unfold sizeof_backoff in *.
  destruct (Z.ltb_spec (NGX_MAX_SIZE_T_VALUE / Z.of_nat (length names)) (Z.of_nat (nkt cf))) as [Hlt|_].
  { exfalso. assert (Z.of_nat (nkt cf) <= NGX_MAX_SIZE_T_VALUE / Z.of_nat (length names)) by (apply Z.div_le_lower_bound; lia). lia. }
  destruct (ca_backoff s) as [l|] eqn:El.
  - destruct (slot_bound cf _ _ _ _ (inv_tables _ _ _ _ Hi) Hs El) as (Hl & Hn & Hk).
    rewrite Hn, Hl, Hk, Hlen, !Nat.eqb_refl. cbn [andb]. apply wp_ret. by eapply HOk; [done|reflexivity|done..].
  - cbn [andb]. destruct (Z.ltb_spec (NGX_MAX_SIZE_T_VALUE / 16) (Z.of_nat (length names * nkt cf))) as [Hlt|_].
    { exfalso. assert (Z.of_nat (length names * nkt cf) <= NGX_MAX_SIZE_T_VALUE / 16) by (apply Z.div_le_lower_bound; lia). lia. }
    wp_step. apply wp_attempt_call. set (w1 := set_calls (S (calls w)) w).
    assert (Hi1 : inv cf E w1 m) by (by apply (inv_same cf E w)). assert (Hl1 : later w w1) by (apply later_next).
    destruct (ok E (calls w)) eqn:Eo.
    + wp_step. apply wp_update_world. apply wp_ret.
      destruct (inv_table w1 m ca s (Some (replicate (nlen cf ca * nkt cf) (Backoff 0 0))) Hi1 Hs El) as [Hi2 Hl2]; [by left|].
      rewrite length_replicate, Hlen in Hi2, Hl2.
      eapply HOk; [exact Hi2|by transitivity w1|done..| |].
      * cbn [cas set_cas]. rewrite list_lookup_alter_eq. change (cas w1) with (cas w). by rewrite Hs.
      * done.
    + wp_step. apply wp_update_world. apply wp_ret.
      destruct (inv_table w1 m ca s None Hi1 Hs El) as [Hi2 Hl2]; [by right|].
      assert (Ew : alter (set_ca_backoff None 0 (backoff_nkt s)) ca (cas w1) = alter (fun s => set_ca_backoff None 0 (backoff_nkt s) s) ca (cas w1)).
      { apply list_eq. intros j. destruct (decide (j = ca)) as [->|]; [|by rewrite !list_lookup_alter_ne].
        rewrite !list_lookup_alter_eq. change (cas w1) with (cas w). by rewrite Hs. }
      rewrite Ew in Hi2, Hl2. apply HErr; try done; [by transitivity w1|]. right. right. exists (calls w). split; [cbn; lia|done].
Qed.

(** ** The loops *)

Section Nested.
Context (pump : prog W unit) (f : nat).
Context (IH : forall n0 c0 w m, sweeping cf E n0 c0 w m -> (measure cf w m < f)%nat ->
  wp pump w (fun _ w' => pumped cf E n0 c0 w w') (fun _ => False)).

Lemma sweeping_cursor n0 c0 w m c :
  sweeping cf E n0 c0 w m -> cursor_ok cf c -> swept cf E n0 c0 (set_cur c w) -> sweeping cf E n0 c0 (set_cur c w) m.
Proof. intros [Hi ? ? ? ? ?] Hc Hs. split; try done. destruct Hi. by split. Qed.

Lemma later_cursor w c : later w (set_cur c w).
Proof. by apply later_same. Qed.

Lemma measure_cursor w m c k : (slots_left cf c <= k)%nat -> (k + claimables (clock w) m <= f)%nat -> (measure cf (set_cur c w) m <= f)%nat.
Proof. unfold measure. cbn [cur clock set_cur]. lia. Qed.

(** Facts about the CA, the name and the tables that hold all along a name. *)
Record on_name ca i names name w : Prop := {
  on_list : ca_list cf !! ca = Some (Some names);
  on_name_at : names !! i = Some name;
  on_table : exists s l, cas w !! ca = Some s /\ ca_backoff s = Some l }.

Lemma on_name_len ca i names name w : on_name ca i names name w -> (i < nlen cf ca)%nat /\ nlen cf ca = length names.
Proof.
  intros []. assert (Hn : nlen cf ca = length names) by (unfold nlen; by rewrite on_list0).
  split; [|done]. rewrite Hn. apply lookup_lt_is_Some. by eexists.
Qed.

Lemma table_later ca w w' :
  later w w' -> (exists s l, cas w !! ca = Some s /\ ca_backoff s = Some l) ->
  exists s l, cas w' !! ca = Some s /\ ca_backoff s = Some l.
Proof.
  intros [F _] (s & l & Hs & Hl). destruct (frame_ca _ _ _ _ F Hs) as (s' & Hs' & _).
  destruct (fr_tables _ _ F _ _ _ Hs Hs') as [l' Hl']; [by eexists|]. by exists s', l'.
Qed.

Lemma on_name_later ca i names name w w' : later w w' -> on_name ca i names name w -> on_name ca i names name w'.
Proof. intros Hl []. split; try done. by eapply table_later. Qed.

(** One slot: the cursor is moved past it, and it is settled or launched. *)
Lemma wp_kt_loop fuel ca i name names n0 c0 w m (Q : bool -> W -> Prop) k :
  on_name ca i names name w -> sweeping cf E n0 c0 w m -> cur w = Cursor ca i k -> (k <= nkt cf)%nat ->
  (nkt cf - k < fuel)%nat -> (measure cf w m <= f)%nat ->
  (forall w', pumped cf E n0 c0 w w' -> Q true w') ->
  (forall w', sweeping cf E n0 c0 w' m -> later w w' -> cur w' = Cursor ca i (nkt cf) -> (measure cf w' m <= f)%nat -> Q false w') ->
  wp (kt_loop cf E pump fuel ca i name (kts_of cf) (nkt cf)) w Q (fun _ => False).
Proof.
  revert k w. induction fuel as [|fuel IHf]; intros k w Hon Hsw Hc Hk Hfu Hm HT HF; [lia|]. cbn [kt_loop].
  wp_step. apply wp_read_world. rewrite Hc. cbn [sched_kt sched_ca sched_index].
  destruct (Nat.leb_spec (nkt cf) k) as [Hge|Hlt].
  { apply wp_ret, HF; [done|reflexivity| |done]. rewrite Hc. f_equal. lia. }
  wp_step. apply wp_update_world. set (w1 := set_cur _ w).
  destruct (on_name_len _ _ _ _ _ Hon) as [Hi Hn]. destruct Hon as [Hcl Hname (s & l & Hs & Hl)].
  destruct (slot_bound cf _ _ _ _ (inv_tables _ _ _ _ (sw_inv _ _ _ _ _ _ Hsw)) Hs Hl) as (Hlen & _ & _).
  assert (Hkt : is_Some (kts_of cf !! k)) by (apply lookup_lt_is_Some; exact Hlt). destruct Hkt as [kt Hkt].
  wp_step. eapply wp_get_option; [exact Hkt|]. cbv zeta. set (slot := (i * nkt cf + k)%nat).
  assert (Hslot : (slot < length l)%nat).
  { rewrite Hlen. unfold slot. assert ((S i) * nkt cf <= nlen cf ca * nkt cf)%nat by (apply Nat.mul_le_mono_r; lia). lia. }
  apply lookup_lt_is_Some in Hslot as [b Hb].
  wp_step. eapply wp_get_ca; [exact Hs|]. wp_step. eapply wp_get_option; [exact Hl|]. wp_step. eapply wp_get_option; [exact Hb|].
  wp_step. apply wp_read_world. change (clock w1) with (clock w).
  assert (Hat : slot_at w ca slot = Some b) by (unfold slot_at; by rewrite Hs, Hl).
  assert (Hmk : forall w', clock w' = clock w -> cur w' = Cursor ca i (S k) -> (measure cf w' m < f)%nat).
  { intros w' E1 E2. unfold measure in *. rewrite E1, E2. rewrite Hc, (slots_left_kt cf ca i k Hi Hlt) in Hm. lia. }
  assert (Hi1 : forall w', later w w' -> registry w' = registry w -> cas w' = cas w -> trace w' = trace w -> cur w' = Cursor ca i (S k) -> inv cf E w' m).
  { intros w' [Fr _] E1 E2 E3 E4. destruct (sw_inv _ _ _ _ _ _ Hsw).
    split; rewrite ?E1, ?E2, ?E3, ?E4, ?(fr_clock _ _ Fr), ?(fr_quitting _ _ Fr); try done.
    - unfold tables_ok in *. by rewrite E2, E3.
    - left. cbn. lia. }
  (* going on with the next key type, once this one is settled *)
  assert (Hnext : forall w', inv cf E w' m -> later w w' -> cur_order (fl w') = None -> cur w' = Cursor ca i (S k) ->
    settled cf E n0 w' ca i k -> wp (kt_loop cf E pump fuel ca i name (kts_of cf) (nkt cf)) w' Q (fun _ => False)).
  { intros w' Hi' Hla Ho Hc' Hset. destruct Hsw. eapply (IHf (S k)); [|split; try done|done|lia|lia| | |].
    - apply (on_name_later _ _ _ _ w); [done|]. split; [done|done|by exists s, l].
    - by rewrite (fr_quitting _ _ (proj1 Hla)).
    - by eapply swept_kt.
    - pose proof (fr_calls _ _ (proj1 Hla)). lia.
    - pose proof (Hmk w' (fr_clock _ _ (proj1 Hla)) Hc'). lia.
    - intros w2 Hp. apply HT. by eapply pumped_later.
    - intros w2 Hs2 Hl2 Hc2 Hm2. apply HF; [done|by transitivity w'|done|done]. }
  assert (Hl1 : later w w1) by apply later_cursor.
  destruct (Z.ltb_spec (clock w) (b_next_eligible b)) as [Hh|Hh].
  { apply Hnext; [by apply Hi1|done|apply Hsw|done|]. right. right. left. exists b. split; [exact Hat|exact Hh]. }
  wp_step. unfold name_due. wp_step. apply wp_next_call. wp_step. apply wp_read_world. apply wp_ret. change (clock _) with (clock w).
  change (calls w1) with (calls w). set (w2 := set_calls _ w1). fold (due_at cf E (clock w) name kt (calls w)).
  assert (Hl2 : later w w2) by (transitivity w1; [exact Hl1|exact (later_next w1)]).
  assert (Hsn : slot_name cf (ca, slot) name kt) by (exists names, i, k; done).
  destruct (due_at cf E (clock w) name kt (calls w)) eqn:Ed; cbn [negb].
  2: { apply Hnext; [by apply Hi1|done|apply Hsw|done|]. right. right. right. exists (calls w), name, kt.
       split; [|done]. pose proof (sw_calls _ _ _ _ _ _ Hsw). cbn. lia. }
  wp_step. apply wp_update_world. set (w3 := set_fl _ w2).
  assert (Hl3 : later w w3) by (transitivity w2; [done|by apply later_same]).
  assert (Hi3 : inv cf E w3 m) by (by apply Hi1).
  assert (Hel : b_next_eligible (slot_of (trace w) (ca, slot)) <= clock w).
  { rewrite <- (slot_trace cf w ca slot b); [exact Hh|apply Hsw|done]. }
  assert (Hca : (ca < length (cas w))%nat) by (apply lookup_lt_is_Some; by eexists).
  wp_step. eapply (wp_start_order_for cf E pump f IH ca name kt (Some (ca, slot)) n0 c0 w3 m); try done.
  - apply Hsw.
  - apply Hsw.
  - pose proof (sw_calls _ _ _ _ _ _ Hsw). cbn. lia.
  - by apply Hmk.
  - split; [apply Hsw|]. split; [exact Hca|]. split; [by eexists|]. done.
  - cbn. split; [exact Hel|]. split; [done|]. split; [exact Hsn|]. split; [by exists (calls w)|]. done.
  - intros w4 Hl4 Hc4 Hh4. eapply swept_kt; [apply Hsw|by transitivity w3|exact Hc|done|]. right. right. left. by apply (Hh4 (ca, slot)).
  - intros w4 Hp. rewrite Z.eqb_refl. apply wp_ret, HT. by eapply pumped_later.
  - intros w4 Hi4 Ho4 Hl4 Hc4 Hcas4 Htr4. change (NGX_ERROR =? NGX_OK) with false. cbv iota. wp_step.
    assert (Hl04 : later w w4) by (by transitivity w3).
    eapply (wp_backoff_record cf E); [exact Hi4|by rewrite Hcas4| |].
    + rewrite Htr4, (fr_clock _ _ (proj1 Hl04)). exact Hel.
    + intros l' tr' w5 Hi5 Hf5 Hrec. destruct (Hrec eq_refl) as [Hl5 Hheld].
      apply Hnext; [done|by transitivity w4|exact Ho4|exact Hc4|]. right. right. left. apply Hheld.
      unfold slot_at. rewrite Hcas4. change (cas w3) with (cas w). rewrite Hs, Hl. by eexists.
Qed.

Lemma wp_name_loop fuel ca names n0 c0 w m (Q : bool -> W -> Prop) i k :
  ca_list cf !! ca = Some (Some names) -> (exists s l, cas w !! ca = Some s /\ ca_backoff s = Some l) ->
  sweeping cf E n0 c0 w m -> cur w = Cursor ca i k ->
  ((i < length names)%nat /\ (k <= nkt cf)%nat \/ i = length names /\ k = 0%nat) ->
  (length names - i < fuel)%nat -> (measure cf w m <= f)%nat ->
  (forall w', pumped cf E n0 c0 w w' -> Q true w') ->
  (forall w', sweeping cf E n0 c0 w' m -> later w w' -> cur w' = Cursor ca (length names) 0 -> (measure cf w' m <= f)%nat -> Q false w') ->
  wp (name_loop cf E pump fuel ca names (kts_of cf) (nkt cf)) w Q (fun _ => False).
Proof.
  intros Hcl. revert i k w. induction fuel as [|fuel IHf]; intros i k w Ht Hsw Hc Hik Hfu Hm HT HF; [lia|].
  cbn [name_loop]. wp_step. apply wp_read_world. rewrite Hc. cbn [sched_index].
  destruct (Nat.leb_spec (length names) i) as [Hge|Hlt].
  { apply wp_ret. destruct Hik as [[? _]|[-> ->]]; [lia|]. by apply HF. }
  assert (Hn : is_Some (names !! i)) by (by apply lookup_lt_is_Some). destruct Hn as [name Hname].
  wp_step. eapply wp_get_option; [exact Hname|]. wp_step.
  assert (Hlen : nlen cf ca = length names) by (unfold nlen; by rewrite Hcl).
  eapply (wp_kt_loop (S (nkt cf)) ca i name names n0 c0 w m _ k); [by split|done|done|lia|lia|done|exact HT|].
  intros w1 Hsw1 Hl1 Hc1 Hm1. cbv iota. wp_step. apply wp_read_world. rewrite Hc1. cbn [sched_ca sched_index]. wp_step. apply wp_update_world.
  set (w2 := set_cur _ w1). assert (Hl2 : later w1 w2) by apply later_cursor.
  eapply (IHf (S i) 0%nat); [| |done| |lia| |..].
  - eapply table_later; [|exact Ht]. by transitivity w1.
  - apply sweeping_cursor; [done| |].
    + unfold cursor_ok. cbn [sched_ca sched_index sched_kt]. lia.
    + eapply swept_name; [apply Hsw1|done|exact Hc1|done].
  - lia.
  - apply measure_cursor with (k := slots_left cf (cur w1)); [|exact Hm1].
    rewrite Hc1, slots_left_name. done.
  - intros w3 Hp. apply HT. eapply pumped_later; [|exact Hp]. by transitivity w1.
  - intros w3 Hs3 Hl3 Hc3 Hm3. apply HF; try done. transitivity w1; [done|]. by transitivity w2.
Qed.

Lemma wp_ca_loop fuel n0 c0 w m (Q : bool -> W -> Prop) :
  sweeping cf E n0 c0 w m -> (length (cas w) - sched_ca (cur w) < fuel)%nat -> (measure cf w m <= f)%nat ->
  (forall w', pumped cf E n0 c0 w w' -> Q true w') ->
  (forall w', sweeping cf E n0 c0 w' m -> later w w' -> (length (cas w') <= sched_ca (cur w'))%nat -> (measure cf w' m <= f)%nat ->
     Q false w') ->
  wp (ca_loop cf E pump fuel) w Q (fun _ => False).
Proof.
  revert w. induction fuel as [|fuel IHf]; intros w Hsw Hfu Hm HT HF; [lia|]. cbn [ca_loop].
  wp_step. apply wp_read_world. wp_step. apply wp_read_world. cbv zeta. set (ca := sched_ca (cur w)) in *.
  destruct (Nat.leb_spec (length (cas w)) ca) as [Hge|Hlt]; [apply wp_ret, HF; [done|reflexivity|exact Hge|done]|].
  assert (Hs : is_Some (cas w !! ca)) by (by apply lookup_lt_is_Some). destruct Hs as [s Hs].
  (* the next CA *)
  assert (Hnext : forall w', sweeping cf E n0 c0 w' m -> later w w' -> sched_ca (cur w') = ca -> (measure cf w' m <= f)%nat ->
    (sched_index (cur w') = nlen cf ca /\ sched_kt (cur w') = 0%nat
     \/ forall i k, (i < nlen cf ca)%nat -> (k < nkt cf)%nat -> settled cf E n0 w' ca i k) ->
    wp (let! c := read cur in move (Cursor (S (sched_ca c)) 0 0);; ca_loop cf E pump fuel) w' Q (fun _ => False)).
  { intros w' Hsw' Hl' Hc' Hm' Hset. wp_step. apply wp_read_world. wp_step. apply wp_update_world. rewrite Hc'.
    set (w2 := set_cur _ w'). assert (Hl2 : later w' w2) by apply later_cursor.
    destruct (cur w') as [ca' i' k'] eqn:Ecur. cbn [sched_ca sched_index sched_kt] in *. subst ca'.
    apply IHf.
    - apply sweeping_cursor; [done|right; right; done|].
      eapply swept_ca; [apply Hsw'|done|exact Ecur|done|]. destruct Hset as [Hset|Hset]; [by left|right].
      intros i k Hi Hk. eapply settled_later; [exact Hl2|by apply Hset].
    - cbn [cur cas set_cur w2 sched_ca]. rewrite (frame_length _ _ (proj1 Hl')). lia.
    - apply measure_cursor with (k := slots_left cf (cur w')); [|exact Hm']. rewrite Ecur. apply slots_left_ca.
      rewrite <- Ecur. apply Hsw'.
    - intros w3 Hp. apply HT. eapply pumped_later; [|exact Hp]. by transitivity w'.
    - intros w3 Hs3 Hl3 Hc3 Hm3. apply HF; try done. transitivity w'; [done|]. by transitivity w2. }
  assert (Hrefl : later w w) by reflexivity.
  wp_step. eapply wp_get_ca; [exact Hs|].
  destruct (negb (account_live s) || negb (account s)) eqn:Elive.
  { apply Hnext; try done. right. intros i k _ _. left. exists s. split; [done|]. unfold ca_live.
    destruct (account_live s), (account s); done. }
  assert (Hcl : ca_list cf !! ca = Some (ca_names s)).
  { destruct (inv_built _ _ _ _ (sw_inv _ _ _ _ _ _ Hsw)) as [E0|E0]; [by rewrite E0 in Hs|].
    rewrite <- E0, list_lookup_fmap, Hs. done. }
  assert (Hempty : nlen cf ca = 0%nat ->
    wp (let! c := read cur in move (Cursor (S (sched_ca c)) 0 0);; ca_loop cf E pump fuel) w Q (fun _ => False)).
  { intros E0. apply Hnext; try done. right. intros i k Hi _. lia. }
  destruct (ca_names s) as [[|n1 names']|] eqn:En; [apply Hempty; unfold nlen; by rewrite Hcl| |apply Hempty; unfold nlen; by rewrite Hcl].
  set (names := n1 :: names') in *. assert (Hlen : nlen cf ca = length names) by (unfold nlen; by rewrite Hcl).
  wp_step. eapply wp_backoff_ensure; [apply Hsw|exact Hs|exact En|exact Hcl| |].
  - intros w1 s1 l1 Hi1 Hl1 Hc1 Hf1 Hr1 Hs1 Hb1. rewrite Z.eqb_refl. cbn [negb].
    assert (Hsw1 : sweeping cf E n0 c0 w1 m).
    { destruct Hsw. split; [done|by rewrite Hf1|done|by rewrite (fr_quitting _ _ (proj1 Hl1))|by eapply swept_same|].
      pose proof (fr_calls _ _ (proj1 Hl1)). lia. }
    assert (Hm1 : (measure cf w1 m <= f)%nat).
    { unfold measure in *. rewrite Hc1, (fr_clock _ _ (proj1 Hl1)). done. }
    wp_step. eapply wp_get_option; [exact Hkts|]. wp_step. eapply wp_get_ca; [exact Hs1|].
    destruct (slot_bound cf _ _ _ _ (inv_tables _ _ _ _ Hi1) Hs1 Hb1) as (_ & _ & ->). wp_step.
    destruct (cur w1) as [ca1 i1 k1] eqn:Ec1.
    assert (Eca : ca1 = ca) by (unfold ca; by rewrite <- Hc1). subst ca1.
    eapply (wp_name_loop (S (length names)) ca names n0 c0 w1 m _ i1 k1); [done|by exists s1, l1|done|done| |lia|done| |].
    + pose proof (inv_cursor _ _ _ _ Hi1) as Hok. rewrite Ec1 in Hok. unfold cursor_ok in Hok.
      cbn [sched_ca sched_index sched_kt] in Hok. rewrite Hlen in Hok. unfold names in *. cbn [length] in *. lia.
    + intros w2 Hp. apply wp_ret, HT. by eapply pumped_later.
    + intros w2 Hs2 Hl2 Hc2 Hm2. cbv iota. apply Hnext; [done|by transitivity w1|by rewrite Hc2|done|]. left. rewrite Hc2, Hlen. done.
  - intros w1 Hi1 Hl1 Hc1 Hf1 Hr1 Hwhy. change (negb (NGX_ERROR =? NGX_OK)) with true. cbv iota.
    destruct Hsw. apply Hnext; [|done|by rewrite Hc1|unfold measure in *; by rewrite Hc1, (fr_clock _ _ (proj1 Hl1))|].
    + split; [done|by rewrite Hf1|done|by rewrite (fr_quitting _ _ (proj1 Hl1))|by eapply swept_same|].
      pose proof (fr_calls _ _ (proj1 Hl1)). lia.
    + right. intros i k Hi Hk. destruct Hwhy as [?|[?|(n & Hn & Ho)]]; [done|lia|]. right. left. exists n. split; [lia|done].
Qed.
End Nested.
End Loops.
