(* ===== verification/SchedRuntime.v ===== *)
(** * The driver: the runtime requests, and the pump as a whole *)

From S2P Require Import Prelude NgxCore Ident Expiry Ratecap Rbtree Shm Alpn Requests RequestsNames RequestsThms Registry Marker Sched SchedInv SchedLedger SchedLoops.

Local Open Scope Z_scope.
Local Open Scope prog_scope.

(** ** Pure facts *)

Lemma names_cover_total names host :
  exists r, names_cover names host = Some r
    /\ (r = None -> forall name, name ∈ names -> ngx_autocert_name_covers name host = Some false).
Proof.
  induction names as [|name names (r & Hr & Hn)]; cbn [names_cover]; [exists None; split; [done|]; intros _ ? ?%not_elem_of_nil; done|].
  destruct (name_covers_total name host) as [b Eb]. rewrite Eb. destruct b; [by eexists|]. exists r. split; [done|].
  intros E name' [->|Hin]%elem_of_cons; [done|by apply Hn].
Qed.

Lemma is_config_total l host :
  exists r, ngx_autocert_name_is_config l host = Some r
    /\ (r = None -> forall names name, Some names ∈ ca_names <$> l -> name ∈ names ->
          ngx_autocert_name_covers name host = Some false).
Proof.
  induction l as [|s l (r & Hr & Hn)]; cbn [ngx_autocert_name_is_config fmap list_fmap].
  { exists None. split; [done|]. intros _ names name ?%not_elem_of_nil. done. }
  destruct (ca_names s) as [names|].
  - destruct (names_cover_total names host) as (r' & Er' & Hr'). rewrite Er'. destruct r' as [name|]; [by eexists|].
    exists r. split; [done|]. intros E names' name [[= ->]|Hin]%elem_of_cons; [by apply Hr'|by apply Hn].
  - exists r. split; [done|]. intros E names' name [[=]|Hin]%elem_of_cons. by apply Hn.
Qed.

Lemma window_oldest_in ring now w o :
  let r := window_oldest_loop ring now w o in r = o \/ in_window now w r = true.
Proof.
  revert o. induction ring as [|t ring IH]; intros o; cbn [window_oldest_loop]; [by left|].
  destruct (in_window now w t) eqn:Et; [|apply IH].
  destruct (IH (if (o =? 0) || (t <? o) then t else o)) as [E|E]; [|by right]. cbv zeta in *. rewrite E.
  destruct (_ || _); [by right|by left].
Qed.

(** A hold over a cap is in the future. *)
Lemma cap_hold_future ring now window : 0 < window -> now < cap_hold ring now window.
Proof.
  intros Hw. unfold cap_hold. cbv zeta. destruct (Z.eqb_spec (ngx_autocert_rt_window_oldest ring now window) 0) as [E0|E0]; cbn [negb]; [lia|].
  destruct (window_oldest_in ring now window 0) as [E1|E1]; [done|]. unfold ngx_autocert_rt_window_oldest in *.
  apply in_window_iff in E1. lia.
Qed.

Section Runtime.
Context {H : Type} {R : Registry H} {X509 EVP_PKEY : Type} (cf : conf) (E : env X509 EVP_PKEY).
Abbreviation W := (world H).
Implicit Types (w : W) (m : gmap bytes req).

(** ** One host *)

Lemma settle_state h state eligible n0 c0 w m (Q : Z -> W -> Prop) :
  inv cf E w m -> cur_order (fl w) = None -> pending_only (Some h) m -> quitting w = false ->
  swept cf E n0 c0 w -> (n0 <= calls w)%nat -> filed h -> closing (clock w) state eligible ->
  (forall rc w' m', sweeping cf E n0 c0 w' m' -> later w w' -> cur w' = cur w ->
     (claimables (clock w) m' <= claimables (clock w) m)%nat -> Q rc w') ->
  wp (set_state h state eligible) w Q (fun _ => False).
Proof.
  intros Hi Ho Hp Hq Hsw Hn Hf Hc HQ. eapply wp_set_entry; [exact Hi|]. intros rc z' m' w' Hi' Hl Ht.
  apply (HQ rc w' m'); [|done|done|].
  - split; [done|done| |done|by apply (swept_same cf E n0 c0 w)|done].
    destruct Hc as [[Hs Hne] _]. by eapply settle_pending.
  - eapply closing_claimables; [apply Hi|exact Hf|exact Hc|exact Ht].
Qed.

(** A host just claimed, with nothing else pending and no order in flight. *)
Record claimed n0 c0 h w m : Prop := {
  cl_inv : inv cf E w m;
  cl_order : cur_order (fl w) = None;
  cl_pending : pending_only (Some h) m;
  cl_quitting : quitting w = false;
  cl_swept : swept cf E n0 c0 w;
  cl_calls : (n0 <= calls w)%nat;
  cl_filed : filed h;
  cl_built : cas w <> [] }.

Lemma claimed_same n0 c0 h w w' m :
  registry w' = registry w -> clock w' = clock w -> cas w' = cas w -> quitting w' = quitting w ->
  trace w' = trace w -> cur w' = cur w -> cur_order (fl w') = cur_order (fl w) -> tmr w' = tmr w ->
  (calls w <= calls w')%nat -> claimed n0 c0 h w m -> claimed n0 c0 h w' m.
Proof.
  intros E1 E2 E3 E4 E5 E6 E7 E8 E9 [].
  assert (Hl : later w w') by (apply later_same; try done; by rewrite E8).
  split; [by eapply inv_same|congruence|done|congruence|by eapply swept_same|lia|done|congruence].
Qed.

(** Disposing of it without an order. *)
Lemma wp_close h state eligible n0 c0 w0 w m (Q : bool -> W -> Prop) :
  claimed n0 c0 h w m -> later w0 w -> cur w = cur w0 -> closing (clock w) state eligible ->
  (forall w' m', sweeping cf E n0 c0 w' m' -> later w0 w' -> cur w' = cur w0 ->
     (claimables (clock w) m' <= claimables (clock w) m)%nat -> Q false w') ->
  wp (let! _ := set_state h state eligible in ret false) w Q (fun _ => False).
Proof.
  intros [] Hl Hc Hcl HQ. wp_step. eapply settle_state; try done. intros _ w' m' Hs Hl' Hc' Hm'.
  apply wp_ret, (HQ w' m'); [done|by transitivity w|by rewrite Hc'|done].
Qed.

Lemma not_config w m h :
  inv cf E w m -> cas w <> [] ->
  exists r, ngx_autocert_name_is_config (cas w) h = Some r
    /\ (r = None -> forall names name, Some names ∈ ca_list cf -> name ∈ names ->
          ngx_autocert_name_covers name h = Some false).
Proof.
  intros Hi Hb. destruct (is_config_total (cas w) h) as (r & Hr & Hn). exists r. split; [done|]. intros E0.
  destruct (inv_built _ _ _ _ Hi) as [?|Hl]; [done|]. rewrite <- Hl. by apply Hn.
Qed.

Lemma closing_issued now : closing now NGX_AUTOCERT_REQ_ISSUED 0.
Proof. split; [done|by left]. Qed.
Lemma closing_held now eligible : now < eligible -> closing now NGX_AUTOCERT_REQ_REQUESTED eligible.
Proof. intros Hl. split; [done|by right; left]. Qed.
Lemma closing_failed now : closing now NGX_AUTOCERT_REQ_FAILED 0.
Proof. split; [done|by right; right]. Qed.

Section Nested.
Context (pump : prog W unit) (f : nat).
Context (IH : forall n0 c0 w m, sweeping cf E n0 c0 w m -> (measure cf w m < f)%nat ->
  wp pump w (fun _ w' => pumped cf E n0 c0 w w') (fun _ => False)).
Context (Hzone : requests_zone cf = true).

Lemma wp_serve_host n0 c0 h w m (Q : bool -> W -> Prop) :
  claimed n0 c0 h w m -> (measure cf w m < f)%nat ->
  (forall w', pumped cf E n0 c0 w w' -> Q true w') ->
  (forall w' m', sweeping cf E n0 c0 w' m' -> later w w' -> cur w' = cur w ->
     (claimables (clock w) m' <= claimables (clock w) m)%nat -> Q false w') ->
  wp (serve_host cf E pump h (runtime_key_type cf)) w Q (fun _ => False).
Proof.
  intros Hcl Hm HT HF. assert (Hrefl : later w w) by reflexivity. unfold serve_host. wp_step. apply wp_read_world. wp_step.
  destruct (not_config w m h (cl_inv _ _ _ _ _ Hcl) (cl_built _ _ _ _ _ Hcl)) as (r & Er & Hnc).
  eapply wp_get_option; [exact Er|]. destruct r as [cover|].
  - wp_step. unfold name_due. wp_step. apply wp_next_call. wp_step. apply wp_read_world. apply wp_ret.
    set (w1 := set_calls _ w).
    assert (Hcl1 : claimed n0 c0 h w1 m) by (apply (claimed_same n0 c0 h w); try done; cbn; lia).
    assert (Hl1 : later w w1) by apply later_next. wp_step. apply wp_read_world.
    destruct (ngx_autocert_name_due _ _ _ _ _ _ _); cbn [negb].
    + eapply (wp_close h _ _ n0 c0 w); [exact Hcl1|exact Hl1|done|apply closing_held; unfold RUNTIME_RECHECK; lia|exact HF].
    + eapply (wp_close h _ _ n0 c0 w); [exact Hcl1|exact Hl1|done|apply closing_issued|exact HF].
  - wp_step. apply wp_read_world. wp_step. apply wp_read_world.
    destruct (ngx_autocert_rt_order_at_cap (caps w) (clock w)) eqn:Eo.
    { eapply (wp_close h _ _ n0 c0 w); [done|done|done|apply closing_held; by apply cap_hold_future|exact HF]. }
    destruct (ngx_autocert_rt_fail_at_cap (caps w) h (clock w)) eqn:Ef.
    { eapply (wp_close h _ _ n0 c0 w); [done|done|done|apply closing_held|exact HF].
      repeat case_match; try (by apply cap_hold_future); unfold NGX_AUTOCERT_RT_FAIL_WINDOW; lia. }
    destruct Hcl. wp_step. eapply (wp_start_order_for cf E pump f IH 0 h (runtime_key_type cf) None n0 c0 w m); try done.
    + cbn. split; [done|]. split; [by apply Hnc|]. split; [done|]. split; [done|]. split; [done|]. split; [done|]. split; [|done].
      destruct (Z.eqb_spec (challenge cf) NGX_AUTOCERT_CHALLENGE_DNS_01); done.
    + intros w' Hl' Hc' _. by eapply swept_same.
    + intros w' Hi' Ho' Hl' Hc' Hcas' Htr'. change (NGX_ERROR =? NGX_OK) with false. cbv iota.
      assert (Hck : clock w' = clock w) by apply Hl'.
      eapply (wp_close h _ _ n0 c0 w w' m); [|done|done|apply closing_failed|].
      * split; try done; [by rewrite (fr_quitting _ _ (proj1 Hl'))|by eapply swept_same| |by rewrite Hcas'].
        pose proof (fr_calls _ _ (proj1 Hl')). lia.
      * rewrite Hck. exact HF.
Qed.

(** ** All the hosts *)

Definition at_end w : Prop := (length (cas w) <= sched_ca (cur w))%nat.

(** After the claims: an order is in flight, or the sweep is complete. *)
Record mid n0 c0 w0 w m : Prop := {
  md_inv : inv cf E w m;
  md_flight : flight_ok cf w m;
  md_later : later w0 w;
  md_quitting : quitting w = false;
  md_calls : (n0 <= calls w)%nat;
  md_end : cur_order (fl w) = None -> swept cf E n0 c0 w /\ at_end w }.

Lemma mid_sweeping n0 c0 w0 w m : sweeping cf E n0 c0 w m -> later w0 w -> at_end w -> mid n0 c0 w0 w m.
Proof. intros [] Hl He. split; try done. unfold flight_ok. by rewrite sw_order. Qed.

(** A state that differs in what the ledgers do not see, and in the entries that
    are not pending. *)
Lemma mid_same n0 c0 w0 w w' m m' :
  mid n0 c0 w0 w m -> inv cf E w' m' -> later w w' -> cas w' = cas w -> trace w' = trace w -> cur w' = cur w -> fl w' = fl w ->
  (forall o, pending_only o m -> pending_only o m') -> mid n0 c0 w0 w' m'.
Proof.
  intros [] Hi Hl E1 E2 E3 E4 Hp. pose proof (fr_clock _ _ (proj1 Hl)) as E5. split; try done.
  - unfold flight_ok in *. rewrite E1, E2, E4, E5. destruct (cur_order (fl w)); [|by apply Hp].
    destruct (sched_runtime (fl w)); [|destruct md_flight0; auto]. destruct md_flight0 as (? & ? & ?). auto.
  - by transitivity w.
  - by rewrite (fr_quitting _ _ (proj1 Hl)).
  - pose proof (fr_calls _ _ (proj1 Hl)). lia.
  - unfold at_end. rewrite E1, E3, E4. intros Ho. destruct (md_end0 Ho) as [Hs He]. split; [by eapply swept_same|done].
Qed.

Lemma mid_next n0 c0 w0 w m : mid n0 c0 w0 w m -> mid n0 c0 w0 (set_calls (S (calls w)) w) m.
Proof. intros Hm. eapply mid_same; [exact Hm| |apply later_next|done..]. apply (inv_same cf E w); try done. apply Hm. Qed.

Lemma claim_one now h m r :
  m !! h = Some r -> claimable now r = true -> pending_only None m ->
  pending_only (Some h) (alter (claim now) h m) /\ (claimables now (alter (claim now) h m) < claimables now m)%nat.
Proof.
  intros Hm Hc Hp. replace (alter (claim now) h m) with (<[h := claim now r]> m).
  - split; [|by eapply claimables_claimed].
    intros h' r' Hl Hpe. destruct (decide (h = h')) as [->|Hne]; [done|]. rewrite lookup_insert_ne in Hl by done. by specialize (Hp _ _ Hl Hpe).
  - apply map_eq. intros h'. destruct (decide (h = h')) as [->|Hne]; [by rewrite lookup_insert_eq, lookup_alter_eq, Hm|].
    by rewrite lookup_insert_ne, lookup_alter_ne.
Qed.

(** What claiming one host comes to. *)
Lemma drained_one push copy now m r m' :
  drained push copy now 1 m r m' ->
  r.1 <= 0 /\ m' = m
  \/ 0 < r.1 /\ exists h q, r.2 = [h] /\ m !! h = Some q /\ claimable now q = true /\ m' = alter (claim now) h m.
Proof.
  intros ((_ & Hin & Hmax & _) & Hrc & ->). specialize (Hmax ltac:(done)). destruct r as [rc hosts]. cbn [fst snd] in *.
  destruct hosts as [|h [|h' hosts]]; [left|right|cbn [length] in Hmax; lia].
  - split; [|done]. destruct Hrc as [->|(-> & _)]; cbn; lia.
  - destruct Hrc as [->|(_ & ? & _)]; [|done]. split; [done|]. destruct (Hin h) as (q & Hq & Hc); [by left|]. by exists h, q.
Qed.

Context (Hconf : configured cf = true) (Hchal : challenge_zone cf = true).

Lemma mid_pumped n0 c0 w0 w1 w :
  later w0 w1 -> quitting w1 = false -> (n0 <= calls w1)%nat -> pumped cf E n0 c0 w1 w -> exists m, mid n0 c0 w0 w m.
Proof.
  intros Hl1 Hq Hn (m & Hi & Hf & Hl & Hs). exists m. split; try done.
  - by transitivity w1.
  - by rewrite (fr_quitting _ _ (proj1 Hl)).
  - pose proof (fr_calls _ _ (proj1 Hl)). lia.
  - intros Ho. unfold stopped in Hs. rewrite Ho in Hs. by apply Hs.
Qed.

Lemma wp_drain_hosts fuel n0 c0 w0 w m :
  sweeping cf E n0 c0 w m -> later w0 w -> at_end w -> cas w <> [] ->
  (claimables (clock w) m < fuel)%nat -> (measure cf w m <= f)%nat ->
  wp (drain_hosts cf E pump fuel (runtime_key_type cf)) w (fun _ w' => exists m', mid n0 c0 w0 w' m') (fun _ => False).
Proof.
  revert w m. induction fuel as [|fuel IHf]; intros w m Hs Hl He Hb Hfu Hm; [lia|]. cbn [drain_hosts].
  wp_step. apply wp_read_world. rewrite (sw_quitting _ _ _ _ _ _ Hs). wp_step. apply wp_attempt_call.
  set (w1 := set_calls _ w). pose proof (sweeping_next _ _ _ _ _ _ Hs) as Hs1. fold w1 in Hs1.
  assert (Hl1 : later w0 w1) by (transitivity w; [done|apply later_next]).
  destruct (ok E (calls w)); cbn [negb]; [|apply wp_ret; exists m; by apply mid_sweeping].
  wp_step. unfold drain. wp_step. apply wp_next_call. wp_step. apply wp_read_world. set (w2 := set_calls _ w1).
  pose proof (sweeping_next _ _ _ _ _ _ Hs1) as Hs2. fold w2 in Hs2.
  assert (Hl2 : later w0 w2) by (transitivity w1; [done|apply later_next]).
  apply wp_on_registry. eapply wp_weaken; [apply reg_drain_spec; [apply Hs2|done]|]. intros r z' (m' & Hr & Hd).
  destruct (drained_one _ _ _ _ _ _ Hd) as [[Hle ->]|(Hgt & h & q & Hh & Hq & Hcl & ->)].
  { destruct (Z.leb_spec r.1 0); [|lia]. apply wp_ret. exists m. apply mid_sweeping; [|transitivity w2; [done|by apply later_same]|done].
    destruct Hs2. split; try done. destruct sw_inv. by split. }
  destruct (Z.leb_spec r.1 0); [lia|]. rewrite Hh. wp_step. eapply wp_get_option; [done|].
  set (w3 := set_registry z' w2). assert (Hl3 : later w0 w3) by (transitivity w2; [done|by apply later_same]).
  destruct (claim_one (clock w) h m q Hq Hcl) as [Hp Hlt]; [apply Hs|].
  assert (Hc3 : claimed n0 c0 h w3 (alter (claim (clock w)) h m)).
  { destruct Hs2. split; try done.
    - destruct sw_inv. by split.
    - eapply reg_filed; [apply sw_inv|by eexists]. }
  wp_step. eapply wp_serve_host; [exact Hc3|unfold measure in *; cbn in *; lia| |].
  - intros w' Hpu. by eapply wp_ret, mid_pumped; [exact Hl3|apply Hc3|apply Hc3|].
  - intros w' m' Hs' Hl' Hc' Hm'. cbn [clock set_registry w3 w2 w1 set_calls] in Hm'.
    pose proof (fr_clock _ _ (proj1 Hl')) as Ek. cbn [clock set_registry w3 w2 w1 set_calls] in Ek.
    eapply (IHf w' m'); [done|by transitivity w3| | | |].
    + unfold at_end in *. rewrite Hc'. by rewrite (frame_length _ _ (proj1 Hl')).
    + intros E0. pose proof (frame_length _ _ (proj1 Hl')) as El. rewrite E0 in El. cbn in El. by apply Hb, nil_length_inv.
    + rewrite Ek. lia.
    + unfold measure in *. rewrite Hc', Ek. cbn in *. lia.
Qed.

(** ** Renewals and evictions *)

Lemma mid_built n0 c0 w0 w m : mid n0 c0 w0 w m -> cas w0 <> [] -> cas w <> [].
Proof. intros [] Hb E0. pose proof (frame_length _ _ (proj1 md_later0)) as El. rewrite E0 in El. by apply Hb, nil_length_inv. Qed.

Lemma mid_due n0 c0 w0 w m name key_type (Q : bool -> W -> Prop) :
  mid n0 c0 w0 w m -> (forall b w', mid n0 c0 w0 w' m -> Q b w') -> wp (name_due cf E name key_type) w Q (fun _ => False).
Proof. intros Hm HQ. unfold name_due. wp_step. apply wp_next_call. wp_step. apply wp_read_world. by apply wp_ret, HQ, mid_next. Qed.

Lemma wp_renew_hosts hosts n0 c0 w0 w m :
  mid n0 c0 w0 w m -> cas w0 <> [] -> Forall filed hosts ->
  wp (renew_hosts cf E hosts (runtime_key_type cf)) w (fun _ w' => exists m', mid n0 c0 w0 w' m') (fun _ => False).
Proof.
  intros Hm Hb Hf. revert w m Hm. induction Hf as [|h hosts Hh Hf IHh]; intros w m Hm; cbn [renew_hosts]; [apply wp_ret; by exists m|].
  wp_step. apply wp_read_world. wp_step. destruct (not_config w m h) as (r & Er & _); [apply Hm|by eapply mid_built|].
  eapply wp_get_option; [exact Er|]. destruct r as [cover|]; [by eapply IHh|].
  wp_step. eapply mid_due; [exact Hm|]. intros b w1 Hm1. wp_step. destruct b; [|apply wp_ret; by eapply IHh].
  wp_step. eapply wp_set_entry; [apply Hm1|]. intros rc z' m' w2 Hi2 Hl2 Ht. apply wp_ret. eapply (IHh w2 m').
  eapply mid_same; [exact Hm1|done|done|done..|]. intros o Hp. by eapply settle_other; [exact Hh| | |exact Ht|exact Hp].
Qed.

Lemma wp_remove_markers hosts n0 c0 w0 w m :
  mid n0 c0 w0 w m -> wp (remove_markers cf E hosts) w (fun _ w' => exists m', mid n0 c0 w0 w' m') (fun _ => False).
Proof.
  revert w. induction hosts as [|h hosts IHh]; intros w Hm; cbn [remove_markers]; [apply wp_ret; by exists m|].
  wp_step. unfold marker_remove. wp_step. apply wp_next_call. apply wp_update_world. apply IHh.
  eapply mid_same; [exact Hm| |apply later_same; cbn; try done; lia|done..]. apply (inv_same cf E w); try done. apply Hm.
Qed.

Lemma drop_all_sub m hosts : drop_all m hosts ⊆ m.
Proof.
  revert m. induction hosts as [|h hosts IHh]; intros m; [done|]. change (drop_all m (h :: hosts)) with (drop_all (delete h m) hosts).
  etransitivity; [apply IHh|apply delete_subseteq].
Qed.

Lemma collected_pending push copy now ttl m r m' o :
  collected push copy now ttl m r m' -> pending_only o m -> pending_only o m'.
Proof.
  unfold collected. intros Hc Hp h q Hl Hpe. apply (Hp h q); [|done]. destruct (ttl <=? 0).
  - by destruct Hc as [_ <-].
  - destruct Hc as (_ & _ & ->). eapply lookup_weaken; [exact Hl|apply drop_all_sub].
Qed.

Lemma listed_filed push copy max w m r :
  inv cf E w m -> listed push copy max m r -> Forall filed (reported r).
Proof.
  intros Hi ((_ & Hin & _) & _). apply Forall_forall. intros h Hh. unfold reported in Hh.
  assert (h ∈ r.2) as Hh2 by (by apply (subseteq_take (Z.to_nat r.1) r.2)).
  destruct (Hin _ Hh2) as (q & Hq & _). eapply reg_filed; [apply Hi|by eexists].
Qed.

Lemma wp_pump_runtime n0 c0 w m :
  sweeping cf E n0 c0 w m -> at_end w -> (measure cf w m <= f)%nat ->
  wp (ngx_autocert_sched_pump_runtime cf E pump) w (fun _ w' => exists m', mid n0 c0 w w' m') (fun _ => False).
Proof.
  intros Hs He Hm. assert (Hmid : mid n0 c0 w w m) by (apply mid_sweeping; [done|reflexivity|done]).
  unfold ngx_autocert_sched_pump_runtime. wp_step. apply wp_read_world. rewrite Hzone. cbn [negb orb].
  destruct (Nat.eqb_spec (length (cas w)) 0) as [E0|E0]; [apply wp_ret; by exists m|].
  assert (Hb : cas w <> []) by (by intros Ec; rewrite Ec in E0).
  destruct (lookup_lt_is_Some_2 (cas w) 0) as [s Es]; [lia|]. wp_step. eapply wp_get_ca; [exact Es|].
  destruct (_ || _); [apply wp_ret; by exists m|]. wp_step. apply wp_attempt_call.
  set (w1 := set_calls _ w). pose proof (sweeping_next _ _ _ _ _ _ Hs) as Hs1. fold w1 in Hs1.
  assert (Hl1 : later w w1) by apply later_next. apply mid_next in Hmid. fold w1 in Hmid.
  destruct (ok E (calls w)); cbn [negb]; [|apply wp_ret; by exists m].
  wp_step. eapply wp_mono; [apply (wp_drain_hosts _ n0 c0 w w1 m); try done| |done].
  { pose proof (claimables_le (clock w) m). pose proof (reg_bounded _ _ (inv_reg _ _ _ _ (sw_inv _ _ _ _ _ _ Hs))). cbn in *. lia. }
  clear dependent m. intros [] w2 (m2 & Hm2). wp_step.
  eapply wp_weaken with (Q := fun _ w' => exists m', mid n0 c0 w w' m').
  { wp_step. apply wp_attempt_call. apply mid_next in Hm2. destruct (ok E (calls w2)); [|apply wp_ret; by exists m2].
    wp_step. unfold list_issued. wp_step. apply wp_next_call. apply mid_next in Hm2. apply wp_on_registry.
    eapply wp_weaken; [apply reg_list_issued_spec; [apply Hm2|done]|]. intros r z' (Hr & Hl).
    assert (Hf : Forall filed (reported r)) by (eapply listed_filed; [apply Hm2|exact Hl]).
    eapply (wp_renew_hosts _ n0 c0 w _ m2); [|done|done]. eapply mid_same; [exact Hm2| |by apply later_same|done..].
    destruct Hm2 as [[] ? ? ? ? ?]. by split. }
  intros [] w3 (m3 & Hm3). destruct (0 <? runtime_ttl cf); [|apply wp_ret; by exists m3].
  wp_step. apply wp_attempt_call. apply mid_next in Hm3. destruct (ok E (calls w3)); [|apply wp_ret; by exists m3].
  wp_step. unfold gc. wp_step. apply wp_next_call. apply mid_next in Hm3. wp_step. apply wp_read_world. apply wp_on_registry.
  eapply wp_weaken; [apply reg_gc_spec, Hm3|]. intros r z' (m' & Hr & Hc).
  eapply (wp_remove_markers _ n0 c0 w _ m'). eapply mid_same; [exact Hm3| |by apply later_same|done..|].
  - destruct Hm3 as [[] ? ? ? ? ?]. by split.
  - intros o. by eapply collected_pending.
Qed.

End Nested.

(** ** The pump *)

Context (Hkts : cert_key_types cf = Some (kts_of cf)).
Context (Hsize : Z.of_nat (slots_from cf 0) * sizeof_backoff <= NGX_MAX_SIZE_T_VALUE).

(** One call of the pump, given one that works from any state of a smaller
    measure. *)
Lemma wp_pump_body pump f n0 c0 w m :
  (forall n0 c0 w m, sweeping cf E n0 c0 w m -> (measure cf w m < f)%nat ->
     wp pump w (fun _ w' => pumped cf E n0 c0 w w') (fun _ => False)) ->
  sweeping cf E n0 c0 w m -> (measure cf w m <= f)%nat ->
  wp (sched_pump_body cf E pump) w (fun _ w' => pumped cf E n0 c0 w w') (fun _ => False).
Proof.
  intros IH Hs Hm. unfold sched_pump_body. wp_step. apply wp_read_world. wp_step. apply wp_read_world.
  rewrite (sw_quitting _ _ _ _ _ _ Hs), (sw_order _ _ _ _ _ _ Hs).
  destruct (configured cf) eqn:Hconf; cbn [negb]; [|eapply wp_rearm; [done|congruence]].
  destruct (challenge_zone cf) eqn:Hchal; cbn [negb]; [|eapply wp_rearm; [done|congruence]].
  wp_step. apply wp_read_world. wp_step. eapply (wp_ca_loop cf E Hkts Hsize pump f IH); [done|lia|done| |].
  { intros w' Hp. by apply wp_ret. }
  intros w1 Hs1 Hl1 He1 Hm1. wp_step.
  apply wp_weaken with (Q := fun _ w' => exists m', mid n0 c0 w w' m').
  { destruct (requests_zone cf) eqn:Hzone.
    - eapply wp_weaken; [by eapply (wp_pump_runtime pump f IH Hzone Hconf Hchal n0 c0 w1 m)|]. intros [] w2 (m2 & []).
      exists m2. split; try done. by transitivity w1.
    - unfold ngx_autocert_sched_pump_runtime. wp_step. apply wp_read_world. rewrite Hzone. apply wp_ret. exists m. by apply mid_sweeping. }
  intros [] w2 (m2 & []). wp_step. apply wp_read_world. destruct (cur_order (fl w2)) as [o|] eqn:Eo.
  - apply wp_ret. exists m2. split; [done|]. split; [done|]. split; [done|]. unfold stopped. by rewrite Eo.
  - destruct (md_end0 eq_refl) as [Hsw He]. eapply wp_weaken; [apply (wp_rearm cf E n0 c0 w2 m2)|].
    + split; try done. unfold flight_ok in md_flight0. by rewrite Eo in md_flight0.
    + done.
    + intros [] w3 Hp. by eapply pumped_later.
Qed.

Lemma wp_sched_pump fuel n0 c0 w m :
  sweeping cf E n0 c0 w m -> (measure cf w m < fuel)%nat ->
  wp (ngx_autocert_sched_pump cf E fuel) w (fun _ w' => pumped cf E n0 c0 w w') (fun _ => False).
Proof.
  revert n0 c0 w m. induction fuel as [|fuel IHf]; intros n0 c0 w m Hs Hm; [lia|]. cbn [ngx_autocert_sched_pump].
  eapply (wp_pump_body _ fuel); [|done|lia]. intros n1 c1 w1 m1. apply IHf.
Qed.

Lemma slots_from_slots : slots_from cf 0 = slots cf.
Proof.
  unfold slots_from, slots, nkt. rewrite Hkts, drop_0. f_equal.
  f_equal. apply list_fmap_ext. by intros _ [names|] _.
Qed.

(** The fuel of a pump is enough. *)
Lemma measure_fuel w m : inv cf E w m -> (measure cf w m < PUMP_FUEL cf)%nat.
Proof.
  intros Hi. unfold measure, PUMP_FUEL. pose proof (slots_left_start cf (cur w)) as H1. pose proof (claimables_le (clock w) m) as H2.
  pose proof (reg_bounded _ _ (inv_reg _ _ _ _ Hi)) as H3. rewrite <- slots_from_slots. lia.
Qed.

Lemma wp_pump w m :
  inv cf E w m -> cur_order (fl w) = None -> pending_only None m -> quitting w = false ->
  wp (pump cf E) w (fun _ w' => pumped cf E (calls w) (cur w) w w') (fun _ => False).
Proof.
  intros Hi Ho Hp Hq. eapply (wp_sched_pump _ (calls w) (cur w) w m); [|by apply measure_fuel].
  split; try done. apply swept_refl.
Qed.
End Runtime.
