(* ===== verification/SchedBoot.v ===== *)
(** * The driver: accounts are registered one after the other

    The state of the bootstrap is what it knows of each account, the kick timer
    and whether the scheduler is armed.  The invariant: at most one registration
    is in flight; when none is, the kick timer is set or every account is live,
    and the scheduler is armed if any is. *)

From S2P Require Import Prelude NgxCore Ident Expiry Ratecap Rbtree Shm Alpn Requests RequestsNames RequestsThms Registry Marker Sched SchedInv SchedLedger SchedLoops.

Local Open Scope Z_scope.
Local Open Scope prog_scope.

Section Boot.
Context {H : Type} {R : Registry H} {X509 EVP_PKEY : Type} (cf : conf) (E : env X509 EVP_PKEY).
Abbreviation W := (world H).
Implicit Types (w : W) (m : gmap bytes req) (s : ca_state).

(** A registration is in flight: an account that is not live yet. *)
Definition flying s : bool := account s && negb (account_live s).

Record boot w : Prop := {
  bo_live : forall i s, cas w !! i = Some s -> account_live s = true -> account s = true;
  bo_one : forall i j s s', cas w !! i = Some s -> cas w !! j = Some s' -> flying s = true -> flying s' = true -> i = j;
  bo_kick : forall i s, cas w !! i = Some s -> flying s = true -> kick_timer (tmr w) = None;
  bo_goes : quitting w = false -> configured cf = true -> ca_list cf <> [] -> kick_armed (tmr w) = true ->
    (exists i s, cas w !! i = Some s /\ flying s = true)
    \/ (kick_timer (tmr w) <> None \/ cas w <> [] /\ Forall (fun s => account_live s = true) (cas w))
       /\ (Exists (fun s => account_live s = true) (cas w) -> sched_armed (tmr w) = true) }.

(** The scheduler: once armed it has an order in flight or its timer set. *)
Definition sched_ok w : Prop :=
  quitting w = false -> sched_armed (tmr w) = true ->
  cur_order (fl w) <> None
  \/ exists t, sched_timer (tmr w) = Some t /\ (t = NGX_AUTOCERT_SCHED_INITIAL \/ timer_in_range t).

Lemma skeleton_lookup w w' i s' :
  skeleton <$> cas w' = skeleton <$> cas w -> cas w' !! i = Some s' -> exists s, cas w !! i = Some s /\ skeleton s = skeleton s'.
Proof.
  intros Hk Hs. assert (Hl : (skeleton <$> cas w) !! i = Some (skeleton s')) by (by rewrite <- Hk, list_lookup_fmap, Hs).
  rewrite list_lookup_fmap in Hl. apply fmap_Some in Hl as (s & Hs' & ->). by exists s.
Qed.

Lemma skeleton_flags s s' : skeleton s = skeleton s' -> account s = account s' /\ account_live s = account_live s' /\ flying s = flying s'.
Proof. unfold skeleton, flying. intros [= _ _ -> ->]. done. Qed.

(** A pump does not touch the bootstrap. *)
Lemma boot_frame w w' : frame w w' -> boot w -> boot w'.
Proof.
  intros F [Hlv Hone Hkick Hgo]. pose proof (fr_skeleton _ _ F) as Hk. destruct (fr_kick _ _ F) as [Ek Et].
  assert (Hback : forall i s', cas w' !! i = Some s' -> exists s, cas w !! i = Some s /\ skeleton s = skeleton s')
    by (intros; by eapply skeleton_lookup).
  split.
  - intros i s' Hs. destruct (Hback _ _ Hs) as (s & Hs0 & (<- & <- & _)%skeleton_flags). by eapply Hlv.
  - intros i j s1 s2 H1 H2. destruct (Hback _ _ H1) as (s1' & H1' & (_ & _ & <-)%skeleton_flags).
    destruct (Hback _ _ H2) as (s2' & H2' & (_ & _ & <-)%skeleton_flags). by eapply Hone.
  - intros i s' Hs. destruct (Hback _ _ Hs) as (s & Hs0 & (_ & _ & <-)%skeleton_flags). rewrite Et. by eapply Hkick.
  - rewrite (fr_quitting _ _ F), Ek, Et, (fr_armed _ _ F). intros H1 H2 H3 H4. destruct (Hgo H1 H2 H3 H4) as [(i & s & Hs & Hf)|[Hk1 Hx]].
    + left. destruct (frame_ca _ _ _ _ F Hs) as (s' & Hs' & (_ & _ & E0)%skeleton_flags). exists i, s'. split; [done|congruence].
    + right. split.
      * destruct Hk1 as [?|[Hne Hall]]; [by left|right]. split.
        -- intros E0. pose proof (frame_length _ _ F) as El. rewrite E0 in El. by apply Hne, nil_length_inv.
        -- apply Forall_lookup. intros i s' Hs. destruct (Hback _ _ Hs) as (s & Hs0 & (_ & <- & _)%skeleton_flags).
           by eapply (proj1 (Forall_lookup _ _) Hall).
      * intros Hex. apply Hx. apply Exists_exists in Hex as (s' & (i & Hs)%list_elem_of_lookup_1 & Hlive).
        destruct (Hback _ _ Hs) as (s & Hs0 & (_ & E0 & _)%skeleton_flags). apply Exists_exists. exists s.
        split; [by eapply list_elem_of_lookup_2|congruence].
Qed.

(** ** What the bootstrap leaves alone *)

Definition ledger s : option (list bytes) * option (list backoff) * nat * nat :=
  (ca_names s, ca_backoff s, backoff_n s, backoff_nkt s).

Record aside w0 w : Prop := {
  as_registry : registry w = registry w0;
  as_clock : clock w = clock w0;
  as_quitting : quitting w = quitting w0;
  as_trace : trace w = trace w0;
  as_cur : cur w = cur w0;
  as_fl : fl w = fl w0;
  as_ledger : ledger <$> cas w = ledger <$> cas w0 }.

#[export] Instance aside_preorder : PreOrder aside.
Proof. split; [done|]. intros w1 w2 w3 [] []. split; congruence. Qed.

Lemma aside_length w0 w : aside w0 w -> length (cas w) = length (cas w0).
Proof. intros []. rewrite <- (length_fmap ledger), as_ledger0. apply length_fmap. Qed.

Lemma aside_ca w0 w i s : aside w0 w -> cas w !! i = Some s -> exists s0, cas w0 !! i = Some s0 /\ ledger s0 = ledger s.
Proof.
  intros [] Hs. assert (Hl : (ledger <$> cas w0) !! i = Some (ledger s)) by (by rewrite <- as_ledger0, list_lookup_fmap, Hs).
  rewrite list_lookup_fmap in Hl. apply fmap_Some in Hl as (s0 & Hs0 & ->). by exists s0.
Qed.

Lemma aside_inv w0 w m : aside w0 w -> inv cf E w0 m -> inv cf E w m.
Proof.
  intros A []. pose proof (aside_length _ _ A) as El. pose proof (aside_ca w0 w) as Hca. pose proof A as [].
  split; rewrite ?as_registry0, ?as_clock0, ?as_quitting0, ?as_trace0, ?as_cur0; try done.
  - destruct inv_built as [E0|E0].
    + left. rewrite E0 in El. by apply nil_length_inv.
    + right. rewrite <- E0. assert (Hp : (fun x => x.1.1.1) <$> (ledger <$> cas w) = (fun x => x.1.1.1) <$> (ledger <$> cas w0)) by (by rewrite as_ledger0).
      by rewrite <- !list_fmap_compose in Hp.
  - intros E0. apply inv_unbuilt. rewrite E0 in El. by apply nil_length_inv.
  - intros i s Hs. destruct (Hca i s A Hs) as (s0 & Hs0 & Hl). destruct (inv_tables _ _ Hs0) as [Hto Htr].
    unfold ledger in Hl. injection Hl as _ Eb En Ek. unfold table_ok in *. rewrite <- Eb, <- En, <- Ek, as_trace0. done.
Qed.

Lemma aside_flight w0 w m : aside w0 w -> flight_ok cf w0 m -> flight_ok cf w m.
Proof.
  intros A. pose proof (aside_length _ _ A) as El. destruct A. unfold flight_ok. by rewrite as_fl0, El, as_trace0, as_clock0.
Qed.

(** The scheduler's timer survives the bootstrap, which may arm it. *)
Definition timers_aside w0 w : Prop :=
  sched_armed (tmr w) = sched_armed (tmr w0) /\ sched_timer (tmr w) = sched_timer (tmr w0)
  \/ sched_armed (tmr w0) = false /\ sched_armed (tmr w) = true /\ sched_timer (tmr w) = Some NGX_AUTOCERT_SCHED_INITIAL.

Lemma aside_sched w0 w : aside w0 w -> timers_aside w0 w -> sched_ok w0 -> sched_ok w.
Proof.
  intros [] Ht Hs. unfold sched_ok in *. rewrite as_quitting0, as_fl0. intros Hq Ha. destruct Ht as [[E1 E2]|(_ & _ & ->)].
  - rewrite E2. apply Hs; [done|congruence].
  - right. eexists. split; [done|by left].
Qed.
(** ** The chain *)

Definition flags_ok (l : list ca_state) : Prop :=
  forall i s, l !! i = Some s -> flying s = false /\ (account_live s = true -> account s = true).

(** Between two registrations. *)
Record grounded w0 w : Prop := {
  gr_aside : aside w0 w;
  gr_timers : tmr w = tmr w0;
  gr_flags : flags_ok (cas w) }.

Lemma aside_put w i f : (forall s, ledger (f s) = ledger s) -> aside w (set_cas (alter f i (cas w)) w).
Proof.
  intros Hf. split; try done. apply list_eq. intros j. rewrite !list_lookup_fmap. cbn [cas set_cas].
  destruct (decide (j = i)) as [->|]; [|by rewrite list_lookup_alter_ne].
  rewrite list_lookup_alter_eq. destruct (cas w !! i); cbn; [by rewrite Hf|done].
Qed.

Lemma flags_put l i f :
  (forall s, l !! i = Some s -> flying (f s) = false /\ (account_live (f s) = true -> account (f s) = true)) ->
  (forall j s, j <> i -> l !! j = Some s -> flying s = false /\ (account_live s = true -> account s = true)) ->
  flags_ok (alter f i l).
Proof.
  intros Hi Hj j s Hs. destruct (decide (j = i)) as [->|Hne].
  - rewrite list_lookup_alter_eq in Hs. apply fmap_Some in Hs as (s0 & Hs0 & ->). by apply Hi.
  - rewrite list_lookup_alter_ne in Hs by congruence. by eapply Hj.
Qed.

Lemma grounded_put w0 w i f :
  grounded w0 w -> (forall s, ledger (f s) = ledger s) ->
  (forall s, cas w !! i = Some s -> flying (f s) = false /\ (account_live (f s) = true -> account (f s) = true)) ->
  grounded w0 (set_cas (alter f i (cas w)) w).
Proof.
  intros [] Hl Hf. split; [|done|].
  - transitivity w; [done|by apply aside_put].
  - apply flags_put; [done|]. intros j s _. apply gr_flags0.
Qed.

Lemma grounded_next w0 w : grounded w0 w -> grounded w0 (set_calls (S (calls w)) w).
Proof. intros [[] ? ?]. by split. Qed.

Lemma grounded_ca w0 w i s : grounded w0 w -> cas w !! i = Some s -> account s = false -> account_live s = false.
Proof. intros [] Hs Ha. destruct (gr_flags0 _ _ Hs) as [_ Hl]. destruct (account_live s); [|done]. specialize (Hl eq_refl). congruence. Qed.

(** What a run of the chain establishes. *)
Definition chained w0 w : Prop := boot w /\ aside w0 w /\ timers_aside w0 w.

Lemma wp_chain_end w0 w :
  grounded w0 w -> quitting w0 = false -> kick_timer (tmr w0) = None -> cas w <> [] ->
  wp (chain_end (H := H)) w (fun _ w' => chained w0 w') (fun _ => False).
Proof.
  intros [A Ht Hf] Hq Hk Hne. unfold chain_end. wp_step. apply wp_read_world. wp_step.
  apply wp_weaken with (Q := fun _ w' => exists t, w' = set_tmr t w /\ kick_armed t = kick_armed (tmr w0) /\ kick_timer t = None
    /\ timers_aside w0 w' /\ (Exists (fun s => account_live s = true) (cas w) -> sched_armed t = true)).
  { assert (Hx : Exists (fun s => account_live s = true) (cas w) -> existsb account_live (cas w) = true).
    { intros (s & Hs & Hl)%Exists_exists. apply existsb_exists. exists s. by rewrite <- list_elem_of_In. }
    destruct (existsb account_live (cas w)) eqn:Ex.
    - unfold ngx_autocert_start_order. wp_step. apply wp_read_world. destruct (sched_armed (tmr w)) eqn:Ea.
      + apply wp_ret. exists (tmr w). split; [by destruct w|]. rewrite Ht in *. split; [done|]. split; [done|]. split; [left; by rewrite Ht|done].
      + apply wp_update_world. eexists. split; [done|]. rewrite Ht in *. cbn. split; [done|]. split; [done|]. split; [by right|done].
    - apply wp_ret. exists (tmr w). split; [by destruct w|]. rewrite Ht. split; [done|]. split; [done|]. split; [left; by rewrite Ht|].
      intros Hex. by apply Hx in Hex. }
  intros [] w1 (t & -> & Ek & Et & Hta & Harm). wp_step. apply wp_read_world. wp_step. apply wp_read_world. cbn [tmr set_tmr quitting].
  assert (Eq : quitting w = false) by (by rewrite (as_quitting _ _ A)). rewrite Eq, Et. cbn [negb andb]. rewrite !andb_true_r.
  assert (Hgen : forall k, (existsb (fun s => negb (account_live s)) (cas w) && kick_armed t = true -> k <> None) ->
     chained w0 (set_tmr (Timers (sched_armed t) (sched_timer t) (kick_armed t) k) w)).
  { intros k Hkk. split; [|split; [transitivity w; [done|by split]|]].
    2: { destruct Hta as [[E1 E2]|(E1 & E2 & E3)]; [left|right]; done. }
    split; cbn [cas set_tmr tmr quitting sched_armed kick_timer kick_armed].
    - intros i s Hs. by apply (Hf _ _ Hs).
    - intros i j s s' Hs _ Hfl. destruct (Hf _ _ Hs). congruence.
    - intros i s Hs Hfl. destruct (Hf _ _ Hs). congruence.
    - intros _ _ _ Ha. right. split; [|done]. rewrite Ha, andb_true_r in Hkk.
      destruct (existsb _ (cas w)) eqn:Ex; [left; by apply Hkk|right]. split; [done|]. apply Forall_forall. intros s Hs.
      destruct (account_live s) eqn:El; [done|]. assert (Hx : existsb (fun s => negb (account_live s)) (cas w) = true).
      { apply existsb_exists. exists s. rewrite <- list_elem_of_In. by rewrite El. }
      congruence. }
  destruct (existsb (fun s => negb (account_live s)) (cas w) && kick_armed t) eqn:Ec.
  - apply wp_update_world. apply (Hgen (Some NGX_AUTOCERT_KICK_RETRY)). done.
  - apply wp_ret. replace (set_tmr t w) with (set_tmr (Timers (sched_armed t) (sched_timer t) (kick_armed t) None) w); [by apply Hgen|].
    rewrite <- Et. by destruct t.
Qed.

Lemma wp_build_client w0 w i s (Q : bool -> W -> Prop) :
  grounded w0 w -> cas w !! i = Some s ->
  (forall b w' s', grounded w0 w' -> cas w' !! i = Some s' -> account s' = account s -> Q b w') ->
  wp (build_client E i) w Q (fun _ => False).
Proof.
  intros Hg Hs HQ. unfold build_client. wp_step. eapply wp_get_ca; [exact Hs|]. destruct (client_ready s); [by apply wp_ret, (HQ _ _ s)|].
  wp_step. apply wp_attempt_call. apply grounded_next in Hg. destruct (ok E _); cbn [negb]; [|by apply wp_ret, (HQ _ _ s)].
  wp_step. apply wp_attempt_call. apply grounded_next in Hg. destruct (ok E _); cbn [negb]; [|by apply wp_ret, (HQ _ _ s)].
  wp_step. apply wp_update_world. apply wp_ret, (HQ _ _ (set_client_ready true s)).
  - apply grounded_put; [done|done|]. intros s1 Hs1. exact (gr_flags _ _ Hg _ _ Hs1).
  - cbn [cas set_cas]. rewrite list_lookup_alter_eq. cbn [cas set_calls] in *. by rewrite Hs.
  - done.
Qed.

(** The account of CA [i] as [Some true] (in flight or live) or back to none. *)
Lemma boot_flying w0 w i s :
  grounded w0 w -> kick_timer (tmr w0) = None -> cas w !! i = Some s -> account s = false ->
  boot (set_cas (alter (set_account true) i (cas w)) w).
Proof.
  intros Hg Hk Hs Ha. pose proof (grounded_ca _ _ _ _ Hg Hs Ha) as Hl. destruct Hg as [A Ht Hf].
  assert (Hwho : forall j s', alter (set_account true) i (cas w) !! j = Some s' -> flying s' = true -> j = i).
  { intros j s' Hs' Hfl. destruct (decide (j = i)) as [|Hne]; [done|]. rewrite list_lookup_alter_ne in Hs' by congruence.
    destruct (Hf _ _ Hs'). congruence. }
  split; cbn [cas set_cas tmr].
  - intros j s' Hs' Hlive. destruct (decide (j = i)) as [->|Hne].
    + rewrite list_lookup_alter_eq, Hs in Hs'. by injection Hs' as <-.
    + rewrite list_lookup_alter_ne in Hs' by congruence. by apply (Hf _ _ Hs').
  - intros j k s1 s2 H1 H2 F1 F2. by rewrite (Hwho _ _ H1 F1), (Hwho _ _ H2 F2).
  - intros. by rewrite Ht.
  - intros _ _ _ _. left. exists i, (set_account true s). rewrite list_lookup_alter_eq, Hs. split; [done|].
    unfold flying. cbn. by rewrite Hl.
Qed.

Lemma put_put w i f g :
  set_cas (alter f i (alter g i (cas w))) w = set_cas (alter (fun s => f (g s)) i (cas w)) w.
Proof. f_equal. apply list_eq. intros j. destruct (decide (j = i)) as [->|]; [by rewrite !list_lookup_alter_eq; destruct (cas w !! i)|by rewrite !list_lookup_alter_ne]. Qed.

Lemma wp_bootstrap_loop fuel w0 w i :
  grounded w0 w -> quitting w0 = false -> kick_timer (tmr w0) = None -> cas w0 <> [] -> (length (cas w0) - i < fuel)%nat ->
  wp (bootstrap_loop E fuel i) w (fun _ w' => chained w0 w') (fun _ => False).
Proof.
  revert w i. induction fuel as [|fuel IH]; intros w i Hg Hq Hk Hne Hfu; [lia|]. cbn [bootstrap_loop].
  pose proof (aside_length _ _ (gr_aside _ _ Hg)) as El. wp_step. apply wp_read_world. rewrite El.
  destruct (Nat.leb_spec (length (cas w0)) i) as [Hge|Hlt].
  { apply wp_chain_end; [done..|]. intros E0. rewrite E0 in El. by apply Hne, nil_length_inv. }
  assert (Hnext : forall w', grounded w0 w' -> wp (bootstrap_loop E fuel (S i)) w' (fun _ w' => chained w0 w') (fun _ => False)).
  { intros w' Hg'. apply IH; try done. lia. }
  destruct (lookup_lt_is_Some_2 (cas w) i) as [s Hs]; [lia|]. wp_step. eapply wp_get_ca; [exact Hs|].
  destruct (account s) eqn:Ea; [by apply Hnext|]. wp_step. eapply wp_build_client; [exact Hg|exact Hs|].
  intros b w1 s1 Hg1 Hs1 Ea1. rewrite Ea in Ea1. clear Hg Hs El w s Ea. destruct b; cbn [negb]; [|by apply Hnext].
  do 3 (wp_step; apply wp_attempt_call; apply grounded_next in Hg1; destruct (ok E _); cbn [negb]; [|by apply Hnext]).
  change (cas w1) with (cas (set_calls (S (calls w1)) w1)) in Hs1.
  lazymatch type of Hg1 with grounded _ ?x => set (w2 := x) in * end.
  wp_step. apply wp_update_world. change (cas _ !! i = Some s1) with (cas w2 !! i = Some s1) in Hs1.
  wp_step. apply wp_next_call. cbn [calls set_cas].
  pose proof (grounded_ca _ _ _ _ Hg1 Hs1 Ea1) as El1.
  pose proof (grounded_next _ _ Hg1) as Hg2. set (w3 := set_calls _ w2) in *.
  assert (Hundo : grounded w0 (set_cas (alter (set_account false) i (alter (set_account true) i (cas w3))) w3)).
  { rewrite put_put. apply grounded_put; [done|done|]. intros s2 Hs2. change (cas w2 !! i = Some s2) in Hs2.
    assert (s2 = s1) as -> by congruence. unfold flying. cbn. by rewrite El1. }
  destruct (starts E _).
  - wp_step. apply wp_update_world. by apply Hnext.
  - apply wp_ret. split; [|split].
    + by apply (boot_flying w0 w3 i s1).
    + transitivity w3; [apply Hg2|by apply (aside_put w3 i (set_account true))].
    + left. by rewrite <- (gr_timers _ _ Hg2).
  - unfold account_settle. change (NGX_ERROR =? NGX_OK) with false. cbn [negb]. wp_step. apply wp_update_world. by apply Hnext.
Qed.

(** ** Its entries *)

(** With nothing in flight, and nothing to bootstrap. *)
Lemma boot_idle w : flags_ok (cas w) -> quitting w = true \/ configured cf = false \/ ca_list cf = [] -> boot w.
Proof.
  intros Hf Hwhy. split.
  - intros i s Hs. by apply (Hf _ _ Hs).
  - intros i j s s' Hs _ Hfl. destruct (Hf _ _ Hs). congruence.
  - intros i s Hs Hfl. destruct (Hf _ _ Hs). congruence.
  - intros H1 H2 H3. by destruct Hwhy as [?|[?|?]]; [congruence|congruence|].
Qed.

Lemma boot_flags w : boot w -> (forall i s, cas w !! i = Some s -> flying s = false) -> flags_ok (cas w).
Proof. intros Hb Hf i s Hs. split; [by eapply Hf|by eapply bo_live]. Qed.

Lemma chained_refl w : boot w -> chained w w.
Proof. intros Hb. split; [done|]. split; [reflexivity|by left]. Qed.

Lemma wp_bootstrap_ca w i :
  flags_ok (cas w) -> kick_timer (tmr w) = None -> cas w <> [] ->
  wp (ngx_autocert_bootstrap_ca cf E i) w (fun _ w' => chained w w') (fun _ => False).
Proof.
  intros Hf Hk Hne. unfold ngx_autocert_bootstrap_ca. wp_step. apply wp_read_world.
  destruct (quitting w) eqn:Hq; [apply wp_ret, chained_refl, boot_idle; auto|].
  destruct (configured cf) eqn:Hc; cbn [negb]; [|apply wp_ret, chained_refl, boot_idle; auto].
  wp_step. apply wp_read_world. apply wp_bootstrap_loop; [by split|done|done|done|lia].
Qed.

(** The end of a registration: the CA is live, or to be tried again. *)
Lemma wp_account_done w i s rc :
  boot w -> cas w !! i = Some s -> flying s = true ->
  wp (ngx_autocert_account_done cf E i rc) w (fun _ w' => chained w w') (fun _ => False).
Proof.
  intros Hb Hs Hfl. unfold ngx_autocert_account_done. wp_step.
  set (f := if negb (rc =? NGX_OK) then set_account false else set_account_live true).
  assert (Hset : account_settle (H := H) i rc = put_ca i f) by (unfold account_settle, f; by destruct (negb _)).
  rewrite Hset. apply wp_update_world. set (w1 := set_cas _ w).
  assert (Hlive : account s = true /\ account_live s = false).
  { unfold flying in Hfl. by apply andb_true_iff in Hfl as [-> ->%negb_true_iff]. }
  assert (A : aside w w1) by (apply aside_put; intros; unfold f; by destruct (negb _)).
  assert (Hf1 : flags_ok (cas w1)).
  { apply flags_put.
    - intros s' Hs'. assert (s' = s) as -> by congruence. destruct Hlive as [E1 E2]. unfold flying, f.
      destruct (negb (rc =? NGX_OK)); cbn; rewrite ?E1, ?E2; done.
    - intros j s' Hne Hs'. split; [|by eapply bo_live]. destruct (flying s') eqn:Ef; [|done]. exfalso. apply Hne. by eapply bo_one. }
  eapply wp_weaken; [apply (wp_bootstrap_ca w1 (S i) Hf1)|].
  - exact (bo_kick _ Hb _ _ Hs Hfl).
  - intros E0. pose proof (aside_length _ _ A) as El. rewrite E0 in El. apply eq_sym, nil_length_inv in El. by rewrite El in Hs.
  - intros [] w2 (Hb2 & A2 & T2). split; [done|]. split; [by transitivity w1|]. exact T2.
Qed.
End Boot.
