(* ===== verification/SchedEvents.v ===== *)
(** * The driver: what every event preserves *)

From S2P Require Import Prelude NgxCore Ident Expiry Ratecap Rbtree Shm Alpn Requests RequestsNames RequestsThms Registry Marker Sched SchedInv SchedLedger SchedLoops SchedRuntime SchedBoot.

Local Open Scope Z_scope.
Local Open Scope prog_scope.

Section Events.
Context {H : Type} {R : Registry H} {X509 EVP_PKEY : Type} (cf : conf) (E : env X509 EVP_PKEY).
Abbreviation W := (world H).
Implicit Types (w : W) (m : gmap bytes req).
Context (Hkts : cert_key_types cf = Some (kts_of cf)).
Context (Hsize : Z.of_nat (slots_from cf 0) * sizeof_backoff <= NGX_MAX_SIZE_T_VALUE).

(** The state between two events. *)
Record good w m : Prop := {
  gd_inv : inv cf E w m;
  gd_flight : flight_ok cf w m;
  gd_sched : sched_ok w;
  gd_boot : boot cf w }.

(** A state that differs in fields no invariant looks at. *)
Lemma good_same w w' m :
  registry w' = registry w -> clock w' = clock w -> cas w' = cas w -> quitting w' = quitting w ->
  trace w' = trace w -> cur w' = cur w -> fl w' = fl w -> tmr w' = tmr w -> good w m -> good w' m.
Proof.
  intros E1 E2 E3 E4 E5 E6 E7 E8 [Hi Hf Hs Hb]. split.
  - by apply (inv_same cf E w).
  - unfold flight_ok in *. by rewrite E7, E5, E3, E2.
  - unfold sched_ok in *. by rewrite E4, E8, E7.
  - destruct Hb. split; rewrite ?E3, ?E8, ?E4; done.
Qed.

(** Time passes. *)
Lemma good_clock w m t : good w m -> good (set_clock (Z.max (clock w) t) w) m.
Proof.
  intros [Hi Hf Hs Hb]. split; [| |done|by destruct Hb].
  - destruct Hi. split; try done. cbn. lia.
  - unfold flight_ok in *. cbn [fl set_clock cas trace clock]. destruct (cur_order (fl w)); [|done].
    destruct (sched_runtime (fl w)); [done|]. destruct Hf as (? & ? & ?). split; [done|]. split; [done|lia].
Qed.

(** A call of the consumer, or another change of the registry. *)
Lemma good_registry w m z' m' :
  good w m -> reg_inv z' m' -> (forall o, pending_only o m -> pending_only o m') -> good (set_registry z' w) m'.
Proof.
  intros [Hi Hf Hs Hb] Hr Hp. split; [by destruct Hi| |done|by destruct Hb].
  unfold flight_ok in *. cbn [fl set_registry cas trace clock]. destruct (cur_order (fl w)); [|by apply Hp].
  destruct (sched_runtime (fl w)); [|destruct Hf; auto]. destruct Hf as (? & ? & ?). auto.
Qed.

(** A pump leaves a good state. *)
Lemma good_pumped n0 c0 w0 w : boot cf w0 -> pumped cf E n0 c0 w0 w -> exists m, good w m.
Proof.
  intros Hb (m & Hi & Hf & Hl & Hs). exists m. split; [done|done| |by eapply boot_frame; [apply Hl|]].
  intros _ _. unfold stopped in Hs. destruct (cur_order (fl w)); [by left|right].
  destruct Hs as [(t & Ht & Hr) _]. exists t. auto.
Qed.

Lemma good_chained w0 w m : inv cf E w0 m -> flight_ok cf w0 m -> sched_ok w0 -> chained cf w0 w -> good w m.
Proof.
  intros Hi Hf Hs (Hb & A & T). split; [by eapply aside_inv|by eapply aside_flight|by eapply aside_sched|done].
Qed.

(** ** The scheduler's timer *)

Definition timer_fired w : W := set_tmr (Timers (sched_armed (tmr w)) None (kick_armed (tmr w)) (kick_timer (tmr w))) w.

(** A tick with nothing in flight sweeps from the start. *)
Lemma wp_tick w m :
  good w m -> cur_order (fl w) = None -> quitting w = false ->
  wp (ngx_autocert_sched_handler cf E) (timer_fired w)
    (fun _ w' => pumped cf E (calls w) (Cursor 0 0 0) (timer_fired w) w') (fun _ => False).
Proof.
  intros [Hi Hf Hs Hb] Ho Hq. unfold ngx_autocert_sched_handler. wp_step. apply wp_read_world. change (quitting (timer_fired w)) with (quitting w).
  rewrite Hq. wp_step. apply wp_read_world. change (fl (timer_fired w)) with (fl w). rewrite Ho. wp_step. apply wp_update_world.
  unfold flight_ok in Hf. rewrite Ho in Hf.
  eapply wp_weaken; [apply (wp_pump cf E Hkts Hsize _ m)|]; try done.
  - destruct Hi. split; try done. right. right. done.
  - intros [] w' Hp. eapply pumped_later; [|exact Hp]. by apply later_same.
Qed.

Lemma wp_sched_timer w m :
  good w m -> wp (ngx_autocert_sched_handler cf E) (timer_fired w) (fun _ w' => exists m', good w' m') (fun _ => False).
Proof.
  intros Hg. destruct (quitting w) eqn:Hq.
  { unfold ngx_autocert_sched_handler. wp_step. apply wp_read_world. change (quitting (timer_fired w)) with (quitting w). rewrite Hq.
    apply wp_ret. exists m. destruct Hg as [Hi Hf Hs Hb]. split; [by apply (inv_same cf E w)|done| |by destruct Hb].
    intros Hq'. cbn in Hq'. congruence. }
  destruct (cur_order (fl w)) as [o|] eqn:Ho.
  - unfold ngx_autocert_sched_handler. wp_step. apply wp_read_world. change (quitting (timer_fired w)) with (quitting w). rewrite Hq.
    wp_step. apply wp_read_world. change (fl (timer_fired w)) with (fl w). rewrite Ho. apply wp_update_world. exists m.
    destruct Hg as [Hi Hf Hs Hb]. split; [by apply (inv_same cf E w)|done| |by destruct Hb].
    intros _ _. left. cbn. by rewrite Ho.
  - eapply wp_weaken; [by apply (wp_tick w m)|]. intros [] w' Hp. eapply good_pumped; [|exact Hp]. destruct Hg as [_ _ _ []]. by split.
Qed.

(** ** The end of an order *)

Lemma wp_order_done w m o rc retry_after :
  good w m -> cur_order (fl w) = Some o ->
  wp (ngx_autocert_order_complete cf E (pump cf E) rc retry_after) w (fun _ w' => exists m', good w' m') (fun _ => False).
Proof.
  intros [Hi Hf Hs Hb] Ho. destruct (quitting w) eqn:Hq.
  - unfold ngx_autocert_order_complete. wp_step. apply wp_read_world. wp_step. eapply wp_get_option; [exact Ho|]. wp_step.
    eapply wp_record; [exact Hi|exact Hf|exact Ho|]. intros w1 m1 (Hi1 & Hp1 & Hf1 & Hc1 & Hfl1 & Ht1 & _ & _).
    wp_step. apply wp_update_world. set (w2 := set_fl _ w1). unfold pump, PUMP_FUEL. rewrite Nat.add_comm. cbn [ngx_autocert_sched_pump Nat.add].
    unfold sched_pump_body. wp_step. apply wp_read_world. wp_step. apply wp_read_world. change (quitting w2) with (quitting w1).
    assert (Hq1 : quitting w1 = true) by (by rewrite (fr_quitting _ _ Hf1)). rewrite Hq1. apply wp_ret. exists m1.
    split; [by apply (inv_same cf E w1)|done| |].
    + intros Hq2. cbn in Hq2. congruence.
    + pose proof (boot_frame cf _ _ Hf1 Hb) as []. by split.
  - eapply wp_weaken; [eapply (wp_order_complete cf E (pump cf E) (PUMP_FUEL cf) _ o rc retry_after (calls w) (cur w) w w m); try done|].
    + intros w' m' Hr. pose proof Hr as (Hi' & Hp' & Hfr' & Hc' & _). split; [|split].
      * rewrite <- Hc'. apply swept_refl.
      * apply Hfr'.
      * by apply (measure_fuel cf E Hkts).
    + intros [] w' (m' & Hi' & Hf' & Hfr & _ & Hst). exists m'. split; [done|done| |by eapply boot_frame].
      intros _ _. unfold stopped in Hst. destruct (cur_order (fl w')); [by left|right].
      destruct Hst as [(t & Ht & Hr) _]. exists t. auto.
    Unshelve. intros n0 c0 w1 m1 Hs1 Hm1. by apply wp_sched_pump with (m := m1).
Qed.

(** ** The bootstrap's timer *)

Lemma wp_kick w m k :
  good w m -> kick_timer (tmr w) = Some k ->
  wp (ngx_autocert_kick_handler cf E)
    (set_tmr (Timers (sched_armed (tmr w)) (sched_timer (tmr w)) (kick_armed (tmr w)) None) w)
    (fun _ w' => exists m', good w' m') (fun _ => False).
Proof.
  intros [Hi Hf Hs Hb] Hk. set (w1 := set_tmr _ w).
  assert (Hfl : flags_ok (cas w1)).
  { apply (boot_flags cf w); [done|]. intros i s Es. destruct (flying s) eqn:Ef; [|done].
    pose proof (bo_kick _ _ Hb _ _ Es Ef). congruence. }
  assert (Hi1 : inv cf E w1 m) by (by apply (inv_same cf E w)).
  unfold ngx_autocert_kick_handler. wp_step. apply wp_read_world.
  destruct (quitting w1) eqn:Hq; [apply wp_ret; exists m; split; try done; apply boot_idle; auto|].
  destruct (configured cf) eqn:Hc; cbn [negb]; [|apply wp_ret; exists m; split; try done; apply boot_idle; auto].
  destruct (ca_list cf) as [|c l] eqn:El; [apply wp_ret; exists m; split; try done; apply boot_idle; auto|]. rewrite <- El.
  wp_step. apply wp_read_world. destruct (cas w1) as [|s l'] eqn:Ec.
  - wp_step. apply wp_attempt_call. destruct (ok E _); cbn [negb].
    + wp_step. apply wp_update_world. set (w2 := set_cas _ _).
      assert (Hi2 : inv cf E w2 m).
      { destruct Hi1. destruct (inv_unbuilt Ec) as [?|Et]; [congruence|]. split; try done.
        - right. cbn [cas w2 set_cas]. rewrite <- list_fmap_compose. apply list_fmap_id.
        - by right.
        - intros i s Es. cbn [cas w2 set_cas] in Es. rewrite list_lookup_fmap in Es. apply fmap_Some in Es as (nm & _ & ->).
          split; [done|]. cbn [ca_backoff ca_state0]. intros slot. change (trace w2) with (trace w1). by rewrite Et. }
      assert (Hf2 : flight_ok cf w2 m).
      { unfold flight_ok in *. change (fl w2) with (fl w). destruct (cur_order (fl w)); [|done]. destruct (sched_runtime (fl w)); [done|].
        destruct Hf as (_ & Hl & _). change (cas w) with (cas w1) in Hl. rewrite Ec in Hl. cbn in Hl. lia. }
      eapply wp_weaken; [apply (wp_bootstrap_ca cf E w2 0)|].
      * intros i s Es. cbn [cas w2 set_cas] in Es. rewrite list_lookup_fmap in Es. by apply fmap_Some in Es as (nm & _ & ->).
      * done.
      * cbn [cas w2 set_cas]. by rewrite El.
      * intros [] w3 Hch. exists m. by eapply good_chained.
    + apply wp_update_world. exists m. split; [by apply (inv_same cf E w1)|done|done|].
      split; cbn [cas tmr kick_timer kick_armed set_tmr set_calls]; try rewrite Ec; try done.
      intros _ _ _ _. right. split; [by left|]. by intros Hx%Exists_nil.
  - rewrite <- Ec in Hfl. eapply wp_weaken; [apply (wp_bootstrap_ca cf E w1 0)|].
    + done.
    + done.
    + by rewrite Ec.
    + intros [] w3 Hch. exists m. by apply (good_chained w1).
Qed.
(** ** Leaving *)

(** The entries after the order in flight is dropped: its host is requested
    again. *)
Definition released w m m' : Prop :=
  match cur_order (fl w) with
  | Some o =>
      if sched_runtime (fl w) then
        match m !! o_domain o with
        | Some r => exists r', set_state_fields NGX_AUTOCERT_REQ_REQUESTED 0 (clock w) r = Some r' /\ m' = <[o_domain o := r']> m
        | None => m' = m
        end
      else m' = m
  | None => m' = m
  end.

Lemma wp_drop_order w m :
  inv cf E w m -> flight_ok cf w m ->
  wp (ngx_autocert_driver_drop_order cf) w
    (fun _ w' => exists m', inv cf E w' m' /\ pending_only None m' /\ cur_order (fl w') = None /\ quitting w' = quitting w /\ released w m m')
    (fun _ => False).
Proof.
  intros Hi Hf. unfold ngx_autocert_driver_drop_order, released. wp_step. apply wp_read_world. unfold flight_ok in Hf.
  destruct (cur_order (fl w)) as [o|] eqn:Ho; [|apply wp_ret; by exists m]. wp_step.
  destruct (sched_runtime (fl w)); cbn [andb].
  - destruct Hf as (-> & Hfi & Hp). wp_step. eapply wp_set_entry; [exact Hi|]. intros rc z' m' w1 Hi1 Hl1 Ht. apply wp_ret, wp_update_world.
    exists m'. split; [by apply (inv_same cf E w1)|]. split; [eapply settle_pending; [exact Hfi| | |exact Ht|exact Hp]; done|].
    split; [done|]. split; [done|].
    by apply (transitioned_filed _ _ _ _ _ _ _ Hfi) in Ht as [_ Hm].
  - apply wp_ret, wp_update_world. exists m. split; [by apply (inv_same cf E w)|]. by destruct Hf.
Qed.

Lemma wp_exit w m :
  good w m -> quitting w = true ->
  wp (ngx_autocert_driver_exit_process cf) w
    (fun _ w' => exists m', good w' m' /\ released w m m' /\ cur_order (fl w') = None /\ cas w' = []
       /\ sched_timer (tmr w') = None /\ kick_timer (tmr w') = None /\ pending_only None m') (fun _ => False).
Proof.
  intros [Hi Hf Hs Hb] Hq. unfold ngx_autocert_driver_exit_process. wp_step.
  eapply wp_weaken; [by apply (wp_drop_order w m)|].
  intros [] w1 (m' & Hi1 & Hp1 & Ho1 & Hq1 & Hr1). rewrite Hq in Hq1. wp_step. apply wp_update_world, wp_update_world. exists m'. split; [|done]. split.
  - destruct Hi1. split; try done; [by left|]. by left.
  - unfold flight_ok. cbn [fl set_tmr set_cas]. by rewrite Ho1.
  - intros Hq2. cbn in Hq2. congruence.
  - apply boot_idle; [|by left]. intros i s Es. done.
Qed.

(** ** Any event *)

Lemma good_quit w m : good w m -> good (set_quitting true w) m.
Proof.
  intros [Hi Hf Hs Hb]. split; [|done|done|].
  - destruct Hi. split; try done. by left.
  - destruct Hb. by split.
Qed.

Lemma wp_handle w m e : good w m -> wp (handle cf E e) w (fun _ w' => exists m', good w' m') (fun _ => False).
Proof.
  intros Hg. unfold handle. wp_step. apply wp_read_world. cbn [id].
  assert (Hsame : wp (ret tt) w (fun _ w' => exists m', good w' m') (fun _ => False)) by (apply wp_ret; by exists m).
  destruct e as [| |rc ra| |i rc|host|d| |].
  - destruct (sched_timer (tmr w)) eqn:Et; [|done]. wp_step. apply wp_update_world. by apply (wp_sched_timer w m).
  - destruct (kick_timer (tmr w)) as [k|] eqn:Et; [|done]. wp_step. apply wp_update_world. by apply (wp_kick w m k).
  - destruct (cur_order (fl w)) as [o|] eqn:Eo; [|done]. by apply (wp_order_done w m o).
  - destruct (cur_order (fl w)) as [o|]; [|done]. destruct (o_counts o); [|done]. apply wp_update_world. exists m. by apply (good_same w).
  - destruct (cas w !! i) as [s|] eqn:Es; [|done]. destruct (account s && negb (account_live s)) eqn:Ef; [|done].
    destruct Hg as [Hi Hf Hs Hb]. eapply wp_weaken; [by apply (wp_account_done cf E w i s rc)|]. intros [] w' Hch. exists m. by eapply good_chained.
  - wp_step. apply wp_on_registry. eapply wp_weaken; [apply reg_ensure_spec, Hg|]. intros rc z' (m' & Hr & He). apply wp_ret. exists m'.
    eapply good_registry; [exact Hg|exact Hr|]. intros o. by eapply ensured_pending.
  - apply wp_update_world. exists m. by apply (good_same w).
  - apply wp_update_world. exists m. by apply good_quit.
  - destruct (quitting w) eqn:Hq; [|done]. eapply wp_weaken; [by apply (wp_exit w m)|]. intros [] w' (m' & Hg' & _). by exists m'.
Qed.

Lemma wp_step_event w m t e : good w m -> wp (step cf E t e) w (fun _ w' => exists m', good w' m') (fun _ => False).
Proof. intros Hg. unfold step. wp_step. apply wp_update_world. eapply wp_handle. by apply good_clock. Qed.

Lemma wp_history es w m : good w m -> wp (run cf E es) w (fun _ w' => exists m', good w' m') (fun _ => False).
Proof.
  revert w m. induction es as [|[t e] es IH]; intros w m Hg; cbn [run]; [apply wp_ret; by exists m|].
  wp_step. eapply wp_weaken; [by eapply wp_step_event|]. intros [] w' (m' & Hg'). by eapply IH.
Qed.

(** The armed driver, before anything happens. *)
Lemma good_armed z d t m :
  reg_inv z m -> pending_only None m -> 0 < t ->
  wp (ngx_autocert_driver_arm (H := H)) (world0 z d t) (fun _ w => good w m) (fun _ => False).
Proof.
  intros Hr Hp Ht. apply wp_update_world. split.
  - split; try done; [by left|by right|by right; right|apply lawful_nil].
  - done.
  - done.
  - split; try done. intros _ _ _ _. right. split; [by left|]. by intros Hx%Exists_nil.
Qed.
End Events.
