(* ===== verification/SchedThms.v ===== *)
(** * The driver: what any history of events establishes *)

From S2P Require Import Prelude NgxCore Ident Expiry Ratecap Rbtree Shm Alpn Requests RequestsNames RequestsThms Registry Marker Sched SchedInv SchedLedger SchedLoops SchedRuntime SchedBoot SchedEvents.

Local Open Scope Z_scope.
Local Open Scope prog_scope.

(** ** Holds *)

(** How many failures in a row the history has for a slot. *)
Fixpoint streak_from (n : nat) (tr : list entry) (s : nat * nat) : nat :=
  match tr with
  | [] => n
  | Recorded _ s' success :: tr' =>
      streak_from (if decide (s' = s) then if success then 0%nat else S n else n) tr' s
  | _ :: tr' => streak_from n tr' s
  end.

Definition streak (tr : list entry) (s : nat * nat) : nat := streak_from 0 tr s.

Lemma streak_fails n tr s b :
  b_fails b = Z.of_nat n -> Z.of_nat (n + length tr) < 2 ^ 64 ->
  b_fails (fold_left (slot_step s) tr b) = Z.of_nat (streak_from n tr s) /\ (streak_from n tr s <= n + length tr)%nat.
Proof.
  revert n b. induction tr as [|e tr IH]; intros n b Hb Hl; cbn [fold_left streak_from length] in *; [split; [done|lia]|].
  destruct e as [now sl o c|now s' success|s' u]; cbn [slot_step].
  - destruct (IH n b Hb) as [? ?]; [lia|]. split; [done|lia].
  - destruct (decide (s' = s)) as [->|]; [destruct success|].
    + destruct (IH 0%nat (Backoff 0 0)) as [? ?]; [done|lia|]. split; [done|lia].
    + destruct (IH (S n) (record_slot now false b)) as [? ?]; [|lia|split; [done|lia]].
      cbn. rewrite Hb. unfold u64. rewrite Z.mod_small; lia.
    + destruct (IH n b Hb) as [? ?]; [lia|]. split; [done|lia].
  - destruct (IH n (if decide (s' = s) then hold_slot u b else b)) as [? ?]; [|lia|split; [done|lia]].
    case_decide; [|done]. unfold hold_slot. by case_match.
Qed.

(** Without an outcome in between, a slot's hold only grows, and covers every
    Retry-After. *)
Lemma hold_grows s tr b :
  (forall now success, Recorded now s success ∉ tr) ->
  b_next_eligible b <= b_next_eligible (fold_left (slot_step s) tr b)
  /\ forall u, HeldUntil s u ∈ tr -> u <= b_next_eligible (fold_left (slot_step s) tr b).
Proof.
  revert b. induction tr as [|e tr IH]; intros b Hno; cbn [fold_left].
  { split; [done|]. intros u Hin. by apply not_elem_of_nil in Hin. }
  assert (Hno' : forall now success, Recorded now s success ∉ tr) by (intros now success Hin; apply (Hno now success); by right).
  destruct (IH (slot_step s b e) Hno') as [Hg Hu].
  assert (Hstep : b_next_eligible b <= b_next_eligible (slot_step s b e) /\ forall u, e = HeldUntil s u -> u <= b_next_eligible (slot_step s b e)).
  { destruct e as [now sl o c|now s' success|s' u]; cbn [slot_step]; [done| |].
    - destruct (decide (s' = s)) as [->|]; [exfalso; eapply Hno; by left|done].
    - destruct (decide (s' = s)) as [->|Hne]; [|split; [done|congruence]]. unfold hold_slot.
      split; [case_match; reflect_bools; cbn; lia|]. intros u' [= ->]. case_match; reflect_bools; cbn; lia. }
  split; [lia|]. intros u [<-|Hin]%elem_of_cons; [|by apply Hu]. destruct Hstep as [_ Hst]. specialize (Hst u eq_refl). lia.
Qed.

(** ** Waking up *)

(** The scan finds the soonest of the holds still running. *)
Lemma soonest_hold_spec now l s0 :
  0 <= now -> (s0 = 0 \/ now < s0) ->
  let s := fold_left (soonest_hold now) l s0 in
  (s = 0 \/ now < s) /\ (s0 <> 0 -> s <> 0 /\ s <= s0)
  /\ forall b, b ∈ l -> now < b_next_eligible b -> s <> 0 /\ s <= b_next_eligible b.
Proof.
  intros Hn. revert s0. induction l as [|b l IH]; intros s0 H0; cbn [fold_left].
  { split; [done|]. split; [done|]. intros b Hin. by apply not_elem_of_nil in Hin. }
  assert (H1 : soonest_hold now s0 b = 0 \/ now < soonest_hold now s0 b).
  { unfold soonest_hold. cbv zeta. case_match; reflect_bools; [by right|done]. }
  destruct (IH _ H1) as (Hr & Hle & Hall). set (s := fold_left _ _ _) in *. clearbody s. clear IH.
  assert (Hstep : (s0 <> 0 -> soonest_hold now s0 b <> 0 /\ soonest_hold now s0 b <= s0)
     /\ (now < b_next_eligible b -> soonest_hold now s0 b <> 0 /\ soonest_hold now s0 b <= b_next_eligible b)).
  { unfold soonest_hold. cbv zeta. destruct (Z.ltb_spec now (b_next_eligible b)); cbn [andb].
    - destruct (Z.eqb_spec s0 0); cbn [orb]; [lia|]. destruct (Z.ltb_spec (b_next_eligible b) s0); lia.
    - lia. }
  split; [done|]. split; [intros Hs0; destruct Hstep as [Hs _]; specialize (Hs Hs0); lia|].
  intros b' [->|Hin]%elem_of_cons Hlt; [destruct Hstep as [_ Hs]; specialize (Hs Hlt); lia|by apply Hall].
Qed.

Lemma soonest_of_spec now l s0 t :
  0 <= now -> (s0 = 0 \/ now < s0) -> soonest_of l now s0 = Some t ->
  (s0 <> 0 -> t <> 0 /\ t <= s0) /\ (t = 0 \/ now < t)
  /\ forall s bs b, s ∈ l -> ca_backoff s = Some bs -> b ∈ take (backoff_n s) bs -> now < b_next_eligible b ->
       t <> 0 /\ t <= b_next_eligible b.
Proof.
  intros Hn. revert s0. induction l as [|s l IH]; intros s0 H0; cbn [soonest_of].
  { intros [= <-]. split; [done|]. split; [done|]. intros s bs b Hin. by apply not_elem_of_nil in Hin. }
  destruct (Nat.eqb_spec (backoff_n s) 0) as [E0|E0].
  - intros Ht. destruct (IH s0 H0 Ht) as (H1 & H2 & H3). split; [done|]. split; [done|].
    intros s' bs b [->|Hin]%elem_of_cons Hb Hk; [|by eapply H3]. rewrite E0 in Hk. by apply not_elem_of_nil in Hk.
  - destruct (ca_backoff s) as [bs|] eqn:Eb; [|done]. destruct (_ <? _)%nat; [done|]. intros Ht.
    destruct (soonest_hold_spec now (take (backoff_n s) bs) s0 Hn H0) as (H1 & H2 & H3). set (s1 := fold_left _ _ _) in *. clearbody s1.
    destruct (IH s1 H1 Ht) as (H4 & H5 & H6). split; [intros Hs0; destruct (H2 Hs0) as [Hx Hy]; specialize (H4 Hx); lia|]. split; [done|].
    intros s' bs' b [->|Hin]%elem_of_cons Hb Hk Hlt; [|by eapply H6].
    assert (bs' = bs) as -> by congruence. destruct (H3 b Hk Hlt) as [Hx Hy]. specialize (H4 Hx). lia.
Qed.

(** The scheduler never sleeps through what it waits for: the delay it sets
    is at least a minute and at most twelve hours, and, the minute apart, no
    longer than until the soonest hold of any slot ends, than half the time
    before expiry at which certificates are renewed, and, where idle runtime
    names are evicted, than their time to live. *)
Theorem rearm_wakes_in_time (cf : conf) (l : list ca_state) (now t s : Z) :
  0 <= now ->
  soonest_of l now 0 = Some s -> t = rearm_interval cf now s ->
  60000 <= t <= 43200000
  /\ (forall ca bs b, ca ∈ l -> ca_backoff ca = Some bs -> b ∈ take (backoff_n ca) bs ->
        now < b_next_eligible b < now + 2 ^ 64 / 1000 ->
        t <= Z.max 60000 ((b_next_eligible b - now) * 1000))
  /\ (configured cf = true -> 0 < renew_before (stores cf) < 2 ^ 64 / 1000 -> t <= Z.max 60000 (renew_before (stores cf) * 500))
  /\ (configured cf = true -> requests_zone cf = true -> 0 < runtime_ttl cf < 2 ^ 64 / 1000 -> t <= Z.max 60000 (runtime_ttl cf * 1000)).
Proof.
  intros Hn Hs ->. assert (Hbig : 2 ^ 64 / 1000 = 18446744073709551) by done. rewrite Hbig.
  assert (Hu : forall x, 0 <= x < 18446744073709551 -> u64 (u64 x * 1000) = x * 1000)
    by (intros x Hx; unfold u64; rewrite (Z.mod_small x) by lia; apply Z.mod_small; lia).
  pose proof (rearm_in_range cf now s) as Hr. unfold timer_in_range in Hr.
  assert (Hint : rearm_interval cf now s <= Z.max 60000 (sweep_interval cf)).
  { unfold rearm_interval, NGX_AUTOCERT_SCHED_FLOOR. cbv zeta. repeat case_match; reflect_bools; lia. }
  split; [exact Hr|]. split; [|split].
  - intros ca bs b Hca Hbs Hb Hlt. destruct (soonest_of_spec now l 0 s Hn (or_introl eq_refl) Hs) as (_ & Hs0 & Hall).
    destruct (Hall ca bs b Hca Hbs Hb ltac:(lia)) as [Hne Hle]. destruct Hs0 as [?|Hgt]; [done|].
    unfold rearm_interval, NGX_AUTOCERT_SCHED_FLOOR. cbv zeta. destruct (Z.eqb_spec s 0); [done|]. cbn [negb].
    assert (Eu : u64 (u64 (s - now) * 1000) = (s - now) * 1000) by (apply Hu; lia).
    rewrite Eu. repeat case_match; reflect_bools; lia.
  - intros Hc Hb. etransitivity; [exact Hint|]. enough (sweep_interval cf <= renew_before (stores cf) * 500) by lia.
    unfold sweep_interval. cbv zeta. rewrite Hc. destruct (Z.ltb_spec 0 (renew_before (stores cf))); [|lia]. cbn [andb].
    rewrite (Hu (renew_before (stores cf))) by lia. assert (Eh : renew_before (stores cf) * 1000 / 2 = renew_before (stores cf) * 500).
    { replace (renew_before (stores cf) * 1000) with (renew_before (stores cf) * 500 * 2) by lia. apply Z.div_mul. done. }
    rewrite Eh. repeat case_match; reflect_bools; lia.
  - intros Hc Hz Hb. etransitivity; [exact Hint|]. enough (sweep_interval cf <= runtime_ttl cf * 1000) by lia.
    unfold sweep_interval. cbv zeta. rewrite Hc, Hz. destruct (Z.ltb_spec 0 (runtime_ttl cf)); [|lia]. cbn [andb].
    rewrite (Hu (runtime_ttl cf)) by lia. lazymatch goal with |- (if _ <? ?x then _ else _) <= _ => destruct (Z.ltb_spec (runtime_ttl cf * 1000) x) end; lia.
Qed.

(** ** Any history *)

Section Runs.
Context {H : Type} {R : Registry H} {X509 EVP_PKEY : Type} (cf : conf) (E : env X509 EVP_PKEY).
Abbreviation W := (world H).
Implicit Types (w : W) (m : gmap bytes req).

(** The driver of this process, from the moment it is armed: the registry is as
    an earlier process left it, with nothing pending. *)
Definition life (z : zone H) (d : disk) (t : Z) (es : list (Z * event)) : outcome W unit :=
  (ngx_autocert_driver_arm;; run cf E es) (world0 z d t).

(** The configuration has been completed, and its tables fit in memory. *)
Context (Hcf : cert_key_types cf <> None).
Context (Hfit : Z.of_nat (slots cf) * sizeof_backoff <= NGX_MAX_SIZE_T_VALUE).

Lemma key_types : cert_key_types cf = Some (kts_of cf).
Proof. unfold kts_of. by destruct (cert_key_types cf). Qed.

Lemma fits : Z.of_nat (slots_from cf 0) * sizeof_backoff <= NGX_MAX_SIZE_T_VALUE.
Proof. rewrite slots_from_slots; [done|apply key_types]. Qed.

Lemma life_good z d t es m :
  reg_inv z m -> pending_only None m -> 0 < t ->
  exists w m', life z d t es = Ret tt w /\ good cf E w m'.
Proof.
  intros Hr Hp Ht. assert (Hw : wp (ngx_autocert_driver_arm;; run cf E es) (world0 z d t) (fun _ w => exists m', good cf E w m') (fun _ => False)).
  { wp_step. eapply wp_weaken; [by apply (good_armed cf E z d t m)|]. intros [] w Hg. eapply (wp_history cf E key_types fits), Hg. }
  unfold life, wp in *. destruct ((ngx_autocert_driver_arm;; run cf E es) (world0 z d t)) as [[] w| | |]; try done.
  destruct Hw as [m' Hg]. by exists w, m'.
Qed.

(** C14. The driver keeps going, whatever fails and in whatever order events come:
    no handler faults or runs for ever (an order that fails at once pumps from
    inside the pump that started it, and that nesting is bounded); once armed,
    the scheduler always has an order in flight or its timer set, at one second
    or between a minute and twelve hours; and no entry of the registry is left
    pending except that of the runtime order in flight. *)
Theorem driver_keeps_going (z : zone H) (d : disk) (t : Z) (es : list (Z * event)) (m : gmap bytes req) :
  reg_inv z m -> (forall h r, m !! h = Some r -> r_state r <> NGX_AUTOCERT_REQ_PENDING) -> 0 < t ->
  exists w m',
    life z d t es = Ret tt w /\ reg_inv (registry w) m'
    /\ (quitting w = false -> sched_armed (tmr w) = true ->
          cur_order (fl w) <> None
          \/ exists d, sched_timer (tmr w) = Some d /\ (d = 1000 \/ 60000 <= d <= 43200000))
    /\ (forall h r, m' !! h = Some r -> r_state r = NGX_AUTOCERT_REQ_PENDING ->
          exists o, cur_order (fl w) = Some o /\ o_domain o = h /\ sched_runtime (fl w) = true).
Proof.
  intros Hr Hp Ht. destruct (life_good z d t es m) as (w & m' & Hl & [Hi Hf Hs Hb]); [done| |done|].
  { intros h r Hh Hpe. by destruct (Hp h r Hh). }
  exists w, m'. split; [done|]. split; [apply Hi|]. split; [exact Hs|]. intros h r Hh Hpe. unfold flight_ok in Hf.
  destruct (cur_order (fl w)) as [o|]; [|by specialize (Hf h r Hh Hpe)].
  destruct (sched_runtime (fl w)).
  - destruct Hf as (_ & _ & Hf). specialize (Hf h r Hh Hpe). injection Hf as <-. by exists o.
  - destruct Hf as (Hf & _). by specialize (Hf h r Hh Hpe).
Qed.

(** Accounts are registered one at a time and none is given up: at most one
    registration is in flight, and, while the driver is not leaving, either one
    is, or the retry timer is set, or every CA has its account; and then the
    scheduler is armed as soon as one account is live. *)
Theorem accounts_one_at_a_time (z : zone H) (d : disk) (t : Z) (es : list (Z * event)) (m : gmap bytes req) :
  reg_inv z m -> (forall h r, m !! h = Some r -> r_state r <> NGX_AUTOCERT_REQ_PENDING) -> 0 < t ->
  exists w,
    life z d t es = Ret tt w
    /\ (forall i j s s', cas w !! i = Some s -> cas w !! j = Some s' -> flying s = true -> flying s' = true -> i = j)
    /\ (quitting w = false -> configured cf = true -> ca_list cf <> [] -> kick_armed (tmr w) = true ->
          (exists i s, cas w !! i = Some s /\ flying s = true)
          \/ (kick_timer (tmr w) <> None
              \/ ca_names <$> cas w = ca_list cf /\ Forall (fun s => account_live s = true /\ account s = true) (cas w))
             /\ (Exists (fun s => account_live s = true) (cas w) -> sched_armed (tmr w) = true)).
Proof.
  intros Hr Hp Ht. destruct (life_good z d t es m) as (w & m' & Hl & [Hi Hf Hs Hb]); [done| |done|].
  { intros h r Hh Hpe. by destruct (Hp h r Hh). }
  exists w. split; [done|]. split; [apply Hb|]. intros H1 H2 H3 H4.
  destruct (bo_goes _ _ Hb H1 H2 H3 H4) as [?|[Hk Hx]]; [by left|right; split; [|done]].
  destruct Hk as [?|[Hne Hall]]; [by left|right]. split; [by destruct (inv_built _ _ _ _ Hi)|].
  apply Forall_lookup. intros i s Hs1. pose proof (proj1 (Forall_lookup _ _) Hall i s Hs1) as Hlive. split; [exact Hlive|by eapply bo_live].
Qed.

(** C16. Every order that is ever launched was allowed.  For a configured name: its
    slot was out of its hold and its certificate had just been found due.  For a
    runtime host: its name is normalized and no configured name covers it, the
    global cap on new orders and the cap on its own failures were not reached,
    and dns-01 is not used. *)
Theorem launches_allowed (z : zone H) (d : disk) (t : Z) (es : list (Z * event)) (m : gmap bytes req) (w : W)
    (pre post : list entry) (now : Z) (slot : option (nat * nat)) (o : order) (c : rt_state) :
  reg_inv z m -> (forall h r, m !! h = Some r -> r_state r <> NGX_AUTOCERT_REQ_PENDING) -> 0 < t ->
  life z d t es = Ret tt w -> trace w = pre ++ Launched now slot o c :: post ->
  launch_ok cf E pre now slot o c.
Proof.
  intros Hr Hp Ht Hl Htr. destruct (life_good z d t es m) as (w' & m' & Hl' & [Hi _ _ _]); [done| |done|].
  { intros h r Hh Hpe. by destruct (Hp h r Hh). }
  assert (w' = w) as -> by congruence. by apply (inv_lawful _ _ _ _ Hi _ _ _ Htr).
Qed.

(** C15. Failures back off and Retry-After is honoured: after the [k]-th failure in
    a row of a slot no order is launched for it until [60 * 2^(k-1)] seconds, at
    most an hour, have passed, nor before any Retry-After received since. *)
Theorem backoff_respected (z : zone H) (d : disk) (t : Z) (es : list (Z * event)) (m : gmap bytes req) (w : W)
    (pre mid post : list entry) (s : nat * nat) (t0 now : Z) (o : order) (c : rt_state) :
  reg_inv z m -> (forall h r, m !! h = Some r -> r_state r <> NGX_AUTOCERT_REQ_PENDING) -> 0 < t ->
  life z d t es = Ret tt w ->
  trace w = pre ++ Recorded t0 s false :: mid ++ Launched now (Some s) o c :: post ->
  (forall t1 success, Recorded t1 s success ∉ mid) -> Z.of_nat (length (trace w)) < 2 ^ 64 ->
  t0 + Z.min 3600 (60 * 2 ^ Z.of_nat (streak pre s)) <= now
  /\ forall u, HeldUntil s u ∈ mid -> u <= now.
Proof.
  intros Hr Hp Ht Hl Htr Hno Hlen. destruct (life_good z d t es m) as (w' & m' & Hl' & [Hi _ _ _]); [done| |done|].
  { intros h r Hh Hpe. by destruct (Hp h r Hh). }
  assert (w' = w) as -> by congruence.
  pose proof (inv_lawful _ _ _ _ Hi (pre ++ Recorded t0 s false :: mid) (Launched now (Some s) o c) post) as Hok.
  rewrite <- app_assoc in Hok. specialize (Hok Htr). cbn [entry_ok launch_ok] in Hok. destruct Hok as [Hel _].
  unfold slot_of in Hel. rewrite fold_left_app in Hel. cbn [fold_left slot_step] in Hel. rewrite decide_True in Hel by done.
  set (b0 := fold_left (slot_step s) pre _) in Hel.
  assert (Hlp : Z.of_nat (S (length pre)) < 2 ^ 64) by (rewrite Htr, length_app in Hlen; cbn [length] in Hlen; lia).
  destruct (streak_fails 0 pre s (Backoff 0 0)) as [Hb Hle]; [done|lia|]. fold b0 in Hb. fold (streak pre s) in Hb, Hle.
  destruct (hold_grows s mid (record_slot t0 false b0) Hno) as [Hg Hu]. split; [|intros u Hin; specialize (Hu u Hin); lia].
  unfold record_slot in Hg at 1. cbn [b_next_eligible] in Hg. rewrite Hb in Hg.
  assert (Eu : u64 (Z.of_nat (streak pre s) + 1) = Z.of_nat (streak pre s) + 1) by (apply Z.mod_small; lia).
  rewrite Eu, backoff_delay_closed in Hg by lia. rewrite Z.add_simpl_r in Hg. lia.
Qed.
(** A tick covers everything: when the sweep it starts ends without an order in
    flight, then for every configured name and key type either its CA has no
    account, or memory ran out during the sweep, or its slot is in its hold, or
    its certificate was looked at during the sweep and found not to be due. *)
Theorem tick_sweeps_all (z : zone H) (d : disk) (t : Z) (es : list (Z * event)) (m : gmap bytes req) (w : W) (t1 : Z) :
  reg_inv z m -> (forall h r, m !! h = Some r -> r_state r <> NGX_AUTOCERT_REQ_PENDING) -> 0 < t ->
  life z d t es = Ret tt w ->
  sched_timer (tmr w) <> None -> cur_order (fl w) = None -> quitting w = false ->
  configured cf = true -> challenge_zone cf = true ->
  exists w', step cf E t1 ESchedTimer w = Ret tt w'
  /\ (cur_order (fl w') = None ->
      forall ca i k, (ca < length (cas w))%nat -> (i < nlen cf ca)%nat -> (k < nkt cf)%nat ->
        settled cf E (calls w) w' ca i k).
Proof.
  intros Hr Hp Ht Hl Htm Ho Hq Hc Hz. destruct (life_good z d t es m) as (w1 & m' & Hl' & Hg); [done| |done|].
  { intros h r Hh Hpe. by destruct (Hp h r Hh). }
  assert (w1 = w) as -> by congruence. clear Hl'. set (w0 := set_clock (Z.max (clock w) t1) w).
  pose proof (good_clock cf E w m' t1 Hg) as Hg0. fold w0 in Hg0.
  assert (Hw : wp (step cf E t1 ESchedTimer) w
    (fun _ w' => pumped cf E (calls w) (Cursor 0 0 0) (timer_fired w0) w') (fun _ => False)).
  { unfold step. wp_step. apply wp_update_world. fold w0. unfold handle. wp_step. apply wp_read_world. cbn [id].
    change (sched_timer (tmr w0)) with (sched_timer (tmr w)). destruct (sched_timer (tmr w)); [|done]. wp_step. apply wp_update_world.
    by apply (wp_tick cf E key_types fits w0 m'). }
  unfold wp in Hw. destruct (step cf E t1 ESchedTimer w) as [[] w'| | |]; try done. exists w'. split; [done|].
  intros Ho' ca i k Hca Hi Hk. destruct Hw as (m2 & _ & _ & Hla & Hst). unfold stopped in Hst. rewrite Ho' in Hst.
  destruct Hst as [_ Hst]. destruct (Hst Hc Hz) as [Hsw Hend].
  pose proof (frame_length _ _ (proj1 Hla)) as El. change (length (cas (timer_fired w0))) with (length (cas w)) in El.
  destruct (Hsw ca i k) as [Hv|]; [lia|done|done|left; lia| |done].
  unfold visited in Hv. cbn [sched_ca sched_index sched_kt] in Hv. lia.
Qed.

(** Nothing is lost when the process leaves: the timers are off, no order or
    account is left, and the registry passes on every entry as it was, except
    that the host of a runtime order that was in flight is requested again and
    can be claimed at once. *)
Theorem exit_releases (z : zone H) (d : disk) (t : Z) (es : list (Z * event)) (m : gmap bytes req) (w : W) (t1 : Z) :
  reg_inv z m -> (forall h r, m !! h = Some r -> r_state r <> NGX_AUTOCERT_REQ_PENDING) -> 0 < t ->
  life z d t es = Ret tt w -> quitting w = true ->
  exists w' m1 m2, step cf E t1 EExit w = Ret tt w'
  /\ cur_order (fl w') = None /\ cas w' = [] /\ sched_timer (tmr w') = None /\ kick_timer (tmr w') = None
  /\ reg_inv (registry w) m1 /\ reg_inv (registry w') m2
  /\ (forall h r, m2 !! h = Some r -> r_state r <> NGX_AUTOCERT_REQ_PENDING)
  /\ forall h r, m1 !! h = Some r -> exists r', m2 !! h = Some r'
       /\ (r' = r
           \/ claimable (clock w') r' = true
              /\ exists o, cur_order (fl w) = Some o /\ o_domain o = h /\ sched_runtime (fl w) = true).
Proof.
  intros Hr Hp Ht Hl Hq. destruct (life_good z d t es m) as (w1 & m1 & Hl' & Hg); [done| |done|].
  { intros h r Hh Hpe. by destruct (Hp h r Hh). }
  assert (w1 = w) as -> by congruence. clear Hl'. set (w0 := set_clock (Z.max (clock w) t1) w).
  pose proof (good_clock cf E w m1 t1 Hg) as Hg0. fold w0 in Hg0.
  pose proof (wp_exit cf E w0 m1 Hg0 Hq) as Hw. unfold wp in Hw.
  assert (Es : step cf E t1 EExit w = ngx_autocert_driver_exit_process cf w0).
  { unfold step, bind, update. fold w0. unfold handle, bind, read. cbn [id]. change (quitting w0) with (quitting w). by rewrite Hq. }
  rewrite <- Es in Hw. destruct (step cf E t1 EExit w) as [[] w'| | |]; try done.
  destruct Hw as (m2 & Hg' & Hrel & Ho & Hc & Hst & Hk & Hpe). exists w', m1, m2. split; [done|]. split; [done|]. split; [done|].
  split; [done|]. split; [done|]. split; [apply Hg|]. split; [apply Hg'|]. split; [intros h r Hh Hp'; by specialize (Hpe h r Hh Hp')|].
  intros h r Hh. unfold released in Hrel. change (fl w0) with (fl w) in Hrel.
  assert (Hsame : m2 = m1 -> exists r', m2 !! h = Some r' /\ (r' = r
           \/ claimable (clock w') r' = true
              /\ exists o, cur_order (fl w) = Some o /\ o_domain o = h /\ sched_runtime (fl w) = true)).
  { intros ->. exists r. auto. }
  destruct (cur_order (fl w)) as [o|] eqn:Eo; [|by apply Hsame]. destruct (sched_runtime (fl w)) eqn:Er; [|by apply Hsame].
  destruct (m1 !! o_domain o) as [q|] eqn:Em; [|by apply Hsame]. destruct Hrel as (r' & Hr' & ->).
  destruct (decide (o_domain o = h)) as [<-|Hne].
  - exists r'. rewrite lookup_insert_eq. split; [done|]. right. split; [|by exists o].
    unfold set_state_fields in Hr'. injection Hr' as <-. done.
  - exists r. rewrite lookup_insert_ne by done. auto.
Qed.
End Runs.

(** ** Witnesses *)

#[local] Existing Instance plain_trees.
#[local] Instance plain_registry : Registry requests_sh := requests_registry (fun _ => 0) no_oom 0.

(** A zone just created by its owner. *)
Definition zone_ex : zone requests_sh :=
  match ngx_autocert_requests_init_zone no_oom 0 fresh_requests with Ret _ z => z | _ => fresh_requests end.

Lemma zone_ex_inv : reg_inv zone_ex ∅.
Proof.
  pose proof (wp_req_init (fun _ => 0) no_oom 0) as Hw. unfold zone_ex, wp in *.
  destruct (ngx_autocert_requests_init_zone no_oom 0 fresh_requests); try done.
  destruct Hw as [[_ Hi]|[_ [n Hn]]]; done.
Qed.

Lemma none_pending h r : (∅ : gmap bytes req) !! h = Some r -> r_state r <> NGX_AUTOCERT_REQ_PENDING.
Proof. by rewrite lookup_empty. Qed.

(** Two CAs with a name each, certificates missing, and every order and
    registration in flight, but for those of the calls in [inline]. *)
Definition conf_ex (names : list (option (list bytes))) : conf :=
  Conf true names true true NGX_AUTOCERT_CHALLENGE_HTTP_01 (Some [0]) store_ex 3600.
Definition env_ex (files : list bytes) (inline : list nat) : env unit unit :=
  Env (fun _ => true) (fun n => if bool_decide (n ∈ inline) then FailedInline else InFlight)
    (fun _ => disk_ex files) (fun _ => Syscalls false false false false 9 false)
    (fun _ _ => false) (fun _ _ => false) ex_inet_addr ex_inet6_addr.
Definition two : conf := conf_ex [Some [str "a.example"]; Some [str "b.example"]].

(** Both accounts registered, a first order that fails, and its retry. *)
Definition history_ex : list (Z * event) :=
  [(100, EKickTimer); (101, EAccountDone 0 NGX_OK); (102, EAccountDone 1 NGX_OK); (103, ESchedTimer);
   (110, EOrderDone NGX_ERROR 0); (120, EOrderDone NGX_OK 0); (180, ESchedTimer)].

Definition life_ex (inline : list nat) (es : list (Z * event)) : outcome (world requests_sh) unit :=
  life two (env_ex [] inline) zone_ex ∅ 100 es.

Definition after (o : outcome (world requests_sh) unit) : world requests_sh :=
  match o with Ret _ w => w | _ => world0 zone_ex ∅ 100 end.

Lemma two_fits : Z.of_nat (slots two) * sizeof_backoff <= NGX_MAX_SIZE_T_VALUE.
Proof. apply Z.leb_le. vm_compute. reflexivity. Qed.

(** A sleep of a minute for a slot held for ten seconds. *)
Lemma rearm_wakes_in_time_witness :
  let l := [CaState (Some [str "a.example"]) true true true (Some [Backoff 1010 1]) 1 1] in
  60000 <= 60000 <= 43200000.
Proof.
  apply (rearm_wakes_in_time two [CaState (Some [str "a.example"]) true true true (Some [Backoff 1010 1]) 1 1] 1000 60000 1010);
    [lia|vm_compute; reflexivity|vm_compute; reflexivity].
Defined.

Lemma driver_keeps_going_witness :
  exists w m', life_ex [12%nat] history_ex = Ret tt w /\ reg_inv (registry w) m'.
Proof.
  destruct (driver_keeps_going two (env_ex [] [12%nat]) ltac:(discriminate) two_fits zone_ex ∅ 100 history_ex ∅ zone_ex_inv none_pending eq_refl)
    as (w & m' & Hl & Hr & _). exists w, m'. split; [exact Hl|exact Hr].
Defined.

Lemma accounts_one_at_a_time_witness :
  exists w, life_ex [] (take 1 history_ex) = Ret tt w
    /\ forall i j s s', cas w !! i = Some s -> cas w !! j = Some s' -> flying s = true -> flying s' = true -> i = j.
Proof.
  destruct (accounts_one_at_a_time two (env_ex [] []) ltac:(discriminate) two_fits zone_ex ∅ 100 (take 1 history_ex) ∅ zone_ex_inv none_pending eq_refl)
    as (w & Hl & H & _). exists w. split; [exact Hl|exact H].
Defined.

Definition order_ex (ca : nat) (name : bytes) : order := Order ca name 0 NGX_AUTOCERT_CHALLENGE_HTTP_01 false.

Lemma launches_allowed_witness :
  launch_ok two (env_ex [] []) [] 103 (Some (0, 0)%nat) (order_ex 0 (str "a.example")) rt_state0.
Proof.
  eapply (launches_allowed two (env_ex [] []) ltac:(discriminate) two_fits zone_ex ∅ 100 history_ex ∅ (after (life_ex [] history_ex))
            [] _ 103 (Some (0, 0)%nat) (order_ex 0 (str "a.example")) rt_state0 zone_ex_inv none_pending eq_refl).
  - vm_compute. reflexivity.
  - vm_compute. reflexivity.
Defined.

(** A minute after the first failure. *)
Lemma backoff_respected_witness : 110 + Z.min 3600 (60 * 2 ^ 0) <= 180.
Proof.
  edestruct (backoff_respected two (env_ex [] []) ltac:(discriminate) two_fits zone_ex ∅ 100 history_ex ∅ (after (life_ex [] history_ex))
            [Launched 103 (Some (0, 0)%nat) (order_ex 0 (str "a.example")) rt_state0]
            [Launched 110 (Some (1, 0)%nat) (order_ex 1 (str "b.example")) rt_state0; Recorded 120 (1, 0)%nat true]
            [] (0, 0)%nat 110 180 (order_ex 0 (str "a.example")) rt_state0 zone_ex_inv none_pending eq_refl) as [Hle _].
  - vm_compute. reflexivity.
  - vm_compute. reflexivity.
  - intros t1 success Hin. repeat (apply elem_of_cons in Hin as [Hin|Hin]; [discriminate Hin|]). by apply not_elem_of_nil in Hin.
  - vm_compute. reflexivity.
  - exact Hle.
Defined.

(** Both certificates on disk, valid until 2026. *)
Definition files_ex : list bytes :=
  [str "/store/a.example/fullchain.pem"; str "/store/a.example/privkey.pem";
   str "/store/b.example/fullchain.pem"; str "/store/b.example/privkey.pem"].

Definition before_tick : world requests_sh := after (life two (env_ex files_ex []) zone_ex ∅ 100 (take 3 history_ex)).

Lemma tick_sweeps_all_witness :
  exists w', step two (env_ex files_ex []) 103 ESchedTimer before_tick = Ret tt w'
    /\ cur_order (fl w') = None /\ settled two (env_ex files_ex []) (calls before_tick) w' 1 0 0.
Proof.
  destruct (tick_sweeps_all two (env_ex files_ex []) ltac:(discriminate) two_fits zone_ex ∅ 100 (take 3 history_ex) ∅ before_tick 103
              zone_ex_inv none_pending eq_refl) as (w' & Hw & Hall).
  - vm_compute. reflexivity.
  - vm_compute. discriminate.
  - vm_compute. reflexivity.
  - vm_compute. reflexivity.
  - reflexivity.
  - reflexivity.
  - assert (Ho : cur_order (fl w') = None).
    { assert (Hc : cur_order (fl (after (step two (env_ex files_ex []) 103 ESchedTimer before_tick))) = None) by (vm_compute; reflexivity).
      rewrite Hw in Hc. exact Hc. }
    exists w'. split; [exact Hw|]. split; [exact Ho|]. apply (Hall Ho); apply Nat.ltb_lt; vm_compute; reflexivity.
Defined.

(** A runtime name of a configuration without names: ordered, failed with a
    Retry-After, and ordered again. *)
Definition runtime : conf := conf_ex [None].
Definition runtime_history : list (Z * event) :=
  [(100, EKickTimer); (101, EAccountDone 0 NGX_OK); (102, EEnsure (str "www.example")); (103, ESchedTimer);
   (110, EOrderDone NGX_ERROR 7000); (3710, ESchedTimer); (7000, ESchedTimer)].

Lemma runtime_fits : Z.of_nat (slots runtime) * sizeof_backoff <= NGX_MAX_SIZE_T_VALUE.
Proof. apply Z.leb_le. vm_compute. reflexivity. Qed.

Lemma exit_releases_witness :
  let w := after (life runtime (env_ex [] []) zone_ex ∅ 100 (take 4 runtime_history ++ [(104, EQuit)])) in
  exists w', step runtime (env_ex [] []) 105 EExit w = Ret tt w' /\ cur_order (fl w) <> None /\ cur_order (fl w') = None.
Proof.
  cbv zeta.
  destruct (exit_releases runtime (env_ex [] []) ltac:(discriminate) runtime_fits zone_ex ∅ 100 (take 4 runtime_history ++ [(104, EQuit)]) ∅
              (after (life runtime (env_ex [] []) zone_ex ∅ 100 (take 4 runtime_history ++ [(104, EQuit)]))) 105
              zone_ex_inv none_pending eq_refl) as (w' & m1 & m2 & Hw & Ho & _).
  - vm_compute. reflexivity.
  - vm_compute. reflexivity.
  - exists w'. split; [exact Hw|]. split; [|exact Ho]. vm_compute. discriminate.
Defined.

(** ** What the driver does not rule out *)

(** Two ACME flows at once: the retry of one CA's registration while an order is
    in flight for another. *)
Example two_flows_at_once :
  let w := after (life_ex [12%nat] [(100, EKickTimer); (101, EAccountDone 0 NGX_OK); (102, ESchedTimer); (131, EKickTimer)]) in
  (if cur_order (fl w) then true else false) = true /\ existsb flying (cas w) = true.
Proof. split; vm_compute; reflexivity. Qed.

(** The pump that orders an idle runtime name evicts its entry: the name had been
    held for longer than the time to live, and its order's outcome will find no
    entry to go to. *)
Example order_in_flight_evicted :
  let w := after (life runtime (env_ex [] []) zone_ex ∅ 100 runtime_history) in
  option_map o_domain (cur_order (fl w)) = Some (str "www.example") /\ sched_runtime (fl w) = true
  /\ option_map (fun x => count x.2) (z_data (registry w)) = Some 0.
Proof. repeat split; vm_compute; reflexivity. Qed.
