(* ===== verification/Tree.v ===== *)
(** * The certificate store's file system

    The store container, as the calls relative to its descriptor see and change
    it (ngx_autocert_shared.h wraps them), and what a crash can leave of it.  The
    container is a map from names to directories and other entries; a directory is a
    number with entries of its own, which a descriptor keeps hold of and a rename
    takes along; a file is an inode that several entries may share.  Any call may
    fail, and the machine may stop before any of them.

    Durability.  fsync of a directory is about the entries of that directory alone:
    those it has are the ones it comes back with.  Of a directory that was changed
    since, a crash may leave any of its versions since then, whatever it leaves of
    the others ([old_trees] for the container, [old_dirs] for those in it), and that
    is all POSIX promises.  A journaling file system keeps the changes of all its
    directories in order ([ordered]): it leaves a state they were in together at one
    time ([past]), and fsync of a directory rules out the times before that directory
    was last changed.  The bytes and mode of a file survive only if it was
    synchronized since they were last changed ([f_synced]).  All this is of what is in
    the container; whether the container comes back itself depends on the directory it
    is in, which the writer does not synchronize, not even when it has just made
    "live" there (order.c:3190-3211).  An inode keeps its
    number and its bytes for as long as a directory may come back that refers to it,
    so they are never dropped here. *)

From S2P Require Import Prelude NgxCore Expiry Marker.

Local Open Scope Z_scope.
Local Open Scope prog_scope.

Definition EINTR : Z := 4.
Definition EEXIST : Z := 17.
Definition EISDIR : Z := 21.
Definition EINVAL : Z := 22.
Definition ENOTTY : Z := 25.
Definition ENOSYS : Z := 38.
Definition ENOTEMPTY : Z := 39.
Definition EOPNOTSUPP : Z := 95.

(** An entry of a directory inside the container. *)
Inductive dirent := LFile (ino : nat) | LDir | LSym | LSpecial.

#[export] Instance dirent_eq_dec : EqDecision dirent.
Proof. solve_decision. Defined.

Record file := File { f_data : bytes; f_mode : Z; f_links : Z; f_synced : bool }.

(** An entry of the container.  A directory is named by its number. *)
Inductive node :=
  | NDir (id : nat) (mode : Z)
  | NFile (ino : nat)
  | NSym
  | NSpecial.

#[export] Instance node_eq_dec : EqDecision node.
Proof. solve_decision. Defined.

Abbreviation tree_t := (gmap bytes node).
Abbreviation entries_t := (gmap bytes dirent).
Abbreviation dirs_t := (gmap nat entries_t).

Record fs := Fs {
  tree : tree_t;
  dirs : dirs_t;
  past : list (tree_t * dirs_t);
  old_trees : list tree_t;
  old_dirs : gmap nat (list entries_t);
  inodes : gmap nat file;
  next : nat;
  sys_calls : nat }.

(** A descriptor of a directory: the container, or one of those in it. *)
Inductive dirfd := Container | Within (id : nat).

Definition entries_in (d : dirs_t) (id : nat) : entries_t := default ∅ (d !! id).
Definition olds (s : fs) (id : nat) : list entries_t := default [] (old_dirs s !! id).

(** What the kernel decides: the call before which the machine stops, the calls
    that fail on their own and how, how much a write takes, and the error of opening
    a symbolic link that must not be followed. *)
Record kernel := Kernel {
  stops : nat -> bool;
  denied : nat -> option Z;
  taken : nat -> Z;
  nofollow : Z;
  umask : Z;
  windows : bool;
  ordered : bool }.

(** Errors that say what is there, and so are not given at will. *)
Definition telling (e : Z) : Prop := e = ENOENT \/ e = ENOTDIR \/ e = EEXIST \/ e = ELOOP.

(** Documented behaviour of the calls. *)
Record sane (K : kernel) : Prop := {
  sane_denied : forall n e, denied K n = Some e -> e <> 0 /\ ~ telling e;
  sane_nofollow : nofollow K = ELOOP \/ nofollow K = ENOTDIR }.

(** A change of the container, and of one of its directories. *)
Definition set_tree (t : tree_t) (s : fs) : fs :=
  Fs t (dirs s) ((tree s, dirs s) :: past s) (tree s :: old_trees s) (old_dirs s) (inodes s) (next s) (sys_calls s).
Definition set_dir (id : nat) (es : entries_t) (s : fs) : fs :=
  Fs (tree s) (<[id := es]> (dirs s)) ((tree s, dirs s) :: past s) (old_trees s)
     (<[id := entries_in (dirs s) id :: olds s id]> (old_dirs s)) (inodes s) (next s) (sys_calls s).

(** A directory that is made, empty, and one that is removed, which is. *)
Definition add_dir (id : nat) (s : fs) : fs :=
  Fs (tree s) (<[id := ∅]> (dirs s)) (past s) (old_trees s) (<[id := []]> (old_dirs s)) (inodes s) (next s) (sys_calls s).
Definition drop_dir (id : nat) (s : fs) : fs :=
  Fs (tree s) (delete id (dirs s)) (past s) (old_trees s) (old_dirs s) (inodes s) (next s) (sys_calls s).

Definition set_inodes (m : gmap nat file) (s : fs) : fs :=
  Fs (tree s) (dirs s) (past s) (old_trees s) (old_dirs s) m (next s) (sys_calls s).
Definition set_next (n : nat) (s : fs) : fs :=
  Fs (tree s) (dirs s) (past s) (old_trees s) (old_dirs s) (inodes s) n (sys_calls s).
Definition tick (s : fs) : fs :=
  Fs (tree s) (dirs s) (past s) (old_trees s) (old_dirs s) (inodes s) (next s) (S (sys_calls s)).

(** The latest part of a history in which something stayed as it is. *)
Fixpoint since (same : tree_t * dirs_t -> bool) (l : list (tree_t * dirs_t)) : list (tree_t * dirs_t) :=
  match l with
  | [] => []
  | h :: l' => if same h then h :: since same l' else []
  end.

(** What fsync of a directory makes of what may come back. *)
Definition settle (d : dirfd) (s : fs) : fs :=
  match d with
  | Container =>
      Fs (tree s) (dirs s) (since (fun h => bool_decide (h.1 = tree s)) (past s)) [] (old_dirs s)
         (inodes s) (next s) (sys_calls s)
  | Within id =>
      Fs (tree s) (dirs s) (since (fun h => bool_decide (entries_in h.2 id = entries_in (dirs s) id)) (past s)) (old_trees s)
         (<[id := []]> (old_dirs s)) (inodes s) (next s) (sys_calls s)
  end.

Definition add_links (n : Z) (f : file) : file := File (f_data f) (f_mode f) (f_links f + n) (f_synced f).
Definition set_data (d : bytes) (f : file) : file := File d (f_mode f) (f_links f) false.
Definition set_mode (m : Z) (f : file) : file := File (f_data f) m (f_links f) false.
Definition set_synced (f : file) : file := File (f_data f) (f_mode f) (f_links f) true.

Section Calls.
Context (K : kernel).
Abbreviation P A := (prog fs A).

(** A crash may leave the container [t] with the entries [d] in its directories. *)
Definition may_return (s : fs) (t : tree_t) (d : nat -> entries_t) : Prop :=
  if ordered K then exists h, h ∈ (tree s, dirs s) :: past s /\ t = h.1 /\ forall id, d id = entries_in h.2 id
  else t ∈ tree s :: old_trees s /\ forall id, d id ∈ entries_in (dirs s) id :: olds s id.

(** A call: the machine stops (and the run ends there), or the call fails with an
    error, or it does what it does.  [inr e]: -1 with errno [e]. *)
Definition syscall {A} (f : fs -> (A + Z) * fs) : P (A + Z) := fun s =>
  if stops K (sys_calls s) then Err s
  else
    match denied K (sys_calls s) with
    | Some e => Ret (inr e) (tick s)
    | None => let '(r, s') := f (tick s) in Ret r s'
    end.

(** openat(cfd, name, O_RDONLY | O_DIRECTORY | O_NOFOLLOW | O_CLOEXEC) *)
Definition sys_open_dir (name : bytes) : P (nat + Z) :=
  syscall (fun s =>
    (match tree s !! name with
     | Some (NDir id _) => inl id
     | None => inr ENOENT
     | Some NSym => inr (nofollow K)
     | Some _ => inr ENOTDIR
     end, s)).

(** mkdirat(cfd, name, mode) *)
Definition sys_mkdir (name : bytes) (mode : Z) : P (unit + Z) :=
  syscall (fun s =>
    match tree s !! name with
    | Some _ => (inr EEXIST, s)
    | None =>
        (inl tt, set_next (S (next s)) (add_dir (next s) (set_tree (<[name := NDir (next s) (Z.land mode (Z.lnot (umask K)))]> (tree s)) s)))
    end).

(** unlinkat(cfd, name, 0) *)
Definition sys_unlink (name : bytes) : P (unit + Z) :=
  syscall (fun s =>
    match tree s !! name with
    | None => (inr ENOENT, s)
    | Some (NDir _ _) => (inr EISDIR, s)
    | Some (NFile i) => (inl tt, set_inodes (alter (add_links (-1)) i (inodes s)) (set_tree (delete name (tree s)) s))
    | Some _ => (inl tt, set_tree (delete name (tree s)) s)
    end).

(** unlinkat(cfd, name, AT_REMOVEDIR) *)
Definition sys_rmdir (name : bytes) : P (unit + Z) :=
  syscall (fun s =>
    match tree s !! name with
    | None => (inr ENOENT, s)
    | Some (NDir id _) =>
        if decide (entries_in (dirs s) id = ∅) then (inl tt, drop_dir id (set_tree (delete name (tree s)) s)) else (inr ENOTEMPTY, s)
    | Some _ => (inr ENOTDIR, s)
    end).

(** fstatat(cfd, name, AT_SYMLINK_NOFOLLOW): whether it is a directory. *)
Definition sys_lstat (name : bytes) : P (bool + Z) :=
  syscall (fun s =>
    (match tree s !! name with
     | None => inr ENOENT
     | Some (NDir _ _) => inl true
     | Some _ => inl false
     end, s)).

(** ** Calls relative to a directory of the container that is open

    It is a [Fault] to use the descriptor of a directory that is gone. *)

Definition in_dir {A} (id : nat) (f : entries_t -> fs -> (A + Z) * (entries_t * fs)) : P (A + Z) := fun s =>
  match dirs s !! id with
  | None => Fault
  | Some es =>
      syscall (fun s =>
        let '(r, (es', s')) := f es s in
        (r, if decide (es' = es) then s' else set_dir id es' s')) s
  end.

(** unlinkat(dfd, leaf, 0) *)
Definition sys_unlink_in (d : nat) (leaf : bytes) : P (unit + Z) :=
  in_dir d (fun es s =>
    match es !! leaf with
    | None => (inr ENOENT, (es, s))
    | Some LDir => (inr EISDIR, (es, s))
    | Some (LFile i) => (inl tt, (delete leaf es, set_inodes (alter (add_links (-1)) i (inodes s)) s))
    | Some _ => (inl tt, (delete leaf es, s))
    end).

(** fstatat(dfd, leaf, AT_SYMLINK_NOFOLLOW): whether it is a regular file. *)
Definition sys_lstat_in (d : nat) (leaf : bytes) : P (bool + Z) :=
  in_dir d (fun es s =>
    (match es !! leaf with
     | None => inr ENOENT
     | Some (LFile _) => inl true
     | Some _ => inl false
     end, (es, s))).

(** linkat(lfd, leaf, sfd, leaf, 0) *)
Definition sys_link (from to : nat) (leaf : bytes) : P (unit + Z) := fun s =>
  match dirs s !! from with
  | None => Fault
  | Some src =>
      in_dir to (fun es s =>
        match src !! leaf with
        | None => (inr ENOENT, (es, s))
        | Some LDir => (inr 1, (es, s))
        | Some e =>
            match es !! leaf with
            | Some _ => (inr EEXIST, (es, s))
            | None =>
                (inl tt, (<[leaf := e]> es,
                          match e with LFile i => set_inodes (alter (add_links 1) i (inodes s)) s | _ => s end))
            end
        end) s
  end.

(** openat(dfd, leaf, O_WRONLY | O_CREAT | O_NOFOLLOW | O_CLOEXEC, mode): the
    inode opened, [None] for a file that is not regular. *)
Definition sys_create (d : nat) (leaf : bytes) (mode : Z) : P (option nat + Z) :=
  in_dir d (fun es s =>
    match es !! leaf with
    | None =>
        (inl (Some (next s)),
         (<[leaf := LFile (next s)]> es,
          set_next (S (next s)) (set_inodes (<[next s := File [] (Z.land mode (Z.lnot (umask K))) 1 false]> (inodes s)) s)))
    | Some (LFile i) => (inl (Some i), (es, s))
    | Some LDir => (inr EISDIR, (es, s))
    | Some LSym => (inr (nofollow K), (es, s))
    | Some LSpecial => (inl None, (es, s))
    end).

(** ** Calls on an open file *)

Definition on_file {A} (i : nat) (f : file -> (A + Z) * file) : P (A + Z) := fun s =>
  match inodes s !! i with
  | None => Fault
  | Some x => syscall (fun s => let '(r, x') := f x in (r, set_inodes (<[i := x']> (inodes s)) s)) s
  end.

Definition sys_nlink (i : nat) : P (Z + Z) := on_file i (fun x => (inl (f_links x), x)).
Definition sys_truncate (i : nat) : P (unit + Z) := on_file i (fun x => (inl tt, set_data [] x)).
Definition sys_chmod (i : nat) (mode : Z) : P (unit + Z) := on_file i (fun x => (inl tt, set_mode mode x)).
Definition sys_fsync (i : nat) : P (unit + Z) := on_file i (fun x => (inl tt, set_synced x)).

(** write(fd, data, len): at the end of the file, as many bytes as it takes. *)
Definition sys_write (i : nat) (data : bytes) : P (Z + Z) := fun s =>
  let n := Z.max 0 (Z.min (taken K (sys_calls s)) (Z.of_nat (length data))) in
  on_file i (fun x => (inl n, set_data (f_data x ++ take (Z.to_nat n) data) x)) s.

(** ** Durability and renames *)

(** fsync(fd) of a directory.  On Windows there is no such call, and it does nothing. *)
Definition sys_fsync_dir (d : dirfd) : P (unit + Z) := syscall (fun s => (inl tt, if windows K then s else settle d s)).

(** A call that only opens, looks at or closes a descriptor. *)
Definition sys_pin : P (unit + Z) := syscall (fun s => (inl tt, s)).

Definition move (from to : bytes) (t : tree_t) : tree_t :=
  match t !! from with Some x => <[to := x]> (delete from t) | None => t end.

Definition exchange (a b : bytes) (t : tree_t) : tree_t :=
  match t !! a, t !! b with Some x, Some y => <[a := y]> (<[b := x]> t) | _, _ => t end.

(** renameat2(cfd, a, cfd, b, RENAME_NOREPLACE) and [RENAME_EXCHANGE] *)
Definition sys_move (a b : bytes) : P (unit + Z) :=
  syscall (fun s =>
    match tree s !! a, tree s !! b with
    | None, _ => (inr ENOENT, s)
    | Some _, Some _ => (inr EEXIST, s)
    | Some _, None => (inl tt, set_tree (move a b (tree s)) s)
    end).

Definition sys_exchange (a b : bytes) : P (unit + Z) :=
  syscall (fun s =>
    match tree s !! a, tree s !! b with
    | Some _, Some _ => (inl tt, set_tree (exchange a b (tree s)) s)
    | _, _ => (inr ENOENT, s)
    end).

(** renameat2(sfd, leaf, lfd, leaf, 0): over what is there. *)
Definition sys_publish (from to : nat) (leaf : bytes) : P (unit + Z) := fun s =>
  match dirs s !! from, dirs s !! to with
  | Some src, Some dst =>
      syscall (fun s =>
        match src !! leaf with
        | None => (inr ENOENT, s)
        | Some e =>
            (inl tt, Fs (tree s) (<[to := <[leaf := e]> dst]> (<[from := delete leaf src]> (dirs s))) ((tree s, dirs s) :: past s)
                        (old_trees s) (<[to := dst :: olds s to]> (<[from := src :: olds s from]> (old_dirs s)))
                        (inodes s) (next s) (sys_calls s))
        end) s
  | _, _ => Fault
  end.

(** [ngx_autocert_renameat2]: the return code. *)
Definition ngx_autocert_renameat2 (call : P (unit + Z)) : P Z :=
  let! r := call in
  match r with
  | inl _ => ret NGX_OK
  | inr e =>
      if (e =? ENOSYS) || (e =? EINVAL) || (e =? ENOTTY) || (e =? EOPNOTSUPP) then ret NGX_DECLINED else ret NGX_ERROR
  end.
End Calls.
