(* ===== verification/OrderStore.v ===== *)
(** * The store writer (ngx_autocert_order_store in ngx_autocert_order.c)

    A certificate and its key are written into a staging directory beside the live
    one, synchronized, and then put in place of the live directory in one rename,
    so that a reader, also one after a crash, sees the old pair or the new one.
    The files of the other key type, which share the directory, are carried over
    by hard links. *)

From S2P Require Import Prelude NgxCore Ident Expiry Marker Tree.

Local Open Scope Z_scope.
Local Open Scope prog_scope.

(** ** Names *)

Definition ngx_autocert_store_files : list bytes :=
  [str "privkey.pem"; str "fullchain.pem"; str "cert.pem"; str "chain.pem";
   str "privkey.rsa.pem"; str "fullchain.rsa.pem"; str "cert.rsa.pem"; str "chain.rsa.pem"].

Record pem_names := PemNames { priv_name : bytes; chain_name : bytes; leaf_name : bytes; rest_name : bytes }.

Definition ngx_autocert_keytype_pem_names (kt : Z) : pem_names :=
  if is_rsa kt then PemNames (str "privkey.rsa.pem") (str "fullchain.rsa.pem") (str "cert.rsa.pem") (str "chain.rsa.pem")
  else PemNames (str "privkey.pem") (str "fullchain.pem") (str "cert.pem") (str "chain.pem").

Definition ngx_autocert_order_domain_safe (domain : bytes) : Z :=
  if (length domain =? 0)%nat then NGX_ERROR
  else if bool_decide (domain = [46]) || bool_decide (domain = [46; 46]) then NGX_ERROR
  else if existsb (fun c => (c =? 47) || (c =? 0)) domain then NGX_ERROR
  else NGX_OK.

(** ** Splitting the chain *)

Definition end_marker : bytes := str "-----END CERTIFICATE-----".

(** The offset past the first marker. *)
Fixpoint find_marker (off : nat) (data : bytes) : option nat :=
  if (length data <? length end_marker)%nat then None
  else if bool_decide (take (length end_marker) data = end_marker) then Some (off + length end_marker)%nat
  else match data with [] => None | _ :: data' => find_marker (S off) data' end.

(** The newlines from there on. *)
Fixpoint newlines (data : bytes) : nat :=
  match data with
  | c :: data' => if (c =? 13) || (c =? 10) then S (newlines data') else 0%nat
  | [] => 0%nat
  end.

Definition ngx_autocert_order_split_chain (full : bytes) : option (bytes * bytes) :=
  match find_marker 0 full with
  | None => None
  | Some off => let off := (off + newlines (drop off full))%nat in Some (take off full, drop off full)
  end.

(** ** What is stored *)

Record store_order := StoreOrder {
  so_path : bytes;
  so_certbot : bool;
  so_domain : bytes;
  so_key_type : Z;
  so_key_pem : bytes;
  so_chain : bytes;
  (** whether "live" is there, in the certbot layout *)
  so_live_there : bool }.

Section Writer.
Context (K : kernel) (inet_addr : bytes -> Z) (inet6_addr : bytes -> option bytes).
(** Which of the two path allocations fail. *)
Context (oom : nat -> bool).
Abbreviation P A := (prog fs A).

Definition ignore {A} (p : P A) : P unit := let! _ := p in ret tt.

Definition ngx_autocert_err_is_intr (e : Z) : bool := negb (windows K) && (e =? EINTR).

Fixpoint fsync_tries (fd : dirfd) (n : nat) : P Z :=
  match n with
  | O => ret NGX_ERROR
  | S n' =>
      let! r := sys_fsync_dir K fd in
      match r with
      | inl _ => ret NGX_OK
      | inr e => if ngx_autocert_err_is_intr e then fsync_tries fd n' else ret NGX_ERROR
      end
  end.

Definition ngx_autocert_order_fsync_dirfd (fd : dirfd) : P Z := fsync_tries fd 8.

Fixpoint unlink_all (d : nat) (names : list bytes) : P unit :=
  match names with
  | [] => ret tt
  | name :: names' => ignore (sys_unlink_in K d name);; unlink_all d names'
  end.

Definition ngx_autocert_order_rm_staging_at (leaf : bytes) : P unit :=
  let! r := sys_open_dir K leaf in
  match r with
  | inr e => if e =? ENOENT then ret tt else ignore (sys_unlink K leaf)
  | inl fd =>
      unlink_all fd ngx_autocert_store_files;;
      ignore (sys_rmdir K leaf)
  end.

(** [skip]: this key type's own names. *)
Definition own_name (skip : pem_names) (name : bytes) : bool :=
  bool_decide (name = priv_name skip) || bool_decide (name = chain_name skip)
  || bool_decide (name = leaf_name skip) || bool_decide (name = rest_name skip).

Fixpoint seed_loop (lfd sfd : nat) (skip : pem_names) (names : list bytes) : P Z :=
  match names with
  | [] => ret NGX_OK
  | name :: names' =>
      if own_name skip name then seed_loop lfd sfd skip names'
      else
        let! st := sys_lstat_in K lfd name in
        match st with
        | inr e => if e =? ENOENT then seed_loop lfd sfd skip names' else ret NGX_ERROR
        | inl false => seed_loop lfd sfd skip names'
        | inl true =>
            let! r := sys_link K lfd sfd name in
            match r with
            | inl _ => seed_loop lfd sfd skip names'
            | inr e => if e =? EEXIST then seed_loop lfd sfd skip names' else ret NGX_ERROR
            end
        end
  end.

Definition ngx_autocert_order_seed_staging_at (dir : bytes) (sfd : nat) (skip_kt : Z) : P Z :=
  let skip := ngx_autocert_keytype_pem_names skip_kt in
  let! r := sys_open_dir K dir in
  match r with
  | inr e => if (e =? ENOENT) || (e =? ENOTDIR) then ret NGX_OK else ret NGX_ERROR
  | inl lfd => seed_loop lfd sfd skip ngx_autocert_store_files
  end.

(** Closing the file and removing it. *)
Definition discard_leaf (d : nat) (leaf : bytes) : P Z := ignore (sys_unlink_in K d leaf);; ret NGX_ERROR.

(** [for (off = 0; off < len; off += n)]: false when it failed.  The fuel covers the
    bytes and the signals. *)
Fixpoint write_loop (fuel : nat) (i : nat) (data : bytes) : P bool :=
  match data with
  | [] => ret true
  | _ =>
      match fuel with
      | O => nofuel
      | S fuel' =>
          let! r := sys_write K i data in
          match r with
          | inr e => if ngx_autocert_err_is_intr e then write_loop fuel' i data else ret false
          | inl n => if n =? 0 then ret false else write_loop fuel' i (drop (Z.to_nat n) data)
          end
      end
  end.

Definition ngx_autocert_order_write_tmp_at (fuel : nat) (d : nat) (leaf data : bytes) (mode : Z) : P Z :=
  let! r := sys_create K d leaf mode in
  match r with
  | inr _ => ret NGX_ERROR
  | inl None => ret NGX_ERROR
  | inl (Some i) =>
      let! st := sys_nlink K i in
      match st with
      | inr _ => ret NGX_ERROR
      | inl nlink =>
          if negb (nlink =? 1) then ret NGX_ERROR
          else
            let! r := sys_truncate K i in
            match r with
            | inr _ => ret NGX_ERROR
            | inl _ =>
                let! r := sys_chmod K i mode in
                match r with
                | inr _ => discard_leaf d leaf
                | inl _ =>
                    let! written := write_loop fuel i data in
                    if negb written then discard_leaf d leaf
                    else
                      let! r := sys_fsync K i in
                      match r with
                      | inr _ => discard_leaf d leaf
                      | inl _ =>
                          let! r := sys_pin K in
                          match r with
                          | inr _ => discard_leaf d leaf
                          | inl _ => ret NGX_OK
                          end
                      end
                end
            end
      end
  end.

(** ** Windows: file by file *)

(** The loop over the four names: the number of files in place, and whether it
    went through. *)
Fixpoint publish_loop (sfd lfd : nat) (own : pem_names) (names : list bytes) (landed : nat) : P (nat * bool) :=
  match names with
  | [] => ret (landed, true)
  | name :: names' =>
      let mandatory := bool_decide (name = priv_name own) || bool_decide (name = chain_name own) in
      let! st := sys_lstat_in K sfd name in
      match st with
      | inr e =>
          if (e =? ENOENT) && negb mandatory then publish_loop sfd lfd own names' landed
          else ret (landed, false)
      | inl false =>
          if mandatory then ret (landed, false) else publish_loop sfd lfd own names' landed
      | inl true =>
          let! rc := ngx_autocert_renameat2 (sys_publish K sfd lfd name) in
          if negb (rc =? NGX_OK) then ret (landed, false)
          else publish_loop sfd lfd own names' (S landed)
      end
  end.

Definition ngx_autocert_order_publish_files_at (kt : Z) (staging dir : bytes) : P Z :=
  let own := ngx_autocert_keytype_pem_names kt in
  let! r := sys_open_dir K staging in
  match r with
  | inr _ => ret NGX_ERROR
  | inl sfd =>
      let! r := sys_open_dir K dir in
      match r with
      | inr _ => ret NGX_ERROR
      | inl lfd =>
          let! p := publish_loop sfd lfd own [priv_name own; chain_name own; leaf_name own; rest_name own] 0 in
          if negb p.2 then ret (if (0 <? p.1)%nat then NGX_ABORT else NGX_ERROR)
          else ignore (ngx_autocert_order_fsync_dirfd (Within lfd));; ret NGX_OK
      end
  end.

Definition ngx_autocert_order_swap_dirs_at (kt : Z) (staging dir : bytes) : P Z :=
  if windows K then ngx_autocert_order_publish_files_at kt staging dir
  else ngx_autocert_renameat2 (sys_exchange K staging dir).

(** ** The whole *)

(** Pinning the container: true when it is open. *)
Definition open_container (o : store_order) : P bool :=
  if so_certbot o then
    if oom 1 then ret false
    else
      let! r := sys_pin K in
      match r with
      | inr _ => ret false
      | inl _ =>
          let! r := syscall K (fun s => (if so_live_there o then inr EEXIST else inl tt, s)) in
          match r with
          | inr e =>
              if negb (e =? EEXIST) then ret false
              else let! r := sys_pin K in ret (match r with inl _ => true | inr _ => false end)
          | inl _ => let! r := sys_pin K in ret (match r with inl _ => true | inr _ => false end)
          end
      end
  else let! r := sys_pin K in ret (match r with inl _ => true | inr _ => false end).

(** The files written into the staging directory, in order: true when all are. *)
Fixpoint write_files (fuel : nat) (d : nat) (l : list (bytes * bytes * Z)) : P bool :=
  match l with
  | [] => ret true
  | (leaf, data, mode) :: l' =>
      let! rc := ngx_autocert_order_write_tmp_at fuel d leaf data mode in
      if negb (rc =? NGX_OK) then ret false else write_files fuel d l'
  end.

(** Writing all there is to write: seeding, the pair, the split chain, and making
    the directory durable. *)
Definition fill_staging (fuel : nat) (o : store_order) (dir : bytes) (sfd : nat) : P bool :=
  let own := ngx_autocert_keytype_pem_names (so_key_type o) in
  let! rc := ngx_autocert_order_seed_staging_at dir sfd (so_key_type o) in
  if negb (rc =? NGX_OK) then ret false
  else
    let! ok := write_files fuel sfd [(priv_name own, so_key_pem o, 384); (chain_name own, so_chain o, 420)] in
    if negb ok then ret false
    else
      let! ok :=
        if so_certbot o then
          match ngx_autocert_order_split_chain (so_chain o) with
          | None => ret false
          | Some (leaf, rest) => write_files fuel sfd [(leaf_name own, leaf, 420); (rest_name own, rest, 420)]
          end
        else ret true in
      if negb ok then ret false
      else let! rc := ngx_autocert_order_fsync_dirfd (Within sfd) in ret (rc =? NGX_OK).

(** Putting the staging directory in place. *)
Definition commit (o : store_order) (dir staging : bytes) : P Z :=
  let! st := sys_lstat K dir in
  match st with
  | inr e =>
      if negb (e =? ENOENT) then ngx_autocert_order_rm_staging_at staging;; ret NGX_ERROR
      else
        let! rc := ngx_autocert_renameat2 (sys_move K staging dir) in
        if negb (rc =? NGX_OK) then ngx_autocert_order_rm_staging_at staging;; ret NGX_ERROR
        else ngx_autocert_order_fsync_dirfd Container
  | inl false => ngx_autocert_order_rm_staging_at staging;; ret NGX_ERROR
  | inl true =>
      let! swap := ngx_autocert_order_swap_dirs_at (so_key_type o) staging dir in
      if swap =? NGX_OK then ngx_autocert_order_rm_staging_at staging;; ngx_autocert_order_fsync_dirfd Container
      else
        (if negb (swap =? NGX_ABORT) then ngx_autocert_order_rm_staging_at staging else ret tt);;
        ret NGX_ERROR
  end.

Definition ngx_autocert_order_store (fuel : nat) (o : store_order) : P Z :=
  if (length (so_path o) =? 0)%nat then ret NGX_ERROR
  else if negb (ngx_autocert_order_domain_safe (so_domain o) =? NGX_OK) then ret NGX_ERROR
  else
    let seg := ngx_autocert_fs_segment inet_addr inet6_addr NGX_AUTOCERT_DOMAIN_SEG_MAX (so_domain o) in
    if (length seg =? 0)%nat then ret NGX_ERROR
    else if oom 0 then ret NGX_ERROR
    else
      let! opened := open_container o in
      if negb opened then ret NGX_ERROR
      else if (NGX_AUTOCERT_DOMAIN_SEG_MAX + 5 <? length seg + 5)%nat then ret NGX_ERROR
      else
        let staging := seg ++ str ".tmp" in
        ngx_autocert_order_rm_staging_at staging;;
        let! r := sys_mkdir K staging 448 in
        match r with
        | inr _ => ret NGX_ERROR
        | inl _ =>
            let! r := sys_open_dir K staging in
            match r with
            | inr _ => ngx_autocert_order_rm_staging_at staging;; ret NGX_ERROR
            | inl sfd =>
                let! r := sys_pin K in
                match r with
                | inr _ => ngx_autocert_order_rm_staging_at staging;; ret NGX_ERROR
                | inl _ =>
                    let! filled := fill_staging fuel o seg sfd in
                    if negb filled then ngx_autocert_order_rm_staging_at staging;; ret NGX_ERROR
                    else commit o seg staging
                end
            end
        end.
End Writer.
