(* ===== verification/OrderStoreInv.v ===== *)
(** * The store writer: what its steps leave alone *)

From S2P Require Import Prelude NgxCore Ident Expiry Marker Tree OrderStore.

Local Open Scope Z_scope.
Local Open Scope prog_scope.

(** ** Views *)

(** What a file is to a reader: its durable bytes and its mode. *)
Definition core (f : file) : bytes * Z * bool := (f_data f, f_mode f, f_synced f).

Definition content (m : gmap nat file) (e : dirent) : option (bytes * Z) :=
  match e with
  | LFile i => match m !! i with Some f => if f_synced f then Some (f_data f, f_mode f) else None | None => None end
  | _ => None
  end.

Definition reader (m : gmap nat file) (es : entries_t) : gmap bytes (bytes * Z) := omap (content m) es.

Definition view_of (m : gmap nat file) (d : nat -> entries_t) (n : option node) : option (gmap bytes (bytes * Z)) :=
  match n with Some (NDir id _) => Some (reader m (d id)) | _ => None end.

Definition same_core (bound : nat) (m m' : gmap nat file) : Prop :=
  forall i, (i < bound)%nat -> core <$> m !! i = core <$> m' !! i.

Lemma same_core_content bound m m' e :
  same_core bound m m' -> (forall i, e = LFile i -> (i < bound)%nat) -> content m' e = content m e.
Proof.
  intros Hs Hb. destruct e as [i| | |]; try done. cbn. specialize (Hs i (Hb i eq_refl)).
  destruct (m !! i) as [f|], (m' !! i) as [f'|]; cbn in Hs; try done. unfold core in Hs. injection Hs as E1 E2 E3. by rewrite E1, E2, E3.
Qed.

(** The files of a directory were made before. *)
Definition below (bound : nat) (es : entries_t) : Prop := forall leaf i, es !! leaf = Some (LFile i) -> (i < bound)%nat.

Lemma same_core_reader bound m m' es : same_core bound m m' -> below bound es -> reader m' es = reader m es.
Proof.
  intros Hs Hb. apply map_eq. intros leaf. unfold reader. rewrite !lookup_omap.
  destruct (es !! leaf) as [e|] eqn:Ee; [|done]. cbn. apply (same_core_content bound); [done|]. intros i ->. by eapply Hb.
Qed.

(** A directory of the container has one name, and has been made. *)
Record sound (s : fs) : Prop := {
  so_one : forall x y id m m', tree s !! x = Some (NDir id m) -> tree s !! y = Some (NDir id m') -> x = y;
  so_made : forall x id m, tree s !! x = Some (NDir id m) -> (id < next s)%nat /\ is_Some (dirs s !! id) }.

Lemma entries_in_lookup d id es : d !! id = Some es -> entries_in d id = es.
Proof. unfold entries_in. by intros ->. Qed.

(** ** What a crash may leave *)

Section Return.
Context (K : kernel).
Abbreviation may_return := (may_return K).

(** The entries a directory may come back with. *)
Definition version (s : fs) (id : nat) (es : entries_t) : Prop := exists t d, may_return s t d /\ d id = es.

Lemma return_now s : may_return s (tree s) (entries_in (dirs s)).
Proof.
  unfold Tree.may_return. destruct (ordered K).
  - exists (tree s, dirs s). split; [left|done].
  - split; [left|intros id; left].
Qed.

Lemma version_now s id : version s id (entries_in (dirs s) id).
Proof. eexists _, _. split; [apply return_now|done]. Qed.

Lemma return_same s s' t d :
  tree s' = tree s -> dirs s' = dirs s -> past s' = past s -> old_trees s' = old_trees s -> old_dirs s' = old_dirs s ->
  may_return s' t d -> may_return s t d.
Proof. unfold Tree.may_return, olds. by intros -> -> -> -> ->. Qed.

(** A new container comes with the entries of before. *)
Lemma return_set_tree s t' t d :
  may_return (set_tree t' s) t d -> may_return s t d \/ t = t' /\ may_return s (tree s) d.
Proof.
  unfold Tree.may_return, olds. cbn. destruct (ordered K).
  - intros (h & [->|Hh]%elem_of_cons & -> & Hd); [right|left; by exists h].
    split; [done|]. exists (tree s, dirs s). split; [left|done].
  - intros [[->|Ht]%elem_of_cons Hd]; [right|by left]. split; [done|]. split; [left|done].
Qed.

(** New entries of a directory: on an ordered file system, with all the rest as it is. *)
Lemma return_set_dir s id es t d :
  may_return (set_dir id es s) t d ->
  may_return s t d \/
  d id = es /\ (ordered K = true -> t = tree s) /\ exists d', may_return s t d' /\ forall id', id' <> id -> d id' = d' id'.
Proof.
  unfold Tree.may_return. destruct (ordered K) eqn:Eo.
  - intros (h & [->|Hh]%elem_of_cons & -> & Hd); cbn in Hd; [right|left; by exists h]. split; [|split; [done|]].
    { rewrite Hd. unfold entries_in. by rewrite lookup_insert_eq. }
    exists (entries_in (dirs s)). split; [exists (tree s, dirs s); split; [left|done]|].
    intros id' Hne. rewrite Hd. unfold entries_in. by rewrite lookup_insert_ne.
  - intros [Ht Hd]. cbn in Ht, Hd.
    assert (Hother : forall id', id' <> id -> d id' ∈ entries_in (dirs s) id' :: olds s id').
    { intros id' Hne. specialize (Hd id'). unfold entries_in, olds in *. cbn in Hd. by rewrite !lookup_insert_ne in Hd. }
    pose proof (Hd id) as Hid. unfold entries_in, olds in Hid. cbn in Hid. rewrite !lookup_insert_eq in Hid. cbn in Hid.
    apply elem_of_cons in Hid as [Hid|Hid].
    + right. split; [done|]. split; [done|]. exists (fun i => if decide (i = id) then entries_in (dirs s) id else d i). split.
      * split; [done|]. intros i. case_decide as Hi; [subst; left|by apply Hother].
      * intros id' Hne. by rewrite decide_False.
    + left. split; [done|]. intros i. destruct (decide (i = id)) as [->|Hi]; [exact Hid|by apply Hother].
Qed.

Lemma since_elem same l h : h ∈ since same l -> h ∈ l /\ same h = true.
Proof.
  induction l as [|x l IH]; cbn; [by intros []%not_elem_of_nil|]. destruct (same x) eqn:Ex; [|by intros []%not_elem_of_nil].
  intros [->|Hh]%elem_of_cons; [split; [left|done]|]. destruct (IH Hh). split; [by right|done].
Qed.

(** fsync rules out what is older, of that directory. *)
Lemma return_settle fd s t d :
  may_return (settle fd s) t d ->
  may_return s t d /\ match fd with Container => t = tree s | Within id => d id = entries_in (dirs s) id end.
Proof.
  unfold Tree.may_return. destruct (ordered K), fd as [|id]; cbn.
  - intros (h & [->|Hh]%elem_of_cons & -> & Hd).
    + split; [|done]. exists (tree s, dirs s). split; [left|done].
    + apply since_elem in Hh as [Hh Hs%bool_decide_eq_true]. split; [|done]. exists h. split; [by right|done].
  - intros (h & [->|Hh]%elem_of_cons & -> & Hd).
    + split; [|by rewrite Hd]. exists (tree s, dirs s). split; [left|done].
    + apply since_elem in Hh as [Hh Hs%bool_decide_eq_true]. split; [|by rewrite Hd]. exists h. split; [by right|done].
  - intros [->%list_elem_of_singleton Hd]. split; [|done]. split; [left|done].
  - intros [Ht Hd]. assert (E : d id = entries_in (dirs s) id).
    { specialize (Hd id). unfold olds in Hd. cbn in Hd. rewrite lookup_insert_eq in Hd. by apply list_elem_of_singleton in Hd. }
    split; [|done]. split; [done|]. intros i. destruct (decide (i = id)) as [->|Hi]; [rewrite E; left|].
    specialize (Hd i). unfold olds in *. cbn in Hd. by rewrite lookup_insert_ne in Hd.
Qed.

(** A directory that is made or removed: only it is concerned. *)
Lemma return_add_dir s id t d :
  may_return (add_dir id s) t d ->
  may_return s t d \/
  (ordered K = true -> t = tree s) /\ exists d', may_return s t d' /\ forall id', id' <> id -> d id' = d' id'.
Proof.
  unfold Tree.may_return. destruct (ordered K) eqn:Eo.
  - intros (h & [->|Hh]%elem_of_cons & -> & Hd); cbn in Hd.
    + right. split; [done|]. exists (entries_in (dirs s)). split; [exists (tree s, dirs s); split; [left|done]|].
      intros id' Hne. rewrite Hd. unfold entries_in. by rewrite lookup_insert_ne.
    + left. exists h. split; [by right|done].
  - intros [Ht Hd]. cbn in Ht, Hd. right. split; [done|]. exists (fun i => if decide (i = id) then entries_in (dirs s) id else d i). split.
    + split; [done|]. intros i. case_decide as Hi; [subst; left|].
      specialize (Hd i). unfold entries_in, olds in *. cbn in Hd. by rewrite !lookup_insert_ne in Hd.
    + intros id' Hne. by rewrite decide_False.
Qed.

Lemma return_drop_dir s id t d : entries_in (dirs s) id = ∅ -> may_return (drop_dir id s) t d -> may_return s t d.
Proof.
  intros He. assert (E : forall i, entries_in (delete id (dirs s)) i = entries_in (dirs s) i).
  { intros i. destruct (decide (i = id)) as [->|Hi]; unfold entries_in; [rewrite lookup_delete_eq; symmetry; exact He|by rewrite lookup_delete_ne]. }
  unfold Tree.may_return. destruct (ordered K).
  - intros (h & [->|Hh]%elem_of_cons & -> & Hd); cbn in Hd.
    + exists (tree s, dirs s). split; [left|]. split; [done|]. intros i. by rewrite Hd, E.
    + exists h. split; [by right|done].
  - intros [Ht Hd]. split; [done|]. intros i. specialize (Hd i). cbn in Hd. by rewrite E in Hd.
Qed.
End Return.

(** ** Steps beside the live directory *)

Section Aside.
Context (tmp : bytes) (K : kernel).
Abbreviation may_return := (may_return K).
Abbreviation version := (version K).

(** Nothing that has a name of the container but the staging one is concerned. *)
Abbreviation apart s P :=
  (forall x id m, x <> tmp -> tree s !! x = Some (NDir id m) -> P x id) (only parsing).

(** What comes back under a name was there. *)
Definition alike (x : bytes) (t : tree_t) (d : nat -> entries_t) (t0 : tree_t) (d0 : nat -> entries_t) : Prop :=
  t !! x = t0 !! x /\ forall id m, t0 !! x = Some (NDir id m) -> d id = d0 id.

Lemma alike_trans x t1 d1 t2 d2 t3 d3 : alike x t1 d1 t2 d2 -> alike x t2 d2 t3 d3 -> alike x t1 d1 t3 d3.
Proof. intros [T1 D1] [T2 D2]. split; [by rewrite T1|]. intros id m E. rewrite (D1 id m) by (rewrite T2; done). by eapply D2. Qed.

(** All of it, but at the staging name. *)
Definition like t d t0 d0 : Prop := forall x, x <> tmp -> alike x t d t0 d0.

Lemma like_trans t1 d1 t2 d2 t3 d3 : like t1 d1 t2 d2 -> like t2 d2 t3 d3 -> like t1 d1 t3 d3.
Proof. intros L1 L2 x Hx. by eapply alike_trans; [apply L1|apply L2]. Qed.

(** From [s] to [s'] nothing changed but at the staging name, and in files made since; no other directory may come
    back in another way than before.  On an ordered file system, the container as a whole. *)
Record aside (s s' : fs) : Prop := {
  as_core : same_core (next s) (inodes s) (inodes s');
  as_next : (next s <= next s')%nat;
  as_sound : sound s -> sound s';
  as_tree : forall n, n <> tmp -> tree s' !! n = tree s !! n;
  as_dirs : apart s (fun _ id => dirs s' !! id = dirs s !! id);
  as_version : apart s (fun _ id => forall es, version s' id es -> version s id es);
  as_return : ordered K = true -> forall t d, may_return s' t d -> exists t0 d0, may_return s t0 d0 /\ like t d t0 d0 }.

#[export] Instance aside_preorder : PreOrder aside.
Proof.
  split.
  - intros s. split; try done. intros _ t d Ht. by exists t, d.
  - intros s1 s2 s3 [C1 N1 S1 T1 D1 V1 P1] [C2 N2 S2 T2 D2 V2 P2]. split.
    + intros i Hi. rewrite C1 by done. apply C2. lia.
    + lia.
    + auto.
    + intros n Hn. by rewrite T2, T1.
    + intros x id m Hx E. rewrite (D2 x id m) by (rewrite ?T1; done). by eapply D1.
    + intros x id m Hx E es Hv. eapply V1; [done..|]. eapply V2; [done|by rewrite T1|done].
    + intros Ho t d Ht. destruct (P2 Ho t d Ht) as (t2 & d2 & Ht2 & L2). destruct (P1 Ho t2 d2 Ht2) as (t1 & d1 & Ht1 & L1).
      exists t1, d1. split; [done|]. by eapply like_trans.
Qed.

(** All that may come back could before. *)
Lemma aside_return s s' :
  tree s' = tree s -> dirs s' = dirs s -> (next s <= next s')%nat -> same_core (next s) (inodes s) (inodes s') ->
  (forall t d, may_return s' t d -> may_return s t d) -> aside s s'.
Proof.
  intros Et Ed Hn Hc Hr. split; try done.
  - intros [H1 H2]. split; rewrite Et; [exact H1|]. intros x id m E. rewrite Ed. apply H2 in E as [? ?]. split; [lia|done].
  - by rewrite Et.
  - by rewrite Ed.
  - intros x id m _ _ es (t & d & Ht & Hd). exists t, d. auto.
  - intros _ t d Ht. exists t, d. split; [auto|done].
Qed.

Lemma aside_fields s s' :
  tree s' = tree s -> dirs s' = dirs s -> past s' = past s -> old_trees s' = old_trees s -> old_dirs s' = old_dirs s ->
  next s' = next s -> same_core (next s) (inodes s) (inodes s') -> aside s s'.
Proof. intros E1 E2 E3 E4 E5 E6 Hc. apply aside_return; try done; [lia|]. intros t d. by apply return_same. Qed.

Lemma aside_tick s : aside s (tick s).
Proof. by apply aside_fields. Qed.

(** The staging name is taken off the container. *)
Lemma aside_delete s : aside s (set_tree (delete tmp (tree s)) s).
Proof.
  assert (Hd : forall x, x <> tmp -> delete tmp (tree s) !! x = tree s !! x) by (intros x Hx; by rewrite lookup_delete_ne).
  assert (Hs : forall x n, delete tmp (tree s) !! x = Some n -> tree s !! x = Some n) by (intros x n [_ E]%lookup_delete_Some; done).
  split; try done.
  - intros [H1 H2]. split; cbn; [intros x y id m m' E1%Hs E2%Hs; by eapply H1|intros x id m E%Hs; by eapply H2].
  - intros x id m _ _ es (t & d & [Ht|[-> Ht]]%return_set_tree & Hde); eexists _, d; (split; [exact Ht|exact Hde]).
  - intros _ t d [Ht|[-> Ht]]%return_set_tree; [by exists t, d|]. exists (tree s), d. split; [done|]. intros x Hx. split; [by apply Hd|done].
Qed.

Lemma aside_links s i n : aside s (set_inodes (alter (add_links n) i (inodes s)) s).
Proof.
  apply aside_fields; try done. intros j _. cbn. destruct (decide (j = i)) as [->|Hne].
  - rewrite lookup_alter_eq. by destruct (inodes s !! i).
  - by rewrite lookup_alter_ne.
Qed.

(** A file made since may change. *)
Lemma aside_newer s s' i f : aside s s' -> (next s <= i)%nat -> aside s (set_inodes (<[i := f]> (inodes s')) s').
Proof.
  intros [C N S T D V P] Hi. split; try assumption; [|intros Hs; by destruct (S Hs)].
  intros j Hj. cbn. rewrite lookup_insert_ne by lia. by apply C.
Qed.

Lemma aside_grown s s' n : aside s s' -> (next s' <= n)%nat -> aside s (set_next n s').
Proof.
  intros Ha Hn. etrans; [exact Ha|]. by apply aside_return.
Qed.

Lemma aside_settle fd s : aside s (settle fd s).
Proof.
  apply aside_return; [by destruct fd|by destruct fd|destruct fd; cbn; lia|intros i _; by destruct fd|].
  intros t d Ht. by apply return_settle in Ht as [Ht _].
Qed.

Definition staged (s : fs) (id : nat) (m : Z) (es : entries_t) : Prop :=
  tree s !! tmp = Some (NDir id m) /\ dirs s !! id = Some es.

Lemma staged_apart s id m es : sound s -> staged s id m es -> apart s (fun _ id' => id' <> id).
Proof. intros Hs [Ht _] x id' m' Hx E ->. by apply Hx, (so_one s Hs x tmp id m' m). Qed.

(** The entries of the staging directory change. *)
Lemma aside_dir s id m es es' : sound s -> staged s id m es -> aside s (set_dir id es' s).
Proof.
  intros Hs Hst. pose proof (staged_apart s id m es Hs Hst) as Hap. split; try done.
  - intros _. split; [apply Hs|]. intros x id' m' E. destruct (so_made s Hs x id' m' E) as [Hn [e He]]. split; [done|]. cbn.
    destruct (decide (id' = id)) as [->|Hne]; [rewrite lookup_insert_eq; by eexists|rewrite lookup_insert_ne by done; by eexists].
  - intros x id' m' Hx E. apply Hap in E; [|done]. cbn. by rewrite lookup_insert_ne.
  - intros x id' m' Hx E e (t & d & Hr & Hd). apply Hap in E; [|done].
    apply return_set_dir in Hr as [Hr|(_ & _ & d' & Hr & He)]; [by exists t, d|]. exists t, d'. split; [done|]. by rewrite <- He.
  - intros Ho t d [Hr|(_ & Ht & d' & Hr & He)]%return_set_dir; [by exists t, d|]. exists t, d'. split; [done|].
    intros x Hx. split; [done|]. intros id' m' E. rewrite Ht in E by done. apply He. by eapply Hap.
Qed.

(** The staging directory is removed, empty. *)
Lemma aside_rmdir s id m : sound s -> staged s id m ∅ -> aside s (drop_dir id (set_tree (delete tmp (tree s)) s)).
Proof.
  intros Hs Hst. pose proof (staged_apart s id m ∅ Hs Hst) as Hap. etrans; [apply aside_delete|].
  set (s1 := set_tree _ s). assert (Hap' : apart s1 (fun _ id' => id' <> id)).
  { intros x id' m' Hx E. cbn in E. rewrite lookup_delete_ne in E by done. by eapply Hap. }
  assert (Hne : forall x id' m', tree s1 !! x = Some (NDir id' m') -> id' <> id).
  { intros x id' m' E. destruct (decide (x = tmp)) as [->|Hx]; [cbn in E; by rewrite lookup_delete_eq in E|by eapply Hap']. }
  assert (He : entries_in (dirs s1) id = ∅) by (apply entries_in_lookup, Hst).
  split; try done.
  - intros [H1 H2]. split; [exact H1|]. intros x id' m' E. cbn. rewrite lookup_delete_ne by (apply not_eq_sym; by eapply Hne). by eapply H2.
  - intros x id' m' Hx E. cbn. rewrite lookup_delete_ne; [done|]. apply not_eq_sym. by eapply Hne.
  - intros x id' m' Hx E es (t & d & Hr & Hd). exists t, d. split; [|done]. by apply return_drop_dir in Hr.
  - intros _ t d Hr. exists t, d. split; [by apply return_drop_dir in Hr|done].
Qed.

(** The staging directory is made. *)
Lemma aside_mkdir s m :
  sound s -> tree s !! tmp = None ->
  aside s (set_next (S (next s)) (add_dir (next s) (set_tree (<[tmp := NDir (next s) m]> (tree s)) s))).
Proof.
  intros Hs Hno.
  assert (Hlt : forall x id m', tree s !! x = Some (NDir id m') -> id <> next s)
    by (intros x id m' E; apply (so_made s Hs) in E as [? _]; lia).
  set (t' := <[tmp := NDir (next s) m]> (tree s)). assert (Ht' : forall x, x <> tmp -> t' !! x = tree s !! x)
    by (intros x Hx; unfold t'; by rewrite lookup_insert_ne).
  assert (Hr : forall t d, may_return (set_next (S (next s)) (add_dir (next s) (set_tree t' s))) t d ->
    may_return s t d \/ exists t0 d', may_return s t0 d' /\ (forall id', id' <> next s -> d id' = d' id') /\
      (ordered K = true -> forall x, x <> tmp -> t !! x = tree s !! x /\ t0 !! x = tree s !! x)).
  { intros t d Ht. assert (Ha : may_return (add_dir (next s) (set_tree t' s)) t d) by (revert Ht; by apply return_same).
    apply return_add_dir in Ha as [[Ha|[-> Ha]]%return_set_tree|[Eo (d' & [Ha|[-> Ha]]%return_set_tree & He)]]; [by left|right..].
    - exists (tree s), d. split; [done|]. split; [done|]. intros _ x Hx. by rewrite Ht'.
    - exists t, d'. split; [done|]. split; [done|]. intros E x Hx. rewrite (Eo E). cbn. by rewrite Ht'.
    - exists (tree s), d'. split; [done|]. split; [done|]. intros _ x Hx. by rewrite Ht'. }
  split; try done.
  - cbn. lia.
  - intros [H1 H2]. split; cbn; unfold t'.
    + intros x y id m1 m2. destruct (decide (x = tmp)) as [->|Hx], (decide (y = tmp)) as [->|Hy];
        rewrite ?lookup_insert_eq, ?lookup_insert_ne by done; [done| | |by apply H1].
      * intros [= <- _] E%Hlt. done.
      * intros E%Hlt [= E' _]. congruence.
    + intros x id m1. destruct (decide (x = tmp)) as [->|Hx]; rewrite ?lookup_insert_eq, ?lookup_insert_ne by done.
      * intros [= <- _]. split; [lia|]. rewrite lookup_insert_eq. by eexists.
      * intros E. pose proof (Hlt _ _ _ E). apply H2 in E as [? ?]. split; [lia|]. by rewrite lookup_insert_ne.
  - intros x id m' Hx E%Hlt. cbn. by rewrite lookup_insert_ne.
  - intros x id m' Hx E%Hlt es (t & d & [H0|(t0 & d' & H0 & He & _)]%Hr & Hd); [by exists t, d|]. exists t0, d'. split; [done|]. by rewrite <- He.
  - intros Eo t d [H0|(t0 & d' & H0 & He & Hx)]%Hr; [by exists t, d|]. exists t0, d'. split; [done|].
    intros x Hx'. destruct (Hx Eo x Hx') as [E1 E2]. split; [by rewrite E1, E2|].
    intros id m' E. apply He. rewrite E2 in E. by eapply Hlt.
Qed.

(** ** Rules *)

Abbreviation post A := (A -> fs -> Prop).

Lemma wp_syscall {A} (f : fs -> (A + Z) * fs) s (Q : post (A + Z)) (X : fs -> Prop) :
  X s -> (forall e, denied K (sys_calls s) = Some e -> Q (inr e) (tick s)) -> Q (f (tick s)).1 (f (tick s)).2 ->
  wp (syscall K f) s Q X.
Proof.
  intros HX He HQ. unfold wp, syscall. destruct (stops K (sys_calls s)); [done|].
  destruct (denied K (sys_calls s)) as [e|]; [by apply He|]. by destruct (f (tick s)).
Qed.

(** The machine stops in a state like the first. *)
Lemma wp_sys {A} s0 (f : fs -> (A + Z) * fs) s (Q : post (A + Z)) :
  aside s0 s -> (forall e, denied K (sys_calls s) = Some e -> aside s0 (tick s) -> Q (inr e) (tick s)) ->
  (aside s0 (tick s) -> Q (f (tick s)).1 (f (tick s)).2) ->
  wp (syscall K f) s Q (aside s0).
Proof.
  intros Ha He HQ. assert (Ht : aside s0 (tick s)) by (etrans; [done|apply aside_tick]).
  apply wp_syscall; [done|intros e Hd; by apply He|by apply HQ].
Qed.

(** Any call that keeps to the staging name. *)
Lemma wp_beside {A} s0 (f : fs -> (A + Z) * fs) s :
  aside s0 s -> aside (tick s) (f (tick s)).2 -> wp (syscall K f) s (fun _ s' => aside s0 s') (aside s0).
Proof. intros Ha Hf. apply wp_sys; [done|done|]. intros Ht. by etrans. Qed.

(** Looking at an entry. *)
Lemma wp_open_dir s0 name s (Q : post (nat + Z)) :
  aside s0 s ->
  (forall e, aside s0 (tick s) ->
     denied K (sys_calls s) = Some e \/
     (forall id m, tree s !! name <> Some (NDir id m)) /\
       e = match tree s !! name with None => ENOENT | Some NSym => nofollow K | _ => ENOTDIR end ->
     Q (inr e) (tick s)) ->
  (forall id m, tree s !! name = Some (NDir id m) -> aside s0 (tick s) -> Q (inl id) (tick s)) ->
  wp (sys_open_dir K name) s Q (aside s0).
Proof.
  intros Ha He HQ. apply wp_sys; [done|eauto|]. cbn. intros Ht.
  destruct (tree s !! name) as [[id m| | |]|]; try (apply He; [done|right; done]). by eapply HQ.
Qed.

(** A call on the staging directory, which is there after it too. *)
Lemma wp_in_staging {A} (f : entries_t -> fs -> (A + Z) * (entries_t * fs)) s0 s id m es (Q : post (A + Z)) :
  sound s -> staged s id m es -> aside s0 s ->
  (forall e, denied K (sys_calls s) = Some e -> aside s0 (tick s) -> Q (inr e) (tick s)) ->
  (forall s', tree (f es (tick s)).2.2 = tree s -> aside (tick s) (f es (tick s)).2.2 ->
     staged s' id m (f es (tick s)).2.1 -> inodes s' = inodes (f es (tick s)).2.2 -> next s' = next (f es (tick s)).2.2 ->
     sys_calls s' = sys_calls (f es (tick s)).2.2 -> aside s0 s' -> Q (f es (tick s)).1 s') ->
  tree (f es (tick s)).2.2 = tree s -> dirs (f es (tick s)).2.2 = dirs s -> aside (tick s) (f es (tick s)).2.2 ->
  wp (in_dir K id f) s Q (aside s0).
Proof.
  intros Hs Hst Ha He HQ Ht Hd Hf. pose proof Hst as [Hst1 Hst2]. unfold wp, in_dir. rewrite Hst2. apply (wp_sys s0 _ s Q); [done|done|].
  intros Ha'. destruct (f es (tick s)) as [r [es' s']] eqn:Ef. cbn [fst snd] in *.
  assert (Has : aside s0 s') by by etrans.
  assert (Hss : sound s') by (apply (as_sound _ _ Hf), (as_sound _ _ (aside_tick s)), Hs).
  assert (Hst' : staged s' id m es) by (split; [by rewrite Ht|by rewrite Hd]).
  case_decide as He'; apply HQ; try done.
  - by subst es'.
  - split; cbn; [by rewrite Ht|by rewrite lookup_insert_eq].
  - etrans; [exact Has|]. by eapply aside_dir.
Qed.

(** *** Removing the staging directory *)

Lemma wp_unlink_all s0 names s id m es :
  sound s0 -> staged s id m es -> aside s0 s ->
  wp (unlink_all K id names) s (fun _ s' => aside s0 s' /\ exists es', staged s' id m es') (aside s0).
Proof.
  intros Hs0. revert s es. induction names as [|name names IH]; intros s es Hst Ha; [apply wp_ret; eauto|].
  cbn [unlink_all]. apply wp_bind, wp_bind. eapply wp_in_staging; [by apply (as_sound _ _ Ha)|exact Hst|exact Ha|..].
  - intros e _ Ht. apply wp_ret. by eapply IH.
  - intros s' _ _ Hst' _ _ _ Ha'. apply wp_ret. by eapply IH.
  - by destruct (es !! name) as [[]|].
  - by destruct (es !! name) as [[]|].
  - destruct (es !! name) as [[]|]; try reflexivity. apply aside_links.
Qed.

Lemma wp_rm_staging s0 s :
  sound s0 -> aside s0 s -> wp (ngx_autocert_order_rm_staging_at K tmp) s (fun _ s' => aside s0 s') (aside s0).
Proof.
  intros Hs0 Ha. apply wp_bind, wp_open_dir; [done|..].
  - intros e Ht _. case_match; [by apply wp_ret|]. apply wp_bind. eapply wp_mono; [apply (wp_beside s0)| |]; try done.
    + cbn. destruct (tree s !! tmp) as [[]|]; try reflexivity; try apply (aside_delete (tick (tick s))).
      etrans; [apply (aside_delete (tick (tick s)))|]. apply (aside_links (set_tree (delete tmp (tree s)) (tick (tick s)))).
  - intros id m Hst Ht. pose proof (as_sound _ _ Ha Hs0) as Hs. destruct (so_made s Hs tmp id m Hst) as [_ [es Hes]].
    apply wp_bind. eapply wp_mono; [apply (wp_unlink_all s0 _ (tick s) id m es); [done|by split|done]| |done].
    intros ? s1 [Ha1 [es1 Hst1]]. apply wp_bind. eapply wp_mono; [apply (wp_beside s0); [done|]| |]; [|intros; by apply wp_ret|done].
    cbn. rewrite (proj1 Hst1). case_decide as He; [|reflexivity]. rewrite (entries_in_lookup _ _ _ (proj2 Hst1)) in He. subst es1.
    apply (aside_rmdir (tick s1) id m); [|exact Hst1]. by apply (as_sound _ _ (aside_tick s1)), (as_sound _ _ Ha1).
Qed.
End Aside.
