(* ===== verification/OrderState.v ===== *)
(** * Orders and accounts: their state

    An ACME order and the account it is run for, as the driver keeps them, with
    what they hold of nginx and OpenSSL: memory pools and keys, timers, requests
    in flight, a hook process, the key-generation task, and the two challenge
    stores.  Whatever the module does not decide itself (which allocations and
    system calls fail, what the network answers, what the cryptography returns)
    is an environment, a parameter of every definition. *)

From S2P Require Import Prelude NgxCore Rbtree Shm Store Json Http.

Local Open Scope Z_scope.
Local Open Scope prog_scope.

(** ** Handlers and requests *)

(** The functions of ngx_autocert_order.c passed to [ngx_autocert_account_post]. *)
Inductive post_handler_pt :=
  | order_new_order_done
  | order_authz_done
  | order_respond_done
  | order_poll_done
  | order_finalize_done
  | order_poll_order_done
  | order_download_done.

(** The handlers given to [ngx_autocert_acme_request]. *)
Inductive acme_handler_pt :=
  | order_directory_done
  | account_directory_done
  | account_nonce_done
  | account_register_done
  | account_register_renonce_done
  | account_post_done
  | account_renonce_done.

(** A request in flight: its handler, its pool, and what is sent. *)
Record http := Http {
  h_handler : acme_handler_pt;
  h_pool : nat;
  h_method : bytes;
  h_url : bytes;
  h_body : bytes }.

(** A request as its handler finds it. *)
Record reply := Reply {
  q_pool : nat;
  q_status : Z;
  q_headers : list (bytes * bytes);
  q_body : bytes }.

(** ** State *)

(** The POST in flight ([post_*] of [ngx_autocert_account_t]). *)
Record post_state := PostState {
  post_pool : option nat;
  post_url : bytes;
  post_payload : bytes;
  post_handler : option post_handler_pt;
  post_retried : bool;
  post_fail_pool : option nat;
  post_fail_req : option nat }.

(** What the module holds of nginx: the pools and keys not yet released, the
    number of the next one, the number of fallible calls made, the requests in
    flight, whether SIGCHLD is blocked, and the cached time. *)
Record runtime := Runtime {
  handles : list nat;
  next_handle : nat;
  calls_made : nat;
  inflight : list http;
  sigchld_blocked : bool;
  clock : Z }.

(** [ngx_autocert_account_t]: the account, the nonce, the POST in flight, and the
    registration.  [acct_results] lists the calls of its handler. *)
Record account := Account {
  kid : bytes;
  acct_key : option nat;
  new_nonce_url : bytes;
  new_account_url : bytes;
  nonce : bytes;
  nonce_pool : option nat;
  post : post_state;
  acct_pool : option nat;
  register_retried : bool;
  acct_done : bool;
  acct_results : list Z }.

(** [ngx_autocert_order_t], by groups: the URLs learnt from the CA, *)
Record urls := Urls {
  new_order_url : bytes;
  authz_url : bytes;
  challenge_url : bytes;
  order_url : bytes;
  finalize_url : bytes;
  cert_url : bytes }.

(** the challenge and where it is published, *)
Record challenge_state := ChallengeState {
  token : bytes;
  keyauth : bytes;
  dns_txt_value : bytes;
  challenge_set : bool;
  alpn_set : bool;
  dns_set : bool }.

(** the bounds on polls and retries, *)
Record counters := Counters {
  poll_tries : nat;
  order_poll_tries : nat;
  finalize_retried : bool;
  download_retried : bool }.

(** which timers are set, *)
Record timers := Timers {
  poll_timer : bool;
  order_timer : bool;
  dns_delay_timer : bool;
  dns_hook_timer : bool;
  dns_hook_deadline_timer : bool }.

(** the hook process ([dns_hook_pid] is valid when [hook_running]), *)
Record hook_state := HookState {
  hook_running : bool;
  hook_is_add : bool;
  hook_timed_out : bool;
  hook_cleanup : bool;
  hook_after_authz : bool;
  hook_sigmask : bool;
  finish_rc : Z }.

(** and the certificate being issued. *)
Record issue_state := IssueState {
  order_pool : option nat;
  cert_key : option nat;
  cert_key_pem : bytes;
  cert_chain : bytes }.

Record order := Order {
  o_urls : urls;
  o_chal : challenge_state;
  o_count : counters;
  o_timers : timers;
  o_hook : hook_state;
  o_issue : issue_state;
  done : bool;
  retry_after : Z }.

(** [ngx_autocert_keygen_t]: the one key-generation task; [kg_mine] when its
    [order] is this order (it is NULL otherwise). *)
Record keygen := Keygen {
  kg_task : bool;
  kg_mine : bool;
  kg_busy : bool }.

(** What the order did to the world: the hooks run with their arguments, the
    certificates stored, the calls of [on_new_order] and of its handler. *)
Record log := Log {
  hooks_run : list (list bytes);
  stored : list (bytes * bytes);
  counted : nat;
  results : list Z }.

Record world (HC HA : Type) := World {
  rt : runtime;
  acct : account;
  ord : order;
  alive : bool;
  kg : keygen;
  challenges : zone HC;
  alpns : zone HA;
  wlog : log }.
Arguments rt {HC HA}.
Arguments acct {HC HA}.
Arguments ord {HC HA}.
Arguments alive {HC HA}.
Arguments kg {HC HA}.
Arguments challenges {HC HA}.
Arguments alpns {HC HA}.
Arguments wlog {HC HA}.

(** Updates of a field. *)
Definition set_post_pool (x : option nat) (p : post_state) : post_state :=
  PostState x (post_url p) (post_payload p) (post_handler p) (post_retried p) (post_fail_pool p)
    (post_fail_req p).
Definition set_post_url (x : bytes) (p : post_state) : post_state :=
  PostState (post_pool p) x (post_payload p) (post_handler p) (post_retried p) (post_fail_pool p)
    (post_fail_req p).
Definition set_post_payload (x : bytes) (p : post_state) : post_state :=
  PostState (post_pool p) (post_url p) x (post_handler p) (post_retried p) (post_fail_pool p)
    (post_fail_req p).
Definition set_post_handler (x : option post_handler_pt) (p : post_state) : post_state :=
  PostState (post_pool p) (post_url p) (post_payload p) x (post_retried p) (post_fail_pool p)
    (post_fail_req p).
Definition set_post_retried (x : bool) (p : post_state) : post_state :=
  PostState (post_pool p) (post_url p) (post_payload p) (post_handler p) x (post_fail_pool p)
    (post_fail_req p).
Definition set_post_fail_pool (x : option nat) (p : post_state) : post_state :=
  PostState (post_pool p) (post_url p) (post_payload p) (post_handler p) (post_retried p) x
    (post_fail_req p).
Definition set_post_fail_req (x : option nat) (p : post_state) : post_state :=
  PostState (post_pool p) (post_url p) (post_payload p) (post_handler p) (post_retried p)
    (post_fail_pool p) x.

Definition set_handles (x : list nat) (r : runtime) : runtime :=
  Runtime x (next_handle r) (calls_made r) (inflight r) (sigchld_blocked r) (clock r).
Definition set_next_handle (x : nat) (r : runtime) : runtime :=
  Runtime (handles r) x (calls_made r) (inflight r) (sigchld_blocked r) (clock r).
Definition set_calls_made (x : nat) (r : runtime) : runtime :=
  Runtime (handles r) (next_handle r) x (inflight r) (sigchld_blocked r) (clock r).
Definition set_inflight (x : list http) (r : runtime) : runtime :=
  Runtime (handles r) (next_handle r) (calls_made r) x (sigchld_blocked r) (clock r).
Definition set_sigchld_blocked (x : bool) (r : runtime) : runtime :=
  Runtime (handles r) (next_handle r) (calls_made r) (inflight r) x (clock r).
Definition set_clock (x : Z) (r : runtime) : runtime :=
  Runtime (handles r) (next_handle r) (calls_made r) (inflight r) (sigchld_blocked r) x.

Definition set_kid (x : bytes) (a : account) : account :=
  Account x (acct_key a) (new_nonce_url a) (new_account_url a) (nonce a) (nonce_pool a) (post a)
    (acct_pool a) (register_retried a) (acct_done a) (acct_results a).
Definition set_acct_key (x : option nat) (a : account) : account :=
  Account (kid a) x (new_nonce_url a) (new_account_url a) (nonce a) (nonce_pool a) (post a) (acct_pool
    a) (register_retried a) (acct_done a) (acct_results a).
Definition set_new_nonce_url (x : bytes) (a : account) : account :=
  Account (kid a) (acct_key a) x (new_account_url a) (nonce a) (nonce_pool a) (post a) (acct_pool a)
    (register_retried a) (acct_done a) (acct_results a).
Definition set_new_account_url (x : bytes) (a : account) : account :=
  Account (kid a) (acct_key a) (new_nonce_url a) x (nonce a) (nonce_pool a) (post a) (acct_pool a)
    (register_retried a) (acct_done a) (acct_results a).
Definition set_nonce (x : bytes) (a : account) : account :=
  Account (kid a) (acct_key a) (new_nonce_url a) (new_account_url a) x (nonce_pool a) (post a)
    (acct_pool a) (register_retried a) (acct_done a) (acct_results a).
Definition set_nonce_pool (x : option nat) (a : account) : account :=
  Account (kid a) (acct_key a) (new_nonce_url a) (new_account_url a) (nonce a) x (post a) (acct_pool a)
    (register_retried a) (acct_done a) (acct_results a).
Definition set_post (x : post_state) (a : account) : account :=
  Account (kid a) (acct_key a) (new_nonce_url a) (new_account_url a) (nonce a) (nonce_pool a) x
    (acct_pool a) (register_retried a) (acct_done a) (acct_results a).
Definition set_acct_pool (x : option nat) (a : account) : account :=
  Account (kid a) (acct_key a) (new_nonce_url a) (new_account_url a) (nonce a) (nonce_pool a) (post a) x
    (register_retried a) (acct_done a) (acct_results a).
Definition set_register_retried (x : bool) (a : account) : account :=
  Account (kid a) (acct_key a) (new_nonce_url a) (new_account_url a) (nonce a) (nonce_pool a) (post a)
    (acct_pool a) x (acct_done a) (acct_results a).
Definition set_acct_done (x : bool) (a : account) : account :=
  Account (kid a) (acct_key a) (new_nonce_url a) (new_account_url a) (nonce a) (nonce_pool a) (post a)
    (acct_pool a) (register_retried a) x (acct_results a).
Definition set_acct_results (x : list Z) (a : account) : account :=
  Account (kid a) (acct_key a) (new_nonce_url a) (new_account_url a) (nonce a) (nonce_pool a) (post a)
    (acct_pool a) (register_retried a) (acct_done a) x.

Definition set_new_order_url (x : bytes) (u : urls) : urls :=
  Urls x (authz_url u) (challenge_url u) (order_url u) (finalize_url u) (cert_url u).
Definition set_authz_url (x : bytes) (u : urls) : urls :=
  Urls (new_order_url u) x (challenge_url u) (order_url u) (finalize_url u) (cert_url u).
Definition set_challenge_url (x : bytes) (u : urls) : urls :=
  Urls (new_order_url u) (authz_url u) x (order_url u) (finalize_url u) (cert_url u).
Definition set_order_url (x : bytes) (u : urls) : urls :=
  Urls (new_order_url u) (authz_url u) (challenge_url u) x (finalize_url u) (cert_url u).
Definition set_finalize_url (x : bytes) (u : urls) : urls :=
  Urls (new_order_url u) (authz_url u) (challenge_url u) (order_url u) x (cert_url u).
Definition set_cert_url (x : bytes) (u : urls) : urls :=
  Urls (new_order_url u) (authz_url u) (challenge_url u) (order_url u) (finalize_url u) x.

Definition set_token (x : bytes) (c : challenge_state) : challenge_state :=
  ChallengeState x (keyauth c) (dns_txt_value c) (challenge_set c) (alpn_set c) (dns_set c).
Definition set_keyauth (x : bytes) (c : challenge_state) : challenge_state :=
  ChallengeState (token c) x (dns_txt_value c) (challenge_set c) (alpn_set c) (dns_set c).
Definition set_dns_txt_value (x : bytes) (c : challenge_state) : challenge_state :=
  ChallengeState (token c) (keyauth c) x (challenge_set c) (alpn_set c) (dns_set c).
Definition set_challenge_set (x : bool) (c : challenge_state) : challenge_state :=
  ChallengeState (token c) (keyauth c) (dns_txt_value c) x (alpn_set c) (dns_set c).
Definition set_alpn_set (x : bool) (c : challenge_state) : challenge_state :=
  ChallengeState (token c) (keyauth c) (dns_txt_value c) (challenge_set c) x (dns_set c).
Definition set_dns_set (x : bool) (c : challenge_state) : challenge_state :=
  ChallengeState (token c) (keyauth c) (dns_txt_value c) (challenge_set c) (alpn_set c) x.

Definition set_poll_tries (x : nat) (c : counters) : counters :=
  Counters x (order_poll_tries c) (finalize_retried c) (download_retried c).
Definition set_order_poll_tries (x : nat) (c : counters) : counters :=
  Counters (poll_tries c) x (finalize_retried c) (download_retried c).
Definition set_finalize_retried (x : bool) (c : counters) : counters :=
  Counters (poll_tries c) (order_poll_tries c) x (download_retried c).
Definition set_download_retried (x : bool) (c : counters) : counters :=
  Counters (poll_tries c) (order_poll_tries c) (finalize_retried c) x.

Definition set_poll_timer (x : bool) (t : timers) : timers :=
  Timers x (order_timer t) (dns_delay_timer t) (dns_hook_timer t) (dns_hook_deadline_timer t).
Definition set_order_timer (x : bool) (t : timers) : timers :=
  Timers (poll_timer t) x (dns_delay_timer t) (dns_hook_timer t) (dns_hook_deadline_timer t).
Definition set_dns_delay_timer (x : bool) (t : timers) : timers :=
  Timers (poll_timer t) (order_timer t) x (dns_hook_timer t) (dns_hook_deadline_timer t).
Definition set_dns_hook_timer (x : bool) (t : timers) : timers :=
  Timers (poll_timer t) (order_timer t) (dns_delay_timer t) x (dns_hook_deadline_timer t).
Definition set_dns_hook_deadline_timer (x : bool) (t : timers) : timers :=
  Timers (poll_timer t) (order_timer t) (dns_delay_timer t) (dns_hook_timer t) x.

Definition set_hook_running (x : bool) (h : hook_state) : hook_state :=
  HookState x (hook_is_add h) (hook_timed_out h) (hook_cleanup h) (hook_after_authz h) (hook_sigmask h)
    (finish_rc h).
Definition set_hook_is_add (x : bool) (h : hook_state) : hook_state :=
  HookState (hook_running h) x (hook_timed_out h) (hook_cleanup h) (hook_after_authz h) (hook_sigmask h)
    (finish_rc h).
Definition set_hook_timed_out (x : bool) (h : hook_state) : hook_state :=
  HookState (hook_running h) (hook_is_add h) x (hook_cleanup h) (hook_after_authz h) (hook_sigmask h)
    (finish_rc h).
Definition set_hook_cleanup (x : bool) (h : hook_state) : hook_state :=
  HookState (hook_running h) (hook_is_add h) (hook_timed_out h) x (hook_after_authz h) (hook_sigmask h)
    (finish_rc h).
Definition set_hook_after_authz (x : bool) (h : hook_state) : hook_state :=
  HookState (hook_running h) (hook_is_add h) (hook_timed_out h) (hook_cleanup h) x (hook_sigmask h)
    (finish_rc h).
Definition set_hook_sigmask (x : bool) (h : hook_state) : hook_state :=
  HookState (hook_running h) (hook_is_add h) (hook_timed_out h) (hook_cleanup h) (hook_after_authz h) x
    (finish_rc h).
Definition set_finish_rc (x : Z) (h : hook_state) : hook_state :=
  HookState (hook_running h) (hook_is_add h) (hook_timed_out h) (hook_cleanup h) (hook_after_authz h)
    (hook_sigmask h) x.

Definition set_order_pool (x : option nat) (i : issue_state) : issue_state :=
  IssueState x (cert_key i) (cert_key_pem i) (cert_chain i).
Definition set_cert_key (x : option nat) (i : issue_state) : issue_state :=
  IssueState (order_pool i) x (cert_key_pem i) (cert_chain i).
Definition set_cert_key_pem (x : bytes) (i : issue_state) : issue_state :=
  IssueState (order_pool i) (cert_key i) x (cert_chain i).
Definition set_cert_chain (x : bytes) (i : issue_state) : issue_state :=
  IssueState (order_pool i) (cert_key i) (cert_key_pem i) x.

Definition set_o_urls (x : urls) (o : order) : order :=
  Order x (o_chal o) (o_count o) (o_timers o) (o_hook o) (o_issue o) (done o) (retry_after o).
Definition set_o_chal (x : challenge_state) (o : order) : order :=
  Order (o_urls o) x (o_count o) (o_timers o) (o_hook o) (o_issue o) (done o) (retry_after o).
Definition set_o_count (x : counters) (o : order) : order :=
  Order (o_urls o) (o_chal o) x (o_timers o) (o_hook o) (o_issue o) (done o) (retry_after o).
Definition set_o_timers (x : timers) (o : order) : order :=
  Order (o_urls o) (o_chal o) (o_count o) x (o_hook o) (o_issue o) (done o) (retry_after o).
Definition set_o_hook (x : hook_state) (o : order) : order :=
  Order (o_urls o) (o_chal o) (o_count o) (o_timers o) x (o_issue o) (done o) (retry_after o).
Definition set_o_issue (x : issue_state) (o : order) : order :=
  Order (o_urls o) (o_chal o) (o_count o) (o_timers o) (o_hook o) x (done o) (retry_after o).
Definition set_done (x : bool) (o : order) : order :=
  Order (o_urls o) (o_chal o) (o_count o) (o_timers o) (o_hook o) (o_issue o) x (retry_after o).
Definition set_retry_after (x : Z) (o : order) : order :=
  Order (o_urls o) (o_chal o) (o_count o) (o_timers o) (o_hook o) (o_issue o) (done o) x.

Definition set_kg_task (x : bool) (k : keygen) : keygen := Keygen x (kg_mine k) (kg_busy k).
Definition set_kg_mine (x : bool) (k : keygen) : keygen := Keygen (kg_task k) x (kg_busy k).
Definition set_kg_busy (x : bool) (k : keygen) : keygen := Keygen (kg_task k) (kg_mine k) x.

Definition set_hooks_run (x : list (list bytes)) (l : log) : log := Log x (stored l) (counted l) (results l).
Definition set_stored (x : list (bytes * bytes)) (l : log) : log :=
  Log (hooks_run l) x (counted l) (results l).
Definition set_counted (x : nat) (l : log) : log := Log (hooks_run l) (stored l) x (results l).
Definition set_results (x : list Z) (l : log) : log := Log (hooks_run l) (stored l) (counted l) x.

Section WorldUpdates.
Context {HC HA : Type}.
Definition set_rt (x : runtime) (w : world HC HA) : world HC HA :=
  World HC HA x (acct w) (ord w) (alive w) (kg w) (challenges w) (alpns w) (wlog w).
Definition set_acct (x : account) (w : world HC HA) : world HC HA :=
  World HC HA (rt w) x (ord w) (alive w) (kg w) (challenges w) (alpns w) (wlog w).
Definition set_ord (x : order) (w : world HC HA) : world HC HA :=
  World HC HA (rt w) (acct w) x (alive w) (kg w) (challenges w) (alpns w) (wlog w).
Definition set_alive (x : bool) (w : world HC HA) : world HC HA :=
  World HC HA (rt w) (acct w) (ord w) x (kg w) (challenges w) (alpns w) (wlog w).
Definition set_kg (x : keygen) (w : world HC HA) : world HC HA :=
  World HC HA (rt w) (acct w) (ord w) (alive w) x (challenges w) (alpns w) (wlog w).
Definition set_challenges (x : zone HC) (w : world HC HA) : world HC HA :=
  World HC HA (rt w) (acct w) (ord w) (alive w) (kg w) x (alpns w) (wlog w).
Definition set_alpns (x : zone HA) (w : world HC HA) : world HC HA :=
  World HC HA (rt w) (acct w) (ord w) (alive w) (kg w) (challenges w) x (wlog w).
Definition set_wlog (x : log) (w : world HC HA) : world HC HA :=
  World HC HA (rt w) (acct w) (ord w) (alive w) (kg w) (challenges w) (alpns w) x.
End WorldUpdates.

(** ** The environment *)

(** What becomes of a request: refused at once, left in flight, or completed
    before [ngx_autocert_acme_request] returns, with the code its handler is
    called with and the reply (a cached address whose connect fails, a local CA). *)
Inductive verdict :=
  | Refused
  | InFlight
  | Inline (rc status : Z) (headers : list (bytes * bytes)) (body : bytes).

(** The order's inputs. *)
Record conf := Conf {
  directory_url : bytes;
  domain : bytes;
  profile : bytes;
  challenge : Z;
  has_alpn_zone : bool;
  key_is_rsa : bool;
  dns_hook_add : bytes;
  dns_hook_remove : bytes;
  counts_new_order : bool;
  email : bytes;
  eab_kid : bytes;
  eab_hmac_key : bytes }.

(** [ok n]: the [n]-th call that may fail succeeds; [net n k]: what becomes of a
    request made as the [n]-th such call, on behalf of the handler [k];
    [json_oom n]: which allocations of the JSON parser fail when it is run as
    the [n]-th call.  The rest are the results of nginx's parsers and of the
    cryptography (keys are named by their handles). *)
Record env := Env {
  ok : nat -> bool;
  net : nat -> option post_handler_pt -> verdict;
  json_oom : nat -> nat -> bool;
  ngx_inet_addr : bytes -> Z;
  ngx_inet6_addr : bytes -> option bytes;
  ngx_parse_http_time : bytes -> option Z;
  jws_alg : nat -> option bytes;
  jwk_public : nat -> bytes;
  jwk_thumbprint : nat -> bytes;
  jws_sign : nat -> bytes -> bytes -> bytes;
  hmac_sha256 : bytes -> bytes -> bytes;
  base64url_encode : bytes -> bytes;
  base64url_decode : bytes -> option bytes;
  dns01_txt : bytes -> bytes;
  key_to_pem : nat -> bytes;
  cert_to_pem : nat -> bytes;
  csr_der : nat -> bytes -> bytes;
  validate_cert : bytes -> bytes -> bool }.

Section Primitives.
Context {HC HA : Type} (E : env).
Abbreviation W := (world HC HA).
Implicit Types (w : W).

Definition read {A} (f : W -> A) : prog W A := fun w => Ret (f w) w.
Definition update (f : W -> W) : prog W unit := fun w => Ret tt (f w).

(** A computation on a part of the state. *)
Definition zoom {S A} (get : W -> S) (put : S -> W -> W) (m : prog S A) : prog W A := fun w =>
  match m (get w) with
  | Ret a s => Ret a (put s w)
  | Err s => Err (put s w)
  | Fault => Fault
  | NoFuel => NoFuel
  end.

(** A call that may fail. *)
Definition attempt : prog W bool := fun w =>
  let r := rt w in Ret (ok E (calls_made r)) (set_rt (set_calls_made (S (calls_made r)) r) w).

(** [ngx_create_pool], [EVP_PKEY] and [X509] constructors; [None] is NULL. *)
Definition create : prog W (option nat) := fun w =>
  let r := rt w in
  let r' := set_calls_made (S (calls_made r)) r in
  if ok E (calls_made r) then
    Ret (Some (next_handle r))
      (set_rt (set_handles (next_handle r :: handles r) (set_next_handle (S (next_handle r)) r')) w)
  else Ret None (set_rt r' w).

(** [ngx_destroy_pool], [ngx_http_autocert_key_free], [X509_free]: releasing what
    is not held is a fault. *)
Definition destroy (p : nat) : prog W unit := fun w =>
  let r := rt w in
  if decide (p ∈ handles r)
  then Ret tt (set_rt (set_handles (filter (fun q => q <> p) (handles r)) r) w)
  else Fault.

Definition destroy_opt (p : option nat) : prog W unit :=
  match p with Some p => destroy p | None => ret tt end.

(** Access to memory of a pool. *)
Definition touch (p : nat) : prog W unit := fun w =>
  if decide (p ∈ handles (rt w)) then Ret tt w else Fault.

(** [ngx_pnalloc]; a NULL pool is a fault. *)
Definition pnalloc (p : nat) : prog W bool := touch p;; attempt.
Definition pnalloc_opt (p : option nat) : prog W bool :=
  match p with Some p => pnalloc p | None => fault end.

(** Access to the order, which its last handler has freed. *)
Definition order_ : prog W order := fun w => if alive w then Ret (ord w) w else Fault.
Definition update_order (f : order -> order) : prog W unit := fun w =>
  if alive w then Ret tt (set_ord (f (ord w)) w) else Fault.
Definition account_ : prog W account := read acct.
Definition update_account (f : account -> account) : prog W unit := update (fun w => set_acct (f (acct w)) w).

(** [ngx_autocert_json_parse(req->pool, req->body_out)]. *)
Definition parse_json (q : reply) : prog W (option json) :=
  touch (q_pool q);;
  let! n := read (fun w => calls_made (rt w)) in
  attempt;;
  ret (ngx_autocert_json_parse (q_body q) (json_oom E n)).

(** [ngx_autocert_acme_header(req, name)]; an empty value counts as none. *)
Definition header (q : reply) (name : string) : prog W (option bytes) :=
  touch (q_pool q);;
  ret (match ngx_autocert_acme_header (q_headers q) (str name) with
       | Some [] => None
       | v => v
       end).

(** [ngx_autocert_json_object_str(v, key) == NGX_OK], with the value. *)
Definition object_str (v : option json) (key : string) : option bytes :=
  match ngx_autocert_json_object_str v (str key) with
  | (rc, s) => if rc =? NGX_OK then s else None
  end.

(** [s.len == sizeof(lit) - 1 && ngx_strncmp(s.data, lit, s.len) == 0]. *)
Definition str_is (s : option bytes) (lit : string) : bool :=
  match s with Some s => key_match s (str lit) | None => false end.

(** [ngx_autocert_acme_request]: NGX_ERROR, or NGX_OK once the request is in
    flight or has been completed. *)
Definition ngx_autocert_acme_request (complete : acme_handler_pt -> reply -> Z -> prog W unit)
    (k : option post_handler_pt) (h : http) : prog W Z :=
  touch (h_pool h);;
  let! n := read (fun w => calls_made (rt w)) in
  attempt;;
  match net E n k with
  | Refused => ret NGX_ERROR
  | InFlight => update (fun w => set_rt (set_inflight (h :: inflight (rt w)) (rt w)) w);; ret NGX_OK
  | Inline rc status headers body =>
      complete (h_handler h) (Reply (h_pool h) status headers body) rc;; ret NGX_OK
  end.
End Primitives.
