(* ===== verification/Account.v ===== *)
(** * The ACME account (src/src/ngx_autocert_account.c): definitions

    Registration, and the account-signed POST with its one retry on a bad nonce.
    The account key file ([load_key], [save_key]) is a call that may fail. *)

From S2P Require Import Prelude NgxCore Rbtree Shm Store Json Http OrderState.

Local Open Scope Z_scope.
Local Open Scope prog_scope.

(** ** What is embedded in JSON *)

Definition ngx_autocert_account_json_safe (s : bytes) : bool :=
  forallb (fun c => negb ((c <? 0x20) || (c =? 34) || (c =? 92))) s.

(** A quotation mark, in the literals below. *)
Definition qq : bytes := [34].

(** The protected header of an account-signed POST. *)
Definition kid_header (alg kid nonce url : bytes) : bytes :=
  str "{" ++ qq ++ str "alg" ++ qq ++ str ":" ++ qq ++ alg ++ qq ++ str ","
  ++ qq ++ str "kid" ++ qq ++ str ":" ++ qq ++ kid ++ qq ++ str ","
  ++ qq ++ str "nonce" ++ qq ++ str ":" ++ qq ++ nonce ++ qq ++ str ","
  ++ qq ++ str "url" ++ qq ++ str ":" ++ qq ++ url ++ qq ++ str "}".

(** The protected header of newAccount, with the public key itself. *)
Definition jwk_header (alg jwk nonce url : bytes) : bytes :=
  str "{" ++ qq ++ str "alg" ++ qq ++ str ":" ++ qq ++ alg ++ qq ++ str ","
  ++ qq ++ str "jwk" ++ qq ++ str ":" ++ jwk ++ str ","
  ++ qq ++ str "nonce" ++ qq ++ str ":" ++ qq ++ nonce ++ qq ++ str ","
  ++ qq ++ str "url" ++ qq ++ str ":" ++ qq ++ url ++ qq ++ str "}".

(** The protected header of the external account binding. *)
Definition eab_header (kid url : bytes) : bytes :=
  str "{" ++ qq ++ str "alg" ++ qq ++ str ":" ++ qq ++ str "HS256" ++ qq ++ str ","
  ++ qq ++ str "kid" ++ qq ++ str ":" ++ qq ++ kid ++ qq ++ str ","
  ++ qq ++ str "url" ++ qq ++ str ":" ++ qq ++ url ++ qq ++ str "}".

Definition eab_object (protected payload signature : bytes) : bytes :=
  str "{" ++ qq ++ str "protected" ++ qq ++ str ":" ++ qq ++ protected ++ qq ++ str ","
  ++ qq ++ str "payload" ++ qq ++ str ":" ++ qq ++ payload ++ qq ++ str ","
  ++ qq ++ str "signature" ++ qq ++ str ":" ++ qq ++ signature ++ qq ++ str "}".

(** The newAccount payload; [contact] is the whole member, [eab] the value. *)
Definition contact_member (email : bytes) : bytes :=
  str "," ++ qq ++ str "contact" ++ qq ++ str ":[" ++ qq ++ str "mailto:" ++ email ++ qq ++ str "]".

Definition account_payload (contact eab : bytes) : bytes :=
  str "{" ++ qq ++ str "termsOfServiceAgreed" ++ qq ++ str ":true"
  ++ contact
  ++ (if (length eab =? 0)%nat then []
      else str "," ++ qq ++ str "externalAccountBinding" ++ qq ++ str ":" ++ eab)
  ++ str "}".

Section Account.
Context {HC HA : Type} (cf : conf) (E : env).
Abbreviation W := (world HC HA).
Abbreviation create := (create E).
Abbreviation attempt := (attempt E).
Abbreviation pnalloc := (pnalloc E).
Abbreviation pnalloc_opt := (pnalloc_opt E).
Abbreviation parse_json := (parse_json E).

(** [complete h q rc]: the handler [h] is called with [q] and [rc], for requests
    that complete before [ngx_autocert_acme_request] returns. *)
Context (complete : acme_handler_pt -> reply -> Z -> prog W unit).
Abbreviation acme_request := (ngx_autocert_acme_request E complete).

Definition set_post_field (f : post_state -> post_state) : prog W unit :=
  update_account (fun a => set_post (f (post a)) a).

(** The nonce's pool is reset on every refresh: its handle stays. *)
Definition ngx_autocert_account_set_nonce (n : bytes) : prog W Z :=
  let! a := account_ in
  let! p :=
    match nonce_pool a with
    | None =>
        let! p := create in
        update_account (set_nonce_pool p);; ret p
    | Some p => touch p;; ret (Some p)
    end in
  match p with
  | None => ret NGX_ERROR
  | Some p =>
      let! room := pnalloc p in
      if negb room then update_account (set_nonce []);; ret NGX_ERROR
      else update_account (set_nonce n);; ret NGX_OK
  end.

(** The [Replay-Nonce] of a reply, when it has one, is kept. *)
Definition refresh_nonce (q : reply) : prog W Z :=
  let! n := header q "Replay-Nonce" in
  match n with
  | Some n => ngx_autocert_account_set_nonce n
  | None => ret NGX_DECLINED
  end.

(** [rc == NGX_OK && (req->status == 200 || req->status == 204)] and a nonce kept. *)
Definition nonce_reply (q : reply) (rc : Z) : prog W bool :=
  if (rc =? NGX_OK) && ((q_status q =? 200) || (q_status q =? 204)) then
    let! r := refresh_nonce q in ret (r =? NGX_OK)
  else ret false.

(** ** Requests of the account itself *)

(** Also [ngx_autocert_order_get], with the order's handler. *)
Definition ngx_autocert_account_start (method url body : bytes) (handler : acme_handler_pt) : prog W Z :=
  let! pool := create in
  match pool with
  | None => ret NGX_ERROR
  | Some pool =>
      let! req := pnalloc pool in
      if negb req then destroy pool;; ret NGX_ERROR
      else
        let! rc := acme_request None (Http handler pool method url body) in
        if negb (rc =? NGX_OK) then destroy pool;; ret NGX_ERROR
        else ret NGX_OK
  end.

(** ** The account-signed POST *)

Definition ngx_autocert_account_is_bad_nonce (q : reply) : prog W bool :=
  touch (q_pool q);;
  if (q_status q <? 400) || (length (q_body q) =? 0)%nat then ret false
  else
    let! root := parse_json q in
    match object_str root "type" with
    | None => ret false
    | Some type =>
        let n := length (str ":badNonce") in
        if (length type <? n)%nat then ret false
        else
          match ngx_strncmp (drop (length type - n) type) (str ":badNonce") n with
          | Some r => ret (r =? 0)
          | None => fault
          end
    end.

Definition ngx_autocert_account_send_post : prog W Z :=
  let! a := account_ in
  match acct_key a with
  | None => fault
  | Some key =>
  match jws_alg E key with
  | None => ret NGX_ERROR
  | Some alg =>
  if negb (ngx_autocert_account_json_safe (kid a)) || negb (ngx_autocert_account_json_safe (nonce a))
  then ret NGX_ERROR
  else
    let p := post a in
    let protected := kid_header alg (kid a) (nonce a) (post_url p) in
    let! room := pnalloc_opt (post_pool p) in
    if negb room then ret NGX_ERROR
    else
      touch key;;
      let! signed := attempt in
      if negb signed then ret NGX_ERROR
      else
        let jws := jws_sign E key protected (post_payload p) in
        let! pool := create in
        match pool with
        | None => ret NGX_ERROR
        | Some pool =>
            let! req := pnalloc pool in
            if negb req then destroy pool;; ret NGX_ERROR
            else
              let! url := pnalloc pool in
              let! body := pnalloc pool in
              if negb url || (negb (length jws =? 0)%nat && negb body)
              then destroy pool;; ret NGX_ERROR
              else
                let! rc := acme_request (post_handler p)
                             (Http account_post_done pool (str "POST") (post_url p) jws) in
                if negb (rc =? NGX_OK) then destroy pool;; ret NGX_ERROR
                else ret NGX_OK
        end
  end
  end.

(** The POST's two pools are given up. *)
Definition drop_post_pool : prog W unit :=
  let! a := account_ in
  destroy_opt (post_pool (post a));; set_post_field (set_post_pool None).
Definition drop_post_fail_pool : prog W unit :=
  let! a := account_ in
  destroy_opt (post_fail_pool (post a));; set_post_field (set_post_fail_pool None).

Definition ngx_autocert_account_post (url payload : bytes) (handler : post_handler_pt) : prog W Z :=
  let! a := account_ in
  if (length (kid a) =? 0)%nat || negb (bool_decide (is_Some (acct_key a))) then ret NGX_ERROR
  else if bool_decide (is_Some (post_pool (post a))) then ret NGX_ERROR
  else if negb (ngx_autocert_account_json_safe url) then ret NGX_ERROR
  else
    let! pool := create in
    match pool with
    | None => ret NGX_ERROR
    | Some pool =>
        set_post_field (set_post_pool (Some pool));;
        let! d_url := pnalloc pool in
        let! d_payload := pnalloc pool in
        if negb d_url || (negb (length payload =? 0)%nat && negb d_payload)
        then drop_post_pool;; ret NGX_ERROR
        else
          set_post_field (fun p => set_post_retried false (set_post_handler (Some handler)
                                    (set_post_payload payload (set_post_url url p))));;
          let! fail_pool := create in
          match fail_pool with
          | None => drop_post_pool;; ret NGX_ERROR
          | Some fail_pool =>
              set_post_field (set_post_fail_pool (Some fail_pool));;
              let! fail_req := pnalloc fail_pool in
              if negb fail_req then
                set_post_field (set_post_fail_req None);;
                drop_post_fail_pool;; drop_post_pool;; ret NGX_ERROR
              else
                set_post_field (set_post_fail_req (Some fail_pool));;
                let! rc := ngx_autocert_account_send_post in
                if negb (rc =? NGX_OK) then
                  drop_post_fail_pool;; set_post_field (set_post_fail_req None);;
                  drop_post_pool;; ret NGX_ERROR
                else ret NGX_OK
          end
    end.

(** [call k q rc]: the handler [k] given to [ngx_autocert_account_post] is called. *)
Context (call : post_handler_pt -> option reply -> Z -> prog W unit).

Definition ngx_autocert_account_post_fail : prog W unit :=
  let! a := account_ in
  let handler := post_handler (post a) in
  drop_post_pool;;
  let req := post_fail_req (post a) in
  set_post_field (fun p => set_post_fail_pool None (set_post_fail_req None p));;
  match handler with
  | None => destroy_opt req
  | Some handler =>
      match req with
      | None => call handler None NGX_ERROR
      | Some pool => call handler (Some (Reply pool 0 [] [])) NGX_ERROR
      end
  end.

Definition ngx_autocert_account_post_done (q : reply) (rc : Z) : prog W unit :=
  (if rc =? NGX_OK then refresh_nonce q;; ret tt else ret tt);;
  let! a := account_ in
  let! bad :=
    (if (rc =? NGX_OK) && negb (post_retried (post a)) then ngx_autocert_account_is_bad_nonce q
     else ret false) in
  if bad then
    set_post_field (set_post_retried true);;
    destroy (q_pool q);;
    let! pool := create in
    match pool with
    | None => ngx_autocert_account_post_fail
    | Some pool =>
        let! nreq := pnalloc pool in
        if negb nreq then destroy pool;; ngx_autocert_account_post_fail
        else
          let! a := account_ in
          let! rc := acme_request (post_handler (post a))
                       (Http account_renonce_done pool (str "GET") (new_nonce_url a) []) in
          if negb (rc =? NGX_OK) then destroy pool;; ngx_autocert_account_post_fail
          else ret tt
    end
  else
    drop_post_pool;;
    let! a := account_ in
    (if bool_decide (is_Some (post_fail_pool (post a)))
     then drop_post_fail_pool;; set_post_field (set_post_fail_req None) else ret tt);;
    let! a := account_ in
    match post_handler (post a) with
    | Some handler => call handler (Some q) rc
    | None => destroy (q_pool q)
    end.

Definition ngx_autocert_account_renonce_done (q : reply) (rc : Z) : prog W unit :=
  let! fresh := nonce_reply q rc in
  destroy (q_pool q);;
  let! sent := (if fresh then ngx_autocert_account_send_post else ret NGX_ERROR) in
  if negb (sent =? NGX_OK) then ngx_autocert_account_post_fail else ret tt.

(** ** Registration *)

Definition ngx_autocert_account_finish (rc : Z) : prog W unit :=
  let! a := account_ in
  if acct_done a then ret tt
  else
    update_account (set_acct_done true);;
    update_account (fun a => set_acct_results (acct_results a ++ [rc]) a).

(** [n] allocations from a pool, each made when those before it have succeeded. *)
Fixpoint pnallocs (n : nat) (p : option nat) : prog W bool :=
  match n with
  | O => ret true
  | S n => let! room := pnalloc_opt p in if room then pnallocs n p else ret false
  end.

(** [None] is NGX_ERROR.  The allocations are those of the header, the two
    encodings, the signing input, the code and its encoding, and the object. *)
Definition ngx_autocert_account_build_eab (jwk : bytes) : prog W (option bytes) :=
  let! a := account_ in
  if negb (ngx_autocert_account_json_safe (eab_kid cf)) then ret None
  else
    let! room := pnalloc_opt (acct_pool a) in
    match (if room then base64url_decode E (eab_hmac_key cf) else None) with
    | None => ret None
    | Some key =>
        if (length key =? 0)%nat then ret None
        else
          let! room := pnallocs 7 (acct_pool a) in
          if negb room then ret None
          else
            let protected := base64url_encode E (eab_header (eab_kid cf) (new_account_url a)) in
            let payload := base64url_encode E jwk in
            let signature := base64url_encode E (hmac_sha256 E key (protected ++ str "." ++ payload)) in
            ret (Some (eab_object protected payload signature))
    end.

Definition ngx_autocert_account_post_account : prog W Z :=
  let! a := account_ in
  match acct_key a with
  | None => fault
  | Some key =>
  match jws_alg E key with
  | None => ret NGX_ERROR
  | Some alg =>
  touch key;;
  let! got_jwk := pnalloc_opt (acct_pool a) in
  if negb got_jwk then ret NGX_ERROR
  else if negb (ngx_autocert_account_json_safe (nonce a))
          || negb (ngx_autocert_account_json_safe (new_account_url a)) then ret NGX_ERROR
  else
    let jwk := jwk_public E key in
    let! payload :=
      (if negb (length (email cf) =? 0)%nat || negb (length (eab_kid cf) =? 0)%nat then
         let! contact :=
           (if negb (length (email cf) =? 0)%nat then
              if negb (ngx_autocert_account_json_safe (email cf)) then ret None
              else
                let! room := pnalloc_opt (acct_pool a) in
                ret (if room then Some (contact_member (email cf)) else None)
            else ret (Some [])) in
         match contact with
         | None => ret None
         | Some contact =>
             let! eab :=
               (if negb (length (eab_kid cf) =? 0)%nat then ngx_autocert_account_build_eab jwk
                else ret (Some [])) in
             match eab with
             | None => ret None
             | Some eab =>
                 let! room := pnalloc_opt (acct_pool a) in
                 ret (if room then Some (account_payload contact eab) else None)
             end
         end
       else ret (Some (account_payload [] []))) in
    match payload with
    | None => ret NGX_ERROR
    | Some payload =>
        let! room := pnalloc_opt (acct_pool a) in
        if negb room then ret NGX_ERROR
        else
          let! signed := attempt in
          if negb signed then ret NGX_ERROR
          else
            let protected := jwk_header alg jwk (nonce a) (new_account_url a) in
            ngx_autocert_account_start (str "POST") (new_account_url a)
              (jws_sign E key protected payload) account_register_done
    end
  end
  end.

(** An absolute https URL, as the directory must give. *)
Definition https_url (u : bytes) : bool :=
  (length (str "https://") <? length u)%nat
  && match ngx_strncasecmp u (str "https://") (length (str "https://")) with
     | Some r => r =? 0
     | None => false
     end.

(** [ngx_autocert_account_dup]. *)
Definition account_dup (f : account -> account) : prog W bool :=
  let! a := account_ in
  let! room := pnalloc_opt (acct_pool a) in
  if room then update_account f;; ret true else ret false.

Definition ngx_autocert_account_directory_done (q : reply) (rc : Z) : prog W unit :=
  let! good :=
    (if (rc =? NGX_OK) && (q_status q =? 200) then
       let! root := parse_json q in
       match object_str root "newNonce", object_str root "newAccount" with
       | Some nn, Some na =>
           if https_url nn && https_url na then
             let! d1 := account_dup (set_new_nonce_url nn) in
             if d1 then account_dup (set_new_account_url na) else ret false
           else ret false
       | _, _ => ret false
       end
     else ret false) in
  destroy (q_pool q);;
  if negb good then ngx_autocert_account_finish NGX_ERROR
  else
    let! a := account_ in
    let! rc := ngx_autocert_account_start (str "GET") (new_nonce_url a) [] account_nonce_done in
    if negb (rc =? NGX_OK) then ngx_autocert_account_finish NGX_ERROR else ret tt.

(** Also [ngx_autocert_account_register_renonce_done]: the two functions differ
    only in the message they log. *)
Definition ngx_autocert_account_nonce_done (q : reply) (rc : Z) : prog W unit :=
  let! good := nonce_reply q rc in
  destroy (q_pool q);;
  if negb good then ngx_autocert_account_finish NGX_ERROR
  else
    let! rc := ngx_autocert_account_post_account in
    if negb (rc =? NGX_OK) then ngx_autocert_account_finish NGX_ERROR else ret tt.

Definition ngx_autocert_account_register_renonce_done : reply -> Z -> prog W unit :=
  ngx_autocert_account_nonce_done.

Definition ngx_autocert_account_register_done (q : reply) (rc : Z) : prog W unit :=
  let! good :=
    (if (rc =? NGX_OK) && ((q_status q =? 201) || (q_status q =? 200)) then
       let! loc := header q "Location" in
       match loc with
       | None => ret false
       | Some loc =>
           let! d := account_dup (set_kid loc) in
           if d then refresh_nonce q;; ret true else ret false
       end
     else ret false) in
  let! a := account_ in
  let! bad := (if negb good && negb (register_retried a) then ngx_autocert_account_is_bad_nonce q
               else ret false) in
  if bad then
    update_account (set_register_retried true);;
    destroy (q_pool q);;
    let! rc := ngx_autocert_account_start (str "GET") (new_nonce_url a) [] account_register_renonce_done in
    if negb (rc =? NGX_OK) then ngx_autocert_account_finish NGX_ERROR else ret tt
  else
    destroy (q_pool q);;
    ngx_autocert_account_finish (if good then NGX_OK else NGX_ERROR).

Definition ngx_autocert_account_free : prog W unit :=
  let! a := account_ in
  destroy_opt (acct_key a);; update_account (set_acct_key None);;
  destroy_opt (nonce_pool a);; update_account (set_nonce_pool None);;
  drop_post_pool;;
  (if bool_decide (is_Some (post_fail_pool (post a)))
   then drop_post_fail_pool;; set_post_field (set_post_fail_req None) else ret tt);;
  destroy_opt (acct_pool a);; update_account (set_acct_pool None).

(** [ngx_autocert_account_load_key] gives a key or fails. *)
Definition ngx_autocert_account_register : prog W Z :=
  update_account (fun a => set_acct_done false (set_register_retried false (set_acct_key None
    (set_kid [] (set_new_nonce_url [] (set_new_account_url [] (set_nonce [] a)))))));;
  let! pool := create in
  update_account (set_acct_pool pool);;
  match pool with
  | None => ret NGX_ERROR
  | Some pool =>
      let! key := create in
      update_account (set_acct_key key);;
      match key with
      | None => destroy pool;; update_account (set_acct_pool None);; ret NGX_ERROR
      | Some _ =>
          let! rc := ngx_autocert_account_start (str "GET") (directory_url cf) [] account_directory_done in
          if negb (rc =? NGX_OK) then ngx_autocert_account_free;; ret NGX_ERROR
          else ret NGX_OK
      end
  end.
End Account.
