(* ===== verification/Config.v ===== *)
(** * Configuration (ngx_http_autocert_module.c)

    The directives, their defaults and limits, the inheritance from http{} to server{},
    and the grouping of the names to issue by the CA of their server.  nginx drops a
    configuration that is refused: what is left behind in it by then is not tracked. *)

From S2P Require Import Prelude NgxCore Loadcap Ident Alpn Expiry OrderState Account.

Local Open Scope Z_scope.
Local Open Scope prog_scope.

(** ** Data (ngx_http_autocert_conf.h) *)

(** A field that was not set is [None] (NGX_CONF_UNSET, or a string whose data is NULL). *)
Record ca_conf := CaConf {
  ca : option bytes;
  staging : option bool;
  ca_certificate : option bytes;
  issuance_certificate : option bytes;
  eab_kid : option bytes;
  eab_hmac_key : option bytes }.

Record srv_conf := SrvConf {
  enable : option bool;
  s_email : option bytes;
  s_ca : ca_conf;
  wildcards : option (list bytes) }.

(** What the directives of http{} set. *)
Record knobs := Knobs {
  renew_before : option Z;
  key_types : option (list Z);
  key_type : option Z;
  store : option Z;
  path : option bytes;
  challenge : option Z;
  profile : option bytes;
  resolver : option nat;
  resolver_timeout : option Z;
  dns_hook_add : option bytes;
  dns_hook_remove : option bytes;
  dns_propagation_delay : option Z;
  dns_hook_timeout : option Z;
  runtime_ttl : option Z;
  handshake_load_limit : option Z;
  test_token : bytes;
  test_alpn_domain : bytes }.

(** One CA: the names issued by it, its account directory and contact. *)
Record entry := Entry {
  e_ca : ca_conf;
  e_names : list bytes;
  ca_hash : bytes;
  account_key_path : bytes;
  e_email : option bytes }.

Record server_name := Name { n_text : bytes; n_regex : bool }.
Record server := Server { server_names : list server_name; srv : srv_conf }.

(** The whole: what was set, the template for the servers, the servers, and what
    [ngx_http_autocert_postconfig] collects. *)
Record config := Config {
  main : knobs;
  template : srv_conf;
  servers : list server;
  email : option bytes;
  names : list bytes;
  ca_list : list entry;
  enabled_servers : nat;
  requests_zone : bool;
  alpn_zone : bool;
  challenge_zone : bool;
  serves_challenges : bool }.

Definition NGX_HTTP_AUTOCERT_STORE_SECURE : Z := 0.
Definition NGX_HTTP_AUTOCERT_STORE_CERTBOT : Z := 1.
Definition NGX_HTTP_AUTOCERT_DEFAULT_CA : bytes := str "https://acme-v02.api.letsencrypt.org/directory".
Definition NGX_HTTP_AUTOCERT_STAGING_CA : bytes := str "https://acme-staging-v02.api.letsencrypt.org/directory".
Definition NGX_AUTOCERT_CA_HASH_HEX : nat := 16.

Definition set_key_types l t k := Knobs (renew_before k) l t (store k) (path k) (challenge k) (profile k) (resolver k) (resolver_timeout k) (dns_hook_add k) (dns_hook_remove k) (dns_propagation_delay k) (dns_hook_timeout k) (runtime_ttl k) (handshake_load_limit k) (test_token k) (test_alpn_domain k).
Definition set_store v k := Knobs (renew_before k) (key_types k) (key_type k) v (path k) (challenge k) (profile k) (resolver k) (resolver_timeout k) (dns_hook_add k) (dns_hook_remove k) (dns_propagation_delay k) (dns_hook_timeout k) (runtime_ttl k) (handshake_load_limit k) (test_token k) (test_alpn_domain k).
Definition set_challenge v k := Knobs (renew_before k) (key_types k) (key_type k) (store k) (path k) v (profile k) (resolver k) (resolver_timeout k) (dns_hook_add k) (dns_hook_remove k) (dns_propagation_delay k) (dns_hook_timeout k) (runtime_ttl k) (handshake_load_limit k) (test_token k) (test_alpn_domain k).
Definition set_resolver v k := Knobs (renew_before k) (key_types k) (key_type k) (store k) (path k) (challenge k) (profile k) v (resolver_timeout k) (dns_hook_add k) (dns_hook_remove k) (dns_propagation_delay k) (dns_hook_timeout k) (runtime_ttl k) (handshake_load_limit k) (test_token k) (test_alpn_domain k).
Definition set_load_limit v k := Knobs (renew_before k) (key_types k) (key_type k) (store k) (path k) (challenge k) (profile k) (resolver k) (resolver_timeout k) (dns_hook_add k) (dns_hook_remove k) (dns_propagation_delay k) (dns_hook_timeout k) (runtime_ttl k) v (test_token k) (test_alpn_domain k).

Definition set_server_ca (c : ca_conf) (sv : server) : server :=
  Server (server_names sv) (SrvConf (enable (srv sv)) (s_email (srv sv)) c (wildcards (srv sv))).
Definition set_servers l w := Config (main w) (template w) l (email w) (names w) (ca_list w) (enabled_servers w) (requests_zone w) (alpn_zone w) (challenge_zone w) (serves_challenges w).
Definition set_email e w := Config (main w) (template w) (servers w) e (names w) (ca_list w) (enabled_servers w) (requests_zone w) (alpn_zone w) (challenge_zone w) (serves_challenges w).
Definition set_names l w := Config (main w) (template w) (servers w) (email w) l (ca_list w) (enabled_servers w) (requests_zone w) (alpn_zone w) (challenge_zone w) (serves_challenges w).
Definition set_ca_list l w := Config (main w) (template w) (servers w) (email w) (names w) l (enabled_servers w) (requests_zone w) (alpn_zone w) (challenge_zone w) (serves_challenges w).
Definition set_enabled n w := Config (main w) (template w) (servers w) (email w) (names w) (ca_list w) n (requests_zone w) (alpn_zone w) (challenge_zone w) (serves_challenges w).
Definition set_requests_zone b w := Config (main w) (template w) (servers w) (email w) (names w) (ca_list w) (enabled_servers w) b (alpn_zone w) (challenge_zone w) (serves_challenges w).
Definition set_alpn_zone b w := Config (main w) (template w) (servers w) (email w) (names w) (ca_list w) (enabled_servers w) (requests_zone w) b (challenge_zone w) (serves_challenges w).
Definition set_challenge_zone b h w := Config (main w) (template w) (servers w) (email w) (names w) (ca_list w) (enabled_servers w) (requests_zone w) (alpn_zone w) b h.

Definition set_entry_email m e := Entry (e_ca e) (e_names e) (ca_hash e) (account_key_path e) m.
Definition set_entry_names l e := Entry (e_ca e) l (ca_hash e) (account_key_path e) (e_email e).

(** ** The state of a handler *)

(** What is being configured, and the calls that may fail made so far. *)
Record cf (A : Type) := Cf { it : A; calls : nat }.
Arguments Cf {A}.
Arguments it {A}.
Arguments calls {A}.

(** What a directive returns: NGX_CONF_OK, NGX_CONF_ERROR, or a message. *)
Inductive conf_rc := CONF_OK | CONF_ERROR | CONF_MSG (s : bytes).

(** The length of a string whose data may be NULL. *)
Definition len (s : option bytes) : nat := length (default [] s).

(** Equal lengths, and [ngx_strncmp] over them. *)
Definition str_eq (a b : bytes) : bool :=
  (length a =? length b)%nat && match ngx_strncmp a b (length b) with Some r => r =? 0 | None => false end.

(** [ngx_strcmp] and [ngx_strcasecmp] of nginx, on strings that end in a NUL. *)
Fixpoint ngx_strcmp (s1 s2 : bytes) : Z :=
  let c1 := default 0 (head s1) in
  let c2 := default 0 (head s2) in
  if c1 =? c2 then if c1 =? 0 then 0 else match s1 with _ :: s1' => ngx_strcmp s1' (tail s2) | [] => 0 end
  else c1 - c2.

Fixpoint ngx_strcasecmp (s1 s2 : bytes) : Z :=
  let c1 := lower (default 0 (head s1)) in
  let c2 := lower (default 0 (head s2)) in
  if c1 =? c2 then if c1 =? 0 then 0 else match s1 with _ :: s1' => ngx_strcasecmp s1' (tail s2) | [] => 0 end
  else c1 - c2.

(** ** What is not set *)

Definition ngx_http_autocert_create_main_conf : knobs :=
  Knobs None None None None None None None None None None None None None None None [] [].

Definition ngx_http_autocert_create_srv_conf : srv_conf := SrvConf None None (CaConf None None None None None None) None.

Section Configuring.
(** Which calls that may fail succeed, by their number; [ngx_conf_full_name]; SHA-256;
    nginx's address parsers. *)
Context (ok : nat -> bool) (full_name : nat -> bytes -> option bytes) (sha256 : bytes -> option bytes)
  (inet_addr : bytes -> Z) (inet6_addr : bytes -> option bytes).
Abbreviation P A B := (prog (cf A) B).

Definition get {A B} (f : A -> B) : P A B := fun w => Ret (f (it w)) w.
Definition upd {A} (f : A -> A) : P A unit := fun w => Ret tt (Cf (f (it w)) (calls w)).
Definition call {A} : P A nat := fun w => Ret (calls w) (Cf (it w) (S (calls w))).
Definition attempt {A} : P A bool := let! n := call in ret (ok n).

(** ** Directives *)

(** The scan of [ngx_http_autocert_is_wildcard]; [None] is a read past the end. *)
Fixpoint is_wildcard_loop (p : bytes) : option bool :=
  match p with
  | [] => Some true
  | c :: p' =>
      if c =? 42 then Some false
      else if c =? 46 then
        match p' with
        | [] => None
        | c' :: _ => if c' =? 46 then Some false else is_wildcard_loop p'
        end
      else is_wildcard_loop p'
  end.

Definition ngx_http_autocert_is_wildcard (name : bytes) : option bool :=
  match name with
  | 42 :: 46 :: ((c :: _) as rest) =>
      if (c =? 46) || bool_decide (last name = Some 46) then Some false else is_wildcard_loop rest
  | _ => Some false
  end.

Fixpoint wildcard_loop (args : list bytes) : P srv_conf conf_rc :=
  match args with
  | [] => ret CONF_OK
  | v :: args' =>
      match ngx_http_autocert_is_wildcard v with
      | None => fault
      | Some false => ret CONF_ERROR
      | Some true =>
          let! pushed := attempt in
          if negb pushed then ret CONF_ERROR
          else
            let! copied := attempt in
            if negb copied then ret CONF_ERROR
            else
              upd (fun s => SrvConf (enable s) (s_email s) (s_ca s) (Some (default [] (wildcards s) ++ [ngx_strlow v])));;
              wildcard_loop args'
      end
  end.

Definition ngx_http_autocert_wildcard (args : list bytes) : P srv_conf conf_rc :=
  let! w := get wildcards in
  match w with
  | Some _ => wildcard_loop args
  | None =>
      let! made := attempt in
      if negb made then ret CONF_ERROR
      else
        upd (fun s => SrvConf (enable s) (s_email s) (s_ca s) (Some []));;
        wildcard_loop args
  end.

(** [ssl]: seeding empty certificate arrays for a server{} worked, or was not called
    for. *)
Definition ngx_http_autocert (ssl : bool) (value : bytes) : P srv_conf conf_rc :=
  let! e := get enable in
  match e with
  | Some _ => ret (CONF_MSG (str "is duplicate"))
  | None =>
      if ngx_strcasecmp value (str "on") =? 0 then
        upd (fun s => SrvConf (Some true) (s_email s) (s_ca s) (wildcards s));;
        if ssl then ret CONF_OK else ret CONF_ERROR
      else if ngx_strcasecmp value (str "off") =? 0 then
        upd (fun s => SrvConf (Some false) (s_email s) (s_ca s) (wildcards s));;
        ret CONF_OK
      else ret CONF_ERROR
  end.

Definition ngx_http_autocert_contact (value : bytes) : P srv_conf conf_rc :=
  let! m := get s_email in
  if negb (len m =? 0)%nat then ret (CONF_MSG (str "is duplicate"))
  else
    match ngx_strlchr value 64 with
    | None => ret CONF_ERROR
    | Some at_ =>
        if (at_ =? 0)%nat || (at_ =? length value - 1)%nat
           || match ngx_strlchr (drop (S at_) value) 64 with Some _ => true | None => false end
        then ret CONF_ERROR
        else if negb (ngx_autocert_account_json_safe value) then ret CONF_ERROR
        else
          upd (fun s => SrvConf (enable s) (Some value) (s_ca s) (wildcards s));;
          ret CONF_OK
    end.

Definition ngx_http_autocert_map_key_type (s : bytes) : option Z :=
  let eqs t := ngx_strcasecmp s (str t) =? 0 in
  if eqs "secp384r1"%string || eqs "p384"%string || eqs "p-384"%string || eqs "ecdsa-p384"%string
  then Some NGX_HTTP_AUTOCERT_KEY_P384
  else if eqs "secp256r1"%string || eqs "prime256v1"%string || eqs "p256"%string || eqs "p-256"%string || eqs "ecdsa-p256"%string
  then Some NGX_HTTP_AUTOCERT_KEY_P256
  else if eqs "rsa2048"%string || eqs "rsa-2048"%string then Some NGX_HTTP_AUTOCERT_KEY_RSA2048
  else if eqs "rsa3072"%string || eqs "rsa-3072"%string || eqs "rsa"%string then Some NGX_HTTP_AUTOCERT_KEY_RSA3072
  else if eqs "rsa4096"%string || eqs "rsa-4096"%string then Some NGX_HTTP_AUTOCERT_KEY_RSA4096
  else None.

Definition ngx_http_autocert_key_is_rsa (kt : Z) : bool :=
  (kt =? NGX_HTTP_AUTOCERT_KEY_RSA2048) || (kt =? NGX_HTTP_AUTOCERT_KEY_RSA3072) || (kt =? NGX_HTTP_AUTOCERT_KEY_RSA4096).

(** The loop over the arguments; [kts] is the array so far. *)
Fixpoint key_type_loop (args : list bytes) (kts : list Z) (have_ec have_rsa : bool) : P knobs conf_rc :=
  match args with
  | [] =>
      upd (fun k => set_key_types (Some kts) (head kts) k);;
      ret CONF_OK
  | v :: args' =>
      match ngx_http_autocert_map_key_type v with
      | None => ret CONF_ERROR
      | Some kv =>
          if existsb (fun kt => kt =? kv) kts then ret CONF_ERROR
          else if ngx_http_autocert_key_is_rsa kv && have_rsa then
            ret (CONF_MSG (str "lists more than one RSA key type (at most one RSA + one ECDSA allowed)"))
          else if negb (ngx_http_autocert_key_is_rsa kv) && have_ec then
            ret (CONF_MSG (str "lists more than one ECDSA key type (at most one RSA + one ECDSA allowed)"))
          else
            let! pushed := attempt in
            if negb pushed then ret CONF_ERROR
            else
              key_type_loop args' (kts ++ [kv]) (have_ec || negb (ngx_http_autocert_key_is_rsa kv))
                (have_rsa || ngx_http_autocert_key_is_rsa kv)
      end
  end.

Definition ngx_http_autocert_key_type (args : list bytes) : P knobs conf_rc :=
  let! kts := get key_types in
  match kts with
  | Some _ => ret (CONF_MSG (str "is duplicate"))
  | None =>
      if (4 <? length args)%nat then ret (CONF_MSG (str "accepts at most 4 key types"))
      else
        let! made := attempt in
        if negb made then ret CONF_ERROR else key_type_loop args [] false false
  end.

(** As the setter of [autocert_handshake_load_limit]. *)
Definition ngx_http_autocert_uint_slot (value : bytes) : P knobs conf_rc :=
  let! f := get handshake_load_limit in
  match f with
  | Some _ => ret (CONF_MSG (str "is duplicate"))
  | None =>
      let n := ngx_atoi value in
      if n =? NGX_ERROR then ret CONF_ERROR
      else
        upd (set_load_limit (Some (u64 n)));;
        ret CONF_OK
  end.

Definition ngx_http_autocert_store (value : bytes) : P knobs conf_rc :=
  let! s := get store in
  match s with
  | Some _ => ret (CONF_MSG (str "is duplicate"))
  | None =>
      if (ngx_strcmp value (str "default") =? 0) || (ngx_strcmp value (str "secure") =? 0) then
        upd (set_store (Some NGX_HTTP_AUTOCERT_STORE_SECURE));;
        ret CONF_OK
      else if ngx_strcmp value (str "certbot") =? 0 then
        upd (set_store (Some NGX_HTTP_AUTOCERT_STORE_CERTBOT));;
        ret CONF_OK
      else ret CONF_ERROR
  end.

Definition ngx_http_autocert_challenge (value : bytes) : P knobs conf_rc :=
  let! c := get challenge in
  match c with
  | Some _ => ret (CONF_MSG (str "is duplicate"))
  | None =>
      if ngx_strcmp value (str "http-01") =? 0 then
        upd (set_challenge (Some NGX_AUTOCERT_CHALLENGE_HTTP_01));;
        ret CONF_OK
      else if ngx_strcmp value (str "tls-alpn-01") =? 0 then
        upd (set_challenge (Some NGX_AUTOCERT_CHALLENGE_TLS_ALPN_01));;
        ret CONF_OK
      else if ngx_strcmp value (str "dns-01") =? 0 then
        upd (set_challenge (Some NGX_AUTOCERT_CHALLENGE_DNS_01));;
        ret CONF_OK
      else ret CONF_ERROR
  end.

(** [r]: what [ngx_resolver_create] made of the arguments. *)
Definition ngx_http_autocert_resolver (r : option nat) : P knobs conf_rc :=
  let! old := get resolver in
  match old with
  | Some _ => ret (CONF_MSG (str "is duplicate"))
  | None =>
      upd (set_resolver r);;
      ret (match r with Some _ => CONF_OK | None => CONF_ERROR end)
  end.

(** ** Defaults and limits *)

Definition ngx_autocert_dns_hook_path_is_absolute (p : bytes) : bool := bool_decide (head p = Some 47).

(** A character of a profile name. *)
Definition profile_char (ch : Z) : bool :=
  ((65 <=? ch) && (ch <=? 90)) || ((97 <=? ch) && (ch <=? 122)) || ((48 <=? ch) && (ch <=? 57))
  || (ch =? 46) || (ch =? 95) || (ch =? 45).

Definition conf_full_name (p : bytes) : P knobs (option bytes) := let! n := call in ret (full_name n p).

(** The types configured, or the default in a new array. *)
Definition default_key_types (k : knobs) : P knobs (option (list Z)) :=
  match key_types k with
  | Some kts => ret (Some kts)
  | None =>
      let! made := attempt in
      if negb made then ret None
      else
        let! pushed := attempt in
        ret (if pushed then Some [NGX_HTTP_AUTOCERT_KEY_P384] else None)
  end.

Definition hook_ok (hook : option bytes) : bool :=
  match hook with Some p => ngx_autocert_dns_hook_path_is_absolute p | None => true end.

Definition ngx_http_autocert_init_main_conf : P knobs conf_rc :=
  let! k := get id in
  let rb := default (7 * 24 * 60 * 60) (renew_before k) in
  if (rb <=? 0) || (89 * 24 * 60 * 60 <? rb) then ret CONF_ERROR
  else
    let ttl := default (7 * 24 * 60 * 60) (runtime_ttl k) in
    let limit := default 64 (handshake_load_limit k) in
    if ttl <? 0 then ret CONF_ERROR
    else if negb (forallb profile_char (default [] (profile k))) then ret CONF_ERROR
    else
      let! kts := default_key_types k in
      match kts with
      | None => ret CONF_ERROR
      | Some kts =>
          let ch := default NGX_AUTOCERT_CHALLENGE_HTTP_01 (challenge k) in
          let! p := conf_full_name (default (str "autocert") (path k)) in
          match p with
          | None => ret CONF_ERROR
          | Some p =>
              let rt := default 30 (resolver_timeout k) in
              let delay := default 10 (dns_propagation_delay k) in
              let ht := default 30 (dns_hook_timeout k) in
              if NGX_AUTOCERT_TIMECONV_CAP_SEC <? rt then ret CONF_ERROR
              else if ht <=? 0 then ret CONF_ERROR
              else if negb (hook_ok (dns_hook_add k)) then ret CONF_ERROR
              else if negb (hook_ok (dns_hook_remove k)) then ret CONF_ERROR
              else if (ch =? NGX_AUTOCERT_CHALLENGE_DNS_01)
                      && (bool_decide (dns_hook_add k = None) || bool_decide (dns_hook_remove k = None))
              then ret CONF_ERROR
              else
                upd (fun k =>
                  Knobs (Some rb) (Some kts) (head kts) (Some (default NGX_HTTP_AUTOCERT_STORE_SECURE (store k))) (Some p) (Some ch)
                    (profile k) (resolver k) (Some rt) (dns_hook_add k) (dns_hook_remove k) (Some delay) (Some ht) (Some ttl)
                    (Some limit) (test_token k) (test_alpn_domain k));;
                ret CONF_OK
          end
      end.

(** ** From http{} to server{} *)

Definition inherit {A} (child parent : option A) : option A := match child with Some _ => child | None => parent end.

(** Pushing the wildcards of http{} onto those of the server. *)
Fixpoint merge_wildcards (l : list bytes) : P srv_conf conf_rc :=
  match l with
  | [] => ret CONF_OK
  | w :: l' =>
      let! pushed := attempt in
      if negb pushed then ret CONF_ERROR
      else
        upd (fun s => SrvConf (enable s) (s_email s) (s_ca s) (Some (default [] (wildcards s) ++ [w])));;
        merge_wildcards l'
  end.

Definition merge_ca (prev conf : ca_conf) : ca_conf :=
  let inherit_selector := bool_decide (ca conf = None) && bool_decide (staging conf = None) in
  if inherit_selector then
    CaConf (ca prev) (Some (default false (staging prev))) (inherit (ca_certificate conf) (ca_certificate prev))
      (inherit (issuance_certificate conf) (issuance_certificate prev)) (inherit (eab_kid conf) (eab_kid prev))
      (inherit (eab_hmac_key conf) (eab_hmac_key prev))
  else
    CaConf (ca conf) (Some (default false (staging conf))) (ca_certificate conf) (issuance_certificate conf) (eab_kid conf)
      (eab_hmac_key conf).

(** On the configuration of the server, given that of http{}. *)
Definition ngx_http_autocert_merge_srv_conf (prev : srv_conf) : P srv_conf conf_rc :=
  upd (fun s => SrvConf (Some (default (default false (enable prev)) (enable s)))
                  (Some (default (default [] (s_email prev)) (s_email s))) (merge_ca (s_ca prev) (s_ca s)) (wildcards s));;
  let! w := get wildcards in
  match w, wildcards prev with
  | None, pw =>
      upd (fun s => SrvConf (enable s) (s_email s) (s_ca s) pw);;
      ret CONF_OK
  | Some _, Some pw => merge_wildcards pw
  | Some _, None => ret CONF_OK
  end.

(** ** One CA per server *)

(** Made absolute, when it is there. *)
Definition full_path {A} (p : option bytes) : P A (option (option bytes)) :=
  if (len p =? 0)%nat then ret (Some p)
  else
    let! n := call in
    ret (match full_name n (default [] p) with Some q => Some (Some q) | None => None end).

(** The CA of a server with its defaults; [None] is NGX_ERROR. *)
Definition ngx_http_autocert_resolve_ca_conf {A} (c : ca_conf) : P A (option ca_conf) :=
  let staged := default false (staging c) in
  if staged && bool_decide (is_Some (ca c)) then ret None
  else
    let url := if staged then Some NGX_HTTP_AUTOCERT_STAGING_CA else Some (default NGX_HTTP_AUTOCERT_DEFAULT_CA (ca c)) in
    let! cert := full_path (ca_certificate c) in
    match cert with
    | None => ret None
    | Some cert =>
        let! issuance := full_path (issuance_certificate c) in
        match issuance with
        | None => ret None
        | Some issuance =>
            if negb (Bool.eqb (bool_decide (is_Some (eab_kid c))) (bool_decide (is_Some (eab_hmac_key c))))
               || (bool_decide (is_Some (eab_kid c)) && ((len (eab_kid c) =? 0)%nat || (len (eab_hmac_key c) =? 0)%nat))
            then ret None
            else ret (Some (CaConf url (staging c) cert issuance (eab_kid c) (eab_hmac_key c)))
        end
    end.

Definition ngx_http_autocert_effective_ca (s : srv_conf) : ca_conf := s_ca s.

(** ** The groups of names *)

(** The same field of two CAs: lengths first, then the bytes unless there are none. *)
Definition field_eq (a b : option bytes) : bool :=
  (len a =? len b)%nat && ((len b =? 0)%nat || match ngx_strncmp (default [] a) (default [] b) (len b) with Some r => r =? 0 | None => false end).

(** The trust bundle, the issuance anchor and the EAB credential agree. *)
Definition same_credentials (a b : ca_conf) : bool :=
  field_eq (ca_certificate a) (ca_certificate b) && field_eq (issuance_certificate a) (issuance_certificate b)
  && field_eq (eab_kid a) (eab_kid b) && field_eq (eab_hmac_key a) (eab_hmac_key b).

Inductive found := NotFound | Found (i : nat) | Conflict.

Fixpoint ca_find (es : list entry) (c : ca_conf) (i : nat) : found :=
  match es with
  | [] => NotFound
  | e :: es' =>
      if negb (str_eq (default [] (ca (e_ca e))) (default [] (ca c))) then ca_find es' c (S i)
      else if same_credentials (e_ca e) c then Found i
      else Conflict
  end.

Definition hex_of (b : Z) : bytes := [hexdig (Z.shiftr b 4); hexdig (Z.land b 0xf)].

(** The entry of a CA in the list, found or made: its position, [None] for NULL. *)
Definition ngx_http_autocert_ca_entry (c : ca_conf) : P config (option nat) :=
  let! es := get ca_list in
  match ca_find es c 0 with
  | Conflict => ret None
  | Found i => ret (Some i)
  | NotFound =>
      let! pushed := attempt in
      if negb pushed then ret None
      else
        let! made := attempt in
        if negb made then ret None
        else
          match sha256 (default [] (ca c)) with
          | None => ret None
          | Some md =>
              let hash := flat_map hex_of (take (NGX_AUTOCERT_CA_HASH_HEX / 2) md) in
              let! p := get (fun w => default [] (path (main w))) in
              let! room := attempt in
              if negb room then ret None
              else
                upd (fun w => set_ca_list (ca_list w ++ [Entry c [] hash (p ++ str "/accounts/" ++ hash ++ str "/account.key") None]) w);;
                ret (Some (length es))
          end
  end.

Definition upd_entry (i : nat) (f : entry -> entry) : P config unit :=
  let! es := get ca_list in
  match es !! i with
  | Some e => upd (set_ca_list (<[i := f e]> es))
  | None => fault
  end.

Definition ngx_http_autocert_bind_ca_email (i : nat) (m : option bytes) : P config Z :=
  let! es := get ca_list in
  match es !! i with
  | None => fault
  | Some e =>
      if (len m =? 0)%nat then ret NGX_OK
      else if (len (e_email e) =? 0)%nat then upd_entry i (set_entry_email m);; ret NGX_OK
      else if negb (str_eq (default [] (e_email e)) (default [] m)) then ret NGX_ERROR
      else ret NGX_OK
  end.

(** Comparing the rest of a name with each wildcard; the length less two is a size_t. *)
Fixpoint covered_loop (wcs : list bytes) (rest : bytes) : option bool :=
  match wcs with
  | [] => Some false
  | wc :: wcs' =>
      if u64 (Z.of_nat (length wc) - 2) =? Z.of_nat (length rest) then
        match ngx_strncasecmp (drop 2 wc) rest (length rest) with
        | None => None
        | Some r => if r =? 0 then Some true else covered_loop wcs' rest
        end
      else covered_loop wcs' rest
  end.

Definition ngx_http_autocert_name_covered (name : bytes) (wcs : list bytes) : option bool :=
  match name with
  | 42 :: _ => Some false
  | _ =>
      match ngx_strlchr name 46 with
      | None => Some false
      | Some dot =>
          if (dot =? 0)%nat || (length name <=? dot + 1)%nat then Some false else covered_loop wcs (drop (S dot) name)
      end
  end.

(** The entry that has a name. *)
Definition owner_of (es : list entry) (name : bytes) : option entry :=
  List.find (fun e => existsb (fun g => str_eq g name) (e_names e)) es.

Definition ngx_http_autocert_add_name (c : ca_conf) (s : srv_conf) (name : bytes) : P config Z :=
  if ((ngx_autocert_str_is_ip inet_addr inet6_addr name).1 =? 0) && negb (ngx_autocert_dns_name_valid name) then ret NGX_ERROR
  else
    let! ns := get names in
    if existsb (fun e => str_eq e name) ns then
      let! es := get ca_list in
      match owner_of es name with
      | None => ret NGX_OK
      | Some o =>
          if negb (str_eq (default [] (ca (e_ca o))) (default [] (ca c))) then ret NGX_ERROR
          else
            let! g := ngx_http_autocert_ca_entry c in
            match g with
            | None => ret NGX_ERROR
            | Some i => ngx_http_autocert_bind_ca_email i (s_email s)
            end
      end
    else
      let! pushed := attempt in
      if negb pushed then ret NGX_ERROR
      else
        upd (fun w => set_names (names w ++ [name]) w);;
        let! g := ngx_http_autocert_ca_entry c in
        match g with
        | None => ret NGX_ERROR
        | Some i =>
            let! rc := ngx_http_autocert_bind_ca_email i (s_email s) in
            if negb (rc =? NGX_OK) then ret NGX_ERROR
            else
              let! pushed := attempt in
              if negb pushed then ret NGX_ERROR
              else
                upd_entry i (fun e => set_entry_names (e_names e ++ [name]) e);;
                ret NGX_OK
        end.

(** ** After the configuration was read *)

Definition is_dns01 (w : config) : bool := bool_decide (challenge (main w) = Some NGX_AUTOCERT_CHALLENGE_DNS_01).

(** The names of a server. *)
Fixpoint name_loop (sns : list server_name) (c : ca_conf) (s : srv_conf) : P config Z :=
  match sns with
  | [] => ret NGX_OK
  | sn :: sns' =>
      let name := n_text sn in
      if n_regex sn then name_loop sns' c s
      else if (length name =? 0)%nat || bool_decide (head name = Some 46) then name_loop sns' c s
      else
        let! dns01 := get is_dns01 in
        match (match ngx_strlchr name 42 with
               | Some _ => if negb dns01 then Some true else negb <$> ngx_http_autocert_is_wildcard name
               | None => Some false
               end) with
        | None => fault
        | Some true => name_loop sns' c s
        | Some false =>
            if negb ((ngx_autocert_str_is_ip inet_addr inet6_addr name).1 =? 0) && dns01 then ret NGX_ERROR
            else
              match (match wildcards s with
                     | Some ((_ :: _) as wcs) => ngx_http_autocert_name_covered name wcs
                     | _ => Some false
                     end) with
              | None => fault
              | Some true => name_loop sns' c s
              | Some false =>
                  let! rc := ngx_http_autocert_add_name c s name in
                  if negb (rc =? NGX_OK) then ret NGX_ERROR else name_loop sns' c s
              end
        end
  end.

Fixpoint wildcard_names_loop (wcs : list bytes) (c : ca_conf) (s : srv_conf) : P config Z :=
  match wcs with
  | [] => ret NGX_OK
  | wn :: wcs' =>
      let! rc := ngx_http_autocert_add_name c s wn in
      if negb (rc =? NGX_OK) then ret NGX_ERROR else wildcard_names_loop wcs' c s
  end.

(** One enabled server, the [i]th. *)
Definition one_server (i : nat) (sv : server) : P config Z :=
  upd (fun w => set_enabled (S (enabled_servers w)) w);;
  let s := srv sv in
  upd (fun w => if (len (email w) =? 0)%nat && negb (len (s_email s) =? 0)%nat then set_email (s_email s) w else w);;
  let! c := ngx_http_autocert_resolve_ca_conf (ngx_http_autocert_effective_ca s) in
  match c with
  | None => ret NGX_ERROR
  | Some c =>
      upd (fun w => set_servers (<[i := set_server_ca c sv]> (servers w)) w);;
      let wcs := default [] (wildcards s) in
      let! dns01 := get is_dns01 in
      if negb (length wcs =? 0)%nat && negb dns01 then ret NGX_ERROR
      else
        let! rc := name_loop (server_names sv) c s in
        if negb (rc =? NGX_OK) then ret NGX_ERROR else wildcard_names_loop wcs c s
  end.

Fixpoint server_loop (i : nat) (svs : list server) : P config Z :=
  match svs with
  | [] => ret NGX_OK
  | sv :: svs' =>
      if negb (bool_decide (enable (srv sv) = Some true)) then server_loop (S i) svs'
      else
        let! rc := one_server i sv in
        if negb (rc =? NGX_OK) then ret NGX_ERROR else server_loop (S i) svs'
  end.

(** The group of the first enabled server, where no server has a name to issue. *)
Definition runtime_only : P config bool :=
  let! w := get id in
  if (length (names w) =? 0)%nat && negb (enabled_servers w =? 0)%nat then
    match List.find (fun sv => bool_decide (enable (srv sv) = Some true)) (servers w) with
    | None => ret true
    | Some sv =>
        let! g := ngx_http_autocert_ca_entry (ngx_http_autocert_effective_ca (srv sv)) in
        ret (bool_decide (is_Some g))
    end
  else ret true.

(** A pool for the generation of RSA keys, when there can be one to generate. *)
Definition reserve_threads : P config bool :=
  let! w := get id in
  if negb (enabled_servers w =? 0)%nat && existsb ngx_http_autocert_key_is_rsa (default [] (key_types (main w)))
  then attempt else ret true.

(** Adding a zone, when it is wanted. *)
Definition add_zone (wanted : bool) (f : config -> config) : P config bool :=
  if negb wanted then ret true
  else
    let! added := attempt in
    if negb added then ret false else upd f;; ret true.

Definition ngx_http_autocert_postconfig : P config Z :=
  let! a := attempt in
  if negb a then ret NGX_ERROR
  else
    let! b := attempt in
    if negb b then ret NGX_ERROR
    else
      upd (fun w => set_ca_list [] (set_names [] w));;
      let! t := get template in
      let d := s_ca t in
      let! dflt := ngx_http_autocert_resolve_ca_conf
        (CaConf (ca d) (Some (default false (staging d))) (ca_certificate d) (issuance_certificate d) (eab_kid d) (eab_hmac_key d)) in
      if bool_decide (dflt = None) then ret NGX_ERROR
      else
        let! svs := get servers in
        let! rc := server_loop 0 svs in
        if negb (rc =? NGX_OK) then ret NGX_ERROR
        else
          let! r := runtime_only in
          if negb r then ret NGX_ERROR
          else
            let! th := reserve_threads in
            if negb th then ret NGX_ERROR
            else
              let! w := get id in
              let! rz := add_zone (negb (enabled_servers w =? 0)%nat) (set_requests_zone true) in
              if negb rz then ret NGX_ERROR
              else
                let! az := add_zone (bool_decide (challenge (main w) = Some NGX_AUTOCERT_CHALLENGE_TLS_ALPN_01)
                                     && negb (enabled_servers w =? 0)%nat || negb (length (test_alpn_domain (main w)) =? 0)%nat)
                             (set_alpn_zone true) in
                if negb az then ret NGX_ERROR
                else
                  let! served := attempt in
                  if negb served then ret NGX_ERROR
                  else if (enabled_servers w =? 0)%nat && (length (test_token (main w)) =? 0)%nat then ret NGX_OK
                  else
                    let! cz := add_zone true (set_challenge_zone true false) in
                    if negb cz then ret NGX_ERROR
                    else
                      let! h := attempt in
                      if negb h then ret NGX_ERROR
                      else
                        upd (set_challenge_zone true true);;
                        ret NGX_OK.
End Configuring.
