(* ===== verification/ConfigNames.v ===== *)
(** * Configuration: comparing names

    What the string tests of ngx_http_autocert_module.c decide. *)

From S2P Require Import Prelude NgxCore Loadcap Ident Alpn Expiry OrderState Account Config.

Local Open Scope Z_scope.

(** ** Equality *)

Lemma str_eq_iff a b : c_string b -> str_eq a b = true <-> a = b.
Proof.
  intros Hb. unfold str_eq. destruct (Nat.eqb_spec (length a) (length b)) as [Hl|Hl]; cbn [andb].
  2: { split; [done|]. intros ->. done. }
  destruct (strncmp_exact a b Hl (c_string_nonzero b Hb)) as (r & -> & Hr). by rewrite Z.eqb_eq.
Qed.

Lemma field_eq_iff a b : c_string (default [] b) -> field_eq a b = true <-> default [] a = default [] b.
Proof.
  intros Hb. rewrite <- (str_eq_iff _ _ Hb). unfold field_eq, str_eq, len.
  destruct (Nat.eqb_spec (length (default [] b)) 0) as [H0|_]; cbn [orb]; [|done].
  apply nil_length_inv in H0 as ->. cbn. by rewrite andb_true_r.
Qed.

(** What of a CA must agree between the servers that use it. *)
Record agrees (a b : ca_conf) : Prop := {
  ag_ca : default [] (ca a) = default [] (ca b);
  ag_cert : default [] (ca_certificate a) = default [] (ca_certificate b);
  ag_issuance : default [] (issuance_certificate a) = default [] (issuance_certificate b);
  ag_kid : default [] (eab_kid a) = default [] (eab_kid b);
  ag_hmac : default [] (eab_hmac_key a) = default [] (eab_hmac_key b) }.

Record plain_ca (c : ca_conf) : Prop := {
  pl_ca : c_string (default [] (ca c));
  pl_cert : c_string (default [] (ca_certificate c));
  pl_issuance : c_string (default [] (issuance_certificate c));
  pl_kid : c_string (default [] (eab_kid c));
  pl_hmac : c_string (default [] (eab_hmac_key c)) }.

Lemma same_credentials_iff a b :
  plain_ca b -> default [] (ca a) = default [] (ca b) -> same_credentials a b = true <-> agrees a b.
Proof.
  intros Hb Hu. unfold same_credentials. rewrite !andb_true_iff, !field_eq_iff by apply Hb. split.
  - intros [[[H1 H2] H3] H4]. by constructor.
  - by intros [_ H1 H2 H3 H4].
Qed.

(** ** Wildcards *)

Lemma is_wildcard_loop_iff p :
  last p <> Some 46 ->
  exists b, is_wildcard_loop p = Some b /\
    (b = true <-> Forall (fun l => 42 ∉ l) (split_dots p) /\ Forall (fun l => l <> []) (tail (split_dots p))).
Proof.
  induction p as [|c p IH]; intros Hl; cbn [is_wildcard_loop split_dots].
  { exists true. split; [done|]. split; [|done]. intros _. split; [|constructor]. constructor; [apply not_elem_of_nil|constructor]. }
  destruct (Z.eqb_spec c 42) as [->|H42].
  { exists false. split; [done|]. split; [done|]. cbn. intros [Hf _]. destruct (split_dots p) as [|h t]; apply Forall_cons in Hf as [Hh _]; set_solver. }
  assert (Hlp : p <> [] -> last p <> Some 46) by (destruct p; [done|done]).
  destruct (Z.eqb_spec c 46) as [->|H46].
  - destruct p as [|c' p]; [done|]. specialize (IH (Hlp ltac:(done))). destruct (Z.eqb_spec c' 46) as [->|Hc'].
    + exists false. split; [done|]. split; [done|]. intros [_ Ht]. cbn in Ht. by apply Forall_cons in Ht as [? _].
    + destruct IH as (b & -> & Hb). exists b. split; [done|]. rewrite Hb. cbn [tail]. rewrite Forall_cons.
      cbn [split_dots]. apply Z.eqb_neq in Hc'. rewrite Hc'. destruct (split_dots p) as [|h t]; cbn [tail]; rewrite !Forall_cons; set_solver.
  - assert (IH' : exists b, is_wildcard_loop p = Some b /\
      (b = true <-> Forall (fun l => 42 ∉ l) (split_dots p) /\ Forall (fun l => l <> []) (tail (split_dots p)))).
    { destruct p; [by apply IH|]. by apply IH, Hlp. }
    destruct IH' as (b & -> & Hb). exists b. split; [done|]. rewrite Hb. destruct (split_dots p) as [|h t] eqn:E; [by apply split_dots_nonempty in E|].
    cbn [tail]. rewrite !Forall_cons. rewrite not_elem_of_cons. naive_solver.
Qed.

Lemma split_dots_snoc l : split_dots (l ++ [46]) = split_dots l ++ [[]].
Proof.
  induction l as [|c l IH]; [done|]. cbn [app split_dots]. rewrite IH. destruct (c =? 46); [done|].
  destruct (split_dots l) as [|h t] eqn:E; [by apply split_dots_nonempty in E|done].
Qed.

(** A leading star label and a name without empty labels or further stars. *)
Definition wildcard_text (name : bytes) : Prop :=
  exists rest, name = 42 :: 46 :: rest /\ Forall (fun l => l <> [] /\ 42 ∉ l) (split_dots rest).

Lemma is_wildcard_iff name :
  exists b, ngx_http_autocert_is_wildcard name = Some b /\ (b = true <-> wildcard_text name).
Proof.
  assert (Hnot : (forall rest, name <> 42 :: 46 :: rest \/ rest = []) -> ~ wildcard_text name).
  { intros Hn (rest & -> & Hf). destruct (Hn rest) as [?| ->]; [done|]. cbn in Hf. apply Forall_cons in Hf as [[? _] _]. done. }
  unfold ngx_http_autocert_is_wildcard.
  destruct name as [|a [|b' [|c rest]]]; try (exists false; split; [by repeat case_match|]; split; [done|]; intros H; exfalso; revert H; apply Hnot; intros [|]; [by right|by left]).
  destruct (decide (a = 42 /\ b' = 46)) as [[-> ->]|Hab].
  2: { exists false. split; [repeat (case_match; try done); naive_solver|]. split; [done|]. intros H. exfalso. revert H. apply Hnot. intros r. left. intros [= -> -> _]. by apply Hab. }
  cbn [last]. destruct (Z.eqb_spec c 46) as [->|Hc]; cbn [orb].
  { exists false. split; [done|]. split; [done|]. intros (r & [= <-] & Hf). cbn in Hf. by apply Forall_cons in Hf as [[? _] _]. }
  case_bool_decide as Hl.
  { exists false. split; [done|]. split; [done|]. intros (r & [= <-] & Hf). apply last_Some in Hl as [l' Hl]. rewrite Hl, split_dots_snoc in Hf.
    apply Forall_app in Hf as [_ Hf]. by apply Forall_cons in Hf as [[? _] _]. }
  destruct (is_wildcard_loop_iff (c :: rest) Hl) as (b & -> & Hb). exists b. split; [done|]. rewrite Hb. unfold wildcard_text.
  assert (Hhead : exists h t, split_dots (c :: rest) = (c :: h) :: t).
  { cbn [split_dots]. apply Z.eqb_neq in Hc. rewrite Hc. destruct (split_dots rest) as [|h t] eqn:E; [by apply split_dots_nonempty in E|]. by exists h, t. }
  destruct Hhead as (h & t & Hs). rewrite Hs. cbn [tail]. split.
  - intros [Hst Hne]. exists (c :: rest). split; [done|]. rewrite Hs. apply Forall_cons in Hst as [Hs1 Hst]. constructor; [done|].
    by apply Forall_and.
  - intros (r & [= <-] & Hf). rewrite Hs in Hf. apply Forall_and in Hf as [Hf1 Hf2]. split; [done|]. by apply Forall_cons in Hf1 as [_ ?].
Qed.

(** What a server holds under autocert_wildcard: checked and in lower case. *)
Definition wildcard_ok (wc : bytes) : Prop :=
  wildcard_text wc /\ ngx_strlow wc = wc /\ c_string wc /\ Z.of_nat (length wc) < 2 ^ 64.

Lemma covered_loop_iff wcs rest :
  Forall wildcard_ok wcs ->
  exists b, covered_loop wcs rest = Some b /\ (b = true <-> 42 :: 46 :: ngx_strlow rest ∈ wcs).
Proof.
  induction wcs as [|wc wcs IH]; intros Hwcs; cbn [covered_loop].
  { exists false. split; [done|]. split; [done|]. intros H. by apply not_elem_of_nil in H. }
  apply Forall_cons in Hwcs as [((x & -> & _) & Hlow & Hpl & Hlt) Hwcs]. destruct (IH Hwcs) as (b & Hb & Hiff). cbn [length] in Hlt |- *.
  assert (Hx : ngx_strlow x = x) by (unfold ngx_strlow in *; cbn in Hlow; by injection Hlow).
  unfold u64. rewrite Z.mod_small by lia. destruct (Z.eqb_spec (Z.of_nat (S (S (length x))) - 2) (Z.of_nat (length rest))) as [Hl|Hl].
  2: { exists b. split; [done|]. rewrite Hiff, elem_of_cons. split; [by right|]. intros [E|?]; [|done]. exfalso. injection E as E.
       apply Hl. rewrite <- E. unfold ngx_strlow. rewrite length_map. lia. }
  change (drop 2 (42 :: 46 :: x)) with x. do 2 apply Forall_cons in Hpl as [_ Hpl].
  destruct (strncasecmp_exact x rest (length rest)) as (r & -> & Hr); [lia|lia|by apply Forall_take|].
  rewrite !take_ge in Hr by lia. fold (ngx_strlow x) (ngx_strlow rest) in Hr. change (lower <$> x) with (ngx_strlow x) in Hr.
  change (lower <$> rest) with (ngx_strlow rest) in Hr. rewrite Hx in Hr.
  destruct (Z.eqb_spec r 0) as [H0|H0].
  - exists true. split; [done|]. split; [intros _|done]. apply Hr in H0. rewrite <- H0. left.
  - exists b. split; [done|]. rewrite Hiff, elem_of_cons. split; [by right|]. intros [E|?]; [|done]. injection E as E. exfalso. apply H0, Hr. done.
Qed.

(** A name is covered by a wildcard that is it with its first label replaced by a star. *)
Lemma name_covered_iff name wcs :
  Forall wildcard_ok wcs ->
  exists b, ngx_http_autocert_name_covered name wcs = Some b /\ (b = true <-> exists label rest, name = label ++ 46 :: rest /\ label <> [] /\ rest <> [] /\ 46 ∉ label /\ head name <> Some 42
                   /\ 42 :: 46 :: ngx_strlow rest ∈ wcs).
Proof.
  intros Hwcs. unfold ngx_http_autocert_name_covered.
  assert (Hrest : exists b, match ngx_strlchr name 46 with
      | Some dot => if (dot =? 0)%nat || (length name <=? dot + 1)%nat then Some false else covered_loop wcs (drop (S dot) name)
      | None => Some false end = Some b /\ (b = true <-> exists label rest, name = label ++ 46 :: rest /\ label <> [] /\ rest <> [] /\ 46 ∉ label /\ 42 :: 46 :: ngx_strlow rest ∈ wcs)).
  { destruct (ngx_strlchr name 46) as [dot|] eqn:Ed.
    2: { exists false. split; [done|]. split; [done|]. intros (lb & r & -> & _). apply strlchr_None in Ed. set_solver. }
    apply strlchr_Some in Ed as (a & r & -> & Hla & Ha). rewrite length_app. cbn [length]. rewrite Hla.
    assert (Hdrop : drop (S dot) (a ++ 46 :: r) = r).
    { rewrite drop_app_ge by lia. by replace (S dot - length a)%nat with 1%nat by lia. }
    assert (Huniq : forall lb r', a ++ 46 :: r = lb ++ 46 :: r' -> 46 ∉ lb -> lb = a /\ r' = r).
    { intros lb r' E Hlb. by destruct (app_cons_uniq _ _ _ _ _ E Ha Hlb) as [-> ->]. }
    rewrite Hdrop. destruct (Nat.eqb_spec dot 0) as [H0|H0]; cbn [orb].
    { exists false. split; [done|]. split; [done|]. intros (lb & r' & E & Hlb & _ & Hn & _). apply Huniq in E as [-> _]; [|done]. exfalso. apply Hlb, nil_length_inv. lia. }
    destruct (Nat.leb_spec (dot + S (length r)) (dot + 1)) as [H1|H1].
    { exists false. split; [done|]. split; [done|]. intros (lb & r' & E & _ & Hr & Hn & _). apply Huniq in E as [_ ->]; [|done]. exfalso. apply Hr, nil_length_inv. lia. }
    destruct (covered_loop_iff wcs r Hwcs) as (b & -> & Hb). exists b. split; [done|]. rewrite Hb. split.
    - intros Hin. exists a, r. split; [done|]. split; [by intros ->|]. split; [intros ->; cbn in H1; lia|done].
    - intros (lb & r' & E & _ & _ & Hn & Hin). by apply Huniq in E as [_ <-]. }
  destruct name as [|c name]; [destruct Hrest as (b & -> & Hb); exists b; split; [done|]; rewrite Hb; naive_solver|].
  destruct (decide (c = 42)) as [->|Hc].
  { exists false. split; [done|]. split; [done|]. naive_solver. }
  destruct Hrest as (b & Hb & Hiff). exists b. split.
  - rewrite <- Hb. by repeat case_match.
  - rewrite Hiff. cbn [head]. naive_solver.
Qed.

(** * Configuration: the groups of names

    What is true of the names and of their groups by CA while
    [ngx_http_autocert_postconfig] collects them. *)

Local Open Scope prog_scope.

Section Grouping.
Context (ok : nat -> bool) (full_name : nat -> bytes -> option bytes) (sha256 : bytes -> option bytes)
  (inet_addr : bytes -> Z) (inet6_addr : bytes -> option bytes).

(** ** Rules *)

Lemma wp_cget {A B} (f : A -> B) w k (Q : B -> cf A -> Prop) X : Q (f w) (Cf w k) -> wp (get f) (Cf w k) Q X.
Proof. exact id. Qed.

Lemma wp_cupd {A} (f : A -> A) w k (Q : unit -> cf A -> Prop) X : Q tt (Cf (f w) k) -> wp (Config.upd f) (Cf w k) Q X.
Proof. exact id. Qed.

Lemma wp_ccall {A} (w : A) k (Q : nat -> cf A -> Prop) X : (forall k', Q k (Cf w k')) -> wp Config.call (Cf w k) Q X.
Proof. intros HQ. apply HQ. Qed.

Lemma wp_cattempt {A} (w : A) k (Q : bool -> cf A -> Prop) X : (forall b k', Q b (Cf w k')) -> wp (attempt ok) (Cf w k) Q X.
Proof. intros HQ. apply HQ. Qed.

Lemma wp_cattempt_at {A} (w : A) k (Q : bool -> cf A -> Prop) X : Q (ok k) (Cf w (S k)) -> wp (attempt ok) (Cf w k) Q X.
Proof. exact id. Qed.

(** ** What has been collected *)

(** A server wants a name issued by its CA, with its contact. *)
Record claim := Claim { cl_name : bytes; cl_ca : ca_conf; cl_email : option bytes }.

Definition url (c : ca_conf) : bytes := default [] (ca c).

(** A name that can be put in an order and in a path of the store. *)
Definition valid_name (n : bytes) : Prop :=
  (ngx_autocert_str_is_ip inet_addr inet6_addr n).1 <> 0 \/ ngx_autocert_dns_name_valid n = true.

(** The account directory of an entry is that of its CA, under the path [p]. *)
Definition account_of (p : bytes) (e : entry) : Prop :=
  exists md, sha256 (url (e_ca e)) = Some md /\ ca_hash e = flat_map hex_of (take 8 md)
    /\ account_key_path e = p ++ str "/accounts/" ++ ca_hash e ++ str "/account.key".

(** An entry serves a claim. *)
Definition serves (e : entry) (c : claim) : Prop :=
  cl_name c ∈ e_names e /\ agrees (e_ca e) (cl_ca c) /\ (len (cl_email c) = 0%nat \/ default [] (e_email e) = default [] (cl_email c)).

Record collected (p : bytes) (L : list claim) (ns : list bytes) (es : list entry) : Prop := {
  co_names : forall n, n ∈ ns <-> exists c, c ∈ L /\ cl_name c = n;
  co_nodup : NoDup ns;
  co_split : concat (e_names <$> es) ≡ₚ ns;
  co_urls : NoDup ((fun e => url (e_ca e)) <$> es);
  co_claims : forall c, c ∈ L -> exists e, e ∈ es /\ serves e c;
  co_valid : Forall valid_name ns;
  co_some : Forall (fun e => e_names e <> []) es;
  co_account : Forall (account_of p) es }.

Lemma collected_nothing p : collected p [] [] [].
Proof.
  constructor; try done; try constructor.
  - by intros ?%not_elem_of_nil.
  - by intros (c & ?%not_elem_of_nil & _).
  - by intros c ?%not_elem_of_nil.
Qed.

(** ** One more claim *)

(** The entry with a contact and perhaps one more name. *)
Definition filled_entry (em : option bytes) (more : list bytes) (e : entry) : entry :=
  Entry (e_ca e) (e_names e ++ more) (ca_hash e) (account_key_path e) em.

(** The contact is that of the claim, unless the claim has none, and not another one than before. *)
Definition bound (m em old : option bytes) : Prop :=
  (len m = 0%nat \/ default [] em = default [] m) /\ (len old = 0%nat \/ em = old).

Lemma serves_filled e c em more m : bound m em (e_email e) -> serves e c -> serves (filled_entry em more e) c.
Proof.
  intros [_ Hold] (Hn & Ha & Hm). split; [|split]; [cbn; set_solver|done|]. cbn. destruct Hm as [Hm|Hm]; [by left|].
  destruct Hold as [Hold| ->]; [|by right]. left. unfold len in *. by rewrite <- Hm.
Qed.

(** The entry claimed is one of the list, or a new one behind it; it is in [l1 ++ e :: l2]. *)
Definition one_of (p : bytes) (es l1 : list entry) (e : entry) (l2 : list entry) : Prop :=
  es = l1 ++ e :: l2
  \/ es = l1 /\ l2 = [] /\ e_names e = [] /\ url (e_ca e) ∉ ((fun e => url (e_ca e)) <$> es) /\ account_of p e.

Lemma one_of_names p es l1 e l2 more ns :
  one_of p es l1 e l2 -> concat (e_names <$> es) ≡ₚ ns -> forall em,
  concat (e_names <$> l1 ++ filled_entry em more e :: l2) ≡ₚ ns ++ more.
Proof.
  intros Ho Hs em. rewrite <- Hs. rewrite fmap_app, fmap_cons, concat_app. cbn [concat e_names filled_entry].
  destruct Ho as [->|(-> & -> & -> & _)].
  - rewrite fmap_app, fmap_cons, concat_app. cbn [concat]. rewrite <- !app_assoc. apply Permutation_app_head, Permutation_app_head.
    apply Permutation_app_comm.
  - cbn [fmap list_fmap concat]. by rewrite app_nil_r.
Qed.

Lemma one_of_elem p es l1 e l2 e0 : one_of p es l1 e l2 -> e0 ∈ es -> e0 = e \/ e0 ∈ l1 \/ e0 ∈ l2.
Proof. intros [->|(-> & -> & _)]; set_solver. Qed.

Lemma collected_more p L ns es l1 e l2 name c m em more :
  collected p L ns es -> one_of p es l1 e l2 -> agrees (e_ca e) c -> bound m em (e_email e) ->
  (more = [] /\ es = l1 ++ e :: l2 /\ name ∈ e_names e \/ more = [name] /\ name ∉ ns /\ valid_name name) ->
  collected p (L ++ [Claim name c m]) (ns ++ more) (l1 ++ filled_entry em more e :: l2).
Proof.
  intros [H1 H2 H3 H4 H5 H6 H7 H8] Ho Ha Hb Hcase.
  assert (Hname : name ∈ e_names e ++ more) by (destruct Hcase as [(-> & _ & ?)|(-> & _ & _)]; set_solver).
  constructor.
  - intros n. rewrite elem_of_app, H1. split.
    + intros [(c0 & Hc & Hn)|Hn]; [exists c0; split; [set_solver|done]|]. exists (Claim name c m). split; [set_solver|].
      destruct Hcase as [(-> & _)|(-> & _)]; [by apply not_elem_of_nil in Hn|]. by apply list_elem_of_singleton in Hn.
    + intros (c0 & [Hc| ->%list_elem_of_singleton]%elem_of_app & Hn); [left; by exists c0|]. cbn in Hn. subst n.
      destruct Hcase as [(-> & -> & He)|(-> & _)]; [left|right; set_solver]. apply H1. rewrite <- H3, fmap_app, fmap_cons, concat_app. set_solver.
  - destruct Hcase as [(-> & _)|(-> & Hn & _)]; [by rewrite app_nil_r|]. apply NoDup_app. split; [done|]. split; [set_solver|apply NoDup_singleton].
  - by eapply one_of_names.
  - rewrite fmap_app, fmap_cons. cbn [e_ca filled_entry]. destruct Ho as [->|(-> & -> & _ & Hu & _)]; [by rewrite fmap_app, fmap_cons in H4|].
    cbn [fmap list_fmap]. apply NoDup_app. split; [done|]. split; [set_solver|apply NoDup_singleton].
  - intros c0 [Hc| ->%list_elem_of_singleton]%elem_of_app.
    + destruct (H5 c0 Hc) as (e0 & He & Hs). apply (one_of_elem p es l1 e l2 e0 Ho) in He as [->|He].
      * exists (filled_entry em more e). split; [set_solver|by eapply serves_filled].
      * exists e0. split; [set_solver|done].
    + exists (filled_entry em more e). split; [set_solver|]. split; [done|]. split; [done|]. apply Hb.
  - destruct Hcase as [(-> & _)|(-> & _ & Hv)]; [by rewrite app_nil_r|]. apply Forall_app. split; [done|by apply Forall_singleton].
  - assert (Hf : e_names (filled_entry em more e) <> []) by (cbn; intros E; rewrite E in Hname; by apply not_elem_of_nil in Hname).
    destruct Ho as [->|(-> & -> & _)]; [|apply Forall_app; split; [done|by apply Forall_singleton]]. apply Forall_app in H7 as [Hl1 Hl2]. apply Forall_cons in Hl2 as [_ Hl2].
    apply Forall_app. split; [done|by constructor].
  - destruct Ho as [->|(-> & -> & _ & _ & Hacc)].
    + apply Forall_app in H8 as [Hl1 Hl2]. apply Forall_cons in Hl2 as [He Hl2]. apply Forall_app. split; [done|by constructor].
    + apply Forall_app. split; [done|by apply Forall_singleton].
Qed.

(** ** The operations *)

Lemma ca_find_spec es c i0 :
  plain_ca c ->
  match ca_find es c i0 with
  | NotFound => url c ∉ ((fun e => url (e_ca e)) <$> es)
  | Found j => exists l1 e l2, es = l1 ++ e :: l2 /\ j = (i0 + length l1)%nat /\ agrees (e_ca e) c
  | Conflict => True
  end.
Proof.
  intros Hc. revert i0. induction es as [|e es IH]; intros i0; cbn [ca_find]; [by intros ?%not_elem_of_nil|].
  destruct (str_eq _ _) eqn:Eu; cbn [negb].
  - apply (str_eq_iff _ _ (pl_ca c Hc)) in Eu. destruct (same_credentials _ _) eqn:Es; [|done].
    apply same_credentials_iff in Es; [|done|done]. exists [], e, es. cbn. split; [done|]. split; [lia|done].
  - specialize (IH (S i0)). destruct (ca_find es c (S i0)) as [|j|]; [|destruct IH as (l1 & e0 & l2 & -> & -> & Ha)|done].
    + rewrite fmap_cons, not_elem_of_cons. split; [|done]. intros E. rewrite (proj2 (str_eq_iff _ _ (pl_ca c Hc))) in Eu; [done|]. by symmetry.
    + exists (e :: l1), e0, l2. split; [done|]. split; [cbn; lia|done].
Qed.

Lemma set_ca_list_id w : set_ca_list (ca_list w) w = w.
Proof. by destruct w. Qed.

Lemma filled_entry_id e : filled_entry (e_email e) [] e = e.
Proof. destruct e as [c ns h p m]. unfold filled_entry. cbn. by rewrite app_nil_r. Qed.

Lemma agrees_refl c : agrees c c.
Proof. by constructor. Qed.

Lemma wp_ca_entry c w k :
  plain_ca c ->
  wp (ngx_http_autocert_ca_entry ok sha256 c) (Cf w k)
    (fun g s => forall i, g = Some i -> exists l1 e l2 k', s = Cf (set_ca_list (l1 ++ e :: l2) w) k' /\ i = length l1
                  /\ agrees (e_ca e) c /\ one_of (default [] (path (main w))) (ca_list w) l1 e l2) (fun _ => False).
Proof.
  intros Hc. apply wp_bind, wp_cget. pose proof (ca_find_spec (ca_list w) c 0 Hc) as Hf.
  destruct (ca_find (ca_list w) c 0) as [|j|]; [| |by apply wp_ret].
  - apply wp_bind, wp_cattempt. intros [] k1; cbn [negb]; [|by apply wp_ret]. apply wp_bind, wp_cattempt. intros [] k2; cbn [negb]; [|by apply wp_ret].
    destruct (sha256 (default [] (ca c))) as [md|] eqn:Eh; [|by apply wp_ret]. cbv zeta. apply wp_bind, wp_cget, wp_bind, wp_cattempt.
    intros [] k3; cbn [negb]; [|by apply wp_ret]. apply wp_bind, wp_cupd, wp_ret. intros i [= <-]. do 3 eexists. exists k3. split; [done|].
    split; [done|]. split; [apply agrees_refl|]. right. split; [done|]. split; [done|]. split; [done|]. split; [done|]. by exists md.
  - destruct Hf as (l1 & e & l2 & E & -> & Ha). apply wp_ret. intros i [= <-]. exists l1, e, l2, k. rewrite <- E, set_ca_list_id.
    split; [done|]. split; [done|]. split; [done|]. by left.
Qed.

Lemma wp_upd_entry l1 e l2 f w k (Q : unit -> cf config -> Prop) X :
  ca_list w = l1 ++ e :: l2 -> Q tt (Cf (set_ca_list (l1 ++ f e :: l2) w) k) -> wp (upd_entry (length l1) f) (Cf w k) Q X.
Proof.
  intros E HQ. apply wp_bind, wp_cget. rewrite E, list_lookup_middle by done. apply wp_cupd.
  by rewrite insert_app_r_alt, Nat.sub_diag by lia.
Qed.

Lemma wp_bind_email l1 e l2 m w k :
  ca_list w = l1 ++ e :: l2 -> c_string (default [] m) ->
  wp (ngx_http_autocert_bind_ca_email (length l1) m) (Cf w k)
    (fun rc s => rc = NGX_OK -> exists em, s = Cf (set_ca_list (l1 ++ filled_entry em [] e :: l2) w) k /\ bound m em (e_email e))
    (fun _ => False).
Proof.
  intros E Hm. apply wp_bind, wp_cget. rewrite E, list_lookup_middle by done.
  assert (Hsame : Cf w k = Cf (set_ca_list (l1 ++ filled_entry (e_email e) [] e :: l2) w) k) by (by rewrite filled_entry_id, <- E, set_ca_list_id).
  destruct (Nat.eqb_spec (len m) 0) as [H0|H0].
  { apply wp_ret. intros _. exists (e_email e). split; [done|]. split; [by left|by right]. }
  destruct (Nat.eqb_spec (len (e_email e)) 0) as [H1|H1].
  { apply wp_bind. eapply wp_upd_entry; [done|]. apply wp_ret. intros _. exists m. split; [|split; [by right|by left]].
    unfold filled_entry, set_entry_email. by rewrite app_nil_r. }
  destruct (str_eq _ _) eqn:Es; cbn [negb]; [|by apply wp_ret]. apply (str_eq_iff _ _ Hm) in Es.
  apply wp_ret. intros _. exists (e_email e). split; [done|]. split; [by right|by right].
Qed.

(** Some list of entries splits at the owner of a name. *)
Lemma owner_of_spec es ns name :
  c_string name -> concat (e_names <$> es) ≡ₚ ns -> name ∈ ns ->
  exists o, owner_of es name = Some o /\ o ∈ es /\ name ∈ e_names o.
Proof.
  intros Hn Hs Hin. unfold owner_of. destruct (List.find _ es) as [o|] eqn:Ef.
  - apply List.find_some in Ef as [Ho He]. exists o. split; [done|]. split; [by apply list_elem_of_In|].
    apply existsb_exists in He as (g & Hg & Eg). apply (str_eq_iff _ _ Hn) in Eg as ->. by apply list_elem_of_In.
  - exfalso. rewrite <- Hs in Hin. apply list_elem_of_In, in_concat in Hin as (l & Hl & Hin). apply list_elem_of_In, list_elem_of_fmap in Hl as (e & -> & He).
    apply list_elem_of_In in He. pose proof (List.find_none _ _ Ef e He) as Hf. cbn in Hf.
    assert (Ht : existsb (fun g => str_eq g name) (e_names e) = true) by (apply existsb_exists; exists name; split; [done|by apply str_eq_iff]).
    congruence.
Qed.

Lemma same_url l1 e l2 (o : entry) :
  NoDup ((fun e => url (e_ca e)) <$> l1 ++ e :: l2) -> o ∈ l1 ++ e :: l2 -> url (e_ca o) = url (e_ca e) -> o = e.
Proof.
  rewrite fmap_app, fmap_cons. intros (_ & Hd & [Hn _]%NoDup_cons)%NoDup_app Ho Eu.
  apply elem_of_app in Ho as [Ho|[->|Ho]%elem_of_cons]; [|done|].
  - exfalso. apply (Hd (url (e_ca o))); [apply list_elem_of_fmap; by exists o|]. rewrite Eu. left.
  - exfalso. apply Hn. rewrite <- Eu. apply list_elem_of_fmap. by exists o.
Qed.

(** Where a configuration stands after some names were added. *)
Definition grown (w : config) (L : list claim) (s : cf config) : Prop :=
  exists ns es k, s = Cf (set_ca_list es (set_names ns w)) k /\ collected (default [] (path (main w))) L ns es.

Lemma wp_existing_name L c s name w k :
  collected (default [] (path (main w))) L (names w) (ca_list w) -> name ∈ names w ->
  plain_ca c -> c_string name -> c_string (default [] (s_email s)) ->
  wp (let! es := get ca_list in
      match owner_of es name with
      | None => ret NGX_OK
      | Some o =>
          if negb (str_eq (default [] (ca (e_ca o))) (default [] (ca c))) then ret NGX_ERROR
          else
            let! g := ngx_http_autocert_ca_entry ok sha256 c in
            match g with
            | None => ret NGX_ERROR
            | Some i => ngx_http_autocert_bind_ca_email i (s_email s)
            end
      end) (Cf w k) (fun rc s' => rc = NGX_OK -> grown w (L ++ [Claim name c (s_email s)]) s') (fun _ => False).
Proof.
  intros Hco Hin Hc Hn Hm. apply wp_bind, wp_cget.
  destruct (owner_of_spec _ _ name Hn (co_split _ _ _ _ Hco) Hin) as (o & -> & Ho & Hno).
  destruct (str_eq _ _) eqn:Eu; cbn [negb]; [|by apply wp_ret]. apply (str_eq_iff _ _ (pl_ca c Hc)) in Eu.
  apply wp_bind. eapply wp_mono; [by apply wp_ca_entry| |done]. intros [i|] s' Hg; [|by apply wp_ret].
  destruct (Hg i eq_refl) as (l1 & e & l2 & k' & -> & -> & Ha & Hof). cbn in Hof |- *.
  assert (Hue : url (e_ca o) = url (e_ca e)) by (unfold url; by rewrite Eu, (ag_ca _ _ Ha)).
  destruct Hof as [E|(_ & _ & _ & Hfresh & _)].
  2: { exfalso. apply Hfresh. rewrite <- Hue. apply list_elem_of_fmap. by exists o. }
  assert (o = e) as -> by (eapply (same_url l1 e l2); [rewrite <- E; apply Hco|by rewrite <- E|done]).
  eapply wp_mono; [apply (wp_bind_email l1 e l2); done| |done]. intros rc s' Hb ->. destruct (Hb eq_refl) as (em & -> & Hbound).
  exists (names w ++ []), (l1 ++ filled_entry em [] e :: l2), k'. split; [rewrite app_nil_r; by destruct w|].
  eapply collected_more; [done|by left|done|done|]. by left.
Qed.

Lemma wp_add_name L c s name w k :
  collected (default [] (path (main w))) L (names w) (ca_list w) ->
  plain_ca c -> c_string name -> c_string (default [] (s_email s)) ->
  wp (ngx_http_autocert_add_name ok sha256 inet_addr inet6_addr c s name) (Cf w k)
    (fun rc s' => rc = NGX_OK -> grown w (L ++ [Claim name c (s_email s)]) s') (fun _ => False).
Proof.
  intros Hco Hc Hn Hm. unfold ngx_http_autocert_add_name. destruct (_ && _) eqn:Ev; [by apply wp_ret|].
  assert (Hv : valid_name name).
  { apply andb_false_iff in Ev as [Ev%Z.eqb_neq|Ev%negb_false_iff]; [by left|by right]. }
  apply wp_bind, wp_cget. destruct (existsb _ _) eqn:Ex.
  { apply wp_existing_name; [done| |done..]. apply existsb_exists in Ex as (e & He & Ee). apply (str_eq_iff _ _ Hn) in Ee as ->. by apply list_elem_of_In. }
  assert (Hnew : name ∉ names w).
  { intros Hin. apply list_elem_of_In in Hin.
    assert (Ht : existsb (fun e => str_eq e name) (names w) = true) by (apply existsb_exists; exists name; split; [done|by apply str_eq_iff]).
    congruence. }
  apply wp_bind, wp_cattempt. intros [] k1; cbn [negb]; [|by apply wp_ret]. apply wp_bind, wp_cupd, wp_bind.
  eapply wp_mono; [by apply wp_ca_entry| |done]. intros [i|] s' Hg; [|by apply wp_ret].
  destruct (Hg i eq_refl) as (l1 & e & l2 & k2 & -> & -> & Ha & Hof). cbn in Hof.
  apply wp_bind. eapply wp_mono; [apply (wp_bind_email l1 e l2); done| |done]. intros rc s' Hb.
  destruct (Z.eqb_spec rc NGX_OK) as [->|_]; cbn [negb]; [|by apply wp_ret]. destruct (Hb eq_refl) as (em & -> & Hbound).
  apply wp_bind, wp_cattempt. intros [] k3; cbn [negb]; [|by apply wp_ret].
  apply wp_bind. eapply wp_upd_entry; [done|]. apply wp_ret. intros _.
  exists (names w ++ [name]), (l1 ++ filled_entry em [name] e :: l2), k3. split.
  - unfold set_entry_names, filled_entry. cbn. by rewrite app_nil_r.
  - eapply collected_more; [done|done|done|done|]. by right.
Qed.
End Grouping.
