(* ===== verification/ConfigRun.v ===== *)
(** * Configuration: the whole walk

    What [ngx_http_autocert_postconfig] makes of the servers. *)

From S2P Require Import Prelude NgxCore Loadcap Ident Alpn Expiry OrderState Account Config ConfigNames.

Local Open Scope Z_scope.
Local Open Scope prog_scope.

Section Walk.
Context (ok : nat -> bool) (full_name : nat -> bytes -> option bytes) (sha256 : bytes -> option bytes)
  (inet_addr : bytes -> Z) (inet6_addr : bytes -> option bytes).

(** ** What a server wants *)

(** The name is one label in front of what a wildcard of the server stands for. *)
Definition covered (name : bytes) (wcs : list bytes) : Prop :=
  exists label rest, name = label ++ 46 :: rest /\ label <> [] /\ rest <> [] /\ 46 ∉ label /\ head name <> Some 42
    /\ 42 :: 46 :: ngx_strlow rest ∈ wcs.

Definition is_ip (n : bytes) : Prop := (ngx_autocert_str_is_ip inet_addr inet6_addr n).1 <> 0.

(** The names of a server that are not issued: patterns, names that are not one name,
    wildcards the challenge cannot validate, and those its wildcards cover. *)
Definition skipped (dns01 : bool) (s : srv_conf) (sn : server_name) : Prop :=
  n_regex sn = true \/ n_text sn = [] \/ head (n_text sn) = Some 46
  \/ 42 ∈ n_text sn /\ (dns01 = false \/ ~ wildcard_text (n_text sn))
  \/ covered (n_text sn) (default [] (wildcards s)).

(** The names a server wants a certificate for. *)
Definition wants (dns01 : bool) (sv : server) (n : bytes) : Prop :=
  (exists sn, sn ∈ server_names sv /\ n_text sn = n /\ ~ skipped dns01 (srv sv) sn) \/ n ∈ default [] (wildcards (srv sv)).

(** A CA with its defaults. *)
Record resolves (c c' : ca_conf) : Prop := {
  re_choice : ~ (staging c = Some true /\ is_Some (ca c));
  re_ca : ca c' = Some (if default false (staging c) then NGX_HTTP_AUTOCERT_STAGING_CA else default NGX_HTTP_AUTOCERT_DEFAULT_CA (ca c));
  re_cert : ca_certificate c' = ca_certificate c /\ len (ca_certificate c) = 0%nat
            \/ exists n, ca_certificate c' = full_name n (default [] (ca_certificate c)) /\ is_Some (ca_certificate c');
  re_issuance : issuance_certificate c' = issuance_certificate c /\ len (issuance_certificate c) = 0%nat
            \/ exists n, issuance_certificate c' = full_name n (default [] (issuance_certificate c)) /\ is_Some (issuance_certificate c');
  re_kid : eab_kid c' = eab_kid c;
  re_hmac : eab_hmac_key c' = eab_hmac_key c;
  re_eab : len (eab_kid c) <> 0%nat /\ len (eab_hmac_key c) <> 0%nat \/ eab_kid c = None /\ eab_hmac_key c = None }.

Lemma wp_full_path {A} q (w : A) k (Q : option (option bytes) -> cf A -> Prop) X :
  (forall k', Q None (Cf w k')) ->
  (forall r k', (r = q /\ len q = 0%nat \/ exists n, r = full_name n (default [] q) /\ is_Some r) -> Q (Some r) (Cf w k')) ->
  wp (full_path full_name q) (Cf w k) Q X.
Proof.
  intros HN HS. unfold full_path. destruct (Nat.eqb_spec (len q) 0) as [H0|H0]; [apply wp_ret, HS; by left|].
  apply wp_bind, wp_ccall. intros k'. destruct (full_name k (default [] q)) as [r|] eqn:E; apply wp_ret; [|apply HN].
  apply HS. right. exists k. by rewrite E.
Qed.

Lemma wp_resolve_ca {A} c (w : A) k (Q : option ca_conf -> cf A -> Prop) X :
  (forall k', Q None (Cf w k')) -> (forall c' k', resolves c c' -> Q (Some c') (Cf w k')) ->
  wp (ngx_http_autocert_resolve_ca_conf full_name c) (Cf w k) Q X.
Proof.
  intros HN HS. unfold ngx_http_autocert_resolve_ca_conf. cbv zeta. destruct (_ && _) eqn:Ec; [by apply wp_ret|].
  apply wp_bind, wp_full_path; [intros; by apply wp_ret|]. intros cert k1 Hcert.
  apply wp_bind, wp_full_path; [intros; by apply wp_ret|]. intros iss k2 Hiss.
  destruct (_ || _) eqn:Ee; apply wp_ret; [apply HN|apply HS]. apply orb_false_iff in Ee as [E1%negb_false_iff%Bool.eqb_prop E2].
  constructor; cbn; try done.
  - intros [Hs Hca]. rewrite Hs in Ec. cbn in Ec. by apply bool_decide_eq_false in Ec.
  - by destruct (default false (staging c)).
  - destruct (eab_kid c) as [kid|]; [|right; split; [done|]; destruct (eab_hmac_key c); [|done]; done].
    left. rewrite bool_decide_true in E1, E2 by done. cbn [andb] in E2. apply orb_false_iff in E2 as [E2 E3]. by apply Nat.eqb_neq in E2, E3.
Qed.

(** ** The names of a server *)

(** nginx keeps its strings free of NUL bytes. *)
Record plain_server (sv : server) : Prop := {
  ps_names : Forall (fun sn => c_string (n_text sn)) (server_names sv);
  ps_wildcards : Forall wildcard_ok (default [] (wildcards (srv sv)));
  ps_ca : plain_ca (s_ca (srv sv));
  ps_email : c_string (default [] (s_email (srv sv))) }.

Definition claims (c : ca_conf) (s : srv_conf) (kept : list bytes) : list claim := (fun n => Claim n c (s_email s)) <$> kept.

Lemma claims_app c s a b : claims c s (a ++ b) = claims c s a ++ claims c s b.
Proof. apply fmap_app. Qed.

Lemma grown_refl w L k : collected sha256 inet_addr inet6_addr (default [] (path (main w))) L (names w) (ca_list w) ->
  grown sha256 inet_addr inet6_addr w L (Cf w k).
Proof. intros H. exists (names w), (ca_list w), k. split; [by destruct w|done]. Qed.

Lemma grown_trans w L L' s s' :
  grown sha256 inet_addr inet6_addr w L s -> grown sha256 inet_addr inet6_addr (it s) L' s' -> grown sha256 inet_addr inet6_addr w L' s'.
Proof. intros (ns & es & k & -> & _) (ns' & es' & k' & -> & H). by exists ns', es', k'. Qed.

(** Why the scan passes a name over, or not. *)
Lemma star_skip dns01 name :
  exists b, (match ngx_strlchr name 42 with
             | Some _ => if negb dns01 then Some true else negb <$> ngx_http_autocert_is_wildcard name
             | None => Some false
             end) = Some b /\ (b = true <-> 42 ∈ name /\ (dns01 = false \/ ~ wildcard_text name)).
Proof.
  destruct (ngx_strlchr name 42) as [n|] eqn:E.
  2: { exists false. split; [done|]. split; [done|]. intros [H _]. by apply strlchr_None in E. }
  apply strlchr_Some in E as (a & b & -> & _ & _). destruct dns01; cbn [negb].
  2: { exists true. split; [done|]. split; [|done]. intros _. split; [set_solver|by left]. }
  destruct (is_wildcard_iff (a ++ 42 :: b)) as (r & -> & Hr). exists (negb r). split; [done|]. rewrite negb_true_iff, <- not_true_iff_false, Hr.
  split; [intros H; split; [set_solver|by right]|by intros [_ [?|?]]].
Qed.

Lemma covered_skip name ws :
  Forall wildcard_ok (default [] ws) ->
  exists b, (match ws with Some ((_ :: _) as wcs) => ngx_http_autocert_name_covered name wcs | _ => Some false end) = Some b
    /\ (b = true <-> covered name (default [] ws)).
Proof.
  intros Hw. assert (Hnil : ~ covered name []) by (intros (lb & r & _ & _ & _ & _ & _ & H); by apply not_elem_of_nil in H).
  destruct ws as [[|w ws]|]; [by exists false| |by exists false]. by apply name_covered_iff.
Qed.

Lemma wp_server_names sns c s L w k :
  collected sha256 inet_addr inet6_addr (default [] (path (main w))) L (names w) (ca_list w) ->
  plain_ca c -> c_string (default [] (s_email s)) -> Forall (fun sn => c_string (n_text sn)) sns ->
  Forall wildcard_ok (default [] (wildcards s)) ->
  wp (name_loop ok sha256 inet_addr inet6_addr sns c s) (Cf w k)
    (fun rc s' => rc = NGX_OK -> exists kept, grown sha256 inet_addr inet6_addr w (L ++ claims c s kept) s'
       /\ (forall n, n ∈ kept <-> exists sn, sn ∈ sns /\ n_text sn = n /\ ~ skipped (is_dns01 w) s sn)
       /\ (is_dns01 w = true -> Forall (fun n => ~ is_ip n) kept)) (fun _ => False).
Proof.
  intros Hco Hc Hm Hsns Hws. revert L w k Hco. induction sns as [|sn sns IH]; intros L w k Hco; cbn [name_loop].
  { apply wp_ret. intros _. exists []. cbn. rewrite app_nil_r. split; [by apply grown_refl|]. split; [|by constructor].
    intros n. split; [by intros ?%not_elem_of_nil|]. intros (sn & Hsn & _). by apply not_elem_of_nil in Hsn. }
  apply Forall_cons in Hsns as [Hsn Hsns]. specialize (IH Hsns).
  assert (Hskip : skipped (is_dns01 w) s sn -> wp (name_loop ok sha256 inet_addr inet6_addr sns c s) (Cf w k)
    (fun rc s' => rc = NGX_OK -> exists kept, grown sha256 inet_addr inet6_addr w (L ++ claims c s kept) s'
       /\ (forall n, n ∈ kept <-> exists sn', sn' ∈ sn :: sns /\ n_text sn' = n /\ ~ skipped (is_dns01 w) s sn')
       /\ (is_dns01 w = true -> Forall (fun n => ~ is_ip n) kept)) (fun _ => False)).
  { intros Hs. eapply wp_mono; [by apply IH| |done]. intros rc s' Hk ->. destruct (Hk eq_refl) as (kept & Hg & Hkept & Hip).
    exists kept. split; [done|]. split; [|done]. intros n. rewrite Hkept. split.
    - intros (sn' & Hin & ?). exists sn'. split; [by right|done].
    - intros (sn' & [->|Hin]%elem_of_cons & ? & ?); [done|by exists sn']. }
  destruct (n_regex sn) eqn:Er; [apply Hskip; by left|].
  destruct (_ || _) eqn:E1; [apply Hskip|apply orb_false_iff in E1 as [E1%Nat.eqb_neq E2%bool_decide_eq_false]].
  { apply orb_true_iff in E1 as [E1%Nat.eqb_eq%nil_length_inv|E1%bool_decide_eq_true]; [by right; left|by right; right; left]. }
  apply wp_bind, wp_cget. destruct (star_skip (is_dns01 w) (n_text sn)) as (b1 & -> & Hb1). destruct b1; [apply Hskip; right; right; right; left; by apply Hb1|].
  destruct (_ && _) eqn:Eip; [by apply wp_ret|].
  destruct (covered_skip (n_text sn) (wildcards s) Hws) as (b2 & -> & Hb2). destruct b2; [apply Hskip; do 4 right; by apply Hb2|].
  apply wp_bind. eapply wp_mono; [by apply wp_add_name| |done]. intros rc s' Hadd. destruct (Z.eqb_spec rc NGX_OK) as [->|_]; cbn [negb]; [|by apply wp_ret].
  destruct (Hadd eq_refl) as (ns & es & k' & -> & Hco'). eapply wp_mono; [by apply IH| |done]. intros rc s' Hk ->.
  destruct (Hk eq_refl) as (kept & Hg & Hkept & Hip). exists (n_text sn :: kept). split.
  { rewrite <- app_assoc in Hg. eapply (grown_trans w _ _ (Cf (set_ca_list es (set_names ns w)) k')); [|exact Hg]. by exists ns, es, k'. }
  split.
  - intros n. rewrite elem_of_cons, Hkept. change (is_dns01 (set_ca_list es (set_names ns w))) with (is_dns01 w). split.
    + intros [->|(sn' & Hin & Hn & Hs)]; [|exists sn'; split; [by right|done]]. exists sn. split; [left|]. split; [done|].
      intros [H|[H|[H|[H|H]]]]; [congruence|by rewrite H in E1|done|by apply Hb1 in H|by apply Hb2 in H].
    + intros (sn' & [->|Hin]%elem_of_cons & Hn & Hs); [by left|right; by exists sn'].
  - intros Hd. constructor; [|by apply Hip]. unfold is_ip. rewrite Hd, andb_true_r in Eip. apply negb_false_iff, Z.eqb_eq in Eip. intros Hne. by apply Hne.
Qed.

Lemma wp_wildcard_names wcs c s L w k :
  collected sha256 inet_addr inet6_addr (default [] (path (main w))) L (names w) (ca_list w) ->
  plain_ca c -> c_string (default [] (s_email s)) -> Forall wildcard_ok wcs ->
  wp (wildcard_names_loop ok sha256 inet_addr inet6_addr wcs c s) (Cf w k)
    (fun rc s' => rc = NGX_OK -> grown sha256 inet_addr inet6_addr w (L ++ claims c s wcs) s') (fun _ => False).
Proof.
  intros Hco Hc Hm Hws. revert L w k Hco. induction wcs as [|wn wcs IH]; intros L w k Hco; cbn [wildcard_names_loop].
  { apply wp_ret. intros _. cbn. rewrite app_nil_r. by apply grown_refl. }
  apply Forall_cons in Hws as [(_ & _ & Hwn & _) Hws]. apply wp_bind. eapply wp_mono; [by apply wp_add_name| |done].
  intros rc s' Hadd. destruct (Z.eqb_spec rc NGX_OK) as [->|_]; cbn [negb]; [|by apply wp_ret].
  destruct (Hadd eq_refl) as (ns & es & k' & -> & Hco'). eapply wp_mono; [by apply IH| |done]. intros rc s' Hk ->.
  specialize (Hk eq_refl). rewrite <- app_assoc in Hk. eapply (grown_trans w _ _ (Cf (set_ca_list es (set_names ns w)) k')); [|exact Hk]. by exists ns, es, k'.
Qed.

(** ** The servers *)

(** nginx's [ngx_conf_full_name] makes NUL-free strings of NUL-free strings. *)
Context (Hfull : forall n p q, full_name n p = Some q -> c_string p -> c_string q).

Lemma resolves_plain c c' : plain_ca c -> resolves c c' -> plain_ca c'.
Proof.
  intros [H1 H2 H3 H4 H5] [_ Hca Hc Hi Hk Hh _]. constructor.
  - rewrite Hca. cbn. destruct (default false (staging c)); [by repeat constructor|].
    destruct (ca c); [done|by repeat constructor].
  - destruct Hc as [[-> _]|(n & E & [q Hq])]; [done|]. rewrite E in *. rewrite Hq. by eapply Hfull.
  - destruct Hi as [[-> _]|(n & E & [q Hq])]; [done|]. rewrite E in *. rewrite Hq. by eapply Hfull.
  - by rewrite Hk.
  - by rewrite Hh.
Qed.

Definition enabled (sv : server) : Prop := enable (srv sv) = Some true.
#[local] Instance enabled_dec sv : Decision (enabled sv) := decide (enable (srv sv) = Some true).

(** The names kept are those wanted; wildcards only, and addresses never, under dns-01. *)
Definition wanted (dns01 : bool) (sv : server) (kept : list bytes) : Prop :=
  (forall n, n ∈ kept <-> wants dns01 sv n)
  /\ (default [] (wildcards (srv sv)) <> [] -> dns01 = true)
  /\ (dns01 = true -> forall sn, sn ∈ server_names sv -> ~ skipped dns01 (srv sv) sn -> ~ is_ip (n_text sn)).

(** The claims of the servers, in order, each with its CA resolved; and the servers with it. *)
Inductive claims_of (dns01 : bool) : list server -> list server -> list claim -> Prop :=
  | claims_nil : claims_of dns01 [] [] []
  | claims_off sv svs svs' L : ~ enabled sv -> claims_of dns01 svs svs' L -> claims_of dns01 (sv :: svs) (sv :: svs') L
  | claims_on sv svs svs' L c kept :
      enabled sv -> resolves (s_ca (srv sv)) c -> wanted dns01 sv kept -> claims_of dns01 svs svs' L ->
      claims_of dns01 (sv :: svs) (set_server_ca c sv :: svs') (claims c (srv sv) kept ++ L).

Definition same_zones (w w' : config) : Prop :=
  requests_zone w' = requests_zone w /\ alpn_zone w' = alpn_zone w /\ challenge_zone w' = challenge_zone w
  /\ serves_challenges w' = serves_challenges w.

Record walked (w : config) (L : list claim) (n : nat) (svs : list server) (s : cf config) : Prop := {
  wk_main : main (it s) = main w;
  wk_servers : servers (it s) = svs;
  wk_enabled : enabled_servers (it s) = (enabled_servers w + n)%nat;
  wk_collected : collected sha256 inet_addr inet6_addr (default [] (path (main w))) L (names (it s)) (ca_list (it s));
  wk_zones : same_zones w (it s) }.

Lemma wp_one_server L sv pre post w k :
  servers w = pre ++ sv :: post -> enabled sv -> plain_server sv ->
  collected sha256 inet_addr inet6_addr (default [] (path (main w))) L (names w) (ca_list w) ->
  wp (one_server ok full_name sha256 inet_addr inet6_addr (length pre) sv) (Cf w k)
    (fun rc s' => rc = NGX_OK -> exists c kept, resolves (s_ca (srv sv)) c /\ wanted (is_dns01 w) sv kept
        /\ walked w (L ++ claims c (srv sv) kept) 1 (pre ++ set_server_ca c sv :: post) s') (fun _ => False).
Proof.
  intros Hsv He [Hns Hws Hpc Hm] Hco. apply wp_bind, wp_cupd. cbv zeta. apply wp_bind, wp_cupd.
  match goal with |- wp _ (Cf ?x _) _ _ => set (w1 := x) end. assert (Hw1 : main w1 = main w /\ servers w1 = servers w /\ names w1 = names w /\ ca_list w1 = ca_list w
    /\ enabled_servers w1 = S (enabled_servers w) /\ same_zones w w1) by (unfold w1; by case_match).
  destruct Hw1 as (Hw1 & Hw2 & Hw3 & Hw4 & Hw5 & Hw6). clearbody w1.
  apply wp_bind, wp_resolve_ca; [intros; by apply wp_ret|]. intros c k1 Hc. apply wp_bind, wp_cupd.
  rewrite Hw2, Hsv, insert_app_r_alt, Nat.sub_diag by lia. cbn [insert list_insert]. apply wp_bind, wp_cget.
  change (is_dns01 (set_servers _ w1)) with (is_dns01 w1). assert (Hdns : is_dns01 w1 = is_dns01 w) by (unfold is_dns01; by rewrite Hw1). rewrite Hdns.
  destruct (_ && _) eqn:Ed; [by apply wp_ret|].
  pose proof (resolves_plain _ _ Hpc Hc) as Hpc'. apply wp_bind.
  eapply wp_mono; [eapply (wp_server_names _ c (srv sv) L); [cbn; rewrite Hw1, Hw3, Hw4; done|done..]| |done].
  intros rc s' Hk. destruct (Z.eqb_spec rc NGX_OK) as [->|_]; cbn [negb]; [|by apply wp_ret].
  destruct (Hk eq_refl) as (kept & (ns & es & k2 & -> & Hco2) & Hkept & Hip). change (is_dns01 (set_servers _ w1)) with (is_dns01 w1) in Hkept, Hip.
  rewrite Hdns in Hkept, Hip.
  eapply wp_mono; [by eapply (wp_wildcard_names (default [] (wildcards (srv sv))) c (srv sv))| |done]. intros rc s' Hg ->.
  specialize (Hg eq_refl). rewrite <- app_assoc, <- claims_app in Hg. exists c, (kept ++ default [] (wildcards (srv sv))). split; [done|]. split.
  - split; [|split].
    + intros n. rewrite elem_of_app, Hkept. done.
    + intros Hne. destruct (is_dns01 w); [done|]. rewrite andb_true_r in Ed. apply negb_false_iff, Nat.eqb_eq, nil_length_inv in Ed. done.
    + intros Hd sn Hsn Hs. rewrite Forall_forall in Hip by done. apply (Hip Hd). apply Hkept. by exists sn.
  - destruct Hg as (ns' & es' & k3 & -> & Hco3). cbn in Hco3. rewrite Hw1 in Hco3. constructor; cbn; [by rewrite Hw1|done|rewrite Hw5; lia|done|done].
Qed.

Definition how_many (svs : list server) : nat := length (filter enabled svs).

Lemma wp_server_loop svs L pre w k :
  servers w = pre ++ svs -> Forall plain_server svs ->
  collected sha256 inet_addr inet6_addr (default [] (path (main w))) L (names w) (ca_list w) ->
  wp (server_loop ok full_name sha256 inet_addr inet6_addr (length pre) svs) (Cf w k)
    (fun rc s' => rc = NGX_OK -> exists svs' L', claims_of (is_dns01 w) svs svs' L'
        /\ walked w (L ++ L') (how_many svs) (pre ++ svs') s') (fun _ => False).
Proof.
  revert L pre w k. induction svs as [|sv svs IH]; intros L pre w k Hsv Hps Hco; cbn [server_loop].
  { apply wp_ret. intros _. exists [], []. split; [constructor|]. rewrite app_nil_r. constructor; cbn; [done|done|lia|done|by repeat split]. }
  apply Forall_cons in Hps as [Hp Hps]. case_bool_decide as He; cbn [negb].
  - apply wp_bind. eapply wp_mono; [by apply (wp_one_server L sv pre svs)| |done]. intros rc [w1 k1] Hone.
    destruct (Z.eqb_spec rc NGX_OK) as [->|_]; cbn [negb]; [|by apply wp_ret].
    destruct (Hone eq_refl) as (c & kept & Hc & Hk & [Hm Hs Hn Hco1 Hz]). cbn in Hm, Hs, Hn, Hco1, Hz.
    replace (S (length pre)) with (length (pre ++ [set_server_ca c sv])) by (rewrite length_app; cbn; lia).
    rewrite <- Hm in Hco1.
    eapply wp_mono; [apply (IH (L ++ claims c (srv sv) kept) (pre ++ [set_server_ca c sv]) w1 k1); [by rewrite <- app_assoc|done|exact Hco1]| |done].
    intros rc s' Hr ->. destruct (Hr eq_refl) as (svs' & L' & Hcl & [Hm' Hs' Hn' Hco' Hz']).
    exists (set_server_ca c sv :: svs'), (claims c (srv sv) kept ++ L'). unfold is_dns01 in Hcl. rewrite Hm in Hcl. split; [by apply claims_on|].
    rewrite <- app_assoc in Hs', Hco'. rewrite Hm in Hco'.
    constructor; [by rewrite Hm'|done| |done|]; [rewrite Hn', Hn; unfold how_many; rewrite filter_cons_True by done; cbn; lia|].
    unfold same_zones in *. naive_solver congruence.
  - replace (S (length pre)) with (length (pre ++ [sv])) by (rewrite length_app; cbn; lia).
    eapply wp_mono; [apply (IH L (pre ++ [sv]) w k); [by rewrite <- app_assoc|done|done]| |done].
    intros rc s' Hr ->. destruct (Hr eq_refl) as (svs' & L' & Hcl & [Hm' Hs' Hn' Hco' Hz']).
    exists (sv :: svs'), L'. split; [by apply claims_off|]. rewrite <- app_assoc in Hs'.
    constructor; [done|done| |done|done]. rewrite Hn'. unfold how_many. by rewrite filter_cons_False.
Qed.

Lemma claims_of_plain dns01 svs svs' L : claims_of dns01 svs svs' L -> Forall plain_server svs -> Forall plain_server svs'.
Proof.
  induction 1 as [|sv svs svs' L _ _ IH|sv svs svs' L c kept _ Hc _ _ IH]; intros Hp; [done| |]; apply Forall_cons in Hp as [Hp Hps];
    constructor; [done|by apply IH| |by apply IH].
  destruct Hp as [H1 H2 H3 H4]. constructor; [done|done|by eapply resolves_plain|done].
Qed.

(** The group made for issuance at run time only: that of the first enabled server. *)
Definition runtime_group (p : bytes) (svs : list server) (es : list entry) : Prop :=
  exists sv e, List.find (fun sv => bool_decide (enable (srv sv) = Some true)) svs = Some sv
    /\ es = [e] /\ e_names e = [] /\ agrees (e_ca e) (s_ca (srv sv)) /\ account_of sha256 p e.

Lemma collected_no_names p L es : collected sha256 inet_addr inet6_addr p L [] es -> es = [].
Proof.
  intros [_ _ Hs _ _ _ Hne _]. destruct es as [|e es]; [done|]. apply Forall_cons in Hne as [Hne _].
  symmetry in Hs. apply Permutation_nil in Hs. cbn in Hs. by apply app_eq_nil in Hs as [? _].
Qed.

Lemma wp_runtime_only L w k :
  collected sha256 inet_addr inet6_addr (default [] (path (main w))) L (names w) (ca_list w) -> Forall plain_server (servers w) ->
  wp (runtime_only ok sha256) (Cf w k)
    (fun b s' => b = true -> exists es k', s' = Cf (set_ca_list es w) k' /\
       (es = ca_list w /\ (names w = [] -> enabled_servers w = 0%nat \/ Forall (fun sv => ~ enabled sv) (servers w))
        \/ names w = [] /\ runtime_group (default [] (path (main w))) (servers w) es)) (fun _ => False).
Proof.
  intros Hco Hps. apply wp_bind, wp_cget. unfold id. destruct (_ && _) eqn:Er.
  2: { apply wp_ret. intros _. exists (ca_list w), k. rewrite set_ca_list_id. split; [done|]. left. split; [done|]. intros E. rewrite E in Er. cbn in Er.
       left. by apply negb_false_iff, Nat.eqb_eq in Er. }
  apply andb_true_iff in Er as [En%Nat.eqb_eq%nil_length_inv _]. rewrite En in Hco. pose proof (collected_no_names _ _ _ Hco) as Hes.
  destruct (List.find _ (servers w)) as [sv|] eqn:Ef.
  - apply wp_bind. pose proof (List.find_some _ _ Ef) as [Hin _]. apply list_elem_of_In in Hin.
    pose proof (proj1 (Forall_forall _ _) Hps sv Hin) as [_ _ Hpc _]. eapply wp_mono; [by apply wp_ca_entry| |done].
    intros [i|] s' Hg; apply wp_ret; [|by rewrite bool_decide_eq_true; intros [? ?]]. intros _. destruct (Hg i eq_refl) as (l1 & e & l2 & k' & -> & _ & Ha & Ho).
    rewrite Hes in Ho. exists (l1 ++ e :: l2), k'. split; [done|]. right. split; [done|]. destruct Ho as [Ho|(<- & -> & Hn & _ & Hacc)]; [by destruct l1|].
    by exists sv, e.
  - apply wp_ret. intros _. exists (ca_list w), k. rewrite set_ca_list_id. split; [done|]. left. split; [done|]. intros _. right.
    apply Forall_forall. intros sv Hin%list_elem_of_In He. pose proof (List.find_none _ _ Ef sv Hin) as Hf. cbn in Hf. by apply bool_decide_eq_false in Hf.
Qed.

(** ** The end *)

(** As [ngx_http_autocert_create_main_conf] leaves what is collected. *)
Record blank (w : config) : Prop := {
  bl_enabled : enabled_servers w = 0%nat;
  bl_requests : requests_zone w = false;
  bl_alpn : alpn_zone w = false;
  bl_challenge : challenge_zone w = false;
  bl_serves : serves_challenges w = false }.

(** What is made of a configuration that is accepted. *)
Record configured (w w' : config) (L : list claim) : Prop := {
  cg_main : main w' = main w;
  cg_claims : claims_of (is_dns01 w) (servers w) (servers w') L;
  cg_enabled : enabled_servers w' = how_many (servers w);
  cg_groups : collected sha256 inet_addr inet6_addr (default [] (path (main w))) L (names w') (ca_list w')
                /\ (names w' = [] -> Forall (fun sv => ~ enabled sv) (servers w))
              \/ names w' = [] /\ L = [] /\ runtime_group (default [] (path (main w))) (servers w') (ca_list w');
  cg_requests : requests_zone w' = negb (how_many (servers w) =? 0)%nat;
  cg_alpn : alpn_zone w' = bool_decide (challenge (main w) = Some NGX_AUTOCERT_CHALLENGE_TLS_ALPN_01)
                             && negb (how_many (servers w) =? 0)%nat || negb (length (test_alpn_domain (main w)) =? 0)%nat;
  cg_challenge : challenge_zone w' = negb (how_many (servers w) =? 0)%nat || negb (length (test_token (main w)) =? 0)%nat;
  cg_serves : serves_challenges w' = challenge_zone w' }.

Lemma wp_add_zone (b : bool) (f : config -> config) w k (Q : bool -> cf config -> Prop) X :
  (forall k', Q false (Cf w k')) -> (forall k', Q true (Cf (if b then f w else w) k')) -> wp (add_zone ok b f) (Cf w k) Q X.
Proof.
  intros HF HT. unfold add_zone. destruct b; cbn [negb]; [|apply wp_ret, HT]. apply wp_bind, wp_cattempt.
  intros [] k'; cbn [negb]; [apply wp_bind, wp_cupd, wp_ret, HT|apply wp_ret, HF].
Qed.

Lemma how_many_none svs : Forall (fun sv => ~ enabled sv) svs <-> how_many svs = 0%nat.
Proof.
  unfold how_many. induction svs as [|sv svs IH]; [by split|]. rewrite Forall_cons, IH. destruct (decide (enabled sv)) as [He|He].
  - rewrite filter_cons_True by done. split; [by intros [? _]|done].
  - rewrite filter_cons_False by done. naive_solver.
Qed.

Lemma claims_of_how_many dns01 svs svs' L : claims_of dns01 svs svs' L -> how_many svs' = how_many svs.
Proof.
  unfold how_many. induction 1 as [|sv svs svs' L Hn _ IH|sv svs svs' L c kept He _ _ _ IH]; [done| |].
  - by rewrite !filter_cons_False.
  - rewrite !filter_cons_True by done. cbn. by rewrite IH.
Qed.

Lemma wp_reserve_threads w k (Q : bool -> cf config -> Prop) X :
  (forall b k', Q b (Cf w k')) -> wp (reserve_threads ok) (Cf w k) Q X.
Proof. intros HQ. apply wp_bind, wp_cget. destruct (_ && _); [by apply wp_cattempt|by apply wp_ret]. Qed.

(** Of the two halves, the surfaces: the zones and the handler. *)
Lemma wp_surfaces w0 w L k :
  blank w0 -> main w = main w0 -> claims_of (is_dns01 w0) (servers w0) (servers w) L -> enabled_servers w = how_many (servers w0) ->
  (collected sha256 inet_addr inet6_addr (default [] (path (main w0))) L (names w) (ca_list w)
     /\ (names w = [] -> Forall (fun sv => ~ enabled sv) (servers w0))
   \/ names w = [] /\ L = [] /\ runtime_group (default [] (path (main w0))) (servers w) (ca_list w)) ->
  requests_zone w = false -> alpn_zone w = false -> challenge_zone w = false -> serves_challenges w = false ->
  wp (let! th := reserve_threads ok in
      if negb th then ret NGX_ERROR
      else
        let! w := get id in
        let! rz := add_zone ok (negb (enabled_servers w =? 0)%nat) (set_requests_zone true) in
        if negb rz then ret NGX_ERROR
        else
          let! az := add_zone ok (bool_decide (challenge (main w) = Some NGX_AUTOCERT_CHALLENGE_TLS_ALPN_01)
                               && negb (enabled_servers w =? 0)%nat || negb (length (test_alpn_domain (main w)) =? 0)%nat)
                       (set_alpn_zone true) in
          if negb az then ret NGX_ERROR
          else
            let! served := attempt ok in
            if negb served then ret NGX_ERROR
            else if (enabled_servers w =? 0)%nat && (length (test_token (main w)) =? 0)%nat then ret NGX_OK
            else
              let! cz := add_zone ok true (set_challenge_zone true false) in
              if negb cz then ret NGX_ERROR
              else
                let! h := attempt ok in
                if negb h then ret NGX_ERROR
                else
                  Config.upd (set_challenge_zone true true);;
                  ret NGX_OK) (Cf w k) (fun rc s => rc = NGX_OK -> configured w0 (it s) L) (fun _ => False).
Proof.
  intros Hb Hm Hcl Hen Hg H1 H2 H3 H4. apply wp_bind, wp_reserve_threads. intros [] k1; cbn [negb]; [|by apply wp_ret].
  apply wp_bind, wp_cget. unfold id. rewrite Hen, Hm. apply wp_bind, wp_add_zone; [intros; by apply wp_ret|]. intros k2. cbn [negb].
  match goal with |- wp _ (Cf ?x _) _ _ => set (w1 := x) end.
  apply wp_bind, wp_add_zone; [intros; by apply wp_ret|]. intros k3. cbn [negb]. match goal with |- wp _ (Cf ?x _) _ _ => set (w2 := x) end.
  apply wp_bind, wp_cattempt. intros [] k4; cbn [negb]; [|by apply wp_ret].
  assert (Hw2 : main w2 = main w0 /\ servers w2 = servers w /\ names w2 = names w /\ ca_list w2 = ca_list w
    /\ enabled_servers w2 = enabled_servers w /\ challenge_zone w2 = false /\ serves_challenges w2 = false
    /\ requests_zone w2 = negb (how_many (servers w0) =? 0)%nat
    /\ alpn_zone w2 = bool_decide (challenge (main w0) = Some NGX_AUTOCERT_CHALLENGE_TLS_ALPN_01)
          && negb (how_many (servers w0) =? 0)%nat || negb (length (test_alpn_domain (main w0)) =? 0)%nat).
  { unfold w2, w1. clear w1 w2. set (b1 := negb (how_many (servers w0) =? 0)%nat). match goal with |- context [orb ?a ?b] => set (b2 := orb a b) end. clearbody b2. clearbody b1. by destruct b1, b2; cbn; repeat split. }
  clearbody w2. destruct Hw2 as (G1 & G2 & G3 & G4 & G5 & G6 & G7 & G8 & G9).
  match goal with |- wp (if ?b then _ else _) _ _ _ => destruct b eqn:Et end.
  - apply wp_ret. intros _. apply andb_true_iff in Et as [Et1 Et2]. constructor; cbn [it]; rewrite ?G1, ?G2, ?G3, ?G4, ?G5, ?G6; try done.
    by rewrite Et1, Et2.
  - apply wp_bind, wp_add_zone; [intros; by apply wp_ret|]. intros k5. cbn [negb]. apply wp_bind, wp_cattempt. intros [] k6; cbn [negb]; [|by apply wp_ret].
    apply wp_bind, wp_cupd, wp_ret. intros _. constructor; cbn; rewrite ?G1, ?G2, ?G3, ?G4, ?G5; try done.
    rewrite <- negb_andb, Et. done.
Qed.

Lemma wp_postconfig w k :
  blank w -> Forall plain_server (servers w) ->
  wp (ngx_http_autocert_postconfig ok full_name sha256 inet_addr inet6_addr) (Cf w k)
    (fun rc s => rc = NGX_OK -> exists L, configured w (it s) L) (fun _ => False).
Proof.
  intros Hb Hps. apply wp_bind, wp_cattempt. intros [] k1; cbn [negb]; [|by apply wp_ret]. apply wp_bind, wp_cattempt.
  intros [] k2; cbn [negb]; [|by apply wp_ret]. apply wp_bind, wp_cupd, wp_bind, wp_cget. cbv zeta.
  apply wp_bind, wp_resolve_ca; [intros; by apply wp_ret|]. intros c k3 _. rewrite bool_decide_eq_false_2 by done.
  apply wp_bind, wp_cget. apply wp_bind.
  eapply wp_mono; [apply (wp_server_loop (servers w) [] [] (set_ca_list [] (set_names [] w))); [done|done|apply collected_nothing]| |done].
  intros rc [w2 k4] Hr. destruct (Z.eqb_spec rc NGX_OK) as [->|_]; cbn [negb]; [|by apply wp_ret].
  destruct (Hr eq_refl) as (svs' & L & Hcl & [Hm Hs Hn Hco Hz]). cbn in Hm, Hs, Hn, Hco. change (is_dns01 (set_ca_list [] (set_names [] w))) with (is_dns01 w) in Hcl.
  subst svs'. rewrite (bl_enabled w Hb) in Hn. cbn in Hn. destruct Hz as (Z1 & Z2 & Z3 & Z4). cbn in Z1, Z2, Z3, Z4.
  apply wp_bind. rewrite <- Hm in Hco. eapply wp_mono; [apply (wp_runtime_only L w2); [done|by eapply claims_of_plain]| |done].
  intros [] s' Hro; cbn [negb]; [|by apply wp_ret]. destruct (Hro eq_refl) as (es & k5 & -> & Hes). rewrite Hm in Hco, Hes.
  eapply wp_mono; [apply (wp_surfaces w _ L k5); [done|done|done|done| |cbn; rewrite ?Z1, ?Z2, ?Z3, ?Z4; apply Hb..]|intros rc s' H Hok; exists L; by apply H|done].
  cbn. destruct Hes as [[-> Hno]|[Hno Hg]].
  - left. split; [done|]. intros E. apply how_many_none. destruct (Hno E) as [H0|Hf%how_many_none]; [congruence|]. by rewrite <- (claims_of_how_many _ _ _ _ Hcl).
  - right. split; [done|]. split; [|done]. destruct L as [|cl L]; [done|]. exfalso. apply (not_elem_of_nil (cl_name cl)). rewrite <- Hno. apply (co_names _ _ _ _ _ _ _ Hco).
    exists cl. split; [left|done].
Qed.
End Walk.
