(* ===== verification/ConfigLimits.v ===== *)
(** * Configuration: directives, limits and inheritance

    What each directive accepts, what the defaults and limits leave, and what a server
    takes over from http{}. *)

From S2P Require Import Prelude NgxCore Loadcap Ident Alpn Expiry OrderState Account Config ConfigNames.

Local Open Scope Z_scope.
Local Open Scope prog_scope.

Section Limits.
Context (ok : nat -> bool) (full_name : nat -> bytes -> option bytes).

(** ** Limits *)

(** What http{} may set. *)
Record limits (k : knobs) : Prop := {
  li_renew : 0 < default 604800 (renew_before k) <= 7689600;
  li_ttl : 0 <= default 604800 (runtime_ttl k);
  li_profile : Forall (fun c => profile_char c = true) (default [] (profile k));
  li_resolver : default 30 (resolver_timeout k) <= 3600;
  li_hook : 0 < default 30 (dns_hook_timeout k);
  li_add : forall p, dns_hook_add k = Some p -> head p = Some 47;
  li_remove : forall p, dns_hook_remove k = Some p -> head p = Some 47;
  li_dns : challenge k = Some NGX_AUTOCERT_CHALLENGE_DNS_01 -> is_Some (dns_hook_add k) /\ is_Some (dns_hook_remove k) }.

(** What it has after: the same where it was set, the defaults elsewhere. *)
Record defaulted (k k' : knobs) : Prop := {
  de_renew : renew_before k' = Some (default 604800 (renew_before k));
  de_types : exists kts, key_types k' = Some kts /\ key_type k' = head kts /\ kts = default [NGX_HTTP_AUTOCERT_KEY_P384] (key_types k);
  de_store : store k' = Some (default NGX_HTTP_AUTOCERT_STORE_SECURE (store k));
  de_path : exists n, path k' = full_name n (default (str "autocert") (path k));
  de_challenge : challenge k' = Some (default NGX_AUTOCERT_CHALLENGE_HTTP_01 (challenge k));
  de_resolver : resolver_timeout k' = Some (default 30 (resolver_timeout k));
  de_delay : dns_propagation_delay k' = Some (default 10 (dns_propagation_delay k));
  de_hook : dns_hook_timeout k' = Some (default 30 (dns_hook_timeout k));
  de_ttl : runtime_ttl k' = Some (default 604800 (runtime_ttl k));
  de_limit : handshake_load_limit k' = Some (default 64 (handshake_load_limit k));
  de_hooks : dns_hook_add k' = dns_hook_add k /\ dns_hook_remove k' = dns_hook_remove k;
  de_profile : profile k' = profile k }.

Lemma hook_ok_iff hook : hook_ok hook = true <-> forall p, hook = Some p -> head p = Some 47.
Proof.
  unfold hook_ok, ngx_autocert_dns_hook_path_is_absolute. destruct hook as [p|]; [|naive_solver].
  rewrite bool_decide_eq_true. naive_solver.
Qed.

Lemma profile_safe p : Forall (fun c => profile_char c = true) p -> ngx_autocert_account_json_safe p = true.
Proof.
  intros Hp. unfold ngx_autocert_account_json_safe. apply forallb_forall. intros c Hc%list_elem_of_In.
  rewrite Forall_forall in Hp. specialize (Hp c Hc). unfold profile_char in Hp. reflect_bools; lia.
Qed.

(** Every call that may fail works. *)
Context (Hok : forall n, ok n = true) (Hfull : forall n p, is_Some (full_name n p)).

Lemma run_default_key_types k w n :
  exists n', default_key_types ok k (Cf w n) = Ret (Some (default [NGX_HTTP_AUTOCERT_KEY_P384] (key_types k))) (Cf w n').
Proof.
  unfold default_key_types. destruct (key_types k) as [kts|]; [by exists n|]. unfold bind, attempt, bind, Config.call, ret. cbn. rewrite Hok. cbn.
  rewrite Hok. by eexists.
Qed.

Lemma limits_tests k :
  limits k <->
  ((default 604800 (renew_before k) <=? 0) || (7689600 <? default 604800 (renew_before k)) = false
   /\ (default 604800 (runtime_ttl k) <? 0) = false /\ forallb profile_char (default [] (profile k)) = true
   /\ (NGX_AUTOCERT_TIMECONV_CAP_SEC <? default 30 (resolver_timeout k)) = false /\ (default 30 (dns_hook_timeout k) <=? 0) = false
   /\ hook_ok (dns_hook_add k) = true /\ hook_ok (dns_hook_remove k) = true
   /\ (default NGX_AUTOCERT_CHALLENGE_HTTP_01 (challenge k) =? NGX_AUTOCERT_CHALLENGE_DNS_01)
        && (bool_decide (dns_hook_add k = None) || bool_decide (dns_hook_remove k = None)) = false).
Proof.
  rewrite !hook_ok_iff, orb_false_iff, !Z.leb_gt, !Z.ltb_ge, andb_false_iff, orb_false_iff, !bool_decide_eq_false, Z.eqb_neq, forallb_forall.
  unfold NGX_AUTOCERT_TIMECONV_CAP_SEC. split.
  - intros [H1 H2 H3 H4 H5 H6 H7 H8]. do 2 (split; [lia|]). split; [intros c Hc%list_elem_of_In; rewrite Forall_forall in H3; by apply H3|].
    do 4 (split; [done|]). destruct (challenge k) as [c|]; cbn; [|by left]. destruct (decide (c = NGX_AUTOCERT_CHALLENGE_DNS_01)) as [->|Hc]; [right|by left].
    destruct (H8 eq_refl) as [[? ->] [? ->]]. done.
  - intros (H1 & H2 & H3 & H4 & H5 & H6 & H7 & H8). constructor; try done; [apply Forall_forall; intros c Hc; by apply H3, list_elem_of_In|].
    intros Hd. rewrite Hd in H8. destruct H8 as [H8|[Ha Hr]]; [done|]. split; [destruct (dns_hook_add k)|destruct (dns_hook_remove k)]; by eauto.
Qed.

(** C25. The defaults and limits of http{}: the configuration is accepted exactly when every
    setting is within its limits and dns-01 has both hooks; every setting then has a value,
    the one given or the default. *)
Theorem init_main_conf_iff (k : knobs) (n : nat) :
  exists rc k' n', ngx_http_autocert_init_main_conf ok full_name (Cf k n) = Ret rc (Cf k' n')
  /\ (rc = CONF_OK <-> limits k) /\ (rc = CONF_OK -> defaulted k k' /\ ngx_autocert_account_json_safe (default [] (profile k')) = true).
Proof.
  unfold ngx_http_autocert_init_main_conf. unfold bind at 1, get. cbn [it id]. cbv zeta.
  assert (Hno : forall b1 b2 : bool, (limits k -> b1 = b2) -> b1 <> b2 -> forall k' n', exists rc k1 n1,
    @Ret (cf knobs) conf_rc CONF_ERROR (Cf k' n') = Ret rc (Cf k1 n1) /\ (rc = CONF_OK <-> limits k)
    /\ (rc = CONF_OK -> defaulted k k1 /\ ngx_autocert_account_json_safe (default [] (profile k1)) = true)).
  { intros b1 b2 Hb Hne k' n'. exists CONF_ERROR, k', n'. split; [done|]. split; [|done]. split; [done|]. intros Hl. by apply Hb in Hl. }
  change (7 * 24 * 60 * 60) with 604800. change (89 * 24 * 60 * 60) with 7689600.
  destruct (_ || _) eqn:E1; [eapply (Hno true false); [intros Hl%limits_tests; rewrite <- E1; by apply Hl|done]|].
  destruct (_ <? 0) eqn:E2; [eapply (Hno true false); [intros Hl%limits_tests; rewrite <- E2; by apply Hl|done]|].
  destruct (forallb _ _) eqn:E3; cbn [negb]; [|eapply (Hno false true); [intros Hl%limits_tests; rewrite <- E3; by apply Hl|done]].
  unfold bind at 1. destruct (run_default_key_types k k n) as [n1 ->]. unfold bind at 1, conf_full_name, bind at 1, Config.call. cbn [calls it ret].
  destruct (Hfull n1 (default (str "autocert") (path k))) as [p Hp]. unfold ret at 1. rewrite Hp.
  destruct (NGX_AUTOCERT_TIMECONV_CAP_SEC <? default 30 _) eqn:E4; [eapply (Hno true false); [intros Hl%limits_tests; rewrite <- E4; by apply Hl|done]|].
  destruct (default 30 (dns_hook_timeout k) <=? 0) eqn:E5; [eapply (Hno true false); [intros Hl%limits_tests; rewrite <- E5; by apply Hl|done]|].
  destruct (hook_ok (dns_hook_add k)) eqn:E6; cbn [negb]; [|eapply (Hno false true); [intros Hl%limits_tests; rewrite <- E6; by apply Hl|done]].
  destruct (hook_ok (dns_hook_remove k)) eqn:E7; cbn [negb]; [|eapply (Hno false true); [intros Hl%limits_tests; rewrite <- E7; by apply Hl|done]].
  destruct (_ && _) eqn:E8; [eapply (Hno true false); [intros Hl%limits_tests; rewrite <- E8; by apply Hl|done]|].
  assert (Hl : limits k) by (apply limits_tests; done). do 3 eexists. split; [reflexivity|]. split; [done|]. intros _. split; [|apply profile_safe, Hl].
  constructor; cbn; try done; [by eexists|by exists n1].
Qed.
End Limits.

(** With nothing set. *)
Lemma init_main_conf_iff_witness :
  exists rc k' n', ngx_http_autocert_init_main_conf (fun _ => true) (fun _ p => Some (str "/etc/nginx/" ++ p))
       (Cf ngx_http_autocert_create_main_conf 0) = Ret rc (Cf k' n')
  /\ (rc = CONF_OK <-> limits ngx_http_autocert_create_main_conf)
  /\ (rc = CONF_OK -> defaulted (fun _ p => Some (str "/etc/nginx/" ++ p)) ngx_http_autocert_create_main_conf k'
        /\ ngx_autocert_account_json_safe (default [] (profile k')) = true).
Proof.
  apply (init_main_conf_iff (fun _ => true) (fun _ p => Some (str "/etc/nginx/" ++ p)));
    [done|intros _ p; by exists (str "/etc/nginx/" ++ p)].
Defined.
