(* ===== verification/ConfigDirect.v ===== *)
(** * Configuration: the directives

    What each directive accepts, and that what they and the inheritance from http{} leave
    is well formed. *)

From S2P Require Import Prelude NgxCore Loadcap Ident Alpn Expiry OrderState Account Config ConfigNames ConfigRun.

Local Open Scope Z_scope.
Local Open Scope prog_scope.

Section Directives.
Context (ok : nat -> bool).

(** ** Wildcards *)

Lemma split_dots_strlow l : split_dots (ngx_strlow l) = ngx_strlow <$> split_dots l.
Proof.
  induction l as [|c l IH]; [done|]. cbn [ngx_strlow map split_dots]. fold (ngx_strlow l). rewrite IH.
  pose proof (lower_fixed c 46 ltac:(done)) as Hl. destruct (Z.eqb_spec c 46) as [->|Hc]; [done|].
  destruct (Z.eqb_spec (lower c) 46) as [H|_]; [by apply Hl in H|]. by destruct (split_dots l).
Qed.

Lemma strlow_idem l : ngx_strlow (ngx_strlow l) = ngx_strlow l.
Proof.
  unfold ngx_strlow. rewrite map_map. apply map_ext. intros c. destruct (decide (65 <= c <= 90)) as [Hc|Hc].
  - destruct (lower_upper c Hc) as [-> _]. apply lower_other. lia.
  - by rewrite !lower_other by (rewrite ?lower_other; done).
Qed.

Lemma wildcard_ok_strlow v :
  wildcard_text v -> c_string v -> Z.of_nat (length v) < 2 ^ 64 -> wildcard_ok (ngx_strlow v).
Proof.
  intros (rest & -> & Hf) Hc Hl. split; [|split; [apply strlow_idem|split; [by apply strlow_c_string|by unfold ngx_strlow; rewrite length_map]]].
  exists (ngx_strlow rest). split; [done|]. rewrite split_dots_strlow. apply Forall_fmap. eapply Forall_impl; [exact Hf|].
  intros l [Hne Hs]. cbn. split; [by destruct l|]. unfold ngx_strlow. rewrite list_elem_of_In, in_map_iff. intros (c & Hlc & Hin).
  apply lower_fixed in Hlc as ->; [|done]. by apply Hs, list_elem_of_In.
Qed.

Definition add_wildcards (l : list bytes) (s : srv_conf) : srv_conf :=
  SrvConf (enable s) (s_email s) (s_ca s) (Some (default [] (wildcards s) ++ l)).

Lemma add_wildcards_app a b s : add_wildcards b (add_wildcards a s) = add_wildcards (a ++ b) s.
Proof. unfold add_wildcards. cbn. by rewrite app_assoc. Qed.

(** Every argument is looked at; what is added is the arguments, in lower case. *)
Lemma wp_wildcard_loop args s k :
  is_Some (wildcards s) ->
  wp (wildcard_loop ok args) (Cf s k)
    (fun rc s' => (rc = CONF_OK -> Forall wildcard_text args /\ it s' = add_wildcards (ngx_strlow <$> args) s)
       /\ (Forall wildcard_text args -> (forall n, ok n = true) -> rc = CONF_OK)) (fun _ => False).
Proof.
  revert s k. induction args as [|v args IH]; intros s k Hw; cbn [wildcard_loop].
  { apply wp_ret. split; [|done]. intros _. split; [constructor|]. destruct s as [? ? ? [w|]]; [|by destruct Hw]. unfold add_wildcards. cbn. by rewrite app_nil_r. }
  destruct (is_wildcard_iff v) as (b & -> & Hb). destruct b.
  2: { apply wp_ret. split; [done|]. intros [Hv _]%Forall_cons _. by apply Hb in Hv. }
  apply wp_bind, wp_cattempt_at. destruct (ok k) eqn:E1; cbn [negb]; [|apply wp_ret; split; [done|]; intros _ H; by rewrite H in E1].
  apply wp_bind, wp_cattempt_at. destruct (ok (S k)) eqn:E2; cbn [negb]; [|apply wp_ret; split; [done|]; intros _ H; by rewrite H in E2].
  apply wp_bind, wp_cupd. eapply wp_mono; [apply IH; by eexists| |done]. intros rc s' [H1 H2]. split.
  - intros ->. destruct (H1 eq_refl) as [Hf ->]. split; [constructor; [by apply Hb|done]|].
    change (add_wildcards (ngx_strlow <$> args) (add_wildcards [ngx_strlow v] s) = add_wildcards (ngx_strlow <$> v :: args) s).
    apply add_wildcards_app.
  - intros [_ Hf]%Forall_cons. by apply H2.
Qed.

Lemma wp_wildcard args s k :
  wp (ngx_http_autocert_wildcard ok args) (Cf s k)
    (fun rc s' => (rc = CONF_OK -> Forall wildcard_text args /\ it s' = add_wildcards (ngx_strlow <$> args) s)
       /\ (Forall wildcard_text args -> (forall n, ok n = true) -> rc = CONF_OK)) (fun _ => False).
Proof.
  apply wp_bind, wp_cget. destruct (wildcards s) as [w|] eqn:Ew; [apply wp_wildcard_loop; by rewrite Ew|].
  apply wp_bind, wp_cattempt_at. destruct (ok k) eqn:E1; cbn [negb]; [|apply wp_ret; split; [done|]; intros _ H; by rewrite H in E1].
  apply wp_bind, wp_cupd. eapply wp_mono; [apply wp_wildcard_loop; by eexists| |done]. intros rc s' [H1 H2]. split; [|done].
  intros Hr. destruct (H1 Hr) as [Hf ->]. split; [done|]. unfold add_wildcards. cbn. by rewrite Ew.
Qed.

(** ** The other directives *)

(** A contact: something, one at-sign, something; it can stand in JSON. *)
Definition contact_text (m : bytes) : Prop :=
  (exists a b, m = a ++ 64 :: b /\ a <> [] /\ b <> [] /\ 64 ∉ a /\ 64 ∉ b) /\ ngx_autocert_account_json_safe m = true.

Lemma wp_contact v s k :
  wp (ngx_http_autocert_contact v) (Cf s k)
    (fun rc s' => (rc = CONF_OK -> len (s_email s) = 0%nat /\ contact_text v /\ it s' = SrvConf (enable s) (Some v) (s_ca s) (wildcards s))
       /\ (len (s_email s) = 0%nat -> contact_text v -> rc = CONF_OK)) (fun _ => False).
Proof.
  apply wp_bind, wp_cget. destruct (Nat.eqb_spec (len (s_email s)) 0) as [H0|H0]; cbn [negb]; [|by apply wp_ret].
  destruct (ngx_strlchr v 64) as [n|] eqn:E.
  2: { apply wp_ret. split; [done|]. intros _ [(a & b & -> & _) _]. apply strlchr_None in E. set_solver. }
  apply strlchr_Some in E as (a & b & -> & <- & Ha).
  assert (Hd : drop (S (length a)) (a ++ 64 :: b) = b).
  { rewrite drop_app_ge by lia. by replace (S (length a) - length a)%nat with 1%nat by lia. }
  assert (Hu : forall a' b', a ++ 64 :: b = a' ++ 64 :: b' -> 64 ∉ a' -> a' = a /\ b' = b).
  { intros a' b' Heq Ha'. by destruct (app_cons_uniq _ _ _ _ _ Heq Ha Ha') as [-> ->]. }
  rewrite Hd, length_app. cbn [length]. destruct (Nat.eqb_spec (length a) 0) as [Hl|Hl]; cbn [orb].
  { apply wp_ret. split; [done|]. intros _ [(a' & b' & Heq & Hne & _ & Hn & _) _]. apply Hu in Heq as [-> _]; [|done]. by apply nil_length_inv in Hl. }
  destruct (Nat.eqb_spec (length a) (length a + S (length b) - 1)) as [Hb|Hb]; cbn [orb].
  { apply wp_ret. split; [done|]. intros _ [(a' & b' & Heq & _ & Hne & Hn & _) _]. apply Hu in Heq as [_ ->]; [|done]. exfalso. apply Hne, nil_length_inv. lia. }
  destruct (ngx_strlchr b 64) as [n|] eqn:E.
  { apply wp_ret. split; [done|]. intros _ [(a' & b' & Heq & _ & _ & Hn & Hnb) _]. apply Hu in Heq as [_ ->]; [|done].
    apply strlchr_Some in E as (? & ? & -> & _). set_solver. }
  apply strlchr_None in E. destruct (ngx_autocert_account_json_safe (a ++ 64 :: b)) eqn:Ej; cbn [negb].
  - apply wp_bind, wp_cupd, wp_ret. split; [|done]. intros _. split; [done|]. split; [|done]. split; [|done]. exists a, b. split; [done|].
    split; [by intros ->|]. split; [intros ->; apply Hb; cbn; lia|done].
  - apply wp_ret. split; [done|]. intros _ [_ H]. congruence.
Qed.

Lemma wp_autocert ssl v s k :
  wp (ngx_http_autocert ssl v) (Cf s k)
    (fun rc s' => rc = CONF_OK -> enable s = None /\ exists b, it s' = SrvConf (Some b) (s_email s) (s_ca s) (wildcards s)) (fun _ => False).
Proof.
  apply wp_bind, wp_cget. destruct (enable s) as [b|] eqn:E; [by apply wp_ret|].
  destruct (_ =? 0); [apply wp_bind, wp_cupd; destruct ssl; apply wp_ret; [intros _; split; [done|by exists true]|done]|].
  destruct (_ =? 0); [apply wp_bind, wp_cupd, wp_ret; intros _; split; [done|by exists false]|by apply wp_ret].
Qed.

(** ** What a server is left with *)

(** One directive of a server (or of http{}) taken; those that set a string or a flag are
    nginx's own, and refuse to set it twice. *)
Inductive taken : srv_conf -> srv_conf -> Prop :=
  | by_autocert ssl v s k s' k' : ngx_http_autocert ssl v (Cf s k) = Ret CONF_OK (Cf s' k') -> taken s s'
  | by_contact v s k s' k' : c_string v -> ngx_http_autocert_contact v (Cf s k) = Ret CONF_OK (Cf s' k') -> taken s s'
  | by_wildcard args s k s' k' :
      Forall (fun a => c_string a /\ Z.of_nat (length a) < 2 ^ 64) args ->
      ngx_http_autocert_wildcard ok args (Cf s k) = Ret CONF_OK (Cf s' k') -> taken s s'
  | by_ca c s : plain_ca c -> taken s (SrvConf (enable s) (s_email s) c (wildcards s)).

Inductive written : srv_conf -> Prop :=
  | written_create : written ngx_http_autocert_create_srv_conf
  | written_take s s' : written s -> taken s s' -> written s'.

(** Well formed; [contact_text] when there is a contact. *)
Record well_formed (s : srv_conf) : Prop := {
  wf_wildcards : Forall wildcard_ok (default [] (wildcards s));
  wf_ca : plain_ca (s_ca s);
  wf_email : c_string (default [] (s_email s));
  wf_contact : len (s_email s) <> 0%nat -> contact_text (default [] (s_email s)) }.

Lemma taken_well_formed s s' : taken s s' -> well_formed s -> well_formed s'.
Proof.
  intros H [H1 H2 H3 H4]. destruct H as [ssl v s k s' k' Hr|v s k s' k' Hv Hr|args s k s' k' Ha Hr|c s Hc].
  - pose proof (wp_autocert ssl v s k) as W. unfold wp in W. rewrite Hr in W. destruct (W eq_refl) as (_ & b & Hs). cbn in Hs. subst s'. by constructor.
  - pose proof (wp_contact v s k) as W. unfold wp in W. rewrite Hr in W. destruct W as [W _]. destruct (W eq_refl) as (_ & Hc & Hs). cbn in Hs. subst s'. by constructor.
  - pose proof (wp_wildcard args s k) as W. unfold wp in W. rewrite Hr in W. destruct W as [W _]. destruct (W eq_refl) as (Ht & Hs). cbn in Hs. subst s'.
    constructor; [|done..]. cbn. apply Forall_app. split; [done|]. apply Forall_fmap, Forall_forall. intros a Hin.
    rewrite Forall_forall in Ha, Ht. destruct (Ha a Hin). by apply wildcard_ok_strlow; [apply Ht| |].
  - by constructor.
Qed.

Lemma written_well_formed s : written s -> well_formed s.
Proof.
  induction 1 as [|s s' _ IH Ht]; [|by eapply taken_well_formed]. constructor; cbn; [constructor|by repeat constructor|constructor|done].
Qed.

(** ** From http{} to server{} *)

Lemma wp_merge_wildcards l s k :
  is_Some (wildcards s) ->
  wp (merge_wildcards ok l) (Cf s k) (fun rc s' => (rc = CONF_OK -> it s' = add_wildcards l s) /\ ((forall n, ok n = true) -> rc = CONF_OK)) (fun _ => False).
Proof.
  revert s k. induction l as [|w l IH]; intros s k Hs; cbn [merge_wildcards].
  { apply wp_ret. split; [|done]. intros _. destruct s as [? ? ? [ws|]]; [|by destruct Hs]. unfold add_wildcards. cbn. by rewrite app_nil_r. }
  apply wp_bind, wp_cattempt_at. destruct (ok k) eqn:E1; cbn [negb]; [|apply wp_ret; split; [done|]; intros H; by rewrite H in E1].
  apply wp_bind, wp_cupd. eapply wp_mono; [apply IH; by eexists| |done]. intros rc s' [H1 H2]. split; [|done]. intros Hr. rewrite (H1 Hr).
  change (add_wildcards l (add_wildcards [w] s) = add_wildcards (w :: l) s). apply add_wildcards_app.
Qed.

Lemma wp_merge prev s k :
  wp (ngx_http_autocert_merge_srv_conf ok prev) (Cf s k)
    (fun rc s' => (rc = CONF_OK -> exists ws, it s' = SrvConf (Some (default (default false (enable prev)) (enable s)))
                  (Some (default (default [] (s_email prev)) (s_email s))) (merge_ca (s_ca prev) (s_ca s)) ws
        /\ default [] ws = default [] (wildcards s) ++ default [] (wildcards prev))
      /\ ((forall n, ok n = true) -> rc = CONF_OK)) (fun _ => False).
Proof.
  apply wp_bind, wp_cupd, wp_bind, wp_cget. cbn [wildcards]. destruct (wildcards s) as [w|] eqn:Ew; [destruct (wildcards prev) as [pw|]|].
  - eapply wp_mono; [apply wp_merge_wildcards; by eexists| |done]. intros rc s' [H1 H2]. split; [|done]. intros Hr. rewrite (H1 Hr). by eexists.
  - apply wp_ret. split; [|done]. intros _. exists (Some w). split; [done|]. cbn. by rewrite app_nil_r.
  - apply wp_bind, wp_cupd, wp_ret. split; [|done]. intros _. exists (wildcards prev). by split.
Qed.

(** C23. What a server is left with is well formed, whatever its directives and those of
    http{} were: it is on or off; its wildcards are wildcards, in lower case; its contact, if
    it has one, is an address that can stand in the JSON of a registration. So are the
    servers that [ngx_http_autocert_postconfig] is given. *)
Theorem servers_well_formed (prev s s' : srv_conf) (k k' : nat) (sns : list server_name) :
  written prev -> written s -> ngx_http_autocert_merge_srv_conf ok prev (Cf s k) = Ret CONF_OK (Cf s' k') ->
  Forall (fun sn => c_string (n_text sn)) sns ->
  well_formed s' /\ is_Some (enable s') /\ is_Some (staging (s_ca s')) /\ is_Some (s_email s') /\ plain_server (Server sns s').
Proof.
  intros [P1 P2 P3 P4]%written_well_formed [S1 S2 S3 S4]%written_well_formed Hr Hsns.
  pose proof (wp_merge prev s k) as W. unfold wp in W. rewrite Hr in W. destruct W as [W _]. destruct (W eq_refl) as (ws & Hs & Hws). cbn in Hs. subst s'.
  assert (Hwf : well_formed (SrvConf (Some (default (default false (enable prev)) (enable s)))
                  (Some (default (default [] (s_email prev)) (s_email s))) (merge_ca (s_ca prev) (s_ca s)) ws)).
  { constructor; cbn.
    - rewrite Hws. by apply Forall_app.
    - destruct P2, S2. unfold merge_ca, inherit. case_match; constructor; cbn; try done; by case_match.
    - by destruct (s_email s).
    - by destruct (s_email s). }
  split; [done|]. do 2 (split; [done || by unfold merge_ca; case_match; eexists|]). split; [done|]. destruct Hwf. by constructor.
Qed.

(** C24. What is bound to one CA never reaches another: of the trust bundle, the issuance
    anchor and the two halves of the account binding a server is left with, each is its own,
    or is that of http{} with the CA of http{} beside it. *)
Theorem credentials_stay (prev s s' : srv_conf) (k k' : nat) (f : ca_conf -> option bytes) :
  ngx_http_autocert_merge_srv_conf ok prev (Cf s k) = Ret CONF_OK (Cf s' k') ->
  f ∈ [ca_certificate; issuance_certificate; eab_kid; eab_hmac_key] ->
  (is_Some (f (s_ca s)) -> f (s_ca s') = f (s_ca s))
  /\ (is_Some (f (s_ca s')) -> f (s_ca s') = f (s_ca s)
      \/ f (s_ca s') = f (s_ca prev) /\ ca (s_ca s') = ca (s_ca prev)
         /\ staging (s_ca s') = Some (default false (staging (s_ca prev)))).
Proof.
  intros Hr Hf. pose proof (wp_merge prev s k) as W. unfold wp in W. rewrite Hr in W. destruct W as [W _]. destruct (W eq_refl) as (ws & Hs & _). cbn in Hs. subst s'.
  cbn [s_ca]. unfold merge_ca. destruct (bool_decide (ca (s_ca s) = None) && bool_decide (staging (s_ca s) = None)).
  - rewrite !elem_of_cons in Hf. destruct Hf as [->|[->|[->|[->|Hf]]]]; [..|by apply not_elem_of_nil in Hf];
      cbn; unfold inherit; (case_match; [split; [done|by left]|split; [by intros [? ?]|by right]]).
  - rewrite !elem_of_cons in Hf. destruct Hf as [->|[->|[->|[->|Hf]]]]; [..|by apply not_elem_of_nil in Hf]; split; [done|by left|done|by left|done|by left|done|by left].
Qed.

(** ** Key types *)

(** What the loop accepts, from what the array already has. *)
Definition pick (kts : list Z) : Prop :=
  NoDup kts /\ (length (filter (fun t => ngx_http_autocert_key_is_rsa t = true) kts) <= 1)%nat
  /\ (length (filter (fun t => ngx_http_autocert_key_is_rsa t = false) kts) <= 1)%nat.

Lemma filter_existsb (b : bool) kts :
  existsb (fun t => Bool.eqb (ngx_http_autocert_key_is_rsa t) b) kts = negb (length (filter (fun t => ngx_http_autocert_key_is_rsa t = b) kts) =? 0)%nat.
Proof.
  induction kts as [|t kts IH]; [done|]. cbn [existsb]. destruct (Bool.eqb_spec (ngx_http_autocert_key_is_rsa t) b) as [E|E].
  - by rewrite filter_cons_True.
  - by rewrite filter_cons_False.
Qed.

Lemma pick_snoc kts kv :
  pick (kts ++ [kv]) <->
  pick kts /\ existsb (fun t => t =? kv) kts = false
  /\ (ngx_http_autocert_key_is_rsa kv && existsb (fun t => Bool.eqb (ngx_http_autocert_key_is_rsa t) true) kts) = false
  /\ (negb (ngx_http_autocert_key_is_rsa kv) && existsb (fun t => Bool.eqb (ngx_http_autocert_key_is_rsa t) false) kts) = false.
Proof.
  assert (Hin : existsb (fun t => t =? kv) kts = false <-> kv ∉ kts).
  { rewrite <- not_true_iff_false, existsb_exists. setoid_rewrite Z.eqb_eq. rewrite list_elem_of_In. naive_solver. }
  unfold pick. rewrite Hin, !filter_existsb, !filter_app, !length_app, NoDup_app. set (a := length (filter (fun t => ngx_http_autocert_key_is_rsa t = true) kts)).
  set (b := length (filter (fun t => ngx_http_autocert_key_is_rsa t = false) kts)). clearbody a b.
  assert (Hnd : (forall x, x ∈ kts -> x ∉ [kv]) <-> kv ∉ kts) by (setoid_rewrite list_elem_of_singleton; naive_solver).
  rewrite Hnd. destruct (ngx_http_autocert_key_is_rsa kv) eqn:E.
  - rewrite (filter_cons_True _ kv), (filter_cons_False _ kv) by congruence. cbn. destruct (Nat.eqb_spec a 0); cbn; intuition (try lia; try done; try apply NoDup_singleton).
  - rewrite (filter_cons_False _ kv), (filter_cons_True _ kv) by congruence. cbn. destruct (Nat.eqb_spec b 0); cbn; intuition (try lia; try done; try apply NoDup_singleton).
Qed.

Lemma wp_key_type_loop args kts w k :
  pick kts -> (forall n, ok n = true) ->
  wp (key_type_loop ok args kts (existsb (fun t => Bool.eqb (ngx_http_autocert_key_is_rsa t) false) kts)
        (existsb (fun t => Bool.eqb (ngx_http_autocert_key_is_rsa t) true) kts)) (Cf w k)
    (fun rc s' => (exists more, mapM ngx_http_autocert_map_key_type args = Some more /\ pick (kts ++ more) /\ rc = CONF_OK
                     /\ it s' = set_key_types (Some (kts ++ more)) (head (kts ++ more)) w)
                  \/ rc <> CONF_OK /\ forall more, mapM ngx_http_autocert_map_key_type args = Some more -> ~ pick (kts ++ more)) (fun _ => False).
Proof.
  intros Hp Hok. revert kts k Hp. induction args as [|v args IH]; intros kts k Hp; cbn [key_type_loop].
  { apply wp_bind, wp_cupd, wp_ret. left. exists []. by rewrite app_nil_r. }
  cbn [mapM]. destruct (ngx_http_autocert_map_key_type v) as [kv|] eqn:Ev; cbn [mbind option_bind]; [|apply wp_ret; by right].
  assert (Hbad : ~ pick (kts ++ [kv]) -> forall more, (mapM ngx_http_autocert_map_key_type args ≫= λ k0, mret (kv :: k0)) = Some more -> ~ pick (kts ++ more)).
  { intros Hn more Hm. destruct (mapM _ args) as [m|]; [|done]. injection Hm as <-. intros (H1 & H2 & H3). apply Hn.
    change (kts ++ kv :: m) with (kts ++ [kv] ++ m) in *. rewrite app_assoc in *. rewrite filter_app, length_app in H2, H3. apply NoDup_app in H1 as [H1 _].
    split; [done|]. split; lia. }
  destruct (existsb (fun kt => kt =? kv) kts) eqn:E1; [apply wp_ret; right; split; [done|]; apply Hbad; rewrite pick_snoc; naive_solver congruence|].
  destruct (_ && _) eqn:E2; [apply wp_ret; right; split; [done|]; apply Hbad; rewrite pick_snoc; naive_solver congruence|].
  destruct (negb _ && _) eqn:E3; [apply wp_ret; right; split; [done|]; apply Hbad; rewrite pick_snoc; naive_solver congruence|].
  apply wp_bind, wp_cattempt_at. rewrite Hok. cbn [negb]. assert (Hp' : pick (kts ++ [kv])) by (by apply pick_snoc).
  specialize (IH (kts ++ [kv]) (S k) Hp'). rewrite !existsb_app in IH. cbn [existsb] in IH. rewrite !orb_false_r in IH.
  assert (Eb : forall b, Bool.eqb b true = b /\ Bool.eqb b false = negb b) by (by intros []).
  rewrite (proj1 (Eb _)), (proj2 (Eb _)) in IH. eapply wp_mono; [exact IH| |done]. cbn [it].
  intros rc s' [(more & Hm & Hpk & -> & Hs)|[Hne Hno]].
  - left. exists (kv :: more). rewrite Hm. rewrite <- app_assoc in Hpk, Hs. done.
  - right. split; [done|]. intros more Hm. destruct (mapM _ args) as [m|]; [|done]. injection Hm as <-. specialize (Hno m eq_refl). by rewrite <- app_assoc in Hno.
Qed.

(** The key types of http{}: one to four names are accepted exactly when each is the
    name of a key type, none is repeated and at most one is RSA and one ECDSA (so that a name
    has at most two certificates); they are kept in order, and the first is that of the
    account. *)
Theorem key_types_accepted (args : list bytes) (w : knobs) (k : nat) :
  (forall n, ok n = true) -> key_types w = None ->
  exists rc w' k', ngx_http_autocert_key_type ok args (Cf w k) = Ret rc (Cf w' k')
  /\ (rc = CONF_OK <-> (length args <= 4)%nat /\ exists kts, mapM ngx_http_autocert_map_key_type args = Some kts /\ pick kts)
  /\ (rc = CONF_OK -> exists kts, mapM ngx_http_autocert_map_key_type args = Some kts /\ (length kts <= 2)%nat /\ w' = set_key_types (Some kts) (head kts) w).
Proof.
  intros Hok Hw. pose proof (wp_key_type_loop args [] w (S k)) as W. unfold ngx_http_autocert_key_type.
  unfold bind at 1, get. cbn [it]. rewrite Hw. destruct (Nat.ltb_spec 4 (length args)) as [Hl|Hl].
  { do 3 eexists. split; [reflexivity|]. split; [split; [done|]; intros [H _]; lia|done]. }
  unfold bind at 1, attempt, bind at 1, Config.call, ret. cbn [calls it]. rewrite Hok. cbn [negb]. unfold wp in W. cbn [existsb app] in W.
  assert (H0 : pick []) by (split; [apply NoDup_nil_2|cbn; lia]). specialize (W H0 Hok). destruct (key_type_loop _ _ _ _ _ _) as [rc [w' k']| | |]; try done.
  exists rc, w', k'. split; [done|]. destruct W as [(more & Hm & Hp & -> & Hs)|[Hne Hno]].
  - split; [split; [intros _; split; [lia|by exists more]|done]|]. intros _. exists more. split; [done|]. split; [|done]. destruct Hp as (_ & H1 & H2).
    clear -H1 H2. assert (He : (length more = length (filter (fun t => ngx_http_autocert_key_is_rsa t = true) more) + length (filter (fun t => ngx_http_autocert_key_is_rsa t = false) more))%nat); [|lia].
    clear. induction more as [|t l IH]; [done|]. destruct (ngx_http_autocert_key_is_rsa t) eqn:E.
    + rewrite filter_cons_True, (filter_cons_False _ t) by congruence. cbn. lia.
    + rewrite filter_cons_False, (filter_cons_True _ t) by congruence. cbn. lia.
  - split; [|done]. split; [done|]. intros [_ (kts & Hm & Hp)]. by destruct (Hno kts Hm).
Qed.
End Directives.

(** ** An example *)

Definition all_ok : nat -> bool := fun _ => true.

(** [http { autocert on; autocert_contact admin@example.com; autocert_ca ...; eab }] *)
Definition ca_ex : ca_conf :=
  CaConf (Some (str "https://ca.example/dir")) None None None (Some (str "kid-1")) (Some (str "c2VjcmV0")).

Definition run_of {A} (r : outcome (cf A) conf_rc) (d : A) : A := match r with Ret CONF_OK s => it s | _ => d end.

Definition http_ex : srv_conf :=
  let s0 := ngx_http_autocert_create_srv_conf in
  let s1 := run_of (ngx_http_autocert true (str "on") (Cf s0 0)) s0 in
  let s2 := run_of (ngx_http_autocert_contact (str "admin@example.com") (Cf s1 0)) s1 in
  SrvConf (enable s2) (s_email s2) ca_ex (wildcards s2).

(** [server { autocert_staging on; autocert_wildcard *.Example.com; }] *)
Definition own_ex : srv_conf :=
  let s0 := ngx_http_autocert_create_srv_conf in
  let s1 := run_of (ngx_http_autocert_wildcard all_ok [str "*.Example.com"] (Cf s0 0)) s0 in
  SrvConf (enable s1) (s_email s1) (CaConf None (Some true) None None None None) (wildcards s1).

Definition server_ex : srv_conf := run_of (ngx_http_autocert_merge_srv_conf all_ok http_ex (Cf own_ex 0)) own_ex.
Definition plain_ex : srv_conf := run_of (ngx_http_autocert_merge_srv_conf all_ok http_ex (Cf ngx_http_autocert_create_srv_conf 0)) own_ex.

Lemma http_ex_written : written all_ok http_ex.
Proof.
  eapply written_take; [eapply written_take; [eapply written_take; [constructor|]|]|].
  - by apply (by_autocert _ true (str "on") _ 0%nat _ 0%nat).
  - apply (by_contact _ (str "admin@example.com") _ 0%nat _ 0%nat); [by repeat constructor|by vm_compute].
  - apply by_ca. by repeat constructor.
Qed.

Lemma own_ex_written : written all_ok own_ex.
Proof.
  eapply written_take; [eapply written_take; [constructor|]|].
  - apply (by_wildcard _ [str "*.Example.com"] _ 0%nat _ 3%nat); [by repeat constructor|by vm_compute].
  - apply by_ca. by repeat constructor.
Qed.

Lemma servers_well_formed_witness :
  ngx_http_autocert_merge_srv_conf all_ok http_ex (Cf own_ex 0) = Ret CONF_OK (Cf server_ex 0)
  /\ well_formed server_ex /\ is_Some (enable server_ex) /\ is_Some (staging (s_ca server_ex)) /\ is_Some (s_email server_ex)
  /\ plain_server (Server [Name (str "www.example.com") false] server_ex).
Proof.
  split; [by vm_compute|]. apply (servers_well_formed all_ok http_ex own_ex server_ex 0 0); [apply http_ex_written|apply own_ex_written|by vm_compute|by repeat constructor].
Defined.

Lemma credentials_stay_witness :
  eab_kid (s_ca http_ex) = Some (str "kid-1") /\ eab_kid (s_ca server_ex) = None
  /\ (is_Some (eab_kid (s_ca own_ex)) -> eab_kid (s_ca server_ex) = eab_kid (s_ca own_ex))
  /\ (is_Some (eab_kid (s_ca server_ex)) -> eab_kid (s_ca server_ex) = eab_kid (s_ca own_ex)
      \/ eab_kid (s_ca server_ex) = eab_kid (s_ca http_ex) /\ ca (s_ca server_ex) = ca (s_ca http_ex)
         /\ staging (s_ca server_ex) = Some (default false (staging (s_ca http_ex)))).
Proof.
  split; [by vm_compute|]. split; [by vm_compute|].
  apply (credentials_stay all_ok http_ex own_ex server_ex 0 0 eab_kid); [by vm_compute|]. do 2 right. left.
Defined.

Lemma key_types_accepted_witness :
  exists rc w' k', ngx_http_autocert_key_type all_ok [str "p256"; str "RSA"] (Cf ngx_http_autocert_create_main_conf 0) = Ret rc (Cf w' k')
  /\ (rc = CONF_OK <-> (length [str "p256"; str "RSA"] <= 4)%nat /\ exists kts, mapM ngx_http_autocert_map_key_type [str "p256"; str "RSA"] = Some kts /\ pick kts)
  /\ (rc = CONF_OK -> exists kts, mapM ngx_http_autocert_map_key_type [str "p256"; str "RSA"] = Some kts /\ (length kts <= 2)%nat
        /\ w' = set_key_types (Some kts) (head kts) ngx_http_autocert_create_main_conf).
Proof. apply (key_types_accepted all_ok [str "p256"; str "RSA"] ngx_http_autocert_create_main_conf 0); [done|reflexivity]. Defined.
