(* ===== verification/Order.v ===== *)
(** * ACME orders (src/src/ngx_autocert_order.c): definitions

    The order from the directory request to the stored certificate, as the
    handlers of its requests, timers, hook process and key-generation task.
    Checking the certificate is OpenSSL's verdict and storing it a call that may
    fail.  [ngx_autocert_order_complete] of the driver, the order's handler,
    frees the order. *)

From S2P Require Import Prelude NgxCore Rbtree Shm Store Json Http Ident Loadcap Challenge Alpn OrderState Account.

Local Open Scope Z_scope.
Local Open Scope prog_scope.

Definition NGX_AUTOCERT_ORDER_POLL_MAX : nat := 180%nat.
Definition NGX_AUTOCERT_ORDER_FIN_POLL_MAX : nat := 180%nat.
Definition RETRY_AFTER_MAX : Z := 24 * 60 * 60.

(** ** Pure parts *)

Definition is_token_char (c : Z) : bool :=
  ((65 <=? c) && (c <=? 90)) || ((97 <=? c) && (c <=? 122)) || ((48 <=? c) && (c <=? 57))
  || (c =? 45) || (c =? 95).

Definition ngx_autocert_order_token_safe (t : bytes) : bool :=
  if (length t =? 0)%nat || (NGX_AUTOCERT_TOKEN_MAX <? length t)%nat then false
  else forallb is_token_char t.

(** What [ngx_autocert_order_note_retry_after] sets [retry_after] to; [None]
    leaves it as it is.  [parse_time] is [ngx_parse_http_time]. *)
Definition retry_after_of (parse_time : bytes -> option Z) (now status : Z) (ra : option bytes) : option Z :=
  if negb (status =? 429) then None
  else
    match ra with
    | Some ra =>
        let secs := ngx_atoi ra in
        if negb (secs =? NGX_ERROR) then
          Some (now + (if RETRY_AFTER_MAX <? secs then RETRY_AFTER_MAX else secs))
        else
          match parse_time ra with
          | Some when =>
              if now <? when then
                Some (if RETRY_AFTER_MAX <? when - now then now + RETRY_AFTER_MAX else when)
              else Some (now + 60)
          | None => Some (now + 60)
          end
    | None => Some (now + 60)
    end.

Definition is_domain_char (c : Z) : bool :=
  ((97 <=? c) && (c <=? 122)) || ((48 <=? c) && (c <=? 57)) || (c =? 45) || (c =? 46).

Definition is_ip (E : env) (name : bytes) : bool :=
  negb ((ngx_autocert_str_is_ip (ngx_inet_addr E) (ngx_inet6_addr E) name).1 =? 0).

(** [true] is NGX_OK. *)
Definition ngx_autocert_order_domain_identifier_safe (E : env) (d : bytes) : bool :=
  if (length d =? 0)%nat || (253 <? length d)%nat then false
  else if is_ip E d then true
  else
    let rest := strip_wildcard d in
    match rest, last d with
    | c :: _, Some l => if (c =? 46) || (l =? 46) then false else forallb is_domain_char rest
    | _, _ => false
    end.

(** The newOrder payload. *)
Definition new_order_payload (profile type domain : bytes) : bytes :=
  str "{"
  ++ (if (length profile =? 0)%nat then []
      else qq ++ str "profile" ++ qq ++ str ":" ++ qq ++ profile ++ qq ++ str ",")
  ++ qq ++ str "identifiers" ++ qq ++ str ":[{" ++ qq ++ str "type" ++ qq ++ str ":" ++ qq ++ type ++ qq
  ++ str "," ++ qq ++ str "value" ++ qq ++ str ":" ++ qq ++ domain ++ qq ++ str "}]}".

Definition csr_payload (csr : bytes) : bytes :=
  str "{" ++ qq ++ str "csr" ++ qq ++ str ":" ++ qq ++ csr ++ qq ++ str "}".

Section Order.
Context {HC HA : Type} {SC : Store HC bytes} {SA : Store HA (bytes * bytes)} (cf : conf) (E : env).
Abbreviation W := (world HC HA).
Abbreviation create := (create E).
Abbreviation attempt := (attempt E).
Abbreviation pnalloc := (pnalloc E).
Abbreviation pnalloc_opt := (pnalloc_opt E).
Abbreviation pnallocs := (pnallocs E).
Abbreviation parse_json := (parse_json E).
Context (complete : acme_handler_pt -> reply -> Z -> prog W unit).
Abbreviation account_post := (ngx_autocert_account_post E complete).

(** ** Fields *)

Definition upd_urls (f : urls -> urls) : prog W unit := update_order (fun o => set_o_urls (f (o_urls o)) o).
Definition upd_chal (f : challenge_state -> challenge_state) : prog W unit :=
  update_order (fun o => set_o_chal (f (o_chal o)) o).
Definition upd_count (f : counters -> counters) : prog W unit :=
  update_order (fun o => set_o_count (f (o_count o)) o).
Definition upd_timers (f : timers -> timers) : prog W unit :=
  update_order (fun o => set_o_timers (f (o_timers o)) o).
Definition upd_hook (f : hook_state -> hook_state) : prog W unit :=
  update_order (fun o => set_o_hook (f (o_hook o)) o).
Definition upd_issue (f : issue_state -> issue_state) : prog W unit :=
  update_order (fun o => set_o_issue (f (o_issue o)) o).
Definition upd_kg (f : keygen -> keygen) : prog W unit := update (fun w => set_kg (f (kg w)) w).
Definition upd_log (f : log -> log) : prog W unit := update (fun w => set_wlog (f (wlog w)) w).

Definition on_challenges {A} (m : prog (zone HC) A) : prog W A := zoom challenges set_challenges m.
Definition on_alpns {A} (m : prog (zone HA) A) : prog W A := zoom alpns set_alpns m.

(** Clearing an event structure that is in the timer tree is a fault. *)
Definition clear_timer (set : timers -> bool) : prog W unit :=
  let! o := order_ in if set (o_timers o) then fault else ret tt.

(** [ngx_autocert_order_dup] into a field. *)
Definition ngx_autocert_order_dup (f : order -> order) : prog W bool :=
  let! o := order_ in
  let! room := pnalloc_opt (order_pool (o_issue o)) in
  if room then update_order f;; ret true else ret false.
Definition dup_url (f : urls -> urls) : prog W bool :=
  ngx_autocert_order_dup (fun o => set_o_urls (f (o_urls o)) o).

Definition ngx_autocert_order_note_retry_after (q : reply) : prog W unit :=
  if negb (q_status q =? 429) then touch (q_pool q)
  else
    let! ra := header q "Retry-After" in
    let! now := read (fun w => clock (rt w)) in
    match retry_after_of (ngx_parse_http_time E) now (q_status q) ra with
    | Some t => update_order (set_retry_after t)
    | None => ret tt
    end.

(** ** The end of an order *)

Definition ngx_autocert_order_unpublish : prog W unit :=
  let! o := order_ in
  (if challenge_set (o_chal o) && negb (length (token (o_chal o)) =? 0)%nat
   then on_challenges (store_remove (token (o_chal o)));; upd_chal (set_challenge_set false)
   else ret tt);;
  (if alpn_set (o_chal o) && has_alpn_zone cf && negb (length (domain cf) =? 0)%nat
   then on_alpns (store_remove (domain cf));; upd_chal (set_alpn_set false)
   else ret tt);;
  upd_chal (set_dns_set false).

Definition ngx_autocert_keygen_abandon : prog W unit :=
  upd_kg (fun k => if kg_busy k && kg_mine k then set_kg_mine false k else k).

(** A hook still running is killed and left to the table of orphans. *)
Definition ngx_autocert_order_free : prog W unit :=
  upd_hook (set_hook_running false);;
  upd_timers (fun t => set_dns_hook_timer false (set_dns_hook_deadline_timer false t));;
  ngx_autocert_order_unpublish;;
  upd_timers (fun t => set_poll_timer false (set_order_timer false (set_dns_delay_timer false t)));;
  ngx_autocert_keygen_abandon;;
  let! o := order_ in
  destroy_opt (cert_key (o_issue o));; upd_issue (set_cert_key None);;
  destroy_opt (order_pool (o_issue o));; upd_issue (set_order_pool None).

(** [order->handler]: the driver's [ngx_autocert_order_complete] frees the order
    and the pool it lives in. *)
Definition order_handler (rc : Z) : prog W unit :=
  upd_log (fun l => set_results (results l ++ [rc]) l);;
  ngx_autocert_order_free;;
  update (set_alive false).

(** ** DNS hooks *)

Definition is_base64url (c : Z) : bool := is_token_char c.

Definition ngx_autocert_dns_hook_spawn (argv : list bytes) : prog W Z :=
  let! masked := attempt in
  if negb masked then ret NGX_ERROR
  else
    let! old := read (fun w => sigchld_blocked (rt w)) in
    upd_hook (set_hook_sigmask old);;
    update (fun w => set_rt (set_sigchld_blocked true (rt w)) w);;
    let! forked := attempt in
    if negb forked then
      update (fun w => set_rt (set_sigchld_blocked old (rt w)) w);; ret NGX_ERROR
    else
      upd_log (fun l => set_hooks_run (hooks_run l ++ [argv]) l);;
      upd_hook (set_hook_running true);;
      clear_timer dns_hook_timer;; clear_timer dns_hook_deadline_timer;;
      upd_timers (fun t => set_dns_hook_timer true (set_dns_hook_deadline_timer true t));;
      ret NGX_AGAIN.

Definition ngx_autocert_order_dns_hook (hook : bytes) (is_add : bool) : prog W Z :=
  let base := strip_wildcard (domain cf) in
  if negb (ngx_autocert_order_domain_identifier_safe E base) then ret NGX_ERROR
  else
    let! o := order_ in
    let txt := dns_txt_value (o_chal o) in
    if is_add && negb ((length txt =? 43)%nat && forallb is_base64url txt) then ret NGX_ERROR
    else
      let! room := pnallocs 3 (order_pool (o_issue o)) in
      if negb room then ret NGX_ERROR
      else
        upd_hook (set_hook_timed_out false);;
        ngx_autocert_dns_hook_spawn [hook; str "_acme-challenge." ++ base; txt].

Definition ngx_autocert_order_finish (rc : Z) : prog W unit :=
  let! o := order_ in
  if done o then ret tt
  else
    update_order (set_done true);;
    upd_timers (fun t => set_poll_timer false (set_order_timer false (set_dns_delay_timer false t)));;
    let! waiting :=
      (if dns_set (o_chal o) && negb (length (dns_hook_remove cf) =? 0)%nat then
         upd_hook (fun h => set_finish_rc rc (set_hook_cleanup true (set_hook_is_add false h)));;
         let! r := ngx_autocert_order_dns_hook (dns_hook_remove cf) false in
         if r =? NGX_AGAIN then ret true
         else
           upd_hook (set_hook_cleanup false);;
           upd_chal (set_dns_set false);;
           ret false
       else ret false) in
    if waiting then ret tt
    else
      ngx_autocert_order_unpublish;;
      order_handler rc.

Definition finish_unless_ok (m : prog W Z) : prog W unit :=
  let! rc := m in if negb (rc =? NGX_OK) then ngx_autocert_order_finish NGX_ERROR else ret tt.
Definition finish_on_error (m : prog W Z) : prog W unit :=
  let! rc := m in if rc =? NGX_ERROR then ngx_autocert_order_finish NGX_ERROR else ret tt.

(** ** Key, CSR and finalize *)

Definition ngx_autocert_order_finalize_csr : prog W Z :=
  let! o := order_ in
  match cert_key (o_issue o) with
  | None => fault
  | Some key =>
      touch key;;
      let! pem := pnalloc_opt (order_pool (o_issue o)) in
      if negb pem then ret NGX_ERROR
      else
        upd_issue (set_cert_key_pem (key_to_pem E key));;
        let! room := pnallocs 3 (order_pool (o_issue o)) in
        if negb room then ret NGX_ERROR
        else
          account_post (finalize_url (o_urls o))
            (csr_payload (base64url_encode E (csr_der E key (domain cf)))) order_finalize_done
  end.

Definition ngx_autocert_keygen_inline : prog W Z :=
  let! key := create in
  upd_issue (set_cert_key key);;
  match key with
  | None => ret NGX_ERROR
  | Some _ => ngx_autocert_order_finalize_csr
  end.

(** [ngx_autocert_keygen.order != NULL] while busy cannot be another order: one
    order runs at a time. *)
Definition ngx_autocert_keygen_post : prog W Z :=
  let! k := read kg in
  if kg_busy k then
    if kg_mine k then ret NGX_ERROR else ngx_autocert_keygen_inline
  else
    let! tp := attempt in
    if negb tp then ngx_autocert_keygen_inline
    else
      let! task := (if kg_task k then ret true else attempt) in
      if negb task then upd_kg (set_kg_mine false);; ngx_autocert_keygen_inline
      else
        upd_kg (fun k => set_kg_task true (set_kg_mine true k));;
        let! posted := attempt in
        if negb posted then
          let! inactive := attempt in
          upd_kg (fun k => set_kg_mine false (if inactive then k else set_kg_task false k));;
          ngx_autocert_keygen_inline
        else upd_kg (set_kg_busy true);; ret NGX_AGAIN.

Definition ngx_autocert_order_finalize : prog W Z :=
  let! o := order_ in
  if (length (finalize_url (o_urls o)) =? 0)%nat then ret NGX_ERROR
  else
    destroy_opt (cert_key (o_issue o));;
    upd_issue (set_cert_key None);;
    if key_is_rsa cf then ngx_autocert_keygen_post
    else ngx_autocert_keygen_inline.

(** The completion event of the task; [failed] is the thread's result. *)
Definition ngx_autocert_keygen_completion : prog W unit :=
  let! k := read kg in
  upd_kg (fun k => set_kg_mine false (set_kg_busy false k));;
  let! key := create in
  if negb (kg_mine k) then destroy_opt key
  else
    match key with
    | None => ngx_autocert_order_finish NGX_ERROR
    | Some key =>
        upd_issue (set_cert_key (Some key));;
        finish_unless_ok ngx_autocert_order_finalize_csr
    end.

(** ** Timers *)

(** [ngx_memzero] and [ngx_add_timer] of the poll timers. *)
Definition start_poll_timer : prog W unit := clear_timer poll_timer;; upd_timers (set_poll_timer true).
Definition start_order_timer : prog W unit := clear_timer order_timer;; upd_timers (set_order_timer true).

Definition ngx_autocert_order_dns_delay_start : prog W unit :=
  clear_timer dns_delay_timer;; upd_timers (set_dns_delay_timer true).

Definition ngx_autocert_order_respond : prog W Z :=
  let! o := order_ in
  account_post (challenge_url (o_urls o)) (str "{}") order_respond_done.

Definition ngx_autocert_order_dns_delay_timer : prog W unit := finish_unless_ok ngx_autocert_order_respond.

Definition ngx_autocert_order_poll_timer : prog W unit :=
  upd_count (fun c => set_poll_tries (S (poll_tries c)) c);;
  let! o := order_ in
  if (NGX_AUTOCERT_ORDER_POLL_MAX <? poll_tries (o_count o))%nat then ngx_autocert_order_finish NGX_ERROR
  else finish_unless_ok (account_post (authz_url (o_urls o)) [] order_poll_done).

Definition ngx_autocert_order_poll_order_timer : prog W unit :=
  upd_count (fun c => set_order_poll_tries (S (order_poll_tries c)) c);;
  let! o := order_ in
  if (NGX_AUTOCERT_ORDER_FIN_POLL_MAX <? order_poll_tries (o_count o))%nat
  then ngx_autocert_order_finish NGX_ERROR
  else finish_unless_ok (account_post (order_url (o_urls o)) [] order_poll_order_done).

(** ** The hook process *)

Definition ngx_autocert_order_dns_hook_done (rc : Z) : prog W unit :=
  upd_timers (set_dns_hook_deadline_timer false);;
  upd_hook (set_hook_running false);;
  let! o := order_ in
  if negb (hook_is_add (o_hook o)) then
    upd_chal (set_dns_set false);;
    if hook_after_authz (o_hook o) then
      upd_hook (set_hook_after_authz false);;
      finish_on_error ngx_autocert_order_finalize
    else if hook_cleanup (o_hook o) then
      upd_hook (set_hook_cleanup false);;
      order_handler (finish_rc (o_hook o))
    else ret tt
  else if negb (rc =? NGX_OK) then ngx_autocert_order_finish NGX_ERROR
  else ngx_autocert_order_dns_delay_start.

(** What [waitpid] finds: the child still running, its exit status (zero or
    not), or an error. *)
Inductive child := Running | Exited (zero : bool) | WaitError.

Definition ngx_autocert_order_dns_hook_timer (c : child) : prog W unit :=
  match c with
  | Running => upd_timers (set_dns_hook_timer true)
  | _ =>
      let! o := order_ in
      update (fun w => set_rt (set_sigchld_blocked (hook_sigmask (o_hook o)) (rt w)) w);;
      ngx_autocert_order_dns_hook_done (match c with Exited true => NGX_OK | _ => NGX_ERROR end)
  end.

Definition ngx_autocert_order_dns_hook_deadline : prog W unit :=
  let! o := order_ in
  if hook_running (o_hook o) then
    upd_hook (set_hook_timed_out true);;
    upd_timers (set_dns_hook_timer true)
  else ret tt.

(** ** Publishing the challenge *)

Definition ngx_autocert_order_publish_alpn : prog W Z :=
  if negb (has_alpn_zone cf) then ret NGX_ERROR
  else
    let! tmp := create in
    match tmp with
    | None => ret NGX_ERROR
    | Some tmp =>
        let! key := create in
        let! rc :=
          match key with
          | None => ret NGX_ERROR
          | Some key =>
              let! cert := create in
              let! rc :=
                match cert with
                | None => ret NGX_ERROR
                | Some cert =>
                    let! cert_pem := pnalloc tmp in
                    let! key_pem := (if cert_pem then pnalloc tmp else ret false) in
                    let! set :=
                      (if key_pem
                       then on_alpns (store_set (domain cf) (cert_to_pem E cert, key_to_pem E key))
                       else ret NGX_ERROR) in
                    let! rc :=
                      (if negb (set =? NGX_OK) then ret NGX_ERROR
                       else upd_chal (set_alpn_set true);; ret NGX_OK) in
                    destroy cert;; ret rc
                end in
              destroy key;; ret rc
          end in
        destroy tmp;; ret rc
    end.

Definition ngx_autocert_order_publish_dns : prog W Z :=
  let! o := order_ in
  let! room := pnalloc_opt (order_pool (o_issue o)) in
  if negb room then ret NGX_ERROR
  else
    upd_chal (set_dns_txt_value (dns01_txt E (keyauth (o_chal o))));;
    upd_chal (set_dns_set true);;
    if negb (length (dns_hook_add cf) =? 0)%nat then
      upd_hook (set_hook_is_add true);;
      let! hook_rc := ngx_autocert_order_dns_hook (dns_hook_add cf) true in
      if hook_rc =? NGX_ERROR then ret NGX_ERROR
      else if hook_rc =? NGX_AGAIN then ret NGX_OK
      else ngx_autocert_order_dns_delay_start;; ret NGX_OK
    else ngx_autocert_order_dns_delay_start;; ret NGX_OK.

(** ** Replies *)

(** The reply is well received with this status, and its body parsed. *)
Definition body_of (q : reply) (rc want : Z) : prog W (option json) :=
  if (rc =? NGX_OK) && (q_status q =? want) then parse_json q else ret None.

Definition ngx_autocert_order_get_authz : prog W Z :=
  let! o := order_ in
  account_post (authz_url (o_urls o)) [] order_authz_done.

(** The order is used after the POST is accepted, for [on_new_order]. *)
Definition ngx_autocert_order_new_order : prog W Z :=
  let! o := order_ in
  let type := if is_ip E (domain cf) then str "ip" else str "dns" in
  let! room := pnalloc_opt (order_pool (o_issue o)) in
  if negb room then ret NGX_ERROR
  else
    let! rc := account_post (new_order_url (o_urls o))
                 (new_order_payload (profile cf) type (domain cf)) order_new_order_done in
    if rc =? NGX_OK then
      order_;;
      (if counts_new_order cf then upd_log (fun l => set_counted (S (counted l)) l) else ret tt);;
      ret rc
    else ret rc.

Definition ngx_autocert_order_directory_done (q : reply) (rc : Z) : prog W unit :=
  ngx_autocert_order_note_retry_after q;;
  let! root := body_of q rc 200 in
  let! good :=
    match object_str root "newOrder" with
    | Some no => dup_url (set_new_order_url no)
    | None => ret false
    end in
  destroy (q_pool q);;
  if negb good then ngx_autocert_order_finish NGX_ERROR
  else finish_unless_ok ngx_autocert_order_new_order.

Definition ngx_autocert_order_new_order_done (q : reply) (rc : Z) : prog W unit :=
  ngx_autocert_order_note_retry_after q;;
  let! good :=
    (if (rc =? NGX_OK) && (q_status q =? 201) then
       let! loc := header q "Location" in
       let! root := parse_json q in
       match loc, object_str root "finalize" with
       | Some loc, Some fin =>
           match ngx_autocert_json_array_item (ngx_autocert_json_object_get root (str "authorizations")) 0 with
           | Some (JString az) =>
               if (length az =? 0)%nat || (length fin =? 0)%nat then ret false
               else
                 let! d1 := dup_url (set_order_url loc) in
                 let! d2 := (if d1 then dup_url (set_finalize_url fin) else ret false) in
                 if d2 then dup_url (set_authz_url az) else ret false
           | _ => ret false
           end
       | _, _ => ret false
       end
     else ret false) in
  destroy (q_pool q);;
  if negb good then ngx_autocert_order_finish NGX_ERROR
  else finish_unless_ok ngx_autocert_order_get_authz.

(** The challenge type configured. *)
Definition wanted_type : string :=
  if challenge cf =? NGX_AUTOCERT_CHALLENGE_TLS_ALPN_01 then "tls-alpn-01"
  else if challenge cf =? NGX_AUTOCERT_CHALLENGE_DNS_01 then "dns-01"
  else "http-01".

(** The challenges offered, in order: the first usable one is taken. *)
Fixpoint challenge_loop (cs : list json) : prog W bool :=
  match cs with
  | [] => ret false
  | ch :: cs' =>
      if negb (str_is (object_str (Some ch) "type") wanted_type) then challenge_loop cs'
      else if match object_str (Some ch) "status" with
              | Some s => negb (str_is (Some s) "pending")
              | None => false
              end then challenge_loop cs'
      else
        let! taken :=
          match object_str (Some ch) "token", object_str (Some ch) "url" with
          | Some t, Some url =>
              if ngx_autocert_order_token_safe t then
                let! d := ngx_autocert_order_dup (fun o => set_o_chal (set_token t (o_chal o)) o) in
                if d then dup_url (set_challenge_url url) else ret false
              else ret false
          | _, _ => ret false
          end in
        if taken then ret true else challenge_loop cs'
  end.

Definition challenges_of (root : option json) : list json :=
  match ngx_autocert_json_object_get root (str "challenges") with
  | Some (JArray es) => es
  | _ => []
  end.

(** The key authorization is published as the configured challenge asks. *)
Definition publish_challenge : prog W unit :=
  let! o := order_ in
  if challenge cf =? NGX_AUTOCERT_CHALLENGE_TLS_ALPN_01 then
    let! rc := ngx_autocert_order_publish_alpn in
    if negb (rc =? NGX_OK) then ngx_autocert_order_finish NGX_ERROR
    else finish_unless_ok ngx_autocert_order_respond
  else if challenge cf =? NGX_AUTOCERT_CHALLENGE_DNS_01 then
    finish_unless_ok ngx_autocert_order_publish_dns
  else
    let! rc := on_challenges (store_set (token (o_chal o)) (keyauth (o_chal o))) in
    if negb (rc =? NGX_OK) then ngx_autocert_order_finish NGX_ERROR
    else
      upd_chal (set_challenge_set true);;
      finish_unless_ok ngx_autocert_order_respond.

Definition ngx_autocert_order_authz_done (q : reply) (rc : Z) : prog W unit :=
  ngx_autocert_order_note_retry_after q;;
  let! root := body_of q rc 200 in
  if str_is (object_str root "status") "valid" then
    destroy (q_pool q);;
    finish_on_error ngx_autocert_order_finalize
  else
    let! good := challenge_loop (challenges_of root) in
    if negb good then destroy (q_pool q);; ngx_autocert_order_finish NGX_ERROR
    else
      let! a := account_ in
      let! thumb := pnalloc (q_pool q) in
      match (if thumb then acct_key a else None) with
      | None => destroy (q_pool q);; ngx_autocert_order_finish NGX_ERROR
      | Some key =>
          touch key;;
          let! o := order_ in
          let! room := pnalloc_opt (order_pool (o_issue o)) in
          if negb room then destroy (q_pool q);; ngx_autocert_order_finish NGX_ERROR
          else
            upd_chal (set_keyauth (token (o_chal o) ++ str "." ++ jwk_thumbprint E key));;
            destroy (q_pool q);;
            publish_challenge
      end.

Definition ngx_autocert_order_respond_done (q : reply) (rc : Z) : prog W unit :=
  ngx_autocert_order_note_retry_after q;;
  if (negb (rc =? NGX_OK) || (negb (q_status q =? 200) && negb (q_status q =? 202)))
     && negb ((rc =? NGX_OK) && (q_status q =? 400))
  then destroy (q_pool q);; ngx_autocert_order_finish NGX_ERROR
  else destroy (q_pool q);; start_poll_timer.

Definition ngx_autocert_order_poll_done (q : reply) (rc : Z) : prog W unit :=
  ngx_autocert_order_note_retry_after q;;
  let! root := body_of q rc 200 in
  let status := object_str root "status" in
  destroy (q_pool q);;
  if str_is status "valid" then
    let! o := order_ in
    let! waiting :=
      (if dns_set (o_chal o) && negb (length (dns_hook_remove cf) =? 0)%nat then
         upd_hook (fun h => set_hook_after_authz true (set_hook_is_add false h));;
         let! hook_rc := ngx_autocert_order_dns_hook (dns_hook_remove cf) false in
         if hook_rc =? NGX_AGAIN then ret true
         else
           upd_hook (set_hook_after_authz false);;
           upd_chal (set_dns_set false);;
           ret false
       else ngx_autocert_order_unpublish;; ret false) in
    if waiting then ret tt else finish_on_error ngx_autocert_order_finalize
  else if negb (str_is status "pending" || str_is status "processing")
  then ngx_autocert_order_finish NGX_ERROR
  else upd_timers (set_poll_timer true).

Definition ngx_autocert_order_finalize_done (q : reply) (rc : Z) : prog W unit :=
  ngx_autocert_order_note_retry_after q;;
  let! o := order_ in
  let failed := negb (rc =? NGX_OK) || negb (q_status q =? 200) in
  let transient := (rc =? NGX_OK) && ((q_status q =? 400) || (q_status q =? 403))
                   && negb (finalize_retried (o_count o)) in
  destroy (q_pool q);;
  if failed && negb transient then ngx_autocert_order_finish NGX_ERROR
  else start_order_timer.

Definition ngx_autocert_order_download : prog W Z :=
  let! o := order_ in
  account_post (cert_url (o_urls o)) [] order_download_done.

Definition ngx_autocert_order_poll_order_done (q : reply) (rc : Z) : prog W unit :=
  ngx_autocert_order_note_retry_after q;;
  let transient := negb (rc =? NGX_OK) || negb (q_status q =? 200) in
  let! root := body_of q rc 200 in
  let status := object_str root "status" in
  let! valid :=
    (if str_is status "valid" then
       match object_str root "certificate" with
       | Some url => if (length url =? 0)%nat then ret false else dup_url (set_cert_url url)
       | None => ret false
       end
     else ret false) in
  let ready := str_is status "ready" in
  let pending := str_is status "pending" || str_is status "processing" in
  destroy (q_pool q);;
  if valid then finish_unless_ok ngx_autocert_order_download
  else if ready then
    let! o := order_ in
    if finalize_retried (o_count o) then ngx_autocert_order_finish NGX_ERROR
    else
      upd_count (set_finalize_retried true);;
      finish_on_error ngx_autocert_order_finalize
  else if negb pending && negb transient then ngx_autocert_order_finish NGX_ERROR
  else upd_timers (set_order_timer true).

(** [ngx_autocert_order_store]: the key and chain are on disk when it succeeds. *)
Definition ngx_autocert_order_store : prog W bool :=
  let! o := order_ in
  let! saved := attempt in
  if saved then
    upd_log (fun l => set_stored (stored l ++ [(cert_key_pem (o_issue o), cert_chain (o_issue o))]) l);;
    ret true
  else ret false.

Definition ngx_autocert_order_download_done (q : reply) (rc : Z) : prog W unit :=
  ngx_autocert_order_note_retry_after q;;
  if negb (rc =? NGX_OK) || negb (q_status q =? 200) || (length (q_body q) =? 0)%nat then
    let! o := order_ in
    if negb (download_retried (o_count o))
       && (negb (rc =? NGX_OK) || ((400 <=? q_status q) && negb (q_status q =? 404)))
    then
      upd_count (set_download_retried true);;
      destroy (q_pool q);;
      upd_count (set_order_poll_tries 0);;
      start_order_timer
    else destroy (q_pool q);; ngx_autocert_order_finish NGX_ERROR
  else
    let! d := ngx_autocert_order_dup (fun o => set_o_issue (set_cert_chain (q_body q) (o_issue o)) o) in
    destroy (q_pool q);;
    if negb d then ngx_autocert_order_finish NGX_ERROR
    else
      let! o := order_ in
      if negb (validate_cert E (cert_key_pem (o_issue o)) (cert_chain (o_issue o)))
      then ngx_autocert_order_finish NGX_ERROR
      else
        let! saved := ngx_autocert_order_store in
        if negb saved then ngx_autocert_order_finish NGX_ERROR
        else ngx_autocert_order_finish NGX_OK.

(** ** Dispatch *)

(** The handler given to [ngx_autocert_account_post]; a NULL request is ignored. *)
Definition order_done_handler (k : post_handler_pt) (q : option reply) (rc : Z) : prog W unit :=
  match q with
  | None => ret tt
  | Some q =>
      match k with
      | order_new_order_done => ngx_autocert_order_new_order_done q rc
      | order_authz_done => ngx_autocert_order_authz_done q rc
      | order_respond_done => ngx_autocert_order_respond_done q rc
      | order_poll_done => ngx_autocert_order_poll_done q rc
      | order_finalize_done => ngx_autocert_order_finalize_done q rc
      | order_poll_order_done => ngx_autocert_order_poll_order_done q rc
      | order_download_done => ngx_autocert_order_download_done q rc
      end
  end.

Definition acme_handler (h : acme_handler_pt) (q : reply) (rc : Z) : prog W unit :=
  match h with
  | order_directory_done => ngx_autocert_order_directory_done q rc
  | account_directory_done => ngx_autocert_account_directory_done E complete q rc
  | account_nonce_done => ngx_autocert_account_nonce_done cf E complete q rc
  | account_register_done => ngx_autocert_account_register_done E complete q rc
  | account_register_renonce_done => ngx_autocert_account_register_renonce_done cf E complete q rc
  | account_post_done => ngx_autocert_account_post_done E complete order_done_handler q rc
  | account_renonce_done => ngx_autocert_account_renonce_done E complete order_done_handler q rc
  end.

(** [ngx_autocert_order_get] is [ngx_autocert_account_start] with the order's handler. *)
Definition ngx_autocert_order_start : prog W Z :=
  update_order (fun o =>
    Order (Urls [] [] [] [] [] (cert_url (o_urls o)))
      (ChallengeState [] [] (dns_txt_value (o_chal o)) false false false)
      (Counters 0 0 false false) (o_timers o)
      (HookState false (hook_is_add (o_hook o)) false false false (hook_sigmask (o_hook o)) (finish_rc (o_hook o)))
      (o_issue o) false 0);;
  let! a := account_ in
  if (length (kid a) =? 0)%nat || (length (domain cf) =? 0)%nat then ret NGX_ERROR
  else if negb (ngx_autocert_order_domain_identifier_safe E (domain cf)) then ret NGX_ERROR
  else
    let! pool := create in
    upd_issue (set_order_pool pool);;
    match pool with
    | None => ret NGX_ERROR
    | Some pool =>
        let! rc := ngx_autocert_account_start E complete (str "GET") (directory_url cf) [] order_directory_done in
        if negb (rc =? NGX_OK) then
          destroy pool;; upd_issue (set_order_pool None);; ret NGX_ERROR
        else ret NGX_OK
    end.
End Order.

(** ** Events *)

Section Events.
Context {HC HA : Type} {SC : Store HC bytes} {SA : Store HA (bytes * bytes)} (cf : conf) (E : env).
Abbreviation W := (world HC HA).

(** Requests completed while being made nest: one unit of fuel for each. *)
Fixpoint complete (fuel : nat) (h : acme_handler_pt) (q : reply) (rc : Z) : prog W unit :=
  match fuel with
  | O => nofuel
  | S fuel => acme_handler cf E (complete fuel) h q rc
  end.

(** What the event loop delivers: the end of the request in flight, a timer, the
    hook timer with what [waitpid] finds, the end of the key-generation task. *)
Inductive event :=
  | EReply (rc status : Z) (headers : list (bytes * bytes)) (body : bytes)
  | EPollTimer
  | EOrderTimer
  | EDelayTimer
  | EHookTimer (c : child)
  | EDeadlineTimer
  | EKeygen.

(** Can the event happen? *)
Definition enabled (w : W) (e : event) : bool :=
  let t := o_timers (ord w) in
  match e with
  | EReply _ _ _ _ => negb (length (inflight (rt w)) =? 0)%nat
  | EPollTimer => poll_timer t
  | EOrderTimer => order_timer t
  | EDelayTimer => dns_delay_timer t
  | EHookTimer _ => dns_hook_timer t
  | EDeadlineTimer => dns_hook_deadline_timer t
  | EKeygen => kg_busy (kg w)
  end.

(** A timer that fires is no longer set. *)
Definition fired (f : timers -> timers) : prog W unit :=
  update (fun w => set_ord (set_o_timers (f (o_timers (ord w))) (ord w)) w).

Definition deliver (fuel : nat) (e : event) : prog W unit :=
  let complete := complete fuel in
  match e with
  | EReply rc status headers body =>
      let! l := read (fun w => inflight (rt w)) in
      match l with
      | [] => ret tt
      | h :: l =>
          update (fun w => set_rt (set_inflight l (rt w)) w);;
          complete (h_handler h) (Reply (h_pool h) status headers body) rc
      end
  | EPollTimer => fired (set_poll_timer false);; ngx_autocert_order_poll_timer cf E complete
  | EOrderTimer => fired (set_order_timer false);; ngx_autocert_order_poll_order_timer cf E complete
  | EDelayTimer => fired (set_dns_delay_timer false);; ngx_autocert_order_dns_delay_timer cf E complete
  | EHookTimer c => fired (set_dns_hook_timer false);; ngx_autocert_order_dns_hook_timer cf E complete c
  | EDeadlineTimer => fired (set_dns_hook_deadline_timer false);; ngx_autocert_order_dns_hook_deadline
  | EKeygen => ngx_autocert_keygen_completion cf E complete
  end.
End Events.
