(* ===== verification/OrderInv.v ===== *)
(** * ACME orders: the invariant

    At every moment of an order exactly one thing is awaited: a request, a timer,
    the hook process or the key-generation task.  The [stage] names it; [inv]
    ties it to the whole state, with the handles held, the entries published in
    the challenge stores, and what the order has to show for itself; [rank]
    bounds the events that remain. *)

From S2P Require Import Prelude NgxCore Rbtree Shm Store Json Http Ident Challenge OrderState Account Order.

Local Open Scope Z_scope.
Local Open Scope prog_scope.

(** ** Stages *)

Inductive stage :=
  | AtDirectory
  | AtPost (k : post_handler_pt) (retried renonce : bool)
  | AtPollTimer
  | AtOrderTimer
  | AtDelayTimer
  | AtHookAdd (deadline : bool)
  | AtHookAuthz (deadline : bool)
  | AtHookCleanup (deadline : bool) (rc : Z)
  | AtKeygen.

(** The POST: none, one for a handler (has it been retried?), or its fields are
    in the course of being set. *)
Inductive post_shape :=
  | PostNone
  | PostOpen (k : post_handler_pt) (retried : bool)
  | PostAny.

(** What is pending: the flag [done], the timers, the hook (is it adding,
    cleaning up, followed by finalize), the handlers of the requests in flight,
    the key-generation task, and the POST (its handler, has it been retried);
    [s_early] when nothing has been published yet; [s_result] the result to be
    reported, once it is known. *)
Record shape := Shape {
  s_done : bool;
  s_timers : timers;
  s_hook : option (bool * bool * bool);
  s_flight : list acme_handler_pt;
  s_keygen : bool;
  s_post : post_shape;
  s_early : bool;
  s_result : option Z }.

Definition no_timers : timers := Timers false false false false false.

(** Nothing pending: the state in which a handler is called. *)
Definition quiet (early : bool) (r : option Z) : shape :=
  Shape false no_timers None [] false PostNone early r.

(** Nothing pending, but the POST whose reply is being handled. *)
Definition posting (early : bool) (k : post_handler_pt) (retried : bool) : shape :=
  Shape false no_timers None [] false (PostOpen k retried) early None.
Definition post_setup (early : bool) : shape := Shape false no_timers None [] false PostAny early None.

Definition early_handler (k : post_handler_pt) : bool :=
  match k with order_new_order_done | order_authz_done => true | _ => false end.

Definition shape_of (s : stage) : shape :=
  match s with
  | AtDirectory => Shape false no_timers None [order_directory_done] false PostNone true None
  | AtPost k retried renonce =>
      Shape false no_timers None [if renonce then account_renonce_done else account_post_done] false
        (PostOpen k retried) (early_handler k) None
  | AtPollTimer => Shape false (Timers true false false false false) None [] false PostNone false None
  | AtOrderTimer => Shape false (Timers false true false false false) None [] false PostNone false None
  | AtDelayTimer => Shape false (Timers false false true false false) None [] false PostNone false None
  | AtHookAdd d => Shape false (Timers false false false true d) (Some (true, false, false)) [] false PostNone false None
  | AtHookAuthz d => Shape false (Timers false false false true d) (Some (false, false, true)) [] false PostNone false None
  | AtHookCleanup d rc =>
      Shape true (Timers false false false true d) (Some (false, true, false)) [] false PostNone false (Some rc)
  | AtKeygen => Shape false no_timers None [] true PostNone false None
  end.

(** ** Ranks *)

(** Polls of the order and retries left; the three spare units are for the
    removal of a DNS record. *)
Definition order_work (c : counters) : nat :=
  4 * (181 - order_poll_tries c) + (if download_retried c then 0 else 1000)
  + (if finalize_retried c then 0 else 10) + 3.
Definition authz_work (c : counters) : nat := 4 * (181 - poll_tries c).

(** A key-generation task left by an earlier order may still end. *)
Definition abandoned (k : keygen) : nat := if kg_busy k && negb (kg_mine k) then 1 else 0.

Definition post_base (k : post_handler_pt) (c : counters) : nat :=
  match k with
  | order_download_done => order_work c
  | order_poll_order_done | order_finalize_done => order_work c + 4
  | order_poll_done | order_respond_done => order_work c + authz_work c + 10
  | order_authz_done => order_work c + authz_work c + 16
  | order_new_order_done => order_work c + authz_work c + 19
  end.

Definition stage_rank (s : stage) (c : counters) : nat :=
  match s with
  | AtDirectory => order_work c + authz_work c + 23
  | AtPost k retried renonce => post_base k c + (if retried then 1 else 3) + (if renonce then 1 else 0)
  | AtPollTimer => order_work c + authz_work c + 10
  | AtOrderTimer => order_work c + 4
  | AtDelayTimer => order_work c + authz_work c + 14
  | AtHookAdd d => order_work c + authz_work c + 15 + (if d then 1 else 0)
  | AtHookAuthz d => order_work c + 9 + (if d then 1 else 0)
  | AtHookCleanup d _ => 1 + (if d then 1 else 0)
  | AtKeygen => order_work c + 8
  end.

(** ** The invariant *)

Definition opt {A} (o : option A) : list A := match o with Some a => [a] | None => [] end.

Section Inv.
Context {HC HA : Type} {SC : Store HC bytes} {SA : Store HA (bytes * bytes)} (cf : conf) (E : env).
Abbreviation W := (world HC HA).
Implicit Types (w : W) (l : list nat).

Definition rank (s : stage) w : nat := stage_rank s (o_count (ord w)) + abandoned (kg w).

(** The handles the order and the account keep. *)
Definition account_handles (a : account) : list nat :=
  opt (acct_key a) ++ opt (acct_pool a) ++ opt (nonce_pool a).
Definition owned w : list nat :=
  opt (order_pool (o_issue (ord w))) ++ opt (cert_key (o_issue (ord w)))
  ++ opt (post_pool (post (acct w))) ++ opt (post_fail_pool (post (acct w)))
  ++ (h_pool <$> inflight (rt w)) ++ account_handles (acct w).

(** What is at hand when the order starts: handles of others, the entries of the
    two stores, the signal mask. *)
Context (others : list nat) (mc0 : gmap bytes bytes) (ma0 : gmap bytes (bytes * bytes)) (mask0 : bool).

(** Exactly the handles [l], those kept and those of others are held. *)
Definition held l w : Prop :=
  handles (rt w) ≡ₚ l ++ owned w ++ others /\ NoDup (handles (rt w))
  /\ Forall (fun p => p < next_handle (rt w))%nat (handles (rt w)).

(** A store is as it was but for the entry of [k], which may be there only when
    [set], or if it was there before. *)
Definition kept {V} (set : bool) (k : bytes) (m m0 : gmap bytes V) : Prop :=
  (forall k', k' <> k -> m !! k' = m0 !! k')
  /\ (set = false -> forall v, m !! k = Some v -> m0 !! k = Some v).

Definition published w : Prop :=
  let c := o_chal (ord w) in
  (exists mc, store_inv (challenges w) mc /\ kept (challenge_set c) (token c) mc mc0)
  /\ (exists ma, store_inv (alpns w) ma /\ kept (alpn_set c) (domain cf) ma ma0)
  /\ (challenge_set c = true -> token c <> [])
  /\ (alpn_set c = true -> has_alpn_zone cf = true /\ domain cf <> []).

(** The result agrees with what has been stored. *)
Definition outcome_ok (r : option Z) (st : list (bytes * bytes)) : Prop :=
  match r with
  | Some rc =>
      rc = NGX_OK /\ (exists pem chain, st = [(pem, chain)] /\ validate_cert E pem chain = true)
      \/ rc = NGX_ERROR /\ st = []
  | None => st = []
  end.

Record inv (l : list nat) (s : shape) (w : W) : Prop := Inv {
  inv_alive : alive w = true;
  inv_held : held l w;
  inv_published : published w;
  inv_done : done (ord w) = s_done s;
  inv_timers : o_timers (ord w) = s_timers s;
  inv_hook :
    match s_hook s with
    | None => hook_running (o_hook (ord w)) = false /\ hook_cleanup (o_hook (ord w)) = false
              /\ hook_after_authz (o_hook (ord w)) = false /\ sigchld_blocked (rt w) = mask0
    | Some (a, c, z) =>
        hook_running (o_hook (ord w)) = true /\ hook_is_add (o_hook (ord w)) = a
        /\ hook_cleanup (o_hook (ord w)) = c /\ hook_after_authz (o_hook (ord w)) = z
        /\ hook_sigmask (o_hook (ord w)) = mask0
        /\ (c = true -> s_result s = Some (finish_rc (o_hook (ord w))))
    end;
  inv_flight : h_handler <$> inflight (rt w) = s_flight s;
  inv_keygen : kg_mine (kg w) = s_keygen s /\ (s_keygen s = true -> kg_busy (kg w) = true);
  inv_no_key : s_keygen s = true -> cert_key (o_issue (ord w)) = None;
  inv_post :
    match s_post s with
    | PostNone => post_pool (post (acct w)) = None /\ post_fail_pool (post (acct w)) = None
    | PostAny => True
    | PostOpen k r =>
        is_Some (post_pool (post (acct w))) /\ is_Some (post_fail_pool (post (acct w)))
        /\ post_fail_req (post (acct w)) = post_fail_pool (post (acct w))
        /\ post_handler (post (acct w)) = Some k /\ post_retried (post (acct w)) = r
    end;
  inv_early : s_early s = true ->
    challenge_set (o_chal (ord w)) = false /\ alpn_set (o_chal (ord w)) = false
    /\ dns_set (o_chal (ord w)) = false
    /\ store_inv (challenges w) mc0 /\ store_inv (alpns w) ma0;
  inv_outcome : outcome_ok (s_result s) (stored (wlog w));
  inv_results : results (wlog w) = [];
  inv_pool : is_Some (order_pool (o_issue (ord w)));
  inv_key : is_Some (acct_key (acct w)) }.

(** The order has reported and is gone. *)
Record over (rc : Z) (w : W) : Prop := Over {
  over_alive : alive w = false;
  over_held : held [] w;
  over_owned : owned w = account_handles (acct w);
  over_published : exists mc ma,
    store_inv (challenges w) mc /\ kept false (token (o_chal (ord w))) mc mc0
    /\ store_inv (alpns w) ma /\ kept false (domain cf) ma ma0;
  over_timers : o_timers (ord w) = no_timers;
  over_hook : hook_running (o_hook (ord w)) = false /\ sigchld_blocked (rt w) = mask0;
  over_keygen : kg_mine (kg w) = false;
  over_outcome : outcome_ok (Some rc) (stored (wlog w));
  over_results : results (wlog w) = [rc] }.

(** At most [n] events remain. *)
Definition settled (n : nat) (w : W) : Prop :=
  (exists s, inv [] (shape_of s) w /\ (rank s w <= n)%nat)
  \/ (exists rc, over rc w /\ (abandoned (kg w) <= n)%nat).

Lemma settled_mono n n' w : settled n w -> (n <= n')%nat -> settled n' w.
Proof. intros [(s & ? & ?)|(rc & ? & ?)] ?; [left; exists s|right; exists rc]; split; auto; lia. Qed.

Lemma settled_at s n w : inv [] (shape_of s) w -> (rank s w <= n)%nat -> settled n w.
Proof. intros. left. by exists s. Qed.

(** ** Stores *)

Lemma kept_refl {V} (b : bool) (k : bytes) (m : gmap bytes V) : kept b k m m.
Proof. by split. Qed.

Lemma kept_delete {V} (b : bool) (k : bytes) (m m0 : gmap bytes V) : kept b k m m0 -> kept false k (delete k m) m0.
Proof.
  intros [H _]. split; [|intros _ v; by rewrite lookup_delete_eq].
  intros k' Hk. rewrite lookup_delete_ne by done. by apply H.
Qed.

Lemma kept_insert {V} (b : bool) (k : bytes) (v : V) m m0 : kept b k m m0 -> kept true k (<[k := v]> m) m0.
Proof. intros [H _]. split; [|done]. intros k' Hk. rewrite lookup_insert_ne by done. by apply H. Qed.

(** ** Handles *)

Lemma held_perm l l' w w' :
  handles (rt w') = handles (rt w) -> next_handle (rt w') = next_handle (rt w) ->
  l ++ owned w ≡ₚ l' ++ owned w' -> held l w -> held l' w'.
Proof.
  unfold held. intros -> -> Hp (Hh & ? & ?). split; [|done]. rewrite Hh.
  by rewrite !(app_assoc _ _ others), Hp.
Qed.

Lemma filter_others (p : nat) l : p ∉ l -> filter (fun q => q <> p) l = l.
Proof.
  induction l as [|q l IH]; [done|]. intros Hp. apply not_elem_of_cons in Hp as [Hq Hp].
  rewrite filter_cons_True by congruence. by rewrite IH.
Qed.

Lemma held_new l l' w w' :
  handles (rt w') = next_handle (rt w) :: handles (rt w) -> next_handle (rt w') = S (next_handle (rt w)) ->
  next_handle (rt w) :: l ++ owned w ≡ₚ l' ++ owned w' -> held l w -> held l' w'.
Proof.
  unfold held. intros -> -> Hp (Hh & Hn & Hf). split; [|split].
  - rewrite !(app_assoc _ _ others), <- Hp, Hh. by rewrite !(app_assoc _ _ others).
  - apply NoDup_cons. split; [|done]. rewrite Forall_forall in Hf. intros Hin. apply Hf in Hin. lia.
  - apply Forall_cons. split; [lia|]. eapply Forall_impl; [exact Hf|]. simpl. lia.
Qed.

Lemma held_drop l l' w w' p :
  handles (rt w') = filter (fun q => q <> p) (handles (rt w)) -> next_handle (rt w') = next_handle (rt w) ->
  l ++ owned w ≡ₚ p :: l' ++ owned w' -> held l w -> held l' w'.
Proof.
  unfold held. intros -> -> Hp (Hh & Hn & Hf). split; [|split].
  - assert (Hall : handles (rt w) ≡ₚ p :: l' ++ owned w' ++ others).
    { rewrite Hh, !(app_assoc _ _ others), Hp. by rewrite <- app_comm_cons. }
    rewrite Hall in Hn. apply NoDup_cons in Hn as [Hnp _].
    rewrite Hall, filter_cons_False by naive_solver.
    by rewrite filter_others.
  - by apply NoDup_filter.
  - apply Forall_forall. intros q Hq. apply list_elem_of_filter in Hq as [_ Hq].
    by eapply Forall_forall in Hf.
Qed.

Lemma held_in l w p : held l w -> p ∈ l ++ owned w -> p ∈ handles (rt w).
Proof. intros (Hh & _) Hp. rewrite Hh, app_assoc. apply elem_of_app. by left. Qed.

(** ** Rules of the primitives *)

Section Rules.
Context {Bl : Blame} {A : Type} (Q : A -> W -> Prop) (F : W -> Prop).

Lemma wp_read {B} (f : W -> B) k w : wp (k (f w)) w Q F -> wp (bind (read f) k) w Q F.
Proof. exact id. Qed.

Lemma wp_update f k w : wp (k tt) (f w) Q F -> wp (bind (update f) k) w Q F.
Proof. exact id. Qed.

Lemma wp_order_ k w : alive w = true -> wp (k (ord w)) w Q F -> wp (bind order_ k) w Q F.
Proof. intros Ha H. unfold wp, bind, order_ in *. by rewrite Ha. Qed.

Lemma wp_update_order f k w :
  alive w = true -> wp (k tt) (set_ord (f (ord w)) w) Q F -> wp (bind (update_order f) k) w Q F.
Proof. intros Ha H. unfold wp, bind, update_order in *. by rewrite Ha. Qed.

Lemma wp_account_ k w : wp (k (acct w)) w Q F -> wp (bind account_ k) w Q F.
Proof. exact id. Qed.

Lemma wp_update_account f k w :
  wp (k tt) (set_acct (f (acct w)) w) Q F -> wp (bind (update_account f) k) w Q F.
Proof. exact id. Qed.

Lemma wp_touch p k w : p ∈ handles (rt w) -> wp (k tt) w Q F -> wp (bind (touch p) k) w Q F.
Proof. intros Hp H. unfold wp, bind, touch in *. by rewrite decide_True. Qed.

Lemma wp_attempt k w :
  (forall b n, wp (k b) (set_rt (set_calls_made n (rt w)) w) Q F) -> wp (bind (attempt E) k) w Q F.
Proof. intros H. unfold wp, bind, attempt in *. apply H. Qed.

Lemma wp_destroy p k w :
  p ∈ handles (rt w) ->
  wp (k tt) (set_rt (set_handles (filter (fun q => q <> p) (handles (rt w))) (rt w)) w) Q F ->
  wp (bind (destroy p) k) w Q F.
Proof. intros Hp H. unfold wp, bind, destroy in *. by rewrite decide_True. Qed.

Lemma wp_create_raw k w :
  (forall n, wp (k None) (set_rt (set_calls_made n (rt w)) w) Q F) ->
  (forall n, wp (k (Some (next_handle (rt w))))
     (set_rt (set_handles (next_handle (rt w) :: handles (rt w))
        (set_next_handle (S (next_handle (rt w))) (set_calls_made n (rt w)))) w) Q F) ->
  wp (bind (create E) k) w Q F.
Proof. intros H1 H2. unfold wp, bind, create in *. destruct (ok E _); [apply H2|apply H1]. Qed.

(** The same on the invariant: these calls change nothing but the runtime. *)
Lemma inv_attempt l s k w :
  inv l s w -> (forall b r, inv l s (set_rt r w) -> wp (k b) (set_rt r w) Q F) ->
  wp (bind (attempt E) k) w Q F.
Proof. intros Hi H. apply wp_attempt. intros b n. apply H. destruct Hi; constructor; assumption. Qed.

Lemma inv_in l s w p : inv l s w -> p ∈ l ++ owned w -> p ∈ handles (rt w).
Proof. intros Hi. apply held_in, Hi. Qed.

Lemma inv_pnalloc l s p k w :
  inv l s w -> p ∈ l ++ owned w -> (forall b r, inv l s (set_rt r w) -> wp (k b) (set_rt r w) Q F) ->
  wp (bind (pnalloc E p) k) w Q F.
Proof.
  intros Hi Hp H. unfold pnalloc, wp. rewrite bind_assoc.
  eapply wp_touch; [by eapply inv_in|]. by eapply inv_attempt.
Qed.

Lemma inv_create l s k w :
  inv l s w -> (forall r, inv l s (set_rt r w) -> wp (k None) (set_rt r w) Q F) ->
  (forall p r, inv (p :: l) s (set_rt r w) -> wp (k (Some p)) (set_rt r w) Q F) ->
  wp (bind (create E) k) w Q F.
Proof.
  intros Hi H1 H2. apply wp_create_raw; intros n.
  - apply H1. destruct Hi; constructor; assumption.
  - apply H2. destruct Hi; constructor; try assumption.
    by eapply held_new; [..|exact inv_held0].
Qed.

Lemma inv_destroy l s p k w :
  inv (p :: l) s w -> (forall r, inv l s (set_rt r w) -> wp (k tt) (set_rt r w) Q F) ->
  wp (bind (destroy p) k) w Q F.
Proof.
  intros Hi H. eapply wp_destroy; [eapply inv_in; [exact Hi|by left]|]. apply H.
  destruct Hi; constructor; try assumption. by eapply held_drop; [..|exact inv_held0].
Qed.
End Rules.

Lemma inv_more l l' s w : l ≡ₚ l' -> inv l s w -> inv l' s w.
Proof.
  intros Hp []; constructor; try assumption. eapply held_perm; [..|exact inv_held0]; [done..|]. by rewrite Hp.
Qed.
End Inv.
