(* ===== verification/OrderPost.v ===== *)
(** * ACME orders: the account-signed POST

    A POST accepted by the account ends in exactly one call of its handler, after
    at most one retry; one that is refused leaves nothing behind. *)

From S2P Require Import Prelude NgxCore Rbtree Shm Store Json Http Ident Challenge OrderState Account Order OrderInv.

Local Open Scope Z_scope.
Local Open Scope prog_scope.

(** The state in which the handler of a stage's request is called. *)
Definition landed (s : stage) : shape :=
  match s with
  | AtPost k retried _ => posting (early_handler k) k retried
  | _ => quiet true None
  end.

Section Post.
Context {HC HA : Type} {SC : Store HC bytes} {SA : Store HA (bytes * bytes)} (cf : conf) (E : env).
Context {Bl : Blame}.
Abbreviation W := (world HC HA).
Implicit Types (w : W) (l : list nat).
Context (others : list nat) (mc0 : gmap bytes bytes) (ma0 : gmap bytes (bytes * bytes)) (mask0 : bool).
Abbreviation inv := (inv cf E others mc0 ma0 mask0).
Abbreviation settled := (settled cf E others mc0 ma0 mask0).

(** The order itself is as it was. *)
Definition frame w w' : Prop := ord w' = ord w /\ kg w' = kg w.

Lemma frame_refl w : frame w w.
Proof. done. Qed.

Lemma frame_trans w1 w2 w3 : frame w1 w2 -> frame w2 w3 -> frame w1 w3.
Proof. intros [? ?] [? ?]. split; congruence. Qed.

Lemma frame_rank s w w' : frame w w' -> rank s w' = rank s w.
Proof. unfold rank. by intros [-> ->]. Qed.

Lemma frame_rt r w : frame w (set_rt r w).
Proof. done. Qed.

(** ** Reading a reply *)

Lemma wp_header l s q name w :
  inv l s w -> q_pool q ∈ l -> wp (header q name) w (fun _ w' => w' = w) (fun _ => False).
Proof.
  intros Hi Hq. apply wp_touch; [|done]. eapply inv_in; [exact Hi|]. apply elem_of_app. by left.
Qed.

Lemma wp_parse_json l s q w :
  inv l s w -> q_pool q ∈ l ->
  wp (parse_json E q) w (fun _ w' => inv l s w' /\ frame w w') (fun _ => False).
Proof.
  intros Hi Hq. apply wp_touch; [eapply inv_in; [exact Hi|]; apply elem_of_app; by left|].
  apply wp_read. eapply inv_attempt; [exact Hi|]. intros _ r Hr. apply wp_ret. by split.
Qed.

Lemma wp_set_nonce l s n w :
  inv l s w ->
  wp (ngx_autocert_account_set_nonce E n) w (fun _ w' => inv l s w' /\ frame w w') (fun _ => False).
Proof.
  intros Hi. apply wp_account_. apply wp_bind.
  apply (wp_weaken _ _ (fun p w' => inv l s w' /\ frame w w' /\ nonce_pool (acct w') = p)).
  { destruct (nonce_pool (acct w)) as [p|] eqn:Ep.
    - apply wp_touch; [eapply inv_in; [exact Hi|]|by apply wp_ret].
      apply elem_of_app. right. unfold owned, account_handles. rewrite Ep. set_solver.
    - eapply wp_create_raw; intros c; apply wp_update_account, wp_ret; (split; [|done]);
        destruct Hi; constructor; try assumption.
      + eapply held_perm; [..|exact inv_held]; [done..|].
        unfold owned, account_handles. cbn. by rewrite Ep.
      + eapply held_new; [..|exact inv_held]; [done..|]. unfold owned, account_handles. cbn.
        rewrite Ep. cbn. solve_Permutation. }
  intros [p|] w' (Hi' & Hf & Ep); [|by apply wp_ret].
  eapply inv_pnalloc; [exact Hi'| |].
  { apply elem_of_app. right. unfold owned, account_handles. rewrite Ep. set_solver. }
  intros b r Hr. destruct b; apply wp_update_account, wp_ret; (split; [|done]); destruct Hr; constructor; assumption.
Qed.

Lemma wp_refresh_nonce l s q w :
  inv l s w -> q_pool q ∈ l ->
  wp (refresh_nonce E q) w (fun _ w' => inv l s w' /\ frame w w') (fun _ => False).
Proof.
  intros Hi Hq. apply wp_bind. eapply wp_weaken; [by eapply wp_header|]. intros [n|] w' ->.
  - by apply wp_set_nonce.
  - by apply wp_ret.
Qed.

Lemma wp_nonce_reply l s q rc w :
  inv l s w -> q_pool q ∈ l ->
  wp (nonce_reply E q rc) w (fun _ w' => inv l s w' /\ frame w w') (fun _ => False).
Proof.
  intros Hi Hq. unfold nonce_reply. destruct (_ && _); [|by apply wp_ret].
  apply wp_bind. eapply wp_weaken; [by apply wp_refresh_nonce|]. intros r w' H. by apply wp_ret.
Qed.

Lemma wp_bad_nonce l s q w :
  inv l s w -> q_pool q ∈ l ->
  wp (ngx_autocert_account_is_bad_nonce E q) w (fun _ w' => inv l s w' /\ frame w w') (fun _ => False).
Proof.
  intros Hi Hq. apply wp_touch; [eapply inv_in; [exact Hi|]; apply elem_of_app; by left|].
  destruct (_ || _); [by apply wp_ret|]. apply wp_bind.
  eapply wp_weaken; [by apply wp_parse_json|]. intros root w' Hw.
  destruct (object_str root "type") as [ty|]; [|by apply wp_ret]. cbv zeta.
  destruct (Nat.ltb_spec (length ty) (length (str ":badNonce"))) as [|Hl]; [by apply wp_ret|].
  assert (H : exists r, ngx_strncmp (drop (length ty - length (str ":badNonce")) ty) (str ":badNonce")
                          (length (str ":badNonce")) = Some r).
  { edestruct strncmp_exact as (r & Hr & _); [| |by exists r]; [rewrite length_drop; lia|].
    by repeat (constructor; [done|]). }
  destruct H as [r ->].
  by apply wp_ret.
Qed.

(** ** Requests *)

(** Can a request made for the handler [k] complete while it is being made? *)
Definition may_inline (k : option post_handler_pt) : Prop :=
  exists n rc st hs b, net E n k = Inline rc st hs b.

Section Requests.
Context (n : nat) (complete : acme_handler_pt -> reply -> Z -> prog W unit).

(** What a handler called with the reply to a stage's request does. *)
Definition completes : Prop := forall s h q rc w,
  s_flight (shape_of s) = [h] -> inv [q_pool q] (landed s) w -> (rank s w <= n)%nat ->
  wp (complete h q rc) w (fun _ w' => settled (rank s w - 1) w') (fun _ => False).

Context (IH : completes).

Lemma post_in_hand l early k r w : inv l (posting early k r) w -> inv l (post_setup early) w.
Proof. intros Hi. destruct Hi. constructor; done. Qed.

Lemma wp_drop_post_pool l e w :
  inv l (post_setup e) w ->
  wp drop_post_pool w
    (fun _ w' => inv l (post_setup e) w' /\ frame w w'
                 /\ post (acct w') = set_post_pool None (post (acct w))) (fun _ => False).
Proof.
  intros Hi. apply wp_account_. destruct (post_pool (post (acct w))) as [p|] eqn:Ep; simpl destroy_opt.
  - eapply wp_destroy; [eapply inv_in; [exact Hi|]; apply elem_of_app; right; unfold owned; rewrite Ep; set_solver|].
    split; [|by split]. destruct Hi; constructor; try assumption. eapply held_drop; [..|exact inv_held]; [done..|].
    unfold owned. cbn. rewrite Ep. cbn. solve_Permutation.
  - split; [|by split]. destruct Hi; constructor; try assumption. eapply held_perm; [..|exact inv_held]; [done..|].
    unfold owned. cbn. by rewrite Ep.
Qed.

Lemma wp_drop_post_fail_pool l e w :
  inv l (post_setup e) w ->
  wp drop_post_fail_pool w
    (fun _ w' => inv l (post_setup e) w' /\ frame w w'
                 /\ post (acct w') = set_post_fail_pool None (post (acct w))) (fun _ => False).
Proof.
  intros Hi. apply wp_account_. destruct (post_fail_pool (post (acct w))) as [p|] eqn:Ep; simpl destroy_opt.
  - eapply wp_destroy; [eapply inv_in; [exact Hi|]; apply elem_of_app; right; unfold owned; rewrite Ep; set_solver|].
    split; [|by split]. destruct Hi; constructor; try assumption. eapply held_drop; [..|exact inv_held]; [done..|].
    unfold owned. cbn. rewrite Ep. cbn. solve_Permutation.
  - split; [|by split]. destruct Hi; constructor; try assumption. eapply held_perm; [..|exact inv_held]; [done..|].
    unfold owned. cbn. by rewrite Ep.
Qed.

(** Both pools gone, nothing is left of the POST. *)
Lemma post_closed l e w :
  inv l (post_setup e) w -> post_pool (post (acct w)) = None -> post_fail_pool (post (acct w)) = None ->
  inv l (quiet e None) w.
Proof. intros Hi H1 H2. destruct Hi. constructor; try done. Qed.

Lemma wp_acme_request s h k w :
  s_flight (shape_of s) = [h_handler h] -> inv [h_pool h] (landed s) w -> (rank s w <= n)%nat ->
  wp (ngx_autocert_acme_request E complete k h) w
    (fun rc w' =>
       rc = NGX_OK /\ (inv [] (shape_of s) w' /\ frame w w' \/ may_inline k /\ settled (rank s w - 1) w')
       \/ rc = NGX_ERROR /\ inv [h_pool h] (landed s) w' /\ frame w w') (fun _ => False).
Proof.
  intros Hs Hi Hn. apply wp_touch; [eapply inv_in; [exact Hi|by left]|].
  apply wp_read. apply wp_attempt. intros _ c.
  assert (Hi' : inv [h_pool h] (landed s) (set_rt (set_calls_made c (rt w)) w)) by (destruct Hi; constructor; assumption).
  set (w1 := set_rt _ w) in *. change (rank s w) with (rank s w1) in *.
  destruct (net E (calls_made (rt w)) k) as [| |rc st hs b] eqn:En.
  - apply wp_ret. right. by split.
  - apply wp_update, wp_ret. left. split; [done|]. left. split; [|done].
    destruct Hi'. destruct s; try discriminate Hs; cbn in Hs; injection Hs as Hs;
      (constructor; try assumption; [|cbn; rewrite <- Hs; by destruct (inflight _)]);
      (eapply held_perm; [..|exact inv_held]; [done..|]; unfold owned; cbn; solve_Permutation).
  - apply wp_bind. eapply wp_weaken; [by apply IH|]. intros u w2 Hw2. apply wp_ret. left.
    split; [done|]. right. split; [|exact Hw2]. by exists (calls_made (rt w)), rc, st, hs, b.
Qed.

(** What [ngx_autocert_acme_request] and those that call it leave behind: the
    request in flight (or already completed), or the state as it was. *)
Definition sent (s : stage) (l : list nat) (back : shape) (who : option post_handler_pt) w (rc : Z) w' : Prop :=
  rc = NGX_OK /\ (inv [] (shape_of s) w' /\ frame w w' \/ may_inline who /\ settled (rank s w - 1) w')
  \/ rc = NGX_ERROR /\ inv l back w' /\ frame w w'.

Lemma sent_frame s l back who w0 w rc w' :
  frame w0 w -> sent s l back who w rc w' -> sent s l back who w0 rc w'.
Proof.
  intros Hf [(-> & [[Hi Hw]|[Hk Hs]])|(-> & Hi & Hw)].
  - left. split; [done|]. left. split; [done|]. by eapply frame_trans.
  - left. split; [done|]. right. split; [done|]. by rewrite <- (frame_rank s _ _ Hf).
  - right. split; [done|]. split; [done|]. by eapply frame_trans.
Qed.

Lemma wp_send_post k r w :
  inv [] (posting (early_handler k) k r) w -> (rank (AtPost k r false) w <= n)%nat ->
  wp (ngx_autocert_account_send_post E complete) w
    (sent (AtPost k r false) [] (posting (early_handler k) k r) (Some k) w) (fun _ => False).
Proof.
  intros Hi Hn. apply wp_account_.
  destruct (inv_key _ _ _ _ _ _ _ _ _ Hi) as [key Ek]. rewrite Ek.
  assert (Hback : forall r0, inv [] (posting (early_handler k) k r) (set_rt r0 w) ->
    sent (AtPost k r false) [] (posting (early_handler k) k r) (Some k) w NGX_ERROR (set_rt r0 w)).
  { intros r0 Hr. right. by split. }
  destruct (jws_alg E key) as [alg|]; [|by apply wp_ret; right].
  destruct (negb _ || negb _); [by apply wp_ret; right|]. cbv zeta.
  destruct (inv_post _ _ _ _ _ _ _ _ _ Hi) as ([p Ep] & _ & _ & Eh & _). rewrite Ep. unfold pnalloc_opt.
  eapply inv_pnalloc; [exact Hi| |].
  { apply elem_of_app. right. unfold owned. rewrite Ep. set_solver. }
  intros [|] r1 H1; [|by apply wp_ret, Hback]. cbv [negb].
  eapply wp_touch; [eapply inv_in; [exact H1|]|].
  { apply elem_of_app. right. unfold owned, account_handles. cbn. rewrite Ek. set_solver. }
  eapply inv_attempt; [exact H1|]. intros [|] r2 H2; [|by apply wp_ret, Hback]. cbv [negb].
  eapply inv_create; [exact H2|intros r3 H3; by apply wp_ret, Hback|]. intros pool r3 H3.
  eapply inv_pnalloc; [exact H3|by left|]. intros [|] r4 H4; cbv [negb].
  2: { eapply inv_destroy; [exact H4|]. intros r5 H5. by apply wp_ret, Hback. }
  eapply inv_pnalloc; [exact H4|by left|]. intros b1 r5 H5.
  eapply inv_pnalloc; [exact H5|by left|]. intros b2 r6 H6.
  destruct (_ || _).
  { eapply inv_destroy; [exact H6|]. intros r7 H7. by apply wp_ret, Hback. }
  apply wp_bind. rewrite Eh. set (h := Http _ _ _ _ _).
  change (set_rt r6 _) with (set_rt r6 w) in *.
  eapply wp_weaken; [apply (wp_acme_request (AtPost k r false) h (Some k)); [done|exact H6|exact Hn]|].
  intros rc w' [(-> & H)|(-> & H7 & Hf)]; cbv [NGX_OK NGX_ERROR Z.eqb negb].
  - apply wp_ret. left. split; [done|]. exact H.
  - eapply inv_destroy; [exact H7|]. intros r7 H8. apply wp_ret. right. split; [done|]. split; [done|].
    exact Hf.
Qed.

(** [ngx_autocert_account_post] refused: nothing is left of the POST. *)
Lemma wp_account_post url payload k w :
  inv [] (quiet (early_handler k) None) w -> (rank (AtPost k false false) w <= n)%nat ->
  wp (ngx_autocert_account_post E complete url payload k) w
    (sent (AtPost k false false) [] (quiet (early_handler k) None) (Some k) w) (fun _ => False).
Proof.
  intros Hi Hn. apply wp_account_.
  destruct (_ || _); [by apply wp_ret; right|].
  destruct (inv_post _ _ _ _ _ _ _ _ _ Hi) as [Ep Ef].
  case_bool_decide as Hp; [rewrite Ep in Hp; by destruct Hp|].
  destruct (negb _); [by apply wp_ret; right|].
  apply wp_create_raw; intros c.
  { apply wp_ret. right. split; [done|]. split; [|done]. destruct Hi; constructor; assumption. }
  set (pool := next_handle (rt w)). apply wp_update_account.
  assert (H1 : inv [] (post_setup (early_handler k))
    (set_acct (set_post (set_post_pool (Some pool) (post (acct w))) (acct w))
      (set_rt (set_handles (pool :: handles (rt w)) (set_next_handle (S pool) (set_calls_made c (rt w)))) w))).
  { destruct Hi; constructor; try assumption; [|done]. eapply held_new; [..|exact inv_held]; [done..|].
    unfold owned. cbn. rewrite Ep. cbn. solve_Permutation. }
  cbn. set (w1 := set_acct _ _) in *. assert (Hf1 : frame w w1) by done.
  assert (Ep1 : post_pool (post (acct w1)) = Some pool) by done.
  assert (Ef1 : post_fail_pool (post (acct w1)) = None) by done.
  clearbody w1. clear Hi Ep Ef.
  (* leaving after the first pool *)
  assert (Hleave : forall w2, inv [] (post_setup (early_handler k)) w2 -> frame w w2 ->
    post_fail_pool (post (acct w2)) = None ->
    wp (drop_post_pool;; ret NGX_ERROR) w2
      (sent (AtPost k false false) [] (quiet (early_handler k) None) (Some k) w) (fun _ => False)).
  { intros w2 H2 Hf2 Ef2. apply wp_bind. eapply wp_weaken; [by eapply wp_drop_post_pool|].
    intros [] w3 (H3 & Hf3 & E3). apply wp_ret. right. split; [done|].
    split; [apply post_closed; [done|by rewrite E3..]|by eapply frame_trans]. }
  eapply inv_pnalloc; [exact H1|apply elem_of_app; right; unfold owned; rewrite Ep1; set_solver|].
  intros b1 r2 H2.
  eapply inv_pnalloc; [exact H2|apply elem_of_app; right; unfold owned; cbn; rewrite Ep1; set_solver|].
  intros b2 r3 H3. destruct (_ || _); [by apply Hleave|].
  apply wp_update_account.
  match goal with |- wp _ ?x _ _ => set (w4 := x) end.
  assert (H4 : inv [] (post_setup (early_handler k)) w4) by (destruct H3; constructor; done).
  assert (Hp4 : post (acct w4) = PostState (Some pool) url payload (Some k) false None (post_fail_req (post (acct w1)))).
  { rewrite <- Ep1, <- Ef1. done. }
  assert (Hf4 : frame w w4) by exact Hf1. clearbody w4. clear H1 H2 H3.
  apply wp_create_raw; intros c4.
  { apply Hleave; [destruct H4; constructor; assumption|done|cbn; by rewrite Hp4]. }
  set (fpool := next_handle (rt w4)). apply wp_update_account.
  match goal with |- wp _ ?x _ _ => set (w5 := x) end.
  assert (H5 : inv [] (post_setup (early_handler k)) w5).
  { destruct H4; constructor; try assumption. eapply held_new; [..|exact inv_held]; [done..|].
    unfold owned. cbn. rewrite Hp4. cbn. solve_Permutation. }
  assert (Hp5 : post (acct w5) = PostState (Some pool) url payload (Some k) false (Some fpool) (post_fail_req (post (acct w1)))).
  { trans (set_post_fail_pool (Some fpool) (post (acct w4))); [done|by rewrite Hp4]. }
  assert (Hf5 : frame w w5) by exact Hf4. clearbody w5 fpool. clear H4 Hp4 Hf4.
  eapply inv_pnalloc; [exact H5|apply elem_of_app; right; unfold owned; rewrite Hp5; set_solver|].
  intros [|] r6 H6; cbv [negb].
  2: { apply wp_update_account. apply wp_bind.
    eapply wp_weaken; [apply wp_drop_post_fail_pool; by destruct H6; constructor|].
    intros [] w7 (H7 & Hf7 & E7). apply Hleave; [done|by eapply frame_trans|by rewrite E7]. }
  apply wp_update_account.
  match goal with |- wp _ ?x _ _ => set (w7 := x) end.
  assert (H7 : inv [] (posting (early_handler k) k false) w7).
  { destruct H6; constructor; try assumption. cbn. rewrite Hp5. repeat split; by eexists. }
  assert (Hf7 : frame w w7) by exact Hf5. clearbody w7.
  apply wp_bind. eapply wp_weaken; [apply wp_send_post; [exact H7|by rewrite (frame_rank _ _ _ Hf7)]|].
  intros rc w8 [(-> & H)|(-> & H8 & Hf8)]; cbv [NGX_OK NGX_ERROR Z.eqb negb].
  { apply wp_ret. eapply sent_frame; [exact Hf7|]. left. split; [done|]. exact H. }
  apply wp_bind. eapply wp_weaken; [by eapply wp_drop_post_fail_pool, post_in_hand|].
  intros [] w9 (H9 & Hf9 & E9). apply wp_update_account.
  apply Hleave; [by destruct H9; constructor| |cbn; by rewrite E9].
  eapply frame_trans; [exact Hf7|]. by eapply frame_trans.
Qed.

(** ** The completion of a POST *)

(** Events left once a POST for [k] has been answered. *)
Definition after_post k w : nat := (post_base k (o_count (ord w)) + abandoned (kg w))%nat.

Lemma frame_after k w w' : frame w w' -> after_post k w' = after_post k w.
Proof. unfold after_post. by intros [-> ->]. Qed.

Context (call : post_handler_pt -> option reply -> Z -> prog W unit).

(** What the handler given to [ngx_autocert_account_post] does. *)
Definition answers : Prop := forall k q rc w,
  inv [q_pool q] (quiet (early_handler k) None) w -> (after_post k w <= n)%nat ->
  wp (call k (Some q) rc) w (fun _ w' => settled (after_post k w) w') (fun _ => False).

Context (HC_call : answers).

Lemma wp_post_fail k r w :
  inv [] (posting (early_handler k) k r) w -> (after_post k w <= n)%nat ->
  wp (ngx_autocert_account_post_fail call) w (fun _ w' => settled (after_post k w) w') (fun _ => False).
Proof.
  intros Hi Hn. apply wp_account_.
  destruct (inv_post _ _ _ _ _ _ _ _ _ Hi) as ([p Ep] & [f Ef] & Er & Eh & _).
  apply wp_bind. eapply wp_weaken; [by eapply wp_drop_post_pool, post_in_hand|].
  intros [] w1 (H1 & Hf1 & E1). apply wp_update_account.
  rewrite Eh, Er, Ef. match goal with |- wp _ ?x _ _ => set (w2 := x) end.
  rewrite <- (frame_after k w w2) by exact Hf1. apply HC_call; [|by rewrite (frame_after k w w2) by exact Hf1].
  simpl q_pool.
  destruct H1; constructor; try assumption.
  - eapply held_perm; [..|exact inv_held]; [done..|]. unfold owned. cbn. rewrite E1. cbn. rewrite Ef.
    solve_Permutation.
  - cbn. by rewrite E1.
Qed.

Lemma wp_post_done k r q rc w :
  inv [q_pool q] (posting (early_handler k) k r) w -> (rank (AtPost k r false) w <= S n)%nat ->
  wp (ngx_autocert_account_post_done E complete call q rc) w
    (fun _ w' => settled (rank (AtPost k r false) w - 1) w') (fun _ => False).
Proof.
  intros Hi Hn. apply wp_bind.
  apply (wp_weaken _ _ (fun _ w' => inv [q_pool q] (posting (early_handler k) k r) w' /\ frame w w')).
  { destruct (rc =? NGX_OK); [|by apply wp_ret]. apply wp_bind.
    eapply wp_weaken; [apply wp_refresh_nonce; [exact Hi|by left]|]. intros x w1 H. by apply wp_ret. }
  intros [] w1 [H1 Hf1]. apply wp_account_. apply wp_bind.
  apply (wp_weaken _ _ (fun b w' => inv [q_pool q] (posting (early_handler k) k r) w' /\ frame w w'
                                   /\ (b = true -> r = false))).
  { destruct (inv_post _ _ _ _ _ _ _ _ _ H1) as (_ & _ & _ & _ & ->).
    destruct (_ && _) eqn:Er; [|by apply wp_ret].
    eapply wp_weaken; [apply wp_bad_nonce; [exact H1|by left]|]. intros b w2 [H2 Hf2].
    split; [done|]. split; [by eapply frame_trans|]. intros _. by apply andb_true_iff in Er as [_ Er%negb_true_iff]. }
  intros b w2 (H2 & Hf2 & Hb). rewrite <- (frame_rank _ _ _ Hf2) in *. destruct b.
  - rewrite (Hb eq_refl) in *. clear Hb. apply wp_update_account.
    match goal with |- wp _ ?x _ _ => set (w3 := x) end.
    assert (H3 : inv [q_pool q] (posting (early_handler k) k true) w3).
    { destruct H2; constructor; try assumption. cbn. naive_solver. }
    change (rank (AtPost k false false) w2) with (rank (AtPost k false false) w3) in *. clearbody w3.
    assert (Hle : forall w', frame w3 w' ->
      (after_post k w' <= rank (AtPost k false false) w3 - 1 /\ rank (AtPost k true true) w' <= rank (AtPost k false false) w3 - 1)%nat).
    { intros w' [E1 E2]. unfold after_post, rank. rewrite E1, E2. cbn. lia. }
    assert (Hfail : forall w', inv [] (posting (early_handler k) k true) w' -> frame w3 w' ->
      wp (ngx_autocert_account_post_fail call) w'
        (fun _ w'' => settled (rank (AtPost k false false) w3 - 1) w'') (fun _ => False)).
    { intros w' Hw' Hf'. destruct (Hle _ Hf') as [Hle' _].
      eapply wp_weaken; [eapply wp_post_fail; [exact Hw'|lia]|]. intros [] w'' Hs. by eapply settled_mono. }
    eapply inv_destroy; [exact H3|]. intros r4 H4.
    eapply inv_create; [exact H4|intros r5 H5; by apply Hfail|]. intros pool r5 H5.
    eapply inv_pnalloc; [exact H5|by left|]. intros [|] r6 H6; cbv [negb].
    2: { eapply inv_destroy; [exact H6|]. intros r7 H7. by apply Hfail. }
    apply wp_account_. apply wp_bind.
    destruct (inv_post _ _ _ _ _ _ _ _ _ H6) as (_ & _ & _ & Eh & _). rewrite Eh.
    set (h := Http _ _ _ _ _). destruct (Hle _ (frame_rt r6 w3)) as [_ Hl].
    eapply wp_weaken; [apply (wp_acme_request (AtPost k true true) h (Some k)); [done|exact H6|]|].
    { change (set_rt r6 _) with (set_rt r6 w3). lia. }
    change (rank _ (set_rt r6 _)) with (rank (AtPost k true true) (set_rt r6 w3)).
    intros rc' w' [(-> & [[H Hf]|[_ H]])|(-> & H7 & Hf)]; cbv [NGX_OK NGX_ERROR Z.eqb negb].
    + apply wp_ret. eapply settled_at; [exact H|]. by apply Hle.
    + apply wp_ret. eapply settled_mono; [exact H|]. lia.
    + eapply inv_destroy; [exact H7|]. intros r7 H8. by apply Hfail.
  - apply wp_bind. eapply wp_weaken; [by eapply wp_drop_post_pool, post_in_hand|].
    intros [] w3 (H3 & Hf3 & E3). apply wp_account_. apply wp_bind.
    destruct (inv_post _ _ _ _ _ _ _ _ _ H2) as (_ & [f Ef] & _ & Eh & _).
    apply (wp_weaken _ _ (fun _ w' => inv [q_pool q] (quiet (early_handler k) None) w' /\ frame w2 w'
                                     /\ post_handler (post (acct w')) = Some k)).
    { rewrite E3. cbn. rewrite Ef, bool_decide_true by by eexists. apply wp_bind.
      eapply wp_weaken; [by eapply wp_drop_post_fail_pool|]. intros [] w4 (H4 & Hf4 & E4).
      change (inv [q_pool q] (quiet (early_handler k) None) (set_acct (set_post (set_post_fail_req None (post (acct w4))) (acct w4)) w4)
              /\ frame w2 (set_acct (set_post (set_post_fail_req None (post (acct w4))) (acct w4)) w4)
              /\ post_handler (post (acct w4)) = Some k).
      rewrite E4, E3. split; [|split; [by eapply frame_trans|done]].
      apply post_closed; [|done..]. destruct H4; constructor; try done.
      eapply held_perm; [..|exact inv_held]; [done..|]. unfold owned. rewrite E4, E3. done. }
    intros [] w4 (H4 & Hf4 & Eh4). apply wp_account_. rewrite Eh4.
    assert (Hle : (after_post k w4 <= rank (AtPost k r false) w2 - 1)%nat).
    { rewrite (frame_after k w2 w4 Hf4). unfold after_post, rank. cbn. destruct r; lia. }
    eapply wp_weaken; [apply HC_call; [exact H4|lia]|]. intros [] w5 H5. by eapply settled_mono.
Qed.

Lemma wp_renonce_done k r q rc w :
  inv [q_pool q] (posting (early_handler k) k r) w -> (rank (AtPost k r true) w <= S n)%nat ->
  wp (ngx_autocert_account_renonce_done E complete call q rc) w
    (fun _ w' => settled (rank (AtPost k r true) w - 1) w') (fun _ => False).
Proof.
  intros Hi Hn. apply wp_bind. eapply wp_weaken; [apply wp_nonce_reply; [exact Hi|by left]|].
  intros fresh w1 [H1 Hf1]. rewrite <- (frame_rank _ _ _ Hf1) in *.
  eapply inv_destroy; [exact H1|]. intros r2 H2. apply wp_bind.
  change (rank _ w1) with (rank (AtPost k r true) (set_rt r2 w1)) in *. set (w2 := set_rt r2 w1) in *. clearbody w2.
  assert (Hle : forall w', frame w2 w' ->
    (after_post k w' <= rank (AtPost k r true) w2 - 1 /\ rank (AtPost k r false) w' <= rank (AtPost k r true) w2 - 1)%nat).
  { intros w' [E1 E2]. unfold after_post, rank. rewrite E1, E2. cbn. destruct r; lia. }
  destruct (Hle _ (frame_refl w2)) as [Ha Hr].
  assert (Hfail : forall w', inv [] (posting (early_handler k) k r) w' -> frame w2 w' ->
    wp (ngx_autocert_account_post_fail call) w'
      (fun _ w'' => settled (rank (AtPost k r true) w2 - 1) w'') (fun _ => False)).
  { intros w' Hw' Hf'. destruct (Hle _ Hf') as [Hle' _].
    eapply wp_weaken; [eapply wp_post_fail; [exact Hw'|lia]|]. intros [] w'' Hs. by eapply settled_mono. }
  destruct fresh; [|apply wp_ret; by apply Hfail].
  eapply wp_weaken; [apply wp_send_post; [exact H2|lia]|].
  intros rc' w' [(-> & [[H Hf]|[_ H]])|(-> & H7 & Hf)]; cbv [NGX_OK NGX_ERROR Z.eqb negb].
  - apply wp_ret. eapply settled_at; [exact H|]. by apply Hle.
  - apply wp_ret. eapply settled_mono; [exact H|]. lia.
  - by apply Hfail.
Qed.
End Requests.
End Post.
