(* ===== verification/OrderEnd.v ===== *)
(** * ACME orders: how they end

    Withdrawing the challenge, the hook process, and the end of an order: however
    it ends, its handler is called once, after the DNS record has been removed,
    and the order leaves nothing behind. *)

From S2P Require Import Prelude NgxCore Rbtree Shm Store Json Http Ident Challenge OrderState Account Order OrderInv OrderPost.

Local Open Scope Z_scope.
Local Open Scope prog_scope.

Section End_.
Context {HC HA : Type} {SC : Store HC bytes} {SA : Store HA (bytes * bytes)} (cf : conf) (E : env).
Context {Bl : Blame}.
Abbreviation W := (world HC HA).
Implicit Types (w : W) (l : list nat).
Context (others : list nat) (mc0 : gmap bytes bytes) (ma0 : gmap bytes (bytes * bytes)) (mask0 : bool).
Abbreviation inv := (inv cf E others mc0 ma0 mask0).
Abbreviation over := (over cf E others mc0 ma0 mask0).
Abbreviation settled := (settled cf E others mc0 ma0 mask0).
Abbreviation published := (published cf mc0 ma0).

(** What ranks depend on is as it was. *)
Definition keeps w w' : Prop := o_count (ord w') = o_count (ord w) /\ abandoned (kg w') = abandoned (kg w).

Lemma frame_keeps w w' : frame w w' -> keeps w w'.
Proof. intros [E1 E2]. split; [by rewrite E1|by rewrite E2]. Qed.

Lemma ranks_trans w1 w2 w3 : keeps w1 w2 -> keeps w2 w3 -> keeps w1 w3.
Proof. intros [? ?] [? ?]. split; congruence. Qed.

Lemma keeps_rank s w w' : keeps w w' -> rank s w' = rank s w.
Proof. unfold rank. by intros [-> ->]. Qed.

(** ** Withdrawing the challenge *)

Lemma wp_on_challenges {A} (m : prog (zone HC) A) w (Q : A -> W -> Prop) :
  wp m (challenges w) (fun a z => Q a (set_challenges z w)) (fun _ => False) ->
  wp (on_challenges m) w Q (fun _ => False).
Proof. unfold wp, on_challenges, zoom. by destruct (m (challenges w)). Qed.

Lemma wp_on_alpns {A} (m : prog (zone HA) A) w (Q : A -> W -> Prop) :
  wp m (alpns w) (fun a z => Q a (set_alpns z w)) (fun _ => False) ->
  wp (on_alpns m) w Q (fun _ => False).
Proof. unfold wp, on_alpns, zoom. by destruct (m (alpns w)). Qed.

(** The order after [ngx_autocert_order_unpublish]: only the three flags and the
    two stores have changed. *)
Definition withdrawn w w' : Prop :=
  published w' /\ exists c zc za,
    w' = set_alpns za (set_challenges zc (set_ord (set_o_chal c (ord w)) w))
    /\ challenge_set c = false /\ alpn_set c = false /\ dns_set c = false.

Lemma wp_unpublish w :
  alive w = true -> published w ->
  wp (ngx_autocert_order_unpublish cf) w (fun _ w' => withdrawn w w') (fun _ => False).
Proof.
  intros Ha ((mc & Hmc & Hkc) & (ma & Hma & Hka) & Htok & Hal).
  apply wp_order_; [done|]. apply wp_bind.
  apply (wp_weaken _ _ (fun _ w' => exists zc,
    w' = set_challenges zc (set_ord (set_o_chal (set_challenge_set false (o_chal (ord w))) (ord w)) w)
    /\ exists mc, store_inv zc mc /\ kept false (token (o_chal (ord w))) mc mc0)).
  { destruct (challenge_set (o_chal (ord w))) eqn:Ec; simpl andb.
    - specialize (Htok eq_refl). destruct (token (o_chal (ord w))) as [|c t] eqn:Et; [done|].
      simpl negb. apply wp_bind, wp_on_challenges. eapply wp_weaken; [by apply wp_faultless, store_remove_spec|].
      intros rc zc [_ Hz]. unfold wp, upd_chal, update_order. cbn. rewrite Ha.
      exists zc. split; [done|]. eexists. split; [exact Hz|]. by eapply kept_delete.
    - apply wp_ret. exists (challenges w). split; [|by exists mc].
      destruct w as [? ? o ? ? ? ? ?], o as [? c ? ? ? ? ? ?], c. cbn in *. by rewrite <- Ec. }
  intros [] w1 (zc & E1 & mc1 & Hmc1 & Hkc1). apply wp_bind.
  apply (wp_weaken _ _ (fun _ w' => exists za,
    w' = set_alpns za (set_ord (set_o_chal (set_alpn_set false (o_chal (ord w1))) (ord w1)) w1)
    /\ exists ma, store_inv za ma /\ kept false (domain cf) ma ma0)).
  { subst w1. destruct (alpn_set (o_chal (ord w))) eqn:Ec; simpl andb.
    - destruct (Hal eq_refl) as [-> Hd]. destruct (domain cf) as [|c t] eqn:Et; [done|].
      simpl. apply wp_bind, wp_on_alpns. eapply wp_weaken; [by apply wp_faultless, store_remove_spec|].
      intros rc za [_ Hz]. unfold wp, upd_chal, update_order. cbn. rewrite Ha.
      exists za. split; [done|]. eexists. split; [exact Hz|]. by eapply kept_delete.
    - apply wp_ret. exists (alpns w). split; [|by exists ma].
      destruct w as [? ? o ? ? ? ? ?], o as [? c ? ? ? ? ? ?], c. cbn in *. by rewrite <- Ec. }
  intros [] w2 (za & E2 & ma2 & Hma2 & Hka2). subst w1 w2.
  unfold wp, upd_chal, update_order. cbn. rewrite Ha. split.
  - split; [by exists mc1|]. split; [by exists ma2|]. done.
  - by eexists _, zc, za.
Qed.

Lemma withdrawn_inv l s w w' : s_early s = false -> inv l s w -> withdrawn w w' -> inv l s w'.
Proof.
  intros Hs Hi (Hp & c & zc & za & -> & H1 & H2 & H3). destruct Hi; constructor; try done. by rewrite Hs.
Qed.

Lemma withdrawn_keeps w w' : withdrawn w w' -> keeps w w'.
Proof. by intros (_ & c & zc & za & -> & _). Qed.

(** ** Freeing the order *)

(** Nothing pending, with the result known: the state in which the order's
    handler is called. *)
Definition closing (rc : Z) : shape := Shape true no_timers None [] false PostNone false (Some rc).

Lemma wp_order_handler rc w :
  inv [] (closing rc) w ->
  wp (order_handler cf rc) w (fun _ w' => over rc w' /\ kg w' = kg w) (fun _ => False).
Proof.
  intros Hi. apply wp_update. match goal with |- wp _ ?x _ _ => set (w1 := x) end.
  apply wp_bind, wp_update_order; [apply Hi|]. apply wp_update_order; [apply Hi|].
  match goal with |- wp _ ?x _ _ => set (w2 := x) end. apply wp_bind.
  eapply wp_weaken; [apply wp_unpublish; [apply Hi|exact (inv_published _ _ _ _ _ _ _ _ _ Hi)]|].
  intros [] w3 (Hp & c & zc & za & -> & Hc1 & Hc2 & Hc3).
  apply wp_update_order; [apply Hi|]. apply wp_update.
  match goal with |- wp _ ?x _ _ => set (w4 := x) end.
  (* what the order held, key and pool *)
  pose proof (inv_held _ _ _ _ _ _ _ _ _ Hi) as Hh. pose proof (inv_keygen _ _ _ _ _ _ _ _ _ Hi) as [Hkg _].
  pose proof (inv_post _ _ _ _ _ _ _ _ _ Hi) as [Hp1 Hp2]. pose proof (inv_pool _ _ _ _ _ _ _ _ _ Hi) as [p Hpool].
  pose proof (inv_flight _ _ _ _ _ _ _ _ _ Hi) as Hfl. apply fmap_nil_inv in Hfl.
  assert (Hkg4 : kg w4 = kg w) by (cbn; rewrite Hkg; by rewrite andb_false_r).
  assert (Hh4 : held others [] w4) by exact Hh.
  apply wp_order_; [apply Hi|].
  assert (Hend : forall w5, ord w5 = set_o_issue (set_cert_key None (o_issue (ord w4))) (ord w4) ->
    alive w5 = true -> acct w5 = acct w4 -> kg w5 = kg w4 -> wlog w5 = wlog w4 -> challenges w5 = challenges w4 -> alpns w5 = alpns w4 ->
    inflight (rt w5) = inflight (rt w4) -> sigchld_blocked (rt w5) = sigchld_blocked (rt w4) -> held others [] w5 ->
    wp (bind (destroy_opt (order_pool (o_issue (ord w4)))) (fun _ => upd_issue (set_order_pool None)))
      w5 (fun _ w6 => wp (update (set_alive false)) w6 (fun _ w' => over rc w' /\ kg w' = kg w) (fun _ => False))
      (fun _ => False)).
  { intros w5 Eo Ha5 Ea Ek El Ec Eal Ef Es Hh5.
    change (order_pool (o_issue (ord w4))) with (order_pool (o_issue (ord w))). rewrite Hpool. simpl destroy_opt.
    eapply wp_destroy; [eapply held_in; [exact Hh5|]; unfold owned; rewrite Eo; cbn; rewrite Hpool; set_solver|].
    unfold wp, upd_issue, update_order. cbn. rewrite Ha5. split; [|exact (eq_trans Ek Hkg4)].
    destruct Hi; constructor; cbn; rewrite ?Eo, ?Ea, ?Ek, ?El, ?Ec, ?Eal, ?Ef, ?Es; try done.
    - eapply held_drop; [..|exact Hh5]; [done..|]. unfold owned. cbn. rewrite Eo. cbn. rewrite Hpool. done.
    - unfold owned. change (rt w4) with (rt w). change (acct w4) with (acct w).
      rewrite Hp1, Hp2, Hfl. done.
    - destruct Hp as ((mc & ? & ?) & (ma & ? & ?) & _). cbn in *. rewrite Hc1, Hc2 in *. by exists mc, ma.
    - split; [done|]. apply inv_hook.
    - by rewrite Hkg4.
    - cbn. by rewrite inv_results. }
  destruct (cert_key (o_issue (ord w4))) as [ck|] eqn:Eck; simpl destroy_opt.
  - eapply wp_destroy; [eapply held_in; [exact Hh4|]; unfold owned; rewrite Eck; set_solver|].
    apply wp_update_order; [apply Hi|]. apply Hend; try done; [apply Hi|].
    eapply held_drop; [..|exact Hh4]; [done..|]. unfold owned. rewrite Eck. cbn. rewrite Hpool. solve_Permutation.
  - apply wp_update_order; [apply Hi|]. apply Hend; try done; [apply Hi|].
    eapply held_perm; [..|exact Hh4]; [done..|]. unfold owned. by rewrite Eck.
Qed.

(** ** The hook process *)

Definition hook_timers : timers := Timers false false false true true.

(** A runtime with the same handles and requests. *)
Definition same_handles (r r' : runtime) : Prop :=
  handles r' = handles r /\ next_handle r' = next_handle r /\ inflight r' = inflight r.

(** [ngx_autocert_order_dns_hook]: the hook is running with its timers set, or
    nothing has been started. *)
Definition hooked w (rc : Z) w' : Prop :=
  exists r h t lg,
    w' = set_wlog lg (set_rt r (set_ord (set_o_hook h (set_o_timers t (ord w))) w))
    /\ same_handles (rt w) r
    /\ hook_is_add h = hook_is_add (o_hook (ord w)) /\ hook_cleanup h = hook_cleanup (o_hook (ord w))
    /\ hook_after_authz h = hook_after_authz (o_hook (ord w)) /\ finish_rc h = finish_rc (o_hook (ord w))
    /\ stored lg = stored (wlog w) /\ results lg = results (wlog w)
    /\ (rc = NGX_AGAIN /\ t = hook_timers /\ hook_running h = true
         /\ hook_sigmask h = sigchld_blocked (rt w)
        \/ rc = NGX_ERROR /\ t = no_timers /\ hook_running h = hook_running (o_hook (ord w))
            /\ sigchld_blocked r = sigchld_blocked (rt w)).

Lemma wp_pnallocs m p w (Q : bool -> W -> Prop) :
  p ∈ handles (rt w) ->
  (forall b c, Q b (set_rt (set_calls_made c (rt w)) w)) ->
  wp (pnallocs E m (Some p)) w Q (fun _ => False).
Proof.
  revert w Q. induction m as [|m IH]; intros w Q Hp HQ; simpl.
  - unfold wp, ret. specialize (HQ true (calls_made (rt w))). by destruct w as [[] ? ? ? ? ? ? ?].
  - unfold pnalloc_opt, pnalloc, wp. rewrite bind_assoc. apply wp_touch; [done|].
    apply wp_attempt. intros [|] c; [|by apply wp_ret].
    apply IH; [done|]. intros b c'. apply HQ.
Qed.

Lemma wp_dns_hook hook is_add p w :
  alive w = true -> o_timers (ord w) = no_timers ->
  order_pool (o_issue (ord w)) = Some p -> p ∈ handles (rt w) ->
  wp (ngx_autocert_order_dns_hook cf E hook is_add) w (hooked w) (fun _ => False).
Proof.
  intros Ha Ht Hpool Hp.
  assert (Hback : forall h r, hook_is_add h = hook_is_add (o_hook (ord w)) ->
    hook_cleanup h = hook_cleanup (o_hook (ord w)) -> hook_after_authz h = hook_after_authz (o_hook (ord w)) ->
    finish_rc h = finish_rc (o_hook (ord w)) -> hook_running h = hook_running (o_hook (ord w)) ->
    same_handles (rt w) r -> sigchld_blocked r = sigchld_blocked (rt w) ->
    hooked w NGX_ERROR (set_rt r (set_ord (set_o_hook h (ord w)) w))).
  { intros h r ? ? ? ? ? Hr ?. exists r, h, no_timers, (wlog w). split; [|split_and!; try done; by right].
    rewrite <- Ht. by destruct w as [? ? [] ? ? ? ? ?]. }
  assert (Hsame : w = set_rt (rt w) (set_ord (set_o_hook (o_hook (ord w)) (ord w)) w)) by (by destruct w as [? ? [] ? ? ? ? ?]).
  unfold ngx_autocert_order_dns_hook. destruct (negb _).
  { apply wp_ret. rewrite Hsame at 2. by apply Hback. }
  apply wp_order_; [done|]. cbv zeta. destruct (_ && _).
  { apply wp_ret. rewrite Hsame at 2. by apply Hback. }
  rewrite Hpool. apply wp_bind, wp_pnallocs; [done|]. intros [|] c; cbv [negb].
  2: { apply wp_ret. change (set_rt (set_calls_made c (rt w)) w) with
         (set_rt (set_calls_made c (rt w)) (set_ord (ord w) w)).
       replace (set_ord (ord w) w) with (set_ord (set_o_hook (o_hook (ord w)) (ord w)) w)
         by (by destruct w as [? ? [] ? ? ? ? ?]).
       by apply Hback. }
  apply wp_update_order; [done|]. apply wp_attempt. intros [|] c2; cbv [negb].
  2: { apply wp_ret. apply (Hback (set_hook_timed_out false (o_hook (ord w))) (set_calls_made c2 (rt w))); done. }
  apply wp_read. apply wp_update_order; [done|]. apply wp_update. apply wp_attempt. intros [|] c3; cbv [negb].
  2: { apply wp_update, wp_ret.
       apply (Hback (set_hook_sigmask (sigchld_blocked (rt w)) (set_hook_timed_out false (o_hook (ord w))))
                (set_calls_made c3 (rt w))); done. }
  apply wp_update. apply wp_update_order; [done|].
  match goal with |- wp _ ?x _ _ => set (w4 := x) end.
  assert (Hclear : forall set k, set no_timers = false -> wp (k tt) w4 (hooked w) (fun _ => False) ->
    wp (bind (clear_timer set) k) w4 (hooked w) (fun _ => False)).
  { intros set k Hs Hk. unfold clear_timer, wp. rewrite bind_assoc. apply wp_order_; [done|].
    change (o_timers (ord w4)) with (o_timers (ord w)). rewrite Ht, Hs. exact Hk. }
  apply Hclear; [done|]. apply Hclear; [done|]. apply wp_update_order; [done|]. apply wp_ret.
  change (o_timers (ord w4)) with (o_timers (ord w)). unfold hooked.
  exists (set_sigchld_blocked true (set_calls_made c3 (rt w))), (o_hook (ord w4)), hook_timers, (wlog w4).
  split.
  - rewrite Ht. done.
  - split_and!; try done. by left.
Qed.

(** The flags of the hook about to be run. *)
Definition with_hook (h : hook_state) w : W := set_ord (set_o_hook h (ord w)) w.

Definition idle_shape (d e : bool) (r : option Z) : shape := Shape d no_timers None [] false PostNone e r.
Definition hook_shape (d : bool) (a c z : bool) (e : bool) (r : option Z) : shape :=
  Shape d hook_timers (Some (a, c, z)) [] false PostNone e r.

Lemma held_same r l w w' :
  same_handles (rt w) r -> rt w' = r -> o_issue (ord w') = o_issue (ord w) -> acct w' = acct w ->
  held others l w -> held others l w'.
Proof.
  intros (E1 & E2 & E3) <- Eo Ea. apply held_perm; [done..|]. unfold owned. by rewrite Eo, Ea, E3.
Qed.

Lemma hook_started d e r h w w' :
  inv [] (idle_shape d e r) w -> (hook_cleanup h = true -> r = Some (finish_rc h)) ->
  hooked (with_hook h w) NGX_AGAIN w' ->
  inv [] (hook_shape d (hook_is_add h) (hook_cleanup h) (hook_after_authz h) e r) w' /\ keeps w w'.
Proof.
  intros Hi Hfin (r1 & h1 & t & lg & -> & Hr & Ea & Ec & Ez & Ef & Es & El & [(_ & -> & Hrun & Hm)|(? & _)]); [|done].
  split; [|done]. pose proof (inv_hook _ _ _ _ _ _ _ _ _ Hi) as (_ & _ & _ & Hmask).
  destruct Hi; constructor; try assumption.
  - eapply held_same; [exact Hr|done..|exact inv_held].
  - done.
  - cbn in *. rewrite Hm, <- Hmask, Ef. done.
  - cbn. by rewrite (proj2 (proj2 Hr)).
  - cbn. by rewrite Es.
  - cbn. by rewrite El.
Qed.

Lemma hook_refused d e r h w w' h2 :
  inv [] (idle_shape d e r) w -> hook_running h = hook_running (o_hook (ord w)) ->
  hooked (with_hook h w) NGX_ERROR w' ->
  hook_running h2 = hook_running (o_hook (ord w')) -> hook_cleanup h2 = false -> hook_after_authz h2 = false ->
  inv [] (idle_shape d e r) (with_hook h2 w') /\ keeps w (with_hook h2 w').
Proof.
  intros Hi Hh (r1 & h1 & t & lg & -> & Hr & Ea & Ec & Ez & Ef & Es & El & [(? & _)|(_ & -> & Hrun & Hm)]) H1 H2 H3; [done|].
  split; [|done]. pose proof (inv_hook _ _ _ _ _ _ _ _ _ Hi) as (Hrn & _ & _ & Hmask).
  destruct Hi; constructor; try assumption.
  - eapply held_same; [exact Hr|done..|exact inv_held].
  - done.
  - cbn in *. rewrite H1, H2, H3, Hrun, Hh, Hm. done.
  - cbn. by rewrite (proj2 (proj2 Hr)).
  - cbn. by rewrite Es.
  - cbn. by rewrite El.
Qed.

(** ** Finishing *)

Lemma inv_pool_in l s w : inv l s w -> exists p, order_pool (o_issue (ord w)) = Some p /\ p ∈ handles (rt w).
Proof.
  intros Hi. destruct (inv_pool _ _ _ _ _ _ _ _ _ Hi) as [p Hp]. exists p. split; [done|].
  eapply inv_in; [exact Hi|]. apply elem_of_app. right. unfold owned. rewrite Hp. set_solver.
Qed.

(** Allocations from the order's pool. *)
Lemma inv_pnallocs m l s w (Q : bool -> W -> Prop) :
  inv l s w -> (forall b r, inv l s (set_rt r w) -> Q b (set_rt r w)) ->
  wp (pnallocs E m (order_pool (o_issue (ord w)))) w Q (fun _ => False).
Proof.
  intros Hi HQ. destruct (inv_pool_in _ _ _ Hi) as (p & Hp & Hin). rewrite Hp.
  apply wp_pnallocs; [done|]. intros b c. apply HQ. destruct Hi; constructor; assumption.
Qed.

Lemma inv_pnalloc_pool l s w (Q : bool -> W -> Prop) :
  inv l s w -> (forall b r, inv l s (set_rt r w) -> Q b (set_rt r w)) ->
  wp (pnalloc_opt E (order_pool (o_issue (ord w)))) w Q (fun _ => False).
Proof.
  intros Hi HQ. destruct (inv_pool_in _ _ _ Hi) as (p & Hp & Hin). rewrite Hp.
  apply wp_touch; [done|]. apply HQ. destruct Hi; constructor; assumption.
Qed.

Lemma settled_over rc w n : over rc w -> (abandoned (kg w) <= n)%nat -> settled n w.
Proof. intros. right. by exists rc. Qed.

(** The end of [ngx_autocert_order_finish] once no hook is waited for. *)
Lemma wp_report rc w :
  inv [] (closing rc) w ->
  wp (ngx_autocert_order_unpublish cf;; order_handler cf rc) w
    (fun _ w' => settled (2 + abandoned (kg w)) w') (fun _ => False).
Proof.
  intros Hi. apply wp_bind.
  eapply wp_weaken; [apply wp_unpublish; [apply Hi|exact (inv_published _ _ _ _ _ _ _ _ _ Hi)]|].
  intros [] w1 Hw. destruct (withdrawn_keeps _ _ Hw) as [_ Ek].
  eapply wp_weaken; [by eapply wp_order_handler, withdrawn_inv|].
  intros [] w2 [Ho Ek2]. eapply settled_over; [exact Ho|]. rewrite Ek2, Ek. lia.
Qed.

Lemma wp_finish e r rc w :
  inv [] (quiet e r) w -> outcome_ok E (Some rc) (stored (wlog w)) ->
  wp (ngx_autocert_order_finish cf E rc) w
    (fun _ w' => settled (2 + abandoned (kg w)) w') (fun _ => False).
Proof.
  intros Hi Hout. apply wp_order_; [apply Hi|].
  rewrite (inv_done _ _ _ _ _ _ _ _ _ Hi). simpl s_done. cbv iota.
  apply wp_update_order; [apply Hi|]. apply wp_update_order; [apply Hi|].
  match goal with |- wp _ ?x _ _ => set (w1 := x) end.
  assert (H1 : inv [] (closing rc) w1).
  { destruct Hi; constructor; try assumption; try done. cbn. by rewrite inv_timers. }
  change (kg w) with (kg w1). change (dns_set (o_chal (ord w))) with (dns_set (o_chal (ord w1))). clearbody w1. clear Hi Hout.
  apply wp_bind. destruct (_ && _).
  - apply wp_update_order; [apply H1|]. match goal with |- context [set_o_hook ?h (ord w1)] => set (h1 := h) end.
    change (set_ord _ w1) with (with_hook h1 w1).
    destruct (inv_pool_in _ _ _ H1) as (p & Hp & Hin). apply wp_bind.
    eapply wp_weaken; [eapply wp_dns_hook; [apply H1|apply H1|exact Hp|exact Hin]|].
    intros rc1 w2 Hh. assert (Hh' := Hh).
    destruct Hh as (? & ? & ? & ? & _ & _ & _ & _ & _ & _ & _ & _ & [(-> & _)|(-> & _ & Hrun & _)]);
      cbv [NGX_AGAIN NGX_ERROR Z.eqb Pos.eqb].
    + apply wp_ret. destruct (hook_started true false (Some rc) h1 _ w2 H1) as [H2 Hk]; [done|exact Hh'|].
      assert (Ez : hook_after_authz h1 = false) by apply H1. rewrite Ez in H2.
      apply wp_ret. eapply (settled_at _ _ _ _ _ _ (AtHookCleanup true rc)); [exact H2|].
      destruct Hk as [_ Ek]. unfold rank. rewrite Ek. cbn. lia.
    + set (h2 := set_hook_cleanup false (o_hook (ord w2))).
      destruct (hook_refused true false (Some rc) h1 _ w2 h2 H1) as [H2 Hk]; [done|exact Hh'|done|done|..].
      { destruct Hh' as (? & ? & ? & ? & -> & _ & _ & _ & Ez & _). cbn in *. rewrite Ez. apply H1. }
      apply wp_update_order; [apply H2|]. change (set_ord _ w2) with (with_hook h2 w2).
      apply wp_update_order; [apply H2|]. apply wp_ret. destruct Hk as [_ Ek]. rewrite <- Ek.
      match goal with |- wp _ ?x _ _ => change (kg (with_hook h2 w2)) with (kg x) end.
      apply wp_report. destruct H2; constructor; try assumption; done.
  - apply wp_ret. by apply wp_report.
Qed.
End End_.
