(* ===== verification/OrderSteps.v ===== *)
(** * ACME orders: the steps of the handlers

    Finalizing, key generation, publishing the challenge: each either sets the
    next thing awaited or fails with the order as it was, nothing pending. *)

From S2P Require Import Prelude NgxCore Rbtree Shm Store Json Http Ident Challenge OrderState Account Order OrderInv OrderPost OrderEnd.

Local Open Scope Z_scope.
Local Open Scope prog_scope.

Section Steps.
Context {HC HA : Type} {SC : Store HC bytes} {SA : Store HA (bytes * bytes)} (cf : conf) (E : env).
Context {Bl : Blame}.
Abbreviation W := (world HC HA).
Implicit Types (w : W) (l : list nat).
Context (others : list nat) (mc0 : gmap bytes bytes) (ma0 : gmap bytes (bytes * bytes)) (mask0 : bool).
Abbreviation inv := (inv cf E others mc0 ma0 mask0).
Abbreviation settled := (settled cf E others mc0 ma0 mask0).
Context (n : nat) (complete : acme_handler_pt -> reply -> Z -> prog W unit).
Context (IH : completes cf E others mc0 ma0 mask0 n complete).
Context (Hdom : domain cf <> []).

(** The outcome of a step: something is awaited (or the order has ended), or the
    step has failed and nothing is pending. *)
Definition failed (w : W) (rc : Z) w' : Prop :=
  rc = NGX_ERROR /\ exists e, inv [] (quiet e None) w' /\ keeps w w'.
Definition accepted (m : nat) w (rc : Z) w' : Prop := rc = NGX_OK /\ settled m w' \/ failed w rc w'.
Definition progressed (m : nat) w (rc : Z) w' : Prop :=
  (rc = NGX_OK \/ rc = NGX_AGAIN) /\ settled m w' \/ failed w rc w'.

Lemma accepted_progressed m w rc w' : accepted m w rc w' -> progressed m w rc w'.
Proof. intros [[? ?]|?]; [left; split; [by left|done]|by right]. Qed.

Lemma accepted_mono m m' w0 w rc w' :
  keeps w0 w -> (m <= m')%nat -> accepted m w rc w' -> accepted m' w0 rc w'.
Proof.
  intros Hk Hm [[? ?]|(? & e & ? & ?)]; [left; split; [done|by eapply settled_mono]|].
  right. split; [done|]. exists e. split; [done|by eapply ranks_trans].
Qed.

Lemma progressed_mono m m' w0 w rc w' :
  keeps w0 w -> (m <= m')%nat -> progressed m w rc w' -> progressed m' w0 rc w'.
Proof.
  intros Hk Hm [[? ?]|(? & e & ? & ?)]; [left; split; [done|by eapply settled_mono]|].
  right. split; [done|]. exists e. split; [done|by eapply ranks_trans].
Qed.

Lemma wp_fail_finish e m w w0 :
  inv [] (quiet e None) w -> keeps w0 w -> (2 + abandoned (kg w0) <= m)%nat ->
  wp (ngx_autocert_order_finish cf E NGX_ERROR) w (fun _ w' => settled m w') (fun _ => False).
Proof.
  intros Hi [_ Hk] Hm. eapply wp_weaken; [eapply wp_finish; [exact Hi|]|].
  - right. split; [done|]. apply Hi.
  - intros [] w' H. eapply settled_mono; [exact H|]. rewrite Hk. lia.
Qed.

Lemma wp_finish_unless_ok (m : prog W Z) k w :
  wp m w (accepted k w) (fun _ => False) -> (2 + abandoned (kg w) <= k)%nat ->
  wp (finish_unless_ok cf E m) w (fun _ w' => settled k w') (fun _ => False).
Proof.
  intros H Hk. apply wp_bind. eapply wp_weaken; [exact H|].
  intros rc w' [(-> & Hs)|(-> & e & Hi & Hw)]; cbv [NGX_OK NGX_ERROR Z.eqb negb]; [by apply wp_ret|].
  by eapply wp_fail_finish.
Qed.

Lemma wp_finish_on_error (m : prog W Z) k w :
  wp m w (progressed k w) (fun _ => False) -> (2 + abandoned (kg w) <= k)%nat ->
  wp (finish_on_error cf E m) w (fun _ w' => settled k w') (fun _ => False).
Proof.
  intros H Hk. apply wp_bind. eapply wp_weaken; [exact H|].
  intros rc w' [([-> | ->] & Hs)|(-> & e & Hi & Hw)]; cbv [NGX_OK NGX_ERROR NGX_AGAIN Z.eqb Pos.eqb];
    [by apply wp_ret..|]. by eapply wp_fail_finish.
Qed.

Lemma wp_post url payload k w :
  inv [] (quiet (early_handler k) None) w -> (rank (AtPost k false false) w <= n)%nat ->
  wp (ngx_autocert_account_post E complete url payload k) w
    (accepted (rank (AtPost k false false) w) w) (fun _ => False).
Proof.
  intros Hi Hn. eapply wp_weaken; [by eapply wp_account_post|].
  intros rc w' [(-> & [[H Hf]|[_ H]])|(-> & H & Hf)].
  - left. split; [done|]. eapply settled_at; [exact H|]. by rewrite (frame_rank _ _ _ Hf).
  - left. split; [done|]. eapply settled_mono; [exact H|]. lia.
  - right. split; [done|]. exists (early_handler k). split; [done|by apply frame_keeps].
Qed.

(** ** Key generation and finalize *)

(** Work left once finalize is under way. *)
Definition finalize_work w : nat := (order_work (o_count (ord w)) + 8 + abandoned (kg w))%nat.

Lemma keeps_finalize w w' : keeps w w' -> finalize_work w' = finalize_work w.
Proof. unfold finalize_work. by intros [-> ->]. Qed.

Lemma wp_finalize_csr key w :
  inv [] (quiet false None) w -> cert_key (o_issue (ord w)) = Some key -> (finalize_work w <= S n)%nat ->
  wp (ngx_autocert_order_finalize_csr cf E complete) w (accepted (finalize_work w - 1) w) (fun _ => False).
Proof.
  intros Hi Hk Hn. apply wp_order_; [apply Hi|]. rewrite Hk.
  assert (Hback : forall w', inv [] (quiet false None) w' -> keeps w w' ->
    accepted (finalize_work w - 1) w NGX_ERROR w').
  { intros w' Hr Hw. right. split; [done|]. by exists false. }
  eapply wp_touch; [eapply inv_in; [exact Hi|]; apply elem_of_app; right; unfold owned; rewrite Hk; set_solver|].
  apply wp_bind. eapply inv_pnalloc_pool; [exact Hi|].
  intros [|] r1 H1; cbv [negb]; [|by apply wp_ret, Hback].
  apply wp_update_order; [apply Hi|]. match goal with |- wp _ ?x _ _ => set (w2 := x) end.
  assert (H2 : inv [] (quiet false None) w2) by (destruct H1; constructor; assumption).
  apply wp_bind. eapply (inv_pnallocs _ _ _ _ _ _ 3 _ _ w2); [exact H2|].
  intros [|] r3 H3; cbv [negb]; [|by apply wp_ret, Hback].
  eapply wp_weaken; [apply wp_post; [exact H3|]|].
  - unfold rank, finalize_work in *. cbn in *. lia.
  - intros rc w' H. eapply accepted_mono; [| |exact H]; [done|]. unfold rank, finalize_work. cbn. lia.
Qed.

Lemma wp_keygen_inline w :
  inv [] (quiet false None) w -> cert_key (o_issue (ord w)) = None -> (finalize_work w <= n)%nat ->
  wp (ngx_autocert_keygen_inline cf E complete) w (accepted (finalize_work w) w) (fun _ => False).
Proof.
  intros Hi Hk Hn. apply wp_create_raw; intros c; (apply wp_update_order; [apply Hi|]).
  - apply wp_ret. right. split; [done|]. exists false. split; [|done].
    destruct Hi; constructor; try assumption; [|done]. eapply held_perm; [..|exact inv_held]; [done..|].
    unfold owned. cbn. by rewrite Hk.
  - eapply wp_weaken; [eapply wp_finalize_csr; [|done|by etrans; [exact Hn|lia]]|].
    2: { intros rc w' H. eapply accepted_mono; [| |exact H]; [done|]. unfold finalize_work. cbn. lia. }
    destruct Hi; constructor; try assumption; [|done]. eapply held_new; [..|exact inv_held]; [done..|].
    unfold owned. cbn. rewrite Hk. cbn. solve_Permutation.
Qed.

(** The task's slot is used without harm to what is pending. *)
Lemma inv_keygen_slot l e r k w :
  inv l (quiet e r) w -> kg_mine k = false -> kg_busy k = false -> kg_busy (kg w) = false ->
  inv l (quiet e r) (set_kg k w) /\ keeps w (set_kg k w).
Proof.
  intros Hi H1 H2 H3. split.
  - destruct Hi; constructor; try assumption. by split.
  - split; [done|]. cbn. unfold abandoned. by rewrite H2, H3.
Qed.

Lemma wp_keygen_post w :
  inv [] (quiet false None) w -> cert_key (o_issue (ord w)) = None -> (finalize_work w <= n)%nat ->
  wp (ngx_autocert_keygen_post cf E complete) w (progressed (finalize_work w) w) (fun _ => False).
Proof.
  intros Hi Hk Hn. pose proof (inv_keygen _ _ _ _ _ _ _ _ _ Hi) as [Hm _]. cbn in Hm.
  assert (Hinline : forall w', inv [] (quiet false None) w' -> cert_key (o_issue (ord w')) = None -> keeps w w' ->
    wp (ngx_autocert_keygen_inline cf E complete) w' (progressed (finalize_work w) w) (fun _ => False)).
  { intros w' H1 H2 Hw. rewrite <- (keeps_finalize _ _ Hw) in *.
    eapply wp_weaken; [by apply wp_keygen_inline|].
    intros rc w'' H. eapply progressed_mono; [exact Hw|reflexivity|]. by apply accepted_progressed. }
  apply wp_read. destruct (kg_busy (kg w)) eqn:Eb; [rewrite Hm; by apply Hinline|].
  eapply inv_attempt; [exact Hi|]. intros [|] r1 H1; cbv [negb]; [|by apply Hinline].
  apply wp_bind. apply (wp_weaken _ _ (fun _ w' => exists r, inv [] (quiet false None) w' /\ w' = set_rt r w)).
  { destruct (kg_task (kg w)); [apply wp_ret; by eexists|].
    unfold wp, attempt. eexists. split; [|done]. destruct H1; constructor; assumption. }
  intros task w2 (r2 & H2 & ->). destruct task; cbv [negb].
  2: { apply wp_update. destruct (inv_keygen_slot _ _ _ (set_kg_mine false (kg (set_rt r2 w))) _ H2) as [H3 Hw]; [done..|].
       by apply Hinline. }
  apply wp_update. apply wp_attempt. intros [|] c; cbv [negb].
  - apply wp_update, wp_ret. left. split; [by right|].
    eapply (settled_at _ _ _ _ _ _ AtKeygen); [destruct H2; constructor; try assumption; done|].
    unfold rank, finalize_work. cbn. lia.
  - apply wp_attempt. intros inactive c2. apply wp_update.
    match goal with |- wp _ (set_kg ?k _) _ _ => set (k4 := k) end.
    destruct (inv_keygen_slot [] false None k4 (set_rt (set_calls_made c2 r2) w)) as [H4 Hw];
      [destruct H2; constructor; assumption|done|by destruct inactive|done|].
    by apply (Hinline (set_kg k4 (set_rt (set_calls_made c2 r2) w))).
Qed.

Lemma wp_finalize w :
  inv [] (quiet false None) w -> (finalize_work w <= n)%nat ->
  wp (ngx_autocert_order_finalize cf E complete) w (progressed (finalize_work w) w) (fun _ => False).
Proof.
  intros Hi Hn. apply wp_order_; [apply Hi|]. destruct (_ =? 0)%nat.
  { apply wp_ret. right. split; [done|]. by exists false. }
  assert (Hgo : forall w', inv [] (quiet false None) w' -> cert_key (o_issue (ord w')) = None -> keeps w w' ->
    wp (if key_is_rsa cf then ngx_autocert_keygen_post cf E complete else ngx_autocert_keygen_inline cf E complete) w'
      (progressed (finalize_work w) w) (fun _ => False)).
  { intros w' H1 H2 Hw. rewrite <- (keeps_finalize _ _ Hw) in *. destruct (key_is_rsa cf).
    - eapply wp_weaken; [by apply wp_keygen_post|]. intros rc w''. by apply progressed_mono.
    - eapply wp_weaken; [by apply wp_keygen_inline|].
      intros rc w'' H. eapply progressed_mono; [exact Hw|reflexivity|]. by apply accepted_progressed. }
  destruct (cert_key (o_issue (ord w))) as [k|] eqn:Ek; simpl destroy_opt.
  - eapply wp_destroy; [eapply inv_in; [exact Hi|]; apply elem_of_app; right; unfold owned; rewrite Ek; set_solver|].
    apply wp_update_order; [apply Hi|]. apply Hgo; [|done|done].
    destruct Hi; constructor; try assumption; [|done]. eapply held_drop; [..|exact inv_held]; [done..|].
    unfold owned. cbn. rewrite Ek. cbn. solve_Permutation.
  - apply wp_update_order; [apply Hi|]. apply Hgo; [|done|done].
    destruct Hi; constructor; try assumption; [|done]. eapply held_perm; [..|exact inv_held]; [done..|].
    unfold owned. cbn. by rewrite Ek.
Qed.

(** ** The challenge *)

(** Work left once the challenge is being published. *)
Definition authz_left w : nat := (order_work (o_count (ord w)) + authz_work (o_count (ord w)) + abandoned (kg w))%nat.

Lemma keeps_authz w w' : keeps w w' -> authz_left w' = authz_left w.
Proof. unfold authz_left. by intros [-> ->]. Qed.

Lemma inv_late l e r w : inv l (quiet e r) w -> inv l (quiet false r) w.
Proof. intros Hi. destruct Hi. constructor; try assumption. done. Qed.

Lemma wp_respond w :
  inv [] (quiet false None) w -> (authz_left w + 13 <= n)%nat ->
  wp (ngx_autocert_order_respond E complete) w (accepted (authz_left w + 13) w) (fun _ => False).
Proof.
  intros Hi Hn. apply wp_order_; [apply Hi|].
  eapply wp_weaken; [apply wp_post; [exact Hi|]|].
  - etrans; [|exact Hn]. unfold rank, authz_left. cbn. lia.
  - intros rc w' H. eapply accepted_mono; [| |exact H]; [done|]. unfold rank, authz_left. cbn. lia.
Qed.

(** Before anything is published the stores are as they were. *)
Lemma early_stores l w :
  inv l (quiet true None) w ->
  challenge_set (o_chal (ord w)) = false /\ alpn_set (o_chal (ord w)) = false
  /\ store_inv (challenges w) mc0 /\ store_inv (alpns w) ma0.
Proof. intros Hi. destruct (inv_early _ _ _ _ _ _ _ _ _ Hi eq_refl) as (? & ? & _ & ? & ?). done. Qed.

(** A store that has refused an entry is still as it was. *)
Lemma inv_store_refused l zc za w :
  inv l (quiet true None) w -> store_inv zc mc0 -> store_inv za ma0 ->
  inv l (quiet true None) (set_alpns za (set_challenges zc w)).
Proof.
  intros Hi Hc Ha. destruct (early_stores _ _ Hi) as (Ec & Ea & _ & _).
  destruct (inv_early _ _ _ _ _ _ _ _ _ Hi eq_refl) as (_ & _ & Ed & _).
  destruct Hi; constructor; try assumption; [|done].
  destruct inv_published as (_ & _ & Ht & Hd). split_and!; [..|exact Ht|exact Hd].
  - exists mc0. by split; [|apply kept_refl].
  - exists ma0. by split; [|apply kept_refl].
Qed.

Lemma wp_set_challenge l v w :
  inv l (quiet true None) w -> token (o_chal (ord w)) <> [] ->
  wp (on_challenges (store_set (token (o_chal (ord w))) v)) w
    (fun rc w' =>
       rc = NGX_OK /\ inv l (quiet false None) (set_ord (set_o_chal (set_challenge_set true (o_chal (ord w'))) (ord w')) w')
         /\ keeps w w'
       \/ rc = NGX_ERROR /\ inv l (quiet true None) w' /\ keeps w w') (fun _ => False).
Proof.
  intros Hi Ht. destruct (early_stores _ _ Hi) as (Ec & Ea & Hc & Ha).
  apply wp_on_challenges. eapply wp_weaken; [by apply wp_faultless, store_set_spec|].
  intros rc z [(-> & _ & _ & Hz)|(-> & Hz & _)]; [left|right]; (split; [done|]; split; [|done]).
  - destruct Hi; constructor; try assumption; [|done].
    destruct inv_published as (_ & Hma & _ & Hal). split; [|split; [exact Hma|split; [done|exact Hal]]].
    eexists. split; [exact Hz|]. cbn. eapply kept_insert, (kept_refl false).
  - apply (inv_store_refused l z (alpns w) w); assumption.
Qed.

Lemma wp_set_alpn l v w :
  inv l (quiet true None) w -> has_alpn_zone cf = true ->
  wp (on_alpns (store_set (domain cf) v)) w
    (fun rc w' =>
       rc = NGX_OK /\ inv l (quiet false None) (set_ord (set_o_chal (set_alpn_set true (o_chal (ord w'))) (ord w')) w')
         /\ keeps w w'
       \/ rc = NGX_ERROR /\ inv l (quiet true None) w' /\ keeps w w') (fun _ => False).
Proof.
  intros Hi Hzone. destruct (early_stores _ _ Hi) as (Ec & Ea & Hc & Ha).
  apply wp_on_alpns. eapply wp_weaken; [by apply wp_faultless, store_set_spec|].
  intros rc z [(-> & _ & _ & Hz)|(-> & Hz & _)]; [left|right]; (split; [done|]; split; [|done]).
  - destruct Hi; constructor; try assumption; [|done].
    destruct inv_published as (Hmc & _ & Htok & _). split; [exact Hmc|split; [|split; [exact Htok|done]]].
    eexists. split; [exact Hz|]. cbn. eapply kept_insert, (kept_refl false).
  - apply (inv_store_refused l (challenges w) z w); assumption.
Qed.

Lemma wp_publish_alpn w :
  inv [] (quiet true None) w ->
  wp (ngx_autocert_order_publish_alpn cf E) w
    (fun rc w' => (rc = NGX_OK \/ rc = NGX_ERROR) /\ inv [] (quiet false None) w' /\ keeps w w') (fun _ => False).
Proof.
  intros Hi. unfold ngx_autocert_order_publish_alpn.
  assert (Hbad : forall w', inv [] (quiet true None) w' -> keeps w w' ->
    (NGX_ERROR = NGX_OK \/ NGX_ERROR = NGX_ERROR) /\ inv [] (quiet false None) w' /\ keeps w w').
  { intros w' H1 H2. split; [by right|]. split; [by eapply inv_late|done]. }
  destruct (has_alpn_zone cf) eqn:Ez; [|by apply wp_ret, Hbad]. cbv [negb].
  eapply inv_create; [exact Hi|intros r H; by apply wp_ret, Hbad|]. intros tmp r1 H1.
  eapply inv_create; [exact H1| |].
  { intros r2 H2. eapply inv_destroy; [exact H2|]. intros r3 H3. by apply wp_ret, Hbad. }
  intros key r2 H2. apply wp_bind.
  apply (wp_weaken _ _ (fun rc w' => (rc = NGX_OK \/ rc = NGX_ERROR) /\ inv [tmp] (quiet false None) w' /\ keeps w w')).
  2: { intros rc w3 (Hrc & H3 & Hk3). eapply inv_destroy; [exact H3|]. intros r4 H4. by apply wp_ret. }
  assert (Hkey : forall rc w3, (rc = NGX_OK \/ rc = NGX_ERROR) -> inv [key; tmp] (quiet false None) w3 -> keeps w w3 ->
    wp (destroy key;; ret rc) w3
      (fun rc w' => (rc = NGX_OK \/ rc = NGX_ERROR) /\ inv [tmp] (quiet false None) w' /\ keeps w w') (fun _ => False)).
  { intros rc w3 Hrc H3 Hk3. eapply inv_destroy; [exact H3|]. intros r4 H4. by apply wp_ret. }
  eapply inv_create; [exact H2| |].
  { intros r3 H3. apply wp_bind, wp_ret. apply Hkey; [by right|by eapply inv_late|done]. }
  intros cert r3 H3. apply wp_bind.
  apply (wp_weaken _ _ (fun rc w' => (rc = NGX_OK \/ rc = NGX_ERROR) /\ inv [key; tmp] (quiet false None) w' /\ keeps w w')).
  2: { intros rc w4 (Hrc & H4 & Hk4). by apply Hkey. }
  eapply inv_pnalloc; [exact H3|by right; right; left|]. intros b1 r4 H4.
  apply wp_bind. apply (wp_weaken _ _ (fun _ w' => exists r, inv [cert; key; tmp] (quiet true None) (set_rt r w) /\ w' = set_rt r w)).
  { destruct b1; [|apply wp_ret; by exists r4].
    apply wp_touch; [eapply inv_in; [exact H4|by right; right; left]|]. unfold wp, attempt.
    eexists. split; [|done]. destruct H4; constructor; assumption. }
  intros key_pem w5 (r5 & H5 & ->). apply wp_bind.
  apply (wp_weaken _ _ (fun rc w' =>
    rc = NGX_OK /\ inv [cert; key; tmp] (quiet false None) (set_ord (set_o_chal (set_alpn_set true (o_chal (ord w'))) (ord w')) w') /\ keeps w w'
    \/ rc = NGX_ERROR /\ inv [cert; key; tmp] (quiet true None) w' /\ keeps w w')).
  { destruct key_pem; [|apply wp_ret; by right].
    eapply wp_weaken; [by apply wp_set_alpn|]. intros rc w' H. exact H. }
  intros rc w6 H6. apply wp_bind.
  assert (Ha6 : alive w6 = true) by (destruct H6 as [(_ & H6 & _)|(_ & H6 & _)]; exact (inv_alive _ _ _ _ _ _ _ _ _ H6)).
  apply (wp_weaken _ _ (fun rc w' => (rc = NGX_OK \/ rc = NGX_ERROR) /\ inv [cert; key; tmp] (quiet false None) w' /\ keeps w w')).
  { destruct H6 as [(-> & H6 & Hk6)|(-> & H6 & Hk6)]; cbv [NGX_OK NGX_ERROR Z.eqb negb].
    - apply wp_update_order; [done|]. apply wp_ret. split; [by left|]. by split.
    - apply wp_ret. split; [by right|]. split; [by eapply inv_late|done]. }
  intros rc' w7 (Hrc & H7 & Hk7). eapply inv_destroy; [exact H7|]. intros r8 H8. by apply wp_ret.
Qed.
End Steps.
