(* ===== verification/OrderReplies.v ===== *)
(** * ACME orders: one event

    Each handler, called with nothing pending but the event it handles, leaves
    the order awaiting exactly one thing, with fewer events to come, or ends it. *)

From S2P Require Import Prelude NgxCore Rbtree Shm Store Json Http Ident Challenge OrderState Account Order OrderInv OrderPost OrderEnd OrderSteps.

Local Open Scope Z_scope.
Local Open Scope prog_scope.

Section Replies.
Context {HC HA : Type} {SC : Store HC bytes} {SA : Store HA (bytes * bytes)} (cf : conf) (E : env).
Context {Bl : Blame}.
Abbreviation W := (world HC HA).
Implicit Types (w : W) (l : list nat).
Context (others : list nat) (mc0 : gmap bytes bytes) (ma0 : gmap bytes (bytes * bytes)) (mask0 : bool).
Abbreviation inv := (inv cf E others mc0 ma0 mask0).
Abbreviation settled := (settled cf E others mc0 ma0 mask0).
Abbreviation accepted := (accepted cf E others mc0 ma0 mask0).
Context (n : nat) (complete : acme_handler_pt -> reply -> Z -> prog W unit).
Context (IH : completes cf E others mc0 ma0 mask0 n complete).
Context (Hdom : domain cf <> []).

(** Failing, from any bound that leaves room for the removal of a DNS record. *)
Lemma wp_give_up e m w :
  inv [] (quiet e None) w -> (2 + abandoned (kg w) <= m)%nat ->
  wp (ngx_autocert_order_finish cf E NGX_ERROR) w (fun _ w' => settled m w') (fun _ => False).
Proof. intros Hi Hm. by eapply wp_fail_finish. Qed.

(** ** Timers *)

Lemma wp_delay_start w :
  inv [] (quiet false None) w ->
  wp ngx_autocert_order_dns_delay_start w (fun _ w' => settled (authz_left w + 14) w') (fun _ => False).
Proof.
  intros Hi. unfold ngx_autocert_order_dns_delay_start, clear_timer, wp. rewrite bind_assoc.
  apply wp_order_; [apply Hi|]. rewrite (inv_timers _ _ _ _ _ _ _ _ _ Hi). cbn [dns_delay_timer s_timers quiet no_timers].
  unfold wp, bind, ret, upd_timers, update_order. rewrite (inv_alive _ _ _ _ _ _ _ _ _ Hi).
  eapply (settled_at _ _ _ _ _ _ AtDelayTimer).
  - destruct Hi; constructor; try assumption; try done. cbn in *. by rewrite inv_timers.
  - unfold rank, authz_left. cbn. lia.
Qed.

Lemma wp_publish_dns w :
  inv [] (quiet true None) w -> (authz_left w + 16 <= n)%nat ->
  wp (ngx_autocert_order_publish_dns cf E) w (accepted (authz_left w + 16) w) (fun _ => False).
Proof.
  intros Hi Hn. apply wp_order_; [apply Hi|]. apply wp_bind. eapply inv_pnalloc_pool; [exact Hi|].
  intros [|] r1 H1; cbv [negb]; [|apply wp_ret; right; split; [done|]; by exists true].
  apply wp_update_order; [apply Hi|]. apply wp_update_order; [apply Hi|].
  match goal with |- wp _ ?x _ _ => set (w2 := x) end.
  assert (H2 : inv [] (quiet false None) w2).
  { destruct H1; constructor; try assumption; done. }
  assert (Hk2 : keeps w w2) by done. clearbody w2.
  assert (Hdelay : forall w', inv [] (quiet false None) w' -> keeps w w' ->
    wp (ngx_autocert_order_dns_delay_start;; ret NGX_OK) w' (accepted (authz_left w + 16) w) (fun _ => False)).
  { intros w' H Hk. apply wp_bind. eapply wp_weaken; [by apply wp_delay_start|].
    intros [] w3 H3. apply wp_ret. left. split; [done|]. eapply settled_mono; [exact H3|].
    rewrite (keeps_authz _ _ Hk). lia. }
  destruct (_ =? 0)%nat; cbv [negb]; [by apply Hdelay|].
  apply wp_update_order; [apply H2|]. match goal with |- context [set_o_hook ?h (ord w2)] => set (h1 := h) end.
  change (set_ord _ w2) with (with_hook h1 w2).
  destruct (inv_pool_in _ _ _ _ _ _ _ _ _ H2) as (p & Hp & Hin). apply wp_bind.
  eapply wp_weaken; [eapply wp_dns_hook; [apply H2|apply H2|exact Hp|exact Hin]|].
  intros rc w3 Hh. assert (Hh' := Hh).
  assert (Hz : hook_cleanup h1 = false /\ hook_after_authz h1 = false) by (split; apply H2). destruct Hz as [Ez1 Ez2].
  destruct Hh as (? & h3 & ? & ? & Ew & _ & _ & Ec & Ez & _ & _ & _ & [(-> & _)|(-> & _ & Hrun & _)]);
    cbv [NGX_AGAIN NGX_ERROR Z.eqb Pos.eqb]; apply wp_ret.
  - destruct (hook_started cf E others mc0 ma0 mask0 false false None h1 w2 w3) as [H3 Hk3]; [done|by rewrite Ez1|done|].
    rewrite Ez1, Ez2 in H3. left. split; [done|]. eapply (settled_at _ _ _ _ _ _ (AtHookAdd true)); [exact H3|].
    rewrite (keeps_rank _ w w3) by (by eapply ranks_trans). unfold rank, authz_left. cbn. lia.
  - destruct (hook_refused cf E others mc0 ma0 mask0 false false None h1 w2 w3 (o_hook (ord w3))) as [H3 Hk3]; [done..| | |].
    { subst w3. cbn. by rewrite Ec. } { subst w3. cbn. by rewrite Ez. }
    assert (Esame : with_hook (o_hook (ord w3)) w3 = w3) by (by destruct w3 as [? ? [] ? ? ? ? ?]).
    rewrite Esame in *. right. split; [done|]. exists false. split; [exact H3|]. by eapply ranks_trans.
Qed.

(** ** Reading replies *)

(** Neither the challenge nor the ranks have changed. *)
Definition reads w w' : Prop := keeps w w' /\ o_chal (ord w') = o_chal (ord w).

Lemma reads_trans w1 w2 w3 : reads w1 w2 -> reads w2 w3 -> reads w1 w3.
Proof. intros [? ?] [? ?]. split; [by eapply ranks_trans|congruence]. Qed.

Lemma frame_reads w w' : frame w w' -> reads w w'.
Proof. intros H. split; [by apply frame_keeps|]. destruct H as [H _]. by rewrite H. Qed.

Lemma in_hand l q : q_pool q ∈ q_pool q :: l.
Proof. by left. Qed.

Lemma wp_note_retry_after l s q w :
  inv l s w -> q_pool q ∈ l ->
  wp (ngx_autocert_order_note_retry_after E q) w (fun _ w' => inv l s w' /\ reads w w') (fun _ => False).
Proof.
  intros Hi Hq. unfold ngx_autocert_order_note_retry_after. destruct (negb _).
  { unfold wp, touch. rewrite decide_True; [done|]. eapply inv_in; [exact Hi|]. apply elem_of_app. by left. }
  apply wp_bind. eapply wp_weaken; [by eapply wp_header|]. intros ra w' ->. apply wp_read.
  destruct (retry_after_of _ _ _ _) as [t|]; [|by apply wp_ret].
  unfold wp, update_order. rewrite (inv_alive _ _ _ _ _ _ _ _ _ Hi). split; [|done].
  destruct Hi; constructor; assumption.
Qed.

Lemma wp_body_of l s q rc want w :
  inv l s w -> q_pool q ∈ l ->
  wp (body_of E q rc want) w (fun _ w' => inv l s w' /\ reads w w') (fun _ => False).
Proof.
  intros Hi Hq. unfold body_of. destruct (_ && _); [|by apply wp_ret].
  eapply wp_weaken; [by eapply wp_parse_json|]. intros v w' [H1 H2]. split; [done|by apply frame_reads].
Qed.

Lemma wp_dup_url l s f w :
  inv l s w -> wp (dup_url E f) w (fun _ w' => inv l s w' /\ reads w w') (fun _ => False).
Proof.
  intros Hi. apply wp_order_; [apply Hi|]. apply wp_bind. eapply inv_pnalloc_pool; [exact Hi|].
  intros [|] r H; [|by apply wp_ret]. apply wp_update_order; [apply Hi|]. apply wp_ret. split; [|done].
  destruct H; constructor; assumption.
Qed.

Lemma wp_dup_token l t w :
  inv l (quiet true None) w ->
  wp (ngx_autocert_order_dup E (fun o => set_o_chal (set_token t (o_chal o)) o)) w
    (fun b w' => inv l (quiet true None) w' /\ keeps w w' /\ (b = true -> token (o_chal (ord w')) = t))
    (fun _ => False).
Proof.
  intros Hi. apply wp_order_; [apply Hi|]. apply wp_bind. eapply inv_pnalloc_pool; [exact Hi|].
  intros [|] r H; [|by apply wp_ret]. apply wp_update_order; [apply Hi|]. apply wp_ret. split; [|done].
  destruct (early_stores _ _ _ _ _ _ _ _ H) as (Ec & Ea & Hc & Ha). cbn in Ec, Ea, Hc.
  destruct H; constructor; try assumption.
  destruct inv_published as (_ & Hma & _ & Hal). split; [|split; [exact Hma|split; [cbn; by rewrite Ec|exact Hal]]].
  exists mc0. by split; [exact Hc|apply kept_refl].
Qed.

Lemma token_safe_nonempty t : ngx_autocert_order_token_safe t = true -> t <> [].
Proof. by intros H ->. Qed.

Lemma wp_challenge_loop l cs w :
  inv l (quiet true None) w ->
  wp (challenge_loop cf E cs) w
    (fun b w' => inv l (quiet true None) w' /\ keeps w w' /\ (b = true -> token (o_chal (ord w')) <> []))
    (fun _ => False).
Proof.
  revert w. induction cs as [|ch cs IHcs]; intros w Hi; cbn [challenge_loop]; [by apply wp_ret|].
  do 2 (match goal with |- wp (if ?b then _ else _) _ _ _ => destruct b end; [by apply IHcs|]).
  assert (Hnext : forall w', inv l (quiet true None) w' -> keeps w w' ->
    wp (challenge_loop cf E cs) w'
      (fun b w'' => inv l (quiet true None) w'' /\ keeps w w'' /\ (b = true -> token (o_chal (ord w'')) <> []))
      (fun _ => False)).
  { intros w' H Hk. eapply wp_weaken; [by apply IHcs|]. intros b w'' (? & ? & ?).
    split; [done|]. split; [by eapply ranks_trans|done]. }
  apply wp_bind.
  apply (wp_weaken _ _ (fun b w' => inv l (quiet true None) w' /\ keeps w w'
                                   /\ (b = true -> token (o_chal (ord w')) <> []))).
  2: { intros [|] w' (H1 & H2 & H3); [by apply wp_ret|by apply Hnext]. }
  destruct (object_str (Some ch) "token") as [t|]; [|by apply wp_ret].
  destruct (object_str (Some ch) "url") as [url|]; [|by apply wp_ret].
  destruct (ngx_autocert_order_token_safe t) eqn:Et; [|by apply wp_ret]. apply token_safe_nonempty in Et.
  apply wp_bind. eapply wp_weaken; [by apply wp_dup_token|]. intros [|] w1 (H1 & Hk1 & Ht); [|by apply wp_ret].
  eapply wp_weaken; [by apply wp_dup_url|]. intros b w2 [H2 [Hk2 Hc2]].
  split; [done|]. split; [by eapply ranks_trans|]. intros _. by rewrite Hc2, Ht.
Qed.

(** ** The challenge *)

Lemma wp_publish_challenge w :
  inv [] (quiet true None) w -> token (o_chal (ord w)) <> [] -> (authz_left w + 16 <= n)%nat ->
  wp (publish_challenge cf E complete) w (fun _ w' => settled (authz_left w + 16) w') (fun _ => False).
Proof.
  intros Hi Ht Hn. apply wp_order_; [apply Hi|].
  assert (Hrespond : forall w', inv [] (quiet false None) w' -> keeps w w' ->
    wp (finish_unless_ok cf E (ngx_autocert_order_respond E complete)) w'
      (fun _ w'' => settled (authz_left w + 16) w'') (fun _ => False)).
  { intros w' H Hk. eapply wp_finish_unless_ok; [|destruct Hk as [_ Hk]; rewrite Hk; unfold authz_left; lia].
    rewrite <- (keeps_authz _ _ Hk) in *. eapply wp_weaken; [eapply wp_respond; [done|done|lia]|].
    intros rc w'' Ha. eapply accepted_mono; [done| |exact Ha]. lia. }
  assert (Hab : forall w', keeps w w' -> (2 + abandoned (kg w') <= authz_left w + 16)%nat).
  { intros w' [_ Hk]. rewrite Hk. unfold authz_left. lia. }
  destruct (_ =? _).
  - apply wp_bind. eapply wp_weaken; [by apply wp_publish_alpn|].
    intros rc w' ([-> | ->] & H & Hk); cbv [NGX_OK NGX_ERROR Z.eqb negb]; [by apply Hrespond|].
    eapply wp_give_up; [exact H|by apply Hab].
  - destruct (_ =? _).
    + eapply wp_finish_unless_ok; [by apply wp_publish_dns|by apply Hab].
    + apply wp_bind. eapply wp_weaken; [by apply wp_set_challenge|].
      intros rc w' [(-> & H & Hk)|(-> & H & Hk)]; cbv [NGX_OK NGX_ERROR Z.eqb negb].
      * apply wp_update_order; [exact (inv_alive _ _ _ _ _ _ _ _ _ H)|]. by apply Hrespond.
      * eapply wp_give_up; [exact H|by apply Hab].
Qed.

(** ** The replies *)

(** What a reply's handler must do, for the POST handler [k]. *)
Definition answered k w (m : prog W unit) : Prop :=
  wp m w (fun _ w' => settled (after_post k w) w') (fun _ => False).

Lemma reads_after k w w' : reads w w' -> after_post k w' = after_post k w.
Proof. unfold after_post. by intros [[-> ->] _]. Qed.

Lemma room k w w' : reads w w' -> (2 + abandoned (kg w') <= after_post k w)%nat.
Proof. intros [[_ E2] _]. rewrite E2. unfold after_post. destruct k; cbn; unfold order_work; lia. Qed.

Lemma wp_answer_fail e k w w' :
  inv [] (quiet e None) w' -> reads w w' ->
  wp (ngx_autocert_order_finish cf E NGX_ERROR) w' (fun _ w'' => settled (after_post k w) w'') (fun _ => False).
Proof. intros Hi Hr. eapply wp_give_up; [exact Hi|by apply room]. Qed.

(** The next POST, when it needs no more events than are left. *)
Lemma wp_answer_post k k' (m : prog W Z) w w' :
  inv [] (quiet (early_handler k') None) w' -> reads w w' ->
  (rank (AtPost k' false false) w' <= after_post k w)%nat -> (after_post k w <= n)%nat ->
  (forall w'', inv [] (quiet (early_handler k') None) w'' -> (rank (AtPost k' false false) w'' <= n)%nat ->
     wp m w'' (accepted (rank (AtPost k' false false) w'') w'') (fun _ => False)) ->
  wp (finish_unless_ok cf E m) w' (fun _ w'' => settled (after_post k w) w'') (fun _ => False).
Proof.
  intros Hi Hr Hle Hn Hm. eapply wp_finish_unless_ok; [|by apply room].
  eapply wp_weaken; [apply Hm; [exact Hi|lia]|]. intros rc w'' H. by eapply accepted_mono; [..|exact H].
Qed.

Lemma wp_new_order_done q rc w :
  inv [q_pool q] (quiet true None) w -> (after_post order_new_order_done w <= n)%nat ->
  answered order_new_order_done w (ngx_autocert_order_new_order_done cf E complete q rc).
Proof.
  intros Hi Hn. apply wp_bind. eapply wp_weaken; [apply wp_note_retry_after; [exact Hi|apply in_hand]|].
  intros [] w1 [H1 Hr1]. apply wp_bind.
  apply (wp_weaken _ _ (fun _ w' => inv [q_pool q] (quiet true None) w' /\ reads w w')).
  { destruct (_ && _); [|by apply wp_ret]. apply wp_bind.
    eapply wp_weaken; [eapply wp_header; [exact H1|apply in_hand]|]. intros loc w2 ->. apply wp_bind.
    eapply wp_weaken; [eapply wp_parse_json; [exact H1|apply in_hand]|].
    intros root w2 [H2 Hf2]. assert (Hr2 : reads w w2) by (eapply reads_trans; [exact Hr1|by apply frame_reads]).
    destruct loc as [loc|]; [|by apply wp_ret]. destruct (object_str root "finalize") as [fin|]; [|by apply wp_ret].
    destruct (ngx_autocert_json_array_item _ 0) as [[| | | | |]|]; try by apply wp_ret.
    destruct (_ || _); [by apply wp_ret|]. apply wp_bind.
    eapply wp_weaken; [by apply wp_dup_url|]. intros d1 w3 [H3 Hr3]. apply wp_bind.
    assert (Hr3' : reads w w3) by by eapply reads_trans.
    apply (wp_weaken _ _ (fun _ w' => inv [q_pool q] (quiet true None) w' /\ reads w w')).
    { destruct d1; [|by apply wp_ret]. eapply wp_weaken; [by apply wp_dup_url|].
      intros d2 w4 [H4 Hr4]. split; [done|by eapply reads_trans]. }
    intros d2 w4 [H4 Hr4]. destruct d2; [|by apply wp_ret].
    eapply wp_weaken; [by apply wp_dup_url|]. intros d5 w5 [H5 Hr5]. split; [done|by eapply reads_trans]. }
  intros good w2 [H2 Hr2]. eapply inv_destroy; [exact H2|]. intros r3 H3.
  destruct good; cbv [negb]; [|by eapply wp_answer_fail].
  eapply (wp_answer_post _ order_authz_done); [exact H3|exact Hr2| |exact Hn|].
  { rewrite (keeps_rank _ w (set_rt r3 w2)) by apply Hr2. unfold rank, after_post. cbn. lia. }
  intros w'' Hi'' Hn''. apply wp_order_; [apply Hi''|]. eapply wp_post; [exact IH|done|done].
Qed.

Lemma wp_authz_done q rc w :
  inv [q_pool q] (quiet true None) w -> (after_post order_authz_done w <= n)%nat ->
  answered order_authz_done w (ngx_autocert_order_authz_done cf E complete q rc).
Proof.
  intros Hi Hn. apply wp_bind. eapply wp_weaken; [apply wp_note_retry_after; [exact Hi|apply in_hand]|].
  intros [] w1 [H1 Hr1]. apply wp_bind. eapply wp_weaken; [by eapply wp_body_of, in_hand|].
  intros root w2 [H2 Hr2]. assert (Hr : reads w w2) by by eapply reads_trans. clear Hr1 Hr2 H1.
  assert (Ha : after_post order_authz_done w = (authz_left w2 + 16)%nat).
  { destruct Hr as [[E1 E2] _]. unfold after_post, authz_left. rewrite E1, E2. cbn. lia. }
  destruct (str_is _ _).
  - eapply inv_destroy; [exact H2|]. intros r3 H3. apply inv_late in H3.
    eapply wp_finish_on_error; [|by apply room].
    eapply wp_weaken; [eapply wp_finalize; [exact IH|exact Hdom|exact H3|]|].
    + etrans; [|exact Hn]. rewrite Ha. unfold finalize_work, authz_left. cbn. lia.
    + intros rc' w' H. eapply progressed_mono; [done| |exact H].
      rewrite Ha. unfold finalize_work, authz_left. cbn. lia.
  - apply wp_bind. eapply wp_weaken; [by apply wp_challenge_loop|]. intros good w3 (H3 & Hk3 & Ht3).
    assert (Hfail : forall w', inv [q_pool q] (quiet true None) w' -> keeps w w' ->
      wp (destroy (q_pool q);; ngx_autocert_order_finish cf E NGX_ERROR) w'
        (fun _ w'' => settled (after_post order_authz_done w) w'') (fun _ => False)).
    { intros w' H [Hk1 Hk2]. eapply inv_destroy; [exact H|]. intros r H'. eapply wp_give_up; [exact H'|].
      cbn. rewrite Hk2. unfold after_post. cbn. lia. }
    assert (Hk : keeps w w3) by (eapply ranks_trans; [apply Hr|exact Hk3]).
    destruct good; cbv [negb]; [|by apply Hfail]. specialize (Ht3 eq_refl).
    apply wp_account_. eapply inv_pnalloc; [exact H3|by left|]. intros thumb r4 H4.
    destruct (inv_key _ _ _ _ _ _ _ _ _ H4) as [key Ek]. cbn in Ek.
    destruct thumb; [|by apply Hfail]. rewrite Ek.
    eapply wp_touch; [eapply inv_in; [exact H4|]; apply elem_of_app; right; unfold owned, account_handles; cbn;
      rewrite Ek; set_solver|].
    apply wp_order_; [exact (inv_alive _ _ _ _ _ _ _ _ _ H4)|]. apply wp_bind.
    eapply inv_pnalloc_pool; [exact H4|]. intros [|] r5 H5; cbv [negb]; [|by apply Hfail].
    apply wp_update_order; [exact (inv_alive _ _ _ _ _ _ _ _ _ H5)|]. match goal with |- wp _ ?x _ _ => set (w6 := x) end.
    assert (H6 : inv [q_pool q] (quiet true None) w6) by (destruct H5; constructor; assumption).
    eapply inv_destroy; [exact H6|]. intros r7 H7.
    assert (Ha7 : after_post order_authz_done w = (authz_left (set_rt r7 w6) + 16)%nat).
    { rewrite Ha. destruct Hk3 as [E1 E2]. unfold authz_left. cbn. by rewrite E1, E2. }
    rewrite Ha7 in *. by apply wp_publish_challenge.
Qed.

Lemma wp_respond_done q rc w :
  inv [q_pool q] (quiet false None) w -> (after_post order_respond_done w <= n)%nat ->
  answered order_respond_done w (ngx_autocert_order_respond_done cf E q rc).
Proof.
  intros Hi Hn. apply wp_bind. eapply wp_weaken; [apply wp_note_retry_after; [exact Hi|apply in_hand]|].
  intros [] w1 [H1 Hr1].
  destruct (_ && _); (eapply inv_destroy; [exact H1|]; intros r2 H2); [by eapply wp_answer_fail|].
  unfold start_poll_timer, clear_timer, wp. rewrite bind_assoc. apply wp_order_; [exact (inv_alive _ _ _ _ _ _ _ _ _ H2)|].
  rewrite (inv_timers _ _ _ _ _ _ _ _ _ H2). cbn [poll_timer s_timers quiet no_timers].
  unfold wp, bind, ret, upd_timers, update_order. rewrite (inv_alive _ _ _ _ _ _ _ _ _ H2).
  eapply (settled_at _ _ _ _ _ _ AtPollTimer).
  - destruct H2; constructor; try assumption; try done. cbn in *. by rewrite inv_timers.
  - destruct Hr1 as [[E1 E2] _]. unfold rank, after_post. cbn. rewrite E1, E2. lia.
Qed.
End Replies.

(** * ACME orders: the rest of the replies

    Polling, finalizing and downloading, then what every completion of a request does to
    an order. *)


Section Done.
Context {HC HA : Type} {SC : Store HC bytes} {SA : Store HA (bytes * bytes)} (cf : conf) (E : env).
Context {Bl : Blame}.
Abbreviation W := (world HC HA).
Implicit Types (w : W) (l : list nat).
Context (others : list nat) (mc0 : gmap bytes bytes) (ma0 : gmap bytes (bytes * bytes)) (mask0 : bool).
Abbreviation inv := (inv cf E others mc0 ma0 mask0).
Abbreviation settled := (settled cf E others mc0 ma0 mask0).
Abbreviation accepted := (accepted cf E others mc0 ma0 mask0).
Abbreviation answered := (answered cf E others mc0 ma0 mask0).
Context (n : nat) (complete : acme_handler_pt -> reply -> Z -> prog W unit).
Context (IH : completes cf E others mc0 ma0 mask0 n complete).
Context (Hdom : domain cf <> []).

(** ** The authorization *)

(** Setting a timer on an order with nothing pending. *)
Lemma wp_set_timer s f m w (Hs : shape_of s = Shape false (f no_timers) None [] false PostNone false None) :
  inv [] (quiet false None) w -> (rank s w <= m)%nat ->
  wp (upd_timers f) w (fun _ w' => settled m w') (fun _ => False).
Proof.
  intros Hi Hm. unfold wp, upd_timers, update_order. rewrite (inv_alive _ _ _ _ _ _ _ _ _ Hi).
  rewrite (inv_timers _ _ _ _ _ _ _ _ _ Hi). eapply settled_at; [|exact Hm].
  rewrite Hs. destruct Hi; constructor; try assumption; done.
Qed.

Lemma wp_start_timer s get f m w (Hs : shape_of s = Shape false (f no_timers) None [] false PostNone false None) :
  get no_timers = false -> inv [] (quiet false None) w -> (rank s w <= m)%nat ->
  wp (clear_timer get;; upd_timers f) w (fun _ w' => settled m w') (fun _ => False).
Proof.
  intros Hg Hi Hm. unfold clear_timer, wp. rewrite bind_assoc. apply wp_order_; [apply Hi|].
  rewrite (inv_timers _ _ _ _ _ _ _ _ _ Hi). cbn [s_timers quiet]. rewrite Hg. by eapply wp_set_timer.
Qed.

(** The record is removed before finalize, or the challenge withdrawn. *)
Lemma wp_withdraw_first w :
  inv [] (quiet false None) w ->
  wp (if dns_set (o_chal (ord w)) && negb (length (dns_hook_remove cf) =? 0)%nat then
        upd_hook (fun h => set_hook_after_authz true (set_hook_is_add false h));;
        let! hook_rc := ngx_autocert_order_dns_hook cf E (dns_hook_remove cf) false in
        if hook_rc =? NGX_AGAIN then ret true
        else
          upd_hook (set_hook_after_authz false);;
          upd_chal (set_dns_set false);;
          ret false
      else ngx_autocert_order_unpublish cf;; ret false) w
    (fun waiting w' => keeps w w' /\
       (if waiting : bool then inv [] (shape_of (AtHookAuthz true)) w' else inv [] (quiet false None) w'))
    (fun _ => False).
Proof.
  intros Hi. destruct (_ && _).
  - apply wp_update_order; [apply Hi|]. match goal with |- context [set_o_hook ?h (ord w)] => set (h1 := h) end.
    change (set_ord _ w) with (with_hook h1 w).
    destruct (inv_pool_in _ _ _ _ _ _ _ _ _ Hi) as (p & Hp & Hin). apply wp_bind.
    eapply wp_weaken; [eapply wp_dns_hook; [apply Hi|apply Hi|exact Hp|exact Hin]|].
    intros rc w2 Hh. assert (Hh' := Hh). assert (Ez : hook_cleanup h1 = false) by apply Hi.
    destruct Hh as (? & ? & ? & ? & _ & _ & _ & _ & _ & _ & _ & _ & [(-> & _)|(-> & _ & Hrun & _)]);
      cbv [NGX_AGAIN NGX_ERROR Z.eqb Pos.eqb].
    + apply wp_ret.
      destruct (hook_started cf E others mc0 ma0 mask0 false false None h1 _ w2 Hi) as [H2 Hk]; [by rewrite Ez|exact Hh'|].
      rewrite Ez in H2. by split.
    + set (h2 := set_hook_after_authz false (o_hook (ord w2))).
      destruct (hook_refused cf E others mc0 ma0 mask0 false false None h1 _ w2 h2 Hi) as [H2 Hk]; [done|exact Hh'|done|..|done|].
      { destruct Hh' as (? & ? & ? & ? & -> & _ & _ & Ec & _). cbn in *. by rewrite Ec. }
      apply wp_update_order; [apply H2|]. change (set_ord _ w2) with (with_hook h2 w2).
      apply wp_update_order; [apply H2|]. apply wp_ret. split; [exact Hk|].
      destruct H2; constructor; try assumption; done.
  - apply wp_bind. eapply wp_weaken; [apply wp_unpublish; [apply Hi|exact (inv_published _ _ _ _ _ _ _ _ _ Hi)]|].
    intros [] w1 Hw. apply wp_ret. split; [by eapply withdrawn_keeps|by eapply withdrawn_inv].
Qed.

(** Finalizing, from any bound with room for it. *)
Lemma wp_go_finalize m w :
  inv [] (quiet false None) w -> (finalize_work w <= m)%nat -> (m <= n)%nat ->
  wp (finish_on_error cf E (ngx_autocert_order_finalize cf E complete)) w
    (fun _ w' => settled m w') (fun _ => False).
Proof.
  intros Hi Hm Hn. eapply wp_finish_on_error; [|unfold finalize_work, order_work in Hm; lia].
  eapply wp_weaken; [eapply wp_finalize; [exact IH|exact Hdom|exact Hi|lia]|].
  intros rc w' H. by eapply progressed_mono; [| |exact H].
Qed.

Lemma wp_poll_done q rc w :
  inv [q_pool q] (quiet false None) w -> (after_post order_poll_done w <= n)%nat ->
  answered order_poll_done w (ngx_autocert_order_poll_done cf E complete q rc).
Proof.
  intros Hi Hn. apply wp_bind. eapply wp_weaken; [apply wp_note_retry_after; [exact Hi|apply in_hand]|].
  intros [] w1 [H1 Hr1]. apply wp_bind. eapply wp_weaken; [by eapply wp_body_of, in_hand|].
  intros root w2 [H2 Hr2]. assert (Hr : reads w w2) by by eapply reads_trans. clear Hr1 Hr2 H1. cbv zeta.
  eapply inv_destroy; [exact H2|]. intros r3 H3.
  assert (Hr3 : reads w (set_rt r3 w2)) by exact Hr. set (w3 := set_rt r3 w2) in *. clearbody w3. clear H2 Hr.
  assert (Ha : forall w', keeps w3 w' -> (finalize_work w' + 2 <= after_post order_poll_done w)%nat).
  { intros w' [E1 E2]. destruct Hr3 as [[E3 E4] _]. unfold finalize_work, after_post. cbn.
    rewrite E1, E2, E3, E4. lia. }
  destruct (str_is _ "valid").
  - apply wp_order_; [apply H3|]. apply wp_bind. eapply wp_weaken; [by apply wp_withdraw_first|].
    intros [|] w4 [Hk H4]; specialize (Ha _ Hk).
    + apply wp_ret. eapply (settled_at _ _ _ _ _ _ (AtHookAuthz true)); [exact H4|].
      unfold finalize_work in Ha. unfold rank, stage_rank. lia.
    + eapply wp_go_finalize; [exact H4|lia|exact Hn].
  - destruct (negb _); [by eapply wp_answer_fail|]. eapply (wp_set_timer AtPollTimer); [done|exact H3|].
    destruct Hr3 as [[E3 E4] _]. unfold rank, after_post. cbn. rewrite E3, E4. lia.
Qed.

(** ** Finalize and download *)

Lemma wp_finalize_done q rc w :
  inv [q_pool q] (quiet false None) w -> (after_post order_finalize_done w <= n)%nat ->
  answered order_finalize_done w (ngx_autocert_order_finalize_done cf E q rc).
Proof.
  intros Hi Hn. apply wp_bind. eapply wp_weaken; [apply wp_note_retry_after; [exact Hi|apply in_hand]|].
  intros [] w1 [H1 Hr1]. apply wp_order_; [apply H1|]. cbv zeta.
  eapply inv_destroy; [exact H1|]. intros r2 H2.
  assert (Hr : reads w (set_rt r2 w1)) by exact Hr1.
  destruct (_ && _); [by eapply wp_answer_fail|]. eapply (wp_start_timer AtOrderTimer); [done..|exact H2|].
  destruct Hr as [[E3 E4] _]. unfold rank, after_post. rewrite E3, E4. cbn. lia.
Qed.

Lemma wp_poll_order_done q rc w :
  inv [q_pool q] (quiet false None) w -> (after_post order_poll_order_done w <= n)%nat ->
  answered order_poll_order_done w (ngx_autocert_order_poll_order_done cf E complete q rc).
Proof.
  intros Hi Hn. apply wp_bind. eapply wp_weaken; [apply wp_note_retry_after; [exact Hi|apply in_hand]|].
  intros [] w1 [H1 Hr1]. cbv zeta. apply wp_bind. eapply wp_weaken; [by eapply wp_body_of, in_hand|].
  intros root w2 [H2 Hr2]. assert (Hr : reads w w2) by by eapply reads_trans. clear Hr1 Hr2 H1.
  apply wp_bind. apply (wp_weaken _ _ (fun _ w' => inv [q_pool q] (quiet false None) w' /\ reads w w')).
  { destruct (str_is _ "valid"); [|by apply wp_ret].
    destruct (object_str root "certificate") as [url|]; [|by apply wp_ret].
    destruct (_ =? _)%nat; [by apply wp_ret|]. eapply wp_weaken; [by apply wp_dup_url|].
    intros d w3 [H3 Hr3]. split; [done|by eapply reads_trans]. }
  intros valid w3 [H3 Hr3]. clear H2 Hr. eapply inv_destroy; [exact H3|]. intros r4 H4.
  assert (Hr : reads w (set_rt r4 w3)) by exact Hr3. set (w4 := set_rt r4 w3) in *. clearbody w4. clear H3 Hr3.
  destruct Hr as [Hk Hc] eqn:Er. clear Er. destruct valid.
  { eapply (wp_answer_post _ _ _ _ _ _ n _ order_download_done); [exact H4|by split| |exact Hn|].
    { rewrite (keeps_rank _ w w4 Hk). unfold rank, after_post. cbn. lia. }
    intros w'' Hi'' Hn''. apply wp_order_; [apply Hi''|]. by eapply wp_post. }
  destruct Hk as [E3 E4]. destruct (str_is _ "ready").
  - apply wp_order_; [apply H4|]. destruct (finalize_retried _) eqn:Ef; [by eapply wp_answer_fail|].
    apply wp_update_order; [apply H4|]. eapply wp_go_finalize; [| |exact Hn].
    + destruct H4; constructor; assumption.
    + unfold finalize_work, after_post, order_work. cbn. rewrite E3 in *. rewrite E4, Ef. cbn. lia.
  - destruct (_ && _); [by eapply wp_answer_fail|]. eapply (wp_set_timer AtOrderTimer); [done|exact H4|].
    unfold rank, after_post. cbn. rewrite E3, E4. lia.
Qed.

Lemma wp_store w :
  inv [] (quiet false None) w -> validate_cert E (cert_key_pem (o_issue (ord w))) (cert_chain (o_issue (ord w))) = true ->
  wp (ngx_autocert_order_store E) w
    (fun b w' => reads w w' /\ inv [] (quiet false (if b then Some NGX_OK else None)) w') (fun _ => False).
Proof.
  intros Hi Hv. apply wp_order_; [apply Hi|]. eapply inv_attempt; [exact Hi|]. intros [|] r1 H1.
  - apply wp_update, wp_ret. split; [done|]. pose proof (inv_outcome _ _ _ _ _ _ _ _ _ H1) as Ho. cbn in Ho.
    destruct H1; constructor; try assumption. cbn. rewrite Ho. left. split; [done|]. by do 2 eexists.
  - apply wp_ret. by split.
Qed.

Lemma wp_download_done q rc w :
  inv [q_pool q] (quiet false None) w -> (after_post order_download_done w <= n)%nat ->
  answered order_download_done w (ngx_autocert_order_download_done cf E q rc).
Proof.
  intros Hi Hn. apply wp_bind. eapply wp_weaken; [apply wp_note_retry_after; [exact Hi|apply in_hand]|].
  intros [] w1 [H1 Hr1]. pose proof Hr1 as [[E3 E4] _]. destruct (_ || _).
  - apply wp_order_; [apply H1|].
    destruct (download_retried _) eqn:Ed; cbv [negb andb].
    { eapply inv_destroy; [exact H1|]. intros r2 H2. by eapply wp_answer_fail. }
    destruct (_ || _).
    2: { eapply inv_destroy; [exact H1|]. intros r2 H2. by eapply wp_answer_fail. }
    apply wp_update_order; [apply H1|]. eapply inv_destroy; [by destruct H1; constructor|].
    intros r2 H2. apply wp_update_order; [apply H1|].
    eapply (wp_start_timer AtOrderTimer); [done..|by destruct H2; constructor|].
    rewrite E3 in Ed. unfold rank, after_post, stage_rank, post_base, order_work. cbn. rewrite E3, E4, Ed. lia.
  - apply wp_bind.
    apply (wp_weaken _ _ (fun _ w' => inv [q_pool q] (quiet false None) w' /\ reads w w')).
    { apply wp_order_; [apply H1|]. apply wp_bind. eapply inv_pnalloc_pool; [exact H1|].
      intros [|] r2 H2; [|by apply wp_ret]. apply wp_update_order; [apply H1|]. apply wp_ret.
      split; [by destruct H2; constructor|done]. }
    intros d w2 [H2 Hr2]. eapply inv_destroy; [exact H2|]. intros r3 H3.
    assert (Hr : reads w (set_rt r3 w2)) by exact Hr2. set (w3 := set_rt r3 w2) in *. clearbody w3. clear H2 Hr2.
    destruct d; cbv [negb]; [|by eapply wp_answer_fail]. apply wp_order_; [apply H3|].
    destruct (validate_cert _ _ _) eqn:Ev; cbv [negb]; [|by eapply wp_answer_fail].
    apply wp_bind. eapply wp_weaken; [by apply wp_store|]. intros saved w4 [Hr4 H4].
    assert (Hr5 : reads w w4) by by eapply reads_trans. destruct saved; cbv [negb]; [|by eapply wp_answer_fail].
    eapply wp_weaken; [eapply wp_finish; [exact H4|apply H4]|]. intros [] w5 H5.
    eapply settled_mono; [exact H5|]. by apply room.
Qed.
End Done.
