(* ===== verification/OrderEvents.v ===== *)
(** * ACME orders: every event

    Requests completed while they are made nest at most as deep as the rank; and
    each event the loop can deliver brings the order nearer its end. *)

From S2P Require Import Prelude NgxCore Rbtree Shm Store Json Http Ident Challenge OrderState Account Order OrderInv OrderPost OrderEnd OrderSteps OrderReplies.

Local Open Scope Z_scope.
Local Open Scope prog_scope.

Section Events.
Context {HC HA : Type} {SC : Store HC bytes} {SA : Store HA (bytes * bytes)} (cf : conf) (E : env).
Context {Bl : Blame}.
Abbreviation W := (world HC HA).
Implicit Types (w : W) (l : list nat).
Context (others : list nat) (mc0 : gmap bytes bytes) (ma0 : gmap bytes (bytes * bytes)) (mask0 : bool).
Abbreviation inv := (inv cf E others mc0 ma0 mask0).
Abbreviation over := (over cf E others mc0 ma0 mask0).
Abbreviation settled := (settled cf E others mc0 ma0 mask0).
Abbreviation completes := (completes cf E others mc0 ma0 mask0).
Context (Hdom : domain cf <> []).

(** ** The one use of an order that may be gone

    [ngx_autocert_order_new_order] reads the order after its POST.  The order is gone
    by then if the reply was handled in the POST itself, and ended the order. *)

Definition ended_in_post (complete : acme_handler_pt -> reply -> Z -> prog W unit) : Prop :=
  exists url body w w',
    alive w = true /\ ngx_autocert_account_post E complete url body order_new_order_done w = Ret NGX_OK w' /\ alive w' = false.

(** A fault may be put down to that, and to nothing else. *)
Definition blames : Prop :=
  may_inline E (Some order_new_order_done) -> (exists fuel, ended_in_post (complete cf E fuel)) -> Bl.
Definition blamed (complete : acme_handler_pt -> reply -> Z -> prog W unit) : Prop :=
  may_inline E (Some order_new_order_done) -> ended_in_post complete -> Bl.
Context (Hbl : blames).

(** ** The replies, by handler *)

Lemma order_answers n complete :
  completes n complete ->
  answers cf E others mc0 ma0 mask0 n (order_done_handler cf E complete).
Proof.
  intros IH k q rc w Hi Hn. destruct k; cbn [order_done_handler early_handler] in *.
  - by eapply wp_new_order_done.
  - by eapply wp_authz_done.
  - by eapply wp_respond_done.
  - by eapply wp_poll_done.
  - by eapply wp_finalize_done.
  - by eapply wp_poll_order_done.
  - by eapply wp_download_done.
Qed.

Lemma wp_new_order n complete w :
  blamed complete -> completes n complete -> inv [] (quiet true None) w -> (rank AtDirectory w <= S n)%nat ->
  wp (ngx_autocert_order_new_order cf E complete) w
    (accepted cf E others mc0 ma0 mask0 (rank AtDirectory w - 1) w) (fun _ => False).
Proof.
  intros Hb IH Hi Hn. apply wp_order_; [apply Hi|]. cbv zeta. apply wp_bind.
  eapply inv_pnalloc_pool; [exact Hi|]. intros [|] r1 H1; cbv [negb].
  2: { apply wp_ret. right. split; [done|]. by exists true. }
  apply wp_bind. eapply (wp_weaken _ _ (fun rc w2 =>
    sent cf E others mc0 ma0 mask0 (AtPost order_new_order_done false false) [] (quiet true None) (Some order_new_order_done)
      (set_rt r1 w) rc w2 /\ (rc = NGX_OK -> may_inline E (Some order_new_order_done) -> alive w2 = false -> Bl))).
  { match goal with |- wp (ngx_autocert_account_post E complete ?u ?b _) _ _ _ =>
      pose proof (wp_account_post cf E others mc0 ma0 mask0 n complete IH u b order_new_order_done (set_rt r1 w) H1) as Hpost end.
    match type of Hpost with ?P -> _ => assert (Hle : P) end.
    2: { specialize (Hpost Hle). unfold wp in *. destruct (ngx_autocert_account_post _ _ _ _ _ _) as [rc w2|w2| |] eqn:Er; try done.
         split; [exact Hpost|]. intros -> Hm Ha. apply Hb; [done|]. eexists _, _, (set_rt r1 w), w2. by split; [apply H1|]. }
    change (rank _ (set_rt r1 w)) with (rank (AtPost order_new_order_done false false) w).
    unfold rank in *. cbn in *. lia. }
  intros rc w2 [[(-> & [[H2 Hf]|[Hin Hs]])|(-> & H2 & Hf)] Hgone]; cbv [NGX_OK NGX_ERROR Z.eqb].
  - apply wp_order_; [apply H2|].
    assert (Hr : (rank (AtPost order_new_order_done false false) w2 <= rank AtDirectory w - 1)%nat).
    { rewrite (frame_rank _ _ _ Hf). change (rank _ (set_rt r1 w)) with (rank (AtPost order_new_order_done false false) w).
      unfold rank. cbn. lia. }
    destruct (counts_new_order cf); [apply wp_update|]; apply wp_ret; left; (split; [done|]);
      (eapply settled_at; [|exact Hr]); [destruct H2; constructor; assumption|exact H2].
  - destruct Hs as [(s & H2 & Hr)|(r & Ho & _)].
    + apply wp_order_; [apply H2|].
      assert (Hr' : (rank s w2 <= rank AtDirectory w - 1)%nat).
      { etrans; [exact Hr|]. change (rank _ (set_rt r1 w)) with (rank (AtPost order_new_order_done false false) w). unfold rank. cbn. lia. }
      destruct (counts_new_order cf); [apply wp_update|]; apply wp_ret; left; (split; [done|]);
        (eapply settled_at; [|exact Hr']); [destruct H2; constructor; assumption|exact H2].
    + pose proof (over_alive _ _ _ _ _ _ _ _ Ho) as Ha. unfold wp, bind, order_. rewrite Ha. by apply Hgone.
  - apply wp_ret. right. split; [done|]. exists true. split; [exact H2|by apply frame_keeps].
Qed.

Lemma wp_directory_done n complete q rc w :
  blamed complete -> completes n complete -> inv [q_pool q] (quiet true None) w -> (rank AtDirectory w <= S n)%nat ->
  wp (ngx_autocert_order_directory_done cf E complete q rc) w
    (fun _ w' => settled (rank AtDirectory w - 1) w') (fun _ => False).
Proof.
  intros Hb IH Hi Hn. apply wp_bind. eapply wp_weaken; [apply wp_note_retry_after; [exact Hi|apply in_hand]|].
  intros [] w1 [H1 Hr1]. apply wp_bind. eapply wp_weaken; [by eapply wp_body_of, in_hand|].
  intros root w2 [H2 Hr2]. assert (Hr : reads w w2) by by eapply reads_trans. clear Hr1 Hr2 H1.
  apply wp_bind. apply (wp_weaken _ _ (fun _ w' => inv [q_pool q] (quiet true None) w' /\ reads w w')).
  { destruct (object_str root "newOrder") as [url|]; [|by apply wp_ret].
    eapply wp_weaken; [by apply wp_dup_url|]. intros d w3 [H3 Hr3]. split; [done|by eapply reads_trans]. }
  intros good w3 [H3 [Hk _]]. clear H2 Hr. eapply inv_destroy; [exact H3|]. intros r4 H4.
  assert (Hk4 : keeps w (set_rt r4 w3)) by exact Hk. set (w4 := set_rt r4 w3) in *. clearbody w4.
  assert (Hroom : (2 + abandoned (kg w4) <= rank AtDirectory w - 1)%nat).
  { destruct Hk4 as [_ ->]. unfold rank. cbn. lia. }
  destruct good; cbv [negb]; [|by eapply wp_give_up].
  eapply wp_finish_unless_ok; [|exact Hroom]. rewrite <- (keeps_rank AtDirectory _ _ Hk4) in *.
  by eapply wp_new_order.
Qed.

(** ** Completions *)

Lemma wp_complete fuel : completes fuel (complete cf E fuel).
Proof.
  induction fuel as [|fuel IH]; intros s h q rc w Hs Hi Hn.
  { destruct s; try discriminate Hs; unfold rank in Hn; cbn in Hn; [lia|]. destruct retried, renonce; lia. }
  destruct s as [|k r rn| | | | | | |]; try discriminate Hs; cbn in Hs; injection Hs as <-; cbn [complete landed] in *.
  - eapply wp_directory_done; [intros Hm He; apply Hbl; [done|by exists fuel]|done..].
  - destruct rn; cbn [acme_handler].
    + eapply wp_renonce_done; [exact IH|by apply order_answers|exact Hi|exact Hn].
    + eapply wp_post_done; [exact IH|by apply order_answers|exact Hi|exact Hn].
Qed.

(** ** Timers *)

(** The timer has fired: nothing is pending any more. *)
Lemma inv_fired s f w :
  shape_of s = Shape false (s_timers (shape_of s)) None [] false PostNone false None ->
  f (s_timers (shape_of s)) = no_timers -> inv [] (shape_of s) w ->
  inv [] (quiet false None) (set_ord (set_o_timers (f (o_timers (ord w))) (ord w)) w).
Proof.
  intros Hs Hf Hi. rewrite (inv_timers _ _ _ _ _ _ _ _ _ Hi), Hf. rewrite Hs in Hi.
  destruct Hi; constructor; try assumption; done.
Qed.

Lemma inv_tries l e r c w :
  inv l (quiet e r) w -> inv l (quiet e r) (set_ord (set_o_count c (ord w)) w).
Proof. intros Hi. destruct Hi; constructor; assumption. Qed.

Lemma wp_poll_timer n complete w :
  completes n complete -> inv [] (quiet false None) w -> (authz_left w + 9 <= n)%nat ->
  wp (ngx_autocert_order_poll_timer cf E complete) w (fun _ w' => settled (authz_left w + 9) w') (fun _ => False).
Proof.
  intros IH Hi Hn. apply wp_update_order; [apply Hi|]. apply wp_order_; [apply Hi|].
  match goal with |- wp _ ?x _ _ => set (w1 := x) end.
  assert (H1 : inv [] (quiet false None) w1) by (by apply inv_tries).
  assert (Hroom : (2 + abandoned (kg w1) <= authz_left w + 9)%nat).
  { unfold authz_left. cbn. lia. }
  destruct (Nat.ltb_spec NGX_AUTOCERT_ORDER_POLL_MAX (poll_tries (o_count (ord w1)))) as [|Hle]; [by eapply wp_give_up|].
  assert (Hr : (rank (AtPost order_poll_done false false) w1 <= authz_left w + 9)%nat).
  { unfold rank, authz_left. cbn [stage_rank post_base]. unfold authz_work, order_work, NGX_AUTOCERT_ORDER_POLL_MAX in *.
    cbn in *. lia. }
  eapply wp_finish_unless_ok; [|exact Hroom]. eapply wp_weaken; [eapply (wp_post _ _ _ _ _ _ n); [exact IH|exact H1|lia]|].
  intros rc w' H. by eapply accepted_mono; [..|exact H].
Qed.

Lemma wp_order_timer n complete w :
  completes n complete -> inv [] (quiet false None) w -> (rank AtOrderTimer w <= S n)%nat ->
  wp (ngx_autocert_order_poll_order_timer cf E complete) w (fun _ w' => settled (rank AtOrderTimer w - 1) w')
    (fun _ => False).
Proof.
  intros IH Hi Hn. apply wp_update_order; [apply Hi|]. apply wp_order_; [apply Hi|].
  match goal with |- wp _ ?x _ _ => set (w1 := x) end.
  assert (H1 : inv [] (quiet false None) w1) by (by apply inv_tries).
  assert (Hroom : (2 + abandoned (kg w1) <= rank AtOrderTimer w - 1)%nat).
  { unfold rank. cbn. lia. }
  destruct (Nat.ltb_spec NGX_AUTOCERT_ORDER_FIN_POLL_MAX (order_poll_tries (o_count (ord w1)))) as [|Hle];
    [by eapply wp_give_up|].
  assert (Hr : (rank (AtPost order_poll_order_done false false) w1 <= rank AtOrderTimer w - 1)%nat).
  { unfold rank. cbn [stage_rank post_base]. unfold order_work, NGX_AUTOCERT_ORDER_FIN_POLL_MAX in *.
    cbn in *. lia. }
  eapply wp_finish_unless_ok; [|exact Hroom]. eapply wp_weaken; [eapply (wp_post _ _ _ _ _ _ n); [exact IH|exact H1|lia]|].
  intros rc w' H. by eapply accepted_mono; [..|exact H].
Qed.

Lemma wp_delay_timer n complete w :
  completes n complete -> inv [] (quiet false None) w -> (authz_left w + 13 <= n)%nat ->
  wp (ngx_autocert_order_dns_delay_timer cf E complete) w (fun _ w' => settled (authz_left w + 13) w')
    (fun _ => False).
Proof.
  intros IH Hi Hn. eapply wp_finish_unless_ok; [by eapply wp_respond|]. unfold authz_left. lia.
Qed.

(** ** The hook process *)

(** The hook's shape once its timer has fired, with the deadline still set or not. *)
Definition hook_wait (dn d a c z : bool) (r : option Z) : shape :=
  Shape dn (Timers false false false false d) (Some (a, c, z)) [] false PostNone false r.

(** The child has been reaped: the signal mask is as it was. *)
Lemma inv_reaped dn d a c z r w (f : challenge_state -> challenge_state) (g : hook_state -> hook_state) :
  inv [] (hook_wait dn d a c z r) w ->
  (forall x, token (f x) = token x /\ challenge_set (f x) = challenge_set x /\ alpn_set (f x) = alpn_set x) ->
  hook_running (g (o_hook (ord w))) = false -> hook_cleanup (g (o_hook (ord w))) = false ->
  hook_after_authz (g (o_hook (ord w))) = false ->
  let o := ord w in
  inv [] (idle_shape dn false r)
    (set_ord (Order (o_urls o) (f (o_chal o)) (o_count o) (set_dns_hook_deadline_timer false (o_timers o)) (g (o_hook o))
                (o_issue o) (done o) (retry_after o))
       (set_rt (set_sigchld_blocked (hook_sigmask (o_hook o)) (rt w)) w)).
Proof.
  intros Hi Hf H1 H2 H3 o. destruct (Hf (o_chal (ord w))) as (Et & Ec & Ea).
  destruct (inv_hook _ _ _ _ _ _ _ _ _ Hi) as (_ & _ & _ & _ & Hm & _).
  destruct Hi; constructor; try assumption.
  - destruct inv_published as (Hmc & Hma & Htok & Hal). unfold published. subst o. cbn. by rewrite Et, Ec, Ea.
  - subst o. cbn. by rewrite inv_timers.
  - by split_and!.
  - done.
Qed.

(** The steps common to every end of the child. *)
Lemma wp_reap complete c w (Q : unit -> W -> Prop) :
  alive w = true -> c <> Running ->
  (let o := ord w in
   let w1 := set_ord (Order (o_urls o) (o_chal o) (o_count o) (set_dns_hook_deadline_timer false (o_timers o))
                        (set_hook_running false (o_hook o)) (o_issue o) (done o) (retry_after o))
               (set_rt (set_sigchld_blocked (hook_sigmask (o_hook o)) (rt w)) w) in
   wp (if negb (hook_is_add (o_hook o)) then
         upd_chal (set_dns_set false);;
         if hook_after_authz (o_hook o) then
           upd_hook (set_hook_after_authz false);;
           finish_on_error cf E (ngx_autocert_order_finalize cf E complete)
         else if hook_cleanup (o_hook o) then
           upd_hook (set_hook_cleanup false);; order_handler cf (finish_rc (o_hook o))
         else ret tt
       else if negb ((match c with Exited true => NGX_OK | _ => NGX_ERROR end) =? NGX_OK)
       then ngx_autocert_order_finish cf E NGX_ERROR
       else ngx_autocert_order_dns_delay_start) w1 Q (fun _ => False)) ->
  wp (ngx_autocert_order_dns_hook_timer cf E complete c) w Q (fun _ => False).
Proof.
  intros Ha Hc H. destruct c as [|z|]; [done|..]; (apply wp_order_; [done|]; apply wp_update;
    apply wp_update_order; [done|]; apply wp_update_order; [done|]; apply wp_order_; [done|]; exact H).
Qed.

Lemma wp_hook_add complete d c w :
  inv [] (hook_wait false d true false false None) w -> c <> Running ->
  wp (ngx_autocert_order_dns_hook_timer cf E complete c) w
    (fun _ w' => settled (authz_left w + 14) w') (fun _ => False).
Proof.
  intros Hi Hc. apply wp_reap; [apply Hi|done|]. cbv zeta.
  destruct (inv_hook _ _ _ _ _ _ _ _ _ Hi) as (_ & Ea & Ec & Ez & _). rewrite Ea. cbv [negb].
  match goal with |- wp _ ?x _ _ => set (w1 := x) end.
  assert (H1 : inv [] (quiet false None) w1).
  { by apply (inv_reaped false d true false false None w (fun x => x) (set_hook_running false)). }
  destruct (if _ =? NGX_OK then false else true).
  - eapply wp_give_up; [exact H1|]. unfold authz_left. cbn. lia.
  - eapply wp_weaken; [by apply wp_delay_start|]. by intros [] w' H.
Qed.

Lemma wp_hook_authz n complete d c w :
  completes n complete -> inv [] (hook_wait false d false false true None) w -> c <> Running ->
  (finalize_work w <= n)%nat ->
  wp (ngx_autocert_order_dns_hook_timer cf E complete c) w
    (fun _ w' => settled (finalize_work w) w') (fun _ => False).
Proof.
  intros IH Hi Hc Hn. apply wp_reap; [apply Hi|done|]. cbv zeta.
  destruct (inv_hook _ _ _ _ _ _ _ _ _ Hi) as (_ & Ea & Ec & Ez & _). rewrite Ea, Ez. cbv [negb].
  apply wp_update_order; [apply Hi|]. apply wp_update_order; [apply Hi|].
  eapply wp_go_finalize; [exact IH|exact Hdom| |done|exact Hn].
  by apply (inv_reaped false d false false true None w (set_dns_set false)
              (fun h => set_hook_after_authz false (set_hook_running false h))).
Qed.

Lemma wp_hook_cleanup complete d c rc w :
  inv [] (hook_wait true d false true false (Some rc)) w -> c <> Running ->
  wp (ngx_autocert_order_dns_hook_timer cf E complete c) w
    (fun _ w' => settled (abandoned (kg w)) w') (fun _ => False).
Proof.
  intros Hi Hc. apply wp_reap; [apply Hi|done|]. cbv zeta.
  destruct (inv_hook _ _ _ _ _ _ _ _ _ Hi) as (_ & Ea & Ec & Ez & _ & Hf). rewrite Ea, Ec, Ez. cbv [negb].
  specialize (Hf eq_refl). cbn in Hf. injection Hf as <-.
  apply wp_update_order; [apply Hi|]. apply wp_update_order; [apply Hi|].
  eapply wp_weaken; [apply wp_order_handler|].
  - by apply (inv_reaped true d false true false _ w (set_dns_set false)
                (fun h => set_hook_cleanup false (set_hook_running false h))).
  - intros [] w' [Ho Hk]. eapply settled_over; [exact Ho|]. by rewrite Hk.
Qed.

(** ** The key-generation task *)

Lemma wp_keygen_mine n complete w :
  completes n complete -> inv [] (shape_of AtKeygen) w -> (rank AtKeygen w <= S n)%nat ->
  wp (ngx_autocert_keygen_completion cf E complete) w (fun _ w' => settled (rank AtKeygen w - 1) w') (fun _ => False).
Proof.
  intros IH Hi Hn. destruct (inv_keygen _ _ _ _ _ _ _ _ _ Hi) as [Hm Hb]. cbn in Hm. specialize (Hb eq_refl).
  pose proof (inv_no_key _ _ _ _ _ _ _ _ _ Hi eq_refl) as Hk.
  apply wp_read, wp_update.
  assert (Ha : abandoned (kg w) = 0%nat) by (unfold abandoned; by rewrite Hb, Hm).
  apply wp_create_raw; intros c; rewrite Hm; cbv [negb].
  - eapply (wp_give_up _ _ _ _ _ _ false); [|unfold rank; cbn; lia].
    destruct Hi; constructor; try assumption; done.
  - apply wp_update_order; [apply Hi|]. match goal with |- wp _ ?x _ _ => set (w1 := x) end.
    assert (H1 : inv [] (quiet false None) w1).
    { destruct Hi; constructor; try assumption; try done. eapply held_new; [..|exact inv_held]; [done..|].
      unfold owned. cbn. rewrite Hk. cbn. solve_Permutation. }
    assert (Hw : (finalize_work w1 = rank AtKeygen w)%nat) by (unfold finalize_work, rank; cbn; by rewrite Ha).
    eapply wp_finish_unless_ok; [|unfold rank; cbn; lia].
    eapply wp_weaken; [eapply wp_finalize_csr; [exact IH|exact Hdom|exact H1|done|by rewrite Hw]|].
    intros rc w' H. rewrite Hw in H. by eapply accepted_mono; [..|exact H].
Qed.

(** A task left by an earlier order ends: this order is not concerned. *)
Lemma inv_task_over l s k w :
  inv l s w -> s_keygen s = false -> kg_mine k = false -> inv l s (set_kg k w).
Proof. intros Hi Hs Hk. destruct Hi; constructor; try assumption; rewrite Hs; by rewrite ?Hk. Qed.

Lemma wp_keygen_other complete s w :
  inv [] s w -> s_keygen s = false -> kg_busy (kg w) = true ->
  wp (ngx_autocert_keygen_completion cf E complete) w
    (fun _ w' => inv [] s w' /\ o_count (ord w') = o_count (ord w) /\ abandoned (kg w) = S (abandoned (kg w')))
    (fun _ => False).
Proof.
  intros Hi Hs Hb. destruct (inv_keygen _ _ _ _ _ _ _ _ _ Hi) as [Hm _]. rewrite Hs in Hm.
  apply wp_read, wp_update.
  match goal with |- wp _ ?x _ _ => set (w1 := x) end.
  assert (H1 : inv [] s w1) by (by apply inv_task_over).
  assert (Ha : abandoned (kg w) = S (abandoned (kg w1))) by (unfold abandoned; cbn; by rewrite Hb, Hm).
  eapply inv_create; [exact H1| |]; rewrite Hm; cbv [negb destroy_opt].
  - intros r H. by apply wp_ret.
  - intros p r H. unfold wp, destroy. rewrite decide_True by (eapply inv_in; [exact H|by left]).
    split; [|done]. destruct H; constructor; try assumption. by eapply held_drop; [..|exact inv_held].
Qed.
(** ** Delivering an event *)

(** The hook's child is still running: its timer is set again, nothing else. *)
Definition stutter (e : event) : bool := match e with EHookTimer Running => true | _ => false end.

Lemma wp_reply fuel s rc status headers body w :
  inv [] (shape_of s) w -> enabled w (EReply rc status headers body) = true -> (rank s w <= fuel)%nat ->
  wp (deliver cf E fuel (EReply rc status headers body)) w (fun _ w' => settled (rank s w - 1) w') (fun _ => False).
Proof.
  intros Hi He Hn. pose proof (inv_flight _ _ _ _ _ _ _ _ _ Hi) as Hf. apply wp_read.
  unfold enabled in He. destruct (inflight (rt w)) as [|h l] eqn:El; [done|]. apply wp_update.
  assert (Hs : s_flight (shape_of s) = [h_handler h] /\ l = []).
  { rewrite <- Hf. destruct s; cbn in Hf |- *; try discriminate Hf; injection Hf as -> Hl; apply fmap_nil_inv in Hl; by subst. }
  destruct Hs as [Hs ->]. match goal with |- wp _ ?x _ _ => change (rank s w) with (rank s x) end.
  apply wp_complete; [exact Hs| |exact Hn].
  destruct s; try discriminate Hs; destruct Hi; constructor; try assumption; try reflexivity;
    (eapply held_perm; [..|exact inv_held]; [done..|]; unfold owned; cbn; rewrite El; cbn; solve_Permutation).
Qed.

Lemma inv_fired_hook s dn d0 acz r e w :
  shape_of s = Shape dn (Timers false false false true d0) (Some acz) [] false PostNone e r ->
  inv [] (shape_of s) w ->
  inv [] (Shape dn (Timers false false false false d0) (Some acz) [] false PostNone e r)
    (set_ord (set_o_timers (set_dns_hook_timer false (o_timers (ord w))) (ord w)) w).
Proof.
  intros Hs Hi. rewrite Hs in Hi. destruct Hi; constructor; try assumption. cbn in *. by rewrite inv_timers.
Qed.

Lemma wp_hook_event fuel s c w :
  inv [] (shape_of s) w -> enabled w (EHookTimer c) = true -> (rank s w <= fuel)%nat ->
  wp (deliver cf E fuel (EHookTimer c)) w
    (fun _ w' => settled (if stutter (EHookTimer c) then rank s w else rank s w - 1) w') (fun _ => False).
Proof.
  intros Hi He Hn. unfold enabled in He. rewrite (inv_timers _ _ _ _ _ _ _ _ _ Hi) in He. apply wp_update.
  match goal with |- wp _ ?x _ _ => set (w1 := x) end.
  assert (Hd : c = Running \/ c <> Running) by (destruct c; [by left|by right|by right]). destruct Hd as [->|Hc].
  { unfold wp, ngx_autocert_order_dns_hook_timer, upd_timers, update_order.
    change (alive w1) with (alive w). rewrite (inv_alive _ _ _ _ _ _ _ _ _ Hi).
    eapply (settled_at _ _ _ _ _ _ s); [|done].
    destruct s; try discriminate He; destruct Hi; constructor; try assumption; cbn in *; by rewrite inv_timers. }
  assert (Hst : stutter (EHookTimer c) = false) by (by destruct c). rewrite Hst.
  destruct s; try discriminate He.
  - eapply wp_weaken; [eapply wp_hook_add; [by eapply (inv_fired_hook (AtHookAdd deadline))|done]|].
    intros [] w' H. eapply settled_mono; [exact H|]. unfold authz_left, rank. cbn. lia.
  - eapply wp_weaken; [eapply wp_hook_authz;
      [apply wp_complete|by eapply (inv_fired_hook (AtHookAuthz deadline))|done|]|].
    + etrans; [|exact Hn]. unfold finalize_work, rank. cbn. lia.
    + intros [] w' H. eapply settled_mono; [exact H|]. unfold finalize_work, rank. cbn. lia.
  - eapply wp_weaken; [eapply wp_hook_cleanup; [by eapply (inv_fired_hook (AtHookCleanup deadline rc))|done]|].
    intros [] w' H. eapply settled_mono; [exact H|]. unfold rank. cbn. lia.
Qed.

Lemma wp_deadline_event fuel s w :
  inv [] (shape_of s) w -> enabled w EDeadlineTimer = true ->
  wp (deliver cf E fuel EDeadlineTimer) w (fun _ w' => settled (rank s w - 1) w') (fun _ => False).
Proof.
  intros Hi He. unfold enabled in He. rewrite (inv_timers _ _ _ _ _ _ _ _ _ Hi) in He. apply wp_update.
  apply wp_order_; [apply Hi|].
  assert (Hrun : hook_running (o_hook (ord w)) = true).
  { pose proof (inv_hook _ _ _ _ _ _ _ _ _ Hi) as Hh. destruct s; try discriminate He; apply Hh. }
  change (o_hook (ord (set_ord _ w))) with (o_hook (ord w)). rewrite Hrun. apply wp_update_order; [apply Hi|].
  match goal with |- wp _ ?x _ _ => set (w1 := x) end. unfold wp, upd_timers, update_order.
  change (alive w1) with (alive w). rewrite (inv_alive _ _ _ _ _ _ _ _ _ Hi).
  destruct s as [| | | | |d|d|d rc|]; try discriminate He; destruct d; try discriminate He.
  - eapply (settled_at _ _ _ _ _ _ (AtHookAdd false)); [|unfold rank; cbn; lia].
    destruct Hi; constructor; try assumption. cbn in *. by rewrite inv_timers.
  - eapply (settled_at _ _ _ _ _ _ (AtHookAuthz false)); [|unfold rank; cbn; lia].
    destruct Hi; constructor; try assumption. cbn in *. by rewrite inv_timers.
  - eapply (settled_at _ _ _ _ _ _ (AtHookCleanup false rc)); [|unfold rank; cbn; lia].
    destruct Hi; constructor; try assumption. cbn in *. by rewrite inv_timers.
Qed.

Lemma wp_keygen_event fuel s w :
  inv [] (shape_of s) w -> enabled w EKeygen = true -> (rank s w <= fuel)%nat ->
  wp (deliver cf E fuel EKeygen) w (fun _ w' => settled (rank s w - 1) w') (fun _ => False).
Proof.
  intros Hi He Hn. destruct (s_keygen (shape_of s)) eqn:Ek.
  - destruct s; try discriminate Ek. eapply wp_keygen_mine; [apply wp_complete|exact Hi|lia].
  - eapply wp_weaken; [by eapply wp_keygen_other|]. intros [] w' (Hi' & Ec & Ea).
    eapply settled_at; [exact Hi'|]. unfold rank. rewrite Ec, Ea. lia.
Qed.

Lemma wp_timer_event fuel s e w :
  e = EPollTimer \/ e = EOrderTimer \/ e = EDelayTimer ->
  inv [] (shape_of s) w -> enabled w e = true -> (rank s w <= fuel)%nat ->
  wp (deliver cf E fuel e) w (fun _ w' => settled (rank s w - 1) w') (fun _ => False).
Proof.
  intros Hor Hi He Hn. pose proof (inv_timers _ _ _ _ _ _ _ _ _ Hi) as Ht.
  destruct Hor as [-> | [-> | ->]]; unfold enabled in He; rewrite Ht in He;
    destruct s; try discriminate He; apply wp_update;
    match goal with |- wp _ ?x _ _ => set (w1 := x) end.
  - eapply wp_weaken; [eapply wp_poll_timer;
      [apply wp_complete|by apply (inv_fired AtPollTimer (set_poll_timer false))|]|].
    + etrans; [|exact Hn]. unfold authz_left, rank. cbn. lia.
    + intros [] w' H. eapply settled_mono; [exact H|]. unfold authz_left, rank. cbn. lia.
  - change (rank AtOrderTimer w) with (rank AtOrderTimer w1) in *.
    eapply wp_order_timer; [apply wp_complete|by apply (inv_fired AtOrderTimer (set_order_timer false))|].
    by etrans; [exact Hn|lia].
  - eapply wp_weaken; [eapply wp_delay_timer;
      [apply wp_complete|by apply (inv_fired AtDelayTimer (set_dns_delay_timer false))|]|].
    + etrans; [|exact Hn]. unfold authz_left, rank. cbn. lia.
    + intros [] w' H. eapply settled_mono; [exact H|]. unfold authz_left, rank. cbn. lia.
Qed.

(** Once the order is gone only an abandoned task may still end. *)
Lemma wp_over_event fuel rc e w :
  over rc w -> enabled w e = true ->
  wp (deliver cf E fuel e) w
    (fun _ w' => over rc w' /\ stutter e = false /\ abandoned (kg w) = S (abandoned (kg w'))) (fun _ => False).
Proof.
  intros Ho He. pose proof (over_timers _ _ _ _ _ _ _ _ Ho) as Ht.
  destruct e; unfold enabled in He; rewrite ?Ht in He; try discriminate He.
  - pose proof (over_owned _ _ _ _ _ _ _ _ Ho) as Hw. destruct (inflight (rt w)) as [|h l] eqn:El; [done|].
    unfold owned in Hw. rewrite El in Hw.
    exfalso. apply (f_equal length) in Hw. rewrite !length_app in Hw. cbn in Hw. lia.
  - pose proof (over_keygen _ _ _ _ _ _ _ _ Ho) as Hm. apply wp_read, wp_update.
    assert (Ha : forall r, abandoned (kg w) = S (abandoned (kg (set_rt r (set_kg (set_kg_mine false (set_kg_busy false (kg w))) w))))).
    { intros r. unfold abandoned. cbn. by rewrite He, Hm. }
    apply wp_create_raw; intros c; rewrite Hm; cbv [negb destroy_opt].
    + apply wp_ret. split; [|by split; [|exact (Ha (rt w))]]. destruct Ho; constructor; done.
    + match goal with |- wp _ ?x _ _ => set (w1 := x) end.
      assert (Hh : held others [next_handle (rt w)] w1) by (eapply held_new; [..|apply Ho]; done).
      unfold wp, destroy. rewrite decide_True by by left. split; [|by split; [|exact (Ha (rt w))]].
      destruct Ho; constructor; try done. by eapply held_drop; [..|exact Hh].
Qed.

Lemma wp_deliver fuel e m w :
  settled m w -> enabled w e = true -> (m <= fuel)%nat ->
  wp (deliver cf E fuel e) w (fun _ w' => settled (if stutter e then m else m - 1) w') (fun _ => False).
Proof.
  intros [(s & Hi & Hr)|(rc & Ho & Hr)] He Hm.
  - apply (wp_weaken _ _ (fun _ w' => settled (if stutter e then rank s w else rank s w - 1) w')).
    2: { intros [] w' H. eapply settled_mono; [exact H|]. destruct (stutter e); lia. }
    assert (Hn : (rank s w <= fuel)%nat) by lia. destruct e.
    + by apply wp_reply.
    + apply wp_timer_event; [by left|done..].
    + apply wp_timer_event; [by right; left|done..].
    + apply wp_timer_event; [by right; right|done..].
    + by apply wp_hook_event.
    + by apply wp_deadline_event.
    + by apply wp_keygen_event.
  - eapply wp_weaken; [by eapply wp_over_event|]. intros [] w' (Ho' & -> & Ha).
    right. exists rc. split; [exact Ho'|]. lia.
Qed.
End Events.
