(* ===== verification/OrderRun.v ===== *)
(** * ACME orders: whole runs

    An order started from a registered account, and the events that follow, in
    any sequence that the event loop can deliver, at any times. *)

From S2P Require Import Prelude NgxCore Rbtree Shm Store Json Http Ident Challenge OrderState Account Order OrderInv OrderPost OrderEnd OrderSteps OrderReplies OrderEvents.

Local Open Scope Z_scope.
Local Open Scope prog_scope.

Section Runs.
Context {HC HA : Type} {SC : Store HC bytes} {SA : Store HA (bytes * bytes)} (cf : conf) (E : env).
Context {Bl : Blame}.
Abbreviation W := (world HC HA).
Implicit Types (w : W) (l : list nat).

(** The events that follow one another, each at its time; [Err] when one cannot
    happen. *)
Fixpoint run (fuel : nat) (es : list (Z * event)) : prog W unit :=
  match es with
  | [] => ret tt
  | (t, e) :: es =>
      update (fun w => set_rt (set_clock t (rt w)) w);;
      let! possible := read (fun w => enabled w e) in
      if possible then deliver cf E fuel e;; run fuel es else fail
  end.

(** An order is started, and if it could be, events follow. *)
Definition order_run (fuel : nat) (es : list (Z * event)) : prog W Z :=
  let! rc := ngx_autocert_order_start cf E (complete cf E fuel) in
  if rc =? NGX_OK then run fuel es;; ret NGX_OK else ret rc.

(** The things an order is waiting for. *)
Definition waits w : nat :=
  let t := o_timers (ord w) in
  (length (inflight (rt w)) + Nat.b2n (poll_timer t) + Nat.b2n (order_timer t) + Nat.b2n (dns_delay_timer t)
   + Nat.b2n (hook_running (o_hook (ord w))) + Nat.b2n (kg_mine (kg w)))%nat.

(** The number of events an order may take: the polls of the authorization and,
    twice, of the order, with the retries. *)
Definition ORDER_EVENTS : nat := 2485%nat.

(** The state the driver starts an order from: the account registered, no
    request or timer pending, the order zeroed. *)
Record ready (mc0 : gmap bytes bytes) (ma0 : gmap bytes (bytes * bytes)) w : Prop := Ready {
  ready_alive : alive w = true;
  ready_fresh : NoDup (handles (rt w)) /\ Forall (fun p => p < next_handle (rt w))%nat (handles (rt w));
  ready_held : exists others, handles (rt w) ≡ₚ account_handles (acct w) ++ others;
  ready_challenges : store_inv (challenges w) mc0;
  ready_alpns : store_inv (alpns w) ma0;
  ready_timers : o_timers (ord w) = no_timers;
  ready_flight : inflight (rt w) = [];
  ready_keygen : kg_mine (kg w) = false;
  ready_issue : order_pool (o_issue (ord w)) = None /\ cert_key (o_issue (ord w)) = None;
  ready_post : post_pool (post (acct w)) = None /\ post_fail_pool (post (acct w)) = None;
  ready_log : stored (wlog w) = [] /\ results (wlog w) = [];
  ready_key : is_Some (acct_key (acct w)) }.

Section Lemmas.
Context (others : list nat) (mc0 : gmap bytes bytes) (ma0 : gmap bytes (bytes * bytes)) (mask0 : bool).
Abbreviation inv := (inv cf E others mc0 ma0 mask0).
Abbreviation over := (over cf E others mc0 ma0 mask0).
Abbreviation settled := (settled cf E others mc0 ma0 mask0).

Lemma settled_clock m t w : settled m w -> settled m (set_rt (set_clock t (rt w)) w).
Proof.
  intros [(s & Hi & Hr)|(rc & Ho & Hr)].
  - left. exists s. split; [|exact Hr]. destruct Hi; constructor; assumption.
  - right. exists rc. split; [|exact Hr]. destruct Ho; constructor; assumption.
Qed.

Lemma inv_waits s w : inv [] (shape_of s) w -> waits w = 1%nat.
Proof.
  intros Hi. unfold waits. rewrite (inv_timers _ _ _ _ _ _ _ _ _ Hi).
  destruct (inv_keygen _ _ _ _ _ _ _ _ _ Hi) as [Hk _]. rewrite Hk.
  rewrite <- (length_fmap h_handler), (inv_flight _ _ _ _ _ _ _ _ _ Hi).
  pose proof (inv_hook _ _ _ _ _ _ _ _ _ Hi) as Hh.
  destruct s as [|? ? []| | | | | | |]; cbn in *; destruct Hh as [-> _]; reflexivity.
Qed.

(** Something can happen to an order that is not over. *)
Lemma inv_enabled s w : inv [] (shape_of s) w -> exists e, enabled w e = true /\ stutter e = false.
Proof.
  intros Hi. pose proof (inv_timers _ _ _ _ _ _ _ _ _ Hi) as Ht. pose proof (inv_flight _ _ _ _ _ _ _ _ _ Hi) as Hf.
  destruct (inv_keygen _ _ _ _ _ _ _ _ _ Hi) as [_ Hk].
  assert (Hreply : s_flight (shape_of s) <> [] -> enabled w (EReply NGX_OK 200 [] []) = true).
  { intros H. unfold enabled. destruct (inflight (rt w)); [|done]. cbn in Hf. by rewrite <- Hf in H. }
  destruct s.
  - exists (EReply NGX_OK 200 [] []). by split; [apply Hreply|].
  - exists (EReply NGX_OK 200 [] []). by split; [apply Hreply|].
  - exists EPollTimer. unfold enabled. by rewrite Ht.
  - exists EOrderTimer. unfold enabled. by rewrite Ht.
  - exists EDelayTimer. unfold enabled. by rewrite Ht.
  - exists (EHookTimer WaitError). unfold enabled. by rewrite Ht.
  - exists (EHookTimer WaitError). unfold enabled. by rewrite Ht.
  - exists (EHookTimer WaitError). unfold enabled. by rewrite Ht.
  - exists EKeygen. unfold enabled. by rewrite Hk.
Qed.

Lemma over_waits rc w : over rc w -> waits w = 0%nat.
Proof.
  intros Ho. unfold waits. rewrite (over_timers _ _ _ _ _ _ _ _ Ho), (over_keygen _ _ _ _ _ _ _ _ Ho).
  destruct (over_hook _ _ _ _ _ _ _ _ Ho) as [-> _]. pose proof (over_owned _ _ _ _ _ _ _ _ Ho) as Hw.
  unfold owned in Hw. apply (f_equal length) in Hw. rewrite !length_app, length_fmap in Hw. cbn. lia.
Qed.

(** The effective events are counted down. *)
Lemma wp_runs fuel es m w (Hdom : domain cf <> []) (Hbl : blames (HC := HC) (HA := HA) cf E) :
  settled m w -> (m <= fuel)%nat ->
  wp (run fuel es) w
    (fun _ w' => exists m', settled m' w' /\ (m' + length (filter (fun e => stutter e = false) es.*2) <= m)%nat)
    (fun _ => True).
Proof.
  revert m w. induction es as [|[t e] es IHes]; intros m w Hs Hm; cbn [run].
  { apply wp_ret. exists m. split; [done|]. cbn. lia. }
  apply wp_update, wp_read. match goal with |- wp _ ?x _ _ => set (w1 := x) end.
  assert (H1 : settled m w1) by (by apply settled_clock).
  destruct (enabled w1 e) eqn:He; [|by apply wp_fail].
  apply wp_bind. eapply wp_mono; [by eapply wp_deliver| |done].
  intros [] w2 H2.
  assert (Hpos : stutter e = false -> (m <> 0)%nat).
  { intros Hst ->. destruct H1 as [(s & Hi & Hr)|(rc & Ho & Hr)].
    - destruct s; unfold rank in Hr; cbn in Hr; try lia. destruct retried, renonce; lia.
    - pose proof (wp_over_event (Bl := False) cf E others mc0 ma0 mask0 fuel rc e w1 Ho He) as Hw. unfold wp in Hw.
      destruct (deliver cf E fuel e w1); try done. lia. }
  eapply wp_mono; [apply (IHes (if stutter e then m else m - 1)%nat w2); [exact H2|destruct (stutter e); lia]| |done].
  intros [] w3 (m' & H3 & Hl). exists m'. split; [exact H3|]. rewrite fmap_cons. cbn [snd].
  destruct (stutter e) eqn:Est.
  - rewrite filter_cons_False by (by rewrite Est). lia.
  - rewrite filter_cons_True by done. specialize (Hpos eq_refl). cbn [length]. lia.
Qed.

(** ** Starting *)

(** What the account's request needs of the state while it is being made. *)
Lemma wp_account_start n complete w method url body :
  completes cf E others mc0 ma0 mask0 n complete ->
  inv [] (quiet true None) w -> (rank AtDirectory w <= n)%nat ->
  wp (ngx_autocert_account_start E complete method url body order_directory_done) w
    (fun rc w' => rc = NGX_OK /\ settled (rank AtDirectory w) w'
                  \/ rc = NGX_ERROR /\ inv [] (quiet true None) w' /\ frame w w') (fun _ => False).
Proof.
  intros IH Hi Hn.
  eapply inv_create; [exact Hi|intros r H; apply wp_ret; by right|]. intros p r1 H1.
  eapply inv_pnalloc; [exact H1|by left|]. intros [|] r2 H2; cbv [negb].
  2: { eapply inv_destroy; [exact H2|]. intros r3 H3. apply wp_ret. by right. }
  apply wp_bind. eapply wp_weaken;
    [eapply (wp_acme_request _ _ _ _ _ _ n complete IH AtDirectory); [done|exact H2|exact Hn]|].
  intros rc w' [(-> & [[H Hf]|[_ H]])|(-> & H & Hf)]; cbv [NGX_OK NGX_ERROR Z.eqb negb].
  - apply wp_ret. left. split; [done|]. eapply settled_at; [exact H|]. by rewrite (frame_rank _ _ _ Hf).
  - apply wp_ret. left. split; [done|]. eapply settled_mono; [exact H|]. cbn. lia.
  - eapply inv_destroy; [exact H|]. intros r3 H3. apply wp_ret. by right.
Qed.
End Lemmas.

(** The state in which the order has its pool, and that it goes back to. *)
Lemma ready_inv mc0 ma0 others w :
  ready mc0 ma0 w -> handles (rt w) ≡ₚ account_handles (acct w) ++ others ->
  hook_running (o_hook (ord w)) = false -> hook_cleanup (o_hook (ord w)) = false ->
  hook_after_authz (o_hook (ord w)) = false -> done (ord w) = false ->
  challenge_set (o_chal (ord w)) = false -> alpn_set (o_chal (ord w)) = false -> dns_set (o_chal (ord w)) = false ->
  forall n, let p := next_handle (rt w) in
  inv cf E others mc0 ma0 (sigchld_blocked (rt w)) [] (quiet true None)
    (set_ord (set_o_issue (set_order_pool (Some p) (o_issue (ord w))) (ord w))
       (set_rt (set_handles (p :: handles (rt w)) (set_next_handle (S p) (set_calls_made n (rt w)))) w)).
Proof.
  intros Hr Ho Hh1 Hh2 Hh3 Hd Hc Ha Hdn n p. destruct Hr.
  destruct ready_issue0 as [Hi1 Hi2], ready_post0 as [Hp1 Hp2], ready_log0 as [Hl1 Hl2].
  constructor; cbn; try done.
  - assert (Hheld : held others [] w).
    { split; [|exact ready_fresh0]. unfold owned. by rewrite Hi1, Hi2, Hp1, Hp2, ready_flight0. }
    eapply held_new; [..|exact Hheld]; [done..|]. unfold owned. cbn. by rewrite Hi1.
  - split; [exists mc0; by split; [|apply kept_refl]|]. split; [exists ma0; by split; [|apply kept_refl]|].
    cbn. by rewrite Hc, Ha.
  - by rewrite ready_flight0.
Qed.

Lemma inv_ready mc0 ma0 others mask0 p w :
  inv cf E others mc0 ma0 mask0 [] (quiet true None) w -> order_pool (o_issue (ord w)) = Some p ->
  cert_key (o_issue (ord w)) = None ->
  let w' := set_ord (set_o_issue (set_order_pool None (o_issue (ord w))) (ord w))
              (set_rt (set_handles (filter (fun q => q <> p) (handles (rt w))) (rt w)) w) in
  ready mc0 ma0 w' /\ handles (rt w') ≡ₚ account_handles (acct w') ++ others.
Proof.
  intros Hi Hp Hk w'. destruct (early_stores _ _ _ _ _ _ _ _ Hi) as (_ & _ & Hc & Ha).
  destruct (inv_post _ _ _ _ _ _ _ _ _ Hi) as [Hp1 Hp2].
  pose proof (inv_flight _ _ _ _ _ _ _ _ _ Hi) as Hf. apply fmap_nil_inv in Hf.
  assert (Hheld : held others [] w').
  { eapply held_drop; [..|apply Hi]; [done..|]. unfold owned. cbn. rewrite Hp. cbn. solve_Permutation. }
  assert (Ho : owned w' = account_handles (acct w')).
  { unfold owned. cbn. by rewrite Hk, Hp1, Hp2, Hf. }
  destruct Hheld as (Hh & Hn). rewrite Ho in Hh. split; [|exact Hh]. destruct Hi. constructor; try done.
  - by exists others.
  - apply inv_keygen.
Qed.

Lemma ready_set_order mc0 ma0 o w :
  ready mc0 ma0 w -> o_timers o = o_timers (ord w) -> o_issue o = o_issue (ord w) -> ready mc0 ma0 (set_ord o w).
Proof. intros Hr Ht Hi. destruct Hr. constructor; cbn; rewrite ?Ht, ?Hi; try done. Qed.

Lemma ready_set_rt mc0 ma0 n w : ready mc0 ma0 w -> ready mc0 ma0 (set_rt (set_calls_made n (rt w)) w).
Proof. intros Hr. destruct Hr. by constructor. Qed.

(** Started, or refused and as before. *)
Definition started (mc0 : gmap bytes bytes) (ma0 : gmap bytes (bytes * bytes)) (others : list nat) (mask0 : bool)
    (rc : Z) w : Prop :=
  rc = NGX_OK /\ domain cf <> [] /\ settled cf E others mc0 ma0 mask0 ORDER_EVENTS w
  \/ rc = NGX_ERROR /\ ready mc0 ma0 w /\ handles (rt w) ≡ₚ account_handles (acct w) ++ others.

Lemma wp_order_start fuel mc0 ma0 others w
    (Hbl : blames (HC := HC) (HA := HA) cf E) (Hfuel : (ORDER_EVENTS <= fuel)%nat) :
  ready mc0 ma0 w -> handles (rt w) ≡ₚ account_handles (acct w) ++ others ->
  wp (ngx_autocert_order_start cf E (complete cf E fuel)) w
    (started mc0 ma0 others (sigchld_blocked (rt w))) (fun _ => False).
Proof.
  intros Hr Ho. apply wp_update_order; [apply Hr|]. match goal with |- wp _ ?x _ _ => set (w1 := x) end.
  assert (H1 : ready mc0 ma0 w1) by (by apply ready_set_order). apply wp_account_.
  assert (Hback : forall w', ready mc0 ma0 w' -> handles (rt w') ≡ₚ account_handles (acct w') ++ others ->
    started mc0 ma0 others (sigchld_blocked (rt w)) NGX_ERROR w') by (intros w' ? ?; by right).
  destruct (_ || _)%bool eqn:Ed; [by apply wp_ret, Hback|].
  assert (Hdom : domain cf <> []) by (intros H; rewrite H, orb_true_r in Ed; done). clear Ed.
  destruct (negb _); [by apply wp_ret, Hback|].
  apply wp_create_raw; intros n; (apply wp_update_order; [apply Hr|]).
  { apply wp_ret, Hback; [|done]. apply ready_set_order; [by apply ready_set_rt|done|].
    destruct (ready_issue _ _ _ H1) as [Hp _]. cbn in *. by destruct (o_issue (ord w)); cbn in *; subst. }
  match goal with |- wp _ ?x _ _ => set (w2 := x) end.
  assert (H2 : inv cf E others mc0 ma0 (sigchld_blocked (rt w)) [] (quiet true None) w2)
    by exact (ready_inv _ _ _ w1 H1 Ho eq_refl eq_refl eq_refl eq_refl eq_refl eq_refl eq_refl n).
  assert (Hrank : (rank AtDirectory w2 <= ORDER_EVENTS)%nat).
  { unfold rank, abandoned. cbn [stage_rank]. unfold order_work, authz_work, ORDER_EVENTS. cbn.
    destruct (_ && _); lia. }
  assert (Hpool : order_pool (o_issue (ord w2)) = Some (next_handle (rt w)) /\ cert_key (o_issue (ord w2)) = None).
  { split; [done|]. by destruct (ready_issue _ _ _ H1). }
  assert (Hmask : sigchld_blocked (rt w2) = sigchld_blocked (rt w)) by done. clearbody w2.
  apply wp_bind. eapply wp_weaken; [eapply wp_account_start; [by apply wp_complete|exact H2|lia]|].
  intros rc w3 [(-> & H3)|(-> & H3 & Hf)]; cbv [NGX_OK NGX_ERROR Z.eqb negb].
  - apply wp_ret. left. split; [done|]. split; [done|]. by eapply settled_mono.
  - destruct Hpool as [Hp Hk]. destruct Hf as [Eo _]. rewrite <- Eo in Hp, Hk.
    eapply wp_destroy; [eapply inv_in; [exact H3|]; unfold owned; rewrite Hp; set_solver|].
    apply wp_update_order; [apply H3|]. apply wp_ret.
    destruct (inv_ready _ _ _ _ _ w3 H3 Hp Hk) as [Hr3 Ho3]. apply Hback; [exact Hr3|exact Ho3].
Qed.

(** A whole run: the order was refused, or what is left of its events is counted. *)
Lemma wp_order_run fuel es mc0 ma0 others w
    (Hbl : blames (HC := HC) (HA := HA) cf E) (Hfuel : (ORDER_EVENTS <= fuel)%nat) :
  ready mc0 ma0 w -> handles (rt w) ≡ₚ account_handles (acct w) ++ others ->
  wp (order_run fuel es) w
    (fun rc w' =>
       rc = NGX_OK /\ (exists m, settled cf E others mc0 ma0 (sigchld_blocked (rt w)) m w'
         /\ (m + length (filter (fun e => stutter e = false) es.*2) <= ORDER_EVENTS)%nat)
       \/ rc = NGX_ERROR /\ ready mc0 ma0 w' /\ handles (rt w') ≡ₚ account_handles (acct w') ++ others)
    (fun _ => True).
Proof.
  intros Hr Ho. apply wp_bind. eapply wp_mono; [by apply wp_order_start| |done].
  intros rc w1 [(-> & Hdom & Hs)|(-> & H1 & H2)]; cbv [NGX_OK NGX_ERROR Z.eqb].
  - apply wp_bind. eapply wp_mono; [by eapply wp_runs| |done].
    intros [] w2 H2. apply wp_ret. by left.
  - apply wp_ret. by right.
Qed.
End Runs.
