(* ===== verification/OrderThms.v ===== *)
(** * ACME orders: what they promise

    Each theorem is about a whole run of an order, with any replies, at any
    times, whatever fails; its witness is the run of an example order. *)

From S2P Require Import Prelude NgxCore Rbtree Shm Store Json Http Ident Challenge ChallengeThms Alpn AlpnThms OrderState Account Order OrderInv OrderPost OrderEnd OrderSteps OrderReplies OrderEvents OrderRun.

Local Open Scope Z_scope.
Local Open Scope prog_scope.

(** ** An example *)

(** JSON text, with apostrophes for quotation marks. *)
Definition js (s : string) : bytes := map (fun c => if c =? 39 then 34 else c) (str s).

Definition conf_ex : conf :=
  Conf (str "https://ca/dir") (str "a.example") [] NGX_AUTOCERT_CHALLENGE_HTTP_01 true false [] [] true [] [] [].

(** An environment where no call fails, with the given network. *)
Definition env_ex (net : nat -> option post_handler_pt -> verdict) : env :=
  Env (fun _ => true) net (fun _ _ => false) (fun _ => INADDR_NONE) (fun _ => None) (fun _ => None)
    (fun _ => Some (str "ES384")) (fun _ => str "{}") (fun _ => str "thumb") (fun _ p _ => p) (fun _ m => m)
    (fun b => b) (fun b => Some b) (fun b => take 43 (b ++ replicate 43 65)) (fun n => [Z.of_nat n])
    (fun n => [Z.of_nat n]) (fun _ d => d) (fun _ _ => true).

(** Every request stays in flight until its reply. *)
Definition waiting_net : nat -> option post_handler_pt -> verdict := fun _ _ => InFlight.

#[local] Existing Instance plain_trees.
Definition challenges_ex : Store challenge_sh bytes := challenge_store (fun _ => 0) (fun _ => false) 0.
Definition alpns_ex : Store alpn_sh (bytes * bytes) := alpn_store (fun _ => 0) (fun _ => false) 0.
#[local] Existing Instance challenges_ex.
#[local] Existing Instance alpns_ex.

(** A store just created. *)
Definition fresh_zone {H V} (S : Store H V) : zone H :=
  let z := Zone (Slab 5 ∅ [] 0) false None in
  match store_init z with Ret _ z' => z' | _ => z end.

Definition world_ex : world challenge_sh alpn_sh :=
  World _ _
    (Runtime [0%nat; 1%nat] 2 0 [] false 1000)
    (Account (str "kid1") (Some 0%nat) (str "https://ca/nonce") (str "https://ca/acct") (str "n0") None
       (PostState None [] [] None false None None) (Some 1%nat) false true [0])
    (Order (Urls [] [] [] [] [] []) (ChallengeState [] [] [] false false false) (Counters 0 0 false false)
       no_timers (HookState false false false false false false 0) (IssueState None None [] []) false 0)
    true (Keygen false false false) (fresh_zone challenges_ex) (fresh_zone alpns_ex) (Log [] [] 0 []).

Definition reply_headers : list (bytes * bytes) :=
  [(str "Replay-Nonce", str "n1"); (str "Location", str "https://ca/o/1")].

(** Each event one second after the one before. *)
Fixpoint timed (t : Z) (es : list event) : list (Z * event) :=
  match es with [] => [] | e :: es => (t, e) :: timed (t + 1) es end.

(** An order that gets its certificate, with one nonce refused on the way. *)
Definition events_ex : list (Z * event) := timed 1001
  [EReply NGX_OK 200 [] (js "{'newOrder':'https://ca/new'}");
   EReply NGX_OK 201 reply_headers (js "{'finalize':'https://ca/fin','authorizations':['https://ca/az']}");
   EReply NGX_OK 200 reply_headers
     (js "{'status':'pending','challenges':[{'type':'dns-01'},{'type':'http-01','status':'pending','token':'tok_1','url':'https://ca/ch'}]}");
   EReply NGX_OK 200 reply_headers (js "{}"); EPollTimer;
   EReply NGX_OK 400 reply_headers (js "{'type':'x:badNonce'}");
   EReply NGX_OK 200 reply_headers []; EReply NGX_OK 200 reply_headers (js "{'status':'valid'}");
   EReply NGX_OK 200 reply_headers (js "{}"); EOrderTimer;
   EReply NGX_OK 200 reply_headers (js "{'status':'valid','certificate':'https://ca/cert'}");
   EReply NGX_OK 200 reply_headers (js "PEM")].

Lemma waiting_net_waits k : ~ may_inline (env_ex waiting_net) k.
Proof. by intros (n & rc & st & hs & b & H). Qed.

Lemma fresh_zone_inv {H V} (S : Store H V) :
  (exists z, store_init (Zone (Slab 5 ∅ [] 0) false None) = Ret NGX_OK z) -> store_inv (fresh_zone S) ∅.
Proof.
  intros [z Hz]. unfold fresh_zone. pose proof (store_init_fresh 5 [] 0) as Hw. unfold wp in Hw.
  rewrite Hz in *. by destruct Hw as [[_ Hw]|[? _]].
Qed.

Lemma world_ex_ready : ready ∅ ∅ world_ex.
Proof.
  constructor; try done.
  - split; [|by repeat constructor]. apply NoDup_cons. split; [set_solver|]. apply NoDup_singleton.
  - by exists [].
  - apply fresh_zone_inv. eexists. vm_compute. reflexivity.
  - apply fresh_zone_inv. eexists. vm_compute. reflexivity.
Qed.

Definition is_ret {S A} (o : outcome S A) (P : A -> S -> bool) : bool :=
  match o with Ret a s => P a s | _ => false end.

(** The example order ends with a certificate. *)
Example events_ex_succeed :
  is_ret (order_run conf_ex (env_ex waiting_net) ORDER_EVENTS events_ex world_ex)
    (fun rc w => (rc =? NGX_OK) && negb (alive w) && bool_decide (results (wlog w) = [NGX_OK])
                 && (length (stored (wlog w)) =? 1)%nat) = true.
Proof. vm_compute. reflexivity. Qed.

(** ** Runs *)

(** What the order can be freed in: the POST for the new order, when the network completes it in the call that makes it
    and its reply ends the order. *)
Definition freed_in_new_order {HC HA} {SC : Store HC bytes} {SA : Store HA (bytes * bytes)} (cf : conf) (E : env) : Prop :=
  may_inline E (Some order_new_order_done) /\ exists fuel, ended_in_post (HC := HC) (HA := HA) E (complete cf E fuel).

Section Whole.
Context {HC HA : Type} {SC : Store HC bytes} {SA : Store HA (bytes * bytes)} (cf : conf) (E : env).
Context (fuel : nat) (Hfuel : (ORDER_EVENTS <= fuel)%nat).
Implicit Types (w : world HC HA).
#[local] Instance freed_blamed : Blame := freed_in_new_order (HC := HC) (HA := HA) cf E.

Lemma freed_blames : blames (HC := HC) (HA := HA) cf E.
Proof. intros Hm He. by split. Qed.


(** C5. An order ends, whatever the CA answers: a sequence of events of its run has at most 2,485 of them, not counting
    the ticks of the hook timer that find the hook still running, which go on while it does. *)
Theorem order_terminates es mc0 ma0 w0 rc w :
  ready mc0 ma0 w0 -> order_run cf E fuel es w0 = Ret rc w -> rc = NGX_OK ->
  (length (filter (fun e => stutter e = false) es.*2) <= ORDER_EVENTS)%nat.
Proof.
  intros Hr Hrun ->. destruct (ready_held _ _ _ Hr) as [others Ho].
  pose proof (wp_order_run cf E fuel es mc0 ma0 others w0 freed_blames Hfuel Hr Ho) as Hw. unfold wp in Hw.
  rewrite Hrun in Hw. destruct Hw as [(_ & m & _ & Hl)|(? & _)]; [lia|done].
Qed.

(** An order that is refused leaves everything as it was: the driver may start
    it again. *)
Theorem order_refused es mc0 ma0 others w0 rc w :
  ready mc0 ma0 w0 -> handles (rt w0) ≡ₚ account_handles (acct w0) ++ others ->
  order_run cf E fuel es w0 = Ret rc w -> rc <> NGX_OK ->
  ready mc0 ma0 w /\ handles (rt w) ≡ₚ account_handles (acct w) ++ others.
Proof.
  intros Hr Ho Hrun Hrc. pose proof (wp_order_run cf E fuel es mc0 ma0 others w0 freed_blames Hfuel Hr Ho) as Hw.
  unfold wp in Hw. rewrite Hrun in Hw. by destruct Hw as [(? & _)|(_ & ? & ?)].
Qed.
End Whole.

Section Theorems.
Context {HC HA : Type} {SC : Store HC bytes} {SA : Store HA (bytes * bytes)} (cf : conf) (E : env).
Context (Hnet : ~ may_inline E (Some order_new_order_done)).
Context (fuel : nat) (Hfuel : (ORDER_EVENTS <= fuel)%nat).
Implicit Types (w : world HC HA).

Lemma never_blamed : blames (Bl := False) (HC := HC) (HA := HA) cf E.
Proof. by intros Hm _. Qed.

(** C3. The driver is told the outcome exactly once, at the end, and it is told of
    success exactly when one certificate, found valid, has been stored. *)
Theorem order_reports_once es mc0 ma0 w0 :
  ready mc0 ma0 w0 ->
  wp (order_run cf E fuel es) w0
    (fun rc w => rc = NGX_OK ->
       if alive w then results (wlog w) = []
       else (exists pem chain, results (wlog w) = [NGX_OK] /\ stored (wlog w) = [(pem, chain)]
                               /\ validate_cert E pem chain = true)
            \/ results (wlog w) = [NGX_ERROR] /\ stored (wlog w) = [])
    (fun _ => True).
Proof.
  intros Hr. destruct (ready_held _ _ _ Hr) as [others Ho].
  eapply wp_mono; [eapply wp_order_run; [exact never_blamed|done..]| |done].
  intros rc w [(-> & m & [(s & Hi & _)|(r & Hov & _)] & _)|(-> & _)] Hrc; [..|done].
  - rewrite (inv_alive _ _ _ _ _ _ _ _ _ Hi). apply Hi.
  - rewrite (over_alive _ _ _ _ _ _ _ _ Hov), (over_results _ _ _ _ _ _ _ _ Hov).
    destruct (over_outcome _ _ _ _ _ _ _ _ Hov) as [(-> & pem & chain & ? & ?)|[-> ?]]; [left|by right].
    by exists pem, chain.
Qed.

(** C4. An order that is over has released all it held (pools, keys, requests) and
    withdrawn all it published: of the two stores only the order's own entry can
    have changed, and none is there that was not before.  SIGCHLD is blocked or
    not as it was. *)
Theorem order_leaves_nothing es mc0 ma0 others w0 :
  ready mc0 ma0 w0 -> handles (rt w0) ≡ₚ account_handles (acct w0) ++ others ->
  wp (order_run cf E fuel es) w0
    (fun rc w => alive w = false ->
       handles (rt w) ≡ₚ account_handles (acct w) ++ others
       /\ sigchld_blocked (rt w) = sigchld_blocked (rt w0)
       /\ (exists mc, store_inv (challenges w) mc /\ kept false (token (o_chal (ord w))) mc mc0)
       /\ (exists ma, store_inv (alpns w) ma /\ kept false (domain cf) ma ma0))
    (fun _ => True).
Proof.
  intros Hr Ho. eapply wp_mono; [eapply wp_order_run; [exact never_blamed|done..]| |done].
  intros rc w [(-> & m & [(s & Hi & _)|(r & Hov & _)] & _)|(-> & Hw & _)] Ha.
  - by rewrite (inv_alive _ _ _ _ _ _ _ _ _ Hi) in Ha.
  - destruct (over_published _ _ _ _ _ _ _ _ Hov) as (mc & ma & ? & ? & ? & ?).
    destruct (over_held _ _ _ _ _ _ _ _ Hov) as [Hh _]. rewrite (over_owned _ _ _ _ _ _ _ _ Hov) in Hh.
    split_and!; [exact Hh|apply Hov|by exists mc|by exists ma].
  - by rewrite (ready_alive _ _ _ Hw) in Ha.
Qed.

End Theorems.


Lemma order_reports_once_witness :
  wp (order_run conf_ex (env_ex waiting_net) ORDER_EVENTS events_ex) world_ex
    (fun rc w => rc = NGX_OK ->
       if alive w then results (wlog w) = []
       else (exists pem chain, results (wlog w) = [NGX_OK] /\ stored (wlog w) = [(pem, chain)]
                               /\ validate_cert (env_ex waiting_net) pem chain = true)
            \/ results (wlog w) = [NGX_ERROR] /\ stored (wlog w) = [])
    (fun _ => True).
Proof. apply (order_reports_once _ _ (waiting_net_waits _) _ (le_n _) _ ∅ ∅), world_ex_ready. Defined.

Lemma order_leaves_nothing_witness :
  wp (order_run conf_ex (env_ex waiting_net) ORDER_EVENTS events_ex) world_ex
    (fun rc w => alive w = false ->
       handles (rt w) ≡ₚ account_handles (acct w) ++ []
       /\ sigchld_blocked (rt w) = sigchld_blocked (rt world_ex)
       /\ (exists mc, store_inv (challenges w) mc /\ kept false (token (o_chal (ord w))) mc ∅)
       /\ (exists ma, store_inv (alpns w) ma /\ kept false (domain conf_ex) ma ∅))
    (fun _ => True).
Proof. apply (order_leaves_nothing _ _ (waiting_net_waits _) _ (le_n _)); [apply world_ex_ready|done]. Defined.

Lemma order_terminates_witness :
  (length (filter (fun e => stutter e = false) events_ex.*2) <= ORDER_EVENTS)%nat.
Proof.
  destruct (order_run conf_ex (env_ex waiting_net) ORDER_EVENTS events_ex world_ex) as [rc w| | |] eqn:Er;
    [|pose proof events_ex_succeed as H; rewrite Er in H; discriminate H..].
  apply (order_terminates _ _ _ (le_n _) _ _ _ _ _ _ world_ex_ready Er).
  pose proof events_ex_succeed as H. rewrite Er in H. cbn in H. apply andb_true_iff in H as [H _].
  apply andb_true_iff in H as [H _]. apply andb_true_iff in H as [H _]. by apply Z.eqb_eq.
Defined.

(** A network where no request can be made. *)
Definition refusing_net : nat -> option post_handler_pt -> verdict := fun _ _ => Refused.

Lemma order_refused_witness :
  exists w, order_run conf_ex (env_ex refusing_net) ORDER_EVENTS [] world_ex = Ret NGX_ERROR w
            /\ ready ∅ ∅ w /\ handles (rt w) ≡ₚ account_handles (acct w) ++ [].
Proof.
  destruct (order_run conf_ex (env_ex refusing_net) ORDER_EVENTS [] world_ex) as [rc w| | |] eqn:Er;
    [|vm_compute in Er; discriminate Er..].
  assert (Hrc : rc = NGX_ERROR) by (vm_compute in Er; injection Er as <- _; reflexivity). exists w. rewrite Hrc in *. split; [done|].
  apply (order_refused conf_ex (env_ex refusing_net) _ (le_n _) [] ∅ ∅ [] world_ex NGX_ERROR w world_ex_ready); done.
Defined.

(** A network that fails the newOrder POST while it is being made, as a cached
    address whose connect is refused at once does. *)
Definition failing_net : nat -> option post_handler_pt -> verdict := fun _ k =>
  match k with Some order_new_order_done => Inline NGX_ERROR 0 [] [] | _ => InFlight end.

(** That happens: when the reply is handled before the POST returns, and fails the
    order, [ngx_autocert_order_new_order] goes on to read the order that
    [ngx_autocert_order_complete] has freed. *)
Theorem order_inline_new_order_faults :
  order_run conf_ex (env_ex failing_net) ORDER_EVENTS (take 1 events_ex) world_ex = Fault.
Proof. vm_compute. reflexivity. Qed.

(** ** Rate limits *)

(** What a decimal [Retry-After] says, when it fits an [ngx_int_t]. *)
Definition delta_seconds (v : bytes) : Prop :=
  v <> [] /\ forallb is_digit v = true /\ dec_val v <= NGX_MAX_INT_T_VALUE.

Lemma atoi_seconds v : delta_seconds v -> ngx_atoi v = dec_val v.
Proof.
  intros (Hn & Hd & Hm). rewrite atoi_spec, Hd. destruct v; [done|].
  destruct (Z.leb_spec (dec_val (z :: v)) NGX_MAX_INT_T_VALUE); [done|lia].
Qed.

Lemma atoi_range v : ngx_atoi v = NGX_ERROR \/ 0 <= ngx_atoi v.
Proof.
  rewrite atoi_spec. destruct (_ && _) eqn:E; [right|by left]. apply andb_true_iff in E as [E _].
  apply andb_true_iff in E as [_ E]. by apply (dec_acc_mono 0).
Qed.

(** Only a reply of status 429 sets a hold.  It then always does, for no more
    than a day, and for the number of seconds asked when it is a number. *)
Theorem retry_after_bounds parse_time now status ra :
  match retry_after_of parse_time now status ra with
  | Some t => status = 429 /\ now <= t <= now + RETRY_AFTER_MAX
              /\ (forall v, ra = Some v -> delta_seconds v -> t = now + Z.min (dec_val v) RETRY_AFTER_MAX)
  | None => status <> 429
  end.
Proof.
  unfold retry_after_of. destruct (Z.eqb_spec status 429) as [->|]; cbv [negb]; [|done].
  assert (Hsec : forall v, delta_seconds v -> ngx_atoi v =? NGX_ERROR = false).
  { intros v Hv. rewrite (atoi_seconds v Hv). destruct Hv as (_ & Hd & _). pose proof (dec_acc_mono 0 v ltac:(lia) Hd).
    apply Z.eqb_neq. unfold dec_val, NGX_ERROR. lia. }
  destruct ra as [v|]; [|split; [done|]; unfold RETRY_AFTER_MAX; split; [lia|by intros ? [=]]].
  destruct (ngx_atoi v =? NGX_ERROR) eqn:Ea; cbv [negb].
  - assert (Hno : forall t v', Some v = Some v' -> delta_seconds v' -> t = now + Z.min (dec_val v') RETRY_AFTER_MAX).
    { intros t v' [= <-] Hv. by rewrite (Hsec v Hv) in Ea. }
    destruct (parse_time v) as [t|]; [destruct (Z.ltb_spec now t)|]; (split; [done|]; split; [|by apply Hno]).
    + destruct (Z.ltb_spec RETRY_AFTER_MAX (t - now)); unfold RETRY_AFTER_MAX in *; lia.
    + unfold RETRY_AFTER_MAX. lia.
    + unfold RETRY_AFTER_MAX. lia.
  - apply Z.eqb_neq in Ea. destruct (atoi_range v) as [|Hr]; [done|].
    destruct (Z.ltb_spec RETRY_AFTER_MAX (ngx_atoi v)) as [Hlt|Hle]; (split; [done|]; split;
      [unfold RETRY_AFTER_MAX in *; lia|]); intros v' [= <-] Hv; rewrite (atoi_seconds v Hv) in *;
      unfold RETRY_AFTER_MAX in *; lia.
Qed.
