(* ===== verification/OrderJson.v ===== *)
(** * What the account and the orders put into JSON

    The texts built by concatenation are JSON documents with the members meant,
    whatever the strings put into them, so long as the code's own checks let
    those pass. *)

From S2P Require Import Prelude NgxCore Json JsonSpec JsonSound JsonComplete JsonThms Ident OrderState Account Order OrderThms.

Local Open Scope Z_scope.
Local Open Scope prog_scope.

Abbreviation json_safe := ngx_autocert_account_json_safe.

Lemma json_safe_jchars s : json_safe s = true -> jchars s s.
Proof.
  unfold json_safe. induction s as [|c s IH]; [constructor|]. cbn [forallb]. intros H.
  apply andb_true_iff in H as [Hc Hs]. reflect_bools. apply jc_plain; [lia..|by apply IH].
Qed.

(** The members of an object, up to its closing brace. *)
Definition members_text (n : nat) (ms : list (bytes * json)) (text : bytes) : Prop :=
  exists body, text = body ++ str "}" /\ jmembers n ms body.

Lemma object_text n ms text : members_text n ms text -> jval (S n) (JObject ms) (str "{" ++ text).
Proof. intros (body & -> & H). by apply (jv_object n ms body). Qed.

Lemma member_last n k v b :
  json_safe k = true -> jval n v b -> members_text n [(k, v)] (qq ++ k ++ qq ++ str ":" ++ b ++ str "}").
Proof.
  intros Hk Hv. exists (qq ++ k ++ qq ++ str ":" ++ b). split; [by rewrite <- !app_assoc|].
  pose proof (jm_last n [] k k [] [] v b [] ltac:(constructor) (json_safe_jchars k Hk) ltac:(constructor)
    ltac:(constructor) Hv ltac:(constructor)) as H. cbn in H. by rewrite app_nil_r in H.
Qed.

Lemma member_cons n k v b ms text :
  json_safe k = true -> jval n v b -> members_text n ms text ->
  members_text n ((k, v) :: ms) (qq ++ k ++ qq ++ str ":" ++ b ++ str "," ++ text).
Proof.
  intros Hk Hv (body & -> & Hm). exists (qq ++ k ++ qq ++ str ":" ++ b ++ str "," ++ body).
  split; [by rewrite <- !app_assoc|].
  apply (jm_cons n [] k k [] [] v b [] ms body ltac:(constructor) (json_safe_jchars k Hk) ltac:(constructor)
    ltac:(constructor) Hv ltac:(constructor) Hm).
Qed.

Lemma string_text n s : json_safe s = true -> jval n (JString s) (qq ++ s ++ qq).
Proof. intros H. by apply jv_string, json_safe_jchars. Qed.

(** Members whose value is a string. *)
Lemma str_member_last n k s :
  json_safe k = true -> json_safe s = true ->
  members_text n [(k, JString s)] (qq ++ k ++ qq ++ str ":" ++ qq ++ s ++ qq ++ str "}").
Proof.
  intros Hk Hs. pose proof (member_last n k _ _ Hk (string_text n s Hs)) as H. by rewrite <- !app_assoc in H.
Qed.

Lemma str_member_cons n k s ms text :
  json_safe k = true -> json_safe s = true -> members_text n ms text ->
  members_text n ((k, JString s) :: ms) (qq ++ k ++ qq ++ str ":" ++ qq ++ s ++ qq ++ str "," ++ text).
Proof.
  intros Hk Hs Hm. pose proof (member_cons n k _ _ ms text Hk (string_text n s Hs) Hm) as H.
  by rewrite <- !app_assoc in H.
Qed.

Lemma document_text v text : jval (Z.to_nat NGX_AUTOCERT_JSON_MAX_DEPTH) v text ->
  ngx_autocert_json_parse text plenty = Some v.
Proof. intros H. apply parse_complete. exists [], text, []. split_and!; [by rewrite app_nil_r|constructor|constructor|exact H]. Qed.

(** ** The protected header *)

(** The protected header of a POST says what it should: its four members, with
    the strings given, and nothing else. *)
Theorem kid_header_roundtrip alg kid nonce url :
  json_safe alg = true -> json_safe kid = true -> json_safe nonce = true -> json_safe url = true ->
  ngx_autocert_json_parse (kid_header alg kid nonce url) plenty =
  Some (JObject [(str "alg", JString alg); (str "kid", JString kid);
                 (str "nonce", JString nonce); (str "url", JString url)]).
Proof.
  intros Ha Hk Hn Hu. apply document_text, object_text.
  apply str_member_cons; [done..|]. apply str_member_cons; [done..|]. apply str_member_cons; [done..|].
  by apply str_member_last.
Qed.

(** ** newOrder *)

Lemma domain_char_safe d : forallb is_domain_char d = true -> json_safe d = true.
Proof.
  unfold json_safe. induction d as [|c d IH]; [done|]. cbn [forallb]. intros [Hc Hd]%andb_true_iff.
  rewrite IH by done. unfold is_domain_char in Hc. reflect_bools. rewrite andb_true_r.
  destruct (c <? 32) eqn:E1, (c =? 34) eqn:E2, (c =? 92) eqn:E3; reflect_bools; lia.
Qed.

Lemma strip_wildcard_cases d : strip_wildcard d = d \/ d = 42 :: 46 :: strip_wildcard d.
Proof.
  destruct d as [|c [|c' d]]; [by left| |]; cbn; repeat case_match; simplify_eq; auto.
Qed.

Lemma identifier_json_safe E d :
  ngx_autocert_order_domain_identifier_safe E d = true -> (is_ip E d = true -> json_safe d = true) ->
  json_safe d = true.
Proof.
  unfold ngx_autocert_order_domain_identifier_safe. intros H Hip.
  destruct (_ || _); [done|]. destruct (is_ip E d); [by apply Hip|]. cbv zeta in H.
  assert (Hd : json_safe (strip_wildcard d) = true).
  { destruct (strip_wildcard d) as [|c r]; [done|]. destruct (last d) as [x|]; [|done].
    destruct (_ || _); [done|]. by apply domain_char_safe. }
  destruct (strip_wildcard_cases d) as [<-|E1]; [done|]. by rewrite E1.
Qed.

(** The members of the newOrder payload. *)
Definition new_order_members (profile type domain : bytes) : list (bytes * json) :=
  (if (length profile =? 0)%nat then [] else [(str "profile", JString profile)])
  ++ [(str "identifiers", JArray [JObject [(str "type", JString type); (str "value", JString domain)]])].

(** The newOrder payload names the identifier checked, and the profile, and
    nothing else. *)
Theorem new_order_roundtrip E profile type domain :
  json_safe profile = true -> json_safe type = true ->
  ngx_autocert_order_domain_identifier_safe E domain = true -> (is_ip E domain = true -> json_safe domain = true) ->
  ngx_autocert_json_parse (new_order_payload profile type domain) plenty =
  Some (JObject (new_order_members profile type domain)).
Proof.
  intros Hp Ht Hd Hip. pose proof (identifier_json_safe E domain Hd Hip) as Hs. apply document_text.
  assert (Hids : forall n, jval (S (S n)) (JArray [JObject [(str "type", JString type); (str "value", JString domain)]])
    (str "[{" ++ qq ++ str "type" ++ qq ++ str ":" ++ qq ++ type ++ qq
     ++ str "," ++ qq ++ str "value" ++ qq ++ str ":" ++ qq ++ domain ++ qq ++ str "}]")).
  { intros n. assert (Ho : jval (S n) (JObject [(str "type", JString type); (str "value", JString domain)])
      (str "{" ++ qq ++ str "type" ++ qq ++ str ":" ++ qq ++ type ++ qq ++ str ","
       ++ qq ++ str "value" ++ qq ++ str ":" ++ qq ++ domain ++ qq ++ str "}")).
    { apply object_text, str_member_cons; [done..|]. by apply str_member_last. }
    pose proof (jv_array (S n) _ _ (je_last (S n) [] _ _ [] ltac:(constructor) Ho ltac:(constructor))) as Ha.
    cbn [app] in Ha. rewrite app_nil_r, <- !app_assoc in Ha. exact Ha. }
  unfold new_order_payload, new_order_members. apply object_text.
  assert (Hlast : members_text 31 [(str "identifiers", JArray [JObject [(str "type", JString type); (str "value", JString domain)]])]
    (qq ++ str "identifiers" ++ qq ++ str ":[{" ++ qq ++ str "type" ++ qq ++ str ":" ++ qq ++ type ++ qq
     ++ str "," ++ qq ++ str "value" ++ qq ++ str ":" ++ qq ++ domain ++ qq ++ str "}]}")).
  { pose proof (member_last 31 (str "identifiers") _ _ eq_refl (Hids 29%nat)) as H. rewrite <- ?app_assoc in H. exact H. }
  destruct (length profile =? 0)%nat; [exact Hlast|]. rewrite <- ?app_assoc.
  by apply str_member_cons.
Qed.

Lemma kid_header_roundtrip_witness :
  ngx_autocert_json_parse (kid_header (str "ES384") (str "https://ca/1") (str "n") (str "https://ca/o")) plenty =
  Some (JObject [(str "alg", JString (str "ES384")); (str "kid", JString (str "https://ca/1"));
                 (str "nonce", JString (str "n")); (str "url", JString (str "https://ca/o"))]).
Proof. apply kid_header_roundtrip; reflexivity. Defined.

Lemma new_order_roundtrip_witness :
  ngx_autocert_json_parse (new_order_payload (str "shortlived") (str "dns") (str "*.a.example")) plenty =
  Some (JObject (new_order_members (str "shortlived") (str "dns") (str "*.a.example"))).
Proof. apply (new_order_roundtrip (env_ex waiting_net)); reflexivity. Defined.
