(* ===== verification/OrderStoreWrite.v ===== *)
(** * The store writer: filling the staging directory

    What the staging directory holds, as a reader would find it after a crash, while
    it is seeded and written. *)

From S2P Require Import Prelude NgxCore Ident Expiry Marker Tree OrderStore OrderStoreInv.

Local Open Scope Z_scope.
Local Open Scope prog_scope.

Section Write.
Context (K : kernel) (Hsane : sane K) (tmp : bytes) (s0 : fs) (Hs0 : sound s0).

Abbreviation staged := (staged tmp).
Abbreviation aside := (aside tmp K).

(** The staging directory is there, a reader finds [v] in it, and all its names are
    among [names]. *)
Definition filled (id : nat) (v : gmap bytes (bytes * Z)) (names : list bytes) (s : fs) : Prop :=
  aside s0 s /\ exists m es,
    staged s id m es /\ reader (inodes s) es = v /\ (forall leaf e, es !! leaf = Some e -> leaf ∈ names) /\ below (next s) es.

Lemma aside_sound s : aside s0 s -> sound s.
Proof. intros Ha. by apply (as_sound _ _ _ _ Ha). Qed.

(** *** Seeding *)

(** The entries after seeding [names]: those of the other key type that are regular
    files in the live directory. *)
Fixpoint seeded (own : pem_names) (live : gmap bytes dirent) (names : list bytes) (es : gmap bytes dirent) : gmap bytes dirent :=
  match names with
  | [] => es
  | n :: names' =>
      if own_name own n then seeded own live names' es
      else
        match live !! n, es !! n with
        | Some (LFile i), None => seeded own live names' (<[n := LFile i]> es)
        | _, _ => seeded own live names' es
        end
  end.

Definition regular (e : option dirent) : option dirent := match e with Some (LFile i) => Some (LFile i) | _ => None end.

(** What seeding takes over under a name. *)
Definition taken_over (own : pem_names) (live : gmap bytes dirent) (n : bytes) : option dirent :=
  if own_name own n then None else regular (live !! n).

Definition after_seeding (own : pem_names) (live : gmap bytes dirent) (names : list bytes) (e : option dirent) (n : bytes) : option dirent :=
  match e with Some e => Some e | None => if decide (n ∈ names) then taken_over own live n else None end.

Lemma after_seeding_skip own live x names e n :
  e <> None \/ n <> x \/ taken_over own live n = None ->
  after_seeding own live names e n = after_seeding own live (x :: names) e n.
Proof.
  intros H. unfold after_seeding. destruct e; [done|]. destruct (decide (n ∈ names)) as [Hi|Hi].
  - rewrite decide_True; [done|by right].
  - case_decide as Hx; [|done]. apply elem_of_cons in Hx as [->|]; [|done]. destruct H as [?|[?|E]]; done.
Qed.

Lemma seeded_lookup own live names es n :
  seeded own live names es !! n = after_seeding own live names (es !! n) n.
Proof.
  revert es. induction names as [|x names IH]; intros es; cbn [seeded].
  - unfold after_seeding. rewrite decide_False by apply not_elem_of_nil. by destruct (es !! n).
  - destruct (decide (n = x)) as [->|Hne].
    + unfold after_seeding. rewrite (decide_True (P := x ∈ x :: names)) by left. unfold taken_over.
      destruct (own_name own x) eqn:Eo.
      { rewrite IH. unfold after_seeding, taken_over. rewrite Eo. by destruct (es !! x), (decide (x ∈ names)). }
      destruct (live !! x) as [[i| | |]|] eqn:El, (es !! x) eqn:Ex; rewrite IH; unfold after_seeding, taken_over;
        rewrite ?lookup_insert_eq, ?Ex, ?Eo, ?El; by destruct (decide (x ∈ names)).
    + assert (Hrest : seeded own live names es !! n = after_seeding own live (x :: names) (es !! n) n)
        by (rewrite IH; apply after_seeding_skip; by right; left).
      destruct (own_name own x); [done|]. destruct (live !! x) as [[i| | |]|], (es !! x); try done.
      rewrite IH, lookup_insert_ne by done. apply after_seeding_skip. by right; left.
Qed.
(** *** Seeding from a live directory *)

Section Seed.
Context (dir : bytes) (Hdir : dir <> tmp) (lid : nat) (lm : Z) (live : entries_t).
Context (Hdl : tree s0 !! dir = Some (NDir lid lm)) (Hlive : dirs s0 !! lid = Some live).

Lemma entries_live s : aside s0 s -> dirs s !! lid = Some live.
Proof. intros Ha. by rewrite (as_dirs _ _ _ _ Ha dir lid lm Hdir Hdl). Qed.

Lemma wp_lstat_live name s (Q : bool + Z -> fs -> Prop) :
  aside s0 s ->
  (forall e, denied K (sys_calls s) = Some e -> aside s0 (tick s) -> Q (inr e) (tick s)) ->
  (aside s0 (tick s) ->
   Q (match live !! name with None => inr ENOENT | Some (LFile _) => inl true | Some _ => inl false end) (tick s)) ->
  wp (sys_lstat_in K lid name) s Q (aside s0).
Proof.
  intros Ha He HQ. unfold wp, sys_lstat_in, in_dir. rewrite (entries_live s Ha).
  apply (wp_sys tmp K s0 _ s Q); [done|done|]. intros Ht. cbn. rewrite decide_True by done. by apply HQ.
Qed.

Lemma wp_link_live name i s id m es (Q : unit + Z -> fs -> Prop) :
  live !! name = Some (LFile i) -> staged s id m es -> aside s0 s ->
  (forall e s', aside s0 s' -> staged s' id m es -> e <> EEXIST \/ is_Some (es !! name) -> Q (inr e) s') ->
  (forall s', es !! name = None -> aside s0 s' -> staged s' id m (<[name := LFile i]> es) -> Q (inl tt) s') ->
  wp (sys_link K lid id name) s Q (aside s0).
Proof.
  intros Hl Hst Ha He HQ. unfold wp, sys_link. rewrite (entries_live s Ha), Hl.
  apply (wp_in_staging tmp K _ s0 s id m es Q); [by apply aside_sound|done|done|..].
  - intros e Hd Ht. apply He; [done|done|]. left. intros ->. apply (sane_denied _ Hsane) in Hd as [_ Hd]. apply Hd. by do 2 right; left.
  - cbn. destruct (es !! name) eqn:En; cbn; intros s' _ _ Hst' _ _ _ Ha'; [apply He; [done|done|by right]|by apply HQ].
  - by destruct (es !! name).
  - by destruct (es !! name).
  - destruct (es !! name); [reflexivity|apply (aside_links tmp K (tick s))].
Qed.

Lemma wp_seed_loop own names s id m es :
  staged s id m es -> aside s0 s ->
  wp (seed_loop K lid id own names) s
    (fun r s' => aside s0 s' /\ (r = NGX_OK -> staged s' id m (seeded own live names es))) (aside s0).
Proof.
  revert s es. induction names as [|name names IH]; intros s es Hst Ha; cbn [seed_loop seeded]; [by apply wp_ret|].
  destruct (own_name own name); [by apply IH|]. apply wp_bind, wp_lstat_live; [done|..].
  - intros e Hd Ht. destruct (e =? ENOENT) eqn:Ee; reflect_bools; [|by apply wp_ret].
    apply (sane_denied _ Hsane) in Hd as [_ Hd]. destruct Hd. by left.
  - intros Ht. destruct (live !! name) as [[i| | |]|] eqn:El; try by apply IH.
    apply wp_bind, (wp_link_live _ i _ id m es); [done|done|done|..].
    + intros e s' Ha' Hst' He. destruct (e =? EEXIST) eqn:Ee; reflect_bools; [|by apply wp_ret].
      destruct He as [He|[x ->]]; [done|]. by apply IH.
    + intros s' -> Ha' Hst'. by apply IH.
Qed.
End Seed.

(** The entries of the live directory, none when there is no directory. *)
Definition entries_at (d : nat -> entries_t) (n : option node) : entries_t :=
  match n with Some (NDir id _) => d id | _ => ∅ end.

(** What a reader finds of the other key type. *)
Definition carried (own : pem_names) (m : gmap nat file) (d : nat -> entries_t) (n : option node) : gmap bytes (bytes * Z) :=
  filter (fun p => p.1 ∈ ngx_autocert_store_files /\ own_name own p.1 = false) (default ∅ (view_of m d n)).

Definition other_names (own : pem_names) : list bytes :=
  filter (fun n => own_name own n = false) ngx_autocert_store_files.

Lemma carried_lookup own m d n leaf :
  carried own m d n !! leaf =
  (if decide (leaf ∈ ngx_autocert_store_files) then taken_over own (entries_at d n) leaf else None) ≫= content m.
Proof.
  unfold carried, taken_over. assert (E : default ∅ (view_of m d n) = reader m (entries_at d n)).
  { destruct n as [[]|]; cbn; try done; unfold reader; by rewrite omap_empty. }
  rewrite E. unfold reader. clear E. apply option_eq. intros c. rewrite map_lookup_filter_Some, lookup_omap. cbn. split.
  - intros [Hc [Hi Ho]]. rewrite decide_True, Ho by done. destruct (entries_at d n !! leaf) as [[]|]; try done.
  - case_decide as Hi; [|done]. destruct (own_name own leaf); [done|]. destruct (entries_at d n !! leaf) as [[]|]; try done.
Qed.

Lemma taken_over_file own live n e : taken_over own live n = Some e -> own_name own n = false /\ live !! n = Some e /\ exists i, e = LFile i.
Proof. unfold taken_over. destruct (own_name own n); [done|]. destruct (live !! n) as [[]|]; naive_solver. Qed.

Lemma seeded_empty own live leaf :
  seeded own live ngx_autocert_store_files ∅ !! leaf =
  if decide (leaf ∈ ngx_autocert_store_files) then taken_over own live leaf else None.
Proof. by rewrite seeded_lookup, lookup_empty. Qed.

Lemma seeded_none own names es : seeded own ∅ names es = es.
Proof. induction names as [|n names IH]; [done|]. cbn [seeded]. rewrite lookup_empty. by destruct (own_name own n). Qed.

(** The live directory before the run. *)
Abbreviation live_at dir := (entries_at (entries_in (dirs s0)) (tree s0 !! dir)).
Abbreviation others kt dir := (carried (ngx_autocert_keytype_pem_names kt) (inodes s0) (entries_in (dirs s0)) (tree s0 !! dir)).

Lemma filled_seeded dir own s id m :
  below (next s0) (live_at dir) -> aside s0 s -> staged s id m (seeded own (live_at dir) ngx_autocert_store_files ∅) ->
  filled id (carried own (inodes s0) (entries_in (dirs s0)) (tree s0 !! dir)) (other_names own) s.
Proof.
  intros Hb Ha Hst. split; [done|]. eexists _, _. split; [exact Hst|].
  assert (Hl : forall leaf e, seeded own (live_at dir) ngx_autocert_store_files ∅ !! leaf = Some e ->
    leaf ∈ other_names own /\ exists i, e = LFile i /\ (i < next s0)%nat).
  { intros leaf e. rewrite seeded_empty. case_decide as Hi; [|done].
    intros (Ho & He & i & ->)%taken_over_file. split; [by apply list_elem_of_filter|]. exists i. split; [done|]. by eapply Hb. }
  split; [|split].
  - apply map_eq. intros leaf. unfold reader. rewrite lookup_omap, carried_lookup. rewrite <- seeded_empty.
    destruct (seeded _ _ _ _ !! leaf) as [e|] eqn:Ee; [|done]. cbn. apply Hl in Ee as (_ & j & -> & Hj).
    apply (same_core_content (next s0)); [apply Ha|]. by intros i [= ->].
  - intros leaf e He. by apply Hl in He as [Hi _].
  - intros leaf i He. apply Hl in He as (_ & j & [= ->] & Hj). apply as_next in Ha. lia.
Qed.

(** Seeding an empty staging directory. *)
Lemma wp_seed dir s id m kt :
  dir <> tmp -> below (next s0) (live_at dir) -> staged s id m ∅ -> aside s0 s ->
  wp (ngx_autocert_order_seed_staging_at K dir id kt) s
    (fun r s' => aside s0 s' /\ (r = NGX_OK -> filled id (others kt dir) (other_names (ngx_autocert_keytype_pem_names kt)) s'))
    (aside s0).
Proof.
  intros Hdir Hb Hst Ha. apply wp_bind, (wp_open_dir tmp); [done|..].
  - intros e Ht He. destruct (_ || _) eqn:Ee; [|by apply wp_ret]. apply wp_ret. split; [done|]. intros _.
    apply (filled_seeded dir _ _ id m); [done|done|]. destruct He as [Hd|[He _]].
    + apply (sane_denied _ Hsane) in Hd as [_ Hd]. destruct Hd. unfold telling. reflect_bools. destruct Ee; reflect_bools; auto.
    + rewrite (as_tree _ _ _ _ Ha) in He by done. assert (Hn : live_at dir = ∅).
      { destruct (tree s0 !! dir) as [[]|]; try done. by destruct (He id0 mode). }
      by rewrite Hn, seeded_none.
  - intros lid lm Hlive Ht. rewrite (as_tree _ _ _ _ Ha) in Hlive by done. destruct (so_made s0 Hs0 _ _ _ Hlive) as [_ [live Hes]].
    eapply wp_mono; [by apply (wp_seed_loop dir Hdir lid lm live Hlive Hes (ngx_autocert_keytype_pem_names kt) _ _ id m ∅)| |done].
    intros r s' [Ha' Hst']. split; [done|]. intros Hr. apply (filled_seeded dir _ _ id m); [done|done|].
    assert (El : live_at dir = live) by (rewrite Hlive; by apply entries_in_lookup). rewrite El. by apply Hst'.
Qed.

(** *** Writing a file *)

(** The new file is open, and holds [f]; the rest is as it was in [sb]. *)
Record writing (sb : fs) (id : nat) (m : Z) (es : entries_t) (f : file) (s : fs) : Prop := {
  wr_base : aside s0 sb;
  wr_aside : aside sb s;
  wr_staged : staged s id m es;
  wr_file : inodes s !! next sb = Some f;
  wr_next : next s = S (next sb) }.

Section File.
Context (n0 : nat) (Hintr : forall n, (n0 <= n)%nat -> denied K n <> Some EINTR).
Context (sb : fs) (id : nat) (m : Z) (es : entries_t).
Abbreviation writing := (writing sb id m es).

Lemma writing_aside f s : writing f s -> aside s0 s.
Proof. intros H. etrans; [apply H|apply H]. Qed.

Lemma writing_tick f s : writing f s -> writing f (tick s).
Proof. intros [? ? ? ? ?]. split; try done. etrans; [done|apply aside_tick]. Qed.

Lemma wp_on_file {A} (g : file -> (A + Z) * file) f s (Q : A + Z -> fs -> Prop) :
  writing f s ->
  (forall e, denied K (sys_calls s) = Some e -> writing f (tick s) -> Q (inr e) (tick s)) ->
  (forall s', writing (g f).2 s' -> sys_calls s' = S (sys_calls s) -> Q (g f).1 s') ->
  wp (on_file K (next sb) g) s Q (aside s0).
Proof.
  intros Hw He HQ. unfold wp, on_file. rewrite (wr_file _ _ _ _ _ _ Hw).
  apply (wp_sys tmp K s0 _ s Q); [by eapply writing_aside|intros e Hd _; apply He; [done|by apply writing_tick]|].
  intros Ht. destruct (g f) as [r f'] eqn:Eg. apply HQ; [|done]. destruct (writing_tick _ _ Hw) as [Hb Ha Hs Hf Hn]. split; try done.
  - by apply aside_newer.
  - cbn. by rewrite lookup_insert_eq.
Qed.

Lemma wp_abandon f s leaf (Q : Z -> fs -> Prop) :
  writing f s -> (forall s', aside s0 s' -> Q NGX_ERROR s') -> wp (discard_leaf K id leaf) s Q (aside s0).
Proof.
  intros Hw HQ. apply wp_bind, wp_bind. eapply wp_in_staging; [by eapply aside_sound, writing_aside|exact (wr_staged _ _ _ _ _ _ Hw)|by eapply writing_aside|..].
  - intros e _ Ht. by apply wp_ret, wp_ret, HQ.
  - intros s' _ _ _ _ _ _ Ha. by apply wp_ret, wp_ret, HQ.
  - by destruct (es !! leaf) as [[]|].
  - by destruct (es !! leaf) as [[]|].
  - destruct (es !! leaf) as [[]|]; try reflexivity. apply aside_links.
Qed.

(** Every byte takes a call, and so does every signal. *)
Lemma wp_write_loop fuel data f s (Q : bool -> fs -> Prop) :
  (length data + (n0 - sys_calls s) <= fuel)%nat -> writing f s ->
  (forall f' s', writing f' s' -> Q false s') ->
  (forall f' s', f_data f' = f_data f ++ data -> f_mode f' = f_mode f -> writing f' s' -> Q true s') ->
  wp (write_loop K fuel (next sb) data) s Q (aside s0).
Proof.
  revert data f s. induction fuel as [|fuel IH]; intros data f s Hfuel Hw Hno Hyes.
  - destruct data; [|cbn in Hfuel; lia]. apply wp_ret. apply (Hyes f); [by rewrite app_nil_r|done|done].
  - destruct data as [|c data]; [apply wp_ret; apply (Hyes f); [by rewrite app_nil_r|done|done]|].
    cbn [write_loop]. remember (c :: data) as d eqn:Ed. apply wp_bind. unfold sys_write. apply wp_on_file with (f := f); [done|..].
    + intros e Hd Hw'. destruct (ngx_autocert_err_is_intr K e) eqn:Ei; [|by apply wp_ret, (Hno f)].
      apply andb_true_iff in Ei as [_ Ei]. reflect_bools. subst e. assert (sys_calls s < n0)%nat.
      { destruct (decide (n0 <= sys_calls s)%nat) as [Hle|]; [by apply Hintr in Hle|lia]. }
      apply (IH d f); try done. cbn. lia.
    + cbn. intros s' Hw' Hcalls. set (n := Z.max 0 _). assert (Hn : 0 <= n <= Z.of_nat (length d)) by lia.
      destruct (n =? 0) eqn:En; reflect_bools; [by eapply wp_ret, Hno|].
      eapply IH; [|exact Hw'|done|]; cbn.
      * rewrite length_drop, Hcalls. lia.
      * intros f' s2 Hd Hm. rewrite <- app_assoc, take_drop in Hd. by apply Hyes.
Qed.
End File.

Section Files.
Context (n0 : nat) (Hintr : forall n, (n0 <= n)%nat -> denied K n <> Some EINTR).

(** A file that is durable is found under its name, and the rest as before. *)
Lemma filled_written sb id m es leaf data mode names v f s :
  reader (inodes sb) es = v -> (forall leaf e, es !! leaf = Some e -> leaf ∈ names) -> below (next sb) es ->
  core f = (data, mode, true) -> writing sb id m (<[leaf := LFile (next sb)]> es) f s ->
  filled id (<[leaf := (data, mode)]> v) (leaf :: names) s.
Proof.
  intros Hv Hn Hi Hf Hw. split; [by eapply writing_aside|]. eexists _, _. split; [exact (wr_staged _ _ _ _ _ _ Hw)|].
  split; [|split].
  - apply map_eq. intros n. unfold reader in *. rewrite lookup_omap. destruct (decide (n = leaf)) as [->|Hne].
    + rewrite !lookup_insert_eq. cbn. rewrite (wr_file _ _ _ _ _ _ Hw). unfold core in Hf. injection Hf as <- <- ->. done.
    + rewrite !lookup_insert_ne, <- Hv, lookup_omap by done. destruct (es !! n) as [e|] eqn:Ee; [|done]. cbn.
      apply (same_core_content (next sb)); [apply Hw|]. intros i ->. by eapply Hi.
  - intros n e He. destruct (decide (n = leaf)) as [->|Hne]; [left|right]. rewrite lookup_insert_ne in He by done. by eapply Hn.
  - intros n i. rewrite (wr_next _ _ _ _ _ _ Hw). destruct (decide (n = leaf)) as [->|Hne].
    + rewrite lookup_insert_eq. intros [= ->]. lia.
    + rewrite lookup_insert_ne by done. intros He%Hi. lia.
Qed.

Lemma wp_create s id m es leaf mode :
  staged s id m es -> es !! leaf = None -> aside s0 s ->
  wp (sys_create K id leaf mode) s
    (fun r s' => match r with
                 | inl o => o = Some (next s) /\ exists f, f_links f = 1 /\ writing s id m (<[leaf := LFile (next s)]> es) f s'
                 | inr _ => aside s0 s'
                 end) (aside s0).
Proof.
  intros Hst Hnone Ha. eapply wp_mono; [eapply (wp_in_staging tmp K _ s s id m es)|intros r s' H; exact H|intros s' H; etrans; [exact Ha|exact H]]; [by apply aside_sound|done|done|..].
  - intros e _ Ht. cbn. etrans; [exact Ha|exact Ht].
  - rewrite Hnone. cbn. intros s' _ _ Hst' Hin Hnx _ Ha'. split; [done|]. eexists. split; [|split; try done].
    2: rewrite Hin; cbn; by rewrite lookup_insert_eq. done.
  - by rewrite Hnone.
  - by rewrite Hnone.
  - rewrite Hnone. cbn. apply (aside_grown tmp K (tick s)); [|cbn; lia]. by apply (aside_newer tmp K (tick s) (tick s)).
Qed.

Lemma wp_write_tmp fuel id leaf data mode names v s :
  (n0 + length data <= fuel)%nat -> filled id v names s -> leaf ∉ names ->
  wp (ngx_autocert_order_write_tmp_at K fuel id leaf data mode) s
    (fun r s' => aside s0 s' /\ (r = NGX_OK -> filled id (<[leaf := (data, mode)]> v) (leaf :: names) s'))
    (aside s0).
Proof.
  intros Hfuel (Ha & m & es & Hst & Hv & Hn & Hi) Hleaf.
  assert (Hnone : es !! leaf = None) by (apply eq_None_not_Some; intros [e He]; by apply Hleaf, (Hn leaf e)).
  assert (Hdone : forall f s', core f = (data, mode, true) -> writing s id m (<[leaf := LFile (next s)]> es) f s' ->
    filled id (<[leaf := (data, mode)]> v) (leaf :: names) s') by (intros; by eapply filled_written).
  apply wp_bind. eapply wp_mono; [by apply (wp_create s id m es)| |done]. intros [o|e] s1 H1; [|by apply wp_ret].
  destruct H1 as (-> & f & Hlinks & Hw). apply wp_bind, wp_on_file with (1 := Hw).
  { intros e _ Hw1. apply wp_ret. split; [by eapply writing_aside|done]. }
  cbn. intros s2 Hw2 _. rewrite Hlinks. cbn. apply wp_bind, wp_on_file with (1 := Hw2).
  { intros e _ Hw3. apply wp_ret. split; [by eapply writing_aside|done]. }
  cbn. intros s3 Hw3 _. apply wp_bind, wp_on_file with (1 := Hw3).
  { intros e _ Hw4. by eapply wp_abandon. }
  cbn. intros s4 Hw4 _. apply wp_bind. eapply (wp_write_loop n0 Hintr s id m _ fuel data _ s4); [lia|exact Hw4|..].
  { intros f5 s5 Hw5. by eapply wp_abandon. }
  cbn. intros f5 s5 Hd Hm Hw5. apply wp_bind, wp_on_file with (1 := Hw5).
  { intros e _ Hw6. by eapply wp_abandon. }
  cbn. intros s6 Hw6 _. apply wp_bind, wp_sys; [by eapply writing_aside| |].
  { intros e _ _. eapply wp_abandon; [by apply writing_tick|done]. }
  intros Ht. apply wp_ret. split; [done|]. intros _. eapply Hdone; [|by apply writing_tick].
  unfold core. cbn. by rewrite Hd, Hm.
Qed.
(** *** The files of an order *)

Definition leaves (l : list (bytes * bytes * Z)) : list bytes := map (fun p => p.1.1) l.

Definition write_all (l : list (bytes * bytes * Z)) (v : gmap bytes (bytes * Z)) : gmap bytes (bytes * Z) :=
  foldl (fun v p => <[p.1.1 := (p.1.2, p.2)]> v) v l.

Lemma wp_write_files fuel id l names v s :
  (forall p, p ∈ l -> (n0 + length p.1.2 <= fuel)%nat) -> NoDup (leaves l) -> (forall leaf, leaf ∈ leaves l -> leaf ∉ names) ->
  filled id v names s ->
  wp (write_files K fuel id l) s
    (fun r s' => aside s0 s' /\ (r = true -> filled id (write_all l v) (rev (leaves l) ++ names) s'))
    (aside s0).
Proof.
  revert v names s. induction l as [|[[leaf data] mode] l IH]; intros v names s Hfuel Hnd Hdis Hf.
  { apply wp_ret. split; [apply Hf|done]. }
  cbn [leaves map fst snd] in Hnd, Hdis. apply NoDup_cons in Hnd as [Hni Hnd]. cbn [write_files]. apply wp_bind. eapply wp_mono.
  { apply (wp_write_tmp fuel id leaf data mode names v s); [apply (Hfuel (leaf, data, mode)); left|done|apply Hdis; left]. }
  2: done.
  intros r s1 [Ha H1]. destruct (r =? NGX_OK) eqn:Er; reflect_bools; [|by apply wp_ret]. cbn [negb].
  eapply wp_mono; [apply (IH (<[leaf := (data, mode)]> v) (leaf :: names) s1)| |done]; [..|by apply H1|].
  - intros p Hp. apply Hfuel. by right.
  - done.
  - intros n Hn. apply not_elem_of_cons. split; [by intros ->|]. apply Hdis. by right.
  - intros r' s' [Ha' H']. split; [done|]. intros Hr. cbn [leaves map fst rev]. rewrite <- app_assoc. by apply H'.
Qed.

Lemma wp_fsync_tries fd n s (X : Z -> fs -> Prop) :
  aside s0 s -> (forall s', aside s0 s' -> X NGX_ERROR s') ->
  (forall s1, aside s s1 -> tree s1 = tree s -> dirs s1 = dirs s -> inodes s1 = inodes s -> next s1 = next s ->
     X NGX_OK (if windows K then s1 else settle fd s1)) ->
  wp (fsync_tries K fd n) s X (aside s0).
Proof.
  intros Ha Hno HX. assert (Hgen : forall s1, aside s s1 -> tree s1 = tree s -> dirs s1 = dirs s -> inodes s1 = inodes s ->
    next s1 = next s -> wp (fsync_tries K fd n) s1 X (aside s0)); [|by apply Hgen].
  induction n as [|n IH]; intros s1 H1 Et Ed Ei En; cbn [fsync_tries].
  { apply wp_ret, Hno. by etrans. }
  apply wp_bind, (wp_sys tmp); [by etrans|..].
  - intros e _ Ht. destruct (ngx_autocert_err_is_intr K e); [|by apply wp_ret, Hno].
    apply IH; try done. by etrans; [exact H1|apply aside_tick].
  - intros Ht. cbn. refine (HX (tick s1) _ _ _ _ _); try done. etrans; [exact H1|apply aside_tick].
Qed.

(** What an order writes. *)
Definition new_files (o : store_order) : list (bytes * bytes * Z) :=
  let own := ngx_autocert_keytype_pem_names (so_key_type o) in
  [(priv_name own, so_key_pem o, 384); (chain_name own, so_chain o, 420)]
  ++ (if so_certbot o then
        match ngx_autocert_order_split_chain (so_chain o) with
        | Some (leaf, rest) => [(leaf_name own, leaf, 420); (rest_name own, rest, 420)]
        | None => []
        end
      else []).

(** What a reader finds in the directory after it. *)
Definition new_view (o : store_order) (m : gmap nat file) (d : nat -> entries_t) (old : option node) : gmap bytes (bytes * Z) :=
  write_all (new_files o) (carried (ngx_autocert_keytype_pem_names (so_key_type o)) m d old).

Lemma own_names_nodup kt :
  let own := ngx_autocert_keytype_pem_names kt in NoDup [priv_name own; chain_name own; leaf_name own; rest_name own].
Proof. cbv zeta. unfold ngx_autocert_keytype_pem_names. destruct (is_rsa kt); apply (bool_decide_unpack _); reflexivity. Qed.

Lemma own_not_other kt n :
  let own := ngx_autocert_keytype_pem_names kt in
  n ∈ [priv_name own; chain_name own; leaf_name own; rest_name own] -> n ∉ other_names own.
Proof.
  cbv zeta. intros Hin [Ho _]%list_elem_of_filter. unfold own_name in Ho. reflect_bools.
  repeat match goal with H : bool_decide _ = false |- _ => apply bool_decide_eq_false in H end.
  rewrite !elem_of_cons in Hin. destruct Hin as [?|[?|[?|[?|[]%not_elem_of_nil]]]]; done.
Qed.

Lemma split_chain_app full leaf rest : ngx_autocert_order_split_chain full = Some (leaf, rest) -> leaf ++ rest = full.
Proof.
  unfold ngx_autocert_order_split_chain. destruct (find_marker 0 full); [|done]. cbv zeta. intros [= <- <-]. apply take_drop.
Qed.

(** The staging directory can come back in one way only. *)
Definition kept (id : nat) (s : fs) : Prop := forall es, version K s id es -> es = entries_in (dirs s) id.

(** Making the staging directory durable. *)
Lemma wp_fsync_filled id v names s :
  filled id v names s ->
  wp (let! rc := ngx_autocert_order_fsync_dirfd K (Within id) in ret (rc =? NGX_OK)) s
    (fun r s' => aside s0 s' /\ (r = true -> (exists names, filled id v names s') /\ (windows K = false -> kept id s')))
    (aside s0).
Proof.
  intros [Ha (m & es & Hst & Hv & Hn & Hi)]. apply wp_bind, wp_fsync_tries; [done|by intros; apply wp_ret|].
  intros s1 Has Et Ed Ei En. apply wp_ret.
  assert (Hf : forall s', aside s1 s' -> tree s' = tree s1 -> dirs s' = dirs s1 -> inodes s' = inodes s1 -> next s' = next s1 ->
    aside s0 s' /\ filled id v names s').
  { intros s' H1 E1 E2 E3 E4. assert (Ha' : aside s0 s') by (etrans; [exact Ha|]; by etrans). split; [done|]. split; [done|].
    exists m, es. unfold OrderStoreInv.staged. by rewrite E1, E2, E3, E4, Et, Ed, Ei, En. }
  destruct (windows K) eqn:Ew.
  - destruct (Hf s1) as [? ?]; try done. split; [done|]. intros _. split; [by exists names|done].
  - destruct (Hf (settle (Within id) s1)) as [? ?]; try done; [apply aside_settle|].
    split; [done|]. intros _. split; [by exists names|]. intros _ e (t & d & [_ Hr]%return_settle & <-). exact Hr.
Qed.

Lemma wp_fill fuel o dir s id m :
  (n0 + length (so_key_pem o) + length (so_chain o) <= fuel)%nat -> dir <> tmp -> below (next s0) (live_at dir) ->
  staged s id m ∅ -> aside s0 s ->
  wp (fill_staging K fuel o dir id) s
    (fun r s' => aside s0 s' /\
       (r = true -> (exists names, filled id (new_view o (inodes s0) (entries_in (dirs s0)) (tree s0 !! dir)) names s') /\
                    (windows K = false -> kept id s')))
    (aside s0).
Proof.
  intros Hfuel Hdir Hb Hst Ha. unfold fill_staging, new_view, new_files. cbv zeta.
  pose proof (own_names_nodup (so_key_type o)) as Hnd. pose proof (own_not_other (so_key_type o)) as Hoth. cbv zeta in Hnd, Hoth.
  apply wp_bind. eapply wp_mono; [by eapply wp_seed| |done]. set (own := ngx_autocert_keytype_pem_names (so_key_type o)) in *.
  set (v0 := carried own _ _ _).
  intros r s1 [Ha1 H1]. destruct (r =? NGX_OK) eqn:Er; reflect_bools; [|by apply wp_ret]. specialize (H1 Er). cbn [negb].
  change [priv_name own; chain_name own; leaf_name own; rest_name own]
    with ([priv_name own; chain_name own] ++ [leaf_name own; rest_name own]) in Hnd, Hoth.
  apply NoDup_app in Hnd as (Hnd1 & Hdis & Hnd2).
  apply wp_bind. eapply wp_mono; [eapply (wp_write_files fuel id _ (other_names own) v0 s1)| |done]; [..|done|].
  { intros p. rewrite !elem_of_cons. intros [->|[->|[]%not_elem_of_nil]]; cbn; lia. }
  { exact Hnd1. }
  { intros n Hn. apply Hoth, elem_of_app. by left. }
  intros ok s2 [Ha2 H2]. destruct ok; [|by apply wp_ret]. specialize (H2 eq_refl). cbn [negb].
  destruct (so_certbot o) eqn:Ec.
  2: { apply wp_bind, wp_ret. cbn [negb]. by eapply wp_fsync_filled. }
  destruct (ngx_autocert_order_split_chain (so_chain o)) as [[leaf rest]|] eqn:Es; [|by apply wp_bind, wp_ret, wp_ret].
  pose proof (split_chain_app _ _ _ Es) as Happ.
  apply wp_bind. eapply wp_mono; [eapply (wp_write_files fuel id _ _ _ s2)| |done]; [..|exact H2|].
  { intros p. rewrite <- Happ, length_app in Hfuel. rewrite !elem_of_cons. intros [->|[->|[]%not_elem_of_nil]]; cbn; lia. }
  { exact Hnd2. }
  { intros n Hn [Hn'|Hn']%elem_of_app; [apply list_elem_of_In, in_rev, list_elem_of_In in Hn'; by apply (Hdis n)|].
    revert Hn'. apply Hoth, elem_of_app. by right. }
  intros ok s3 [Ha3 H3]. destruct ok; [|by apply wp_ret]. cbn [negb]. by eapply wp_fsync_filled, H3.
Qed.
End Files.
End Write.
