(* ===== verification/OrderStoreThms.v ===== *)
(** * The store writer: old or new, whatever happens

    The file system is the one of a POSIX kernel.  However a run ends, be it by an error or by the
    machine stopping, whatever tree comes back holds under the name of the certificate either what
    was there or the whole new pair. *)

From S2P Require Import Prelude NgxCore Ident Expiry Marker Tree OrderStore OrderStoreInv OrderStoreWrite.

Local Open Scope Z_scope.
Local Open Scope prog_scope.

Section Commit.
Context (K : kernel) (Hsane : sane K) (Hposix : windows K = false) (tmp dir : bytes) (Hdir : dir <> tmp).
Context (s0 : fs) (Hs0 : sound s0).

Abbreviation aside := (aside tmp K).
Abbreviation may_return := (may_return K).
Abbreviation version := (version K).
Abbreviation elsewhere x := (x <> tmp /\ x <> dir).

(** A node is a directory in which a reader finds [v]. *)
Definition shows (v : gmap bytes (bytes * Z)) (s : fs) (d : nat -> entries_t) (n : option node) : Prop :=
  exists id m, n = Some (NDir id m) /\ reader (inodes s) (d id) = v /\ below (next s) (d id).

(** On an ordered file system, whatever comes back has the old directory or [v] under the name. *)
Record placed (v : gmap bytes (bytes * Z)) (s : fs) : Prop := {
  pl_core : same_core (next s0) (inodes s0) (inodes s);
  pl_next : (next s0 <= next s)%nat;
  pl_return : ordered K = true -> forall t d, may_return s t d -> exists t0 d0, may_return s0 t0 d0 /\
    (forall x, elsewhere x -> alike x t d t0 d0) /\ (alike dir t d t0 d0 \/ shows v s d (t !! dir)) }.

(** The new directory is in place: on any file system, it can come back in one way only, and the others as before. *)
Record in_place (v : gmap bytes (bytes * Z)) (s : fs) : Prop := {
  ip_sound : sound s;
  ip_placed : placed v s;
  ip_new : exists id m, tree s !! dir = Some (NDir id m) /\
             forall es, version s id es -> reader (inodes s) es = v /\ below (next s) es;
  ip_tree : forall x, elsewhere x -> tree s !! x = tree s0 !! x;
  ip_version : forall x id m, elsewhere x -> tree s0 !! x = Some (NDir id m) -> forall es, version s id es -> version s0 id es }.

Lemma reader_aside s s' es : aside s s' -> below (next s) es -> reader (inodes s') es = reader (inodes s) es /\ below (next s') es.
Proof.
  intros Ha Hb. split; [apply (same_core_reader (next s)); [apply Ha|done]|].
  intros leaf i He%Hb. apply as_next in Ha. lia.
Qed.

Lemma shows_aside v s s' d n : shows v s d n -> aside s s' -> shows v s' d n.
Proof. intros (id & m & -> & <- & Hb) Ha. exists id, m. split; [done|]. by apply reader_aside. Qed.

Lemma shows_alike v s t d t' d' : shows v s d (t !! dir) -> alike dir t' d' t d -> shows v s d' (t' !! dir).
Proof. intros (id & m & E & Hv & Hb) [Et Ed]. exists id, m. rewrite Et, (Ed id m E). done. Qed.

Lemma placed_refl v s : aside s0 s -> placed v s.
Proof.
  intros Ha. split; [apply Ha|apply Ha|]. intros Ho t d Ht. destruct (as_return _ _ _ _ Ha Ho t d Ht) as (t0 & d0 & H0 & E).
  exists t0, d0. split; [done|]. split; [intros x [Hx _]; by apply E|left; by apply E].
Qed.

Lemma placed_aside v s s' : placed v s -> aside s s' -> placed v s'.
Proof.
  intros [C N P] Ha. split.
  - intros i Hi. rewrite C by done. apply Ha. lia.
  - apply as_next in Ha. lia.
  - intros Ho t' d' (t & d & Ht & E)%(as_return _ _ _ _ Ha Ho). destruct (P Ho t d Ht) as (t0 & d0 & H0 & Eo & Ed).
    exists t0, d0. split; [done|]. split; [intros x Hx; eapply alike_trans; [by apply E, Hx|by apply Eo]|].
    destruct Ed as [Ed|Hs]; [left; eapply alike_trans; [by apply E|done]|right]. eapply shows_alike; [by eapply shows_aside|by apply E].
Qed.

Lemma in_place_aside v s s' : in_place v s -> aside s s' -> in_place v s'.
Proof.
  intros [Hs Hp (id & m & Hd & Hn) Ht Hv] Ha. split.
  - by apply Ha.
  - by eapply placed_aside.
  - exists id, m. split; [by rewrite (as_tree _ _ _ _ Ha)|]. intros es He%(as_version _ _ _ _ Ha dir id m); [|done..].
    destruct (Hn es He) as [<- Hb]. by apply reader_aside.
  - intros x Hx. rewrite (as_tree _ _ _ _ Ha) by apply Hx. by apply Ht.
  - intros x id' m' Hx E es He. eapply Hv; [done..|]. eapply (as_version _ _ _ _ Ha); [apply Hx|by rewrite Ht|done].
Qed.

(** Only the two names are exchanged. *)
Definition swap (x : bytes) : bytes := if decide (x = dir) then tmp else if decide (x = tmp) then dir else x.

Lemma swap_inj x y : swap x = swap y -> x = y.
Proof. unfold swap. repeat case_decide; congruence. Qed.

Lemma swap_dir : swap dir = tmp.
Proof. unfold swap. by rewrite decide_True. Qed.

Lemma swap_elsewhere x : elsewhere x -> swap x = x.
Proof. intros [Hx Hx']. unfold swap. by rewrite !decide_False. Qed.

(** The new directory is moved or swapped in. *)
Lemma in_place_set id v names s t :
  filled K tmp s0 id v names s -> kept K id s -> (forall x, t !! x = tree s !! swap x) -> in_place v (set_tree t (tick s)).
Proof.
  intros [Ha (m & es & Hst & Hv & _ & Hi)] Hk Hsw. set (s1 := set_tree t (tick s)).
  pose proof (aside_sound K tmp s0 Hs0 s Ha) as Hs. pose proof (entries_in_lookup _ _ _ (proj2 Hst)) as Ees.
  assert (Hdt : t !! dir = Some (NDir id m)) by (rewrite Hsw, swap_dir; apply Hst).
  assert (Hver : forall id' e, version s1 id' e -> version s id' e).
  { intros id' e (t' & d & [Hr|[_ Hr]]%return_set_tree & He); eexists _, d; (split; [exact Hr|exact He]). }
  assert (Hes : forall e, version s id e -> reader (inodes s) e = v /\ below (next s) e) by (intros e ->%Hk; by rewrite Ees).
  split.
  - split; cbn.
    + intros x y id' m1 m2. rewrite !Hsw. intros E1 E2. eapply swap_inj, (so_one s Hs); [exact E1|exact E2].
    + intros x id' m1. rewrite Hsw. apply Hs.
  - pose proof (placed_refl v _ Ha) as [C N P]. split; [done|done|]. intros Ho t' d [Hr|[-> Hr]]%return_set_tree; [by apply P|].
    destruct (as_return _ _ _ _ Ha Ho _ _ Hr) as (t0 & d0 & H0 & E). exists t0, d0. split; [done|]. split.
    + intros x Hx. eapply alike_trans; [|by apply E, Hx]. split; [by rewrite Hsw, swap_elsewhere|done].
    + right. exists id, m. split; [done|]. apply Hes. by exists (tree s), d.
  - exists id, m. split; [done|]. intros e He%Hver. by apply Hes.
  - intros x Hx. cbn. rewrite Hsw, swap_elsewhere by done. apply (as_tree _ _ _ _ Ha), Hx.
  - intros x id' m' Hx E e He%Hver. apply (as_version _ _ _ _ Ha x id' m'); [apply Hx|done|done].
Qed.

Definition final (s : fs) : Prop := forall t d, may_return s t d -> t = tree s.

Abbreviation outcome v := (fun (r : Z) s => placed v s /\ (r = NGX_OK -> in_place v s /\ final s)).

(** Making the change durable. *)
Lemma wp_settle v s : in_place v s -> wp (ngx_autocert_order_fsync_dirfd K Container) s (outcome v) (placed v).
Proof.
  intros Hp. pose proof (ip_placed _ _ Hp) as Hpl.
  eapply wp_mono with (E := aside s); [|intros r s' H; exact H|intros s'; by apply placed_aside].
  apply wp_fsync_tries; [done|..].
  - intros s' Ha. split; [|done]. by eapply placed_aside.
  - intros s1 Ha _ _ _ _. rewrite Hposix. assert (Ha' : aside s (settle Container s1)) by (etrans; [exact Ha|apply aside_settle]).
    split; [by eapply placed_aside|]. intros _. split; [by eapply in_place_aside|]. by intros t d [_ ->]%return_settle.
Qed.

Lemma wp_drop v s (Q : Z -> fs -> Prop) :
  aside s0 s -> (forall s', placed v s' -> Q NGX_ERROR s') ->
  wp (ngx_autocert_order_rm_staging_at K tmp;; ret NGX_ERROR) s Q (placed v).
Proof.
  intros Ha HQ. apply wp_bind. eapply wp_mono; [by apply (wp_rm_staging tmp K s0)| |by apply placed_refl].
  intros ? s' Ha'. by apply wp_ret, HQ, placed_refl.
Qed.

Lemma wp_renameat2 (call : prog fs (unit + Z)) s (Q : Z -> fs -> Prop) (X : fs -> Prop) :
  wp call s (fun r s' => match r with
                         | inl _ => Q NGX_OK s'
                         | inr _ => forall rc, rc <> NGX_OK -> rc <> NGX_ABORT -> Q rc s' end) X ->
  wp (ngx_autocert_renameat2 call) s Q X.
Proof.
  intros H. apply wp_bind. eapply wp_mono; [exact H| |done]. intros [[]|e] s' HQ; [by apply wp_ret|].
  destruct (_ || _); apply wp_ret; by apply HQ.
Qed.

Lemma wp_move id v names s (Q : unit + Z -> fs -> Prop) :
  filled K tmp s0 id v names s -> kept K id s -> tree s !! dir = None ->
  (forall e s', aside s0 s' -> Q (inr e) s') -> (forall s', in_place v s' -> Q (inl tt) s') ->
  wp (sys_move K tmp dir) s Q (placed v).
Proof.
  intros Hf Hk Hnone He HQ. pose proof Hf as [Ha (m & es & [Hst _] & _)].
  eapply wp_mono; [apply (wp_sys tmp K s0 _ s Q Ha)|done|apply placed_refl].
  - intros e _ Ht. by apply He.
  - intros Ht. cbn. rewrite Hst, Hnone. cbn. apply HQ. eapply in_place_set; [exact Hf|exact Hk|]. intros x. unfold move, swap. rewrite Hst.
    repeat case_decide; subst; simpl_map; done.
Qed.

Lemma wp_exchange id v names s lid lm (Q : unit + Z -> fs -> Prop) :
  filled K tmp s0 id v names s -> kept K id s -> tree s !! dir = Some (NDir lid lm) ->
  (forall e s', aside s0 s' -> Q (inr e) s') -> (forall s', in_place v s' -> Q (inl tt) s') ->
  wp (sys_exchange K tmp dir) s Q (placed v).
Proof.
  intros Hf Hk Hlive He HQ. pose proof Hf as [Ha (m & es & [Hst _] & _)].
  eapply wp_mono; [apply (wp_sys tmp K s0 _ s Q Ha)|done|apply placed_refl].
  - intros e _ Ht. by apply He.
  - intros Ht. cbn. rewrite Hst, Hlive. cbn. apply HQ. eapply in_place_set; [exact Hf|exact Hk|]. intros x. unfold exchange, swap.
    rewrite Hst, Hlive. repeat case_decide; subst; by simpl_map.
Qed.

(** Removing what the swap left under the staging name, and making it durable. *)
Lemma wp_retire v s :
  in_place v s ->
  wp (ngx_autocert_order_rm_staging_at K tmp;; ngx_autocert_order_fsync_dirfd K Container) s (outcome v) (placed v).
Proof.
  intros Hp. apply wp_bind. eapply wp_mono; [apply (wp_rm_staging tmp K s); [apply Hp|done]| |].
  - intros ? s' Ha. by eapply wp_settle, in_place_aside.
  - intros s'. apply placed_aside, (ip_placed _ _ Hp).
Qed.

Lemma wp_commit o id v names s :
  filled K tmp s0 id v names s -> kept K id s -> wp (commit K o dir tmp) s (outcome v) (placed v).
Proof.
  intros Hf Hk. pose proof Hf as [Ha _].
  assert (Hno : forall r s', r <> NGX_OK -> placed v s' -> placed v s' /\ (r = NGX_OK -> in_place v s' /\ final s')) by done.
  assert (Hrm : forall s', aside s0 s' -> wp (ngx_autocert_order_rm_staging_at K tmp;; ret NGX_ERROR) s' (outcome v) (placed v))
    by (intros; apply wp_drop; [done|by intros; apply Hno]).
  assert (Hft : filled K tmp s0 id v names (tick s)).
  { destruct Hf as [_ H]. split; [etrans; [exact Ha|apply aside_tick]|exact H]. }
  pose proof Hft as [Hat _].
  apply wp_bind. eapply wp_mono; [apply (wp_sys tmp K s0 _ s _ Ha)|intros r s' H; exact H|apply placed_refl].
  - intros e Hd _. cbv beta iota. destruct (e =? ENOENT) eqn:Ee; reflect_bools; [|by apply Hrm].
    apply (sane_denied _ Hsane) in Hd as [_ Hd]. destruct Hd. by left.
  - intros _. cbn. destruct (tree s !! dir) as [[lid lm| | |]|] eqn:El; try by apply Hrm.
    + apply wp_bind. unfold ngx_autocert_order_swap_dirs_at. rewrite Hposix.
      apply wp_renameat2. eapply wp_exchange; [exact Hft|exact Hk|exact El|..].
      * intros e s' Ha' rc Hrc Hab. apply Z.eqb_neq in Hrc, Hab. rewrite Hrc, Hab. by apply Hrm.
      * intros s' Hp. by apply wp_retire.
    + apply wp_bind, wp_renameat2. eapply wp_move; [exact Hft|exact Hk|exact El|..].
      * intros e s' Ha' rc Hrc Hab. apply Z.eqb_neq in Hrc. rewrite Hrc. by apply Hrm.
      * intros s' Hp. by apply wp_settle.
Qed.
End Commit.

(** ** The whole run *)

(** Directories have one name each, and the files in what may come back have been made. *)
Record tidy (K : kernel) (s : fs) : Prop := {
  ti_sound : sound s;
  ti_below : forall t d, may_return K s t d -> forall id, below (next s) (d id) }.

(** What a reader finds under a name of what comes back is what it could find before. *)
Definition read_alike (x : bytes) (s : fs) (t : tree_t) (d : nat -> entries_t) (s0 : fs) (t0 : tree_t) (d0 : nat -> entries_t) : Prop :=
  t !! x = t0 !! x /\ view_of (inodes s) d (t !! x) = view_of (inodes s0) d0 (t0 !! x).

(** Of a file system and a later one: whatever comes back is, for a reader, what could before, but for the staging
    name and for [v] under [dir]. *)
Definition old_or_new (K : kernel) (tmp dir : bytes) (v : gmap bytes (bytes * Z)) (s0 s : fs) : Prop :=
  forall t d, may_return K s t d -> exists t0 d0, may_return K s0 t0 d0 /\
    (forall x, x <> tmp -> x <> dir -> read_alike x s t d s0 t0 d0) /\
    (read_alike dir s t d s0 t0 d0 \/ view_of (inodes s) d (t !! dir) = Some v).

(** Whatever comes back has [v] under [dir], and every other entry that is there now, with what could be in it. *)
Definition durably_new (K : kernel) (tmp dir : bytes) (v : gmap bytes (bytes * Z)) (s0 s : fs) : Prop :=
  forall t d, may_return K s t d ->
    t = tree s /\ view_of (inodes s) d (t !! dir) = Some v /\
    forall x, x <> tmp -> x <> dir -> t !! x = tree s0 !! x /\
      exists t0 d0, may_return K s0 t0 d0 /\ view_of (inodes s) d (t !! x) = view_of (inodes s0) d0 (tree s0 !! x).

Lemma alike_read K x s t d s0 t0 d0 :
  tidy K s0 -> same_core (next s0) (inodes s0) (inodes s) -> may_return K s0 t0 d0 -> alike x t d t0 d0 -> read_alike x s t d s0 t0 d0.
Proof.
  intros Ht Hc H0 [E Hd]. split; [done|]. rewrite E. destruct (t0 !! x) as [[id m| | |]|] eqn:Ex; try done. cbn.
  rewrite (Hd id m eq_refl). f_equal. apply (same_core_reader (next s0)); [done|]. by eapply ti_below.
Qed.

Lemma placed_old_or_new K tmp dir v s0 s :
  tidy K s0 -> ordered K = true -> placed K tmp dir s0 v s -> old_or_new K tmp dir v s0 s.
Proof.
  intros Htidy Ho [C N P] t d Hr. destruct (P Ho t d Hr) as (t0 & d0 & H0 & Eo & Ed). exists t0, d0. split; [done|]. split.
  - intros x Hx Hx'. by eapply alike_read, Eo.
  - destruct Ed as [Ed|(id & m & -> & Hv & _)]; [left; by eapply alike_read|right]. cbn. by rewrite Hv.
Qed.

Lemma in_place_durable K tmp dir v s0 s :
  tidy K s0 -> in_place K tmp dir s0 v s -> final K s -> durably_new K tmp dir v s0 s.
Proof.
  intros Htidy [Hs [C N _] (id & m & Hd & Hn) Ht Hv] Hf t d Hr. pose proof (Hf t d Hr) as ->. split; [done|]. split.
  - rewrite Hd. cbn. f_equal. apply Hn. by exists (tree s), d.
  - intros x Hx Hx'. rewrite (Ht x) by done. split; [done|]. destruct (tree s0 !! x) as [[id' m'| | |]|] eqn:Ex.
    2-5: exists (tree s0), (entries_in (dirs s0)); split; [apply return_now|done].
    destruct (Hv x id' m' (conj Hx Hx') Ex (d id')) as (t0 & d0 & H0 & E0); [by exists (tree s), d|].
    exists t0, d0. split; [done|]. cbn. f_equal. rewrite <- E0. apply (same_core_reader (next s0)); [done|]. by eapply ti_below.
Qed.

Lemma staging_ne (seg : bytes) : seg <> seg ++ str ".tmp".
Proof. intros E%(f_equal length). rewrite length_app in E. cbn in E. lia. Qed.

Section Store.
Context (K : kernel) (Hsane : sane K) (Hposix : windows K = false).
Context (inet_addr : bytes -> Z) (inet6_addr : bytes -> option bytes) (oom : nat -> bool).
Context (n0 : nat) (Hintr : forall n, (n0 <= n)%nat -> denied K n <> Some EINTR).

Lemma wp_pin tmp s0 s (Q : unit + Z -> fs -> Prop) :
  aside tmp K s0 s -> (forall r, aside tmp K s0 (tick s) -> Q r (tick s)) -> wp (sys_pin K) s Q (aside tmp K s0).
Proof. intros Ha HQ. apply wp_sys; [done|intros e _; apply HQ|intros Ht; by apply HQ]. Qed.

Lemma wp_open_container tmp o s0 s :
  aside tmp K s0 s -> wp (open_container K oom o) s (fun _ s' => aside tmp K s0 s') (aside tmp K s0).
Proof.
  intros Ha. assert (Hpin : forall s', aside tmp K s0 s' ->
    wp (let! r := sys_pin K in ret (match r with inl _ => true | inr _ => false end)) s' (fun _ s' => aside tmp K s0 s') (aside tmp K s0)).
  { intros s' Ha'. apply wp_bind, wp_pin; [done|]. intros r Ht. by apply wp_ret. }
  unfold open_container. destruct (so_certbot o); [|by apply Hpin]. destruct (oom 1); [by apply wp_ret|].
  apply wp_bind, wp_pin; [done|]. intros [[]|e] Ht; [|by apply wp_ret]. apply wp_bind, wp_sys; [done|..].
  - intros e _ Ht'. cbv beta iota. destruct (negb _); [by apply wp_ret|by apply Hpin].
  - intros Ht'. cbn. destruct (so_live_there o); cbn; by apply Hpin.
Qed.

Lemma wp_mkdir tmp mode s0 s (Q : unit + Z -> fs -> Prop) :
  sound s0 -> aside tmp K s0 s -> (forall e s', aside tmp K s0 s' -> Q (inr e) s') ->
  (forall s' id m, aside tmp K s0 s' -> staged tmp s' id m ∅ -> Q (inl tt) s') ->
  wp (sys_mkdir K tmp mode) s Q (aside tmp K s0).
Proof.
  intros Hs0 Ha He HQ. apply wp_sys; [done|intros e _; by apply He|]. intros Ht. cbn. destruct (tree s !! tmp) eqn:Et; cbn; [by apply He|].
  eapply HQ; [|split; cbn; by rewrite lookup_insert_eq].
  etrans; [exact Ht|]. apply (aside_mkdir tmp K (tick s)); [|exact Et]. by apply (as_sound _ _ _ _ Ht).
Qed.

Lemma wp_write_store fuel o s0 :
  (n0 + length (so_key_pem o) + length (so_chain o) <= fuel)%nat -> tidy K s0 ->
  let dir := ngx_autocert_fs_segment inet_addr inet6_addr NGX_AUTOCERT_DOMAIN_SEG_MAX (so_domain o) in
  let tmp := dir ++ str ".tmp" in
  let v := new_view o (inodes s0) (entries_in (dirs s0)) (tree s0 !! dir) in
  wp (ngx_autocert_order_store K inet_addr inet6_addr oom fuel o) s0
    (fun r s => placed K tmp dir s0 v s /\ (r = NGX_OK -> in_place K tmp dir s0 v s /\ final K s))
    (placed K tmp dir s0 v).
Proof.
  intros Hfuel Htidy dir tmp v. pose proof (ti_sound _ _ Htidy) as Hs0.
  unfold ngx_autocert_order_store. fold dir tmp. cbv zeta. pose proof (staging_ne dir : dir <> tmp) as Hdir.
  assert (Hno : forall s, aside tmp K s0 s -> wp (ret NGX_ERROR) s
    (fun r s => placed K tmp dir s0 v s /\ (r = NGX_OK -> in_place K tmp dir s0 v s /\ final K s)) (placed K tmp dir s0 v)).
  { intros s Ha. apply wp_ret. split; [by apply placed_refl|done]. }
  assert (Hrm : forall s, aside tmp K s0 s -> wp (ngx_autocert_order_rm_staging_at K tmp;; ret NGX_ERROR) s
    (fun r s => placed K tmp dir s0 v s /\ (r = NGX_OK -> in_place K tmp dir s0 v s /\ final K s)) (placed K tmp dir s0 v)).
  { intros s Ha. apply wp_drop; [done..|]. by intros s' Hp. }
  do 4 (case_match; [by apply Hno|]).
  apply wp_bind. eapply wp_mono; [by apply (wp_open_container tmp o s0 s0)| |by apply placed_refl]. intros [] s1 Hs1; [cbn [negb]|by apply Hno].
  case_match; [by apply Hno|]. fold tmp.
  apply wp_bind. eapply wp_mono; [by apply (wp_rm_staging tmp K s0)| |by apply placed_refl]. intros ? s2 Hs2.
  apply wp_bind. eapply wp_mono; [apply (wp_mkdir tmp 448 s0 s2); [done|done|..]|intros r s' H'; exact H'|by apply placed_refl].
  { intros e s' Ha. by apply Hno. }
  intros s3 id m Hs3 Hst3. apply wp_bind.
  eapply wp_mono; [apply (wp_open_dir tmp K s0 tmp s3); [done|..]|intros r s' H'; exact H'|by apply placed_refl].
  { intros e Ht _. by apply Hrm. }
  intros id' m' Hid Ht. rewrite (proj1 Hst3) in Hid. injection Hid as <- <-. apply wp_bind.
  eapply wp_mono; [apply (wp_pin tmp s0 (tick s3)); [done|]|intros r s' H'; exact H'|by apply placed_refl].
  intros [[]|e] Ht4; [|by apply Hrm]. apply wp_bind.
  eapply wp_mono; [eapply (wp_fill K Hsane tmp s0 Hs0 n0 Hintr fuel o dir _ id m); [done|done| |exact Hst3|done]| |by apply placed_refl].
  { destruct (tree s0 !! dir) as [[]|]; try done. eapply (ti_below _ _ Htidy), return_now. }
  intros [] s5 [Hs5 Hf]; [cbn [negb]|by apply Hrm]. destruct (Hf eq_refl) as [[names Hfill] Hk].
  eapply wp_commit; [done..|exact Hfill|by apply Hk].
Qed.
End Store.

(** ** What the store promises *)

(** C7. A certificate and its key are replaced together, on a POSIX kernel and a file system that keeps the changes
    of its directories in order.  However the run ends -- well, by a call that failed or by the machine stopping
    before any of its calls -- and whatever state comes back: under the name of the certificate a reader finds what
    could have been there before, or the whole new set with every byte and mode durable, and every other name of the
    container is untouched but one, the staging name, which is the name with ".tmp" after it.  The run never uses a
    directory or a file that is gone, and it ends. *)
Theorem ngx_autocert_order_store_crash_safe K inet_addr inet6_addr oom n0 fuel o s0 :
  sane K -> windows K = false -> ordered K = true -> (forall n, (n0 <= n)%nat -> denied K n <> Some EINTR) ->
  (n0 + length (so_key_pem o) + length (so_chain o) <= fuel)%nat -> tidy K s0 ->
  let dir := ngx_autocert_fs_segment inet_addr inet6_addr NGX_AUTOCERT_DOMAIN_SEG_MAX (so_domain o) in
  let promise := old_or_new K (dir ++ str ".tmp") dir (new_view o (inodes s0) (entries_in (dirs s0)) (tree s0 !! dir)) s0 in
  match ngx_autocert_order_store K inet_addr inet6_addr oom fuel o s0 with
  | Ret _ s | Err s => promise s
  | Fault | NoFuel => False
  end.
Proof.
  intros Hsane Hposix Hord Hintr Hfuel Htidy dir promise.
  pose proof (wp_write_store K Hsane Hposix inet_addr inet6_addr oom n0 Hintr fuel o s0 Hfuel Htidy) as H. cbv zeta in H. unfold wp in H.
  destruct (ngx_autocert_order_store _ _ _ _ _ _ _); try done; [apply proj1 in H|]; by apply placed_old_or_new.
Qed.

(** C8. When it reports success the change is durable, on a POSIX kernel and whether the file system keeps the
    changes of its directories in order or not: whatever comes back after a crash has the new set under the name, with
    every byte and mode, and under every other name but the staging one -- the name with ".tmp" after it -- the entry
    that was there, with what could be in it before.  This is about the container, which was there: when the run had
    to make "live" in a certbot store, nothing ever synchronizes the directory "live" is in. *)
Theorem ngx_autocert_order_store_durable K inet_addr inet6_addr oom n0 fuel o s0 s :
  sane K -> windows K = false -> (forall n, (n0 <= n)%nat -> denied K n <> Some EINTR) ->
  (n0 + length (so_key_pem o) + length (so_chain o) <= fuel)%nat -> tidy K s0 ->
  ngx_autocert_order_store K inet_addr inet6_addr oom fuel o s0 = Ret NGX_OK s ->
  let dir := ngx_autocert_fs_segment inet_addr inet6_addr NGX_AUTOCERT_DOMAIN_SEG_MAX (so_domain o) in
  durably_new K (dir ++ str ".tmp") dir (new_view o (inodes s0) (entries_in (dirs s0)) (tree s0 !! dir)) s0 s.
Proof.
  intros Hsane Hposix Hintr Hfuel Htidy Hrun dir.
  pose proof (wp_write_store K Hsane Hposix inet_addr inet6_addr oom n0 Hintr fuel o s0 Hfuel Htidy) as H. cbv zeta in H. unfold wp in H.
  rewrite Hrun in H. destruct H as [_ H]. destruct (H eq_refl). by apply in_place_durable.
Qed.

(** ** A renewal *)

(** A kernel that fails no call, but for those in [bad], and stops before the call [stop]. *)
Definition demo_kernel (ord : bool) (stop : option nat) (bad : nat -> option Z) : kernel :=
  Kernel (fun n => bool_decide (stop = Some n)) bad (fun _ => 7) ELOOP 0 false ord.

(** An ECDSA pair and an RSA pair for "a.example", and another name. *)
Definition demo_dir : entries_t :=
  <[str "privkey.pem" := LFile 2]> (<[str "fullchain.pem" := LFile 3]>
  (<[str "privkey.rsa.pem" := LFile 4]> (<[str "fullchain.rsa.pem" := LFile 5]> ∅))).

(** Nothing is to be synchronized. *)
Definition still (t : tree_t) (d : dirs_t) (m : gmap nat file) (n : nat) : fs := Fs t d [] [] ∅ m n 0.

Definition demo_fs : fs :=
  still (<[str "a.example" := NDir 0 448]> (<[str "b.example" := NDir 1 448]> ∅)) (<[0%nat := demo_dir]> (<[1%nat := ∅]> ∅))
     (<[2%nat := File (str "old key") 384 1 true]> (<[3%nat := File (str "old chain") 420 1 true]>
     (<[4%nat := File (str "rsa key") 384 1 true]> (<[5%nat := File (str "rsa chain") 420 1 true]> ∅)))) 6.

Definition demo_order : store_order :=
  StoreOrder (str "/store") false (str "a.example") 0 (str "the new key") (str "the new chain") false.

Definition demo_new : gmap bytes (bytes * Z) :=
  <[str "privkey.pem" := (str "the new key", 384)]> (<[str "fullchain.pem" := (str "the new chain", 420)]>
  (<[str "privkey.rsa.pem" := (str "rsa key", 384)]> (<[str "fullchain.rsa.pem" := (str "rsa chain", 420)]> ∅))).

Definition demo_run (K : kernel) := ngx_autocert_order_store K ex_inet_addr ex_inet6_addr (fun _ => false) 60 demo_order demo_fs.

Lemma demo_sane ord stop bad :
  (forall n e, bad n = Some e -> e <> 0 /\ ~ telling e) -> sane (demo_kernel ord stop bad).
Proof. intros H. split; [exact H|by left]. Qed.

(** What comes back where nothing is to be synchronized is what is there. *)
Lemma still_returns K t d m n t' d' : may_return K (still t d m n) t' d' -> t' = t /\ forall id, d' id = entries_in d id.
Proof.
  unfold may_return. destruct (ordered K); cbn.
  - by intros (h & ->%list_elem_of_singleton & -> & Hd).
  - intros [->%list_elem_of_singleton Hd]. split; [done|]. intros id. specialize (Hd id). unfold olds in Hd. cbn in Hd.
    rewrite lookup_empty in Hd. by apply list_elem_of_singleton in Hd.
Qed.

Lemma demo_tidy K : tidy K demo_fs.
Proof.
  assert (Hnodes : forall x id m, tree demo_fs !! x = Some (NDir id m) -> x = str "a.example" /\ id = 0%nat \/ x = str "b.example" /\ id = 1%nat).
  { intros x id m. cbn [tree demo_fs still]. rewrite !lookup_insert_Some, lookup_empty. naive_solver. }
  split; [split|].
  - intros x y id m m' [[-> ->]|[-> ->]]%Hnodes [[-> E]|[-> E]]%Hnodes; done.
  - intros x id m [[-> ->]|[-> ->]]%Hnodes; (split; [cbn; lia|by eexists]).
  - intros t d [_ Hd]%still_returns id leaf i. rewrite Hd. clear Hd. destruct id as [|[|id]].
    + change (demo_dir !! leaf = Some (LFile i) -> (i < 6)%nat). unfold demo_dir. rewrite !lookup_insert_Some, lookup_empty. naive_solver lia.
    + change ((∅ : entries_t) !! leaf = Some (LFile i) -> (i < 6)%nat). by rewrite lookup_empty.
    + unfold entries_in. rewrite !lookup_insert_ne, lookup_empty by done. cbn. by rewrite lookup_empty.
Qed.

(** It succeeds, with the RSA pair carried over, on a file system that keeps nothing in order. *)
Lemma ngx_autocert_order_store_durable_witness :
  exists s, demo_run (demo_kernel false None (fun _ => None)) = Ret NGX_OK s /\
    forall t d, may_return (demo_kernel false None (fun _ => None)) s t d -> view_of (inodes s) d (t !! str "a.example") = Some demo_new.
Proof.
  assert (Hok : exists s, demo_run (demo_kernel false None (fun _ => None)) = Ret NGX_OK s) by (vm_compute; eexists; reflexivity).
  destruct Hok as [s Hs]. exists s. split; [exact Hs|].
  pose proof (ngx_autocert_order_store_durable (demo_kernel false None (fun _ => None)) ex_inet_addr ex_inet6_addr (fun _ => false) 0 60 demo_order demo_fs s
    ltac:(apply demo_sane; discriminate) eq_refl ltac:(discriminate) ltac:(vm_compute; lia) ltac:(apply demo_tidy) Hs) as H.
  assert (Ed : ngx_autocert_fs_segment ex_inet_addr ex_inet6_addr NGX_AUTOCERT_DOMAIN_SEG_MAX (so_domain demo_order) = str "a.example")
    by (vm_compute; reflexivity).
  cbv zeta in H. rewrite Ed in H. intros t d Ht. destruct (H t d Ht) as (_ & Hv & _). etransitivity; [exact Hv|].
  apply (bool_decide_unpack _). vm_compute. exact I.
Defined.

(** A write is interrupted by a signal, and the machine stops while the old files are being removed. *)
Definition demo_stop (ord : bool) : kernel := demo_kernel ord (Some 35%nat) (fun n => if (n =? 16)%nat then Some EINTR else None).

Lemma ngx_autocert_order_store_crash_safe_witness :
  match demo_run (demo_stop true) with
  | Ret _ s | Err s =>
      old_or_new (demo_stop true) (ngx_autocert_fs_segment ex_inet_addr ex_inet6_addr NGX_AUTOCERT_DOMAIN_SEG_MAX (str "a.example") ++ str ".tmp")
        (ngx_autocert_fs_segment ex_inet_addr ex_inet6_addr NGX_AUTOCERT_DOMAIN_SEG_MAX (str "a.example"))
        (new_view demo_order (inodes demo_fs) (entries_in (dirs demo_fs))
           (tree demo_fs !! ngx_autocert_fs_segment ex_inet_addr ex_inet6_addr NGX_AUTOCERT_DOMAIN_SEG_MAX (str "a.example"))) demo_fs s
  | Fault | NoFuel => False
  end.
Proof.
  assert (Hs : sane (demo_stop true)).
  { apply demo_sane. intros n e. destruct (n =? 16)%nat; [|done]. intros [= <-]. split; [done|].
    unfold telling, ENOENT, ENOTDIR, EEXIST, ELOOP, EINTR. lia. }
  assert (Hi : forall n, (17 <= n)%nat -> denied (demo_stop true) n <> Some EINTR).
  { intros n Hn. cbn. destruct (n =? 16)%nat eqn:E; [|done]. apply Nat.eqb_eq in E. lia. }
  exact (ngx_autocert_order_store_crash_safe (demo_stop true) ex_inet_addr ex_inet6_addr (fun _ => false) 17 60 demo_order demo_fs
    Hs eq_refl eq_refl Hi ltac:(vm_compute; lia) (demo_tidy _)).
Defined.

(** After the stop, what may come back of the latest states: the new set, and at the last the old one. *)
Definition reads_new (m : gmap nat file) (h : tree_t * dirs_t) : bool :=
  bool_decide (view_of m (entries_in h.2) (h.1 !! str "a.example") = Some demo_new).

Example demo_after_stop :
  match demo_run (demo_stop true) with
  | Err s => map (reads_new (inodes s)) (take 4 ((tree s, dirs s) :: past s))
  | _ => []
  end = [true; true; true; false].
Proof. vm_compute. reflexivity. Qed.

(** Where the file system does not keep the changes of different directories in order, the files of the old directory
    are removed too early: the container is synchronized only after it.  The machine that stops there may come back
    with the old directory in place and its key gone. *)
Definition key_gone (s : fs) : bool :=
  match view_of (inodes s) (entries_in (dirs s)) (tree demo_fs !! str "a.example") with
  | Some v => bool_decide (v !! str "privkey.pem" = None) && bool_decide (v !! str "fullchain.rsa.pem" <> None)
  | None => false
  end.

Example unordered_swap_loses :
  match demo_run (demo_stop false) with
  | Err s => may_return (demo_stop false) s (tree demo_fs) (entries_in (dirs s)) /\ key_gone s = true
  | _ => False
  end.
Proof.
  assert (H : match demo_run (demo_stop false) with
              | Err s => bool_decide (tree demo_fs ∈ tree s :: old_trees s) && key_gone s
              | _ => false
              end = true) by (vm_compute; reflexivity).
  destruct (demo_run (demo_stop false)) as [r s|s| |]; try done. apply andb_true_iff in H as [H1%bool_decide_eq_true H2].
  split; [|exact H2]. split; [exact H1|]. intros id. left.
Qed.

(** The staging name of one certificate may be the name of another: issuing for "b" removes what is stored for
    "b.tmp". *)
Definition twin_fs : fs :=
  still (<[str "b.tmp" := NDir 0 448]> ∅) (<[0%nat := <[str "privkey.pem" := LFile 1]> ∅]> ∅) (<[1%nat := File (str "key") 384 1 true]> ∅) 2.

Example staging_clobbers_a_name :
  ngx_autocert_order_domain_safe (str "b.tmp") = NGX_OK /\
  match ngx_autocert_order_store (demo_kernel true None (fun _ => None)) ex_inet_addr ex_inet6_addr (fun _ => false) 30
          (StoreOrder (str "/store") false (str "b") 0 (str "k") (str "c") false) twin_fs with
  | Ret r s => r = NGX_OK /\ tree s !! str "b.tmp" = None
  | _ => False
  end.
Proof. vm_compute. split; [reflexivity|split; reflexivity]. Qed.
