(* ===== verification/Serve.v ===== *)
(** * Serving certificates (ngx_autocert_serve.c)

    The OpenSSL callbacks of a worker: which stored certificate a TLS handshake
    presents, and the cache of loaded certificates they keep.  OpenSSL's objects
    are handles, held once each by the module, with the value they carry; what the
    parser and the checks of OpenSSL answer is a record of functions ([openssl]),
    what the file system answers and which allocations fail an environment
    ([env]) indexed by the number of the call. *)

From S2P Require Import Prelude NgxCore Loadcap Ident Shm Store Alpn Requests RequestsThms Expiry.

Local Open Scope Z_scope.
Local Open Scope prog_scope.

(** ** Objects, slots, entries *)

(** A reference the module holds, and the value behind it. *)
Record obj (A : Type) := Obj { ref : nat; value : A }.
Arguments Obj {A}.
Arguments ref {A}.
Arguments value {A}.

Definition NGX_AUTOCERT_UNIQ_NEVER_LOADED : Z := 2 ^ 64 - 1.

Record stat := Stat { st_mtime : Z; st_size : Z; st_ino : Z }.

Record slot (X K : Type) := Slot {
  sl_cert : option (obj X);
  sl_chain : option (nat * list (obj X));
  sl_key : option (obj K);
  sl_mtime : Z;
  sl_size : Z;
  sl_uniq : Z }.
Arguments Slot {X K}.
Arguments sl_cert {X K}.
Arguments sl_chain {X K}.
Arguments sl_key {X K}.
Arguments sl_mtime {X K}.
Arguments sl_size {X K}.
Arguments sl_uniq {X K}.

(** A cached name ([ngx_autocert_cert_t]). *)
Record entry (X K : Type) := Entry {
  e_ec : slot X K;
  e_rsa : slot X K;
  e_checked : Z;
  e_deferred : bool }.
Arguments Entry {X K}.
Arguments e_ec {X K}.
Arguments e_rsa {X K}.
Arguments e_checked {X K}.
Arguments e_deferred {X K}.

Inductive which := EC | RSA.

#[export] Instance which_eq_dec : EqDecision which.
Proof. solve_decision. Defined.

Definition get_slot {X K} (e : entry X K) (s : which) : slot X K := match s with EC => e_ec e | RSA => e_rsa e end.
Definition put_slot {X K} (s : which) (sl : slot X K) (e : entry X K) : entry X K :=
  match s with
  | EC => Entry sl (e_rsa e) (e_checked e) (e_deferred e)
  | RSA => Entry (e_ec e) sl (e_checked e) (e_deferred e)
  end.

(** ** OpenSSL *)

Record openssl (X K : Type) := Openssl {
  (** the first certificate of a PEM text, the ones after it, and whether these
      end where the text does *)
  pem_leaf : bytes -> option X;
  pem_rest : bytes -> list X;
  pem_clean : bytes -> bool;
  pem_key : bytes -> option K;
  check_key : X -> K -> Z;
  x_id : X -> option Z;
  k_id : K -> Z;
  x_ip : X -> bytes -> bool;
  x_host : X -> bytes -> bool }.
Arguments pem_leaf {X K}.
Arguments pem_rest {X K}.
Arguments pem_clean {X K}.
Arguments pem_key {X K}.
Arguments check_key {X K}.
Arguments x_id {X K}.
Arguments k_id {X K}.
Arguments x_ip {X K}.
Arguments x_host {X K}.

(** The certificate, key and chain a connection has for a key type. *)
Record cpk (X K : Type) := Cpk { c_x : option X; c_k : option K; c_chain : list X }.
Arguments Cpk {X K}.
Arguments c_x {X K}.
Arguments c_k {X K}.
Arguments c_chain {X K}.

Definition no_cpk {X K} : cpk X K := Cpk None None [].

(** A connection of OpenSSL: what it has per key type, and which of these is current,
    as the calls on it leave them.  A call answers [None] when it refuses. *)
Class Tls {X K : Type} (O : openssl X K) (C : Type) := {
  certs : C -> gmap Z (cpk X K);
  current : C -> option Z;
  clear : C -> C;
  use_certificate : C -> X -> option C;
  use_private_key : C -> K -> option C;
  set1_chain : C -> list X -> option C;
  clear_spec : forall c, certs (clear c) = ∅;
  use_certificate_spec : forall c x,
    match use_certificate c x with
    | Some c' => exists id k, x_id O x = Some id /\ current c' = Some id /\
        let o := default no_cpk (certs c !! id) in
        certs c' = <[id := Cpk (Some x) k (c_chain o)]> (certs c) /\ (k = None \/ k = c_k o)
    | None => x_id O x = None
    end;
  use_private_key_spec : forall c k,
    let o := default no_cpk (certs c !! k_id O k) in
    match use_private_key c k with
    | Some c' => current c' = Some (k_id O k) /\ certs c' = <[k_id O k := Cpk (c_x o) (Some k) (c_chain o)]> (certs c)
    | None => exists x, c_x o = Some x /\ check_key O x k <> 1
    end;
  set1_chain_spec : forall c chain,
    match set1_chain c chain with
    | Some c' => exists id, current c = Some id /\
        let o := default no_cpk (certs c !! id) in certs c' = <[id := Cpk (c_x o) (c_k o) chain]> (certs c)
    | None => current c = None
    end }.

(** ** Configuration ([ngx_autocert_serve_ctx_t]) *)

Record serve_ctx := ServeCtx {
  path : bytes;
  certbot : bool;
  names : option (list bytes);
  has_alpn_zone : bool;
  has_requests_zone : bool;
  load_limit : Z;
  slot_mask : Z;
  slot_count : Z }.

Definition slot_bit (s : which) : Z := match s with EC => 0 | RSA => 1 end.

(** The slots the key types enable, and how many they are. *)
Definition slot_mask_of (key_types : option (list Z)) : Z :=
  match key_types with
  | Some ((_ :: _) as kts) =>
      fold_left (fun mask kt => Z.lor mask (Z.shiftl 1 (slot_bit (if is_rsa kt then RSA else EC)))) kts 0
  | _ => Z.shiftl 1 (slot_bit EC)
  end.

Definition slot_enabled (mask : Z) (s : which) : bool := negb (Z.land mask (Z.shiftl 1 (slot_bit s)) =? 0).

Definition slot_count_of (mask : Z) : Z :=
  fold_left (fun n s => if slot_enabled mask s then n + 1 else n) [EC; RSA] 0.

Definition ngx_autocert_slot_chain_name (s : which) : bytes :=
  match s with EC => str "/fullchain.pem" | RSA => str "/fullchain.rsa.pem" end.
Definition ngx_autocert_slot_key_name (s : which) : bytes :=
  match s with EC => str "/privkey.pem" | RSA => str "/privkey.rsa.pem" end.

(** ** The environment *)

Record env (X C : Type) := Env {
  ok : nat -> bool;
  (** pinning and opening a path, fstat, the owner check, and read(fd, buf, size),
      [None] when it fails *)
  opens : nat -> bytes -> bool;
  fstats : nat -> bytes -> option stat;
  owned : nat -> bytes -> bool;
  reads : nat -> bytes -> Z -> option bytes;
  (** what the registered consumer answers, and what it leaves of the connection *)
  consumer : nat -> C -> Z * C;
  (** X509_cmp_current_time of notBefore and notAfter *)
  cmp_before : nat -> X -> Z;
  cmp_after : nat -> X -> Z }.
Arguments ok {X C}.
Arguments opens {X C}.
Arguments fstats {X C}.
Arguments owned {X C}.
Arguments reads {X C}.
Arguments consumer {X C}.
Arguments cmp_before {X C}.
Arguments cmp_after {X C}.

(** What the registry of runtime names promises. *)
Class Issued (H : Type) := {
  iss_state : bytes -> prog (zone H) Z;
  iss_inv : zone H -> gmap bytes req -> Prop;
  iss_state_spec : forall z m host, iss_inv z m ->
    wp (iss_state host) z (fun rc z' => iss_inv z' m /\ rc = state_of m host) (fun _ => False) }.

(** ** The worker *)

Record gate := Gate { g_index : gset (Z * bytes); g_built : bool; g_failed : bool }.

(** The references held, and whether a copy of a private key lies in memory of the
    module, and how often one was given back unwiped. *)
Record memory := Memory { held : list nat; next : nat; dirty : bool; spilled : nat }.

Record worker (X K C H HA : Type) := Worker {
  w_pool : bool;
  (** the string tree of the cache, by key (the CRC) and text *)
  w_cache : gmap (Z * bytes) (entry X K);
  w_cap : loadcap;
  w_gate : gate;
  (** the registered consumer: the cycle it registered in *)
  w_consumer : option Z;
  w_cycle : Z;
  w_now : Z;
  w_mem : memory;
  w_calls : nat;
  (** kept to state properties: when a slot was loaded from disk, and how often the
      consumer was asked *)
  w_loads : list Z;
  w_asked : nat;
  w_requests : zone H;
  w_alpns : zone HA;
  w_ssl : C }.
Arguments Worker {X K C H HA}.
Arguments w_pool {X K C H HA}.
Arguments w_cache {X K C H HA}.
Arguments w_cap {X K C H HA}.
Arguments w_gate {X K C H HA}.
Arguments w_consumer {X K C H HA}.
Arguments w_cycle {X K C H HA}.
Arguments w_now {X K C H HA}.
Arguments w_mem {X K C H HA}.
Arguments w_calls {X K C H HA}.
Arguments w_loads {X K C H HA}.
Arguments w_asked {X K C H HA}.
Arguments w_requests {X K C H HA}.
Arguments w_alpns {X K C H HA}.
Arguments w_ssl {X K C H HA}.

(** Taking one occurrence out of a list. *)
Fixpoint remove_one (h : nat) (l : list nat) : list nat :=
  match l with [] => [] | x :: l' => if decide (x = h) then l' else x :: remove_one h l' end.

Section Setters.
Context {X K C H HA : Type}.
Abbreviation W := (worker X K C H HA).
Definition set_pool b (w : W) : W := Worker b (w_cache w) (w_cap w) (w_gate w) (w_consumer w) (w_cycle w) (w_now w) (w_mem w) (w_calls w) (w_loads w) (w_asked w) (w_requests w) (w_alpns w) (w_ssl w).
Definition set_cache c (w : W) : W := Worker (w_pool w) c (w_cap w) (w_gate w) (w_consumer w) (w_cycle w) (w_now w) (w_mem w) (w_calls w) (w_loads w) (w_asked w) (w_requests w) (w_alpns w) (w_ssl w).
Definition set_cap c (w : W) : W := Worker (w_pool w) (w_cache w) c (w_gate w) (w_consumer w) (w_cycle w) (w_now w) (w_mem w) (w_calls w) (w_loads w) (w_asked w) (w_requests w) (w_alpns w) (w_ssl w).
Definition set_gate g (w : W) : W := Worker (w_pool w) (w_cache w) (w_cap w) g (w_consumer w) (w_cycle w) (w_now w) (w_mem w) (w_calls w) (w_loads w) (w_asked w) (w_requests w) (w_alpns w) (w_ssl w).
Definition set_consumer c (w : W) : W := Worker (w_pool w) (w_cache w) (w_cap w) (w_gate w) c (w_cycle w) (w_now w) (w_mem w) (w_calls w) (w_loads w) (w_asked w) (w_requests w) (w_alpns w) (w_ssl w).
Definition set_cycle c (w : W) : W := Worker (w_pool w) (w_cache w) (w_cap w) (w_gate w) (w_consumer w) c (w_now w) (w_mem w) (w_calls w) (w_loads w) (w_asked w) (w_requests w) (w_alpns w) (w_ssl w).
Definition set_now t (w : W) : W := Worker (w_pool w) (w_cache w) (w_cap w) (w_gate w) (w_consumer w) (w_cycle w) t (w_mem w) (w_calls w) (w_loads w) (w_asked w) (w_requests w) (w_alpns w) (w_ssl w).
Definition set_mem m (w : W) : W := Worker (w_pool w) (w_cache w) (w_cap w) (w_gate w) (w_consumer w) (w_cycle w) (w_now w) m (w_calls w) (w_loads w) (w_asked w) (w_requests w) (w_alpns w) (w_ssl w).
Definition set_calls n (w : W) : W := Worker (w_pool w) (w_cache w) (w_cap w) (w_gate w) (w_consumer w) (w_cycle w) (w_now w) (w_mem w) n (w_loads w) (w_asked w) (w_requests w) (w_alpns w) (w_ssl w).
Definition set_loads l (w : W) : W := Worker (w_pool w) (w_cache w) (w_cap w) (w_gate w) (w_consumer w) (w_cycle w) (w_now w) (w_mem w) (w_calls w) l (w_asked w) (w_requests w) (w_alpns w) (w_ssl w).
Definition set_asked n (w : W) : W := Worker (w_pool w) (w_cache w) (w_cap w) (w_gate w) (w_consumer w) (w_cycle w) (w_now w) (w_mem w) (w_calls w) (w_loads w) n (w_requests w) (w_alpns w) (w_ssl w).
Definition set_requests z (w : W) : W := Worker (w_pool w) (w_cache w) (w_cap w) (w_gate w) (w_consumer w) (w_cycle w) (w_now w) (w_mem w) (w_calls w) (w_loads w) (w_asked w) z (w_alpns w) (w_ssl w).
Definition set_alpns z (w : W) : W := Worker (w_pool w) (w_cache w) (w_cap w) (w_gate w) (w_consumer w) (w_cycle w) (w_now w) (w_mem w) (w_calls w) (w_loads w) (w_asked w) (w_requests w) z (w_ssl w).
Definition set_ssl s (w : W) : W := Worker (w_pool w) (w_cache w) (w_cap w) (w_gate w) (w_consumer w) (w_cycle w) (w_now w) (w_mem w) (w_calls w) (w_loads w) (w_asked w) (w_requests w) (w_alpns w) s.
End Setters.

(** ** ALPN *)

Definition NGX_AUTOCERT_ACME_TLS_ALPN : bytes := str "acme-tls/1".
Definition NGX_AUTOCERT_ACME_TLS_ALPN_LEN : nat := 10.

(** What the callback selects: the CA's protocol, a fatal alert, what nginx would. *)
Inductive alpn_choice := AlpnAcme | AlpnFatal | AlpnDefault.

(** Whether the list of the client has the protocol; [None]: a read out of the list, or
    no end within [fuel] steps. *)
Fixpoint alpn_walk (fuel : nat) (inp : bytes) (i : nat) : option bool :=
  match fuel with
  | O => None
  | S fuel =>
      if (i <? length inp)%nat then
        match inp !! i with
        | None => None
        | Some n =>
            if (n =? Z.of_nat NGX_AUTOCERT_ACME_TLS_ALPN_LEN)
               && (i + 1 + NGX_AUTOCERT_ACME_TLS_ALPN_LEN <=? length inp)%nat
               && bool_decide (take NGX_AUTOCERT_ACME_TLS_ALPN_LEN (drop (i + 1) inp) = NGX_AUTOCERT_ACME_TLS_ALPN)
            then Some true else alpn_walk fuel inp (i + (1 + Z.to_nat n))
        end
      else Some false
  end.

(** [flagged] is what setting the flag of the connection answers, [None] when there is
    no place for it. *)
Definition ngx_http_autocert_alpn_select (flagged : option bool) (inp : bytes) : option alpn_choice :=
  match alpn_walk (S (length inp)) inp 0 with
  | Some true => Some (match flagged with Some false => AlpnFatal | _ => AlpnAcme end)
  | Some false => Some AlpnDefault
  | None => None
  end.

Section Serve.
Context {X K C H HA : Type} {IS : Issued H} {SA : Store HA (bytes * bytes)}.
Context (O : openssl X K) {T : Tls O C} (E : env X C).
Context (inet_addr : bytes -> Z) (inet6_addr : bytes -> option bytes) (crc32 : bytes -> Z).
Abbreviation W := (worker X K C H HA).
Abbreviation P A := (prog W A).

(** ** Primitives *)

Definition read {A} (f : W -> A) : P A := fun w => Ret (f w) w.
Definition update (f : W -> W) : P unit := fun w => Ret tt (f w).

(** A computation on a part of the state. *)
Definition zoom {S A} (get : W -> S) (put : S -> W -> W) (m : prog S A) : P A := fun w =>
  match m (get w) with
  | Ret a s => Ret a (put s w)
  | Err s => Err (put s w)
  | Fault => Fault
  | NoFuel => NoFuel
  end.

Definition next_call : P nat := fun w => Ret (w_calls w) (set_calls (S (w_calls w)) w).

(** An allocation, or another call that may fail. *)
Definition attempt : P bool := let! n := next_call in ret (ok E n).

(** A new reference, and giving one back: twice is a [Fault]. *)
Definition hold : P nat := fun w =>
  let m := w_mem w in
  Ret (next m) (set_mem (Memory (next m :: held m) (S (next m)) (dirty m) (spilled m)) w).

Definition drop_ref (h : nat) : P unit := fun w =>
  let m := w_mem w in
  if decide (h ∈ held m)
  then Ret tt (set_mem (Memory (remove_one h (held m)) (next m) (dirty m) (spilled m)) w)
  else Fault.

Definition new_obj {A} (a : A) : P (obj A) := let! h := hold in ret (Obj h a).
Definition free_obj {A} (o : obj A) : P unit := drop_ref (ref o).

Definition free_opt {A} (o : option (obj A)) : P unit :=
  match o with Some o => free_obj o | None => ret tt end.

Fixpoint free_all {A} (l : list (obj A)) : P unit :=
  match l with [] => ret tt | o :: l' => free_obj o;; free_all l' end.

(** [sk_X509_pop_free]: the stack and what is on it. *)
Definition free_chain (c : option (nat * list (obj X))) : P unit :=
  match c with Some (h, l) => free_all l;; drop_ref h | None => ret tt end.

(** ** Files *)

Definition NGX_AUTOCERT_PEM_MAX : Z := 1024 * 1024.

(** A copy of a key in memory; [secret] is false for what is public. *)
Definition copy_in (secret : bool) (data : bytes) : P unit :=
  update (fun w => set_mem (let m := w_mem w in
    Memory (held m) (next m) (dirty m || (secret && negb (length data =? 0)%nat)) (spilled m)) w).

Definition ngx_http_autocert_cleanse (b : option bytes) : P unit :=
  match b with
  | Some _ => update (fun w => set_mem (let m := w_mem w in Memory (held m) (next m) false (spilled m)) w)
  | None => ret tt
  end.

(** [ngx_create_pool] and [ngx_destroy_pool]: memory goes back unwiped. *)
Definition create_pool : P (option nat) :=
  let! okp := attempt in if negb okp then ret None else let! h := hold in ret (Some h).

Definition destroy_pool (h : nat) : P unit :=
  drop_ref h;;
  update (fun w => set_mem (let m := w_mem w in
    Memory (held m) (next m) false (if dirty m then S (spilled m) else spilled m)) w).

Definition ngx_http_autocert_read_file (file : bytes) (check_owner : bool) : P (option bytes) :=
  let! n := next_call in
  if negb (opens E n file) then ret None
  else
    let! n := next_call in
    match fstats E n file with
    | None => ret None
    | Some st =>
        let! n := next_call in
        if check_owner && negb (owned E n file) then ret None
        else
          let fsize := st_size st in
          if (fsize <=? 0) || (NGX_AUTOCERT_PEM_MAX <? fsize) then ret None
          else
            let! room := attempt in
            if negb room then ret None
            else
              let! n := next_call in
              match reads E n file fsize with
              | None => ret None
              | Some data =>
                  copy_in check_owner data;;
                  if negb (Z.of_nat (length data) =? fsize) then ret None else ret (Some data)
              end
    end.

(** ** Reloading a slot *)

Definition ngx_autocert_slot_fresh (sl : slot X K) (st : stat) : bool :=
  (sl_mtime sl =? st_mtime st) && (sl_size sl =? st_size st) && (sl_uniq sl =? st_ino st).

Definition unsafe_host (host : bytes) : bool :=
  match host with
  | [] => true
  | c :: _ => (c =? 46) || match ngx_strlchr host 47 with Some _ => true | None => false end
  end.

Definition store_seg (sc : serve_ctx) : bytes := if certbot sc then str "/live" else [].

Definition file_path (sc : serve_ctx) (host leaf : bytes) : bytes := path sc ++ store_seg sc ++ 47 :: host ++ leaf.

(** The intermediates: those on the stack, and whether all were read. *)
Fixpoint chain_loop (xs : list X) (clean : bool) (acc : list (obj X)) : P (list (obj X) * bool) :=
  match xs with
  | [] => ret (acc, clean)
  | x :: xs' =>
      let! okr := attempt in
      if negb okr then ret (acc, false)
      else
        let! o := new_obj x in
        let! pushed := attempt in
        if pushed then chain_loop xs' clean (acc ++ [o]) else free_obj o;; ret (acc, false)
  end.

(** The end of a reload that keeps nothing. *)
Definition done (tmp : nat) (key_pem : option bytes) (bio : option (obj unit)) (leaf : option (obj X))
    (chain : option (nat * list (obj X))) (key : option (obj K)) : P Z :=
  free_opt bio;;
  free_opt leaf;;
  free_chain chain;;
  free_opt key;;
  ngx_http_autocert_cleanse key_pem;;
  destroy_pool tmp;;
  ret NGX_ERROR.

(** The checks of a parsed pair. *)
Definition pair_fits (s : which) (host verify : bytes) (leaf : X) (key : K) : P bool :=
  if negb (check_key O leaf key =? 1) then ret false
  else if negb (match x_id O leaf with Some id => id =? (match s with RSA => EVP_PKEY_RSA | EC => EVP_PKEY_EC end) | None => false end) then ret false
  else if negb (ngx_autocert_cert_covers inet_addr inet6_addr (x_ip O leaf) (x_host O leaf) verify) then ret false
  else
    let! n := next_call in
    if 0 <=? cmp_before E n leaf then ret false
    else let! n := next_call in ret (negb (cmp_after E n leaf <=? 0)).

(** From the two texts to the new generation of the slot. *)
Definition load_pair (s : which) (st : stat) (host verify chain_pem key_pem : bytes) (tmp : nat) (sl : slot X K)
    : P (Z * slot X K) :=
  let quit bio leaf chain key := let! rc := done tmp (Some key_pem) bio leaf chain key in ret (rc, sl) in
  let! okb := attempt in
  if negb okb then quit None None None None
  else
    let! bio := new_obj tt in
    let! okr := attempt in
    match (if okr then pem_leaf O chain_pem else None) with
    | None => quit (Some bio) None None None
    | Some x =>
        let! leaf := new_obj x in
        let! oks := attempt in
        if negb oks then quit (Some bio) (Some leaf) None None
        else
          let! stack := hold in
          let! r := chain_loop (pem_rest O chain_pem) (pem_clean O chain_pem) [] in
          let chain := (stack, r.1) in
          if negb r.2 then quit (Some bio) (Some leaf) (Some chain) None
          else
            free_obj bio;;
            let! okb := attempt in
            if negb okb then quit None (Some leaf) (Some chain) None
            else
              let! bio := new_obj tt in
              let! okk := attempt in
              match (if okk then pem_key O key_pem else None) with
              | None => quit (Some bio) (Some leaf) (Some chain) None
              | Some k =>
                  let! key := new_obj k in
                  let! fits := pair_fits s host verify x k in
                  if negb fits then quit (Some bio) (Some leaf) (Some chain) (Some key)
                  else
                    free_opt (sl_cert sl);;
                    free_chain (sl_chain sl);;
                    free_opt (sl_key sl);;
                    let sl' := Slot (Some leaf) (Some chain) (Some key) (st_mtime st) (st_size st) (st_ino st) in
                    free_obj bio;;
                    ngx_http_autocert_cleanse (Some key_pem);;
                    destroy_pool tmp;;
                    ret (NGX_OK, sl')
              end
    end.

(** The return code and the slot: what was cached stays on any failure. *)
Definition ngx_http_autocert_cache_reload (sc : serve_ctx) (s : which) (host verify : bytes) (sl : slot X K) : P (Z * slot X K) :=
  update (fun w => set_loads (w_now w :: w_loads w) w);;
  let chain_leaf := ngx_autocert_slot_chain_name s in
  let key_leaf := ngx_autocert_slot_key_name s in
  if unsafe_host host then ret (NGX_ERROR, sl)
  else
    let base := (length (path sc) + length (store_seg sc) + 1 + length host)%nat in
    if (NGX_MAX_PATH <? base + length chain_leaf + 1)%nat || (NGX_MAX_PATH <? base + length key_leaf + 1)%nat
    then ret (NGX_ERROR, sl)
    else
      let chain_path := file_path sc host chain_leaf in
      let key_path := file_path sc host key_leaf in
      let! n := next_call in
      if negb (opens E n chain_path) then ret (NGX_ERROR, sl)
      else
        let! n := next_call in
        match fstats E n chain_path with
        | None => ret (NGX_ERROR, sl)
        | Some st =>
            if ngx_autocert_slot_fresh sl st then ret (NGX_OK, sl)
            else
              let! tmp := create_pool in
              match tmp with
              | None => ret (NGX_ERROR, sl)
              | Some tmp =>
                  let! chain_pem := ngx_http_autocert_read_file chain_path false in
                  match chain_pem with
                  | None => let! rc := done tmp None None None None None in ret (rc, sl)
                  | Some chain_pem =>
                      let! key_pem := ngx_http_autocert_read_file key_path true in
                      match key_pem with
                      | None => let! rc := done tmp None None None None None in ret (rc, sl)
                      | Some key_pem => load_pair s st host verify chain_pem key_pem tmp sl
                      end
                  end
              end
        end.

(** ** Names *)

(** The lookup of the configured names. *)
Definition ngx_autocert_serve_name_match (g : gate) (names : list bytes) (name : bytes) (hash : Z) : bool :=
  if g_built g then bool_decide ((hash, name) ∈ g_index g)
  else
    existsb (fun nm => (length nm =? length name)%nat
                       && match ngx_strncmp nm name (length name) with Some r => r =? 0 | None => false end) names.

(** Building the index: the nodes put in, and whether all were. *)
Fixpoint index_loop (names : list bytes) (index : gset (Z * bytes)) : P (gset (Z * bytes) * bool) :=
  match names with
  | [] => ret (index, true)
  | nm :: names' =>
      let! room := attempt in
      if negb room then ret (index, false) else index_loop names' ({[(crc32 nm, nm)]} ∪ index)
  end.

Definition build_index (sc : serve_ctx) : P unit :=
  let! g := read w_gate in
  if g_built g || g_failed g then ret tt
  else
    match names sc with
    | None => update (set_gate (Gate ∅ true (g_failed g)))
    | Some nms =>
        let! r := index_loop nms ∅ in
        update (set_gate (Gate r.1 r.2 (g_failed g || negb r.2)))
    end.

Definition sizeof_wc_buf : nat := 256.

(** The wildcard that covers a host by its first label. *)
Definition wildcard_of (host : bytes) : option bytes :=
  match ngx_strlchr host 46 with
  | Some dot =>
      let rest := drop (S dot) host in
      if (0 <? dot)%nat && (0 <? length rest)%nat && (2 + length rest <=? sizeof_wc_buf)%nat
      then Some (42 :: 46 :: rest) else None
  | None => None
  end.

(** The key a host is stored under by itself. *)
Definition own_key (host : bytes) : bytes :=
  if negb ((ngx_autocert_str_is_ip inet_addr inet6_addr host).1 =? 0) then
    let seg := ngx_autocert_fs_segment inet_addr inet6_addr NGX_AUTOCERT_DOMAIN_SEG_MAX host in
    if negb (length seg =? 0)%nat then seg else host
  else host.

(** A key of the cache: the CRC and the text. *)
Definition key_of (k : bytes) : Z * bytes := (crc32 k, k).

(** The store key of a host, and whether the host is served.  When the wildcard that
    covers the host has no segment, the key is left empty. *)
Definition resolve (sc : serve_ctx) (host : bytes) : P ((Z * bytes) * bool) :=
  let! g := read w_gate in
  let store := key_of (own_key host) in
  match names sc with
  | Some nms =>
      if ngx_autocert_serve_name_match g nms host (crc32 host) then ret (store, true)
      else
        let '(store, matched) :=
          match wildcard_of host with
          | Some wc =>
              if ngx_autocert_serve_name_match g nms wc (crc32 wc) then
                let seg := ngx_autocert_fs_segment inet_addr inet6_addr NGX_AUTOCERT_DOMAIN_SEG_MAX wc in
                if negb (length seg =? 0)%nat then (key_of seg, true) else ((store.1, []), false)
              else (store, false)
          | None => (store, false)
          end in
        if matched then ret (store, true)
        else if has_requests_zone sc then
          let! st := zoom w_requests set_requests (iss_state host) in ret (store, st =? NGX_AUTOCERT_REQ_ISSUED)
        else ret (store, false)
  | None => ret (store, true)
  end.

(** ** The connection *)

Definition SSL_certs_clear : P unit := update (fun w => set_ssl (clear (w_ssl w)) w).

(** A call on the connection. *)
Definition on_conn (f : C -> option C) : P bool :=
  let! okc := attempt in
  let! c := read w_ssl in
  match (if okc then f c else None) with
  | None => ret false
  | Some c' => update (set_ssl c');; ret true
  end.

Definition SSL_use_certificate (x : X) : P bool := on_conn (fun c => use_certificate c x).
Definition SSL_use_PrivateKey (k : K) : P bool := on_conn (fun c => use_private_key c k).
Definition SSL_set1_chain (chain : list X) : P bool := on_conn (fun c => set1_chain c chain).

(** The three calls, each only if the one before it succeeded. *)
Definition bind_pair (x : X) (k : K) (chain : list X) : P bool :=
  let! a := SSL_use_certificate x in
  if negb a then ret false
  else
    let! b := SSL_use_PrivateKey k in
    if negb b then ret false else SSL_set1_chain chain.

(** Installing the present slots: their number, [None] when one failed. *)
Fixpoint install_loop (e : entry X K) (ss : list which) (installed : nat) : P (option nat) :=
  match ss with
  | [] => ret (Some installed)
  | s :: ss' =>
      let sl := get_slot e s in
      match sl_cert sl, sl_key sl with
      | Some x, Some k =>
          let! okb := bind_pair (value x) (value k) (match sl_chain sl with Some c => map value c.2 | None => [] end) in
          if okb then install_loop e ss' (S installed) else ret None
      | _, _ => install_loop e ss' installed
      end
  end.

(** ** Refreshing an entry *)

Definition slot_never : slot X K := Slot None None None (-1) 0 NGX_AUTOCERT_UNIQ_NEVER_LOADED.
Definition entry_new : entry X K := Entry slot_never slot_never 0 false.

(** A slot that is no longer enabled. *)
Definition drop_slot (sl : slot X K) : P (slot X K) :=
  free_opt (sl_cert sl);;
  free_chain (sl_chain sl);;
  free_opt (sl_key sl);;
  ret (Slot None None None (-1) (sl_size sl) NGX_AUTOCERT_UNIQ_NEVER_LOADED).

Fixpoint refresh_loop (sc : serve_ctx) (store host : bytes) (ss : list which) (e : entry X K) : P (entry X K) :=
  match ss with
  | [] => ret e
  | s :: ss' =>
      if negb (slot_enabled (slot_mask sc) s) then
        let! sl := drop_slot (get_slot e s) in refresh_loop sc store host ss' (put_slot s sl e)
      else
        let! r := ngx_http_autocert_cache_reload sc s store host (get_slot e s) in
        refresh_loop sc store host ss' (put_slot s r.2 e)
  end.

(** The two bounds on reading the disk, and the refresh. *)
Definition refresh (sc : serve_ctx) (store host : bytes) (e : entry X K) : P (entry X K) :=
  let! now := read w_now in
  if negb (now =? e_checked e) then
    let! cap := read w_cap in
    let r := ngx_autocert_loadcap_admit_retry_n cap now (load_limit sc) (slot_count sc) (e_deferred e) in
    update (set_cap r.1);;
    if r.2 then refresh_loop sc store host [EC; RSA] (Entry (e_ec e) (e_rsa e) now false)
    else ret (Entry (e_ec e) (e_rsa e) (e_checked e) true)
  else ret e.

(** Presenting an entry: 1 to go on, 0 to fail the handshake. *)
Definition present (e : entry X K) : P Z :=
  match sl_cert (e_ec e), sl_cert (e_rsa e) with
  | None, None => ret 1
  | _, _ =>
      SSL_certs_clear;;
      let! r := install_loop e [EC; RSA] 0 in
      match r with
      | None => ret 0
      | Some installed => ret (if (installed =? 0)%nat then 0 else 1)
      end
  end.

(** ** The callbacks *)

(** What the code asks OpenSSL about the connection: whether nginx's connection is
    attached, the server name, and the flag its ALPN callback sets. *)
Record hello := Hello { has_conn : bool; servername : option bytes; acme_flag : bool }.

(** The registered consumer, if it registered in this cycle. *)
Definition ngx_http_autocert_cert_cb_delegate : P Z :=
  let! w := read id in
  match w_consumer w with
  | Some cycle =>
      if negb (cycle =? w_cycle w) then ret NGX_DECLINED
      else
        update (fun w => set_asked (S (w_asked w)) w);;
        let! n := next_call in
        let! c := read w_ssl in
        let r := consumer E n c in
        update (set_ssl r.2);;
        let rc := r.1 in
        if negb (rc =? NGX_OK) && negb (rc =? NGX_DECLINED) && negb (rc =? NGX_ERROR) then ret NGX_DECLINED else ret rc
  | None => ret NGX_DECLINED
  end.

Definition ngx_http_autocert_serve_alpn_cert (host : bytes) : P Z :=
  let! room := attempt in
  let! r := zoom w_alpns set_alpns (store_get (negb room) host) in
  match r with
  | (rc, v) =>
      if negb (rc =? NGX_OK) then ret 0
      else
        match v with
        | None => ret 0
        | Some (cert_pem, key_pem) =>
            copy_in true key_pem;;
            let quit (ret_ : Z) (bio : option (obj unit)) (cert : option (obj X)) (key : option (obj K)) :=
              free_opt bio;; free_opt cert;; free_opt key;; ngx_http_autocert_cleanse (Some key_pem);; ret ret_ in
            let! okb := attempt in
            if negb okb then quit 0 None None None
            else
              let! bio := new_obj tt in
              let! okr := attempt in
              match (if okr then pem_leaf O cert_pem else None) with
              | None => quit 0 (Some bio) None None
              | Some x =>
                  let! cert := new_obj x in
                  free_obj bio;;
                  let! okb := attempt in
                  if negb okb then quit 0 None (Some cert) None
                  else
                    let! bio := new_obj tt in
                    let! okk := attempt in
                    match (if okk then pem_key O key_pem else None) with
                    | None => quit 0 (Some bio) (Some cert) None
                    | Some k =>
                        let! key := new_obj k in
                        SSL_certs_clear;;
                        let! bound := bind_pair x k [] in
                        quit (if bound : bool then 1 else 0) (Some bio) (Some cert) (Some key)
                    end
              end
        end
  end.

(** Finding the entry of a host, making it when there is none. *)
Definition lookup_entry (store : Z * bytes) : P (option (entry X K)) :=
  let! c := read w_cache in
  match c !! store with
  | Some e => ret (Some e)
  | None =>
      let! room := attempt in
      if negb room then ret None
      else update (set_cache (<[store := entry_new]> c));; ret (Some entry_new)
  end.

(** A host that is not the CA's: the cache. *)
Definition serve_host (sc : serve_ctx) (host : bytes) : P Z :=
  let! pool := read w_pool in
  let! ready :=
    if pool then ret true
    else
      let! made := attempt in
      if made : bool then update (fun w => set_cache ∅ (set_pool true w));; ret true else ret false in
  if negb ready then ret 1
  else
    build_index sc;;
    let! r := resolve sc host in
    if negb r.2 then ret 1
    else
      let! e := lookup_entry r.1 in
      match e with
      | None => ret 1
      | Some e =>
          let! e := refresh sc r.1.2 host e in
          update (fun w => set_cache (<[r.1 := e]> (w_cache w)) w);;
          present e
      end.

Definition ngx_http_autocert_cert_cb (sc : serve_ctx) (h : hello) : P Z :=
  if negb (has_conn h) then ret 1
  else if has_alpn_zone sc && acme_flag h then
    match servername h with
    | None => ret 0
    | Some name =>
        if (length name =? 0)%nat || (NGX_AUTOCERT_ALPN_DOMAIN_MAX <? length name)%nat then ret 0
        else ngx_http_autocert_serve_alpn_cert (ngx_strlow name)
    end
  else
    let! rc := ngx_http_autocert_cert_cb_delegate in
    if rc =? NGX_OK then ret 1
    else if rc =? NGX_ERROR then ret 0
    else
      match servername h with
      | None => ret 1
      | Some name =>
          if (length name =? 0)%nat || (255 <? length name)%nat then ret 1 else serve_host sc (ngx_strlow name)
      end.

(** [ngx_autocert_cert_cb_register]; [false]: a NULL callback. *)
Definition ngx_autocert_cert_cb_register (next : bool) : P Z :=
  if negb next then ret NGX_ERROR else update (fun w => set_consumer (Some (w_cycle w)) w);; ret NGX_OK.

Definition free_entry (e : entry X K) : P unit :=
  free_opt (sl_cert (e_ec e));; free_chain (sl_chain (e_ec e));; free_opt (sl_key (e_ec e));;
  free_opt (sl_cert (e_rsa e));; free_chain (sl_chain (e_rsa e));; free_opt (sl_key (e_rsa e)).

Fixpoint ngx_autocert_serve_free_cache_certs (l : list (entry X K)) : P unit :=
  match l with [] => ret tt | e :: l' => free_entry e;; ngx_autocert_serve_free_cache_certs l' end.

Definition ngx_autocert_serve_reload : P unit :=
  let! w := read id in
  (if w_pool w then
     ngx_autocert_serve_free_cache_certs (map snd (map_to_list (w_cache w)));; update (set_pool false)
   else ret tt);;
  update (fun w => set_gate (Gate ∅ false false) (set_cache ∅ w)).

(** ** A history *)

Inductive event :=
  | EHandshake (c : C) (h : hello)
  | EReload (cycle : Z) (sc : serve_ctx)
  | ERegister (next : bool)
  | ETime (now : Z)
  | EShared (requests : zone H) (alpns : zone HA).

(** One event: a handshake, on a connection as its listener made it; a
    reload, which brings a configuration; a consumer that registers; the clock; the
    zones as other processes leave them. *)
Definition handle (sc : serve_ctx) (ev : event) : P (option Z) :=
  match ev with
  | EHandshake c h => update (set_ssl c);; let! r := ngx_http_autocert_cert_cb sc h in ret (Some r)
  | EReload cycle _ => update (set_cycle cycle);; ngx_autocert_serve_reload;; ret None
  | ERegister next => let! rc := ngx_autocert_cert_cb_register next in ret (Some rc)
  | ETime now => update (set_now now);; ret None
  | EShared requests alpns => update (fun w => set_requests requests (set_alpns alpns w));; ret None
  end.

Definition next_ctx (sc : serve_ctx) (ev : event) : serve_ctx := match ev with EReload _ sc' => sc' | _ => sc end.
End Serve.
