(* ===== verification/ServeInv.v ===== *)
(** * Serving certificates: what the steps of a reload keep

    Rules for the references, the copies of keys, the files, and the reload of one
    slot. *)

From S2P Require Import Prelude NgxCore Loadcap Ident Shm Store Alpn Requests RequestsThms Expiry Serve.

Local Open Scope Z_scope.
Local Open Scope prog_scope.

Lemma remove_one_perm h l : h ∈ l -> l ≡ₚ h :: remove_one h l.
Proof.
  induction l as [|x l IH]; intros Hin; [by apply not_elem_of_nil in Hin|]. cbn [remove_one]. destruct (decide (x = h)) as [->|Hne]; [done|].
  apply elem_of_cons in Hin as [->|Hin]; [done|]. rewrite Permutation_swap. by constructor; apply IH.
Qed.

(** ** References *)

Section Refs.
Context {X K : Type}.

Definition refs_opt {A} (o : option (obj A)) : list nat := match o with Some o => [ref o] | None => [] end.
Definition refs_all {A} (l : list (obj A)) : list nat := map ref l.
Definition refs_chain (c : option (nat * list (obj X))) : list nat :=
  match c with Some (h, l) => refs_all l ++ [h] | None => [] end.
Definition refs_slot (sl : slot X K) : list nat := refs_opt (sl_cert sl) ++ refs_chain (sl_chain sl) ++ refs_opt (sl_key sl).
Definition refs_entry (e : entry X K) : list nat := refs_slot (e_ec e) ++ refs_slot (e_rsa e).
Definition refs_cache (c : gmap (Z * bytes) (entry X K)) : list nat := concat (map (refs_entry ∘ snd) (map_to_list c)).

Lemma refs_insert c k e : c !! k = None -> refs_cache (<[k := e]> c) ≡ₚ refs_entry e ++ refs_cache c.
Proof.
  intros Hk. unfold refs_cache. change (refs_entry e ++ concat (map (refs_entry ∘ snd) (map_to_list c)))
    with (concat (map (refs_entry ∘ snd) ((k, e) :: map_to_list c))). f_equiv. apply Permutation_map. by apply map_to_list_insert.
Qed.

Lemma refs_replace c k e e' : c !! k = Some e ->
  exists rest, refs_cache c ≡ₚ refs_entry e ++ rest /\ refs_cache (<[k := e']> c) ≡ₚ refs_entry e' ++ rest.
Proof.
  intros Hk. exists (refs_cache (delete k c)). split.
  - rewrite <- (insert_delete_id c k e) at 1 by done. apply refs_insert, lookup_delete_eq.
  - rewrite <- insert_delete_eq. apply refs_insert, lookup_delete_eq.
Qed.

Context {C H HA : Type}.
Abbreviation W := (worker X K C H HA).
Implicit Types (w : W).

(** The references held, whether a key lies about, and how often one was given back. *)
Definition mem_is w (l : list nat) (d : bool) (n : nat) : Prop :=
  held (w_mem w) ≡ₚ l /\ NoDup l /\ Forall (fun h => (h < next (w_mem w))%nat) l /\ dirty (w_mem w) = d /\ spilled (w_mem w) = n.

#[export] Instance mem_is_proper w : Proper ((≡ₚ) ==> eq ==> eq ==> iff) (mem_is w).
Proof. intros l l' Hl d ? <- n ? <-. unfold mem_is. by rewrite Hl. Qed.

(** Nothing but the memory and the count of calls differs. *)
Definition quiet w w' : Prop := exists n m, w' = set_calls n (set_mem m w).

#[export] Instance quiet_preorder : PreOrder quiet.
Proof.
  split.
  - intros w. exists (w_calls w), (w_mem w). by destruct w.
  - intros w1 w2 w3 (n & m & ->) (n' & m' & ->). by exists n', m'.
Qed.

Lemma quiet_mem w m : quiet w (set_mem m w).
Proof. exists (w_calls w), m. by destruct w. Qed.

(** ... and the log of loads. *)
Definition quiet_load w w' : Prop := exists n m l, w' = set_loads l (set_calls n (set_mem m w)).
End Refs.

(** ** Rules *)

Section Rules.
Context {X K C H HA : Type} {IS : Issued H} {SA : Store HA (bytes * bytes)}.
Context (O : openssl X K) (E : env X C).
Context (inet_addr : bytes -> Z) (inet6_addr : bytes -> option bytes).
Abbreviation W := (worker X K C H HA).
Implicit Types (w : W).

Lemma wp_update_serve (f : W -> W) w (Q : unit -> W -> Prop) X_ : Q tt (f w) -> wp (update f) w Q X_.
Proof. exact id. Qed.

Lemma wp_read_serve {A} (f : W -> A) w (Q : A -> W -> Prop) X_ : Q (f w) w -> wp (read f) w Q X_.
Proof. exact id. Qed.

Lemma wp_next_call_serve w (Q : nat -> W -> Prop) X_ l d s :
  mem_is w l d s -> (forall n w', quiet w w' -> mem_is w' l d s -> Q n w') -> wp next_call w Q X_.
Proof. intros Hm HQ. apply HQ; [by exists (S (w_calls w)), (w_mem w)|done]. Qed.

Lemma wp_attempt_serve w (Q : bool -> W -> Prop) X_ l d s :
  mem_is w l d s -> (forall n w', quiet w w' -> mem_is w' l d s -> Q (ok E n) w') -> wp (attempt E) w Q X_.
Proof. intros Hm HQ. apply wp_bind. eapply wp_next_call_serve; [done|]. intros n w' Hq Hm'. by apply wp_ret, HQ. Qed.

Lemma wp_hold w (Q : nat -> W -> Prop) X_ l d s :
  mem_is w l d s -> (forall h w', quiet w w' -> mem_is w' (h :: l) d s -> Q h w') -> wp hold w Q X_.
Proof.
  intros (Hp & Hnd & Hlt & Hd & Hs) HQ. apply HQ.
  - apply quiet_mem.
  - split; [cbn; by rewrite Hp|]. split; [|split; [|by split]].
    + apply NoDup_cons. split; [|done]. rewrite Forall_forall in Hlt. intros Hin%Hlt. lia.
    + cbn. constructor; [lia|]. eapply Forall_impl; [exact Hlt|]. cbn. lia.
Qed.

Lemma wp_drop_ref h w (Q : unit -> W -> Prop) X_ l d s :
  mem_is w (h :: l) d s -> (forall w', quiet w w' -> mem_is w' l d s -> Q tt w') -> wp (drop_ref h) w Q X_.
Proof.
  intros (Hp & Hnd & Hlt & Hd & Hs) HQ. unfold wp, drop_ref.
  assert (Hin : h ∈ held (w_mem w)) by (rewrite Hp; left). rewrite decide_True by done. apply HQ.
  - apply quiet_mem.
  - apply NoDup_cons in Hnd as [_ Hnd]. apply Forall_cons in Hlt as [_ Hlt]. split; [|done].
    cbn. apply (Permutation_cons_inv (a := h)). by rewrite <- Hp, <- remove_one_perm.
Qed.

Lemma wp_free_opt {A} (o : option (obj A)) w (Q : unit -> W -> Prop) X_ l d s :
  mem_is w (refs_opt o ++ l) d s -> (forall w', quiet w w' -> mem_is w' l d s -> Q tt w') -> wp (Serve.free_opt o) w Q X_.
Proof. intros Hm HQ. destruct o as [o|]; [eapply wp_drop_ref; [exact Hm|exact HQ]|]. apply HQ; [reflexivity|exact Hm]. Qed.

Lemma wp_free_all {A} (os : list (obj A)) w (Q : unit -> W -> Prop) X_ l d s :
  mem_is w (refs_all os ++ l) d s -> (forall w', quiet w w' -> mem_is w' l d s -> Q tt w') -> wp (free_all os) w Q X_.
Proof.
  revert w. induction os as [|o os IH]; intros w Hm HQ; [apply HQ; [reflexivity|exact Hm]|]. apply wp_bind. eapply wp_drop_ref; [exact Hm|].
  intros w1 Hq1 Hm1. apply IH; [done|]. intros w2 Hq2 Hm2. apply HQ; [by etrans|done].
Qed.

Lemma wp_free_chain (c : option (nat * list (obj X))) w (Q : unit -> W -> Prop) X_ l d s :
  mem_is w (refs_chain c ++ l) d s -> (forall w', quiet w w' -> mem_is w' l d s -> Q tt w') -> wp (free_chain c) w Q X_.
Proof.
  destruct c as [[h os]|]; intros Hm HQ; [|apply HQ; [reflexivity|exact Hm]]. cbn in Hm. rewrite <- app_assoc in Hm. apply wp_bind.
  eapply wp_free_all; [exact Hm|]. intros w1 Hq1 Hm1. eapply wp_drop_ref; [exact Hm1|]. intros w2 Hq2 Hm2. apply HQ; [by etrans|done].
Qed.

Lemma mem_perm w l l' d s : mem_is w l d s -> l ≡ₚ l' -> mem_is w l' d s.
Proof. by intros Hm <-. Qed.

Lemma wp_copy_in secret data w (Q : unit -> W -> Prop) X_ l d s :
  mem_is w l d s ->
  (forall w', quiet w w' -> mem_is w' l (d || (secret && negb (length data =? 0)%nat)) s -> Q tt w') ->
  wp (copy_in secret data) w Q X_.
Proof. intros (Hp & Hnd & Hlt & Hd & Hs) HQ. apply HQ; [apply quiet_mem|]. repeat split; try done. cbn. by rewrite Hd. Qed.

Lemma wp_cleanse b w (Q : unit -> W -> Prop) X_ l d s :
  mem_is w l d s ->
  (forall w', quiet w w' -> mem_is w' l (match b with Some _ => false | None => d end) s -> Q tt w') ->
  wp (ngx_http_autocert_cleanse b) w Q X_.
Proof.
  intros (Hp & Hnd & Hlt & Hd & Hs) HQ. destruct b; apply HQ; [apply quiet_mem|repeat split; done|reflexivity|repeat split; done].
Qed.

Lemma wp_create_pool w (Q : option nat -> W -> Prop) X_ l d s :
  mem_is w l d s ->
  (forall w', (exists n, ok E n = false) -> quiet w w' -> mem_is w' l d s -> Q None w') ->
  (forall h w', quiet w w' -> mem_is w' (h :: l) d s -> Q (Some h) w') ->
  wp (create_pool E) w Q X_.
Proof.
  intros Hm Hno HQ. apply wp_bind. eapply wp_attempt_serve; [exact Hm|]. intros n w1 Hq1 Hm1. destruct (ok E n) eqn:Eo; cbn [negb].
  - apply wp_bind. eapply wp_hold; [exact Hm1|]. intros h w2 Hq2 Hm2. apply wp_ret, HQ; [by etrans|done].
  - apply wp_ret, Hno; [by exists n|done|done].
Qed.

Lemma wp_destroy_pool h w (Q : unit -> W -> Prop) X_ l d s :
  mem_is w (h :: l) d s -> (forall w', quiet w w' -> mem_is w' l false (if d then S s else s) -> Q tt w') ->
  wp (destroy_pool h) w Q X_.
Proof.
  intros Hm HQ. apply wp_bind. eapply wp_drop_ref; [exact Hm|]. intros w1 Hq1 (Hp & Hnd & Hlt & Hd & Hs).
  apply HQ; [etrans; [exact Hq1|apply quiet_mem]|]. repeat split; try done. cbn. by rewrite Hd, Hs.
Qed.

(** *** Files *)

(** Reads are not cut short. *)
Definition whole_reads : Prop := forall n file size data, reads E n file size = Some data -> Z.of_nat (length data) = size.

(** The file holds [data], and nothing keeps it from being read. *)
Definition steady (file : bytes) (secret : bool) (data : bytes) : Prop :=
  (forall n, ok E n = true) /\ (0 < length data)%nat /\ Z.of_nat (length data) <= NGX_AUTOCERT_PEM_MAX /\
  forall n, opens E n file = true /\ (secret = true -> owned E n file = true) /\
    reads E n file (Z.of_nat (length data)) = Some data /\ exists st, fstats E n file = Some st /\ st_size st = Z.of_nat (length data).

Lemma wp_read_file file secret w l d s :
  mem_is w l d s ->
  wp (ngx_http_autocert_read_file E file secret) w
    (fun r w' => quiet w w' /\ exists d', mem_is w' l d' s /\ (secret = false -> d' = d) /\
       (forall data, steady file secret data -> r = Some data) /\
       match r with
       | Some data => (exists n size, reads E n file size = Some data) /\ (secret = true -> exists n, owned E n file = true)
       | None => whole_reads -> d' = d
       end) (fun _ => False).
Proof.
  intros Hm. assert (Hno : forall w', quiet w w' -> mem_is w' l d s -> (forall data, ~ steady file secret data) ->
    quiet w w' /\ exists d', mem_is w' l d' s /\ (secret = false -> d' = d) /\
    (forall data, steady file secret data -> None = Some data) /\ (whole_reads -> d' = d)).
  { intros w' Hq Hm' Hs. split; [done|]. exists d. split; [done|]. split; [done|]. split; [|done]. by intros data Hd%Hs. }
  apply wp_bind. eapply wp_next_call_serve; [exact Hm|]. intros n1 w1 Hq1 Hm1. destruct (opens E n1 file) eqn:E1; cbn [negb].
  2: { apply wp_ret, Hno; [done|done|]. intros data (_ & _ & _ & Hf). destruct (Hf n1) as [? _]. congruence. }
  apply wp_bind. eapply wp_next_call_serve; [exact Hm1|]. intros n2 w2 Hq2 Hm2.
  assert (Hq2' : quiet w w2) by by etrans. destruct (fstats E n2 file) as [st|] eqn:E2.
  2: { apply wp_ret, Hno; [done|done|]. intros data (_ & _ & _ & Hf). destruct (Hf n2) as (_ & _ & _ & st & ? & _). congruence. }
  apply wp_bind. eapply wp_next_call_serve; [exact Hm2|]. intros n3 w3 Hq3 Hm3.
  assert (Hq3' : quiet w w3) by by etrans. destruct (secret && negb (owned E n3 file)) eqn:Eo.
  { apply wp_ret, Hno; [done|done|]. intros data (_ & _ & _ & Hf). destruct (Hf n3) as (_ & Ho & _).
    destruct secret; [|done]. by rewrite Ho in Eo. }
  cbv zeta.
  assert (Hsize : forall data, steady file secret data -> st_size st = Z.of_nat (length data)).
  { intros data (_ & _ & _ & Hf). destruct (Hf n2) as (_ & _ & _ & st' & ? & ?). congruence. }
  destruct (_ || _) eqn:Es.
  { apply wp_ret, Hno; [done|done|]. intros data Hd. pose proof (Hsize _ Hd). destruct Hd as (_ & ? & ? & _).
    reflect_bools. destruct Es; reflect_bools; lia. }
  apply wp_bind. eapply wp_attempt_serve; [exact Hm3|]. intros n4 w4 Hq4 Hm4.
  assert (Hq4' : quiet w w4) by by etrans. destruct (ok E n4) eqn:E4; cbn [negb].
  2: { apply wp_ret, Hno; [done|done|]. intros data (Hok & _). specialize (Hok n4). congruence. }
  apply wp_bind. eapply wp_next_call_serve; [exact Hm4|]. intros n5 w5 Hq5 Hm5.
  assert (Hq5' : quiet w w5) by by etrans.
  assert (Hread : forall data, steady file secret data -> reads E n5 file (st_size st) = Some data).
  { intros data Hd. rewrite (Hsize _ Hd). by apply Hd. }
  destruct (reads E n5 file (st_size st)) as [data|] eqn:Er.
  2: { apply wp_ret, Hno; [done|done|]. intros data Hd%Hread. done. }
  apply wp_bind. eapply wp_copy_in; [exact Hm5|]. intros w6 Hq6 Hm6. assert (Hq6' : quiet w w6) by by etrans.
  destruct (_ =? _) eqn:El; cbn [negb]; reflect_bools; apply wp_ret; (split; [done|]); eexists; (split; [exact Hm6|]);
    (split; [intros ->; by rewrite orb_false_r|]).
  - split; [intros data' Hd; by apply Hread in Hd|]. split; [by exists n5, (st_size st)|]. intros ->. exists n3. destruct Eo as [|Eo]; [done|]. by apply negb_false_iff in Eo.
  - split; [|intros Hw; by apply Hw in Er]. intros data' Hd. pose proof (Hsize _ Hd). apply Hread in Hd. congruence.
Qed.

(** Rearranging the references held. *)
Ltac refs Hm := eapply mem_perm; [exact Hm|cbn; rewrite ?app_nil_r; solve_Permutation].

(** *** Parsing *)

Lemma wp_chain_loop xs clean acc w (Q : list (obj X) * bool -> W -> Prop) X_ l d s :
  mem_is w (refs_all acc ++ l) d s ->
  (forall os w', quiet w w' -> mem_is w' (refs_all os ++ l) d s -> (exists n, ok E n = false) -> Q (os, false) w') ->
  (forall os w', quiet w w' -> mem_is w' (refs_all os ++ l) d s -> map value os = map value acc ++ xs -> Q (os, clean) w') ->
  wp (chain_loop E xs clean acc) w Q X_.
Proof.
  revert acc w. induction xs as [|x xs IH]; intros acc w Hm Hno HQ; cbn [chain_loop].
  { apply wp_ret, HQ; [reflexivity|done|by rewrite app_nil_r]. }
  apply wp_bind. eapply wp_attempt_serve; [exact Hm|]. intros n1 w1 Hq1 Hm1. destruct (ok E n1) eqn:E1; cbn [negb].
  2: { apply wp_ret, Hno; [done|done|by exists n1]. }
  apply wp_bind, wp_bind. eapply wp_hold; [exact Hm1|]. intros h w2 Hq2 Hm2. apply wp_ret.
  apply wp_bind. eapply wp_attempt_serve; [exact Hm2|]. intros n3 w3 Hq3 Hm3. assert (Hq3' : quiet w w3) by (etrans; [exact Hq1|by etrans]).
  destruct (ok E n3) eqn:E3.
  - apply IH.
    + unfold refs_all. rewrite map_app. refs Hm3.
    + intros os w' Hq' Hm' Hbad. apply Hno; [by etrans|done|done].
    + intros os w' Hq' Hm' Ho. apply HQ; [by etrans|done|]. rewrite Ho, map_app. cbn. by rewrite <- app_assoc.
  - apply wp_bind. eapply wp_drop_ref; [exact Hm3|]. intros w4 Hq4 Hm4. apply wp_ret, Hno; [by etrans|done|by exists n3].
Qed.

Lemma wp_done tmp key_pem bio leaf chain (key : option (obj K)) w (Q : Z -> W -> Prop) X_ l d s :
  mem_is w (refs_opt bio ++ refs_opt leaf ++ refs_chain chain ++ refs_opt key ++ tmp :: l) d s ->
  (forall w', quiet w w' -> mem_is w' l false (if match key_pem with Some _ => false | None => d end then S s else s) -> Q NGX_ERROR w') ->
  wp (done tmp key_pem bio leaf chain key) w Q X_.
Proof.
  intros Hm HQ. apply wp_bind. eapply wp_free_opt; [exact Hm|]. intros w1 Hq1 Hm1.
  apply wp_bind. eapply wp_free_opt; [exact Hm1|]. intros w2 Hq2 Hm2.
  apply wp_bind. eapply wp_free_chain; [exact Hm2|]. intros w3 Hq3 Hm3.
  apply wp_bind. eapply wp_free_opt; [exact Hm3|]. intros w4 Hq4 Hm4.
  apply wp_bind. eapply wp_cleanse; [exact Hm4|]. intros w5 Hq5 Hm5.
  apply wp_bind. eapply wp_destroy_pool; [exact Hm5|]. intros w6 Hq6 Hm6.
  apply wp_ret, HQ; [|done]. do 5 (etrans; [eassumption|]). done.
Qed.

(** The checks on a parsed pair. *)
Definition kind_id (s : which) : Z := match s with RSA => EVP_PKEY_RSA | EC => EVP_PKEY_EC end.

Definition covers (x : X) (name : bytes) : bool := ngx_autocert_cert_covers inet_addr inet6_addr (x_ip O x) (x_host O x) name.

Record fitting (s : which) (verify : bytes) (x : X) (k : K) : Prop := {
  fit_key : check_key O x k = 1;
  fit_kind : x_id O x = Some (kind_id s);
  fit_name : covers x verify = true }.

(** Its dates were right when it was loaded. *)
Definition in_time (x : X) : Prop := (exists n, cmp_before E n x < 0) /\ (exists n, 0 < cmp_after E n x).

Lemma wp_pair_fits s0 verify host x k w (Q : bool -> W -> Prop) X_ l d s :
  mem_is w l d s ->
  (forall w', quiet w w' -> mem_is w' l d s -> ~ (fitting s0 verify x k /\ forall n, cmp_before E n x < 0 /\ 0 < cmp_after E n x) -> Q false w') ->
  (forall w', quiet w w' -> mem_is w' l d s -> fitting s0 verify x k -> in_time x -> Q true w') ->
  wp (pair_fits O E inet_addr inet6_addr s0 host verify x k) w Q X_.
Proof.
  intros Hm Hno HQ. unfold pair_fits.
  destruct (check_key O x k =? 1) eqn:Ec; reflect_bools; cbn [negb].
  2: { apply wp_ret, Hno; [reflexivity|done|]. intros [[? _ _] _]. done. }
  destruct (match x_id O x with Some id => id =? _ | None => false end) eqn:Ei; cbn [negb].
  2: { apply wp_ret, Hno; [reflexivity|done|]. intros [[_ Hk _] _]. rewrite Hk, Z.eqb_refl in Ei. done. }
  assert (Hk : x_id O x = Some (kind_id s0)) by (destruct (x_id O x); [|done]; reflect_bools; by subst).
  destruct (ngx_autocert_cert_covers _ _ _ _ _) eqn:Ev; cbn [negb].
  2: { apply wp_ret, Hno; [reflexivity|done|]. intros [[_ _ Hv] _]. unfold covers in Hv. congruence. }
  apply wp_bind. eapply wp_next_call_serve; [exact Hm|]. intros n1 w1 Hq1 Hm1. destruct (Z.leb_spec 0 (cmp_before E n1 x)).
  { apply wp_ret, Hno; [done|done|]. intros [_ Ht]. specialize (Ht n1). lia. }
  apply wp_bind. eapply wp_next_call_serve; [exact Hm1|]. intros n2 w2 Hq2 Hm2. apply wp_ret.
  destruct (Z.leb_spec (cmp_after E n2 x) 0); cbn [negb].
  - apply Hno; [by etrans|done|]. intros [_ Ht]. specialize (Ht n2). lia.
  - apply HQ; [by etrans|done|done|]. split; [by exists n1|by exists n2].
Qed.

(** Nothing stands in the way of loading a pair of texts. *)
Definition loadable (s : which) (verify chain_pem key_pem : bytes) : Prop :=
  (forall n, ok E n = true) /\ pem_clean O chain_pem = true /\
  exists x k, pem_leaf O chain_pem = Some x /\ pem_key O key_pem = Some k /\ fitting s verify x k /\
    forall n, cmp_before E n x < 0 /\ 0 < cmp_after E n x.

(** A slot that was loaded from a pair of texts. *)
Definition loaded_from (s : which) (verify chain_pem key_pem : bytes) (st : stat) (sl : slot X K) : Prop :=
  exists leaf stack os key,
    sl = Slot (Some leaf) (Some (stack, os)) (Some key) (st_mtime st) (st_size st) (st_ino st) /\
    pem_leaf O chain_pem = Some (value leaf) /\ pem_rest O chain_pem = map value os /\ pem_clean O chain_pem = true /\
    pem_key O key_pem = Some (value key) /\ fitting s verify (value leaf) (value key) /\ in_time (value leaf).

Lemma wp_load_pair s0 st host verify chain_pem key_pem tmp sl w l d s :
  mem_is w (tmp :: refs_slot sl ++ l) d s ->
  wp (load_pair O E inet_addr inet6_addr s0 st host verify chain_pem key_pem tmp sl) w
    (fun r w' => quiet w w' /\ mem_is w' (refs_slot r.2 ++ l) false s /\
       (r = (NGX_ERROR, sl) /\ ~ loadable s0 verify chain_pem key_pem \/ r.1 = NGX_OK /\ loaded_from s0 verify chain_pem key_pem st r.2))
    (fun _ => False).
Proof.
  intros Hm. unfold load_pair. cbv zeta.
  assert (Hquit : forall bio leaf chain key w1, quiet w w1 ->
    mem_is w1 (refs_opt bio ++ refs_opt leaf ++ refs_chain chain ++ refs_opt key ++ tmp :: refs_slot sl ++ l) d s ->
    ~ loadable s0 verify chain_pem key_pem ->
    wp (let! rc := done tmp (Some key_pem) bio leaf chain key in ret (rc, sl)) w1
      (fun r w' => quiet w w' /\ mem_is w' (refs_slot r.2 ++ l) false s /\
         (r = (NGX_ERROR, sl) /\ ~ loadable s0 verify chain_pem key_pem \/ r.1 = NGX_OK /\ loaded_from s0 verify chain_pem key_pem st r.2))
      (fun _ => False)).
  { intros bio leaf chain key w1 Hq1 Hm1 Hn. apply wp_bind. eapply wp_done; [exact Hm1|]. intros w2 Hq2 Hm2. apply wp_ret.
    split; [by etrans|]. split; [done|]. by left. }
  assert (Hbad : forall n, ok E n = false -> ~ loadable s0 verify chain_pem key_pem) by (intros n Hn [Hok _]; specialize (Hok n); congruence).
  apply wp_bind. eapply wp_attempt_serve; [exact Hm|]. intros n1 w1 Hq1 Hm1. destruct (ok E n1) eqn:E1; cbn [negb].
  2: { eapply Hquit; [done|refs Hm1|by eapply Hbad]. }
  apply wp_bind, wp_bind. eapply wp_hold; [exact Hm1|]. intros hb w2 Hq2 Hm2. apply wp_ret. assert (Hq2' : quiet w w2) by by etrans.
  apply wp_bind. eapply wp_attempt_serve; [exact Hm2|]. intros n3 w3 Hq3 Hm3. assert (Hq3' : quiet w w3) by by etrans.
  destruct (if ok E n3 then pem_leaf O chain_pem else None) as [x|] eqn:Ex.
  2: { eapply Hquit; [done|refs Hm3|]. intros (Hok & _ & x & k & Hx & _). rewrite Hok in Ex. congruence. }
  destruct (ok E n3); [|done].
  apply wp_bind, wp_bind. eapply wp_hold; [exact Hm3|]. intros hx w4 Hq4 Hm4. apply wp_ret. assert (Hq4' : quiet w w4) by by etrans.
  apply wp_bind. eapply wp_attempt_serve; [exact Hm4|]. intros n5 w5 Hq5 Hm5. assert (Hq5' : quiet w w5) by by etrans.
  destruct (ok E n5) eqn:E5; cbn [negb].
  2: { eapply Hquit; [done|refs Hm5|by eapply Hbad]. }
  apply wp_bind. eapply wp_hold; [exact Hm5|]. intros hs w6 Hq6 Hm6. assert (Hq6' : quiet w w6) by by etrans.
  apply wp_bind. eapply wp_chain_loop with (l := hs :: hx :: hb :: tmp :: refs_slot sl ++ l); [refs Hm6|..].
  { intros os w7 Hq7 Hm7 [n Hn]. cbn [fst snd negb]. eapply Hquit; [by etrans|refs Hm7|by eapply Hbad]. }
  intros os w7 Hq7 Hm7 Hos. cbn [fst snd]. assert (Hq7' : quiet w w7) by by etrans.
  destruct (pem_clean O chain_pem) eqn:Ecl; cbn [negb].
  2: { eapply Hquit; [done|refs Hm7|]. intros (_ & Hc & _). congruence. }
  apply wp_bind. eapply wp_drop_ref with (l := refs_all os ++ hs :: hx :: tmp :: refs_slot sl ++ l); [refs Hm7|]. intros w8 Hq8 Hm8. assert (Hq8' : quiet w w8) by by etrans.
  apply wp_bind. eapply wp_attempt_serve; [exact Hm8|]. intros n9 w9 Hq9 Hm9. assert (Hq9' : quiet w w9) by by etrans.
  destruct (ok E n9) eqn:E9; cbn [negb].
  2: { eapply Hquit; [done|refs Hm9|by eapply Hbad]. }
  apply wp_bind, wp_bind. eapply wp_hold; [exact Hm9|]. intros hb' w10 Hq10 Hm10. apply wp_ret. assert (Hq10' : quiet w w10) by by etrans.
  apply wp_bind. eapply wp_attempt_serve; [exact Hm10|]. intros n11 w11 Hq11 Hm11. assert (Hq11' : quiet w w11) by by etrans.
  destruct (if ok E n11 then pem_key O key_pem else None) as [k|] eqn:Ek.
  2: { eapply Hquit; [done|refs Hm11|]. intros (Hok & _ & x' & k & _ & Hk & _). rewrite Hok in Ek. congruence. }
  destruct (ok E n11); [|done].
  apply wp_bind, wp_bind. eapply wp_hold; [exact Hm11|]. intros hk w12 Hq12 Hm12. apply wp_ret. assert (Hq12' : quiet w w12) by by etrans.
  apply wp_bind. eapply wp_pair_fits; [exact Hm12|..].
  { intros w13 Hq13 Hm13 Hn. cbn [negb]. eapply Hquit; [by etrans|refs Hm13|].
    intros (_ & _ & x' & k' & Hx' & Hk' & Hf). apply Hn. rewrite Ex in Hx'. rewrite Ek in Hk'. by simplify_eq. }
  intros w13 Hq13 Hm13 Hfit Htime. cbn [negb]. assert (Hq13' : quiet w w13) by by etrans.
  set (new := hk :: hb' :: refs_all os ++ hs :: hx :: tmp :: l).
  apply wp_bind. eapply wp_free_opt with (l := refs_chain (sl_chain sl) ++ refs_opt (sl_key sl) ++ new).
  { unfold new. refs Hm13. }
  intros w14 Hq14 Hm14. apply wp_bind. eapply wp_free_chain; [exact Hm14|].
  intros w15 Hq15 Hm15. apply wp_bind. eapply wp_free_opt; [exact Hm15|].
  intros w16 Hq16 Hm16. apply wp_bind. eapply wp_drop_ref with (l := hk :: refs_all os ++ hs :: hx :: tmp :: l).
  { unfold new in Hm16. refs Hm16. }
  intros w17 Hq17 Hm17. apply wp_bind. eapply wp_cleanse; [exact Hm17|].
  intros w18 Hq18 Hm18. apply wp_bind. eapply wp_destroy_pool with (l := hk :: refs_all os ++ hs :: hx :: l); [refs Hm18|].
  intros w19 Hq19 Hm19. apply wp_ret. cbn [fst snd]. split; [do 6 (etrans; [eassumption|]); done|]. split; [refs Hm19|].
  right. split; [done|]. exists (Obj hx x), hs, os, (Obj hk k). by rewrite Hos.
Qed.

(** *** Reloading a slot *)

(** The two files of a slot. *)
Abbreviation chain_file sc s host := (file_path sc host (ngx_autocert_slot_chain_name s)).
Abbreviation key_file sc s host := (file_path sc host (ngx_autocert_slot_key_name s)).

(** The slot was loaded from the store, for [verify]. *)
Definition from_disk (sc : serve_ctx) (s : which) (host verify : bytes) (sl : slot X K) : Prop :=
  unsafe_host host = false /\ exists chain_pem key_pem st,
    (exists n, fstats E n (chain_file sc s host) = Some st) /\
    (exists n size, reads E n (chain_file sc s host) size = Some chain_pem) /\
    (exists n size, reads E n (key_file sc s host) size = Some key_pem) /\
    (exists n, owned E n (key_file sc s host) = true) /\
    loaded_from s verify chain_pem key_pem st sl.

(** The store holds the pair, and nothing keeps it from being loaded. *)
Record stored (sc : serve_ctx) (s : which) (host verify chain_pem key_pem : bytes) (st : stat) : Prop := {
  sd_safe : unsafe_host host = false;
  sd_short : (length (path sc) + length (store_seg sc) + 1 + length host
              + length (ngx_autocert_slot_chain_name RSA) + 1 <= NGX_MAX_PATH)%nat;
  sd_stat : forall n, fstats E n (chain_file sc s host) = Some st;
  sd_chain : steady (chain_file sc s host) false chain_pem;
  sd_key : steady (key_file sc s host) true key_pem;
  sd_loadable : loadable s verify chain_pem key_pem }.

Lemma leaf_names s :
  (length (ngx_autocert_slot_chain_name s) <= length (ngx_autocert_slot_chain_name RSA))%nat /\
  (length (ngx_autocert_slot_key_name s) <= length (ngx_autocert_slot_chain_name RSA))%nat.
Proof. destruct s; cbn; lia. Qed.

Lemma wp_cache_reload sc s0 host verify sl w l s :
  mem_is w (refs_slot sl ++ l) false s ->
  wp (ngx_http_autocert_cache_reload O E inet_addr inet6_addr sc s0 host verify sl) w
    (fun r w' => quiet (set_loads (w_now w :: w_loads w) w) w' /\
       (exists s', mem_is w' (refs_slot r.2 ++ l) false s' /\ (whole_reads -> s' = s)) /\
       (r.2 = sl \/ from_disk sc s0 host verify r.2) /\
       (forall chain_pem key_pem st, stored sc s0 host verify chain_pem key_pem st ->
          ngx_autocert_slot_fresh sl st = true /\ r.2 = sl \/ loaded_from s0 verify chain_pem key_pem st r.2))
    (fun _ => False).
Proof.
  intros Hm. apply wp_bind, wp_update_serve. cbv beta zeta. set (w0 := set_loads (w_now w :: w_loads w) w).
  assert (Hm0 : mem_is w0 (refs_slot sl ++ l) false s) by done. clearbody w0. clear w Hm.
  assert (Hno : forall w1, quiet w0 w1 -> mem_is w1 (refs_slot sl ++ l) false s ->
    (forall chain_pem key_pem st, stored sc s0 host verify chain_pem key_pem st -> ngx_autocert_slot_fresh sl st = true) ->
    forall rc : Z, quiet w0 w1 /\ (exists s', mem_is w1 (refs_slot (rc, sl).2 ++ l) false s' /\ (whole_reads -> s' = s)) /\
       ((rc, sl).2 = sl \/ from_disk sc s0 host verify (rc, sl).2) /\
       (forall chain_pem key_pem st, stored sc s0 host verify chain_pem key_pem st ->
          ngx_autocert_slot_fresh sl st = true /\ (rc, sl).2 = sl \/ loaded_from s0 verify chain_pem key_pem st (rc, sl).2)).
  { intros w1 Hq Hm1 Hs rc. split; [done|]. split; [by exists s|]. split; [by left|]. intros c k st Hst. left. split; [by eapply Hs|done]. }
  destruct (unsafe_host host) eqn:Eu. { apply wp_ret, Hno; [done|done|]. intros ? ? ? [? _ _ _ _ _]. congruence. }
  destruct (_ || _) eqn:El.
  { apply wp_ret, Hno; [done|done|]. intros ? ? ? [_ Hlen _ _ _ _]. pose proof (leaf_names s0). reflect_bools. destruct El; reflect_bools; lia. }
  apply wp_bind. eapply wp_next_call_serve; [exact Hm0|]. intros n1 w1 Hq1 Hm1. destruct (opens E n1 _) eqn:E1; cbn [negb].
  2: { apply wp_ret, Hno; [done|done|]. intros ? ? ? [_ _ _ (_ & _ & _ & Hf) _ _]. destruct (Hf n1). congruence. }
  apply wp_bind. eapply wp_next_call_serve; [exact Hm1|]. intros n2 w2 Hq2 Hm2. assert (Hq2' : quiet w0 w2) by by etrans.
  destruct (fstats E n2 _) as [st|] eqn:E2.
  2: { apply wp_ret, Hno; [done|done|]. intros ? ? ? [_ _ Hst _ _ _]. specialize (Hst n2). congruence. }
  destruct (ngx_autocert_slot_fresh sl st) eqn:Ef.
  { apply wp_ret, Hno; [done|done|]. intros ? ? st' [_ _ Hst _ _ _]. specialize (Hst n2). congruence. }
  apply wp_bind. eapply wp_create_pool; [exact Hm2|..].
  { intros w3 [n Hn] Hq3 Hm3. apply wp_ret, Hno; [by etrans|done|]. intros ? ? ? [_ _ _ (Hok & _) _ _]. specialize (Hok n). congruence. }
  intros tmp w3 Hq3 Hm3. assert (Hq3' : quiet w0 w3) by by etrans.
  apply wp_bind. eapply wp_mono; [exact (wp_read_file _ _ _ _ _ _ Hm3)| |done]. intros [chain_pem|] w4 (Hq4 & d4 & Hm4 & Hd4 & Hst4 & Hr4).
  2: { rewrite Hd4 in Hm4 by done. apply wp_bind. eapply wp_done; [exact Hm4|]. intros w5 Hq5 Hm5. apply wp_ret, Hno; [by etrans; [exact Hq3'|etrans]|exact Hm5|].
       intros c k st' [_ _ _ Hc _ _]. by apply Hst4 in Hc. }
  rewrite Hd4 in Hm4 by done. assert (Hq4' : quiet w0 w4) by by etrans.
  apply wp_bind. eapply wp_mono; [exact (wp_read_file _ _ _ _ _ _ Hm4)| |done]. intros [key_pem|] w5 (Hq5 & d5 & Hm5 & _ & Hst5 & Hr5); assert (Hq5' : quiet w0 w5) by by etrans.
  2: { apply wp_bind. eapply wp_done; [exact Hm5|]. intros w6 Hq6 Hm6. apply wp_ret. split; [by etrans|]. split; [|split].
       - eexists. split; [exact Hm6|]. intros Hw. by rewrite (Hr5 Hw).
       - by left.
       - intros c k st' [_ _ _ _ Hk _]. by apply Hst5 in Hk. }
  eapply wp_mono; [exact (wp_load_pair _ _ _ _ _ _ _ _ _ _ _ _ Hm5)| |done]. intros r w6 (Hq6 & Hm6 & Hr6). split; [by etrans|]. split; [by exists s|].
  destruct Hr4 as [Hr4 _]. destruct Hr5 as [Hr5 Ho5]. split.
  - destruct Hr6 as [[-> _]|[_ Hl]]; [by left|right]. split; [done|]. exists chain_pem, key_pem, st. split; [by exists n2|]. auto.
  - intros c k st' [_ _ Hst' Hc Hk Hl]. right. destruct Hr6 as [[_ Hn]|[_ Hl']].
    + destruct Hn. apply Hst4 in Hc. apply Hst5 in Hk. by simplify_eq.
    + apply Hst4 in Hc. apply Hst5 in Hk. specialize (Hst' n2). rewrite E2 in Hst'. by simplify_eq.
Qed.
End Rules.

Ltac refs Hm := eapply mem_perm; [exact Hm|cbn; rewrite ?app_nil_r; solve_Permutation].
