(* ===== verification/ServeConn.v ===== *)
(** * Serving certificates: the connection and the names

    What the calls on a connection leave it with, and which store key a host has. *)

From S2P Require Import Prelude NgxCore Loadcap Ident Shm Store Alpn Requests RequestsThms Expiry Serve ServeInv.

Local Open Scope Z_scope.
Local Open Scope prog_scope.

Section Conn.
Context {X K C H HA : Type} {IS : Issued H} {SA : Store HA (bytes * bytes)}.
Context (O : openssl X K) {T : Tls O C} (E : env X C).
(** A key fits a certificate only if it is of its kind. *)
Context (Hkind : forall x k, check_key O x k = 1 -> x_id O x = Some (k_id O k)).
Abbreviation W := (worker X K C H HA).
Implicit Types (w : W).

(** Only the connection and the count of calls differ. *)
Definition on_ssl w w' : Prop := exists n s, w' = set_ssl s (set_calls n w).

#[export] Instance on_ssl_preorder : PreOrder on_ssl.
Proof.
  split.
  - intros w. exists (w_calls w), (w_ssl w). by destruct w.
  - intros w1 w2 w3 (n & s & ->) (n' & s' & ->). by exists n', s'.
Qed.

Lemma wp_attempt_ssl w (Q : bool -> W -> Prop) X_ :
  (forall n w', on_ssl w w' -> w_ssl w' = w_ssl w -> Q (ok E n) w') -> wp (attempt E) w Q X_.
Proof. intros HQ. apply HQ; [|done]. exists (S (w_calls w)), (w_ssl w). by destruct w. Qed.

Lemma on_ssl_set w w' s : on_ssl w w' -> on_ssl w (set_ssl s w').
Proof. intros (n & s' & ->). by exists n, s. Qed.

(** Something failed on its own. *)
Definition failure : Prop := exists n, ok E n = false.

Lemma wp_on_conn f w (Q : bool -> W -> Prop) X_ :
  (forall w', on_ssl w w' -> failure \/ f (w_ssl w) = None -> Q false w') ->
  (forall w', on_ssl w w' -> f (w_ssl w) = Some (w_ssl w') -> Q true w') ->
  wp (on_conn E f) w Q X_.
Proof.
  intros Hno HQ. apply wp_bind, wp_attempt_ssl. intros n w1 H1 E1. apply wp_bind, wp_read_serve. rewrite E1.
  destruct (ok E n) eqn:Eo; [|apply wp_ret, Hno; [done|left; by exists n]].
  destruct (f (w_ssl w)) as [c|] eqn:Ef; [|apply wp_ret, Hno; [done|by right]].
  apply wp_bind, wp_update_serve, wp_ret, HQ; [by apply on_ssl_set|done].
Qed.

Lemma wp_use_certificate x w (Q : bool -> W -> Prop) X_ :
  (forall w', on_ssl w w' -> failure \/ x_id O x = None -> Q false w') ->
  (forall w' id k, on_ssl w w' -> x_id O x = Some id -> let o := default no_cpk (certs (w_ssl w) !! id) in
     certs (w_ssl w') = <[id := Cpk (Some x) k (c_chain o)]> (certs (w_ssl w)) -> k = None \/ k = c_k o -> Q true w') ->
  wp (SSL_use_certificate O E x) w Q X_.
Proof.
  intros Hno HQ. pose proof (use_certificate_spec (w_ssl w) x) as Hs. apply wp_on_conn.
  - intros w' H1 [Hf|Hn]; apply Hno; auto. rewrite Hn in Hs. by right.
  - intros w' H1 Hn. rewrite Hn in Hs. destruct Hs as (id & k & Hid & _ & Hc & Hk). by eapply HQ.
Qed.

Lemma wp_use_PrivateKey k w (Q : bool -> W -> Prop) X_ :
  let o := default no_cpk (certs (w_ssl w) !! k_id O k) in
  (forall w', on_ssl w w' -> failure \/ (exists x, c_x o = Some x /\ check_key O x k <> 1) -> Q false w') ->
  (forall w', on_ssl w w' -> current (w_ssl w') = Some (k_id O k) ->
     certs (w_ssl w') = <[k_id O k := Cpk (c_x o) (Some k) (c_chain o)]> (certs (w_ssl w)) -> Q true w') ->
  wp (SSL_use_PrivateKey O E k) w Q X_.
Proof.
  intros o Hno HQ. pose proof (use_private_key_spec (w_ssl w) k) as Hs. apply wp_on_conn.
  - intros w' H1 [Hf|Hn]; apply Hno; auto. rewrite Hn in Hs. by right.
  - intros w' H1 Hn. rewrite Hn in Hs. destruct Hs as [Hcur Hc]. by apply HQ.
Qed.

Lemma wp_set1_chain chain w (Q : bool -> W -> Prop) X_ :
  (forall w', on_ssl w w' -> failure \/ current (w_ssl w) = None -> Q false w') ->
  (forall w' id, on_ssl w w' -> current (w_ssl w) = Some id -> let o := default no_cpk (certs (w_ssl w) !! id) in
     certs (w_ssl w') = <[id := Cpk (c_x o) (c_k o) chain]> (certs (w_ssl w)) -> Q true w') ->
  wp (SSL_set1_chain O E chain) w Q X_.
Proof.
  intros Hno HQ. pose proof (set1_chain_spec (w_ssl w) chain) as Hs. apply wp_on_conn.
  - intros w' H1 [Hf|Hn]; apply Hno; auto. rewrite Hn in Hs. by right.
  - intros w' H1 Hn. rewrite Hn in Hs. destruct Hs as (id & Hid & Hc). by eapply HQ.
Qed.

(** A pair that fits is bound as a whole, under its kind, unless a call fails. *)
Lemma wp_bind_pair x k chain w (Q : bool -> W -> Prop) X_ :
  check_key O x k = 1 ->
  (forall w', on_ssl w w' -> failure -> Q false w') ->
  (forall w' id, on_ssl w w' -> x_id O x = Some id ->
     certs (w_ssl w') = <[id := Cpk (Some x) (Some k) chain]> (certs (w_ssl w)) -> Q true w') ->
  wp (bind_pair O E x k chain) w Q X_.
Proof.
  intros Hck Hno HQ. pose proof (Hkind x k Hck) as Hk.
  apply wp_bind, wp_use_certificate; [intros w1 H1 [Hf|Hn]; [by apply wp_ret, Hno|congruence]|].
  cbv zeta. intros w1 id k0 H1 Hid E1 _. rewrite Hid in Hk. injection Hk as Hk. cbn [negb].
  apply wp_bind, wp_use_PrivateKey.
  { intros w2 H2 [Hf|(x' & Hx & Hn)]; [apply wp_ret, Hno; [by etrans|done]|]. rewrite E1, <- Hk in Hx. cbn in Hx.
    rewrite lookup_insert_eq in Hx. injection Hx as <-. done. }
  intros w2 H2 Hcur E2. cbn [negb].
  apply wp_set1_chain; [intros w3 H3 [Hf|Hn]; [apply Hno; [etrans; [exact H1|by etrans]|done]|congruence]|].
  cbv zeta. intros w3 id' H3 Hcur' E3. eapply (HQ _ id); [etrans; [exact H1|by etrans]|done|].
  rewrite Hcur in Hcur'. injection Hcur' as <-. rewrite E3, E2, E1, <- Hk, !lookup_insert_eq. cbn [default c_x c_k].
  by rewrite !insert_insert_eq.
Qed.

(** Whatever comes of binding a pair, nothing else is bound. *)
Definition only (x : X) (k : K) (chain : list X) (c : cpk X K) : Prop :=
  (c_x c = None \/ c_x c = Some x) /\ (c_k c = None \/ c_k c = Some k) /\ (c_chain c = [] \/ c_chain c = chain).

Lemma only_default x k chain (m : gmap Z (cpk X K)) id : map_Forall (fun _ => only x k chain) m -> only x k chain (default no_cpk (m !! id)).
Proof. intros Hm. destruct (m !! id) as [c|] eqn:Ec; [by apply (Hm id)|]. repeat split; by left. Qed.

Lemma wp_bind_only x k chain w (Q : bool -> W -> Prop) X_ :
  map_Forall (fun _ => only x k chain) (certs (w_ssl w)) ->
  (forall w', on_ssl w w' -> Q false w') ->
  (forall w', on_ssl w w' -> map_Forall (fun _ => only x k chain) (certs (w_ssl w')) ->
     (exists id c, certs (w_ssl w') !! id = Some c) -> Q true w') ->
  wp (bind_pair O E x k chain) w Q X_.
Proof.
  intros Ho Hno HQ. apply wp_bind, wp_use_certificate; [intros w1 H1 _; by apply wp_ret, Hno|].
  cbv zeta. intros w1 id k0 H1 Hid E1 Hk0. cbn [negb].
  assert (Ho1 : map_Forall (fun _ => only x k chain) (certs (w_ssl w1))).
  { rewrite E1. apply map_Forall_insert_2; [|done]. destruct (only_default x k chain _ id Ho) as (? & ? & ?).
    split; [by right|]. split; [|done]. destruct Hk0 as [->| ->]; [by left|done]. }
  apply wp_bind, wp_use_PrivateKey; [intros w2 H2 _; apply wp_ret, Hno; by etrans|].
  intros w2 H2 _ E2. cbn [negb].
  assert (Ho2 : map_Forall (fun _ => only x k chain) (certs (w_ssl w2))).
  { rewrite E2. apply map_Forall_insert_2; [|done]. destruct (only_default x k chain _ (k_id O k) Ho1) as (? & ? & ?).
    split; [done|]. split; [by right|done]. }
  apply wp_set1_chain; [intros w3 H3 _; apply Hno; etrans; [exact H1|by etrans]|].
  cbv zeta. intros w3 id' H3 _ E3. apply HQ; [etrans; [exact H1|by etrans]|..]; rewrite E3.
  - apply map_Forall_insert_2; [|done]. destruct (only_default x k chain _ id' Ho2) as (? & ? & ?). split; [done|]. split; [done|by right].
  - eexists id', _. by rewrite lookup_insert_eq.
Qed.

(** ** Presenting an entry *)

(** A slot is empty, or whole with a pair that fits. *)
Definition slot_whole (s : which) (sl : slot X K) : Prop :=
  (sl_cert sl = None /\ sl_chain sl = None /\ sl_key sl = None) \/
  exists x c k, sl_cert sl = Some x /\ sl_chain sl = Some c /\ sl_key sl = Some k /\
    check_key O (value x) (value k) = 1 /\ x_id O (value x) = Some (kind_id s).

(** What a slot adds to the certificates of a connection. *)
Definition add_slot (s : which) (sl : slot X K) (m : gmap Z (cpk X K)) : gmap Z (cpk X K) :=
  match sl_cert sl, sl_chain sl, sl_key sl with
  | Some x, Some c, Some k => <[kind_id s := Cpk (Some (value x)) (Some (value k)) (map value c.2)]> m
  | _, _, _ => m
  end.

Definition shown (e : entry X K) : gmap Z (cpk X K) := add_slot RSA (e_rsa e) (add_slot EC (e_ec e) ∅).

Definition loaded (sl : slot X K) : bool := match sl_cert sl with Some _ => true | None => false end.

Lemma wp_install_loop e ss n w (Q : option nat -> W -> Prop) X_ :
  (forall s, s ∈ ss -> slot_whole s (get_slot e s)) ->
  (forall w', on_ssl w w' -> failure -> Q None w') ->
  (forall w', on_ssl w w' ->
     certs (w_ssl w') = fold_left (fun m s => add_slot s (get_slot e s) m) ss (certs (w_ssl w)) ->
     Q (Some (n + length (filter (fun s => loaded (get_slot e s) = true) ss))%nat) w') ->
  wp (install_loop O E e ss n) w Q X_.
Proof.
  revert n w. induction ss as [|s ss IH]; intros n w Hwh Hno HQ; cbn [install_loop fold_left].
  { apply wp_ret. specialize (HQ w). rewrite Nat.add_0_r in HQ. by apply HQ. }
  assert (Hwh' : forall s, s ∈ ss -> slot_whole s (get_slot e s)) by (intros s' Hs'; apply Hwh; by right).
  destruct (Hwh s ltac:(left)) as [(Ex & Ec & Ek)|(x & c & k & Ex & Ec & Ek & Hck & Hid)]; rewrite Ex.
  - apply IH; [done|done|]. intros w' H1 Em. rewrite filter_cons_False in HQ by (unfold loaded; by rewrite Ex).
    apply HQ; [done|]. rewrite Em. cbn [fold_left]. f_equal. unfold add_slot. by rewrite Ex.
  - rewrite Ek, Ec. apply wp_bind, wp_bind_pair; [done|exact Hno|]. intros w1 id H1 Hid' E1. rewrite Hid in Hid'. injection Hid' as <-.
    apply IH; [done|intros w' H' Hf; apply Hno; [by etrans|done]|]. intros w' H' Em.
    rewrite filter_cons_True in HQ by (unfold loaded; by rewrite Ex). cbn [length] in HQ. rewrite Nat.add_succ_r in HQ.
    apply HQ; [by etrans|]. rewrite Em, E1. cbn [fold_left]. f_equal. unfold add_slot. by rewrite Ex, Ec, Ek.
Qed.

Lemma wp_present e w (Q : Z -> W -> Prop) X_ :
  (forall s, slot_whole s (get_slot e s)) ->
  (forall w', on_ssl w w' -> failure -> Q 0 w') ->
  (loaded (e_ec e) = false -> loaded (e_rsa e) = false -> Q 1 w) ->
  (forall w', on_ssl w w' -> certs (w_ssl w') = shown e ->
     loaded (e_ec e) = true \/ loaded (e_rsa e) = true -> Q 1 w') ->
  wp (present O E e) w Q X_.
Proof.
  intros Hwh Hno Hnone HQ. unfold present.
  assert (Hgo : loaded (e_ec e) = true \/ loaded (e_rsa e) = true ->
    wp (SSL_certs_clear O;; let! r := install_loop O E e [EC; RSA] 0 in
        match r with None => ret 0 | Some installed => ret (if (installed =? 0)%nat then 0 else 1) end) w Q X_).
  { intros Hl. apply wp_bind, wp_update_serve. set (w1 := set_ssl _ w). assert (H1 : on_ssl w w1) by by apply on_ssl_set.
    apply wp_bind, wp_install_loop; [by intros|..].
    - intros w2 H2 Hf. apply wp_ret, Hno; [by etrans|done].
    - intros w2 H2 Em. apply wp_ret. destruct (_ =? 0)%nat eqn:En.
      { reflect_bools. exfalso. cbn [filter list_filter get_slot Nat.add] in En. destruct Hl as [Hl|Hl]; rewrite Hl in En.
        - rewrite decide_True in En by done. done.
        - destruct (decide (loaded (e_ec e) = true)); rewrite decide_True in En by done; done. }
      apply HQ; [by etrans| |done]. rewrite Em. cbn [w_ssl set_ssl w1 fold_left]. by rewrite clear_spec. }
  unfold loaded in *. destruct (sl_cert (e_ec e)); [apply Hgo; by left|]. destruct (sl_cert (e_rsa e)); [apply Hgo; by right|].
  by apply wp_ret, Hnone.
Qed.
End Conn.

(** * Serving certificates: the names

    The index of the configured names answers as their list, and the store key of a host
    is a function of the configuration and of what the registry says. *)


Lemma wildcard_c_string host wc : c_string host -> wildcard_of host = Some wc -> c_string wc.
Proof.
  unfold wildcard_of. intros Hh. destruct (ngx_strlchr host 46) as [dot|]; [|done]. cbv zeta. destruct (_ && _); [|done]. intros [= <-].
  do 2 (constructor; [done|]). by apply Forall_drop.
Qed.

(** ** ALPN *)

(** The list a client sends: each protocol after its length. *)
Definition alpn_list (ps : list bytes) : bytes := flat_map (fun p => Z.of_nat (length p) :: p) ps.

Lemma alpn_walk_total fuel inp i : (length inp < i + fuel)%nat -> (0 < fuel)%nat -> exists b, alpn_walk fuel inp i = Some b.
Proof.
  revert i. induction fuel as [|fuel IH]; intros i Hi Hf; [lia|]. cbn [alpn_walk].
  destruct (Nat.ltb_spec i (length inp)) as [Hlt|]; [|by eexists]. destruct (lookup_lt_is_Some_2 _ _ Hlt) as [n ->].
  destruct (_ && _); [by eexists|]. apply IH; lia.
Qed.

Lemma alpn_walk_list fuel pre ps :
  Forall (fun p => length p <= 255)%nat ps -> (length (alpn_list ps) < fuel)%nat ->
  alpn_walk fuel (pre ++ alpn_list ps) (length pre) = Some (bool_decide (NGX_AUTOCERT_ACME_TLS_ALPN ∈ ps)).
Proof.
  revert pre fuel. induction ps as [|p ps IH]; intros pre fuel Hps Hf; (destruct fuel as [|fuel]; [lia|]); cbn [alpn_walk].
  { cbn [alpn_list flat_map]. by rewrite app_nil_r, Nat.ltb_irrefl. }
  apply Forall_cons in Hps as [Hp Hps]. cbn [alpn_list flat_map] in *. fold (alpn_list ps) in *. cbn [app] in *.
  rewrite length_app. cbn [length] in *. rewrite length_app in *. destruct (Nat.ltb_spec (length pre) (length pre + S (length p + length (alpn_list ps)))); [|lia].
  rewrite list_lookup_middle by done. rewrite Nat.add_1_r.
  assert (Hd : drop (S (length pre)) (pre ++ Z.of_nat (length p) :: p ++ alpn_list ps) = p ++ alpn_list ps).
  { rewrite drop_app_ge by lia. by replace (S (length pre) - length pre)%nat with 1%nat by lia. }
  rewrite Hd, Nat2Z.id.
  specialize (IH (pre ++ Z.of_nat (length p) :: p) fuel Hps ltac:(lia)).
  rewrite <- app_assoc, length_app in IH. cbn [app length] in IH.
  assert (Hlen : length NGX_AUTOCERT_ACME_TLS_ALPN = NGX_AUTOCERT_ACME_TLS_ALPN_LEN) by done.
  assert (Ht : length p = NGX_AUTOCERT_ACME_TLS_ALPN_LEN -> take NGX_AUTOCERT_ACME_TLS_ALPN_LEN (p ++ alpn_list ps) = p).
  { intros <-. apply take_app_length. }
  destruct (_ && _ && _) eqn:Eb; [rewrite !andb_true_iff in Eb; destruct Eb as [[E1%Z.eqb_eq E2] E3%bool_decide_eq_true]|].
  - rewrite Ht in E3 by lia. f_equal. symmetry. apply bool_decide_eq_true. rewrite E3. left.
  - change (1 + length p)%nat with (S (length p)). rewrite IH. f_equal. apply bool_decide_ext. rewrite elem_of_cons. split; [by right|]. intros [E|?]; [|done]. exfalso.
    assert (Hl : length p = NGX_AUTOCERT_ACME_TLS_ALPN_LEN) by by rewrite <- E. rewrite Ht, <- E, bool_decide_true, E, Hl, Z.eqb_refl in Eb by done.
    cbn [andb] in Eb. rewrite andb_true_r in Eb. apply Nat.leb_gt in Eb. lia.
Qed.

(** The protocol of the CA is selected exactly when the client offers it. *)
Lemma ngx_http_autocert_alpn_select_iff flagged ps :
  Forall (fun p => length p <= 255)%nat ps ->
  ngx_http_autocert_alpn_select flagged (alpn_list ps) =
    Some (if bool_decide (NGX_AUTOCERT_ACME_TLS_ALPN ∈ ps) then match flagged with Some false => AlpnFatal | _ => AlpnAcme end else AlpnDefault).
Proof.
  intros Hps. unfold ngx_http_autocert_alpn_select. rewrite (alpn_walk_list _ [] ps) by (done || lia). by case_bool_decide.
Qed.

Lemma ngx_http_autocert_alpn_select_total flagged inp : exists c, ngx_http_autocert_alpn_select flagged inp = Some c.
Proof.
  unfold ngx_http_autocert_alpn_select. destruct (alpn_walk_total (S (length inp)) inp 0 ltac:(lia) ltac:(lia)) as [[] ->]; by eexists.
Qed.
Section Names.
Context {X K C H HA : Type} {IS : Issued H} {SA : Store HA (bytes * bytes)}.
Context (E : env X C) (inet_addr : bytes -> Z) (inet6_addr : bytes -> option bytes) (crc32 : bytes -> Z).
Abbreviation W := (worker X K C H HA).
Implicit Types (w : W).
Abbreviation key_of := (key_of crc32).
Abbreviation own_key := (own_key inet_addr inet6_addr).

(** Only the gate and the count of calls differ. *)
Definition on_gate w w' : Prop := exists n g, w' = set_gate g (set_calls n w).

(** Once built, the index has exactly the configured names. *)
Definition gate_ok (sc : serve_ctx) (g : gate) : Prop :=
  g_built g = true -> forall nms, names sc = Some nms -> forall h n, (h, n) ∈ g_index g <-> h = crc32 n /\ n ∈ nms.

Lemma name_match_spec sc g nms name :
  gate_ok sc g -> names sc = Some nms -> c_string name ->
  ngx_autocert_serve_name_match g nms name (crc32 name) = bool_decide (name ∈ nms).
Proof.
  intros Hg Hn Hc. unfold ngx_autocert_serve_name_match. destruct (g_built g) eqn:Eb.
  - apply bool_decide_ext. rewrite (Hg Eb nms Hn). naive_solver.
  - apply Bool.eq_true_iff_eq. rewrite existsb_exists, bool_decide_eq_true. setoid_rewrite <- list_elem_of_In. split.
    + intros (nm & Hin & Hm). reflect_bools. destruct (strncmp_exact nm name) as (r & Hr & Hz); [done|by apply c_string_nonzero|].
      rewrite Hr in H1. apply Z.eqb_eq in H1. by apply Hz in H1 as <-.
    + intros Hin. exists name. split; [done|]. rewrite Nat.eqb_refl. cbn.
      destruct (strncmp_exact name name) as (r & -> & Hz); [done|by apply c_string_nonzero|]. apply Z.eqb_eq. by apply Hz.
Qed.

Lemma wp_attempt_calls w (Q : bool -> W -> Prop) (X_ : W -> Prop) :
  Q (ok E (w_calls w)) (set_calls (S (w_calls w)) w) -> wp (attempt E) w Q X_.
Proof. exact id. Qed.

Lemma wp_index_loop (nms : list bytes) (index : gset (Z * bytes)) w (Q : gset (Z * bytes) * bool -> W -> Prop) (X_ : W -> Prop) :
  (forall n (i : gset (Z * bytes)), Q (i, false) (set_calls n w)) ->
  (forall n (i : gset (Z * bytes)), (forall h nm, (h, nm) ∈ i <-> (h, nm) ∈ index \/ h = crc32 nm /\ nm ∈ nms) -> Q (i, true) (set_calls n w)) ->
  wp (index_loop E crc32 nms index) w Q X_.
Proof.
  revert index w. induction nms as [|nm nms IH]; intros index w Hno HQ; cbn [index_loop].
  - apply wp_ret. specialize (HQ (w_calls w) index). destruct w. apply HQ. intros h n. rewrite (elem_of_nil n). naive_solver.
  - apply wp_bind, wp_attempt_calls. destruct (negb _); [by apply wp_ret, Hno|]. apply IH.
    + intros n i. apply (Hno n i).
    + intros n i Hi. apply (HQ n i). intros h m. rewrite Hi, elem_of_union, elem_of_singleton, (elem_of_cons nms). naive_solver.
Qed.

Lemma wp_build_index sc w (Q : unit -> W -> Prop) (X_ : W -> Prop) :
  gate_ok sc (w_gate w) ->
  (forall w', on_gate w w' -> gate_ok sc (w_gate w') -> Q tt w') -> wp (build_index E crc32 sc) w Q X_.
Proof.
  intros Hg HQ. apply wp_bind, wp_read_serve. destruct (_ || _).
  { apply wp_ret, HQ; [|done]. exists (w_calls w), (w_gate w). by destruct w. }
  destruct (names sc) as [nms|] eqn:En.
  - apply wp_bind, wp_index_loop.
    + intros n i. apply wp_update_serve, HQ; [by eexists n, _|]. done.
    + intros n i Hi. apply wp_update_serve, HQ; [by eexists n, _|]. intros _ nms' Hn'. rewrite En in Hn'. injection Hn' as <-.
      intros h m. cbn. rewrite Hi. set_solver.
  - apply wp_update_serve, HQ; [eexists (w_calls w), _; by destruct w|]. intros _ nms. congruence.
Qed.

(** ** The store key of a host *)

Lemma wildcard_of_shape host wc :
  wildcard_of host = Some wc ->
  exists rest, wc = 42 :: 46 :: rest /\ rest <> [] /\ (length rest <= 254)%nat /\ exists lbl, lbl <> [] /\ 46 ∉ lbl /\ host = lbl ++ 46 :: rest.
Proof.
  unfold wildcard_of. destruct (ngx_strlchr host 46) as [dot|] eqn:Ed; [|done]. cbv zeta. destruct (_ && _) eqn:Ea; [|done].
  intros [= <-]. apply strlchr_Some in Ed as (lbl & rest & -> & <- & Hl). unfold sizeof_wc_buf in Ea. reflect_bools.
  assert (Hd : drop (S (length lbl)) (lbl ++ 46 :: rest) = rest).
  { rewrite drop_app_ge by lia. by replace (S (length lbl) - length lbl)%nat with 1%nat by lia. }
  rewrite Hd in *.
  exists rest. split; [done|]. split; [intros ->; cbn in *; lia|]. split; [lia|]. exists lbl. split; [intros ->; cbn in *; lia|done].
Qed.

Definition wildcard_segment (wc : bytes) : bytes := ngx_autocert_fs_segment inet_addr inet6_addr NGX_AUTOCERT_DOMAIN_SEG_MAX wc.

Lemma wildcard_segment_spec host wc : wildcard_of host = Some wc -> wildcard_segment wc = NGX_AUTOCERT_WILDCARD_SEG ++ drop 2 wc.
Proof.
  intros (rest & -> & _ & Hl & _)%wildcard_of_shape. unfold wildcard_segment, ngx_autocert_fs_segment. cbn [drop].
  destruct (Nat.ltb_spec NGX_AUTOCERT_DOMAIN_SEG_MAX (length NGX_AUTOCERT_WILDCARD_SEG + length rest)) as [Hlt|]; [|done].
  exfalso. assert (length NGX_AUTOCERT_WILDCARD_SEG = 11%nat) by done. unfold NGX_AUTOCERT_DOMAIN_SEG_MAX in Hlt. lia.
Qed.

(** The key a host has, and whether it is served, when the registry says [issued]. *)
Definition resolution (sc : serve_ctx) (issued : bool) (host : bytes) : (Z * bytes) * bool :=
  let own := key_of (own_key host) in
  match names sc with
  | None => (own, true)
  | Some nms =>
      if bool_decide (host ∈ nms) then (own, true)
      else
        match wildcard_of host with
        | Some wc => if bool_decide (wc ∈ nms) then (key_of (wildcard_segment wc), true) else (own, has_requests_zone sc && issued)
        | None => (own, has_requests_zone sc && issued)
        end
  end.

Lemma wp_resolve sc host m w (Q : (Z * bytes) * bool -> W -> Prop) (X_ : W -> Prop) :
  gate_ok sc (w_gate w) -> c_string host -> iss_inv (w_requests w) m ->
  (forall z, iss_inv z m -> Q (resolution sc (state_of m host =? NGX_AUTOCERT_REQ_ISSUED) host) (set_requests z w)) ->
  wp (resolve inet_addr inet6_addr crc32 sc host) w Q X_.
Proof.
  intros Hg Hc Hi HQ. apply wp_bind, wp_read_serve. cbv zeta. unfold resolution in HQ. cbv zeta in HQ.
  assert (Hsame : forall r, (forall z, iss_inv z m -> Q r (set_requests z w)) -> Q r w).
  { intros r Hr. specialize (Hr _ Hi). by destruct w. }
  destruct (names sc) as [nms|] eqn:En; [|by apply wp_ret, Hsame].
  rewrite (name_match_spec sc _ nms) by done. case_bool_decide; [by apply wp_ret, Hsame|].
  assert (Hask : (forall z, iss_inv z m ->
      Q (key_of (own_key host), has_requests_zone sc && (state_of m host =? NGX_AUTOCERT_REQ_ISSUED)) (set_requests z w)) ->
    wp (if has_requests_zone sc then
          let! st := zoom w_requests set_requests (iss_state host) in ret (key_of (own_key host), st =? NGX_AUTOCERT_REQ_ISSUED)
        else ret (key_of (own_key host), false)) w Q X_).
  { intros HQ'. destruct (has_requests_zone sc); [|by apply wp_ret, Hsame]. apply wp_bind.
    pose proof (iss_state_spec _ m host Hi) as Hst. unfold wp, zoom in *. destruct (iss_state host (w_requests w)) as [rc z|z| |]; try done.
    destruct Hst as [Hi' ->]. by apply HQ'. }
  destruct (wildcard_of host) as [wc|] eqn:Ew; [|by apply Hask].
  rewrite (name_match_spec sc _ nms) by (done || by eapply wildcard_c_string).
  case_bool_decide; [|by apply Hask]. fold (wildcard_segment wc). pose proof (wildcard_segment_spec _ _ Ew) as Es.
  assert (length (wildcard_segment wc) <> 0%nat) by (by rewrite Es).
  apply Nat.eqb_neq in H2. rewrite H2. cbn [negb]. by apply wp_ret, Hsame.
Qed.
End Names.
