(* ===== verification/ServeRun.v ===== *)
(** * Serving certificates: the invariant of a worker

    Every event keeps it: the references held are those of the cache, every cached
    slot was loaded from the store for its key, and every key is one the
    configuration or the registry allows. *)

From S2P Require Import Prelude NgxCore Loadcap Ident Shm Store Alpn Requests RequestsThms Expiry Serve ServeInv ServeConn.

Local Open Scope Z_scope.
Local Open Scope prog_scope.

Section Run.
Context {X K C H HA : Type} {IS : Issued H} {SA : Store HA (bytes * bytes)}.
Context (O : openssl X K) {T : Tls O C} (E : env X C).
Context (inet_addr : bytes -> Z) (inet6_addr : bytes -> option bytes) (crc32 : bytes -> Z).
Context (Hkind : forall x k, check_key O x k = 1 -> x_id O x = Some (k_id O k)).
Abbreviation W := (worker X K C H HA).
Implicit Types (w : W) (e : entry X K) (sl : slot X K).
Abbreviation key_of := (key_of crc32).
Abbreviation resolution := (resolution inet_addr inet6_addr crc32).
Abbreviation from_disk := (from_disk O E inet_addr inet6_addr).
Abbreviation loaded_from := (loaded_from O E inet_addr inet6_addr).
Abbreviation stored := (stored O E inet_addr inet6_addr).

(** ** Refreshing an entry *)

Definition other (s : which) : which := match s with EC => RSA | RSA => EC end.

Lemma refs_entry_split s e : refs_entry e ≡ₚ refs_slot (get_slot e s) ++ refs_slot (get_slot e (other s)).
Proof. destruct s; [done|]. unfold refs_entry. cbn. apply Permutation_app_comm. Qed.

Lemma get_put_slot s sl e : get_slot (put_slot s sl e) s = sl.
Proof. by destruct s. Qed.

Lemma get_put_slot_other s s' sl e : s' <> s -> get_slot (put_slot s sl e) s' = get_slot e s'.
Proof. by destruct s, s'. Qed.

Lemma other_ne s : other s <> s.
Proof. by destruct s. Qed.

Lemma put_slot_fields s sl e : e_checked (put_slot s sl e) = e_checked e /\ e_deferred (put_slot s sl e) = e_deferred e.
Proof. by destruct s. Qed.

Definition slot_empty sl : Prop := sl_cert sl = None /\ sl_chain sl = None /\ sl_key sl = None.

(** What a refresh makes of a slot. *)
Definition refreshed (sc : serve_ctx) (store verify : bytes) (s : which) sl sl' : Prop :=
  if slot_enabled (slot_mask sc) s
  then (sl' = sl \/ from_disk sc s store verify sl') /\
       forall chain_pem key_pem st, stored sc s store verify chain_pem key_pem st ->
         ngx_autocert_slot_fresh sl st = true /\ sl' = sl \/ loaded_from s verify chain_pem key_pem st sl'
  else slot_empty sl'.

Definition enabled_in (sc : serve_ctx) (ss : list which) : nat := length (filter (fun s => slot_enabled (slot_mask sc) s = true) ss).

Lemma wp_drop_slot sl w (Q : slot X K -> W -> Prop) (X_ : W -> Prop) l d s :
  mem_is w (refs_slot sl ++ l) d s ->
  (forall sl' w', quiet w w' -> mem_is w' (refs_slot sl' ++ l) d s -> slot_empty sl' -> Q sl' w') -> wp (drop_slot sl) w Q X_.
Proof.
  intros Hm HQ. unfold refs_slot in Hm. rewrite <- !app_assoc in Hm.
  apply wp_bind. eapply wp_free_opt; [exact Hm|]. intros w1 Hq1 Hm1.
  apply wp_bind. eapply wp_free_chain; [exact Hm1|]. intros w2 Hq2 Hm2.
  apply wp_bind. eapply wp_free_opt; [exact Hm2|]. intros w3 Hq3 Hm3.
  apply wp_ret, HQ; [etrans; [exact Hq1|by etrans]|done|done].
Qed.

Lemma quiet_set_loads w w' l : quiet w w' -> quiet (set_loads l w) (set_loads l w').
Proof. intros (n & m & ->). by exists n, m. Qed.

Lemma quiet_loads w w' : quiet w w' -> w_loads w' = w_loads w /\ w_now w' = w_now w.
Proof. by intros (n & m & ->). Qed.

Lemma wp_refresh_loop sc store verify ss e w l s :
  NoDup ss -> mem_is w (refs_entry e ++ l) false s ->
  wp (refresh_loop O E inet_addr inet6_addr sc store verify ss e) w
    (fun e' w' => quiet (set_loads (replicate (enabled_in sc ss) (w_now w) ++ w_loads w) w) w' /\
       (exists s', mem_is w' (refs_entry e' ++ l) false s' /\ (whole_reads E -> s' = s)) /\
       (forall s, s ∈ ss -> refreshed sc store verify s (get_slot e s) (get_slot e' s)) /\
       (forall s, s ∉ ss -> get_slot e' s = get_slot e s) /\ e_checked e' = e_checked e /\ e_deferred e' = e_deferred e)
    (fun _ => False).
Proof.
  revert e w s. induction ss as [|s0 ss IH]; intros e w s Hnd Hm; cbn [refresh_loop].
  { apply wp_ret. split; [exists (w_calls w), (w_mem w); by destruct w|]. split; [by exists s|]. split; [|done]. by intros s' ?%not_elem_of_nil. }
  apply NoDup_cons in Hnd as [Hni Hnd].
  assert (Hm0 : mem_is w (refs_slot (get_slot e s0) ++ refs_slot (get_slot e (other s0)) ++ l) false s).
  { rewrite app_assoc, <- (refs_entry_split s0). exact Hm. }
  assert (Hstep : forall sl w1 s1 log, mem_is w1 (refs_slot sl ++ refs_slot (get_slot e (other s0)) ++ l) false s1 -> (whole_reads E -> s1 = s) ->
    quiet (set_loads (log ++ w_loads w) w) w1 -> log = (if slot_enabled (slot_mask sc) s0 then [w_now w] else []) ->
    refreshed sc store verify s0 (get_slot e s0) sl ->
    wp (refresh_loop O E inet_addr inet6_addr sc store verify ss (put_slot s0 sl e)) w1
      (fun e' w' => quiet (set_loads (replicate (enabled_in sc (s0 :: ss)) (w_now w) ++ w_loads w) w) w' /\
         (exists s', mem_is w' (refs_entry e' ++ l) false s' /\ (whole_reads E -> s' = s)) /\
         (forall s, s ∈ s0 :: ss -> refreshed sc store verify s (get_slot e s) (get_slot e' s)) /\
         (forall s, s ∉ s0 :: ss -> get_slot e' s = get_slot e s) /\ e_checked e' = e_checked e /\ e_deferred e' = e_deferred e)
      (fun _ => False)).
  { intros sl w1 s1 log Hm1 Hs1 Hq1 Elog Href. eapply wp_mono; [apply (IH (put_slot s0 sl e) w1 s1)| |done]; [done|..].
    - rewrite (refs_entry_split s0), get_put_slot, get_put_slot_other, <- app_assoc by apply other_ne. exact Hm1.
    - intros e' w' (Hq' & (s' & Hm' & Hs') & Hin & Hout & Hch & Hde).
      destruct (quiet_loads _ _ Hq1) as [El En]. cbn in El, En. rewrite El, En in Hq'. split; [|split; [|split; [|split]]].
      + assert (Ec : replicate (enabled_in sc (s0 :: ss)) (w_now w) = replicate (enabled_in sc ss) (w_now w) ++ log).
        { subst log. unfold enabled_in. destruct (slot_enabled _ s0) eqn:Es.
          - rewrite filter_cons_True by done. cbn [length]. by rewrite replicate_S_end.
          - rewrite filter_cons_False by congruence. by rewrite app_nil_r. }
        rewrite Ec, <- app_assoc. etrans; [|exact Hq']. apply (quiet_set_loads _ _ (replicate (enabled_in sc ss) (w_now w) ++ log ++ w_loads w)) in Hq1.
        exact Hq1.
      + exists s'. split; [done|]. intros Hw. by rewrite (Hs' Hw), (Hs1 Hw).
      + intros s2 [->|Hs2]%elem_of_cons.
        * rewrite Hout by done. by rewrite get_put_slot.
        * rewrite <- (get_put_slot_other s0 s2 sl e) by (intros ->; done). by apply Hin.
      + intros s2 [Hne Hs2]%not_elem_of_cons. rewrite Hout by done. by apply get_put_slot_other.
      + destruct (put_slot_fields s0 sl e) as [Ec Ed]. by rewrite Hch, Hde, Ec, Ed. }
  unfold refreshed in Hstep at 1. destruct (slot_enabled (slot_mask sc) s0) eqn:Es; cbn [negb].
  - apply wp_bind. eapply wp_mono; [exact (wp_cache_reload O E inet_addr inet6_addr sc s0 store verify _ _ _ _ Hm0)| |done].
    intros r w1 (Hq1 & (s1 & Hm1 & Hs1) & Hor & Hst). eapply (Hstep r.2 w1 s1 [w_now w]); [exact Hm1|done|exact Hq1|done|]. by split.
  - apply wp_bind. eapply wp_drop_slot; [exact Hm0|]. intros sl' w1 Hq1 Hm1 He. eapply (Hstep sl' w1 s []); [exact Hm1|done| |done|exact He].
    cbn. etrans; [|exact Hq1]. exists (w_calls w), (w_mem w). by destruct w.
Qed.

(** *** The two bounds *)

(** All but the memory, the count of calls, the log of loads and the budget. *)
Definition rest w := (w_pool w, w_cache w, w_gate w, w_consumer w, w_cycle w, w_now w, w_asked w, w_requests w, w_alpns w, w_ssl w).

Lemma quiet_rest w w' : quiet w w' -> rest w' = rest w /\ w_cap w' = w_cap w.
Proof. by intros (n & m & ->). Qed.

Definition asks (w : W) e : bool := negb (w_now w =? e_checked e).
Definition budget (sc : serve_ctx) w e : loadcap * bool :=
  ngx_autocert_loadcap_admit_retry_n (w_cap w) (w_now w) (load_limit sc) (slot_count sc) (e_deferred e).

(** The entry is refreshed now. *)
Definition refreshes (sc : serve_ctx) w e : bool := asks w e && (budget sc w e).2.

Lemma wp_refresh sc store verify e w l s :
  mem_is w (refs_entry e ++ l) false s ->
  wp (refresh O E inet_addr inet6_addr sc store verify e) w
    (fun e' w' => rest w' = rest w /\
       (exists s', mem_is w' (refs_entry e' ++ l) false s' /\ (whole_reads E -> s' = s)) /\
       w_cap w' = (if asks w e then (budget sc w e).1 else w_cap w) /\
       w_loads w' = (if refreshes sc w e then replicate (enabled_in sc [EC; RSA]) (w_now w) else []) ++ w_loads w /\
       (if refreshes sc w e
        then e_checked e' = w_now w /\ forall s, refreshed sc store verify s (get_slot e s) (get_slot e' s)
        else forall s, get_slot e' s = get_slot e s))
    (fun _ => False).
Proof.
  intros Hm. unfold refreshes, asks, budget. apply wp_bind, wp_read_serve. destruct (negb (w_now w =? e_checked e)); cbn [andb].
  2: { apply wp_ret. split; [done|]. split; [by exists s|done]. }
  apply wp_bind, wp_read_serve. cbv zeta. apply wp_bind, wp_update_serve. set (r := ngx_autocert_loadcap_admit_retry_n _ _ _ _ _).
  destruct r.2 eqn:Er.
  2: { apply wp_ret. split; [done|]. split; [by exists s|]. split; [done|]. split; [done|]. by intros []. }
  eapply wp_mono; [eapply (wp_refresh_loop sc store verify [EC; RSA] _ _ l s)| |done].
  { apply NoDup_cons; split; [|apply NoDup_singleton]. by intros [=]%list_elem_of_singleton. }
  { exact Hm. }
  intros e' w' (Hq & Hm' & Hin & _ & Hch & _). destruct (quiet_rest _ _ Hq) as [Hr Hc]. destruct (quiet_loads _ _ Hq) as [Hl _].
  split; [by rewrite Hr|]. split; [done|]. split; [by rewrite Hc|]. split; [by rewrite Hl|]. split; [done|].
  intros s'. assert (Hs' : s' ∈ [EC; RSA]) by (destruct s'; [left|right; left]). specialize (Hin s' Hs'). by destruct s'.
Qed.

(** ** The invariant *)

Definition slot_ok (sc : serve_ctx) (store : bytes) (s : which) sl : Prop :=
  slot_empty sl \/ exists verify issued, resolution sc issued verify = (key_of store, true) /\ from_disk sc s store verify sl.

Definition allowed (sc : serve_ctx) (k : Z * bytes) : Prop := exists host issued, resolution sc issued host = (k, true).

Record winv (sc : serve_ctx) w : Prop := {
  wi_mem : exists s, mem_is w (refs_cache (w_cache w)) false s /\ (whole_reads E -> s = 0%nat);
  wi_pool : w_pool w = false -> w_cache w = ∅;
  wi_gate : gate_ok crc32 sc (w_gate w);
  wi_entries : forall k e, w_cache w !! k = Some e -> allowed sc k /\ forall s, slot_ok sc k.2 s (get_slot e s);
  wi_requests : exists m, iss_inv (w_requests w) m;
  wi_alpns : exists m, store_inv (w_alpns w) m }.

Lemma from_disk_whole sc s store verify sl : from_disk sc s store verify sl -> slot_whole O s sl.
Proof.
  intros (_ & chain_pem & key_pem & st & _ & _ & _ & _ & leaf & stack & os & key & -> & _ & _ & _ & _ & Hf & _).
  right. exists leaf, (stack, os), key. repeat split; try done; apply Hf.
Qed.

Lemma slot_ok_whole sc store s sl : slot_ok sc store s sl -> slot_whole O s sl.
Proof. intros [He|(verify & issued & _ & Hd)]; [by left|by eapply from_disk_whole]. Qed.

Lemma refreshed_ok sc store verify issued s sl sl' :
  resolution sc issued verify = (key_of store, true) -> slot_ok sc store s sl -> refreshed sc store verify s sl sl' -> slot_ok sc store s sl'.
Proof.
  intros Hr Ho. unfold refreshed. destruct (slot_enabled _ s).
  - intros [[->|Hd] _]; [done|]. right. by exists verify, issued.
  - intros He. by left.
Qed.

Lemma resolution_key sc issued host k b : resolution sc issued host = (k, b) -> k = key_of k.2.
Proof.
  unfold ServeConn.resolution. cbv zeta. destruct (names sc); [|by intros [= <- _]]. case_bool_decide; [by intros [= <- _]|].
  destruct (wildcard_of host); [|by intros [= <- _]]. case_bool_decide; by intros [= <- _].
Qed.

(** ** A host that is not the CA's *)

(** What the budget and the log of loads become. *)
Definition rate_step (sc : serve_ctx) w w' : Prop :=
  w_cap w' = w_cap w /\ w_loads w' = w_loads w \/
  exists retry, let r := ngx_autocert_loadcap_admit_retry_n (w_cap w) (w_now w) (load_limit sc) (slot_count sc) retry in
    w_cap w' = r.1 /\ w_loads w' = (if r.2 then replicate (enabled_in sc [EC; RSA]) (w_now w) else []) ++ w_loads w.

(** What no handshake changes. *)
Definition fixed w w' : Prop := w_consumer w' = w_consumer w /\ w_cycle w' = w_cycle w /\ w_now w' = w_now w.

(** The store key of a host the configuration has, or the registry issued. *)
Definition resolves (sc : serve_ctx) w (host : bytes) (k : Z * bytes) : Prop :=
  exists m, iss_inv (w_requests w) m /\ resolution sc (state_of m host =? NGX_AUTOCERT_REQ_ISSUED) host = (k, true).

(** The entry of [k] is taken or made, refreshed when the bounds allow it, and kept. *)
Definition used (sc : serve_ctx) (host : bytes) (k : Z * bytes) (e0 e : entry X K) w w' : Prop :=
  resolves sc w host k /\
  default entry_new (w_cache w !! k) = e0 /\ w_cache w' = <[k := e]> (w_cache w) /\
  (if refreshes sc w e0
   then e_checked e = w_now w /\ forall s, refreshed sc k.2 host s (get_slot e0 s) (get_slot e s)
   else forall s, get_slot e s = get_slot e0 s).

(** What the connection presents afterwards. *)
Definition presents (e : entry X K) w w' (r : Z) : Prop :=
  r = 0 /\ failure E \/
  r = 1 /\ (loaded (e_ec e) = false /\ loaded (e_rsa e) = false /\ w_ssl w' = w_ssl w \/
            certs (w_ssl w') = shown e /\ (loaded (e_ec e) = true \/ loaded (e_rsa e) = true)).

Definition host_served (sc : serve_ctx) (host : bytes) w (r : Z) w' : Prop :=
  winv sc w' /\ fixed w w' /\ w_asked w' = w_asked w /\ rate_step sc w w' /\
  ((exists k e0 e, used sc host k e0 e w w' /\ presents e w w' r) \/
   r = 1 /\ w_cache w' = w_cache w /\ w_ssl w' = w_ssl w /\
   (failure E \/ exists m, iss_inv (w_requests w) m /\ (resolution sc (state_of m host =? NGX_AUTOCERT_REQ_ISSUED) host).2 = false)).

Lemma winv_same sc w w' :
  winv sc w -> w_mem w' = w_mem w -> w_cache w' = w_cache w -> (w_pool w' = false -> w_pool w = false) -> gate_ok crc32 sc (w_gate w') ->
  (exists m, iss_inv (w_requests w') m) -> (exists m, store_inv (w_alpns w') m) -> winv sc w'.
Proof.
  intros [M P G En R A] Em Ec Ep Hg Hr Ha. split; try done.
  - unfold mem_is. by rewrite Em, Ec.
  - intros Hp. rewrite Ec. by apply P, Ep.
  - by rewrite Ec.
Qed.

(** Putting an entry back. *)
Lemma winv_put sc w w' k e0 e s rest_ :
  winv sc w -> rest w' = rest w -> allowed sc k -> (forall s, slot_ok sc k.2 s (get_slot e s)) -> w_pool w = true ->
  refs_cache (<[k := e0]> (w_cache w)) ≡ₚ refs_entry e0 ++ rest_ -> refs_cache (<[k := e]> (w_cache w)) ≡ₚ refs_entry e ++ rest_ ->
  mem_is w' (refs_entry e ++ rest_) false s -> (whole_reads E -> s = 0%nat) ->
  winv sc (set_cache (<[k := e]> (w_cache w')) w').
Proof.
  intros [M P G En R A] Hr Hal Hok Hp He0 He Hm Hs. unfold rest in Hr. injection Hr as Ep Ec Eg _ _ _ _ Er Ea _. split; cbn.
  - exists s. split; [|done]. rewrite Ec. rewrite <- He in Hm. exact Hm.
  - congruence.
  - by rewrite Eg.
  - rewrite Ec. intros k' e'. rewrite lookup_insert_Some. intros [[<- <-]|[_ Hk']]; [by split|by apply En].
  - by rewrite Er.
  - by rewrite Ea.
Qed.

Lemma entry_new_ok sc store s : slot_ok sc store s (get_slot entry_new s).
Proof. left. by destruct s. Qed.

(** The same to a reader of the cache. *)
Definition alike w w' : Prop :=
  w_cache w' = w_cache w /\ fixed w w' /\ w_asked w' = w_asked w /\ w_cap w' = w_cap w /\ w_loads w' = w_loads w /\ w_ssl w' = w_ssl w.

Lemma host_served_not sc host w w' :
  winv sc w' -> alike w w' ->
  (failure E \/ exists m, iss_inv (w_requests w) m /\ (resolution sc (state_of m host =? NGX_AUTOCERT_REQ_ISSUED) host).2 = false) ->
  host_served sc host w 1 w'.
Proof. intros Hi (Ec & Hf & Ha & Hcap & Hl & Es) Hor. split; [done|]. split; [done|]. split; [done|]. split; [by left|]. by right. Qed.

Lemma allowed_of sc issued host k : resolution sc issued host = (k, true) -> allowed sc k.
Proof. intros Hr. by exists host, issued. Qed.

Lemma slots_after sc issued host k w e0 e :
  resolution sc issued host = (k, true) -> (forall s, slot_ok sc k.2 s (get_slot e0 s)) ->
  (if refreshes sc w e0 then e_checked e = w_now w /\ (forall s, refreshed sc k.2 host s (get_slot e0 s) (get_slot e s))
   else forall s, get_slot e s = get_slot e0 s) ->
  forall s, slot_ok sc k.2 s (get_slot e s).
Proof.
  intros Hr Ho He s. destruct (refreshes sc w e0).
  - destruct He as [_ He]. eapply (refreshed_ok sc k.2 host issued); [|apply Ho|apply He]. by rewrite <- (resolution_key _ _ _ _ _ Hr).
  - rewrite He. apply Ho.
Qed.

(** An entry at hand is refreshed, put back and presented. *)
Lemma wp_serve_entry sc host issued k e0 w w1 :
  winv sc w1 -> w_pool w1 = true -> fixed w w1 -> w_asked w1 = w_asked w -> w_cap w1 = w_cap w -> w_loads w1 = w_loads w -> w_ssl w1 = w_ssl w ->
  resolves sc w host k -> resolution sc issued host = (k, true) -> default entry_new (w_cache w !! k) = e0 -> w_cache w1 = <[k := e0]> (w_cache w) ->
  wp (let! e := refresh O E inet_addr inet6_addr sc k.2 host e0 in
      update (fun w => set_cache (<[k := e]> (w_cache w)) w);; present O E e) w1 (host_served sc host w) (fun _ => False).
Proof.
  intros Hi Hp Hf Ha Hc Hl Hs Hres Hr He0 Hcache. assert (Hk : w_cache w1 !! k = Some e0) by (by rewrite Hcache, lookup_insert_eq).
  destruct (refs_replace _ _ _ e0 Hk) as (rest_ & Hrefs & _).
  destruct (wi_mem _ _ Hi) as (s & Hm & Hws). rewrite Hrefs in Hm.
  assert (Hok0 : forall s, slot_ok sc k.2 s (get_slot e0 s)) by by apply (wi_entries _ _ Hi k e0).
  apply wp_bind. eapply wp_mono; [exact (wp_refresh sc k.2 host e0 _ _ _ Hm)| |done].
  intros e w2 (Hrest & (s2 & Hm2 & Hs2) & Hcap & Hloads & Hslots).
  assert (Hok : forall s, slot_ok sc k.2 s (get_slot e s)) by by eapply slots_after.
  assert (Hrefs' : refs_cache (<[k := e]> (w_cache w1)) ≡ₚ refs_entry e ++ rest_).
  { destruct (refs_replace _ _ _ e Hk) as (rest2 & Hrefs2 & ->). rewrite Hrefs in Hrefs2. apply Permutation_app_inv_l in Hrefs2. by rewrite Hrefs2. }
  apply wp_bind, wp_update_serve.
  assert (Hi3 : winv sc (set_cache (<[k := e]> (w_cache w2)) w2)).
  { eapply (winv_put sc w1 w2 k e0 e s2 rest_); try done; [by eapply allowed_of|by rewrite insert_id|]. intros Hw. by rewrite (Hs2 Hw), (Hws Hw). }
  set (w3 := set_cache _ w2) in *.
  assert (Eq : w_now w1 = w_now w) by apply Hf.
  assert (Hrf : refreshes sc w e0 = refreshes sc w1 e0) by (unfold refreshes, asks, budget; by rewrite Eq, Hc).
  unfold rest in Hrest. injection Hrest as Ep2 Ec2 Eg2 En2 Ey2 Et2 Ea2 Er2 Eal2 Es2.
  assert (Hdone : forall r w', on_ssl w3 w' -> presents e w w' r -> host_served sc host w r w').
  { intros r w' Hq Hpr. assert (Hw' : winv sc w') by (destruct Hq as (n & s' & ->); apply (winv_same sc w3); done || by apply Hi3).
    destruct Hq as (n & s' & ->). split; [done|]. unfold w3. split; [destruct Hf as (? & ? & ?); unfold fixed; cbn; by rewrite En2, Ey2, Et2|].
    split; [cbn; congruence|]. split.
    - cbn. unfold rate_step. cbn. rewrite Hcap, Hloads. unfold refreshes, asks, budget. rewrite Hc, Eq, Hl.
      destruct (negb _); cbn [andb]; [right; by exists (e_deferred e0)|by left].
    - left. exists k, e0, e. split; [|done]. split; [done|]. split; [done|]. cbn. split; [by rewrite Ec2, Hcache, insert_insert_eq|].
      rewrite Hrf, <- Eq. exact Hslots. }
  apply wp_present; [done|intros s'; by eapply slot_ok_whole|..].
  - intros w' Hq Hfl. apply Hdone; [done|by left].
  - intros H1 H2. apply Hdone; [reflexivity|]. right. split; [done|]. left. split; [done|]. split; [done|]. cbn. congruence.
  - intros w' Hq Hce Hld. apply Hdone; [done|]. right. split; [done|]. by right.
Qed.

Lemma winv_calls sc w n : winv sc w -> winv sc (set_calls n w).
Proof. intros Hi. by apply (winv_same sc w); try done; apply Hi. Qed.

Lemma alike_calls w n : alike w (set_calls n w).
Proof. done. Qed.

(** The entry, made when there is none. *)
Lemma wp_lookup_entry sc k w (Q : option (entry X K) -> W -> Prop) (X_ : W -> Prop) :
  winv sc w -> allowed sc k -> w_pool w = true ->
  (forall w', winv sc w' -> alike w w' -> failure E -> Q None w') ->
  (forall e w', winv sc w' -> w_pool w' = true -> e = default entry_new (w_cache w !! k) -> w_cache w' = <[k := e]> (w_cache w) ->
     alike (set_cache (w_cache w') w) w' -> Q (Some e) w') ->
  wp (lookup_entry E k) w Q X_.
Proof.
  intros Hi Hal Hp Hno HQ. apply wp_bind, wp_read_serve. destruct (w_cache w !! k) as [e|] eqn:Ek.
  - apply wp_ret, HQ; [done|done|done|by rewrite insert_id|by destruct w].
  - apply wp_bind, wp_attempt_calls. destruct (ok E (w_calls w)) eqn:Eo; cbn [negb].
    2: { apply wp_ret, Hno; [by apply winv_calls|done|by exists (w_calls w)]. }
    apply wp_bind, wp_update_serve, wp_ret. destruct Hi as [(s & Hm & Hws) P G En R A]. apply HQ; try done.
    split; try done.
    + exists s. split; [|done]. cbn. rewrite (refs_insert _ _ _ Ek). exact Hm.
    + cbn. congruence.
    + cbn. intros k' e'. rewrite lookup_insert_Some. intros [[<- <-]|[_ Hk']]; [|by apply En]. split; [done|]. intros s'. by apply entry_new_ok.
Qed.

Lemma wp_host_served sc host w :
  winv sc w -> c_string host ->
  wp (serve_host O E inet_addr inet6_addr crc32 sc host) w (host_served sc host w) (fun _ => False).
Proof.
  intros Hi Hc. apply wp_bind, wp_read_serve.
  assert (Hready : forall w1, winv sc w1 -> alike w w1 -> w_pool w1 = true -> (forall m, iss_inv (w_requests w) m -> iss_inv (w_requests w1) m) ->
    wp (build_index E crc32 sc;; let! r := resolve inet_addr inet6_addr crc32 sc host in
        if negb r.2 then ret 1
        else let! found := lookup_entry E r.1 in
          match found with
          | None => ret 1
          | Some e => let! e := refresh O E inet_addr inet6_addr sc r.1.2 host e in
                      update (fun w => set_cache (<[r.1 := e]> (w_cache w)) w);; present O E e
          end) w1 (host_served sc host w) (fun _ => False)).
  { intros w1 Hi1 Hal1 Hp1 Hreq. apply wp_bind. apply (wp_build_index E inet_addr inet6_addr); [exact (wi_gate _ _ Hi1)|]. intros w2 (n & g & ->) Hg2.
    destruct (wi_requests _ _ Hi) as [m Hm].
    apply wp_bind, (wp_resolve inet_addr inet6_addr crc32 sc host m); [done|done|cbn; by apply Hreq|]. intros z Hz.
    set (w3 := set_requests z _).
    assert (Hi3 : winv sc w3) by (apply (winv_same sc w1); try done; [by exists m|exact (wi_alpns _ _ Hi1)]).
    assert (Hal3 : alike w w3) by done.
    set (issued := _ =? NGX_AUTOCERT_REQ_ISSUED). destruct (resolution sc issued host) as [k b] eqn:Er. cbn [fst snd].
    destruct b; cbn [negb].
    2: { apply wp_ret, host_served_not; [done|done|]. right. exists m. split; [done|]. fold issued. by rewrite Er. }
    apply wp_bind. eapply wp_lookup_entry; [exact Hi3|by eapply allowed_of|done|..].
    - intros w4 Hi4 (Ec4 & Hf4 & Ha4 & Hcap4 & Hl4 & Hs4) Hfl. apply wp_ret, host_served_not; [done| |by left].
      destruct Hal3 as (Ec & (? & ? & ?) & Ha & Hcap & Hl & Hs). destruct Hf4 as (? & ? & ?). repeat split; congruence.
    - intros e0 w4 Hi4 Hp4 He0 Hc4 (Ec4 & Hf4 & Ha4 & Hcap4 & Hl4 & Hs4).
      destruct Hal3 as (Ec & (? & ? & ?) & Ha & Hcap & Hl & Hs). destruct Hf4 as (? & ? & ?). cbn in *.
      eapply (wp_serve_entry sc host issued k e0 w w4); try done; try congruence; [repeat split; congruence|by exists m]. }
  apply wp_bind. destruct (w_pool w) eqn:Ep.
  { apply wp_ret. cbn [negb]. by apply Hready. }
  apply wp_bind, wp_attempt_calls. destruct (ok E (w_calls w)) eqn:Eo.
  2: { apply wp_ret. cbn [negb]. apply wp_ret, host_served_not; [by apply winv_calls|done|]. left. by exists (w_calls w). }
  apply wp_bind, wp_update_serve, wp_ret. cbn [negb]. pose proof (wi_pool _ _ Hi Ep) as He. apply Hready; [| |done|done].
  - destruct Hi as [(s & Hm & Hws) P G En R A]. rewrite He in Hm. split; try done. by exists s.
  - by repeat split.
Qed.

(** ** The CA's validation *)

(** All but the memory, the count of calls and the connection. *)
Definition acme_frame w w' : Prop :=
  w_pool w' = w_pool w /\ w_cache w' = w_cache w /\ w_cap w' = w_cap w /\ w_gate w' = w_gate w /\ fixed w w' /\ w_loads w' = w_loads w /\
  w_asked w' = w_asked w /\ w_requests w' = w_requests w /\ (forall m, store_inv (w_alpns w) m -> store_inv (w_alpns w') m).

#[export] Instance acme_frame_preorder : PreOrder acme_frame.
Proof.
  split; [done|]. intros w1 w2 w3 (?&?&?&?&(?&?&?)&?&?&?&?) (?&?&?&?&(?&?&?)&?&?&?&?).
  split; [congruence|]. split; [congruence|]. split; [congruence|]. split; [congruence|]. split; [repeat split; congruence|].
  split; [congruence|]. split; [congruence|]. split; [congruence|]. auto.
Qed.

Lemma quiet_acme w w' : quiet w w' -> acme_frame w w' /\ w_ssl w' = w_ssl w.
Proof. by intros (n & m & ->). Qed.

Lemma on_ssl_acme w w' : on_ssl w w' -> acme_frame w w' /\ w_mem w' = w_mem w.
Proof. by intros (n & m & ->). Qed.

(** The challenge of [host] in the store. *)
Definition challenge_of w (host : bytes) (x : X) (k : K) : Prop :=
  exists m v, store_inv (w_alpns w) m /\ m !! host = Some v /\ pem_leaf O v.1 = Some x /\ pem_key O v.2 = Some k.

Definition acme_served (host : bytes) w (r : Z) w' : Prop :=
  acme_frame w w' /\ (forall l s, mem_is w l false s -> mem_is w' l false s) /\
  (r = 0 \/ r = 1 /\
     exists x k, challenge_of w host x k /\ map_Forall (fun _ => only x k []) (certs (w_ssl w')) /\ exists id c, certs (w_ssl w') !! id = Some c).

Lemma wp_acme_quit (rc : Z) key_pem (bio : option (obj unit)) (cert : option (obj X)) (key : option (obj K)) w (Q : Z -> W -> Prop) X_ l d s :
  mem_is w (refs_opt bio ++ refs_opt cert ++ refs_opt key ++ l) d s ->
  (forall w', quiet w w' -> mem_is w' l false s -> Q rc w') ->
  wp (free_opt bio;; free_opt cert;; free_opt key;; ngx_http_autocert_cleanse (Some key_pem);; ret rc) w Q X_.
Proof.
  intros Hm HQ. apply wp_bind. eapply wp_free_opt; [exact Hm|]. intros w1 Hq1 Hm1.
  apply wp_bind. eapply wp_free_opt; [exact Hm1|]. intros w2 Hq2 Hm2.
  apply wp_bind. eapply wp_free_opt; [exact Hm2|]. intros w3 Hq3 Hm3.
  apply wp_bind. eapply wp_cleanse; [exact Hm3|]. intros w4 Hq4 Hm4. apply wp_ret, HQ; [|done].
  etrans; [exact Hq1|]. etrans; [exact Hq2|]. by etrans.
Qed.

Lemma wp_serve_alpn_cert host w m :
  store_inv (w_alpns w) m -> (exists l s, mem_is w l false s) ->
  wp (ngx_http_autocert_serve_alpn_cert O E host) w (acme_served host w) (fun _ => False).
Proof.
  intros Hst (l & s & Hm). assert (Hl : forall l' s', mem_is w l' false s' -> l' ≡ₚ l /\ s' = s).
  { intros l' s' (Hp' & _ & _ & _ & Hs'). destruct Hm as (Hp & _ & _ & _ & Hs). split; [by rewrite <- Hp'|congruence]. }
  assert (Hserved : forall w' r, acme_frame w w' -> mem_is w' l false s ->
    (r = 0 \/ r = 1 /\
     exists x k, challenge_of w host x k /\ map_Forall (fun _ => only x k []) (certs (w_ssl w')) /\ exists id c, certs (w_ssl w') !! id = Some c) ->
    acme_served host w r w').
  { intros w' r Hf Hm' Hr. split; [done|]. split; [|done]. intros l' s' Hm''. apply Hl in Hm'' as [-> ->]. exact Hm'. }
  apply wp_bind. eapply wp_attempt_serve; [exact Hm|]. intros n1 w1 Hq1 Hm1. destruct (quiet_acme _ _ Hq1) as [Hf1 _].
  apply wp_bind. pose proof (store_get_spec (w_alpns w1) m host (negb (ok E n1)) ltac:(by apply Hf1)) as Hget.
  unfold wp, zoom in *. destruct (store_get _ _ _) as [[rc v] z|z| |] eqn:Eg; try done. destruct Hget as [-> Hr]. clear Eg.
  match goal with |- match ?p ?w0 with _ => _ end => change (wp p w0 (acme_served host w) (fun _ => False)) end.
  set (w2 := set_alpns _ w1). assert (E2 : w2 = w1) by (unfold w2; by destruct w1). clearbody w2. subst w2.
  destruct (rc =? NGX_OK) eqn:Erc; reflect_bools; cbn [negb]; [|apply wp_ret, Hserved; [done|exact Hm1|by left]].
  destruct (m !! host) as [[cert_pem key_pem]|] eqn:Em; [|by injection Hr as -> ->].
  destruct (ok E n1); cbn [negb] in Hr; [|by injection Hr as -> ->]. injection Hr as -> ->.
  apply wp_bind. eapply wp_copy_in; [exact Hm1|]. intros w3 Hq3 Hm3. cbv zeta. set (d := _ || _) in Hm3. clearbody d.
  assert (Hq3' : quiet w w3) by by etrans.
  assert (Hquit : forall (rc : Z) (bio : option (obj unit)) (cert : option (obj X)) (key : option (obj K)) w4, acme_frame w w4 -> mem_is w4 (refs_opt bio ++ refs_opt cert ++ refs_opt key ++ l) d s ->
    (rc = 0 \/ rc = 1 /\
     exists x k, challenge_of w host x k /\ map_Forall (fun _ => only x k []) (certs (w_ssl w4)) /\ exists id c, certs (w_ssl w4) !! id = Some c) ->
    wp (free_opt bio;; free_opt cert;; free_opt key;; ngx_http_autocert_cleanse (Some key_pem);; ret rc) w4 (acme_served host w) (fun _ => False)).
  { intros rc bio cert key w4 Hf4 Hm4 Hr. eapply wp_acme_quit; [exact Hm4|]. intros w5 Hq5 Hm5. destruct (quiet_acme _ _ Hq5) as [Hf5 Es].
    apply Hserved; [by etrans|done|]. by rewrite Es. }
  assert (Hq : forall w', quiet w w' -> acme_frame w w') by (intros w' Hq; apply (quiet_acme _ _ Hq)).
  apply wp_bind. eapply wp_attempt_serve; [exact Hm3|]. intros n4 w4 Hq4 Hm4. assert (Hq4' : quiet w w4) by by etrans.
  destruct (ok E n4); cbn [negb]; [|apply Hquit; [by apply Hq|refs Hm4|by left]].
  apply wp_bind, wp_bind. eapply wp_hold; [exact Hm4|]. intros hb w5 Hq5 Hm5. apply wp_ret. assert (Hq5' : quiet w w5) by by etrans.
  apply wp_bind. eapply wp_attempt_serve; [exact Hm5|]. intros n6 w6 Hq6 Hm6. assert (Hq6' : quiet w w6) by by etrans.
  destruct (if ok E n6 then pem_leaf O cert_pem else None) as [x|] eqn:Ex; [|apply Hquit; [by apply Hq|refs Hm6|by left]].
  destruct (ok E n6); [|done].
  apply wp_bind, wp_bind. eapply wp_hold; [exact Hm6|]. intros hx w7 Hq7 Hm7. apply wp_ret. assert (Hq7' : quiet w w7) by by etrans.
  apply wp_bind. eapply wp_drop_ref with (l := hx :: l); [refs Hm7|]. intros w8 Hq8 Hm8. assert (Hq8' : quiet w w8) by by etrans.
  apply wp_bind. eapply wp_attempt_serve; [exact Hm8|]. intros n9 w9 Hq9 Hm9. assert (Hq9' : quiet w w9) by by etrans.
  destruct (ok E n9); cbn [negb]; [|apply Hquit; [by apply Hq|refs Hm9|by left]].
  apply wp_bind, wp_bind. eapply wp_hold; [exact Hm9|]. intros hb' w10 Hq10 Hm10. apply wp_ret. assert (Hq10' : quiet w w10) by by etrans.
  apply wp_bind. eapply wp_attempt_serve; [exact Hm10|]. intros n11 w11 Hq11 Hm11. assert (Hq11' : quiet w w11) by by etrans.
  destruct (if ok E n11 then pem_key O key_pem else None) as [k|] eqn:Ek; [|apply Hquit; [by apply Hq|refs Hm11|by left]].
  destruct (ok E n11); [|done].
  apply wp_bind, wp_bind. eapply wp_hold; [exact Hm11|]. intros hk w12 Hq12 Hm12. apply wp_ret. assert (Hq12' : quiet w w12) by by etrans.
  apply wp_bind, wp_update_serve. set (w13 := set_ssl _ w12).
  assert (H13 : on_ssl w12 w13) by (apply on_ssl_set; reflexivity).
  apply wp_bind, wp_bind_only; [unfold w13; cbn; rewrite clear_spec; apply map_Forall_empty|..].
  - intros w14 H14. destruct (on_ssl_acme w12 w14) as [Hf14 Em14]; [by etrans|]. apply Hquit; [etrans; [by apply Hq|done]| |by left].
    unfold mem_is. rewrite Em14. refs Hm12.
  - intros w14 H14 Ho14 He14. destruct (on_ssl_acme w12 w14) as [Hf14 Em14]; [by etrans|].
    apply Hquit; [etrans; [by apply Hq|done]|unfold mem_is; rewrite Em14; refs Hm12|].
    right. split; [done|]. exists x, k. split; [|done]. by exists m, (cert_pem, key_pem).
Qed.
End Run.
