(* ===== verification/ServeEvents.v ===== *)
(** * Serving certificates: the events of a worker

    What a handshake answers, that a reload gives every reference back, and the
    invariant of every worker a history reaches. *)

From S2P Require Import Prelude NgxCore Loadcap Ident Rbtree Shm Store Alpn Requests RequestsThms Expiry Serve ServeInv ServeConn ServeRun.

Local Open Scope Z_scope.
Local Open Scope prog_scope.

(** The registry of runtime names keeps its promise. *)
#[refine] Definition requests_issued `{RB : NgxRbtree} (crc32 : bytes -> Z) : Issued requests_sh := {|
  iss_state := ngx_autocert_requests_state crc32 false;
  iss_inv := req_inv crc32 |}.
Proof. intros z m host. apply wp_state. Defined.

Section Events.
Context {X K C H HA : Type} {IS : Issued H} {SA : Store HA (bytes * bytes)}.
Context (O : openssl X K) {T : Tls O C} (E : env X C).
Context (inet_addr : bytes -> Z) (inet6_addr : bytes -> option bytes) (crc32 : bytes -> Z).
Context (Hkind : forall x k, check_key O x k = 1 -> x_id O x = Some (k_id O k)).
Abbreviation W := (worker X K C H HA).
Implicit Types (w : W) (e : entry X K).
Abbreviation resolution := (resolution inet_addr inet6_addr crc32).
Abbreviation winv := (winv O E inet_addr inet6_addr crc32).
Abbreviation used := (used O E inet_addr inet6_addr crc32).
Abbreviation presents := (presents O E).

(** ** A handshake *)

(** A server name is a C string. *)
Definition hello_ok (h : hello) : Prop := forall name, servername h = Some name -> c_string name.

(** The CA's validation connection. *)
Definition validation (sc : serve_ctx) (h : hello) : bool := has_conn h && has_alpn_zone sc && acme_flag h.

(** A consumer registered in the running cycle. *)
Definition consulted w : bool := match w_consumer w with Some cycle => cycle =? w_cycle w | None => false end.

(** All but the connection, the count of calls and of questions to the consumer. *)
Definition kept w w' : Prop :=
  fixed w w' /\ w_pool w' = w_pool w /\ w_cache w' = w_cache w /\ w_cap w' = w_cap w /\ w_gate w' = w_gate w /\
  w_loads w' = w_loads w /\ w_mem w' = w_mem w /\ w_requests w' = w_requests w /\ w_alpns w' = w_alpns w.

Lemma winv_kept sc w w' : winv sc w -> kept w w' -> winv sc w'.
Proof.
  intros Hi (_ & Ep & Ec & _ & Eg & _ & Em & Er & Ea).
  apply (winv_same O E inet_addr inet6_addr crc32 sc w); try done; [congruence|..]; rewrite ?Eg, ?Er, ?Ea; apply Hi.
Qed.

(** The connection as the consumer, if it is asked, leaves it. *)
Definition left_by w (c : C) : Prop := if consulted w then exists n, c = (consumer E n (w_ssl w)).2 else c = w_ssl w.

Lemma wp_next_calls w (Q : nat -> W -> Prop) (X_ : W -> Prop) : Q (w_calls w) (set_calls (S (w_calls w)) w) -> wp next_call w Q X_.
Proof. exact id. Qed.

Lemma wp_delegate w (Q : Z -> W -> Prop) (X_ : W -> Prop) :
  (forall rc w', kept w w' -> (rc = NGX_OK \/ rc = NGX_DECLINED \/ rc = NGX_ERROR) ->
     (consulted w = false -> rc = NGX_DECLINED) ->
     w_asked w' = (if consulted w then S (w_asked w) else w_asked w) -> left_by w (w_ssl w') -> Q rc w') ->
  wp (ngx_http_autocert_cert_cb_delegate E) w Q X_.
Proof.
  intros HQ. apply wp_bind, wp_read_serve. unfold left_by, consulted, id in *. destruct (w_consumer w) as [cycle|]; [|apply wp_ret, HQ; auto; done].
  destruct (cycle =? w_cycle w); cbn [negb]; [|apply wp_ret, HQ; auto; done].
  apply wp_bind, wp_update_serve. apply wp_bind, wp_next_calls, wp_bind, wp_read_serve. cbv zeta. apply wp_bind, wp_update_serve.
  set (r := consumer E _ _). assert (Hl : exists n, r.2 = (consumer E n (w_ssl w)).2) by by eexists.
  destruct (_ && _ && _) eqn:Eb; apply wp_ret; (apply HQ; [done| |done|done|exact Hl]); [by right; left|].
  rewrite !andb_false_iff, !negb_false_iff, !Z.eqb_eq in Eb. tauto.
Qed.

(** How a handshake ends. *)
Inductive answered (sc : serve_ctx) (h : hello) w (r : Z) w' : Prop :=
  | ans_refused : validation sc h = true -> acme_frame w w' -> r = 0 -> answered sc h w r w'
  | ans_validation name : validation sc h = true -> servername h = Some name -> acme_served O (ngx_strlow name) w r w' -> answered sc h w r w'
  | ans_consumer : validation sc h = false -> consulted w = true -> w_cache w' = w_cache w ->
      left_by w (w_ssl w') -> answered sc h w r w'
  | ans_listener : validation sc h = false -> w_cache w' = w_cache w -> left_by w (w_ssl w') \/ w_ssl w' = w_ssl w -> r = 1 ->
      (has_conn h = false \/ servername h = None \/
       exists name, servername h = Some name /\
         (length name = 0%nat \/ (255 < length name)%nat \/ failure E \/
          exists m, iss_inv (w_requests w) m /\
            (resolution sc (state_of m (ngx_strlow name) =? NGX_AUTOCERT_REQ_ISSUED) (ngx_strlow name)).2 = false)) ->
      answered sc h w r w'
  | ans_store name k e0 e w1 : validation sc h = false -> servername h = Some name -> (0 < length name <= 255)%nat ->
      used sc (ngx_strlow name) k e0 e w w' -> left_by w (w_ssl w1) -> presents e w1 w' r -> answered sc h w r w'.

Lemma acme_winv sc w w' : winv sc w -> acme_frame w w' -> (forall l s, mem_is w l false s -> mem_is w' l false s) -> winv sc w'.
Proof.
  intros Hi (Ep & Ec & _ & Eg & _ & _ & _ & Er & Ha) Hm. destruct Hi as [(s & Hm0 & Hs) P G En R (m & A)]. split; rewrite ?Ep, ?Ec, ?Eg, ?Er; try done.
  - exists s. split; [by apply Hm|done].
  - exists m. by apply Ha.
Qed.

Lemma acme_rate sc w w' : acme_frame w w' -> fixed w w' /\ rate_step sc w w'.
Proof. intros (_ & _ & Ec & _ & Hf & El & _). split; [done|]. by left. Qed.

Lemma acme_frame_refl w : acme_frame w w.
Proof. reflexivity. Qed.

Lemma wp_cert_cb sc h w :
  winv sc w -> hello_ok h ->
  wp (ngx_http_autocert_cert_cb O E inet_addr inet6_addr crc32 sc h) w
    (fun r w' => winv sc w' /\ fixed w w' /\ rate_step sc w w' /\ answered sc h w r w') (fun _ => False).
Proof.
  intros Hi Hh. unfold ngx_http_autocert_cert_cb.
  assert (Hv : forall r, r = 0 -> validation sc h = true -> wp (ret r) w
    (fun r w' => winv sc w' /\ fixed w w' /\ rate_step sc w w' /\ answered sc h w r w') (fun _ => False)).
  { intros r -> Ev. apply wp_ret. split; [done|]. split; [done|]. split; [by left|]. by apply ans_refused. }
  destruct (has_conn h) eqn:Ec; cbn [negb].
  2: { apply wp_ret. split; [done|]. split; [done|]. split; [by left|]. apply ans_listener; [unfold validation; by rewrite Ec|done|by right|done|by left]. }
  assert (Ev : validation sc h = has_alpn_zone sc && acme_flag h) by (unfold validation; by rewrite Ec).
  destruct (has_alpn_zone sc && acme_flag h).
  { destruct (servername h) as [name|] eqn:En; [|by apply Hv]. destruct (_ || _); [by apply Hv|].
    destruct (wi_alpns _ _ _ _ _ _ _ Hi) as [m Hm]. destruct (wi_mem _ _ _ _ _ _ _ Hi) as (s & Hs & _).
    eapply wp_mono; [apply (wp_serve_alpn_cert O E _ _ m Hm); by eexists _, s| |done].
    intros r w' Ha. pose proof Ha as (Hf & Hl & _).
    split; [by eapply acme_winv|]. destruct (acme_rate sc _ _ Hf). split; [done|]. split; [done|]. by eapply ans_validation. }
  apply wp_bind, wp_delegate. intros rc w1 Hk Hrc Hdec Hask Hssl. assert (Hi1 : winv sc w1) by by eapply winv_kept.
  destruct Hk as (Hf & Ep1 & Ec1 & Ecap1 & Eg1 & El1 & Em1 & Er1 & Ea1).
  assert (Hr1 : rate_step sc w w1) by by left.
  assert (Hcons : rc <> NGX_DECLINED -> consulted w = true).
  { intros Hd. destruct (consulted w); [done|]. by rewrite Hdec in Hd. }
  destruct (rc =? NGX_OK) eqn:Eok.
  { apply wp_ret. split; [done|]. split; [done|]. split; [done|]. apply ans_consumer; [done| |done|done]. apply Hcons.
    apply Z.eqb_eq in Eok. by rewrite Eok. }
  destruct (rc =? NGX_ERROR) eqn:Eer.
  { apply wp_ret. split; [done|]. split; [done|]. split; [done|]. apply ans_consumer; [done| |done|done]. apply Hcons.
    apply Z.eqb_eq in Eer. by rewrite Eer. }
  assert (Hlis : forall r, r = 1 -> servername h = None \/ (exists name, servername h = Some name /\ (length name = 0%nat \/ (255 < length name)%nat)) ->
    wp (ret r) w1 (fun r w' => winv sc w' /\ fixed w w' /\ rate_step sc w w' /\ answered sc h w r w') (fun _ => False)).
  { intros r -> Hn. apply wp_ret. split; [done|]. split; [done|]. split; [done|]. apply ans_listener; try done; [by left|]. right.
    destruct Hn as [Hn|(name & Hn & Hlen)]; [by left|]. right. exists name. split; [done|]. tauto. }
  destruct (servername h) as [name|] eqn:En; [|apply Hlis; auto].
  destruct (_ || _) eqn:Elen.
  { apply Hlis; [done|]. right. exists name. split; [done|]. apply orb_true_iff in Elen as [?|?]; reflect_bools; auto. }
  reflect_bools.
  eapply wp_mono; [apply (wp_host_served O E inet_addr inet6_addr crc32 Hkind); [done|by apply strlow_c_string, Hh]| |done].
  intros r w2 (Hi2 & Hf2 & Ha2 & Hr2 & Hend). destruct Hf as (F1 & F2 & F3), Hf2 as (F1' & F2' & F3').
  split; [done|]. split; [repeat split; congruence|]. split.
  { unfold rate_step in *. rewrite Ecap1, El1, F3 in Hr2. exact Hr2. }
  destruct Hend as [(k & e0 & e & Hu & Hp)|(-> & Ec2 & Es2 & Hn)].
  - eapply (ans_store sc h w r w2 name k e0 e w1); [done|done|lia| |done|done].
    unfold used, ServeRun.used, resolves, refreshes, asks, budget in *. rewrite Ec1, Ecap1, F3, Er1 in Hu. exact Hu.
  - apply ans_listener; [done|congruence|left; by rewrite Es2|done|]. right. right. exists name. split; [done|]. right. right. by rewrite Er1 in Hn.
Qed.
(** ** A reload *)

Lemma wp_free_entry e w (Q : unit -> W -> Prop) (X_ : W -> Prop) l d s :
  mem_is w (refs_entry e ++ l) d s -> (forall w', quiet w w' -> mem_is w' l d s -> Q tt w') -> wp (free_entry e) w Q X_.
Proof.
  intros Hm HQ. unfold refs_entry, refs_slot in Hm. rewrite <- !app_assoc in Hm.
  apply wp_bind. eapply wp_free_opt; [exact Hm|]. intros w1 Hq1 Hm1.
  apply wp_bind. eapply wp_free_chain; [exact Hm1|]. intros w2 Hq2 Hm2.
  apply wp_bind. eapply wp_free_opt; [exact Hm2|]. intros w3 Hq3 Hm3.
  apply wp_bind. eapply wp_free_opt; [exact Hm3|]. intros w4 Hq4 Hm4.
  apply wp_bind. eapply wp_free_chain; [exact Hm4|]. intros w5 Hq5 Hm5.
  eapply wp_free_opt; [exact Hm5|]. intros w6 Hq6 Hm6. apply HQ; [|done].
  do 5 (etrans; [eassumption|]). done.
Qed.

Lemma wp_free_cache_certs es w (Q : unit -> W -> Prop) (X_ : W -> Prop) l d s :
  mem_is w (concat (map refs_entry es) ++ l) d s ->
  (forall w', quiet w w' -> mem_is w' l d s -> Q tt w') -> wp (ngx_autocert_serve_free_cache_certs es) w Q X_.
Proof.
  revert w. induction es as [|e es IH]; intros w Hm HQ; [by apply HQ|]. cbn [map concat] in Hm. rewrite <- app_assoc in Hm.
  apply wp_bind. eapply wp_free_entry; [exact Hm|]. intros w1 Hq1 Hm1. apply IH; [done|]. intros w2 Hq2 Hm2. apply HQ; [by etrans|done].
Qed.

(** A reload gives every reference back and forgets what was cached. *)
Definition reset w w' : Prop :=
  w_pool w' = false /\ w_cache w' = ∅ /\ w_gate w' = Gate ∅ false false /\ w_cap w' = w_cap w /\ w_loads w' = w_loads w /\
  fixed w w' /\ w_asked w' = w_asked w /\ w_requests w' = w_requests w /\ w_alpns w' = w_alpns w /\ w_ssl w' = w_ssl w.

Lemma wp_serve_reload sc w :
  winv sc w ->
  wp ngx_autocert_serve_reload w
    (fun _ w' => reset w w' /\ exists s, mem_is w' [] false s /\ (whole_reads E -> s = 0%nat)) (fun _ => False).
Proof.
  intros Hi. destruct (wi_mem _ _ _ _ _ _ _ Hi) as (s & Hm & Hs). apply wp_bind, wp_read_serve. unfold id. apply wp_bind.
  destruct (w_pool w) eqn:Ep.
  - apply wp_bind. eapply wp_free_cache_certs with (l := []); [rewrite map_map, app_nil_r; exact Hm|]. intros w1 (n & m & ->) Hm1. apply wp_update_serve, wp_update_serve.
    split; [by repeat split|]. by exists s.
  - apply wp_ret, wp_update_serve. split; [by repeat split|]. exists s. split; [|done]. rewrite (wi_pool _ _ _ _ _ _ _ Hi Ep) in Hm. exact Hm.
Qed.

Lemma winv_fresh sc w s :
  mem_is w [] false s -> (whole_reads E -> s = 0%nat) -> w_cache w = ∅ -> w_gate w = Gate ∅ false false ->
  (exists m, iss_inv (w_requests w) m) -> (exists m, store_inv (w_alpns w) m) -> winv sc w.
Proof.
  intros Hm Hs Ec Eg Hr Ha. split; rewrite ?Ec, ?Eg; try done. by exists s.
Qed.

(** ** A history *)

(** What the environment promises about an event. *)
Definition event_ok w (ev : event (C := C) (H := H) (HA := HA)) : Prop :=
  match ev with
  | EHandshake _ h => hello_ok h
  | ETime now => w_now w <= now
  | EShared requests alpns => (exists m, iss_inv requests m) /\ (exists m, store_inv alpns m)
  | EReload _ _ | ERegister _ => True
  end.

(** A handshake starts with a connection of its listener. *)
Definition greeted (c : C) w : W := set_ssl c w.

(** What an event does. *)
Definition handled (sc : serve_ctx) w (ev : event (C := C) (H := H) (HA := HA)) (r : option Z) w' : Prop :=
  match ev with
  | EHandshake c h => exists rc, r = Some rc /\ fixed w w' /\ rate_step sc w w' /\ answered sc h (greeted c w) rc w'
  | EReload cycle _ => r = None /\ reset (set_cycle cycle w) w' /\ held (w_mem w') = []
  | ERegister next => r = Some (if next then NGX_OK else NGX_ERROR) /\ w' = (if next then set_consumer (Some (w_cycle w)) w else w)
  | ETime now => r = None /\ w' = set_now now w
  | EShared requests alpns => r = None /\ w' = set_requests requests (set_alpns alpns w)
  end.

Lemma winv_step sc w w' :
  winv sc w -> w_mem w' = w_mem w -> w_cache w' = w_cache w -> w_pool w' = w_pool w -> w_gate w' = w_gate w ->
  (exists m, iss_inv (w_requests w') m) -> (exists m, store_inv (w_alpns w') m) -> winv sc w'.
Proof.
  intros Hi Em Ec Ep Eg Hr Ha. apply (winv_same O E inet_addr inet6_addr crc32 sc w); try done; [congruence|]. rewrite Eg. apply Hi.
Qed.

Lemma wp_handle_worker sc ev w :
  winv sc w -> event_ok w ev ->
  wp (handle O E inet_addr inet6_addr crc32 sc ev) w
    (fun r w' => winv (next_ctx sc ev) w' /\ handled sc w ev r w') (fun _ => False).
Proof.
  intros Hi Hev. pose proof (wi_requests _ _ _ _ _ _ _ Hi) as HR. pose proof (wi_alpns _ _ _ _ _ _ _ Hi) as HA_.
  destruct ev as [c h|cycle sc'|next|now|requests alpns]; cbn [handle next_ctx handled event_ok] in *.
  - apply wp_bind, wp_update_serve, wp_bind. eapply wp_weaken; [apply wp_cert_cb; [by apply (winv_step sc w)|done]|].
    intros r w' (Hi' & Hf & Hr & Ha). apply wp_ret. split; [done|]. by exists r.
  - apply wp_bind, wp_update_serve, wp_bind. eapply wp_weaken; [apply (wp_serve_reload sc); by apply (winv_step sc w)|].
    intros [] w' (Hr & s & Hm & Hs). apply wp_ret. split.
    + destruct Hr as (_ & Ec & Eg & _ & _ & _ & _ & Er & Ea & _). eapply winv_fresh; [done|done|done|done|by rewrite Er|by rewrite Ea].
    + split; [done|]. split; [done|]. destruct Hm as [Hm _]. by apply Permutation_nil.
  - apply wp_bind. destruct next; cbn [ngx_autocert_cert_cb_register negb].
    + apply wp_bind, wp_update_serve, wp_ret, wp_ret. split; [by apply (winv_step sc w)|done].
    + apply wp_ret, wp_ret. by split.
  - apply wp_bind, wp_update_serve, wp_ret. split; [by apply (winv_step sc w)|done].
  - apply wp_bind, wp_update_serve, wp_ret. split; [apply (winv_step sc w); try done; apply Hev|done].
Qed.

(** A worker as it starts. *)
Definition starts w : Prop :=
  w_pool w = false /\ w_cache w = ∅ /\ w_gate w = Gate ∅ false false /\ w_cap w = loadcap0 /\ w_loads w = [] /\ 0 <= w_now w /\
  w_mem w = Memory [] 0 false 0 /\ (exists m, iss_inv (w_requests w) m) /\ (exists m, store_inv (w_alpns w) m).

(** The workers a history reaches, under the configuration it ends with; [P] holds of
    every configuration it saw. *)
Inductive reaches (P : serve_ctx -> Prop) : serve_ctx -> W -> Prop :=
  | reaches_start sc w : P sc -> starts w -> reaches P sc w
  | reaches_step sc w ev r w' :
      reaches P sc w -> event_ok w ev -> P (next_ctx sc ev) ->
      handle O E inet_addr inet6_addr crc32 sc ev w = Ret r w' -> reaches P (next_ctx sc ev) w'.

Lemma starts_winv sc w : starts w -> winv sc w.
Proof.
  intros (_ & Ec & Eg & _ & _ & _ & Em & Hr & Ha). apply (winv_fresh sc w 0); try done. unfold mem_is. rewrite Em. cbn.
  split; [done|]. split; [apply NoDup_nil_2|]. by repeat split.
Qed.

Lemma reaches_winv P sc w : reaches P sc w -> winv sc w.
Proof.
  induction 1 as [sc w _ Hs|sc w ev r w' _ IH Hev _ Hh]; [by apply starts_winv|].
  pose proof (wp_handle_worker sc ev w IH Hev) as Hw. unfold wp in Hw. rewrite Hh in Hw. apply Hw.
Qed.

(** An event of a reached worker never fails. *)
Lemma reaches_handled P sc w ev : reaches P sc w -> event_ok w ev ->
  exists r w', handle O E inet_addr inet6_addr crc32 sc ev w = Ret r w' /\ winv (next_ctx sc ev) w' /\ handled sc w ev r w'.
Proof.
  intros Hr Hev. pose proof (wp_handle_worker sc ev w (reaches_winv _ _ _ Hr) Hev) as Hw. unfold wp in Hw.
  destruct (handle _ _ _ _ _ _ _ _) as [r w'|w'| |]; try done. by exists r, w'.
Qed.
End Events.
