(* ===== verification/ServeThms.v ===== *)
(** * Serving certificates: the theorems

    What a worker presents and never presents, that its memory is the cache's, and
    the bounds of its cache and of its disk reads. *)

From S2P Require Import Prelude NgxCore Loadcap Ident Rbtree Shm Store Alpn AlpnThms Requests RequestsThms Expiry Serve ServeInv ServeConn ServeRun ServeEvents.

Local Open Scope Z_scope.
Local Open Scope prog_scope.

(** ** What an entry shows *)

Section Shown.
Context {X K : Type}.
Implicit Types (e : entry X K) (sl : slot X K).

Lemma kind_id_ne : kind_id EC <> kind_id RSA.
Proof. done. Qed.

(** The certificate a whole slot shows. *)
Definition cpk_of sl : option (cpk X K) :=
  match sl_cert sl, sl_chain sl, sl_key sl with
  | Some x, Some c, Some k => Some (Cpk (Some (value x)) (Some (value k)) (map value c.2))
  | _, _, _ => None
  end.

Lemma lookup_add_slot s sl (m : gmap Z (cpk X K)) id :
  add_slot s sl m !! id = if decide (id = kind_id s) then match cpk_of sl with Some c => Some c | None => m !! id end else m !! id.
Proof.
  unfold add_slot, cpk_of. destruct (decide (id = kind_id s)) as [->|Hne]; destruct (sl_cert sl), (sl_chain sl), (sl_key sl); try done.
  - by rewrite lookup_insert_eq.
  - by rewrite lookup_insert_ne.
Qed.

Lemma shown_lookup e s : shown e !! kind_id s = cpk_of (get_slot e s).
Proof. unfold shown. rewrite !lookup_add_slot, lookup_empty. destruct s; cbn; repeat case_decide; try done; by destruct (cpk_of _). Qed.

Lemma shown_Some e id c : shown e !! id = Some c -> exists s, id = kind_id s /\ cpk_of (get_slot e s) = Some c.
Proof.
  intros Hc. assert (Hk : id = kind_id EC \/ id = kind_id RSA) by (unfold shown in Hc; rewrite !lookup_add_slot, lookup_empty in Hc; repeat case_decide; auto; done).
  destruct Hk as [->| ->]; rewrite shown_lookup in Hc; by eexists.
Qed.

Lemma cpk_of_loaded sl c : cpk_of sl = Some c -> loaded sl = true.
Proof. unfold cpk_of, loaded. by destruct (sl_cert sl). Qed.
End Shown.

(** ** Keys and loads *)

(** The configured key types enable at least one slot, and are counted. *)
Definition config_ok (sc : serve_ctx) : Prop :=
  (exists kts, slot_mask sc = slot_mask_of kts) /\ slot_count sc = slot_count_of (slot_mask sc).

Lemma slot_enabled_testbit mask s : slot_enabled mask s = Z.testbit mask (slot_bit s).
Proof.
  unfold slot_enabled. assert (Hb : 0 <= slot_bit s) by by destruct s. destruct (Z.testbit mask (slot_bit s)) eqn:Et.
  - apply negb_true_iff, Z.eqb_neq. intros Hz. apply (f_equal (fun z => Z.testbit z (slot_bit s))) in Hz.
    rewrite Z.land_spec, Et, Z.shiftl_spec, Z.sub_diag, Z.bits_0 in Hz by done. done.
  - apply negb_false_iff, Z.eqb_eq, Z.bits_inj'. intros n Hn. rewrite Z.land_spec, Z.bits_0, Z.shiftl_spec by done.
    destruct (decide (n = slot_bit s)) as [->|Hne]; [by rewrite Et|].
    destruct (Z_lt_le_dec n (slot_bit s)); [rewrite (Z.testbit_neg_r 1) by lia; apply andb_false_r|].
    change 1 with (2 ^ 0) at 1. rewrite Z.pow2_bits_false by lia. apply andb_false_r.
Qed.

Definition mask_step (mask kt : Z) : Z := Z.lor mask (Z.shiftl 1 (slot_bit (if is_rsa kt then RSA else EC))).

Lemma mask_keeps kts mask s : slot_enabled mask s = true -> slot_enabled (fold_left mask_step kts mask) s = true.
Proof.
  revert mask. induction kts as [|kt kts IH]; intros mask Hs; [done|]. apply IH. rewrite slot_enabled_testbit in *.
  unfold mask_step. by rewrite Z.lor_spec, Hs.
Qed.

Lemma slot_mask_some kts : exists s, slot_enabled (slot_mask_of kts) s = true.
Proof.
  destruct kts as [[|kt kts]|]; [by exists EC| |by exists EC]. exists (if is_rsa kt then RSA else EC).
  change (slot_enabled (fold_left mask_step kts (mask_step 0 kt)) (if is_rsa kt then RSA else EC) = true).
  apply mask_keeps. unfold mask_step. by destruct (is_rsa kt).
Qed.

Lemma config_count sc : config_ok sc -> Z.of_nat (enabled_in sc [EC; RSA]) = slot_count sc /\ 0 < slot_count sc <= 2.
Proof.
  intros ((kts & Em) & ->). destruct (slot_mask_some kts) as [s Hs]. rewrite <- Em in Hs. unfold slot_count_of, enabled_in. cbn [fold_left].
  destruct (slot_enabled (slot_mask sc) EC) eqn:E1, (slot_enabled (slot_mask sc) RSA) eqn:E2.
  4: { destruct s; congruence. }
  all: repeat first [rewrite filter_cons_True by done|rewrite filter_cons_False by congruence]; rewrite filter_nil; cbn; lia.
Qed.

(** The loads from disk in second [t]. *)
Definition loads_in (t : Z) (l : list Z) : Z := Z.of_nat (length (filter (fun u => u = t) l)).

Lemma loads_in_replicate t n now l : loads_in t (replicate n now ++ l) = (if now =? t then Z.of_nat n else 0) + loads_in t l.
Proof.
  unfold loads_in. rewrite filter_app, length_app, Nat2Z.inj_add. f_equal. destruct (Z.eqb_spec now t) as [->|Hne].
  - induction n as [|n IH]; [done|]. cbn [replicate]. rewrite filter_cons_True by done. cbn [length]. lia.
  - induction n as [|n IH]; [done|]. cbn [replicate]. by rewrite filter_cons_False.
Qed.

(** ** The worker *)

Section Worker.
Context {X K C H HA : Type} {IS : Issued H} {SA : Store HA (bytes * bytes)}.
Context (O : openssl X K) {T : Tls O C} (E : env X C).
Context (inet_addr : bytes -> Z) (inet6_addr : bytes -> option bytes) (crc32 : bytes -> Z).
Abbreviation W := (worker X K C H HA).
Implicit Types (w : W) (e : entry X K).
Abbreviation resolution := (resolution inet_addr inet6_addr crc32).
Abbreviation key_of := (key_of crc32).
Abbreviation resolves := (resolves inet_addr inet6_addr crc32).
Abbreviation reaches := (reaches O E inet_addr inet6_addr crc32).
Abbreviation handle := (handle O E inet_addr inet6_addr crc32).
Abbreviation winv := (winv O E inet_addr inet6_addr crc32).
Abbreviation from_disk := (from_disk O E inet_addr inet6_addr).
Abbreviation wildcard_segment := (wildcard_segment inet_addr inet6_addr).
Abbreviation own_key := (own_key inet_addr inet6_addr).

(** *** The keys of the cache *)

(** The keys a list of names can have. *)
Definition keys_of (nms : list bytes) : list (Z * bytes) :=
  map (fun n => key_of (own_key n)) nms ++ map (fun n => key_of (wildcard_segment n)) nms.

Lemma allowed_keys sc nms k :
  names sc = Some nms -> has_requests_zone sc = false -> allowed inet_addr inet6_addr crc32 sc k -> k ∈ keys_of nms.
Proof.
  intros En Ez (host & issued & Hr). unfold ServeConn.resolution, keys_of in *. rewrite En, Ez in Hr. cbn in Hr. apply elem_of_app.
  case_bool_decide; [left; injection Hr as <-; apply list_elem_of_fmap; by exists host|]. right.
  destruct (wildcard_of host) as [wc|]; [|done]. case_bool_decide; [|done]. injection Hr as <-. apply list_elem_of_fmap. by exists wc.
Qed.

Lemma size_keys {A} (m : gmap (Z * bytes) A) ks : (forall k a, m !! k = Some a -> k ∈ ks) -> (size m <= length ks)%nat.
Proof.
  intros Hk. rewrite <- length_map_to_list, <- (length_fmap fst). apply submseteq_length, NoDup_submseteq; [apply NoDup_fst_map_to_list|].
  intros k ([k' a] & -> & Hin%elem_of_map_to_list)%list_elem_of_fmap. by eapply Hk.
Qed.

(** *** The loads *)

Definition same_budget (L : Z) (sc : serve_ctx) : Prop := config_ok sc /\ load_limit sc = L.

(** The bound of the budget, with the log it is about. *)
Definition metered (L t : Z) w : Prop :=
  exists log, run_inv L 2 t (w_now w) (w_cap w, log) /\ loads_at t log = loads_in t (w_loads w).

Lemma metered_rate L t sc w w' :
  0 < L < 2 ^ 64 -> same_budget L sc -> metered L t w -> w_now w' = w_now w -> rate_step sc w w' -> metered L t w'.
Proof.
  intros HL [Hc El] (log & Hi & Hlog) En [[Ec Elo]|(retry & Ec & Elo)].
  { exists log. by rewrite Ec, Elo, En. }
  destruct (config_count _ Hc) as [Hn Hpos]. cbv zeta in *. rewrite El in *.
  set (r := ngx_autocert_loadcap_admit_retry_n _ _ _ _ _) in *.
  pose proof (run_inv_step L HL 2 t (w_now w) _ (w_now w) (slot_count sc) retry ltac:(lia) ltac:(lia) ltac:(lia) Hi) as Hs.
  unfold serve1 in Hs. fold r in Hs. destruct r as [cap okr]. cbn [fst snd] in *. eexists. rewrite Ec, En. split; [exact Hs|].
  rewrite Elo. destruct okr; [|exact Hlog]. rewrite loads_in_replicate, Hn. cbn [loads_at foldr fst snd]. fold (loads_at t log). by rewrite Hlog.
Qed.

Lemma metered_later L t w now : metered L t w -> w_now w <= now -> metered L t (set_now now w).
Proof. intros (log & (Ho & Hsec & Hr) & Hl) Hn. exists log. split; [|done]. split; [done|]. cbn [fst snd] in *. split; [cbn; lia|done]. Qed.

Lemma metered_same L t w w' : metered L t w -> w_now w' = w_now w -> w_cap w' = w_cap w -> w_loads w' = w_loads w -> metered L t w'.
Proof. unfold metered. by intros Hm -> -> ->. Qed.

Lemma metered_starts L t w : 0 < L < 2 ^ 64 -> starts w -> metered L t w.
Proof.
  intros HL (_ & _ & _ & Ec & El & Hn & _). exists []. rewrite Ec, El. split; [|done]. pose proof (reserve_range L ltac:(lia)).
  split; [unfold cap_ok; cbn; lia|]. cbn. lia.
Qed.

Lemma metered_handled L t sc w ev r w' :
  0 < L < 2 ^ 64 -> same_budget L sc -> metered L t w -> event_ok w ev ->
  handled O E inet_addr inet6_addr crc32 sc w ev r w' -> metered L t w'.
Proof.
  intros HL Hb Hm Hev Hh. destruct ev as [c h|cycle sc'|next|now|requests alpns]; cbn in Hh, Hev.
  - destruct Hh as (rc & _ & (_ & _ & En) & Hr & _). by eapply metered_rate.
  - destruct Hh as (_ & (_ & _ & _ & Ec & El & (_ & _ & En) & _) & _). by apply (metered_same L t w).
  - destruct Hh as (_ & ->). destruct next; [by apply (metered_same L t w)|done].
  - destruct Hh as (_ & ->). by apply metered_later.
  - destruct Hh as (_ & ->). by apply (metered_same L t w).
Qed.
End Worker.

(** ** Theorems *)

Section Theorems.
Context {X K C H HA : Type} {IS : Issued H} {SA : Store HA (bytes * bytes)}.
Context (O : openssl X K) {T : Tls O C} (E : env X C).
Context (inet_addr : bytes -> Z) (inet6_addr : bytes -> option bytes) (crc32 : bytes -> Z).
Abbreviation W := (worker X K C H HA).
Implicit Types (w : W) (e : entry X K).
Abbreviation resolution := (resolution inet_addr inet6_addr crc32).
Abbreviation key_of := (key_of crc32).
Abbreviation resolves := (resolves inet_addr inet6_addr crc32).
Abbreviation reaches := (reaches O E inet_addr inet6_addr crc32).
Abbreviation handle := (handle O E inet_addr inet6_addr crc32).
Abbreviation from_disk := (from_disk O E inet_addr inet6_addr).
Abbreviation stored := (stored O E inet_addr inet6_addr).

(** OpenSSL finds that a key fits a certificate only if they are of one kind. *)
Definition kinds_agree : Prop := forall x k, check_key O x k = 1 -> x_id O x = Some (k_id O k).

(** A certificate loaded from the store of the key [store], while valid, for a name
    that has this key and that it covers, with the private key it fits. *)
Definition vetted (sc : serve_ctx) (store : bytes) (id : Z) (c : cpk X K) : Prop :=
  exists s sl verify issued x k,
    id = kind_id s /\ cpk_of sl = Some c /\ from_disk sc s store verify sl /\ resolution sc issued verify = (key_of store, true) /\
    c_x c = Some x /\ c_k c = Some k /\ check_key O x k = 1 /\ x_id O x = Some (kind_id s) /\
    covers O inet_addr inet6_addr x verify = true /\ in_time E x.

Lemma slot_vetted sc s store sl c :
  slot_ok O E inet_addr inet6_addr crc32 sc store s sl -> cpk_of sl = Some c -> vetted sc store (kind_id s) c.
Proof.
  intros [(E1 & _)|(verify & issued & Hr & Hd)] Hc; [unfold cpk_of in Hc; by rewrite E1 in Hc|].
  pose proof Hd as (_ & chain_pem & key_pem & st & _ & _ & _ & _ & leaf & stack & os & key & -> & _ & _ & _ & _ & Hf & Ht).
  cbn in Hc. injection Hc as <-. eexists s, _, verify, issued, (value leaf), (value key).
  split; [done|]. split; [|split; [exact Hd|]]; [done|]. split; [done|]. destruct Hf. by do 5 (split; [done|]).
Qed.

(** An entry that was used shows vetted certificates only. *)
Lemma used_vetted sc w w' host k e0 e :
  winv O E inet_addr inet6_addr crc32 sc w -> used O E inet_addr inet6_addr crc32 sc host k e0 e w w' -> map_Forall (vetted sc k.2) (shown e).
Proof.
  intros Hi ((m & _ & Hr) & He0 & _ & He) id c (s & -> & Hc)%shown_Some. eapply slot_vetted; [|exact Hc].
  eapply slots_after; [exact Hr| |exact He]. intros s'. subst e0. destruct (w_cache w !! k) as [e0|] eqn:Ek; cbn.
  - by apply (wi_entries _ _ _ _ _ _ _ Hi).
  - apply entry_new_ok.
Qed.

Lemma shown_nonempty sc w w' host k e0 e :
  winv O E inet_addr inet6_addr crc32 sc w -> used O E inet_addr inet6_addr crc32 sc host k e0 e w w' ->
  loaded (e_ec e) = true \/ loaded (e_rsa e) = true -> shown e <> ∅.
Proof.
  intros Hi ((m & _ & Hr) & He0 & _ & He) Hl Hs.
  assert (Hok : forall s, slot_whole O s (get_slot e s)).
  { intros s. eapply slot_ok_whole, slots_after; [exact Hr| |exact He]. intros s'. subst e0. destruct (w_cache w !! k) as [e0|] eqn:Ek; cbn.
    - by apply (wi_entries _ _ _ _ _ _ _ Hi).
    - apply entry_new_ok. }
  assert (Hne : forall s, loaded (get_slot e s) = true -> False).
  { intros s Hls. pose proof (shown_lookup e s) as Hlk. rewrite Hs, lookup_empty in Hlk.
    destruct (Hok s) as [(E1 & _)|(x & c & k' & E1 & E2 & E3 & _)]; [unfold loaded in Hls; by rewrite E1 in Hls|].
    unfold cpk_of in Hlk. by rewrite E1, E2, E3 in Hlk. }
  destruct Hl as [Hl|Hl]; [by apply (Hne EC)|by apply (Hne RSA)].
Qed.

Lemma greeted_winv P sc w c : kinds_agree -> reaches P sc w -> winv O E inet_addr inet6_addr crc32 sc (greeted c w).
Proof.
  intros Hkind Hr. pose proof (reaches_winv O E inet_addr inet6_addr crc32 Hkind P sc w Hr) as Hi.
  apply (winv_step O E inet_addr inet6_addr crc32 sc w); try done; apply Hi.
Qed.

Lemma left_by_split w c c' : left_by E (greeted c w) c' -> c' = c \/ consulted w = true /\ exists n, c' = (consumer E n c).2.
Proof. unfold left_by. change (consulted (greeted c w)) with (consulted w). destruct (consulted w); auto. Qed.

(** C9. Outside the CA's validation, a connection that goes on is as the listener made it,
    or as a consumer of this cycle left it, or has only vetted certificates of the
    store key its server name has, and at least one. *)
Theorem ngx_http_autocert_cert_cb_vetted P sc w c h :
  kinds_agree -> reaches P sc w -> hello_ok h ->
  exists rc w', handle sc (EHandshake c h) w = Ret (Some rc) w' /\
    (validation sc h = false -> rc = 1 ->
     w_ssl w' = c \/ consulted w = true /\ (exists n, w_ssl w' = (consumer E n c).2) \/
     exists name k, servername h = Some name /\ resolves sc w (ngx_strlow name) k /\
       certs (w_ssl w') <> ∅ /\ map_Forall (vetted sc k.2) (certs (w_ssl w'))).
Proof.
  intros Hkind Hr Hh. destruct (reaches_handled O E inet_addr inet6_addr crc32 Hkind P sc w (EHandshake c h) Hr Hh) as (r & w' & He & _ & rc & -> & _ & _ & Ha).
  exists rc, w'. split; [exact He|]. intros Hv ->. assert (Hi : winv O E inet_addr inet6_addr crc32 sc (greeted c w)) by by apply (greeted_winv P).
  inversion Ha as [Hv' _|? Hv' _|_ _ _ Hl|_ _ [Hl|Hl]|name k e0 e w1 _ Hn _ Hu Hl Hp]; subst; try congruence.
  - destruct (left_by_split _ _ _ Hl); auto.
  - destruct (left_by_split _ _ _ Hl); auto.
  - by left.
  - destruct Hp as [[? _]|[_ [(_ & _ & ->)|(Hce & Hld)]]]; [done|destruct (left_by_split _ _ _ Hl); auto|]. right. right. exists name, k.
    split; [done|]. split; [apply Hu|]. rewrite Hce. split; [by eapply shown_nonempty|by eapply used_vetted].
Qed.

(** C13. The CA's validation is answered with the challenge of its name and nothing else:
    no consumer is asked, and cache, budget and disk are left alone. *)
Theorem ngx_http_autocert_cert_cb_validation P sc w c h :
  kinds_agree -> reaches P sc w -> hello_ok h -> validation sc h = true ->
  exists rc w', handle sc (EHandshake c h) w = Ret (Some rc) w' /\
    w_asked w' = w_asked w /\ w_cache w' = w_cache w /\ w_cap w' = w_cap w /\ w_loads w' = w_loads w /\
    (rc = 0 \/ rc = 1 /\ exists name x k, servername h = Some name /\ challenge_of O w (ngx_strlow name) x k /\
       certs (w_ssl w') <> ∅ /\ map_Forall (fun _ => only x k []) (certs (w_ssl w'))).
Proof.
  intros Hkind Hr Hh Hv. destruct (reaches_handled O E inet_addr inet6_addr crc32 Hkind P sc w (EHandshake c h) Hr Hh) as (r & w' & He & _ & rc & -> & _ & _ & Ha).
  exists rc, w'. split; [exact He|]. inversion Ha as [_ Hf ?|name _ Hn (Hf & _ & Hor)|Hv'|Hv'|?????Hv']; subst; try congruence.
  all: destruct Hf as (_ & Ec & Ecap & _ & _ & El & Eask & _); split; [exact Eask|]; split; [exact Ec|]; split; [exact Ecap|]; split; [exact El|].
  - by left.
  - destruct Hor as [->|(-> & x & k & Hc & Hm & id & c' & Hid)]; [by left|]. right. split; [done|]. exists name, x, k.
    do 2 (split; [done|]). split; [|done]. intros Hemp. by rewrite Hemp, lookup_empty in Hid.
Qed.

(** C12. No event faults: nothing is freed twice or used after, the references held are
    those of the cached slots, and no buffer with a private key waits to be wiped; if
    the reads of files are whole, none was ever given back unwiped either (one cut
    short is, as [short_read_spills] shows); a reload leaves no reference. *)
Theorem ngx_autocert_serve_memory P sc w ev :
  kinds_agree -> reaches P sc w -> event_ok w ev ->
  exists r w', handle sc ev w = Ret r w' /\
    held (w_mem w') ≡ₚ refs_cache (w_cache w') /\ NoDup (held (w_mem w')) /\ dirty (w_mem w') = false /\
    (whole_reads E -> spilled (w_mem w') = 0%nat) /\
    (forall cycle sc', ev = EReload cycle sc' -> held (w_mem w') = [] /\ w_cache w' = ∅ /\ g_built (w_gate w') = false).
Proof.
  intros Hkind Hr Hev. destruct (reaches_handled O E inet_addr inet6_addr crc32 Hkind P sc w ev Hr Hev) as (r & w' & He & Hi & Hh).
  destruct (wi_mem _ _ _ _ _ _ _ Hi) as (s & (Hp & Hnd & _ & Hd & Hs) & Hw). exists r, w'. split; [exact He|].
  split; [done|]. split; [by rewrite Hp|]. split; [done|]. split; [intros H1; by rewrite Hs, (Hw H1)|].
  intros cycle sc' ->. destruct Hh as (_ & (_ & Ec & Eg & _) & Hn). by rewrite Eg.
Qed.

(** Without runtime names a worker caches at most two entries per configured name,
    whatever the server names it is asked for. *)
Theorem ngx_autocert_cache_bounded P sc w nms :
  kinds_agree -> reaches P sc w -> names sc = Some nms -> has_requests_zone sc = false ->
  (size (w_cache w) <= 2 * length nms)%nat.
Proof.
  intros Hkind Hr En Ez. pose proof (reaches_winv O E inet_addr inet6_addr crc32 Hkind P sc w Hr) as Hi.
  etrans; [apply (size_keys _ (keys_of inet_addr inet6_addr crc32 nms))|].
  - intros k e Hk. eapply allowed_keys; [done|done|]. by apply (wi_entries _ _ _ _ _ _ _ Hi k e).
  - unfold keys_of. rewrite length_app, !length_map. lia.
Qed.

(** However many handshakes a worker answers, in no second does it load more slots
    from disk than the limit allows (two, when the limit is one). *)
Theorem ngx_http_autocert_cert_cb_loads_bounded L sc w t :
  kinds_agree -> 0 < L < 2 ^ 64 -> reaches (same_budget L) sc w -> loads_in t (w_loads w) <= Z.max L 2.
Proof.
  intros Hkind HL Hr. assert (Hm : same_budget L sc /\ metered L t w).
  { induction Hr as [sc w HP Hs|sc w ev r w' Hr [Hb Hm] Hev HP Hh]; [split; [done|by apply metered_starts]|]. split; [done|].
    destruct (reaches_handled O E inet_addr inet6_addr crc32 Hkind _ _ _ _ Hr Hev) as (r' & w2 & He & _ & Hd). rewrite Hh in He.
    injection He as <- <-. by apply (metered_handled O E inet_addr inet6_addr crc32 L t sc w ev r). }
  destruct Hm as [_ (log & (_ & _ & _ & _ & _ & Hb) & <-)]. exact Hb.
Qed.

(** *** Availability *)

(** A handshake for a name whose store key is [k], which the listener's module answers. *)
Record asked_for (sc : serve_ctx) w (h : hello) (name : bytes) (k : Z * bytes) : Prop := {
  af_ok : hello_ok h;
  af_conn : has_conn h = true;
  af_plain : validation sc h = false;
  af_own : consulted w = false;
  af_name : servername h = Some name;
  af_len : (0 < length name <= 255)%nat;
  af_key : forall m, iss_inv (w_requests w) m ->
    resolution sc (state_of m (ngx_strlow name) =? NGX_AUTOCERT_REQ_ISSUED) (ngx_strlow name) = (k, true) }.

Lemma handled_asked_for P sc w c h name k :
  kinds_agree -> reaches P sc w -> asked_for sc w h name k -> (forall n, ok E n = true) ->
  exists w' e0 e, handle sc (EHandshake c h) w = Ret (Some 1) w' /\ default entry_new (w_cache w !! k) = e0 /\
    used O E inet_addr inet6_addr crc32 sc (ngx_strlow name) k e0 e (greeted c w) w' /\ presents O E e (greeted c w) w' 1.
Proof.
  intros Hkind Hr [Hh Hc Hv Hcon Hn Hlen Hk] Hok.
  assert (Hnf : ~ failure E) by (intros (n & Hf); by rewrite Hok in Hf).
  destruct (reaches_handled O E inet_addr inet6_addr crc32 Hkind P sc w (EHandshake c h) Hr Hh) as (r & w' & He & _ & rc & -> & _ & _ & Ha).
  inversion Ha as [Hv' _ _|? Hv' _ _|_ Hc' _ _|_ _ _ _ Hor|name' k' e0 e w1 _ Hn' _ Hu Hl Hp]; subst; try congruence.
  - exfalso. change (consulted (greeted c w)) with (consulted w) in Hc'. congruence.
  - exfalso. destruct Hor as [?|[?|(name' & Hn' & [?|[?|[?|(m & Hm & Hf)]]])]]; try congruence; [| |].
    1,2: assert (name' = name) as -> by congruence; lia.
    assert (name' = name) as -> by congruence. by rewrite (Hk m Hm) in Hf.
  - assert (name' = name) as -> by congruence. assert (k' = k) as ->.
    { destruct Hu as ((m & Hm & Hres) & _). rewrite (Hk m Hm) in Hres. by injection Hres. }
    destruct Hp as [[_ Hf]|Hp]; [by apply Hnf in Hf|]. assert (rc = 1) as -> by apply Hp.
    exists w', e0, e. split; [exact He|]. split; [apply Hu|]. split; [exact Hu|]. right. split; [done|]. destruct Hp as [_ [(? & ? & Es)|?]]; [left|by right].
    split; [done|]. split; [done|]. destruct (left_by_split w c _ Hl) as [E1|[E1 _]]; [by rewrite Es, E1|congruence].
Qed.
Lemma presents_shown e w w' s c : presents O E e w w' 1 -> cpk_of (get_slot e s) = Some c ->
  (forall n, ok E n = true) -> certs (w_ssl w') !! kind_id s = Some c.
Proof.
  intros [[_ (n & Hf)]|[_ [(H1 & H2 & _)|(Hce & _)]]] Hc Hok; [by rewrite Hok in Hf| |].
  - apply cpk_of_loaded in Hc. by destruct s; cbn in Hc; congruence.
  - by rewrite Hce, shown_lookup.
Qed.

(** C11. A renewed pair is what the next handshake presents whose refresh the two bounds
    admit. *)
Theorem ngx_http_autocert_cert_cb_renewed P sc w c h name k s chain_pem key_pem st :
  kinds_agree -> reaches P sc w -> asked_for sc w h name k ->
  slot_enabled (slot_mask sc) s = true -> stored sc s k.2 (ngx_strlow name) chain_pem key_pem st ->
  ngx_autocert_slot_fresh (get_slot (default entry_new (w_cache w !! k)) s) st = false ->
  refreshes sc w (default entry_new (w_cache w !! k)) = true ->
  exists w' x key, handle sc (EHandshake c h) w = Ret (Some 1) w' /\ pem_leaf O chain_pem = Some x /\ pem_key O key_pem = Some key /\
    certs (w_ssl w') !! kind_id s = Some (Cpk (Some x) (Some key) (pem_rest O chain_pem)).
Proof.
  intros Hkind Hr Ha Hen Hst Hfresh Href. assert (Hok : forall n, ok E n = true) by apply (sd_loadable _ _ _ _ _ _ _ _ _ _ _ Hst).
  destruct (handled_asked_for P sc w c h name k Hkind Hr Ha Hok) as (w' & e0 & e & He & He0 & (_ & _ & _ & Hu) & Hp).
  rewrite He0 in Hfresh, Href. change (refreshes sc (greeted c w) e0) with (refreshes sc w e0) in Hu. rewrite Href in Hu.
  destruct Hu as [_ Hu]. specialize (Hu s). unfold refreshed in Hu. rewrite Hen in Hu. destruct Hu as [_ Hu].
  destruct (Hu _ _ _ Hst) as [[? _]|(leaf & stack & os & key & Esl & E1 & E2 & _ & E3 & _)]; [congruence|].
  exists w', (value leaf), (value key). split; [exact He|]. split; [done|]. split; [done|]. rewrite E2.
  apply (presents_shown e (greeted c w)); [exact Hp| |done]. by rewrite Esl.
Qed.

(** C10. A name that was served keeps being served, whatever has become of its files: the
    slot shows what it showed, or what was loaded from the store since. *)
Theorem ngx_http_autocert_cert_cb_last_good P sc w c h name k s e x :
  kinds_agree -> reaches P sc w -> asked_for sc w h name k -> (forall n, ok E n = true) ->
  slot_enabled (slot_mask sc) s = true -> w_cache w !! k = Some e -> cpk_of (get_slot e s) = Some x ->
  exists w' x', handle sc (EHandshake c h) w = Ret (Some 1) w' /\ certs (w_ssl w') !! kind_id s = Some x' /\
    (x' = x \/ exists sl, from_disk sc s k.2 (ngx_strlow name) sl /\ cpk_of sl = Some x').
Proof.
  intros Hkind Hr Ha Hok Hen Hk Hc.
  destruct (handled_asked_for P sc w c h name k Hkind Hr Ha Hok) as (w' & e0 & e1 & He & He0 & (_ & _ & _ & Hu) & Hp).
  rewrite Hk in He0. cbn in He0. subst e0.
  assert (Hor : get_slot e1 s = get_slot e s \/ from_disk sc s k.2 (ngx_strlow name) (get_slot e1 s)).
  { destruct (refreshes _ _ _); [|by left]. destruct Hu as [_ Hu]. specialize (Hu s). unfold refreshed in Hu. rewrite Hen in Hu.
    destruct Hu as [[->|Hd] _]; [by left|by right]. }
  destruct Hor as [Hs|Hd].
  - exists w', x. split; [exact He|]. rewrite <- Hs in Hc. split; [by eapply presents_shown|by left].
  - pose proof Hd as (_ & ? & ? & ? & _ & _ & _ & _ & leaf & stack & os & key & Esl & _).
    assert (Hc' : cpk_of (get_slot e1 s) = Some (Cpk (Some (value leaf)) (Some (value key)) (map value os))) by by rewrite Esl.
    exists w', (Cpk (Some (value leaf)) (Some (value key)) (map value os)).
    split; [exact He|]. split; [by eapply presents_shown|]. right. by exists (get_slot e1 s).
Qed.
End Theorems.

(** ** Witnesses *)

#[local] Existing Instance plain_trees.
Definition alpns_ex : Store alpn_sh (bytes * bytes) := alpn_store (fun _ => 0) no_oom 0.
#[local] Existing Instance alpns_ex.
Definition issued_ex : Issued requests_sh := requests_issued (fun _ => 0).
#[local] Existing Instance issued_ex.

(** Certificates and keys are numbers, written after a letter; [cov] is the names a
    certificate covers. *)
Definition openssl_of (cov : Z -> bytes -> bool) : openssl Z Z :=
  Openssl Z Z (fun t => match t with [67; n] => Some n | _ => None end) (fun _ => []) (fun _ => true)
    (fun t => match t with [75; n] => Some n | _ => None end) (fun x k => if x =? k then 1 else 0)
    (fun _ => Some EVP_PKEY_EC) (fun _ => EVP_PKEY_EC) (fun _ _ => false) cov.

Definition openssl_ex : openssl Z Z := openssl_of (fun _ _ => true).

(** A connection: its certificates, and the current one. *)
Definition conn : Type := gmap Z (cpk Z Z) * option Z.

Definition put (id : Z) (p : cpk Z Z) (c : conn) : conn := (<[id := p]> c.1, Some id).

#[refine] Definition tls_of cov : Tls (openssl_of cov) conn := {|
  certs := fst;
  current := snd;
  clear _ := (∅, None);
  use_certificate c x :=
    let o := default no_cpk (c.1 !! EVP_PKEY_EC) in
    let k := match c_k o with Some k => if x =? k then Some k else None | None => None end in
    Some (put EVP_PKEY_EC (Cpk (Some x) k (c_chain o)) c);
  use_private_key c k :=
    let o := default no_cpk (c.1 !! EVP_PKEY_EC) in
    match c_x o with
    | Some x => if x =? k then Some (put EVP_PKEY_EC (Cpk (c_x o) (Some k) (c_chain o)) c) else None
    | None => Some (put EVP_PKEY_EC (Cpk (c_x o) (Some k) (c_chain o)) c)
    end;
  set1_chain c chain :=
    match c.2 with
    | Some id => let o := default no_cpk (c.1 !! id) in Some (put id (Cpk (c_x o) (c_k o) chain) c)
    | None => None
    end |}.
Proof.
  - done.
  - intros c x. cbv zeta. eexists EVP_PKEY_EC, _. do 2 (split; [done|]). split; [done|].
    destruct (c_k _); [|by left]. destruct (_ =? _); [by right|by left].
  - intros c k. cbv zeta. cbn [k_id openssl_of]. destruct (c_x _) as [x|]; [|done]. cbn. destruct (Z.eqb_spec x k); [done|].
    exists x. split; [done|]. by destruct (Z.eqb_spec x k).
  - intros c chain. destruct (c.2) as [id|]; [by exists id|done].
Defined.
#[local] Existing Instance tls_of.
Definition tls_ex : Tls openssl_ex conn := tls_of _.
#[local] Existing Instance tls_ex.

(** The listener's certificate, 7. *)
Definition conn_ex : conn := ({[EVP_PKEY_EC := Cpk (Some 7) (Some 7) []]}, Some EVP_PKEY_EC).

Definition host_ex : bytes := str "a.example".

Definition sc_ex : serve_ctx :=
  ServeCtx (str "/s") false (Some [host_ex]) true false 4 (slot_mask_of None) (slot_count_of (slot_mask_of None)).

(** A store that holds the certificate 1 of the name, and its key. *)
Definition env_ex : env Z conn :=
  Env Z conn (fun _ => true) (fun _ _ => true) (fun _ _ => Some (Stat 5 2 7)) (fun _ _ => true)
    (fun _ file size =>
       if size =? 2
       then Some (if bool_decide (file = file_path sc_ex host_ex (ngx_autocert_slot_key_name EC)) then [75; 1] else [67; 1]) else None)
    (fun _ c => (NGX_DECLINED, c)) (fun _ _ => -1) (fun _ _ => 1).

Definition fresh_alpns : zone alpn_sh := Zone (Slab 5 ∅ [] 0) false None.

(** A challenge, of the certificate 9, has been published for the name. *)
Definition challenge_ex : zone alpn_sh :=
  match store_init fresh_alpns with
  | Ret _ z => match store_set host_ex ([67; 9], [75; 9]) z with Ret _ z' => z' | _ => z end
  | _ => fresh_alpns
  end.

Definition registry_ex : zone requests_sh :=
  match ngx_autocert_requests_init_zone no_oom 0 fresh_requests with Ret _ z => z | _ => fresh_requests end.

Definition worker_ex : worker Z Z conn requests_sh alpn_sh :=
  Worker false ∅ loadcap0 (Gate ∅ false false) None 1 100 (Memory [] 0 false 0) 0 [] 0 registry_ex challenge_ex conn_ex.

Definition hello_ex (acme : bool) : hello := Hello true (Some host_ex) acme.

Abbreviation no_v4 := (fun _ : bytes => INADDR_NONE).
Abbreviation no_v6 := (fun _ : bytes => @None bytes).
Abbreviation step_ex := (handle openssl_ex env_ex no_v4 no_v6 (fun _ => 0) sc_ex).

(** The worker after the first handshake. *)
Definition served_ex : worker Z Z conn requests_sh alpn_sh :=
  match step_ex (EHandshake conn_ex (hello_ex false)) worker_ex with Ret _ w => w | _ => worker_ex end.

Example served_ex_ok :
  step_ex (EHandshake conn_ex (hello_ex false)) worker_ex = Ret (Some 1) served_ex /\ w_loads served_ex = [100] /\
  certs (w_ssl served_ex) = {[EVP_PKEY_EC := Cpk (Some 1) (Some 1) []]}.
Proof. vm_compute. auto. Qed.

Lemma challenge_ex_inv : exists m, store_inv challenge_ex m.
Proof.
  pose proof (store_init_fresh 5 [] 0) as Hi. fold fresh_alpns in Hi. unfold wp, challenge_ex in *.
  destruct (store_init fresh_alpns) as [rc z|z| |]; [|done..]. destruct Hi as [[_ Hi]|[_ (n & Hn)]]; [|done].
  pose proof (store_set_spec z ∅ host_ex ([67; 9], [75; 9]) Hi) as Hs. unfold wp in Hs.
  destruct (store_set _ _ z) as [rc' z'|z'| |]; [|done..]. destruct Hs as [(_ & _ & _ & Hs)|(_ & Hs & _)]; by eexists.
Qed.

Lemma registry_ex_inv : exists m, iss_inv registry_ex m.
Proof.
  pose proof (wp_req_init (fun _ => 0) no_oom 0) as Hi. unfold wp, registry_ex in *.
  destruct (ngx_autocert_requests_init_zone _ _ _) as [rc z|z| |]; [|done..]. destruct Hi as [[_ Hi]|[_ (n & Hn)]]; [|done]. by exists ∅.
Qed.

Lemma kinds_ex : kinds_agree openssl_ex.
Proof. done. Qed.

Lemma hello_ex_ok acme : hello_ok (hello_ex acme).
Proof. intros name [= <-]. repeat constructor. Qed.

Lemma reaches_ex : reaches openssl_ex env_ex no_v4 no_v6 (fun _ => 0) (same_budget 4) sc_ex worker_ex.
Proof.
  apply reaches_start; [split; [split; [by exists None|done]|done]|]. unfold starts. do 5 (split; [done|]). split; [by vm_compute|]. split; [done|].
  split; [apply registry_ex_inv|apply challenge_ex_inv].
Qed.

Lemma reaches_served_ex : reaches openssl_ex env_ex no_v4 no_v6 (fun _ => 0) (same_budget 4) sc_ex served_ex.
Proof.
  eapply (reaches_step _ _ _ _ _ _ sc_ex worker_ex (EHandshake conn_ex (hello_ex false))); [apply reaches_ex|apply hello_ex_ok| |apply served_ex_ok].
  split; [split; [by exists None|done]|done].
Qed.

(** The CA's validation sees the challenge. *)
Example answer_ex :
  let r := step_ex (EHandshake conn_ex (hello_ex true)) served_ex in
  match r with Ret rc _ => rc | _ => None end = Some 1 /\
  match r with Ret _ w => certs (w_ssl w) | _ => ∅ end = {[EVP_PKEY_EC := Cpk (Some 9) (Some 9) []]}.
Proof. vm_compute. auto. Qed.

Lemma Ret_inj {S A} (a a' : A) (s s' : S) : Ret a s = Ret a' s' -> a = a' /\ s = s'.
Proof. by intros [= -> ->]. Qed.

Lemma whole_ex : whole_reads env_ex.
Proof. intros n file size data. cbn. destruct (Z.eqb_spec size 2) as [->|]; [|done]. intros [= <-]. by case_bool_decide. Qed.

Abbreviation key_ex := (key_of (fun _ => 0) host_ex).

Lemma ngx_http_autocert_cert_cb_vetted_witness :
  exists k, certs (w_ssl served_ex) <> ∅ /\
    map_Forall (vetted openssl_ex env_ex no_v4 no_v6 (fun _ => 0) sc_ex k) (certs (w_ssl served_ex)).
Proof.
  destruct (ngx_http_autocert_cert_cb_vetted openssl_ex env_ex no_v4 no_v6 (fun _ => 0) (same_budget 4) sc_ex worker_ex conn_ex (hello_ex false)
    kinds_ex reaches_ex (hello_ex_ok false)) as (rc & w' & He & Hor).
  rewrite (proj1 served_ex_ok) in He. apply Ret_inj in He as [[= <-] <-].
  destruct (Hor eq_refl eq_refl) as [Hf|[[Hc _]|(name & k & _ & _ & Hne & Hv)]]; [|discriminate Hc|].
  { pose proof (proj2 (proj2 served_ex_ok)) as Hc. rewrite Hf in Hc. apply (f_equal (fun m => m !! EVP_PKEY_EC)) in Hc. by vm_compute in Hc. }
  exists k.2. by split.
Defined.

Lemma ngx_http_autocert_cert_cb_validation_witness :
  exists w', step_ex (EHandshake conn_ex (hello_ex true)) served_ex = Ret (Some 1) w' /\ w_cache w' = w_cache served_ex /\
    certs (w_ssl w') = {[EVP_PKEY_EC := Cpk (Some 9) (Some 9) []]}.
Proof.
  destruct (ngx_http_autocert_cert_cb_validation openssl_ex env_ex no_v4 no_v6 (fun _ => 0) (same_budget 4) sc_ex served_ex conn_ex (hello_ex true)
    kinds_ex reaches_served_ex (hello_ex_ok true) eq_refl) as (rc & w' & He & _ & Hc & _).
  exists w'. pose proof answer_ex as [Hr Hce]. change (step_ex (EHandshake conn_ex (hello_ex true)) served_ex = Ret (Some rc) w') in He.
  rewrite He in Hr, Hce. injection Hr as ->. auto.
Defined.

Lemma ngx_autocert_serve_memory_witness :
  length (held (w_mem served_ex)) = 3%nat /\
  exists w', step_ex (EReload 2 sc_ex) served_ex = Ret None w' /\ held (w_mem w') = [] /\ spilled (w_mem w') = 0%nat.
Proof.
  split; [by vm_compute|].
  destruct (ngx_autocert_serve_memory openssl_ex env_ex no_v4 no_v6 (fun _ => 0) (same_budget 4) sc_ex served_ex (EReload 2 sc_ex)
    kinds_ex reaches_served_ex I) as (r & w' & He & _ & _ & _ & Hs & Hl).
  destruct (Hl 2 sc_ex eq_refl) as (Hh & _). exists w'.
  assert (Hr : match step_ex (EReload 2 sc_ex) served_ex with Ret r _ => r | _ => Some 0 end = None) by by vm_compute.
  change (step_ex (EReload 2 sc_ex) served_ex = Ret r w') in He. rewrite He in Hr. rewrite <- Hr.
  split; [exact He|]. split; [exact Hh|]. apply Hs. apply whole_ex.
Defined.

Lemma ngx_autocert_cache_bounded_witness : (1 <= size (w_cache served_ex) <= 2)%nat.
Proof.
  split; [vm_compute; lia|].
  exact (ngx_autocert_cache_bounded openssl_ex env_ex no_v4 no_v6 (fun _ => 0) (same_budget 4) sc_ex served_ex [host_ex]
    kinds_ex reaches_served_ex eq_refl eq_refl).
Defined.

Lemma ngx_http_autocert_cert_cb_loads_bounded_witness : 1 <= loads_in 100 (w_loads served_ex) <= Z.max 4 2.
Proof.
  split; [by vm_compute|].
  apply (ngx_http_autocert_cert_cb_loads_bounded openssl_ex env_ex no_v4 no_v6 (fun _ => 0) 4 sc_ex served_ex 100 kinds_ex); [lia|].
  exact reaches_served_ex.
Defined.

Lemma asked_for_ex (w : worker Z Z conn requests_sh alpn_sh) : w_consumer w = None -> asked_for no_v4 no_v6 (fun _ => 0) sc_ex w (hello_ex false) host_ex key_ex.
Proof.
  intros Hc. split.
  - apply hello_ex_ok.
  - done.
  - done.
  - unfold consulted. by rewrite Hc.
  - done.
  - cbn. lia.
  - intros m _. by vm_compute.
Qed.

Lemma stored_ex : stored openssl_ex env_ex no_v4 no_v6 sc_ex EC host_ex host_ex [67; 1] [75; 1] (Stat 5 2 7).
Proof.
  split; try done; [cbn; unfold NGX_MAX_PATH; lia|..].
  - split; [done|]. split; [cbn; lia|]. split; [done|]. intros n. repeat split; by eexists.
  - split; [done|]. split; [cbn; lia|]. split; [done|]. intros n. repeat split; by eexists.
  - split; [done|]. split; [done|]. exists 1, 1. repeat split; try done.
Qed.

Lemma ngx_http_autocert_cert_cb_renewed_witness :
  exists w', step_ex (EHandshake conn_ex (hello_ex false)) worker_ex = Ret (Some 1) w' /\
    certs (w_ssl w') !! EVP_PKEY_EC = Some (Cpk (Some 1) (Some 1) []).
Proof.
  destruct (ngx_http_autocert_cert_cb_renewed openssl_ex env_ex no_v4 no_v6 (fun _ => 0) (same_budget 4) sc_ex worker_ex conn_ex (hello_ex false)
    host_ex key_ex EC [67; 1] [75; 1] (Stat 5 2 7) kinds_ex reaches_ex (asked_for_ex worker_ex eq_refl) eq_refl stored_ex eq_refl eq_refl)
    as (w' & x & key & He & Hx & Hk & Hc).
  exists w'. cbn in Hx, Hk. injection Hx as <-. injection Hk as <-. auto.
Defined.

Lemma ngx_http_autocert_cert_cb_last_good_witness :
  exists w' c', step_ex (EHandshake conn_ex (hello_ex false)) served_ex = Ret (Some 1) w' /\ certs (w_ssl w') !! EVP_PKEY_EC = Some c'.
Proof.
  destruct (w_cache served_ex !! key_ex) as [e|] eqn:Ek; [|by vm_compute in Ek].
  assert (Hc : cpk_of (get_slot e EC) = Some (Cpk (Some 1) (Some 1) [])) by (vm_compute in Ek; by injection Ek as <-).
  destruct (ngx_http_autocert_cert_cb_last_good openssl_ex env_ex no_v4 no_v6 (fun _ => 0) (same_budget 4) sc_ex served_ex conn_ex (hello_ex false)
    host_ex key_ex EC e _ kinds_ex reaches_served_ex (asked_for_ex served_ex eq_refl) (fun _ => eq_refl) eq_refl Ek Hc)
    as (w' & c' & He & Hl & _).
  exists w', c'. split; [exact He|exact Hl].
Defined.

(** ** What the comments say otherwise *)

Abbreviation after sc w O E ev := (match handle O E no_v4 no_v6 (fun _ => 0) sc ev w with Ret _ w' => w' | _ => w end).

(** A consumer that answers something off its contract, having installed its own
    certificate 8: the handshake goes on with it. *)
Example consumer_off_contract :
  let E := Env Z conn (ok env_ex) (opens env_ex) (fstats env_ex) (owned env_ex) (reads env_ex)
             (fun _ c => (42, put EVP_PKEY_EC (Cpk (Some 8) (Some 8) []) c)) (cmp_before env_ex) (cmp_after env_ex) in
  let w := set_consumer (Some 1) worker_ex in
  let r := handle openssl_ex E no_v4 no_v6 (fun _ => 0) sc_ex (EHandshake conn_ex (Hello true None false)) w in
  match r with Ret rc w' => (rc, certs (w_ssl w')) | _ => (None, ∅) end = (Some 1, {[EVP_PKEY_EC := Cpk (Some 8) (Some 8) []]}).
Proof. vm_compute. reflexivity. Qed.

(** Two names under one configured wildcard: the certificate was checked for the first
    only, and is presented for the second, which it does not cover. *)
Example wildcard_checked_once :
  let a := str "a.w.example" in let b := str "b.w.example" in
  let O := openssl_of (fun _ name => bool_decide (name = a)) in
  let sc := ServeCtx (str "/s") false (Some [str "*.w.example"]) false false 4 (slot_mask_of None) (slot_count_of (slot_mask_of None)) in
  let E := Env Z conn (ok env_ex) (opens env_ex) (fstats env_ex) (owned env_ex)
             (fun _ file _ => Some (if bool_decide (file = file_path sc (str "_wildcard_.w.example") (str "/privkey.pem")) then [75; 1] else [67; 1]))
             (consumer env_ex) (cmp_before env_ex) (cmp_after env_ex) in
  let w1 := after sc worker_ex O E (EHandshake conn_ex (Hello true (Some a) false)) in
  let w2 := after sc (set_now 200 w1) O E (EHandshake conn_ex (Hello true (Some b) false)) in
  x_host O 1 b = false /\ certs (w_ssl w2) = {[EVP_PKEY_EC := Cpk (Some 1) (Some 1) []]}.
Proof. vm_compute. auto. Qed.

(** A key file that is cut short while it is read: the bytes read are given back
    unwiped. *)
Example short_read_spills :
  let E := Env Z conn (ok env_ex) (opens env_ex) (fstats env_ex) (owned env_ex)
             (fun n file size => if bool_decide (file = file_path sc_ex host_ex (str "/privkey.pem")) then Some [75] else Some [67; 1])
             (consumer env_ex) (cmp_before env_ex) (cmp_after env_ex) in
  spilled (w_mem (after sc_ex worker_ex openssl_ex E (EHandshake conn_ex (hello_ex false)))) = 1%nat.
Proof. vm_compute. reflexivity. Qed.
