(* ===== verification/ConfigThms.v ===== *)
(** * Configuration: what it promises

    What an accepted configuration looks like, and how it meets the serving of
    certificates. *)

From S2P Require Import Prelude NgxCore Loadcap Ident Alpn Expiry OrderState Account Config ConfigNames ConfigRun ConfigDirect.
From S2P Require Serve ServeConn.

Local Open Scope Z_scope.
Local Open Scope prog_scope.

Section Accepted.
Context (ok : nat -> bool) (full_name : nat -> bytes -> option bytes) (sha256 : bytes -> option bytes)
  (inet_addr : bytes -> Z) (inet6_addr : bytes -> option bytes).

(** nginx's [ngx_conf_full_name] makes NUL-free strings of NUL-free strings. *)
Context (Hfull : forall n p q, full_name n p = Some q -> c_string p -> c_string q).

Abbreviation postconfig := (ngx_http_autocert_postconfig ok full_name sha256 inet_addr inet6_addr).

(** ** What the claims of the servers say of each server *)

Lemma claims_of_wants dns01 svs svs' L :
  claims_of full_name inet_addr inet6_addr dns01 svs svs' L -> forall n,
  (exists cl, cl ∈ L /\ cl_name cl = n) <-> exists sv, sv ∈ svs /\ enabled sv /\ wants dns01 sv n.
Proof.
  induction 1 as [|sv svs svs' L Hn _ IH|sv svs svs' L c kept He Hc [Hk _] _ IH]; intros n.
  - split; intros (x & H & _); by apply not_elem_of_nil in H.
  - rewrite IH. split; [intros (sv' & Hin & H); exists sv'; split; [by right|done]|].
    intros (sv' & [->|Hin]%elem_of_cons & H); [by destruct H|by exists sv'].
  - split.
    + intros (cl & [Hin|Hin]%elem_of_app & Hcl).
      * apply list_elem_of_fmap in Hin as (n' & -> & Hin). cbn in Hcl. subst n'. exists sv. split; [left|]. split; [done|by apply Hk].
      * destruct (proj1 (IH n)) as (sv' & Hin' & H); [by exists cl|]. exists sv'. split; [by right|done].
    + intros (sv' & [->|Hin]%elem_of_cons & He' & Hw).
      * exists (Claim n c (s_email (srv sv))). split; [|done]. apply elem_of_app. left. apply list_elem_of_fmap. exists n. split; [done|by apply Hk].
      * destruct (proj2 (IH n)) as (cl & Hcl & Hn); [by exists sv'|]. exists cl. split; [|done]. apply elem_of_app. by right.
Qed.

Lemma claims_of_server dns01 svs svs' L sv :
  claims_of full_name inet_addr inet6_addr dns01 svs svs' L -> sv ∈ svs -> enabled sv ->
  exists c kept, resolves full_name (s_ca (srv sv)) c /\ wanted inet_addr inet6_addr dns01 sv kept
     /\ forall n, wants dns01 sv n -> Claim n c (s_email (srv sv)) ∈ L.
Proof.
  induction 1 as [|sv0 svs svs' L Hn _ IH|sv0 svs svs' L c kept He Hc Hk _ IH]; intros Hin Hen; [by apply not_elem_of_nil in Hin| |];
    apply elem_of_cons in Hin as [->|Hin]; [done|by apply IH| |].
  - exists c, kept. split; [done|]. split; [done|]. intros n Hw. apply elem_of_app. left. apply list_elem_of_fmap. exists n. split; [done|by apply Hk].
  - destruct (IH Hin Hen) as (c' & kept' & H1 & H2 & H3). exists c', kept'. split; [done|]. split; [done|]. intros n Hw. apply elem_of_app. right. by apply H3.
Qed.

Lemma accepted w k w' k' :
  blank w -> Forall plain_server (servers w) -> postconfig (Cf w k) = Ret NGX_OK (Cf w' k') ->
  exists L, configured full_name sha256 inet_addr inet6_addr w w' L.
Proof.
  intros Hb Hps Hr. pose proof (wp_postconfig ok full_name sha256 inet_addr inet6_addr Hfull w k Hb Hps) as H. unfold wp in H. rewrite Hr in H. by apply H.
Qed.

Lemma configured_names w w' L :
  configured full_name sha256 inet_addr inet6_addr w w' L ->
  NoDup (names w') /\ Forall (valid_name inet_addr inet6_addr) (names w') /\ forall n, n ∈ names w' <-> exists cl, cl ∈ L /\ cl_name cl = n.
Proof.
  intros [_ _ _ [[Hco _]|(Hn & -> & _)] _ _ _ _].
  - split; [apply Hco|]. split; apply Hco.
  - rewrite Hn. split; [apply NoDup_nil_2|]. split; [constructor|]. intros n. split; [by intros ?%not_elem_of_nil|by intros (? & ?%not_elem_of_nil & _)].
Qed.

(** ** The properties *)

(** C20. The walk over the configuration never reads past a name or writes past a list, and
    when it accepts, the names to issue are, once each, the names of the enabled servers
    that are not patterns and that none of the server's wildcards covers, with those
    wildcards; each is an address or a name an order can carry and a directory can have.
    Wildcards are accepted only, and addresses never, under dns-01. *)
Theorem postconfig_names (w : config) (k : nat) :
  blank w -> Forall plain_server (servers w) ->
  exists rc w' k', postconfig (Cf w k) = Ret rc (Cf w' k')
  /\ (rc = NGX_OK ->
      NoDup (names w') /\ Forall (valid_name inet_addr inet6_addr) (names w')
      /\ (forall n, n ∈ names w' <-> exists sv, sv ∈ servers w /\ enabled sv /\ wants (is_dns01 w) sv n)
      /\ forall sv, sv ∈ servers w -> enabled sv ->
           (default [] (wildcards (srv sv)) <> [] -> is_dns01 w = true)
           /\ (is_dns01 w = true -> forall sn, sn ∈ server_names sv -> ~ skipped true (srv sv) sn -> ~ is_ip inet_addr inet6_addr (n_text sn))).
Proof.
  intros Hb Hps. pose proof (wp_postconfig ok full_name sha256 inet_addr inet6_addr Hfull w k Hb Hps) as H. unfold wp in H.
  destruct (postconfig (Cf w k)) as [rc [w' k']| | |]; try done. exists rc, w', k'. split; [done|]. intros Hok.
  destruct (H Hok) as (L & Hcf). destruct (configured_names _ _ _ Hcf) as (Hnd & Hv & Hn). split; [done|]. split; [done|].
  pose proof (cg_claims _ _ _ _ _ _ _ Hcf) as Hcl. split; [intros n; rewrite Hn; by apply (claims_of_wants _ _ _ _ Hcl)|].
  intros sv Hin He. destruct (claims_of_server _ _ _ _ _ Hcl Hin He) as (c & kept & _ & (_ & Hw & Hip) & _). split; [done|].
  intros Hd. rewrite Hd in Hip. by apply Hip.
Qed.

(** C21. When a configuration is accepted, its names are shared out between groups, one per
    CA URL, each with the account directory of that URL; and every server that wants a
    name finds it in a group with its own CA URL, trust bundle, issuance anchor and EAB
    credential, as its directives and the defaults give them, and with its own contact
    unless it has none. *)
Theorem postconfig_one_ca (w : config) (k : nat) (w' : config) (k' : nat) :
  blank w -> Forall plain_server (servers w) -> postconfig (Cf w k) = Ret NGX_OK (Cf w' k') ->
  concat (e_names <$> ca_list w') ≡ₚ names w'
  /\ NoDup ((fun e => url (e_ca e)) <$> ca_list w')
  /\ Forall (account_of sha256 (default [] (path (main w)))) (ca_list w')
  /\ forall sv n, sv ∈ servers w -> enabled sv -> wants (is_dns01 w) sv n ->
       exists e c, e ∈ ca_list w' /\ n ∈ e_names e /\ resolves full_name (s_ca (srv sv)) c /\ agrees (e_ca e) c
         /\ (len (s_email (srv sv)) = 0%nat \/ default [] (e_email e) = default [] (s_email (srv sv))).
Proof.
  intros Hb Hps Hr. destruct (accepted w k w' k' Hb Hps Hr) as (L & Hcf). pose proof (cg_claims _ _ _ _ _ _ _ Hcf) as Hcl.
  destruct (cg_groups _ _ _ _ _ _ _ Hcf) as [[Hco _]|(Hn & -> & sv0 & e0 & _ & -> & He0 & _ & Hacc)].
  - split; [apply Hco|]. split; [apply Hco|]. split; [apply Hco|]. intros sv n Hin He Hw.
    destruct (claims_of_server _ _ _ _ _ Hcl Hin He) as (c & kept & Hc & _ & HL).
    destruct (co_claims _ _ _ _ _ _ _ Hco _ (HL n Hw)) as (e & Hine & Hne & Ha & Hm). by exists e, c.
  - rewrite Hn. cbn. rewrite He0. split; [done|]. split; [apply NoDup_singleton|]. split; [by apply Forall_singleton|].
    intros sv n Hin He Hw. exfalso. destruct (proj2 (claims_of_wants _ _ _ _ Hcl n)) as (cl & Hcl' & _); [by exists sv|]. by apply not_elem_of_nil in Hcl'.
Qed.

(** The surfaces are there when they are needed: when a configuration is accepted the
    registry is shared exactly when a server is enabled, the TLS-ALPN-01 store exactly when
    that challenge is used, the token store and its handler exactly when a server is
    enabled (or a test asks for them); and there is a CA to register with whenever a server
    is enabled, even one without a name to issue. *)
Theorem postconfig_surfaces (w : config) (k : nat) (w' : config) (k' : nat) :
  blank w -> Forall plain_server (servers w) -> postconfig (Cf w k) = Ret NGX_OK (Cf w' k') ->
  test_token (main w) = [] -> test_alpn_domain (main w) = [] ->
  let some := exists sv, sv ∈ servers w /\ enabled sv in
  (requests_zone w' = true <-> some)
  /\ (alpn_zone w' = true <-> challenge (main w) = Some NGX_AUTOCERT_CHALLENGE_TLS_ALPN_01 /\ some)
  /\ (challenge_zone w' = true <-> some) /\ serves_challenges w' = challenge_zone w'
  /\ (ca_list w' <> [] <-> some).
Proof.
  intros Hb Hps Hr Htt Htd some. destruct (accepted w k w' k' Hb Hps Hr) as (L & [Hm Hcl Hen Hg H1 H2 H3 H4]). rewrite Htt, Htd in *. cbn in H2, H3.
  assert (Hsome : negb (how_many (servers w) =? 0)%nat = true <-> some).
  { rewrite negb_true_iff, Nat.eqb_neq. unfold some. split.
    - intros Hh. destruct (decide (Exists enabled (servers w))) as [He%Exists_exists|He]; [naive_solver|]. exfalso. apply Hh, how_many_none.
      apply Forall_forall. intros sv Hin Hsv. apply He, Exists_exists. by exists sv.
    - intros (sv & Hin & He) Hh. apply how_many_none in Hh. rewrite Forall_forall in Hh. by apply (Hh sv). }
  rewrite H4, H1, H2, H3, !orb_false_r, andb_true_iff, bool_decide_eq_true, Hsome. do 3 (split; [done|]). split; [done|].
  rewrite <- Hsome. destruct Hg as [[Hco Hno]|(_ & _ & sv & e & Hf & -> & _)].
  - split.
    + intros Hne. apply negb_true_iff, Nat.eqb_neq. intros Hh. apply how_many_none in Hh. apply Hne.
      assert (names w' = []) as En.
      { destruct (names w') as [|n ns] eqn:En; [done|]. exfalso. destruct (proj1 (co_names _ _ _ _ _ _ _ Hco n)) as (cl & Hin & Hcn); [left|].
        destruct (proj1 (claims_of_wants _ _ _ _ Hcl n)) as (sv & Hs & He & _); [by exists cl|]. rewrite Forall_forall in Hh. by apply (Hh sv). }
      rewrite En in Hco. by eapply collected_no_names.
    + intros Hh Hnil. apply negb_true_iff, Nat.eqb_neq in Hh. apply Hh, how_many_none, Hno. pose proof (co_split _ _ _ _ _ _ _ Hco) as Hs. rewrite Hnil in Hs.
      cbn in Hs. by apply Permutation_nil in Hs.
  - split; [intros _|done]. apply List.find_some in Hf as [Hin He]. apply bool_decide_eq_true in He. apply negb_true_iff, Nat.eqb_neq. intros Hh.
    rewrite <- (claims_of_how_many _ _ _ _ _ _ _ Hcl) in Hh. apply how_many_none in Hh. rewrite Forall_forall in Hh. apply (Hh sv); [by apply list_elem_of_In|done].
Qed.

Lemma covered_wildcard_of n wcs :
  ngx_strlow n = n -> (length n <= 255)%nat -> covered n wcs -> exists wc, Serve.wildcard_of n = Some wc /\ wc ∈ wcs.
Proof.
  intros Hlow Hlen (label & rest & -> & Hlb & Hr & Hn & _ & Hin).
  assert (Hrl : ngx_strlow rest = rest).
  { unfold ngx_strlow in *. rewrite map_app in Hlow. apply app_inj_1 in Hlow as [_ Hlow]; [by injection Hlow|by rewrite length_map]. }
  rewrite Hrl in Hin. exists (42 :: 46 :: rest). split; [|done]. unfold Serve.wildcard_of.
  assert (ngx_strlchr (label ++ 46 :: rest) 46 = Some (length label)) as -> by (apply strlchr_Some; by exists label, rest).
  assert (Hd : drop (S (length label)) (label ++ 46 :: rest) = rest).
  { rewrite drop_app_ge by lia. by replace (S (length label) - length label)%nat with 1%nat by lia. }
  rewrite Hd. rewrite length_app in Hlen. cbn in Hlen. destruct label as [|x label]; [done|]. destruct rest as [|y rest]; [done|].
  destruct (Nat.leb_spec (2 + length (y :: rest)) Serve.sizeof_wc_buf) as [_|Hbig]; [done|].
  unfold Serve.sizeof_wc_buf in Hbig. cbn in Hlen, Hbig. lia.
Qed.

(** C22. The workers serve what the servers were configured to have served: when a
    configuration is accepted, a name in lower case of at most 255 bytes that an enabled
    server wants (which a regular expression, a name with a leading dot, and a wildcard
    under another challenge than dns-01, never are), and one that such a server leaves to its wildcards,
    are both resolved as served, the one under its own key or the other under that of a
    wildcard the driver issues. *)
Theorem configured_names_served (w : config) (k : nat) (w' : config) (k' : nat) (sv : server) (n : bytes)
    (crc32 : bytes -> Z) (sc : Serve.serve_ctx) (issued : bool) :
  blank w -> Forall plain_server (servers w) -> postconfig (Cf w k) = Ret NGX_OK (Cf w' k') ->
  sv ∈ servers w -> enabled sv -> ngx_strlow n = n -> (length n <= 255)%nat ->
  wants (is_dns01 w) sv n \/ covered n (default [] (wildcards (srv sv))) ->
  Serve.names sc = Some (names w') ->
  (ServeConn.resolution inet_addr inet6_addr crc32 sc issued n).2 = true
  /\ (n ∉ names w' -> exists wc, wc ∈ names w' /\
        (ServeConn.resolution inet_addr inet6_addr crc32 sc issued n).1 = Serve.key_of crc32 (ServeConn.wildcard_segment inet_addr inet6_addr wc)).
Proof.
  intros Hb Hps Hr Hin He Hlow Hlen Hor Hsc. destruct (accepted w k w' k' Hb Hps Hr) as (L & Hcf).
  destruct (configured_names _ _ _ Hcf) as (_ & _ & Hn). pose proof (cg_claims _ _ _ _ _ _ _ Hcf) as Hcl.
  unfold ServeConn.resolution. cbv zeta. rewrite Hsc.
  assert (Hwants : forall x, wants (is_dns01 w) sv x -> x ∈ names w') by (intros x Hw; apply Hn, (claims_of_wants _ _ _ _ Hcl); by exists sv).
  case_bool_decide as Hmem; [by split|]. destruct Hor as [Hw|Hc]; [by destruct Hmem; apply Hwants|].
  destruct (covered_wildcard_of _ _ Hlow Hlen Hc) as (wc & -> & Hwc). assert (Hwn : wc ∈ names w') by (apply Hwants; by right).
  rewrite bool_decide_eq_true_2 by done. split; [done|]. intros _. by exists wc.
Qed.
End Accepted.

(** ** An example *)

(** The configuration of the directives' example, under dns-01: a server with a wildcard,
    a name under it and the apex, on the staging CA; another on the CA of http{}; and one
    that is off. *)
Definition knobs_ex : knobs :=
  Knobs (Some 604800) (Some [NGX_HTTP_AUTOCERT_KEY_P384]) (Some NGX_HTTP_AUTOCERT_KEY_P384) (Some NGX_HTTP_AUTOCERT_STORE_SECURE)
    (Some (str "/var/autocert")) (Some NGX_AUTOCERT_CHALLENGE_DNS_01) None None (Some 30) (Some (str "/bin/add")) (Some (str "/bin/rm"))
    (Some 10) (Some 30) (Some 604800) (Some 64) [] [].

Definition off_ex : srv_conf := SrvConf (Some false) (Some []) (s_ca plain_ex) None.

Definition config_ex : config :=
  Config knobs_ex http_ex
    [Server [Name (str "example.com") false; Name (str "www.example.com") false; Name (str "^x") true] server_ex;
     Server [Name (str "example.org") false] plain_ex;
     Server [Name (str "example.net") false] off_ex]
    None [] [] 0 false false false false.

Definition sha256_ex (u : bytes) : option bytes := Some (repeat (Z.of_nat (length u)) 32).
Definition full_name_ex (_ : nat) (p : bytes) : option bytes := Some p.
Definition inet_ex (_ : bytes) : Z := INADDR_NONE.
Definition inet6_ex (_ : bytes) : option bytes := None.

Definition run_ex : outcome (cf config) Z := ngx_http_autocert_postconfig all_ok full_name_ex sha256_ex inet_ex inet6_ex (Cf config_ex 0).
Definition after_ex : config := match run_ex with Ret _ s => it s | _ => config_ex end.
Definition calls_ex : nat := match run_ex with Ret _ s => calls s | _ => 0 end.

Example run_ex_ok : ngx_http_autocert_postconfig all_ok full_name_ex sha256_ex inet_ex inet6_ex (Cf config_ex 0) = Ret NGX_OK (Cf after_ex calls_ex).
Proof. by vm_compute. Qed.

(** The name under the wildcard is not ordered; the two CAs have a group each. *)
Example after_ex_names :
  names after_ex = [str "example.com"; str "*.example.com"; str "example.org"]
  /\ (fun e => (ca (e_ca e), e_names e)) <$> ca_list after_ex
     = [(Some NGX_HTTP_AUTOCERT_STAGING_CA, [str "example.com"; str "*.example.com"]);
        (Some (str "https://ca.example/dir"), [str "example.org"])].
Proof. by vm_compute. Qed.

Lemma config_ex_blank : blank config_ex.
Proof. by constructor. Qed.

Lemma c_string_check t : forallb (fun c => 0 <? c) t = true -> c_string t.
Proof. intros H. apply Forall_forall. intros c Hc%list_elem_of_In. rewrite forallb_forall in H. specialize (H c Hc). lia. Qed.

Lemma plain_check sns s :
  forallb (fun sn => forallb (fun c => 0 <? c) (n_text sn)) sns = true -> Forall wildcard_ok (default [] (wildcards s)) ->
  forallb (fun f => forallb (fun c => 0 <? c) (default [] (f (s_ca s)))) [ca; ca_certificate; issuance_certificate; eab_kid; eab_hmac_key] = true ->
  forallb (fun c => 0 <? c) (default [] (s_email s)) = true -> plain_server (Server sns s).
Proof.
  intros H1 H2 H3 H4. constructor; [|done| |by apply c_string_check].
  - apply Forall_forall. intros sn Hsn%list_elem_of_In. rewrite forallb_forall in H1. by apply c_string_check, H1.
  - rewrite forallb_forall in H3. constructor; apply c_string_check.
    + apply (H3 ca). cbn; tauto.
    + apply (H3 ca_certificate). cbn; tauto.
    + apply (H3 issuance_certificate). cbn; tauto.
    + apply (H3 eab_kid). cbn; tauto.
    + apply (H3 eab_hmac_key). cbn; tauto.
Qed.

Lemma server_ex_wildcards : Forall wildcard_ok (default [] (wildcards server_ex)).
Proof. by destruct servers_well_formed_witness as (_ & [Hw _ _ _] & _). Qed.

Lemma config_ex_plain : Forall plain_server (servers config_ex).
Proof.
  unfold config_ex. cbn [servers]. rewrite !Forall_cons, Forall_nil.
  assert (Hp : wildcards plain_ex = None) by (by vm_compute).
  split; [|split; [|split; [|done]]].
  - apply plain_check; [reflexivity|apply server_ex_wildcards|vm_compute; reflexivity..].
  - apply plain_check; [reflexivity|rewrite Hp; constructor|vm_compute; reflexivity..].
  - apply plain_check; [reflexivity|constructor|vm_compute; reflexivity..].
Qed.

Lemma full_name_ex_plain : forall n p q, full_name_ex n p = Some q -> c_string p -> c_string q.
Proof. by intros n p q [= ->]. Qed.

Lemma postconfig_names_witness :
  exists rc w' k', ngx_http_autocert_postconfig all_ok full_name_ex sha256_ex inet_ex inet6_ex (Cf config_ex 0) = Ret rc (Cf w' k')
  /\ (rc = NGX_OK ->
      NoDup (names w') /\ Forall (valid_name inet_ex inet6_ex) (names w')
      /\ (forall n, n ∈ names w' <-> exists sv, sv ∈ servers config_ex /\ enabled sv /\ wants (is_dns01 config_ex) sv n)
      /\ forall sv, sv ∈ servers config_ex -> enabled sv ->
           (default [] (wildcards (srv sv)) <> [] -> is_dns01 config_ex = true)
           /\ (is_dns01 config_ex = true -> forall sn, sn ∈ server_names sv -> ~ skipped true (srv sv) sn -> ~ is_ip inet_ex inet6_ex (n_text sn))).
Proof.
  apply (postconfig_names all_ok full_name_ex sha256_ex inet_ex inet6_ex full_name_ex_plain config_ex 0); [apply config_ex_blank|apply config_ex_plain].
Defined.

Lemma postconfig_one_ca_witness :
  concat (e_names <$> ca_list after_ex) ≡ₚ names after_ex
  /\ NoDup ((fun e => url (e_ca e)) <$> ca_list after_ex)
  /\ Forall (account_of sha256_ex (default [] (path (main config_ex)))) (ca_list after_ex)
  /\ forall sv n, sv ∈ servers config_ex -> enabled sv -> wants (is_dns01 config_ex) sv n ->
       exists e c, e ∈ ca_list after_ex /\ n ∈ e_names e /\ resolves full_name_ex (s_ca (srv sv)) c /\ agrees (e_ca e) c
         /\ (len (s_email (srv sv)) = 0%nat \/ default [] (e_email e) = default [] (s_email (srv sv))).
Proof.
  apply (postconfig_one_ca all_ok full_name_ex sha256_ex inet_ex inet6_ex full_name_ex_plain config_ex 0 after_ex calls_ex);
    [apply config_ex_blank|apply config_ex_plain|apply run_ex_ok].
Defined.

Lemma postconfig_surfaces_witness :
  let some := exists sv, sv ∈ servers config_ex /\ enabled sv in
  (requests_zone after_ex = true <-> some)
  /\ (alpn_zone after_ex = true <-> challenge (main config_ex) = Some NGX_AUTOCERT_CHALLENGE_TLS_ALPN_01 /\ some)
  /\ (challenge_zone after_ex = true <-> some) /\ serves_challenges after_ex = challenge_zone after_ex
  /\ (ca_list after_ex <> [] <-> some).
Proof.
  apply (postconfig_surfaces all_ok full_name_ex sha256_ex inet_ex inet6_ex full_name_ex_plain config_ex 0 after_ex calls_ex);
    [apply config_ex_blank|apply config_ex_plain|apply run_ex_ok|reflexivity|reflexivity].
Defined.

(** A worker that was given those names serves the name that was left to the wildcard. *)
Definition context_ex : Serve.serve_ctx := Serve.ServeCtx (str "/var/autocert") false (Some (names after_ex)) false false 64 0 0.
Definition crc_ex (s : bytes) : Z := Z.of_nat (length s).

Lemma configured_names_served_witness :
  (ServeConn.resolution inet_ex inet6_ex crc_ex context_ex false (str "www.example.com")).2 = true
  /\ (str "www.example.com" ∉ names after_ex -> exists wc, wc ∈ names after_ex /\
        (ServeConn.resolution inet_ex inet6_ex crc_ex context_ex false (str "www.example.com")).1
        = Serve.key_of crc_ex (ServeConn.wildcard_segment inet_ex inet6_ex wc)).
Proof.
  apply (configured_names_served all_ok full_name_ex sha256_ex inet_ex inet6_ex full_name_ex_plain config_ex 0 after_ex calls_ex
           (Server [Name (str "example.com") false; Name (str "www.example.com") false; Name (str "^x") true] server_ex)
           (str "www.example.com") crc_ex context_ex false);
    [apply config_ex_blank|apply config_ex_plain|apply run_ex_ok|left|reflexivity|reflexivity|vm_compute; lia| |reflexivity].
  right. exists (str "www"), (str "example.com"). split; [reflexivity|]. split; [done|]. split; [done|].
  split; [vm_compute; set_solver|]. split; [done|]. vm_compute. left.
Defined.
