(* ===== verification/WellKnown.v ===== *)
(** * Answering the HTTP-01 validation (ngx_http_autocert_module.c)

    The handler of the post-read phase: which requests are the CA's, what is answered to
    them out of the token store, and that every other request is left as it was. *)

From S2P Require Import Prelude NgxCore Rbtree Shm Store Challenge ChallengeThms Loadcap Ident Alpn Expiry OrderState Account Config.

Local Open Scope Z_scope.
Local Open Scope prog_scope.

Definition NGX_HTTP_AUTOCERT_WK_PREFIX : bytes := str "/.well-known/acme-challenge/".
Definition NGX_HTTP_GET : Z := 2.
Definition NGX_HTTP_HEAD : Z := 4.
Definition NGX_HTTP_OK : Z := 200.
Definition NGX_HTTP_NOT_FOUND : Z := 404.
Definition NGX_HTTP_NOT_ALLOWED : Z := 405.
Definition NGX_HTTP_INTERNAL_SERVER_ERROR : Z := 500.

(** What of a request the handler looks at; [ascf] is NULL when it is [None]. *)
Record request := Request {
  uri : bytes;
  method : Z;
  is_main : bool;
  ascf : option srv_conf;
  amcf : config }.

(** What nginx answers: room for the Allow header, the code of
    [ngx_http_discard_request_body], no room in the request pool for the value, the code
    of [ngx_http_send_header] and the flag it leaves in [r->header_only], room for the body,
    the code of [ngx_http_output_filter]. *)
Record env := Env {
  e_allow : bool;
  e_discard : Z;
  e_pool_oom : bool;
  e_header : Z;
  e_header_only : bool;
  e_buf : bool;
  e_output : Z }.

(** The response: what was put in the headers and whether they were sent, the body handed
    to the output filter with its [last_buf], and the codes the request was finalized with. *)
Record response := Response {
  status : option Z;
  content_length : option nat;
  content_type : option bytes;
  allow : bool;
  header_sent : bool;
  body : option (bytes * bool);
  finalized : list Z }.

Definition nothing_yet : response := Response None None None false false None [].

Record site (H : Type) := Site { tokens : zone H; resp : response }.
Arguments Site {H}.
Arguments tokens {H}.
Arguments resp {H}.

Section Handler.
Context {H : Type} {ST : Store H bytes}.
Context (rq : request) (E : env).
Abbreviation P A := (prog (site H) A).

Definition put (f : response -> response) : P unit := fun w => Ret tt (Site (tokens w) (f (resp w))).

Definition on_tokens {A} (m : prog (zone H) A) : P A := fun w =>
  match m (tokens w) with
  | Ret a z => Ret a (Site z (resp w))
  | Err z => Err (Site z (resp w))
  | Fault => Fault
  | NoFuel => NoFuel
  end.

Definition set_allow r := Response (status r) (content_length r) (content_type r) true (header_sent r) (body r) (finalized r).
Definition set_headers n r := Response (Some NGX_HTTP_OK) (Some n) (Some (str "text/plain")) (allow r) (header_sent r) (body r) (finalized r).
Definition set_sent r := Response (status r) (content_length r) (content_type r) (allow r) true (body r) (finalized r).
Definition set_body b l r := Response (status r) (content_length r) (content_type r) (allow r) (header_sent r) (Some (b, l)) (finalized r).
Definition add_final rc r := Response (status r) (content_length r) (content_type r) (allow r) (header_sent r) (body r) (finalized r ++ [rc]).

Definition ngx_http_autocert_challenge_serve : P Z :=
  let pfxlen := length NGX_HTTP_AUTOCERT_WK_PREFIX in
  let! ours :=
    if (length (uri rq) <? pfxlen)%nat then ret false
    else
      match ngx_strncmp (uri rq) NGX_HTTP_AUTOCERT_WK_PREFIX pfxlen with
      | Some r => ret (r =? 0)
      | None => fault
      end in
  if negb ours then ret NGX_DECLINED
  else if negb (bool_decide (enable <$> ascf rq = Some (Some true))) then ret NGX_DECLINED
  else if negb (challenge_zone (amcf rq)) then ret NGX_HTTP_NOT_FOUND
  else if Z.land (method rq) (Z.lor NGX_HTTP_GET NGX_HTTP_HEAD) =? 0 then
    (if e_allow E then put set_allow else ret tt);;
    ret NGX_HTTP_NOT_ALLOWED
  else if negb (e_discard E =? NGX_OK) then ret (e_discard E)
  else
    let token := drop pfxlen (uri rq) in
    if (length token =? 0)%nat || bool_decide (is_Some (ngx_strlchr token 47)) then ret NGX_HTTP_NOT_FOUND
    else
      let! r := on_tokens (store_get (e_pool_oom E) token) in
      if r.1 =? NGX_DECLINED then ret NGX_HTTP_NOT_FOUND
      else
        match r.2 with
        | Some keyauth =>
            if negb (r.1 =? NGX_OK) then ret NGX_HTTP_INTERNAL_SERVER_ERROR
            else
              put (set_headers (length keyauth));;
              put set_sent;;
              if (e_header E =? NGX_ERROR) || (NGX_OK <? e_header E) || e_header_only E then ret (e_header E)
              else if negb (e_buf E) then ret NGX_HTTP_INTERNAL_SERVER_ERROR
              else
                put (set_body keyauth (is_main rq));;
                ret (e_output E)
        | None => if negb (r.1 =? NGX_OK) then ret NGX_HTTP_INTERNAL_SERVER_ERROR else fault
        end.

Definition ngx_http_autocert_challenge_handler : P Z :=
  let! rc := ngx_http_autocert_challenge_serve in
  if rc =? NGX_DECLINED then ret NGX_DECLINED
  else if rc =? NGX_DONE then ret rc
  else
    put (add_final rc);;
    ret NGX_DONE.

(** ** What it promises *)

(** The token a request asks for, when it is the CA's. *)
Definition asks (token : bytes) : Prop :=
  uri rq = NGX_HTTP_AUTOCERT_WK_PREFIX ++ token /\ (enable <$> ascf rq) = Some (Some true).

(** The request is well formed: a GET or a HEAD of one segment. *)
Definition well_asked (token : bytes) : Prop :=
  asks token /\ challenge_zone (amcf rq) = true /\ Z.land (method rq) (Z.lor NGX_HTTP_GET NGX_HTTP_HEAD) <> 0
  /\ token <> [] /\ 47 ∉ token.

(** The response to the token [token], with the code of the request, for a store that
    stands for [m]. *)
Record answers (m : gmap bytes bytes) (token : bytes) (r : response) (code : Z) : Prop := {
  an_body : forall v l, body r = Some (v, l) -> m !! token = Some v /\ 47 ∉ token /\ header_sent r = true;
  an_headers : header_sent r = true -> exists v, m !! token = Some v /\ status r = Some NGX_HTTP_OK
    /\ content_length r = Some (length v) /\ content_type r = Some (str "text/plain") /\ well_asked token;
  an_found : forall v, well_asked token -> m !! token = Some v -> e_discard E = NGX_OK -> e_pool_oom E = false ->
    header_sent r = true
    /\ (e_header E = NGX_OK -> e_buf E = true ->
        if e_header_only E then body r = None /\ code = NGX_OK else body r = Some (v, is_main rq) /\ code = e_output E);
  an_missing : well_asked token -> m !! token = None -> e_discard E = NGX_OK -> code = NGX_HTTP_NOT_FOUND;
  an_method : asks token -> challenge_zone (amcf rq) = true -> Z.land (method rq) (Z.lor NGX_HTTP_GET NGX_HTTP_HEAD) = 0 ->
    code = NGX_HTTP_NOT_ALLOWED /\ allow r = e_allow E }.

(** nginx's own functions never return the two codes that mean something else here. *)
Definition plain_code (rc : Z) : Prop := rc <> NGX_DECLINED /\ rc <> NGX_DONE.

Lemma asks_drop token : asks token -> drop (length NGX_HTTP_AUTOCERT_WK_PREFIX) (uri rq) = token.
Proof. intros [-> _]. by rewrite drop_app_length. Qed.

Lemma asks_uniq t1 t2 : asks t1 -> asks t2 -> t1 = t2.
Proof. intros H1%asks_drop H2%asks_drop. congruence. Qed.

Lemma ours_iff :
  exists b, (if (length (uri rq) <? length NGX_HTTP_AUTOCERT_WK_PREFIX)%nat then Some false
             else (fun r => r =? 0) <$> ngx_strncmp (uri rq) NGX_HTTP_AUTOCERT_WK_PREFIX (length NGX_HTTP_AUTOCERT_WK_PREFIX)) = Some b
    /\ (b = true <-> exists token, uri rq = NGX_HTTP_AUTOCERT_WK_PREFIX ++ token).
Proof.
  destruct (Nat.ltb_spec (length (uri rq)) (length NGX_HTTP_AUTOCERT_WK_PREFIX)) as [Hl|Hl].
  - exists false. split; [done|]. split; [done|]. intros [t Ht]. rewrite Ht, length_app in Hl. lia.
  - destruct (strncmp_prefix (uri rq) NGX_HTTP_AUTOCERT_WK_PREFIX Hl) as (r & -> & Hr); [by repeat constructor|].
    exists (r =? 0). split; [done|]. by rewrite Z.eqb_eq.
Qed.

Lemma wp_ours (w : site H) (Q : bool -> site H -> Prop) X :
  (forall b, (b = true <-> exists token, uri rq = NGX_HTTP_AUTOCERT_WK_PREFIX ++ token) -> Q b w) ->
  wp (if (length (uri rq) <? length NGX_HTTP_AUTOCERT_WK_PREFIX)%nat then ret false
      else match ngx_strncmp (uri rq) NGX_HTTP_AUTOCERT_WK_PREFIX (length NGX_HTTP_AUTOCERT_WK_PREFIX) with
           | Some r => ret (r =? 0) | None => fault end) w Q X.
Proof.
  intros HQ. destruct ours_iff as (b & Hb & Hiff). destruct (_ <? _)%nat; [injection Hb as <-; by apply wp_ret, HQ|].
  destruct (ngx_strncmp _ _ _) as [r|]; [|done]. injection Hb as <-. by apply wp_ret, HQ.
Qed.

Lemma wp_token_get z m r0 token (Q : Z * option bytes -> site H -> Prop) X :
  store_inv z m ->
  Q (match m !! token with
     | None => (NGX_DECLINED, None)
     | Some v => if e_pool_oom E then (NGX_ERROR, None) else (NGX_OK, Some v)
     end) (Site z r0) ->
  wp (on_tokens (store_get (e_pool_oom E) token)) (Site z r0) Q X.
Proof.
  intros Hi HQ. pose proof (store_get_spec z m token (e_pool_oom E) Hi) as W. unfold wp, on_tokens in *. cbn [tokens resp].
  destruct (store_get _ _ z) as [r z'| | |]; try done. by destruct W as [-> ->].
Qed.

(** Without a body and without headers, all that is left to say is the code. *)
Lemma answers_bare m token r code :
  body r = None -> header_sent r = false ->
  (forall v, well_asked token -> m !! token = Some v -> e_discard E = NGX_OK -> e_pool_oom E = false -> False) ->
  (well_asked token -> m !! token = None -> e_discard E = NGX_OK -> code = NGX_HTTP_NOT_FOUND) ->
  (asks token -> challenge_zone (amcf rq) = true -> Z.land (method rq) (Z.lor NGX_HTTP_GET NGX_HTTP_HEAD) = 0 ->
    code = NGX_HTTP_NOT_ALLOWED /\ allow r = e_allow E) ->
  answers m token r code.
Proof. intros Hb Hh H1 H2 H3. constructor; try done; [by rewrite Hb|by rewrite Hh|]. intros v Ha Hm Hd Hp. by destruct (H1 v). Qed.

Lemma wp_serve z m :
  store_inv z m -> plain_code (e_discard E) -> plain_code (e_header E) -> plain_code (e_output E) ->
  wp ngx_http_autocert_challenge_serve (Site z nothing_yet)
    (fun rc w' => tokens w' = z /\ finalized (resp w') = []
       /\ (rc = NGX_DECLINED /\ resp w' = nothing_yet /\ (forall token, ~ asks token)
           \/ plain_code rc /\ exists token, asks token /\ answers m token (resp w') rc)) (fun _ => False).
Proof.
  intros Hi Hd Hh Ho. apply wp_bind, wp_ours. intros b Hb. destruct b; cbn [negb].
  2: { apply wp_ret. split; [done|]. split; [done|]. left. split; [done|]. split; [done|]. intros t [Ht _]. assert (false = true) by (apply Hb; by exists t). done. }
  destruct (proj1 Hb eq_refl) as [token Ht]. rewrite Ht, drop_app_length. case_bool_decide as He; cbn [negb].
  2: { apply wp_ret. split; [done|]. split; [done|]. left. split; [done|]. split; [done|]. intros t [_ Hen]. done. }
  assert (Ha : asks token) by done.
  assert (Hin : forall rc w', tokens w' = z -> finalized (resp w') = [] -> plain_code rc -> answers m token (resp w') rc ->
    tokens w' = z /\ finalized (resp w') = [] /\ (rc = NGX_DECLINED /\ resp w' = nothing_yet /\ (forall t, ~ asks t)
           \/ plain_code rc /\ exists t, asks t /\ answers m t (resp w') rc)).
  { intros rc w' H1 H2 H3 H4. split; [done|]. split; [done|]. right. split; [done|]. by exists token. }
  destruct (challenge_zone (amcf rq)) eqn:Ez; cbn [negb].
  2: { apply wp_ret, Hin; [done..|]. apply answers_bare; [done|done| |done|by rewrite Ez]. intros v (_ & Hz & _). by rewrite Ez in Hz. }
  destruct (Z.eqb_spec (Z.land (method rq) (Z.lor NGX_HTTP_GET NGX_HTTP_HEAD)) 0) as [Em|Em].
  { apply wp_bind. destruct (e_allow E) eqn:Eal; apply wp_ret, Hin; try done; (apply answers_bare; [done|done| |by intros (_ & _ & ? & _)|by rewrite Eal]);
      by intros v (_ & _ & ? & _). }
  destruct (Z.eqb_spec (e_discard E) NGX_OK) as [Ed|Ed]; cbn [negb]; [|apply wp_ret, Hin; [done..|]; by apply answers_bare].
  destruct (_ || _) eqn:Eb.
  { apply wp_ret, Hin; [done..|]. assert (Hn : ~ well_asked token); [|by apply answers_bare]. intros (_ & _ & _ & Hne & Hs).
    apply orb_true_iff in Eb as [Eb%Nat.eqb_eq%nil_length_inv|Eb%bool_decide_eq_true]; [done|]. destruct Eb as [n Eb].
    apply strlchr_Some in Eb as (? & ? & -> & _). set_solver. }
  apply orb_false_iff in Eb as [Hne%Nat.eqb_neq Hs%bool_decide_eq_false].
  assert (Hs' : 47 ∉ token) by (apply strlchr_None; destruct (ngx_strlchr token 47); [by destruct Hs; eexists|done]).
  assert (Hwa : well_asked token) by (split; [done|]; split; [done|]; split; [done|]; split; [by intros ->|done]).
  apply wp_bind, (wp_token_get z m); [done|]. destruct (m !! token) as [v|] eqn:Em'; cbn [fst snd].
  2: { apply wp_ret, Hin; [done..|]. apply answers_bare; try done. by rewrite Em'. }
  destruct (e_pool_oom E) eqn:Ep; [apply wp_ret, Hin; [done..|]; apply answers_bare; [done|done|by rewrite Ep|by rewrite Em'|done]|]. cbn [fst snd negb].
  apply wp_bind, wp_bind.
  assert (Hhead : forall bo rc, (forall v' l, bo = Some (v', l) -> v' = v) ->
    (e_header E = NGX_OK -> e_buf E = true -> if e_header_only E then bo = None /\ rc = NGX_OK else bo = Some (v, is_main rq) /\ rc = e_output E) ->
    answers m token (Response (Some NGX_HTTP_OK) (Some (length v)) (Some (str "text/plain")) false true bo []) rc).
  { intros bo rc H1 H2. constructor; cbn; try done.
    - intros v' l Hbo. by rewrite (H1 v' l Hbo).
    - intros _. by exists v.
    - intros v' _ Hv' _ _. rewrite Em' in Hv'. injection Hv' as <-. done.
    - intros _ Hn. by rewrite Em' in Hn. }
  destruct (_ || _) eqn:Eh.
  { apply wp_ret, Hin; [done..|]. apply Hhead; [done|]. intros Hok Hbuf. rewrite Hok in Eh. destruct (e_header_only E); done. }
  destruct (e_buf E) eqn:Ebuf; cbn [negb].
  - apply wp_bind, wp_ret, Hin; [done..|]. apply (Hhead (Some (v, is_main rq))); [by intros ? ? [= <- _]|]. intros Hok _. rewrite Hok in Eh. by destruct (e_header_only E).
  - apply wp_ret, Hin; [done..|]. by apply Hhead.
Qed.

(** C30. The answer to the HTTP-01 validation: a request is left alone unless it is for a
    path under the well-known prefix on a server that is enabled; then it is finalized
    exactly once and goes to no other handler, and a key authorization is sent only as the
    answer to the token it is stored under, whole, in one segment, with its length; it is
    sent whenever the token is stored and nginx can send it, and a token that is not stored
    is a 404. The store is left as it was. *)
Theorem challenge_answered (z : zone H) (m : gmap bytes bytes) :
  store_inv z m -> plain_code (e_discard E) -> plain_code (e_header E) -> plain_code (e_output E) ->
  exists rc r, ngx_http_autocert_challenge_handler (Site z nothing_yet) = Ret rc (Site z r)
  /\ (rc = NGX_DECLINED /\ r = nothing_yet /\ (forall token, ~ asks token)
      \/ rc = NGX_DONE /\ exists token code, asks token /\ finalized r = [code] /\ answers m token r code).
Proof.
  intros Hi Hd Hh Ho. pose proof (wp_serve z m Hi Hd Hh Ho) as W. unfold ngx_http_autocert_challenge_handler, wp, bind in *.
  destruct (ngx_http_autocert_challenge_serve _) as [rc [z' r]| | |]; try done. cbn in W. destruct W as (-> & Hf & [(-> & -> & Hn)|([H1 H2] & token & Ha & Han)]).
  - do 2 eexists. split; [reflexivity|]. by left.
  - apply Z.eqb_neq in H1 as H1', H2 as H2'. rewrite H1', H2'. do 2 eexists. split; [reflexivity|]. right. split; [done|]. exists token, rc. split; [done|].
    cbn. rewrite Hf. split; [done|]. by destruct Han.
Qed.
End Handler.

(** ** From publication to answer *)

Section Published.
Context {H : Type} {ST : Store H bytes}.
Implicit Types (m : gmap bytes bytes).

(** The call is about another token. *)
Definition other (token : bytes) (o : op bytes) : Prop :=
  match o with OSet k _ | ORemove k => k <> token | OReload | OGet _ _ => True end.

Lemma map_ops_other m os rs m' token : map_ops m os rs m' -> Forall (other token) os -> m' !! token = m !! token.
Proof.
  induction 1 as [|m o r m1 os rs m' Hop _ IH]; [done|]. intros [Ho Hos]%Forall_cons. rewrite (IH Hos).
  destruct Hop; cbn in Ho; try done; [by apply lookup_insert_ne|by apply lookup_delete_ne].
Qed.

(** nginx has what it takes to answer. *)
Record can_send (E : env) : Prop := {
  cs_discard : e_discard E = NGX_OK;
  cs_pool : e_pool_oom E = false;
  cs_header : e_header E = NGX_OK;
  cs_buf : e_buf E = true;
  cs_output : plain_code (e_output E) }.

(** The HTTP-01 validation succeeds: once a key authorization has been published under a
    token, the CA's GET for that token is answered with it, whatever happens to other tokens
    in between, and through reloads. *)
Theorem published_token_answered (rq : request) (E : env) (z z1 z2 : zone H) m (token v : bytes) (os : list (op bytes)) rs :
  store_inv z m -> store_set token v z = Ret NGX_OK z1 -> run_ops os z1 = Ret rs z2 -> Forall (other token) os ->
  well_asked rq token -> can_send E ->
  exists r code, ngx_http_autocert_challenge_handler rq E (Site z2 nothing_yet) = Ret NGX_DONE (Site z2 r)
  /\ status r = Some NGX_HTTP_OK /\ content_length r = Some (length v) /\ header_sent r = true /\ finalized r = [code]
  /\ if e_header_only E then body r = None /\ code = NGX_OK else body r = Some (v, is_main rq) /\ code = e_output E.
Proof.
  intros Hi Hset Hrun Ho Hw [C1 C2 C3 C4 C5].
  assert (Hi1 : exists m1, store_inv z1 m1 /\ m1 !! token = Some v).
  { pose proof (store_set_spec z m token v Hi) as W. unfold wp in W. rewrite Hset in W. destruct W as [(_ & _ & _ & W)|[? _]]; [|done].
    eexists. split; [exact W|by apply lookup_insert_eq]. }
  destruct Hi1 as (m1 & Hi1 & Hm1). pose proof (wp_run_ops z1 m1 os Hi1) as W. unfold wp in W. rewrite Hrun in W. destruct W as (m2 & Hops & Hi2).
  pose proof (map_ops_other _ _ _ _ token Hops Ho) as Hm2. rewrite Hm1 in Hm2.
  assert (Hp : plain_code NGX_OK) by (split; done).
  pose proof (wp_serve rq E z2 m2 Hi2) as W. rewrite C1, C3 in W. specialize (W Hp Hp C5). unfold ngx_http_autocert_challenge_handler, wp, bind in *.
  destruct (ngx_http_autocert_challenge_serve _ _ _) as [rc [z' r]| | |]; try done. cbn in W. destruct W as (-> & Hf & [(_ & _ & Hn)|([H1 H2] & t & Ha & Han)]).
  { destruct Hw as [Ha _]. by destruct (Hn token). }
  assert (t = token) as -> by (eapply asks_uniq; [exact Ha|apply Hw]). apply Z.eqb_neq in H1 as H1', H2 as H2'. rewrite H1', H2'.
  destruct Han as [_ A2 A3 _ _]. destruct (A3 v Hw Hm2 C1 C2) as [Hs Hb]. specialize (Hb C3 C4). destruct (A2 Hs) as (v' & Hv' & S1 & S2 & _).
  rewrite Hm2 in Hv'. injection Hv' as <-. do 2 eexists. split; [reflexivity|]. cbn. rewrite Hf. done.
Qed.
End Published.

(** ** An example *)

#[local] Existing Instance plain_trees.
#[local] Instance challenge_store_ex : Store challenge_sh bytes := challenge_store (fun _ => 0) (fun _ => false) 0.

Definition token_ex : bytes := str "evaGxfADs6pSRb2LAv9IZ".
Definition keyauth_ex : bytes := str "evaGxfADs6pSRb2LAv9IZ.9jg46WB3rR".

Definition created_ex : zone challenge_sh := match store_init fresh_zone with Ret _ z => z | _ => fresh_zone end.
Definition published_ex : zone challenge_sh := match store_set token_ex keyauth_ex created_ex with Ret _ z => z | _ => created_ex end.
Definition meanwhile_ex : list (op bytes) := [OSet (str "another") (str "another.key"); OReload; ORemove (str "another")].
Definition later_ex : zone challenge_sh := match run_ops meanwhile_ex published_ex with Ret _ z => z | _ => published_ex end.
Definition answers_ex : list (Z * option bytes) := match run_ops meanwhile_ex published_ex with Ret rs _ => rs | _ => [] end.

Lemma created_ex_inv : store_inv created_ex ∅.
Proof.
  pose proof (store_init_fresh 1 [] 0) as W. unfold wp in W. unfold created_ex, fresh_zone.
  destruct (store_init _) as [rc z| | |]; try done. destruct W as [[_ W]|[_ [n Hn]]]; done.
Qed.

Definition enabled_srv : srv_conf := SrvConf (Some true) (Some []) (CaConf None (Some false) None None None None) None.
Definition enabled_config : config :=
  Config ngx_http_autocert_create_main_conf ngx_http_autocert_create_srv_conf [] None [] [] 1 true false true true.

Definition get_ex : request :=
  Request (NGX_HTTP_AUTOCERT_WK_PREFIX ++ token_ex) NGX_HTTP_GET true (Some enabled_srv) enabled_config.
Definition env_ex : env := Env true NGX_OK false NGX_OK false true NGX_OK.

Lemma get_ex_asked : well_asked get_ex token_ex.
Proof.
  split; [by split|]. split; [done|]. split; [done|]. split; [done|]. intros H. apply (bool_decide_pack _) in H. by vm_compute in H.
Qed.

Lemma published_token_answered_witness :
  exists r code, ngx_http_autocert_challenge_handler get_ex env_ex (Site later_ex nothing_yet) = Ret NGX_DONE (Site later_ex r)
  /\ status r = Some NGX_HTTP_OK /\ content_length r = Some (length keyauth_ex) /\ header_sent r = true /\ finalized r = [code]
  /\ if e_header_only env_ex then body r = None /\ code = NGX_OK else body r = Some (keyauth_ex, is_main get_ex) /\ code = e_output env_ex.
Proof.
  apply (published_token_answered get_ex env_ex created_ex published_ex later_ex ∅ token_ex keyauth_ex meanwhile_ex answers_ex);
    [apply created_ex_inv|vm_compute; reflexivity|vm_compute; reflexivity| |apply get_ex_asked|constructor; try reflexivity; split; discriminate].
  unfold meanwhile_ex. rewrite !Forall_cons, Forall_nil. cbn. split; [|split; [|split]]; done.
Defined.

Lemma challenge_answered_witness :
  exists rc r, ngx_http_autocert_challenge_handler get_ex env_ex (Site created_ex nothing_yet) = Ret rc (Site created_ex r)
  /\ (rc = NGX_DECLINED /\ r = nothing_yet /\ (forall token, ~ asks get_ex token)
      \/ rc = NGX_DONE /\ exists token code, asks get_ex token /\ finalized r = [code] /\ answers get_ex env_ex ∅ token r code).
Proof. apply (challenge_answered get_ex env_ex created_ex ∅); [apply created_ex_inv|split; discriminate..]. Defined.
