(* ===== verification/Base64.v ===== *)
(** * base64url (ngx_http_autocert_crypto.c)

    The unpadded base64 of JOSE: the module's strict wrapper around nginx's decoder, as the
    repository reproduces it (src/ci/fuzz/ngx_b64_shim.h), and around nginx's encoder, of
    which only what RFC 4648 says is used. *)

From S2P Require Import Prelude.

Local Open Scope Z_scope.
Local Open Scope prog_scope.

Local Ltac Zify.zify_post_hook ::= Z.div_mod_to_equations.

(** ** The encoding of RFC 4648, section 5, without padding *)

Definition alphabet : bytes := str "ABCDEFGHIJKLMNOPQRSTUVWXYZabcdefghijklmnopqrstuvwxyz0123456789-_".

Definition b64char (v : Z) : Z := nth (Z.to_nat v) alphabet 0.

Fixpoint b64url (s : bytes) : bytes :=
  match s with
  | [] => []
  | [a] => [b64char (Z.shiftr a 2); b64char (Z.shiftl (Z.land a 3) 4)]
  | [a; b] => [b64char (Z.shiftr a 2); b64char (Z.lor (Z.shiftl (Z.land a 3) 4) (Z.shiftr b 4)); b64char (Z.shiftl (Z.land b 15) 2)]
  | a :: b :: c :: s' =>
      b64char (Z.shiftr a 2) :: b64char (Z.lor (Z.shiftl (Z.land a 3) 4) (Z.shiftr b 4))
      :: b64char (Z.lor (Z.shiftl (Z.land b 15) 2) (Z.shiftr c 6)) :: b64char (Z.land c 63) :: b64url s'
  end.

(** ** nginx's decoder *)

Definition basis64 : list Z :=
  [77; 77; 77; 77; 77; 77; 77; 77; 77; 77; 77; 77; 77; 77; 77; 77;
   77; 77; 77; 77; 77; 77; 77; 77; 77; 77; 77; 77; 77; 77; 77; 77;
   77; 77; 77; 77; 77; 77; 77; 77; 77; 77; 77; 77; 77; 62; 77; 77;
   52; 53; 54; 55; 56; 57; 58; 59; 60; 61; 77; 77; 77; 77; 77; 77;
   77;  0;  1;  2;  3;  4;  5;  6;  7;  8;  9; 10; 11; 12; 13; 14;
   15; 16; 17; 18; 19; 20; 21; 22; 23; 24; 25; 77; 77; 77; 77; 63;
   77; 26; 27; 28; 29; 30; 31; 32; 33; 34; 35; 36; 37; 38; 39; 40;
   41; 42; 43; 44; 45; 46; 47; 48; 49; 50; 51; 77; 77; 77; 77; 77]
  ++ repeat 77 128.

Definition basis (c : Z) : Z := nth (Z.to_nat c) basis64 77.

(** The check of the input: how much of it is decoded; [None] is NGX_ERROR. *)
Fixpoint decode_scan (src : bytes) (len : nat) : option nat :=
  match src with
  | [] => Some len
  | c :: src' => if c =? 61 then Some len else if basis c =? 77 then None else decode_scan src' (S len)
  end.

Fixpoint decode_loop (s : bytes) : bytes :=
  match s with
  | s0 :: s1 :: s2 :: s3 :: s' =>
      u8 (Z.lor (Z.shiftl (basis s0) 2) (Z.shiftr (basis s1) 4))
      :: u8 (Z.lor (Z.shiftl (basis s1) 4) (Z.shiftr (basis s2) 2))
      :: u8 (Z.lor (Z.shiftl (basis s2) 6) (basis s3)) :: decode_loop s'
  | [s0; s1; s2] =>
      [u8 (Z.lor (Z.shiftl (basis s0) 2) (Z.shiftr (basis s1) 4)); u8 (Z.lor (Z.shiftl (basis s1) 4) (Z.shiftr (basis s2) 2))]
  | [s0; s1] => [u8 (Z.lor (Z.shiftl (basis s0) 2) (Z.shiftr (basis s1) 4))]
  | _ => []
  end.

(** Into a buffer of [cap] bytes. *)
Definition ngx_decode_base64url {S} (cap : nat) (src : bytes) : prog S (option bytes) :=
  match decode_scan src 0 with
  | None => ret None
  | Some len =>
      if (len mod 4 =? 1)%nat then ret None
      else
        let d := decode_loop (take len src) in
        if (cap <? length d)%nat then fault else ret (Some d)
  end.

(** ** The module's wrappers *)

Definition NGX_MAX_SIZE_T_VALUE : Z := 9223372036854775807.

(** nginx's macros for the sizes of the buffers. *)
Definition ngx_base64_encoded_length (len : Z) : Z := u64 (u64 (len + 2) / 3 * 4).
Definition ngx_base64_decoded_length (len : Z) : Z := u64 (u64 (len + 3) / 4 * 3).

Section Wrappers.
(** What becomes of an allocation of a number of bytes; nginx's encoder. *)
Context {S : Type} (pnalloc : prog S bool) (ngx_encode_base64url : bytes -> bytes).

Definition ngx_http_autocert_base64url_encode (s : bytes) : prog S (option bytes) :=
  if NGX_MAX_SIZE_T_VALUE / 4 * 3 - 2 <? Z.of_nat (length s) then ret None
  else
    let size := ngx_base64_encoded_length (Z.of_nat (length s)) in
    let! room := pnalloc in
    if negb room then ret None
    else
      let out := ngx_encode_base64url s in
      if size <? Z.of_nat (length out) then fault else ret (Some out).

Definition is_base64url_char (ch : Z) : bool :=
  ((65 <=? ch) && (ch <=? 90)) || ((97 <=? ch) && (ch <=? 122)) || ((48 <=? ch) && (ch <=? 57)) || (ch =? 45) || (ch =? 95).

Definition ngx_http_autocert_base64url_decode (s : bytes) : prog S (option bytes) :=
  if negb (forallb is_base64url_char s) then ret None
  else if NGX_MAX_SIZE_T_VALUE / 3 * 4 - 3 <? Z.of_nat (length s) then ret None
  else
    let size := ngx_base64_decoded_length (Z.of_nat (length s)) in
    let! room := pnalloc in
    if negb room then ret None else ngx_decode_base64url (Z.to_nat size) s.
End Wrappers.

(** ** The two are inverse *)

Lemma b64_chars v : 0 <= v < 64 -> basis (b64char v) = v /\ is_base64url_char (b64char v) = true.
Proof.
  intros Hv. assert (H : forallb (fun n => (basis (b64char (Z.of_nat n)) =? Z.of_nat n) && is_base64url_char (b64char (Z.of_nat n))) (seq 0 64) = true) by (by vm_compute).
  rewrite forallb_forall in H. specialize (H (Z.to_nat v)). rewrite Z2Nat.id in H by lia.
  destruct (andb_true_iff (basis (b64char v) =? v) (is_base64url_char (b64char v))) as [Hd _]. destruct Hd as [H1 H2]; [apply H, in_seq; lia|].
  split; [lia|done].
Qed.

Lemma basis_range c : is_base64url_char c = true -> 0 <= basis c < 64 /\ b64char (basis c) = c /\ (c =? 61) = false.
Proof.
  intros Hc. assert (H : forallb (fun n => negb (is_base64url_char (Z.of_nat n))
      || ((0 <=? basis (Z.of_nat n)) && (basis (Z.of_nat n) <? 64) && (b64char (basis (Z.of_nat n)) =? Z.of_nat n) && negb (Z.of_nat n =? 61))) (seq 0 128) = true) by (by vm_compute).
  rewrite forallb_forall in H. assert (Hr : 0 <= c < 128) by (unfold is_base64url_char in Hc; reflect_bools; lia).
  specialize (H (Z.to_nat c)). rewrite Z2Nat.id in H by lia. rewrite Hc in H. cbn [negb orb] in H.
  assert (Hb : (0 <=? basis c) && (basis c <? 64) && (b64char (basis c) =? c) && negb (c =? 61) = true) by (apply H, in_seq; lia).
  apply andb_true_iff in Hb as [Hb Hn%negb_true_iff]. reflect_bools. lia.
Qed.

Lemma lor_shift a k b : 0 <= k -> 0 <= b < 2 ^ k -> Z.lor (Z.shiftl a k) b = a * 2 ^ k + b.
Proof. intros Hk Hb. rewrite Z.shiftl_mul_pow2 by done. by apply lor_add_low. Qed.

Lemma u8_mod z : u8 z = z mod 256.
Proof. unfold u8. change 255 with (2 ^ 8 - 1). by rewrite land_low. Qed.

(** The six bits of a character as arithmetic on the bytes, and back. *)
Lemma six_bits a b c :
  is_byte a -> is_byte b -> is_byte c ->
  Z.shiftr a 2 = a / 4 /\ Z.shiftl (Z.land a 3) 4 = a mod 4 * 16 /\ Z.lor (Z.shiftl (Z.land a 3) 4) (Z.shiftr b 4) = a mod 4 * 16 + b / 16
  /\ Z.shiftl (Z.land b 15) 2 = b mod 16 * 4 /\ Z.lor (Z.shiftl (Z.land b 15) 2) (Z.shiftr c 6) = b mod 16 * 4 + c / 64 /\ Z.land c 63 = c mod 64.
Proof.
  unfold is_byte. intros Ha Hb Hc. change 3 with (2 ^ 2 - 1). change 15 with (2 ^ 4 - 1). change 63 with (2 ^ 6 - 1).
  rewrite !land_low, !Z.shiftr_div_pow2 by lia. change (2 ^ 2) with 4. change (2 ^ 4) with 16. change (2 ^ 6) with 64.
  rewrite (lor_shift (a mod 4) 4 (b / 16)), (lor_shift (b mod 16) 2 (c / 64)), !Z.shiftl_mul_pow2 by lia. change (2 ^ 4) with 16. change (2 ^ 2) with 4. done.
Qed.

Lemma eight_bits v w :
  0 <= v < 64 -> 0 <= w < 64 ->
  u8 (Z.lor (Z.shiftl v 2) (Z.shiftr w 4)) = v * 4 + w / 16
  /\ u8 (Z.lor (Z.shiftl v 4) (Z.shiftr w 2)) = v mod 16 * 16 + w / 4
  /\ u8 (Z.lor (Z.shiftl v 6) w) = v mod 4 * 64 + w.
Proof.
  intros Hv Hw. rewrite !u8_mod, !Z.shiftr_div_pow2 by lia. change (2 ^ 4) with 16. change (2 ^ 2) with 4.
  rewrite !lor_shift by lia. change (2 ^ 6) with 64. change (2 ^ 4) with 16. change (2 ^ 2) with 4. lia.
Qed.

(** Strings three bytes at a time. *)
Lemma bytes_ind3 (P : bytes -> Prop) :
  P [] -> (forall a, P [a]) -> (forall a b, P [a; b]) -> (forall a b c s, P s -> P (a :: b :: c :: s)) -> forall s, P s.
Proof. intros H0 H1 H2 H3. fix IH 1. intros [|a [|b [|c s]]]; [done|apply H1|apply H2|apply H3, IH]. Qed.

Ltac each_byte := repeat match goal with H : Forall is_byte (_ :: _) |- _ => apply Forall_cons in H as [? ?] end.

Lemma b64_char_ok v : 0 <= v < 64 -> is_base64url_char (b64char v) = true.
Proof. intros Hv. by apply b64_chars. Qed.

Lemma basis_char v : 0 <= v < 64 -> basis (b64char v) = v.
Proof. intros Hv. by apply b64_chars. Qed.

Lemma b64url_chars s : Forall is_byte s -> forallb is_base64url_char (b64url s) = true.
Proof.
  induction s as [|a|a b|a b c s IH] using bytes_ind3; intros Hs; [done|..]; each_byte; cbn [b64url forallb].
  - destruct (six_bits a 0 0) as (-> & -> & _); [done..|]. unfold is_byte in *. by rewrite !b64_char_ok by lia.
  - destruct (six_bits a b 0) as (-> & _ & -> & -> & _); [done..|]. unfold is_byte in *. by rewrite !b64_char_ok by lia.
  - destruct (six_bits a b c) as (-> & _ & -> & _ & -> & ->); [done..|]. unfold is_byte in *. rewrite !b64_char_ok by lia. by apply IH.
Qed.

Lemma decode_b64url s : Forall is_byte s -> decode_loop (b64url s) = s.
Proof.
  induction s as [|a|a b|a b c s IH] using bytes_ind3; intros Hs; [done|..]; each_byte; cbn [b64url decode_loop].
  - destruct (six_bits a 0 0) as (-> & -> & _); [done..|]. unfold is_byte in *. rewrite !basis_char by lia.
    destruct (eight_bits (a / 4) (a mod 4 * 16)) as (-> & _ & _); [lia..|]. f_equal. lia.
  - destruct (six_bits a b 0) as (-> & _ & -> & -> & _); [done..|]. unfold is_byte in *. rewrite !basis_char by lia.
    destruct (eight_bits (a / 4) (a mod 4 * 16 + b / 16)) as (-> & _ & _); [lia..|].
    destruct (eight_bits (a mod 4 * 16 + b / 16) (b mod 16 * 4)) as (_ & -> & _); [lia..|]. repeat f_equal; lia.
  - destruct (six_bits a b c) as (-> & _ & -> & _ & -> & ->); [done..|]. unfold is_byte in *. rewrite !basis_char by lia. rewrite IH by done.
    destruct (eight_bits (a / 4) (a mod 4 * 16 + b / 16)) as (-> & _ & _); [lia..|].
    destruct (eight_bits (a mod 4 * 16 + b / 16) (b mod 16 * 4 + c / 64)) as (_ & -> & _); [lia..|].
    destruct (eight_bits (b mod 16 * 4 + c / 64) (c mod 64)) as (_ & _ & ->); [lia..|]. repeat f_equal; lia.
Qed.

Lemma length_b64url s : Z.of_nat (length (b64url s)) = (Z.of_nat (length s) * 4 + 2) / 3.
Proof. induction s as [|a|a b|a b c s IH] using bytes_ind3; [done|done|done|]. cbn [b64url length]. rewrite !Nat2Z.inj_succ, IH. lia. Qed.

(** ** The decoder *)

Lemma decode_scan_ok s n : forallb is_base64url_char s = true -> decode_scan s n = Some (n + length s)%nat.
Proof.
  revert n. induction s as [|c s IH]; intros n H; cbn [decode_scan]; [f_equal; cbn; lia|]. cbn [forallb] in H. apply andb_true_iff in H as [Hc Hs].
  destruct (basis_range c Hc) as (Hb & _ & ->). destruct (Z.eqb_spec (basis c) 77) as [E|_]; [lia|]. rewrite IH by done. f_equal. cbn. lia.
Qed.

Lemma bytes_ind4 (P : bytes -> Prop) :
  P [] -> (forall a, P [a]) -> (forall a b, P [a; b]) -> (forall a b c, P [a; b; c]) -> (forall a b c d s, P s -> P (a :: b :: c :: d :: s)) -> forall s, P s.
Proof. intros H0 H1 H2 H3 H4. fix IH 1. intros [|a [|b [|c [|d s]]]]; [done|apply H1|apply H2|apply H3|apply H4, IH]. Qed.

Lemma length_decode_loop s : Z.of_nat (length (decode_loop s)) = Z.of_nat (length s) * 3 / 4.
Proof. induction s as [|a|a b|a b c|a b c d s IH] using bytes_ind4; [done..|]. cbn [decode_loop length]. rewrite !Nat2Z.inj_succ, IH. lia. Qed.

Lemma u8_byte z : is_byte (u8 z).
Proof. rewrite u8_mod. unfold is_byte. lia. Qed.

Lemma decode_loop_bytes s : Forall is_byte (decode_loop s).
Proof. induction s as [|a|a b|a b c|a b c d s IH] using bytes_ind4; cbn [decode_loop]; repeat constructor; apply u8_byte || apply IH || apply u8_mod. Qed.

(** What the decoder takes: characters of the alphabet, and not one left over. *)
Definition decodable (s : bytes) : Prop :=
  forallb is_base64url_char s = true /\ (length s mod 4 <> 1)%nat /\ Z.of_nat (length s) <= NGX_MAX_SIZE_T_VALUE / 3 * 4 - 3.

Lemma decoded_size n : 0 <= n <= NGX_MAX_SIZE_T_VALUE / 3 * 4 - 3 -> ngx_base64_decoded_length n = (n + 3) / 4 * 3.
Proof. intros Hn. unfold ngx_base64_decoded_length, u64, NGX_MAX_SIZE_T_VALUE in *. lia. Qed.

Lemma encoded_size n : 0 <= n <= NGX_MAX_SIZE_T_VALUE / 4 * 3 - 2 -> ngx_base64_encoded_length n = (n + 2) / 3 * 4.
Proof. intros Hn. unfold ngx_base64_encoded_length, u64, NGX_MAX_SIZE_T_VALUE in *. lia. Qed.

Lemma b64url_decodable s : Forall is_byte s -> Z.of_nat (length s) <= NGX_MAX_SIZE_T_VALUE / 4 * 3 - 2 -> decodable (b64url s).
Proof.
  intros Hs Hl. split; [by apply b64url_chars|]. pose proof (length_b64url s) as H. split; [|unfold NGX_MAX_SIZE_T_VALUE in *; lia].
  intros E. apply (f_equal Z.of_nat) in E. rewrite Nat2Z.inj_mod, H in E. lia.
Qed.

Section Correct.
Context {S : Type} (pnalloc : prog S bool) (ngx_encode_base64url : bytes -> bytes).

(** nginx's encoder is that of RFC 4648; an allocation gives a buffer, or does not. *)
Context (Henc : forall s, Forall is_byte s -> ngx_encode_base64url s = b64url s).
Context (Halloc : forall w, exists b w', pnalloc w = Ret b w').

Abbreviation encode := (ngx_http_autocert_base64url_encode pnalloc ngx_encode_base64url).
Abbreviation decode := (ngx_http_autocert_base64url_decode pnalloc).

Lemma wp_pnalloc (w : S) (Q : bool -> S -> Prop) X : (forall b w', pnalloc w = Ret b w' -> Q b w') -> wp pnalloc w Q X.
Proof. intros HQ. destruct (Halloc w) as (b & w' & H). unfold wp. rewrite H. by apply HQ. Qed.

Lemma wp_encode s (w : S) (Q : option bytes -> S -> Prop) X :
  Forall is_byte s -> (forall w', pnalloc w = Ret false w' -> Q None w') -> (NGX_MAX_SIZE_T_VALUE / 4 * 3 - 2 < Z.of_nat (length s) -> Q None w) ->
  (forall w', pnalloc w = Ret true w' -> Z.of_nat (length s) <= NGX_MAX_SIZE_T_VALUE / 4 * 3 - 2 -> Q (Some (b64url s)) w') -> wp (encode s) w Q X.
Proof.
  intros Hs HN HL HQ. unfold ngx_http_autocert_base64url_encode. destruct (Z.ltb_spec (NGX_MAX_SIZE_T_VALUE / 4 * 3 - 2) (Z.of_nat (length s))) as [Hl|Hl]; [by apply wp_ret, HL|].
  cbv zeta. apply wp_bind, wp_pnalloc. intros [] w' Ha; cbn [negb]; [|by apply wp_ret, HN]. rewrite Henc, length_b64url, encoded_size by (done || lia).
  destruct (Z.ltb_spec ((Z.of_nat (length s) + 2) / 3 * 4) ((Z.of_nat (length s) * 4 + 2) / 3)) as [H|_]; [lia|by apply wp_ret, HQ].
Qed.

Lemma wp_b64_decode s (w : S) (Q : option bytes -> S -> Prop) X :
  (forall w', (exists w, pnalloc w = Ret false w') \/ ~ decodable s -> Q None w') ->
  (forall w', decodable s -> Q (Some (decode_loop s)) w') -> wp (decode s) w Q X.
Proof.
  intros HN HQ. unfold ngx_http_autocert_base64url_decode. destruct (forallb is_base64url_char s) eqn:Ea; cbn [negb].
  2: { apply wp_ret, HN. right. by intros [? _]; congruence. }
  destruct (Z.ltb_spec (NGX_MAX_SIZE_T_VALUE / 3 * 4 - 3) (Z.of_nat (length s))) as [Hl|Hl]; [apply wp_ret, HN; right; intros (_ & _ & ?); lia|].
  cbv zeta. apply wp_bind, wp_pnalloc. intros [] w' Ha; cbn [negb]; [|apply wp_ret, HN; left; by exists w].
  unfold ngx_decode_base64url. rewrite decode_scan_ok by done. cbn [Nat.add]. destruct (Nat.eqb_spec (length s mod 4) 1) as [E|E].
  { apply wp_ret, HN. right. by intros (_ & ? & _). }
  rewrite take_ge, decoded_size by lia. pose proof (length_decode_loop s) as Hd.
  destruct (Nat.ltb_spec (Z.to_nat ((Z.of_nat (length s) + 3) / 4 * 3)) (length (decode_loop s))) as [H|_]; [lia|]. by apply wp_ret, HQ.
Qed.

(** A byte string encoded in base64url is decoded to itself, through the module's checks
    on sizes and alphabet, neither buffer being written past its end. *)
Theorem base64url_roundtrip (s : bytes) (w : S) :
  Forall is_byte s -> Z.of_nat (length s) <= NGX_MAX_SIZE_T_VALUE / 4 * 3 - 2 ->
  (forall w, exists w', pnalloc w = Ret true w') ->
  exists w1 w2, encode s w = Ret (Some (b64url s)) w1 /\ decode (b64url s) w1 = Ret (Some s) w2.
Proof.
  intros Hs Hl Hroom. pose proof (b64url_decodable s Hs Hl) as Hd.
  unfold ngx_http_autocert_base64url_encode. destruct (Z.ltb_spec (NGX_MAX_SIZE_T_VALUE / 4 * 3 - 2) (Z.of_nat (length s))) as [H|_]; [lia|].
  cbv zeta. unfold bind at 1. destruct (Hroom w) as [w1 ->]. cbn [negb]. rewrite Henc, length_b64url, encoded_size by (done || lia).
  destruct (Z.ltb_spec ((Z.of_nat (length s) + 2) / 3 * 4) ((Z.of_nat (length s) * 4 + 2) / 3)) as [H|_]; [lia|].
  assert (W : wp (decode (b64url s)) w1 (fun r _ => r = Some s) (fun _ => False)).
  { apply wp_b64_decode; [|by rewrite decode_b64url]. intros w' [[w0 H]|H]; [|done]. destruct (Hroom w0) as [w0' H']. congruence. }
  unfold wp in W. destruct (decode (b64url s) w1) as [r w2| | |] eqn:E; [|done..]. subst r. by exists w1, w2.
Qed.

(** The strict decoder answers on every input and writes only into its buffer; it accepts
    exactly the strings of the URL-safe alphabet, without padding, that do not leave a single
    character over, and what it returns is three bytes for every four characters. *)
Theorem base64url_decode_iff (s : bytes) (w : S) :
  (forall w, exists w', pnalloc w = Ret true w') ->
  exists r w', decode s w = Ret r w' /\ (is_Some r <-> decodable s)
  /\ forall d, r = Some d -> Forall is_byte d /\ Z.of_nat (length d) = Z.of_nat (length s) * 3 / 4.
Proof.
  intros Hroom. assert (W : wp (decode s) w (fun r _ => (is_Some r <-> decodable s)
      /\ forall d, r = Some d -> Forall is_byte d /\ Z.of_nat (length d) = Z.of_nat (length s) * 3 / 4) (fun _ => False)).
  { apply wp_b64_decode; [intros w' Hn; split; [|done]; split; [by intros [? ?]|]|intros w' Hd; split; [by split|]].
    - intros Hd. destruct Hn as [[w0 H]|H]; [|done]. destruct (Hroom w0) as [w0' H']. congruence.
    - intros d [= <-]. split; [apply decode_loop_bytes|apply length_decode_loop]. }
  unfold wp in W. destruct (decode s w) as [r w'| | |]; [|done..]. by exists r, w'.
Qed.
End Correct.

Lemma base64url_roundtrip_witness :
  exists w1 w2, ngx_http_autocert_base64url_encode (ret true) b64url (str "light wor") tt = Ret (Some (b64url (str "light wor"))) w1
  /\ ngx_http_autocert_base64url_decode (ret true) (b64url (str "light wor")) w1 = Ret (Some (str "light wor")) w2.
Proof.
  apply (base64url_roundtrip (ret true) b64url); [done|intros w; by exists true, w|by repeat constructor|vm_compute; discriminate|intros w; by exists w].
Defined.

Lemma base64url_decode_iff_witness :
  exists r w', ngx_http_autocert_base64url_decode (ret true) (str "bGlnaHQ") tt = Ret r w' /\ (is_Some r <-> decodable (str "bGlnaHQ"))
  /\ forall d, r = Some d -> Forall is_byte d /\ Z.of_nat (length d) = Z.of_nat (length (str "bGlnaHQ")) * 3 / 4.
Proof. apply (base64url_decode_iff (ret true)); [intros w; by exists true, w|intros w; by exists w]. Defined.

(** The unused bits of the last character are not looked at. *)
Example decode_not_canonical :
  ngx_http_autocert_base64url_decode (ret true) (str "QQ") tt = Ret (Some (str "A")) tt
  /\ ngx_http_autocert_base64url_decode (ret true) (str "QR") tt = Ret (Some (str "A")) tt.
Proof. by vm_compute. Qed.
