(* ===== verification/Jose.v ===== *)
(** * Keys and signatures (ngx_http_autocert_crypto.c)

    The keys, their JWK and thumbprint, and the signed objects of ACME, above OpenSSL:
    which call is made with what, what is built from the answers, and who frees each object. *)

From S2P Require Import Prelude Base64.

Local Open Scope Z_scope.
Local Open Scope prog_scope.

(** ** Objects of OpenSSL *)

(** The local variables that hold one. *)
Inductive var :=
  | Bio | Ctx | Pkey | Bx | By | Sig | Mdctx
  | Req | Gns | Gn | San | Exts | Ia5 | Oct | Der | X | Serial | Acmeid | Obj | Inner | Value
  | Leaf | Untrusted | Store.

#[export] Instance var_eq_dec : EqDecision var.
Proof. solve_decision. Defined.

(** NULL; an object to be freed through this variable; or nothing that may be freed: not set
    yet, another's by now, or freed. *)
Inductive ptr := Null | Owned | Gone.

#[export] Instance ptr_eq_dec : EqDecision ptr.
Proof. solve_decision. Defined.

(** The calls that may fail made so far; the variables of the function that runs; the
    objects lost; and the secrets that were in a block when it was freed. *)
Record heap := Heap { calls : nat; slot : var -> ptr; lost : nat; unwiped : nat }.

Definition unset : var -> ptr := fun _ => Gone.
Definition heap0 (k : nat) : heap := Heap k unset 0 0.

Definition put (s : var -> ptr) (v : var) (p : ptr) : var -> ptr := fun x => if decide (x = v) then p else s x.

Definition all_vars : list var :=
  [Bio; Ctx; Pkey; Bx; By; Sig; Mdctx; Req; Gns; Gn; San; Exts; Ia5; Oct; Der; X; Serial; Acmeid; Obj; Inner; Value; Leaf; Untrusted; Store].

(** The objects still held by variables. *)
Definition held (s : var -> ptr) : nat := length (filter (fun v => s v = Owned) all_vars).

Section Objects.
(** Which calls that may fail succeed, by their number. *)
Context (ok : nat -> bool).
Abbreviation P := (prog heap).

(** The body of a function: it has variables of its own, and what they still hold when it
    returns is lost. *)
Definition func {A} (m : P A) : P A := fun h =>
  match m (Heap (calls h) unset (lost h) (unwiped h)) with
  | Ret a h' => Ret a (Heap (calls h') (slot h) (lost h' + held (slot h')) (unwiped h'))
  | Err h' => Err h'
  | Fault => Fault
  | NoFuel => NoFuel
  end.

Definition attempt : P bool := fun h => Ret (ok (calls h)) (Heap (S (calls h)) (slot h) (lost h) (unwiped h)).

Definition count : P nat := fun h => Ret (calls h) h.

(** Setting a variable; what it held is lost, unless it is another's by now. *)
Definition set_slot (v : var) (p : ptr) : P unit := fun h =>
  Ret tt (Heap (calls h) (put (slot h) v p)
               (match slot h v, p with Owned, Gone => lost h | Owned, _ => S (lost h) | _, _ => lost h end) (unwiped h)).

(** [v = ..._new()]: whether it is not NULL. *)
Definition new (v : var) : P bool := let! made := attempt in set_slot v (if made then Owned else Null);; ret made.

(** The object now belongs to another, or to the caller. *)
Definition give (v : var) : P unit := set_slot v Gone.

(** [v = NULL]. *)
Definition clear (v : var) : P unit := set_slot v Null.

Fixpoint clears (vs : list var) : P unit :=
  match vs with
  | [] => ret tt
  | v :: vs => clear v;; clears vs
  end.

(** [..._free(v)], which does nothing for NULL. *)
Definition free (v : var) : P unit := fun h =>
  match slot h v with
  | Owned => Ret tt (Heap (calls h) (put (slot h) v Gone) (lost h) (unwiped h))
  | Null => Ret tt h
  | Gone => Fault
  end.

Fixpoint frees (vs : list var) : P unit :=
  match vs with
  | [] => ret tt
  | v :: vs => free v;; frees vs
  end.

(** Freeing a block with a secret in it that was not wiped. *)
Definition spill (secret : bool) : P unit := fun h =>
  Ret tt (Heap (calls h) (slot h) (lost h) (if secret then S (unwiped h) else unwiped h)).

(** Calls in a row: the first that fails ends them. *)
Fixpoint attempts (n : nat) : P bool :=
  match n with
  | O => ret true
  | S n => let! b := attempt in if b then attempts n else ret false
  end.
End Objects.

(** ** OpenSSL *)

Inductive md := sha256 | sha384.

Record openssl (K : Type) := Openssl {
  EVP_PKEY_base_id : K -> Z;
  group_name : K -> option bytes;
  OBJ_sn2nid : bytes -> Z;
  OBJ_ln2nid : bytes -> Z;
  EVP_PKEY_bits : K -> Z;
  pub_x : K -> option Z;
  pub_y : K -> option Z;
  BN_bn2binpad : Z -> nat -> option bytes;
  SHA256 : bytes -> bytes;
  HMAC : bytes -> bytes -> bytes;
  digest_sign : md -> K -> bytes -> bytes;
  d2i_ECDSA_SIG : bytes -> option (Z * Z);
  pkcs8_pem : K -> bytes;
  parse_pem : bytes -> option K;
  keygen_rsa : Z -> nat -> K;
  keygen_ec : Z -> nat -> K }.

Definition NID_undef : Z := 0.
Definition EVP_PKEY_EC : Z := 408.
Definition NID_X9_62_prime256v1 : Z := 415.
Definition NID_secp384r1 : Z := 715.
Definition INT_MAX : Z := 2147483647.

(** The identifiers of ngx_http_autocert_crypto.h. *)
Definition NGX_HTTP_AUTOCERT_CRYPTO_P256 : Z := 0.
Definition NGX_HTTP_AUTOCERT_CRYPTO_P384 : Z := 1.
Definition NGX_HTTP_AUTOCERT_CRYPTO_RSA2048 : Z := 2.
Definition NGX_HTTP_AUTOCERT_CRYPTO_RSA3072 : Z := 3.
Definition NGX_HTTP_AUTOCERT_CRYPTO_RSA4096 : Z := 4.

Record ngx_http_autocert_curve_t := Curve { nid : Z; coord_len : nat; jwk_crv : bytes; curve_alg : bytes; curve_md : md }.

Definition p256 : ngx_http_autocert_curve_t := Curve NID_X9_62_prime256v1 32 (str "P-256") (str "ES256") sha256.
Definition p384 : ngx_http_autocert_curve_t := Curve NID_secp384r1 48 (str "P-384") (str "ES384") sha384.

Definition ngx_http_autocert_curve_by_id (curve : Z) : option ngx_http_autocert_curve_t :=
  if curve =? NGX_HTTP_AUTOCERT_CRYPTO_P256 then Some p256
  else if curve =? NGX_HTTP_AUTOCERT_CRYPTO_P384 then Some p384
  else None.

Section Crypto.
Context {K : Type} (O : openssl K) (ok : nat -> bool) (ngx_encode_base64url : bytes -> bytes).
Abbreviation P := (prog heap).
Abbreviation attempt := (attempt ok).
Abbreviation attempts := (attempts ok).
Abbreviation new := (new ok).
Abbreviation encode := (ngx_http_autocert_base64url_encode attempt ngx_encode_base64url).

(** [None] is a NULL key. *)
Definition ngx_http_autocert_curve_of (pkey : option K) : option ngx_http_autocert_curve_t :=
  match pkey with
  | None => None
  | Some k =>
      if negb (EVP_PKEY_base_id K O k =? EVP_PKEY_EC) then None
      else
        let n := match group_name K O k with
                 | Some gname => let n := OBJ_sn2nid K O gname in if n =? NID_undef then OBJ_ln2nid K O gname else n
                 | None => NID_undef
                 end in
        if n =? NID_X9_62_prime256v1 then ngx_http_autocert_curve_by_id NGX_HTTP_AUTOCERT_CRYPTO_P256
        else if n =? NID_secp384r1 then ngx_http_autocert_curve_by_id NGX_HTTP_AUTOCERT_CRYPTO_P384
        else None
  end.

Definition ngx_http_autocert_key_curve_name (pkey : option K) : option bytes := jwk_crv <$> ngx_http_autocert_curve_of pkey.

Definition ngx_http_autocert_sign_md (k : K) : md :=
  match ngx_http_autocert_curve_of (Some k) with
  | Some c => curve_md c
  | None => if 256 <? EVP_PKEY_bits K O k then sha384 else sha256
  end.

Definition ngx_http_autocert_jws_alg (pkey : option K) : option bytes := curve_alg <$> ngx_http_autocert_curve_of pkey.

(** ** Keys *)

(** The three calls on the context, and the key; [EVP_PKEY_free] takes NULL. *)
Definition keygen_with (key : nat -> K) : P (option K) :=
  func (
  clear Pkey;;
  let! ctx := new Ctx in
  if negb ctx then ret None
  else
    let! init := attempts 2 in
    let! made := if init then new Pkey else ret false in
    if negb made then
      free Pkey;;
      free Ctx;;
      ret None
    else
      free Ctx;;
      give Pkey;;
      let! n := count in
      ret (Some (key n))).

Definition ngx_http_autocert_key_generate (curve : Z) : P (option K) :=
  if (curve =? NGX_HTTP_AUTOCERT_CRYPTO_RSA2048) || (curve =? NGX_HTTP_AUTOCERT_CRYPTO_RSA3072)
     || (curve =? NGX_HTTP_AUTOCERT_CRYPTO_RSA4096)
  then
    let bits := if curve =? NGX_HTTP_AUTOCERT_CRYPTO_RSA2048 then 2048
                else if curve =? NGX_HTTP_AUTOCERT_CRYPTO_RSA4096 then 4096 else 3072 in
    keygen_with (keygen_rsa K O bits)
  else
    match ngx_http_autocert_curve_by_id curve with
    | None => ret None
    | Some c => keygen_with (keygen_ec K O (nid c))
    end.

(** [partial]: what a failed write left in the BIO of the key. *)
Definition ngx_http_autocert_key_to_pem (partial : bytes) (k : K) : P (option bytes) :=
  func (
  let! bio := new Bio in
  if negb bio then ret None
  else
    let! written := attempt in
    let data := if written then pkcs8_pem K O k else partial in
    let! out :=
      if negb written then ret None
      else if (length data =? 0)%nat then ret None
      else
        let! buf := attempt in
        ret (if buf then Some data else None) in
    (** the memory of the BIO is wiped where it has any *)
    let data := if (length data =? 0)%nat then data else repeat 0 (length data) in
    spill (existsb (fun c => negb (c =? 0)) data);;
    free Bio;;
    ret out).

Definition ngx_http_autocert_cert_to_pem (pem : bytes) : P (option bytes) :=
  func (
  let! bio := new Bio in
  if negb bio then ret None
  else
    let! written := attempt in
    if negb written then free Bio;; ret None
    else if (length pem =? 0)%nat then free Bio;; ret None
    else
      let! buf := attempt in
      if negb buf then free Bio;; ret None else free Bio;; ret (Some pem)).

Definition ngx_http_autocert_key_from_pem (pem : bytes) : P (option K) :=
  if INT_MAX <? Z.of_nat (length pem) then ret None
  else func (
    let! bio := new Bio in
    if negb bio then ret None
    else
      let! key :=
        match parse_pem K O pem with
        | None => ret None
        | Some k => let! made := new Pkey in ret (if made then Some k else None)
        end in
      free Bio;;
      match key with
      | None => ret None
      | Some k =>
          match ngx_http_autocert_curve_of (Some k) with
          | None => free Pkey;; ret None
          | Some _ => give Pkey;; ret (Some k)
          end
      end).

(** ** JWK *)

(** A number that OpenSSL hands out, when there is one. *)
Definition new_bn (v : var) (n : option Z) : P (option Z) :=
  match n with
  | None => ret None
  | Some n => let! made := new v in ret (if made then Some n else None)
  end.

Definition ngx_http_autocert_ec_xy (c : ngx_http_autocert_curve_t) (k : K) : P (option (bytes * bytes)) :=
  func (
  clear Bx;;
  clear By;;
  let! bx := new_bn Bx (pub_x K O k) in
  let! by_ := match bx with None => ret None | Some _ => new_bn By (pub_y K O k) end in
  let! out :=
    match bx, by_ with
    | Some x, Some y =>
        let! xb := attempt in
        let! yb := attempt in
        if negb xb || negb yb then ret None
        else
          match BN_bn2binpad K O x (coord_len c), BN_bn2binpad K O y (coord_len c) with
          | Some x, Some y => ret (Some (x, y))
          | _, _ => ret None
          end
    | _, _ => ret None
    end in
  free Bx;;
  free By;;
  ret out).

Definition q : bytes := [34].

Definition jwk_text (crv x y : bytes) : bytes :=
  str "{" ++ q ++ str "crv" ++ q ++ str ":" ++ q ++ crv ++ q ++ str "," ++ q ++ str "kty" ++ q ++ str ":" ++ q ++ str "EC" ++ q
  ++ str "," ++ q ++ str "x" ++ q ++ str ":" ++ q ++ x ++ q ++ str "," ++ q ++ str "y" ++ q ++ str ":" ++ q ++ y ++ q ++ str "}".

Definition ngx_http_autocert_jwk_public (pkey : option K) : P (option bytes) :=
  match pkey, ngx_http_autocert_curve_of pkey with
  | Some k, Some c =>
      let! xy := ngx_http_autocert_ec_xy c k in
      match xy with
      | None => ret None
      | Some (x, y) =>
          let! xb64 := encode x in
          match xb64 with
          | None => ret None
          | Some xb64 =>
              let! yb64 := encode y in
              match yb64 with
              | None => ret None
              | Some yb64 =>
                  let! room := attempt in
                  ret (if room then Some (jwk_text (jwk_crv c) xb64 yb64) else None)
              end
          end
      end
  | _, _ => ret None
  end.

(** The digest of a text, encoded. *)
Definition encoded_digest (s : bytes) : P (option bytes) :=
  let! hashed := attempt in
  if negb hashed then ret None else encode (SHA256 K O s).

Definition ngx_http_autocert_jwk_thumbprint (pkey : option K) : P (option bytes) :=
  let! jwk := ngx_http_autocert_jwk_public pkey in
  match jwk with
  | None => ret None
  | Some jwk => encoded_digest jwk
  end.

Definition ngx_http_autocert_dns01_txt (keyauth : bytes) : P (option bytes) := encoded_digest keyauth.

Definition ngx_http_autocert_hmac_sha256 (key msg : bytes) : P (option bytes) :=
  if INT_MAX <? Z.of_nat (length key) then ret None
  else
    let! room := attempt in
    if negb room then ret None
    else
      let! made := attempt in
      let mac := HMAC K O key msg in
      ret (if made && (length mac =? 32)%nat then Some mac else None).

(** ** JWS *)

(** Into a buffer of twice the width. *)
Definition ngx_http_autocert_der_to_jose (c : ngx_http_autocert_curve_t) (der : bytes) : P (option bytes) :=
  func (
  let! sig :=
    match d2i_ECDSA_SIG K O der with
    | None => ret None
    | Some rs => let! made := new Sig in ret (if made then Some rs else None)
    end in
  match sig with
  | None => ret None
  | Some (r, s) =>
      let out :=
        match BN_bn2binpad K O r (coord_len c), BN_bn2binpad K O s (coord_len c) with
        | Some r, Some s => Some (r ++ s)
        | _, _ => None
        end in
      free Sig;;
      ret out
  end).

Definition jws_text (protected payload signature : bytes) : bytes :=
  str "{" ++ q ++ str "protected" ++ q ++ str ":" ++ q ++ protected ++ q ++ str "," ++ q ++ str "payload" ++ q ++ str ":" ++ q ++ payload ++ q
  ++ str "," ++ q ++ str "signature" ++ q ++ str ":" ++ q ++ signature ++ q ++ str "}".

Definition signing_input (prot_b64 pay_b64 : bytes) : bytes := prot_b64 ++ str "." ++ pay_b64.

(** From the context on to its release. *)
Definition jws_signed (c : ngx_http_autocert_curve_t) (k : K) (prot_b64 pay_b64 : bytes) : P (option bytes) :=
  let max_der := (2 * (coord_len c + 1) + 8)%nat in
  let! room := attempt in
  if negb room then ret None
  else
    let! init := attempt in
    if negb init then ret None
    else
      let! done := attempt in
      let der := digest_sign K O (curve_md c) k (signing_input prot_b64 pay_b64) in
      if negb done || (max_der <? length der)%nat then ret None
      else
        let! room := attempt in
        if negb room then ret None
        else
          let! raw_sig := ngx_http_autocert_der_to_jose c der in
          match raw_sig with
          | None => ret None
          | Some raw_sig =>
              let! sig_b64 := encode raw_sig in
              match sig_b64 with
              | None => ret None
              | Some sig_b64 =>
                  let fixed := Z.of_nat (length (jws_text [] [] [])) in
                  if (NGX_MAX_SIZE_T_VALUE - fixed <? Z.of_nat (length sig_b64))
                     || (NGX_MAX_SIZE_T_VALUE - fixed - Z.of_nat (length sig_b64) <? Z.of_nat (length prot_b64) + Z.of_nat (length pay_b64))
                  then ret None
                  else
                    let! room := attempt in
                    ret (if room then Some (jws_text prot_b64 pay_b64 sig_b64) else None)
              end
          end.

Definition ngx_http_autocert_jws_sign (pkey : option K) (protected_json payload : bytes) : P (option bytes) :=
  match pkey, ngx_http_autocert_curve_of pkey with
  | Some k, Some c =>
      let! prot_b64 := encode protected_json in
      match prot_b64 with
      | None => ret None
      | Some prot_b64 =>
          let! pay_b64 := encode payload in
          match pay_b64 with
          | None => ret None
          | Some pay_b64 =>
              if NGX_MAX_SIZE_T_VALUE - 1 - Z.of_nat (length pay_b64) <? Z.of_nat (length prot_b64) then ret None
              else
                let! room := attempt in
                if negb room then ret None
                else
                  func (
                    let! mdctx := new Mdctx in
                    if negb mdctx then ret None
                    else
                      let! out := jws_signed c k prot_b64 pay_b64 in
                      free Mdctx;;
                      ret out)
          end
      end
  | _, _ => ret None
  end.
End Crypto.

(** ** Rules for the variables *)

Section Rules.
Context (ok : nat -> bool).
Implicit Types (s : var -> ptr).

Lemma wp_func {A} (m : prog heap A) k s l u (Q : A -> heap -> Prop) X :
  wp m (Heap k unset l u) (fun a h' => lost h' = l /\ held (slot h') = 0%nat /\ Q a (Heap (calls h') s l (unwiped h'))) (fun _ => False) ->
  wp (func m) (Heap k s l u) Q X.
Proof.
  unfold wp, func. cbn [calls lost unwiped slot]. destruct (m _) as [a h'|h'| |]; [|done..].
  intros (Hl & Hh & HQ). rewrite Hl, Hh, Nat.add_0_r. exact HQ.
Qed.

Lemma wp_try k s l u (Q : bool -> heap -> Prop) X :
  (forall b, Q b (Heap (S k) s l u)) -> wp (attempt ok) (Heap k s l u) Q X.
Proof. intros HQ. apply HQ. Qed.

Lemma wp_new v k s l u (Q : bool -> heap -> Prop) X :
  s v <> Owned -> Q true (Heap (S k) (put s v Owned) l u) -> Q false (Heap (S k) (put s v Null) l u) ->
  wp (new ok v) (Heap k s l u) Q X.
Proof.
  intros Hs HT HF. apply wp_bind, wp_try. intros b. apply wp_bind. unfold set_slot, wp at 1. cbn.
  destruct (s v); [|done|]; destruct b; by apply wp_ret.
Qed.

Lemma wp_give v k s l u (Q : unit -> heap -> Prop) X : Q tt (Heap k (put s v Gone) l u) -> wp (give v) (Heap k s l u) Q X.
Proof. intros HQ. unfold give, set_slot, wp. cbn. by destruct (s v). Qed.

Lemma wp_clear v k s l u (Q : unit -> heap -> Prop) X : s v <> Owned -> Q tt (Heap k (put s v Null) l u) -> wp (clear v) (Heap k s l u) Q X.
Proof. intros Hs HQ. unfold clear, set_slot, wp. cbn. by destruct (s v). Qed.

Lemma wp_free_owned v k s l u (Q : unit -> heap -> Prop) X : s v = Owned -> Q tt (Heap k (put s v Gone) l u) -> wp (free v) (Heap k s l u) Q X.
Proof. intros Hs HQ. unfold free, wp. cbn. by rewrite Hs. Qed.

Lemma wp_free_null v k s l u (Q : unit -> heap -> Prop) X : s v = Null -> Q tt (Heap k s l u) -> wp (free v) (Heap k s l u) Q X.
Proof. intros Hs HQ. unfold free, wp. cbn. by rewrite Hs. Qed.

Lemma wp_spill b k s l u (Q : unit -> heap -> Prop) X : b = false -> Q tt (Heap k s l u) -> wp (spill b) (Heap k s l u) Q X.
Proof. by intros ->. Qed.

Lemma wiped (d : bytes) : existsb (fun c => negb (c =? 0)) (if (length d =? 0)%nat then d else repeat 0 (length d)) = false.
Proof. destruct (Nat.eqb_spec (length d) 0) as [E|_]; [by rewrite (nil_length_inv _ E)|]. by induction (length d). Qed.

Lemma wp_count k s l u (Q : nat -> heap -> Prop) X : Q k (Heap k s l u) -> wp count (Heap k s l u) Q X.
Proof. exact id. Qed.

Lemma wp_attempts n k s l u (Q : bool -> heap -> Prop) X :
  (forall b k', Q b (Heap k' s l u)) -> wp (attempts ok n) (Heap k s l u) Q X.
Proof.
  intros HQ. revert k. induction n as [|n IH]; intros k; cbn [attempts]; [by apply wp_ret|]. apply wp_bind, wp_try. intros []; [apply IH|by apply wp_ret].
Qed.
End Rules.

Ltac wipe :=
  first
    [ apply wiped
    | match goal with E : (length ?d =? 0)%nat = _ |- _ => pose proof (wiped d) as Hwiped; rewrite E in Hwiped; exact Hwiped end ].

(** One statement of a function, the variables being known. *)
Ltac obj :=
  match goal with
  | |- wp (func _) _ _ _ => apply wp_func
  | |- wp (bind _ _) _ _ _ => apply wp_bind
  | |- wp (new _ _) _ _ _ => apply wp_new; [discriminate|cbn [negb orb andb]..]
  | |- wp (attempt _) _ _ _ => apply wp_try; intros []; cbn [negb orb andb]
  | |- wp (attempts _ _) _ _ _ => apply wp_attempts; intros [] ?; cbn [negb orb andb]
  | |- wp (give _) _ _ _ => apply wp_give
  | |- wp (clear _) _ _ _ => apply wp_clear; [discriminate|]
  | |- wp (free _) _ _ _ => first [apply wp_free_owned; [reflexivity|]|apply wp_free_null; [reflexivity|]]
  | |- wp count _ _ _ => apply wp_count
  | |- wp (spill _) _ _ _ => apply wp_spill; [wipe|]
  | |- wp (ret _) _ _ _ => apply wp_ret; cbn [negb orb andb]
  | |- context [lost (Heap _ _ _ _) = _] => split; [reflexivity|split; [reflexivity|cbn [calls unwiped]]]
  end.
