(* ===== verification/Cert.v ===== *)
(** * Certificate requests and certificates (ngx_http_autocert_crypto.c)

    The request of an order, the certificate that answers TLS-ALPN-01, and the bootstrap
    certificate: what is put in each, and who frees each object on the way. *)

From S2P Require Import Prelude NgxCore Ident Base64 Jose.

Local Open Scope Z_scope.
Local Open Scope prog_scope.

(** ** What is built *)

(** A name of a subjectAltName. *)
Inductive general_name := GEN_DNS (name : bytes) | GEN_IPADD (addr : bytes).

Inductive extension :=
  | SubjectAltName (critical : bool) (names : list general_name)
  | AcmeIdentifier (critical : bool) (value : bytes).

(** A certificate request; the subject is left empty. *)
Record csr (K : Type) := Csr { r_version : Z; r_pubkey : K; r_extensions : list extension; r_md : md }.
Arguments Csr {K}.

(** A self-signed certificate: the bounds of its validity in seconds from now, and its
    subject, which is its issuer too. *)
Record x509 (K : Type) := X509 {
  x_version : Z;
  x_serial : Z;
  x_not_before : Z;
  x_not_after : Z;
  x_pubkey : K;
  x_common_name : option bytes;
  x_extensions : list extension;
  x_md : md }.
Arguments X509 {K}.

(** The four bytes of an [in_addr_t], on a little-endian machine. *)
Definition in_addr_bytes (v4 : Z) : bytes :=
  [Z.land v4 255; Z.land (Z.shiftr v4 8) 255; Z.land (Z.shiftr v4 16) 255; Z.land (Z.shiftr v4 24) 255].

Section Build.
(** [i2d_X509_REQ], and the DER of an OCTET STRING; nginx's address parsers. *)
Context {K : Type} (O : openssl K) (ok : nat -> bool) (i2d_req : csr K -> bytes) (i2d_octets : bytes -> bytes)
  (ngx_inet_addr : bytes -> Z) (ngx_inet6_addr : bytes -> option bytes).
Abbreviation P := (prog heap).
Abbreviation attempt := (attempt ok).
Abbreviation attempts := (attempts ok).
Abbreviation new := (new ok).

(** The one name of the extension, pushed onto [gns]; [None] is a jump to the end. *)
Definition san_name (domain : bytes) : P (option general_name) :=
  let! gns := new Gns in
  let! gn := new Gn in
  if negb gns || negb gn then ret None
  else
    let! name :=
      match ngx_autocert_str_is_ip ngx_inet_addr ngx_inet6_addr domain with
      | (0, _) =>
          let! ia5 := new Ia5 in
          if negb ia5 then ret None
          else if INT_MAX <? Z.of_nat (length domain) then ret None
          else
            let! set := attempt in
            if negb set then ret None
            else
              give Ia5;;
              clear Ia5;;
              ret (Some (GEN_DNS domain))
      | (family, v6) =>
          let! oct := new Oct in
          if negb oct then ret None
          else
            let addr :=
              if family =? AF_INET6 then match v6 with Some a => a | None => [] end
              else in_addr_bytes (ngx_inet_addr domain) in
            let! set := attempt in
            if negb set then ret None
            else
              give Oct;;
              clear Oct;;
              ret (Some (GEN_IPADD addr))
      end in
    match name with
    | None => ret None
    | Some name =>
        let! pushed := attempt in
        if negb pushed then ret None
        else
          give Gn;;
          clear Gn;;
          ret (Some name)
    end.

(** The body of [ngx_http_autocert_csr_der] between the creation of the request and [done]. *)
Definition csr_body (k : K) (domain : bytes) : P (option bytes) :=
  let! set := attempts 2 in
  if negb set then ret None
  else
    let! name := san_name domain in
    match name with
    | None => ret None
    | Some name =>
        let! san := new San in
        if negb san then ret None
        else
          let! exts := new Exts in
          if negb exts then ret None
          else
            let! pushed := attempt in
            if negb pushed then ret None
            else
              give San;;
              clear San;;
              let! added := attempt in
              if negb added then ret None
              else
                let! signed := attempt in
                if negb signed then ret None
                else
                  let! der := new Der in
                  if negb der then ret None
                  else
                    let! room := attempt in
                    ret (if room then Some (i2d_req (Csr 0 k [SubjectAltName true [name]] (ngx_http_autocert_sign_md O k))) else None)
    end.

Definition ngx_http_autocert_csr_der (k : K) (domain : bytes) : P (option bytes) :=
  func (
    clears [Der; Req; Exts; San; Gn; Gns; Ia5; Oct];;
    if (length domain =? 0)%nat then ret None
    else
      let! req := new Req in
      if negb req then ret None
      else
        let! out := csr_body k domain in
        frees [Der; Ia5; Oct; Gn; Gns; San; Exts; Req];;
        ret out).

(** Of the bootstrap certificate, between its creation and the return. *)
Definition dummy_body (k : K) : P (option (x509 K)) :=
  let! version := attempt in
  if negb version then ret None
  else
    let! serial := new Serial in
    if negb serial then ret None
    else
      (** the serial number set and put in, the two dates, the key, the name and the issuer,
          and the signature *)
      let! built := attempts 9 in
      ret (if built then Some (X509 2 1 0 86400 k (Some (str "localhost")) [] (ngx_http_autocert_sign_md O k)) else None).

Definition ngx_http_autocert_dummy_cert (pkey : option K) : P (option (x509 K)) :=
  func (
    clears [X; Serial];;
    match pkey with
    | None => ret None
    | Some k =>
        let! x := new X in
        if negb x then ret None
        else
          let! cert := dummy_body k in
          match cert with
          | Some cert => free Serial;; give X;; ret (Some cert)
          | None => frees [Serial; X];; ret None
          end
    end).

(** The extension of RFC 8737, on a certificate: the digest as an OCTET STRING. *)
Definition acme_identifier (digest : bytes) : P (option extension) :=
  let! inner := new Inner in
  if negb inner then ret None
  else
    let! set := attempt in
    if negb set then ret None
    else
      let! der := new Der in
      if negb der then ret None
      else
        let! value := new Value in
        if negb value then ret None
        else
          let! set := attempt in
          if negb set then ret None
          else
            let! obj := new Obj in
            if negb obj then ret None
            else
              let! acmeid := new Acmeid in
              if negb acmeid then ret None
              else
                let! added := attempt in
                ret (if added then Some (AcmeIdentifier true (i2d_octets digest)) else None).

Definition acme_tls_body (k : K) (domain digest : bytes) : P (option (x509 K)) :=
  let! version := attempt in
  if negb version then ret None
  else
    let! serial := new Serial in
    if negb serial then ret None
    else
      (** the serial number set and put in, the two dates, the key, the name and the issuer *)
      let! filled := attempts 7 in
      if negb filled then ret None
      else
        let! name := san_name domain in
        match name with
        | None => ret None
        | Some name =>
            let! san := new San in
            if negb san then ret None
            else
              let! added := attempt in
              if negb added then ret None
              else
                let! acmeid := acme_identifier digest in
                match acmeid with
                | None => ret None
                | Some acmeid =>
                    let! signed := attempt in
                    ret (if signed
                         then Some (X509 2 1 0 86400 k None [SubjectAltName true [name]; acmeid] (ngx_http_autocert_sign_md O k))
                         else None)
                end
        end.

Definition ngx_http_autocert_acme_tls_cert (pkey : option K) (domain keyauth : bytes) : P (option (x509 K)) :=
  func (
    clears [X; Serial; Gns; Gn; Ia5; Oct; San; Acmeid; Obj; Inner; Value; Der];;
    match pkey with
    | None => ret None
    | Some k =>
        if (length domain =? 0)%nat || (length keyauth =? 0)%nat then ret None
        else
          let! hashed := attempt in
          if negb hashed then ret None
          else
            let! x := new X in
            if negb x then ret None
            else
              let! cert := acme_tls_body k domain (SHA256 K O keyauth) in
              match cert with
              | Some cert =>
                  frees [Der; Inner; Value; Obj; San; Acmeid; Gns; Serial];;
                  give X;;
                  ret (Some cert)
              | None =>
                  frees [Der; Inner; Value; Obj; San; Acmeid; Ia5; Oct; Gn; Gns; Serial; X];;
                  ret None
              end
    end).
End Build.

(** ** What they promise

    They identify what they were asked to, and leave no object behind. *)

(** When every call succeeds. *)
Section Success.
Context (ok : nat -> bool) (Hok : forall i, ok i = true).

Lemma wp_try_ok k s l u (Q : bool -> heap -> Prop) X : Q true (Heap (S k) s l u) -> wp (attempt ok) (Heap k s l u) Q X.
Proof. intros HQ. unfold attempt, wp. cbn. by rewrite Hok. Qed.

Lemma wp_new_ok v k s l u (Q : bool -> heap -> Prop) X : s v <> Owned -> Q true (Heap (S k) (put s v Owned) l u) -> wp (new ok v) (Heap k s l u) Q X.
Proof. intros Hs HQ. apply wp_bind, wp_try_ok, wp_bind. unfold set_slot, wp at 1. cbn. by destruct (s v). Qed.

Lemma wp_attempts_ok n k s l u (Q : bool -> heap -> Prop) X : (forall k', Q true (Heap k' s l u)) -> wp (attempts ok n) (Heap k s l u) Q X.
Proof. intros HQ. revert k. induction n as [|n IH]; intros k; cbn [attempts]; [by apply wp_ret|]. by apply wp_bind, wp_try_ok, IH. Qed.
End Success.

(** [obj], past the choice of an address family and the calls in a row. *)
Ltac cert_step :=
  first
    [ obj
    | match goal with
      | |- wp (frees _) _ _ _ => cbn [frees]
      | |- wp (clears _) _ _ _ => cbn [clears]
      | |- wp (match _ with _ => _ end) _ _ _ => progress cbn beta iota delta [orb]
      | |- (match _ with _ => _ end) _ => progress cbn beta iota delta [orb]
      | |- wp (if ?b then _ else _) _ _ _ => let E := fresh "E" in destruct b eqn:E
      end ].

Ltac cert := repeat cert_step.

(** The same where [Hok] says that every call succeeds. *)
Ltac made Hok :=
  repeat first
    [ match goal with
      | |- wp (new _ _) _ _ _ => apply (wp_new_ok _ Hok); [discriminate|cbn [negb orb andb]]
      | |- wp (attempt _) _ _ _ => apply (wp_try_ok _ Hok); cbn [negb orb andb]
      | |- wp (attempts _ _) _ _ _ => apply (wp_attempts_ok _ Hok); intros ?; cbn [negb orb andb]
      end
    | cert_step ].

Section Thms.
Context {K : Type} (O : openssl K) (ok : nat -> bool) (i2d_req : csr K -> bytes) (i2d_octets : bytes -> bytes)
  (ngx_inet_addr : bytes -> Z) (ngx_inet6_addr : bytes -> option bytes).

(** The identifier of a name: a DNS name, or the bytes of an address. *)
Definition identifier (domain : bytes) : general_name :=
  match ngx_autocert_str_is_ip ngx_inet_addr ngx_inet6_addr domain with
  | (0, _) => GEN_DNS domain
  | (_, Some a) => GEN_IPADD a
  | (_, None) => GEN_IPADD (in_addr_bytes (ngx_inet_addr domain))
  end.

(** What a run of [san_name] may leave, for the name [domain]. *)
Lemma family_cases domain :
  ngx_autocert_str_is_ip ngx_inet_addr ngx_inet6_addr domain = (0, None) /\ identifier domain = GEN_DNS domain
  \/ (exists a, ngx_autocert_str_is_ip ngx_inet_addr ngx_inet6_addr domain = (AF_INET6, Some a) /\ identifier domain = GEN_IPADD a)
  \/ ngx_autocert_str_is_ip ngx_inet_addr ngx_inet6_addr domain = (AF_INET, None) /\ identifier domain = GEN_IPADD (in_addr_bytes (ngx_inet_addr domain)).
Proof.
  unfold identifier, ngx_autocert_str_is_ip. destruct (_ || _); [by right; right|]. destruct (ngx_inet6_addr domain) as [a|]; [right; left; by exists a|by left].
Qed.

Lemma wp_csr_der k domain n (Q : option bytes -> heap -> Prop) :
  (forall k', Q None (heap0 k')) ->
  (forall k', domain <> [] -> Q (Some (i2d_req (Csr 0 k [SubjectAltName true [identifier domain]] (ngx_http_autocert_sign_md O k)))) (heap0 k')) ->
  wp (ngx_http_autocert_csr_der O ok i2d_req ngx_inet_addr ngx_inet6_addr k domain) (heap0 n) Q (fun _ => False).
Proof.
  intros HN HS. unfold ngx_http_autocert_csr_der, heap0, csr_body, san_name. destruct (length domain =? 0)%nat eqn:Ed; [cert; apply HN|].
  assert (Hd : domain <> []) by (by intros ->). destruct (family_cases domain) as [[-> E]|[(a & -> & E)|[-> E]]]; rewrite E in HS; unfold AF_INET6, AF_INET; cert;
    first [apply HN|by apply HS].
Qed.

Lemma wp_dummy_cert pkey n (Q : option (x509 K) -> heap -> Prop) :
  (forall k', Q None (heap0 k')) ->
  (forall key k', pkey = Some key -> Q (Some (X509 2 1 0 86400 key (Some (str "localhost")) [] (ngx_http_autocert_sign_md O key))) (heap0 k')) ->
  wp (ngx_http_autocert_dummy_cert O ok pkey) (heap0 n) Q (fun _ => False).
Proof.
  intros HN HS. unfold ngx_http_autocert_dummy_cert, heap0, dummy_body. destruct pkey as [key|]; cert; first [apply HN|by apply HS].
Qed.

(** The certificate that answers TLS-ALPN-01 for [domain]. *)
Definition acme_tls_answer (key : K) (domain keyauth : bytes) : x509 K :=
  X509 2 1 0 86400 key None [SubjectAltName true [identifier domain]; AcmeIdentifier true (i2d_octets (SHA256 K O keyauth))]
    (ngx_http_autocert_sign_md O key).

Lemma wp_acme_tls_cert pkey domain keyauth n (Q : option (x509 K) -> heap -> Prop) :
  (forall k', Q None (heap0 k')) ->
  (forall key k', pkey = Some key -> domain <> [] -> keyauth <> [] -> Q (Some (acme_tls_answer key domain keyauth)) (heap0 k')) ->
  wp (ngx_http_autocert_acme_tls_cert O ok i2d_octets ngx_inet_addr ngx_inet6_addr pkey domain keyauth) (heap0 n) Q (fun _ => False).
Proof.
  intros HN HS. unfold acme_tls_answer in HS. unfold ngx_http_autocert_acme_tls_cert, heap0, acme_tls_body, acme_identifier, san_name.
  destruct pkey as [key|]; [|cert; apply HN]. destruct (length domain =? 0)%nat eqn:Ed; [cert; apply HN|].
  destruct (length keyauth =? 0)%nat eqn:Ea; [cert; apply HN|].
  assert (Hd : domain <> []) by (by intros ->). assert (Ha : keyauth <> []) by (by intros ->).
  destruct (family_cases domain) as [[-> E]|[(a & -> & E)|[-> E]]]; rewrite E in HS; unfold AF_INET6, AF_INET; cert;
    first [apply HN|by apply HS].
Qed.

Lemma made_csr_der (Hok : forall i, ok i = true) k domain n (Q : option bytes -> heap -> Prop) :
  domain <> [] -> Z.of_nat (length domain) <= INT_MAX ->
  (forall out k', Q (Some out) (heap0 k')) ->
  wp (ngx_http_autocert_csr_der O ok i2d_req ngx_inet_addr ngx_inet6_addr k domain) (heap0 n) Q (fun _ => False).
Proof.
  intros Hd Hl HS. unfold ngx_http_autocert_csr_der, heap0, csr_body, san_name. rewrite (proj2 (Nat.eqb_neq _ _)) by (by destruct domain).
  assert (Hm : (INT_MAX <? Z.of_nat (length domain)) = false) by lia.
  destruct (family_cases domain) as [[-> E]|[(a & -> & E)|[-> E]]]; unfold AF_INET6, AF_INET; rewrite ?Hm; made Hok; apply HS.
Qed.

Lemma made_acme_tls_cert (Hok : forall i, ok i = true) key domain keyauth n (Q : option (x509 K) -> heap -> Prop) :
  domain <> [] -> keyauth <> [] -> Z.of_nat (length domain) <= INT_MAX ->
  (forall c k', Q (Some c) (heap0 k')) ->
  wp (ngx_http_autocert_acme_tls_cert O ok i2d_octets ngx_inet_addr ngx_inet6_addr (Some key) domain keyauth) (heap0 n) Q (fun _ => False).
Proof.
  intros Hd Ha Hl HS. unfold ngx_http_autocert_acme_tls_cert, heap0, acme_tls_body, acme_identifier, san_name.
  rewrite !(proj2 (Nat.eqb_neq _ _)) by (by destruct domain, keyauth).
  assert (Hm : (INT_MAX <? Z.of_nat (length domain)) = false) by lia.
  destruct (family_cases domain) as [[-> E]|[(a & -> & E)|[-> E]]]; unfold AF_INET6, AF_INET; rewrite ?Hm; made Hok; apply HS.
Qed.

(** What holds of every way a program can end. *)
Lemma wp_exec {A} (m : prog heap A) h (R : A -> Prop) :
  wp m h (fun a h' => (exists k', h' = heap0 k') /\ R a) (fun _ => False) -> exists a k', m h = Ret a (heap0 k') /\ R a.
Proof. unfold wp. destruct (m h) as [a h'| | |]; [|done..]. intros [[k' ->] HR]. by exists a, k'. Qed.

(** C28. A certificate request asks for the identifier of the order and for nothing else:
    version 1 of PKCS#10, an empty subject, the key given, and one critical subjectAltName
    with one name in it, a DNS name or the bytes of the address that the identifier spells,
    signed with the digest of the key. Whatever call fails, no object is lost or freed
    twice; and when none fails there is a request. *)
Theorem csr_identifies (key : K) (domain : bytes) (n : nat) :
  exists r k', ngx_http_autocert_csr_der O ok i2d_req ngx_inet_addr ngx_inet6_addr key domain (heap0 n) = Ret r (heap0 k')
  /\ (forall der, r = Some der -> domain <> []
      /\ der = i2d_req (Csr 0 key [SubjectAltName true [identifier domain]] (ngx_http_autocert_sign_md O key)))
  /\ ((forall i, ok i = true) -> domain <> [] -> Z.of_nat (length domain) <= INT_MAX -> r <> None).
Proof.
  pose proof (wp_exec (ngx_http_autocert_csr_der O ok i2d_req ngx_inet_addr ngx_inet6_addr key domain) (heap0 n)
    (fun r => forall der, r = Some der -> domain <> [] /\ der = i2d_req (Csr 0 key [SubjectAltName true [identifier domain]] (ngx_http_autocert_sign_md O key)))) as W.
  destruct W as (r & k' & E & W).
  { apply wp_csr_der; [intros k'; split; [by exists k'|done]|]. intros k' Hd. split; [by exists k'|]. by intros ? [= <-]. }
  exists r, k'. split; [done|]. split; [done|]. intros Hok Hd Hl ->.
  pose proof (wp_exec _ (heap0 n) is_Some (made_csr_der Hok key domain n _ Hd Hl (fun out k' => conj (ex_intro _ k' eq_refl) (mk_is_Some _ _ eq_refl)))) as (a & k2 & E2 & [x ->]).
  rewrite E in E2. discriminate E2.
Qed.

(** C29. The certificate that answers TLS-ALPN-01 is the one RFC 8737 asks for: self-signed by
    the key given, valid for a day from now, with the identifier being validated as its only
    name and, critical, the SHA-256 of the key authorization of this token. There is none
    without a key, a name and a key authorization. Whatever call fails, no object is lost or
    freed twice; and when none fails there is a certificate. *)
Theorem acme_tls_cert_proves (pkey : option K) (domain keyauth : bytes) (n : nat) :
  exists r k', ngx_http_autocert_acme_tls_cert O ok i2d_octets ngx_inet_addr ngx_inet6_addr pkey domain keyauth (heap0 n) = Ret r (heap0 k')
  /\ (forall cert, r = Some cert -> domain <> [] /\ keyauth <> []
      /\ pkey = Some (x_pubkey K cert) /\ x_md K cert = ngx_http_autocert_sign_md O (x_pubkey K cert)
      /\ x_not_before K cert = 0 /\ x_not_after K cert = 24 * 60 * 60
      /\ x_extensions K cert = [SubjectAltName true [identifier domain]; AcmeIdentifier true (i2d_octets (SHA256 K O keyauth))])
  /\ ((forall i, ok i = true) -> pkey <> None -> domain <> [] -> keyauth <> [] -> Z.of_nat (length domain) <= INT_MAX -> r <> None).
Proof.
  pose (R := fun r => forall cert, r = Some cert -> domain <> [] /\ keyauth <> [] /\ exists key, pkey = Some key /\ cert = acme_tls_answer key domain keyauth).
  destruct (wp_exec (ngx_http_autocert_acme_tls_cert O ok i2d_octets ngx_inet_addr ngx_inet6_addr pkey domain keyauth) (heap0 n) R) as (r & k' & E & W).
  { apply wp_acme_tls_cert; [intros k'; split; [by exists k'|done]|]. intros key k' Hk Hd Ha. split; [by exists k'|].
    intros ? [= <-]. split; [done|]. split; [done|]. by exists key. }
  exists r, k'. split; [done|]. split.
  - intros cert Hr. destruct (W cert Hr) as (Hd & Ha & key & -> & ->). by repeat split.
  - intros Hok Hk Hd Ha Hl ->. destruct pkey as [key|]; [|case (Hk eq_refl)].
    pose proof (wp_exec _ (heap0 n) is_Some (made_acme_tls_cert Hok key domain keyauth n _ Hd Ha Hl
      (fun c k' => conj (ex_intro _ k' eq_refl) (mk_is_Some _ _ eq_refl)))) as (a & k2 & E2 & [x ->]).
    rewrite E in E2. discriminate E2.
Qed.

(** The bootstrap certificate never passes for a real one: it is self-signed for localhost,
    without a name that a browser would match, and valid for a day. *)
Theorem dummy_cert_localhost (pkey : option K) (n : nat) :
  exists r k', ngx_http_autocert_dummy_cert O ok pkey (heap0 n) = Ret r (heap0 k')
  /\ forall cert, r = Some cert -> pkey = Some (x_pubkey K cert) /\ x_common_name K cert = Some (str "localhost")
     /\ x_extensions K cert = [] /\ x_not_after K cert - x_not_before K cert = 24 * 60 * 60.
Proof.
  pose (R := fun r => forall cert, r = Some cert -> exists key, pkey = Some key
    /\ cert = X509 2 1 0 86400 key (Some (str "localhost")) [] (ngx_http_autocert_sign_md O key)).
  destruct (wp_exec (ngx_http_autocert_dummy_cert O ok pkey) (heap0 n) R) as (r & k' & E & W).
  { apply wp_dummy_cert; [intros k'; split; [by exists k'|done]|]. intros key k' Hk. split; [by exists k'|]. intros ? [= <-]. by exists key. }
  exists r, k'. split; [done|]. intros cert Hr. destruct (W cert Hr) as (key & -> & ->). by repeat split.
Qed.
End Thms.

(** Without a failure, for a name; and where the certificate cannot be signed. *)
Example csr_ex (key : unit) (O : openssl unit) :
  ngx_http_autocert_csr_der O (fun _ => true) (fun r => flat_map (fun e => match e with SubjectAltName _ [GEN_DNS d] => d | _ => [] end) (r_extensions unit r))
    (fun _ => INADDR_NONE) (fun _ => None) key (str "a.org") (heap0 0) = Ret (Some (str "a.org")) (heap0 15).
Proof. vm_compute. reflexivity. Qed.

Example acme_tls_refused_ex (O : openssl unit) :
  ngx_http_autocert_acme_tls_cert O (fun i => negb (i =? 24)%nat) (fun d => d) (fun _ => INADDR_NONE) (fun _ => None) (Some tt) (str "a.org") (str "t.k")
    (heap0 0) = Ret None (heap0 25).
Proof. vm_compute. reflexivity. Qed.
