(* ===== verification/JoseThms.v ===== *)
(** * Keys and signatures: what they promise

    Every function frees or gives away what it made; what is signed and published says what
    was meant, and can be read back. *)

From S2P Require Import Prelude NgxCore Json JsonSpec JsonSound JsonComplete JsonThms Ident OrderState Account Order OrderThms OrderJson Base64 Jose.

Local Open Scope Z_scope.
Local Open Scope prog_scope.

Section Thms.
Context {K : Type} (O : openssl K) (ok : nat -> bool) (ngx_encode_base64url : bytes -> bytes).

(** nginx's encoder is that of RFC 4648; OpenSSL pads a number to the width asked for, and
    SHA-256 has 32 bytes. *)
Context (Henc : forall s, Forall is_byte s -> ngx_encode_base64url s = b64url s).
Context (Hpad : forall n len b, BN_bn2binpad K O n len = Some b -> length b = len /\ Forall is_byte b).
Context (Hsha : forall s, length (SHA256 K O s) = 32%nat /\ Forall is_byte (SHA256 K O s)).

Abbreviation encode := (ngx_http_autocert_base64url_encode (attempt ok) ngx_encode_base64url).

Lemma wp_enc x k s l u (Q : option bytes -> heap -> Prop) X :
  Forall is_byte x -> (forall k', Q None (Heap k' s l u)) ->
  (forall k', Z.of_nat (length x) <= NGX_MAX_SIZE_T_VALUE / 4 * 3 - 2 -> Q (Some (b64url x)) (Heap k' s l u)) ->
  wp (encode x) (Heap k s l u) Q X.
Proof.
  intros Hx HN HS. apply (wp_encode (attempt ok) ngx_encode_base64url Henc); [intros w; by do 2 eexists|done| |intros _; apply HN|].
  - intros w' [= _ <-]. apply HN.
  - intros w' [= _ <-]. apply HS.
Qed.

(** ** Keys *)

Lemma wp_keygen_with (key : nat -> K) k s l u (Q : option K -> heap -> Prop) X :
  (forall r k', Q r (Heap k' s l u)) -> wp (keygen_with ok key) (Heap k s l u) Q X.
Proof. intros HQ. unfold keygen_with. repeat obj; apply HQ. Qed.

Lemma wp_key_generate curve k s l u (Q : option K -> heap -> Prop) X :
  (forall r k', Q r (Heap k' s l u)) -> wp (ngx_http_autocert_key_generate O ok curve) (Heap k s l u) Q X.
Proof.
  intros HQ. unfold ngx_http_autocert_key_generate. destruct (_ || _); [by apply wp_keygen_with|].
  destruct (ngx_http_autocert_curve_by_id curve); [by apply wp_keygen_with|by apply wp_ret].
Qed.

(** The plain text of a key is wiped in the BIO it was written to. *)
Lemma wp_key_to_pem rest key k s l u (Q : option bytes -> heap -> Prop) X :
  (forall k', Q None (Heap k' s l u)) -> (forall k', Q (Some (pkcs8_pem K O key)) (Heap k' s l u)) ->
  wp (ngx_http_autocert_key_to_pem O ok rest key) (Heap k s l u) Q X.
Proof.
  intros HN HS. unfold ngx_http_autocert_key_to_pem. cbv zeta.
  repeat obj; try apply HN; destruct (length _ =? 0)%nat eqn:E; repeat obj; first [apply HN|apply HS].
Qed.

Lemma wp_cert_to_pem pem k s l u (Q : option bytes -> heap -> Prop) X :
  (forall r k', Q r (Heap k' s l u)) -> wp (ngx_http_autocert_cert_to_pem ok pem) (Heap k s l u) Q X.
Proof. intros HQ. unfold ngx_http_autocert_cert_to_pem. repeat obj; try apply HQ. destruct (length pem =? 0)%nat; repeat obj; apply HQ. Qed.

(** A key that is read is one of the two curves. *)
Lemma wp_key_from_pem pem k s l u (Q : option K -> heap -> Prop) X :
  (forall k', Q None (Heap k' s l u)) ->
  (forall key k', parse_pem K O pem = Some key -> is_Some (ngx_http_autocert_curve_of O (Some key)) -> Q (Some key) (Heap k' s l u)) ->
  wp (ngx_http_autocert_key_from_pem O ok pem) (Heap k s l u) Q X.
Proof.
  intros HN HS. unfold ngx_http_autocert_key_from_pem. destruct (INT_MAX <? _); [by apply wp_ret|]. repeat obj; try apply HN.
  destruct (parse_pem K O pem) as [key|] eqn:Ep; repeat obj; try apply HN.
  destruct (ngx_http_autocert_curve_of O (Some key)) eqn:Ec; repeat obj; [by apply HS|apply HN].
Qed.

(** ** JWK *)

Definition coordinates (c : ngx_http_autocert_curve_t) (key : K) (x y : bytes) : Prop :=
  exists nx ny, pub_x K O key = Some nx /\ pub_y K O key = Some ny
  /\ BN_bn2binpad K O nx (coord_len c) = Some x /\ BN_bn2binpad K O ny (coord_len c) = Some y.

Lemma wp_ec_xy c key k s l u (Q : option (bytes * bytes) -> heap -> Prop) X :
  (forall k', Q None (Heap k' s l u)) -> (forall x y k', coordinates c key x y -> Q (Some (x, y)) (Heap k' s l u)) ->
  wp (ngx_http_autocert_ec_xy O ok c key) (Heap k s l u) Q X.
Proof.
  intros HN HS. unfold ngx_http_autocert_ec_xy, new_bn. repeat obj.
  destruct (pub_x K O key) as [nx|] eqn:Ex; repeat obj; try apply HN.
  destruct (pub_y K O key) as [ny|] eqn:Ey; repeat obj; try apply HN.
  destruct (BN_bn2binpad K O nx (coord_len c)) as [x|] eqn:Bx; [|repeat obj; apply HN].
  destruct (BN_bn2binpad K O ny (coord_len c)) as [y|] eqn:By; [|repeat obj; apply HN].
  repeat obj. apply HS. by exists nx, ny.
Qed.

Lemma wp_jwk_public pkey k s l u (Q : option bytes -> heap -> Prop) X :
  (forall k', Q None (Heap k' s l u)) ->
  (forall key c x y k', pkey = Some key -> ngx_http_autocert_curve_of O pkey = Some c -> coordinates c key x y ->
     Q (Some (jwk_text (jwk_crv c) (b64url x) (b64url y))) (Heap k' s l u)) ->
  wp (ngx_http_autocert_jwk_public O ok ngx_encode_base64url pkey) (Heap k s l u) Q X.
Proof.
  intros HN HS. unfold ngx_http_autocert_jwk_public. destruct pkey as [key|]; [|apply wp_ret, HN].
  destruct (ngx_http_autocert_curve_of O (Some key)) as [c|] eqn:Ec; [|apply wp_ret, HN].
  apply wp_bind, wp_ec_xy; [intros; apply wp_ret, HN|]. intros x y k1 Hxy. pose proof Hxy as (nx & ny & _ & _ & Hx & Hy).
  apply wp_bind, wp_enc; [by eapply Hpad|intros; apply wp_ret, HN|]. intros k2 _.
  apply wp_bind, wp_enc; [by eapply Hpad|intros; apply wp_ret, HN|]. intros k3 _. repeat obj; [|apply HN]. by apply (HS key).
Qed.

Lemma wp_digest x k s l u (Q : option bytes -> heap -> Prop) X :
  (forall k', Q None (Heap k' s l u)) -> (forall k', Q (Some (b64url (SHA256 K O x))) (Heap k' s l u)) ->
  wp (encoded_digest O ok ngx_encode_base64url x) (Heap k s l u) Q X.
Proof. intros HN HS. unfold encoded_digest. repeat obj; [|apply HN]. apply wp_enc; [apply Hsha|done|]. intros k' _. apply HS. Qed.

(** ** JWS *)

(** A signature by a key over a text, as R and S of the width of the curve. *)
Definition signature_of (c : ngx_http_autocert_curve_t) (key : K) (text sig : bytes) : Prop :=
  exists r s rb sb, d2i_ECDSA_SIG K O (digest_sign K O (curve_md c) key text) = Some (r, s)
  /\ BN_bn2binpad K O r (coord_len c) = Some rb /\ BN_bn2binpad K O s (coord_len c) = Some sb /\ sig = rb ++ sb.

Lemma signature_bytes c key text sig : signature_of c key text sig -> length sig = (2 * coord_len c)%nat /\ Forall is_byte sig.
Proof.
  intros (r & s & rb & sb & _ & [Hr1 Hr2]%Hpad & [Hs1 Hs2]%Hpad & ->). rewrite length_app. split; [lia|by apply Forall_app].
Qed.

Lemma wp_der_to_jose c key text k s l u (Q : option bytes -> heap -> Prop) X :
  (forall k', Q None (Heap k' s l u)) -> (forall sig k', signature_of c key text sig -> Q (Some sig) (Heap k' s l u)) ->
  wp (ngx_http_autocert_der_to_jose O ok c (digest_sign K O (curve_md c) key text)) (Heap k s l u) Q X.
Proof.
  intros HN HS. unfold ngx_http_autocert_der_to_jose. repeat obj. destruct (d2i_ECDSA_SIG K O _) as [[r z]|] eqn:Ed; repeat obj; try apply HN.
  destruct (BN_bn2binpad K O r (coord_len c)) as [rb|] eqn:Er; [|apply HN].
  destruct (BN_bn2binpad K O z (coord_len c)) as [sb|] eqn:Es; [|apply HN]. apply HS. by exists r, z, rb, sb.
Qed.

(** An object is signed: the two parts encoded, and a signature over the two joined. *)
Definition signed (pkey : option K) (prot pay out : bytes) : Prop :=
  exists key c sig, pkey = Some key /\ ngx_http_autocert_curve_of O pkey = Some c
  /\ signature_of c key (signing_input (b64url prot) (b64url pay)) sig
  /\ out = jws_text (b64url prot) (b64url pay) (b64url sig)
  /\ Forall (fun x => Z.of_nat (length x) <= NGX_MAX_SIZE_T_VALUE / 4 * 3 - 2) [prot; pay; sig].

Lemma wp_jws_sign pkey prot pay k s l u (Q : option bytes -> heap -> Prop) X :
  Forall is_byte prot -> Forall is_byte pay ->
  (forall k', Q None (Heap k' s l u)) -> (forall out k', signed pkey prot pay out -> Q (Some out) (Heap k' s l u)) ->
  wp (ngx_http_autocert_jws_sign O ok ngx_encode_base64url pkey prot pay) (Heap k s l u) Q X.
Proof.
  intros Hprot Hpay HN HS. unfold ngx_http_autocert_jws_sign. destruct pkey as [key|]; [|apply wp_ret, HN].
  destruct (ngx_http_autocert_curve_of O (Some key)) as [c|] eqn:Ec; [|apply wp_ret, HN].
  apply wp_bind, wp_enc; [done|intros; apply wp_ret, HN|]. intros k1 Hl1. apply wp_bind, wp_enc; [done|intros; apply wp_ret, HN|]. intros k2 Hl2.
  destruct (_ <? _); [apply wp_ret, HN|]. repeat obj; try apply HN. unfold jws_signed. cbv zeta.
  repeat obj; try apply HN. destruct (_ <? _)%nat; repeat obj; try apply HN.
  apply wp_der_to_jose; [intros; repeat obj; apply HN|]. intros sig k3 Hsig. pose proof (signature_bytes _ _ _ _ Hsig) as [_ Hb].
  apply wp_bind, wp_enc; [done|intros; repeat obj; apply HN|]. intros k4 Hl3. destruct (_ || _); repeat obj; try apply HN.
  apply HS. exists key, c, sig. split; [done|]. split; [done|]. split; [done|]. split; [done|]. by repeat constructor.
Qed.

(** ** What can be read back *)

Lemma base64url_json_safe s : forallb is_base64url_char s = true -> ngx_autocert_account_json_safe s = true.
Proof.
  unfold ngx_autocert_account_json_safe. intros H. apply forallb_forall. intros c Hc. rewrite forallb_forall in H. specialize (H c Hc).
  unfold is_base64url_char in H. reflect_bools; lia.
Qed.

Abbreviation safe := ngx_autocert_account_json_safe.
Abbreviation decoded s := (ngx_http_autocert_base64url_decode (S := unit) (ret true) s tt).

Lemma b64url_safe x : Forall is_byte x -> safe (b64url x) = true.
Proof. intros Hx. by apply base64url_json_safe, b64url_chars. Qed.

Lemma b64url_decoded x : Forall is_byte x -> Z.of_nat (length x) <= NGX_MAX_SIZE_T_VALUE / 4 * 3 - 2 -> decoded (b64url x) = Ret (Some x) tt.
Proof.
  intros Hx Hl. assert (Hr : forall w : unit, exists w', ret true w = Ret true w') by (intros w; by exists w).
  assert (Hd : decodable (b64url x)) by (by apply b64url_decodable).
  pose proof (wp_b64_decode (S := unit) (ret true) (fun w => ex_intro _ true (ex_intro _ w eq_refl)) (b64url x) tt (fun r _ => r = Some x) (fun _ => False)) as W.
  unfold wp in W. destruct (decoded (b64url x)) as [r []| | |]; try (exfalso; apply W; [by intros w' [[w [=]]|H]|by rewrite decode_b64url]).
  f_equal. apply W; [by intros w' [[w [=]]|H]|by rewrite decode_b64url].
Qed.

Lemma jws_text_parses p y g :
  safe p = true -> safe y = true -> safe g = true ->
  ngx_autocert_json_parse (jws_text p y g) plenty =
  Some (JObject [(str "protected", JString p); (str "payload", JString y); (str "signature", JString g)]).
Proof.
  intros Hp Hy Hg. apply document_text, object_text. apply str_member_cons; [done..|]. apply str_member_cons; [done..|]. by apply str_member_last.
Qed.

Lemma jwk_text_parses crv x y :
  safe crv = true -> safe x = true -> safe y = true ->
  ngx_autocert_json_parse (jwk_text crv x y) plenty =
  Some (JObject [(str "crv", JString crv); (str "kty", JString (str "EC")); (str "x", JString x); (str "y", JString y)]).
Proof.
  intros Hc Hx Hy. apply document_text, object_text. apply str_member_cons; [done..|].
  apply str_member_cons; [done..|]. apply str_member_cons; [done..|]. by apply str_member_last.
Qed.

Lemma curve_cases pkey c : ngx_http_autocert_curve_of O pkey = Some c -> c = p256 \/ c = p384.
Proof.
  unfold ngx_http_autocert_curve_of. destruct pkey as [key|]; [|done]. destruct (negb _); [done|]. cbv zeta.
  destruct (_ =? NID_X9_62_prime256v1); [intros [= <-]; by left|]. destruct (_ =? NID_secp384r1); [intros [= <-]; by right|done].
Qed.

(** C27. A signed object says what was signed: when one is built it is a JSON object of the
    three members that RFC 7515 asks for, of which the first two decode to the header and
    the payload given, and the third to R and S, at the width of the curve, of a signature
    by the key over the two joined, with the digest of the curve; whatever fails, every
    object made of OpenSSL is freed once. *)
Theorem jws_signed_object (pkey : option K) (prot pay : bytes) (k : nat) :
  Forall is_byte prot -> Forall is_byte pay ->
  exists r k', ngx_http_autocert_jws_sign O ok ngx_encode_base64url pkey prot pay (heap0 k) = Ret r (heap0 k')
  /\ forall out, r = Some out -> exists key c p y g sig,
       pkey = Some key /\ ngx_http_autocert_curve_of O pkey = Some c
       /\ ngx_autocert_json_parse out plenty = Some (JObject [(str "protected", JString p); (str "payload", JString y); (str "signature", JString g)])
       /\ decoded p = Ret (Some prot) tt /\ decoded y = Ret (Some pay) tt /\ decoded g = Ret (Some sig) tt
       /\ length sig = (2 * coord_len c)%nat /\ signature_of c key (p ++ str "." ++ y) sig.
Proof.
  intros Hprot Hpay. pose (Q := fun (r : option bytes) (h' : heap) => exists k', h' = heap0 k' /\ forall out, r = Some out -> signed pkey prot pay out).
  assert (W : wp (ngx_http_autocert_jws_sign O ok ngx_encode_base64url pkey prot pay) (heap0 k) Q (fun _ => False)).
  { apply wp_jws_sign; [done..|intros k'; by exists k'|]. intros out k' Hs. exists k'. split; [done|]. by intros ? [= <-]. }
  unfold wp in W. destruct (ngx_http_autocert_jws_sign _ _ _ _ _ _ _) as [r h'| | |]; [|done..]. destruct W as (k' & -> & W). exists r, k'. split; [done|].
  intros out Hr. destruct (W out Hr) as (key & c & sig & Hk & Hc & Hs & -> & Hl). rewrite !Forall_cons in Hl. destruct Hl as (L1 & L2 & L3 & _).
  destruct (signature_bytes _ _ _ _ Hs) as [Hn Hb]. exists key, c, (b64url prot), (b64url pay), (b64url sig), sig. split; [done|]. split; [done|].
  split; [apply jws_text_parses; by apply b64url_safe|]. split; [by apply b64url_decoded|]. split; [by apply b64url_decoded|]. by split; [apply b64url_decoded|].
Qed.

(** The account key is published in the one form that RFC 7638 hashes: the members crv,
    kty, x and y, in that order and without white space, the coordinates at the width of the
    curve; its thumbprint is the SHA-256 of exactly that text. *)
Theorem jwk_thumbprint_canonical (pkey : option K) (k : nat) :
  exists r k', ngx_http_autocert_jwk_thumbprint O ok ngx_encode_base64url pkey (heap0 k) = Ret r (heap0 k')
  /\ forall t, r = Some t -> exists key c x y jwk,
       pkey = Some key /\ ngx_http_autocert_curve_of O pkey = Some c /\ coordinates c key x y
       /\ jwk = jwk_text (jwk_crv c) (b64url x) (b64url y) /\ decoded t = Ret (Some (SHA256 K O jwk)) tt
       /\ ngx_autocert_json_parse jwk plenty = Some (JObject [(str "crv", JString (jwk_crv c)); (str "kty", JString (str "EC"));
            (str "x", JString (b64url x)); (str "y", JString (b64url y))])
       /\ decoded (b64url x) = Ret (Some x) tt /\ decoded (b64url y) = Ret (Some y) tt
       /\ length x = coord_len c /\ length y = coord_len c.
Proof.
  pose (Q := fun (r : option bytes) (h' : heap) => exists k', h' = heap0 k' /\ forall t, r = Some t -> exists key c x y,
       pkey = Some key /\ ngx_http_autocert_curve_of O pkey = Some c /\ coordinates c key x y
       /\ t = b64url (SHA256 K O (jwk_text (jwk_crv c) (b64url x) (b64url y)))).
  assert (W : wp (ngx_http_autocert_jwk_thumbprint O ok ngx_encode_base64url pkey) (heap0 k) Q (fun _ => False)).
  { apply wp_bind, wp_jwk_public; [intros k'; apply wp_ret; by exists k'|]. intros key c x y k1 Hk Hc Hxy.
    apply wp_digest; [intros k'; by exists k'|]. intros k'. exists k'. split; [done|]. intros t [= <-]. by exists key, c, x, y. }
  unfold wp in W. destruct (ngx_http_autocert_jwk_thumbprint _ _ _ _ _) as [r h'| | |]; [|done..]. destruct W as (k' & -> & W). exists r, k'. split; [done|].
  intros t Ht. destruct (W t Ht) as (key & c & x & y & Hk & Hc & Hxy & ->). pose proof Hxy as (nx & ny & _ & _ & [Hx1 Hx2]%Hpad & [Hy1 Hy2]%Hpad).
  assert (Hcl : Z.of_nat (coord_len c) <= 48) by (destruct (curve_cases _ _ Hc) as [->| ->]; cbn; lia).
  destruct (Hsha (jwk_text (jwk_crv c) (b64url x) (b64url y))) as [Hs1 Hs2]. exists key, c, x, y, (jwk_text (jwk_crv c) (b64url x) (b64url y)).
  do 4 (split; [done|]). assert (Hmax : 48 <= NGX_MAX_SIZE_T_VALUE / 4 * 3 - 2) by (by vm_compute).
  split; [apply b64url_decoded; [done|lia]|]. split; [apply jwk_text_parses; [destruct (curve_cases _ _ Hc) as [->| ->]; reflexivity|by apply b64url_safe..]|].
  split; [apply b64url_decoded; [done|lia]|]. by split; [apply b64url_decoded; [done|lia]|].
Qed.

(** The text of a TXT record is always one that the hook is run with: 43 characters of
    base64url. *)
Theorem dns01_txt_accepted (keyauth : bytes) (k : nat) :
  exists r k', ngx_http_autocert_dns01_txt O ok ngx_encode_base64url keyauth (heap0 k) = Ret r (heap0 k')
  /\ forall txt, r = Some txt -> (length txt =? 43)%nat && forallb Order.is_base64url txt = true /\ decoded txt = Ret (Some (SHA256 K O keyauth)) tt.
Proof.
  pose (Q := fun (r : option bytes) (h' : heap) => exists k', h' = heap0 k' /\ forall t, r = Some t -> t = b64url (SHA256 K O keyauth)).
  assert (W : wp (ngx_http_autocert_dns01_txt O ok ngx_encode_base64url keyauth) (heap0 k) Q (fun _ => False)).
  { apply wp_digest; [intros k'; by exists k'|]. intros k'. exists k'. split; [done|]. by intros t [= <-]. }
  unfold wp in W. destruct (ngx_http_autocert_dns01_txt _ _ _ _ _) as [r h'| | |]; [|done..]. destruct W as (k' & -> & W). exists r, k'. split; [done|].
  intros t Ht. rewrite (W t Ht). destruct (Hsha keyauth) as [Hs1 Hs2]. pose proof (length_b64url (SHA256 K O keyauth)) as Hl. rewrite Hs1 in Hl. split.
  - apply andb_true_iff. change ((Z.of_nat 32 * 4 + 2) / 3) with 43 in Hl. split; [apply Nat.eqb_eq; lia|]. exact (b64url_chars _ Hs2).
  - apply b64url_decoded; [done|]. rewrite Hs1. by vm_compute.
Qed.
End Thms.

(** ** A run *)

(** The [len] bytes of a number, the most significant first. *)
Fixpoint be_bytes (n : Z) (len : nat) : bytes :=
  match len with
  | O => []
  | S len => (n / 256 ^ Z.of_nat len) mod 256 :: be_bytes n len
  end.

Lemma be_bytes_spec n len : length (be_bytes n len) = len /\ Forall is_byte (be_bytes n len).
Proof.
  induction len as [|len [IHl IHb]]; cbn [be_bytes length]; [by split|]. split; [by rewrite IHl|]. constructor; [|done].
  unfold is_byte. pose proof (Z.mod_pos_bound (n / 256 ^ Z.of_nat len) 256). lia.
Qed.

Definition ex_bn2binpad (n : Z) (len : nat) : option bytes := if n <? 256 ^ Z.of_nat len then Some (be_bytes n len) else None.

Lemma ex_bn2binpad_spec n len b : ex_bn2binpad n len = Some b -> length b = len /\ Forall is_byte b.
Proof. unfold ex_bn2binpad. destruct (n <? _); [|done]. intros [= <-]. apply be_bytes_spec. Qed.

(** Keys of P-256 are numbers here. *)
Definition ex_openssl : openssl Z := {|
  EVP_PKEY_base_id := fun _ => EVP_PKEY_EC;
  group_name := fun _ => Some (str "prime256v1");
  OBJ_sn2nid := fun _ => NID_X9_62_prime256v1;
  OBJ_ln2nid := fun _ => NID_undef;
  EVP_PKEY_bits := fun _ => 256;
  pub_x := fun key => Some key;
  pub_y := fun key => Some (key + 1);
  BN_bn2binpad := ex_bn2binpad;
  SHA256 := fun s => be_bytes (Z.of_nat (length s)) 32;
  HMAC := fun _ s => be_bytes (Z.of_nat (length s)) 32;
  digest_sign := fun _ key _ => [key];
  d2i_ECDSA_SIG := fun der => match der with [key] => Some (key, key + 2) | _ => None end;
  pkcs8_pem := fun key => [key];
  parse_pem := fun pem => match pem with [key] => Some key | _ => None end;
  keygen_rsa := fun bits _ => bits;
  keygen_ec := fun nid _ => nid |}.

Definition all_ok (i : nat) : bool := true.

Lemma ex_sha s : length (SHA256 Z ex_openssl s) = 32%nat /\ Forall is_byte (SHA256 Z ex_openssl s).
Proof. apply be_bytes_spec. Qed.

Example jws_ex :
  ngx_http_autocert_jws_sign ex_openssl all_ok b64url (Some 7) (str "{}") [] (heap0 0) =
  Ret (Some (jws_text (str "e30") [] (b64url (be_bytes 7 32 ++ be_bytes 9 32)))) (heap0 11).
Proof. vm_compute. reflexivity. Qed.

Lemma ex_bytes : Forall is_byte (str "{}") /\ Forall is_byte [].
Proof. repeat constructor; unfold is_byte; cbn; lia. Qed.

Lemma jws_signed_object_witness :
  exists r k', ngx_http_autocert_jws_sign ex_openssl all_ok b64url (Some 7) (str "{}") [] (heap0 0) = Ret r (heap0 k')
  /\ forall out, r = Some out -> exists key c p y g sig,
       Some 7 = Some key /\ ngx_http_autocert_curve_of ex_openssl (Some 7) = Some c
       /\ ngx_autocert_json_parse out plenty = Some (JObject [(str "protected", JString p); (str "payload", JString y); (str "signature", JString g)])
       /\ ngx_http_autocert_base64url_decode (S := unit) (ret true) p tt = Ret (Some (str "{}")) tt
       /\ ngx_http_autocert_base64url_decode (S := unit) (ret true) y tt = Ret (Some []) tt
       /\ ngx_http_autocert_base64url_decode (S := unit) (ret true) g tt = Ret (Some sig) tt
       /\ length sig = (2 * coord_len c)%nat /\ signature_of ex_openssl c key (p ++ str "." ++ y) sig.
Proof.
  exact (jws_signed_object ex_openssl all_ok b64url (fun s _ => eq_refl) ex_bn2binpad_spec (Some 7) (str "{}") [] 0 (proj1 ex_bytes) (proj2 ex_bytes)).
Defined.

Example jwk_thumbprint_ex :
  ngx_http_autocert_jwk_thumbprint ex_openssl all_ok b64url (Some 7) (heap0 0) = Ret (Some (b64url (be_bytes 126 32))) (heap0 9).
Proof. vm_compute. reflexivity. Qed.

Lemma jwk_thumbprint_canonical_witness :
  exists r k', ngx_http_autocert_jwk_thumbprint ex_openssl all_ok b64url (Some 7) (heap0 0) = Ret r (heap0 k')
  /\ forall t, r = Some t -> exists key c x y jwk,
       Some 7 = Some key /\ ngx_http_autocert_curve_of ex_openssl (Some 7) = Some c /\ coordinates ex_openssl c key x y
       /\ jwk = jwk_text (jwk_crv c) (b64url x) (b64url y)
       /\ ngx_http_autocert_base64url_decode (S := unit) (ret true) t tt = Ret (Some (SHA256 Z ex_openssl jwk)) tt
       /\ ngx_autocert_json_parse jwk plenty = Some (JObject [(str "crv", JString (jwk_crv c)); (str "kty", JString (str "EC"));
            (str "x", JString (b64url x)); (str "y", JString (b64url y))])
       /\ ngx_http_autocert_base64url_decode (S := unit) (ret true) (b64url x) tt = Ret (Some x) tt
       /\ ngx_http_autocert_base64url_decode (S := unit) (ret true) (b64url y) tt = Ret (Some y) tt
       /\ length x = coord_len c /\ length y = coord_len c.
Proof. exact (jwk_thumbprint_canonical ex_openssl all_ok b64url (fun s _ => eq_refl) ex_bn2binpad_spec ex_sha (Some 7) 0). Defined.
