(* ===== verification/Orphans.v ===== *)
(** * Orphaned DNS hooks (ngx_autocert_order.c)

    An order that is dropped while its hook runs leaves the process to a table, which a timer
    sweeps: who waits for which child, and when SIGCHLD is blocked. *)

From S2P Require Import Prelude.
From stdpp Require Import gmap.

Local Open Scope Z_scope.
Local Open Scope prog_scope.

(** ** The process *)

Definition NGX_INVALID_PID : Z := -1.
Definition NGX_AUTOCERT_ORPHAN_MAX : nat := 8.

(** The hook of the order in flight, with the mask saved when it was started: whether
    SIGCHLD was blocked. *)
Record hook := Hook { hook_pid : Z; saved_mask : bool }.

Record process := Process {
  ngx_autocert_orphans : list Z;
  ngx_autocert_orphans_init : bool;
  orphan_timer_set : bool;
  sigchld_blocked : bool;
  dns_hook : option hook;
  (** children that nobody has waited for, those of them that have ended, and those that
      nginx's own handler of SIGCHLD has waited for *)
  children : gset Z;
  ended : gset Z;
  taken : gset Z;
  waits : nat }.

Definition set_orphans (x : list Z) (w : process) : process :=
  Process x (ngx_autocert_orphans_init w) (orphan_timer_set w) (sigchld_blocked w) (dns_hook w) (children w) (ended w) (taken w) (waits w).
Definition set_orphans_init (x : bool) (w : process) : process :=
  Process (ngx_autocert_orphans w) x (orphan_timer_set w) (sigchld_blocked w) (dns_hook w) (children w) (ended w) (taken w) (waits w).
Definition set_orphan_timer (x : bool) (w : process) : process :=
  Process (ngx_autocert_orphans w) (ngx_autocert_orphans_init w) x (sigchld_blocked w) (dns_hook w) (children w) (ended w) (taken w) (waits w).
Definition set_sigchld_blocked (x : bool) (w : process) : process :=
  Process (ngx_autocert_orphans w) (ngx_autocert_orphans_init w) (orphan_timer_set w) x (dns_hook w) (children w) (ended w) (taken w) (waits w).
Definition set_dns_hook (x : option hook) (w : process) : process :=
  Process (ngx_autocert_orphans w) (ngx_autocert_orphans_init w) (orphan_timer_set w) (sigchld_blocked w) x (children w) (ended w) (taken w) (waits w).
Definition set_family (cs es ts : gset Z) (w : process) : process :=
  Process (ngx_autocert_orphans w) (ngx_autocert_orphans_init w) (orphan_timer_set w) (sigchld_blocked w) (dns_hook w) cs es ts (waits w).
Definition set_waits (x : nat) (w : process) : process :=
  Process (ngx_autocert_orphans w) (ngx_autocert_orphans_init w) (orphan_timer_set w) (sigchld_blocked w) (dns_hook w) (children w) (ended w) (taken w) x.

(** The statics are zero. *)
Definition process0 : process := Process (replicate NGX_AUTOCERT_ORPHAN_MAX 0) false false false None ∅ ∅ ∅ 0.

Section Reaper.
Abbreviation P := (prog process).

Definition read {A} (f : process -> A) : P A := fun w => Ret (f w) w.
Definition update (f : process -> process) : P unit := fun w => Ret tt (f w).

(** Which calls of waitpid a signal interrupts, and which fail for no reason that the code
    knows of; the calls made in a row before one is not interrupted. *)
Context (interrupted odd : nat -> bool) (patience : nat).

(** What waitpid with WNOHANG returns: the child, 0, or -1 with EINTR, ECHILD or another
    error. *)
Inductive wait := Itself | StillRunning | Eintr | Echild | OtherError.

Definition waitpid (pid : Z) : P wait :=
  let! c := read waits in
  update (set_waits (S c));;
  if interrupted c then ret Eintr
  else if odd c then ret OtherError
  else
    let! w := read id in
    if decide (pid ∈ children w) then
      if decide (pid ∈ ended w) then
        update (set_family (children w ∖ {[pid]}) (ended w ∖ {[pid]}) (taken w));; ret Itself
      else ret StillRunning
    else ret Echild.

(** The loops on EINTR. *)
Fixpoint wait_for (fuel : nat) (pid : Z) : P wait :=
  match fuel with
  | O => nofuel
  | S fuel =>
      let! r := waitpid pid in
      match r with
      | Eintr => wait_for fuel pid
      | _ => ret r
      end
  end.

(** ** The table *)

Definition ngx_autocert_orphans_reset : P unit :=
  update (set_orphans (replicate NGX_AUTOCERT_ORPHAN_MAX NGX_INVALID_PID));;
  update (set_orphans_init true).

Definition reset_once : P unit :=
  let! init := read ngx_autocert_orphans_init in
  if negb init then ngx_autocert_orphans_reset else ret tt.

(** The first free slot. *)
Fixpoint store_pid (pid : Z) (slots : list Z) : option (list Z) :=
  match slots with
  | [] => None
  | p :: slots => if p =? NGX_INVALID_PID then Some (pid :: slots) else cons p <$> store_pid pid slots
  end.

Definition ngx_autocert_orphan_add (pid : Z) : P Z :=
  reset_once;;
  let! slots := read ngx_autocert_orphans in
  match store_pid pid slots with
  | Some slots => update (set_orphans slots);; ret NGX_OK
  | None => ret NGX_DECLINED
  end.

(** The loop over the slots: what is in them after it, and how many children still run. *)
Fixpoint sweep (slots : list Z) : P (list Z * nat) :=
  match slots with
  | [] => ret ([], 0%nat)
  | p :: slots =>
      if p =? NGX_INVALID_PID then
        let! rest := sweep slots in
        ret (p :: fst rest, snd rest)
      else
        let! r := wait_for patience p in
        let! rest := sweep slots in
        match r with
        | StillRunning => ret (p :: fst rest, S (snd rest))
        | _ => ret (NGX_INVALID_PID :: fst rest, snd rest)
        end
  end.

Definition ngx_autocert_orphan_reap : P nat :=
  reset_once;;
  let! slots := read ngx_autocert_orphans in
  let! swept := sweep slots in
  update (set_orphans (fst swept));;
  (if (snd swept =? 0)%nat then update (set_sigchld_blocked false) else ret tt);;
  ret (snd swept).

Definition ngx_autocert_orphan_arm : P unit := update (set_orphan_timer true).

(** The timer is no longer set when its handler runs. *)
Definition ngx_autocert_orphan_timer_handler : P unit :=
  update (set_orphan_timer false);;
  let! live := ngx_autocert_orphan_reap in
  if (0 <? live)%nat then ngx_autocert_orphan_arm else ret tt.

Definition ngx_autocert_order_orphan_hook : P unit :=
  let! h := read dns_hook in
  match h with
  | None => ret tt
  | Some h =>
      let! rc := ngx_autocert_orphan_add (hook_pid h) in
      (if rc =? NGX_OK then ngx_autocert_orphan_arm
       else let! r := wait_for patience (hook_pid h) in ret tt);;
      update (set_dns_hook None)
  end.

Definition ngx_autocert_order_cancel_timers : P unit := update (set_orphan_timer false).

(** ** The hook of an order, as far as the table is concerned *)

(** [fork]: the child, when there is one. *)
Definition hook_spawn (fork : option Z) : P unit :=
  let! old := read sigchld_blocked in
  update (set_sigchld_blocked true);;
  match fork with
  | None => update (set_sigchld_blocked old)
  | Some pid =>
      let! w := read id in
      update (set_family (children w ∪ {[pid]}) (ended w) (taken w));;
      update (set_dns_hook (Some (Hook pid old)))
  end.

Definition hook_timer : P wait :=
  let! h := read dns_hook in
  match h with
  | None => fault
  | Some h =>
      let! r := wait_for patience (hook_pid h) in
      match r with
      | StillRunning => ret r
      | _ =>
          update (set_sigchld_blocked (saved_mask h));;
          update (set_dns_hook None);;
          ret r
      end
  end.

(** A reload in a process without a master: the timers are cancelled, then the order in
    flight is dropped. *)
Definition reload : P unit :=
  ngx_autocert_order_cancel_timers;;
  ngx_autocert_order_orphan_hook.

(** nginx's own handler of SIGCHLD waits for every child that has
    ended. *)
Definition nginx_sigchld : P unit :=
  let! w := read id in
  update (set_family (children w ∖ ended w) ∅ (taken w ∪ ended w)).

(** One step of the process; [free] says when a hook may be started. *)
Inductive step (free : process -> Prop) (w : process) : process -> Prop :=
  | Starts fork w' :
      dns_hook w = None -> free w -> (forall pid, fork = Some pid -> 0 < pid /\ pid ∉ children w /\ pid ∉ ended w) ->
      hook_spawn fork w = Ret tt w' -> step free w w'
  | HookTimer r w' : dns_hook w <> None -> hook_timer w = Ret r w' -> step free w w'
  | OrphanTimer w' : orphan_timer_set w = true -> ngx_autocert_orphan_timer_handler w = Ret tt w' -> step free w w'
  | Reloads w' : reload w = Ret tt w' -> step free w w'
  | Exits pid : pid ∈ children w -> step free w (set_family (children w) (ended w ∪ {[pid]}) (taken w) w)
  | Sigchld w' : sigchld_blocked w = false -> nginx_sigchld w = Ret tt w' -> step free w w'.

Inductive reachable (free : process -> Prop) : process -> Prop :=
  | Reach0 : reachable free process0
  | ReachS w w' : reachable free w -> step free w w' -> reachable free w'.

(** The orphans that the table holds. *)
Definition outstanding (w : process) : list Z :=
  if ngx_autocert_orphans_init w then filter (fun p => p <> NGX_INVALID_PID) (ngx_autocert_orphans w) else [].
End Reaper.

(** ** Waiting *)

Section Thms.
Context (interrupted odd : nat -> bool) (patience : nat).
(** Of so many calls in a row one is not interrupted. *)
Context (Hpatience : forall c, exists d, (d < patience)%nat /\ interrupted (c + d)%nat = false).
Abbreviation step := (step interrupted odd patience).
Abbreviation reachable := (reachable interrupted odd patience).

Definition running (w : process) (p : Z) : Prop := p ∈ children w /\ p ∉ ended w.

#[local] Instance running_dec w p : Decision (running w p).
Proof. unfold running. apply _. Defined.

(** [w] but for the children in [ps], whose status has been taken from the kernel. *)
Definition reaped (ps : gset Z) (w : process) : process := set_family (children w ∖ ps) (ended w ∖ ps) (taken w) w.

Lemma wp_wait_from fuel pid w (Q : wait -> process -> Prop) :
  (exists d, (d < fuel)%nat /\ interrupted (waits w + d)%nat = false) ->
  (forall c, ~ (forall i, odd i = false) -> Q OtherError (set_waits c w)) ->
  (forall c, pid ∉ children w -> Q Echild (set_waits c w)) ->
  (forall c, running w pid -> Q StillRunning (set_waits c w)) ->
  (forall c, pid ∈ children w -> pid ∈ ended w -> Q Itself (set_waits c (reaped {[pid]} w))) ->
  wp (wait_for interrupted odd fuel pid) w Q (fun _ => False).
Proof.
  intros Hd HO HE HS HI.
  assert (G : forall w', w' = set_waits (waits w') w -> (exists d, (d < fuel)%nat /\ interrupted (waits w' + d)%nat = false) ->
    wp (wait_for interrupted odd fuel pid) w' Q (fun _ => False)); [|by apply G; [destruct w|]].
  clear Hd. induction fuel as [|fuel IH]; intros w' E (d & Hd & Hi); [lia|]. cbn [wait_for]. apply wp_bind. unfold waitpid, wp at 1, bind, read, update. cbn.
  destruct (interrupted (waits w')) eqn:Ei; cbn.
  { apply IH; [by rewrite E|]. destruct d as [|d]; [by rewrite Nat.add_0_r, Ei in Hi|]. exists d. split; [lia|]. cbn. by rewrite <- Nat.add_succ_r. }
  destruct (odd (waits w')) eqn:Eo; cbn; [rewrite E; apply HO; intros H; by rewrite H in Eo|].
  rewrite E. cbn. case_decide as Hc; cbn; [|by apply HE]. case_decide as He; cbn; [by apply HI|by apply HS].
Qed.

Lemma wp_wait pid w (Q : wait -> process -> Prop) :
  (forall c, ~ (forall i, odd i = false) -> Q OtherError (set_waits c w)) ->
  (forall c, pid ∉ children w -> Q Echild (set_waits c w)) ->
  (forall c, running w pid -> Q StillRunning (set_waits c w)) ->
  (forall c, pid ∈ children w -> pid ∈ ended w -> Q Itself (set_waits c (reaped {[pid]} w))) ->
  wp (wait_for interrupted odd patience pid) w Q (fun _ => False).
Proof. apply wp_wait_from, Hpatience. Qed.

(** ** The sweep *)

Abbreviation valid := (filter (fun p : Z => p <> NGX_INVALID_PID)).

Lemma reaped_none w : set_waits (waits w) (reaped ∅ w) = w.
Proof. unfold reaped. rewrite !difference_empty_L. by destruct w. Qed.

Lemma reaped_reaped p ps c c' w : set_waits c' (reaped ps (set_waits c (reaped {[p]} w))) = set_waits c' (reaped (ps ∪ {[p]}) w).
Proof. unfold reaped, set_waits, set_family. cbn. by rewrite !difference_difference_l_L, (union_comm_L {[p]} ps). Qed.

(** What the sweep keeps are the slots of the children that run; it takes only children that
    have ended. *)
Lemma wp_sweep slots w (Q : list Z * nat -> process -> Prop) :
  (forall slots' ps c, length slots' = length slots -> valid slots' `sublist_of` valid slots ->
     (forall p, p ∈ ps -> p ∈ valid slots /\ p ∈ children w /\ p ∈ ended w) ->
     ((forall i, odd i = false) -> valid slots' = filter (running w) (valid slots) /\ forall p, p ∈ valid slots -> p ∈ children w -> p ∈ ended w -> p ∈ ps) ->
     Q (slots', length (valid slots')) (set_waits c (reaped ps w))) ->
  wp (sweep interrupted odd patience slots) w Q (fun _ => False).
Proof.
  revert w Q. induction slots as [|p slots IH]; intros w Q HQ; cbn [sweep].
  { apply wp_ret. pose proof (HQ [] ∅ (waits w)) as H. rewrite reaped_none in H. apply H; [done|done|set_solver|]. intros _. split; [done|]. by intros p Hp%elem_of_nil. }
  destruct (Z.eqb_spec p NGX_INVALID_PID) as [Hp|Hp].
  - apply wp_bind, IH. intros slots' ps c Hl Hs Hps Ho. apply wp_ret. cbn [fst snd].
    assert (E : forall l, valid (p :: l) = valid l) by (intros l; by rewrite filter_cons_False by (intros H; by apply H)).
    rewrite <- (E slots'). apply HQ; rewrite ?E; [by cbn; rewrite Hl|done..].
  - assert (E : forall l, valid (p :: l) = p :: valid l) by (intros l; by rewrite filter_cons_True).
    assert (E' : forall l, valid (NGX_INVALID_PID :: l) = valid l) by (intros l; rewrite filter_cons_False; [done|intros H; by apply H]).
    apply wp_bind, wp_wait.
    + intros c Hodd. apply wp_bind, IH. intros slots' ps c' Hl Hs Hps Ho. apply wp_ret. cbn [fst snd]. rewrite <- (E' slots').
      apply HQ; rewrite ?E, ?E'; [by cbn; rewrite Hl|by constructor|intros q Hq; destruct (Hps q Hq); set_solver|done].
    + intros c Hc. apply wp_bind, IH. intros slots' ps c' Hl Hs Hps Ho. apply wp_ret. cbn [fst snd]. rewrite <- (E' slots').
      apply HQ; rewrite ?E, ?E'; [by cbn; rewrite Hl|by constructor|intros q Hq; destruct (Hps q Hq); set_solver|].
      intros Hodd. destruct (Ho Hodd) as [Hv Ht]. rewrite filter_cons_False by (by intros [H _]). split; [done|]. intros q [->|Hq]%elem_of_cons; [done|by apply Ht].
    + intros c Hr. apply wp_bind, IH. intros slots' ps c' Hl Hs Hps Ho. apply wp_ret. cbn [fst snd].
      replace (S (length (valid slots'))) with (length (valid (p :: slots'))) by (by rewrite E).
      apply HQ; rewrite ?E; [by cbn; rewrite Hl|by constructor|intros q Hq; destruct (Hps q Hq); set_solver|].
      intros Hodd. destruct (Ho Hodd) as [Hv Ht]. rewrite filter_cons_True by done. split; [by rewrite Hv|].
      intros q [->|Hq]%elem_of_cons ? ?; [by destruct Hr|by apply Ht].
    + intros c Hc He. apply wp_bind, IH. intros slots' ps c' Hl Hs Hps Ho. apply wp_ret. cbn [fst snd]. rewrite <- (E' slots').
      rewrite (reaped_reaped p ps c c' w). apply HQ; rewrite ?E, ?E'; [by cbn; rewrite Hl|by constructor| |].
      * intros q [Hq| ->%elem_of_singleton]%elem_of_union; [destruct (Hps q Hq) as (? & ? & ?); set_solver|set_solver].
      * intros Hodd. destruct (Ho Hodd) as [Hv Ht]. rewrite filter_cons_False by (by intros [_ H]). split.
        -- rewrite Hv. apply list_filter_iff. intros q. unfold running. cbn. destruct (decide (q = p)) as [->|]; set_solver.
        -- intros q [->|Hq]%elem_of_cons Hq1 Hq2; [set_solver|]. destruct (decide (q = p)) as [->|]; [set_solver|]. apply elem_of_union_l, Ht; [done|cbn; set_solver..].
Qed.

(** ** The functions *)

(** The slots, as they are once they have been set up. *)
Definition slots (w : process) : list Z :=
  if ngx_autocert_orphans_init w then ngx_autocert_orphans w else replicate NGX_AUTOCERT_ORPHAN_MAX NGX_INVALID_PID.

Lemma valid_slots w : valid (slots w) = outstanding w.
Proof. unfold slots, outstanding. by destruct (ngx_autocert_orphans_init w). Qed.

Lemma wp_reset_once w (Q : unit -> process -> Prop) :
  Q tt (set_orphans_init true (set_orphans (slots w) w)) -> wp reset_once w Q (fun _ => False).
Proof. unfold wp, reset_once, slots, bind, read. destruct w as [t []]; exact id. Qed.

(** The process after a sweep that left [s] in the slots and waited for [ps]. *)
Definition swept (s : list Z) (ps : gset Z) (c : nat) (w : process) : process :=
  Process s true (0 <? length (valid s))%nat (if (length (valid s) =? 0)%nat then false else sigchld_blocked w) (dns_hook w)
    (children w ∖ ps) (ended w ∖ ps) (taken w) c.

Lemma outstanding_swept s ps c w : outstanding (swept s ps c w) = valid s.
Proof. done. Qed.

Lemma wp_timer_handler w (Q : unit -> process -> Prop) :
  (forall s ps c, length s = length (slots w) -> valid s `sublist_of` outstanding w ->
     (forall p, p ∈ ps -> p ∈ outstanding w /\ p ∈ children w /\ p ∈ ended w) ->
     ((forall i, odd i = false) -> valid s = filter (running w) (outstanding w)
        /\ forall p, p ∈ outstanding w -> p ∈ children w -> p ∈ ended w -> p ∈ ps) ->
     Q tt (swept s ps c w)) ->
  wp (ngx_autocert_orphan_timer_handler interrupted odd patience) w Q (fun _ => False).
Proof.
  intros HQ. unfold ngx_autocert_orphan_timer_handler, ngx_autocert_orphan_reap. unfold wp at 1, bind at 1, update at 1.
  apply wp_bind, wp_bind, wp_reset_once. unfold wp at 1, bind at 1, read at 1. apply wp_bind, wp_sweep.
  intros s ps c Hl Hs Hps Ho. specialize (HQ s ps c). cbn in Hl, Hs, Hps, Ho. change (slots (set_orphan_timer false w)) with (slots w) in *.
  rewrite valid_slots in Hs, Hps, Ho. unfold swept in HQ. unfold wp, bind, update, ret. cbn [fst snd].
  destruct (length (valid s)); cbn; by apply HQ.
Qed.

Lemma store_pid_spec pid s :
  match store_pid pid s with
  | Some s' => exists a b, valid s = a ++ b /\ (pid <> NGX_INVALID_PID -> valid s' = a ++ pid :: b) /\ length s' = length s
  | None => valid s = s
  end.
Proof.
  induction s as [|p s IH]; cbn [store_pid]; [done|]. destruct (Z.eqb_spec p NGX_INVALID_PID) as [->|Hp].
  - exists [], (valid s). rewrite filter_cons_False by (intros H; by apply H). split; [done|]. split; [|done]. intros H. by rewrite filter_cons_True.
  - destruct (store_pid pid s) as [s'|]; cbn [fmap option_fmap option_map].
    + destruct IH as (a & b & E & E' & El). exists (p :: a), b. rewrite !filter_cons_True by done. split; [by rewrite E|]. split; [|by cbn; rewrite El].
      intros H. by rewrite E' by done.
    + by rewrite filter_cons_True, IH.
Qed.

Lemma wp_orphan_hook w (Q : unit -> process -> Prop) :
  (dns_hook w = None -> Q tt w) ->
  (forall h s a b, dns_hook w = Some h -> outstanding w = a ++ b -> (hook_pid h <> NGX_INVALID_PID -> valid s = a ++ hook_pid h :: b) ->
     length s = length (slots w) ->
     Q tt (Process s true true (sigchld_blocked w) None (children w) (ended w) (taken w) (waits w))) ->
  (forall h ps c, dns_hook w = Some h -> outstanding w = slots w -> (forall p, p ∈ ps -> p = hook_pid h) ->
     Q tt (Process (slots w) true (orphan_timer_set w) (sigchld_blocked w) None (children w ∖ ps) (ended w ∖ ps) (taken w) c)) ->
  wp (ngx_autocert_order_orphan_hook interrupted odd patience) w Q (fun _ => False).
Proof.
  intros HN HS HF. unfold ngx_autocert_order_orphan_hook, ngx_autocert_orphan_add. unfold wp at 1, bind at 1, read at 1.
  destruct (dns_hook w) as [h|] eqn:Eh; [|by apply HN]. apply wp_bind, wp_bind, wp_reset_once.
  unfold wp at 1, bind at 1, read at 1. cbn [ngx_autocert_orphans set_orphans_init set_orphans].
  pose proof (store_pid_spec (hook_pid h) (slots w)) as Hs. destruct (store_pid (hook_pid h) (slots w)) as [s|].
  - destruct Hs as (a & b & Ea & Eb & El). rewrite valid_slots in Ea. by apply (HS h s a b).
  - rewrite valid_slots in Hs. cbn. apply wp_bind, wp_bind, wp_wait; intros c; intros; unfold wp, update, ret; cbn.
    + pose proof (HF h ∅ c eq_refl Hs) as H'. rewrite !difference_empty_L in H'. apply H'. set_solver.
    + pose proof (HF h ∅ c eq_refl Hs) as H'. rewrite !difference_empty_L in H'. apply H'. set_solver.
    + pose proof (HF h ∅ c eq_refl Hs) as H'. rewrite !difference_empty_L in H'. apply H'. set_solver.
    + apply (HF h {[hook_pid h]} c); [done..|set_solver].
Qed.

Lemma wp_hook_timer w h (Q : wait -> process -> Prop) :
  dns_hook w = Some h ->
  (forall c, running w (hook_pid h) -> Q StillRunning (set_waits c w)) ->
  (forall r ps c, (forall p, p ∈ ps -> p = hook_pid h) -> ((forall i, odd i = false) -> hook_pid h ∈ children w -> ps = {[hook_pid h]} /\ hook_pid h ∈ ended w) ->
     Q r (set_dns_hook None (set_sigchld_blocked (saved_mask h) (set_waits c (reaped ps w))))) ->
  wp (hook_timer interrupted odd patience) w Q (fun _ => False).
Proof.
  intros Eh HR HD. unfold hook_timer. unfold wp at 1, bind at 1, read at 1. rewrite Eh. apply wp_bind, wp_wait; intros c; intros.
  - unfold wp, bind, update, ret. cbn. pose proof (HD OtherError ∅ c) as H'. unfold reaped in H'. rewrite !difference_empty_L in H'. apply H'; [set_solver|]. intros Ho. by destruct H.
  - unfold wp, bind, update, ret. cbn. pose proof (HD Echild ∅ c) as H'. unfold reaped in H'. rewrite !difference_empty_L in H'. apply H'; [set_solver|done].
  - by apply HR.
  - apply (HD _ {[hook_pid h]} c); [set_solver|done].
Qed.

Lemma wp_returns {A} (m : prog process A) w a w' (Q : A -> process -> Prop) : wp m w Q (fun _ => False) -> m w = Ret a w' -> Q a w'.
Proof. unfold wp. by intros H E; rewrite E in H. Qed.

(** ** One hook at a time *)

(** No hook is started while an orphan is outstanding. *)
Definition none_outstanding (w : process) : Prop := outstanding w = [].

(** What holds then: the children are the hook in flight, or else the orphans. *)
Record undisturbed (w : process) : Prop := {
  un_slots : length (ngx_autocert_orphans w) = NGX_AUTOCERT_ORPHAN_MAX;
  un_taken : taken w = ∅;
  un_ended : ended w ⊆ children w;
  un_timer : orphan_timer_set w = true -> outstanding w <> [];
  un_family : match dns_hook w with
              | Some h => outstanding w = [] /\ saved_mask h = false /\ sigchld_blocked w = true /\ children w = {[hook_pid h]} /\ 0 < hook_pid h
              | None => children w = list_to_set (outstanding w) /\ sigchld_blocked w = negb (length (outstanding w) =? 0)%nat
              end }.

Lemma length_slots w : length (ngx_autocert_orphans w) = NGX_AUTOCERT_ORPHAN_MAX -> length (slots w) = NGX_AUTOCERT_ORPHAN_MAX.
Proof. intros H. unfold slots. by destruct (ngx_autocert_orphans_init w). Qed.

Lemma no_children_without w : undisturbed w -> dns_hook w = None -> outstanding w = [] -> children w = ∅ /\ ended w = ∅ /\ sigchld_blocked w = false.
Proof. intros [_ _ He _ Hf] Hn Ho. rewrite Hn, Ho in Hf. destruct Hf as [Hc Hb]. split; [done|]. split; [set_solver|done]. Qed.

Lemma undisturbed_starts fork w w' :
  undisturbed w -> dns_hook w = None -> none_outstanding w -> (forall pid, fork = Some pid -> 0 < pid /\ pid ∉ children w /\ pid ∉ ended w) ->
  hook_spawn fork w = Ret tt w' -> undisturbed w'.
Proof.
  intros Hu Hn Ho Hf E. destruct (no_children_without w Hu Hn Ho) as (Hc & He & Hb). destruct Hu as [U1 U2 U3 Ut U4].
  unfold hook_spawn, bind, read, update in E. destruct fork as [pid|]; injection E as <-; constructor; cbn; try done.
  - rewrite Hc. set_solver.
  - destruct (Hf pid eq_refl) as [Hp _]. split; [done|]. split; [done|]. split; [done|]. split; [|done]. rewrite Hc. set_solver.
Qed.

Lemma undisturbed_hook_timer (Hodd : forall i, odd i = false) w r w' :
  undisturbed w -> dns_hook w <> None -> hook_timer interrupted odd patience w = Ret r w' -> undisturbed w'.
Proof.
  intros [U1 U2 U3 Ut U4] Hn E. destruct (dns_hook w) as [h|] eqn:Eh; [|done]. destruct U4 as (Uo & Us & Ub & Uc & Up).
  refine (wp_returns _ _ _ _ (fun _ w1 => undisturbed w1) _ E). apply (wp_hook_timer w h); [done| |].
  - intros c _. by constructor; cbn; rewrite ?Eh.
  - intros r' ps c Hps Hi. destruct (Hi Hodd) as [-> He]; [set_solver|]. constructor; cbn; [done..|set_solver|done|].
    change (outstanding (set_dns_hook None _)) with (outstanding w). rewrite Uo, Uc, Us. split; [set_solver|done].
Qed.

(** The orphans that the sweep leaves are the children that it leaves. *)
Lemma family_swept w s ps :
  ended w ⊆ children w -> children w = list_to_set (outstanding w) -> valid s = filter (running w) (outstanding w) ->
  (forall p, p ∈ ps -> p ∈ outstanding w /\ p ∈ children w /\ p ∈ ended w) ->
  (forall p, p ∈ outstanding w -> p ∈ children w -> p ∈ ended w -> p ∈ ps) ->
  children w ∖ ps = list_to_set (valid s).
Proof.
  intros He Hc Hv Hps Hall. apply set_eq. intros p. rewrite Hv, elem_of_list_to_set, list_elem_of_filter, elem_of_difference. unfold running.
  rewrite Hc at 1. rewrite elem_of_list_to_set. split.
  - intros [Hp Hn]. assert (p ∈ children w) by (rewrite Hc; set_solver). split; [|done]. split; [done|]. intros H'. by apply Hn, Hall.
  - intros [[Hp Hr] Ho]. split; [done|]. intros H'. by apply Hps in H' as (_ & _ & ?).
Qed.

Lemma undisturbed_sweep (Hodd : forall i, odd i = false) w w' :
  undisturbed w -> orphan_timer_set w = true -> ngx_autocert_orphan_timer_handler interrupted odd patience w = Ret tt w' -> undisturbed w'.
Proof.
  intros [U1 U2 U3 Ut U4] Hset E. refine (wp_returns _ _ _ _ (fun _ w1 => undisturbed w1) _ E). apply wp_timer_handler.
  intros s ps c Hl Hsub Hps Ho. destruct (Ho Hodd) as [Hv Hall]. specialize (Ut Hset).
  destruct (dns_hook w) as [h|] eqn:Eh; [by destruct U4 as (Uo & _)|]. destruct U4 as (Uc & Ub). constructor; cbn; rewrite ?Eh.
  - by rewrite Hl, length_slots.
  - done.
  - set_solver.
  - unfold outstanding. cbn. intros Hlt E0. by rewrite E0 in Hlt.
  - unfold outstanding. cbn. split; [by eapply family_swept|]. rewrite Ub. destruct (length (valid s)) eqn:El; [done|]. cbn.
    destruct (outstanding w); [|done]. apply sublist_nil_r in Hsub. by rewrite Hsub in El.
Qed.

Lemma undisturbed_reload w w' : undisturbed w -> reload interrupted odd patience w = Ret tt w' -> undisturbed w'.
Proof.
  intros Hu E. pose proof Hu as [U1 U2 U3 Ut U4]. refine (wp_returns _ _ _ _ (fun _ w1 => undisturbed w1) _ E).
  unfold reload. unfold wp at 1, bind at 1, ngx_autocert_order_cancel_timers, update at 1. apply wp_orphan_hook; cbn.
  - intros _. by constructor.
  - intros h s a b Eh Ea Eb El. rewrite Eh in U4. destruct U4 as (Uo & Us & Ub & Uc & Up). change (outstanding w = a ++ b) in Ea. rewrite Uo in Ea.
    destruct a; [|done]. cbn in Ea, Eb. subst b. specialize (Eb ltac:(unfold NGX_INVALID_PID; lia)).
    change (slots (set_orphan_timer false w)) with (slots w) in El. constructor; cbn; [by rewrite El, length_slots|done..| |].
    + intros _. unfold outstanding. cbn. by rewrite Eb.
    + unfold outstanding. cbn. rewrite Eb, Ub, Uc. split; [set_solver|done].
  - intros h ps c Eh Eo _. change (outstanding w = slots w) in Eo. rewrite Eh in U4. destruct U4 as (Uo & _). rewrite Uo in Eo.
    pose proof (length_slots w U1) as Hl. by rewrite <- Eo in Hl.
Qed.

Lemma undisturbed_step (Hodd : forall i, odd i = false) w w' : undisturbed w -> step none_outstanding w w' -> undisturbed w'.
Proof.
  intros Hu [fork w1 Hn Hfree Hf E|r w1 Hn E|w1 Ht E|w1 E|pid Hp|w1 Hb E].
  - by eapply undisturbed_starts.
  - by eapply undisturbed_hook_timer.
  - by eapply undisturbed_sweep.
  - by eapply undisturbed_reload.
  - destruct Hu as [U1 U2 U3 Ut U4]. constructor; [done|done|cbn; set_solver|done|done].
  - assert (He : ended w = ∅).
    { pose proof Hu as [_ _ He _ Hf]. destruct (dns_hook w) as [h|] eqn:Eh; [destruct Hf as (_ & _ & Hb' & _); congruence|].
      destruct Hf as [Hc Hb']. rewrite Hb in Hb'. destruct (outstanding w) eqn:Eo; [|done]. rewrite Hc in He. set_solver. }
    destruct Hu as [U1 U2 U3 Ut U4]. injection E as <-. constructor; cbn; rewrite ?He, ?difference_empty_L, ?union_empty_r_L; done.
Qed.

(** C6. As long as no hook is started while an orphan is outstanding, nobody but this module
    waits for a hook: nginx's own handler of SIGCHLD takes no status, every child is the
    hook of the order in flight or in the table, never both kinds at once, and SIGCHLD is
    blocked exactly while there is a child. *)
Theorem hooks_undisturbed (Hodd : forall i, odd i = false) (w : process) (Hr : reachable none_outstanding w) :
  taken w = ∅
  /\ (forall p, p ∈ children w <-> (exists h, dns_hook w = Some h /\ hook_pid h = p) \/ p ∈ outstanding w)
  /\ (dns_hook w = None \/ outstanding w = [])
  /\ (sigchld_blocked w = true <-> children w <> ∅).
Proof.
  assert (Hu : undisturbed w) by (induction Hr as [|w w' _ IH Hs]; [by constructor|by eapply undisturbed_step]).
  destruct Hu as [_ U2 _ _ U4]. split; [done|]. destruct (dns_hook w) as [h|].
  - destruct U4 as (Uo & _ & Ub & Uc & _). rewrite Uo, Uc, Ub. split; [|split; [by right|split; [intros _; set_solver|done]]].
    intros p. split; [intros ->%elem_of_singleton; left; by exists h|]. intros [(h' & [= <-] & <-)|H]; set_solver.
  - destruct U4 as [Uc Ub]. rewrite Uc, Ub. split; [|split; [by left|]].
    + intros p. rewrite elem_of_list_to_set. split; [by right|]. intros [(h' & [=] & _)|H]; done.
    + destruct (outstanding w) as [|p l]; [done|]. split; [intros _; cbn; set_solver|done].
Qed.

(** A sweep takes the status of the orphans that have ended, keeps the others in their
    order, releases SIGCHLD when none is left and is done again as long as one is. *)
Theorem orphan_sweep (Hodd : forall i, odd i = false) (w : process) :
  exists w', ngx_autocert_orphan_timer_handler interrupted odd patience w = Ret tt w'
  /\ outstanding w' = filter (running w) (outstanding w)
  /\ (forall p, p ∈ children w' <-> p ∈ children w /\ ~ (p ∈ outstanding w /\ p ∈ ended w))
  /\ orphan_timer_set w' = (0 <? length (outstanding w'))%nat
  /\ sigchld_blocked w' = (if (length (outstanding w') =? 0)%nat then false else sigchld_blocked w)
  /\ dns_hook w' = dns_hook w /\ taken w' = taken w.
Proof.
  pose proof (wp_timer_handler w (fun _ w' => outstanding w' = filter (running w) (outstanding w)
    /\ (forall p, p ∈ children w' <-> p ∈ children w /\ ~ (p ∈ outstanding w /\ p ∈ ended w))
    /\ orphan_timer_set w' = (0 <? length (outstanding w'))%nat
    /\ sigchld_blocked w' = (if (length (outstanding w') =? 0)%nat then false else sigchld_blocked w)
    /\ dns_hook w' = dns_hook w /\ taken w' = taken w)) as W.
  unfold wp in W. destruct (ngx_autocert_orphan_timer_handler interrupted odd patience w) as [[] w'| | |]; [exists w'; split; [done|]|exfalso..]; apply W;
    intros sl ps c Hl Hsub Hps Ho; destruct (Ho Hodd) as [Hv Hall]; rewrite outstanding_swept; (split; [done|]); (split; [|done]);
    intros p; unfold swept; cbn [children]; rewrite elem_of_difference; (split; intros [Hp Hn]; split; [done| |done|]);
    first [intros [H1 H2]; by apply Hn, Hall|intros H; apply Hn; by apply Hps in H as (? & ? & ?)].
Qed.
End Thms.

(** ** Runs *)

Definition calm (i : nat) : bool := false.

Lemma calm_patience : forall c, exists d, (d < 1)%nat /\ calm (c + d)%nat = false.
Proof. intros c. exists 0%nat. split; [lia|done]. Qed.

Definition state_after {A} (m : prog process A) (w : process) : process :=
  match m w with Ret _ w' => w' | _ => w end.

Definition ends (pid : Z) (w : process) : process := set_family (children w) (ended w ∪ {[pid]}) (taken w) w.

(** A hook is running when the configuration is reloaded. *)
Definition orphan_ex : process := state_after (reload calm calm 1) (state_after (hook_spawn (Some 5)) process0).

Lemma orphan_ex_reached free : free process0 -> reachable calm calm 1 free orphan_ex.
Proof.
  intros Hf. eapply ReachS; [eapply ReachS; [apply Reach0|eapply (Starts _ _ _ _ _ (Some 5))]|eapply Reloads]; [done|done| |reflexivity|reflexivity].
  intros pid [= <-]. split; [lia|]. split; by vm_compute.
Qed.

Lemma hooks_undisturbed_witness :
  taken orphan_ex = ∅
  /\ (forall p, p ∈ children orphan_ex <-> (exists h, dns_hook orphan_ex = Some h /\ hook_pid h = p) \/ p ∈ outstanding orphan_ex)
  /\ (dns_hook orphan_ex = None \/ outstanding orphan_ex = [])
  /\ (sigchld_blocked orphan_ex = true <-> children orphan_ex <> ∅).
Proof. exact (hooks_undisturbed calm calm 1 calm_patience (fun _ => eq_refl) orphan_ex (orphan_ex_reached none_outstanding eq_refl)). Defined.

Lemma orphan_sweep_witness :
  exists w', ngx_autocert_orphan_timer_handler calm calm 1 orphan_ex = Ret tt w'
  /\ outstanding w' = filter (running orphan_ex) (outstanding orphan_ex)
  /\ (forall p, p ∈ children w' <-> p ∈ children orphan_ex /\ ~ (p ∈ outstanding orphan_ex /\ p ∈ ended orphan_ex))
  /\ orphan_timer_set w' = (0 <? length (outstanding w'))%nat
  /\ sigchld_blocked w' = (if (length (outstanding w') =? 0)%nat then false else sigchld_blocked orphan_ex)
  /\ dns_hook w' = dns_hook orphan_ex /\ taken w' = taken orphan_ex.
Proof. exact (orphan_sweep calm calm 1 calm_patience (fun _ => eq_refl) orphan_ex). Defined.

(** Then the order of the new cycle starts its hook, before the orphan has ended. *)
Definition anytime (w : process) : Prop := True.
Definition second_hook_ex : process := state_after (hook_spawn (Some 6)) orphan_ex.
Definition swept_ex : process := state_after (ngx_autocert_orphan_timer_handler calm calm 1) (ends 5 second_hook_ex).

Lemma swept_ex_reached : reachable calm calm 1 anytime swept_ex.
Proof.
  eapply ReachS; [eapply ReachS; [eapply ReachS; [by apply orphan_ex_reached|eapply (Starts _ _ _ _ _ (Some 6))]|eapply (Exits _ _ _ _ _ 5)]|eapply OrphanTimer];
    [done|done| |reflexivity|by vm_compute|done|reflexivity].
  intros pid [= <-]. split; [lia|]. split; by vm_compute.
Qed.

(** The sweep that takes the orphan's status releases SIGCHLD although a hook is running: its
    status goes to nginx's handler, and the order takes a hook that succeeded for one that
    failed. *)
Example running_hook_unguarded :
  exists w, reachable calm calm 1 anytime w /\ dns_hook w = Some (Hook 6 true) /\ 6 ∈ taken w
  /\ exists w', hook_timer calm calm 1 w = Ret Echild w'.
Proof.
  exists (state_after nginx_sigchld (ends 6 swept_ex)). split.
  - eapply ReachS; [eapply ReachS; [exact swept_ex_reached|eapply (Exits _ _ _ _ _ 6)]|eapply Sigchld]; [by vm_compute|by vm_compute|reflexivity].
  - split; [by vm_compute|]. split; [by vm_compute|]. eexists. by vm_compute.
Qed.

(** Another reload makes an orphan of it, with SIGCHLD still released. *)
Example orphan_unguarded :
  exists w, reachable calm calm 1 anytime w /\ outstanding w = [6] /\ sigchld_blocked w = false.
Proof.
  exists (state_after (reload calm calm 1) swept_ex). split; [|by vm_compute].
  eapply ReachS; [exact swept_ex_reached|by eapply Reloads].
Qed.

(** Had the status not been taken, the order would restore the mask it saved while the
    orphan was outstanding: SIGCHLD stays blocked with no child left. *)
Example mask_left_blocked :
  exists w, reachable calm calm 1 anytime w /\ children w = ∅ /\ dns_hook w = None /\ outstanding w = [] /\ sigchld_blocked w = true.
Proof.
  exists (state_after (hook_timer calm calm 1) (ends 6 swept_ex)). split.
  - eapply ReachS; [eapply ReachS; [exact swept_ex_reached|eapply (Exits _ _ _ _ _ 6)]|eapply HookTimer]; [by vm_compute|by vm_compute|reflexivity].
  - by vm_compute.
Qed.

(** A second reload cancels the timer of an orphan and does not set it again. *)
Example orphan_left :
  exists w, reachable calm calm 1 anytime w /\ outstanding w = [5] /\ orphan_timer_set w = false /\ sigchld_blocked w = true.
Proof.
  exists (state_after (reload calm calm 1) orphan_ex). split; [|by vm_compute].
  eapply ReachS; [by apply orphan_ex_reached|by eapply Reloads].
Qed.
