(* ===== verification/SafeOpen.v ===== *)
(** * Opening a path (ngx_autocert_shared.h)

    How the store and the files in it are opened: one component at a time, below a directory
    that is held open, on a disk that others change between any two calls. *)

From S2P Require Import Prelude NgxCore Expiry.

Local Open Scope Z_scope.
Local Open Scope prog_scope.

(** ** The disk *)

Inductive inode := Directory (entries : gmap bytes nat) | Link | Other.

Definition EEXIST : Z := 17.
Definition EINVAL : Z := 22.
Definition ENAMETOOLONG : Z := 36.

(** The descriptors of the process, with the inode each is open on, and the calls made. *)
Record process := Process { fds : gmap nat nat; calls : nat }.

(** An [int] that a function returns: a descriptor, or -1 with errno. *)
Abbreviation result := (Z + nat)%type.

Definition slash : Z := 47.
Definition dot : bytes := [46].
Definition dotdot : bytes := [46; 46].

(** A name that means an entry of a directory and nothing else. *)
Definition component (name : bytes) : bool :=
  negb (bool_decide (name = [])) && negb (bool_decide (name = dot)) && negb (bool_decide (name = dotdot))
  && forallb (fun c => negb (c =? slash)) name.

Section Opening.
(** What is on the disk when the n-th call is made; the calls that fail of themselves, and
    with what error; the inodes of / and of the current directory. *)
Context (disk : nat -> gmap nat inode) (denied : nat -> option Z) (root cwd : nat).
Abbreviation P := (prog process).

Definition call : P nat := fun w => Ret (calls w) (Process (fds w) (S (calls w))).

Definition descriptor (ino : nat) : P result := fun w =>
  let fd := fresh (dom (fds w)) in Ret (inr fd) (Process (<[fd := ino]> (fds w)) (calls w)).

Definition close (fd : nat) : P unit := fun w =>
  match fds w !! fd with
  | Some _ => Ret tt (Process (delete fd (fds w)) (calls w))
  | None => Fault
  end.

(** With O_NOFOLLOW, and [dir] for O_DIRECTORY.  Any other name would be resolved further by
    the kernel. *)
Definition openat (dir : bool) (dfd : nat) (name : bytes) : P result := fun w =>
  match fds w !! dfd with
  | Some ino =>
      if component name then
        (let! c := call in
         match denied c with
         | Some e => ret (inl e)
         | None =>
             match disk c !! ino with
             | Some (Directory entries) =>
                 match entries !! name with
                 | None => ret (inl ENOENT)
                 | Some j =>
                     match disk c !! j with
                     | Some (Directory _) => descriptor j
                     | Some Other => if dir then ret (inl ENOTDIR) else descriptor j
                     | Some Link => ret (inl ELOOP)
                     | None => ret (inl ENOENT)
                     end
                 end
             | _ => ret (inl ENOENT)
             end
         end) w
      else Fault
  | None => Fault
  end.

(** Its effect is on the disk of the calls that follow. *)
Definition mkdirat (dfd : nat) (name : bytes) : P (option Z) := fun w =>
  match fds w !! dfd with
  | Some _ => if component name then (let! c := call in ret (denied c)) w else Fault
  | None => Fault
  end.

(** [open] of "/" or ".". *)
Definition open_root (ino : nat) : P result :=
  let! c := call in
  match denied c with
  | Some e => ret (inl e)
  | None => match disk c !! ino with Some (Directory _) => descriptor ino | _ => ret (inl ENOTDIR) end
  end.

(** ** The functions *)

Definition ngx_autocert_split_root (path : bytes) : P (result * bytes) :=
  match path with
  | 47 :: rest => let! dfd := open_root root in ret (dfd, rest)
  | _ => let! dfd := open_root cwd in ret (dfd, path)
  end.

(** Up to the next slash, and from it on. *)
Fixpoint to_slash (p : bytes) : bytes * bytes :=
  match p with
  | [] => ([], [])
  | c :: r => if c =? slash then ([], p) else let (name, q) := to_slash r in (c :: name, q)
  end.

Definition beyond (q : bytes) : bytes := match q with [] => [] | _ :: r => r end.

(** One component, opened and made when it is missing and asked for. *)
Definition descend (create : bool) (dfd : nat) (name : bytes) : P result :=
  let! nfd := openat true dfd name in
  match nfd with
  | inl e =>
      if create && (e =? ENOENT) then
        let! made := mkdirat dfd name in
        match made with
        | Some e => if negb (e =? EEXIST) then ret (inl e) else openat true dfd name
        | None => openat true dfd name
        end
      else ret (inl e)
  | inr fd => ret (inr fd)
  end.

Fixpoint walk (fuel : nat) (create : bool) (dfd : nat) (p : bytes) : P result :=
  match p with
  | [] => ret (inr dfd)
  | _ =>
      match fuel with
      | O => nofuel
      | S fuel =>
          let (name, q) := to_slash p in
          if bool_decide (name = []) || bool_decide (name = dot) then walk fuel create dfd (beyond q)
          else if bool_decide (name = dotdot) || (NGX_MAX_PATH <=? length name)%nat then
            close dfd;;
            ret (inl (if (NGX_MAX_PATH <=? length name)%nat then ENAMETOOLONG else EINVAL))
          else
            let! nfd := descend create dfd name in
            match nfd with
            | inl e => close dfd;; ret (inl e)
            | inr nfd => close dfd;; walk fuel create nfd (beyond q)
            end
      end
  end.

Definition ngx_autocert_open_dir_path (path : bytes) (create : bool) : P result :=
  match path with
  | [] => ret (inl EINVAL)
  | _ =>
      let! (dfd, p) := ngx_autocert_split_root path in
      match dfd with
      | inl e => ret (inl e)
      | inr dfd => walk (length p) create dfd p
      end
  end.

Definition fold_sep (c : Z) : Z := if c =? 92 then slash else c.

Definition ngx_autocert_normalize_seps (path : bytes) (norm_cap : nat) : option bytes :=
  if (norm_cap <=? length path)%nat then None else Some (map fold_sep path).

(** Where the last slash is. *)
Fixpoint last_slash (p : bytes) : option nat :=
  match p with
  | [] => None
  | c :: r => match last_slash r with
              | Some n => Some (S n)
              | None => if c =? slash then Some 0%nat else None
              end
  end.

Definition open_leaf (dfd : result) (leaf : bytes) : P result :=
  if bool_decide (leaf = []) || bool_decide (leaf = dot) || bool_decide (leaf = dotdot) then
    match dfd with
    | inr dfd => close dfd;; ret (inl EINVAL)
    | inl _ => ret (inl EINVAL)
    end
  else
    match dfd with
    | inl e => ret (inl e)
    | inr dfd =>
        let! fd := openat false dfd leaf in
        close dfd;;
        ret fd
    end.

Definition ngx_autocert_open_file_path (path : bytes) : P result :=
  match path with
  | [] => ret (inl EINVAL)
  | _ =>
      match ngx_autocert_normalize_seps path NGX_MAX_PATH with
      | None => ret (inl ENAMETOOLONG)
      | Some norm =>
          match last_slash norm with
          | None =>
              let! dfd := ngx_autocert_open_dir_path dot false in
              open_leaf dfd norm
          | Some O =>
              let! dfd := ngx_autocert_open_dir_path [slash] false in
              open_leaf dfd (drop 1 norm)
          | Some len =>
              if (NGX_MAX_PATH <=? len)%nat then ret (inl ENAMETOOLONG)
              else
                let! dfd := ngx_autocert_open_dir_path (take len norm) false in
                open_leaf dfd (drop (S len) norm)
          end
      end
  end.

(** The directory of the account key (ngx_autocert_account.c): no folding, and no name is
    refused; the last name is left to the caller. *)
Fixpoint walk_keydir (fuel : nat) (dfd : nat) (p : bytes) : P (result * bytes) :=
  match to_slash p with
  | (_, []) => ret (inr dfd, p)
  | (name, _ :: rest) =>
      match fuel with
      | O => nofuel
      | S fuel =>
          if bool_decide (name = []) then walk_keydir fuel dfd rest
          else
            let! nfd := openat true dfd name in
            close dfd;;
            match nfd with
            | inl e => ret (inl e, [])
            | inr nfd => walk_keydir fuel nfd rest
            end
      end
  end.

Definition ngx_autocert_account_open_keydir (path : bytes) : P (result * bytes) :=
  let! (dfd, p) := ngx_autocert_split_root path in
  match dfd with
  | inl e => ret (inl e, [])
  | inr dfd => walk_keydir (length p) dfd p
  end.

(** ** What a path means *)

Fixpoint split_path (p : bytes) : list bytes :=
  match p with
  | [] => [[]]
  | c :: r =>
      if c =? slash then [] :: split_path r
      else match split_path r with
           | name :: names => (c :: name) :: names
           | [] => [[c]]
           end
  end.

(** The names of a path; empty ones and dots say nothing. *)
Definition names (p : bytes) : list bytes := filter (fun n => n <> [] /\ n <> dot) (split_path p).

Definition start (path : bytes) : nat := match path with 47 :: _ => root | _ => cwd end.

(** At the [t]-th call, [name] is in the directory [i], for the inode [j]. *)
Definition entry (t i : nat) (name : bytes) (j : nat) : Prop :=
  exists entries, disk t !! i = Some (Directory entries) /\ entries !! name = Some j.

Definition is_directory (t j : nat) : Prop := exists entries, disk t !! j = Some (Directory entries).

(** [names] lead from [i] to [j] through directories and nothing but directories, each seen
    in the one before it by a call of its own, between the [c]-th and the [c']-th. *)
Inductive pinned : nat -> nat -> nat -> list bytes -> nat -> Prop :=
  | pinned_nil c c' i : (c <= c')%nat -> pinned c c' i [] i
  | pinned_cons c c' t i name j ns k :
      (c <= t < c')%nat -> entry t i name j -> is_directory t j -> pinned (S t) c' j ns k -> pinned c c' i (name :: ns) k.
End Opening.

(** ** Names *)

Lemma to_slash_spec p :
  p = (to_slash p).1 ++ (to_slash p).2 /\ forallb (fun c => negb (c =? slash)) (to_slash p).1 = true
  /\ ((to_slash p).2 = [] \/ (to_slash p).2 = slash :: beyond (to_slash p).2).
Proof.
  induction p as [|c r (E & Hn & Hq)]; cbn; [by repeat split; left|]. destruct (Z.eqb_spec c slash) as [->|Hc]; [by repeat split; right|].
  destruct (to_slash r) as [name q]. cbn in *. split; [by f_equal|]. split; [|done]. rewrite Hn, (proj2 (Z.eqb_neq _ _) Hc). done.
Qed.

Lemma length_beyond p : p <> [] -> (length (beyond (to_slash p).2) < length p)%nat.
Proof.
  intros Hp. destruct (to_slash_spec p) as (E & _ & [Hq|Hq]); rewrite Hq.
  - destruct p; cbn; [done|lia].
  - apply (f_equal length) in E. rewrite length_app, Hq in E. cbn in *. lia.
Qed.

Lemma split_path_cons p :
  split_path p = (to_slash p).1 :: match (to_slash p).2 with [] => [] | _ :: r => split_path r end.
Proof.
  induction p as [|c r IH]; cbn; [done|]. destruct (c =? slash); [done|]. rewrite IH. by destruct (to_slash r) as [name [|]].
Qed.

Lemma names_cons p :
  names p = (if bool_decide ((to_slash p).1 = []) || bool_decide ((to_slash p).1 = dot) then [] else [(to_slash p).1]) ++ names (beyond (to_slash p).2).
Proof.
  unfold names. rewrite split_path_cons. destruct (to_slash p) as [name q]. cbn [fst snd].
  assert (E : filter (fun n => n <> [] /\ n <> dot) match q with [] => [] | _ :: r => split_path r end
              = filter (fun n => n <> [] /\ n <> dot) (split_path (beyond q))) by (destruct q; [|done]; reflexivity).
  rewrite <- E. case_bool_decide as H1; cbn [orb]; [rewrite filter_cons_False by naive_solver; done|].
  case_bool_decide as H2; [rewrite filter_cons_False by naive_solver; done|]. by rewrite filter_cons_True.
Qed.

(** What the checks of a component leave is one. *)
Lemma component_intro name :
  forallb (fun c => negb (c =? slash)) name = true -> bool_decide (name = []) || bool_decide (name = dot) = false -> bool_decide (name = dotdot) = false ->
  component name = true.
Proof. unfold component. intros -> [-> ->]%orb_false_iff ->. done. Qed.

(** ** Rules *)

Lemma pinned_time disk c c' i ns j : pinned disk c c' i ns j -> (c <= c')%nat.
Proof. induction 1; lia. Qed.

Lemma pinned_early disk c0 c c' i ns j : pinned disk c c' i ns j -> (c0 <= c)%nat -> pinned disk c0 c' i ns j.
Proof. intros Hp Hc. destruct Hp; [constructor; lia|]. eapply (pinned_cons _ _ _ t); [lia|done..]. Qed.

(** On a disk that does not change the times do not matter. *)
Lemma pinned_quiet disk d c c' i ns j : (forall t, disk t = d) -> pinned disk c c' i ns j -> pinned disk 0 (length ns) i ns j.
Proof.
  intros Hd Hp. assert (G : forall n, pinned disk n (n + length ns) i ns j); [|apply (G 0%nat)].
  induction Hp as [|c c' t i name j ns k Ht (es & He & Hn) (es' & Hj) _ IH]; intros n; cbn [length]; [constructor; lia|].
  rewrite Hd in He, Hj. apply (pinned_cons _ _ _ n _ _ j); [lia|exists es; by rewrite Hd|exists es'; by rewrite Hd|].
  replace (n + S (length ns))%nat with (S n + length ns)%nat by lia. apply IH.
Qed.

Section Rules.
Context (disk : nat -> gmap nat inode) (denied : nat -> option Z) (root cwd : nat).
Implicit Types (F : gmap nat nat) (c : nat).
Abbreviation entry := (entry disk).
Abbreviation is_directory := (is_directory disk).
Abbreviation pinned := (pinned disk).

Lemma wp_opened ino F c (Q : result -> process -> Prop) X :
  (forall fd, F !! fd = None -> Q (inr fd) (Process (<[fd := ino]> F) c)) -> wp (descriptor ino) (Process F c) Q X.
Proof. intros HQ. apply HQ. apply not_elem_of_dom, is_fresh. Qed.

Lemma wp_close_fd fd ino F c (Q : unit -> process -> Prop) X : F !! fd = Some ino -> Q tt (Process (delete fd F) c) -> wp (close fd) (Process F c) Q X.
Proof. intros Hf HQ. unfold wp, close. cbn. by rewrite Hf. Qed.

Lemma wp_openat dir dfd ino name F c (Q : result -> process -> Prop) X :
  F !! dfd = Some ino -> component name = true ->
  (forall e, Q (inl e) (Process F (S c))) ->
  (forall fd j, F !! fd = None -> entry c ino name j -> disk c !! j <> Some Link -> (dir = true -> is_directory c j) ->
     Q (inr fd) (Process (<[fd := j]> F) (S c))) ->
  wp (openat disk denied dir dfd name) (Process F c) Q X.
Proof.
  intros Hf Hn HE HS. unfold wp, openat. cbn [fds]. rewrite Hf, Hn. unfold bind, call. cbn [calls fds]. destruct (denied c) as [e|]; [apply HE|].
  destruct (disk c !! ino) as [[es| |]|] eqn:Ei; try apply HE. destruct (es !! name) as [j|] eqn:Ej; [|apply HE].
  assert (Hj : entry c ino name j) by (by exists es). destruct (disk c !! j) as [[es'| |]|] eqn:Ed; try apply HE; [|destruct dir; [apply HE|]].
  - apply wp_opened. intros fd Hfd. apply (HS fd j); [done|done|by rewrite Ed|]. intros _. by exists es'.
  - apply wp_opened. intros fd Hfd. apply (HS fd j); [done|done|by rewrite Ed|done].
Qed.

Lemma wp_mkdirat dfd ino name F c (Q : option Z -> process -> Prop) X :
  F !! dfd = Some ino -> component name = true -> (forall r, Q r (Process F (S c))) -> wp (mkdirat denied dfd name) (Process F c) Q X.
Proof. intros Hf Hn HQ. unfold wp, mkdirat. cbn [fds]. rewrite Hf, Hn. apply HQ. Qed.

Lemma wp_open_root ino F c (Q : result -> process -> Prop) X :
  (forall e, Q (inl e) (Process F (S c))) -> (forall fd, F !! fd = None -> Q (inr fd) (Process (<[fd := ino]> F) (S c))) ->
  wp (open_root disk denied ino) (Process F c) Q X.
Proof.
  intros HE HS. unfold open_root. apply wp_bind. unfold wp at 1, call. cbn. destruct (denied c); [apply HE|].
  destruct (disk c !! ino) as [[es| |]|]; try apply HE. by apply wp_opened.
Qed.

Lemma wp_descend create dfd ino name F c (Q : result -> process -> Prop) X :
  F !! dfd = Some ino -> component name = true ->
  (forall e c', Q (inl e) (Process F c')) ->
  (forall fd j t, F !! fd = None -> (c <= t)%nat -> entry t ino name j -> is_directory t j -> Q (inr fd) (Process (<[fd := j]> F) (S t))) ->
  wp (descend disk denied create dfd name) (Process F c) Q X.
Proof.
  intros Hf Hn HE HS. unfold descend. apply wp_bind, (wp_openat _ _ ino); [done..| |].
  - intros e. destruct (create && (e =? ENOENT)); [|apply HE]. apply wp_bind, (wp_mkdirat _ ino); [done..|].
    assert (Hretry : wp (openat disk denied true dfd name) (Process F (S (S c))) Q X).
    { apply (wp_openat _ _ ino); [done..|intros; apply HE|]. intros fd j Hfd He _ Hd. apply HS; [done|lia|done|by apply Hd]. }
    intros [e'|]; [destruct (negb _); [apply HE|]|]; exact Hretry.
  - intros fd j Hfd He _ Hd. apply HS; [done|lia|done|by apply Hd].
Qed.

(** ** The walk *)

Lemma wp_walk fuel create p dfd i F c (Q : result -> process -> Prop) :
  F !! dfd = None -> (length p <= fuel)%nat ->
  (forall e c', Q (inl e) (Process F c')) ->
  (forall fd j c', F !! fd = None -> pinned c c' i (names p) j -> dotdot ∉ names p -> Q (inr fd) (Process (<[fd := j]> F) c')) ->
  wp (walk disk denied fuel create dfd p) (Process (<[dfd := i]> F) c) Q (fun _ => False).
Proof.
  revert p dfd i c Q. induction fuel as [|fuel IH]; intros p dfd i c Q Hd Hl HE HS; destruct p as [|x r] eqn:Ep; cbn [walk length] in *;
    try (apply wp_ret, HS; [done|by constructor|apply not_elem_of_nil]); [lia|]. rewrite <- Ep in *.
  pose proof (length_beyond p ltac:(by rewrite Ep)) as Hb. pose proof (to_slash_spec p) as (_ & Hns & _). pose proof (names_cons p) as En.
  destruct (to_slash p) as [name q]. cbn [fst snd] in *.
  assert (Hlb : (length (beyond q) <= fuel)%nat) by (rewrite Ep in Hb; cbn in Hb; lia).
  destruct (bool_decide (name = []) || bool_decide (name = dot)) eqn:Eskip; [apply IH; [done..|by rewrite En in HS]|].
  destruct (bool_decide (name = dotdot)) eqn:Edd; cbn [orb].
  - apply wp_bind, (wp_close_fd _ i); [by rewrite lookup_insert_eq|]. rewrite delete_insert_id by done. apply wp_ret, HE.
  - destruct (NGX_MAX_PATH <=? length name)%nat eqn:Elen.
    + apply wp_bind, (wp_close_fd _ i); [by rewrite lookup_insert_eq|]. rewrite delete_insert_id by done. apply wp_ret, HE.
    + apply wp_bind, (wp_descend _ _ i); [by rewrite lookup_insert_eq|by apply component_intro| |].
      * intros e c'. apply wp_bind, (wp_close_fd _ i); [by rewrite lookup_insert_eq|]. rewrite delete_insert_id by done. apply wp_ret, HE.
      * intros nfd j t Hnfd Ht He Hj. apply lookup_insert_None in Hnfd as [Hnfd Hne]. apply wp_bind, (wp_close_fd _ i); [rewrite lookup_insert_ne by done; by rewrite lookup_insert_eq|].
        rewrite delete_insert_ne, delete_insert_id by done. apply IH; [done..|]. intros fd k c' Hfd Hp Hnd. apply HS; [done| |].
        -- rewrite En. cbn [app]. assert (Hc : (S t <= c')%nat) by (by eapply pinned_time). eapply (pinned_cons _ _ _ t); [lia|done..].
        -- rewrite En. cbn [app]. intros [H|H]%elem_of_cons; [by rewrite bool_decide_true in Edd|done].
Qed.

Lemma wp_walk_keydir fuel p dfd i F c (Q : result * bytes -> process -> Prop) :
  F !! dfd = None -> (length p <= fuel)%nat -> Forall (fun n => n <> dot /\ n <> dotdot) (split_path p) ->
  (forall e c', Q (inl e, []) (Process F c')) ->
  (forall fd j c' dirs leaf, F !! fd = None -> split_path p = dirs ++ [leaf] -> pinned c c' i (filter (fun n => n <> []) dirs) j ->
     Q (inr fd, leaf) (Process (<[fd := j]> F) c')) ->
  wp (walk_keydir disk denied fuel dfd p) (Process (<[dfd := i]> F) c) Q (fun _ => False).
Proof.
  revert p dfd i c Q. induction fuel as [|fuel IH]; intros p dfd i c Q Hd Hl Hdots HE HS; pose proof (split_path_cons p) as Es; pose proof (to_slash_spec p) as (Ep & Hns & _);
    cbn [walk_keydir]; destruct (to_slash p) as [name [|x rest]]; cbn [fst snd] in *.
  1, 3: rewrite app_nil_r in Ep; subst name; apply wp_ret, (HS _ _ _ []); [done|done|constructor; lia].
  { subst p. rewrite length_app in Hl. cbn in Hl. lia. }
  assert (Hlr : (length rest <= fuel)%nat) by (subst p; rewrite length_app in Hl; cbn in Hl; lia).
  rewrite Es in Hdots. apply Forall_cons in Hdots as [[Hdot Hdd] Hdots]. case_bool_decide as Hne.
  - apply IH; [done..|]. intros fd j c' dirs leaf Hfd Er Hp. apply (HS _ _ _ (name :: dirs)); [done|by rewrite Es, Er|]. by rewrite filter_cons_False by naive_solver.
  - apply wp_bind, (wp_openat _ _ i); [by rewrite lookup_insert_eq|apply component_intro; [done|by rewrite !bool_decide_false|by rewrite bool_decide_false]| |].
    + intros e. apply wp_bind, (wp_close_fd _ i); [by rewrite lookup_insert_eq|]. rewrite delete_insert_id by done. apply wp_ret, HE.
    + intros nfd j Hnfd He _ Hj. apply lookup_insert_None in Hnfd as [Hnfd Hne']. apply wp_bind, (wp_close_fd _ i); [rewrite lookup_insert_ne by done; by rewrite lookup_insert_eq|].
      rewrite delete_insert_ne, delete_insert_id by done. apply IH; [done..|]. intros fd k c' dirs leaf Hfd Er Hp.
      apply (HS _ _ _ (name :: dirs)); [done|by rewrite Es, Er|]. rewrite filter_cons_True by done. pose proof (pinned_time _ _ _ _ _ _ Hp). apply (pinned_cons _ _ _ c _ _ j); [lia|done|by apply Hj|done].
Qed.
End Rules.

(** ** What they promise *)

Definition to_fd (r : result) : option nat := match r with inr fd => Some fd | inl _ => None end.

Lemma no_slash_split p : forallb (fun c => negb (c =? slash)) p = true -> split_path p = [p].
Proof.
  induction p as [|c r IH]; [done|]. cbn. intros [Hc Hr]%andb_true_iff. apply negb_true_iff in Hc. rewrite Hc. by rewrite IH.
Qed.

Lemma split_path_nonempty p : split_path p <> [].
Proof. destruct p as [|c r]; cbn; [done|]. destruct (c =? slash); [done|]. by destruct (split_path r). Qed.

Lemma last_slash_spec p :
  match last_slash p with
  | None => forallb (fun c => negb (c =? slash)) p = true
  | Some n => forallb (fun c => negb (c =? slash)) (drop (S n) p) = true /\ split_path p = split_path (take n p) ++ [drop (S n) p]
  end.
Proof.
  induction p as [|c r IH]; cbn [last_slash]; [done|]. destruct (last_slash r) as [n|].
  - destruct IH as [Hn E]. split; [done|]. cbn. rewrite E. destruct (c =? slash); [done|].
    pose proof (split_path_nonempty (take n r)). by destruct (split_path (take n r)).
  - cbn. destruct (Z.eqb_spec c slash) as [->|Hc]; cbn; [|by rewrite IH]. split; [done|]. by rewrite no_slash_split.
Qed.

Section Promises.
Context (disk : nat -> gmap nat inode) (denied : nat -> option Z) (root cwd : nat).
Implicit Types (F : gmap nat nat).

Lemma names_slash r : names (slash :: r) = names r.
Proof. by rewrite names_cons. Qed.

Lemma wp_split_root path F c (Q : result * bytes -> process -> Prop) X :
  (forall e rest c', Q (inl e, rest) (Process F c')) ->
  (forall fd rest, F !! fd = None -> path = rest \/ path = slash :: rest -> Q (inr fd, rest) (Process (<[fd := start root cwd path]> F) (S c))) ->
  wp (ngx_autocert_split_root disk denied root cwd path) (Process F c) Q X.
Proof.
  intros HE HS. unfold ngx_autocert_split_root.
  assert (G : forall ino rest, ino = start root cwd path -> path = rest \/ path = slash :: rest ->
    wp (let! dfd := open_root disk denied ino in ret (dfd, rest)) (Process F c) Q X).
  { intros ino rest -> Hr. apply wp_bind, wp_open_root; [intros e; apply wp_ret, HE|]. intros fd Hfd. by apply wp_ret, HS. }
  destruct path as [|x r]; [by apply G; [|left]|].
  repeat (match goal with |- context [match ?y with _ => _ end] => destruct y end; try (apply G; [reflexivity|by left])). apply G; [reflexivity|by right].
Qed.

Lemma wp_open_dir_path path create F c (Q : result -> process -> Prop) :
  (forall e c', Q (inl e) (Process F c')) ->
  (forall fd j c', F !! fd = None -> (c <= c')%nat -> pinned disk c c' (start root cwd path) (names path) j -> dotdot ∉ names path ->
     Q (inr fd) (Process (<[fd := j]> F) c')) ->
  wp (ngx_autocert_open_dir_path disk denied root cwd path create) (Process F c) Q (fun _ => False).
Proof.
  intros HE HS. unfold ngx_autocert_open_dir_path. destruct path as [|x r]; [apply wp_ret, HE|].
  apply wp_bind, wp_split_root; [intros e rest c'; apply wp_ret, HE|]. intros fd rest Hfd Hr'.
  assert (Hr : names rest = names (x :: r)) by (by destruct Hr' as [<-|Hx]; [|rewrite Hx, names_slash]). apply wp_walk; [done|lia|done|]. intros fd' j c' Hfd' Hp Hd. rewrite Hr in *. pose proof (pinned_time _ _ _ _ _ _ Hp).
  apply HS; [done|lia| |done]. eapply pinned_early; [exact Hp|lia].
Qed.

Lemma wp_open_leaf dfd leaf i F0 F c (Q : result -> process -> Prop) :
  forallb (fun x => negb (x =? slash)) leaf = true ->
  match dfd with inr fd => F0 !! fd = None /\ F = <[fd := i]> F0 | inl _ => F = F0 end ->
  (forall e c', Q (inl e) (Process F0 c')) ->
  (forall fd j, F0 !! fd = None -> component leaf = true -> entry disk c i leaf j -> disk c !! j <> Some Link -> is_Some (to_fd dfd) ->
     Q (inr fd) (Process (<[fd := j]> F0) (S c))) ->
  wp (open_leaf disk denied dfd leaf) (Process F c) Q (fun _ => False).
Proof.
  intros Hns HF HE HS. unfold open_leaf. destruct (_ || _) eqn:Ebad.
  - destruct dfd as [e|fd]; [subst F; apply wp_ret, HE|]. destruct HF as [Hfd ->].
    apply wp_bind, (wp_close_fd _ i); [by rewrite lookup_insert_eq|]. rewrite delete_insert_id by done. apply wp_ret, HE.
  - destruct dfd as [e|fd]; [subst F; apply wp_ret, HE|]. destruct HF as [Hfd ->]. apply orb_false_iff in Ebad as [E1 E2].
    assert (Hn : component leaf = true) by (by apply component_intro).
    apply wp_bind, (wp_openat _ _ _ _ i); [by rewrite lookup_insert_eq|done| |].
    + intros e. apply wp_bind, (wp_close_fd _ i); [by rewrite lookup_insert_eq|]. rewrite delete_insert_id by done. apply wp_ret, HE.
    + intros nfd j Hnfd He Hl _. apply lookup_insert_None in Hnfd as [Hnfd Hne].
      apply wp_bind, (wp_close_fd _ i); [rewrite lookup_insert_ne by done; by rewrite lookup_insert_eq|].
      rewrite delete_insert_ne, delete_insert_id by done. apply wp_ret, HS; done.
Qed.

Lemma names_snoc p leaf : component leaf = true -> filter (fun n => n <> [] /\ n <> dot) (split_path p ++ [leaf]) = names p ++ [leaf].
Proof.
  intros Hc. unfold names. rewrite filter_app. f_equal. rewrite filter_cons_True; [done|]. by split; intros ->.
Qed.

Lemma start_slash p : start root cwd (slash :: p) = root.
Proof. done. Qed.

Lemma start_take n p : (0 < n)%nat -> start root cwd (take n p) = start root cwd p.
Proof. intros Hn. destruct n, p; [lia|lia|done|done]. Qed.

Lemma start_no_slash p : forallb (fun c => negb (c =? slash)) p = true -> start root cwd p = cwd.
Proof.
  destruct p as [|x r]; [done|]. cbn [forallb]. intros [Hx _]%andb_true_iff. unfold start, slash in *.
  repeat (match goal with |- context [match ?y with _ => _ end] => destruct y end; try done).
Qed.

Lemma wp_open_file path F c (Q : result -> process -> Prop) :
  (forall e c', Q (inl e) (Process F c')) ->
  (forall fd j t ns leaf i, F !! fd = None -> (c <= t)%nat -> names (map fold_sep path) = ns ++ [leaf] -> component leaf = true -> dotdot ∉ ns ->
     pinned disk c t (start root cwd (map fold_sep path)) ns i -> entry disk t i leaf j -> disk t !! j <> Some Link ->
     Q (inr fd) (Process (<[fd := j]> F) (S t))) ->
  wp (ngx_autocert_open_file_path disk denied root cwd path) (Process F c) Q (fun _ => False).
Proof.
  intros HE HS. unfold ngx_autocert_open_file_path, ngx_autocert_normalize_seps. destruct path as [|x r]; [apply wp_ret, HE|].
  destruct (NGX_MAX_PATH <=? _)%nat; [apply wp_ret, HE|]. set (norm := map fold_sep (x :: r)) in *. clearbody norm.
  assert (G : forall dir leaf, forallb (fun x => negb (x =? slash)) leaf = true -> start root cwd dir = start root cwd norm ->
    (component leaf = true -> names norm = names dir ++ [leaf]) ->
    wp (let! dfd := ngx_autocert_open_dir_path disk denied root cwd dir false in open_leaf disk denied dfd leaf) (Process F c) Q (fun _ => False)).
  { intros dir leaf Hns Hst Hnm. apply wp_bind, wp_open_dir_path; [intros e c'; apply (wp_open_leaf (inl e) leaf 0%nat F); [done|done|done|]; intros fd j _ _ _ _ H; by destruct H|].
    intros fd i c' Hfd Hc Hp Hd. apply (wp_open_leaf _ _ i F); [done|done|done|]. intros fd' j Hfd' Hl He Hn _.
    apply (HS _ _ _ (names dir) leaf i); [done|done|by apply Hnm|done|done|by rewrite <- Hst|done|done]. }
  pose proof (last_slash_spec norm) as Hls. destruct (last_slash norm) as [[|n]|] eqn:El.
  - destruct Hls as [Hns E]. apply G; [done| |].
    + destruct norm as [|y l]; [done|]. cbn in El. destruct (last_slash l); [done|]. by destruct (Z.eqb_spec y slash) as [->|].
    + intros Hc. rewrite <- names_snoc by done. unfold names. rewrite E. done.
  - destruct Hls as [Hns E]. destruct (NGX_MAX_PATH <=? S n)%nat; [apply wp_ret, HE|]. apply G; [done|by apply start_take; lia|].
    intros Hc. unfold names at 1. rewrite E. by apply names_snoc.
  - apply G; [done|by rewrite (start_no_slash norm)|]. intros Hc. rewrite <- names_snoc by done. unfold names. rewrite no_slash_split by done. done.
Qed.

(** A quiet disk: nothing changes and no call fails of itself. *)
Lemma walk_opens fuel create p dfd i j F c d :
  (forall t, disk t = d) -> (forall t, denied t = None) -> F !! dfd = None -> (length p <= fuel)%nat ->
  pinned disk 0 (length (names p)) i (names p) j -> dotdot ∉ names p -> Forall (fun n => (length n < NGX_MAX_PATH)%nat) (names p) ->
  exists fd c', walk disk denied fuel create dfd p (Process (<[dfd := i]> F) c) = Ret (inr fd) (Process (<[fd := j]> F) c').
Proof.
  intros Hdisk Hden. revert p dfd i c. induction fuel as [|fuel IH]; intros p dfd i c Hd Hl Hp Hdd Hlen; destruct p as [|x r] eqn:Ep; cbn [walk length] in *;
    try (exists dfd, c; by inversion Hp); [lia|]. rewrite <- Ep in *.
  pose proof (length_beyond p ltac:(by rewrite Ep)) as Hb. pose proof (to_slash_spec p) as (_ & Hns & _). pose proof (names_cons p) as En.
  destruct (to_slash p) as [name q]. cbn [fst snd] in *.
  assert (Hlb : (length (beyond q) <= fuel)%nat) by (rewrite Ep in Hb; cbn in Hb; lia).
  destruct (bool_decide (name = []) || bool_decide (name = dot)) eqn:Eskip; [rewrite En in Hp, Hdd, Hlen; by apply IH|].
  rewrite En in Hp, Hdd, Hlen. cbn [app length] in Hp, Hdd, Hlen. apply not_elem_of_cons in Hdd as [Hname Hdd]. apply Forall_cons in Hlen as [Hnl Hlen].
  rewrite (bool_decide_false (name = dotdot)) by done. rewrite (proj2 (Nat.leb_gt _ _)) by done. cbn [orb].
  inversion Hp as [|? ? t ? ? k ? ? Ht (es & He1 & He2) (es' & Hk) Hrest]; subst. rewrite Hdisk in He1, Hk.
  assert (Hcomp : component name = true) by (apply component_intro; [done|done|by apply bool_decide_false]).
  unfold bind at 1, descend, bind at 1, openat. cbn [fds]. rewrite lookup_insert_eq, Hcomp. unfold bind at 1, call. cbn [calls fds].
  rewrite Hden, Hdisk, He1, He2, Hk. unfold descriptor. cbn [fds calls]. set (nfd := fresh (dom (<[dfd:=i]> F))).
  assert (Hn : <[dfd:=i]> F !! nfd = None) by (apply not_elem_of_dom, is_fresh). apply lookup_insert_None in Hn as [Hn Hne].
  unfold ret at 1, bind at 1, close. cbn [fds calls]. rewrite lookup_insert_ne by done. rewrite lookup_insert_eq. rewrite delete_insert_ne, delete_insert_id by done.
  apply IH; [done|done| |done|done]. eapply pinned_quiet; [done|exact Hrest].
Qed.

(** However the disk changes between the calls, a directory is opened by its own names
    and by nothing else: each name of the path was, when it was opened, an entry of the
    directory that the names before it led to, and itself a directory, never a symbolic link
    nor one of the two dots; no other descriptor is left open, and none where the walk
    fails. *)
Theorem open_dir_path_pinned (path : bytes) (create : bool) (w : process) :
  exists r w', ngx_autocert_open_dir_path disk denied root cwd path create w = Ret r w'
  /\ match r with
     | inr fd => exists j, fds w !! fd = None /\ fds w' = <[fd := j]> (fds w) /\ dotdot ∉ names path
                 /\ pinned disk (calls w) (calls w') (start root cwd path) (names path) j
     | inl _ => fds w' = fds w
     end.
Proof.
  destruct w as [F c]. pose proof (wp_open_dir_path path create F c (fun r w' => match r with
     | inr fd => exists j, F !! fd = None /\ fds w' = <[fd := j]> F /\ dotdot ∉ names path /\ pinned disk c (calls w') (start root cwd path) (names path) j
     | inl _ => fds w' = F end)) as W.
  unfold wp in W. destruct (ngx_autocert_open_dir_path _ _ _ _ _ _ _) as [r w'| | |]; [exists r, w'; split; [done|]|exfalso..]; apply W;
    try (by intros e c'); intros fd j c' Hfd Hc Hp Hd; by exists j.
Qed.

(** C26. A file is opened the same way, by the names of its path once every backslash in it is
    read as a slash ([backslash_directory] is where that makes a difference): below a directory
    opened by all of them but the last, and not through a symbolic link, by the last. *)
Theorem open_file_path_pinned (path : bytes) (w : process) :
  exists r w', ngx_autocert_open_file_path disk denied root cwd path w = Ret r w'
  /\ match r with
     | inr fd => exists ns leaf i j t, names (map fold_sep path) = ns ++ [leaf]
                 /\ pinned disk (calls w) t (start root cwd (map fold_sep path)) ns i /\ dotdot ∉ ns
                 /\ component leaf = true /\ entry disk t i leaf j /\ disk t !! j <> Some Link
                 /\ fds w !! fd = None /\ fds w' = <[fd := j]> (fds w)
     | inl _ => fds w' = fds w
     end.
Proof.
  destruct w as [F c]. pose proof (wp_open_file path F c (fun r w' => match r with
     | inr fd => exists ns leaf i j t, names (map fold_sep path) = ns ++ [leaf] /\ pinned disk c t (start root cwd (map fold_sep path)) ns i /\ dotdot ∉ ns
                 /\ component leaf = true /\ entry disk t i leaf j /\ disk t !! j <> Some Link /\ F !! fd = None /\ fds w' = <[fd := j]> F
     | inl _ => fds w' = F end)) as W.
  unfold wp in W. destruct (ngx_autocert_open_file_path _ _ _ _ _ _) as [r w'| | |]; [exists r, w'; split; [done|]|exfalso..]; apply W;
    try (by intros e c'); intros fd j t ns leaf i; intros; by exists ns, leaf, i, j, t.
Qed.

(** The directory of the account key is found in the same way, if its path has no dots: the
    name left to the caller is the last one, and nothing else stays open. *)
Theorem open_keydir_pinned (path : bytes) (w : process) : Forall (fun n => n <> dot /\ n <> dotdot) (split_path path) ->
  exists r w', ngx_autocert_account_open_keydir disk denied root cwd path w = Ret r w'
  /\ match r with
     | (inr fd, leaf) =>
         exists dirs i, split_path path = dirs ++ [leaf] /\ pinned disk (calls w) (calls w') (start root cwd path) (filter (fun n => n <> []) dirs) i
         /\ fds w !! fd = None /\ fds w' = <[fd := i]> (fds w)
     | (inl _, _) => fds w' = fds w
     end.
Proof.
  intros Hdots. destruct w as [F c]. set (Q := fun (r : result * bytes) (w' : process) => match r with
     | (inr fd, leaf) =>
         exists dirs i, split_path path = dirs ++ [leaf] /\ pinned disk c (calls w') (start root cwd path) (filter (fun n => n <> []) dirs) i
         /\ F !! fd = None /\ fds w' = <[fd := i]> F
     | (inl _, _) => fds w' = F
     end).
  assert (W : wp (ngx_autocert_account_open_keydir disk denied root cwd path) (Process F c) Q (fun _ => False)).
  { unfold ngx_autocert_account_open_keydir. apply wp_bind, wp_split_root; [done|]. intros fd rest Hfd Hr.
    assert (Hs : exists ds, split_path path = ds ++ split_path rest /\ filter (fun n => n <> []) ds = []) by (destruct Hr as [->| ->]; [by exists []|by exists [[]]]).
    destruct Hs as (ds & Es & Ef). apply wp_walk_keydir; [done|lia|rewrite Es in Hdots; by apply Forall_app in Hdots as [_ ?]|done|].
    intros fd' j c' dirs leaf Hfd' Er Hp. exists (ds ++ dirs), j. split; [by rewrite Es, Er, app_assoc|].
    split; [|done]. rewrite filter_app, Ef. eapply pinned_early; [exact Hp|lia]. }
  unfold wp in W. destruct (ngx_autocert_account_open_keydir _ _ _ _ _ _) as [r w'| | |]; [by exists r, w'|done..].
Qed.

(** And it is opened when nothing is in the way. *)
Theorem open_dir_path_opens (d : gmap nat inode) (path : bytes) (create : bool) (j : nat) (w : process) :
  (forall t, disk t = d) -> (forall t, denied t = None) -> path <> [] ->
  is_directory disk 0 (start root cwd path) -> pinned disk 0 (length (names path)) (start root cwd path) (names path) j ->
  dotdot ∉ names path -> Forall (fun n => (length n < NGX_MAX_PATH)%nat) (names path) ->
  exists fd w', ngx_autocert_open_dir_path disk denied root cwd path create w = Ret (inr fd) w' /\ fds w' = <[fd := j]> (fds w).
Proof.
  intros Hdisk Hden Hne (es & Hroot) Hp Hdd Hlen. destruct w as [F c]. unfold ngx_autocert_open_dir_path. destruct path as [|x r] eqn:Ep; [done|]. rewrite <- Ep in *.
  assert (Hsr : exists fd rest, ngx_autocert_split_root disk denied root cwd path (Process F c)
    = Ret (inr fd, rest) (Process (<[fd := start root cwd path]> F) (S c)) /\ F !! fd = None /\ names rest = names path).
  { assert (G : forall ino rest, ino = start root cwd path -> names rest = names path -> exists fd rest',
      (let! dfd := open_root disk denied ino in ret (dfd, rest)) (Process F c) = Ret (inr fd, rest') (Process (<[fd := start root cwd path]> F) (S c))
      /\ F !! fd = None /\ names rest' = names path).
    { intros ino rest -> Hr. exists (fresh (dom F)), rest. split; [|split; [apply not_elem_of_dom, is_fresh|done]].
      unfold bind, open_root, bind, call. cbn. rewrite Hden, (Hdisk c), <- (Hdisk 0%nat), Hroot. done. }
    clear Hp Hdd Hlen Hroot. unfold ngx_autocert_split_root. subst path.
    repeat (match goal with |- context [match ?y with _ => _ end] => destruct y end; try (apply G; reflexivity)). }
  destruct Hsr as (fd & rest & E & Hfd & Hr). unfold bind at 1. rewrite E. cbn iota. rewrite <- Hr in Hp, Hdd, Hlen.
  destruct (walk_opens (length rest) create rest fd _ j F (S c) d Hdisk Hden Hfd (le_n _) Hp Hdd Hlen) as (fd' & c' & E'). rewrite E'. by eexists _, _.
Qed.
End Promises.

(** ** Runs *)

(** / has a directory named by the bytes of a\b, with a file c in it, and a link. *)
Definition disk_ex : gmap nat inode :=
  {[ 1%nat := Directory {[ str "a\b" := 2%nat; str "ln" := 4%nat ]};
     2%nat := Directory {[ str "c" := 3%nat ]};
     3%nat := Other;
     4%nat := Link ]}.

Definition never (t : nat) : option Z := None.

Lemma open_dir_path_opens_witness :
  exists fd w', ngx_autocert_open_dir_path (fun _ => disk_ex) never 1 1 (str "/./a\b/") false (Process ∅ 0) = Ret (inr fd) w'
  /\ fds w' = <[fd := 2%nat]> ∅.
Proof.
  apply (open_dir_path_opens (fun _ => disk_ex) never 1 1 disk_ex (str "/./a\b/") false 2 (Process ∅ 0)); [done|done|done| | | |].
  - by eexists.
  - vm_compute. eapply (pinned_cons _ 0 1 0 1 _ 2); [lia|by eexists|by eexists|]. by constructor.
  - by vm_compute; intros [[=]|?%elem_of_nil]%elem_of_cons.
  - vm_compute. repeat constructor.
Defined.

(** A link is not followed, wherever it is in the path. *)
Example link_refused :
  (exists w, ngx_autocert_open_dir_path (fun _ => disk_ex) never 1 1 (str "/ln/x") true (Process ∅ 0) = Ret (inl ELOOP) w /\ fds w = ∅)
  /\ exists w, ngx_autocert_open_file_path (fun _ => disk_ex) never 1 1 (str "/ln") (Process ∅ 0) = Ret (inl ELOOP) w /\ fds w = ∅.
Proof. split; eexists; (split; [by vm_compute|by vm_compute]). Qed.

(** The two do not agree on a backslash: the directory of that name is opened, a file in it
    is looked for in another. *)
Example backslash_directory :
  (exists w, ngx_autocert_open_dir_path (fun _ => disk_ex) never 1 1 (str "/a\b") false (Process ∅ 0) = Ret (inr 1%nat) w)
  /\ exists w, ngx_autocert_open_file_path (fun _ => disk_ex) never 1 1 (str "/a\b/c") (Process ∅ 0) = Ret (inl ENOENT) w.
Proof. split; eexists; vm_compute; reflexivity. Qed.
