(* ===== verification/Win32.v ===== *)
(** * Decisions of the Windows port (ngx_autocert_shared.h)

    The parts of it that call nothing of Windows: what a path is rooted at, the command line
    of a hook, the name of the driver's mutex, and what the access list of a file says. *)

From S2P Require Import Prelude NgxCore SafeOpen.

Local Open Scope Z_scope.
Local Open Scope prog_scope.

Definition backslash : Z := 92.
Definition colon : Z := 58.
Definition quote : Z := 34.
Definition space : Z := 32.

(** ** Paths *)

Definition ngx_autocert_win32_is_alpha (c : Z) : bool := ((65 <=? c) && (c <=? 90)) || ((97 <=? c) && (c <=? 122)).

Definition is_sep (c : Z) : bool := (c =? slash) || (c =? backslash).

Fixpoint to_sep (p : bytes) : bytes * bytes :=
  match p with
  | [] => ([], [])
  | c :: r => if is_sep c then ([], p) else let (name, q) := to_sep r in (c :: name, q)
  end.

(** The Windows arm. *)
Definition ngx_autocert_dns_hook_path_is_absolute (path : bytes) : bool :=
  if match path with
     | c :: d :: e :: _ => ngx_autocert_win32_is_alpha c && (d =? colon) && is_sep e
     | _ => false
     end
  then true
  else if (length path <? 5)%nat then false
  else
    match path with
    | c :: d :: r =>
        if negb (is_sep c) || negb (is_sep d) then false
        else
          match to_sep r with
          | ([], _) => false
          | (_, []) => false
          | (_, _ :: r) => negb (length (to_sep r).1 =? 0)%nat
          end
    | _ => false
    end.

(** A call of ngx_snprintf whose format ends in %Z. *)
Definition ngx_snprintf_z (cap : nat) (s : bytes) : bytes := take cap (s ++ [0]).

(** Of the text written to [root], with its NUL, and the rest of the path. *)
Definition ngx_autocert_win32_classify_root (path : bytes) (norm_cap root_cap : nat) : option (bytes * bytes) :=
  match ngx_autocert_normalize_seps path norm_cap with
  | None => None
  | Some norm =>
      if match norm with c :: d :: _ => ngx_autocert_win32_is_alpha c && (d =? colon) | _ => false end then
        match norm with
        | c :: _ :: 47 :: rest =>
            if (root_cap <? 8)%nat then None
            else Some (ngx_snprintf_z root_cap (str "\??\" ++ [c] ++ str ":\"), rest)
        | _ => None
        end
      else if match norm with c :: d :: _ => (c =? slash) && (d =? slash) | _ => false end then
        let server := drop 2 norm in
        match ngx_strlchr server slash with
        | None => None
        | Some server_len =>
            if (server_len =? 0)%nat then None
            else
              let after := drop (S server_len) server in
              let share_len := default (length after) (ngx_strlchr after slash) in
              if (share_len =? 0)%nat then None
              else if (root_cap <=? server_len + share_len + 10)%nat then None
              else Some (ngx_snprintf_z root_cap (str "\??\UNC\" ++ take server_len server ++ str "\" ++ take share_len after),
                         if (share_len =? length after)%nat then [] else drop (S share_len) after)
        end
      else
        match norm with
        | 47 :: _ => None
        | _ => if (root_cap <? 2)%nat then None else Some ([46; 0], norm)
        end
  end.

(** ** The command line of a hook *)

Section Quote.
Context (out_cap : nat).
(** [out] up to [off]. *)
Abbreviation P := (prog bytes).

Definition put (c : Z) : P unit := fun out => if (out_cap <=? length out)%nat then Err out else Ret tt (out ++ [c]).

Fixpoint puts (n : nat) (cs : list Z) : P unit :=
  match n with
  | O => ret tt
  | S n => fold_right (fun c k => put c;; k) (ret tt) cs;; puts n cs
  end.

Fixpoint quote_loop (arg : bytes) (backslashes : nat) : P nat :=
  match arg with
  | [] => ret backslashes
  | c :: arg =>
      if c =? backslash then quote_loop arg (S backslashes)
      else if c =? quote then
        puts backslashes [backslash; backslash];;
        put backslash;;
        put quote;;
        quote_loop arg 0
      else
        puts backslashes [backslash];;
        put c;;
        quote_loop arg 0
  end.

(** The NUL is written beyond the offset returned. *)
Definition ngx_autocert_win32_quote_arg (arg : bytes) : P unit := fun out =>
  if (out_cap <? length out + 1 + 1 + length arg * 2 + 1 + 1)%nat then Err out
  else
    (put space;;
     put quote;;
     let! backslashes := quote_loop arg 0 in
     puts backslashes [backslash; backslash];;
     put quote;;
     fun out => if (length out <? out_cap)%nat then Ret tt out else Fault) out.

(** One after the other, as [ngx_autocert_dns_hook_spawn_win32] does. *)
Fixpoint command_line (argv : list bytes) : P unit :=
  match argv with
  | [] => ret tt
  | arg :: argv => ngx_autocert_win32_quote_arg arg;; command_line argv
  end.
End Quote.

(** ** The mutex *)

Definition fnv1a (path : bytes) : Z := fold_left (fun hash c => u32 (Z.lxor hash c * 16777619)) path 2166136261.

Definition hexdigit (n : Z) : Z := nth (Z.to_nat n) (str "0123456789abcdef") 0.

Definition singleton_prefix : bytes := str "Global\ngx_autocert_singleton_".

Definition ngx_autocert_win32_singleton_name (path : bytes) (out_cap : nat) : option bytes :=
  let hash := fnv1a path in
  if (out_cap <? length singleton_prefix + 8 + 1)%nat then None
  else Some (singleton_prefix ++ map (fun i => hexdigit (Z.land (Z.shiftr hash (28 - 4 * Z.of_nat i)) 15)) (seq 0 8) ++ [0]).

Definition ngx_autocert_win32_mutex_wait_verdict (wait_rc : Z) : Z :=
  if wait_rc =? 0 then NGX_OK
  else if wait_rc =? 0x80 then NGX_OK
  else if wait_rc =? 0x102 then NGX_AGAIN
  else NGX_ERROR.

(** ** Who may touch a file *)

Definition NGX_AUTOCERT_WIN32_WRITE_MASK : Z := 0x500D0156.

Definition ngx_autocert_win32_mask_is_write (mask : Z) : bool := negb (Z.land mask NGX_AUTOCERT_WIN32_WRITE_MASK =? 0).

Definition S_IRWXG : Z := 0x38.
Definition S_IRWXO : Z := 0x7.
Definition S_IRGRP : Z := 0x20.
Definition S_IROTH : Z := 0x4.
Definition S_IWGRP : Z := 0x10.
Definition S_IWOTH : Z := 0x2.

(** An entry of an access list. *)
Record ace := Ace { is_owner : bool; is_allow : bool; is_tolerated : bool; is_write : bool }.

Fixpoint dacl_loop (aces : list ace) (bits : Z) : Z :=
  match aces with
  | [] => bits
  | a :: aces =>
      if negb (is_allow a) then dacl_loop aces bits
      else if is_owner a || is_tolerated a then dacl_loop aces bits
      else if is_write a then Z.lor S_IRWXG S_IRWXO
      else dacl_loop aces (Z.lor S_IRGRP S_IROTH)
  end.

Definition ngx_autocert_win32_dacl_mode (aces : list ace) : Z :=
  if (length aces =? 0)%nat then Z.lor S_IRWXG S_IRWXO else dacl_loop aces 0.

(** [st]: the mode and the owner, unless fstat fails. *)
Definition ngx_autocert_check_owner_mode (st : option (Z * Z)) (euid : Z) (secret : bool) : Z :=
  match st with
  | None => NGX_ERROR
  | Some (st_mode, st_uid) =>
      let bad := if secret then Z.lor S_IRWXG S_IRWXO else Z.lor S_IWGRP S_IWOTH in
      if negb (Z.land st_mode bad =? 0) then NGX_ERROR
      else if negb (st_uid =? euid) then NGX_ERROR
      else NGX_OK
  end.

(** ** What the other side makes of it *)

(** The rules by which a process takes its command line apart, after the name of the
    program: white space ends an argument outside quotes; a quote opens or closes quotes,
    and two in a row inside quotes stand for one; backslashes mean themselves unless a
    quote follows, when two stand for one and an odd one makes the quote mean itself. *)
Fixpoint rest_args (s : bytes) (quoted : bool) (pending : nat) (cur : option bytes) : list bytes :=
  let with_ n tail := Some (default [] cur ++ repeat backslash n ++ tail) in
  match s with
  | [] => match cur, pending with
          | None, O => []
          | _, _ => [default [] (with_ pending [])]
          end
  | c :: r =>
      if c =? backslash then rest_args r quoted (S pending) cur
      else if c =? quote then
        if Nat.even pending then
          match quoted, r with
          | true, 34 :: r => rest_args r true 0 (with_ (pending / 2)%nat [quote])
          | _, _ => rest_args r (negb quoted) 0 (with_ (pending / 2)%nat [])
          end
        else rest_args r quoted 0 (with_ (pending / 2)%nat [quote])
      else if ((c =? space) || (c =? 9)) && negb quoted then
        match cur, pending with
        | None, O => rest_args r false 0 None
        | _, _ => default [] (with_ pending []) :: rest_args r false 0 None
        end
      else rest_args r quoted 0 (with_ pending [c])
  end.

(** The name of the program: up to the closing quote, or up to white space, of which there
    is none before it. *)
Fixpoint program_name (s : bytes) (quoted : bool) : bytes * bytes :=
  match s with
  | [] => ([], [])
  | c :: r =>
      if c =? quote then program_name r (negb quoted)
      else if ((c =? space) || (c =? 9)) && negb quoted then ([], r)
      else let (name, q) := program_name r quoted in (c :: name, q)
  end.

Definition split_command_line (s : bytes) : list bytes :=
  let (name, r) := program_name s false in name :: rest_args r false 0 None.

(** ** Quoting *)

Fixpoint escaped (arg : bytes) (pending : nat) : bytes :=
  match arg with
  | [] => repeat backslash (2 * pending)
  | c :: r =>
      if c =? backslash then escaped r (S pending)
      else if c =? quote then repeat backslash (2 * pending) ++ [backslash; quote] ++ escaped r 0
      else repeat backslash pending ++ [c] ++ escaped r 0
  end.

Definition quoted_arg (arg : bytes) : bytes := [space; quote] ++ escaped arg 0 ++ [quote].

Lemma length_escaped arg n : (length (escaped arg n) <= 2 * (n + length arg))%nat.
Proof.
  revert n. induction arg as [|c r IH]; intros n; cbn [escaped length]; [rewrite repeat_length; lia|].
  destruct (c =? backslash); [specialize (IH (S n)); lia|]. specialize (IH 0%nat).
  destruct (c =? quote); rewrite !length_app, repeat_length; cbn; lia.
Qed.

Section QuoteRules.
Context (cap : nat).

Lemma wp_put c out (Q : unit -> bytes -> Prop) X : (length out < cap)%nat -> Q tt (out ++ [c]) -> wp (put cap c) out Q X.
Proof. intros Hl HQ. unfold wp, put. by rewrite (proj2 (Nat.leb_gt _ _)). Qed.

Lemma wp_puts1 n c out (Q : unit -> bytes -> Prop) X :
  (length out + n <= cap)%nat -> Q tt (out ++ repeat c n) -> wp (puts cap n [c]) out Q X.
Proof.
  revert out. induction n as [|n IH]; intros out Hl HQ; cbn [puts fold_right]; [apply wp_ret; by rewrite app_nil_r in HQ|].
  apply wp_bind, wp_bind, wp_put; [lia|]. apply wp_ret, IH; [rewrite length_app; cbn; lia|]. by rewrite <- app_assoc.
Qed.

Lemma wp_puts2 n c out (Q : unit -> bytes -> Prop) X :
  (length out + 2 * n <= cap)%nat -> Q tt (out ++ repeat c (2 * n)) -> wp (puts cap n [c; c]) out Q X.
Proof.
  revert out. induction n as [|n IH]; intros out Hl HQ; cbn [puts fold_right]; [apply wp_ret; by rewrite app_nil_r in HQ|].
  apply wp_bind, wp_bind, wp_put; [lia|]. apply wp_bind, wp_put; [rewrite length_app; cbn; lia|].
  apply wp_ret, IH; [rewrite !length_app; cbn; lia|]. replace (2 * S n)%nat with (S (S (2 * n))) in HQ by lia. by rewrite <- !app_assoc.
Qed.

Lemma wp_quote_loop arg n out (Q : nat -> bytes -> Prop) X :
  (length out + 2 * (n + length arg) <= cap)%nat ->
  (forall m out', out' ++ repeat backslash (2 * m) = out ++ escaped arg n -> Q m out') ->
  wp (quote_loop cap arg n) out Q X.
Proof.
  revert n out. induction arg as [|c r IH]; intros n out Hl HQ; cbn [quote_loop escaped length] in *; [by apply wp_ret, HQ|].
  destruct (c =? backslash) eqn:Eb; [apply IH; [lia|done]|]. destruct (c =? quote) eqn:Eq.
  - apply wp_bind, wp_puts2; [lia|]. apply wp_bind, wp_put; [rewrite length_app, repeat_length; lia|].
    apply wp_bind, wp_put; [rewrite !length_app, repeat_length; cbn; lia|]. apply IH; [rewrite !length_app, repeat_length; cbn; lia|].
    intros m out' E. apply HQ. rewrite E. by rewrite <- !app_assoc.
  - apply wp_bind, wp_puts1; [lia|]. apply wp_bind, wp_put; [rewrite length_app, repeat_length; lia|]. apply IH; [rewrite !length_app, repeat_length; cbn; lia|].
    intros m out' E. apply HQ. rewrite E. by rewrite <- !app_assoc.
Qed.

(** Either there is room for the worst case, or nothing is written. *)
Lemma wp_quote_arg arg out (Q : unit -> bytes -> Prop) (X : bytes -> Prop) :
  ((cap < length out + 4 + 2 * length arg)%nat -> X out) ->
  ((length out + 4 + 2 * length arg <= cap)%nat -> Q tt (out ++ quoted_arg arg)) ->
  wp (ngx_autocert_win32_quote_arg cap arg) out Q X.
Proof.
  intros HX HQ. unfold ngx_autocert_win32_quote_arg, wp. destruct (Nat.ltb_spec cap (length out + 1 + 1 + length arg * 2 + 1 + 1)) as [Hlt|Hle]; [apply HX; lia|].
  specialize (HQ ltac:(lia)). apply wp_bind, wp_put; [lia|]. apply wp_bind, wp_put; [rewrite length_app; cbn; lia|].
  apply wp_bind, wp_quote_loop; [rewrite !length_app; cbn; lia|]. intros m out' E.
  assert (El : (length out' + 2 * m <= length out + 2 + 2 * length arg)%nat).
  { pose proof (length_escaped arg 0). apply (f_equal length) in E. rewrite !length_app, repeat_length in E. cbn in E, H. lia. }
  apply wp_bind, wp_puts2; [lia|]. apply wp_bind, wp_put; [rewrite length_app, repeat_length; lia|].
  unfold wp. rewrite (proj2 (Nat.ltb_lt _ _)) by (rewrite !length_app, repeat_length; cbn; lia). rewrite E. unfold quoted_arg in HQ. by rewrite <- !app_assoc in *.
Qed.

Lemma wp_command_line argv out (Q : unit -> bytes -> Prop) (X : bytes -> Prop) :
  (forall out', X out') -> Q tt (out ++ concat (map quoted_arg argv)) -> wp (command_line cap argv) out Q X.
Proof.
  intros HX. revert out. induction argv as [|arg argv IH]; intros out HQ; cbn [command_line map concat] in *; [apply wp_ret; by rewrite app_nil_r in HQ|].
  apply wp_bind, wp_quote_arg; [intros _; apply HX|]. intros _. apply IH. by rewrite <- app_assoc.
Qed.
End QuoteRules.

(** ** The round trip *)

Lemma rest_args_backslashes k s quoted p cur : rest_args (repeat backslash k ++ s) quoted p cur = rest_args s quoted (p + k) cur.
Proof.
  revert p. induction k as [|k IH]; intros p; cbn [repeat app]; [by rewrite Nat.add_0_r|]. cbn [rest_args]. rewrite Z.eqb_refl, IH. f_equal. lia.
Qed.

(** Not a quote next. *)
Definition ends_arg (tail : bytes) : Prop := match tail with 34 :: _ => False | _ => True end.

Lemma rest_args_close n tail cur :
  ends_arg tail -> rest_args (quote :: tail) true (2 * n) (Some cur) = rest_args tail false 0 (Some (cur ++ repeat backslash n)).
Proof.
  intros Ht. cbn [rest_args]. change (quote =? backslash) with false. change (quote =? quote) with true. cbv iota.
  rewrite (proj2 (Nat.even_spec _)) by (by exists n). rewrite (Nat.mul_comm 2 n), Nat.div_mul by done. cbn [default]. rewrite app_nil_r.
  unfold ends_arg in Ht. destruct tail as [|y l]; [done|].
  repeat (match goal with |- context [match ?z with _ => _ end] => is_var z; destruct z end; try done).
Qed.

Lemma rest_args_escaped arg n tail cur :
  ends_arg tail -> rest_args (escaped arg n ++ quote :: tail) true 0 (Some cur) = rest_args tail false 0 (Some (cur ++ repeat backslash n ++ arg)).
Proof.
  intros Ht. revert n cur. induction arg as [|c r IH]; intros n cur; cbn [escaped].
  - rewrite rest_args_backslashes, Nat.add_0_l, rest_args_close by done. by rewrite app_nil_r.
  - destruct (Z.eqb_spec c backslash) as [->|Hb]; [rewrite IH; do 2 f_equal; cbn [repeat]; rewrite (repeat_cons n backslash); by rewrite <- app_assoc|].
    destruct (Z.eqb_spec c quote) as [->|Hq].
    + rewrite <- !app_assoc, rest_args_backslashes, Nat.add_0_l. cbn [app rest_args]. rewrite Z.eqb_refl. change (quote =? backslash) with false. rewrite Z.eqb_refl. cbv iota.
      rewrite Nat.even_succ, <- Nat.negb_even, (proj2 (Nat.even_spec _)) by (by exists n). cbn [negb default].
      replace (S (2 * n) / 2)%nat with n by (rewrite <- Nat.add_1_r, Nat.mul_comm, Nat.div_add_l; [cbn; lia|done]).
      rewrite IH. do 2 f_equal. by rewrite <- !app_assoc.
    + rewrite <- !app_assoc, rest_args_backslashes, Nat.add_0_l. cbn [app rest_args]. rewrite (proj2 (Z.eqb_neq _ _) Hb), (proj2 (Z.eqb_neq _ _) Hq).
      rewrite andb_false_r. cbn [default]. rewrite IH. do 2 f_equal. by rewrite <- !app_assoc.
Qed.

Lemma ends_concat argv : ends_arg (concat (map quoted_arg argv)).
Proof. by destruct argv. Qed.

Lemma rest_args_quoted arg argv :
  rest_args (concat (map quoted_arg argv)) false 0 (Some arg) = arg :: argv.
Proof.
  revert arg. induction argv as [|a argv IH]; intros arg; cbn [map concat]; [cbn; by rewrite app_nil_r|].
  unfold quoted_arg at 1. rewrite <- !app_assoc. cbn [app rest_args]. change (space =? backslash) with false. change (space =? quote) with false.
  change (space =? space) with true. cbn [orb andb negb default repeat app]. rewrite !app_nil_r.
  change (quote =? backslash) with false. change (quote =? quote) with true. cbn [Nat.even negb].
  change (0 / 2)%nat with 0%nat. cbn [repeat app default].
  rewrite rest_args_escaped by apply ends_concat. cbn [repeat app]. by rewrite IH.
Qed.

(** A hook is run with the arguments it is meant to have, whatever is in them: the
    command line that is built for them is taken apart into them again, behind the name of
    the program, which is empty because the line begins with a space; it fits its buffer
    with its NUL, and there is one whenever the worst case fits. *)
Theorem command_line_splits (cap : nat) (arg : bytes) (argv : list bytes) :
  match command_line cap (arg :: argv) [] with
  | Ret _ out => split_command_line out = [] :: arg :: argv /\ (length out < cap)%nat
  | Err _ => (cap < sum_list_with (fun a => 4 + 2 * length a) (arg :: argv))%nat
  | _ => False
  end.
Proof.
  assert (G : forall argv out, (length out < cap)%nat \/ argv <> [] -> wp (command_line cap argv) out
    (fun _ out' => out' = out ++ concat (map quoted_arg argv) /\ (length out' < cap)%nat)
    (fun _ => (cap < length out + sum_list_with (fun a => 4 + 2 * length a) argv)%nat)).
  { clear. induction argv as [|a argv IH]; intros out Hl; cbn [command_line map concat sum_list_with]; [apply wp_ret; rewrite app_nil_r; by destruct Hl|].
    pose proof (length_escaped a 0) as He. apply wp_bind, wp_quote_arg; [intros ?; cbn; lia|]. intros Hroom.
    assert (Hq : (length (out ++ quoted_arg a) <= length out + 3 + 2 * length a)%nat) by (unfold quoted_arg; rewrite !length_app; cbn in *; lia).
    eapply wp_mono; [apply IH; left; lia| |].
    - intros _ out' [E Hlt]. split; [by rewrite E, <- app_assoc|done].
    - cbn beta. lia. }
  specialize (G (arg :: argv) [] ltac:(by right)). unfold wp in G. destruct (command_line cap (arg :: argv) []) as [[] out|out| |]; [|exact G|done..].
  destruct G as [-> Hl]. split; [|done]. cbn [app] in *. cbn [map concat]. unfold quoted_arg at 1. rewrite <- !app_assoc. cbn [app].
  unfold split_command_line. cbn [program_name]. change (space =? quote) with false. change (space =? space) with true. cbn [orb andb negb].
  cbn [rest_args]. change (quote =? backslash) with false. change (quote =? quote) with true. cbn [Nat.even negb].
  change (0 / 2)%nat with 0%nat. cbn [repeat app default]. rewrite rest_args_escaped by apply ends_concat. cbn [repeat app]. by rewrite rest_args_quoted.
Qed.

(** ** Roots *)

(** The three forms of a path that are accepted, with the root of each in the name space of
    the kernel; never relative to a current drive or to the directory of a drive. *)
Inductive root_of : bytes -> bytes -> bytes -> Prop :=
  | drive_root c rest :
      ngx_autocert_win32_is_alpha c = true -> root_of (c :: colon :: slash :: rest) (str "\??\" ++ [c] ++ str ":\") rest
  | share_root server share tail rest :
      server <> [] -> slash ∉ server -> share <> [] -> slash ∉ share -> tail = [] /\ rest = [] \/ tail = slash :: rest ->
      root_of (slash :: slash :: server ++ slash :: share ++ tail) (str "\??\UNC\" ++ server ++ str "\" ++ share) rest
  | relative_root p :
      head p <> Some slash -> ~ (exists c r, p = c :: colon :: r /\ ngx_autocert_win32_is_alpha c = true) -> root_of p dot p.

Lemma strlchr_app a b c : c ∉ a -> ngx_strlchr (a ++ c :: b) c = Some (length a).
Proof. intros Ha. apply strlchr_Some. by exists a, b. Qed.

Lemma snprintf_whole cap s : (length s < cap)%nat -> ngx_snprintf_z cap s = s ++ [0].
Proof. intros Hl. unfold ngx_snprintf_z. apply take_ge. rewrite length_app. cbn. lia. Qed.

Lemma pair_Some_inj {A B} (a c : A) (b d : B) : Some (a, b) = Some (c, d) -> c = a /\ d = b.
Proof. by intros [= -> ->]. Qed.

Lemma slash_not_alpha : ngx_autocert_win32_is_alpha slash = false.
Proof. reflexivity. Qed.

(** The part of a path behind two slashes. *)
Lemma share_cases u n share_len after :
  ngx_strlchr u slash = Some n -> n <> 0%nat -> after = drop (S n) u -> share_len = default (length after) (ngx_strlchr after slash) -> share_len <> 0%nat ->
  exists tail, u = take n u ++ slash :: take share_len after ++ tail /\ length (take n u) = n /\ length (take share_len after) = share_len
  /\ slash ∉ take n u /\ slash ∉ take share_len after
  /\ (tail = [] /\ (if (share_len =? length after)%nat then [] else drop (S share_len) after) = []
      \/ tail = slash :: (if (share_len =? length after)%nat then [] else drop (S share_len) after)).
Proof.
  intros (a & b & -> & <- & Ha)%strlchr_Some Hn -> -> Hs. rewrite take_app_length. replace (drop (S (length a)) (a ++ slash :: b)) with b in *
    by (change (slash :: b) with ([slash] ++ b); rewrite app_assoc; replace (S (length a)) with (length (a ++ [slash])) by (rewrite length_app; cbn; lia); by rewrite drop_app_length).
  destruct (ngx_strlchr b slash) as [m|] eqn:Eb; cbn [default] in *; unfold id in *.
  - apply strlchr_Some in Eb as (a' & b' & -> & <- & Ha'). rewrite take_app_length. exists (slash :: b'). split; [done|]. split; [done|]. split; [done|]. split; [done|].
    split; [done|]. right. rewrite (proj2 (Nat.eqb_neq _ _)) by (rewrite length_app; cbn; lia). f_equal.
    change (slash :: b') with ([slash] ++ b'). rewrite app_assoc. replace (S (length a')) with (length (a' ++ [slash])) by (rewrite length_app; cbn; lia). by rewrite drop_app_length.
  - apply strlchr_None in Eb. rewrite firstn_all, Nat.eqb_refl. exists []. rewrite app_nil_r. repeat (split; [done|]). by left.
Qed.

(** The classifier knows exactly these forms, and never cuts a root short. *)
Theorem classify_root_iff (path : bytes) (norm_cap root_cap : nat) (r rest : bytes) :
  (9 <= root_cap)%nat ->
  ngx_autocert_win32_classify_root path norm_cap root_cap = Some (r, rest) <->
  exists root, r = root ++ [0] /\ (length path < norm_cap)%nat /\ (length root + 1 < root_cap)%nat /\ root_of (map fold_sep path) root rest.
Proof.
  intros Hcap. unfold ngx_autocert_win32_classify_root, ngx_autocert_normalize_seps. destruct (Nat.leb_spec norm_cap (length path)) as [Hl|Hl].
  { split; [done|]. intros (root & _ & Hl' & _). lia. }
  set (norm := map fold_sep path). clearbody norm. split.
  - destruct (match norm with c :: d :: _ => _ | _ => _ end) eqn:Edrive.
    + destruct norm as [|c [|d l]]; [done|done|]. apply andb_true_iff in Edrive as [Hc ->%Z.eqb_eq].
      repeat (match goal with |- context [match ?z with _ => _ end] => is_var z; destruct z; try done end).
      rewrite (proj2 (Nat.ltb_ge _ _)) by lia. intros [-> ->]%pair_Some_inj. eexists. split; [apply snprintf_whole; cbn; lia|].
      split; [done|]. split; [cbn; lia|]. by apply drive_root.
    + destruct (match norm with c :: d :: _ => (c =? slash) && _ | _ => _ end) eqn:Eshare.
      * destruct norm as [|c [|d u]]; [done|done|]. apply andb_true_iff in Eshare as [->%Z.eqb_eq ->%Z.eqb_eq]. change (drop 2 (slash :: slash :: u)) with u. cbv zeta.
        destruct (ngx_strlchr u slash) as [n|] eqn:En; [|done]. destruct (Nat.eqb_spec n 0) as [|Hn]; [done|]. cbv zeta.
        destruct (Nat.eqb_spec (default (length (drop (S n) u)) (ngx_strlchr (drop (S n) u) slash)) 0) as [|Hs]; [done|].
        destruct (Nat.leb_spec root_cap (n + default (length (drop (S n) u)) (ngx_strlchr (drop (S n) u) slash) + 10)) as [|Hr]; [done|].
        destruct (share_cases u n _ _ En Hn eq_refl eq_refl Hs) as (tail & Eu & L1 & L2 & S1 & S2 & Ht). intros [-> ->]%pair_Some_inj.
        eexists. split; [apply snprintf_whole; rewrite !length_app, L1, L2; cbn; lia|]. split; [done|]. split; [rewrite !length_app, L1, L2; cbn; lia|].
        rewrite Eu at 1. apply share_root; [by intros E0; rewrite E0 in L1|done|by intros E0; rewrite E0 in L2|done|exact Ht].
      * intros H. assert (Hrel : head norm <> Some slash /\ Some (r, rest) = Some ([46; 0], norm)).
        { destruct norm as [|c l]; [split; [done|]; by rewrite (proj2 (Nat.ltb_ge _ _)) in H by lia|]. unfold slash. cbn [head].
          destruct (Z.eqb_spec c 47) as [->|Hc]; [done|]. split; [congruence|]. rewrite <- H.
          repeat (match goal with |- context [match ?z with _ => _ end] => is_var z; destruct z; try done end);
          by rewrite (proj2 (Nat.ltb_ge _ _)) by lia. }
        destruct Hrel as [Hh [= -> ->]]. exists dot. split; [done|]. split; [done|]. split; [cbn; lia|]. apply relative_root; [done|].
        intros (c & l & -> & Hc). by rewrite Hc in Edrive.
  - intros (root & -> & _ & Hroot & Hof). destruct Hof as [c l Hc|server share tail l H1 H2 H3 H4 Ht|p H1 H2].
    + rewrite Hc. cbn [andb]. change (colon =? colon) with true. cbv iota. change slash with 47. cbv iota. rewrite (proj2 (Nat.ltb_ge _ _)) by lia.
      by rewrite snprintf_whole by lia.
    + rewrite slash_not_alpha. cbn [andb]. change (slash =? slash) with true. cbn [andb].
      change (drop 2 (slash :: slash :: server ++ slash :: share ++ tail)) with (server ++ slash :: share ++ tail). cbv zeta. rewrite strlchr_app by done.
      rewrite (proj2 (Nat.eqb_neq _ _)) by (by destruct server).
      assert (Ed : drop (S (length server)) (server ++ slash :: share ++ tail) = share ++ tail).
      { change (slash :: share ++ tail) with ([slash] ++ (share ++ tail)). rewrite app_assoc.
        replace (S (length server)) with (length (server ++ [slash])) by (rewrite length_app; cbn; lia). apply drop_app_length. }
      rewrite Ed, take_app_length. rewrite !length_app in Hroot. cbn in Hroot.
      destruct Ht as [[-> ->]| ->].
      * rewrite app_nil_r. rewrite (proj2 (strlchr_None _ _)) by done. cbn [default]. rewrite (proj2 (Nat.eqb_neq _ _)) by (by destruct share).
        rewrite (proj2 (Nat.leb_gt _ _)) by lia. rewrite firstn_all, Nat.eqb_refl. rewrite snprintf_whole by (rewrite !length_app; cbn; lia). done.
      * rewrite strlchr_app by done. cbn [default]. unfold id. rewrite (proj2 (Nat.eqb_neq _ _)) by (by destruct share).
        rewrite (proj2 (Nat.leb_gt _ _)) by lia. rewrite take_app_length, (proj2 (Nat.eqb_neq _ _)) by (rewrite length_app; cbn; lia).
        rewrite snprintf_whole by (rewrite !length_app; cbn; lia). do 2 f_equal.
        change (slash :: l) with ([slash] ++ l). rewrite app_assoc. replace (S (length share)) with (length (share ++ [slash])) by (rewrite length_app; cbn; lia).
        apply drop_app_length.
    + assert (E1 : match p with c :: d :: _ => ngx_autocert_win32_is_alpha c && (d =? colon) | _ => false end = false).
      { destruct p as [|c [|d l]]; [done|done|]. destruct (ngx_autocert_win32_is_alpha c) eqn:Ec; [|done]. destruct (Z.eqb_spec d colon) as [->|]; [|done].
        exfalso. apply H2. by exists c, l. }
      assert (E2 : match p with c :: d :: _ => (c =? slash) && (d =? slash) | _ => false end = false).
      { destruct p as [|c [|d l]]; [done|done|]. cbn in H1. destruct (Z.eqb_spec c slash) as [->|]; [done|done]. }
      rewrite E1, E2, (proj2 (Nat.ltb_ge _ _)) by lia. destruct p as [|c l]; [done|]. cbn [head] in H1. unfold slash in H1.
      repeat (match goal with |- context [match ?z with _ => _ end] => is_var z; destruct z; try done end).
Qed.

(** ** Files *)

(** Somebody else is let in by an entry. *)
Definition foreign (a : ace) : bool := is_allow a && negb (is_owner a) && negb (is_tolerated a).

Lemma dacl_loop_spec aces bits :
  dacl_loop aces bits = if existsb (fun a => foreign a && is_write a) aces then 0x3f
                        else if existsb foreign aces then 0x24 else bits.
Proof.
  revert bits. induction aces as [|a aces IH]; intros bits; cbn [dacl_loop existsb]; [done|].
  destruct a as [[] [] [] []]; cbn [foreign is_owner is_allow is_tolerated is_write negb andb orb]; rewrite ?IH; try done;
    by destruct (existsb (fun a => foreign a && is_write a) aces), (existsb foreign aces).
Qed.

(** A file is taken for a private key's, or for the store's, exactly when it is ours and
    no entry lets anybody else read it, or write it, as the case may be; a list without
    entries proves nothing and is refused. *)
Theorem check_owner_dacl_iff (aces : list ace) (euid uid owner_bits : Z) (secret : bool) :
  Z.land owner_bits 0x3f = 0 ->
  ngx_autocert_check_owner_mode (Some (Z.lor owner_bits (ngx_autocert_win32_dacl_mode aces), uid)) euid secret = NGX_OK <->
  uid = euid /\ aces <> [] /\ forall a, In a aces -> foreign a = true -> secret = false /\ is_write a = false.
Proof.
  intros Hown. unfold ngx_autocert_check_owner_mode, ngx_autocert_win32_dacl_mode. rewrite dacl_loop_spec.
  assert (Hland : forall g bad, 0 <= bad -> Z.land 0x3f bad = bad -> Z.land (Z.lor owner_bits g) bad = Z.land g bad).
  { intros g bad _ Hb. rewrite Z.land_lor_distr_l. replace (Z.land owner_bits bad) with 0; [apply Z.lor_0_l|].
    rewrite <- Hb, Z.land_assoc, Hown. done. }
  assert (Hbad : forall g, Z.land (Z.lor owner_bits g) (if secret then Z.lor S_IRWXG S_IRWXO else Z.lor S_IWGRP S_IWOTH)
    = Z.land g (if secret then 0x3f else 0x12)) by (intros g; destruct secret; apply Hland; done).
  cbv zeta. rewrite Hbad. destruct aces as [|a0 aces'] eqn:Ea; [by destruct secret; (split; [|intros (_ & H & _); done])|]. rewrite <- Ea in *.
  rewrite (proj2 (Nat.eqb_neq _ _)) by (by rewrite Ea).
  destruct (existsb (fun a => foreign a && is_write a) aces) eqn:Ew.
  - apply existsb_exists in Ew as (a & Ha & [Hf Hw]%andb_true_iff). destruct secret; (split; [done|]); intros (_ & _ & H); destruct (H a Ha Hf) as [? ?]; congruence.
  - assert (Hnw : forall a, In a aces -> foreign a = true -> is_write a = false).
    { intros a Ha Hf. destruct (is_write a) eqn:Ea'; [|done]. rewrite <- Ew. symmetry. apply existsb_exists. exists a. by rewrite Hf, Ea'. }
    destruct (existsb foreign aces) eqn:Ef.
    + apply existsb_exists in Ef as (a & Ha & Hf). destruct secret; cbn.
      * split; [done|]. intros (_ & _ & H). by destruct (H a Ha Hf).
      * destruct (Z.eqb_spec uid euid) as [->|Hu]; (split; [intros; try done|intros (? & _); done]). split; [done|]. split; [by rewrite Ea|]. intros b Hb Hfb. split; [done|by apply Hnw].
    + assert (Hnf : forall a, In a aces -> foreign a = true -> False).
      { intros a Ha Hf. assert (existsb foreign aces = true) by (apply existsb_exists; by exists a). congruence. }
      replace (Z.land 0 (if secret then 0x3f else 0x12)) with 0 by (by destruct secret). cbn.
      destruct (Z.eqb_spec uid euid) as [->|Hu]; (split; [intros; try done|intros (? & _); done]). split; [done|]. split; [by rewrite Ea|]. intros b Hb Hfb. by destruct (Hnf b Hb Hfb).
Qed.

(** Two stores have one mutex exactly when their paths have one hash. *)
Lemma hexdigit_inj a b : 0 <= a < 16 -> 0 <= b < 16 -> hexdigit a = hexdigit b -> a = b.
Proof.
  intros Ha Hb. assert (G : forall n, 0 <= n < 16 -> n ∈ map Z.of_nat (seq 0 16)).
  { intros n Hn. apply list_elem_of_In, in_map_iff. exists (Z.to_nat n). split; [lia|apply in_seq; lia]. }
  apply G in Ha, Hb. cbn in Ha, Hb. repeat (apply elem_of_cons in Ha as [->|Ha]; [repeat (apply elem_of_cons in Hb as [->|Hb]; [done|]); by apply elem_of_nil in Hb|]).
  by apply elem_of_nil in Ha.
Qed.

Lemma fnv1a_range path : 0 <= fnv1a path < 2 ^ 32.
Proof.
  unfold fnv1a. assert (G : forall l h, 0 <= h < 2 ^ 32 -> 0 <= fold_left (fun hash c => u32 (Z.lxor hash c * 16777619)) l h < 2 ^ 32); [|by apply G].
  induction l as [|c l IH]; intros h Hh; cbn [fold_left]; [done|]. apply IH. unfold u32. apply Z.mod_pos_bound. lia.
Qed.

Lemma nibbles_inj h g :
  0 <= h < 2 ^ 32 -> 0 <= g < 2 ^ 32 ->
  (forall i, (i < 8)%nat -> Z.land (Z.shiftr h (28 - 4 * Z.of_nat i)) 15 = Z.land (Z.shiftr g (28 - 4 * Z.of_nat i)) 15) -> h = g.
Proof.
  intros Hh Hg Hn. apply Z.bits_inj'. intros n Hn0. destruct (Z.lt_ge_cases n 32) as [Hlt|Hge].
  - specialize (Hn (Z.to_nat (7 - n / 4)) ltac:(zdiv)). apply (f_equal (fun z => Z.testbit z (n mod 4))) in Hn.
    assert (Hm : 0 <= n mod 4 < 4) by (apply Z.mod_pos_bound; lia).
    rewrite !Z.land_spec, !Z.shiftr_spec in Hn by lia. replace (Z.testbit 15 (n mod 4)) with true in Hn
      by (assert (n mod 4 = 0 \/ n mod 4 = 1 \/ n mod 4 = 2 \/ n mod 4 = 3) as [->|[->|[->| ->]]] by lia; reflexivity).
    rewrite !andb_true_r in Hn. replace (n mod 4 + (28 - 4 * Z.of_nat (Z.to_nat (7 - n / 4)))) with n in Hn by zdiv. exact Hn.
  - rewrite !Z.bits_above_log2; [done|lia| |lia|].
    + destruct (Z.eq_dec g 0) as [->|]; [cbn; lia|]. apply Z.log2_lt_pow2; [lia|]. apply Z.lt_le_trans with (2 ^ 32); [lia|]. by apply Z.pow_le_mono_r; lia.
    + destruct (Z.eq_dec h 0) as [->|]; [cbn; lia|]. apply Z.log2_lt_pow2; [lia|]. apply Z.lt_le_trans with (2 ^ 32); [lia|]. by apply Z.pow_le_mono_r; lia.
Qed.

Theorem singleton_name_iff (p q : bytes) (cap : nat) (n m : bytes) :
  ngx_autocert_win32_singleton_name p cap = Some n -> ngx_autocert_win32_singleton_name q cap = Some m ->
  (length n <= cap)%nat /\ (n = m <-> fnv1a p = fnv1a q).
Proof.
  unfold ngx_autocert_win32_singleton_name. destruct (Nat.ltb_spec cap (length singleton_prefix + 8 + 1)) as [|Hc]; [done|].
  intros <-%(inj Some) <-%(inj Some). split; [rewrite !length_app, length_map, length_seq; cbn in *; lia|]. split; [|by intros ->].
  intros E%app_inv_head. apply app_inj_2 in E as [E _]; [|done]. apply nibbles_inj; [apply fnv1a_range..|]. intros i Hi.
  apply hexdigit_inj.
  - change 15 with (Z.ones 4). rewrite Z.land_ones by lia. by apply Z.mod_pos_bound.
  - change 15 with (Z.ones 4). rewrite Z.land_ones by lia. by apply Z.mod_pos_bound.
  - apply (f_equal (fun l => nth i l 0)) in E. rewrite !(nth_indep _ 0 (hexdigit (Z.land (Z.shiftr (fnv1a p) (28 - 4 * Z.of_nat 0)) 15))) in E
      by (rewrite length_map, length_seq; done).
    do 8 (destruct i as [|i]; [exact E|]). lia.
Qed.

(** The program's name is empty: a hook sees its own path as its first argument. *)
Definition hook_argv_ex : list bytes := [str "C:\hook.exe"; str "_acme-challenge.a"; str "txt"].

Example hook_arguments_shifted :
  command_line 1024 hook_argv_ex [] = Ret tt (concat (map quoted_arg hook_argv_ex))
  /\ split_command_line (concat (map quoted_arg hook_argv_ex)) = [] :: hook_argv_ex
  /\ split_command_line (drop 1 (concat (map quoted_arg hook_argv_ex))) = hook_argv_ex.
Proof. by vm_compute. Qed.
