(* ===== verification/Verify.v ===== *)
(** * The check of an issued certificate (ngx_autocert_order.c)

    What the chain a CA sent must pass before it may replace the one in use, and who frees
    each object on the way. *)

From Stdlib Require Import FunctionalExtensionality.
From S2P Require Import Prelude NgxCore Ident Base64 Jose Cert.

Local Open Scope Z_scope.
Local Open Scope prog_scope.

(** OpenSSL: a certificate [X] and a key [K] read from PEM, with what is left to read;
    whether what a read that found none met is the end of the data ([PEM_R_NO_START_LINE]);
    the checks of a certificate; and the anchors [T] in a file. *)
Record verifier (X K T : Type) := Verifier {
  PEM_read_bio_X509 : bytes -> option (X * bytes);
  no_start_line : bytes -> bool;
  PEM_read_bio_PrivateKey : bytes -> option K;
  X509_check_private_key : X -> K -> Z;
  X509_check_ip_asc : X -> bytes -> bool;
  X509_check_host : X -> bytes -> bool;
  cmp_not_before : X -> Z;
  cmp_not_after : X -> Z;
  X509_STORE_load_locations : bytes -> option T;
  X509_verify_cert : T -> X -> list X -> Z }.
Arguments PEM_read_bio_X509 {X K T}.
Arguments no_start_line {X K T}.
Arguments PEM_read_bio_PrivateKey {X K T}.
Arguments X509_check_private_key {X K T}.
Arguments X509_check_ip_asc {X K T}.
Arguments X509_check_host {X K T}.
Arguments cmp_not_before {X K T}.
Arguments cmp_not_after {X K T}.
Arguments X509_STORE_load_locations {X K T}.
Arguments X509_verify_cert {X K T}.

(** [sizeof(verify_buf)] *)
Definition sizeof_verify_buf : nat := 256.

(** The name the leaf is asked for: a label in the place of the star. *)
Definition verify_name (domain : bytes) : bytes :=
  match domain with
  | 42 :: 46 :: rest => if (2 <? length domain)%nat && (length domain <? sizeof_verify_buf)%nat then 120 :: 46 :: rest else domain
  | _ => domain
  end.

Section Check.
Context {C K T : Type} (V : verifier C K T) (ok : nat -> bool) (ngx_inet_addr : bytes -> Z) (ngx_inet6_addr : bytes -> option bytes).
Abbreviation P := (prog heap).

(** An object made from [o], unless there is none or the call fails. *)
Definition made_of {A} (v : var) (o : option A) : P (option A) :=
  match o with
  | Some a => let! made := new ok v in ret (if made then Some a else None)
  | None => clear v;; ret None
  end.

(** The certificates behind the leaf; [keep]: for the verification; [None] is a jump to the
    end. *)
Fixpoint drain (fuel : nat) (keep : bool) (b : bytes) (untrusted : list C) : P (option (list C)) :=
  let! x := made_of X (option_map fst (PEM_read_bio_X509 V b)) in
  match x, PEM_read_bio_X509 V b with
  | Some x, Some (_, b) =>
      match fuel with
      | O => nofuel
      | S fuel =>
          if keep then
            let! pushed := attempt ok in
            if negb pushed then free X;; ret None
            else
              give X;;
              drain fuel keep b (untrusted ++ [x])
          else
            free X;;
            drain fuel keep b untrusted
      end
  | _, None =>
      let! calm := attempt ok in
      ret (if calm && no_start_line V b then Some untrusted else None)
  | None, Some _ => ret None
  end.

(** The check against the anchor that was configured. *)
Definition verify_anchored (anchor : bytes) (leaf : C) (untrusted : list C) : P Z :=
  let! store := new ok Store in
  if negb store then ret NGX_ERROR
  else
    let! loaded := attempt ok in
    match X509_STORE_load_locations V anchor, loaded with
    | Some anchors, true =>
        let! ctx := new ok Ctx in
        if negb ctx then ret NGX_ERROR
        else
          let! ready := attempt ok in
          if negb ready then ret NGX_ERROR
          else
            let! calm := attempt ok in
            if negb (calm && (X509_verify_cert V anchors leaf untrusted =? 1)) then ret NGX_ERROR
            else ret NGX_OK
    | _, _ => ret NGX_ERROR
    end.

(** From the end of the chain on. *)
Definition check_leaf (domain key_pem anchor : bytes) (leaf : C) (untrusted : list C) : P Z :=
  free Bio;;
  let! bio := new ok Bio in
  if negb bio then ret NGX_ERROR
  else
    let! key := made_of Pkey (PEM_read_bio_PrivateKey V key_pem) in
    match key with
    | None => ret NGX_ERROR
    | Some key =>
        if negb (X509_check_private_key V leaf key =? 1) then ret NGX_ERROR
        else if negb (ngx_autocert_cert_covers ngx_inet_addr ngx_inet6_addr (X509_check_ip_asc V leaf) (X509_check_host V leaf) (verify_name domain))
        then ret NGX_ERROR
        else if (0 <=? cmp_not_before V leaf) || (cmp_not_after V leaf <=? 0) then ret NGX_ERROR
        else if negb (length anchor =? 0)%nat then verify_anchored anchor leaf untrusted
        else ret NGX_OK
    end.

(** From the leaf to [done]. *)
Definition check_chain (fuel : nat) (domain chain key_pem anchor : bytes) : P Z :=
  let! leaf := made_of Leaf (option_map fst (PEM_read_bio_X509 V chain)) in
  match leaf, PEM_read_bio_X509 V chain with
  | Some leaf, Some (_, rest) =>
      let keep := negb (length anchor =? 0)%nat in
      let! room := if keep then new ok Untrusted else ret true in
      if negb room then ret NGX_ERROR
      else
        let! untrusted := drain fuel keep rest [] in
        match untrusted with
        | None => ret NGX_ERROR
        | Some untrusted => check_leaf domain key_pem anchor leaf untrusted
        end
  | _, _ => ret NGX_ERROR
  end.

(** [chain] and [key_pem]: [order->cert_chain] and [order->cert_key_pem]; [anchor]:
    [order->issuance_certificate], empty when there is none. *)
Definition ngx_autocert_order_validate_cert (domain chain key_pem anchor : bytes) : P Z :=
  func (
    clears [Leaf; Pkey; Store; Ctx; Untrusted];;
    let! bio := new ok Bio in
    if negb bio then ret NGX_ERROR
    else
      let! rc := check_chain (length chain) domain chain key_pem anchor in
      frees [Ctx; Store; Untrusted; Pkey; Leaf; Bio];;
      ret rc).

(** ** What is asked of a chain *)

(** [b] is certificates and nothing else. *)
Inductive certificates : bytes -> list C -> Prop :=
  | no_certificate b : PEM_read_bio_X509 V b = None -> no_start_line V b = true -> certificates b []
  | a_certificate b x b' xs : PEM_read_bio_X509 V b = Some (x, b') -> certificates b' xs -> certificates b (x :: xs).

(** The leaf is for the order's key and name and valid now, what follows it are certificates,
    and they lead to the anchor, if one is configured. *)
Definition acceptable (domain chain key_pem anchor : bytes) : Prop :=
  exists leaf rest others key,
    PEM_read_bio_X509 V chain = Some (leaf, rest) /\ certificates rest others
    /\ PEM_read_bio_PrivateKey V key_pem = Some key /\ X509_check_private_key V leaf key = 1
    /\ ngx_autocert_cert_covers ngx_inet_addr ngx_inet6_addr (X509_check_ip_asc V leaf) (X509_check_host V leaf) (verify_name domain) = true
    /\ cmp_not_before V leaf < 0 < cmp_not_after V leaf
    /\ (anchor <> [] -> exists anchors, X509_STORE_load_locations V anchor = Some anchors /\ X509_verify_cert V anchors leaf others = 1).
End Check.

(** ** Rules *)

Lemma slot_put_put s v p q : put (put s v p) v q = put s v q.
Proof. apply functional_extensionality. intros x. unfold put. by destruct (decide (x = v)). Qed.

Section Thms.
Context {C K T : Type} (V : verifier C K T) (ok : nat -> bool) (ngx_inet_addr : bytes -> Z) (ngx_inet6_addr : bytes -> option bytes).
(** A read of a certificate uses up some of what there is. *)
Context (Hread : forall b x b', PEM_read_bio_X509 V b = Some (x, b') -> (length b' < length b)%nat).

(** No call fails of itself. *)
Definition calm : Prop := forall i, ok i = true.

Lemma certificates_fun b xs ys : certificates V b xs -> certificates V b ys -> xs = ys.
Proof. intros Hx. revert ys. induction Hx; intros ys Hy; inversion Hy; [done|congruence..|]. f_equal; [congruence|]. apply IHHx. congruence. Qed.

Lemma wp_attempt_calm k s l u (Q : bool -> heap -> Prop) X :
  Q true (Heap (S k) s l u) -> (~ calm -> Q false (Heap (S k) s l u)) -> wp (attempt ok) (Heap k s l u) Q X.
Proof. intros HT HF. unfold wp, attempt. cbn. destruct (ok k) eqn:E; [done|]. apply HF. intros H. by rewrite H in E. Qed.

Lemma wp_new_calm v k s l u (Q : bool -> heap -> Prop) X :
  s v <> Owned -> Q true (Heap (S k) (put s v Owned) l u) -> (~ calm -> Q false (Heap (S k) (put s v Null) l u)) -> wp (new ok v) (Heap k s l u) Q X.
Proof.
  intros Hs HT HF. apply wp_bind, wp_attempt_calm; [|intros Hc; specialize (HF Hc)]; apply wp_bind; unfold set_slot, wp at 1; cbn; by destruct (s v).
Qed.

Lemma wp_made_of {A} v (o : option A) k s l u (Q : option A -> heap -> Prop) X :
  s v <> Owned -> (forall k', ~ (calm /\ is_Some o) -> Q None (Heap k' (put s v Null) l u)) ->
  (forall a k', o = Some a -> Q (Some a) (Heap k' (put s v Owned) l u)) -> wp (made_of ok v o) (Heap k s l u) Q X.
Proof.
  intros Hs HN HS. destruct o as [a|]; cbn [made_of].
  - apply wp_bind, wp_new_calm; [done|by apply wp_ret, HS|]. intros Hc. apply wp_ret, HN. by intros [? _].
  - apply wp_bind, wp_clear; [done|]. apply wp_ret, HN. by intros [_ [? ?]].
Qed.

Lemma wp_drain_chain fuel keep b acc k s l u (Q : option (list C) -> heap -> Prop) E :
  (length b <= fuel)%nat -> s X <> Owned ->
  (forall k' p, p <> Owned -> ~ (calm /\ exists xs, certificates V b xs) -> Q None (Heap k' (put s X p) l u)) ->
  (forall k' p xs ys, p <> Owned -> certificates V b xs -> (keep = true -> ys = acc ++ xs) -> Q (Some ys) (Heap k' (put s X p) l u)) ->
  wp (drain V ok fuel keep b acc) (Heap k s l u) Q E.
Proof.
  revert b acc k s. induction fuel as [|fuel IH]; intros b acc k s Hf Hs HN HS; cbn [drain]; apply wp_bind, wp_made_of; try done.
  1, 3: intros k' Hn; destruct (PEM_read_bio_X509 V b) as [[x b']|] eqn:Eb; cbn in Hn;
    [apply wp_ret, HN; [done|]; intros [Hc _]; by apply Hn|];
    apply wp_bind, wp_attempt_calm; [|intros Hc; apply wp_ret, HN; [done|]; by intros [? _]]; apply wp_ret; cbn [andb];
    destruct (no_start_line V b) eqn:Ee; [apply (HS _ _ []); [done|by constructor|by rewrite app_nil_r]|];
    apply HN; [done|]; intros (_ & xs & Hx); inversion Hx; congruence.
  - intros x k' Eb. destruct (PEM_read_bio_X509 V b) as [[y b']|] eqn:Er; [|done]. apply Hread in Er. lia.
  - intros x k' Eb. destruct (PEM_read_bio_X509 V b) as [[y b']|] eqn:Er; [|done]. cbn in Eb. injection Eb as ->. pose proof (Hread _ _ _ Er).
    assert (Hno : ~ (calm /\ exists xs, certificates V b' xs) -> ~ (calm /\ exists xs, certificates V b xs)).
    { intros Hn (Hc & xs & Hx). inversion Hx as [|? ? ? ? Hr' Hx']; [congruence|]; subst. apply Hn. split; [done|]. rewrite Er in Hr'. injection Hr' as _ <-. by eexists. }
    destruct keep.
    + apply wp_bind, wp_attempt_calm; cbn [negb].
      * apply wp_bind, wp_give. rewrite slot_put_put. apply IH; [lia|done|..].
        -- intros k2 p Hp Hn. rewrite slot_put_put. by apply HN, Hno.
        -- intros k2 p xs ys Hp Hx Hy. rewrite slot_put_put. apply (HS _ _ (x :: xs)); [done|by econstructor|]. intros Hk. rewrite Hy by done. by rewrite <- app_assoc.
      * intros Hc. apply wp_bind, wp_free_owned; [done|]. rewrite slot_put_put. apply wp_ret, HN; [done|]. by intros [? _].
    + apply wp_bind, wp_free_owned; [done|]. rewrite slot_put_put. apply IH; [lia|done|..].
      * intros k2 p Hp Hn. rewrite slot_put_put. by apply HN, Hno.
      * intros k2 p xs ys Hp Hx Hy. rewrite slot_put_put. apply (HS _ _ (x :: xs)); [done|by econstructor|done].
Qed.

(** What is freed at the end. *)
Definition freed : list var := [Ctx; Store; Untrusted; Pkey; Leaf; Bio].

(** What is freed at the end may be, and nothing else has to be. *)
Definition tidy (s : var -> ptr) : Prop := forall v, if bool_decide (v ∈ freed) then s v <> Gone else s v <> Owned.

Lemma tidy_put s v p : tidy s -> (if bool_decide (v ∈ freed) then p <> Gone else p <> Owned) -> tidy (put s v p).
Proof. intros Hs Hp x. unfold put. destruct (decide (x = v)) as [->|_]; [exact Hp|apply Hs]. Qed.

Lemma wp_frees vs k s l u (Q : unit -> heap -> Prop) E :
  NoDup vs -> (forall v, v ∈ vs -> s v <> Gone) ->
  (forall s', (forall v, s' v = Owned -> s v = Owned /\ v ∉ vs) -> Q tt (Heap k s' l u)) -> wp (frees vs) (Heap k s l u) Q E.
Proof.
  revert s. induction vs as [|v vs IH]; intros s Hn Hs HQ; cbn [frees]; [apply wp_ret, HQ; intros v Hv; split; [done|apply not_elem_of_nil]|].
  apply NoDup_cons in Hn as [Hv Hn]. apply wp_bind. destruct (s v) eqn:Ev; [apply wp_free_null; [done|]|apply wp_free_owned; [done|]|].
  - apply IH; [done|intros x Hx; apply Hs; by right|]. intros s' Hs'. apply HQ. intros x Hx. destruct (Hs' x Hx) as [Ho Hni]. split; [done|].
    intros [->|?]%elem_of_cons; [congruence|done].
  - apply IH; [done| |].
    + intros x Hx. unfold put. case_decide; [by subst|]. apply Hs. by right.
    + intros s' Hs'. apply HQ. intros x Hx. destruct (Hs' x Hx) as [Ho Hni]. unfold put in Ho. case_decide; [done|]. split; [done|].
      by intros [?|?]%elem_of_cons.
  - exfalso. apply (Hs v); [by left|done].
Qed.

Lemma held_none s : (forall v, s v <> Owned) -> held s = 0%nat.
Proof. intros Hs. unfold held. induction all_vars as [|v l IH]; [done|]. by rewrite filter_cons_False. Qed.

(** ** The stages *)

Section Stages.
Context (domain chain key_pem anchor : bytes).
Abbreviation covers leaf := (ngx_autocert_cert_covers ngx_inet_addr ngx_inet6_addr (X509_check_ip_asc V leaf) (X509_check_host V leaf) (verify_name domain)).

Definition anchored (leaf : C) (others : list C) : Prop :=
  exists anchors, X509_STORE_load_locations V anchor = Some anchors /\ X509_verify_cert V anchors leaf others = 1.

Definition leaf_good (leaf : C) (others : list C) : Prop :=
  exists key, PEM_read_bio_PrivateKey V key_pem = Some key /\ X509_check_private_key V leaf key = 1 /\ covers leaf = true
  /\ cmp_not_before V leaf < 0 < cmp_not_after V leaf /\ (anchor <> [] -> anchored leaf others).

Lemma wp_verify_anchored leaf others k s l u (Q : Z -> heap -> Prop) E :
  tidy s -> s Store = Null -> s Ctx = Null ->
  (forall k' s', tidy s' -> ~ (calm /\ anchored leaf others) -> Q NGX_ERROR (Heap k' s' l u)) ->
  (forall k' s', tidy s' -> anchored leaf others -> Q NGX_OK (Heap k' s' l u)) ->
  wp (verify_anchored V ok anchor leaf others) (Heap k s l u) Q E.
Proof.
  intros Ht Hst Hctx HF HT. unfold verify_anchored. apply wp_bind, wp_new_calm; [by rewrite Hst|cbn [negb]|].
  2: { intros Hc. cbn [negb]. apply wp_ret, HF; [by apply tidy_put|]. by intros [? _]. }
  assert (Ht1 : tidy (put s Store Owned)) by (by apply tidy_put).
  apply wp_bind, wp_attempt_calm; [|intros Hc; destruct (X509_STORE_load_locations V anchor); apply wp_ret, HF; [done|by intros [? _]..|done|by intros [? _]]].
  destruct (X509_STORE_load_locations V anchor) as [anchors|] eqn:El; [|apply wp_ret, HF; [done|]; intros (_ & a & Ha & _); congruence].
  apply wp_bind, wp_new_calm; [unfold put; cbn; by rewrite Hctx|cbn [negb]|].
  2: { intros Hc. cbn [negb]. apply wp_ret, HF; [by apply tidy_put|]. by intros [? _]. }
  assert (Ht2 : tidy (put (put s Store Owned) Ctx Owned)) by (by apply tidy_put).
  apply wp_bind, wp_attempt_calm; [|intros Hc; apply wp_ret, HF; [done|]; by intros [? _]]. cbn [negb].
  apply wp_bind, wp_attempt_calm; [|intros Hc; apply wp_ret, HF; [done|]; by intros [? _]]. cbn [andb].
  destruct (Z.eqb_spec (X509_verify_cert V anchors leaf others) 1) as [Ev|Ev]; cbn [negb]; apply wp_ret; [apply HT; [done|by exists anchors]|].
  apply HF; [done|]. intros (_ & a & Ha & Hv). congruence.
Qed.

Lemma wp_check_leaf leaf others given k s l u (Q : Z -> heap -> Prop) E :
  tidy s -> s Bio = Owned -> s Pkey = Null -> s Store = Null -> s Ctx = Null -> (anchor <> [] -> given = others) ->
  (forall k' s', tidy s' -> ~ (calm /\ leaf_good leaf others) -> Q NGX_ERROR (Heap k' s' l u)) ->
  (forall k' s', tidy s' -> leaf_good leaf others -> Q NGX_OK (Heap k' s' l u)) ->
  wp (check_leaf V ok ngx_inet_addr ngx_inet6_addr domain key_pem anchor leaf given) (Heap k s l u) Q E.
Proof.
  intros Ht Hb Hk Hst Hctx Hg HF HT. unfold check_leaf. apply wp_bind, wp_free_owned; [done|].
  apply wp_bind, wp_new_calm; [done|cbn [negb]; rewrite slot_put_put|]. 2: { intros Hc. rewrite slot_put_put. apply wp_ret, HF; [by apply tidy_put|]. by intros [? _]. }
  assert (Hto : tidy (put s Bio Owned)) by (by apply tidy_put). apply wp_bind, wp_made_of; [unfold put; cbn; by rewrite Hk| |].
  { intros k' Hn. apply wp_ret, HF; [by apply tidy_put|]. intros [Hc (key & Ek & _)]. apply Hn. by rewrite Ek. }
  intros key k' Ek. assert (Ht1 : tidy (put (put s Bio Owned) Pkey Owned)) by (by apply tidy_put).
  destruct (Z.eqb_spec (X509_check_private_key V leaf key) 1) as [Ep|Ep]; cbn [negb].
  2: { apply wp_ret, HF; [done|]. intros (_ & key' & Ek' & Hp & _). congruence. }
  destruct (covers leaf) eqn:Ec; cbn [negb]. 2: { apply wp_ret, HF; [done|]. intros (_ & key' & _ & _ & Hc & _). by rewrite Ec in Hc. }
  destruct ((0 <=? cmp_not_before V leaf) || (cmp_not_after V leaf <=? 0)) eqn:Ed.
  { apply wp_ret, HF; [done|]. intros (_ & key' & _ & _ & _ & Hd & _). apply orb_true_iff in Ed as [Ed|Ed]; apply Z.leb_le in Ed; lia. }
  apply orb_false_iff in Ed as [E1%Z.leb_gt E2%Z.leb_gt].
  destruct (Nat.eqb_spec (length anchor) 0) as [Ea|Ea]; cbn [negb].
  - apply wp_ret, HT; [done|]. exists key. repeat split; [done..|]. intros Hne. by destruct anchor.
  - rewrite (Hg ltac:(by destruct anchor)). apply wp_verify_anchored; [done|unfold put; cbn; done..| |].
    + intros k2 s' Hs' Hn. apply HF; [done|]. intros (Hc & key' & _ & _ & _ & _ & Hanc). apply Hn. split; [done|]. apply Hanc. by destruct anchor.
    + intros k2 s' Hs' Hanc. apply HT; [done|]. by exists key.
Qed.

Lemma acceptable_iff :
  acceptable V ngx_inet_addr ngx_inet6_addr domain chain key_pem anchor
  <-> exists leaf rest others, PEM_read_bio_X509 V chain = Some (leaf, rest) /\ certificates V rest others /\ leaf_good leaf others.
Proof.
  unfold acceptable, leaf_good, anchored. split.
  - intros (leaf & rest & others & key & H1 & H2 & H3). exists leaf, rest, others. split; [done|]. split; [done|]. by exists key.
  - intros (leaf & rest & others & H1 & H2 & key & H3). by exists leaf, rest, others, key.
Qed.
Abbreviation acceptable := (acceptable V ngx_inet_addr ngx_inet6_addr domain chain key_pem anchor).

Lemma wp_check_chain k s l u (Q : Z -> heap -> Prop) E :
  tidy s -> s Bio = Owned -> s Leaf = Null -> s Pkey = Null -> s Store = Null -> s Ctx = Null -> s Untrusted = Null ->
  (forall k' s', tidy s' -> ~ (calm /\ acceptable) -> Q NGX_ERROR (Heap k' s' l u)) ->
  (forall k' s', tidy s' -> acceptable -> Q NGX_OK (Heap k' s' l u)) ->
  wp (check_chain V ok ngx_inet_addr ngx_inet6_addr (length chain) domain chain key_pem anchor) (Heap k s l u) Q E.
Proof.
  intros Ht Hb Hl Hk Hst Hctx Hun HF HT. setoid_rewrite acceptable_iff in HF. setoid_rewrite acceptable_iff in HT. unfold check_chain. apply wp_bind, wp_made_of; [by rewrite Hl| |].
  { intros k' Hn. apply wp_ret, HF; [by apply tidy_put|]. intros (Hc & leaf & rest & others & E1 & _). apply Hn. by rewrite E1. }
  intros leaf k' E1. destruct (PEM_read_bio_X509 V chain) as [[x rest]|] eqn:Er; [|done]. cbn in E1. injection E1 as ->.
  assert (Hrest : (length rest <= length chain)%nat) by (apply Hread in Er; lia).
  assert (Hone : forall others, certificates V rest others -> ~ (calm /\ leaf_good leaf others)
    -> ~ (calm /\ exists leaf0 rest0 others0, Some (leaf, rest) = Some (leaf0, rest0) /\ certificates V rest0 others0 /\ leaf_good leaf0 others0)).
  { intros others Ho Hn (Hc & l0 & r0 & o0 & E0 & Ho0 & Hg). injection E0 as <- <-. apply Hn. split; [done|]. by rewrite (certificates_fun _ _ _ Ho Ho0). }
  assert (Ht1 : tidy (put s Leaf Owned)) by (by apply tidy_put). cbv zeta.
  assert (G : forall k2 s2, tidy s2 -> s2 Bio = Owned -> s2 Pkey = Null -> s2 Store = Null -> s2 Ctx = Null ->
    wp (let! untrusted := drain V ok (length chain) (negb (length anchor =? 0)%nat) rest [] in
        match untrusted with
        | None => ret NGX_ERROR
        | Some untrusted => check_leaf V ok ngx_inet_addr ngx_inet6_addr domain key_pem anchor leaf untrusted
        end) (Heap k2 s2 l u) Q E).
  { intros k2 s2 Ht2 Hb2 Hk2 Hst2 Hctx2. apply wp_bind, wp_drain_chain; [done|exact (Ht2 X)| |].
    - intros k3 p Hp Hn. apply wp_ret, HF; [by apply tidy_put|]. intros (Hc & l0 & r0 & o0 & E0 & Ho0 & _). injection E0 as <- <-. apply Hn. split; [done|by exists o0].
    - intros k3 p xs ys Hp Hx Hy. apply (wp_check_leaf leaf xs); [by apply tidy_put|done..| | |].
      + intros Ha. apply Hy. by destruct anchor.
      + intros k4 s' Hs' Hn. by apply HF, (Hone xs).
      + intros k4 s' Hs' Hg. apply HT; [done|]. by exists leaf, rest, xs. }
  destruct (negb (length anchor =? 0)%nat).
  - apply wp_bind, wp_new_calm; [change (s Untrusted <> Owned); by rewrite Hun|cbn [negb]; apply G; [by apply tidy_put|done..]|].
    intros Hc. cbn [negb]. apply wp_ret, HF; [by apply tidy_put|]. by intros [? _].
  - apply wp_bind, wp_ret. cbn [negb]. apply G; done.
Qed.

Lemma wp_validate_cert n (Q : Z -> heap -> Prop) :
  (forall k', ~ (calm /\ acceptable) -> Q NGX_ERROR (heap0 k')) -> (forall k', acceptable -> Q NGX_OK (heap0 k')) ->
  wp (ngx_autocert_order_validate_cert V ok ngx_inet_addr ngx_inet6_addr domain chain key_pem anchor) (heap0 n) Q (fun _ => False).
Proof.
  intros HF HT. unfold ngx_autocert_order_validate_cert, heap0. apply wp_func. apply wp_bind. cbn [clears].
  repeat (apply wp_bind, wp_clear; [done|]). apply wp_ret, wp_bind, wp_new_calm; [done|cbn [negb]|].
  2: { intros Hc. cbn [negb]. apply wp_ret. split; [done|]. split; [done|]. apply HF. by intros [? _]. }
  set (s := put _ Bio Owned).
  assert (Hend : forall k' s' r, tidy s' -> Q r (heap0 k') ->
    wp (frees freed;; ret r) (Heap k' s' 0 0) (fun a h' => lost h' = 0%nat /\ held (slot h') = 0%nat /\ Q a (Heap (calls h') unset 0 (unwiped h'))) (fun _ => False)).
  { intros k' s' r Ht HQ. apply wp_bind, wp_frees; [apply (bool_decide_unpack _); by vm_compute|intros v Hv; specialize (Ht v); by rewrite bool_decide_true in Ht|].
    intros s2 Hs2. apply wp_ret. split; [done|]. split; [|done]. apply held_none. intros v Hv. destruct (Hs2 v Hv) as [Ho Hni]. specialize (Ht v). by rewrite bool_decide_false in Ht. }
  apply wp_bind, wp_check_chain; try reflexivity.
  - intros v. by destruct v.
  - intros k' s' Ht Hn. by apply Hend, HF.
  - intros k' s' Ht Hn. by apply Hend, HT.
Qed.

(** C31. A downloaded chain is found valid only if its first certificate is for the key and
    the name of the order, a label standing for the star of a wildcard, and valid now, if
    what follows are certificates and nothing is cut short, and if, with an anchor
    configured, they lead to it; and it is found valid if all that holds, unless a call
    fails. The check returns on every input, and whatever call fails no object is lost or
    freed twice. *)
Theorem validate_cert_iff (n : nat) :
  exists r k', ngx_autocert_order_validate_cert V ok ngx_inet_addr ngx_inet6_addr domain chain key_pem anchor (heap0 n) = Ret r (heap0 k')
  /\ (r = NGX_OK -> acceptable) /\ (r <> NGX_OK -> r = NGX_ERROR /\ ~ (calm /\ acceptable)).
Proof.
  apply (wp_exec _ (heap0 n) (fun r => (r = NGX_OK -> acceptable) /\ (r <> NGX_OK -> r = NGX_ERROR /\ ~ (calm /\ acceptable)))), wp_validate_cert.
  - intros k' Hn. split; [by exists k'|]. by split.
  - intros k' Ha. split; [by exists k'|]. by split.
Qed.
End Stages.
End Thms.

(** ** Runs *)

(** A certificate is a byte, the PEM of a chain those bytes and a 0 behind them; the leaf 7 is
    for x.example and the key 7, signed by 8, which is signed by 9. *)
Definition verifier_ex : verifier Z Z Z :=
  Verifier Z Z Z
    (fun b => match b with 0 :: _ | [] => None | x :: b => Some (x, b) end)
    (fun b => match b with 0 :: _ => true | _ => false end)
    (fun b => match b with [k] => Some k | _ => None end)
    (fun x k => if x =? k then 1 else 0)
    (fun _ _ => false)
    (fun x name => (x =? 7) && bool_decide (name = str "x.example"))
    (fun _ => -1) (fun _ => 1)
    (fun b => match b with [a] => Some a | _ => None end)
    (fun a leaf xs => if (leaf =? 7) && bool_decide (xs = [8]) && ((a =? 8) || (a =? 9)) then 1 else 0).

Lemma validate_cert_iff_witness :
  exists r k', ngx_autocert_order_validate_cert verifier_ex (fun _ => true) (fun _ => INADDR_NONE) (fun _ => None) (str "*.example") [7; 8; 0] [7] [9] (heap0 0) = Ret r (heap0 k')
  /\ (r = NGX_OK -> acceptable verifier_ex (fun _ => INADDR_NONE) (fun _ => None) (str "*.example") [7; 8; 0] [7] [9])
  /\ (r <> NGX_OK -> r = NGX_ERROR /\ ~ (calm (fun _ => true) /\ acceptable verifier_ex (fun _ => INADDR_NONE) (fun _ => None) (str "*.example") [7; 8; 0] [7] [9])).
Proof.
  apply validate_cert_iff. intros [|x b] y b'; [done|]. cbn. destruct x; [done|..]; intros [= <- <-]; cbn; lia.
Defined.

(** It is found valid; cut short, for another name, or with another anchor it is not; without
    an anchor what follows the leaf need not lead anywhere. *)
Example validate_cert_ex :
  map (fun '(domain, chain, anchor) =>
         match ngx_autocert_order_validate_cert verifier_ex (fun _ => true) (fun _ => INADDR_NONE) (fun _ => None) domain chain [7] anchor (heap0 0) with
         | Ret r _ => r =? NGX_OK
         | _ => false
         end)
    [(str "*.example", [7; 8; 0], [9]); (str "*.example", [7; 8], [9]); (str "y.example", [7; 8; 0], [9]); (str "*.example", [7; 8; 0], [6]);
     (str "x.example", [7; 5; 0], [])]
  = [true; false; false; false; true].
Proof. vm_compute. reflexivity. Qed.
