(* ===== verification/Seed.v ===== *)
(** * The walk over the store (ngx_autocert_driver.c)

    A driver that has just taken the lock puts the names of the runtime markers back into the
    registry, some at a time so that the event loop is not held up: what the chunks add up to,
    what is in the registry when it is over, and that the directory is closed. *)

From S2P Require Import Prelude NgxCore Ident Expiry Ratecap Rbtree Shm Alpn Requests RequestsNames RequestsThms Registry Marker Sched SchedInv SchedLedger SchedLoops SchedRuntime SchedBoot SchedEvents SchedThms.

Local Open Scope Z_scope.
Local Open Scope prog_scope.

Definition NGX_AUTOCERT_SEED_CHUNK : nat := 64.

(** ** State *)

(** The driver of a process, and what lives beside it: the walk, with its descriptor and what
    [readdir] has still to deliver before it ends or fails; its key type and its timer; the
    descriptors that are open; the lock file that is held, by its inode, with its descriptor;
    the relock timer; and, of all processes, who holds the lock of which inode. *)
Record host (H : Type) := Host {
  drv : world H;
  seed_dh : option (nat * (list bytes * Z));
  seed_key_type : Z;
  seed_timer : bool;
  fds : gset nat;
  lock_fd : option (nat * nat);
  relock_timer : bool;
  locks : gmap nat nat }.
Arguments Host {H}.
Arguments drv {H}.
Arguments seed_dh {H}.
Arguments seed_key_type {H}.
Arguments seed_timer {H}.
Arguments fds {H}.
Arguments lock_fd {H}.
Arguments relock_timer {H}.
Arguments locks {H}.

Section Updates.
Context {H : Type}.
Implicit Types (h : host H).

Definition set_drv x h : host H := Host x (seed_dh h) (seed_key_type h) (seed_timer h) (fds h) (lock_fd h) (relock_timer h) (locks h).
Definition set_dh x h : host H := Host (drv h) x (seed_key_type h) (seed_timer h) (fds h) (lock_fd h) (relock_timer h) (locks h).
Definition set_key_type x h : host H := Host (drv h) (seed_dh h) x (seed_timer h) (fds h) (lock_fd h) (relock_timer h) (locks h).
Definition set_seed_timer x h : host H := Host (drv h) (seed_dh h) (seed_key_type h) x (fds h) (lock_fd h) (relock_timer h) (locks h).
Definition set_fds x h : host H := Host (drv h) (seed_dh h) (seed_key_type h) (seed_timer h) x (lock_fd h) (relock_timer h) (locks h).
Definition set_lock_fd x h : host H := Host (drv h) (seed_dh h) (seed_key_type h) (seed_timer h) (fds h) x (relock_timer h) (locks h).
Definition set_relock x h : host H := Host (drv h) (seed_dh h) (seed_key_type h) (seed_timer h) (fds h) (lock_fd h) x (locks h).
Definition set_locks x h : host H := Host (drv h) (seed_dh h) (seed_key_type h) (seed_timer h) (fds h) (lock_fd h) (relock_timer h) x.
End Updates.

(** ** The walk *)

Section Walk.
(** [listing]: by the number of the call that opened a directory, the names [readdir] delivers
    from it, and what it ends with, 0 at the end of the directory. *)
Context {H : Type} {R : Registry H} {X509 EVP_PKEY : Type} (cf : conf) (E : env X509 EVP_PKEY) (listing : nat -> list bytes * Z).
Abbreviation P := (prog (host H)).

Definition look {A} (f : host H -> A) : P A := fun h => Ret (f h) h.
Definition change (f : host H -> host H) : P unit := fun h => Ret tt (f h).

Definition on_drv {A} (m : prog (world H) A) : P A := fun h =>
  match m (drv h) with
  | Ret a w => Ret a (set_drv w h)
  | Err w => Err (set_drv w h)
  | Fault => Fault
  | NoFuel => NoFuel
  end.

Definition open_fd : P nat := fun h => let fd := base.fresh (fds h) in Ret fd (set_fds (fds h ∪ {[fd]}) h).

Definition close_fd (fd : nat) : P unit := fun h => if decide (fd ∈ fds h) then Ret tt (set_fds (fds h ∖ {[fd]}) h) else Fault.

(** Closing the directory closes its descriptor. *)
Definition ngx_autocert_runtime_seed_stop : P unit :=
  change (set_seed_timer false);;
  let! dh := look seed_dh in
  match dh with
  | Some (fd, _) => close_fd fd;; change (set_dh None)
  | None => ret tt
  end.

(** One entry of the directory that has a marker. *)
Definition visit (key_type : Z) (name : bytes) : prog (world H) unit :=
  let! n := next_call in
  let! d := read files in
  match ngx_autocert_seed_read_marker (file_calls E n) d name (name_dir (stores cf) name) with
  | None => ret tt
  | Some host =>
      let! _ := ngx_autocert_seed_restore_entry cf E key_type host in
      ret tt
  end.

Fixpoint ngx_autocert_seed_walk_chunk (budget : nat) : P Z :=
  match budget with
  | O => ret NGX_AGAIN
  | S budget =>
      let! dh := look seed_dh in
      match dh with
      | None => fault
      | Some (_, ([], err)) => ret (if err =? 0 then NGX_DONE else NGX_ERROR)
      | Some (fd, (name :: names, err)) =>
          change (set_dh (Some (fd, (names, err))));;
          let! key_type := look seed_key_type in
          on_drv (visit key_type name);;
          ngx_autocert_seed_walk_chunk budget
      end
  end.

(** There is a registry to fill and a store to fill it from. *)
Definition seedable : bool := requests_zone cf && negb (length (store_path (stores cf)) =? 0)%nat.

Definition ngx_autocert_runtime_seed_step : P unit :=
  let! dh := look seed_dh in
  match dh with
  | None => ret tt
  | Some _ =>
      let! w := look drv in
      if quitting w then ngx_autocert_runtime_seed_stop
      else if negb seedable then ngx_autocert_runtime_seed_stop
      else
        let! wrc := ngx_autocert_seed_walk_chunk NGX_AUTOCERT_SEED_CHUNK in
        if wrc =? NGX_ERROR then ngx_autocert_runtime_seed_stop
        else if wrc =? NGX_DONE then ngx_autocert_runtime_seed_stop
        else change (set_seed_timer true)
  end.

(** Up to the first step; whether there is a walk. *)
Definition seed_open : P bool :=
  ngx_autocert_runtime_seed_stop;;
  if negb seedable then ret false
  else if (NGX_MAX_PATH <=? length (store_path (stores cf)) + length (live_dir (stores cf)))%nat then ret false
  else
    let! opened := on_drv (attempt E) in
    if negb opened then ret false
    else
      let! cfd := open_fd in
      let! n := on_drv next_call in
      if negb (ok E n) then close_fd cfd;; ret false
      else
        change (set_dh (Some (cfd, listing n)));;
        change (set_key_type (match cert_key_types cf with Some (k :: _) => k | _ => NGX_HTTP_AUTOCERT_KEY_P256 end));;
        change (set_seed_timer false);;
        ret true.

Definition ngx_autocert_runtime_seed : P unit :=
  let! walk := seed_open in
  if walk then ngx_autocert_runtime_seed_step else ret tt.

(** The timer of the walk. *)
Definition seed_tick : P unit :=
  let! t := look seed_timer in
  if t then change (set_seed_timer false);; ngx_autocert_runtime_seed_step else ret tt.

(** The timer fires again and again, and before each time something else happens: other
    events of the driver, other processes that write to the store, time that passes. *)
Fixpoint seed_ticks (ds : list (world H -> world H)) : P unit :=
  match ds with
  | [] => ret tt
  | d :: ds => change (fun h => set_drv (d (drv h)) h);; seed_tick;; seed_ticks ds
  end.

(** ** The walk in one go *)

Fixpoint visit_all (key_type : Z) (names : list bytes) : prog (world H) unit :=
  match names with
  | [] => ret tt
  | name :: names => visit key_type name;; visit_all key_type names
  end.

Definition seed_at_once : P unit :=
  let! walk := seed_open in
  if walk then
    let! h := look id in
    on_drv (visit_all (seed_key_type h) (match seed_dh h with Some (_, (names, _)) => names | None => [] end));;
    ngx_autocert_runtime_seed_stop
  else ret tt.
End Walk.

(** ** What the walk does to the registry *)

Section Content.
Context {H : Type} {R : Registry H} {X509 EVP_PKEY : Type} (cf : conf) (E : env X509 EVP_PKEY).
Implicit Types (w : world H) (m : gmap bytes req).

(** What the walk reads but does not change. *)
Definition alike w0 w : Prop := files w = files w0 /\ cas w = cas w0 /\ clock w = clock w0 /\ quitting w = quitting w0.

Definition marker_at w (n : nat) (name : bytes) : option bytes := ngx_autocert_seed_read_marker (file_calls E n) (files w) name (name_dir (stores cf) name).

Definition due_at w (n : nat) (key_type : Z) (host : bytes) : bool :=
  ngx_autocert_name_due (inet_addr E) (inet6_addr E) (stores cf) (disk_view E n) (clock w) host key_type.

(** Visited with the [n]-th call on the files, the entry [name] is found to have the marker of
    [host], which no name of the driver's CAs covers and whose certificate is found to be good
    for a while. *)
Definition restoring w (n : nat) (key_type : Z) (name host : bytes) : Prop :=
  marker_at w n name = Some host /\ ngx_autocert_name_is_config (cas w) host = Some None /\ due_at w (S n) key_type host = false.

(** The same, whenever it is visited. *)
Definition restores w (key_type : Z) (name host : bytes) : Prop :=
  (exists n, marker_at w n name = Some host) /\ ngx_autocert_name_is_config (cas w) host = Some None /\ exists n, due_at w n key_type host = false.

(** What is read does not depend on when, as when nobody else writes to the store and no call
    fails. *)
Definition steady w (key_type : Z) : Prop :=
  forall n n' name, marker_at w n name = marker_at w n' name /\ due_at w n key_type name = due_at w n' key_type name.

(** States that are left alone. *)
Definition barred (s : Z) : Prop := s = NGX_AUTOCERT_REQ_DENIED \/ s = NGX_AUTOCERT_REQ_UNKNOWN.

(** An entry of the registry before and after. *)
Definition seeded (o o' : option req) : Prop :=
  exists r, o' = Some r /\ (r_state r = NGX_AUTOCERT_REQ_ISSUED \/ exists r0, o = Some r0 /\ r_state r = r_state r0 /\ barred (r_state r0)).

(** There is no room in the registry. *)
Definition crowded m : Prop := NGX_AUTOCERT_REQUESTS_MAX <= Z.of_nat (size m) \/ exists n, reg_oom n = true.

(** What the visit of an entry does to the registry: nothing, or the name that its marker says
    is filed; and it is, if it is to be and there is room. *)
Definition visited w (n : nat) (key_type : Z) (name : bytes) m m' : Prop :=
  (m' = m \/ exists host key r, restoring w n key_type name host /\ ngx_autocert_requests_normalize host = Some key
              /\ m' = <[key := r]> m /\ seeded (m !! key) (Some r))
  /\ (forall host key, restoring w n key_type name host -> ngx_autocert_requests_normalize host = Some key -> seeded (m !! key) (m' !! key) \/ crowded m').

(** Names visited one after the other. *)
Inductive visits (key_type : Z) : list bytes -> world H -> world H -> Prop :=
  | visits_nil w : visits key_type [] w w
  | visits_cons name names w w1 w' m m1 :
      visit cf E key_type name w = Ret tt w1 -> alike w w1 -> reg_inv (registry w) m -> reg_inv (registry w1) m1 ->
      visited w (calls w) key_type name m m1 -> visits key_type names w1 w' -> visits key_type (name :: names) w w'.

(** Names visited in one go, but for what happens meanwhile ([ds], each after 64 of them), and
    what happens after; the process may be told to quit. *)
Definition happen (ds : list (world H -> world H)) w : world H := foldl (fun w d => d w) w ds.

Inductive seeds (key_type : Z) : list (world H -> world H) -> list bytes -> world H -> world H -> Prop :=
  | seeds_last ds names w w1 :
      (length names < 64)%nat -> visits key_type names w w1 -> seeds key_type ds names w (happen ds w1)
  | seeds_more d ds names w w1 w' :
      (64 <= length names)%nat -> visits key_type (take 64 names) w w1 -> quitting (d w1) = false ->
      seeds key_type ds (drop 64 names) (d w1) w' -> seeds key_type (d :: ds) names w w'
  | seeds_quit d ds names w w1 :
      (64 <= length names)%nat -> visits key_type (take 64 names) w w1 -> quitting (d w1) = true ->
      seeds key_type (d :: ds) names w (happen ds (d w1)).

(** What the walk comes to when nothing happens meanwhile. *)
Definition progress w (key_type : Z) (names : list bytes) m m' : Prop :=
  (size m <= size m')%nat
  /\ (forall key, m' !! key = m !! key
      \/ seeded (m !! key) (m' !! key) /\ exists name host, name ∈ names /\ restores w key_type name host /\ ngx_autocert_requests_normalize host = Some key)
  /\ (steady w key_type -> forall name host key, name ∈ names -> restores w key_type name host -> ngx_autocert_requests_normalize host = Some key ->
      seeded (m !! key) (m' !! key) \/ crowded m').

Lemma seeded_trans o1 o2 o3 : seeded o1 o2 -> seeded o2 o3 -> seeded o1 o3.
Proof.
  intros (r2 & -> & H2) (r3 & -> & H3). exists r3. split; [done|]. destruct H3 as [H3|(r & Er & Es & Hb)]; [by left|]. injection Er as <-.
  destruct H2 as [H2|(r1 & -> & Es1 & Hb1)]; [rewrite H2 in Hb; by destruct Hb|]. right. exists r1. split; [done|]. split; [congruence|done].
Qed.

Lemma alike_world_trans w0 w1 w2 : alike w0 w1 -> alike w1 w2 -> alike w0 w2.
Proof. intros (E1 & E2 & E3 & E4) (F1 & F2 & F3 & F4). repeat split; congruence. Qed.

Lemma alike_restores w0 w kt name host : alike w0 w -> restores w kt name host <-> restores w0 kt name host.
Proof. intros (E1 & E2 & E3 & _). unfold restores, marker_at, due_at. by rewrite E1, E2, E3. Qed.

Lemma alike_steady w0 w kt : alike w0 w -> steady w kt <-> steady w0 kt.
Proof. intros (E1 & _ & E3 & _). unfold steady, marker_at, due_at. by rewrite E1, E3. Qed.

Lemma progress_nil w kt m : progress w kt [] m m.
Proof. split; [done|]. split; [by left|]. by intros _ name host key ?%not_elem_of_nil. Qed.

Lemma progress_cons w kt name names m1 m2 m3 : progress w kt [name] m1 m2 -> progress w kt names m2 m3 -> progress w kt (name :: names) m1 m3.
Proof.
  intros (S1 & F1 & C1) (S2 & F2 & C2). split; [lia|]. split.
  - intros key. destruct (F2 key) as [->|(H2 & n2 & h2 & Hn2 & Hr2 & Hk2)].
    + destruct (F1 key) as [->|(H1 & n1 & h1 & ->%list_elem_of_singleton & Hr1 & Hk1)]; [by left|]. right. split; [done|]. exists name, h1. split; [left|done].
    + right. split; [|exists n2, h2; split; [by right|done]]. destruct (F1 key) as [<-|(H1 & _)]; [done|by eapply seeded_trans].
  - intros Hs n h key Hn Hr Hk. assert (Hc : crowded m2 -> crowded m3) by (intros [?|?]; [left; lia|by right]).
    apply elem_of_cons in Hn as [->|Hn].
    + destruct (C1 Hs name h key ltac:(left) Hr Hk) as [H1|?]; [|by right; apply Hc]. left. destruct (F2 key) as [->|(H2 & _)]; [done|by eapply seeded_trans].
    + destruct (C2 Hs n h key Hn Hr Hk) as [H2|?]; [|by right]. left. destruct (F1 key) as [<-|(H1 & _)]; [done|by eapply seeded_trans].
Qed.

Lemma steady_restoring w n kt name host : steady w kt -> restores w kt name host -> restoring w n kt name host.
Proof.
  intros Hs ((n1 & Hm) & Hc & n2 & Hd). split; [by rewrite (proj1 (Hs n n1 name))|]. split; [done|].
  by rewrite (proj2 (Hs (S n) n2 host)).
Qed.

Lemma visited_progress w n kt name m m' : visited w n kt name m m' -> progress w kt [name] m m'.
Proof.
  intros [Hor Hall]. split; [|split].
  - destruct Hor as [->|(host & key & r & _ & _ & -> & _)]; [done|]. rewrite map_size_insert. destruct (m !! key); cbn; lia.
  - intros key. destruct Hor as [->|(host & k & r & (Hm & Hc & Hd) & Hk & -> & Hs)]; [by left|].
    destruct (decide (key = k)) as [->|Hne]; [right|left; by rewrite lookup_insert_ne]. rewrite lookup_insert_eq. split; [done|].
    exists name, host. split; [left|]. split; [|done]. split; [by exists n|]. split; [done|by exists (S n)].
  - intros Hs nm host key ->%list_elem_of_singleton Hr. by apply Hall, steady_restoring.
Qed.

Lemma visited_skip w n kt name m : (forall host, ~ restoring w n kt name host) -> visited w n kt name m m.
Proof. intros Hno. split; [by left|]. intros host key Hr. by destruct (Hno host). Qed.

Lemma visited_insert w n kt name host key m r :
  restoring w n kt name host -> ngx_autocert_requests_normalize host = Some key -> seeded (m !! key) (Some r) ->
  visited w n kt name m (<[key := r]> m).
Proof.
  intros Hr Hk Hs. split; [right; by exists host, key, r|]. intros host' key' [Hm _] Hk'. rewrite (proj1 Hr) in Hm. injection Hm as <-.
  rewrite Hk in Hk'. injection Hk' as <-. left. by rewrite lookup_insert_eq.
Qed.

Lemma issue_state now eligible r r' : set_state_fields NGX_AUTOCERT_REQ_ISSUED eligible now r = Some r' -> r_state r' = NGX_AUTOCERT_REQ_ISSUED.
Proof. unfold set_state_fields. cbn. by intros [= <-]. Qed.

Lemma wp_restore_entry w kt name host m n (Q : Z -> world H -> Prop) :
  reg_inv (registry w) m -> marker_at w n name = Some host -> calls w = S n ->
  (forall rc w' m', alike w w' -> reg_inv (registry w') m' -> visited w n kt name m m' -> Q rc w') ->
  wp (ngx_autocert_seed_restore_entry cf E kt host) w Q (fun _ => False).
Proof.
  intros Hi Hm Hn HQ. assert (Hhost : forall host', restoring w n kt name host' -> host' = host) by (intros host' [Hm' _]; congruence).
  assert (Hskip : forall w' rc, alike w w' -> registry w' = registry w -> ~ restoring w n kt name host -> Q rc w').
  { intros w' rc Ha Er Hno. apply (HQ rc w' m); [done|by rewrite Er|]. apply visited_skip. intros host' Hr. apply Hno. by rewrite <- (Hhost host' Hr). }
  unfold ngx_autocert_seed_restore_entry. apply wp_bind, wp_read_world, wp_bind. destruct (is_config_total (cas w) host) as (cover & Ec & _).
  apply (wp_get_option _ cover); [done|]. destruct cover as [c|].
  { apply wp_ret, Hskip; [done..|]. intros (_ & Hc & _). congruence. }
  apply wp_bind. unfold name_due. apply wp_bind, wp_next_call, wp_bind, wp_read_world, wp_ret. cbn [clock set_calls].
  change (ngx_autocert_name_due _ _ _ _ _ _ _) with (due_at w (calls w) kt host). rewrite Hn. destruct (due_at w (S n) kt host) eqn:Ed.
  { apply wp_ret, Hskip; [done..|]. intros (_ & _ & Hd). congruence. }
  assert (Hr : restoring w n kt name host) by done.
  apply wp_bind, wp_read_world, wp_bind, wp_on_registry. eapply wp_weaken; [by apply reg_ensure_spec|]. cbn [registry set_calls clock].
  intros rc z (m1 & Hi1 & He). unfold ensured in He. destruct (ngx_autocert_requests_normalize host) as [key|] eqn:Ek.
  2: { destruct He as [-> ->]. refine (HQ NGX_DECLINED _ m _ _ _); [done|done|]. split; [by left|].
       intros h k Hr' Hk. rewrite (Hhost h Hr') in Hk. congruence. }
  assert (Hfull : crowded m -> visited w n kt name m m) by (intros Hc; split; [by left|by right]).
  assert (Hset : forall r, m1 = <[key := r]> m -> rc = r_state r -> barred (r_state r) -> (exists r0, m !! key = Some r0 /\ r_state r = r_state r0) -> visited w n kt name m m1).
  { intros r -> _ Hb (r0 & E0 & Es). apply (visited_insert _ _ _ _ host); [done|done|]. exists r. split; [done|]. right. exists r0. split; [done|]. split; [done|by rewrite <- Es]. }
  destruct ((rc =? NGX_AUTOCERT_REQ_UNKNOWN) || (rc =? NGX_AUTOCERT_REQ_DENIED)) eqn:Erc.
  - apply wp_ret. apply (HQ _ _ m1); [done|done|]. destruct (m !! key) as [r|] eqn:Em.
    + destruct He as [-> ->]. apply (Hset (touch (clock w) r)); [done|done| |by exists r]. apply orb_true_iff in Erc as [Erc|Erc]; apply Z.eqb_eq in Erc; [by right|by left].
    + destruct (Z.leb_spec NGX_AUTOCERT_REQUESTS_MAX (Z.of_nat (size m))) as [Hsz|Hsz]; [destruct He as [_ ->]; apply Hfull; by left|].
      destruct He as [[-> _]|(_ & -> & Hs)]; [done|]. apply Hfull. by right.
  - apply wp_bind. unfold set_state. apply wp_bind, wp_read_world, wp_on_registry. eapply wp_weaken; [by apply reg_set_state_spec|]. cbn [registry set_registry set_calls clock].
    intros rc2 z2 (m2 & Hi2 & Ht). unfold transitioned in Ht. rewrite Ek in Ht. cbn in Ht. destruct Ht as [-> Ht]. refine (HQ NGX_OK _ m2 _ _ _); [done|done|].
    assert (exists r1, m1 = <[key := r1]> m) as (r1 & ->).
    { destruct (m !! key) as [r|]; [destruct He as [_ ->]; by eexists|]. destruct (_ <=? _); [destruct He as [-> _]; done|]. destruct He as [[_ ->]|(-> & _)]; [by eexists|done]. }
    rewrite lookup_insert_eq in Ht. destruct Ht as (r2 & E2 & ->). rewrite insert_insert_eq. apply (visited_insert _ _ _ _ host); [done|done|].
    exists r2. split; [done|]. left. by apply issue_state in E2.
Qed.

Lemma wp_visit w kt name m (Q : unit -> world H -> Prop) :
  reg_inv (registry w) m ->
  (forall w' m', alike w w' -> reg_inv (registry w') m' -> visited w (calls w) kt name m m' -> Q tt w') ->
  wp (visit cf E kt name) w Q (fun _ => False).
Proof.
  intros Hi HQ. unfold visit. apply wp_bind, wp_next_call, wp_bind, wp_read_world. cbn [files set_calls].
  change (ngx_autocert_seed_read_marker _ _ _ _) with (marker_at w (calls w) name). destruct (marker_at w (calls w) name) as [host|] eqn:Em.
  - apply wp_bind. apply (wp_restore_entry _ _ name _ m (calls w)); [done|done|done|]. intros rc w' m' Ha Hi' Hp. apply wp_ret. by apply (HQ w' m').
  - apply wp_ret. apply (HQ _ m); [done|done|]. apply visited_skip. intros host [Hm _]. congruence.
Qed.

Lemma visit_runs w kt name m : reg_inv (registry w) m ->
  exists w' m', visit cf E kt name w = Ret tt w' /\ alike w w' /\ reg_inv (registry w') m' /\ visited w (calls w) kt name m m'.
Proof.
  intros Hi. pose proof (wp_visit w kt name m (fun _ w' => exists m', alike w w' /\ reg_inv (registry w') m' /\ visited w (calls w) kt name m m') Hi) as W.
  unfold wp in W. destruct (visit cf E kt name w) as [[] w'| | |]; try (exfalso; apply W; by eauto).
  destruct W as (m' & Ha & Hi' & Hv); [by eauto|]. by exists w', m'.
Qed.

Lemma visit_all_runs w kt names m : reg_inv (registry w) m ->
  exists w' m', visit_all cf E kt names w = Ret tt w' /\ alike w w' /\ reg_inv (registry w') m' /\ progress w kt names m m'
  /\ visits kt names w w'.
Proof.
  revert w m. induction names as [|name names IH]; intros w m Hi; cbn [visit_all].
  { exists w, m. do 3 (split; [done|]). split; [apply progress_nil|constructor]. }
  destruct (visit_runs w kt name m Hi) as (w1 & m1 & Ev & Ha & Hi1 & Hv). unfold bind. rewrite Ev.
  destruct (IH w1 m1 Hi1) as (w' & m' & Ew & Ha' & Hi' & Hp' & Hvs). exists w', m'.
  split; [done|]. split; [by eapply alike_world_trans|]. split; [done|]. split; [|by econstructor].
  apply (progress_cons _ _ _ _ _ m1); [by eapply visited_progress|].
  destruct Hp' as (S1 & F1 & C1). split; [done|]. split.
  - intros key. destruct (F1 key) as [?|(? & nm & h & ? & Hr & ?)]; [by left|]. right. split; [done|]. exists nm, h. split; [done|]. split; [by apply (alike_restores w w1)|done].
  - intros Hs nm h key Hn Hr Hk. apply (C1 (proj2 (alike_steady w w1 kt Ha) Hs) nm h key Hn); [by apply (alike_restores w w1)|done].
Qed.

Lemma visit_all_visits kt names w w' m : reg_inv (registry w) m -> visit_all cf E kt names w = Ret tt w' -> visits kt names w w'.
Proof. intros Hi E1. destruct (visit_all_runs w kt names m Hi) as (w2 & m2 & E2 & _ & _ & _ & Hv). rewrite E1 in E2. by injection E2 as ->. Qed.

Lemma visits_all kt names w w' : visits kt names w w' -> visit_all cf E kt names w = Ret tt w'.
Proof. induction 1 as [w|name names w w1 w' m m1 Ev Ha _ _ _ _ IH]; [done|]. cbn [visit_all]. unfold bind. by rewrite Ev. Qed.
End Content.

(** ** The chunks and the whole *)

Section Chunks.
Context {H : Type} {R : Registry H} {X509 EVP_PKEY : Type} (cf : conf) (E : env X509 EVP_PKEY) (listing : nat -> list bytes * Z).
Implicit Types (h : host H).

(** A walk over [names] is under way, that will end with [err]. *)
Definition walking (w : world H) (fd : nat) (names : list bytes) (err kt : Z) (t : bool) (F : gset nat) h : host H :=
  Host w (Some (fd, (names, err))) kt t F (lock_fd h) (relock_timer h) (locks h).

(** No walk is. *)
Definition idle (w : world H) (kt : Z) (F : gset nat) h : host H := Host w None kt false F (lock_fd h) (relock_timer h) (locks h).

Lemma visit_all_app kt names names' w w' :
  visit_all cf E kt names w = Ret tt w' -> visit_all cf E kt (names ++ names') w = visit_all cf E kt names' w'.
Proof.
  revert w. induction names as [|name names IH]; intros w; cbn [visit_all app]; [by intros [= ->]|].
  unfold bind. destruct (visit cf E kt name w) as [[] w1| | |]; [apply IH|done..].
Qed.

Lemma walk_chunk_run b names w w' fd err kt t F h :
  visit_all cf E kt (take b names) w = Ret tt w' ->
  ngx_autocert_seed_walk_chunk cf E b (walking w fd names err kt t F h)
  = Ret (if (length names <? b)%nat then if err =? 0 then NGX_DONE else NGX_ERROR else NGX_AGAIN) (walking w' fd (drop b names) err kt t F h).
Proof.
  revert names w. induction b as [|b IH]; intros names w Hv; cbn [ngx_autocert_seed_walk_chunk].
  { cbn in Hv. injection Hv as ->. by rewrite drop_0. }
  destruct names as [|name names]; [by injection Hv as ->|]. cbn [take visit_all] in Hv. unfold bind in Hv.
  unfold bind at 1, look at 1. cbn [seed_dh walking]. unfold bind at 1, change at 1, bind at 1, look at 1, bind at 1, on_drv at 1. cbn [drv set_dh seed_key_type walking].
  destruct (visit cf E kt name w) as [[] w1| | |]; [|done..]. exact (IH names w1 Hv).
Qed.

Lemma stop_walking w fd names err kt t F h : fd ∈ F -> ngx_autocert_runtime_seed_stop (walking w fd names err kt t F h) = Ret tt (idle w kt (F ∖ {[fd]}) h).
Proof. intros Hfd. unfold ngx_autocert_runtime_seed_stop, bind, change, look, close_fd. cbn. by rewrite decide_True. Qed.

Lemma ticks_idle ds w kt F h : seed_ticks cf E ds (idle w kt F h) = Ret tt (idle (happen ds w) kt F h).
Proof. revert w. induction ds as [|d ds IH]; intros w; [done|]. cbn [seed_ticks]. unfold bind. exact (IH (d w)). Qed.

(** Whatever happens leaves a registry. *)
Definition tame (d : world H -> world H) : Prop :=
  forall w m, reg_inv (registry w) m -> exists m', reg_inv (registry (d w)) m'.

(** One step: the walk is over, or it goes on when the timer fires. *)
Lemma one_step names w m fd err kt t F h :
  seedable cf = true -> quitting w = false -> fd ∈ F -> reg_inv (registry w) m ->
  exists w1 m1, visit_all cf E kt (take NGX_AUTOCERT_SEED_CHUNK names) w = Ret tt w1 /\ alike w w1 /\ reg_inv (registry w1) m1
  /\ visits cf E kt (take NGX_AUTOCERT_SEED_CHUNK names) w w1
  /\ ngx_autocert_runtime_seed_step cf E (walking w fd names err kt t F h)
     = Ret tt (if (length names <? NGX_AUTOCERT_SEED_CHUNK)%nat then idle w1 kt (F ∖ {[fd]}) h
               else walking w1 fd (drop NGX_AUTOCERT_SEED_CHUNK names) err kt true F h).
Proof.
  intros Hsd Hq Hfd Hi. destruct (visit_all_runs cf E w kt (take NGX_AUTOCERT_SEED_CHUNK names) m Hi) as (w1 & m1 & E1 & Ha1 & Hi1 & _ & Hv).
  exists w1, m1. do 4 (split; [done|]). pose proof (walk_chunk_run NGX_AUTOCERT_SEED_CHUNK names w w1 fd err kt t F h E1) as Ec.
  unfold ngx_autocert_runtime_seed_step. unfold bind at 1, look at 1. cbn [seed_dh walking]. unfold bind at 1, look at 1. cbn [drv walking].
  rewrite Hq, Hsd. cbn [negb]. unfold bind at 1. fold (walking w fd names err kt t F h). rewrite Ec.
  destruct (Nat.ltb_spec (length names) NGX_AUTOCERT_SEED_CHUNK) as [Hl|Hl]; [|done].
  destruct (err =? 0); cbn [Z.eqb NGX_DONE NGX_ERROR]; by apply stop_walking.
Qed.

(** A tick of a walk that is told to quit drops it. *)
Lemma quit_tick w fd names err kt F h :
  quitting w = true -> fd ∈ F -> seed_tick cf E (walking w fd names err kt true F h) = Ret tt (idle w kt (F ∖ {[fd]}) h).
Proof.
  intros Hq Hfd. unfold seed_tick, bind at 1, look at 1. cbn [seed_timer walking]. unfold bind at 1, change at 1.
  unfold ngx_autocert_runtime_seed_step, bind at 1, look at 1. cbn [seed_dh set_seed_timer walking]. unfold bind at 1, look at 1. cbn [drv set_seed_timer walking].
  rewrite Hq. exact (stop_walking w fd names err kt false F h Hfd).
Qed.

(** A step and as many ticks as there are chunks left do what one loop would. *)
Lemma steps_run ds names w m fd err kt t F h :
  seedable cf = true -> quitting w = false -> fd ∈ F -> Forall tame ds ->
  (length names <= length ds * NGX_AUTOCERT_SEED_CHUNK + (NGX_AUTOCERT_SEED_CHUNK - 1))%nat -> reg_inv (registry w) m ->
  exists w', seeds cf E kt ds names w w'
  /\ (ngx_autocert_runtime_seed_step cf E;; seed_ticks cf E ds) (walking w fd names err kt t F h) = Ret tt (idle w' kt (F ∖ {[fd]}) h).
Proof.
  intros Hsd Hq Hfd Hds. revert names w m t Hq. induction Hds as [|d ds Hd _ IH]; intros names w m t Hq Hn Hi;
    destruct (one_step names w m fd err kt t F h Hsd Hq Hfd Hi) as (w1 & m1 & E1 & Ha1 & Hi1 & Hv & Es); unfold bind at 1; rewrite Es;
    destruct (Nat.ltb_spec (length names) NGX_AUTOCERT_SEED_CHUNK) as [Hl|Hl].
  1, 3: rewrite take_ge in Hv by lia; eexists; split; [by apply seeds_last|apply ticks_idle].
  - exfalso. unfold NGX_AUTOCERT_SEED_CHUNK in *. cbn in Hn. lia.
  - destruct (Hd w1 m1 Hi1) as (m2 & Hi2). cbn [seed_ticks]. unfold bind at 1, change at 1.
    change (set_drv (d (drv (walking w1 fd (drop NGX_AUTOCERT_SEED_CHUNK names) err kt true F h))) (walking w1 fd (drop NGX_AUTOCERT_SEED_CHUNK names) err kt true F h))
      with (walking (d w1) fd (drop NGX_AUTOCERT_SEED_CHUNK names) err kt true F h).
    destruct (quitting (d w1)) eqn:Eq.
    + exists (happen ds (d w1)). split; [by apply (seeds_quit _ _ _ d ds names w w1)|]. unfold bind. rewrite quit_tick by done. apply ticks_idle.
    + destruct (IH (drop NGX_AUTOCERT_SEED_CHUNK names) (d w1) m2 false Eq) as (w' & Hs & Er); [rewrite length_drop; cbn [length] in Hn; lia|done|].
      exists w'. split; [by apply (seeds_more _ _ _ d ds names w w1 w')|]. exact Er.
Qed.

(** With nothing happening meanwhile, the one loop. *)
Lemma happen_still n w : happen (replicate n (fun w : world H => w)) w = w.
Proof. induction n as [|n IH]; [done|exact IH]. Qed.

Lemma visits_quitting kt names w w' : visits cf E kt names w w' -> quitting w' = quitting w.
Proof. induction 1 as [|name names w w1 w' m m1 _ (_ & _ & _ & E1) _ _ _ _ IH]; congruence. Qed.

Lemma seeds_still kt n names w w' :
  quitting w = false -> seeds cf E kt (replicate n (fun w => w)) names w w' -> visit_all cf E kt names w = Ret tt w'.
Proof.
  revert names w. induction n as [|n IH]; intros names w Hq Hs; inversion Hs as [ds ns u u1 Hl Hv|d ds ns u u1 u' Hl Hv Hq' Hs'|d ds ns u u1 Hl Hv Hq']; subst.
  1, 2: apply visits_all in Hv; change (happen (replicate ?k _) u1) with (happen (replicate k (fun w : world H => w)) u1);
    rewrite (happen_still (_ : nat)); exact Hv.
  - apply IH in Hs'; [|by rewrite (visits_quitting _ _ _ _ Hv)]. apply visits_all in Hv.
    rewrite <- (take_drop 64 names). by rewrite (visit_all_app _ _ _ _ _ Hv).
  - by rewrite (visits_quitting _ _ _ _ Hv), Hq in Hq'.
Qed.

(** ** What it comes to *)

(** The descriptor of a walk that is under way is open. *)
Definition sound h : Prop := match seed_dh h with Some (fd, _) => fd ∈ fds h | None => True end.

(** The descriptors of anything but the walk. *)
Definition others h : gset nat := match seed_dh h with Some (fd, _) => fds h ∖ {[fd]} | None => fds h end.

Lemma seed_open_cases h : sound h ->
  exists walk h1, seed_open cf E listing h = Ret walk h1
  /\ if walk then seedable cf = true /\ exists w fd n, h1 = walking w fd (listing n).1 (listing n).2 (runtime_key_type cf) false (others h ∪ {[fd]}) h
        /\ alike (drv h) w /\ registry w = registry (drv h) /\ fd ∉ others h
     else exists w kt, h1 = idle w kt (others h) h /\ alike (drv h) w /\ registry w = registry (drv h).
Proof.
  intros Hs. assert (Hstop : ngx_autocert_runtime_seed_stop h = Ret tt (idle (drv h) (seed_key_type h) (others h) h)).
  { destruct h as [w [[fd [names err]]|] kt t F l r L]; [by apply stop_walking|]. done. }
  unfold seed_open. unfold bind at 1. rewrite Hstop. destruct (seedable cf) eqn:Esd; cbn [negb]; [|eexists false, _; split; [done|]; by eexists _, _].
  destruct (_ <=? _)%nat; [eexists false, _; split; [done|]; by eexists _, _|].
  assert (Hatt : forall w kt F, on_drv (attempt E) (idle w kt F h) = Ret (ok E (calls w)) (idle (set_calls (S (calls w)) w) kt F h)) by done.
  assert (Hcall : forall w kt F, on_drv next_call (idle w kt F h) = Ret (calls w) (idle (set_calls (S (calls w)) w) kt F h)) by done.
  assert (Hopen : forall w kt F, open_fd (idle w kt F h) = Ret (base.fresh F) (idle w kt (F ∪ {[base.fresh F]}) h)) by done.
  assert (Hclose : forall w kt F fd, fd ∉ F -> close_fd fd (idle w kt (F ∪ {[fd]}) h) = Ret tt (idle w kt F h)).
  { intros w kt F fd Hfd. unfold close_fd. cbn [fds idle]. rewrite decide_True by set_solver. assert (E0 : (F ∪ {[fd]}) ∖ {[fd]} = F) by set_solver. unfold set_fds. cbn. by rewrite E0. }
  unfold bind at 1. rewrite Hatt. destruct (ok E _); cbn [negb]; [|eexists false, _; split; [done|]; by eexists _, _]. unfold bind at 1. rewrite Hopen.
  assert (Hfd : base.fresh (others h) ∉ others h) by apply is_fresh. unfold bind at 1. rewrite Hcall. destruct (ok E _); cbn [negb].
  - eexists true, _. split; [done|]. split; [done|]. exists (set_calls (S (S (calls (drv h)))) (drv h)), (base.fresh (others h)), (S (calls (drv h))).
    split; [|done]. unfold walking, runtime_key_type. by rewrite <- surjective_pairing.
  - unfold bind. rewrite Hclose by done. eexists false, _. split; [done|]. by eexists _, _.
Qed.

Lemma alike_progress w0 w kt names m m' : alike w0 w -> progress cf E w kt names m m' -> progress cf E w0 kt names m m'.
Proof.
  intros Ha (S1 & F1 & C1). split; [done|]. split.
  - intros key. destruct (F1 key) as [?|(? & nm & h & ? & Hr & ?)]; [by left|]. right. split; [done|]. exists nm, h. split; [done|]. split; [by apply (alike_restores cf E w0 w)|done].
  - intros Hs nm h key Hn Hr. apply (C1 (proj2 (alike_steady cf E w0 w kt Ha) Hs) nm h key Hn). by apply (alike_restores cf E w0 w).
Qed.

(** What is left of a process by the walk: the directory closed, and nothing else. *)
Definition walked (h h' : host H) : Prop := seed_dh h' = None /\ seed_timer h' = false /\ fds h' = others h.

End Chunks.

(** ** Runs *)

#[local] Existing Instance plain_trees.
#[local] Instance plain_registry : Registry requests_sh := requests_registry (fun _ => 0) no_oom 0.

(** The process of two configured names, with their certificates and a marker for the first
    in the store, as it starts: the accounts are not set up yet. *)
Definition host_ex : host requests_sh :=
  Host (world0 zone_ex {[ str "/store/a.example" := Regular 1 (str "a.example") ]} 100) None 0 false ∅ None false ∅.

Definition listing_ex (n : nat) : list bytes * Z := ([str "."; str "a.example"; str "b.example"], 0).


(** A name that is configured is restored all the same: the driver has no list of its CAs yet
    when the walk begins. *)
Example seed_before_config :
  match ngx_autocert_runtime_seed two (env_ex files_ex []) listing_ex host_ex with
  | Ret _ h => match reg_list_issued (fun _ => false) (fun _ => false) 0 (registry (drv h)) with Ret r _ => bool_decide (r = (1, [str "a.example"])) | _ => false end
  | _ => false
  end = true
  /\ ngx_autocert_name_is_config (ca_state0 <$> ca_list two) (str "a.example") = Some (Some (str "a.example")).
Proof. split; vm_compute; reflexivity. Qed.

(** What happens between two chunks tells: the marker of the last of 65 names is read when the timer has fired, if it is
    still there. *)
Definition long_listing (n : nat) : list bytes * Z := (replicate 64 (str ".") ++ [str "a.example"], 0).

Definition issued_after (d : world requests_sh -> world requests_sh) : Z * list bytes :=
  match (ngx_autocert_runtime_seed two (env_ex files_ex []) long_listing;; seed_ticks two (env_ex files_ex []) [d]) host_ex with
  | Ret _ h => match reg_list_issued (fun _ => false) (fun _ => false) 0 (registry (drv h)) with Ret r _ => r | _ => (-1, []) end
  | _ => (-1, [])
  end.

Example seed_between_chunks : issued_after (fun w => w) = (1, [str "a.example"]) /\ issued_after (set_files ∅) = (0, []).
Proof. split; vm_compute; reflexivity. Qed.
