(* ===== verification/AccountKey.v ===== *)
(** * The account key on disk (ngx_autocert_account.c)

    How the key of an account is loaded, or made and stored when there is none: whose file it
    may be, what is left when a call fails, and that no plain text of it stays in memory. *)

From S2P Require Import Prelude NgxCore Expiry SafeOpen Win32.

Local Open Scope Z_scope.
Local Open Scope prog_scope.

(** ** The file *)

Inductive kind := Plain | Special | SymbolicLink.

Record file := File { f_kind : kind; f_mode : Z; f_uid : Z; f_data : bytes; f_synced : bool }.

(** The file of the key; the descriptors of its directory and of the file, whether they are
    open; the key, when it is held; whether the plain text of a key is in a buffer that has
    not been wiped; and the calls made. *)
Record world (K : Type) := World {
  on_disk : option file;
  dir_open : bool;
  file_open : bool;
  acct_key : option K;
  secret : bool;
  calls : nat }.
Arguments World {K}.
Arguments on_disk {K}.
Arguments dir_open {K}.
Arguments file_open {K}.
Arguments acct_key {K}.
Arguments secret {K}.
Arguments calls {K}.

(** What the system decides, by the number of the call: which calls fail, which a signal
    interrupts, and how many bytes a read or a write moves; the mode a file is created with,
    which the mask of the process and the system have a say in. *)
Record system := System { fails : nat -> bool; interrupted : nat -> bool; moves : nat -> nat; created_mode : Z; geteuid : Z }.

Section Key.
(** [pkcs8]: the PEM of a key; [parse]: what [ngx_http_autocert_key_from_pem] makes of one. *)
Context {K : Type} (E : system) (generate : nat -> K) (pkcs8 : K -> bytes) (parse : bytes -> option K) (fuel : nat).
Abbreviation P := (prog (world K)).

Definition call : P nat := fun w => Ret (calls w) (World (on_disk w) (dir_open w) (file_open w) (acct_key w) (secret w) (S (calls w))).
Definition attempt : P bool := let! c := call in ret (negb (fails E c)).

Definition upd (f : world K -> world K) : P unit := fun w => Ret tt (f w).
Definition set_disk (x : option file) : P unit := upd (fun w => World x (dir_open w) (file_open w) (acct_key w) (secret w) (calls w)).
Definition set_key (x : option K) : P unit := upd (fun w => World (on_disk w) (dir_open w) (file_open w) x (secret w) (calls w)).
Definition set_secret (x : bool) : P unit := upd (fun w => World (on_disk w) (dir_open w) (file_open w) (acct_key w) x (calls w)).
Definition set_dir (x : bool) : P unit := upd (fun w => World (on_disk w) x (file_open w) (acct_key w) (secret w) (calls w)).
Definition set_file (x : bool) : P unit := upd (fun w => World (on_disk w) (dir_open w) x (acct_key w) (secret w) (calls w)).
Definition get {A} (f : world K -> A) : P A := fun w => Ret (f w) w.

Definition close_dir : P unit := let! o := get dir_open in if o then set_dir false else fault.

(** Whether close reports success; the descriptor is gone in any case. *)
Definition close_file : P bool :=
  let! o := get file_open in
  if o then
    let! ok := attempt in
    set_file false;;
    ret ok
  else fault.

Definition unlink : P unit := let! ok := attempt in if ok then set_disk None else ret tt.

(** Of the file that is open. *)
Definition change (f : file -> file) : P unit :=
  let! d := get on_disk in
  match d with
  | Some x => set_disk (Some (f x))
  | None => fault
  end.

Definition with_mode (m : Z) (f : file) : file := File (f_kind f) m (f_uid f) (f_data f) (f_synced f).
Definition appended (b : bytes) (f : file) : file := File (f_kind f) (f_mode f) (f_uid f) (f_data f ++ b) false.
Definition synced (f : file) : file := File (f_kind f) (f_mode f) (f_uid f) (f_data f) true.

(** ** Storing it *)

Fixpoint write_loop (n : nat) (pem : bytes) : P bool :=
  match pem with
  | [] => ret true
  | _ =>
      match n with
      | O => nofuel
      | S n =>
          let! c := call in
          if interrupted E c then write_loop n pem
          else if fails E c || (moves E c =? 0)%nat then ret false
          else
            change (appended (take (moves E c) pem));;
            write_loop n (drop (moves E c) pem)
      end
  end.

(** A call repeated while a signal interrupts it. *)
Fixpoint retried (n : nat) : P bool :=
  match n with
  | O => nofuel
  | S n =>
      let! c := call in
      if interrupted E c then retried n else ret (negb (fails E c))
  end.

(** From the file's creation on; [false] for the exits that remove it. *)
Definition fill_key (pem : bytes) : P bool :=
  let! narrowed := attempt in
  if negb narrowed then
    let! ok := close_file in
    unlink;;
    set_secret false;;
    ret false
  else
    change (with_mode 0x180);;
    let! written := write_loop fuel pem in
    if negb written then
      let! ok := close_file in
      unlink;;
      set_secret false;;
      ret false
    else
      set_secret false;;
      let! done := retried fuel in
      if negb done then
        let! ok := close_file in
        unlink;;
        ret false
      else
        change synced;;
        let! closed := close_file in
        if negb closed then unlink;; ret false
        else
          let! dir := retried fuel in
          ret true.

Definition ngx_autocert_account_save_key (k : K) : P Z :=
  let! made := attempt in
  if negb made then ret NGX_ERROR
  else
    set_secret true;;
    let! created := attempt in
    let! d := get on_disk in
    match d, created with
    | None, true =>
        set_disk (Some (File Plain (created_mode E) (geteuid E) [] false));;
        set_file true;;
        let! ok := fill_key (pkcs8 k) in
        ret (if ok then NGX_OK else NGX_ERROR)
    | _, _ => set_secret false;; ret NGX_ERROR
    end.

(** ** Loading it *)

Fixpoint read_loop (n : nat) (left : bytes) (want : nat) (got : bytes) : P bytes :=
  match want with
  | O => ret got
  | _ =>
      match n with
      | O => nofuel
      | S n =>
          let! c := call in
          if interrupted E c then read_loop n left want got
          else
            let m := Nat.min (moves E c) want in
            if fails E c || (length (take m left) =? 0)%nat then ret got
            else read_loop n (drop m left) (want - length (take m left)) (got ++ take m left)
      end
  end.

(** The size, and who the file is for. *)
Definition acceptable (f : file) : bool :=
  let size := Z.of_nat (length (f_data f)) in
  if (size <=? 0) || (64 * 1024 <? size) then false
  else
    match f_kind f with
    | Plain =>
        if negb (Z.land (f_mode f) (Z.lor S_IRWXG S_IRWXO) =? 0) then false
        else f_uid f =? geteuid E
    | _ => false
    end.

Definition read_key (f : file) : P Z :=
  let! stated := attempt in
  if negb stated || negb (acceptable f) then
    let! ok := close_file in
    ret NGX_ERROR
  else
    let! room := attempt in
    if negb room then
      let! ok := close_file in
      ret NGX_ERROR
    else
      let! pem := read_loop fuel (f_data f) (length (f_data f)) [] in
      (if (length pem =? 0)%nat then ret tt else set_secret true);;
      let! ok := close_file in
      if negb (length pem =? length (f_data f))%nat then set_secret false;; ret NGX_ERROR
      else
        let! parsed := attempt in
        set_secret false;;
        match parse pem, parsed with
        | Some k, true => set_key (Some k);; ret NGX_OK
        | _, _ => ret NGX_ERROR
        end.

(** [attempt] for [ngx_autocert_account_open_keydir]. *)
Definition ngx_autocert_account_load_key : P Z :=
  let! opened := attempt in
  if negb opened then ret NGX_ERROR
  else
    set_dir true;;
    let! can := attempt in
    let! d := get on_disk in
    match d with
    | None =>
        if negb can then close_dir;; ret NGX_ERROR
        else
          let! made := attempt in
          let! n := get calls in
          if negb made then close_dir;; ret NGX_ERROR
          else
            let k := generate n in
            set_key (Some k);;
            let! rc := ngx_autocert_account_save_key k in
            close_dir;;
            if negb (rc =? NGX_OK) then set_key None;; ret NGX_ERROR else ret NGX_OK
    | Some f =>
        match f_kind f with
        | SymbolicLink => close_dir;; ret NGX_ERROR
        | _ =>
            if negb can then close_dir;; ret NGX_ERROR
            else
              set_file true;;
              close_dir;;
              read_key f
        end
    end.
End Key.

(** ** Rules *)

(** No call fails, and reads and writes move something. *)
Definition quiet (E : system) : Prop := (forall i, fails E i = false) /\ forall i, moves E i <> 0%nat.

Section Rules.
Context {K : Type} (E : system) (generate : nat -> K) (pkcs8 : K -> bytes) (parse : bytes -> option K) (fuel : nat).
(** Signals interrupt none of the calls from the [N]-th on. *)
Context (N : nat) (Hcalm : forall c, (N <= c)%nat -> interrupted E c = false).
Implicit Types (d : option file) (x : option K).

Lemma ak_attempt d a b x s c (Q : bool -> world K -> Prop) X :
  Q (negb (fails E c)) (World d a b x s (S c)) -> wp (attempt E) (World d a b x s c) Q X.
Proof. exact id. Qed.

Lemma ak_set_secret y d a b x s c (Q : unit -> world K -> Prop) X : Q tt (World d a b x y c) -> wp (set_secret y) (World d a b x s c) Q X.
Proof. exact id. Qed.

Lemma ak_set_disk y d a b x s c (Q : unit -> world K -> Prop) X : Q tt (World y a b x s c) -> wp (set_disk y) (World d a b x s c) Q X.
Proof. exact id. Qed.

Lemma ak_set_file y d a b x s c (Q : unit -> world K -> Prop) X : Q tt (World d a y x s c) -> wp (set_file y) (World d a b x s c) Q X.
Proof. exact id. Qed.

Lemma ak_set_dir y d a b x s c (Q : unit -> world K -> Prop) X : Q tt (World d y b x s c) -> wp (set_dir y) (World d a b x s c) Q X.
Proof. exact id. Qed.

Lemma ak_set_key y d a b x s c (Q : unit -> world K -> Prop) X : Q tt (World d a b y s c) -> wp (set_key y) (World d a b x s c) Q X.
Proof. exact id. Qed.

Lemma ak_change g f a b x s c (Q : unit -> world K -> Prop) X : Q tt (World (Some (g f)) a b x s c) -> wp (change g) (World (Some f) a b x s c) Q X.
Proof. exact id. Qed.

Lemma ak_disk d a b x s c (Q : option file -> world K -> Prop) X : Q d (World d a b x s c) -> wp (get on_disk) (World d a b x s c) Q X.
Proof. exact id. Qed.

Lemma ak_calls d a b x s c (Q : nat -> world K -> Prop) X : Q c (World d a b x s c) -> wp (get calls) (World d a b x s c) Q X.
Proof. exact id. Qed.

Lemma ak_close_dir d b x s c (Q : unit -> world K -> Prop) X : Q tt (World d false b x s c) -> wp close_dir (World d true b x s c) Q X.
Proof. exact id. Qed.

Lemma ak_close_file d a x s c (Q : bool -> world K -> Prop) X :
  Q (negb (fails E c)) (World d a false x s (S c)) -> wp (close_file E) (World d a true x s c) Q X.
Proof. exact id. Qed.

Lemma ak_unlink d a b x s c (Q : unit -> world K -> Prop) X :
  Q tt (World (if fails E c then d else None) a b x s (S c)) -> wp (unlink E) (World d a b x s c) Q X.
Proof. unfold unlink, wp, bind, attempt, call, ret. cbn. by destruct (fails E c). Qed.

Lemma ak_write_loop n pem f a b x s c (Q : bool -> world K -> Prop) X :
  (length pem + (N - c) < n)%nat ->
  (forall f' c', ~ quiet E -> Q false (World (Some f') a b x s c')) ->
  (forall c' y, (pem = [] -> y = f_synced f) -> (pem <> [] -> y = false) ->
     Q true (World (Some (File (f_kind f) (f_mode f) (f_uid f) (f_data f ++ pem) y)) a b x s c')) ->
  wp (write_loop E n pem) (World (Some f) a b x s c) Q X.
Proof.
  revert pem f c. induction n as [|n IH]; intros pem f c Hn HF HT; [lia|]. destruct pem as [|p0 pem'] eqn:Ep; cbn [write_loop].
  { apply wp_ret. destruct f as [fk fm fu fd fs]; cbn in *. specialize (HT c fs). rewrite app_nil_r in HT. by apply HT. }
  rewrite <- Ep in *. apply wp_bind. unfold wp at 1, call. cbn [calls on_disk dir_open file_open acct_key secret].
  destruct (interrupted E c) eqn:Ei.
  - assert (Hc : (c < N)%nat) by (destruct (Nat.lt_ge_cases c N) as [|H]; [done|]; apply Hcalm in H; congruence). apply IH; [lia|done|done].
  - destruct (fails E c || (moves E c =? 0)%nat) eqn:Ef; [apply wp_ret, HF; intros [Hf Hm]; rewrite Hf in Ef; by apply Nat.eqb_eq, Hm in Ef|]. apply orb_false_iff in Ef as [_ Hm]. apply Nat.eqb_neq in Hm.
    apply wp_bind. unfold wp at 1, change, bind, get, set_disk, upd. cbn.
    apply IH; [rewrite length_drop; assert (length pem <> 0)%nat by (by rewrite Ep); lia|done|].
    intros c' y Hy1 Hy2. cbn [appended f_kind f_mode f_uid f_data f_synced] in *. rewrite <- app_assoc, take_drop. apply HT; [by rewrite Ep|].
    intros _. destruct (drop (moves E c) pem) eqn:Edr; [by apply Hy1|by apply Hy2].
Qed.

Lemma ak_retried n d a b x s c (Q : bool -> world K -> Prop) X :
  (N - c < n)%nat -> (forall r c', (c < c')%nat -> (quiet E -> r = true) -> Q r (World d a b x s c')) ->
  wp (retried E n) (World d a b x s c) Q X.
Proof.
  revert c. induction n as [|n IH]; intros c Hn HQ; [lia|]. cbn [retried]. apply wp_bind. unfold wp at 1, call. cbn. destruct (interrupted E c) eqn:Ei.
  - assert (Hc : (c < N)%nat) by (destruct (Nat.lt_ge_cases c N) as [|H]; [done|]; apply Hcalm in H; congruence). apply IH; [lia|]. intros r c' Hlt. apply HQ. lia.
  - apply wp_ret, HQ; [lia|]. intros [Hf _]. by rewrite Hf.
Qed.

Lemma ak_read_loop n left want got d a b x s c (Q : bytes -> world K -> Prop) X :
  (want + (N - c) < n)%nat -> length left = want -> 
  (forall l c', (length l <= length got + want)%nat -> ((length got + want)%nat = length l -> l = got ++ left) ->
     (quiet E -> l = got ++ left) -> Q l (World d a b x s c')) ->
  wp (read_loop E n left want got) (World d a b x s c) Q X.
Proof.
  revert left want got c. induction n as [|n IH]; intros left want got c Hn Hl HQ; [lia|]. cbn [read_loop]. destruct want as [|want'] eqn:Ew.
  { apply wp_ret, HQ; [lia|intros _; destruct left; [by rewrite app_nil_r|done]|intros _; destruct left; [by rewrite app_nil_r|done]]. }
  rewrite <- Ew in *. apply wp_bind. unfold wp at 1, call. cbn [calls on_disk dir_open file_open acct_key secret]. destruct (interrupted E c) eqn:Ei.
  - assert (Hc : (c < N)%nat) by (destruct (Nat.lt_ge_cases c N) as [|H]; [done|]; apply Hcalm in H; congruence). apply IH; [lia|done|done].
  - cbv zeta. set (m := Nat.min (moves E c) want). assert (Hm : length (take m left) = m) by (rewrite length_take; lia).
    destruct (fails E c || (length (take m left) =? 0)%nat) eqn:Ef.
    + apply wp_ret, HQ; [lia|lia|]. intros [Hf Hmv]. rewrite Hf, Hm in Ef. cbn in Ef. apply Nat.eqb_eq in Ef. specialize (Hmv c). lia.
    + apply orb_false_iff in Ef as [_ Ef]. rewrite Hm in *. apply Nat.eqb_neq in Ef. apply IH; [lia|rewrite length_drop; lia|].
      intros l c' H1 H2 H3. rewrite length_app, Hm in *. apply HQ; [lia| |].
      * intros H. rewrite H2 by lia. by rewrite <- app_assoc, take_drop.
      * intros Hq. rewrite H3 by done. by rewrite <- app_assoc, take_drop.
Qed.

Lemma ak_fill_key pem f a x s c (Q : bool -> world K -> Prop) X :
  (length pem + N < fuel)%nat ->
  (forall d' c', ~ quiet E -> Q false (World d' a false x false c')) ->
  (forall c', Q true (World (Some (File (f_kind f) 0x180 (f_uid f) (f_data f ++ pem) true)) a false x false c')) ->
  wp (fill_key E fuel pem) (World (Some f) a true x s c) Q X.
Proof.
  intros Hfuel HF HT. unfold fill_key. apply wp_bind, ak_attempt. destruct (fails E c) eqn:E1; cbn [negb].
  { apply wp_bind, ak_close_file, wp_bind, ak_unlink, wp_bind, ak_set_secret, wp_ret. apply HF. intros [Hf _]. by rewrite Hf in E1. }
  apply wp_bind, ak_change, wp_bind, ak_write_loop; [lia| |].
  { intros f' c' Hq. cbn [negb]. apply wp_bind, ak_close_file, wp_bind, ak_unlink, wp_bind, ak_set_secret, wp_ret. by apply HF. }
  intros c' y _ _. cbn [negb with_mode f_kind f_mode f_uid f_data]. apply wp_bind, ak_set_secret, wp_bind, ak_retried; [lia|]. intros [] c2 _ Hq; cbn [negb].
  2: { apply wp_bind, ak_close_file, wp_bind, ak_unlink, wp_ret, HF. intros H. by apply Hq in H. }
  apply wp_bind, ak_change, wp_bind, ak_close_file.
  destruct (fails E c2) eqn:E2; cbn [negb].
  { apply wp_bind, ak_unlink, wp_ret, HF. intros [Hf _]. by rewrite Hf in E2. }
  apply wp_bind, ak_retried; [lia|]. intros r c3 _ _. apply wp_ret, HT.
Qed.

Lemma ak_save_key k d a x c (Q : Z -> world K -> Prop) X :
  (length (pkcs8 k) + N < fuel)%nat ->
  (forall d' c', (d <> None -> d' = d) -> ~ (quiet E /\ d = None) -> Q NGX_ERROR (World d' a false x false c')) ->
  (forall c', d = None -> Q NGX_OK (World (Some (File Plain 0x180 (geteuid E) (pkcs8 k) true)) a false x false c')) ->
  wp (ngx_autocert_account_save_key E pkcs8 fuel k) (World d a false x false c) Q X.
Proof.
  intros Hfuel HF HT. unfold ngx_autocert_account_save_key. apply wp_bind, ak_attempt. destruct (fails E c) eqn:E1; cbn [negb].
  { apply wp_ret, HF; [done|]. intros [[Hf _] _]. by rewrite Hf in E1. }
  apply wp_bind, ak_set_secret, wp_bind, ak_attempt, wp_bind, ak_disk. destruct d as [f|].
  { apply wp_bind, ak_set_secret, wp_ret, HF; [done|]. by intros [_ ?]. }
  destruct (fails E (S c)) eqn:E2; cbn [negb].
  { apply wp_bind, ak_set_secret, wp_ret, HF; [done|]. intros [[Hf _] _]. by rewrite Hf in E2. }
  apply wp_bind, ak_set_disk, wp_bind, ak_set_file, wp_bind, ak_fill_key; [done| |].
  - intros d' c' Hq. apply wp_ret, HF; [done|]. by intros [? _].
  - intros c'. by apply wp_ret, HT.
Qed.

(** What is loaded from a file that is there. *)
Lemma ak_read_key f s c (Q : Z -> world K -> Prop) X :
  (64 * 1024 + N < fuel)%nat -> s = false ->
  (forall c', ~ (quiet E /\ acceptable E f = true /\ parse (f_data f) <> None) -> Q NGX_ERROR (World (Some f) false false None false c')) ->
  (forall c' k, acceptable E f = true -> parse (f_data f) = Some k -> Q NGX_OK (World (Some f) false false (Some k) false c')) ->
  wp (read_key E parse fuel f) (World (Some f) false true None s c) Q X.
Proof.
  intros Hfuel -> HF HT. unfold read_key. apply wp_bind, ak_attempt. destruct (fails E c) eqn:E1; cbn [negb orb].
  { apply wp_bind, ak_close_file, wp_ret, HF. intros [[Hf _] _]. by rewrite Hf in E1. }
  destruct (acceptable E f) eqn:Ea; cbn [negb].
  2: { apply wp_bind, ak_close_file, wp_ret, HF. intros (_ & ? & _). done. }
  apply wp_bind, ak_attempt. destruct (fails E (S c)) eqn:E2; cbn [negb].
  { apply wp_bind, ak_close_file, wp_ret, HF. intros [[Hf _] _]. by rewrite Hf in E2. }
  assert (Hsize : (length (f_data f) <= 64 * 1024)%nat) by (unfold acceptable in Ea; cbv zeta in Ea; destruct (_ || _) eqn:Es in Ea; [done|]; apply orb_false_iff in Es as [_ Es]; lia).
  apply wp_bind, ak_read_loop; [lia|done|]. cbn [length app]. intros l c' Hl Hfull Hq.
  assert (Hsec : forall w0 : world K, w0 = World (Some f) false true None false c' -> exists s, (if (length l =? 0)%nat then ret tt else set_secret true) w0 = Ret tt (World (Some f) false true None s c')).
  { intros w0 ->. destruct (length l =? 0)%nat; by eexists. }
  destruct (Hsec _ eq_refl) as (s & Es). unfold wp at 1, bind at 1. rewrite Es. apply wp_bind, ak_close_file.
  destruct (Nat.eqb_spec (length l) (length (f_data f))) as [El|El]; cbn [negb].
  - specialize (Hfull (eq_sym El)) as ->. apply wp_bind, ak_attempt, wp_bind, ak_set_secret.
    destruct (parse (f_data f)) as [k|] eqn:Ep; [|apply wp_ret, HF; intros (_ & _ & ?); done]. destruct (fails E (S c')) eqn:E3; cbn [negb].
    + apply wp_ret, HF. intros [[Hf _] _]. by rewrite Hf in E3.
    + by apply wp_bind, ak_set_key, wp_ret, HT.
  - apply wp_bind, ak_set_secret, wp_ret, HF. intros (H & _). by rewrite Hq in El.
Qed.

(** The file that is there is one [f] of which a key [k] is read. *)
Definition readable (f : file) (k : K) : Prop := f_kind f <> SymbolicLink /\ acceptable E f = true /\ parse (f_data f) = Some k.

Lemma acceptable_plain f : acceptable E f = true -> f_kind f = Plain /\ Z.land (f_mode f) (Z.lor S_IRWXG S_IRWXO) = 0 /\ f_uid f = geteuid E /\ (0 < length (f_data f) <= 64 * 1024)%nat.
Proof.
  unfold acceptable. cbv zeta. destruct (_ || _) eqn:Es; [done|]. apply orb_false_iff in Es as [H1 H2]. apply Z.leb_gt in H1. apply Z.ltb_ge in H2.
  destruct (f_kind f); [|done|done]. destruct (Z.land _ _ =? 0) eqn:Em; [|done]. apply Z.eqb_eq in Em. intros Hu%Z.eqb_eq. repeat split; [done|done|lia|lia].
Qed.

Lemma ak_load_key d c (Q : Z -> world K -> Prop) X :
  (64 * 1024 + N < fuel)%nat -> (forall k, length (pkcs8 k) + N < fuel)%nat ->
  (forall d' c', (d <> None -> d' = d) -> ~ (quiet E /\ forall f, d = Some f -> exists k, readable f k) -> Q NGX_ERROR (World d' false false None false c')) ->
  (forall f k c', d = Some f -> readable f k -> Q NGX_OK (World d false false (Some k) false c')) ->
  (forall i c', d = None -> let k := generate i in Q NGX_OK (World (Some (File Plain 0x180 (geteuid E) (pkcs8 k) true)) false false (Some k) false c')) ->
  wp (ngx_autocert_account_load_key E generate pkcs8 parse fuel) (World d false false None false c) Q X.
Proof.
  intros Hf1 Hf2 HF HT HN. assert (Hloud : forall i d' c', fails E i = true -> (d <> None -> d' = d) -> Q NGX_ERROR (World d' false false None false c')).
  { intros i d' c' H1 H2. apply HF; [done|]. intros [[H _] _]. by rewrite H in H1. }
  unfold ngx_autocert_account_load_key. apply wp_bind, ak_attempt. destruct (fails E c) eqn:E1; cbn [negb]; [by apply wp_ret, (Hloud c)|].
  apply wp_bind, ak_set_dir, wp_bind, ak_attempt, wp_bind, ak_disk. destruct d as [f|].
  - assert (Hno : ~ (exists k, readable f k) -> forall c', Q NGX_ERROR (World (Some f) false false None false c')) by (intros Hk c'; apply HF; [done|]; intros [_ H]; by apply Hk, H).
    assert (Hsys : forall e, fails E (S c) = e ->
      wp (if e then close_dir;; ret NGX_ERROR else set_file true;; close_dir;; read_key E parse fuel f) (World (Some f) true false None false (S (S c))) Q X \/ f_kind f = SymbolicLink).
    { intros [] E2; [left; by apply wp_bind, ak_close_dir, wp_ret, (Hloud (S c))|]. destruct (f_kind f) eqn:Ek; [left|left|by right];
        apply wp_bind, ak_set_file, wp_bind, ak_close_dir, ak_read_key; try done.
      1,3: intros c' Hn; apply HF; [done|]; intros [Hq Hr]; destruct (Hr f eq_refl) as (k & _ & Ha & Hp); apply Hn; repeat split; [apply Hq..|done|by rewrite Hp].
      all: intros c' k Ha Hp; by eapply HT; [|repeat split; [by rewrite Ek|..]]. }
    specialize (Hsys _ eq_refl) as [H|Ek].
    + destruct (f_kind f) eqn:Ek; [by destruct (fails E (S c))..|]. apply wp_bind, ak_close_dir, wp_ret, Hno. intros (k & Hk & _). by rewrite Ek in Hk.
    + rewrite Ek. apply wp_bind, ak_close_dir, wp_ret, Hno. intros (k & Hk & _). by rewrite Ek in Hk.
  - destruct (fails E (S c)) eqn:E2; cbn [negb]; [by apply wp_bind, ak_close_dir, wp_ret, (Hloud (S c))|].
    apply wp_bind, ak_attempt, wp_bind, ak_calls. destruct (fails E (S (S c))) eqn:E3; cbn [negb]; [by apply wp_bind, ak_close_dir, wp_ret, (Hloud (S (S c)))|].
    cbv zeta. apply wp_bind, ak_set_key, wp_bind, ak_save_key; [apply Hf2| |].
    + intros d' c' _ Hq. apply wp_bind, ak_close_dir. cbn [Z.eqb negb NGX_ERROR NGX_OK]. apply wp_bind, ak_set_key, wp_ret, HF; [done|].
      intros [Hquiet _]. by apply Hq.
    + intros c' _. apply wp_bind, ak_close_dir, wp_ret. by apply HN.
Qed.
End Rules.

(** ** What is loaded *)

(** The account holds no descriptor and no plain text of a key. *)
Definition clean {K} (w : world K) : Prop := dir_open w = false /\ file_open w = false /\ secret w = false.

(** The state of a start, with [d] on the disk. *)
Definition starting {K} (d : option file) (c : nat) : world K := World d false false None false c.

Section Promises.
Context {K : Type} (generate : nat -> K) (pkcs8 : K -> bytes) (parse : bytes -> option K) (fuel N : nat).
Context (Hread : (64 * 1024 + N < fuel)%nat) (Hwrite : forall k, (length (pkcs8 k) + N < fuel)%nat).
Abbreviation load E := (ngx_autocert_account_load_key E generate pkcs8 parse fuel).
Abbreviation calm E := (forall c, (N <= c)%nat -> interrupted E c = false).

(** Whatever fails, the call returns with no descriptor open and no plain text of a key in
    memory. It succeeds with the key of the file that was there, which was this user's alone,
    or with a new key in a file that now holds it under mode 0600, on the disk; a file that
    was there is never altered, and no key is held when it fails, which it does only for a
    call that failed or a file that is not acceptable. *)
Theorem account_key_outcome (E : system) (d : option file) (c : nat) : calm E ->
  exists r w, load E (starting d c) = Ret r w /\ clean w /\ (d <> None -> on_disk w = d)
  /\ (r = NGX_OK /\ (exists f k, d = Some f /\ acct_key w = Some k /\ readable E parse f k
                     \/ d = None /\ on_disk w = Some f /\ acct_key w = Some k /\ f = File Plain 0x180 (geteuid E) (pkcs8 k) true)
      \/ r = NGX_ERROR /\ acct_key w = None)
  /\ (quiet E -> (forall f, d = Some f -> exists k, readable E parse f k) -> r = NGX_OK).
Proof.
  intros Hcalm. set (Q := fun (r : Z) (w : world K) => clean w /\ (d <> None -> on_disk w = d)
    /\ (r = NGX_OK /\ (exists f k, d = Some f /\ acct_key w = Some k /\ readable E parse f k
                       \/ d = None /\ on_disk w = Some f /\ acct_key w = Some k /\ f = File Plain 0x180 (geteuid E) (pkcs8 k) true)
        \/ r = NGX_ERROR /\ acct_key w = None)
    /\ (quiet E -> (forall f, d = Some f -> exists k, readable E parse f k) -> r = NGX_OK)).
  assert (W : wp (load E) (starting d c) Q (fun _ => False)).
  { apply (ak_load_key E generate pkcs8 parse fuel N Hcalm); [done|done|..]; unfold Q.
    - intros d' c' Hd Hn. split; [done|]. split; [exact Hd|]. split; [by right|]. intros H1 H2. by destruct Hn.
    - intros f k c' -> Hr. split; [done|]. split; [done|]. split; [|done]. left. split; [done|]. exists f, k. by left.
    - intros i c' ->. split; [done|]. split; [done|]. split; [|done]. left. split; [done|]. eexists _, _. by right. }
  unfold wp in W. destruct (load E (starting d c)) as [r w| | |]; [by exists r, w|done..].
Qed.

(** ** The key that is kept *)

(** C33. The key a start ends up with, its own or one it made, is the key of every later start by
    the same user: such a start leaves the file as it is, ends with that key or, a call having
    failed, with none, and leaves no descriptor open and no plain text of the key in memory. *)
Theorem account_key_kept (E E' : system) (d : option file) (c c' : nat) (w : world K) (k : K) :
  calm E -> calm E' -> geteuid E' = geteuid E ->
  (forall k, parse (pkcs8 k) = Some k /\ (0 < length (pkcs8 k) <= 64 * 1024)%nat) ->
  load E (starting d c) = Ret NGX_OK w -> acct_key w = Some k ->
  exists r w', load E' (starting (on_disk w) c') = Ret r w' /\ clean w' /\ on_disk w' = on_disk w
  /\ (r = NGX_OK /\ acct_key w' = Some k \/ r = NGX_ERROR /\ acct_key w' = None /\ ~ quiet E').
Proof.
  intros Hc Hc' Hu Hpem E1 Hk. destruct (account_key_outcome E d c Hc) as (r & w0 & E0 & _ & Hd & Ho & _).
  assert (r = NGX_OK /\ w0 = w) as [-> ->] by (rewrite E1 in E0; by inversion E0). clear E0.
  assert (exists f, on_disk w = Some f /\ readable E' parse f k) as (f & Hf & Hr).
  { destruct Ho as [(_ & f & k' & [(Hdf & Hk' & H1 & H2 & H3)|(_ & Hdf & Hk' & ->)])|[? _]]; [..|done]; rewrite Hk in Hk'; injection Hk' as <-.
    - exists f. split; [rewrite Hd; by rewrite Hdf|]. split; [done|]. split; [|done]. unfold acceptable in *. by rewrite Hu.
    - eexists. split; [done|]. destruct (Hpem k) as [Hp Hl]. split; [done|]. split; [|done].
      unfold acceptable. cbn [f_data f_kind f_mode f_uid]. cbv zeta. rewrite Hu.
      rewrite (proj2 (Z.leb_gt _ _)) by lia. rewrite (proj2 (Z.ltb_ge _ _)) by lia.
      apply Z.eqb_refl. }
  destruct (account_key_outcome E' (on_disk w) c' Hc') as (r & w' & E2 & Hcl & Hd' & Ho' & Hq). exists r, w'.
  split; [done|]. split; [done|]. split; [apply Hd'; by rewrite Hf|]. destruct Ho' as [(-> & f' & k' & [(Hf' & Hk' & _ & _ & Hp')|(Hn & _)])|[-> Hk']].
  - left. split; [done|]. rewrite Hf in Hf'. injection Hf' as <-. destruct Hr as (_ & _ & Hp). congruence.
  - by rewrite Hf in Hn.
  - right. split; [done|]. split; [done|]. intros H. assert (NGX_ERROR = NGX_OK); [|done]. apply Hq; [done|]. intros f' Hf'. rewrite Hf in Hf'. injection Hf' as <-. by exists k.
Qed.
End Promises.

(** ** Runs *)

(** Keys are numbers; the PEM of one is that byte behind a P. *)
Definition pem_ex (k : nat) : bytes := [80; Z.of_nat k].
Definition parse_ex (b : bytes) : option nat := match b with [80; k] => Some (Z.to_nat k) | _ => None end.

(** A system in which the calls of [l] fail, the first is interrupted and writes move a byte. *)
Definition system_ex (l : list nat) : system :=
  System (fun c => existsb (Nat.eqb c) l) (fun c => (c <? 1)%nat) (fun _ => 1%nat) 0x1b4 33.

Lemma account_key_kept_witness :
  exists r w', ngx_autocert_account_load_key (system_ex [5%nat]) (fun _ => 7%nat) pem_ex parse_ex (Z.to_nat 65600)
                 (starting (Some (File Plain 0x180 33 (pem_ex 7) true)) 3) = Ret r w'
  /\ clean w' /\ on_disk w' = Some (File Plain 0x180 33 (pem_ex 7) true)
  /\ (r = NGX_OK /\ acct_key w' = Some 7%nat \/ r = NGX_ERROR /\ acct_key w' = None /\ ~ quiet (system_ex [5%nat])).
Proof.
  apply (account_key_kept (fun _ => 7%nat) pem_ex parse_ex (Z.to_nat 65600) 1) with (E := system_ex []) (d := None) (c := 0%nat)
    (w := World (Some (File Plain 0x180 33 (pem_ex 7) true)) false false (Some 7%nat) false 11); try done.
  - apply Nat2Z.inj_lt. vm_compute. done.
  - intros k. apply Nat2Z.inj_lt. cbn [length pem_ex]. lia.
  - intros n Hn. by apply (proj2 (Nat.ltb_ge n 1)).
  - intros n Hn. by apply (proj2 (Nat.ltb_ge n 1)).
  - intros k. cbn [parse_ex pem_ex length]. rewrite Nat2Z.id. split; [done|]. split; [lia|]. apply Nat2Z.inj_le. vm_compute. done.
Defined.

(** A key cut short, as a machine that stops between the creation of the file and the end of
    fsync leaves it, is refused by every start and never replaced. *)
Example truncated_key_refused :
  forallb (fun n => match ngx_autocert_account_load_key (system_ex []) (fun _ => 7%nat) pem_ex parse_ex 100
                            (starting (Some (File Plain 0x180 33 (take n (pem_ex 7)) false)) 3) with
                    | Ret r w => (r =? NGX_ERROR) && (match on_disk w with Some f => (length (f_data f) =? n)%nat | None => false end)
                    | _ => false
                    end) [0; 1]%nat = true.
Proof. vm_compute. reflexivity. Qed.

(** And so is an empty one with the mode the mask left it, which stays behind when narrowing
    the mode and removing the file both fail. *)
Example unremoved_key_left :
  match ngx_autocert_account_load_key (system_ex [6; 8]%nat) (fun _ => 7%nat) pem_ex parse_ex 100 (starting None 1) with
  | Ret r w => (r =? NGX_ERROR) && (match on_disk w with Some f => f_mode f =? 0x1b4 | None => false end)
  | _ => false
  end = true.
Proof. vm_compute. reflexivity. Qed.
