(* ===== verification/Lifecycle.v ===== *)
(** * One driver for a store (ngx_autocert_driver.c)

    Which process drives: the lock in the store, the process that waits for it, the one that
    takes over, a reload in single-process mode and the exit. *)

From S2P Require Import Prelude NgxCore Ident Expiry Ratecap Rbtree Shm Alpn Requests RequestsNames RequestsThms Registry Marker Sched SchedInv SchedLedger SchedLoops SchedRuntime SchedBoot SchedEvents SchedThms Seed.

Local Open Scope Z_scope.
Local Open Scope prog_scope.

Section Process.
(** [lock_file]: by the number of the call that opened it, the inode of the lock file of a
    store; [interrupted]: which calls a signal interrupts. *)
Context {H : Type} {R : Registry H} {X509 EVP_PKEY : Type} (E : env X509 EVP_PKEY) (listing : nat -> list bytes * Z)
  (lock_file : nat -> bytes -> nat) (interrupted : nat -> bool) (fuel : nat).
(** The process. *)
Context (me : nat).
Abbreviation P := (prog (host H)).

(** ** The lock *)

(** The file is open as [fd]; it is kept open when the lock is taken. *)
Fixpoint flock_loop (n : nat) (fd inode : nat) : P Z :=
  match n with
  | O => nofuel
  | S n =>
      let! c := on_drv next_call in
      if interrupted c then flock_loop n fd inode
      else if negb (ok E c) then close_fd fd;; ret NGX_ERROR
      else
        let! l := look locks in
        match l !! inode with
        | Some _ => close_fd fd;; ret NGX_AGAIN
        | None =>
            change (set_locks (<[inode := me]> l));;
            change (set_lock_fd (Some (fd, inode)));;
            ret NGX_OK
        end
  end.

Definition ngx_autocert_driver_trylock (cf : conf) : P Z :=
  let! held := look lock_fd in
  match held with
  | Some _ => ret NGX_OK
  | None =>
      if negb (configured cf) then ret NGX_ERROR
      else if (NGX_MAX_PATH <=? length (store_path (stores cf)))%nat then ret NGX_ERROR
      else
        let! opened := on_drv (attempt E) in
        if negb opened then ret NGX_ERROR
        else
          let! bfd := open_fd in
          let! trusted := on_drv (attempt E) in
          if negb trusted then close_fd bfd;; ret NGX_ERROR
          else
            let! c := on_drv next_call in
            if negb (ok E c) then close_fd bfd;; ret NGX_ERROR
            else
              let! fd := open_fd in
              close_fd bfd;;
              flock_loop fuel fd (lock_file c (store_path (stores cf)))
  end.

(** Closing the file gives the lock back. *)
Definition unlock : P unit :=
  let! held := look lock_fd in
  match held with
  | None => ret tt
  | Some (fd, inode) =>
      close_fd fd;;
      let! l := look locks in
      change (set_locks (delete inode l));;
      change (set_lock_fd None)
  end.

(** ** The process *)

Definition take_over (cf : conf) : P unit :=
  ngx_autocert_runtime_seed cf E listing;;
  on_drv ngx_autocert_driver_arm.

Definition ngx_autocert_driver_init_process (cf : conf) : P unit :=
  let! rc := ngx_autocert_driver_trylock cf in
  if rc =? NGX_OK then take_over cf
  else if rc =? NGX_AGAIN then change (set_relock true)
  else ret tt.

Definition ngx_autocert_relock_handler (cf : conf) : P unit :=
  let! w := look drv in
  if quitting w then ret tt
  else
    let! rc := ngx_autocert_driver_trylock cf in
    if rc =? NGX_OK then take_over cf
    else if rc =? NGX_AGAIN then change (set_relock true)
    else ret tt.

(** With the walk and the relock timer. *)
Definition cancel_timers : P unit :=
  on_drv ngx_autocert_driver_cancel_timers;;
  change (set_relock false);;
  ngx_autocert_runtime_seed_stop.

Definition driver_exit_process (cf : conf) : P unit :=
  on_drv (ngx_autocert_driver_drop_order cf);;
  on_drv ngx_autocert_driver_drop_ca_states;;
  cancel_timers;;
  unlock.

(** The cursors and the timer of the scheduler; the key type it is at stays. *)
Definition reset_scheduler : prog (world H) unit :=
  update (fun w => set_cur (Cursor 0 0 (sched_kt (cur w))) w);;
  update (fun w => set_fl (Flight (cur_order (fl w)) 0 0 (sched_runtime (fl w))) w);;
  update (fun w => set_tmr (Timers false None (kick_armed (tmr w)) (kick_timer (tmr w))) w).

(** From the configuration [old] to [new]. *)
Definition ngx_autocert_driver_reload (old new : conf) : P unit :=
  cancel_timers;;
  on_drv (ngx_autocert_driver_drop_order old);;
  on_drv ngx_autocert_driver_drop_ca_states;;
  on_drv reset_scheduler;;
  unlock;;
  ngx_autocert_driver_init_process new.

(** The relock timer. *)
Definition relock_tick (cf : conf) : P unit :=
  let! t := look relock_timer in
  if t then change (set_relock false);; ngx_autocert_relock_handler cf else ret tt.
End Process.

(** ** Processes *)

(** The processes, each with its configuration, and who holds which lock. *)
Record system (H : Type) := System { procs : gmap nat (conf * host H); held : gmap nat nat }.
Arguments System {H}.
Arguments procs {H}.
Arguments held {H}.

Section System.
Context {H : Type} {R : Registry H} {X509 EVP_PKEY : Type} (E : env X509 EVP_PKEY) (listing : nat -> list bytes * Z)
  (lock_file : nat -> bytes -> nat) (interrupted : nat -> bool) (fuel : nat).
Implicit Types (s : system H) (h : host H) (cf : conf).

(** The process [p] runs [op] to its end, and has the configuration [cf'] after it. *)
Definition runs s (p : nat) (cf' : conf) (op : conf -> prog (host H) unit) s' : Prop :=
  exists cf h h', procs s !! p = Some (cf, h) /\ op cf (set_locks (held s) h) = Ret tt h'
  /\ s' = System (<[p := (cf', h')]> (procs s)) (locks h').

(** Nothing is under way, and nothing will happen by itself. *)
Definition quiescent (w : world H) : Prop :=
  sched_timer (tmr w) = None /\ kick_timer (tmr w) = None /\ cur_order (fl w) = None /\ cas w = [].

(** Of a process that was started. *)
Definition host0 (w : world H) : host H := Host w None 0 false ∅ None false ∅.

(** What can happen: a process starts and enters its event loop, a timer fires, something
    happens to its driver, it reloads in single-process mode, it exits, it is killed, and
    others write to the registry, which stays one. *)
Inductive step : system H -> system H -> Prop :=
  | step_start s p cf w m h' : procs s !! p = None -> quiescent w -> reg_inv (registry w) m ->
      ngx_autocert_driver_init_process E listing lock_file interrupted fuel p cf (set_locks (held s) (host0 w)) = Ret tt h' ->
      step s (System (<[p := (cf, h')]> (procs s)) (locks h'))
  | step_relock s p cf s' h : procs s !! p = Some (cf, h) ->
      runs s p cf (relock_tick E listing lock_file interrupted fuel p) s' -> step s s'
  | step_seed s p cf s' h : procs s !! p = Some (cf, h) -> runs s p cf (fun cf => seed_tick cf E) s' -> step s s'
  | step_event s p cf h t e w m : procs s !! p = Some (cf, h) -> e <> EExit -> Sched.step cf E t e (drv h) = Ret tt w -> reg_inv (registry w) m ->
      step s (System (<[p := (cf, set_drv w h)]> (procs s)) (held s))
  | step_reload s p cf s' new h : procs s !! p = Some (cf, h) ->
      runs s p new (fun old => ngx_autocert_driver_reload E listing lock_file interrupted fuel p old new) s' -> step s s'
  | step_exit s p cf h h' : procs s !! p = Some (cf, h) ->
      driver_exit_process cf (set_locks (held s) h) = Ret tt h' -> step s (System (delete p (procs s)) (locks h'))
  | step_killed s p : step s (System (delete p (procs s)) (filter (fun il => il.2 <> p) (held s)))
  | step_shm s p cf h z m : procs s !! p = Some (cf, h) -> reg_inv z m ->
      step s (System (<[p := (cf, set_drv (set_registry z (drv h)) h)]> (procs s)) (held s)).

Inductive reachable : system H -> Prop :=
  | reachable_none : reachable (System ∅ ∅)
  | reachable_step s s' : reachable s -> step s s' -> reachable s'.

(** Something is under way, or will happen by itself. *)
Definition driving h : Prop := ~ quiescent (drv h) \/ seed_dh h <> None \/ seed_timer h = true.
End System.

(** ** Rules *)

Section Rules.
Context {H : Type} {R : Registry H} {X509 EVP_PKEY : Type} (E : env X509 EVP_PKEY) (listing : nat -> list bytes * Z)
  (lock_file : nat -> bytes -> nat) (interrupted : nat -> bool) (fuel : nat) (me : nat).
(** Signals interrupt none of the calls from the [N]-th on. *)
Context (N : nat) (Hcalm : forall c, (N <= c)%nat -> interrupted c = false) (Hfuel : (N < fuel)%nat).
Implicit Types (w : world H) (h : host H) (F : gset nat) (cf : conf).

Lemma wp_on_attempt w dh kt t F l r L (Q : bool -> host H -> Prop) X :
  Q (ok E (calls w)) (Host (set_calls (S (calls w)) w) dh kt t F l r L) -> wp (on_drv (attempt E)) (Host w dh kt t F l r L) Q X.
Proof. exact id. Qed.

Lemma wp_on_call w dh kt t F l r L (Q : nat -> host H -> Prop) X :
  Q (calls w) (Host (set_calls (S (calls w)) w) dh kt t F l r L) -> wp (on_drv next_call) (Host w dh kt t F l r L) Q X.
Proof. exact id. Qed.

Lemma wp_open_fd w dh kt t F l r L (Q : nat -> host H -> Prop) X :
  (forall fd, fd ∉ F -> Q fd (Host w dh kt t (F ∪ {[fd]}) l r L)) -> wp open_fd (Host w dh kt t F l r L) Q X.
Proof. intros HQ. apply HQ, is_fresh. Qed.

Lemma wp_close_file w dh kt t F F' fd l r L (Q : unit -> host H -> Prop) X :
  fd ∈ F -> F ∖ {[fd]} = F' -> Q tt (Host w dh kt t F' l r L) -> wp (close_fd fd) (Host w dh kt t F l r L) Q X.
Proof. intros Hfd <- HQ. unfold wp, close_fd. cbn [fds]. by rewrite decide_True. Qed.

Lemma wp_look {A} (f : host H -> A) h (Q : A -> host H -> Prop) X : Q (f h) h -> wp (look f) h Q X.
Proof. exact id. Qed.

Lemma wp_change f h (Q : unit -> host H -> Prop) X : Q tt (f h) -> wp (change f) h Q X.
Proof. exact id. Qed.

Lemma put_back F fd : fd ∉ F -> (F ∪ {[fd]}) ∖ {[fd]} = F.
Proof. set_solver. Qed.

Lemma wp_flock_loop n w dh kt t F fd i r L (Q : Z -> host H -> Prop) :
  (N - calls w < n)%nat -> fd ∉ F ->
  (forall m, ~ (forall c, ok E c = true) -> Q NGX_ERROR (Host (set_calls m w) dh kt t F None r L)) ->
  (forall m, is_Some (L !! i) -> Q NGX_AGAIN (Host (set_calls m w) dh kt t F None r L)) ->
  (forall m, L !! i = None -> Q NGX_OK (Host (set_calls m w) dh kt t (F ∪ {[fd]}) (Some (fd, i)) r (<[i := me]> L))) ->
  wp (flock_loop E interrupted me n fd i) (Host w dh kt t (F ∪ {[fd]}) None r L) Q (fun _ => False).
Proof.
  revert w. induction n as [|n IH]; intros w Hn Hfd HE HA HO; [lia|]. cbn [flock_loop]. apply wp_bind, wp_on_call. destruct (interrupted (calls w)) eqn:Ei.
  - assert (calls w < N)%nat by (destruct (Nat.lt_ge_cases (calls w) N) as [|Hc]; [done|]; apply Hcalm in Hc; congruence).
    apply IH; [cbn; lia|done|..]; intros m; [apply HE|apply HA|apply HO].
  - destruct (ok E (calls w)) eqn:Eo; cbn [negb].
    2: { apply wp_bind, (wp_close_file _ _ _ _ _ F); [set_solver|by apply put_back|]. apply wp_ret, HE. intros Hok. by rewrite Hok in Eo. }
    apply wp_bind, wp_look. cbn [locks]. destruct (L !! i) eqn:El.
    + apply wp_bind, (wp_close_file _ _ _ _ _ F); [set_solver|by apply put_back|]. apply wp_ret, HA. by eexists.
    + apply wp_bind, wp_change, wp_bind, wp_change, wp_ret. by apply HO.
Qed.

(** Nothing is in the way of the lock but another process. *)
Definition unhindered cf : Prop :=
  configured cf = true /\ (length (store_path (stores cf)) < NGX_MAX_PATH)%nat /\ forall c, ok E c = true.

Ltac open_case E1 := match goal with |- wp (if negb ?b then _ else _) _ _ _ => destruct b eqn:E1 end.

Lemma wp_trylock cf w dh kt t F r L (Q : Z -> host H -> Prop) :
  (forall rc m, rc = NGX_ERROR /\ ~ unhindered cf \/ rc = NGX_AGAIN /\ (exists c, is_Some (L !! lock_file c (store_path (stores cf)))) ->
     Q rc (Host (set_calls m w) dh kt t F None r L)) ->
  (forall m fd c, fd ∉ F -> L !! lock_file c (store_path (stores cf)) = None ->
     Q NGX_OK (Host (set_calls m w) dh kt t (F ∪ {[fd]}) (Some (fd, lock_file c (store_path (stores cf)))) r (<[lock_file c (store_path (stores cf)) := me]> L))) ->
  wp (ngx_autocert_driver_trylock E lock_file interrupted fuel me cf) (Host w dh kt t F None r L) Q (fun _ => False).
Proof.
  intros HF HT. assert (HE : forall m, ~ unhindered cf -> Q NGX_ERROR (Host (set_calls m w) dh kt t F None r L)) by (intros m Hn; apply HF; by left).
  assert (Hw : forall Q : host H -> Prop, (forall m, Q (Host (set_calls m w) dh kt t F None r L)) -> Q (Host w dh kt t F None r L)) by (intros Q' HQ'; specialize (HQ' (calls w)); by destruct w).
  unfold ngx_autocert_driver_trylock. apply wp_bind, wp_look. cbn [lock_fd].
  destruct (configured cf) eqn:Ec; cbn [negb]; [|apply wp_ret, Hw; intros m; apply HE; intros (Hc & _); congruence].
  destruct (Nat.leb_spec NGX_MAX_PATH (length (store_path (stores cf)))) as [Hl|Hl]; [apply wp_ret, Hw; intros m; apply HE; intros (_ & Hl' & _); lia|].
  assert (Hbad : forall c, ok E c = false -> ~ unhindered cf) by (intros c Hc (_ & _ & Hok); by rewrite Hok in Hc).
  apply wp_bind, wp_on_attempt. open_case E1; cbn [negb]; [|by apply wp_ret, HE, (Hbad _ E1)].
  apply wp_bind, wp_open_fd. intros bfd Hb. apply wp_bind, wp_on_attempt. open_case E2; cbn [negb].
  2: { apply wp_bind, (wp_close_file _ _ _ _ _ F); [set_solver|by apply put_back|]. by apply wp_ret, (HE (S (S (calls w)))), (Hbad _ E2). }
  apply wp_bind, wp_on_call. open_case E3; cbn [negb].
  2: { apply wp_bind, (wp_close_file _ _ _ _ _ F); [set_solver|by apply put_back|]. by apply wp_ret, (HE (S (S (S (calls w))))), (Hbad _ E3). }
  apply wp_bind, wp_open_fd. intros fd Hfd. apply wp_bind, (wp_close_file _ _ _ _ _ (F ∪ {[fd]})); [set_solver|set_solver|].
  apply wp_flock_loop; [lia|set_solver| | |].
  - intros m Hok. apply HE. by intros (_ & _ & ?).
  - intros m Hs. apply HF. right. split; [done|]. by eexists.
  - intros m Hn. by apply HT; [set_solver|].
Qed.
End Rules.

(** ** What a process keeps *)

Section Keeping.
Context {H : Type} {R : Registry H} {X509 EVP_PKEY : Type} (E : env X509 EVP_PKEY) (listing : nat -> list bytes * Z)
  (lock_file : nat -> bytes -> nat) (interrupted : nat -> bool) (fuel : nat).
Context (N : nat) (Hcalm : forall c, (N <= c)%nat -> interrupted c = false) (Hfuel : (N < fuel)%nat).
Implicit Types (w : world H) (h : host H) (F : gset nat) (cf : conf) (L : gmap nat nat).

Definition walk_fd h : gset nat := match seed_dh h with Some (fd, _) => {[fd]} | None => ∅ end.
Definition held_fd h : gset nat := match lock_fd h with Some (fd, _) => {[fd]} | None => ∅ end.

(** The descriptors that are open are those of the walk and of the lock. *)
Definition accounted h : Prop := fds h = walk_fd h ∪ held_fd h /\ walk_fd h ## held_fd h.

(** The locks of the process are the one it knows of, on the file of its store; without it
    nothing is under way. *)
Record good_proc (p : nat) cf h : Prop := {
  gp_accounted : accounted h;
  gp_locks : forall i, locks h !! i = Some p <-> exists fd, lock_fd h = Some (fd, i);
  gp_idle : lock_fd h = None -> ~ driving h;
  gp_file : forall fd i, lock_fd h = Some (fd, i) -> exists c, i = lock_file c (store_path (stores cf));
  gp_registry : exists m, reg_inv (registry (drv h)) m }.

(** The locks of the others are as they were. *)
Definition kept (p : nat) L L' : Prop := forall i q, q <> p -> (L !! i = Some q <-> L' !! i = Some q).

Lemma accounted_sound h : accounted h -> sound h.
Proof. intros [HF _]. unfold sound, walk_fd in *. destruct (seed_dh h) as [[fd st]|]; [|done]. rewrite HF. set_solver. Qed.

Lemma accounted_others h : accounted h -> others h = held_fd h.
Proof. intros [HF Hd]. unfold others, walk_fd in *. destruct (seed_dh h) as [[fd st]|]; rewrite HF; set_solver. Qed.

Lemma accounted_idle w kt h : accounted (idle w kt (held_fd h) h).
Proof. split; [unfold walk_fd, held_fd; cbn; set_solver|]. unfold walk_fd. cbn. set_solver. Qed.

Lemma accounted_walking w fd names err kt t h : fd ∉ held_fd h -> accounted (walking w fd names err kt t (held_fd h ∪ {[fd]}) h).
Proof. intros Hfd. unfold accounted, walk_fd, held_fd in *. cbn. split; set_solver. Qed.

Lemma host_eta h : h = Host (drv h) (seed_dh h) (seed_key_type h) (seed_timer h) (fds h) (lock_fd h) (relock_timer h) (locks h).
Proof. by destruct h. Qed.

Lemma kept_locks_refl p L : kept p L L.
Proof. done. Qed.

Lemma kept_trans p L1 L2 L3 : kept p L1 L2 -> kept p L2 L3 -> kept p L1 L3.
Proof. intros K1 K2 i q Hq. by rewrite (K1 i q Hq), (K2 i q Hq). Qed.

Lemma wp_stop h (Q : unit -> host H -> Prop) X :
  accounted h -> Q tt (idle (drv h) (seed_key_type h) (held_fd h) h) -> wp ngx_autocert_runtime_seed_stop h Q X.
Proof.
  intros Ha HQ. rewrite <- (accounted_others h Ha) in HQ. apply accounted_sound in Ha. destruct h as [w [[fd [names err]]|] kt t F l r L]; [|exact HQ].
  change (Host w (Some (fd, (names, err))) kt t F l r L) with (walking w fd names err kt t F (Host w None kt t F l r L)).
  unfold wp. by rewrite stop_walking.
Qed.

(** *** The walk *)

Lemma wp_seed_step cf h m (Q : unit -> host H -> Prop) :
  accounted h -> reg_inv (registry (drv h)) m ->
  (forall h' m', accounted h' -> reg_inv (registry (drv h')) m' -> lock_fd h' = lock_fd h -> locks h' = locks h -> relock_timer h' = relock_timer h -> Q tt h') ->
  wp (ngx_autocert_runtime_seed_step cf E) h Q (fun _ => False).
Proof.
  intros Ha Hi HQ. assert (Hstop : wp ngx_autocert_runtime_seed_stop h Q (fun _ => False)) by (apply wp_stop; [done|]; apply (HQ _ m); [apply accounted_idle|done..]).
  unfold ngx_autocert_runtime_seed_step. apply wp_bind, wp_look. destruct (seed_dh h) as [[fd [names err]]|] eqn:Ed; [|by apply wp_ret, (HQ _ m)].
  apply wp_bind, wp_look. destruct (quitting (drv h)); [done|]. destruct (seedable cf); cbn [negb]; [|done].
  destruct h as [w dh kt t F l r L]. cbn in Ed, Hi. subst dh. set (h := Host w None kt t F l r L).
  destruct (visit_all_runs cf E w kt (take NGX_AUTOCERT_SEED_CHUNK names) m Hi) as (w1 & m1 & E1 & _ & Hi1 & _).
  pose proof (walk_chunk_run cf E NGX_AUTOCERT_SEED_CHUNK names w w1 fd err kt t F h E1) as Ec. unfold walking in Ec. cbn [lock_fd relock_timer locks h] in Ec.
  apply wp_bind. unfold wp at 1. rewrite Ec. assert (Ha1 : forall names' t', accounted (Host w1 (Some (fd, (names', err))) kt t' F l r L)) by done.
  assert (Hstop1 : forall names', wp ngx_autocert_runtime_seed_stop (Host w1 (Some (fd, (names', err))) kt t F l r L) Q (fun _ => False)).
  { intros names'. apply wp_stop; [done|]. by apply (HQ _ m1); [apply accounted_idle|..]. }
  destruct (_ <? _)%nat; [destruct (err =? 0); apply Hstop1|]. cbn [Z.eqb NGX_AGAIN NGX_ERROR NGX_DONE]. apply wp_change. by apply (HQ _ m1).
Qed.

Lemma wp_seed_tick cf h m (Q : unit -> host H -> Prop) :
  accounted h -> reg_inv (registry (drv h)) m ->
  (forall h' m', accounted h' -> reg_inv (registry (drv h')) m' -> lock_fd h' = lock_fd h -> locks h' = locks h -> relock_timer h' = relock_timer h ->
     (seed_timer h = false -> h' = h) -> Q tt h') ->
  wp (seed_tick cf E) h Q (fun _ => False).
Proof.
  intros Ha Hi HQ. unfold seed_tick. apply wp_bind, wp_look. destruct (seed_timer h) eqn:Et; [|by apply wp_ret, (HQ _ m)].
  apply wp_bind, wp_change, (wp_seed_step _ _ m); [done|done|]. intros h' m' Ha' Hi' E1 E2 E3. by apply (HQ h' m').
Qed.

Lemma wp_runtime_seed cf h m (Q : unit -> host H -> Prop) :
  accounted h -> reg_inv (registry (drv h)) m ->
  (forall h' m', accounted h' -> reg_inv (registry (drv h')) m' -> lock_fd h' = lock_fd h -> locks h' = locks h -> relock_timer h' = relock_timer h -> Q tt h') ->
  wp (ngx_autocert_runtime_seed cf E listing) h Q (fun _ => False).
Proof.
  intros Ha Hi HQ. unfold ngx_autocert_runtime_seed. apply wp_bind. destruct (seed_open_cases cf E listing h (accounted_sound h Ha)) as (walk & h1 & Eo & Hc).
  rewrite (accounted_others h Ha) in Hc. unfold wp at 1. rewrite Eo. destruct walk.
  - destruct Hc as (_ & w & fd & n & -> & _ & Er & Hfd). apply (wp_seed_step _ _ m); [by apply accounted_walking|cbn; by rewrite Er|].
    intros h' m' Ha' Hi' E1 E2 E3. by apply (HQ h' m').
  - destruct Hc as (w & kt & -> & _ & Er). apply wp_ret, (HQ _ m); [apply accounted_idle|cbn; by rewrite Er|done..].
Qed.

(** *** Taking over *)

Lemma wp_take_over cf h m (Q : unit -> host H -> Prop) :
  accounted h -> reg_inv (registry (drv h)) m ->
  (forall h' m', accounted h' -> reg_inv (registry (drv h')) m' -> lock_fd h' = lock_fd h -> locks h' = locks h -> kick_timer (tmr (drv h')) = Some NGX_AUTOCERT_KICK -> Q tt h') ->
  wp (take_over E listing cf) h Q (fun _ => False).
Proof.
  intros Ha Hi HQ. apply wp_bind, (wp_runtime_seed _ _ m); [done|done|]. intros h' m' Ha' Hi' E1 E2 _.
  exact (HQ (set_drv (set_tmr (Timers (sched_armed (tmr (drv h'))) (sched_timer (tmr (drv h'))) true (Some NGX_AUTOCERT_KICK)) (drv h')) h') m' Ha' Hi' E1 E2 eq_refl).
Qed.

(** The process without a lock. *)
Lemma free_fds p cf h : good_proc p cf h -> lock_fd h = None -> fds h = ∅ /\ seed_dh h = None /\ seed_timer h = false /\ quiescent (drv h).
Proof.
  intros G Hl. pose proof (gp_idle _ _ _ G Hl) as Hi. destruct (gp_accounted _ _ _ G) as [HF _]. unfold driving in Hi.
  assert (Hd : seed_dh h = None) by (destruct (seed_dh h); [exfalso; apply Hi; right; by left|done]).
  split; [unfold walk_fd, held_fd in HF; rewrite Hd, Hl in HF; set_solver|]. split; [done|]. split; [destruct (seed_timer h); [exfalso; apply Hi; by right; right|done]|].
  unfold quiescent. destruct (decide (sched_timer (tmr (drv h)) = None)); [|exfalso; apply Hi; left; by intros [? _]].
  destruct (decide (kick_timer (tmr (drv h)) = None)); [|exfalso; apply Hi; left; by intros (_ & ? & _)].
  destruct (cur_order (fl (drv h))) eqn:Eo; [exfalso; apply Hi; left; intros (_ & _ & ? & _); congruence|].
  destruct (cas (drv h)) eqn:Ec; [done|]. exfalso. apply Hi. left. intros (_ & _ & _ & ?). congruence.
Qed.

Lemma kept_take p i L : L !! i = None -> kept p L (<[i := p]> L).
Proof. intros Hi j q Hq. destruct (decide (j = i)) as [->|Hne]; [rewrite lookup_insert_eq, Hi; naive_solver|by rewrite lookup_insert_ne]. Qed.

(** What an attempt at the lock may come to. *)
Definition attempted (p : nat) cf h h' : Prop :=
  good_proc p cf h' /\ kept p (locks h) (locks h')
  /\ (unhindered E cf -> lock_fd h' <> None /\ kick_timer (tmr (drv h')) = Some NGX_AUTOCERT_KICK
      \/ relock_timer h' = true /\ exists c, is_Some (locks h !! lock_file c (store_path (stores cf)))).

Lemma wp_try_drive p cf cf0 h :
  good_proc p cf0 h -> lock_fd h = None ->
  wp (ngx_autocert_driver_init_process E listing lock_file interrupted fuel p cf) h (fun _ h' => attempted p cf h h') (fun _ => False).
Proof.
  intros G Hl. destruct (free_fds _ _ _ G Hl) as (HF & Hd & Ht & Hq). destruct (gp_registry _ _ _ G) as [m Hi].
  pose proof (gp_locks _ _ _ G) as Hmine. destruct h as [w dh kt t F l r L]. cbn in Hl, HF, Hd, Ht, Hq, Hi, Hmine. subst dh t F l.
  assert (Hnone : forall i, L !! i <> Some p) by (intros i Hp; apply Hmine in Hp as [fd Hfd]; done).
  assert (Hfree : forall n r', good_proc p cf (Host (set_calls n w) None kt false ∅ None r' L)).
  { intros n r'. split; [by split; [unfold walk_fd, held_fd; cbn; set_solver|unfold walk_fd; cbn; set_solver]| | |done|by exists m].
    - intros i. split; [by intros ?%Hnone|by intros [? ?]].
    - intros _ [Hd|[Hd|Hd]]; [by apply Hd|done|done]. }
  unfold ngx_autocert_driver_init_process. apply wp_bind, (wp_trylock E listing lock_file interrupted fuel p N Hcalm Hfuel).
  - intros rc n [[-> Hno]|[-> Hheld]]; cbn [Z.eqb NGX_ERROR NGX_AGAIN NGX_OK].
    + apply wp_ret. split; [apply Hfree|]. split; [done|]. by intros ?%Hno.
    + apply wp_change. split; [apply Hfree|]. split; [done|]. intros _. by right.
  - intros n fd c Hfd HL. cbn [Z.eqb NGX_OK]. set (i := lock_file c (store_path (stores cf))) in *.
    eapply (wp_take_over _ _ m); [split; [unfold walk_fd, held_fd; cbn; set_solver|unfold walk_fd; cbn; set_solver]|done|].
    intros h' m' Ha' Hi' E1 E2 Ek. cbn in E1, E2. split; [|split; [cbn [locks]; rewrite E2; by apply kept_take|]].
    + split; [done| |intros Hn; by rewrite E1 in Hn| |by exists m'].
      * intros j. rewrite E1, E2. destruct (decide (j = i)) as [->|Hne]; [rewrite lookup_insert_eq; split; [by exists fd|done]|].
        rewrite lookup_insert_ne by done. split; [by intros ?%Hnone|]. by intros [fd' [= _ ?]].
      * intros fd' j. rewrite E1. intros [= _ <-]. by exists c.
    + intros _. left. by rewrite E1.
Qed.

(** *** Letting go *)

Lemma wp_on_drv {A} (m : prog (world H) A) h (Q : A -> host H -> Prop) :
  wp m (drv h) (fun a w => Q a (set_drv w h)) (fun _ => False) -> wp (on_drv m) h Q (fun _ => False).
Proof. unfold wp, on_drv. by destruct (m (drv h)). Qed.

Lemma wp_drop_flight cf w m (Q : unit -> world H -> Prop) :
  reg_inv (registry w) m ->
  (forall w' m', reg_inv (registry w') m' -> cur_order (fl w') = None -> tmr w' = tmr w -> cas w' = cas w -> Q tt w') ->
  wp (ngx_autocert_driver_drop_order cf) w Q (fun _ => False).
Proof.
  intros Hi HQ. unfold ngx_autocert_driver_drop_order. apply wp_bind, wp_read_world. destruct (cur_order (fl w)) as [o|] eqn:Eo; [|by apply wp_ret, (HQ _ m)].
  apply wp_bind. destruct (sched_runtime (fl w) && requests_zone cf); [|by apply wp_ret, wp_update_world, (HQ _ m)].
  apply wp_bind. unfold set_state. apply wp_bind, wp_read_world, wp_on_registry. eapply wp_weaken; [by apply reg_set_state_spec|].
  intros rc z (m' & Hi' & _). by apply wp_ret, wp_update_world, (HQ _ m').
Qed.

(** What the process knows of its locks. *)
Definition knows (p : nat) h : Prop := forall i, locks h !! i = Some p <-> exists fd, lock_fd h = Some (fd, i).

Lemma wp_let_go p cf h m (Q : unit -> host H -> Prop) :
  accounted h -> knows p h -> quiescent (drv h) -> seed_dh h = None -> seed_timer h = false -> reg_inv (registry (drv h)) m ->
  (forall h', good_proc p cf h' -> lock_fd h' = None -> kept p (locks h) (locks h') -> (forall i, locks h' !! i <> Some p) -> Q tt h') ->
  wp unlock h Q (fun _ => False).
Proof.
  intros [HF Hdis] Hk Hq Hd Ht Hi HQ. destruct h as [w dh kt t F l r L]. cbn in Hd, Ht, Hq, Hi. subst dh t.
  assert (Hdone : forall L', (forall i, L' !! i <> Some p) -> kept p L L' -> Q tt (Host w None kt false ∅ None r L')).
  { intros L' Hno HK. apply HQ; [|done..]. split; [by split; [unfold walk_fd, held_fd; cbn; set_solver|unfold walk_fd; cbn; set_solver]| | |done|by exists m].
    - intros i. split; [by intros ?%Hno|by intros [? ?]].
    - intros _ [Hd|[Hd|Hd]]; [by apply Hd|done|done]. }
  unfold unlock. apply wp_bind, wp_look. unfold knows in Hk. unfold walk_fd, held_fd in HF. cbn in Hk, HF. destruct l as [[fd i]|].
  - apply wp_bind, (wp_close_file _ _ _ _ _ ∅); [set_solver|set_solver|]. apply wp_bind, wp_look, wp_bind, wp_change, wp_change. apply Hdone.
    + intros j Hj. cbn in Hj. destruct (decide (j = i)) as [->|Hne]; [by rewrite lookup_delete_eq in Hj|]. rewrite lookup_delete_ne in Hj by done.
      apply Hk in Hj as [fd' [= _ ?]]. congruence.
    + intros j q Hq'. cbn. destruct (decide (j = i)) as [->|Hne]; [|by rewrite lookup_delete_ne]. rewrite lookup_delete_eq.
      assert (L !! i = Some p) as -> by (apply Hk; by exists fd). naive_solver.
  - assert (F = ∅) as -> by set_solver. apply wp_ret, Hdone; [|done]. intros i Hp. apply Hk in Hp as [fd Hfd]. done.
Qed.

Lemma wp_cancel_timers h (Q : unit -> host H -> Prop) :
  accounted h ->
  Q tt (idle (set_tmr (Timers (sched_armed (tmr (drv h))) None (kick_armed (tmr (drv h))) None) (drv h)) (seed_key_type h) (held_fd h) (set_relock false h)) ->
  wp cancel_timers h Q (fun _ => False).
Proof.
  intros Ha HQ. unfold cancel_timers. apply wp_bind. apply wp_on_drv, wp_update_world, wp_bind, wp_change. apply wp_stop; [exact Ha|exact HQ].
Qed.

Lemma wp_driver_exit p cf h :
  good_proc p cf h -> wp (driver_exit_process cf) h (fun _ h' => fds h' = ∅ /\ ~ driving h' /\ kept p (locks h) (locks h') /\ forall i, locks h' !! i <> Some p) (fun _ => False).
Proof.
  intros G. destruct (gp_registry _ _ _ G) as [m Hi]. pose proof (gp_accounted _ _ _ G) as Ha. unfold driver_exit_process.
  apply wp_bind, wp_on_drv, (wp_drop_flight _ _ m); [done|]. intros w' m' Hi' Ho Et Ec. apply wp_bind. apply wp_on_drv, wp_update_world.
  apply wp_bind, wp_cancel_timers; [exact Ha|]. apply (wp_let_go p cf _ m'); [exact (accounted_idle _ _ (set_relock false _))|exact (gp_locks _ _ _ G)|done|done|done|done|].
  intros h' G' Hl' HK Hno. destruct (free_fds _ _ _ G' Hl') as (HF & _). split; [done|]. split; [by apply (gp_idle _ _ _ G')|]. by split.
Qed.

(** A process that could drive does, or waits. *)
Definition waits cf h : Prop := unhindered E cf -> quitting (drv h) = false -> lock_fd h <> None \/ relock_timer h = true.

Lemma attempted_waits p cf h h' : attempted p cf h h' -> waits cf h'.
Proof. intros (_ & _ & HL) Hu _. destruct (HL Hu) as [[? _]|[? _]]; [by left|by right]. Qed.

Lemma attempted_kept p cf h0 h h' : kept p (locks h0) (locks h) -> attempted p cf h h' -> good_proc p cf h' /\ kept p (locks h0) (locks h') /\ waits cf h'.
Proof. intros K Ha. pose proof (attempted_waits _ _ _ _ Ha). destruct Ha as (G & K' & _). split; [done|]. split; [by eapply kept_trans|done]. Qed.

Lemma wp_reload p old new h :
  good_proc p old h -> wp (ngx_autocert_driver_reload E listing lock_file interrupted fuel p old new) h (fun _ h' => good_proc p new h' /\ kept p (locks h) (locks h') /\ waits new h') (fun _ => False).
Proof.
  intros G. destruct (gp_registry _ _ _ G) as [m Hi]. pose proof (gp_accounted _ _ _ G) as Ha. unfold ngx_autocert_driver_reload.
  apply wp_bind, wp_cancel_timers; [exact Ha|]. apply wp_bind, wp_on_drv, (wp_drop_flight _ _ m); [exact Hi|]. intros w' m' Hi' Ho Et Ec.
  apply wp_bind. apply wp_on_drv, wp_update_world, wp_bind. apply wp_on_drv. unfold reset_scheduler. apply wp_bind, wp_update_world, wp_bind, wp_update_world, wp_update_world.
  apply wp_bind, (wp_let_go p new _ m'); [exact (accounted_idle _ _ (set_relock false _))|exact (gp_locks _ _ _ G)| |done|done|done|].
  { unfold quiescent. cbn. rewrite Et. by rewrite Ho. }
  intros h1 G1 Hl1 HK1 _. eapply wp_weaken; [by apply (wp_try_drive p new new)|]. intros [] h' Hatt. by eapply attempted_kept.
Qed.

(** *** Waiting *)

Lemma wp_relock_tick p cf h :
  good_proc p cf h ->
  wp (relock_tick E listing lock_file interrupted fuel p cf) h
    (fun _ h' => good_proc p cf h' /\ kept p (locks h) (locks h') /\ (waits cf h -> waits cf h')
       /\ (lock_fd h = None -> relock_timer h = true -> quitting (drv h) = false -> attempted p cf h h')) (fun _ => False).
Proof.
  intros G. unfold relock_tick. apply wp_bind, wp_look. destruct (relock_timer h) eqn:Er; [|by apply wp_ret].
  set (h1 := set_relock false h). assert (G1 : good_proc p cf h1) by (destruct G; by split).
  apply wp_bind, wp_change. fold h1. unfold ngx_autocert_relock_handler. apply wp_bind, wp_look. change (quitting (drv h1)) with (quitting (drv h)).
  destruct (quitting (drv h)) eqn:Eq.
  { apply wp_ret. split; [done|]. split; [done|]. split; [intros _ _ Hq; change (quitting (drv h1)) with (quitting (drv h)) in Hq; congruence|done]. }
  destruct (lock_fd h1) as [[fd i]|] eqn:El.
  - apply wp_bind. unfold ngx_autocert_driver_trylock. apply wp_bind, wp_look. rewrite El. apply wp_ret. cbn [Z.eqb NGX_OK].
    destruct (gp_registry _ _ _ G1) as [m Hi]. apply (wp_take_over _ _ m); [by apply (gp_accounted p cf)|done|].
    intros h' m' Ha' Hi' E1 E2 _. rewrite El in E1. split; [|split; [by rewrite E2|split; [intros _ _ _; left; congruence|intros Hn; change (lock_fd h1) with (lock_fd h) in El; congruence]]].
    split; [done| |intros Hn; congruence| |by exists m'].
    + intros j. rewrite E2. rewrite (gp_locks _ _ _ G1). by rewrite El, E1.
    + intros fd' j Hj. apply (gp_file _ _ _ G1 fd'). congruence.
  - change (wp (ngx_autocert_driver_init_process E listing lock_file interrupted fuel p cf) h1
      (fun _ h' => good_proc p cf h' /\ kept p (locks h) (locks h') /\ (waits cf h -> waits cf h') /\ (lock_fd h = None -> true = true -> false = false -> attempted p cf h h')) (fun _ => False)).
    eapply wp_weaken; [by apply (wp_try_drive p cf cf)|]. intros [] h' Hatt. pose proof (attempted_waits _ _ _ _ Hatt). destruct Hatt as (G' & K' & HL). by split; [|split].
Qed.

(** Nothing happens to a driver at rest. *)
Lemma quiet_step cf t e w w' :
  quiescent w -> e <> EExit -> Sched.step cf E t e w = Ret tt w' -> quiescent w' /\ (quitting w' = false -> quitting w = false).
Proof.
  intros (H1 & H2 & H3 & H4) He Hs. unfold Sched.step in Hs. unfold bind at 1, update at 1 in Hs. set (w0 := set_clock (Z.max (clock w) t) w) in Hs.
  unfold handle in Hs. unfold bind at 1, read at 1 in Hs. destruct e; cbn [id] in Hs.
  - change (sched_timer (tmr w0)) with (sched_timer (tmr w)) in Hs. rewrite H1 in Hs. by injection Hs as <-.
  - change (kick_timer (tmr w0)) with (kick_timer (tmr w)) in Hs. rewrite H2 in Hs. by injection Hs as <-.
  - change (cur_order (fl w0)) with (cur_order (fl w)) in Hs. rewrite H3 in Hs. by injection Hs as <-.
  - change (cur_order (fl w0)) with (cur_order (fl w)) in Hs. rewrite H3 in Hs. by injection Hs as <-.
  - change (cas w0) with (cas w) in Hs. rewrite H4 in Hs. by injection Hs as <-.
  - unfold bind, on_registry in Hs. destruct (reg_ensure _ _ _) as [a z| | |] in Hs; [|done..]. by injection Hs as <-.
  - by injection Hs as <-.
  - by injection Hs as <-.
  - done.
Qed.

(** ** The system *)

Definition good_system (s : system H) : Prop :=
  (forall p cf h, procs s !! p = Some (cf, h) -> good_proc p cf (set_locks (held s) h) /\ waits cf h)
  /\ forall i p, held s !! i = Some p -> is_Some (procs s !! p).

Lemma good_kept p q cf L L' h : kept p L L' -> q <> p -> good_proc q cf (set_locks L h) -> good_proc q cf (set_locks L' h).
Proof.
  intros K Hq [G1 G2 G3 G4 G5]. split; [exact G1| |exact G3|exact G4|exact G5]. intros i. cbn. rewrite <- (K i q Hq). apply G2.
Qed.

Lemma good_update s p cf h' L :
  good_system s -> good_proc p cf (set_locks L h') -> waits cf h' -> kept p (held s) L -> good_system (System (<[p := (cf, h')]> (procs s)) L).
Proof.
  intros [Gs Ho] G' HW K. split; cbn [procs held].
  - intros q cfq hq Hq. destruct (decide (q = p)) as [->|Hne].
    + rewrite lookup_insert_eq in Hq. by injection Hq as <- <-.
    + rewrite lookup_insert_ne in Hq by done. destruct (Gs q cfq hq Hq) as [G W]. split; [by eapply good_kept|done].
  - intros i q Hi. destruct (decide (q = p)) as [->|Hne]; [rewrite lookup_insert_eq; by eexists|]. rewrite lookup_insert_ne by done. apply (Ho i). by apply K.
Qed.

Lemma good_own p cf h : good_proc p cf h -> good_proc p cf (set_locks (locks h) h).
Proof. by destruct h. Qed.

Lemma good_remove s p L : good_system s -> kept p (held s) L -> (forall i, L !! i <> Some p) -> good_system (System (delete p (procs s)) L).
Proof.
  intros [Gs Ho] K Hno. split; cbn [procs held].
  - intros q cfq hq Hq. destruct (decide (q = p)) as [->|Hne]; [by rewrite lookup_delete_eq in Hq|]. rewrite lookup_delete_ne in Hq by done.
    destruct (Gs q cfq hq Hq) as [G W]. split; [by eapply good_kept|done].
  - intros i q Hi. destruct (decide (q = p)) as [->|Hne]; [by apply Hno in Hi|]. rewrite lookup_delete_ne by done. apply (Ho i). by apply K.
Qed.

Lemma good_runs s p cf' op s' :
  good_system s -> runs s p cf' op s' ->
  (forall cf h, procs s !! p = Some (cf, h) -> good_proc p cf (set_locks (held s) h) -> waits cf h ->
     wp (op cf) (set_locks (held s) h) (fun _ h' => good_proc p cf' h' /\ kept p (held s) (locks h') /\ waits cf' h') (fun _ => False)) ->
  good_system s'.
Proof.
  intros Gs (cf & h & h' & Hp & Er & ->) Hop. destruct (proj1 Gs p cf h Hp) as [G W]. specialize (Hop cf h Hp G W). unfold wp in Hop. rewrite Er in Hop.
  destruct Hop as (G' & K & W'). apply good_update; [done|by apply good_own|done|done].
Qed.

Lemma kept_filter p L : kept p L (filter (fun il => il.2 <> p) L).
Proof. intros i q Hq. rewrite map_lookup_filter_Some. cbn. naive_solver. Qed.

Lemma good_step s s' : good_system s -> step E listing lock_file interrupted fuel s s' -> good_system s'.
Proof.
  intros Gs Hs. destruct Hs as [s p cf w m h' Hp Hq Hi Er|s p cf s' h Hp Hr|s p cf s' h Hp Hr|s p cf h t e w m Hp He Er Hi|s p cf s' new h Hp Hr|s p cf h h' Hp Er|s p|s p cf h z m Hp Hi].
  - assert (G0 : good_proc p cf (set_locks (held s) (host0 w))).
    { split; [by split; [unfold walk_fd, held_fd; cbn; set_solver|unfold walk_fd; cbn; set_solver]| | |done|by exists m].
      - intros i. split; [intros Hl; destruct (proj2 Gs i p Hl) as [? ?]; congruence|by intros [? ?]].
      - intros _ [Hd|[Hd|Hd]]; [by apply Hd|done|done]. }
    pose proof (wp_try_drive p cf cf _ G0 eq_refl) as Wp. unfold wp in Wp. rewrite Er in Wp. pose proof (attempted_waits _ _ _ _ Wp). destruct Wp as (G' & K & _). apply good_update; [done|by apply good_own|done|done].
  - apply (good_runs s p cf _ s' Gs Hr). intros cf0 h0 Hp0 G W. rewrite Hp in Hp0. injection Hp0 as <- <-.
    eapply wp_weaken; [by apply wp_relock_tick|]. intros [] h' (G' & K & W' & _). split; [done|]. split; [done|by apply W'].
  - apply (good_runs s p cf _ s' Gs Hr). intros cf0 h0 Hp0 G W. rewrite Hp in Hp0. injection Hp0 as <- <-.
    destruct (gp_registry _ _ _ G) as [m Hi]. apply (wp_seed_tick _ _ m); [apply (gp_accounted _ _ _ G)|done|].
    intros h' m' Ha' Hi' E1 E2 E3 Hsame. destruct (lock_fd h) as [[fd i]|] eqn:El.
    + split; [|split; [by rewrite E2|intros _ _; left; cbn in E1; congruence]]. cbn in E1. rewrite El in E1.
      split; [done| |intros Hn; congruence| |by exists m'].
      * intros j. rewrite E2, E1. rewrite (gp_locks _ _ _ G). cbn. by rewrite El.
      * intros fd' j Hj. apply (gp_file _ _ _ G fd'). cbn. congruence.
    + destruct (free_fds _ _ _ G El) as (_ & _ & Ht & _). rewrite (Hsame Ht). by split.
  - destruct (proj1 Gs p cf h Hp) as [G W].
    assert (G' : good_proc p cf (set_locks (held s) (set_drv w h))).
    { split; [exact (gp_accounted _ _ _ G)|exact (gp_locks _ _ _ G)| |exact (gp_file _ _ _ G)|by exists m].
      intros Hl. destruct (free_fds _ _ _ G Hl) as (_ & Hd & Ht & Hq). destruct (quiet_step cf t e _ _ Hq He Er) as [Hq' _]. intros [Hn|[Hn|Hn]]; [by apply Hn|done|]. cbn in Hn, Ht. congruence. }
    apply good_update; [done|exact G'| |done].
    intros Hu Hq. cbn in *. destruct (lock_fd h) eqn:El; [by left|]. destruct (free_fds _ _ _ G El) as (_ & _ & _ & Hqs).
    destruct (quiet_step cf t e _ _ Hqs He Er) as [_ Hm]. destruct (W Hu (Hm Hq)); [congruence|by right].
  - apply (good_runs s p new _ s' Gs Hr). intros cf0 h0 Hp0 G W. rewrite Hp in Hp0. injection Hp0 as <- <-. by apply wp_reload.
  - destruct (proj1 Gs p cf h Hp) as [G _]. pose proof (wp_driver_exit p cf _ G) as Wp. unfold wp in Wp. rewrite Er in Wp. destruct Wp as (_ & _ & K & Hno). by apply good_remove.
  - apply good_remove; [done|apply kept_filter|]. intros i. rewrite map_lookup_filter_Some. cbn. naive_solver.
  - destruct (proj1 Gs p cf h Hp) as [G W]. apply good_update; [done| |exact W|done].
    split; [exact (gp_accounted _ _ _ G)|exact (gp_locks _ _ _ G)|exact (gp_idle _ _ _ G)|exact (gp_file _ _ _ G)|by exists m].
Qed.

Lemma reachable_good s : reachable E listing lock_file interrupted fuel s -> good_system s.
Proof.
  induction 1 as [|s s' _ IH Hs]; [|by eapply good_step]. split; cbn; [intros p cf h Hp; by rewrite lookup_empty in Hp|intros i p Hp; by rewrite lookup_empty in Hp].
Qed.

(** ** What is promised *)

(** C17. Of two processes whose stores have the same lock file at most one drives: has an order
    in flight, an account, a timer of the scheduler or of the bootstrap, or a walk over the
    store under way. It holds the lock of the file, until it has let go of all of that; and a
    process has no descriptors open but those of its walk and of its lock. This is so whenever
    processes start, wait, take over, reload with another store, exit or are killed. *)
Theorem one_driver (s : system H) (p q : nat) (cfp cfq : conf) (hp hq : host H) :
  reachable E listing lock_file interrupted fuel s ->
  procs s !! p = Some (cfp, hp) -> procs s !! q = Some (cfq, hq) ->
  (accounted hp /\ (driving hp -> exists fd c, lock_fd hp = Some (fd, lock_file c (store_path (stores cfp))) /\ held s !! lock_file c (store_path (stores cfp)) = Some p))
  /\ (driving hp -> driving hq -> (forall c c', lock_file c (store_path (stores cfp)) = lock_file c' (store_path (stores cfq))) -> p = q).
Proof.
  intros Hr Hp Hq. apply reachable_good in Hr as [Gs _]. destruct (Gs p _ _ Hp) as [Gp _], (Gs q _ _ Hq) as [Gq _].
  assert (Hown : forall p cf h, good_proc p cf (set_locks (held s) h) -> driving h ->
    exists fd c, lock_fd h = Some (fd, lock_file c (store_path (stores cf))) /\ held s !! lock_file c (store_path (stores cf)) = Some p).
  { intros p' cf h G Hd. destruct (lock_fd h) as [[fd i]|] eqn:El; [|by destruct (gp_idle _ _ _ G El)].
    destruct (gp_file _ _ _ G fd i El) as [c ->]. exists fd, c. split; [done|]. apply (gp_locks _ _ _ G). by exists fd. }
  split; [split; [exact (gp_accounted _ _ _ Gp)|by apply Hown]|]. intros Hdp Hdq Hsame.
  destruct (Hown p cfp hp Gp Hdp) as (_ & c & _ & H1), (Hown q cfq hq Gq Hdq) as (_ & c' & _ & H2). rewrite (Hsame c c') in H1. congruence.
Qed.

(** The end of a process: it exits, or is killed. *)
Definition ends (s : system H) (q : nat) (s' : system H) : Prop :=
  (exists cf h h', procs s !! q = Some (cf, h) /\ driver_exit_process cf (set_locks (held s) h) = Ret tt h' /\ s' = System (delete q (procs s)) (locks h'))
  \/ s' = System (delete q (procs s)) (filter (fun il => il.2 <> q) (held s)).

Lemma ends_spec s q s' : good_system s -> ends s q s' ->
  step E listing lock_file interrupted fuel s s' /\ procs s' = delete q (procs s) /\ kept q (held s) (held s') /\ forall i, held s' !! i <> Some q.
Proof.
  intros Gs [(cf & h & h' & Hq & Ex & ->)| ->].
  - destruct (proj1 Gs q cf h Hq) as [Gq _]. pose proof (wp_driver_exit q cf _ Gq) as Wp. unfold wp in Wp. rewrite Ex in Wp. destruct Wp as (_ & _ & K & Hno).
    split; [by eapply step_exit|]. by split.
  - split; [apply step_killed|]. split; [done|]. split; [apply kept_filter|]. cbn. intros i. rewrite map_lookup_filter_Some. cbn. naive_solver.
Qed.

(** C18. When the process that drives a store ends, which it always can, another takes over:
    one that could drive the store, and is not quitting, has been waiting with its timer set,
    and when that fires it takes the lock and arms the driver. *)
Theorem driver_handed_over (s : system H) (q p i : nat) (cfq cf : conf) (hq h : host H) :
  reachable E listing lock_file interrupted fuel s ->
  procs s !! q = Some (cfq, hq) -> held s !! i = Some q -> p <> q ->
  procs s !! p = Some (cf, h) -> (forall c, lock_file c (store_path (stores cf)) = i) -> unhindered E cf -> quitting (drv h) = false ->
  (exists h', driver_exit_process cfq (set_locks (held s) hq) = Ret tt h') /\ forall s1, ends s q s1 -> exists s2 h2,
    step E listing lock_file interrupted fuel s1 s2 /\ procs s2 !! p = Some (cf, h2)
    /\ held s2 !! i = Some p /\ kick_timer (tmr (drv h2)) = Some NGX_AUTOCERT_KICK.
Proof.
  intros Hr Hq Hi Hne Hp Hfile Hu Hnq. pose proof (reachable_good s Hr) as Gs. split.
  - destruct (proj1 Gs q cfq hq Hq) as [Gq _]. pose proof (wp_driver_exit q cfq _ Gq) as Wp. unfold wp in Wp.
    destruct (driver_exit_process cfq (set_locks (held s) hq)) as [[] h'| | |] eqn:Ex; [by exists h'|done..].
  - intros s1 He. destruct (ends_spec s q s1 Gs He) as (Hs1 & Ep & K1 & Hno). pose proof (good_step s s1 Gs Hs1) as Gs1.
    assert (Hp1 : procs s1 !! p = Some (cf, h)) by (rewrite Ep; by rewrite lookup_delete_ne).
    destruct (proj1 Gs p cf h Hp) as [G0 _], (proj1 Gs1 p cf h Hp1) as [G1 W1].
    assert (Hl : lock_fd h = None).
    { destruct (lock_fd h) as [[fd j]|] eqn:El; [|done]. destruct (gp_file _ _ _ G0 fd j El) as [c ->]. rewrite Hfile in El.
      assert (held s !! i = Some p) by (apply (gp_locks _ _ _ G0); by exists fd). congruence. }
    destruct (W1 Hu Hnq) as [Hc|Hw]; [done|]. pose proof (wp_relock_tick p cf _ G1) as Wp. unfold wp in Wp.
    destruct (relock_tick E listing lock_file interrupted fuel p cf (set_locks (held s1) h)) as [[] h2| | |] eqn:Et; [|done..]. destruct Wp as (G2 & K2 & _ & Hatt).
    destruct (Hatt Hl Hw Hnq) as (_ & _ & Hacq). exists (System (<[p := (cf, h2)]> (procs s1)) (locks h2)), h2.
    split; [eapply (step_relock _ _ _ _ _ _ p cf _ h Hp1); by exists cf, h, h2|]. split; [apply lookup_insert_eq|].
    destruct (Hacq Hu) as [[Hgot Hk]|(_ & c & [r Hheld])].
    + split; [|done]. destruct (lock_fd h2) as [[fd j]|] eqn:El; [|done]. destruct (gp_file _ _ _ G2 fd j El) as [c ->]. rewrite Hfile in El.
      cbn. apply (gp_locks _ _ _ G2). by exists fd.
    + exfalso. rewrite Hfile in Hheld. cbn in Hheld. destruct (decide (r = q)) as [->|Hrq]; [by apply Hno in Hheld|]. apply (K1 i r Hrq) in Hheld. congruence.
Qed.
End Keeping.

(** ** Runs *)

#[local] Existing Instance plain_trees.
#[local] Instance plain_registry : Registry requests_sh := requests_registry (fun _ => 0) no_oom 0.

(** Two processes of one configuration, as after an upgrade of the program: the first has the
    lock, the second waits. *)
Definition fresh_ex : world requests_sh := world0 zone_ex ∅ 100.
Definition file_ex (c : nat) (path : bytes) : nat := 5.
Definition no_signal (c : nat) : bool := false.
Abbreviation init_ex p L := (ngx_autocert_driver_init_process (env_ex [] []) listing_ex file_ex no_signal 1 p two (set_locks L (host0 fresh_ex))).

Definition outcome_of (o : outcome (host requests_sh) unit) : host requests_sh := match o with Ret _ h => h | _ => host0 fresh_ex end.

Definition first_ex : host requests_sh := outcome_of (init_ex 1%nat ∅).
Definition second_ex : host requests_sh := outcome_of (init_ex 2%nat (locks first_ex)).
Definition system_ex : system requests_sh :=
  System (<[2%nat := (two, second_ex)]> (<[1%nat := (two, first_ex)]> ∅)) (locks second_ex).

Lemma no_signal_calm c : (0 <= c)%nat -> no_signal c = false.
Proof. done. Qed.

Lemma fresh_ex_quiet : quiescent fresh_ex.
Proof. done. Qed.

Lemma system_ex_reached : reachable (env_ex [] []) listing_ex file_ex no_signal 1 system_ex.
Proof.
  assert (H1 : init_ex 1%nat ∅ = Ret tt first_ex) by (vm_compute; reflexivity).
  assert (H2 : init_ex 2%nat (locks first_ex) = Ret tt second_ex) by (vm_compute; reflexivity).
  eapply reachable_step; [eapply reachable_step; [apply reachable_none|]|].
  - eapply (step_start _ _ _ _ _ (System ∅ ∅) 1 two fresh_ex ∅); [done|exact fresh_ex_quiet|exact zone_ex_inv|exact H1].
  - eapply (step_start _ _ _ _ _ (System _ _) 2 two fresh_ex ∅); [done|exact fresh_ex_quiet|exact zone_ex_inv|exact H2].
Qed.

Lemma one_driver_witness :
  (accounted first_ex /\ (driving first_ex -> exists fd c, lock_fd first_ex = Some (fd, file_ex c (store_path (stores two)))
     /\ held system_ex !! file_ex c (store_path (stores two)) = Some 1%nat))
  /\ (driving first_ex -> driving second_ex -> (forall c c', file_ex c (store_path (stores two)) = file_ex c' (store_path (stores two))) -> 1%nat = 2%nat).
Proof.
  apply (one_driver (env_ex [] []) listing_ex file_ex no_signal 1 0 no_signal_calm (le_n 1) system_ex 1 2 two two first_ex second_ex system_ex_reached); reflexivity.
Defined.

Lemma driver_handed_over_witness :
  (exists h', driver_exit_process two (set_locks (held system_ex) first_ex) = Ret tt h')
  /\ forall s1, ends system_ex 1 s1 -> exists s2 h2,
    step (env_ex [] []) listing_ex file_ex no_signal 1 s1 s2 /\ procs s2 !! 2%nat = Some (two, h2)
    /\ held s2 !! 5%nat = Some 2%nat /\ kick_timer (tmr (drv h2)) = Some NGX_AUTOCERT_KICK.
Proof.
  apply (driver_handed_over (env_ex [] []) listing_ex file_ex no_signal 1 0 no_signal_calm (le_n 1) system_ex 1 2 5 two two first_ex second_ex system_ex_reached);
    [reflexivity|vm_compute; reflexivity|discriminate|reflexivity|reflexivity| |vm_compute; reflexivity].
  repeat split. apply Nat.ltb_lt. vm_compute. reflexivity.
Defined.

(** A process that waits gives up when a call fails while it tries. *)
Definition failing_ex : env unit unit :=
  Env (fun _ => false) (starts (env_ex [] [])) (disk_view (env_ex [] [])) (file_calls (env_ex [] [])) (push_fails (env_ex [] [])) (copy_fails (env_ex [] [])) ex_inet_addr ex_inet6_addr.

Example relock_gives_up :
  relock_timer second_ex = true
  /\ match relock_tick failing_ex listing_ex file_ex no_signal 1 2 two (set_locks ∅ second_ex) with
     | Ret _ h => negb (relock_timer h) && bool_decide (lock_fd h = None)
     | _ => false
     end = true.
Proof. split; vm_compute; reflexivity. Qed.
